(* ===== verification/_CoqProject ===== *)
-Q . S2P
Prelude.v
Aes.v
Text.v
Limits.v
Endian.v
Sha2.v
Digests.v
Scrypt.v
Reader.v
Writer.v
Binary.v
Codes.v
Errors.v
Serializer.v
Number.v
Operation.v
Script.v
Patterns.v
Chain.v
Selection.v
Radix.v
Base16.v
Base58.v
Base64.v
Base10.v
Mnemonics.v
Cashaddr.v
ConvertBits.v
Compact.v
Data.v
Header.v
Checksum.v
WordsLatin.v
WordsOther.v
Mnemonic.v
Dictionary.v
ChainState.v
Transaction.v
TxCodec.v
TxRules.v
Block.v
BlockRules.v
Sighash.v
LaxDer.v
Elliptic.v
Keys.v
KeyRules.v
Addresses.v
EncryptedKeys.v
EncryptedRules.v
SignedMessage.v
Stealth.v
StealthRules.v
HdKeys.v
Program.v
Interpreter.v
InterpRules.v
SipHash.v
Message.v
MsgInventory.v
MsgControl.v
MsgBlock.v
Heading.v
Uri.v
UriRules.v
Printer.v
Config.v
ConfigRules.v
EncryptedTexts.v
TxFunctions.v
TxFunctionRules.v
Subscribers.v
Sequencing.v
Locks.v
Unicode.v
Keoken.v
KeokenRules.v
Hash.v
Samples.v
WalletSamples.v
