(* ===== verification/Prelude.v ===== *)
(** * bitprim-core: consensus, messages and wallet

    A model of the C++ library under [src/] and the theorems that make it
    correct. Paths below are relative to [src/src/] and
    [src/include/bitcoin/bitcoin/].

    ** The program and its parts

    The library parses blocks and transactions from the wire or from a store,
    checks them on their own ([check]), in the context of a chain state
    ([accept]) and against the outputs they spend ([connect]). Readers and
    writers serve every codec; scripts are byte strings parsed into operations
    on demand; the interpreter runs operations over a program, the state of the
    script machine; the chain state collects what the preceding blocks decide:
    the active rules, the median time past and the required work. A block calls
    its header and its transactions, a transaction its inputs and outputs, and
    the verification of an input runs the interpreter, which asks the
    transaction for the hash a signature covers. The network messages are
    payloads over the same readers and writers, framed by a heading. The wallet
    builds on the curve, the checksums and the text formats: keys, addresses,
    derivation, signed messages, stealth payments, mnemonics, encrypted keys and
    URIs; the transaction functions and the asset protocol keoken build on the
    wallet. The utilities below them notify, order and lock across threads.

    ** The files

    - [Prelude] (this file): machine integers as [Z] with their wrap written
      out, bytes, the sort and the uniqueness test of the C++ library, tactics
      and the hint database [bitprim].
    - [Text]: [utility/string.cpp]. [Aes]: [math/external/aes256.c], with its
      bit operations.
    - [Limits]: [math/limits.hpp]; an exception is [None].
    - [Endian]: [impl/utility/endian.ipp].
    - [Sha2], [Digests], [Scrypt]: the digests of [math/external/]: SHA-256 and
      SHA-512 with their incremental interface, keyed forms and derivations;
      SHA-1 and RIPEMD-160; the memory hard digest, and the form of it for
      Litecoin over the class [OpenSSL].
    - [Reader]: the interface [utility/reader.hpp] as the class [Reader], what a
      client may rely on as the class [ReaderLaws], and its two instances,
      [Deserializer] ([impl/utility/deserializer.ipp]) and [Istream]
      ([utility/istream_reader.cpp]), each with its laws.
    - [Writer]: [utility/ostream_writer.cpp]; the judgement [reads] says that a
      parser returns a value from a serialization followed by any bytes, and
      [accepts] says what a parser that succeeds has consumed.
    - [Binary]: [utility/binary.cpp], with the list of bits it stands for.
    - [Codes]: [error.hpp], [machine/opcode.hpp], [machine/rule_fork.hpp] and
      [constants.hpp]. The build selects the currency with macros; here it is
      the parameter [Currency], and every definition that depends on it states
      all three builds. [Errors]: the messages and categories of [error.cpp].
    - [Serializer]: [impl/utility/serializer.ipp], the writer over an iterator.
    - [Number], [Operation], [Script], [Patterns]: [impl/machine/number.ipp],
      [impl/machine/operation.ipp], [machine/operation.cpp] and the part of
      [chain/script.cpp] on bytes, operations, templates and counts.
      [Mnemonics]: the names of [machine/opcode.cpp] and the text forms of
      operations and scripts.
    - [Chain]: [chain/point.cpp], [chain/output.cpp], [chain/output_point.cpp],
      [chain/witness.cpp] and [chain/input.cpp]. An output point carries the
      spent output the way the code caches it. [Selection]:
      [chain/point_iterator.cpp], [chain/point_value.cpp],
      [chain/points_value.cpp] and [wallet/select_outputs.cpp].
    - [Radix], [Base16], [Base58], [Base64], [Base10]: [formats/]; [Base64]
      also holds base 85, [Radix] the positional arithmetic they share and
      [Base10] their common theorem.
    - [Cashaddr], [ConvertBits]: [wallet/cashaddr.cpp] and the regrouping of
      bits of [wallet/payment_address.cpp].
    - [Compact], [Header], [ChainState]: [chain/compact.cpp],
      [chain/header.cpp], [config/checkpoint.cpp] and [chain/chain_state.cpp].
      The digests are the class [Crypto]. [Data]: [utility/data.hpp] with its
      implementation. [Checksum]: [math/checksum.cpp].
    - [Transaction], [TxCodec], [TxRules]: [chain/transaction.cpp], its two
      serializations, and its rules. The memoized values are fields, so the
      theorems can say when they are stale.
    - [Block], [BlockRules]: [chain/block.cpp].
    - [Sighash], [Program], [Interpreter], [InterpRules]: the signature hashes
      of [chain/script.cpp], [impl/machine/program.ipp],
      [impl/machine/interpreter.ipp], [machine/interpreter.cpp], and
      [script::verify], [witness::verify] and the [connect] functions of
      transactions and blocks. Parsing and verifying an elliptic curve
      signature is the class [Ecdsa].
    - [Elliptic]: [math/elliptic_curve.cpp] over the library it calls, which is
      the class [Secp256k1] with the laws of the group as [Secp256k1Laws].
      [Keys], [KeyRules]: [wallet/ec_private.cpp], [wallet/ec_public.cpp] and
      [wallet/payment_address.cpp]. [Addresses]: the caches of addresses of
      [chain/output.cpp] and [chain/input.cpp], and the text of
      [chain/witness.cpp]. [HdKeys]: [wallet/hd_private.cpp] and
      [wallet/hd_public.cpp]. [SignedMessage]: [wallet/message.cpp]. [Stealth],
      [StealthRules]: [math/stealth.cpp] and the stealth address, receiver and
      sender of [wallet/]. [Mnemonic]: [wallet/mnemonic.cpp].
      [WordsLatin], [WordsOther], [Dictionary]: [wallet/dictionary.cpp].
      [LaxDer]: [math/external/lax_der_parsing.c].
    - [EncryptedKeys], [EncryptedRules], [EncryptedTexts]:
      [wallet/encrypted_keys.cpp], the layouts of
      [wallet/parse_encrypted_keys/], the three types of text [wallet/ek_*.cpp]
      and [wallet/mini_keys.cpp]. [Uri], [UriRules]: [wallet/uri.cpp],
      [wallet/bitcoin_uri.cpp] and [wallet/uri_reader.hpp]. [Printer]:
      [config/parameter.cpp] and [config/printer.cpp].
    - [Config], [ConfigRules]: the types of [config/] that are read from and
      printed as text, the settings and the merging of checkpoints; what they
      call in boost is the class [Boost]. [TxFunctions], [TxFunctionRules]:
      [wallet/transaction_functions.cpp]. [Keoken], [KeokenRules]:
      [bitprim/keoken/].
    - [Subscribers], [Sequencing], [Locks]: the subscribers, the pending
      collection, the synchronizer, the sequencer and the locks of [utility/].
      [Unicode]: [unicode/unicode.cpp] and [unicode/unicode_streambuf.cpp] over
      the class [Locale].
    - [SipHash]: [math/sip_hash.cpp].
    - [Message], [MsgInventory], [MsgControl], [MsgBlock], [Heading]: [message/].
      What a message type provides is the class of [Message]; its instances are
      in the three files of payloads; [Heading] frames a message and states the
      theorems over all of them.
    - [Hash]: [math/hash.cpp]; the digests of [Sha2], [Digests] and [Scrypt] as
      instances of the interfaces that the rest is proved against, and the
      genesis blocks checked with them.
    - [Samples], [WalletSamples]: concrete instances and inputs, with each
      theorem that has hypotheses applied to one. The group of [WalletSamples]
      is a small one that satisfies the laws.

    ** Conventions

    An operation on an object takes the object and returns the new one; an
    accessor that memoizes returns the value and the object. A reader is a state
    passed through a small monad. A function that can throw returns an option,
    a parser that returns false a pair with the flag, validation an
    [error.code]. Function statics are explicit: the proof of work limit that
    the first call fixes is an argument of [is_valid_proof_of_work]. The wall
    clock and the contents of uninitialized members are arguments. Text is a
    list of character codes. Stacks of the machine are lists with the top first.
    Mutexes guard the caches in the code and each critical section is one step
    here; where the interleaving of threads is the point, in [Subscribers],
    [Sequencing] and [Locks], the steps are an inductive relation and a property
    holds of every reachable state. Assigning a list replaces it as a whole: the validity flags that an
    element by element assignment of points would keep are not followed through
    the assignment of a vector. The capacity a vector gets when it reserves is
    the class [VectorAlloc], of which nothing is assumed: a loop to the capacity
    reads back what was written when the capacity is what was asked for, and
    [message_frame_roundtrip] says that it does not when it is more.

    ** Fuel

    [operations_loop] takes one unit per operation and a final test, and is
    given the number of bytes plus one: an operation takes at least a byte. The
    loops of [find_and_delete] get the length of the script plus one for the
    same reason. [data_loop] of a number gets 8, the bytes of a [uint64_t].
    [logical_size] gets 32 turns, the bytes of a 256 bit number.
    [locator_heights] gets 75 turns and [locator_heights_spec] proves that they
    suffice for every 64 bit height. [merkle_loop] gets the number of hashes,
    which halves at each turn; [merkle_loop_fuel] proves that more changes
    nothing. [max_money_recursive] gets 65 turns for a 64 bit amount. The search
    of a stealth nonce makes the 2^32 - 1 turns of the code, counted by a binary
    number, and [stealth_script_found] says that they miss no nonce but the
    first. [derive_loop] and [loop256] of the key derivations get a turn for each
    byte of output, of which each turn makes at least one; [transform_loop] and
    [update_loop] of the digests get the length of the message, of which each
    turn takes a block; [query_loop] of a URI the length of the query;
    [read_terminated] of a name its maximal size; [names_loop] of the help text
    more than 258 turns beyond the number of names, and [upper_bound] the
    length of the list and one. Loops over lists are
    structural.

    ** The theorems

    - Money: a checked and accepted transaction or block creates none beyond
      the subsidy ([checked_accepted_conserves], [block_conserves]; the lemma
      [subsidy_schedule] gives the schedule).
    - Spending: what connecting a block verifies ([block_connect_success]),
      the pay to key hash script ([key_hash_spend]), multisignatures
      ([check_multisig_accepts]), lock times ([lock_time_checks]), the limits of
      evaluation at every operation ([evaluate_success]) and the condition
      counter ([condition_counter_exact]).
    - Codecs: transactions, blocks and scripts parse back from what is written
      ([tx_wire_roundtrip], [block_roundtrip], [operations_lossless]), and so do
      the text of a script ([script_text_roundtrip]), single values in every
      encoding ([encodings_roundtrip]), addresses and keys
      ([address_texts_roundtrip], [key_texts_roundtrip]) and every network
      message in its frame ([message_frame_roundtrip]).
    - Encryption: a secret that is encrypted to a text is decrypted from it
      ([encrypted_text_decrypts], over the lemmas [encrypt_decrypts] and
      [aes_decrypt_encrypt]); a pair made from a token decrypts with the
      passphrase of the token ([token_pair_decrypts]).
    - Building transactions: an input that the library signs is accepted by its
      interpreter ([signed_input_verifies]), and the messages of the asset
      protocol are carried by the transactions built for them
      ([asset_messages_carried]); the lemma [tx_encode_spec] says what is built.
    - What is accepted and refused: what a message is after a parse that failed
      ([messages_refuse_cleanly]), the lemma [message_limits], which texts are
      read as an address ([address_texts_exact]), and the errors that cashaddr
      detects ([burst_detected]); the lemma [lax_parse_spec] gives the language
      of the lax parser of signatures and that it reads nothing outside its
      input.
    - Work and state: targets in exact arithmetic ([compact_forms],
      [is_valid_proof_of_work_exact], [work_required_retarget_target]), rule
      activation and the timestamps of the next state (the lemmas
      [activation_rules] and [to_pool_timestamps]); the genesis blocks pass their checks
      ([genesis_blocks_valid]).
    - Structure of blocks: double spends and forward references
      ([spend_tests]), the merkle tree ([merkle_root_shape]) and the locator
      ([locator_heights_spec]).
    - Templates: the lemma [built_scripts_recognized].
    - Caches: [reachable_accessors] for the operations that keep them exact; the lemma
      [assigned_hash_is_stale] shows that assignment does not. The lemmas
      [addresses_of_script], [addresses_keep_versions] and
      [addresses_outlive_reading] say what the address caches return.
    - Digests: every digest, authentication code and derivation is that of its
      standard ([digests_standard]), over the compression functions of the code.
      The lemmas [sha1_vector], [ripemd160_vector] and [scrypt_vector] check
      published values.
    - Keys: signatures verify ([signatures_verify]), derivation commutes with
      taking the public key ([derive_commutes]), a stealth payment reaches its
      receiver ([stealth_payment]) and its search ends ([stealth_script_found]),
      a mnemonic is valid exactly when it was created, with the dictionaries
      that are shipped ([shipped_mnemonics]).
    - Data structures: the bit string implements a list of bits
      ([binary_refines]), the serializer writes what the stream writer does
      ([serializer_refines_writer]), and the lemmas [siphash_functions] and
      [greedy_spec]: the unrolled hashes agree with the incremental one, the
      greedy selection is optimal.
    - Threads: handlers are called in order and once
      ([notifications_delivered]), the prioritized mutex excludes, does not
      deadlock and gives way to high priority ([prioritized_mutex_safe]); the
      lemmas [sequencer_sequential], [synchronizer_once], [pending_stops] and
      [sequential_lock_spec].
    - Text: what is written in pieces is converted as a whole, as far as the
      wide stream takes it ([streambuf_converts]); URIs and the configuration types are read back
      ([uri_decode_encoded], [uri_query_roundtrip], [bitcoin_uri_roundtrip],
      [config_texts_roundtrip]). The lemmas [columnize_spec],
      [argument_names_expanded] and [generate_parameters_ordered] are about the
      help text, [witness_text_injective] about that of a witness.
    - Departures from the consensus rules, as the code has them: the lemmas
      [check_sig_not_spent_by_nothing] and [multisig_key_is_reused].

    ** Not modelled

    The curve, of which the library is not in the repository: its operations are
    a class with the laws of the group. The validation timers, and stream
    operators that only forward. The form of scrypt in SSE2 intrinsics. Wrappers of boost and of the operating
    system, whose effect is that of the service they wrap: threads, timers,
    sockets, file locks and services; logging and its statistics; the console
    and the argument lists of Windows; the conversion of whole text and its
    normal forms (parameters); option parsing; bit maps of codes through external encoders. *)

From stdpp Require Export prelude list.
From Stdlib Require Export ZArith Lia Sorted.
From Stdlib Require Ascii String.
Export String.StringSyntax.

#[global] Open Scope Z_scope.

(** ** Machine integers

    A [w]-bit unsigned integer of the program is a [Z] in [0, 2^w); the
    wrap-around of its arithmetic is written out with [wrap]. *)

Definition wrap (w v : Z) : Z := v mod 2 ^ w.

Definition u8 (v : Z) : Z := wrap 8 v.
Definition u16 (v : Z) : Z := wrap 16 v.
Definition u32 (v : Z) : Z := wrap 32 v.
Definition u64 (v : Z) : Z := wrap 64 v.

(** Two's complement reading of a [w]-bit word. *)
Definition swrap (w v : Z) : Z := (v + 2 ^ (w - 1)) mod 2 ^ w - 2 ^ (w - 1).

Definition in_width (w v : Z) : Prop := 0 <= v < 2 ^ w.

#[global] Instance in_width_dec w v : Decision (in_width w v).
Proof. unfold in_width. apply _. Defined.

(** ** Bytes *)

Definition byte_ok (b : Z) : Prop := 0 <= b < 256.

#[global] Instance byte_ok_dec b : Decision (byte_ok b).
Proof. unfold byte_ok. apply _. Defined.

Definition bytes_ok (l : list Z) : Prop := Forall byte_ok l.

#[global] Instance bytes_ok_dec l : Decision (bytes_ok l).
Proof. unfold bytes_ok. apply _. Defined.

(** The size of a container, as the [size_t] the code computes with. *)
Definition zlen {A} (l : list A) : Z := Z.of_nat (length l).

(** The characters of a [std::string], as bytes. *)
Definition chars (s : String.string) : list Z :=
  map (fun c => Z.of_N (Ascii.N_of_ascii c)) (String.list_ascii_of_string s).
Arguments chars s%_string_scope.

(** ** Tactics and hint databases *)

Create HintDb bitprim.

(** Turn the boolean tests of the code into propositions. *)
Ltac bool_to_prop :=
  repeat match goal with
  | H : (_ =? _) = true |- _ => apply Z.eqb_eq in H
  | H : (_ =? _) = false |- _ => apply Z.eqb_neq in H
  | H : (_ <? _) = true |- _ => apply Z.ltb_lt in H
  | H : (_ <? _) = false |- _ => apply Z.ltb_ge in H
  | H : (_ <=? _) = true |- _ => apply Z.leb_le in H
  | H : (_ <=? _) = false |- _ => apply Z.leb_gt in H
  | H : (_ >? _) = true |- _ => apply Z.gtb_lt in H
  | H : (_ >? _) = false |- _ => rewrite Z.gtb_ltb in H; apply Z.ltb_ge in H
  | H : (_ >=? _) = true |- _ => apply Z.geb_le in H
  | H : (_ >=? _) = false |- _ => rewrite Z.geb_leb in H; apply Z.leb_gt in H
  | H : negb _ = true |- _ => apply negb_true_iff in H
  | H : negb _ = false |- _ => apply negb_false_iff in H
  | H : _ && _ = true |- _ => apply andb_true_iff in H; destruct H
  | H : _ || _ = false |- _ => apply orb_false_iff in H; destruct H
  end.

(** Case analysis on the first test of the goal. *)
Ltac case_if :=
  match goal with
  | |- context [if ?b then _ else _] =>
      let E := fresh "E" in destruct b eqn:E; bool_to_prop
  end.

(** Case analysis on the first test of a hypothesis. *)
Ltac case_if_in H :=
  match type of H with
  | context [if ?b then _ else _] =>
      let E := fresh "E" in destruct b eqn:E; bool_to_prop
  end.

Ltac zlen_lia := unfold zlen in *; simpl length in *; lia.

(** ** Generic lemmas on integers *)

Lemma pow2_pos w : 0 <= w -> 0 < 2 ^ w.
Proof. intros. apply Z.pow_pos_nonneg; lia. Qed.

Lemma wrap_bound w v : 0 <= w -> 0 <= wrap w v < 2 ^ w.
Proof. intros. apply Z.mod_pos_bound, pow2_pos; lia. Qed.

Lemma wrap_small w v : in_width w v -> wrap w v = v.
Proof. intros. apply Z.mod_small. exact H. Qed.

Lemma u8_byte v : byte_ok (u8 v).
Proof. unfold byte_ok, u8. pose proof (wrap_bound 8 v). lia. Qed.

Lemma lxor_byte a b : byte_ok a -> byte_ok b -> byte_ok (Z.lxor a b).
Proof.
  intros Ha Hb. assert (E : Z.lxor a b = u8 (Z.lxor a b)); [|rewrite E; apply u8_byte].
  unfold u8, wrap. apply Z.bits_inj'. intros n Hn. destruct (Z.lt_ge_cases n 8).
  - by rewrite Z.mod_pow2_bits_low by lia.
  - rewrite Z.mod_pow2_bits_high by lia. rewrite Z.lxor_spec.
    rewrite <- (Z.mod_small a (2 ^ 8)), <- (Z.mod_small b (2 ^ 8)) by (unfold byte_ok in *; lia).
    by rewrite !Z.mod_pow2_bits_high by lia.
Qed.

Lemma lxor_mod a b w : 0 <= w -> Z.lxor a b mod 2 ^ w = Z.lxor (a mod 2 ^ w) (b mod 2 ^ w).
Proof.
  intros Hw. rewrite <- !Z.land_ones by lia. apply Z.bits_inj'. intros n Hn.
  rewrite !Z.land_spec, !Z.lxor_spec, !Z.land_spec.
  by destruct (Z.testbit a n), (Z.testbit b n), (Z.testbit (Z.ones w) n).
Qed.

Lemma lxor_width w a b : 0 <= w -> in_width w a -> in_width w b -> in_width w (Z.lxor a b).
Proof.
  intros Hw Ha Hb. unfold in_width in *. pose proof (pow2_pos w Hw).
  rewrite <- (Z.mod_small a (2 ^ w)), <- (Z.mod_small b (2 ^ w)), <- lxor_mod by done.
  by apply Z.mod_pos_bound.
Qed.

(** The exclusive or of two arrays. *)
Lemma zip_lxor_bytes l k : bytes_ok l -> bytes_ok k -> bytes_ok (zip_with Z.lxor l k).
Proof.
  intros Hl. revert k. induction Hl as [|x l Hx _ IH]; intros [|y k] Hk; try by constructor.
  apply Forall_cons in Hk as [Hy Hk]. constructor; [by apply lxor_byte|by apply IH].
Qed.

(** A word shorter than the shift does not meet the shifted one. *)
Lemma lor_shiftl_add a b k :
  0 <= k -> 0 <= a < 2 ^ k -> 0 <= b -> Z.lor a (Z.shiftl b k) = a + b * 2 ^ k.
Proof.
  intros Hk Ha Hb. rewrite Z.shiftl_mul_pow2 by lia.
  assert (Hland : Z.land a (b * 2 ^ k) = 0).
  { apply Z.bits_inj'. intros i Hi. rewrite Z.land_spec, Z.bits_0.
    destruct (Z.lt_ge_cases i k).
    - rewrite Z.mul_pow2_bits_low by lia. apply andb_false_r.
    - rewrite <- (Z.mod_small a (2 ^ k)) by lia.
      rewrite Z.mod_pow2_bits_high by lia. reflexivity. }
  rewrite <- Z.lxor_lor, <- Z.add_nocarry_lxor by exact Hland. reflexivity.
Qed.

(** ** Generic lemmas on byte lists *)

Lemma bytes_ok_nil : bytes_ok [].
Proof. constructor. Qed.

Lemma bytes_ok_cons b l : bytes_ok (b :: l) <-> byte_ok b /\ bytes_ok l.
Proof. unfold bytes_ok. apply Forall_cons. Qed.

Lemma bytes_ok_app l k : bytes_ok (l ++ k) <-> bytes_ok l /\ bytes_ok k.
Proof. unfold bytes_ok. apply Forall_app. Qed.

Lemma bytes_ok_repeat n : bytes_ok (repeat 0 n).
Proof. induction n; simpl; constructor; auto. unfold byte_ok; lia. Qed.

Lemma last_In {A} (l : list A) d : l <> [] -> In (List.last l d) l.
Proof.
  induction l as [|a [|b l] IH]; intros Hl; [done|by left|].
  right. by apply IH.
Qed.

Lemma map_nth_seq {A} (d : A) l : map (fun i => nth i l d) (seq 0 (length l)) = l.
Proof.
  induction l as [|x l IH]; [done|]. cbn [length seq map nth]. rewrite <- seq_shift, map_map. by rewrite IH.
Qed.

Lemma take_repeat {A} n m (x : A) : take n (repeat x m) = repeat x (n `min` m).
Proof. revert m. induction n as [|n IH]; intros [|m]; [done|done|done|]. simpl. by rewrite IH. Qed.

(** A decidable fact on a byte is checked on the 256 bytes. *)
Lemma byte_forall (f : Z -> bool) :
  forallb f (map Z.of_nat (seq 0 256)) = true -> forall b, byte_ok b -> f b = true.
Proof.
  intros Hf b Hb. rewrite forallb_forall in Hf. apply Hf.
  apply in_map_iff. exists (Z.to_nat b). unfold byte_ok in Hb.
  split; [lia|]. apply in_seq. lia.
Qed.

Lemma zlen_app {A} (l k : list A) : zlen (l ++ k) = zlen l + zlen k.
Proof. unfold zlen. rewrite length_app. lia. Qed.

Lemma zlen_nonneg {A} (l : list A) : 0 <= zlen l.
Proof. unfold zlen. lia. Qed.

Lemma zlen_concat_const {A} (ls : list (list A)) n :
  Forall (fun l => zlen l = n) ls -> zlen (concat ls) = zlen ls * n.
Proof.
  induction 1 as [|l ls Hl _ IH]; [done|]. cbn [concat]. rewrite zlen_app, Hl, IH. zlen_lia.
Qed.

Lemma bytes_ok_concat ls : Forall bytes_ok ls -> bytes_ok (concat ls).
Proof. induction 1; simpl; [constructor|by apply bytes_ok_app]. Qed.

Lemma Forall2_map_r {A B} (P : A -> B -> Prop) (f : A -> B) l :
  Forall (fun a => P a (f a)) l -> Forall2 P l (map f l).
Proof. induction 1; simpl; by constructor. Qed.

#[export] Hint Resolve bytes_ok_nil bytes_ok_repeat u8_byte zlen_nonneg : bitprim.
#[export] Hint Rewrite @zlen_app : bitprim.

(** Well-formedness of a byte string built from well-formed parts. *)
Ltac solve_bytes :=
  rewrite ?bytes_ok_app, ?bytes_ok_cons; repeat match goal with |- _ /\ _ => split end;
  auto with bitprim.

(** ** Sorting

    [std::sort] under a strict weak order, as insertion. *)

Section Sort.
Context {A : Type} (lt : A -> A -> bool).

Fixpoint sort_insert (x : A) (l : list A) : list A :=
  match l with
  | [] => [x]
  | y :: l => if lt y x then y :: sort_insert x l else x :: y :: l
  end.

Definition std_sort (l : list A) : list A := foldr sort_insert [] l.

Lemma sort_insert_perm x l : Permutation (sort_insert x l) (x :: l).
Proof.
  induction l as [|y l IH]; simpl; [done|]. case_if; [|done].
  rewrite IH. apply Permutation_swap.
Qed.

Lemma std_sort_perm l : Permutation (std_sort l) l.
Proof. induction l as [|x l IH]; simpl; [done|]. by rewrite sort_insert_perm, IH. Qed.

(** No element is less than one before it. *)
Definition sort_le (x y : A) : Prop := lt y x = false.

Hypothesis lt_asym : forall x y, lt x y = true -> lt y x = false.
  Hypothesis le_trans : forall x y z, sort_le x y -> sort_le y z -> sort_le x z.

Lemma sort_insert_sorted x l :
  StronglySorted sort_le l -> StronglySorted sort_le (sort_insert x l).
Proof.
  induction 1 as [|y l Hs IH Hy]; simpl; [repeat constructor|].
  destruct (lt y x) eqn:E; constructor; [done| |by constructor|].
  - rewrite sort_insert_perm. constructor; [by apply lt_asym|done].
  - constructor; [done|]. eapply Forall_impl; [exact Hy|]. intros z. by apply le_trans.
Qed.

Lemma std_sort_sorted l : StronglySorted sort_le (std_sort l).
Proof. induction l as [|x l IH]; simpl; [constructor|by apply sort_insert_sorted]. Qed.
End Sort.

(** [std::unique] finds no adjacent equal elements. *)
Fixpoint is_unique {A} (eqb : A -> A -> bool) (l : list A) : bool :=
  match l with
  | x :: ((y :: _) as rest) => negb (eqb x y) && is_unique eqb rest
  | _ => true
  end.

(** Sorting and then looking for equal neighbours decides distinctness. *)
Section Distinct.
Context {A K : Type} (lt eqb : A -> A -> bool) (key : A -> K).
  Hypothesis lt_asym : forall x y, lt x y = true -> lt y x = false.
  Hypothesis le_trans : forall x y z, sort_le lt x y -> sort_le lt y z -> sort_le lt x z.
  Hypothesis le_antisym : forall x y, sort_le lt x y -> sort_le lt y x -> key x = key y.
  Hypothesis le_key : forall x y, key x = key y -> sort_le lt x y.
  Hypothesis eqb_key : forall x y, eqb x y = true <-> key x = key y.

Lemma is_unique_sorted l :
  StronglySorted (sort_le lt) l -> is_unique eqb l = true <-> NoDup (map key l).
Proof.
  induction 1 as [|x l Hs IH Hx]; [split; [constructor|done]|].
  destruct l as [|y l]; [split; [|done]; intros _; apply NoDup_singleton|].
  cbn [is_unique map]. rewrite andb_true_iff, negb_true_iff, IH, NoDup_cons. split.
  - intros [Hne Hnd]. split; [|done]. intros Hin. apply list_elem_of_In in Hin.
    apply (in_map_iff key (y :: l)) in Hin as (z & Ez & Hz).
    assert (Hyz : sort_le lt y z).
    { destruct Hz as [<-|Hz]; [by apply le_key|]. inversion Hs as [|? ? _ Hy]; subst.
      rewrite Forall_forall in Hy. apply Hy. by apply list_elem_of_In. }
    apply Forall_cons in Hx as [Hxy _].
    assert (E : key x = key y) by (apply le_antisym; [done|]; apply le_trans with z; [done|by apply le_key]).
    apply eqb_key in E. congruence.
  - intros [Hnin Hnd]. split; [|done]. apply not_true_iff_false. intros E. apply eqb_key in E.
    apply Hnin. rewrite E. apply list_elem_of_In. by left.
Qed.

Lemma is_unique_sort l : is_unique eqb (std_sort lt l) = true <-> NoDup (map key l).
Proof.
  rewrite is_unique_sorted by (by apply std_sort_sorted).
  assert (Hp : Permutation (map key (std_sort lt l)) (map key l))
    by (apply Permutation_map, std_sort_perm).
  by rewrite Hp.
Qed.
End Distinct.
