(* ===== verification/Aes.v ===== *)
(** The block cipher of [src/math/crypto.cpp] over
    [src/math/external/aes256.c], in its tableless build. A buffer is the list
    of its bytes and [buf[i] = v] is the insertion at [i]. The main result is
    that decryption undoes encryption. *)

From Stdlib Require Import Ring.
From S2P Require Import Prelude.

Module aes.

Notation at_ l i := (nth i l 0).

(** ** The field *)

Definition F (x : Z) : Z := u8 (Z.lxor (Z.shiftl x 1) (Z.land (Z.shiftr x 7) 1 * 0x1b)).
Definition FD (x : Z) : Z := u8 (Z.lxor (Z.shiftr x 1) (if negb (Z.land x 1 =? 0) then 0x8d else 0)).

(** [z = atb; atb <<= 1; if (z & 0x80) atb ^= 0x1b; atb ^= z;] *)
Definition gf_next (atb : Z) : Z :=
  let z := atb in
  let atb := u8 (Z.shiftl atb 1) in
  let atb := if negb (Z.land z 0x80 =? 0) then Z.lxor atb 0x1b else atb in
  Z.lxor atb z.

Definition gf_alog (x : Z) : Z := Nat.iter (Z.to_nat x) gf_next 1.

(** [do ... while (++i > 0)]: 256 turns bring the 8 bit counter back to zero. *)
Fixpoint gf_log_loop (turns : nat) (i atb x : Z) : Z :=
  match turns with
  | O => i
  | S turns => if atb =? x then i else gf_log_loop turns (u8 (i + 1)) (gf_next atb) x
  end.

Definition gf_log (x : Z) : Z := gf_log_loop 256 0 1 x.
Definition gf_mulinv (x : Z) : Z := if negb (x =? 0) then gf_alog (u8 (255 - gf_log x)) else 0.

(** [(y << n) | (y >> (8 - n))] *)
Definition rotate (n y : Z) : Z := u8 (Z.lor (Z.shiftl y n) (Z.shiftr y (8 - n))).

Definition rj_sbox (x : Z) : Z :=
  let y := gf_mulinv x in let sb := y in
  let y := rotate 1 y in let sb := Z.lxor sb y in
  let y := rotate 1 y in let sb := Z.lxor sb y in
  let y := rotate 1 y in let sb := Z.lxor sb y in
  let y := rotate 1 y in let sb := Z.lxor sb y in
  Z.lxor sb 0x63.

Definition rj_sbox_inv (x : Z) : Z :=
  let y := Z.lxor x 0x63 in
  let y := rotate 1 y in let sb := y in
  let y := rotate 2 y in let sb := Z.lxor sb y in
  let y := rotate 3 y in let sb := Z.lxor sb y in
  gf_mulinv sb.

(** The tables that [BACK_TO_TABLES] selects instead of the two functions. *)
Definition sbox : list Z := [
   0x63; 0x7c; 0x77; 0x7b; 0xf2; 0x6b; 0x6f; 0xc5; 0x30; 0x01; 0x67; 0x2b; 0xfe; 0xd7; 0xab; 0x76;
   0xca; 0x82; 0xc9; 0x7d; 0xfa; 0x59; 0x47; 0xf0; 0xad; 0xd4; 0xa2; 0xaf; 0x9c; 0xa4; 0x72; 0xc0;
   0xb7; 0xfd; 0x93; 0x26; 0x36; 0x3f; 0xf7; 0xcc; 0x34; 0xa5; 0xe5; 0xf1; 0x71; 0xd8; 0x31; 0x15;
   0x04; 0xc7; 0x23; 0xc3; 0x18; 0x96; 0x05; 0x9a; 0x07; 0x12; 0x80; 0xe2; 0xeb; 0x27; 0xb2; 0x75;
   0x09; 0x83; 0x2c; 0x1a; 0x1b; 0x6e; 0x5a; 0xa0; 0x52; 0x3b; 0xd6; 0xb3; 0x29; 0xe3; 0x2f; 0x84;
   0x53; 0xd1; 0x00; 0xed; 0x20; 0xfc; 0xb1; 0x5b; 0x6a; 0xcb; 0xbe; 0x39; 0x4a; 0x4c; 0x58; 0xcf;
   0xd0; 0xef; 0xaa; 0xfb; 0x43; 0x4d; 0x33; 0x85; 0x45; 0xf9; 0x02; 0x7f; 0x50; 0x3c; 0x9f; 0xa8;
   0x51; 0xa3; 0x40; 0x8f; 0x92; 0x9d; 0x38; 0xf5; 0xbc; 0xb6; 0xda; 0x21; 0x10; 0xff; 0xf3; 0xd2;
   0xcd; 0x0c; 0x13; 0xec; 0x5f; 0x97; 0x44; 0x17; 0xc4; 0xa7; 0x7e; 0x3d; 0x64; 0x5d; 0x19; 0x73;
   0x60; 0x81; 0x4f; 0xdc; 0x22; 0x2a; 0x90; 0x88; 0x46; 0xee; 0xb8; 0x14; 0xde; 0x5e; 0x0b; 0xdb;
   0xe0; 0x32; 0x3a; 0x0a; 0x49; 0x06; 0x24; 0x5c; 0xc2; 0xd3; 0xac; 0x62; 0x91; 0x95; 0xe4; 0x79;
   0xe7; 0xc8; 0x37; 0x6d; 0x8d; 0xd5; 0x4e; 0xa9; 0x6c; 0x56; 0xf4; 0xea; 0x65; 0x7a; 0xae; 0x08;
   0xba; 0x78; 0x25; 0x2e; 0x1c; 0xa6; 0xb4; 0xc6; 0xe8; 0xdd; 0x74; 0x1f; 0x4b; 0xbd; 0x8b; 0x8a;
   0x70; 0x3e; 0xb5; 0x66; 0x48; 0x03; 0xf6; 0x0e; 0x61; 0x35; 0x57; 0xb9; 0x86; 0xc1; 0x1d; 0x9e;
   0xe1; 0xf8; 0x98; 0x11; 0x69; 0xd9; 0x8e; 0x94; 0x9b; 0x1e; 0x87; 0xe9; 0xce; 0x55; 0x28; 0xdf;
   0x8c; 0xa1; 0x89; 0x0d; 0xbf; 0xe6; 0x42; 0x68; 0x41; 0x99; 0x2d; 0x0f; 0xb0; 0x54; 0xbb; 0x16].

Definition sboxinv : list Z := [
   0x52; 0x09; 0x6a; 0xd5; 0x30; 0x36; 0xa5; 0x38; 0xbf; 0x40; 0xa3; 0x9e; 0x81; 0xf3; 0xd7; 0xfb;
   0x7c; 0xe3; 0x39; 0x82; 0x9b; 0x2f; 0xff; 0x87; 0x34; 0x8e; 0x43; 0x44; 0xc4; 0xde; 0xe9; 0xcb;
   0x54; 0x7b; 0x94; 0x32; 0xa6; 0xc2; 0x23; 0x3d; 0xee; 0x4c; 0x95; 0x0b; 0x42; 0xfa; 0xc3; 0x4e;
   0x08; 0x2e; 0xa1; 0x66; 0x28; 0xd9; 0x24; 0xb2; 0x76; 0x5b; 0xa2; 0x49; 0x6d; 0x8b; 0xd1; 0x25;
   0x72; 0xf8; 0xf6; 0x64; 0x86; 0x68; 0x98; 0x16; 0xd4; 0xa4; 0x5c; 0xcc; 0x5d; 0x65; 0xb6; 0x92;
   0x6c; 0x70; 0x48; 0x50; 0xfd; 0xed; 0xb9; 0xda; 0x5e; 0x15; 0x46; 0x57; 0xa7; 0x8d; 0x9d; 0x84;
   0x90; 0xd8; 0xab; 0x00; 0x8c; 0xbc; 0xd3; 0x0a; 0xf7; 0xe4; 0x58; 0x05; 0xb8; 0xb3; 0x45; 0x06;
   0xd0; 0x2c; 0x1e; 0x8f; 0xca; 0x3f; 0x0f; 0x02; 0xc1; 0xaf; 0xbd; 0x03; 0x01; 0x13; 0x8a; 0x6b;
   0x3a; 0x91; 0x11; 0x41; 0x4f; 0x67; 0xdc; 0xea; 0x97; 0xf2; 0xcf; 0xce; 0xf0; 0xb4; 0xe6; 0x73;
   0x96; 0xac; 0x74; 0x22; 0xe7; 0xad; 0x35; 0x85; 0xe2; 0xf9; 0x37; 0xe8; 0x1c; 0x75; 0xdf; 0x6e;
   0x47; 0xf1; 0x1a; 0x71; 0x1d; 0x29; 0xc5; 0x89; 0x6f; 0xb7; 0x62; 0x0e; 0xaa; 0x18; 0xbe; 0x1b;
   0xfc; 0x56; 0x3e; 0x4b; 0xc6; 0xd2; 0x79; 0x20; 0x9a; 0xdb; 0xc0; 0xfe; 0x78; 0xcd; 0x5a; 0xf4;
   0x1f; 0xdd; 0xa8; 0x33; 0x88; 0x07; 0xc7; 0x31; 0xb1; 0x12; 0x10; 0x59; 0x27; 0x80; 0xec; 0x5f;
   0x60; 0x51; 0x7f; 0xa9; 0x19; 0xb5; 0x4a; 0x0d; 0x2d; 0xe5; 0x7a; 0x9f; 0x93; 0xc9; 0x9c; 0xef;
   0xa0; 0xe0; 0x3b; 0x4d; 0xae; 0x2a; 0xf5; 0xb0; 0xc8; 0xeb; 0xbb; 0x3c; 0x83; 0x53; 0x99; 0x61;
   0x17; 0x2b; 0x04; 0x7e; 0xba; 0x77; 0xd6; 0x26; 0xe1; 0x69; 0x14; 0x63; 0x55; 0x21; 0x0c; 0x7d].

(** The tables hold what the functions compute. *)
Lemma tables_computed : map rj_sbox (map Z.of_nat (seq 0 256)) = sbox /\ map rj_sbox_inv (map Z.of_nat (seq 0 256)) = sboxinv.
Proof. split; vm_compute; reflexivity. Qed.

Definition rj_xtime (x : Z) : Z :=
  if negb (Z.land x 0x80 =? 0) then u8 (Z.lxor (Z.shiftl x 1) 0x1b) else u8 (Z.shiftl x 1).

(** ** The steps of a round *)

Definition aes_subBytes (buf : list Z) : list Z := map rj_sbox buf.
Definition aes_subBytes_inv (buf : list Z) : list Z := map rj_sbox_inv buf.

(** [buf[i] ^= key[i]] for the 16 bytes *)
Definition aes_addRoundKey (buf key : list Z) : list Z := zip_with Z.lxor buf (take 16 key).

(** also copies the 32 bytes of the key *)
Definition aes_addRoundKey_cpy (buf key : list Z) : list Z * list Z := (aes_addRoundKey buf key, key).

Definition aes_shiftRows (buf : list Z) : list Z :=
  let i := at_ buf 1 in
  let buf := <[1%nat := at_ buf 5]> buf in let buf := <[5%nat := at_ buf 9]> buf in
  let buf := <[9%nat := at_ buf 13]> buf in let buf := <[13%nat := i]> buf in
  let i := at_ buf 10 in
  let buf := <[10%nat := at_ buf 2]> buf in let buf := <[2%nat := i]> buf in
  let j := at_ buf 3 in
  let buf := <[3%nat := at_ buf 15]> buf in let buf := <[15%nat := at_ buf 11]> buf in
  let buf := <[11%nat := at_ buf 7]> buf in let buf := <[7%nat := j]> buf in
  let j := at_ buf 14 in
  let buf := <[14%nat := at_ buf 6]> buf in <[6%nat := j]> buf.

Definition aes_shiftRows_inv (buf : list Z) : list Z :=
  let i := at_ buf 1 in
  let buf := <[1%nat := at_ buf 13]> buf in let buf := <[13%nat := at_ buf 9]> buf in
  let buf := <[9%nat := at_ buf 5]> buf in let buf := <[5%nat := i]> buf in
  let i := at_ buf 2 in
  let buf := <[2%nat := at_ buf 10]> buf in let buf := <[10%nat := i]> buf in
  let j := at_ buf 3 in
  let buf := <[3%nat := at_ buf 7]> buf in let buf := <[7%nat := at_ buf 11]> buf in
  let buf := <[11%nat := at_ buf 15]> buf in let buf := <[15%nat := j]> buf in
  let j := at_ buf 6 in
  let buf := <[6%nat := at_ buf 14]> buf in <[14%nat := j]> buf.

(** [buf[i] ^= v] *)
Definition xor_at (i : nat) (v : Z) (buf : list Z) : list Z := <[i := Z.lxor (at_ buf i) v]> buf.

Definition mix_column (i : nat) (buf : list Z) : list Z :=
  let a := at_ buf i in let b := at_ buf (i + 1) in let c := at_ buf (i + 2) in let d := at_ buf (i + 3) in
  let e := Z.lxor (Z.lxor (Z.lxor a b) c) d in
  let buf := xor_at i (Z.lxor e (rj_xtime (Z.lxor a b))) buf in
  let buf := xor_at (i + 1) (Z.lxor e (rj_xtime (Z.lxor b c))) buf in
  let buf := xor_at (i + 2) (Z.lxor e (rj_xtime (Z.lxor c d))) buf in
  xor_at (i + 3) (Z.lxor e (rj_xtime (Z.lxor d a))) buf.

Definition mix_column_inv (i : nat) (buf : list Z) : list Z :=
  let a := at_ buf i in let b := at_ buf (i + 1) in let c := at_ buf (i + 2) in let d := at_ buf (i + 3) in
  let e := Z.lxor (Z.lxor (Z.lxor a b) c) d in
  let z := rj_xtime e in
  let x := Z.lxor e (rj_xtime (rj_xtime (Z.lxor (Z.lxor z a) c))) in
  let y := Z.lxor e (rj_xtime (rj_xtime (Z.lxor (Z.lxor z b) d))) in
  let buf := xor_at i (Z.lxor x (rj_xtime (Z.lxor a b))) buf in
  let buf := xor_at (i + 1) (Z.lxor y (rj_xtime (Z.lxor b c))) buf in
  let buf := xor_at (i + 2) (Z.lxor x (rj_xtime (Z.lxor c d))) buf in
  xor_at (i + 3) (Z.lxor y (rj_xtime (Z.lxor d a))) buf.

Definition aes_mixColumns (buf : list Z) : list Z := fold_left (fun buf i => mix_column i buf) [0; 4; 8; 12]%nat buf.
Definition aes_mixColumns_inv (buf : list Z) : list Z :=
  fold_left (fun buf i => mix_column_inv i buf) [0; 4; 8; 12]%nat buf.

(** ** The key schedule *)

(** [k[i] ^= k[i-4], k[i+1] ^= k[i-3], k[i+2] ^= k[i-2], k[i+3] ^= k[i-1]] *)
Definition chain (i : nat) (k : list Z) : list Z :=
  let k := xor_at i (at_ k (i - 4)) k in
  let k := xor_at (i + 1) (at_ k (i - 3)) k in
  let k := xor_at (i + 2) (at_ k (i - 2)) k in
  xor_at (i + 3) (at_ k (i - 1)) k.

(** [k[16] ^= rj_sbox(k[12])] to [k[19] ^= rj_sbox(k[15])] *)
Definition chain_sbox (k : list Z) : list Z :=
  let k := xor_at 16 (rj_sbox (at_ k 12)) k in
  let k := xor_at 17 (rj_sbox (at_ k 13)) k in
  let k := xor_at 18 (rj_sbox (at_ k 14)) k in
  xor_at 19 (rj_sbox (at_ k 15)) k.

(** [k[0] ^= rj_sbox(k[29]) ^ (rc)] to [k[3] ^= rj_sbox(k[28])] *)
Definition chain_first (rc : Z) (k : list Z) : list Z :=
  let k := xor_at 0 (Z.lxor (rj_sbox (at_ k 29)) rc) k in
  let k := xor_at 1 (rj_sbox (at_ k 30)) k in
  let k := xor_at 2 (rj_sbox (at_ k 31)) k in
  xor_at 3 (rj_sbox (at_ k 28)) k.

Definition aes_expandEncKey (schedule : list Z * Z) : list Z * Z :=
  let '(k, rc) := schedule in
  let k := chain_first rc k in
  let rc := F rc in
  let k := fold_left (fun k i => chain i k) [4; 8; 12]%nat k in
  let k := chain_sbox k in
  (fold_left (fun k i => chain i k) [20; 24; 28]%nat k, rc).

Definition aes_expandDecKey (schedule : list Z * Z) : list Z * Z :=
  let '(k, rc) := schedule in
  let k := fold_left (fun k i => chain i k) [28; 24; 20]%nat k in
  let k := chain_sbox k in
  let k := fold_left (fun k i => chain i k) [12; 8; 4]%nat k in
  let rc := FD rc in
  (chain_first rc k, rc).

(** ** The cipher *)

Record aes256_context := mk_context { key : list Z; enckey : list Z; deckey : list Z }.

(** [for (i = 8; --i;)]: seven turns *)
Definition aes256_init (context : aes256_context) (k : list Z) : aes256_context :=
  mk_context (key context) k (fst (Nat.iter 7 aes_expandEncKey (k, 1))).

(** One turn of the loop of the encryption, for [i] from 1 to 13. *)
Definition encrypt_round (state : (list Z * Z) * list Z) (i : nat) : (list Z * Z) * list Z :=
  let '((k, rcon), buf) := state in
  let buf := aes_mixColumns (aes_shiftRows (aes_subBytes buf)) in
  if Nat.odd i then ((k, rcon), aes_addRoundKey buf (drop 16 k))
  else let '(k, rcon) := aes_expandEncKey (k, rcon) in ((k, rcon), aes_addRoundKey buf k).

Definition aes256_encrypt_ecb (context : aes256_context) (buf : list Z) : aes256_context * list Z :=
  let '(buf, k) := aes_addRoundKey_cpy buf (enckey context) in
  let '((k, rcon), buf) := fold_left encrypt_round (seq 1 13) ((k, 1), buf) in
  let buf := aes_shiftRows (aes_subBytes buf) in
  let '(k, rcon) := aes_expandEncKey (k, rcon) in
  (mk_context k (enckey context) (deckey context), aes_addRoundKey buf k).

(** One turn of the loop of the decryption, for [i] from 13 down to 1. *)
Definition decrypt_round (state : (list Z * Z) * list Z) (i : nat) : (list Z * Z) * list Z :=
  let '((k, rcon), buf) := state in
  let '((k, rcon), buf) :=
    if Nat.odd i then let '(k, rcon) := aes_expandDecKey (k, rcon) in ((k, rcon), aes_addRoundKey buf (drop 16 k))
    else ((k, rcon), aes_addRoundKey buf k) in
  ((k, rcon), aes_subBytes_inv (aes_shiftRows_inv (aes_mixColumns_inv buf))).

Definition aes256_decrypt_ecb (context : aes256_context) (buf : list Z) : aes256_context * list Z :=
  let '(buf, k) := aes_addRoundKey_cpy buf (deckey context) in
  let buf := aes_subBytes_inv (aes_shiftRows_inv buf) in
  let '((k, rcon), buf) := fold_left decrypt_round (rev (seq 1 13)) ((k, 0x80), buf) in
  (mk_context k (enckey context) (deckey context), aes_addRoundKey buf k).

(** [aes256_encrypt] and [aes256_decrypt] of [crypto.cpp], whose context has no
    initial value. *)
Definition aes256_encrypt (context : aes256_context) (secret block : list Z) : list Z :=
  snd (aes256_encrypt_ecb (aes256_init context secret) block).

Definition aes256_decrypt (context : aes256_context) (secret block : list Z) : list Z :=
  snd (aes256_decrypt_ecb (aes256_init context secret) block).

(** The vector of FIPS 197, appendix C.3. *)
Lemma aes_vector :
  aes256_encrypt (mk_context [] [] []) (map Z.of_nat (seq 0 32)) (map (fun i => 17 * Z.of_nat i) (seq 0 16)) =
  [0x8e; 0xa2; 0xb7; 0xca; 0x51; 0x67; 0x45; 0xbf; 0xea; 0xfc; 0x49; 0x90; 0x4b; 0x49; 0x60; 0x89].
Proof. vm_compute. reflexivity. Qed.

(** ** Exclusive or *)

(** Equalities of exclusive ors hold bit by bit in the boolean ring. *)
Ltac solve_xor :=
  apply Z.bits_inj'; intros ? _; rewrite ?Z.lxor_spec, ?Z.bits_0; ring.

Lemma xtime_lxor a b : byte_ok a -> byte_ok b -> rj_xtime (Z.lxor a b) = Z.lxor (rj_xtime a) (rj_xtime b).
Proof.
  intros Ha Hb.
  pose proof (byte_forall (fun a => forallb (fun b => rj_xtime (Z.lxor a b) =? Z.lxor (rj_xtime a) (rj_xtime b))
    (map Z.of_nat (seq 0 256))) ltac:(vm_compute; reflexivity) a Ha) as H.
  apply Z.eqb_eq. exact (byte_forall _ H b Hb).
Qed.

Lemma xtime_byte a : byte_ok (rj_xtime a).
Proof. unfold rj_xtime. destruct (negb _); apply u8_byte. Qed.

Lemma sbox_byte a : byte_ok a -> byte_ok (rj_sbox a).
Proof.
  intros Ha. pose proof (byte_forall (fun a => (0 <=? rj_sbox a) && (rj_sbox a <? 256)) ltac:(vm_compute; reflexivity) a Ha) as H.
  cbv beta in H. bool_to_prop. by split.
Qed.

Lemma sbox_inverse a : byte_ok a -> rj_sbox_inv (rj_sbox a) = a.
Proof.
  intros Ha. apply Z.eqb_eq.
  exact (byte_forall (fun a => rj_sbox_inv (rj_sbox a) =? a) ltac:(vm_compute; reflexivity) a Ha).
Qed.

Lemma rcon_inverse rc : byte_ok rc -> FD (F rc) = rc.
Proof.
  intros Ha. apply Z.eqb_eq. exact (byte_forall (fun a => FD (F a) =? a) ltac:(vm_compute; reflexivity) rc Ha).
Qed.

(** ** The steps are undone *)

(** A list of sixteen, or of 32, elements. *)
Ltac explode l H :=
  repeat (destruct l as [|? l]; [discriminate H|]); destruct l; [|discriminate H].

Definition block_ok (buf : list Z) : Prop := length buf = 16%nat /\ bytes_ok buf.
Definition schedule_ok (s : list Z * Z) : Prop := length (fst s) = 32%nat /\ bytes_ok (fst s) /\ byte_ok (snd s).

Lemma at_ok (l : list Z) i : bytes_ok l -> byte_ok (nth i l 0).
Proof.
  intros Hb. destruct (nth_in_or_default i l 0) as [Hin| ->]; [|by unfold byte_ok].
  apply (proj1 (Forall_forall _ _) Hb). by apply list_elem_of_In.
Qed.

Lemma length_xor_at i v l : length (xor_at i v l) = length l.
Proof. apply length_insert. Qed.

Lemma xor_at_bytes i v l : bytes_ok l -> byte_ok v -> bytes_ok (xor_at i v l).
Proof.
  intros Hb Hv. unfold xor_at. destruct (decide (i < length l)%nat).
  - apply Forall_insert; [done|]. apply lxor_byte; [|done]. by apply at_ok.
  - by rewrite list_insert_ge by lia.
Qed.

(** The bytes of a state that is written at some places. *)
Ltac solve_ok :=
  repeat first [assumption | apply xor_at_bytes | apply at_ok | apply sbox_byte | apply xtime_byte | apply lxor_byte].

Lemma shiftRows_inverse buf : length buf = 16%nat -> aes_shiftRows_inv (aes_shiftRows buf) = buf.
Proof. intros H. explode buf H. reflexivity. Qed.

Lemma shiftRows_ok buf : block_ok buf -> block_ok (aes_shiftRows buf).
Proof.
  intros [H Hb]. explode buf H. split; [done|]. unfold bytes_ok in *. rewrite !Forall_cons in Hb. cbn.
  rewrite !Forall_cons. naive_solver.
Qed.

Lemma subBytes_inverse buf : bytes_ok buf -> aes_subBytes_inv (aes_subBytes buf) = buf.
Proof.
  intros H. unfold aes_subBytes_inv, aes_subBytes. rewrite map_map. rewrite <- (map_id buf) at 2. apply map_ext_in.
  intros a Ha. apply sbox_inverse. apply (proj1 (Forall_forall _ _) H). by apply list_elem_of_In.
Qed.

Lemma subBytes_ok buf : block_ok buf -> block_ok (aes_subBytes buf).
Proof.
  intros [H Hb]. split; [by unfold aes_subBytes; rewrite length_map|]. apply Forall_map.
  eapply Forall_impl; [exact Hb|]. apply sbox_byte.
Qed.

Lemma addRoundKey_inverse buf k :
  length buf = 16%nat -> (16 <= length k)%nat -> aes_addRoundKey (aes_addRoundKey buf k) k = buf.
Proof.
  unfold aes_addRoundKey. intros Hb Hk. assert (Ht : length buf = length (take 16 k)) by (rewrite length_take; lia).
  revert Ht. generalize (take 16 k). clear. revert buf.
  induction buf as [|x buf IH]; intros [|y l] Hl; [done|done|done|]. simpl. rewrite IH by (simpl in Hl; lia). f_equal. solve_xor.
Qed.

Lemma addRoundKey_ok buf k :
  block_ok buf -> (16 <= length k)%nat -> bytes_ok k -> block_ok (aes_addRoundKey buf k).
Proof.
  intros [H Hb] Hk Hkb. unfold aes_addRoundKey. split; [rewrite length_zip_with, length_take; lia|].
  apply zip_lxor_bytes; [done|by apply Forall_take].
Qed.

(** A column after both transformations: the sums cancel. *)
Lemma mix_inverse a b c d :
  byte_ok a -> byte_ok b -> byte_ok c -> byte_ok d ->
  let e := Z.lxor (Z.lxor (Z.lxor a b) c) d in
  let a' := Z.lxor a (Z.lxor e (rj_xtime (Z.lxor a b))) in
  let b' := Z.lxor b (Z.lxor e (rj_xtime (Z.lxor b c))) in
  let c' := Z.lxor c (Z.lxor e (rj_xtime (Z.lxor c d))) in
  let d' := Z.lxor d (Z.lxor e (rj_xtime (Z.lxor d a))) in
  let e' := Z.lxor (Z.lxor (Z.lxor a' b') c') d' in
  let z' := rj_xtime e' in
  let x' := Z.lxor e' (rj_xtime (rj_xtime (Z.lxor (Z.lxor z' a') c'))) in
  let y' := Z.lxor e' (rj_xtime (rj_xtime (Z.lxor (Z.lxor z' b') d'))) in
  Z.lxor a' (Z.lxor x' (rj_xtime (Z.lxor a' b'))) = a /\
  Z.lxor b' (Z.lxor y' (rj_xtime (Z.lxor b' c'))) = b /\
  Z.lxor c' (Z.lxor x' (rj_xtime (Z.lxor c' d'))) = c /\
  Z.lxor d' (Z.lxor y' (rj_xtime (Z.lxor d' a'))) = d.
Proof.
  intros Ha Hb Hc Hd. cbv zeta.
  rewrite !xtime_lxor by (repeat first [assumption | apply xtime_byte | apply lxor_byte]).
  split_and!; solve_xor.
Qed.

Lemma mix_column_ok i buf : block_ok buf -> block_ok (mix_column i buf).
Proof.
  intros [Hl Hb]. unfold block_ok, mix_column. split; [by rewrite !length_xor_at|]. solve_ok.
Qed.

(** The columns are transformed independently. *)
Definition mix (a b c d : Z) : list Z :=
  let e := Z.lxor (Z.lxor (Z.lxor a b) c) d in
  [Z.lxor a (Z.lxor e (rj_xtime (Z.lxor a b))); Z.lxor b (Z.lxor e (rj_xtime (Z.lxor b c)));
   Z.lxor c (Z.lxor e (rj_xtime (Z.lxor c d))); Z.lxor d (Z.lxor e (rj_xtime (Z.lxor d a)))].

Definition unmix (a b c d : Z) : list Z :=
  let e := Z.lxor (Z.lxor (Z.lxor a b) c) d in
  let z := rj_xtime e in
  let x := Z.lxor e (rj_xtime (rj_xtime (Z.lxor (Z.lxor z a) c))) in
  let y := Z.lxor e (rj_xtime (rj_xtime (Z.lxor (Z.lxor z b) d))) in
  [Z.lxor a (Z.lxor x (rj_xtime (Z.lxor a b))); Z.lxor b (Z.lxor y (rj_xtime (Z.lxor b c)));
   Z.lxor c (Z.lxor x (rj_xtime (Z.lxor c d))); Z.lxor d (Z.lxor y (rj_xtime (Z.lxor d a)))].

Lemma mixColumns_columns a b c d e f g h i j k l m n o p :
  aes_mixColumns [a; b; c; d; e; f; g; h; i; j; k; l; m; n; o; p] =
  mix a b c d ++ mix e f g h ++ mix i j k l ++ mix m n o p.
Proof. reflexivity. Qed.

Lemma mixColumns_inv_columns a b c d e f g h i j k l m n o p :
  aes_mixColumns_inv [a; b; c; d; e; f; g; h; i; j; k; l; m; n; o; p] =
  unmix a b c d ++ unmix e f g h ++ unmix i j k l ++ unmix m n o p.
Proof. reflexivity. Qed.

Lemma unmix_mix a b c d :
  bytes_ok [a; b; c; d] -> exists a' b' c' d', mix a b c d = [a'; b'; c'; d'] /\ unmix a' b' c' d' = [a; b; c; d].
Proof.
  unfold bytes_ok. rewrite !Forall_cons. intros (Ha & Hb & Hc & Hd & _).
  destruct (mix_inverse a b c d Ha Hb Hc Hd) as (E0 & E1 & E2 & E3). cbv zeta in *.
  eexists _, _, _, _. split; [reflexivity|]. unfold unmix. cbv zeta. by rewrite E0, E1, E2, E3.
Qed.

Lemma mixColumns_inverse buf : block_ok buf -> aes_mixColumns_inv (aes_mixColumns buf) = buf.
Proof.
  intros [H Hb]. explode buf H.
  change (bytes_ok ([z; z0; z1; z2] ++ [z3; z4; z5; z6] ++ [z7; z8; z9; z10] ++ [z11; z12; z13; z14])) in Hb.
  rewrite !bytes_ok_app in Hb. destruct Hb as (H0 & H1 & H2 & H3). rewrite mixColumns_columns.
  destruct (unmix_mix _ _ _ _ H0) as (? & ? & ? & ? & -> & E0).
  destruct (unmix_mix _ _ _ _ H1) as (? & ? & ? & ? & -> & E1).
  destruct (unmix_mix _ _ _ _ H2) as (? & ? & ? & ? & -> & E2).
  destruct (unmix_mix _ _ _ _ H3) as (? & ? & ? & ? & -> & E3).
  cbn [app]. by rewrite mixColumns_inv_columns, E0, E1, E2, E3.
Qed.

Lemma mixColumns_ok buf : block_ok buf -> block_ok (aes_mixColumns buf).
Proof. intros Hb. unfold aes_mixColumns. cbn [fold_left]. by do 4 apply mix_column_ok. Qed.

(** ** The schedule is undone *)

Lemma chain_inverse i k :
  length k = 32%nat -> In i [4; 8; 12; 20; 24; 28]%nat -> chain i (chain i k) = k.
Proof.
  intros H Hi. explode k H. cbn in Hi.
  repeat destruct Hi as [<-|Hi]; try done; cbn -[Z.lxor]; repeat f_equal; solve_xor.
Qed.

Lemma chain_sbox_inverse k : length k = 32%nat -> chain_sbox (chain_sbox k) = k.
Proof. intros H. explode k H. cbn -[Z.lxor rj_sbox]. repeat f_equal; solve_xor. Qed.

Lemma chain_first_inverse rc k : length k = 32%nat -> chain_first rc (chain_first rc k) = k.
Proof. intros H. explode k H. cbn -[Z.lxor rj_sbox]. repeat f_equal; solve_xor. Qed.

Lemma length_chain i k : length (chain i k) = length k.
Proof. unfold chain. by rewrite !length_xor_at. Qed.

Lemma length_chain_sbox k : length (chain_sbox k) = length k.
Proof. unfold chain_sbox. by rewrite !length_xor_at. Qed.

Lemma length_chain_first rc k : length (chain_first rc k) = length k.
Proof. unfold chain_first. by rewrite !length_xor_at. Qed.

Lemma chain_bytes i k : bytes_ok k -> bytes_ok (chain i k).
Proof. intros Hk. unfold chain. solve_ok. Qed.

Lemma chain_sbox_bytes k : bytes_ok k -> bytes_ok (chain_sbox k).
Proof. intros Hk. unfold chain_sbox. solve_ok. Qed.

Lemma chain_first_bytes rc k : byte_ok rc -> bytes_ok k -> bytes_ok (chain_first rc k).
Proof. intros Hr Hk. unfold chain_first. solve_ok. Qed.

Lemma expandEncKey_ok s : schedule_ok s -> schedule_ok (aes_expandEncKey s).
Proof.
  destruct s as [k rc]. intros (Hl & Hb & Hr). unfold schedule_ok, aes_expandEncKey in *. cbn [fst snd fold_left] in *.
  split; [by rewrite !length_chain, length_chain_sbox, !length_chain, length_chain_first|]. split; [|apply u8_byte].
  do 3 apply chain_bytes. apply chain_sbox_bytes. do 3 apply chain_bytes. by apply chain_first_bytes.
Qed.

Lemma expandDecKey_inverse s : schedule_ok s -> aes_expandDecKey (aes_expandEncKey s) = s.
Proof.
  destruct s as [k rc]. intros (Hl & Hb & Hr). unfold schedule_ok, aes_expandEncKey, aes_expandDecKey in *.
  cbn [fst snd fold_left] in *. rewrite rcon_inverse by done.
  set (k0 := chain_first rc k). assert (H0 : length k0 = 32%nat) by (unfold k0; by rewrite length_chain_first).
  set (k1 := chain 4 k0). assert (H1 : length k1 = 32%nat) by (unfold k1; by rewrite length_chain).
  set (k2 := chain 8 k1). assert (H2 : length k2 = 32%nat) by (unfold k2; by rewrite length_chain).
  set (k3 := chain 12 k2). assert (H3 : length k3 = 32%nat) by (unfold k3; by rewrite length_chain).
  set (k4 := chain_sbox k3). assert (H4 : length k4 = 32%nat) by (unfold k4; by rewrite length_chain_sbox).
  set (k5 := chain 20 k4). assert (H5 : length k5 = 32%nat) by (unfold k5; by rewrite length_chain).
  set (k6 := chain 24 k5). assert (H6 : length k6 = 32%nat) by (unfold k6; by rewrite length_chain).
  assert (E : chain 28 (chain 28 k6) = k6 /\ chain 24 k6 = k5 /\ chain 20 k5 = k4 /\ chain_sbox k4 = k3 /\
    chain 12 k3 = k2 /\ chain 8 k2 = k1 /\ chain 4 k1 = k0 /\ chain_first rc k0 = k).
  { assert (Hc : forall i k, length k = 32%nat -> In i [4; 8; 12; 20; 24; 28]%nat -> chain i (chain i k) = k) by exact chain_inverse.
    split_and!; [apply (Hc _ k6)|apply (Hc _ k5)|apply (Hc _ k4)|exact (chain_sbox_inverse k3 H3)|apply (Hc _ k2)|
      apply (Hc _ k1)|apply (Hc _ k0)|exact (chain_first_inverse rc k Hl)]; done || cbn; tauto. }
  destruct E as (-> & -> & -> & -> & -> & -> & -> & ->). done.
Qed.

(** ** Decryption undoes encryption *)

Definition encrypt_layer (buf : list Z) : list Z := aes_mixColumns (aes_shiftRows (aes_subBytes buf)).

Lemma encrypt_layer_ok buf : block_ok buf -> block_ok (encrypt_layer buf).
Proof. intros Hb. by apply mixColumns_ok, shiftRows_ok, subBytes_ok. Qed.

Lemma decrypt_layer buf :
  block_ok buf -> aes_subBytes_inv (aes_shiftRows_inv (aes_mixColumns_inv (encrypt_layer buf))) = buf.
Proof.
  intros Hb. pose proof (subBytes_ok _ Hb) as Hs. pose proof (shiftRows_ok _ Hs) as Hr. unfold encrypt_layer.
  by rewrite mixColumns_inverse, shiftRows_inverse, subBytes_inverse by first [done | apply Hb | apply Hs].
Qed.

#[local] Opaque aes_subBytes aes_subBytes_inv aes_shiftRows aes_shiftRows_inv aes_mixColumns aes_mixColumns_inv.
#[local] Opaque aes_expandEncKey aes_expandDecKey aes_addRoundKey.

(** The schedules of the rounds, from the key to the one that decryption
    starts from. *)
Definition schedule (secret : list Z) (n : nat) : list Z * Z := Nat.iter n aes_expandEncKey (secret, 1).

Lemma schedule_step secret n : aes_expandEncKey (schedule secret n) = schedule secret (S n).
Proof. done. Qed.

Lemma schedule_rcon secret n : snd (schedule secret n) = Nat.iter n F 1.
Proof.
  induction n as [|n IH]; [done|]. change (Nat.iter (S n) F 1) with (F (Nat.iter n F 1)).
  rewrite <- IH, <- schedule_step. by destruct (schedule secret n).
Qed.

Section Cipher.
Variable (secret : list Z).
Hypothesis secret_length : length secret = 32%nat.
Hypothesis secret_bytes : bytes_ok secret.

Lemma schedules_ok n : schedule_ok (schedule secret n).
Proof. induction n as [|n IH]; [by split_and!|]. by apply expandEncKey_ok. Qed.

Lemma schedule_back n : aes_expandDecKey (schedule secret (S n)) = schedule secret n.
Proof. apply expandDecKey_inverse, schedules_ok. Qed.

(** The key of a round: the second half of the schedule before it is expanded,
    or the first half after. *)
Definition round_key (i : nat) : list Z :=
  if Nat.odd i then drop 16 (fst (schedule secret (i / 2))) else fst (schedule secret (i / 2)).

Lemma round_key_ok i : (16 <= length (round_key i))%nat /\ bytes_ok (round_key i).
Proof.
  destruct (schedules_ok (i / 2)) as (Hl & Hb & _). unfold round_key. destruct (Nat.odd i).
  - split; [rewrite length_drop; lia|]. by apply Forall_drop.
  - split; [lia|done].
Qed.

(** The block after the rounds up to [n]. *)
Fixpoint rounds (n : nat) (buf : list Z) : list Z :=
  match n with
  | O => buf
  | S n => aes_addRoundKey (encrypt_layer (rounds n buf)) (round_key (S n))
  end.

Lemma rounds_ok n buf : block_ok buf -> block_ok (rounds n buf).
Proof.
  intros Hb. induction n as [|n IH]; [done|]. cbn [rounds]. destruct (round_key_ok (S n)) as [Hl Hk].
  apply addRoundKey_ok; [by apply encrypt_layer_ok|done|done].
Qed.

Lemma half_succ n : (S n / 2 = if Nat.odd n then S (n / 2) else n / 2)%nat.
Proof.
  rewrite <- !Nat.div2_div. destruct (Nat.odd n) eqn:E.
  - apply Nat.odd_spec in E as [m ->]. replace (S (2 * m + 1)) with (2 * S m)%nat by lia.
    replace (2 * m + 1)%nat with (S (2 * m)) by lia. by rewrite Nat.div2_double, Nat.div2_succ_double.
  - assert (Ev : Nat.even n = true) by (rewrite <- Nat.negb_odd, E; done). apply Nat.even_spec in Ev as [m ->].
    by rewrite Nat.div2_succ_double, Nat.div2_double.
Qed.

(** The loop of the encryption takes the schedules in order. *)
Lemma encrypt_rounds n buf :
  fold_left encrypt_round (seq 1 n) (schedule secret 0, buf) = (schedule secret (n / 2), rounds n buf).
Proof.
  induction n as [|n IH]; [done|]. rewrite seq_S, fold_left_app, IH. cbn [fold_left Nat.add].
  unfold encrypt_round. cbn [rounds]. unfold round_key. rewrite half_succ.
  rewrite Nat.odd_succ, <- Nat.negb_odd. unfold encrypt_layer.
  destruct (Nat.odd n); cbn [negb].
  - destruct (schedule secret (n / 2)) as [k rc] eqn:E. rewrite <- E, schedule_step.
    by destruct (schedule secret (S (n / 2))).
  - by destruct (schedule secret (n / 2)).
Qed.

(** The loop of the decryption takes them back, and the rounds with them. *)
Lemma decrypt_rounds n buf :
  block_ok buf ->
  fold_left decrypt_round (rev (seq 1 n)) (schedule secret (S n / 2), rounds n buf) = (schedule secret 0, buf).
Proof.
  intros Hb. induction n as [|n IH]; [done|]. rewrite seq_S, rev_app_distr. cbn [rev app fold_left Nat.add].
  rewrite <- IH. f_equal. unfold decrypt_round. cbn [rounds]. pose proof (rounds_ok n buf Hb) as Hr.
  pose proof (encrypt_layer_ok _ Hr) as He. destruct (round_key_ok (S n)) as [Hk _]. unfold round_key in *.
  rewrite (half_succ (S n)). destruct (Nat.odd (S n)).
  - destruct (schedule secret (S (S n / 2))) as [k rc] eqn:E. rewrite <- E, schedule_back.
    destruct (schedule secret (S n / 2)) as [k' rc'] eqn:E'. cbn [fst] in *.
    by rewrite addRoundKey_inverse, decrypt_layer by first [done | apply He].
  - destruct (schedule secret (S n / 2)) as [k rc] eqn:E. cbn [fst] in *.
    by rewrite addRoundKey_inverse, decrypt_layer by first [done | apply He].
Qed.

Lemma encrypted context buf :
  block_ok buf ->
  aes256_encrypt context secret buf =
  aes_addRoundKey (aes_shiftRows (aes_subBytes (rounds 13 (aes_addRoundKey buf secret)))) (fst (schedule secret 7)).
Proof.
  intros Hb. unfold aes256_encrypt, aes256_encrypt_ecb, aes256_init, aes_addRoundKey_cpy. cbn [enckey].
  change (secret, 1) with (schedule secret 0). rewrite encrypt_rounds. change (13 / 2)%nat with 6%nat.
  destruct (schedule secret 6) as [k rc] eqn:E. rewrite <- E, schedule_step. by destruct (schedule secret 7).
Qed.

Lemma decrypt_encrypted context context' buf :
  block_ok buf -> aes256_decrypt context' secret (aes256_encrypt context secret buf) = buf.
Proof.
  intros Hb. rewrite (encrypted context buf Hb). set (plain := aes_addRoundKey buf secret).
  assert (Hp : block_ok plain) by (apply addRoundKey_ok; [done|lia|done]).
  pose proof (rounds_ok 13 plain Hp) as Hr. pose proof (subBytes_ok _ Hr) as Hs. pose proof (shiftRows_ok _ Hs) as Hf.
  unfold aes256_decrypt, aes256_decrypt_ecb, aes256_init, aes_addRoundKey_cpy. cbn [deckey].
  change (Nat.iter 7 aes_expandEncKey (secret, 1)) with (schedule secret 7).
  destruct (schedules_ok 7) as (Hl & _ & _). pose proof (schedule_rcon secret 7) as Hc. change (Nat.iter 7 F 1) with 0x80 in Hc.
  rewrite addRoundKey_inverse by first [apply Hf | lia].
  rewrite shiftRows_inverse, subBytes_inverse by first [apply Hs | apply Hr].
  destruct (schedule secret 7) as [k rc] eqn:E. cbn [fst snd] in *. subst rc. rewrite <- E.
  pose proof (decrypt_rounds 13 plain Hp) as Hd. change (S 13 / 2)%nat with 7%nat in Hd. rewrite Hd.
  cbn [snd]. apply addRoundKey_inverse; [apply Hb|lia].
Qed.

Lemma encrypted_ok context buf : block_ok buf -> block_ok (aes256_encrypt context secret buf).
Proof.
  intros Hb. rewrite (encrypted context buf Hb). destruct (schedules_ok 7) as (Hl & Hk & _).
  apply addRoundKey_ok; [|lia|done].
  apply shiftRows_ok, subBytes_ok, rounds_ok, addRoundKey_ok; [done|lia|done].
Qed.
End Cipher.

(** Decryption with the key of the encryption gives the block back, whatever
    the contexts held. *)
Theorem aes_decrypt_encrypt context context' secret buf :
  length secret = 32%nat -> bytes_ok secret -> block_ok buf ->
  aes256_decrypt context' secret (aes256_encrypt context secret buf) = buf.
Proof. intros Hl Hs. by apply decrypt_encrypted. Qed.
End aes.
