(* ===== verification/Text.v ===== *)
(** Text functions: [join] and [split] of [src/utility/string.cpp], with what
    they and their callers use of the string algorithms of boost. A
    [std::string] is the list of its character codes. *)

From S2P Require Import Prelude.

(** [boost::is_any_of] *)
Definition is_any_of (delimiter : list Z) (c : Z) : bool := existsb (Z.eqb c) delimiter.

(** [std::isspace] of the classic locale *)
Definition is_space (c : Z) : bool := (c =? 32) || ((9 <=? c) && (c <=? 13)).

(** [boost::algorithm::to_lower_copy] in the classic locale *)
Definition to_lower_char (c : Z) : Z := if (65 <=? c) && (c <=? 90) then c + 32 else c.
Definition to_lower_copy (text : list Z) : list Z := map to_lower_char text.

Fixpoint trim_left (text : list Z) : list Z :=
  match text with
  | [] => []
  | c :: rest => if is_space c then trim_left rest else text
  end.

(** [boost::trim_copy] *)
Definition trim_copy (text : list Z) : list Z := rev (trim_left (rev (trim_left text))).

(** [boost::split] with [token_compress_on]: the pieces between the runs of
    delimiters; [run] is set within a run, and [word] is the current piece. *)
Fixpoint split_tokens (delimit : Z -> bool) (run : bool) (word text : list Z) : list (list Z) :=
  match text with
  | [] => [word]
  | c :: text =>
      if delimit c then
        if run then split_tokens delimit true word text
        else word :: split_tokens delimit true [] text
      else split_tokens delimit false (word ++ [c]) text
  end.

Definition split (sentence delimiter : list Z) (trim : bool) : list (list Z) :=
  split_tokens (is_any_of delimiter) false [] (if trim then trim_copy sentence else sentence).

(** [boost::join] *)
Fixpoint join (words : list (list Z)) (delimiter : list Z) : list Z :=
  match words with
  | [] => []
  | [word] => word
  | word :: words => word ++ delimiter ++ join words delimiter
  end.

(** ** What is joined splits again *)

(** A word without a delimiter is taken whole. *)
Lemma split_word delimit run word w text :
  Forall (fun c => delimit c = false) w -> w <> [] ->
  split_tokens delimit run word (w ++ text) = split_tokens delimit false (word ++ w) text.
Proof.
  intros Hw Hne. revert run word. induction Hw as [|c w Hc Hw IH]; intros run word; [done|].
  simpl. rewrite Hc. destruct w as [|d w]; [done|]. rewrite IH by done. by rewrite <- app_assoc.
Qed.

Lemma split_joined delimit d words :
  delimit d = true -> words <> [] -> Forall (fun w => w <> [] /\ Forall (fun c => delimit c = false) w) words ->
  forall run, split_tokens delimit run [] (join words [d]) = words.
Proof.
  intros Hd Hne Hw. induction Hw as [|w words [Hwn Hwd] Hw IH]; intros run; [done|].
  destruct words as [|v words].
  - cbn [join]. rewrite <- (app_nil_r w) at 1. by rewrite split_word by done.
  - change (join (w :: v :: words) [d]) with (w ++ d :: join (v :: words) [d]).
    rewrite split_word by done. cbn [split_tokens app]. rewrite Hd. by rewrite IH.
Qed.

Lemma trim_left_id c text : is_space c = false -> trim_left (c :: text) = c :: text.
Proof. intros Hc. simpl. by rewrite Hc. Qed.

Lemma trim_copy_id text :
  is_space (hd 0 text) = false -> is_space (List.last text 0) = false -> trim_copy text = text.
Proof.
  intros Hh Hl. unfold trim_copy. destruct text as [|c text]; [done|].
  rewrite trim_left_id by done. destruct (exists_last (l := c :: text) ltac:(done)) as (l & x & E). rewrite E in *.
  rewrite last_last in Hl. rewrite rev_app_distr. cbn [rev app]. rewrite trim_left_id by done.
  cbn [rev]. by rewrite rev_involutive.
Qed.

Lemma join_ends words d (P : Z -> Prop) :
  Forall (fun w => w <> [] /\ Forall P w) words -> words <> [] ->
  P (hd d (join words [32])) /\ P (List.last (join words [32]) d).
Proof.
  intros Hw Hne. induction Hw as [|w words [Hwn Hp] Hw IH]; [done|].
  assert (Hends : P (hd d w) /\ P (List.last w d)).
  { split; [by destruct Hp|]. destruct (exists_last Hwn) as (l & x & E). rewrite E in *.
    rewrite last_last. apply Forall_app in Hp as [_ Hp]. by inversion Hp. }
  destruct words as [|v words]; [done|].
  change (join (w :: v :: words) [32]) with (w ++ [32] ++ join (v :: words) [32]).
  destruct IH as [_ IH]; [done|]. split.
  - destruct w; [done|]. apply Hends.
  - assert (Hj : join (v :: words) [32] <> []).
    { inversion_clear Hw as [|? ? [Hv _] _]. cbn [join]. destruct words; [done|]. by destruct v. }
    destruct (exists_last Hj) as (l & x & E). rewrite E in *. rewrite last_last in IH.
    change (w ++ [32] ++ l ++ [x]) with (w ++ (32 :: l) ++ [x]). by rewrite app_assoc, last_last.
Qed.

(** Words without white space, joined by spaces. *)
Lemma split_join words :
  words <> [] -> Forall (fun w => w <> [] /\ Forall (fun c => is_space c = false) w) words ->
  split (join words [32]) [32] true = words.
Proof.
  intros Hne Hw. pose proof (join_ends words 0 (fun c => is_space c = false) Hw Hne) as [Hh Hl].
  unfold split. rewrite trim_copy_id by done.
  apply split_joined; [done|done|]. eapply Forall_impl; [exact Hw|]. intros w [? Hc]. split; [done|].
  eapply Forall_impl; [exact Hc|]. intros c Hs. unfold is_space in Hs. unfold is_any_of. simpl.
  by destruct (c =? 32).
Qed.
