(* ===== verification/Limits.v ===== *)
(** The saturating and the checked integer arithmetic of
    [include/bitcoin/bitcoin/math/limits.hpp]. A template over an unsigned
    [Integer] is a function of its width [w]; a function that throws returns
    [None] where the code throws. *)

From S2P Require Import Prelude.

(** [std::numeric_limits<Integer>::max()] of a [w]-bit unsigned type. *)
Definition umax (w : Z) : Z := 2 ^ w - 1.

Definition ceiling_add (w left right : Z) : Z :=
  let ceiling := umax w in
  if left >? ceiling - right then ceiling else left + right.

Definition floor_subtract (w left right : Z) : Z :=
  let floor := 0 in
  if right >=? left then floor else left - right.

Definition safe_add (w left right : Z) : option Z :=
  let maximum := umax w in
  if left >? maximum - right then None else Some (left + right).

Definition safe_subtract (w left right : Z) : option Z :=
  let minimum := 0 in
  if left <? minimum + right then None else Some (left - right).

Definition safe_increment (w value : Z) : option Z := safe_add w value 1.
Definition safe_decrement (w value : Z) : option Z := safe_subtract w value 1.

Definition safe_unsigned (w unsigned_value : Z) : option Z :=
  if (unsigned_value <? 0) || (unsigned_value >? umax w) then None
  else Some unsigned_value.

(** [safe_signed<To>], [To] a [w]-bit signed type. *)
Definition safe_signed (w signed_value : Z) : option Z :=
  if (signed_value <? - 2 ^ (w - 1)) || (signed_value >? 2 ^ (w - 1) - 1)
  then None else Some signed_value.

(** [safe_to_signed<To>], [To] a [w]-bit signed type. *)
Definition safe_to_signed (w unsigned_value : Z) : option Z :=
  if unsigned_value >? 2 ^ (w - 1) - 1 then None else Some unsigned_value.

(** [safe_to_unsigned<To>], [To] a [w]-bit unsigned type. *)
Definition safe_to_unsigned (w signed_value : Z) : option Z :=
  if (signed_value <? 0) || (u64 signed_value >? umax w) then None
  else Some signed_value.

(** [domain_constrain<To>], [To] a [w]-bit unsigned type. *)
Definition domain_constrain (w value : Z) : Z :=
  if value <? 0 then 0 else if value >? umax w then umax w else value.

Definition range_constrain (value minimum maximum : Z) : Z :=
  if value <? minimum then minimum
  else if value >? maximum then maximum
  else value.

(** ** Saturation *)

Lemma ceiling_add_min w a b : ceiling_add w a b = Z.min (umax w) (a + b).
Proof. unfold ceiling_add. simpl. case_if; lia. Qed.

Lemma floor_subtract_max w a b : floor_subtract w a b = Z.max 0 (a - b).
Proof. unfold floor_subtract. simpl. case_if; lia. Qed.

Lemma ceiling_add_width w a b :
  0 <= w -> 0 <= a -> 0 <= b -> in_width w (ceiling_add w a b).
Proof.
  intros Hw Ha Hb. rewrite ceiling_add_min. unfold in_width, umax.
  pose proof (pow2_pos w Hw). lia.
Qed.

(** Accumulating with [ceiling_add] saturates the exact sum once, whatever the
    order in which the partial sums reach the ceiling. *)
Lemma fold_ceiling_add w (l : list Z) a :
  0 <= w -> 0 <= a <= umax w -> Forall (fun x => 0 <= x) l ->
  fold_left (ceiling_add w) l a = Z.min (umax w) (a + foldr Z.add 0 l).
Proof.
  intros Hw Ha Hl. revert a Ha. induction Hl as [|x l Hx Hl IH]; intros a Ha; simpl.
  - lia.
  - assert (0 <= foldr Z.add 0 l) by (clear IH; induction Hl; simpl; lia).
    rewrite IH; rewrite ceiling_add_min; lia.
Qed.

Lemma safe_unsigned_some w v u : safe_unsigned w v = Some u -> u = v /\ in_width w v.
Proof.
  unfold safe_unsigned, umax, in_width. intros Hs. case_if_in Hs; simplify_eq. split; [done|lia].
Qed.

Lemma safe_unsigned_fits w v : in_width w v -> safe_unsigned w v = Some v.
Proof.
  unfold safe_unsigned, umax, in_width. intros Hv.
  destruct (Z.ltb_spec v 0); [lia|]. rewrite Z.gtb_ltb.
  by destruct (Z.ltb_spec (2 ^ w - 1) v); [lia|].
Qed.
