(* ===== verification/Endian.v ===== *)
(** The endian conversions of
    [include/bitcoin/bitcoin/impl/utility/endian.ipp]: the byte loops of the
    code, their mathematical reading and their round trips. [n] is
    [sizeof(Integer)]; an iterator range is the list of the bytes it spans. *)

From S2P Require Import Prelude.

(** ** The loops of the code *)

(** [out |= static_cast<Integer>( *start++ ) << (8 * i++)], one turn per byte. *)
Fixpoint from_little_endian_loop (i out : Z) (bs : list Z) : Z :=
  match bs with
  | [] => out
  | b :: rest => from_little_endian_loop (i + 1) (Z.lor out (Z.shiftl b (8 * i))) rest
  end.

(** The loop stops at [sizeof(Integer)] bytes or at the end of the range. *)
Definition from_little_endian (n : nat) (bs : list Z) : Z :=
  from_little_endian_loop 0 0 (take n bs).

(** [out |= static_cast<Integer>( *start++ ) << (8 * --i)], one turn per byte. *)
Fixpoint from_big_endian_loop (i out : Z) (bs : list Z) : Z :=
  match bs with
  | [] => out
  | b :: rest =>
      let i' := i - 1 in
      from_big_endian_loop i' (Z.lor out (Z.shiftl b (8 * i'))) rest
  end.

Definition from_big_endian (n : nat) (bs : list Z) : Z :=
  from_big_endian_loop (Z.of_nat n) 0 (take n bs).

(** [*it = static_cast<uint8_t>(value); value >>= 8], for each byte of [out]. *)
Fixpoint to_little_endian (n : nat) (value : Z) : list Z :=
  match n with
  | O => []
  | S m => u8 value :: to_little_endian m (Z.shiftr value 8)
  end.

(** The same loop run from the last byte of [out] to the first. *)
Fixpoint to_big_endian_loop (n : nat) (value : Z) (out : list Z) : list Z :=
  match n with
  | O => out
  | S m => to_big_endian_loop m (Z.shiftr value 8) (u8 value :: out)
  end.

Definition to_big_endian (n : nat) (value : Z) : list Z :=
  to_big_endian_loop n value [].

(** ** The number a little endian byte string denotes *)

Fixpoint le_value (bs : list Z) : Z :=
  match bs with
  | [] => 0
  | b :: rest => b + 256 * le_value rest
  end.

Lemma le_value_bound bs :
  bytes_ok bs -> 0 <= le_value bs < 2 ^ (8 * zlen bs).
Proof.
  induction bs as [|b bs IH]; intros H; [vm_compute; split; [discriminate|reflexivity]|].
  apply bytes_ok_cons in H as [Hb Hbs]. specialize (IH Hbs).
  replace (8 * zlen (b :: bs)) with (8 + 8 * zlen bs) by zlen_lia.
  rewrite Z.pow_add_r by (zlen_lia || lia). unfold byte_ok in Hb. cbn. lia.
Qed.

Lemma from_little_endian_loop_value i out bs :
  bytes_ok bs -> 0 <= i -> 0 <= out < 2 ^ (8 * i) ->
  from_little_endian_loop i out bs = out + le_value bs * 2 ^ (8 * i).
Proof.
  revert i out. induction bs as [|b bs IH]; intros i out H Hi Ho; cbn; [lia|].
  apply bytes_ok_cons in H as [Hb Hbs]. unfold byte_ok in Hb.
  rewrite lor_shiftl_add by lia.
  assert (E : 2 ^ (8 * (i + 1)) = 256 * 2 ^ (8 * i)).
  { replace (8 * (i + 1)) with (8 + 8 * i) by lia. rewrite Z.pow_add_r by lia. reflexivity. }
  rewrite IH; [rewrite E; lia|done|lia|rewrite E; nia].
Qed.

Lemma from_little_endian_value n bs :
  bytes_ok bs -> length bs = n -> from_little_endian n bs = le_value bs.
Proof.
  intros H Hn. unfold from_little_endian. rewrite take_ge by lia.
  rewrite from_little_endian_loop_value by (done || (cbn; lia)). cbn. lia.
Qed.

Lemma length_to_little_endian n v : length (to_little_endian n v) = n.
Proof. revert v. induction n; intros; simpl; auto. Qed.

Lemma zlen_to_little_endian n v : zlen (to_little_endian n v) = Z.of_nat n.
Proof. unfold zlen. by rewrite length_to_little_endian. Qed.

Lemma bytes_ok_to_little_endian n v : bytes_ok (to_little_endian n v).
Proof.
  revert v. induction n; intros; simpl; [auto with bitprim|].
  apply bytes_ok_cons. auto with bitprim.
Qed.

Lemma le_value_to_little_endian n v :
  le_value (to_little_endian n v) = v mod 2 ^ (8 * Z.of_nat n).
Proof.
  revert v. induction n as [|n IH]; intros v; cbn [to_little_endian le_value].
  - rewrite Z.mod_1_r. done.
  - rewrite IH, Z.shiftr_div_pow2 by lia. unfold u8, wrap.
    replace (8 * Z.of_nat (S n)) with (8 + 8 * Z.of_nat n) by lia.
    rewrite Z.pow_add_r by lia.
    rewrite Z.rem_mul_r by (try apply Z.pow_nonzero; lia). reflexivity.
Qed.

Lemma to_little_endian_le_value bs :
  bytes_ok bs -> to_little_endian (length bs) (le_value bs) = bs.
Proof.
  induction bs as [|b bs IH]; intros H; [done|].
  apply bytes_ok_cons in H as [Hb Hbs]. cbn [length to_little_endian le_value].
  unfold byte_ok in Hb. f_equal.
  - unfold u8, wrap. change (2 ^ 8) with 256.
    rewrite (Z.mul_comm 256), Z.mod_add by lia. apply Z.mod_small. lia.
  - rewrite Z.shiftr_div_pow2 by lia. change (2 ^ 8) with 256.
    rewrite (Z.mul_comm 256), Z.div_add, Z.div_small by lia. apply IH, Hbs.
Qed.

(** ** Big endian is the reverse of little endian *)

Lemma to_big_endian_loop_rev n v out :
  to_big_endian_loop n v out = rev (to_little_endian n v) ++ out.
Proof.
  revert v out. induction n as [|n IH]; intros v out; cbn; [done|].
  rewrite IH, <- app_assoc. reflexivity.
Qed.

Lemma to_big_endian_rev n v : to_big_endian n v = rev (to_little_endian n v).
Proof. unfold to_big_endian. rewrite to_big_endian_loop_rev. apply app_nil_r. Qed.

Lemma le_value_app bs cs :
  le_value (bs ++ cs) = le_value bs + le_value cs * 2 ^ (8 * zlen bs).
Proof.
  induction bs as [|b bs IH]; cbn [app le_value].
  { change (8 * zlen []) with 0. lia. }
  rewrite IH. replace (8 * zlen (b :: bs)) with (8 + 8 * zlen bs) by zlen_lia.
  rewrite Z.pow_add_r by (zlen_lia || lia). lia.
Qed.

(** The loop holds [out], a multiple of [2^(8 i)], above the bytes to come. *)
Lemma from_big_endian_loop_value out bs :
  bytes_ok bs -> 0 <= out ->
  from_big_endian_loop (zlen bs) (out * 2 ^ (8 * zlen bs)) bs =
  out * 2 ^ (8 * zlen bs) + le_value (rev bs).
Proof.
  revert out. induction bs as [|b bs IH]; intros out H Ho; cbn [from_big_endian_loop rev le_value].
  { lia. }
  apply bytes_ok_cons in H as [Hb Hbs]. unfold byte_ok in Hb.
  replace (zlen (b :: bs) - 1) with (zlen bs) by zlen_lia.
  assert (E : 2 ^ (8 * zlen (b :: bs)) = 256 * 2 ^ (8 * zlen bs)).
  { replace (8 * zlen (b :: bs)) with (8 + 8 * zlen bs) by zlen_lia.
    rewrite Z.pow_add_r by (zlen_lia || lia). reflexivity. }
  pose proof (pow2_pos (8 * zlen bs) ltac:(zlen_lia)).
  assert (L : Z.lor (out * 2 ^ (8 * zlen (b :: bs))) (Z.shiftl b (8 * zlen bs)) =
              (256 * out + b) * 2 ^ (8 * zlen bs)).
  { rewrite E. replace (out * (256 * 2 ^ (8 * zlen bs)))
      with (Z.shiftl (Z.shiftl out 8) (8 * zlen bs))
      by (rewrite !Z.shiftl_mul_pow2 by zlen_lia; change (2 ^ 8) with 256; lia).
    rewrite <- Z.shiftl_lor, Z.lor_comm, lor_shiftl_add by lia.
    rewrite Z.shiftl_mul_pow2 by zlen_lia. change (2 ^ 8) with 256. lia. }
  rewrite L, IH by (done || lia). rewrite le_value_app. cbn [le_value].
  replace (zlen (rev bs)) with (zlen bs) by (unfold zlen; by rewrite length_rev).
  rewrite E. lia.
Qed.

Lemma from_big_endian_value n bs :
  bytes_ok bs -> length bs = n -> from_big_endian n bs = le_value (rev bs).
Proof.
  intros H Hn. unfold from_big_endian. rewrite take_ge by lia.
  pose proof (from_big_endian_loop_value 0 bs H ltac:(lia)) as E.
  rewrite Z.mul_0_l in E. unfold zlen in E. rewrite Hn in E. rewrite E. lia.
Qed.

Lemma length_to_big_endian n v : length (to_big_endian n v) = n.
Proof. by rewrite to_big_endian_rev, length_rev, length_to_little_endian. Qed.

Lemma bytes_ok_to_big_endian n v : bytes_ok (to_big_endian n v).
Proof.
  rewrite to_big_endian_rev. apply Forall_rev, bytes_ok_to_little_endian.
Qed.

Lemma from_to_little_endian n v :
  in_width (8 * Z.of_nat n) v -> from_little_endian n (to_little_endian n v) = v.
Proof.
  intros H. rewrite from_little_endian_value.
  - rewrite le_value_to_little_endian. apply Z.mod_small, H.
  - apply bytes_ok_to_little_endian.
  - apply length_to_little_endian.
Qed.

Lemma from_to_big_endian n v :
  in_width (8 * Z.of_nat n) v -> from_big_endian n (to_big_endian n v) = v.
Proof.
  intros H. rewrite from_big_endian_value, to_big_endian_rev, rev_involutive.
  - rewrite le_value_to_little_endian. apply Z.mod_small, H.
  - apply bytes_ok_to_big_endian.
  - apply length_to_big_endian.
Qed.

#[export] Hint Resolve bytes_ok_to_little_endian bytes_ok_to_big_endian : bitprim.
#[export] Hint Rewrite length_to_little_endian zlen_to_little_endian
  length_to_big_endian : bitprim.
