(* ===== verification/Sha2.v ===== *)
(** The SHA-2 digests of [src/math/external]: [sha256.c] and [sha512.c], which
    differ in the width of their words and in their constants only, and the
    message authentication codes and key derivation over them
    ([hmac_sha256.c], [hmac_sha512.c], [pkcs5_pbkdf2.c]). What both digests
    share is written once over the record [sha2] of their constants. The main
    result is that a message digested in any pieces has the digest of the
    standard: the fold of the transformation over the blocks of the padded
    message. *)

From S2P Require Import Prelude Endian.

(** The constants of a digest: the width of a word, the bytes of a block, the
    rounds, the reading and writing of a word, and the rotations. *)
Record sha2 := mk_sha2 {
  word_bits : Z;
  block_length : nat;
  rounds : nat;
  be_dec : list Z -> Z;
  be_enc : Z -> list Z;
  S0 : Z -> Z; S1 : Z -> Z; s0 : Z -> Z; s1 : Z -> Z;
  initial : list Z;
  constants : list Z
}.

Notation at_ l i := (nth i l 0).

Definition Ch (x y z : Z) : Z := Z.lxor (Z.land x (Z.lxor y z)) z.
Definition Maj (x y z : Z) : Z := Z.lor (Z.land x (Z.lor y z)) (Z.land y z).
Definition SHR (x n : Z) : Z := Z.shiftr x n.
Definition ROTR (w x n : Z) : Z := wrap w (Z.lor (Z.shiftr x n) (Z.shiftl x (w - n))).

Lemma length_concat_const {A} n (ls : list (list A)) :
  Forall (fun l => length l = n) ls -> length (concat ls) = (length ls * n)%nat.
Proof. induction 1 as [|l ls Hl _ IH]; [done|]. cbn [concat length]. rewrite length_app, Hl, IH. lia. Qed.

Section Sha2.
Variable p : sha2.

Definition word (v : Z) : Z := wrap (word_bits p) v.
Definition word_length : nat := Z.to_nat (word_bits p / 8).

Definition be_enc_vect (words : list Z) : list Z := concat (map (be_enc p) words).

Fixpoint be_dec_vect (count : nat) (bytes : list Z) : list Z :=
  match count with
  | O => []
  | S count => be_dec p (take word_length bytes) :: be_dec_vect count (drop word_length bytes)
  end.

(** [RND(a, b, c, d, e, f, g, h, k)] on the registers of these indexes *)
Definition RND (a b c d e f g h : nat) (k : Z) (S : list Z) : list Z :=
  let t0 := word (at_ S h + S1 p (at_ S e) + Ch (at_ S e) (at_ S f) (at_ S g) + k) in
  let t1 := word (S0 p (at_ S a) + Maj (at_ S a) (at_ S b) (at_ S c)) in
  let S := <[d := word (at_ S d + t0)]> S in
  <[h := word (t0 + t1)]> S.

Definition RNDr (W S : list Z) (round : nat * Z) : list Z :=
  let '(i, k) := round in
  let r (j : nat) := ((rounds p + j - i) mod 8)%nat in
  RND (r 0%nat) (r 1%nat) (r 2%nat) (r 3%nat) (r 4%nat) (r 5%nat) (r 6%nat) (r 7%nat) (word (at_ W i + k)) S.

(** [W[i] = s1(W[i - 2]) + W[i - 7] + s0(W[i - 15]) + W[i - 16]] *)
Definition extend (W : list Z) (i : nat) : list Z :=
  W ++ [word (s1 p (at_ W (i - 2)) + at_ W (i - 7) + s0 p (at_ W (i - 15)) + at_ W (i - 16))].

Definition Transform (state block : list Z) : list Z :=
  let W := fold_left extend (seq 16 (rounds p - 16)) (be_dec_vect 16 block) in
  let S := fold_left (RNDr W) (zip (seq 0 (rounds p)) (constants p)) state in
  zip_with (fun x y => word (x + y)) state S.

(** The count is kept as the high and the low word. *)
Record context := mk_context { state : list Z; count_high : Z; count_low : Z; buf : list Z }.

(** The buffer has no initial value. *)
Definition Init (uninitialized : list Z) : context := mk_context (initial p) 0 0 uninitialized.

(** [memcpy(&buf[r], input, n)] with [n] the size of [input] *)
Definition copy_at (r : nat) (input buffer : list Z) : list Z :=
  take r buffer ++ input ++ drop (r + length input) buffer.

(** [while (length >= block_length)], at most one turn for each byte. *)
Fixpoint transform_loop (turns : nat) (state input : list Z) : list Z * list Z :=
  match turns with
  | O => (state, input)
  | S turns =>
      if (block_length p <=? length input)%nat
      then transform_loop turns (Transform state (take (block_length p) input)) (drop (block_length p) input)
      else (state, input)
  end.

Definition Update (c : context) (input : list Z) : context :=
  let length_ := zlen input in
  let r := Z.to_nat (Z.land (Z.shiftr (count_low c) 3) (Z.of_nat (block_length p) - 1)) in
  let bitlen1 := word (Z.shiftl (word length_) 3) in
  let bitlen0 := word (Z.shiftr length_ (word_bits p - 3)) in
  let low := word (count_low c + bitlen1) in
  let high := if low <? bitlen1 then word (count_high c + 1) else count_high c in
  let high := word (high + bitlen0) in
  if (length input <? block_length p - r)%nat
  then mk_context (state c) high low (copy_at r input (buf c))
  else
    let buffer := copy_at r (take (block_length p - r) input) (buf c) in
    let input := drop (block_length p - r) input in
    let '(state, input) := transform_loop (length input) (Transform (state c) buffer) input in
    mk_context state high low (copy_at 0 input buffer).

Definition PAD : list Z := 0x80 :: repeat 0 (block_length p - 1).

Definition Pad (c : context) : context :=
  let len := be_enc_vect [count_high c; count_low c] in
  let r := Z.to_nat (Z.land (Z.shiftr (count_low c) 3) (Z.of_nat (block_length p) - 1)) in
  let free := (block_length p - 2 * word_length)%nat in
  let plen := if (r <? free)%nat then (free - r)%nat else (free + block_length p - r)%nat in
  Update (Update c (take plen PAD)) len.

Definition Final (c : context) : list Z := be_enc_vect (state (Pad c)).

Definition digest (uninitialized input : list Z) : list Z := Final (Update (Init uninitialized) input).

(** ** The standard *)

(** The first [count] blocks of a message. *)
Fixpoint blocks (count : nat) (message : list Z) : list (list Z) :=
  match count with
  | O => []
  | S count => take (block_length p) message :: blocks count (drop (block_length p) message)
  end.

(** A one bit, zeros, and the number of bits in two words, up to the end of a
    block. *)
Definition padded (message : list Z) : list Z :=
  let free := (block_length p - 2 * word_length)%nat in
  let r := (length message mod block_length p)%nat in
  let plen := if (r <? free)%nat then (free - r)%nat else (free + block_length p - r)%nat in
  message ++ 0x80 :: repeat 0 (plen - 1) ++ to_big_endian (2 * word_length) (8 * zlen message).

Definition standard (message : list Z) : list Z :=
  let message := padded message in
  be_enc_vect (fold_left Transform (blocks (length message / block_length p) message) (initial p)).

(** What the constants have to satisfy. *)
Record sha2_ok := {
  ok_word : word_bits p = 8 * Z.of_nat word_length;
  ok_block : exists k, 0 <= k /\ Z.of_nat (block_length p) = 2 ^ k /\ k + 3 <= word_bits p;
  ok_field : (2 * word_length < block_length p)%nat;
  ok_enc : forall x, be_enc p x = to_big_endian word_length x
}.

Hypothesis ok : sha2_ok.

Notation B := (block_length p).

Lemma block_pos : (0 < B)%nat.
Proof. pose proof ok_field ok. lia. Qed.

Lemma word_bits_pos : 0 <= word_bits p.
Proof. rewrite (ok_word ok). lia. Qed.

Lemma blocks_app a b message :
  blocks (a + b) message = blocks a message ++ blocks b (drop (a * B) message).
Proof.
  revert message. induction a as [|a IH]; intros message; [done|]. cbn [Nat.add blocks app]. by rewrite IH, drop_drop.
Qed.

Lemma blocks_prefix a message rest :
  (a * B <= length message)%nat -> blocks a (message ++ rest) = blocks a message.
Proof.
  revert message. induction a as [|a IH]; intros message Hl; [done|]. cbn [blocks].
  rewrite take_app_le, drop_app_le, IH by (rewrite ?length_drop; lia). done.
Qed.

Lemma transform_loop_blocks turns state input :
  (length input <= turns)%nat ->
  transform_loop turns state input =
  (fold_left Transform (blocks (length input / B) input) state, drop (length input / B * B) input).
Proof.
  pose proof block_pos as HB. revert state input. induction turns as [|turns IH]; intros state input Hl; cbn [transform_loop].
  { destruct input; [|simpl in Hl; lia]. by rewrite Nat.Div0.div_0_l. }
  destruct (Nat.leb_spec B (length input)) as [Hb|Hb].
  - rewrite IH by (rewrite length_drop; lia). rewrite length_drop.
    assert (E : (length input / B = S ((length input - B) / B))%nat).
    { replace (length input) with (length input - B + 1 * B)%nat at 1 by lia. rewrite Nat.div_add by lia. lia. }
    rewrite E. cbn [blocks fold_left Nat.mul]. by rewrite drop_drop.
  - by rewrite Nat.div_small.
Qed.

(** ** What a context holds of a message *)

Record absorbed (message : list Z) (c : context) : Prop := {
  absorbed_state : state c = fold_left Transform (blocks (length message / B) message) (initial p);
  absorbed_low : 0 <= count_low c < 2 ^ word_bits p;
  absorbed_high : 0 <= count_high c < 2 ^ word_bits p;
  absorbed_count : (count_high c * 2 ^ word_bits p + count_low c) mod 2 ^ (2 * word_bits p) =
    (8 * zlen message) mod 2 ^ (2 * word_bits p);
  absorbed_length : length (buf c) = B;
  absorbed_buf : take (length message mod B) (buf c) = drop (length message / B * B) message
}.

Lemma init_absorbed uninitialized : length uninitialized = B -> absorbed [] (Init uninitialized).
Proof.
  intros Hl. pose proof (pow2_pos _ word_bits_pos). pose proof block_pos.
  split; cbn [Init state count_low count_high buf length]; try lia; rewrite ?Nat.Div0.div_0_l, ?Nat.Div0.mod_0_l; done || lia.
Qed.

Lemma mod_mod_mul a b c : (a mod (b * c)) mod b = a mod b.
Proof. apply Z.mod_mod_divide. by exists c; rewrite Z.mul_comm. Qed.

(** The place in the buffer is the size modulo the block. *)
Lemma absorbed_place message c :
  absorbed message c ->
  Z.to_nat (Z.land (Z.shiftr (count_low c) 3) (Z.of_nat B - 1)) = (length message mod B)%nat.
Proof.
  intros Ha. destruct (ok_block ok) as (k & Hk & HB & Hw). pose proof word_bits_pos as Hwp.
  rewrite HB. replace (2 ^ k - 1) with (Z.ones k) by (rewrite Z.ones_equiv; lia). rewrite Z.land_ones, Z.shiftr_div_pow2 by lia.
  assert (E : count_low c = (8 * zlen message) mod 2 ^ word_bits p).
  { pose proof (absorbed_count _ _ Ha) as Hc. apply (f_equal (fun x => x mod 2 ^ word_bits p)) in Hc.
    replace (2 * word_bits p) with (word_bits p + word_bits p) in Hc by lia. rewrite Z.pow_add_r in Hc by lia.
    rewrite !mod_mod_mul in Hc. rewrite Z.add_comm, Z.mod_add, Z.mod_small in Hc; [done|apply Ha|].
    pose proof (pow2_pos _ Hwp). lia. }
  rewrite E. change (2 ^ 3) with 8.
  replace (2 ^ word_bits p) with (8 * 2 ^ (word_bits p - 3)) by (rewrite <- (Z.pow_add_r 2 3) by lia; f_equal; lia).
  pose proof (pow2_pos (word_bits p - 3) ltac:(lia)). rewrite Zmult_mod_distr_l, Z.mul_comm, Z.div_mul by lia.
  replace (2 ^ (word_bits p - 3)) with (2 ^ k * 2 ^ (word_bits p - 3 - k)) by (rewrite <- Z.pow_add_r by lia; f_equal; lia).
  rewrite mod_mod_mul, <- HB. unfold zlen. rewrite <- Nat2Z.inj_mod. apply Nat2Z.id.
Qed.

(** The two words of the count are the number of bits modulo their width. *)
Lemma count_update W high low bits size :
  0 < W -> 0 <= low < W -> 0 <= bits ->
  (high * W + low) mod (W * W) = size mod (W * W) ->
  let low' := (low + bits mod W) mod W in
  let high' := ((if low' <? bits mod W then (high + 1) mod W else high) + (bits / W) mod W) mod W in
  (high' * W + low') mod (W * W) = (size + bits) mod (W * W).
Proof.
  intros HW Hl Hb Hc low' high'.
  assert (Hm : exists k, high * W + low = size + W * W * k).
  { exists ((high * W + low) / (W * W) - size / (W * W)).
    pose proof (Z.div_mod (high * W + low) (W * W) ltac:(nia)) as E1. pose proof (Z.div_mod size (W * W) ltac:(nia)) as E2.
    rewrite Hc in E1. revert E1 E2. generalize ((high * W + low) / (W * W)) (size / (W * W)) (size mod (W * W)).
    intros a b c E1 E2. rewrite E1. lia. }
  destruct Hm as [k Hk].
  pose proof (Z.mod_pos_bound bits W HW). pose proof (Z.div_mod bits W ltac:(lia)) as Hd.
  pose proof (Z.div_mod (bits / W) W ltac:(lia)) as Ha.
  set (carry := if low' <? bits mod W then 1 else 0).
  assert (Hlow : low + bits mod W = low' + carry * W).
  { unfold carry, low'. destruct (Z.lt_ge_cases (low + bits mod W) W).
    - rewrite (Z.mod_small (low + bits mod W)) by lia. destruct (Z.ltb_spec (low + bits mod W) (bits mod W)); lia.
    - assert (E : (low + bits mod W) mod W = low + bits mod W - W).
      { replace (low + bits mod W) with (low + bits mod W - W + 1 * W) at 1 by lia. rewrite Z.mod_add by lia. apply Z.mod_small. lia. }
      rewrite E. destruct (Z.ltb_spec (low + bits mod W - W) (bits mod W)); lia. }
  assert (Hhigh : exists t, high' = high + carry + (bits / W) mod W + W * t).
  { unfold high', carry. destruct (low' <? bits mod W).
    - pose proof (Z.div_mod (high + 1) W ltac:(lia)). set (x := (high + 1) mod W + (bits / W) mod W).
      pose proof (Z.div_mod x W ltac:(lia)). exists (- (x / W) - (high + 1) / W). unfold x in *. nia.
    - set (x := high + (bits / W) mod W). pose proof (Z.div_mod x W ltac:(lia)). exists (- (x / W)). unfold x in *. nia. }
  destruct Hhigh as [t Ht].
  replace (high' * W + low') with (size + bits + (k - bits / W / W + t) * (W * W)); [apply Z.mod_add; nia|].
  rewrite Ht. nia.
Qed.

Lemma copy_at_ok r input buffer :
  (r + length input <= length buffer)%nat ->
  length (copy_at r input buffer) = length buffer /\
  take (r + length input) (copy_at r input buffer) = take r buffer ++ input.
Proof.
  intros Hl. unfold copy_at. rewrite !length_app, length_take, length_drop. split; [lia|].
  rewrite app_assoc, take_app_length'; [done|]. rewrite length_app, length_take. lia.
Qed.

Lemma update_absorbed message input c : absorbed message c -> absorbed (message ++ input) (Update c input).
Proof.
  intros Ha. pose proof block_pos as HB. pose proof word_bits_pos as Hwp. pose proof (pow2_pos _ Hwp) as HW.
  destruct (ok_block ok) as (k0 & Hk0 & _ & Hw3).
  pose proof (Nat.div_mod_eq (length message) B) as Hd. pose proof (Nat.mod_upper_bound (length message) B ltac:(lia)) as Hr.
  assert (Hbits : word (Z.shiftl (word (zlen input)) 3) = (8 * zlen input) mod 2 ^ word_bits p).
  { unfold word, wrap. rewrite Z.shiftl_mul_pow2 by lia. change (2 ^ 3) with 8. rewrite Z.mul_mod_idemp_l by lia. f_equal. lia. }
  assert (Hhigh : word (Z.shiftr (zlen input) (word_bits p - 3)) = (8 * zlen input / 2 ^ word_bits p) mod 2 ^ word_bits p).
  { unfold word, wrap. rewrite Z.shiftr_div_pow2 by lia. f_equal.
    replace (2 ^ word_bits p) with (8 * 2 ^ (word_bits p - 3)) by (rewrite <- (Z.pow_add_r 2 3) by lia; f_equal; lia).
    by rewrite Z.div_mul_cancel_l by (try apply Z.pow_nonzero; lia). }
  pose proof (count_update (2 ^ word_bits p) (count_high c) (count_low c) (8 * zlen input) (8 * zlen message) HW
    (absorbed_low _ _ Ha) ltac:(pose proof (zlen_nonneg input); lia)) as Hcount.
  rewrite <- Z.pow_add_r, Z.add_diag in Hcount by lia. specialize (Hcount (absorbed_count _ _ Ha)). cbv zeta in Hcount.
  rewrite <- Z.mul_add_distr_l, <- zlen_app in Hcount.
  unfold Update. rewrite (absorbed_place _ _ Ha), Hbits, Hhigh. unfold word, wrap in *.
  pose proof (absorbed_buf _ _ Ha) as Hbuf. pose proof (absorbed_state _ _ Ha) as Hstate.
  set (r := (length message mod B)%nat) in *. set (q := (length message / B)%nat) in *.
  assert (Hbound : forall x, 0 <= x mod 2 ^ word_bits p < 2 ^ word_bits p) by (intros; by apply Z.mod_pos_bound).
  destruct (Nat.ltb_spec (length input) (B - r)) as [Hs|Hs].
  - destruct (copy_at_ok r input (buf c)) as [Hcl Hct]; [rewrite (absorbed_length _ _ Ha); lia|].
    rewrite (absorbed_length _ _ Ha) in Hcl.
    assert (Hq : (length (message ++ input) / B = q)%nat).
    { rewrite length_app. symmetry. apply (Nat.div_unique _ _ _ (r + length input)); lia. }
    assert (Hm : (length (message ++ input) mod B = r + length input)%nat).
    { rewrite length_app. symmetry. apply (Nat.mod_unique _ _ q); lia. }
    split; cbn [state count_low count_high buf]; try done; try apply Hbound.
    + rewrite Hq, blocks_prefix by lia. apply Ha.
    + rewrite Hm, Hq, Hct, Hbuf. by rewrite drop_app_le by lia.
  - set (front := take (B - r) input). set (rest := drop (B - r) input).
    assert (Hfront : length front = (B - r)%nat) by (unfold front; rewrite length_take; lia).
    destruct (copy_at_ok r front (buf c)) as [Hcl Hct]; [rewrite (absorbed_length _ _ Ha); lia|].
    rewrite (absorbed_length _ _ Ha) in Hcl.
    assert (Hblock : copy_at r front (buf c) = take B (drop (q * B) (message ++ input))).
    { rewrite <- (take_ge (copy_at r front (buf c)) B) by lia. replace B with (r + length front)%nat at 1 by lia.
      rewrite Hct, Hbuf, drop_app_le by lia. rewrite take_app_ge by (rewrite length_drop; lia).
      f_equal. unfold front. f_equal. rewrite length_drop. lia. }
    assert (Hrest : rest = drop (S q * B) (message ++ input)).
    { rewrite drop_app_ge by lia. unfold rest. f_equal. lia. }
    rewrite transform_loop_blocks by lia.
    assert (Hl : length (message ++ input) = (length rest + S q * B)%nat).
    { unfold rest. rewrite length_app, length_drop. lia. }
    assert (Hq : (length (message ++ input) / B = S q + length rest / B)%nat) by (rewrite Hl, Nat.div_add by lia; lia).
    assert (Hm : (length (message ++ input) mod B = length rest mod B)%nat) by (rewrite Hl, Nat.Div0.mod_add; lia).
    pose proof (Nat.div_mod_eq (length rest) B) as Hdr. pose proof (Nat.mod_upper_bound (length rest) B ltac:(lia)) as Hmr.
    set (m := (length rest mod B)%nat) in *. set (n := (length rest / B)%nat) in *.
    set (tail := drop (n * B) rest). assert (Ht : length tail = m) by (unfold tail; rewrite length_drop; lia).
    destruct (copy_at_ok 0 tail (copy_at r front (buf c))) as [Hcl' Hct']; [lia|]. rewrite Hcl in Hcl'.
    split; cbn [state count_low count_high buf]; try done; try apply Hbound.
    + rewrite Hq, blocks_app, fold_left_app. rewrite <- Hrest. f_equal.
      replace (S q) with (q + 1)%nat by lia. rewrite blocks_app, fold_left_app. cbn [blocks fold_left]. rewrite <- Hblock.
      f_equal. rewrite blocks_prefix by lia. apply Ha.
    + rewrite Hm, Hq, <- Ht. cbn [Nat.add take app] in Hct'. rewrite Hct'. unfold tail. rewrite Hrest, drop_drop, take_0, <- Nat.mul_add_distr_r. done.
Qed.

Lemma update_pieces pieces message c :
  absorbed message c -> absorbed (message ++ concat pieces) (fold_left Update pieces c).
Proof.
  revert message c. induction pieces as [|x pieces IH]; intros message c Ha; cbn [concat fold_left]; [by rewrite app_nil_r|].
  rewrite app_assoc. apply IH. by apply update_absorbed.
Qed.

Lemma to_little_endian_app a b v :
  to_little_endian (a + b) v = to_little_endian a v ++ to_little_endian b (Z.shiftr v (8 * Z.of_nat a)).
Proof.
  revert v. induction a as [|a IH]; intros v; [by rewrite Z.shiftr_0_r|]. cbn [Nat.add to_little_endian app]. rewrite IH.
  rewrite Z.shiftr_shiftr by lia. do 4 f_equal. lia.
Qed.

Lemma to_little_endian_mod n v w : v mod 2 ^ (8 * Z.of_nat n) = w mod 2 ^ (8 * Z.of_nat n) -> to_little_endian n v = to_little_endian n w.
Proof.
  intros E. rewrite <- (to_little_endian_le_value (to_little_endian n v)), <- (to_little_endian_le_value (to_little_endian n w))
    by apply bytes_ok_to_little_endian.
  by rewrite !length_to_little_endian, !le_value_to_little_endian, E.
Qed.

(** The field of the size. *)
Lemma count_field message c :
  absorbed message c -> be_enc_vect [count_high c; count_low c] = to_big_endian (2 * word_length) (8 * zlen message).
Proof.
  intros Ha. unfold be_enc_vect. cbn [map concat]. rewrite !(ok_enc ok), app_nil_r, !to_big_endian_rev, <- rev_app_distr. f_equal.
  rewrite (to_little_endian_mod _ (8 * zlen message) (count_high c * 2 ^ word_bits p + count_low c)).
  2:{ replace (8 * Z.of_nat (2 * word_length)) with (2 * word_bits p) by (rewrite (ok_word ok); lia). symmetry. apply Ha. }
  replace (2 * word_length)%nat with (word_length + word_length)%nat by lia. rewrite to_little_endian_app.
  rewrite <- (ok_word ok), Z.shiftr_div_pow2 by apply word_bits_pos. pose proof (pow2_pos _ word_bits_pos).
  rewrite Z.div_add_l, (Z.div_small (count_low c)), Z.add_0_r by (lia || apply Ha). f_equal.
  apply to_little_endian_mod. rewrite <- (ok_word ok), Z.add_comm, Z.mod_add by lia. done.
Qed.

Lemma final_standard message c : absorbed message c -> Final c = standard message.
Proof.
  intros Ha. unfold Final, Pad. rewrite (count_field _ _ Ha), (absorbed_place _ _ Ha).
  pose proof block_pos as HB. pose proof (ok_field ok) as Hf.
  pose proof (Nat.mod_upper_bound (length message) B ltac:(lia)) as Hr.
  set (free := (B - 2 * word_length)%nat). set (r := (length message mod B)%nat) in *.
  set (plen := if (r <? free)%nat then (free - r)%nat else (free + B - r)%nat).
  assert (Hp : (1 <= plen <= B)%nat) by (unfold plen, free; destruct (Nat.ltb_spec r (B - 2 * word_length)); lia).
  assert (Hpad : take plen PAD = 0x80 :: repeat 0 (plen - 1)).
  { unfold PAD. destruct plen as [|n]; [lia|]. cbn [take]. f_equal. rewrite take_repeat. f_equal. lia. }
  rewrite Hpad. set (field := to_big_endian (2 * word_length) (8 * zlen message)).
  pose proof (update_absorbed _ field _ (update_absorbed _ (0x80 :: repeat 0 (plen - 1)) _ Ha)) as Hu.
  rewrite (absorbed_state _ _ Hu). unfold standard. f_equal.
  assert (E : (message ++ 0x80 :: repeat 0 (plen - 1)) ++ field = padded message) by (unfold padded; rewrite <- app_assoc; done).
  by rewrite E.
Qed.

(** A message that is digested in any pieces, whatever the buffer holds at the
    start, has the standard digest. *)
Lemma digest_pieces uninitialized pieces :
  length uninitialized = B -> Final (fold_left Update pieces (Init uninitialized)) = standard (concat pieces).
Proof. intros Hu. apply final_standard. apply (update_pieces pieces []). by apply init_absorbed. Qed.

Lemma digest_standard uninitialized message : length uninitialized = B -> digest uninitialized message = standard message.
Proof. intros Hu. rewrite <- (app_nil_r message) at 2. exact (digest_pieces uninitialized [message] Hu). Qed.

Lemma length_RND a b c d e f g h k S : length (RND a b c d e f g h k S) = length S.
Proof. unfold RND. by rewrite !length_insert. Qed.

Lemma length_Transform state block : length (Transform state block) = length state.
Proof.
  unfold Transform. rewrite length_zip_with.
  set (W := fold_left extend _ _). generalize (zip (seq 0 (rounds p)) (constants p)). intros l.
  assert (E : forall S, length (fold_left (RNDr W) l S) = length S).
  { induction l as [|[i k] l IH]; intros S; cbn [fold_left]; [done|]. rewrite IH. apply length_RND. }
  rewrite E. lia.
Qed.

Lemma standard_length message : length (standard message) = (length (initial p) * word_length)%nat.
Proof.
  unfold standard, be_enc_vect. rewrite (length_concat_const word_length).
  - rewrite length_map. f_equal. generalize (blocks (length (padded message) / B) (padded message)). intros l.
    generalize (initial p). induction l as [|b l IH]; intros state; cbn [fold_left]; [done|]. by rewrite IH, length_Transform.
  - apply Forall_map, Forall_true. intros x. rewrite (ok_enc ok). apply length_to_big_endian.
Qed.

Lemma standard_bytes message : bytes_ok (standard message).
Proof.
  unfold standard, be_enc_vect. apply bytes_ok_concat, Forall_map, Forall_true. intros x. rewrite (ok_enc ok).
  apply bytes_ok_to_big_endian.
Qed.

(** The padded message is a whole number of blocks. *)
Lemma padded_length message : (length (padded message) mod B = 0)%nat.
Proof.
  pose proof block_pos as HB. pose proof (ok_field ok) as Hf.
  pose proof (Nat.mod_upper_bound (length message) B ltac:(lia)) as Hr. pose proof (Nat.div_mod_eq (length message) B) as Hd.
  unfold padded. rewrite length_app. cbn [length]. rewrite length_app, repeat_length, length_to_big_endian.
  set (q := (length message / B)%nat) in *. set (r := (length message mod B)%nat) in *.
  destruct (Nat.ltb_spec r (B - 2 * word_length)).
  - replace (length message + S (B - 2 * word_length - r - 1 + 2 * word_length))%nat with (S q * B)%nat by lia. apply Nat.Div0.mod_mul.
  - replace (length message + S (B - 2 * word_length + B - r - 1 + 2 * word_length))%nat with (S (S q) * B)%nat by lia. apply Nat.Div0.mod_mul.
Qed.
End Sha2.

(** ** The two digests *)

Definition be32dec (p : list Z) : Z :=
  u32 (at_ p 3 + Z.shiftl (at_ p 2) 8 + Z.shiftl (at_ p 1) 16 + Z.shiftl (at_ p 0) 24).

Definition be32enc (x : Z) : list Z :=
  [Z.land (Z.shiftr x 24) 0xff; Z.land (Z.shiftr x 16) 0xff; Z.land (Z.shiftr x 8) 0xff; Z.land x 0xff].

Definition sha256 : sha2 := {|
  word_bits := 32; block_length := 64; rounds := 64; be_dec := be32dec; be_enc := be32enc;
  S0 := fun x => Z.lxor (Z.lxor (ROTR 32 x 2) (ROTR 32 x 13)) (ROTR 32 x 22);
  S1 := fun x => Z.lxor (Z.lxor (ROTR 32 x 6) (ROTR 32 x 11)) (ROTR 32 x 25);
  s0 := fun x => Z.lxor (Z.lxor (ROTR 32 x 7) (ROTR 32 x 18)) (SHR x 3);
  s1 := fun x => Z.lxor (Z.lxor (ROTR 32 x 17) (ROTR 32 x 19)) (SHR x 10);
  initial := [0x6A09E667; 0xBB67AE85; 0x3C6EF372; 0xA54FF53A; 0x510E527F; 0x9B05688C; 0x1F83D9AB; 0x5BE0CD19];
  constants := [
   0x428A2F98; 0x71374491; 0xB5C0FBCF; 0xE9B5DBA5; 0x3956C25B; 0x59F111F1; 0x923F82A4; 0xAB1C5ED5;
   0xD807AA98; 0x12835B01; 0x243185BE; 0x550C7DC3; 0x72BE5D74; 0x80DEB1FE; 0x9BDC06A7; 0xC19BF174;
   0xE49B69C1; 0xEFBE4786; 0x0FC19DC6; 0x240CA1CC; 0x2DE92C6F; 0x4A7484AA; 0x5CB0A9DC; 0x76F988DA;
   0x983E5152; 0xA831C66D; 0xB00327C8; 0xBF597FC7; 0xC6E00BF3; 0xD5A79147; 0x06CA6351; 0x14292967;
   0x27B70A85; 0x2E1B2138; 0x4D2C6DFC; 0x53380D13; 0x650A7354; 0x766A0ABB; 0x81C2C92E; 0x92722C85;
   0xA2BFE8A1; 0xA81A664B; 0xC24B8B70; 0xC76C51A3; 0xD192E819; 0xD6990624; 0xF40E3585; 0x106AA070;
   0x19A4C116; 0x1E376C08; 0x2748774C; 0x34B0BCB5; 0x391C0CB3; 0x4ED8AA4A; 0x5B9CCA4F; 0x682E6FF3;
   0x748F82EE; 0x78A5636F; 0x84C87814; 0x8CC70208; 0x90BEFFFA; 0xA4506CEB; 0xBEF9A3F7; 0xC67178F2]
|}.

Definition be64dec (p : list Z) : Z :=
  u64 (at_ p 7 + Z.shiftl (at_ p 6) 8 + Z.shiftl (at_ p 5) 16 + Z.shiftl (at_ p 4) 24 +
       Z.shiftl (at_ p 3) 32 + Z.shiftl (at_ p 2) 40 + Z.shiftl (at_ p 1) 48 + Z.shiftl (at_ p 0) 56).

Definition be64enc (x : Z) : list Z :=
  [Z.land (Z.shiftr x 56) 0xff; Z.land (Z.shiftr x 48) 0xff; Z.land (Z.shiftr x 40) 0xff; Z.land (Z.shiftr x 32) 0xff;
   Z.land (Z.shiftr x 24) 0xff; Z.land (Z.shiftr x 16) 0xff; Z.land (Z.shiftr x 8) 0xff; Z.land x 0xff].

Definition sha512 : sha2 := {|
  word_bits := 64; block_length := 128; rounds := 80; be_dec := be64dec; be_enc := be64enc;
  S0 := fun x => Z.lxor (Z.lxor (ROTR 64 x 28) (ROTR 64 x 34)) (ROTR 64 x 39);
  S1 := fun x => Z.lxor (Z.lxor (ROTR 64 x 14) (ROTR 64 x 18)) (ROTR 64 x 41);
  s0 := fun x => Z.lxor (Z.lxor (ROTR 64 x 1) (ROTR 64 x 8)) (SHR x 7);
  s1 := fun x => Z.lxor (Z.lxor (ROTR 64 x 19) (ROTR 64 x 61)) (SHR x 6);
  initial := [0x6a09e667f3bcc908; 0xbb67ae8584caa73b; 0x3c6ef372fe94f82b; 0xa54ff53a5f1d36f1;
    0x510e527fade682d1; 0x9b05688c2b3e6c1f; 0x1f83d9abfb41bd6b; 0x5be0cd19137e2179];
  constants := [
   0x428a2f98d728ae22; 0x7137449123ef65cd; 0xb5c0fbcfec4d3b2f; 0xe9b5dba58189dbbc;
   0x3956c25bf348b538; 0x59f111f1b605d019; 0x923f82a4af194f9b; 0xab1c5ed5da6d8118;
   0xd807aa98a3030242; 0x12835b0145706fbe; 0x243185be4ee4b28c; 0x550c7dc3d5ffb4e2;
   0x72be5d74f27b896f; 0x80deb1fe3b1696b1; 0x9bdc06a725c71235; 0xc19bf174cf692694;
   0xe49b69c19ef14ad2; 0xefbe4786384f25e3; 0x0fc19dc68b8cd5b5; 0x240ca1cc77ac9c65;
   0x2de92c6f592b0275; 0x4a7484aa6ea6e483; 0x5cb0a9dcbd41fbd4; 0x76f988da831153b5;
   0x983e5152ee66dfab; 0xa831c66d2db43210; 0xb00327c898fb213f; 0xbf597fc7beef0ee4;
   0xc6e00bf33da88fc2; 0xd5a79147930aa725; 0x06ca6351e003826f; 0x142929670a0e6e70;
   0x27b70a8546d22ffc; 0x2e1b21385c26c926; 0x4d2c6dfc5ac42aed; 0x53380d139d95b3df;
   0x650a73548baf63de; 0x766a0abb3c77b2a8; 0x81c2c92e47edaee6; 0x92722c851482353b;
   0xa2bfe8a14cf10364; 0xa81a664bbc423001; 0xc24b8b70d0f89791; 0xc76c51a30654be30;
   0xd192e819d6ef5218; 0xd69906245565a910; 0xf40e35855771202a; 0x106aa07032bbd1b8;
   0x19a4c116b8d2d0c8; 0x1e376c085141ab53; 0x2748774cdf8eeb99; 0x34b0bcb5e19b48a8;
   0x391c0cb3c5c95a63; 0x4ed8aa4ae3418acb; 0x5b9cca4f7763e373; 0x682e6ff3d6b2b8a3;
   0x748f82ee5defb2fc; 0x78a5636f43172f60; 0x84c87814a1f0ab72; 0x8cc702081a6439ec;
   0x90befffa23631e28; 0xa4506cebde82bde9; 0xbef9a3f7b2c67915; 0xc67178f2e372532b;
   0xca273eceea26619c; 0xd186b8c721c0c207; 0xeada7dd6cde0eb1e; 0xf57d4f7fee6ed178;
   0x06f067aa72176fba; 0x0a637dc5a2c898a6; 0x113f9804bef90dae; 0x1b710b35131c471b;
   0x28db77f523047d84; 0x32caab7b40c72493; 0x3c9ebe0a15c9bebc; 0x431d67c49c100d4c;
   0x4cc5d4becb3e42b6; 0x597f299cfc657e2a; 0x5fcb6fab3ad6faec; 0x6c44198c4a475817]
|}.

(** The contexts are declared without an initial value; the digest does not
    depend on it ([digest_standard]), and here it is zero. *)
Definition SHA256_ (input : list Z) : list Z := digest sha256 (repeat 0 64) input.

(** The functions of [sha512.c] are those of [sha256.c] at its constants. *)
Definition SHA512Transform : list Z -> list Z -> list Z := Transform sha512.
Definition SHA512Init : list Z -> context := Init sha512.
Definition SHA512Update : context -> list Z -> context := Update sha512.
Definition SHA512Pad : context -> context := Pad sha512.
Definition SHA512Final : context -> list Z := Final sha512.
Definition SHA512_ (input : list Z) : list Z := SHA512Final (SHA512Update (SHA512Init (repeat 0 128)) input).

Lemma sha256_vector :
  SHA256_ (chars "abc") =
  [0xba; 0x78; 0x16; 0xbf; 0x8f; 0x01; 0xcf; 0xea; 0x41; 0x41; 0x40; 0xde; 0x5d; 0xae; 0x22; 0x23;
   0xb0; 0x03; 0x61; 0xa3; 0x96; 0x17; 0x7a; 0x9c; 0xb4; 0x10; 0xff; 0x61; 0xf2; 0x00; 0x15; 0xad].
Proof. vm_compute. reflexivity. Qed.

Lemma sha512_vector :
  take 16 (SHA512_ (chars "abc")) =
  [0xdd; 0xaf; 0x35; 0xa1; 0x93; 0x61; 0x7a; 0xba; 0xcc; 0x41; 0x73; 0x49; 0xae; 0x20; 0x41; 0x31].
Proof. vm_compute. reflexivity. Qed.

(** The zeros from the lowest to the highest of the shifts. *)
Lemma land_ff x : Z.land x 0xff = u8 x.
Proof. change 0xff with (Z.ones 8). by rewrite Z.land_ones. Qed.

Lemma sha256_ok : sha2_ok sha256.
Proof.
  split; [done| |apply Nat.ltb_lt; reflexivity|].
  - exists 6. split_and!; [lia|reflexivity|done].
  - intros x. rewrite to_big_endian_rev. cbn [sha256 be_enc]. unfold be32enc. rewrite !land_ff.
    change (word_length _) with 4%nat. cbn [to_little_endian rev app]. by rewrite !Z.shiftr_shiftr by lia.
Qed.

Lemma sha512_ok : sha2_ok sha512.
Proof.
  split; [done| |apply Nat.ltb_lt; reflexivity|].
  - exists 7. split_and!; [lia|reflexivity|done].
  - intros x. rewrite to_big_endian_rev. cbn [sha512 be_enc]. unfold be64enc. rewrite !land_ff.
    change (word_length _) with 8%nat. cbn [to_little_endian rev app]. by rewrite !Z.shiftr_shiftr by lia.
Qed.

(** ** Message authentication codes *)

Section Hmac.
Variable p : sha2.

(** [memset(pad, value, block_length)] and [pad[i] ^= key[i]] for the key *)
Definition xor_pad (value : Z) (key : list Z) : list Z :=
  zip_with Z.lxor (repeat value (length key)) key ++ repeat value (block_length p - length key).

Record hmac_context := mk_hmac { ictx : context; octx : context }.

(** A key that is longer than a block is replaced by its digest, which leaves
    the inner context zero. *)
Definition HMACInit (inner outer key : list Z) : hmac_context :=
  let '(inner, key) :=
    if (block_length p <? length key)%nat
    then (repeat 0 (block_length p), Final p (Update p (Init p inner) key))
    else (inner, key) in
  mk_hmac (Update p (Init p inner) (xor_pad 0x36 key)) (Update p (Init p outer) (xor_pad 0x5c key)).

Definition HMACUpdate (c : hmac_context) (input : list Z) : hmac_context := mk_hmac (Update p (ictx c) input) (octx c).

Definition HMACFinal (c : hmac_context) : list Z := Final p (Update p (octx c) (Final p (ictx c))).

Definition HMAC (inner outer input key : list Z) : list Z := HMACFinal (HMACUpdate (HMACInit inner outer key) input).

(** The standard: two digests under the padded key. *)
Definition hmac_standard (input key : list Z) : list Z :=
  let key := if (block_length p <? length key)%nat then standard p key else key in
  standard p (xor_pad 0x5c key ++ standard p (xor_pad 0x36 key ++ input)).

Lemma hmac_correct inner outer input key :
  sha2_ok p -> length inner = block_length p -> length outer = block_length p ->
  HMAC inner outer input key = hmac_standard input key.
Proof.
  intros Hp Hi Ho. unfold HMAC, HMACInit, HMACUpdate, HMACFinal, hmac_standard.
  assert (Hz : length (repeat 0 (block_length p)) = block_length p) by apply repeat_length.
  pose proof (digest_standard p Hp inner key Hi) as Hd. unfold digest in Hd. rewrite Hd.
  assert (Hpair : forall u a b, length u = block_length p -> Final p (Update p (Update p (Init p u) a) b) = standard p (a ++ b)).
  { intros u a b Hu. pose proof (digest_pieces p Hp u [a; b] Hu) as E. cbn [fold_left concat] in E. by rewrite app_nil_r in E. }
  destruct (block_length p <? length key)%nat; cbn [ictx octx]; by rewrite !Hpair.
Qed.

(** A message in any pieces has the code of the whole. *)
Lemma hmac_pieces inner outer pieces key :
  sha2_ok p -> length inner = block_length p -> length outer = block_length p ->
  HMACFinal (fold_left HMACUpdate pieces (HMACInit inner outer key)) = hmac_standard (concat pieces) key.
Proof.
  intros Hp Hi Ho. rewrite <- (hmac_correct inner outer (concat pieces) key Hp Hi Ho). unfold HMAC.
  assert (Hoctx : forall l c, octx (fold_left HMACUpdate l c) = octx c /\
    ictx (fold_left HMACUpdate l c) = fold_left (Update p) l (ictx c)).
  { intros l. induction l as [|x l IH]; intros c; cbn [fold_left]; [done|]. destruct (IH (HMACUpdate c x)) as [-> ->]. done. }
  unfold HMACFinal. destruct (Hoctx pieces (HMACInit inner outer key)) as [-> ->]. cbn [ictx octx HMACUpdate]. do 2 f_equal.
  unfold HMACInit. assert (Hz : length (repeat 0 (block_length p)) = block_length p) by apply repeat_length.
  assert (Hpieces : forall u first l, length u = block_length p ->
    Final p (fold_left (Update p) l (Update p (Init p u) first)) = Final p (Update p (Update p (Init p u) first) (concat l))).
  { intros u first l Hu. pose proof (digest_pieces p Hp u (first :: l) Hu) as E1. cbn [fold_left concat] in E1. rewrite E1.
    pose proof (digest_pieces p Hp u [first; concat l] Hu) as E2. cbn [fold_left concat] in E2. rewrite E2.
    by rewrite app_nil_r. }
  destruct (block_length p <? length key)%nat; cbn [ictx]; by apply Hpieces.
Qed.
End Hmac.

Definition HMACSHA256 (input key : list Z) : list Z := HMAC sha256 (repeat 0 64) (repeat 0 64) input key.

(** The functions of [hmac_sha512.c]. *)
Definition HMACSHA512Init : list Z -> list Z -> list Z -> hmac_context := HMACInit sha512.
Definition HMACSHA512Update : hmac_context -> list Z -> hmac_context := HMACUpdate sha512.
Definition HMACSHA512Final : hmac_context -> list Z := HMACFinal sha512.
Definition HMACSHA512 (input key : list Z) : list Z :=
  HMACSHA512Final (HMACSHA512Update (HMACSHA512Init (repeat 0 128) (repeat 0 128) key) input).

(** RFC 4231, test case 2. *)
Lemma hmac_sha256_vector :
  HMACSHA256 (chars "what do ya want for nothing?") (chars "Jefe") =
  [0x5b; 0xdc; 0xc1; 0x46; 0xbf; 0x60; 0x75; 0x4e; 0x6a; 0x04; 0x24; 0x26; 0x08; 0x95; 0x75; 0xc7;
   0x5a; 0x00; 0x3f; 0x08; 0x9d; 0x27; 0x39; 0x83; 0x9d; 0xec; 0x58; 0xb9; 0x64; 0xec; 0x38; 0x43].
Proof. vm_compute. reflexivity. Qed.

(** ** Key derivation, [pkcs5_pbkdf2.c]

    Only a failed allocation makes the function return an error, apart from a
    salt that leaves no room for the counter. *)

Definition digest_length : nat := 64.

(** [digest1 = HMAC(digest1); buffer ^= digest1] *)
Definition derive_step (passphrase : list Z) (s : list Z * list Z) : list Z * list Z :=
  let '(digest1, buffer) := s in
  let digest1 := HMACSHA512 digest1 passphrase in
  (digest1, zip_with Z.lxor buffer digest1).

Definition derive_block (passphrase salt : list Z) (iterations count : Z) : list Z :=
  let asalt := salt ++ [Z.land (Z.shiftr count 24) 0xff; Z.land (Z.shiftr count 16) 0xff;
                        Z.land (Z.shiftr count 8) 0xff; Z.land count 0xff] in
  let digest1 := HMACSHA512 asalt passphrase in
  snd (Nat.iter (Z.to_nat (iterations - 1)) (derive_step passphrase) (digest1, digest1)).

(** [for (count = 1; key_length > 0; count++)], at most one turn for each byte *)
Fixpoint derive_loop (turns : nat) (passphrase salt : list Z) (iterations count : Z) (key_length : nat) : list Z :=
  match turns with
  | O => []
  | S turns =>
      if (key_length =? 0)%nat then []
      else
        let length := if (key_length <? digest_length)%nat then key_length else digest_length in
        take length (derive_block passphrase salt iterations count) ++
        derive_loop turns passphrase salt iterations (u64 (count + 1)) (key_length - length)
  end.

(** [None]: the function returns an error. *)
Definition pkcs5_pbkdf2 (passphrase salt : list Z) (key_length : nat) (iterations : Z) : option (list Z) :=
  if zlen salt >? 2 ^ 64 - 1 - 4 then None
  else Some (derive_loop key_length passphrase salt iterations 1 key_length).

(** The standard: the exclusive or of the iterates of the code. *)
Definition iterate (passphrase first : list Z) (n : nat) : list Z := Nat.iter n (fun u => HMACSHA512 u passphrase) first.

Definition derived (passphrase salt : list Z) (iterations count : Z) : list Z :=
  let first := HMACSHA512 (salt ++ to_big_endian 4 count) passphrase in
  fold_left (fun sum n => zip_with Z.lxor sum (iterate passphrase first n)) (seq 1 (Z.to_nat (iterations - 1))) first.

Lemma iterate_sum (f : list Z -> list Z) first n :
  Nat.iter n (fun s => let '(digest1, buffer) := s in let digest1 := f digest1 in (digest1, zip_with Z.lxor buffer digest1))
    (first, first) =
  (Nat.iter n f first, fold_left (fun sum n => zip_with Z.lxor sum (Nat.iter n f first)) (seq 1 n) first).
Proof.
  induction n as [|n IH]; [reflexivity|]. rewrite seq_S, fold_left_app. cbn [fold_left Nat.add Nat.iter] in *.
  rewrite Nat.iter_succ, IH. reflexivity.
Qed.

Lemma derive_block_standard passphrase salt iterations count :
  derive_block passphrase salt iterations count = derived passphrase salt iterations count.
Proof.
  unfold derive_block, derived.
  replace [Z.land (Z.shiftr count 24) 0xff; Z.land (Z.shiftr count 16) 0xff; Z.land (Z.shiftr count 8) 0xff;
           Z.land count 0xff] with (to_big_endian 4 count)
    by (rewrite to_big_endian_rev, !land_ff; cbn [to_little_endian rev app]; by rewrite !Z.shiftr_shiftr by lia).
  unfold derive_step, iterate. by rewrite iterate_sum.
Qed.

Lemma length_SHA256 message : length (SHA256_ message) = 32%nat.
Proof. unfold SHA256_. by rewrite (digest_standard _ sha256_ok), (standard_length _ sha256_ok). Qed.

Lemma bytes_SHA256 message : bytes_ok (SHA256_ message).
Proof. unfold SHA256_. rewrite (digest_standard _ sha256_ok) by done. apply (standard_bytes _ sha256_ok). Qed.

Lemma length_SHA512 message : length (SHA512_ message) = 64%nat.
Proof. change (SHA512_ message) with (digest sha512 (repeat 0 128) message). by rewrite (digest_standard _ sha512_ok), (standard_length _ sha512_ok). Qed.

Lemma bytes_SHA512 message : bytes_ok (SHA512_ message).
Proof. change (SHA512_ message) with (digest sha512 (repeat 0 128) message). rewrite (digest_standard _ sha512_ok) by done. apply (standard_bytes _ sha512_ok). Qed.

Lemma hmac_sha256_standard input key : HMACSHA256 input key = hmac_standard sha256 input key.
Proof. by apply (hmac_correct _ _ _ _ _ sha256_ok). Qed.

Lemma hmac_sha512_standard input key : HMACSHA512 input key = hmac_standard sha512 input key.
Proof. by apply (hmac_correct _ _ _ _ _ sha512_ok). Qed.

Lemma length_HMACSHA512 input key : length (HMACSHA512 input key) = 64%nat.
Proof. rewrite hmac_sha512_standard. apply (standard_length _ sha512_ok). Qed.

Lemma bytes_HMACSHA512 input key : bytes_ok (HMACSHA512 input key).
Proof. rewrite hmac_sha512_standard. apply (standard_bytes _ sha512_ok). Qed.

Lemma length_HMACSHA256 input key : length (HMACSHA256 input key) = 32%nat.
Proof. rewrite hmac_sha256_standard. apply (standard_length _ sha256_ok). Qed.

Lemma bytes_HMACSHA256 input key : bytes_ok (HMACSHA256 input key).
Proof. rewrite hmac_sha256_standard. apply (standard_bytes _ sha256_ok). Qed.

Lemma length_derived passphrase salt iterations count : length (derived passphrase salt iterations count) = 64%nat.
Proof.
  unfold derived. set (first := HMACSHA512 _ _). assert (Hf : length first = 64%nat) by apply length_HMACSHA512.
  assert (E : forall l sum, length sum = 64%nat -> Forall (fun n => (0 < n)%nat) l ->
    length (fold_left (fun sum n => zip_with Z.lxor sum (iterate passphrase first n)) l sum) = 64%nat).
  { induction l as [|n l IH]; intros sum Hs Hl; [done|]. apply Forall_cons in Hl as [Hn Hl]. cbn [fold_left]. apply IH; [|done].
    rewrite length_zip_with, Hs. destruct n as [|n]; [lia|]. unfold iterate. rewrite Nat.iter_succ, length_HMACSHA512. lia. }
  apply E; [done|]. apply Forall_forall. intros n Hn%elem_of_seq. lia.
Qed.

(** The output is made of the blocks of the standard in order, cut to the
    length that was asked for. *)
Lemma derive_loop_standard turns passphrase salt iterations k count key_length :
  (key_length <= turns)%nat -> (key_length <= k * 64)%nat -> 0 <= count -> count + Z.of_nat k < 2 ^ 64 ->
  derive_loop turns passphrase salt iterations count key_length =
  take key_length (concat (map (fun i => derived passphrase salt iterations (count + Z.of_nat i)) (seq 0 k))).
Proof.
  revert k count key_length. induction turns as [|turns IH]; intros k count key_length Ht Hk Hc Hw; cbn [derive_loop].
  { by replace key_length with 0%nat by lia. }
  destruct (Nat.eqb_spec key_length 0) as [->|Hz]; [done|]. destruct k as [|k]; [lia|].
  cbn [seq map concat]. rewrite Z.add_0_r, derive_block_standard, <- seq_shift, map_map.
  pose proof (length_derived passphrase salt iterations count) as Hd. unfold digest_length.
  set (first := derived passphrase salt iterations count) in *.
  replace (u64 (count + 1)) with (count + 1) by (symmetry; apply Z.mod_small; lia).
  rewrite (IH k) by (destruct (Nat.ltb_spec key_length 64); lia).
  assert (E : map (fun i => derived passphrase salt iterations (count + Z.of_nat (S i))) (seq 0 k) =
    map (fun i => derived passphrase salt iterations (count + 1 + Z.of_nat i)) (seq 0 k)) by
    (apply map_ext; intros i; by replace (count + Z.of_nat (S i)) with (count + 1 + Z.of_nat i) by lia).
  rewrite E.
  destruct (Nat.ltb_spec key_length 64).
  - rewrite Nat.sub_diag, take_0, app_nil_r. by rewrite take_app_le by lia.
  - rewrite take_ge by lia. rewrite take_app_ge by lia. by rewrite Hd.
Qed.

Lemma pbkdf2_standard passphrase salt iterations :
  zlen salt <= 2 ^ 64 - 1 - 4 ->
  pkcs5_pbkdf2 passphrase salt 64 iterations = Some (derived passphrase salt iterations 1).
Proof.
  intros Hs. unfold pkcs5_pbkdf2. destruct (Z.gtb_spec (zlen salt) (2 ^ 64 - 1 - 4)); [lia|]. f_equal.
  rewrite (derive_loop_standard _ _ _ _ 1) by lia. cbn [seq map concat]. rewrite app_nil_r, Z.add_0_r.
  apply take_ge. by rewrite length_derived.
Qed.
