(* ===== verification/Digests.v ===== *)
(** The digests SHA-1 and RIPEMD-160 of [src/math/external/sha1.c] and
    [ripemd160.c], and the functions of [src/math/hash.cpp] over these and the
    SHA-2 digests. *)

From S2P Require Import Prelude Endian Sha2.

(** ** Padding to blocks of 64 bytes *)

(** A one bit, zeros, and a field of eight bytes at the end of a block. *)
Definition padded_with (field message : list Z) : list Z :=
  let r := (length message mod 64)%nat in
  let plen := if (r <? 56)%nat then (56 - r)%nat else (56 + 64 - r)%nat in
  message ++ 0x80 :: repeat 0 (plen - 1) ++ field.

(** What follows the whole blocks of a message. *)
Definition tail_of (message : list Z) : list Z := drop (length message / 64 * 64) message.

Lemma tail_length (message : list Z) :
  length (tail_of message) = (length message mod 64)%nat /\ (length message mod 64 < 64)%nat.
Proof.
  unfold tail_of. rewrite length_drop. pose proof (Nat.div_mod_eq (length message) 64).
  pose proof (Nat.mod_upper_bound (length message) 64 ltac:(lia)). lia.
Qed.

(** The blocks of a padded message: those of the message, and one or two that
    the rest, the one bit and the field are in. *)
Lemma padded_blocks field message :
  length field = 8%nat ->
  let r := (length message mod 64)%nat in
  let padded := padded_with field message in
  blocks sha256 (length padded / 64) padded =
  blocks sha256 (length message / 64) message ++
  (if (55 <? r)%nat then [tail_of message ++ 0x80 :: repeat 0 (63 - r); repeat 0 56 ++ field]
   else [tail_of message ++ 0x80 :: repeat 0 (55 - r) ++ field]).
Proof.
  intros Hf. cbv zeta. destruct (tail_length message) as [Htl Hlt]. pose proof (Nat.div_mod_eq (length message) 64) as Hd.
  unfold padded_with, tail_of in *. set (q := (length message / 64)%nat) in *. set (r := (length message mod 64)%nat) in *.
  set (tail := drop (q * 64) message) in *.
  destruct (Nat.ltb_spec r 56) as [Hr|Hr], (Nat.ltb_spec 55 r) as [Hr'|Hr']; try lia.
  - replace (length (message ++ 128 :: repeat 0 (56 - r - 1) ++ field)) with ((q + 1) * 64)%nat
      by (rewrite length_app; cbn [length]; rewrite length_app, repeat_length, Hf; lia).
    rewrite Nat.div_mul, blocks_app, blocks_prefix by (cbn [block_length sha256]; lia).
    cbn [block_length sha256 blocks]. rewrite drop_app_le by lia. fold tail.
    replace (56 - r - 1)%nat with (55 - r)%nat by lia.
    by rewrite (take_ge (tail ++ _)) by (rewrite !length_app; cbn [length]; rewrite length_app, repeat_length, Htl, Hf; lia).
  - replace (length (message ++ 128 :: repeat 0 (56 + 64 - r - 1) ++ field)) with ((q + 2) * 64)%nat
      by (rewrite length_app; cbn [length]; rewrite length_app, repeat_length, Hf; lia).
    rewrite Nat.div_mul, blocks_app, blocks_prefix by (cbn [block_length sha256]; lia).
    cbn [block_length sha256 blocks]. rewrite drop_app_le by lia. fold tail.
    replace (56 + 64 - r - 1)%nat with ((63 - r) + 56)%nat by lia. rewrite repeat_app.
    replace (tail ++ 128 :: (repeat 0 (63 - r) ++ repeat 0 56) ++ field)
      with ((tail ++ 0x80 :: repeat 0 (63 - r)) ++ (repeat 0 56 ++ field)) by (by rewrite <- !app_assoc).
    assert (H64 : length (tail ++ 0x80 :: repeat 0 (63 - r)) = 64%nat)
      by (rewrite length_app; cbn [length]; rewrite repeat_length, Htl; lia).
    rewrite take_app_le, drop_app_le, (take_ge (tail ++ _)), (drop_ge (tail ++ _)) by lia. cbn [app].
    by rewrite take_ge by (rewrite length_app, repeat_length, Hf; lia).
Qed.

(** ** SHA-1 *)

Module sha1.

Definition SHIFT (bits word : Z) : Z := u32 (Z.lor (Z.shiftl word bits) (Z.shiftr word (32 - bits))).

Record context := mk_context { state : list Z; block : list Z; length_ : Z; index : nat }.

(** The block has no initial value. *)
Definition SHA1Init (uninitialized : list Z) : context :=
  mk_context [0x67452301; 0xEFCDAB89; 0x98BADCFE; 0x10325476; 0xC3D2E1F0] uninitialized 0 0.

Definition expand (W : list Z) (t : nat) : list Z :=
  W ++ [SHIFT 1 (Z.lxor (Z.lxor (Z.lxor (at_ W (t - 3)) (at_ W (t - 8))) (at_ W (t - 14))) (at_ W (t - 16)))].

(** One turn of the loops: the function and the constant of the 20 turns that
    [t] is in. [~B] is the complement of a 32 bit word. *)
Definition turn (W registers : list Z) (t : nat) : list Z :=
  let A := at_ registers 0 in let B := at_ registers 1 in let C := at_ registers 2 in
  let D := at_ registers 3 in let E := at_ registers 4 in
  let '(f, k) :=
    if (t <? 20)%nat then (Z.lor (Z.land B C) (Z.land (2 ^ 32 - 1 - B) D), 0x5A827999)
    else if (t <? 40)%nat then (Z.lxor (Z.lxor B C) D, 0x6ED9EBA1)
    else if (t <? 60)%nat then (Z.lor (Z.lor (Z.land B C) (Z.land B D)) (Z.land C D), 0x8F1BBCDC)
    else (Z.lxor (Z.lxor B C) D, 0xCA62C1D6) in
  let temp := u32 (SHIFT 5 A + f + E + at_ W t + k) in
  [temp; A; SHIFT 30 B; C; D].

(** [W[t] = block[t * 4 + 0] << 24 | ... | block[t * 4 + 3] << 0] *)
Definition load (block : list Z) (t : nat) : Z :=
  Z.lor (Z.lor (Z.lor (u32 (Z.shiftl (at_ block (t * 4)) 24)) (Z.shiftl (at_ block (t * 4 + 1)) 16))
    (Z.shiftl (at_ block (t * 4 + 2)) 8)) (at_ block (t * 4 + 3)).

Definition process (state block : list Z) : list Z :=
  let W := fold_left expand (seq 16 64) (map (load block) (seq 0 16)) in
  zip_with (fun x y => u32 (x + y)) state (fold_left (turn W) (seq 0 80) state).

Definition SHA1ProcessMessageBlock (c : context) : context :=
  mk_context (process (state c) (block c)) (block c) (length_ c) 0.

Definition update_byte (c : context) (b : Z) : context :=
  let c := mk_context (state c) (<[index c := Z.land b 0xFF]> (block c)) (u64 (length_ c + 8)) (S (index c)) in
  if (index c =? 64)%nat then SHA1ProcessMessageBlock c else c.

Definition SHA1Update (c : context) (message : list Z) : context :=
  if zlen message >? (2 ^ 64 - 1) / 8 then c else fold_left update_byte message c.

(** [block[index++] = value] *)
Definition put (value : Z) (c : context) : context :=
  mk_context (state c) (<[index c := value]> (block c)) (length_ c) (S (index c)).

(** [while (index < limit) block[index++] = 0] *)
Definition fill (limit : nat) (c : context) : context := Nat.iter (limit - index c) (put 0) c.

Definition SHA1PadMessage (c : context) : context :=
  let c :=
    if (55 <? index c)%nat
    then fill 56 (SHA1ProcessMessageBlock (fill 64 (put 0x80 c)))
    else fill 56 (put 0x80 c) in
  let lo_length := u32 (length_ c) in
  let hi_length := u32 (Z.shiftr (length_ c) 32) in
  let block := take 56 (block c) ++
    [u8 (Z.shiftr hi_length 24); u8 (Z.shiftr hi_length 16); u8 (Z.shiftr hi_length 8); u8 hi_length;
     u8 (Z.shiftr lo_length 24); u8 (Z.shiftr lo_length 16); u8 (Z.shiftr lo_length 8); u8 lo_length] in
  SHA1ProcessMessageBlock (mk_context (state c) block (length_ c) (index c)).

Definition SHA1Final (c : context) : list Z :=
  let c := SHA1PadMessage c in
  map (fun i => u8 (Z.shiftr (at_ (state c) (i / 4)) (8 * (3 - Z.of_nat (i mod 4))))) (seq 0 20).

Definition SHA1_ (message : list Z) : list Z := SHA1Final (SHA1Update (SHA1Init (repeat 0 64)) message).

Lemma length_SHA1 message : length (SHA1_ message) = 20%nat.
Proof. unfold SHA1_, SHA1Final. by rewrite length_map, length_seq. Qed.

(** ** The standard

    The padded message is that of SHA-256, of the same block and field. *)

Definition sha1_standard (message : list Z) : list Z :=
  let message := padded sha256 message in
  be_enc_vect sha256 (fold_left process (blocks sha256 (length message / 64) message)
    [0x67452301; 0xEFCDAB89; 0x98BADCFE; 0x10325476; 0xC3D2E1F0]).

(** What a context holds: a state after some blocks, and the bytes that follow. *)
Record holds (done_ : list Z) (tail : list Z) (size : Z) (c : context) : Prop := {
  held_state : state c = done_;
  held_length : length_ c = u64 (8 * size);
  held_block : length (block c) = 64%nat;
  held_index : index c = length tail;
  held_tail : take (length tail) (block c) = tail
}.

Lemma put_holds done_ tail size c v :
  holds done_ tail size c -> (length tail < 64)%nat -> holds done_ (tail ++ [v]) size (put v c).
Proof.
  intros [Hs Hl Hb Hi Ht] Hlt. split; cbn [put state block length_ index]; try done.
  - by rewrite length_insert.
  - rewrite Hi, length_app. simpl. lia.
  - rewrite length_app. cbn [length]. rewrite Nat.add_1_r, Hi.
    rewrite (take_S_r _ _ v) by (apply list_lookup_insert_eq; lia). by rewrite take_insert_ge, Ht by lia.
Qed.

Lemma fill_holds done_ size n : forall tail c,
  holds done_ tail size c -> (length tail + n <= 64)%nat -> holds done_ (tail ++ repeat 0 n) size (Nat.iter n (put 0) c).
Proof.
  induction n as [|n IH]; intros tail c Hc Hn; [by rewrite app_nil_r|].
  change (Nat.iter (S n) (put 0) c) with (put 0 (Nat.iter n (put 0) c)).
  replace (repeat 0 (S n)) with (repeat 0 n ++ [0]) by (rewrite <- repeat_cons; done). rewrite app_assoc.
  apply put_holds; [apply IH; [done|lia]|]. rewrite length_app, repeat_length. lia.
Qed.

(** A full block is processed. *)
Lemma process_holds done_ block_ size c :
  holds done_ block_ size c -> length block_ = 64%nat -> holds (process done_ block_) [] size (SHA1ProcessMessageBlock c).
Proof.
  intros [Hs Hl Hb Hi Ht] H64. split; cbn [SHA1ProcessMessageBlock state block length_ index length take]; try done.
  rewrite H64, take_ge in Ht by lia. by rewrite Hs, Ht.
Qed.

(** The bytes of a message, in whole blocks and a rest. *)
Definition absorbed_bytes (message : list Z) (c : context) : Prop :=
  holds (fold_left process (blocks sha256 (length message / 64) message)
           [0x67452301; 0xEFCDAB89; 0x98BADCFE; 0x10325476; 0xC3D2E1F0])
    (tail_of message) (zlen message) c.

Lemma update_byte_absorbed message b c :
  byte_ok b -> absorbed_bytes message c -> absorbed_bytes (message ++ [b]) (update_byte c b).
Proof.
  intros Hb Hc. destruct (tail_length message) as [Htl Hlt]. unfold absorbed_bytes, tail_of in *.
  set (q := (length message / 64)%nat) in *. pose proof (Nat.div_mod_eq (length message) 64) as Hd. fold q in Hd.
  assert (Hland : Z.land b 0xFF = b) by (rewrite land_ff; by apply wrap_small).
  unfold update_byte. rewrite Hland.
  set (c' := mk_context _ _ _ _).
  assert (Hput : holds (fold_left process (blocks sha256 q message) [0x67452301; 0xEFCDAB89; 0x98BADCFE; 0x10325476; 0xC3D2E1F0])
                   (drop (q * 64) message ++ [b]) (zlen (message ++ [b])) c').
  { destruct (put_holds _ _ _ c b Hc) as [Hs Hl Hbl Hi Ht]; [lia|]. split; try done.
    unfold c'. cbn [length_]. rewrite (held_length _ _ _ _ Hc). unfold u64, wrap. rewrite Zplus_mod_idemp_l. f_equal.
    rewrite zlen_app. change (zlen [b]) with 1. lia. }
  assert (Hi : index c' = S (length message mod 64)).
  { rewrite (held_index _ _ _ _ Hput), length_app, Htl. cbn [length]. lia. }
  assert (Hlen : length (message ++ [b]) = S (length message)) by (rewrite length_app; simpl; lia).
  rewrite Hi. destruct (Nat.eqb_spec (S (length message mod 64)) 64) as [He|Hne].
  - assert (Hq : (length (message ++ [b]) / 64 = q + 1)%nat) by (symmetry; apply (Nat.div_unique _ _ _ 0%nat); lia).
    rewrite Hq, blocks_app, blocks_prefix, fold_left_app by (cbn [block_length sha256]; lia).
    cbn [block_length sha256 blocks fold_left]. rewrite (drop_ge (message ++ [b]) ((q + 1) * 64)) by lia.
    rewrite drop_app_le by lia. rewrite (take_ge (drop (q * 64) message ++ [b])) by (rewrite length_app, Htl; cbn [length]; lia).
    apply process_holds; [done|]. rewrite length_app, Htl. cbn [length]. lia.
  - assert (Hq : (length (message ++ [b]) / 64 = q)%nat) by (symmetry; apply (Nat.div_unique _ _ _ (S (length message mod 64))); lia).
    rewrite Hq, blocks_prefix by (cbn [block_length sha256]; lia). by rewrite drop_app_le by lia.
Qed.

Lemma update_absorbed_bytes message : forall before c,
  bytes_ok message -> absorbed_bytes before c -> absorbed_bytes (before ++ message) (fold_left update_byte message c).
Proof.
  induction message as [|b message IH]; intros before c Hm Hc; [by rewrite app_nil_r|].
  apply bytes_ok_cons in Hm as [Hb Hm]. cbn [fold_left].
  replace (before ++ b :: message) with ((before ++ [b]) ++ message) by (by rewrite <- app_assoc).
  apply IH; [done|]. by apply update_byte_absorbed.
Qed.

(** A byte of a word is that of what was cut to the word. *)
Lemma u8_shiftr_wrap n x k : 0 <= k -> k + 8 <= n -> u8 (Z.shiftr (wrap n x) k) = u8 (Z.shiftr x k).
Proof.
  intros Hk Hn. unfold u8, wrap. rewrite <- !Z.land_ones by lia. apply Z.bits_inj'. intros i Hi.
  rewrite !Z.land_spec, !Z.shiftr_spec, Z.land_spec, !Z.testbit_ones by lia.
  destruct (Z.leb_spec 0 i), (Z.ltb_spec i 8), (Z.leb_spec 0 (i + k)), (Z.ltb_spec (i + k) n); try lia;
    by rewrite ?andb_true_r, ?andb_false_r.
Qed.

(** The eight bytes of the length are those of the standard's field. *)
Lemma length_field size :
  let length_ := u64 (8 * size) in
  let lo_length := u32 length_ in
  let hi_length := u32 (Z.shiftr length_ 32) in
  [u8 (Z.shiftr hi_length 24); u8 (Z.shiftr hi_length 16); u8 (Z.shiftr hi_length 8); u8 hi_length;
   u8 (Z.shiftr lo_length 24); u8 (Z.shiftr lo_length 16); u8 (Z.shiftr lo_length 8); u8 lo_length] =
  to_big_endian 8 (8 * size).
Proof.
  cbv zeta. set (v := 8 * size). rewrite to_big_endian_rev. cbn [to_little_endian rev app].
  assert (Elow : forall n x, 8 <= n -> u8 (wrap n x) = u8 x).
  { intros n x Hn. pose proof (u8_shiftr_wrap n x 0 ltac:(lia) ltac:(lia)) as E. by rewrite !Z.shiftr_0_r in E. }
  unfold u32. rewrite !Elow, !u8_shiftr_wrap by lia. unfold u64.
  rewrite !Z.shiftr_shiftr, !Elow, !u8_shiftr_wrap by lia. done.
Qed.

(** The last block, with the length. *)
Lemma end_block done_ rest size c :
  holds done_ rest size c -> length rest = 56%nat ->
  let lo_length := u32 (length_ c) in
  let hi_length := u32 (Z.shiftr (length_ c) 32) in
  let block := take 56 (block c) ++
    [u8 (Z.shiftr hi_length 24); u8 (Z.shiftr hi_length 16); u8 (Z.shiftr hi_length 8); u8 hi_length;
     u8 (Z.shiftr lo_length 24); u8 (Z.shiftr lo_length 16); u8 (Z.shiftr lo_length 8); u8 lo_length] in
  state (SHA1ProcessMessageBlock (mk_context (state c) block (length_ c) (index c))) =
  process done_ (rest ++ to_big_endian 8 (8 * size)).
Proof.
  intros [Hs Hl _ _ Ht] H56. cbv zeta. cbn [SHA1ProcessMessageBlock state block]. rewrite Hl, length_field, Hs.
  rewrite H56 in Ht. by rewrite Ht.
Qed.

Lemma fill_to done_ tail size c limit :
  holds done_ tail size c -> (length tail <= limit <= 64)%nat ->
  holds done_ (tail ++ repeat 0 (limit - length tail)) size (fill limit c).
Proof.
  intros Hc Hl. unfold fill. rewrite (held_index _ _ _ _ Hc). apply fill_holds; [done|lia].
Qed.

Lemma pad_state message c :
  absorbed_bytes message c ->
  let padded := padded_with (to_big_endian 8 (8 * zlen message)) message in
  state (SHA1PadMessage c) =
  fold_left process (blocks sha256 (length padded / 64) padded) [0x67452301; 0xEFCDAB89; 0x98BADCFE; 0x10325476; 0xC3D2E1F0].
Proof.
  intros Ha. cbv zeta. destruct (tail_length message) as [Htl Hlt]. rewrite padded_blocks, fold_left_app by apply length_to_big_endian.
  unfold absorbed_bytes in Ha. set (r := (length message mod 64)%nat) in *.
  set (done_ := fold_left process (blocks sha256 (length message / 64) message) _) in *.
  assert (Hindex : index c = r) by (by rewrite (held_index _ _ _ _ Ha)).
  pose proof (put_holds _ _ _ c 0x80 Ha ltac:(lia)) as Hput.
  assert (Hpl : length (tail_of message ++ [0x80]) = S r) by (rewrite length_app, Htl; cbn [length]; lia).
  unfold SHA1PadMessage. rewrite Hindex. destruct (Nat.ltb_spec 55 r) as [Hr|Hr]; cbn [fold_left].
  - pose proof (fill_to _ _ _ _ 64 Hput ltac:(lia)) as Hfull. rewrite Hpl, <- app_assoc in Hfull.
    replace (64 - S r)%nat with (63 - r)%nat in Hfull by lia.
    assert (H64 : length (tail_of message ++ [0x80] ++ repeat 0 (63 - r)) = 64%nat)
      by (rewrite !length_app, repeat_length, Htl; cbn [length]; lia).
    pose proof (process_holds _ _ _ _ Hfull H64) as Hproc.
    apply (end_block _ (repeat 0 56)); [|apply repeat_length]. apply (fill_to _ [] _ _ 56 Hproc). cbn [length]. lia.
  - pose proof (fill_to _ _ _ _ 56 Hput ltac:(lia)) as Hfull. rewrite Hpl, <- app_assoc in Hfull.
    replace (56 - S r)%nat with (55 - r)%nat in Hfull by lia.
    rewrite (end_block _ _ _ _ Hfull); [f_equal; by rewrite <- !app_assoc|].
    rewrite !length_app, repeat_length, Htl. cbn [length]. lia.
Qed.

Lemma length_process state_ block_ : length state_ = 5%nat -> length (process state_ block_) = 5%nat.
Proof.
  intros Hs. unfold process. rewrite length_zip_with. set (W := fold_left expand _ _).
  assert (E : forall ts st, length st = 5%nat -> length (fold_left (turn W) ts st) = 5%nat).
  { induction ts as [|t ts IH]; intros st Hst; [done|]. cbn [fold_left]. apply IH. unfold turn. by case_match. }
  rewrite E by done. lia.
Qed.

(** A message of less than 2^61 bytes has the standard digest. *)
Lemma SHA1_standard message :
  bytes_ok message -> zlen message <= (2 ^ 64 - 1) / 8 -> SHA1_ message = sha1_standard message.
Proof.
  intros Hm Hz. unfold SHA1_, SHA1Update. destruct (Z.gtb_spec (zlen message) ((2 ^ 64 - 1) / 8)); [lia|].
  assert (Ha : absorbed_bytes message (fold_left update_byte message (SHA1Init (repeat 0 64)))).
  { apply (update_absorbed_bytes message []); [done|]. by split. }
  unfold SHA1Final. rewrite (pad_state _ _ Ha).
  change (sha1_standard message) with (be_enc_vect sha256 (fold_left process
    (blocks sha256 (length (padded_with (to_big_endian 8 (8 * zlen message)) message) / 64)
       (padded_with (to_big_endian 8 (8 * zlen message)) message))
    [0x67452301; 0xEFCDAB89; 0x98BADCFE; 0x10325476; 0xC3D2E1F0])).
  generalize (blocks sha256 (length (padded_with (to_big_endian 8 (8 * zlen message)) message) / 64)
    (padded_with (to_big_endian 8 (8 * zlen message)) message)). clear. intros l.
  assert (Hl : forall st, length st = 5%nat -> length (fold_left process l st) = 5%nat).
  { induction l as [|b l IH]; intros st Hst; [done|]. cbn [fold_left]. by apply IH, length_process. }
  specialize (Hl [0x67452301; 0xEFCDAB89; 0x98BADCFE; 0x10325476; 0xC3D2E1F0] eq_refl).
  destruct (fold_left process l _) as [|a [|b [|d [|e [|f [|g result]]]]]]; try done.
  unfold be_enc_vect. cbn [map concat app seq Nat.div Nat.modulo be_enc sha256]. unfold be32enc. rewrite !land_ff. reflexivity.
Qed.

Lemma sha1_vector :
  SHA1_ (chars "abcdbcdecdefdefgefghfghighijhijkijkljklmklmnlmnomnopnopq") =
  [0x84; 0x98; 0x3e; 0x44; 0x1c; 0x3b; 0xd2; 0x6e; 0xba; 0xae; 0x4a; 0xa1; 0xf9; 0x51; 0x29; 0xe5; 0xe5; 0x46; 0x70; 0xf1].
Proof. vm_compute. reflexivity. Qed.
End sha1.

(** ** RIPEMD-160 *)

Module ripemd160.

Definition ROL (x n : Z) : Z := u32 (Z.lor (Z.shiftl x n) (Z.shiftr x (32 - n))).
Definition complement (x : Z) : Z := 2 ^ 32 - 1 - x.

Definition F (x y z : Z) : Z := Z.lxor (Z.lxor x y) z.
Definition G (x y z : Z) : Z := Z.lor (Z.land x y) (Z.land (complement x) z).
Definition H (x y z : Z) : Z := Z.lxor (Z.lor x (complement y)) z.
Definition I (x y z : Z) : Z := Z.lor (Z.land x z) (Z.land y (complement z)).
Definition J (x y z : Z) : Z := Z.lxor x (Z.lor y (complement z)).

(** The operations [FF] to [JJJ]: a function, and a constant that is added. The
    registers are [aa] to [ee]; a line names the first of them, the others
    follow cyclically, then the word of the chunk and the rotation. *)
Definition operation (f : Z -> Z -> Z -> Z) (k : Z) (chunk registers : list Z) (line : nat * nat * Z) : list Z :=
  let '(a, x, s) := line in
  let b := ((a + 1) mod 5)%nat in let c := ((a + 2) mod 5)%nat in
  let d := ((a + 3) mod 5)%nat in let e := ((a + 4) mod 5)%nat in
  let r := registers in
  let r := <[a := u32 (at_ r a + f (at_ r b) (at_ r c) (at_ r d) + at_ chunk x + k)]> r in
  let r := <[a := u32 (ROL (at_ r a) s + at_ r e)]> r in
  <[c := ROL (at_ r c) 10]> r.

Definition round1 : list (nat * nat * Z) :=
  [(0, 0, 11%Z); (4, 1, 14%Z); (3, 2, 15%Z); (2, 3, 12%Z); (1, 4, 5%Z); (0, 5, 8%Z); (4, 6, 7%Z); (3, 7, 9%Z);
   (2, 8, 11%Z); (1, 9, 13%Z); (0, 10, 14%Z); (4, 11, 15%Z); (3, 12, 6%Z); (2, 13, 7%Z); (1, 14, 9%Z); (0, 15, 8%Z)]%nat.
Definition round2 : list (nat * nat * Z) :=
  [(4, 7, 7%Z); (3, 4, 6%Z); (2, 13, 8%Z); (1, 1, 13%Z); (0, 10, 11%Z); (4, 6, 9%Z); (3, 15, 7%Z); (2, 3, 15%Z);
   (1, 12, 7%Z); (0, 0, 12%Z); (4, 9, 15%Z); (3, 5, 9%Z); (2, 2, 11%Z); (1, 14, 7%Z); (0, 11, 13%Z); (4, 8, 12%Z)]%nat.
Definition round3 : list (nat * nat * Z) :=
  [(3, 3, 11%Z); (2, 10, 13%Z); (1, 14, 6%Z); (0, 4, 7%Z); (4, 9, 14%Z); (3, 15, 9%Z); (2, 8, 13%Z); (1, 1, 15%Z);
   (0, 2, 14%Z); (4, 7, 8%Z); (3, 0, 13%Z); (2, 6, 6%Z); (1, 13, 5%Z); (0, 11, 12%Z); (4, 5, 7%Z); (3, 12, 5%Z)]%nat.
Definition round4 : list (nat * nat * Z) :=
  [(2, 1, 11%Z); (1, 9, 12%Z); (0, 11, 14%Z); (4, 10, 15%Z); (3, 0, 14%Z); (2, 8, 15%Z); (1, 12, 9%Z); (0, 4, 8%Z);
   (4, 13, 9%Z); (3, 3, 14%Z); (2, 7, 5%Z); (1, 15, 6%Z); (0, 14, 8%Z); (4, 5, 6%Z); (3, 6, 5%Z); (2, 2, 12%Z)]%nat.
Definition round5 : list (nat * nat * Z) :=
  [(1, 4, 9%Z); (0, 0, 15%Z); (4, 5, 5%Z); (3, 9, 11%Z); (2, 7, 6%Z); (1, 12, 8%Z); (0, 2, 13%Z); (4, 10, 12%Z);
   (3, 14, 5%Z); (2, 1, 12%Z); (1, 3, 13%Z); (0, 8, 14%Z); (4, 11, 11%Z); (3, 6, 8%Z); (2, 15, 5%Z); (1, 13, 6%Z)]%nat.
Definition parallel1 : list (nat * nat * Z) :=
  [(0, 5, 8%Z); (4, 14, 9%Z); (3, 7, 9%Z); (2, 0, 11%Z); (1, 9, 13%Z); (0, 2, 15%Z); (4, 11, 15%Z); (3, 4, 5%Z);
   (2, 13, 7%Z); (1, 6, 7%Z); (0, 15, 8%Z); (4, 8, 11%Z); (3, 1, 14%Z); (2, 10, 14%Z); (1, 3, 12%Z); (0, 12, 6%Z)]%nat.
Definition parallel2 : list (nat * nat * Z) :=
  [(4, 6, 9%Z); (3, 11, 13%Z); (2, 3, 15%Z); (1, 7, 7%Z); (0, 0, 12%Z); (4, 13, 8%Z); (3, 5, 9%Z); (2, 10, 11%Z);
   (1, 14, 7%Z); (0, 15, 7%Z); (4, 8, 12%Z); (3, 12, 7%Z); (2, 4, 6%Z); (1, 9, 15%Z); (0, 1, 13%Z); (4, 2, 11%Z)]%nat.
Definition parallel3 : list (nat * nat * Z) :=
  [(3, 15, 9%Z); (2, 5, 7%Z); (1, 1, 15%Z); (0, 3, 11%Z); (4, 7, 8%Z); (3, 14, 6%Z); (2, 6, 6%Z); (1, 9, 14%Z);
   (0, 11, 12%Z); (4, 8, 13%Z); (3, 12, 5%Z); (2, 2, 14%Z); (1, 10, 13%Z); (0, 0, 13%Z); (4, 4, 7%Z); (3, 13, 5%Z)]%nat.
Definition parallel4 : list (nat * nat * Z) :=
  [(2, 8, 15%Z); (1, 6, 5%Z); (0, 4, 8%Z); (4, 1, 11%Z); (3, 3, 14%Z); (2, 11, 14%Z); (1, 15, 6%Z); (0, 0, 14%Z);
   (4, 5, 6%Z); (3, 12, 9%Z); (2, 2, 12%Z); (1, 13, 9%Z); (0, 9, 12%Z); (4, 7, 5%Z); (3, 10, 15%Z); (2, 14, 8%Z)]%nat.
Definition parallel5 : list (nat * nat * Z) :=
  [(1, 12, 8%Z); (0, 15, 5%Z); (4, 10, 12%Z); (3, 4, 9%Z); (2, 1, 12%Z); (1, 5, 5%Z); (0, 8, 14%Z); (4, 7, 6%Z);
   (3, 6, 8%Z); (2, 2, 13%Z); (1, 13, 6%Z); (0, 14, 5%Z); (4, 0, 15%Z); (3, 3, 13%Z); (2, 9, 11%Z); (1, 11, 11%Z)]%nat.

Definition RMDcompress (state chunk : list Z) : list Z :=
  let left :=
    fold_left (operation J 0xa953fd4e chunk) round5
      (fold_left (operation I 0x8f1bbcdc chunk) round4
        (fold_left (operation H 0x6ed9eba1 chunk) round3
          (fold_left (operation G 0x5a827999 chunk) round2
            (fold_left (operation F 0 chunk) round1 state)))) in
  let right :=
    fold_left (operation F 0 chunk) parallel5
      (fold_left (operation G 0x7a6d76e9 chunk) parallel4
        (fold_left (operation H 0x6d703ef3 chunk) parallel3
          (fold_left (operation I 0x5c4dd124 chunk) parallel2
            (fold_left (operation J 0x50a28be6 chunk) parallel1 state)))) in
  let ddd := u32 (at_ right 3 + at_ left 2 + at_ state 1) in
  [ddd; u32 (at_ state 2 + at_ left 3 + at_ right 4); u32 (at_ state 3 + at_ left 4 + at_ right 0);
   u32 (at_ state 4 + at_ left 0 + at_ right 1); u32 (at_ state 0 + at_ left 1 + at_ right 2)].

Definition RMDInit : list Z := [0x67452301; 0xefcdab89; 0x98badcfe; 0x10325476; 0xc3d2e1f0].

Definition BYTES_TO_DWORD (bytes : list Z) : Z :=
  Z.lor (Z.lor (Z.lor (Z.shiftl (at_ bytes 3) 24) (Z.shiftl (at_ bytes 2) 16)) (Z.shiftl (at_ bytes 1) 8)) (at_ bytes 0).

Definition load_chunk (message : list Z) : list Z := map (fun i => BYTES_TO_DWORD (drop (4 * i) message)) (seq 0 16).

(** [chunk[i >> 2] ^= (uint32_t)*message++ << (8 * (i & 3))] *)
Definition xor_byte (chunk : list Z) (entry : nat * Z) : list Z :=
  let '(i, b) := entry in
  <[(i / 4)%nat := Z.lxor (at_ chunk (i / 4)) (u32 (Z.shiftl b (8 * Z.of_nat (i mod 4))))]> chunk.

(** [message] is what is left of a message of [size] bytes. *)
Definition RMDfinish (state message : list Z) (size : Z) : list Z :=
  let lo_length := u32 size in
  let hi_length := u32 (Z.shiftr size 32) in
  let rest := Z.to_nat (Z.land lo_length 63) in
  let chunk := fold_left xor_byte (zip (seq 0 rest) message) (repeat 0 16) in
  let i := Z.to_nat (Z.land (Z.shiftr lo_length 2) 15) in
  let chunk := <[i := Z.lxor (at_ chunk i) (u32 (Z.shiftl 1 (8 * Z.land lo_length 3 + 7)))]> chunk in
  let '(state, chunk) :=
    if (55 <? rest)%nat then (RMDcompress state chunk, repeat 0 16) else (state, chunk) in
  let chunk := <[14%nat := u32 (Z.shiftl lo_length 3)]> chunk in
  let chunk := <[15%nat := Z.lor (Z.shiftr lo_length 29) (u32 (Z.shiftl hi_length 3))]> chunk in
  RMDcompress state chunk.

(** [for (byte = length; byte > 63; byte -= 64)] *)
Fixpoint update_loop (turns : nat) (state message : list Z) : list Z * list Z :=
  match turns with
  | O => (state, message)
  | S turns =>
      if (63 <? length message)%nat
      then update_loop turns (RMDcompress state (load_chunk message)) (drop 64 message)
      else (state, message)
  end.

Definition RMDUpdate (state message : list Z) : list Z :=
  let '(state, rest) := update_loop (length message) state message in
  RMDfinish state rest (zlen message).

Definition RMDFinal (state : list Z) : list Z :=
  concat (map (fun x => [u8 x; u8 (Z.shiftr x 8); u8 (Z.shiftr x 16); u8 (Z.shiftr x 24)]) (take 5 state)).

Definition RMD160 (message : list Z) : list Z := RMDFinal (RMDUpdate RMDInit message).

Lemma length_RMDcompress state chunk : length (RMDcompress state chunk) = 5%nat.
Proof. reflexivity. Qed.

Lemma length_RMDUpdate state message : length (RMDUpdate state message) = 5%nat.
Proof.
  unfold RMDUpdate, RMDfinish. destruct (update_loop _ _ _) as [s rest]. cbv zeta.
  by destruct (55 <? _)%nat.
Qed.

Lemma length_RMD160 message : length (RMD160 message) = 20%nat.
Proof.
  unfold RMD160, RMDFinal. rewrite (length_concat_const 4%nat).
  - by rewrite length_map, length_take, length_RMDUpdate.
  - apply Forall_map, Forall_true. done.
Qed.

Lemma bytes_RMD160 message : bytes_ok (RMD160 message).
Proof.
  unfold RMD160, RMDFinal. apply Forall_concat, Forall_map, Forall_true. intros x.
  repeat constructor; apply u8_byte.
Qed.

Lemma ripemd160_vector :
  RMD160 (chars "abcdefghijklmnopqrstuvwxyz") =
  [0xf7; 0x1c; 0x27; 0x10; 0x9c; 0x69; 0x2c; 0x1b; 0x56; 0xbb; 0xdc; 0xeb; 0x5b; 0x9d; 0x28; 0x65; 0xb3; 0x70; 0x8d; 0xbc] /\
  RMD160 (chars "abcdbcdecdefdefgefghfghighijhijkijkljklmklmnlmnomnopnopq") =
  [0x12; 0xa0; 0x53; 0x38; 0x4a; 0x9c; 0x0c; 0x88; 0xe4; 0x05; 0xa0; 0x6c; 0x27; 0xdc; 0xf4; 0x9a; 0xda; 0x62; 0xeb; 0x2b].
Proof. split; vm_compute; reflexivity. Qed.

(** ** The standard *)

(** The padding is that of SHA-1 with the bytes of the field in the other
    order. *)
Definition ripemd_standard (message : list Z) : list Z :=
  let message := padded_with (to_little_endian 8 (8 * zlen message)) message in
  RMDFinal (fold_left RMDcompress (map load_chunk (blocks sha256 (length message / 64) message)) RMDInit).

Lemma byte_bits x n : byte_ok x -> n < 0 \/ 8 <= n -> Z.testbit x n = false.
Proof.
  intros Hx [Hn|Hn]; [by apply Z.testbit_neg_r|]. destruct (Z.eq_dec x 0) as [->|]; [apply Z.bits_0|].
  apply Z.bits_above_log2; [unfold byte_ok in *; lia|]. unfold byte_ok in Hx.
  assert (Z.log2 x < 8) by (apply Z.log2_lt_pow2; lia). lia.
Qed.

Lemma bytes_apart x y i j : byte_ok x -> byte_ok y -> 0 <= i -> 0 <= j -> i + 8 <= j \/ j + 8 <= i ->
  Z.land (Z.shiftl x i) (Z.shiftl y j) = 0.
Proof.
  intros Hx Hy Hi Hj Hij. apply Z.bits_inj'. intros n Hn. rewrite Z.land_spec, !Z.shiftl_spec, Z.bits_0 by done.
  destruct Hij, (Z.lt_ge_cases n (i + 8)), (Z.lt_ge_cases n (j + 8)).
  all: first [rewrite (byte_bits x) by (done || lia); done | rewrite (byte_bits y) by (done || lia); apply andb_false_r].
Qed.

(** A byte is written into a word by exclusive or where the word has zero. *)
Definition dword (x0 x1 x2 x3 : Z) : Z :=
  Z.lor (Z.lor (Z.lor (Z.shiftl x3 24) (Z.shiftl x2 16)) (Z.shiftl x1 8)) x0.

Lemma dword_xor x0 x1 x2 x3 b :
  byte_ok x0 -> byte_ok x1 -> byte_ok x2 -> byte_ok x3 -> byte_ok b ->
  Z.lxor (dword 0 x1 x2 x3) (Z.shiftl b 0) = dword b x1 x2 x3 /\
  Z.lxor (dword x0 0 x2 x3) (Z.shiftl b 8) = dword x0 b x2 x3 /\
  Z.lxor (dword x0 x1 0 x3) (Z.shiftl b 16) = dword x0 x1 b x3 /\
  Z.lxor (dword x0 x1 x2 0) (Z.shiftl b 24) = dword x0 x1 x2 b.
Proof.
  intros H0 H1 H2 H3 Hb. unfold dword.
  assert (Hz : forall k, Z.shiftl 0 k = 0) by apply Z.shiftl_0_l.
  assert (Hx0 : forall k, 8 <= k -> Z.land x0 (Z.shiftl b k) = 0).
  { intros k Hk. rewrite <- (Z.shiftl_0_r x0). apply bytes_apart; (done || lia). }
  split_and!; rewrite ?Hz, ?Z.lor_0_r, ?Z.lor_0_l; rewrite Z.lxor_lor by
    (rewrite ?Z.land_lor_distr_l, ?bytes_apart, ?Hx0 by (done || lia); done); rewrite ?Z.shiftl_0_r.
  - done.
  - rewrite <- !Z.lor_assoc. do 2 f_equal. apply Z.lor_comm.
  - rewrite <- !Z.lor_assoc. f_equal. rewrite Z.lor_assoc. apply Z.lor_comm.
  - rewrite Z.lor_comm, <- !Z.lor_assoc. done.
Qed.

Lemma dword_bytes (l : list Z) i :
  BYTES_TO_DWORD (drop (4 * i) l) = dword (at_ l (4 * i)) (at_ l (4 * i + 1)) (at_ l (4 * i + 2)) (at_ l (4 * i + 3)).
Proof. unfold BYTES_TO_DWORD, dword. rewrite !nth_skipn, Nat.add_0_r. done. Qed.

Lemma at_load_chunk l j :
  (j < 16)%nat ->
  load_chunk l !! j = Some (dword (at_ l (4 * j)) (at_ l (4 * j + 1)) (at_ l (4 * j + 2)) (at_ l (4 * j + 3))).
Proof.
  intros Hj. unfold load_chunk. rewrite list_lookup_fmap, lookup_seq_lt by done. cbn [fmap option_fmap option_map].
  by rewrite dword_bytes.
Qed.

Lemma length_load_chunk l : length (load_chunk l) = 16%nat.
Proof. unfold load_chunk. by rewrite length_map, length_seq. Qed.

Lemma at_insert (l : list Z) i j x : (i < length l)%nat -> at_ (<[i := x]> l) j = if decide (i = j) then x else at_ l j.
Proof.
  intros Hi. rewrite !nth_lookup. destruct (decide (i = j)) as [<-|Hij].
  - by rewrite list_lookup_insert_eq.
  - by rewrite list_lookup_insert_ne.
Qed.

Lemma shifted_byte b k : byte_ok b -> 0 <= k <= 24 -> u32 (Z.shiftl b k) = Z.shiftl b k.
Proof.
  intros Hb Hk. unfold u32. apply wrap_small. unfold byte_ok in Hb. rewrite Z.shiftl_mul_pow2 by lia.
  assert (2 ^ k <= 2 ^ 24) by (apply Z.pow_le_mono_r; lia).
  assert (0 < 2 ^ k) by (apply Z.pow_pos_nonneg; lia). unfold in_width.
  change (2 ^ 32) with (256 * 2 ^ 24). nia.
Qed.

(** The chunk of the last bytes, written one by one, is the chunk read from
    them. *)
Lemma xor_byte_load l n b :
  length l = 64%nat -> (n < 64)%nat -> bytes_ok l -> byte_ok b -> at_ l n = 0 ->
  xor_byte (load_chunk l) (n, b) = load_chunk (<[n := b]> l).
Proof.
  intros Hl Hn Hok Hb H0. unfold xor_byte.
  pose proof (Nat.div_mod_eq n 4) as Hd. pose proof (Nat.mod_upper_bound n 4 ltac:(lia)) as Hm.
  set (q := (n / 4)%nat) in *. set (k := (n mod 4)%nat) in *.
  clearbody q k. subst n. assert (Hat : forall i, byte_ok (at_ l i)).
  { intros i. destruct (nth_in_or_default i l 0) as [Hi| ->]; [|unfold byte_ok; lia].
    unfold bytes_ok in Hok. rewrite Forall_forall in Hok. apply Hok, list_elem_of_In, Hi. }
  apply list_eq_same_length with 16%nat; [by rewrite length_load_chunk|by rewrite length_insert, length_load_chunk|].
  intros j x y Hj Hx Hy. destruct (decide (q = j)) as [<-|Hqj].
  - rewrite list_lookup_insert_eq in Hx by (rewrite length_load_chunk; lia).
    rewrite at_load_chunk in Hy by done. rewrite nth_lookup, at_load_chunk in Hx by done. cbn [default from_option id] in Hx.
    rewrite shifted_byte in Hx by (done || lia). rewrite !at_insert in Hy by lia.
    destruct (dword_xor (at_ l (4 * q)) (at_ l (4 * q + 1)) (at_ l (4 * q + 2)) (at_ l (4 * q + 3)) b) as (X0 & X1 & X2 & X3); try done.
    assert (Hcase : k = 0%nat \/ k = 1%nat \/ k = 2%nat \/ k = 3%nat) by lia.
    destruct Hcase as [-> |[-> |[-> | ->]]];
      repeat (rewrite decide_False in Hy by lia); rewrite decide_True in Hy by lia;
      repeat (rewrite decide_False in Hy by lia);
      rewrite ?Nat.add_0_r in H0; rewrite H0 in Hx; injection Hx as <-; injection Hy as <-; assumption.
  - rewrite list_lookup_insert_ne in Hx by done. rewrite at_load_chunk in Hx, Hy by done.
    rewrite !at_insert, !decide_False in Hy by lia. congruence.
Qed.

Lemma load_zeros : load_chunk (repeat 0 64) = repeat 0 16.
Proof. reflexivity. Qed.

Lemma xor_bytes_load message : forall before,
  (length before + length message <= 64)%nat -> bytes_ok before -> bytes_ok message ->
  fold_left xor_byte (zip (seq (length before) (length message)) message)
    (load_chunk (before ++ repeat 0 (64 - length before))) =
  load_chunk (before ++ message ++ repeat 0 (64 - length before - length message)).
Proof.
  induction message as [|b message IH]; intros before Hl Hbefore Hm; [by rewrite Nat.sub_0_r|].
  apply bytes_ok_cons in Hm as [Hb Hm]. cbn [length seq zip zip_with fold_left] in *.
  replace (64 - length before)%nat with (S (64 - S (length before))) by lia. cbn [repeat].
  rewrite xor_byte_load; [|rewrite length_app; cbn [length]; rewrite repeat_length; lia|lia| |done|].
  - rewrite insert_app_r_alt, Nat.sub_diag by lia. cbn [insert list_insert].
    specialize (IH (before ++ [b])). rewrite length_app in IH. cbn [length] in IH. rewrite Nat.add_1_r, <- !app_assoc in IH.
    cbn [app] in IH. rewrite IH; [|lia|apply bytes_ok_app; split; [done|by apply Forall_singleton]|done].
    cbn [app]. do 4 f_equal.
  - apply bytes_ok_app. split; [done|]. constructor; [done|]. apply bytes_ok_repeat.
  - rewrite app_nth2, Nat.sub_diag by lia. done.
Qed.

(** The length is the last two words. *)
Lemma dword_u32 v : dword (u8 v) (u8 (Z.shiftr v 8)) (u8 (Z.shiftr v 16)) (u8 (Z.shiftr v 24)) = u32 v.
Proof.
  assert (Hbyte : forall k i, 0 <= k -> Z.testbit (Z.shiftl (u8 (Z.shiftr v k)) k) i = (k <=? i) && (i <? k + 8) && Z.testbit v i).
  { intros k i Hk. unfold u8, wrap. rewrite <- Z.land_ones by lia. destruct (Z.leb_spec k i) as [Hi|Hi]; cbn [andb].
    - rewrite Z.shiftl_spec, Z.land_spec, Z.shiftr_spec, Z.testbit_ones by lia. rewrite Z.sub_add, andb_comm.
      destruct (Z.ltb_spec i (k + 8)), (Z.leb_spec 0 (i - k)), (Z.ltb_spec (i - k) 8); (done || lia).
    - destruct (Z.lt_ge_cases i 0); [by apply Z.testbit_neg_r|]. rewrite Z.shiftl_spec_low by done. done. }
  pose proof (fun i => Hbyte 0 i ltac:(lia)) as Hbyte0. rewrite Z.shiftr_0_r, Z.shiftl_0_r in Hbyte0.
  apply Z.bits_inj'. intros i Hi. unfold dword. rewrite !Z.lor_spec, !Hbyte, Hbyte0 by lia.
  unfold u32, wrap. rewrite <- Z.land_ones, Z.land_spec, Z.testbit_ones by lia.
  destruct (Z.testbit v i); rewrite ?andb_false_r, ?andb_true_r; [|done]. rewrite andb_true_l.
  destruct (Z.leb_spec 24 i), (Z.ltb_spec i (24 + 8)), (Z.leb_spec 16 i), (Z.ltb_spec i (16 + 8)), (Z.leb_spec 8 i),
    (Z.ltb_spec i (8 + 8)), (Z.leb_spec 0 i), (Z.ltb_spec i (0 + 8)), (Z.ltb_spec i 32); (done || lia).
Qed.

Lemma field_words before v :
  length before = 56%nat ->
  <[15%nat := u32 (Z.shiftr v 32)]> (<[14%nat := u32 v]> (load_chunk (before ++ repeat 0 8))) =
  load_chunk (before ++ to_little_endian 8 v).
Proof.
  intros Hl. apply list_eq_same_length with 16%nat;
    [by rewrite length_load_chunk|by rewrite !length_insert, length_load_chunk|].
  intros j x y Hj Hx Hy. rewrite at_load_chunk in Hy by done.
  destruct (decide (j = 15%nat)) as [->|H15]; [|destruct (decide (j = 14%nat)) as [->|H14]].
  - rewrite list_lookup_insert_eq in Hx by (rewrite length_insert, length_load_chunk; lia).
    rewrite !app_nth2, Hl in Hy by lia. injection Hx as <-. injection Hy as <-. rewrite <- dword_u32.
    cbn [to_little_endian nth Nat.sub Nat.mul Nat.add]. by rewrite !Z.shiftr_shiftr by lia.
  - rewrite list_lookup_insert_ne, list_lookup_insert_eq in Hx by (rewrite ?length_load_chunk; lia).
    rewrite !app_nth2, Hl in Hy by lia. injection Hx as <-. injection Hy as <-. rewrite <- dword_u32.
    cbn [to_little_endian nth Nat.sub Nat.mul Nat.add]. by rewrite !Z.shiftr_shiftr by lia.
  - rewrite !list_lookup_insert_ne, at_load_chunk in Hx by done.
    rewrite !app_nth1 in Hx, Hy by lia. congruence.
Qed.

(** The field of the length, from the two halves of the size. *)
Lemma size_words size :
  0 <= size ->
  u32 (Z.shiftl (u32 size) 3) = u32 (8 * size) /\
  Z.lor (Z.shiftr (u32 size) 29) (u32 (Z.shiftl (u32 (Z.shiftr size 32)) 3)) = u32 (Z.shiftr (8 * size) 32).
Proof.
  intros Hs. replace (8 * size) with (Z.shiftl size 3) by (rewrite Z.shiftl_mul_pow2 by lia; lia).
  unfold u32, wrap. rewrite <- !Z.land_ones by lia. split; apply Z.bits_inj'; intros i Hi.
  all: rewrite ?Z.lor_spec, ?Z.land_spec, ?Z.shiftr_spec, ?Z.land_spec, ?Z.testbit_ones by lia.
  all: destruct (Z.lt_ge_cases i 3) as [H3|H3].
  all: rewrite ?Z.shiftl_spec_low, ?Z.shiftl_spec by lia.
  all: rewrite ?Z.land_spec, ?Z.shiftr_spec, ?Z.testbit_ones by lia.
  all: destruct (Z.leb_spec 0 i), (Z.ltb_spec i 32); try lia; rewrite ?andb_false_r, ?andb_true_r, ?orb_false_r; try done.
  - destruct (Z.leb_spec 0 (i - 3)), (Z.ltb_spec (i - 3) 32); try lia. by rewrite andb_true_r.
  - destruct (Z.leb_spec 0 (i + 29)), (Z.ltb_spec (i + 29) 32); try lia. rewrite andb_true_r. f_equal. lia.
  - destruct (Z.leb_spec 0 (i + 29)), (Z.ltb_spec (i + 29) 32), (Z.leb_spec 0 (i - 3)), (Z.ltb_spec (i - 3) 32); try lia.
    rewrite andb_false_r, andb_true_r. cbn [orb andb]. f_equal. lia.
Qed.

Lemma load_chunk_take message : load_chunk message = load_chunk (take 64 message).
Proof.
  apply list_eq_same_length with 16%nat; try apply length_load_chunk. intros j x y Hj. rewrite !at_load_chunk by done.
  rewrite !nth_lookup, !lookup_take_lt by lia. congruence.
Qed.

Lemma update_loop_spec turns : forall state message,
  (length message <= turns)%nat ->
  update_loop turns state message =
  (fold_left RMDcompress (map load_chunk (blocks sha256 (length message / 64) message)) state, tail_of message).
Proof.
  induction turns as [|turns IH]; intros state message Hl.
  { by destruct message; [|cbn [length] in Hl; lia]. }
  cbn [update_loop]. destruct (Nat.ltb_spec 63 (length message)) as [H63|H63].
  - rewrite IH by (rewrite length_drop; lia). unfold tail_of. rewrite length_drop, drop_drop.
    replace (length message)%nat with (1 * 64 + (length message - 64))%nat at 3 4 by lia.
    rewrite Nat.div_add_l by lia. change (1 + ?n)%nat with (S n). cbn [blocks block_length sha256 map fold_left].
    rewrite load_chunk_take. do 2 f_equal.
  - rewrite Nat.div_small by lia. unfold tail_of. by rewrite Nat.div_small by lia.
Qed.

(** The place of the next byte, from the low half of the size. *)
Lemma size_place (message : list Z) :
  let r := (length message mod 64)%nat in
  Z.to_nat (Z.land (u32 (zlen message)) 63) = r /\
  Z.to_nat (Z.land (Z.shiftr (u32 (zlen message)) 2) 15) = (r / 4)%nat /\
  Z.land (u32 (zlen message)) 3 = Z.of_nat (r mod 4).
Proof.
  cbv zeta. unfold u32, wrap, zlen. rewrite (Z.land_ones _ 6), (Z.land_ones _ 4), (Z.land_ones _ 2), Z.shiftr_div_pow2 by lia.
  change (2 ^ 32) with 4294967296. change (2 ^ 6) with 64. change (2 ^ 4) with 16. change (2 ^ 2) with 4.
  set (n := length message). clearbody n. split_and!.
  - apply Nat2Z.inj. rewrite Nat2Z.inj_mod, Z2Nat.id by (apply Z.mod_pos_bound; lia). Z.to_euclidean_division_equations. lia.
  - apply Nat2Z.inj. rewrite Nat2Z.inj_div, Nat2Z.inj_mod, Z2Nat.id by (apply Z.mod_pos_bound; lia).
    Z.to_euclidean_division_equations. lia.
  - rewrite !Nat2Z.inj_mod. Z.to_euclidean_division_equations. lia.
Qed.

Lemma RMDfinish_spec state message :
  bytes_ok message ->
  RMDfinish state (tail_of message) (zlen message) =
  fold_left RMDcompress
    (map load_chunk (if (55 <? length message mod 64)%nat
       then [tail_of message ++ 0x80 :: repeat 0 (63 - length message mod 64);
             repeat 0 56 ++ to_little_endian 8 (8 * zlen message)]
       else [tail_of message ++ 0x80 :: repeat 0 (55 - length message mod 64) ++ to_little_endian 8 (8 * zlen message)])) state.
Proof.
  intros Hm. destruct (tail_length message) as [Htl Hlt]. set (r := (length message mod 64)%nat) in *.
  set (tail := tail_of message) in *.
  assert (Htail : bytes_ok tail) by (by apply Forall_drop).
  destruct (size_words (zlen message) ltac:(unfold zlen; lia)) as [Hlo Hhi].
  destruct (size_place message) as (Hrest & Hi & Hthree). fold r in Hrest, Hi, Hthree.
  unfold RMDfinish. rewrite Hrest, Hi, Hthree, Hlo, Hhi, Z.add_comm, <- Z.shiftl_shiftl by lia.
  change (Z.shiftl 1 7) with 0x80.
  pose proof (xor_bytes_load tail [] ltac:(cbn [length]; lia) ltac:(constructor) Htail) as Hfold.
  cbn [length app] in Hfold. rewrite !Nat.sub_0_r, Htl in Hfold. change (load_chunk (repeat 0 64)) with (repeat 0 16) in Hfold.
  rewrite Hfold.
  change (<[(r / 4)%nat := _]> ?chunk) with (xor_byte chunk (r, 0x80)).
  assert (Hone : xor_byte (load_chunk (tail ++ repeat 0 (64 - r))) (r, 0x80) = load_chunk (tail ++ 0x80 :: repeat 0 (63 - r))).
  { replace (64 - r)%nat with (S (63 - r)) by lia. cbn [repeat]. rewrite xor_byte_load.
    - by rewrite insert_app_r_alt, Htl, Nat.sub_diag by lia.
    - rewrite length_app. cbn [length]. rewrite repeat_length. lia.
    - lia.
    - apply bytes_ok_app. split; [done|]. apply (bytes_ok_repeat (S _)).
    - unfold byte_ok. lia.
    - by rewrite app_nth2, Htl, Nat.sub_diag by lia. }
  rewrite Hone. destruct (Nat.ltb_spec 55 r) as [Hr|Hr]; cbn [map fold_left]; apply (f_equal (RMDcompress _)).
  - rewrite <- (field_words (repeat 0 56)) by done. exact eq_refl.
  - replace (63 - r)%nat with (55 - r + 8)%nat by lia. rewrite repeat_app.
    replace (tail ++ 128 :: repeat 0 (55 - r) ++ repeat 0 8) with ((tail ++ 128 :: repeat 0 (55 - r)) ++ repeat 0 8) by (by rewrite <- app_assoc).
    rewrite field_words by (rewrite length_app; cbn [length]; rewrite repeat_length; lia). by rewrite <- app_assoc.
Qed.

(** The loops over the message and its last bytes compute the standard digest. *)
Lemma RMD160_standard message : bytes_ok message -> RMD160 message = ripemd_standard message.
Proof.
  intros Hm. unfold RMD160, RMDUpdate. rewrite update_loop_spec by done. rewrite RMDfinish_spec by done.
  unfold ripemd_standard. cbv zeta. rewrite padded_blocks by apply length_to_little_endian.
  by rewrite map_app, fold_left_app.
Qed.
End ripemd160.
