(* ===== verification/Scrypt.v ===== *)
(** Memory hard key derivation: [src/math/external/crypto_scrypt.c] over
    [pbkdf2_sha256.c], and the variant of [scrypt.cpp] that a Litecoin build
    hashes headers with. *)

From S2P Require Import Prelude Endian Sha2.

(** ** Key derivation, [pbkdf2_sha256.c] *)

(** [U = HMAC(U); T ^= U] *)
Definition derive_step256 (passphrase : list Z) (s : list Z * list Z) : list Z * list Z :=
  let '(U, T) := s in
  let U := HMACSHA256 U passphrase in
  (U, zip_with Z.lxor T U).

(** The context after the passphrase and the salt is copied for each block. *)
Definition block256 (passphrase salt : list Z) (c i : Z) : list Z :=
  let PShctx := HMACUpdate sha256 (HMACInit sha256 (repeat 0 64) (repeat 0 64) passphrase) salt in
  let U := HMACFinal sha256 (HMACUpdate sha256 PShctx (be32enc (u32 (i + 1)))) in
  snd (Nat.iter (Z.to_nat (c - 1)) (derive_step256 passphrase) (U, U)).

(** [for (i = 0; i * 32 < dk_length; i++)], at most one turn for each byte *)
Fixpoint loop256 (turns : nat) (passphrase salt : list Z) (c i : Z) (dk_length : nat) : list Z :=
  match turns with
  | O => []
  | S turns =>
      if i * 32 <? Z.of_nat dk_length then
        let clen := Z.of_nat dk_length - i * 32 in
        let clen := if clen >? 32 then 32 else clen in
        take (Z.to_nat clen) (block256 passphrase salt c i) ++ loop256 turns passphrase salt c (i + 1) dk_length
      else []
  end.

Definition pbkdf2_sha256 (passphrase salt : list Z) (c : Z) (dk_length : nat) : list Z :=
  loop256 dk_length passphrase salt c 0 dk_length.

(** The standard: each block is the exclusive or of the iterates of the code. *)
Definition derived256 (passphrase salt : list Z) (c i : Z) : list Z :=
  let f := fun u => HMACSHA256 u passphrase in
  let first := HMACSHA256 (salt ++ be32enc (u32 (i + 1))) passphrase in
  fold_left (fun sum n => zip_with Z.lxor sum (Nat.iter n f first)) (seq 1 (Z.to_nat (c - 1))) first.

Lemma iterate_derived passphrase salt c i :
  let U := HMACSHA256 (salt ++ be32enc (u32 (i + 1))) passphrase in
  snd (Nat.iter (Z.to_nat (c - 1)) (derive_step256 passphrase) (U, U)) = derived256 passphrase salt c i.
Proof. cbv zeta. unfold derived256, derive_step256. by rewrite iterate_sum. Qed.

Lemma block256_standard passphrase salt c i : block256 passphrase salt c i = derived256 passphrase salt c i.
Proof.
  unfold block256. cbv zeta.
  assert (E : HMACFinal sha256 (HMACUpdate sha256 (HMACUpdate sha256 (HMACInit sha256 (repeat 0 64) (repeat 0 64) passphrase) salt)
                (be32enc (u32 (i + 1)))) = HMACSHA256 (salt ++ be32enc (u32 (i + 1))) passphrase).
  { rewrite hmac_sha256_standard.
    pose proof (hmac_pieces sha256 (repeat 0 64) (repeat 0 64) [salt; be32enc (u32 (i + 1))] passphrase sha256_ok eq_refl eq_refl) as Hp.
    cbn [fold_left concat] in Hp. rewrite Hp. by rewrite app_nil_r. }
  rewrite E. apply iterate_derived.
Qed.

Lemma derived256_ok passphrase salt c i :
  length (derived256 passphrase salt c i) = 32%nat /\ bytes_ok (derived256 passphrase salt c i).
Proof.
  unfold derived256. cbv zeta. set (first := HMACSHA256 _ _).
  assert (Hf : forall n, length (Nat.iter n (fun u => HMACSHA256 u passphrase) first) = 32%nat /\
                         bytes_ok (Nat.iter n (fun u => HMACSHA256 u passphrase) first)).
  { intros [|n]; [split; [apply length_HMACSHA256|apply bytes_HMACSHA256]|]. rewrite Nat.iter_succ.
    split; [apply length_HMACSHA256|apply bytes_HMACSHA256]. }
  assert (H : forall l sum, length sum = 32%nat /\ bytes_ok sum ->
    let s := fold_left (fun sum n => zip_with Z.lxor sum (Nat.iter n (fun u => HMACSHA256 u passphrase) first)) l sum in
    length s = 32%nat /\ bytes_ok s).
  { intros l. induction l as [|n l IH]; intros sum [Hs Hb]; cbn [fold_left]; [done|]. apply IH. destruct (Hf n) as [Hn Hnb].
    split; [rewrite length_zip_with; lia|]. by apply zip_lxor_bytes. }
  apply H. split; [apply length_HMACSHA256|apply bytes_HMACSHA256].
Qed.
#[local] Opaque derived256.

(** The loop gives as many bytes of the blocks in order as are asked for. *)
Lemma loop256_standard turns passphrase salt c i n k :
  (n <= turns + Z.to_nat i * 32)%nat -> 0 <= i -> (n <= (Z.to_nat i + k) * 32)%nat ->
  loop256 turns passphrase salt c i n =
  take (n - Z.to_nat i * 32) (concat (map (fun j => derived256 passphrase salt c (i + Z.of_nat j)) (seq 0 k))).
Proof.
  revert i k. induction turns as [|turns IH]; intros i k Ht Hi Hk; cbn [loop256].
  { replace (n - _)%nat with 0%nat by lia. by rewrite take_0. }
  destruct (Z.ltb_spec (i * 32) (Z.of_nat n)) as [Hlt|Hge]; [|replace (n - _)%nat with 0%nat by lia; by rewrite take_0].
  destruct k as [|k]; [lia|]. cbn [seq map concat]. rewrite Z.add_0_r, block256_standard.
  destruct (derived256_ok passphrase salt c i) as [Hd _]. set (block := derived256 passphrase salt c i) in *.
  rewrite (IH (i + 1) k) by lia. rewrite <- seq_shift, map_map.
  assert (E : map (fun j => derived256 passphrase salt c (i + Z.of_nat (S j))) (seq 0 k) =
    map (fun j => derived256 passphrase salt c (i + 1 + Z.of_nat j)) (seq 0 k)) by
    (apply map_ext; intros j; by replace (i + Z.of_nat (S j)) with (i + 1 + Z.of_nat j) by lia).
  rewrite E. clear E. destruct (Z.gtb_spec (Z.of_nat n - i * 32) 32).
  - rewrite (take_ge block) by (change (Z.to_nat 32) with 32%nat; lia). rewrite take_app_ge by lia. rewrite Hd.
    do 2 f_equal. lia.
  - replace (n - Z.to_nat (i + 1) * 32)%nat with 0%nat by lia. rewrite take_0, app_nil_r, take_app_le by lia. f_equal. lia.
Qed.

Lemma pbkdf2_sha256_standard passphrase salt c n :
  pbkdf2_sha256 passphrase salt c n =
  take n (concat (map (fun j => derived256 passphrase salt c (Z.of_nat j)) (seq 0 (S (n / 32))))).
Proof.
  unfold pbkdf2_sha256. rewrite (loop256_standard _ _ _ _ _ _ (S (n / 32))) by
    (try lia; pose proof (Nat.div_mod n 32); pose proof (Nat.mod_upper_bound n 32); lia).
  f_equal. lia.
Qed.

Lemma pbkdf2_sha256_ok passphrase salt c n :
  length (pbkdf2_sha256 passphrase salt c n) = n /\ bytes_ok (pbkdf2_sha256 passphrase salt c n).
Proof.
  rewrite pbkdf2_sha256_standard. split.
  - rewrite length_take, (length_concat_const 32%nat).
    + rewrite length_map, length_seq. pose proof (Nat.div_mod n 32); pose proof (Nat.mod_upper_bound n 32); lia.
    + apply Forall_map, Forall_true. intros j. apply derived256_ok.
  - apply Forall_take, Forall_concat, Forall_map, Forall_true. intros j. apply derived256_ok.
Qed.

(** ** The core *)

Definition le32dec (p : list Z) : Z :=
  u32 (at_ p 0 + Z.shiftl (at_ p 1) 8 + Z.shiftl (at_ p 2) 16 + Z.shiftl (at_ p 3) 24).
Definition le32enc (x : Z) : list Z :=
  [Z.land x 0xff; Z.land (Z.shiftr x 8) 0xff; Z.land (Z.shiftr x 16) 0xff; Z.land (Z.shiftr x 24) 0xff].
Definition le64dec (p : list Z) : Z :=
  u64 (at_ p 0 + Z.shiftl (at_ p 1) 8 + Z.shiftl (at_ p 2) 16 + Z.shiftl (at_ p 3) 24 +
       Z.shiftl (at_ p 4) 32 + Z.shiftl (at_ p 5) 40 + Z.shiftl (at_ p 6) 48 + Z.shiftl (at_ p 7) 56).

Definition R (a b : Z) : Z := u32 (Z.lor (Z.shiftl a b) (Z.shiftr a (32 - b))).

(** [x[d] ^= R(x[a] + x[b], n)] for a line [(d, a, b, n)] *)
Definition quarter_step (x : list Z) (line : nat * nat * nat * Z) : list Z :=
  let '(d, a, b, n) := line in <[d := Z.lxor (at_ x d) (R (u32 (at_ x a + at_ x b)) n)]> x.

Definition salsa_columns : list (nat * nat * nat * Z) :=
  [(4, 0, 12, 7%Z); (8, 4, 0, 9%Z); (12, 8, 4, 13%Z); (0, 12, 8, 18%Z);
   (9, 5, 1, 7%Z); (13, 9, 5, 9%Z); (1, 13, 9, 13%Z); (5, 1, 13, 18%Z);
   (14, 10, 6, 7%Z); (2, 14, 10, 9%Z); (6, 2, 14, 13%Z); (10, 6, 2, 18%Z);
   (3, 15, 11, 7%Z); (7, 3, 15, 9%Z); (11, 7, 3, 13%Z); (15, 11, 7, 18%Z)]%nat.
Definition salsa_rows : list (nat * nat * nat * Z) :=
  [(1, 0, 3, 7%Z); (2, 1, 0, 9%Z); (3, 2, 1, 13%Z); (0, 3, 2, 18%Z);
   (6, 5, 4, 7%Z); (7, 6, 5, 9%Z); (4, 7, 6, 13%Z); (5, 4, 7, 18%Z);
   (11, 10, 9, 7%Z); (8, 11, 10, 9%Z); (9, 8, 11, 13%Z); (10, 9, 8, 18%Z);
   (12, 15, 14, 7%Z); (13, 12, 15, 9%Z); (14, 13, 12, 13%Z); (15, 14, 13, 18%Z)]%nat.

Definition double_round (columns rows : list (nat * nat * nat * Z)) (x : list Z) : list Z :=
  fold_left quarter_step rows (fold_left quarter_step columns x).

(** [for (i = 0; i < 8; i += 2)] *)
Definition salsa20_8 (B : list Z) : list Z :=
  let B32 := map (fun i => le32dec (drop (i * 4) B)) (seq 0 16) in
  let x := Nat.iter 4 (double_round salsa_columns salsa_rows) B32 in
  concat (map le32enc (zip_with (fun b x => u32 (b + x)) B32 x)).

(** The bytes of the [i]th block of 64, and the exclusive or of two blocks. *)
Definition block64 (B : list Z) (i : nat) : list Z := take 64 (drop (i * 64) B).
Definition blkxor (dest src : list Z) : list Z := zip_with Z.lxor dest src.

(** [X <-- H(X xor B_i); Y_i <-- X] *)
Definition mix_step (B : list Z) (s : list Z * list (list Z)) (i : nat) : list Z * list (list Z) :=
  let '(X, Y) := s in
  let X := salsa20_8 (blkxor X (block64 B i)) in
  (X, Y ++ [X]).

Definition blockmix_salsa8 (B : list Z) (r : nat) : list Z :=
  let '(_, Y) := fold_left (mix_step B) (seq 0 (2 * r)) (block64 B (2 * r - 1), []) in
  concat (map (fun i => nth (i * 2) Y []) (seq 0 r)) ++ concat (map (fun i => nth (i * 2 + 1) Y []) (seq 0 r)).

Definition integerify (B : list Z) (r : nat) : Z := le64dec (drop ((2 * r - 1) * 64) B).

(** [V_i <-- X; X <-- H(X)] *)
Definition fill_step (r : nat) (s : list Z * list (list Z)) : list Z * list (list Z) :=
  let '(X, V) := s in (blockmix_salsa8 X r, V ++ [X]).

(** [j <-- Integerify(X) mod N; X <-- H(X xor V_j)] *)
Definition read_step (r : nat) (N : Z) (V : list (list Z)) (X : list Z) : list Z :=
  let j := Z.land (integerify X r) (N - 1) in
  blockmix_salsa8 (blkxor X (nth (Z.to_nat j) V [])) r.

Definition smix (B : list Z) (r : nat) (N : Z) : list Z :=
  let '(X, V) := Nat.iter (Z.to_nat N) (fill_step r) (B, []) in
  Nat.iter (Z.to_nat N) (read_step r N V) X.

(** The outcomes: the error numbers, a size that does not fit in the 32 bits
    it is computed with, where the memory that is allocated is too small, and
    a division by zero. *)
Inductive scrypt_error :=
| EFBIG
| EINVAL
| ENOMEM
| undefined.

Definition crypto_scrypt (passphrase salt : list Z) (N r p : Z) (buf_length : Z) : scrypt_error + list Z :=
  if buf_length >? (2 ^ 32 - 1) * 32 then inl EFBIG
  else if r * p >=? 2 ^ 30 then inl EFBIG
  else if negb (Z.land N (u64 (N - 1)) =? 0) || (N =? 0) then inl EINVAL
  else if p =? 0 then inl undefined
  else if r >? (2 ^ 64 - 1) / 128 / p then inl ENOMEM
  else if r =? 0 then inl undefined
  else if N >? (2 ^ 64 - 1) / 128 / r then inl ENOMEM
  else if 128 * r * p >=? 2 ^ 32 then inl undefined
  else if 256 * r >=? 2 ^ 32 then inl undefined
  else
    let size := Z.to_nat (128 * r) in
    let B := pbkdf2_sha256 passphrase salt 1 (Z.to_nat (p * 128 * r)) in
    let B := concat (map (fun i => smix (take size (drop (i * size) B)) (Z.to_nat r) N) (seq 0 (Z.to_nat p))) in
    inr (pbkdf2_sha256 passphrase B 1 (Z.to_nat buf_length)).

(** RFC 7914, section 12. *)
Lemma scrypt_vector :
  match crypto_scrypt [] [] 16 1 1 64 with
  | inr out => take 16 out
  | inl _ => []
  end = [0x77; 0xd6; 0x57; 0x62; 0x38; 0x65; 0x7b; 0x20; 0x3b; 0x19; 0xca; 0x42; 0xc1; 0x8a; 0x04; 0x97].
Proof. vm_compute. reflexivity. Qed.

(** [scrypt(data, salt, N, p, r, length)] of [src/math/hash.cpp], which throws
    what is [None] here, and the array form of [impl/math/hash.ipp], which
    passes [r] for [p] and [p] for [r]. *)
Definition scrypt (data salt : list Z) (N p r : Z) (length : Z) : option (list Z) :=
  match crypto_scrypt data salt N r p length with
  | inr output => Some output
  | inl _ => None
  end.

(** The parameters of the standards have a digest of the size asked for. *)
Lemma scrypt_standard_parameters size data salt N r p :
  size = 32 \/ size = 64 -> (N, p, r) = (16384, 8, 8) \/ (N, p, r) = (1024, 1, 1) ->
  exists out, scrypt data salt N r p size = Some out /\ zlen out = size /\ bytes_ok out.
Proof.
  intros Hsize Hp.
  assert (E : exists B, crypto_scrypt data salt N p r size = inr (pbkdf2_sha256 data B 1 (Z.to_nat size))).
  { unfold crypto_scrypt. destruct Hp as [[= -> -> ->]|[= -> -> ->]]; destruct Hsize as [-> | ->]; eexists;
      cbn -[pbkdf2_sha256 smix Z.to_nat]; reflexivity. }
  destruct E as [B E]. unfold scrypt. rewrite E. destruct (pbkdf2_sha256_ok data B 1 (Z.to_nat size)) as [Hl Hb].
  eexists. split_and!; [reflexivity| |done]. unfold zlen. rewrite Hl. lia.
Qed.

Definition scrypt_array (size : Z) (data salt : list Z) (N p r : Z) : option (list Z) := scrypt data salt N r p size.

(** ** The variant of [scrypt.cpp]

    It hashes with OpenSSL's SHA-256, [openssl/sha.h], which is an interface:
    a context, and the three functions on it; the context after the last is
    not used. *)

Class OpenSSL := {
  SHA256_CTX : Type;
  SHA256_Init : SHA256_CTX;
  SHA256_Update : SHA256_CTX -> list Z -> SHA256_CTX;
  SHA256_Final : SHA256_CTX -> list Z
}.

(** What is fed in pieces has the digest of the whole. *)
Class OpenSSLLaws `{OpenSSL} : Prop := {
  SHA256_pieces pieces : SHA256_Final (fold_left SHA256_Update pieces SHA256_Init) = standard sha256 (concat pieces)
}.

Module litecoin.

Record HMAC_SHA256_CTX `{OpenSSL} := mk_ctx { ictx : SHA256_CTX; octx : SHA256_CTX }.

(** [memset(pad, value, 64)] and [pad[i] ^= K[i]] for the key *)
Definition key_pad (value : Z) (K : list Z) : list Z :=
  zip_with Z.lxor (repeat value (length K)) K ++ repeat value (64 - length K).

Definition HMAC_SHA256_Init `{OpenSSL} (K : list Z) : HMAC_SHA256_CTX :=
  let K := if (64 <? length K)%nat then SHA256_Final (SHA256_Update SHA256_Init K) else K in
  mk_ctx _ (SHA256_Update SHA256_Init (key_pad 0x36 K)) (SHA256_Update SHA256_Init (key_pad 0x5c K)).

Definition HMAC_SHA256_Update `{OpenSSL} (ctx : HMAC_SHA256_CTX) (data : list Z) : HMAC_SHA256_CTX :=
  mk_ctx _ (SHA256_Update (ictx ctx) data) (octx ctx).

Definition HMAC_SHA256_Final `{OpenSSL} (ctx : HMAC_SHA256_CTX) : list Z :=
  let ihash := SHA256_Final (ictx ctx) in
  SHA256_Final (SHA256_Update (octx ctx) ihash).

(** [for (j = 2; j <= c; j++)] *)
Definition iteration `{OpenSSL} (passwd : list Z) (s : list Z * list Z) : list Z * list Z :=
  let '(U, T) := s in
  let U := HMAC_SHA256_Final (HMAC_SHA256_Update (HMAC_SHA256_Init passwd) U) in
  (U, zip_with Z.lxor T U).

(** [for (i = 0; i * 32 < dkLen; i++)] *)
Fixpoint blocks_loop `{OpenSSL} (turns : nat) (passwd : list Z) (PShctx : HMAC_SHA256_CTX) (c i : Z) (dkLen : nat) : list Z :=
  match turns with
  | O => []
  | S turns =>
      if i * 32 <? Z.of_nat dkLen then
        let hctx := HMAC_SHA256_Update PShctx (be32enc (u32 (i + 1))) in
        let U := HMAC_SHA256_Final hctx in
        let T := snd (Nat.iter (Z.to_nat (c - 1)) (iteration passwd) (U, U)) in
        let clen := Z.of_nat dkLen - i * 32 in
        let clen := if clen >? 32 then 32 else clen in
        take (Z.to_nat clen) T ++ blocks_loop turns passwd PShctx c (i + 1) dkLen
      else []
  end.

Definition PBKDF2_SHA256 `{OpenSSL} (passwd salt : list Z) (c : Z) (dkLen : nat) : list Z :=
  let PShctx := HMAC_SHA256_Update (HMAC_SHA256_Init passwd) salt in
  blocks_loop dkLen passwd PShctx c 0 dkLen.

Definition litecoin_columns : list (nat * nat * nat * Z) :=
  [(4, 0, 12, 7%Z); (9, 5, 1, 7%Z); (14, 10, 6, 7%Z); (3, 15, 11, 7%Z);
   (8, 4, 0, 9%Z); (13, 9, 5, 9%Z); (2, 14, 10, 9%Z); (7, 3, 15, 9%Z);
   (12, 8, 4, 13%Z); (1, 13, 9, 13%Z); (6, 2, 14, 13%Z); (11, 7, 3, 13%Z);
   (0, 12, 8, 18%Z); (5, 1, 13, 18%Z); (10, 6, 2, 18%Z); (15, 11, 7, 18%Z)]%nat.
Definition litecoin_rows : list (nat * nat * nat * Z) :=
  [(1, 0, 3, 7%Z); (6, 5, 4, 7%Z); (11, 10, 9, 7%Z); (12, 15, 14, 7%Z);
   (2, 1, 0, 9%Z); (7, 6, 5, 9%Z); (8, 11, 10, 9%Z); (13, 12, 15, 9%Z);
   (3, 2, 1, 13%Z); (4, 7, 6, 13%Z); (9, 8, 11, 13%Z); (14, 13, 12, 13%Z);
   (0, 3, 2, 18%Z); (5, 4, 7, 18%Z); (10, 9, 8, 18%Z); (15, 14, 13, 18%Z)]%nat.

(** [B ^= Bx; x = B; ...; B += x] *)
Definition xor_salsa8 (B Bx : list Z) : list Z :=
  let B := zip_with Z.lxor B Bx in
  let x := Nat.iter 4 (double_round litecoin_columns litecoin_rows) B in
  zip_with (fun b x => u32 (b + x)) B x.

(** [xor_salsa8(&X[0], &X[16]); xor_salsa8(&X[16], &X[0])] *)
Definition mix (X : list Z) : list Z :=
  let low := xor_salsa8 (take 16 X) (drop 16 X) in
  low ++ xor_salsa8 (drop 16 X) low.

Definition fill (s : list Z * list (list Z)) : list Z * list (list Z) := let '(X, V) := s in (mix X, V ++ [X]).

Definition read (V : list (list Z)) (X : list Z) : list Z :=
  let j := Z.land (at_ X 16) 1023 in
  mix (zip_with Z.lxor X (nth (Z.to_nat j) V [])).

(** The input has 80 bytes. *)
Definition scrypt_1024_1_1_256 `{OpenSSL} (input : list Z) : list Z :=
  let B := PBKDF2_SHA256 input input 1 128%nat in
  let X := map (fun k => le32dec (drop (4 * k) B)) (seq 0 32) in
  let '(X, V) := Nat.iter 1024 fill (X, []) in
  let X := Nat.iter 1024 (read V) X in
  PBKDF2_SHA256 input (concat (map le32enc X)) 1 32%nat.

(** ** The derivation is that of [pbkdf2_sha256.c] *)

Section Laws.
Context `{OpenSSLLaws}.

Lemma final_updates ctx a b : ctx = SHA256_Update SHA256_Init a -> SHA256_Final (SHA256_Update ctx b) = standard sha256 (a ++ b).
Proof. intros ->. pose proof (SHA256_pieces [a; b]) as E. cbn [fold_left concat] in E. by rewrite app_nil_r in E. Qed.

Lemma hmac_pair key a b :
  HMAC_SHA256_Final (HMAC_SHA256_Update (HMAC_SHA256_Update (HMAC_SHA256_Init key) a) b) = HMACSHA256 (a ++ b) key.
Proof.
  rewrite hmac_sha256_standard. unfold HMAC_SHA256_Final, HMAC_SHA256_Update, HMAC_SHA256_Init, hmac_standard. cbn [ictx octx].
  pose proof (SHA256_pieces [key]) as Hkey. cbn [fold_left concat] in Hkey. rewrite app_nil_r in Hkey. rewrite Hkey.
  change (block_length sha256) with 64%nat. set (K := if (64 <? length key)%nat then _ else key).
  rewrite (final_updates _ _ _ eq_refl).
  pose proof (SHA256_pieces [key_pad 0x36 K; a; b]) as E. cbn [fold_left concat] in E. rewrite app_nil_r in E. rewrite E. reflexivity.
Qed.

Lemma hmac_single key a : HMAC_SHA256_Final (HMAC_SHA256_Update (HMAC_SHA256_Init key) a) = HMACSHA256 a key.
Proof.
  rewrite hmac_sha256_standard. unfold HMAC_SHA256_Final, HMAC_SHA256_Update, HMAC_SHA256_Init, hmac_standard. cbn [ictx octx].
  pose proof (SHA256_pieces [key]) as Hkey. cbn [fold_left concat] in Hkey. rewrite app_nil_r in Hkey. rewrite Hkey.
  change (block_length sha256) with 64%nat. set (K := if (64 <? length key)%nat then _ else key).
  by rewrite !(final_updates _ _ _ eq_refl).
Qed.

Lemma iterations passwd n s : Nat.iter n (iteration passwd) s = Nat.iter n (derive_step256 passwd) s.
Proof.
  induction n as [|n IH]; [done|]. rewrite !Nat.iter_succ, IH. destruct (Nat.iter n (derive_step256 passwd) s) as [U T].
  unfold iteration, derive_step256. by rewrite hmac_single.
Qed.

Lemma blocks_loop_spec turns passwd salt c n : forall i,
  blocks_loop turns passwd (HMAC_SHA256_Update (HMAC_SHA256_Init passwd) salt) c i n = loop256 turns passwd salt c i n.
Proof.
  induction turns as [|turns IH]; intros i; [done|]. cbn [blocks_loop loop256]. rewrite IH, block256_standard, hmac_pair.
  rewrite iterations. by rewrite iterate_derived.
Qed.

Lemma PBKDF2_standard passwd salt c n : PBKDF2_SHA256 passwd salt c n = pbkdf2_sha256 passwd salt c n.
Proof. apply blocks_loop_spec. Qed.
End Laws.

(** ** The words are the bytes of [crypto_scrypt.c] *)

Definition word_ok (x : Z) : Prop := in_width 32 x.

(** The bytes of words. *)
Definition enc (X : list Z) : list Z := concat (map le32enc X).

Lemma le32dec_enc x rest : word_ok x -> le32dec (le32enc x ++ rest) = x.
Proof.
  intros Hx. transitivity (u32 (le_value (to_little_endian 4 x))).
  - unfold le32dec, le32enc. rewrite !land_ff. cbn [app nth to_little_endian le_value]. rewrite !Z.shiftr_shiftr by lia.
    change (8 + 8 + 8) with 24. change (8 + 8) with 16. rewrite !Z.shiftl_mul_pow2 by lia. f_equal. lia.
  - rewrite le_value_to_little_endian. unfold u32. rewrite wrap_small; [|apply Z.mod_pos_bound; lia].
    apply Z.mod_small. exact Hx.
Qed.

Lemma le32enc_dec a b c d rest :
  byte_ok a -> byte_ok b -> byte_ok c -> byte_ok d -> le32enc (le32dec (a :: b :: c :: d :: rest)) = [a; b; c; d].
Proof.
  intros Ha Hb Hc Hd. transitivity (to_little_endian 4 (le_value [a; b; c; d])).
  - unfold le32dec. cbn [nth]. rewrite !Z.shiftl_mul_pow2 by lia. unfold u32. rewrite wrap_small
      by (unfold in_width, byte_ok in *; lia).
    unfold le32enc. rewrite !land_ff. cbn [to_little_endian]. rewrite !Z.shiftr_shiftr by lia. cbn [le_value].
    replace (a + b * 2 ^ 8 + c * 2 ^ 16 + d * 2 ^ 24) with (a + 256 * (b + 256 * (c + 256 * (d + 256 * 0)))) by lia. done.
  - apply (to_little_endian_le_value [a; b; c; d]). rewrite !bytes_ok_cons. split_and!; (done || apply bytes_ok_nil).
Qed.

Lemma length_enc X : length (enc X) = (length X * 4)%nat.
Proof. unfold enc. rewrite (length_concat_const 4%nat); [by rewrite length_map|]. apply Forall_map, Forall_true. done. Qed.

Lemma enc_app X Y : enc (X ++ Y) = enc X ++ enc Y.
Proof. unfold enc. by rewrite map_app, concat_app. Qed.

Lemma take_enc n X : take (n * 4) (enc X) = enc (take n X).
Proof.
  revert n. induction X as [|x X IH]; intros [|n]; try done.
  change (enc (x :: X)) with (le32enc x ++ enc X). change (S n * 4)%nat with (4 + n * 4)%nat.
  rewrite take_app_add'; [|done]. cbn [take]. by rewrite IH.
Qed.

Lemma drop_enc n X : drop (n * 4) (enc X) = enc (drop n X).
Proof.
  revert n. induction X as [|x X IH]; intros [|n]; try done.
  change (enc (x :: X)) with (le32enc x ++ enc X). change (S n * 4)%nat with (4 + n * 4)%nat.
  rewrite drop_app_add'; [|done]. cbn [drop]. by rewrite IH.
Qed.

Lemma dec_enc X : Forall word_ok X -> map (fun i => le32dec (drop (i * 4) (enc X))) (seq 0 (length X)) = X.
Proof.
  induction X as [|x X IH]; intros HX; [done|]. apply Forall_cons in HX as [Hx HX]. cbn [length seq map]. f_equal.
  - by apply le32dec_enc.
  - rewrite <- seq_shift, map_map. etransitivity; [|exact (IH HX)]. apply map_ext. intros i. by rewrite (drop_enc (S i)), (drop_enc i).
Qed.

Lemma enc_dec n : forall B, length B = (n * 4)%nat -> bytes_ok B ->
  enc (map (fun i => le32dec (drop (4 * i) B)) (seq 0 n)) = B.
Proof.
  induction n as [|n IH]; intros B Hl HB; [by destruct B|].
  destruct B as [|a [|b [|c [|d B]]]]; try (cbn [length] in Hl; lia).
  rewrite !bytes_ok_cons in HB. destruct HB as (Ha & Hb & Hc & Hd & HB). cbn [seq map].
  change (enc (?x :: ?X)) with (le32enc x ++ enc X). rewrite Nat.mul_0_r, drop_0, le32enc_dec by done. cbn [app]. do 4 f_equal.
  rewrite <- seq_shift, map_map. etransitivity; [|apply (IH B); [cbn [length] in Hl; lia|done]]. f_equal. apply map_ext.
  intros i. by replace (4 * S i)%nat with (S (S (S (S (4 * i))))) by lia.
Qed.

Lemma enc_lxor X : forall Y, zip_with Z.lxor (enc X) (enc Y) = enc (zip_with Z.lxor X Y).
Proof.
  induction X as [|x X IH]; intros [|y Y]; try done. cbn [zip_with].
  change (enc (?x :: ?X)) with (le32enc x ++ enc X). rewrite zip_with_app by done. rewrite IH. f_equal.
  unfold le32enc. cbn [zip_with]. rewrite !Z.shiftr_lxor, !land_ff. unfold u8, wrap. by rewrite !lxor_mod by lia.
Qed.

(** The two files order the steps of a round in different ways. *)
Lemma double_rounds x :
  length x = 16%nat ->
  double_round litecoin_columns litecoin_rows x = double_round salsa_columns salsa_rows x.
Proof.
  intros Hx. do 16 (destruct x as [|? x]; [discriminate Hx|]). destruct x; [|discriminate Hx].
  unfold double_round, litecoin_columns, litecoin_rows, salsa_columns, salsa_rows.
  cbn [fold_left quarter_step nth insert list_insert]. reflexivity.
Qed.

Lemma length_double_round columns rows x : length (double_round columns rows x) = length x.
Proof.
  unfold double_round. assert (E : forall l y, length (fold_left quarter_step l y) = length y).
  { induction l as [|[[[d a] b] n] l IH]; intros y; [done|]. cbn [fold_left]. rewrite IH. apply length_insert. }
  by rewrite !E.
Qed.

Lemma iter_rounds x n :
  length x = 16%nat ->
  let y := Nat.iter n (double_round litecoin_columns litecoin_rows) x in
  y = Nat.iter n (double_round salsa_columns salsa_rows) x /\ length y = 16%nat.
Proof.
  intros Hx. cbv zeta. induction n as [|n [IH Hl]]; [done|]. rewrite !Nat.iter_succ, length_double_round.
  split; [|done]. by rewrite double_rounds, IH.
Qed.

Definition salsa_words (B : list Z) : list Z :=
  zip_with (fun b x => u32 (b + x)) B (Nat.iter 4 (double_round litecoin_columns litecoin_rows) B).

Lemma salsa_enc B : length B = 16%nat -> Forall word_ok B -> salsa20_8 (enc B) = enc (salsa_words B).
Proof.
  intros Hl HB. unfold salsa20_8, salsa_words. pose proof (dec_enc B HB) as E. rewrite Hl in E. rewrite E.
  by rewrite (proj1 (iter_rounds B 4 Hl)).
Qed.

Lemma salsa_words_ok B : length B = 16%nat -> length (salsa_words B) = 16%nat /\ Forall word_ok (salsa_words B).
Proof.
  intros Hl. unfold salsa_words. destruct (iter_rounds B 4 Hl) as [_ Hy]. set (y := Nat.iter _ _ _) in *. clearbody y.
  split; [rewrite length_zip_with; lia|]. clear. revert y. induction B as [|b B IH]; intros [|x y]; try constructor; [|apply IH].
  apply Z.mod_pos_bound. lia.
Qed.

Definition words_ok (n : nat) (X : list Z) : Prop := length X = n /\ Forall word_ok X.

Lemma lxor_words n X Y : words_ok n X -> words_ok n Y -> words_ok n (zip_with Z.lxor X Y).
Proof.
  intros [<- HX] [Hl HY]. split; [rewrite length_zip_with; lia|]. clear Hl. revert Y HY.
  induction HX as [|x X Hx HX IH]; intros [|y Y] HY; try constructor; apply Forall_cons in HY as [Hy HY]; [|by apply IH].
  by apply lxor_width.
Qed.

Lemma xor_salsa8_enc B Bx :
  words_ok 16 B -> words_ok 16 Bx ->
  salsa20_8 (blkxor (enc B) (enc Bx)) = enc (xor_salsa8 B Bx) /\ words_ok 16 (xor_salsa8 B Bx).
Proof.
  intros HB HBx. destruct (lxor_words _ _ _ HB HBx) as [Hl Hok]. unfold blkxor. rewrite enc_lxor, salsa_enc by done.
  split; [done|]. by apply salsa_words_ok.
Qed.

Lemma blkxor_comm (B Bx : list Z) : blkxor B Bx = blkxor Bx B.
Proof. revert Bx. induction B as [|b B IH]; intros [|x Bx]; try done. cbn. by rewrite Z.lxor_comm, IH. Qed.

Lemma word_halves X : words_ok 32 X -> words_ok 16 (take 16 X) /\ words_ok 16 (drop 16 X).
Proof.
  intros [Hl HX]. split; split; rewrite ?length_take, ?length_drop, ?Hl; try done; [by apply Forall_take|by apply Forall_drop].
Qed.

(** A block is mixed as the words are. *)
Lemma mix_enc X : words_ok 32 X -> blockmix_salsa8 (enc X) 1 = enc (mix X) /\ words_ok 32 (mix X).
Proof.
  intros HX. pose proof (word_halves X HX) as [Htake Hdrop]. destruct HX as [Hl HX].
  assert (H0 : block64 (enc X) 0 = enc (take 16 X)) by (exact (take_enc 16 X)).
  assert (H1 : block64 (enc X) 1 = enc (drop 16 X)).
  { unfold block64. change (1 * 64)%nat with (16 * 4)%nat. rewrite drop_enc. apply take_ge. rewrite length_enc, length_drop. lia. }
  unfold blockmix_salsa8. cbn [fold_left seq Nat.mul Nat.add Nat.sub mix_step app map nth concat].
  rewrite H0, H1, (blkxor_comm (enc (drop 16 X))).
  destruct (xor_salsa8_enc _ _ Htake Hdrop) as [Elow Hlow]. rewrite Elow.
  rewrite (blkxor_comm (enc (xor_salsa8 _ _))).
  destruct (xor_salsa8_enc _ _ Hdrop Hlow) as [Ehigh [Hhl Hhigh]]. rewrite Ehigh.
  unfold mix. rewrite !app_nil_r, enc_app. split; [done|]. destruct Hlow as [Hll Hlow]. split; [rewrite length_app; lia|].
  apply Forall_app. split; assumption.
Qed.

Lemma fill_enc n X :
  words_ok 32 X ->
  let '(X', V) := Nat.iter n fill (X, []) in
  Nat.iter n (fill_step 1) (enc X, []) = (enc X', map enc V) /\ words_ok 32 X' /\ Forall (words_ok 32) V /\ length V = n.
Proof.
  intros HX. induction n as [|n IH]; [done|]. rewrite !Nat.iter_succ. destruct (Nat.iter n fill _) as [X' V].
  destruct IH as (-> & HX' & HV & Hl). cbn [fill fill_step]. destruct (mix_enc X' HX') as [-> Hmix].
  rewrite map_app, length_app, Hl. split_and!; try done; [|cbn [length]; lia]. apply Forall_app. by rewrite Forall_singleton.
Qed.

Lemma integerify_enc X : words_ok 32 X -> Z.land (integerify (enc X) 1) 1023 = Z.land (at_ X 16) 1023.
Proof.
  intros [Hl HX]. unfold integerify. change ((2 * 1 - 1) * 64)%nat with (16 * 4)%nat. rewrite drop_enc.
  destruct (drop 16 X) as [|x rest] eqn:E; [apply (f_equal length) in E; rewrite length_drop, Hl in E; discriminate E|].
  assert (Hx : word_ok x).
  { apply (Forall_drop word_ok 16) in HX. rewrite E in HX. by apply Forall_cons in HX as [Hx _]. }
  replace (at_ X 16) with x by (rewrite <- (Nat.add_0_r 16), <- nth_skipn; change (skipn 16 X) with (drop 16 X); by rewrite E).
  rewrite !(Z.land_ones _ 10) by lia. rewrite <- (le32dec_enc x (enc rest)) at 2 by done.
  change (enc (x :: rest)) with (le32enc x ++ enc rest). generalize (le32enc x ++ enc rest). intros p.
  unfold le64dec, le32dec, u32, u64, wrap. rewrite !Z.shiftl_mul_pow2 by lia.
  set (s := at_ p 0 + _ + _ + _).
  replace (s + at_ p 4 * 2 ^ 32 + at_ p 5 * 2 ^ 40 + at_ p 6 * 2 ^ 48 + at_ p 7 * 2 ^ 56)
    with (s + 2 ^ 32 * (at_ p 4 + at_ p 5 * 2 ^ 8 + at_ p 6 * 2 ^ 16 + at_ p 7 * 2 ^ 24)) by lia.
  generalize (at_ p 4 + at_ p 5 * 2 ^ 8 + at_ p 6 * 2 ^ 16 + at_ p 7 * 2 ^ 24). intros k.
  Z.to_euclidean_division_equations. lia.
Qed.

Lemma read_enc V X :
  Forall (words_ok 32) V -> length V = 1024%nat -> words_ok 32 X ->
  read_step 1 1024 (map enc V) (enc X) = enc (read V X) /\ words_ok 32 (read V X).
Proof.
  intros HV Hl HX. unfold read_step, read. change (1024 - 1) with 1023. rewrite integerify_enc by done.
  set (j := Z.to_nat _). assert (Hj : (j < length V)%nat).
  { unfold j. rewrite (Z.land_ones _ 10) by lia. pose proof (Z.mod_pos_bound (at_ X 16) (2 ^ 10) ltac:(lia)). lia. }
  rewrite (nth_indep _ [] (enc [])), map_nth by (by rewrite length_map).
  unfold blkxor. rewrite enc_lxor. apply mix_enc, lxor_words; [done|].
  rewrite Forall_forall in HV. apply HV, list_elem_of_In, nth_In, Hj.
Qed.

Lemma iter_read_enc V X n :
  Forall (words_ok 32) V -> length V = 1024%nat -> words_ok 32 X ->
  Nat.iter n (read_step 1 1024 (map enc V)) (enc X) = enc (Nat.iter n (read V) X) /\ words_ok 32 (Nat.iter n (read V) X).
Proof.
  intros HV Hl HX. induction n as [|n [IH Hok]]; [done|]. rewrite !Nat.iter_succ, IH. by apply read_enc.
Qed.

(** The digest of [scrypt.cpp] is that of [crypto_scrypt.c] for the parameters
    of its name. *)
Lemma scrypt_1024_correct `{OpenSSLLaws} input :
  crypto_scrypt input input 1024 1 1 32 = inr (scrypt_1024_1_1_256 input).
Proof.
  unfold scrypt_1024_1_1_256. rewrite !PBKDF2_standard.
  destruct (pbkdf2_sha256_ok input input 1 128) as [Hl Hb]. set (B := pbkdf2_sha256 input input 1 128) in *.
  pose proof (enc_dec 32 B Hl Hb) as Henc. set (X := map _ (seq 0 32)) in *.
  assert (HX : words_ok 32 X).
  { split; [done|]. unfold X. apply Forall_map, Forall_true. intros i. apply Z.mod_pos_bound. lia. }
  pose proof (fill_enc 1024 X HX) as Hfill. destruct (Nat.iter 1024 fill (X, [])) as [X' V] eqn:EV.
  destruct Hfill as (Efill & HX' & HV & HVl).
  destruct (iter_read_enc V X' 1024 HV HVl HX') as [Eread _].
  assert (E : crypto_scrypt input input 1024 1 1 32 =
    inr (pbkdf2_sha256 input (concat [smix (take 128 (drop (0 * 128) B)) 1 1024]) 1 32)) by reflexivity.
  rewrite E. cbn [Nat.mul concat]. rewrite drop_0, take_ge, app_nil_r, <- Henc by lia.
  unfold smix. change (Z.to_nat 1024) with 1024%nat. rewrite Efill, Eread, PBKDF2_standard. unfold enc. reflexivity.
Qed.
End litecoin.
