(* ===== verification/Reader.v ===== *)
(** The [reader] interface of [include/bitcoin/bitcoin/utility/reader.hpp] and
    its two implementations: the bounds-checked [deserializer] over an iterator
    range and the [istream_reader] over a [std::istream]. Clients parse through
    the class [Reader]; what they may rely on is the class [ReaderLaws], which
    both implementations discharge. *)

From S2P Require Import Prelude Endian.

(** ** Parsers: a computation that reads and moves the reader *)

Definition rd (R A : Type) : Type := R -> A * R.

Definition rret {R A} (a : A) : rd R A := fun r => (a, r).

Definition rbind {R A B} (m : rd R A) (f : A -> rd R B) : rd R B :=
  fun r => let '(a, r') := m r in f a r'.

Declare Scope rd_scope.
Delimit Scope rd_scope with rd.
Bind Scope rd_scope with rd.
Notation "x <~ m ;; k" := (rbind m (fun x => k))
  (at level 100, m at next level, right associativity) : rd_scope.
Notation "m ;;; k" := (rbind m (fun _ => k))
  (at level 100, right associativity) : rd_scope.
#[global] Open Scope rd_scope.

Lemma rbind_eq {R A B} (m : rd R A) (f : A -> rd R B) r a r' :
  m r = (a, r') -> rbind m f r = f a r'.
Proof. unfold rbind. by intros ->. Qed.

(** ** The value a parser returns

    [always m P]: whatever the reader holds, [m] returns a value in [P]. *)

Definition always {R A} (m : rd R A) (P : A -> Prop) : Prop := forall r, P (fst (m r)).

Lemma always_bind {R A B} (m : rd R A) (f : A -> rd R B) (Q : A -> Prop) (P : B -> Prop) :
  always m Q -> (forall a, Q a -> always (f a) P) -> always (rbind m f) P.
Proof.
  intros Hm Hf r. unfold rbind. specialize (Hm r). destruct (m r) as [a r']. by apply Hf.
Qed.

Lemma always_step {R A B} (m : rd R A) (f : A -> rd R B) (P : B -> Prop) :
  (forall a, always (f a) P) -> always (rbind m f) P.
Proof. intros Hf. by apply (always_bind _ _ (fun _ => True)). Qed.

Lemma always_ret {R A} (a : A) (P : A -> Prop) : P a -> always (R := R) (rret a) P.
Proof. by intros Ha r. Qed.

(** ** The interface *)

Definition string_terminator : Z := 0.

Class Reader (R : Type) := {
  rd_valid : R -> bool;
  rd_invalidate : rd R unit;
  rd_is_exhausted : rd R bool;
  rd_peek_byte : rd R Z;
  rd_read_byte : rd R Z;
  rd_read_forward : nat -> rd R (list Z);
  rd_read_little_endian : nat -> rd R Z;
  rd_read_big_endian : nat -> rd R Z;
  rd_read_all : rd R (list Z);
  rd_read_bytes : Z -> rd R (list Z);
  rd_read_string_size : Z -> rd R (list Z);
  rd_skip : Z -> rd R unit
}.

(** What a client may rely on. [rd_at l] is a valid reader whose unread bytes
    are exactly [l]; once invalid a reader stays invalid, and the number of
    bytes returned does not depend on success. *)
Class ReaderLaws (R : Type) `{Reader R} := {
  rd_at : list Z -> R;
  rd_valid_at l : rd_valid (rd_at l) = true;
  rd_invalidate_false r : rd_valid (snd (rd_invalidate r)) = false;
  rd_is_exhausted_cons b l :
    byte_ok b -> rd_is_exhausted (rd_at (b :: l)) = (false, rd_at (b :: l));
  rd_is_exhausted_nil :
    fst (rd_is_exhausted (rd_at [])) = true /\
    rd_valid (snd (rd_is_exhausted (rd_at []))) = true;
  rd_is_exhausted_invalid r : rd_valid r = false -> rd_is_exhausted r = (true, r);
  rd_peek_byte_at b l : byte_ok b -> rd_peek_byte (rd_at (b :: l)) = (b, rd_at (b :: l));
  rd_read_byte_at b l : byte_ok b -> rd_read_byte (rd_at (b :: l)) = (b, rd_at l);
  rd_read_byte_nil : rd_valid (snd (rd_read_byte (rd_at []))) = false;
  rd_read_forward_at p l n :
    length p = n -> rd_read_forward n (rd_at (p ++ l)) = (p, rd_at l);
  rd_read_forward_short n l :
    (length l < n)%nat -> rd_valid (snd (rd_read_forward n (rd_at l))) = false;
  rd_read_forward_length n r : length (fst (rd_read_forward n r)) = n;
  rd_read_little_endian_at p l n :
    length p = n ->
    rd_read_little_endian n (rd_at (p ++ l)) = (from_little_endian n p, rd_at l);
  rd_read_little_endian_short n l :
    (length l < n)%nat -> rd_valid (snd (rd_read_little_endian n (rd_at l))) = false;
  rd_read_big_endian_at p l n :
    length p = n ->
    rd_read_big_endian n (rd_at (p ++ l)) = (from_big_endian n p, rd_at l);
  rd_read_all_at l :
    bytes_ok l ->
    fst (rd_read_all (rd_at l)) = l /\ rd_valid (snd (rd_read_all (rd_at l))) = true;
  rd_read_bytes_at p l n :
    zlen p = n -> rd_read_bytes n (rd_at (p ++ l)) = (p, rd_at l);
  rd_read_bytes_short n l :
    zlen l < n -> rd_valid (snd (rd_read_bytes n (rd_at l))) = false;
  rd_read_bytes_length n r : length (fst (rd_read_bytes n r)) = Z.to_nat n;
  rd_read_string_padded p k l n :
    zlen p + Z.of_nat k = n -> bytes_ok p -> Forall (fun c => c <> 0) p ->
    rd_read_string_size n (rd_at (p ++ repeat string_terminator k ++ l)) = (p, rd_at l);
  rd_skip_at p l n :
    zlen p = n -> rd_skip n (rd_at (p ++ l)) = (tt, rd_at l);
  rd_sticky_byte r : rd_valid r = false -> rd_valid (snd (rd_read_byte r)) = false;
  rd_sticky_peek r : rd_valid r = false -> rd_valid (snd (rd_peek_byte r)) = false;
  rd_sticky_forward n r :
    rd_valid r = false -> rd_valid (snd (rd_read_forward n r)) = false;
  rd_sticky_little n r :
    rd_valid r = false -> rd_valid (snd (rd_read_little_endian n r)) = false;
  rd_sticky_bytes n r :
    rd_valid r = false -> rd_valid (snd (rd_read_bytes n r)) = false
}.

(** ** Derived readers

    [read_variable_little_endian], [read_size_little_endian] and the prefixed
    [read_string] have the same text in both implementations. *)

Definition varint_two_bytes : Z := 0xfd.
Definition varint_four_bytes : Z := 0xfe.
Definition varint_eight_bytes : Z := 0xff.
Definition max_size_t : Z := 2 ^ 64 - 1.

Section Derived.
Context {R : Type} `{Reader R}.

Definition read_hash : rd R (list Z) := rd_read_forward 32.
Definition read_short_hash : rd R (list Z) := rd_read_forward 20.
Definition read_mini_hash : rd R (list Z) := rd_read_forward 6.

Definition read_2_bytes_little_endian : rd R Z := rd_read_little_endian 2.
Definition read_4_bytes_little_endian : rd R Z := rd_read_little_endian 4.
Definition read_8_bytes_little_endian : rd R Z := rd_read_little_endian 8.
Definition read_2_bytes_big_endian : rd R Z := rd_read_big_endian 2.
Definition read_4_bytes_big_endian : rd R Z := rd_read_big_endian 4.
Definition read_8_bytes_big_endian : rd R Z := rd_read_big_endian 8.

Definition read_variable_little_endian : rd R Z :=
  value <~ rd_read_byte ;;
  if value =? varint_eight_bytes then read_8_bytes_little_endian
  else if value =? varint_four_bytes then read_4_bytes_little_endian
  else if value =? varint_two_bytes then read_2_bytes_little_endian
  else rret value.

Definition read_size_little_endian : rd R Z :=
  size <~ read_variable_little_endian ;;
  if size <=? max_size_t then rret size
  else rd_invalidate ;;; rret 0.

Definition read_variable_big_endian : rd R Z :=
  value <~ rd_read_byte ;;
  if value =? varint_eight_bytes then read_8_bytes_big_endian
  else if value =? varint_four_bytes then read_4_bytes_big_endian
  else if value =? varint_two_bytes then read_2_bytes_big_endian
  else rret value.

Definition read_size_big_endian : rd R Z :=
  size <~ read_variable_big_endian ;;
  if size <=? max_size_t then rret size
  else rd_invalidate ;;; rret 0.

Definition read_string : rd R (list Z) :=
  size <~ read_size_little_endian ;; rd_read_string_size size.
End Derived.

(** ** [deserializer<Iterator, true>] *)

Module Deserializer.

Record t := mk { rest : list Z; valid : bool }.

Definition remaining (r : t) : Z := zlen (rest r).
Definition safe (size : Z) (r : t) : bool := size <=? remaining r.
Definition invalidate (r : t) : t := mk (rest r) false.

(** [if (!safe(size)) invalidate();] *)
Definition guard (size : Z) (r : t) : t :=
  if negb (safe size r) then invalidate r else r.

Definition is_exhausted : rd t bool :=
  fun r => (negb (valid r) || (remaining r =? 0), r).

(** The iterator is dereferenced only when valid, so not past the end. *)
Definition peek_byte : rd t Z := fun r =>
  let r := guard 1 r in
  (if valid r then hd 0 (rest r) else 0, r).

Definition read_byte : rd t Z := fun r =>
  let r := guard 1 r in
  if valid r then (hd 0 (rest r), mk (tl (rest r)) true) else (0, r).

Definition read_bytes (size : Z) : rd t (list Z) := fun r =>
  let r := guard size r in
  if negb (valid r) || (size =? 0) then (repeat 0 (Z.to_nat size), r)
  else (take (Z.to_nat size) (rest r), mk (drop (Z.to_nat size) (rest r)) true).

Definition read_all : rd t (list Z) := fun r => read_bytes (remaining r) r.

(** The characters before the first null of the [size] that are consumed. *)
Fixpoint until_null (cs : list Z) : list Z :=
  match cs with
  | [] => []
  | c :: rest => if c =? string_terminator then [] else c :: until_null rest
  end.

Definition read_string_size (size : Z) : rd t (list Z) := fun r =>
  let r := guard size r in
  if negb (valid r) then ([], r)
  else (until_null (take (Z.to_nat size) (rest r)),
        mk (drop (Z.to_nat size) (rest r)) true).

Definition skip (size : Z) : rd t unit := fun r =>
  let r := guard size r in
  if negb (valid r) then (tt, r)
  else (tt, mk (drop (Z.to_nat size) (rest r)) true).

Definition read_forward (size : nat) : rd t (list Z) := fun r =>
  let r := guard (Z.of_nat size) r in
  if negb (valid r) || (Z.of_nat size =? 0) then (repeat 0 size, r)
  else (take size (rest r), mk (drop size (rest r)) true).

Definition read_big_endian (size : nat) : rd t Z := fun r =>
  let r := guard (Z.of_nat size) r in
  if negb (valid r) then (0, r)
  else (from_big_endian size (rest r), mk (drop size (rest r)) true).

Definition read_little_endian (size : nat) : rd t Z := fun r =>
  let r := guard (Z.of_nat size) r in
  if negb (valid r) then (0, r)
  else (from_little_endian size (rest r), mk (drop size (rest r)) true).

#[global] Instance reader : Reader t := {
  rd_valid := valid;
  rd_invalidate := fun r => (tt, invalidate r);
  rd_is_exhausted := is_exhausted;
  rd_peek_byte := peek_byte;
  rd_read_byte := read_byte;
  rd_read_forward := read_forward;
  rd_read_little_endian := read_little_endian;
  rd_read_big_endian := read_big_endian;
  rd_read_all := read_all;
  rd_read_bytes := read_bytes;
  rd_read_string_size := read_string_size;
  rd_skip := skip
  }.

Lemma guard_ok size l : size <= zlen l -> guard size (mk l true) = mk l true.
Proof.
  intros H. unfold guard, safe, remaining. simpl.
  apply Z.leb_le in H. by rewrite H.
Qed.

Lemma guard_short size l : zlen l < size -> valid (guard size (mk l true)) = false.
Proof.
  intros H. unfold guard, safe, remaining. simpl.
  apply Z.leb_gt in H. by rewrite H.
Qed.

Lemma guard_sticky size r : valid r = false -> valid (guard size r) = false.
Proof. unfold guard. by case_if. Qed.

Lemma until_null_padded p k :
  Forall (fun c => c <> 0) p -> until_null (p ++ repeat string_terminator k) = p.
Proof.
  induction 1 as [|c p Hc _ IH]; simpl; [by destruct k|].
  apply Z.eqb_neq in Hc. change string_terminator with 0 in *. by rewrite Hc, IH.
Qed.

Ltac des_ok :=
  rewrite guard_ok by (rewrite ?zlen_app; zlen_lia); simpl.

#[global] Instance laws : ReaderLaws t.
Proof.
  refine {| rd_at := fun l => mk l true |}; simpl; try done.
  - intros r E. unfold is_exhausted. by rewrite E.
  - intros b l _. unfold peek_byte. by des_ok.
  - intros b l _. unfold read_byte. by des_ok.
  - intros p l n <-. unfold read_forward. des_ok.
    case_if; [destruct p; [done|zlen_lia]|]. by rewrite take_app_length, drop_app_length.
  - intros n l Hn. unfold read_forward.
    rewrite guard_short by zlen_lia. simpl. apply guard_short. zlen_lia.
  - intros n r. unfold read_forward. set (g := guard (Z.of_nat n) r).
    assert (Hg : valid g = true -> (n <= length (rest g))%nat).
    { subst g. unfold guard. case_if; [done|]. unfold safe, remaining in E.
      bool_to_prop. zlen_lia. }
    destruct (valid g); simpl; [|apply repeat_length].
    case_if; simpl; [apply repeat_length|]. rewrite length_take. specialize (Hg eq_refl). lia.
  - intros p l n <-. unfold read_little_endian. des_ok.
    unfold from_little_endian. by rewrite take_app_length, drop_app_length, take_ge by lia.
  - intros n l Hn. unfold read_little_endian.
    rewrite guard_short by zlen_lia. simpl. apply guard_short. zlen_lia.
  - intros p l n <-. unfold read_big_endian. des_ok.
    unfold from_big_endian. by rewrite take_app_length, drop_app_length, take_ge by lia.
  - intros l _. unfold read_all, read_bytes, remaining. simpl. des_ok.
    case_if; [destruct l; [done|zlen_lia]|]. simpl. unfold zlen.
    rewrite Nat2Z.id, take_ge by lia. done.
  - intros p l n <-. unfold read_bytes. des_ok.
    case_if; [destruct p; [done|zlen_lia]|].
    unfold zlen. by rewrite Nat2Z.id, take_app_length, drop_app_length.
  - intros n l Hn. unfold read_bytes.
    rewrite guard_short by zlen_lia. simpl. apply guard_short. zlen_lia.
  - intros n r. unfold read_bytes. set (g := guard n r).
    assert (Hg : valid g = true -> n <= zlen (rest g)).
    { subst g. unfold guard. case_if; [done|]. unfold safe, remaining in E.
      by bool_to_prop. }
    destruct (valid g); simpl; [|apply repeat_length].
    case_if; simpl; [apply repeat_length|]. rewrite length_take. specialize (Hg eq_refl). zlen_lia.
  - intros p k l n <- _ Hp. unfold read_string_size.
    assert (E : Z.to_nat (zlen p + Z.of_nat k) = length (p ++ repeat string_terminator k))
      by (rewrite length_app, repeat_length; zlen_lia).
    rewrite guard_ok by (rewrite !zlen_app; unfold zlen; rewrite repeat_length; lia). simpl.
    by rewrite E, app_assoc, take_app_length, drop_app_length, until_null_padded.
  - intros p l n <-. unfold skip. des_ok.
    unfold zlen. by rewrite Nat2Z.id, drop_app_length.
  - intros r E. unfold read_byte. rewrite guard_sticky by done. by apply guard_sticky.
  - intros r E. unfold peek_byte. by apply guard_sticky.
  - intros n r E. unfold read_forward. rewrite guard_sticky by done. by apply guard_sticky.
  - intros n r E. unfold read_little_endian. rewrite guard_sticky by done. by apply guard_sticky.
  - intros n r E. unfold read_bytes. rewrite guard_sticky by done. by apply guard_sticky.
Defined.

End Deserializer.

(** ** [istream_reader] over [std::istream]

    The stream keeps the unread characters, [eofbit] and [failbit]. An input
    function first constructs a sentry, which sets [failbit] when the stream is
    not [good()]; [peek] and [get] set [eofbit] at the end of the input, [get]
    and [read] then set [failbit] too. A byte that [read] does not overwrite in
    an uninitialized array is indeterminate in C++; it is zero here, and no law
    of the interface speaks of it. *)

Module Istream.

Record t := mk { rest : list Z; eofbit : bool; failbit : bool }.

Definition good (s : t) : bool := negb (eofbit s) && negb (failbit s).
Definition ok (s : t) : bool := negb (failbit s).
Definition set_fail (s : t) : t := mk (rest s) (eofbit s) true.
Definition eof : Z := -1.

(** [std::istream::peek] *)
Definition stream_peek : rd t Z := fun s =>
  if negb (good s) then (eof, set_fail s)
  else match rest s with
       | [] => (eof, mk [] true (failbit s))
       | c :: _ => (c, s)
       end.

(** [std::istream::get] *)
Definition stream_get : rd t Z := fun s =>
  if negb (good s) then (eof, set_fail s)
  else match rest s with
       | [] => (eof, mk [] true true)
       | c :: cs => (c, mk cs false false)
       end.

(** [std::istream::read] into a buffer of [size] zeros. *)
Definition stream_read (size : nat) : rd t (list Z) := fun s =>
  if negb (good s) then (repeat 0 size, set_fail s)
  else if decide (size <= length (rest s))%nat
       then (take size (rest s), mk (drop size (rest s)) false false)
       else (rest s ++ repeat 0 (size - length (rest s)), mk [] true true).

Definition invalidate (s : t) : t := set_fail s.

Definition empty : rd t bool := fun s =>
  let '(c, s) := stream_peek s in (c =? eof, s).

Definition is_exhausted : rd t bool := fun s =>
  if negb (ok s) then (true, s) else empty s.

Definition peek_byte : rd t Z := fun s => let '(c, s) := stream_peek s in (u8 c, s).
Definition read_byte : rd t Z := fun s => let '(c, s) := stream_get s in (u8 c, s).

(** [while (!is_exhausted()) out.push_back(read_byte())]; each turn takes a
    character, so one turn more than there are characters is enough. *)
Fixpoint read_all_loop (fuel : nat) (out : list Z) : rd t (list Z) := fun s =>
  match fuel with
  | O => (out, s)
  | S fuel =>
      let '(done, s) := is_exhausted s in
      if done then (out, s)
      else let '(b, s) := read_byte s in read_all_loop fuel (out ++ [b]) s
  end.

Definition read_all : rd t (list Z) := fun s =>
  read_all_loop (S (length (rest s))) [] s.

Definition read_bytes (size : Z) : rd t (list Z) := fun s =>
  if size >? 0 then stream_read (Z.to_nat size) s
  else (repeat 0 (Z.to_nat size), s).

(** [for (index = 0; index < size && !empty(); ++index)]; bounded as above. *)
Fixpoint read_string_loop (fuel : nat) (size : Z) (terminated : bool)
    (out : list Z) : rd t (list Z) := fun s =>
  match fuel with
  | O => (out, s)
  | S fuel =>
      if negb (0 <? size) then (out, s)
      else
        let '(e, s) := empty s in
        if e then (out, s)
        else
          let '(character, s) := read_byte s in
          let terminated := terminated || (character =? string_terminator) in
          read_string_loop fuel (size - 1) terminated
            (if negb terminated then out ++ [character] else out) s
  end.

Definition read_string_size (size : Z) : rd t (list Z) := fun s =>
  read_string_loop (S (length (rest s))) size false [] s.

Definition skip (size : Z) : rd t unit := fun s =>
  let '(_, s) := read_bytes size s in (tt, s).

Definition read_forward (size : nat) : rd t (list Z) := stream_read size.

(** [from_little_endian_stream_unsafe]: [n] turns from [i], while the stream
    is valid. *)
Fixpoint from_little_endian_stream (n : nat) (i out : Z) : rd t Z := fun s =>
  match n with
  | O => (out, s)
  | S n =>
      if negb (ok s) then (out, s)
      else
        let '(buffer, s) := stream_read 1 s in
        let value := hd 0 buffer in
        from_little_endian_stream n (i + 1) (Z.lor out (Z.shiftl value (8 * i))) s
  end.

(** [from_big_endian_stream_unsafe]: [i] counts down from [sizeof(Integer)]. *)
Fixpoint from_big_endian_stream (i : nat) (out : Z) : rd t Z := fun s =>
  match i with
  | O => (out, s)
  | S i' =>
      if negb (ok s) then (out, s)
      else
        let '(buffer, s) := stream_read 1 s in
        let value := hd 0 buffer in
        from_big_endian_stream i' (Z.lor out (Z.shiftl value (8 * (Z.of_nat i - 1)))) s
  end.

Definition read_little_endian (size : nat) : rd t Z := from_little_endian_stream size 0 0.
Definition read_big_endian (size : nat) : rd t Z := from_big_endian_stream size 0.

#[global] Instance reader : Reader t := {
  rd_valid := ok;
  rd_invalidate := fun s => (tt, invalidate s);
  rd_is_exhausted := is_exhausted;
  rd_peek_byte := peek_byte;
  rd_read_byte := read_byte;
  rd_read_forward := read_forward;
  rd_read_little_endian := read_little_endian;
  rd_read_big_endian := read_big_endian;
  rd_read_all := read_all;
  rd_read_bytes := read_bytes;
  rd_read_string_size := read_string_size;
  rd_skip := skip
  }.

Lemma u8_id b : byte_ok b -> u8 b = b.
Proof. intros H. apply wrap_small. exact H. Qed.

Lemma read_byte_at b l :
  byte_ok b -> read_byte (mk (b :: l) false false) = (b, mk l false false).
Proof. intros H. unfold read_byte. simpl. by rewrite u8_id. Qed.

Lemma empty_cons b l :
  byte_ok b -> empty (mk (b :: l) false false) = (false, mk (b :: l) false false).
Proof.
  intros H. unfold empty. simpl. replace (b =? eof) with false; [done|].
  symmetry. apply Z.eqb_neq. unfold eof, byte_ok in *. lia.
Qed.

Lemma read_all_loop_at fuel l out :
  (length l < fuel)%nat -> bytes_ok l ->
  read_all_loop fuel out (mk l false false) = (out ++ l, mk [] true false).
Proof.
  revert fuel out. induction l as [|b l IH]; intros [|fuel] out Hf Hl;
    simpl in Hf; try lia.
  - cbn. by rewrite app_nil_r.
  - apply bytes_ok_cons in Hl as [Hb Hl]. cbn [read_all_loop].
    unfold is_exhausted. cbn [ok failbit negb]. rewrite empty_cons by done.
    rewrite read_byte_at by done. rewrite IH by (done || lia).
    by rewrite <- app_assoc.
Qed.

(** A turn of the string loop that finds a character. *)
Lemma read_string_loop_cons fuel b l n t out :
  0 < n -> byte_ok b ->
  read_string_loop (S fuel) n t out (mk (b :: l) false false) =
  read_string_loop fuel (n - 1) (t || (b =? string_terminator))
    (if negb (t || (b =? string_terminator)) then out ++ [b] else out) (mk l false false).
Proof.
  intros Hn Hb. cbn [read_string_loop]. apply Z.ltb_lt in Hn. rewrite Hn. cbn [negb].
  by rewrite empty_cons, read_byte_at by done.
Qed.

Lemma read_string_loop_nulls fuel k l t out :
  (k < fuel)%nat ->
  read_string_loop fuel (Z.of_nat k) t out (mk (repeat string_terminator k ++ l) false false) =
  (out, mk l false false).
Proof.
  revert fuel t. induction k as [|k IH]; intros [|fuel] t Hf; try lia; [done|].
  cbn [repeat app]. rewrite read_string_loop_cons by (done || lia).
  rewrite Z.eqb_refl, orb_true_r. cbn [negb].
  replace (Z.of_nat (S k) - 1) with (Z.of_nat k) by lia. apply IH. lia.
Qed.

Lemma read_string_loop_at fuel p k l out :
  (length p + k < fuel)%nat -> bytes_ok p -> Forall (fun c => c <> 0) p ->
  read_string_loop fuel (zlen p + Z.of_nat k) false out
    (mk (p ++ repeat string_terminator k ++ l) false false) =
  (out ++ p, mk l false false).
Proof.
  revert fuel out. induction p as [|b p IH]; intros fuel out Hf Hp Hz; simpl in Hf.
  - rewrite app_nil_r. by apply read_string_loop_nulls.
  - apply bytes_ok_cons in Hp as [Hb Hp]. inversion_clear Hz as [|? ? Hb0 Hz'].
    destruct fuel as [|fuel]; [lia|]. cbn [app]. rewrite read_string_loop_cons by (done || zlen_lia).
    change string_terminator with 0 in *. apply Z.eqb_neq in Hb0. rewrite Hb0. cbn [orb negb].
    replace (zlen (b :: p) + Z.of_nat k - 1) with (zlen p + Z.of_nat k) by zlen_lia.
    rewrite IH by (done || lia). by rewrite <- app_assoc.
Qed.

Lemma stream_read_one_at b l :
  stream_read 1 (mk (b :: l) false false) = ([b], mk l false false).
Proof. cbn. by destruct l. Qed.

Lemma little_stream_at p l i out :
  from_little_endian_stream (length p) i out (mk (p ++ l) false false) =
  (from_little_endian_loop i out p, mk l false false).
Proof.
  revert i out. induction p as [|b p IH]; intros i out; [done|].
  cbn [length from_little_endian_stream app]. cbn [ok failbit negb].
  rewrite stream_read_one_at. apply IH.
Qed.

Lemma big_stream_at p l out :
  from_big_endian_stream (length p) out (mk (p ++ l) false false) =
  (from_big_endian_loop (zlen p) out p, mk l false false).
Proof.
  revert out. induction p as [|b p IH]; intros out; [done|].
  cbn [length from_big_endian_stream app from_big_endian_loop].
  cbn [ok failbit negb]. rewrite stream_read_one_at.
  cbn [hd]. replace (zlen (b :: p) - 1) with (zlen p) by zlen_lia.
  replace (Z.of_nat (S (length p)) - 1) with (zlen p) by zlen_lia. apply IH.
Qed.

Lemma ok_false s : ok s = false <-> failbit s = true.
Proof. unfold ok. by destruct (failbit s). Qed.

Lemma stream_read_sticky n s : ok s = false -> ok (snd (stream_read n s)) = false.
Proof.
  rewrite ok_false. intros E. unfold stream_read, good. rewrite E, andb_false_r. done.
Qed.

Lemma little_stream_sticky n i out s :
  ok s = false -> ok (snd (from_little_endian_stream n i out s)) = false.
Proof. intros E. destruct n; simpl; [done|]. by rewrite E. Qed.

Lemma little_stream_short n i out l :
  (length l < n)%nat ->
  ok (snd (from_little_endian_stream n i out (mk l false false))) = false.
Proof.
  revert i out l. induction n as [|n IH]; intros i out l Hl; [lia|].
  cbn [from_little_endian_stream ok failbit negb].
  destruct l as [|b l].
  - apply little_stream_sticky. done.
  - rewrite stream_read_one_at. apply IH. simpl in Hl. lia.
Qed.

Lemma stream_read_at p l n :
  length p = n -> stream_read n (mk (p ++ l) false false) = (p, mk l false false).
Proof.
  intros <-. unfold stream_read. simpl.
  rewrite decide_True by (rewrite length_app; lia).
  by rewrite take_app_length, drop_app_length.
Qed.

Lemma stream_read_short n l :
  (length l < n)%nat -> ok (snd (stream_read n (mk l false false))) = false.
Proof. intros H. unfold stream_read. simpl. rewrite decide_False by lia. done. Qed.

Lemma stream_read_length n s : length (fst (stream_read n s)) = n.
Proof.
  unfold stream_read. destruct (negb (good s)); simpl; [apply repeat_length|].
  case_decide; simpl; [rewrite length_take; lia|].
  rewrite length_app, repeat_length. lia.
Qed.

#[global] Instance laws : ReaderLaws t.
Proof.
  refine {| rd_at := fun l => mk l false false |}; simpl; try done.
  - intros b l Hb. unfold is_exhausted. cbn [ok failbit negb]. by apply empty_cons.
  - intros s E. unfold is_exhausted. by rewrite E.
  - intros b l Hb. unfold peek_byte. simpl. by rewrite u8_id.
  - intros b l Hb. by apply read_byte_at.
  - intros p l n Hn. by apply stream_read_at.
  - intros n l Hl. by apply stream_read_short.
  - intros n s. apply stream_read_length.
  - intros p l n <-. unfold read_little_endian, from_little_endian.
    rewrite take_ge by lia. apply little_stream_at.
  - intros n l Hl. by apply little_stream_short.
  - intros p l n <-. unfold read_big_endian, from_big_endian.
    rewrite take_ge by lia. apply big_stream_at.
  - intros l Hl. unfold read_all. by rewrite read_all_loop_at by (simpl; done || lia).
  - intros p l n <-. unfold read_bytes. case_if.
    + rewrite stream_read_at; [done|zlen_lia].
    + destruct p; [done|zlen_lia].
  - intros n l Hn. unfold read_bytes. case_if; [|zlen_lia].
    apply stream_read_short. zlen_lia.
  - intros n s. unfold read_bytes. case_if; [apply stream_read_length|apply repeat_length].
  - intros p k l n <- Hp Hz. unfold read_string_size. cbn [rest].
    by rewrite read_string_loop_at by (done || rewrite !length_app, repeat_length; lia).
  - intros p l n <-. unfold skip, read_bytes. case_if.
    + rewrite stream_read_at; [done|zlen_lia].
    + destruct p; [done|zlen_lia].
  - intros s E. apply ok_false in E. unfold read_byte, stream_get, good.
    by rewrite E, andb_false_r.
  - intros s E. apply ok_false in E. unfold peek_byte, stream_peek, good.
    by rewrite E, andb_false_r.
  - intros n s E. by apply stream_read_sticky.
  - intros n s E. by apply little_stream_sticky.
  - intros n s E. unfold read_bytes. case_if; [by apply stream_read_sticky|done].
Defined.

End Istream.
