(* ===== verification/Writer.v ===== *)
(** The [ostream_writer] of [src/utility/ostream_writer.cpp] and the codec
    relation between writers and readers. A writer operation is the list of the
    bytes it appends to the stream; a sequence of writes is their
    concatenation. *)

From S2P Require Import Prelude Endian Reader.

Definition write_bytes (data : list Z) : list Z := data.
Definition write_hash (value : list Z) : list Z := value.
Definition write_byte (value : Z) : list Z := [u8 value].
Definition write_2_bytes_little_endian (value : Z) : list Z := to_little_endian 2 value.
Definition write_4_bytes_little_endian (value : Z) : list Z := to_little_endian 4 value.
Definition write_8_bytes_little_endian (value : Z) : list Z := to_little_endian 8 value.
Definition write_2_bytes_big_endian (value : Z) : list Z := to_big_endian 2 value.
Definition write_4_bytes_big_endian (value : Z) : list Z := to_big_endian 4 value.
Definition write_8_bytes_big_endian (value : Z) : list Z := to_big_endian 8 value.

Definition max_uint8 : Z := 2 ^ 8 - 1.
Definition max_uint16 : Z := 2 ^ 16 - 1.
Definition max_uint32 : Z := 2 ^ 32 - 1.
Definition max_uint64 : Z := 2 ^ 64 - 1.

Definition write_variable_little_endian (value : Z) : list Z :=
  if value <? varint_two_bytes then write_byte value
  else if value <=? max_uint16 then
    write_byte varint_two_bytes ++ write_2_bytes_little_endian (u16 value)
  else if value <=? max_uint32 then
    write_byte varint_four_bytes ++ write_4_bytes_little_endian (u32 value)
  else write_byte varint_eight_bytes ++ write_8_bytes_little_endian value.

Definition write_size_little_endian (value : Z) : list Z :=
  write_variable_little_endian value.

Definition write_variable_big_endian (value : Z) : list Z :=
  if value <? varint_two_bytes then write_byte value
  else if value <=? max_uint16 then
    write_byte varint_two_bytes ++ write_2_bytes_big_endian (u16 value)
  else if value <=? max_uint32 then
    write_byte varint_four_bytes ++ write_4_bytes_big_endian (u32 value)
  else write_byte varint_eight_bytes ++ write_8_bytes_big_endian value.

(** [write_string(value, size)]: truncated or padded to exactly [size]. *)
Definition write_string_size (value : list Z) (size : Z) : list Z :=
  let length := Z.min size (zlen value) in
  take (Z.to_nat length) value ++
  repeat string_terminator (Z.to_nat (if length >=? size then 0 else size - length)).

(** [write_string(value)]: length prefixed. *)
Definition write_string (value : list Z) : list Z :=
  write_variable_little_endian (zlen value) ++ value.

(** [message::variable_uint_size] *)
Definition variable_uint_size (value : Z) : Z :=
  if value <? 0xfd then 1
  else if value <=? 0xffff then 3
  else if value <=? 0xffffffff then 5
  else 9.

(** ** The codec relation

    [reads m e v]: wherever the unread bytes begin with [e], [m] returns [v],
    consumes exactly [e] and leaves the reader valid. *)

Section Codec.
Context {R : Type} `{ReaderLaws R}.

Definition reads {A} (m : rd R A) (e : list Z) (v : A) : Prop :=
  forall l, m (rd_at (e ++ l)) = (v, rd_at l).

Lemma reads_ret {A} (v : A) : reads (rret v) [] v.
Proof. done. Qed.

Lemma reads_bind {A B} (m : rd R A) (f : A -> rd R B) e1 e2 a b :
  reads m e1 a -> reads (f a) e2 b -> reads (rbind m f) (e1 ++ e2) b.
Proof.
  intros Hm Hf l. rewrite <- app_assoc. erewrite rbind_eq by apply Hm. apply Hf.
Qed.

(** A last step that reads nothing. *)
Lemma reads_bind_nil {A B} (m : rd R A) (f : A -> rd R B) e a b :
  reads m e a -> reads (f a) [] b -> reads (rbind m f) e b.
Proof. intros Hm Hf. rewrite <- (app_nil_r e). by eapply reads_bind. Qed.

(** A first step that reads nothing. *)
Lemma reads_bind_pure {A B} (m : rd R A) (f : A -> rd R B) e a b :
  reads m [] a -> reads (f a) e b -> reads (rbind m f) e b.
Proof. intros Hm Hf. by apply (reads_bind m f [] e a b). Qed.

(** The closing test of every [from_data], [if (!source) reset();]. *)
Definition rd_check {A} (value reset : A) : rd R (A * bool) := fun r =>
  if rd_valid r then ((value, true), r) else ((reset, false), r).

Lemma reads_check {A} (v reset : A) : reads (rd_check v reset) [] (v, true).
Proof. intros l. unfold rd_check. simpl. by rewrite rd_valid_at. Qed.

Lemma always_check {A} (v reset : A) (P : A * bool -> Prop) :
  P (v, true) -> P (reset, false) -> always (rd_check v reset) P.
Proof. intros Hv Hr r. unfold rd_check. by destruct (rd_valid r). Qed.

Lemma reads_byte b : byte_ok b -> reads rd_read_byte [b] b.
Proof. intros Hb l. by apply rd_read_byte_at. Qed.

Lemma reads_write_byte b : byte_ok b -> reads rd_read_byte (write_byte b) b.
Proof.
  intros Hb. unfold write_byte, u8. rewrite wrap_small by exact Hb. by apply reads_byte.
Qed.

Lemma reads_forward p n : length p = n -> reads (rd_read_forward n) p p.
Proof. intros Hn l. by apply rd_read_forward_at. Qed.

Lemma reads_bytes p n : zlen p = n -> reads (rd_read_bytes n) (write_bytes p) p.
Proof. intros Hn l. by apply rd_read_bytes_at. Qed.

Lemma reads_le n v :
  in_width (8 * Z.of_nat n) v -> reads (rd_read_little_endian n) (to_little_endian n v) v.
Proof.
  intros Hv l. rewrite rd_read_little_endian_at by apply length_to_little_endian.
  by rewrite from_to_little_endian.
Qed.

Lemma reads_be n v :
  in_width (8 * Z.of_nat n) v -> reads (rd_read_big_endian n) (to_big_endian n v) v.
Proof.
  intros Hv l. rewrite rd_read_big_endian_at by apply length_to_big_endian.
  by rewrite from_to_big_endian.
Qed.

Lemma reads_variable v :
  in_width 64 v -> reads read_variable_little_endian (write_variable_little_endian v) v.
Proof.
  intros Hv. unfold read_variable_little_endian, write_variable_little_endian.
  unfold varint_two_bytes, varint_four_bytes, varint_eight_bytes in *.
  assert (Hu : forall w, 0 <= v <= 2 ^ w - 1 -> wrap w v = v)
    by (intros; apply wrap_small; unfold in_width; lia).
  unfold in_width in Hv. unfold max_uint16, max_uint32, u16, u32. case_if.
  - eapply reads_bind_nil; [apply reads_write_byte; unfold byte_ok; lia|].
    do 3 (case_if; [lia|]). apply reads_ret.
  - case_if; [|case_if].
    all: eapply reads_bind; [apply reads_write_byte; unfold byte_ok; lia|]; simpl.
    all: rewrite ?Hu by lia; apply reads_le; unfold in_width; simpl; lia.
Qed.

Lemma reads_size v :
  in_width 64 v -> reads read_size_little_endian (write_variable_little_endian v) v.
Proof.
  intros Hv. unfold read_size_little_endian.
  eapply reads_bind_nil; [by apply reads_variable|].
  unfold in_width, max_size_t in *. case_if; [apply reads_ret|lia].
Qed.

(** ** What an accepting reader has consumed

    [accepts m P]: on well-formed input [m] either invalidates the reader or
    consumes a prefix [e] of it and returns a value related to [e] by [P]. *)

Definition accepts {A} (m : rd R A) (P : A -> list Z -> Prop) : Prop :=
  forall l, bytes_ok l ->
    rd_valid (snd (m (rd_at l))) = false \/
    exists e l', l = e ++ l' /\ snd (m (rd_at l)) = rd_at l' /\ P (fst (m (rd_at l))) e.

Definition sticky {A} (m : rd R A) : Prop :=
  forall r, rd_valid r = false -> rd_valid (snd (m r)) = false.

Lemma sticky_bind {A B} (m : rd R A) (f : A -> rd R B) :
  sticky m -> (forall a, sticky (f a)) -> sticky (rbind m f).
Proof.
  intros Hm Hf r Hr. unfold rbind. specialize (Hm r Hr).
  destruct (m r) as [a r']. by apply Hf.
Qed.

Lemma sticky_ret {A} (a : A) : sticky (rret a).
Proof. by intros r. Qed.

Lemma sticky_invalidate {A} (k : rd R A) : sticky k -> sticky (rd_invalidate ;;; k).
Proof.
  intros Hk r _. unfold rbind. pose proof (rd_invalidate_false r) as Hi.
  destruct (rd_invalidate r) as [u r']. by apply Hk.
Qed.

Lemma sticky_check {A} (v reset : A) : sticky (rd_check v reset).
Proof. intros r Hr. unfold rd_check. by rewrite Hr. Qed.

Lemma sticky_byte : sticky rd_read_byte.
Proof. intros r. apply rd_sticky_byte. Qed.

Lemma sticky_bytes n : sticky (rd_read_bytes n).
Proof. intros r. apply rd_sticky_bytes. Qed.

Lemma sticky_forward n : sticky (rd_read_forward n).
Proof. intros r. apply rd_sticky_forward. Qed.

Lemma sticky_le n : sticky (rd_read_little_endian n).
Proof. intros r. apply rd_sticky_little. Qed.

Lemma sticky_variable : sticky read_variable_little_endian.
Proof.
  apply sticky_bind; [apply sticky_byte|]. intros v.
  repeat case_if; (apply sticky_le || apply sticky_ret).
Qed.

Lemma sticky_size : sticky read_size_little_endian.
Proof.
  apply sticky_bind; [apply sticky_variable|]. intros v.
  case_if; [apply sticky_ret|apply sticky_invalidate, sticky_ret].
Qed.

Lemma accepts_bind {A B} (m : rd R A) (f : A -> rd R B) P (Q : B -> list Z -> Prop) :
  accepts m P -> (forall a, sticky (f a)) ->
  (forall a e, bytes_ok e -> P a e -> accepts (f a) (fun b e' => Q b (e ++ e'))) ->
  accepts (rbind m f) Q.
Proof.
  intros Hm Hs Hf l Hl. unfold rbind. specialize (Hm l Hl).
  destruct (m (rd_at l)) as [a r']. simpl in Hm.
  destruct Hm as [Hv|(e1 & l1 & -> & -> & HP)]; [left; by apply Hs|].
  apply bytes_ok_app in Hl as [He1 Hl1].
  destruct (Hf a e1 He1 HP l1 Hl1) as [Hv|H2]; [by left|].
  destruct H2 as (e2 & l2 & -> & -> & HQ). right.
  exists (e1 ++ e2), l2. by rewrite <- app_assoc.
Qed.

(** A step that reads nothing and succeeds. *)
Lemma accepts_pure {A} (m : rd R A) (v : A) (Q : A -> list Z -> Prop) :
  reads m [] v -> Q v [] -> accepts m Q.
Proof. intros Hm HQ l _. right. exists [], l. by rewrite (Hm l : m (rd_at l) = _). Qed.

Lemma accepts_impl {A} (m : rd R A) (P Q : A -> list Z -> Prop) :
  accepts m P -> (forall a e, bytes_ok e -> P a e -> Q a e) -> accepts m Q.
Proof.
  intros Hm HPQ l Hl. destruct (Hm l Hl) as [|(e & l' & E & Hr & HP)]; [by left|].
  right. exists e, l'. split_and!; try done. apply HPQ; [|done].
  subst l. by apply bytes_ok_app in Hl as [? _].
Qed.

Lemma accepts_ret {A} (a : A) : accepts (rret a) (fun b e => b = a /\ e = []).
Proof. intros l _. right. by exists [], l. Qed.

Lemma accepts_invalidate {A} (k : rd R A) P :
  sticky k -> accepts (rd_invalidate ;;; k) P.
Proof.
  intros Hk l _. left. unfold rbind. pose proof (rd_invalidate_false (rd_at l)) as Hi.
  destruct (rd_invalidate (rd_at l)) as [u r']. by apply Hk.
Qed.

Lemma accepts_check {A} (v reset : A) :
  accepts (rd_check v reset) (fun b e => b = (v, true) /\ e = []).
Proof. intros l _. right. exists [], l. unfold rd_check. by rewrite rd_valid_at. Qed.

Lemma accepts_byte : accepts rd_read_byte (fun b e => e = [b] /\ byte_ok b).
Proof.
  intros [|b l] Hl; [left; apply rd_read_byte_nil|].
  apply bytes_ok_cons in Hl as [Hb _]. right. exists [b], l.
  by rewrite rd_read_byte_at.
Qed.

Lemma accepts_bytes n :
  0 <= n -> accepts (rd_read_bytes n) (fun p e => e = p /\ zlen p = n).
Proof.
  intros Hn l Hl. destruct (Z.lt_ge_cases (zlen l) n); [left; by apply rd_read_bytes_short|].
  assert (exists p q, l = p ++ q /\ zlen p = n) as (p & q & -> & E).
  { exists (take (Z.to_nat n) l), (drop (Z.to_nat n) l). rewrite take_drop.
    unfold zlen in *. rewrite length_take. split; [done|lia]. }
  right. exists p, q. by rewrite rd_read_bytes_at.
Qed.

Lemma accepts_le n :
  accepts (rd_read_little_endian n)
    (fun v e => e = to_little_endian n v /\ in_width (8 * Z.of_nat n) v).
Proof.
  intros l Hl. destruct (decide (length l < n)%nat); [left; by apply rd_read_little_endian_short|].
  assert (exists p q, l = p ++ q /\ length p = n) as (p & q & -> & E).
  { exists (take n l), (drop n l). rewrite take_drop, length_take. split; [done|lia]. }
  apply bytes_ok_app in Hl as [Hb _].
  right. exists p, q. rewrite rd_read_little_endian_at by exact E. simpl.
  rewrite from_little_endian_value by done. split_and!; try done.
  - rewrite <- E. by rewrite to_little_endian_le_value.
  - unfold in_width. pose proof (le_value_bound _ Hb) as Hv. unfold zlen in Hv. by rewrite E in Hv.
Qed.

Lemma reads_string s :
  in_width 64 (zlen s) -> bytes_ok s -> Forall (fun c => c <> 0) s ->
  reads read_string (write_string s) s.
Proof.
  intros Hl Hs Hz. eapply reads_bind; [by apply reads_size|].
  intros l. apply (rd_read_string_padded s 0 l); [zlen_lia|done|done].
Qed.

(** A string written into a field of fixed size is read back without its
    padding. *)
Lemma reads_string_size s n :
  zlen s <= n -> bytes_ok s -> Forall (fun c => c <> 0) s ->
  reads (rd_read_string_size n) (write_string_size s n) s.
Proof.
  intros Hl Hs Hz l. unfold write_string_size. rewrite Z.min_r by lia.
  unfold zlen. rewrite Nat2Z.id, take_ge by lia. fold (zlen s). rewrite <- app_assoc.
  apply rd_read_string_padded; [|done|done]. pose proof (zlen_nonneg s). case_if; lia.
Qed.
End Codec.

Lemma zlen_write_string_size s n : 0 <= n -> zlen (write_string_size s n) = n.
Proof.
  intros Hn. unfold write_string_size, zlen. pose proof (zlen_nonneg s).
  rewrite length_app, length_take, repeat_length. unfold zlen in *. case_if; lia.
Qed.

Lemma zlen_write_variable v :
  in_width 64 v -> zlen (write_variable_little_endian v) = variable_uint_size v.
Proof.
  intros Hv. unfold write_variable_little_endian, variable_uint_size.
  unfold varint_two_bytes, max_uint16, max_uint32.
  change (2 ^ 16 - 1) with 0xffff. change (2 ^ 32 - 1) with 0xffffffff.
  do 3 (case_if; [reflexivity|]). reflexivity.
Qed.

(** A variable length integer reads back from its encoding, through
    either reader and with any bytes after it, and the encoding has the
    announced size. *)
Lemma variable_roundtrip {R} `{ReaderLaws R} v :
  in_width 64 v ->
  reads read_variable_little_endian (write_variable_little_endian v) v /\
  reads read_size_little_endian (write_variable_little_endian v) v /\
  zlen (write_variable_little_endian v) = variable_uint_size v.
Proof.
  intros Hv. split_and!; [by apply reads_variable|by apply reads_size|by apply zlen_write_variable].
Qed.

Lemma bytes_ok_write_variable v : bytes_ok (write_variable_little_endian v).
Proof.
  unfold write_variable_little_endian, write_byte, write_2_bytes_little_endian,
    write_4_bytes_little_endian, write_8_bytes_little_endian.
  repeat case_if; rewrite ?bytes_ok_app, ?bytes_ok_cons; auto with bitprim.
Qed.

Lemma zlen_write_byte b : zlen (write_byte b) = 1.
Proof. done. Qed.

Lemma bytes_ok_write_byte b : bytes_ok (write_byte b).
Proof. apply bytes_ok_cons. auto with bitprim. Qed.

Lemma in_width_zlen {A} (l : list A) w : zlen l <= 2 ^ w - 1 -> in_width w (zlen l).
Proof. unfold in_width. pose proof (zlen_nonneg l). lia. Qed.

#[export] Hint Resolve bytes_ok_write_variable bytes_ok_write_byte : bitprim.
#[export] Hint Rewrite zlen_write_byte : bitprim.
