(* ===== verification/Binary.v ===== *)
(** Strings of bits packed into bytes: [src/utility/binary.cpp]. The most
    significant bit of the first block is the first bit, and the bits of the
    last block beyond the size are clear. The operations on blocks implement
    those on lists of bits. *)

From S2P Require Import Prelude Text Endian Reader Writer.

Module binary.

Record t := mk { blocks : list Z; final_block_excess : nat }.

Definition bits_per_block : nat := 8.

Definition blocks_size (bit_size : nat) : nat :=
  if (bit_size =? 0)%nat then 0%nat else ((bit_size - 1) / bits_per_block + 1)%nat.

Definition is_base2 (text : list Z) : bool := forallb (fun c => (c =? 48) || (c =? 49)) text.

Definition default : t := mk [] 0.

(** [std::vector::resize] with zeros *)
Definition resize_blocks (n : nat) (l : list Z) : list Z := take n l ++ repeat 0 (n - length l).

Definition resize (size : nat) (b : t) : t :=
  let blocks := resize_blocks (blocks_size size) (blocks b) in
  let offset := (size mod bits_per_block)%nat in
  if (0 <? offset)%nat then
    let excess := (bits_per_block - offset)%nat in
    let mask := u8 (Z.shiftl 0xFF (Z.of_nat excess)) in
    mk (alter (fun x => Z.land x mask) (length blocks - 1)%nat blocks) excess
  else mk blocks 0.

(** [binary(size_type, data_slice)] *)
Definition of_blocks (size : nat) (data : list Z) : t :=
  if (length data =? 0)%nat then default
  else resize size (mk (data ++ repeat 0 (blocks_size size - length data)) 0).

(** [binary(size_type, uint32_t)] *)
Definition of_number (size : nat) (number : Z) : t := of_blocks size (to_little_endian 4 number).

Definition get (b : t) (index : nat) : bool :=
  let block_index := (index / bits_per_block)%nat in
  let block := nth block_index (blocks b) 0 in
  let offset := (index - block_index * bits_per_block)%nat in
  let bitmask := u8 (Z.shiftl 1 (Z.of_nat (bits_per_block - offset - 1))) in
  Z.land block bitmask >? 0.

Definition size (b : t) : nat := (length (blocks b) * bits_per_block - final_block_excess b)%nat.

(** [operator<<] *)
Definition encoded (b : t) : list Z := map (fun i => if get b i then 49 else 48) (seq 0 (size b)).

Definition shift_left (distance : nat) (b : t) : t :=
  let initial_size := size b in
  let count := length (blocks b) in
  let destination_size := if (distance <? initial_size)%nat then (initial_size - distance)%nat else 0%nat in
  let block_offset := (distance / bits_per_block)%nat in
  let offset := (distance mod bits_per_block)%nat in
  let block i :=
    let trailing_bits :=
      if negb (offset =? 0)%nat && (block_offset + i + 1 <? count)%nat
      then Z.shiftr (nth (block_offset + i + 1) (blocks b) 0) (Z.of_nat (bits_per_block - offset)) else 0 in
    let leading_bits :=
      if (block_offset + i <? count)%nat
      then u8 (Z.shiftl (nth (block_offset + i) (blocks b) 0) (Z.of_nat offset)) else 0 in
    Z.lor leading_bits trailing_bits in
  resize destination_size (mk (map block (seq 0 count)) (final_block_excess b)).

(** The loop over the blocks, with the last value of [previous]. *)
Fixpoint shift_right_loop (offset : nat) (previous : Z) (l : list Z) : list Z * Z :=
  match l with
  | [] => ([], previous)
  | current :: l =>
      let leading_bits := u8 (Z.shiftl previous (Z.of_nat (bits_per_block - offset))) in
      let trailing_bits := Z.shiftr current (Z.of_nat offset) in
      let '(out, last) := shift_right_loop offset current l in
      (Z.lor leading_bits trailing_bits :: out, last)
  end.

Definition shift_right (distance : nat) (b : t) : t :=
  let initial_size := size b in
  let offset := (distance mod bits_per_block)%nat in
  let offset_blocks := (distance / bits_per_block)%nat in
  let destination_size := (initial_size + distance)%nat in
  let '(shifted, previous) := shift_right_loop offset 0 (blocks b) in
  let r := resize destination_size (mk (repeat 0 offset_blocks ++ shifted) (final_block_excess b)) in
  if (offset_blocks + length (blocks b) <? length (blocks r))%nat
  then mk (alter (fun _ => u8 (Z.shiftl previous (Z.of_nat (bits_per_block - offset)))) (length (blocks r) - 1)%nat (blocks r))
         (final_block_excess r)
  else r.

(** [blocks_[offset + i] |= other[i]] for each [i] *)
Fixpoint or_blocks (offset : nat) (other l : list Z) : list Z :=
  match other with
  | [] => l
  | x :: other => or_blocks (S offset) other (alter (fun y => Z.lor y x) offset l)
  end.

Definition append (b post : t) : t :=
  let block_offset := (size b / bits_per_block)%nat in
  let offset := (size b mod bits_per_block)%nat in
  let duplicate := shift_right offset (of_blocks (size post) (blocks post)) in
  let r := resize (size b + size post)%nat b in
  mk (or_blocks block_offset (blocks duplicate) (blocks r)) (final_block_excess r).

Definition prepend (b prior : t) : t :=
  let r := shift_right (size prior) b in
  mk (or_blocks 0 (blocks prior) (blocks r)) (final_block_excess r).

(** The sum of the arguments is that of [size_t]. *)
Definition substring (start length : Z) (b : t) : t :=
  let current_size := Z.of_nat (size b) in
  let start := if start >? current_size then current_size else start in
  let length := if (length =? max_uint64) || (u64 (start + length) >? current_size)
                then current_size - start else length in
  resize (Z.to_nat length) (shift_left (Z.to_nat start) (of_blocks (size b) (blocks b))).

Definition eqb (a b : t) : bool :=
  if negb (size a =? size b)%nat then false
  else forallb (fun i => Bool.eqb (get a i) (get b i)) (seq 0 (size a)).

Definition is_prefix_of (b : t) (field : list Z) : bool := eqb b (of_blocks (size b) field).
Definition is_prefix_of_number (b : t) (field : Z) : bool := is_prefix_of b (to_little_endian 4 field).
Definition is_prefix_of_binary (b field : t) : bool := is_prefix_of b (blocks field).

Definition assign (self other : t) : t := mk (blocks other) (final_block_excess other).

(** [in >> bitstring]: white space is skipped, and the string ends at the next. *)
Fixpoint token (text : list Z) : list Z :=
  match text with
  | c :: text => if is_space c then [] else c :: token text
  | [] => []
  end.

(** The loop of [operator>>]: the blocks that are complete, the last one and the
    number of bits it has left; [None]: a character is not a bit. *)
Fixpoint parse_loop (out : list Z) (block : Z) (bit_iterator : nat) (text : list Z) : option (list Z * Z * nat) :=
  match text with
  | [] => Some (out, block, bit_iterator)
  | c :: text =>
      if negb (c =? 48) && negb (c =? 49) then None
      else
        let block := if c =? 49 then Z.lor block (u8 (Z.shiftl 1 (Z.of_nat (bit_iterator - 1)))) else block in
        let bit_iterator := (bit_iterator - 1)%nat in
        if (bit_iterator =? 0)%nat then parse_loop (out ++ [block]) 0 bits_per_block text
        else parse_loop out block bit_iterator text
  end.

Definition of_string (bit_string : list Z) : t :=
  let bitstring := token (trim_left bit_string) in
  match parse_loop [] 0 bits_per_block bitstring with
  | None => default
  | Some (out, block, bit_iterator) =>
      let out := if negb (bit_iterator =? bits_per_block)%nat then out ++ [block] else out in
      resize (length bitstring) (mk out 0)
  end.

(** ** Blocks as bits *)

Definition byte_bits (x : Z) : list bool := map (fun i => Z.testbit x (7 - Z.of_nat i)) (seq 0 8).
Definition flat (l : list Z) : list bool := concat (map byte_bits l).
Notation zeros n := (repeat false n).

(** [b] holds the bits [bs]. *)
Definition represents (b : t) (bs : list bool) : Prop :=
  bytes_ok (blocks b) /\ (final_block_excess b < 8)%nat /\ flat (blocks b) = bs ++ zeros (final_block_excess b).

Lemma length_flat l : length (flat l) = (8 * length l)%nat.
Proof. unfold flat. induction l as [|x l IH]; [done|]. cbn [map concat]. rewrite length_app, IH. simpl. lia. Qed.

Lemma flat_app l k : flat (l ++ k) = flat l ++ flat k.
Proof. unfold flat. by rewrite map_app, concat_app. Qed.

Lemma flat_cons x l : flat (x :: l) = byte_bits x ++ flat l.
Proof. done. Qed.

Lemma flat_zeros n : flat (repeat 0 n) = zeros (8 * n).
Proof.
  induction n as [|n IH]; [done|]. replace (8 * S n)%nat with (8 + 8 * n)%nat by lia.
  rewrite repeat_app. cbn [repeat]. change (0 :: repeat 0 n) with ([0] ++ repeat 0 n). by rewrite flat_app, IH.
Qed.

Lemma flat_take n l : flat (take n l) = take (8 * n) (flat l).
Proof.
  revert n. induction l as [|x l IH]; intros [|n]; [done|done|done|].
  change (take (S n) (x :: l)) with ([x] ++ take n l). change (x :: l) with ([x] ++ l).
  rewrite !flat_app, IH. rewrite take_app_ge by (rewrite length_flat; simpl; lia).
  rewrite length_flat. simpl (length [x]). do 2 f_equal. lia.
Qed.

Lemma flat_drop n l : flat (drop n l) = drop (8 * n) (flat l).
Proof.
  rewrite <- (take_drop n l) at 2. rewrite flat_app. destruct (decide (n <= length l)%nat).
  - rewrite drop_app_length'; [done|]. rewrite length_flat, length_take. lia.
  - rewrite (drop_ge l) by lia. rewrite app_nil_r, drop_ge; [done|]. rewrite length_flat, length_take. lia.
Qed.

(** The bytes of the offsets below eight. *)
Lemma block_forall (f : nat -> Z -> bool) :
  forallb (fun o => forallb (f o) (map Z.of_nat (seq 0 256))) (seq 0 8) = true ->
  forall o x, (o < 8)%nat -> byte_ok x -> f o x = true.
Proof.
  intros Hf o x Ho Hx. rewrite forallb_forall in Hf. apply byte_forall; [|done]. apply Hf, in_seq. lia.
Qed.

Lemma bits_mask o x : (o < 8)%nat -> byte_ok x ->
  byte_bits (Z.land x (u8 (Z.shiftl 0xFF (Z.of_nat o)))) = take (8 - o) (byte_bits x) ++ zeros o /\
  byte_ok (Z.land x (u8 (Z.shiftl 0xFF (Z.of_nat o)))).
Proof.
  intros Ho Hx. pose proof (block_forall (fun o x =>
    bool_decide (byte_bits (Z.land x (u8 (Z.shiftl 0xFF (Z.of_nat o)))) = take (8 - o) (byte_bits x) ++ zeros o) &&
    bool_decide (byte_ok (Z.land x (u8 (Z.shiftl 0xFF (Z.of_nat o))))))) as Hf.
  specialize (Hf ltac:(by vm_compute) o x Ho Hx). cbv beta in Hf. rewrite andb_true_iff, !bool_decide_eq_true in Hf. done.
Qed.

Lemma bits_shiftl o x : (o < 8)%nat -> byte_ok x -> byte_bits (u8 (Z.shiftl x (Z.of_nat o))) = drop o (byte_bits x) ++ zeros o.
Proof.
  intros Ho Hx. apply (bool_decide_eq_true_1 _). revert o x Ho Hx.
  apply (block_forall (fun o x => bool_decide (byte_bits (u8 (Z.shiftl x (Z.of_nat o))) = drop o (byte_bits x) ++ zeros o))).
  by vm_compute.
Qed.

Lemma bits_shiftl_high o x : (o < 8)%nat -> byte_ok x ->
  byte_bits (u8 (Z.shiftl x (Z.of_nat (8 - o)))) = drop (8 - o) (byte_bits x) ++ zeros (8 - o).
Proof.
  intros Ho Hx. apply (bool_decide_eq_true_1 _). revert o x Ho Hx.
  apply (block_forall (fun o x => bool_decide (byte_bits (u8 (Z.shiftl x (Z.of_nat (8 - o)))) = drop (8 - o) (byte_bits x) ++ zeros (8 - o)))).
  by vm_compute.
Qed.

Lemma bits_shiftr o x : (o < 8)%nat -> byte_ok x ->
  byte_bits (Z.shiftr x (Z.of_nat o)) = zeros o ++ take (8 - o) (byte_bits x) /\ byte_ok (Z.shiftr x (Z.of_nat o)).
Proof.
  intros Ho Hx. pose proof (block_forall (fun o x =>
    bool_decide (byte_bits (Z.shiftr x (Z.of_nat o)) = zeros o ++ take (8 - o) (byte_bits x)) &&
    bool_decide (byte_ok (Z.shiftr x (Z.of_nat o))))) as Hf.
  specialize (Hf ltac:(by vm_compute) o x Ho Hx). cbv beta in Hf. rewrite andb_true_iff, !bool_decide_eq_true in Hf. done.
Qed.

Lemma bits_shiftr_high o x : (o < 8)%nat -> byte_ok x ->
  byte_bits (Z.shiftr x (Z.of_nat (8 - o))) = zeros (8 - o) ++ take o (byte_bits x) /\ byte_ok (Z.shiftr x (Z.of_nat (8 - o))).
Proof.
  intros Ho Hx. pose proof (block_forall (fun o x =>
    bool_decide (byte_bits (Z.shiftr x (Z.of_nat (8 - o))) = zeros (8 - o) ++ take o (byte_bits x)) &&
    bool_decide (byte_ok (Z.shiftr x (Z.of_nat (8 - o)))))) as Hf.
  specialize (Hf ltac:(by vm_compute) o x Ho Hx). cbv beta in Hf. rewrite andb_true_iff, !bool_decide_eq_true in Hf. done.
Qed.

Lemma bits_lor x y : byte_bits (Z.lor x y) = zip_with orb (byte_bits x) (byte_bits y).
Proof. unfold byte_bits. cbn [seq map zip_with]. by rewrite !Z.lor_spec. Qed.

Lemma or_zeros_r l : zip_with orb l (zeros (length l)) = l.
Proof. induction l as [|b l IH]; [done|]. cbn [length repeat zip_with]. by rewrite orb_false_r, IH. Qed.

Lemma or_zeros_l l : zip_with orb (zeros (length l)) l = l.
Proof. induction l as [|b l IH]; [done|]. cbn [length repeat zip_with]. by rewrite IH. Qed.

(** A list over zeros next to zeros over a list. *)
Lemma or_beside l k m n : length l = n -> length k = m -> zip_with orb (l ++ zeros m) (zeros n ++ k) = l ++ k.
Proof.
  intros <- <-. rewrite zip_with_app by (by rewrite repeat_length). by rewrite or_zeros_r, or_zeros_l.
Qed.

(** ** Sizes *)

Lemma blocks_size_bounds n : (n <= 8 * blocks_size n < n + 8)%nat.
Proof.
  unfold blocks_size, bits_per_block. destruct (Nat.eqb_spec n 0); [lia|].
  pose proof (Nat.div_mod_eq (n - 1) 8). pose proof (Nat.mod_upper_bound (n - 1) 8 ltac:(lia)). lia.
Qed.

Lemma represents_size b bs : represents b bs -> size b = length bs.
Proof.
  intros (_ & He & Hf). apply (f_equal length) in Hf. rewrite length_flat, length_app, repeat_length in Hf.
  unfold size, bits_per_block. lia.
Qed.

Lemma alter_last (f : Z -> Z) l x : alter f (length (l ++ [x]) - 1)%nat (l ++ [x]) = l ++ [f x].
Proof.
  rewrite length_app. simpl (length [x]). replace (length l + 1 - 1)%nat with (length l + 0)%nat by lia.
  by rewrite alter_app_r.
Qed.

Lemma bytes_ok_resize n l : bytes_ok l -> bytes_ok (resize_blocks n l).
Proof. intros Hl. apply bytes_ok_app. split; [by apply Forall_take|apply bytes_ok_repeat]. Qed.

Lemma length_resize_blocks n l : length (resize_blocks n l) = n.
Proof. unfold resize_blocks. rewrite length_app, length_take, repeat_length. lia. Qed.

(** The first bits of the blocks, whatever they hold, and zeros after them. *)
Definition fit (n : nat) (bs : list bool) : list bool := take n bs ++ zeros (n - length bs).

Lemma length_fit n bs : length (fit n bs) = n.
Proof. unfold fit. rewrite length_app, length_take, repeat_length. lia. Qed.

Lemma take_zeros n m : take n (zeros m) = zeros (n `min` m).
Proof. revert m. induction n as [|n IH]; intros [|m]; simpl; [done|done|done|]. by rewrite IH. Qed.

Lemma zeros_app n m : zeros n ++ zeros m = zeros (n + m).
Proof. by rewrite repeat_app. Qed.

Lemma fit_app_zeros n bs m : fit n (bs ++ zeros m) = fit n bs.
Proof.
  unfold fit. rewrite take_app, take_zeros, length_app, repeat_length, <- app_assoc, zeros_app.
  do 2 f_equal. lia.
Qed.

Lemma fit_exact bs : fit (length bs) bs = bs.
Proof. unfold fit. by rewrite take_ge, Nat.sub_diag, app_nil_r by lia. Qed.

Lemma fit_take n m bs : (n <= m)%nat -> take n (fit m bs) = fit n bs.
Proof.
  intros Hn. unfold fit. rewrite take_app, take_take, take_zeros, length_take.
  replace (n `min` m)%nat with n by lia. do 2 f_equal. lia.
Qed.

Lemma flat_resize k l : flat (resize_blocks k l) = fit (8 * k) (flat l).
Proof.
  unfold resize_blocks, fit. rewrite flat_app, flat_take, flat_zeros, length_flat. do 2 f_equal. lia.
Qed.

Lemma resize_flat n l e : bytes_ok l -> represents (resize n (mk l e)) (fit n (flat l)).
Proof.
  intros Hl. unfold resize. cbn [blocks]. pose proof (blocks_size_bounds n) as Hk.
  set (k := blocks_size n) in *. pose proof (bytes_ok_resize k l Hl) as Hb.
  pose proof (flat_resize k l) as Hf. pose proof (length_resize_blocks k l) as Hlen.
  set (l' := resize_blocks k l) in *. unfold bits_per_block.
  pose proof (Nat.div_mod_eq n 8) as Hdm. pose proof (Nat.mod_upper_bound n 8 ltac:(lia)) as Hmod.
  destruct (Nat.ltb_spec 0 (n mod 8)) as [Ho|Ho].
  - set (o := (n mod 8)%nat) in *. assert (Hn : (n = 8 * (k - 1) + o)%nat) by lia.
    destruct (exists_last (l := l')) as (init & x & E); [intros E; rewrite E in Hlen; simpl in Hlen; lia|].
    rewrite E in *. apply bytes_ok_app in Hb as [Hi Hx%Forall_inv]. rewrite alter_last.
    destruct (bits_mask (8 - o) x ltac:(lia) Hx) as [Hbits Hbyte].
    split; [apply bytes_ok_app; split; [done|by apply Forall_cons_2; [|apply Forall_nil_2]]|].
    split; [cbn [final_block_excess]; lia|]. cbn [blocks final_block_excess].
    rewrite <- (fit_take n (8 * k)) by lia. rewrite <- Hf, !flat_app.
    unfold flat at 2 4. cbn [map concat]. rewrite !app_nil_r, Hbits.
    rewrite length_app in Hlen. simpl in Hlen.
    rewrite take_app_ge by (rewrite length_flat; lia). rewrite length_flat, <- app_assoc.
    do 3 f_equal. lia.
  - split; [done|]. split; [simpl; lia|]. cbn [blocks final_block_excess].
    rewrite app_nil_r, Hf. do 2 f_equal. lia.
Qed.

Lemma resize_represents n b bs : represents b bs -> represents (resize n b) (fit n bs).
Proof.
  intros (Hb & _ & Hf). destruct b as [l e]. cbn [blocks final_block_excess] in *.
  pose proof (resize_flat n l e Hb) as Hr. by rewrite Hf, fit_app_zeros in Hr.
Qed.

Lemma of_blocks_represents n l :
  bytes_ok l -> represents (of_blocks n l) (if (length l =? 0)%nat then [] else fit n (flat l)).
Proof.
  intros Hl. unfold of_blocks. destruct (length l =? 0)%nat; [split; [apply bytes_ok_nil|split; [simpl; lia|done]]|].
  rewrite <- (fit_app_zeros n (flat l) (8 * (blocks_size n - length l))), <- flat_zeros, <- flat_app.
  apply resize_flat. apply bytes_ok_app. split; [done|apply bytes_ok_repeat].
Qed.

(** The copy that is made through this constructor. *)
Lemma of_blocks_same b bs : represents b bs -> represents (of_blocks (size b) (blocks b)) bs.
Proof.
  intros Hr. pose proof (represents_size b bs Hr) as Hs. destruct Hr as (Hb & He & Hf).
  pose proof (of_blocks_represents (size b) (blocks b) Hb) as Ho.
  destruct (Nat.eqb_spec (length (blocks b)) 0) as [E|E].
  - apply nil_length_inv in E. rewrite E in Hf. destruct bs; [|done]. by rewrite E in *.
  - rewrite Hf, fit_app_zeros, Hs, fit_exact in Ho. by rewrite Hs.
Qed.

(** ** Shifts *)

Lemma fit_le n l : (n <= length l)%nat -> fit n l = take n l.
Proof. intros Hn. unfold fit. replace (n - length l)%nat with 0%nat by lia. apply app_nil_r. Qed.

Lemma fit_fit n m l : (n <= m)%nat -> fit n (fit m l) = fit n l.
Proof. intros Hn. by rewrite fit_le, fit_take by (rewrite ?length_fit; lia). Qed.

Lemma fit_split a b l : fit (a + b) l = fit a l ++ fit b (drop a l).
Proof.
  unfold fit. rewrite length_drop, <- take_take_drop. destruct (decide (a <= length l)%nat).
  - replace (a - length l)%nat with 0%nat by lia. cbn [repeat]. rewrite app_nil_r, <- app_assoc.
    do 3 f_equal. lia.
  - rewrite (drop_ge l) by lia. rewrite !take_nil, !app_nil_r, <- app_assoc. cbn [app].
    rewrite zeros_app. do 2 f_equal. lia.
Qed.

Lemma fit_app a b l : length l = a -> forall k, fit (a + b) (l ++ k) = l ++ fit b k.
Proof.
  intros <- k. rewrite fit_split, drop_app_length. f_equal. by rewrite fit_le, take_app_length by (rewrite length_app; lia).
Qed.

Lemma lor_byte x y : byte_ok x -> byte_ok y -> byte_ok (Z.lor x y).
Proof.
  unfold byte_ok. intros Hx Hy. assert (Hn : 0 <= Z.lor x y) by (apply Z.lor_nonneg; lia). split; [done|].
  assert (Hm : Z.lor x y = Z.lor x y mod 2 ^ 8); [|rewrite Hm; by apply Z.mod_pos_bound].
  rewrite <- Z.land_ones, Z.land_lor_distr_l, !Z.land_ones, !Z.mod_small by lia. done.
Qed.

(** A byte made of the end of one and the begin of the next. *)
Definition straddle (o : nat) (x y : Z) : Z :=
  Z.lor (u8 (Z.shiftl x (Z.of_nat o))) (Z.shiftr y (Z.of_nat (8 - o))).

Lemma straddle_bits o x y : (o < 8)%nat -> byte_ok x -> byte_ok y ->
  byte_bits (straddle o x y) = drop o (byte_bits x) ++ take o (byte_bits y) /\ byte_ok (straddle o x y).
Proof.
  intros Ho Hx Hy. destruct (bits_shiftr_high o y Ho Hy) as [Hb Hr]. split.
  - unfold straddle. rewrite bits_lor, bits_shiftl, Hb by done. apply or_beside.
    + rewrite length_drop. simpl. lia.
    + rewrite length_take. simpl. lia.
  - unfold straddle. apply (lor_byte); [apply u8_byte|done].
Qed.

Lemma nth_byte l i : bytes_ok l -> byte_ok (nth i l 0).
Proof.
  intros Hl. destruct (nth_in_or_default i l 0) as [Hin| ->]; [|unfold byte_ok; lia].
  unfold bytes_ok in Hl. rewrite List.Forall_forall in Hl. by apply Hl.
Qed.

Lemma byte_shiftr x : byte_ok x -> Z.shiftr x (Z.of_nat (8 - 0)) = 0.
Proof. intros Hx. rewrite Z.shiftr_div_pow2 by lia. apply Z.div_small. exact Hx. Qed.

Lemma fit_head o l : (o <= 8)%nat -> take o (byte_bits (nth 0 l 0)) = fit o (flat l).
Proof.
  intros Ho. destruct l as [|x l].
  - unfold fit, flat. cbn [nth map concat]. rewrite take_nil. change (byte_bits 0) with (zeros 8).
    rewrite take_zeros. cbn [app length]. f_equal. lia.
  - rewrite fit_le by (rewrite length_flat; simpl; lia). change (x :: l) with ([x] ++ l). rewrite flat_app.
    unfold flat at 1. cbn [map concat nth]. rewrite app_nil_r, take_app_le; [done|simpl; lia].
Qed.

(** The loop of the left shift. *)
Lemma straddle_flat o n l : (o < 8)%nat -> bytes_ok l ->
  flat (map (fun i => straddle o (nth i l 0) (nth (i + 1) l 0)) (seq 0 n)) = fit (8 * n) (drop o (flat l)) /\
  bytes_ok (map (fun i => straddle o (nth i l 0) (nth (i + 1) l 0)) (seq 0 n)).
Proof.
  intros Ho. revert l. induction n as [|n IH]; intros l Hl; [split; [done|apply bytes_ok_nil]|].
  cbn [seq map]. rewrite <- seq_shift, map_map.
  rewrite (map_ext _ (fun i => straddle o (nth i (drop 1 l) 0) (nth (i + 1) (drop 1 l) 0))).
  2:{ intros i. destruct l as [|x l]; [|done]. by destruct i. }
  destruct (IH (drop 1 l)) as [Hf Hb]; [by apply Forall_drop|].
  destruct (straddle_bits o (nth 0 l 0) (nth 1 l 0)) as [Hs Hsb]; [done|by apply nth_byte|by apply nth_byte|].
  split; [|by apply Forall_cons_2].
  change (?x :: ?k) with ([x] ++ k). rewrite flat_app, Hf. unfold flat at 1. cbn [map concat Nat.add].
  rewrite Hs, app_nil_r, <- app_assoc.
  replace (nth 1 l 0) with (nth 0 (drop 1 l) 0) by (by destruct l as [|? []]).
  rewrite fit_head by lia. rewrite <- fit_split. replace (8 * S n)%nat with ((8 - o) + (o + 8 * n))%nat by lia.
  destruct l as [|x l].
  - unfold flat. cbn [drop map concat nth]. rewrite drop_nil. change (byte_bits 0) with (zeros 8).
    unfold fit. rewrite !take_nil. cbn [app length]. rewrite !Nat.sub_0_r.
    replace 8%nat with (o + (8 - o))%nat at 1 by lia.
    rewrite repeat_app, drop_app_length' by (by rewrite repeat_length). by rewrite zeros_app.
  - cbn [drop nth]. change (x :: l) with ([x] ++ l). rewrite flat_app. unfold flat at 2. cbn [map concat].
    rewrite app_nil_r, drop_app_le by (simpl; lia). rewrite fit_app; [done|]. rewrite length_drop. simpl. lia.
Qed.

Lemma shift_left_represents n b bs : represents b bs -> represents (shift_left n b) (drop n bs).
Proof.
  intros Hr. pose proof (represents_size b bs Hr) as Hs. destruct Hr as (Hb & He & Hf).
  unfold shift_left. rewrite Hs. unfold bits_per_block. set (l := blocks b) in *.
  set (k := (n / 8)%nat). set (o := (n mod 8)%nat).
  assert (Hn : n = (8 * k + o)%nat) by apply Nat.div_mod_eq.
  assert (Ho : (o < 8)%nat) by (apply Nat.mod_upper_bound; lia).
  rewrite (map_ext _ (fun i => straddle o (nth i (drop k l) 0) (nth (i + 1) (drop k l) 0))).
  2:{ intros i. unfold straddle. rewrite !nth_skipn, Nat.add_assoc. f_equal.
      - destruct (Nat.ltb_spec (k + i) (length l)); [done|].
        rewrite nth_overflow by done. by rewrite Z.shiftl_0_l.
      - destruct (Nat.ltb_spec (k + i + 1) (length l)) as [Hi|Hi].
        + destruct (Nat.eqb_spec o 0) as [->|]; [|done]. cbn [negb andb].
          by rewrite byte_shiftr by (by apply nth_byte).
        + rewrite nth_overflow by done. rewrite andb_false_r. by rewrite Z.shiftr_0_l. }
  destruct (straddle_flat o (length l) (drop k l) Ho) as [Hsf Hsb]; [by apply Forall_drop|].
  set (l' := map _ _) in *. pose proof (resize_flat (if (n <? length bs)%nat then (length bs - n)%nat else 0%nat) l' (final_block_excess b) Hsb) as Hr.
  rewrite Hsf, flat_drop, drop_drop, <- Hn, Hf in Hr. revert Hr. apply (f_equal length) in Hf.
  rewrite length_flat, length_app, repeat_length in Hf. rewrite fit_fit by (case_match; lia).
  destruct (Nat.ltb_spec n (length bs)) as [Hlt|Hge].
  - by rewrite drop_app_le, fit_app_zeros, <- length_drop, fit_exact by lia.
  - by rewrite (drop_ge bs n) by lia.
Qed.

(** The loop of the right shift: what leaves the blocks is the end of the last. *)
Lemma shift_right_flat o previous l : (o < 8)%nat -> byte_ok previous -> bytes_ok l ->
  let '(out, last) := shift_right_loop o previous l in
  flat out ++ drop (8 - o) (byte_bits last) = drop (8 - o) (byte_bits previous) ++ flat l /\
  bytes_ok out /\ byte_ok last /\ length out = length l.
Proof.
  intros Ho. revert previous. induction l as [|x l IH]; intros previous Hp Hl; cbn [shift_right_loop].
  - split_and!; [by rewrite app_nil_r|apply bytes_ok_nil|done|done].
  - apply bytes_ok_cons in Hl as [Hx Hl]. specialize (IH x Hx Hl).
    destruct (shift_right_loop o x l) as [out last]. destruct IH as (Hf & Hb & Hlast & Hlen).
    unfold bits_per_block. destruct (bits_shiftr o x Ho Hx) as [Hbits Hbyte]. split_and!.
    + change (?y :: out) with ([y] ++ out). rewrite flat_app, <- app_assoc, Hf.
      unfold flat at 1. cbn [map concat]. rewrite app_nil_r, bits_lor, bits_shiftl_high, Hbits by done.
      rewrite or_beside; [|rewrite length_drop; simpl; lia|rewrite length_take; simpl; lia].
      change (x :: l) with ([x] ++ l). rewrite flat_app, <- !app_assoc. f_equal.
      unfold flat at 2. cbn [map concat]. rewrite app_nil_r, app_assoc. by rewrite take_drop.
    + apply Forall_cons_2; [|done]. apply lor_byte; [apply u8_byte|done].
    + done.
    + simpl. by rewrite Hlen.
Qed.

Lemma length_blocks_resize n b : length (blocks (resize n b)) = blocks_size n.
Proof.
  unfold resize. case_match; cbn [blocks]; rewrite ?length_alter; apply length_resize_blocks.
Qed.

Lemma represents_length b bs : represents b bs -> (8 * length (blocks b) = length bs + final_block_excess b)%nat.
Proof.
  intros (_ & _ & Hf). apply (f_equal length) in Hf. by rewrite length_flat, length_app, repeat_length in Hf.
Qed.

(** Only the last block of a representation is replaced. *)
Lemma represents_last b bs init x y bs' :
  represents b bs -> blocks b = init ++ [x] -> byte_ok y ->
  flat init ++ byte_bits y = bs' ++ zeros (final_block_excess b) ->
  represents (mk (alter (fun _ => y) (length (blocks b) - 1)%nat (blocks b)) (final_block_excess b)) bs'.
Proof.
  intros (Hb & He & _) E Hy Hf. rewrite E in *. rewrite alter_last. apply bytes_ok_app in Hb as [Hi _].
  split; [apply bytes_ok_app; split; [done|by apply Forall_cons_2; [|apply Forall_nil_2]]|].
  split; [done|]. cbn [blocks final_block_excess]. rewrite flat_app. unfold flat at 2. cbn [map concat].
  by rewrite app_nil_r.
Qed.

Lemma shift_right_represents n b bs : represents b bs -> represents (shift_right n b) (zeros n ++ bs).
Proof.
  intros Hr. pose proof (represents_size b bs Hr) as Hs. pose proof (represents_length b bs Hr) as Hl.
  destruct Hr as (Hb & He & Hf). unfold shift_right. rewrite Hs. unfold bits_per_block.
  set (k := (n / 8)%nat). set (o := (n mod 8)%nat).
  assert (Hn : n = (8 * k + o)%nat) by apply Nat.div_mod_eq.
  assert (Ho : (o < 8)%nat) by (apply Nat.mod_upper_bound; lia).
  pose proof (shift_right_flat o 0 (blocks b) Ho ltac:(unfold byte_ok; lia) Hb) as Hloop.
  destruct (shift_right_loop o 0 (blocks b)) as [out last]. destruct Hloop as (Hout & Hbo & Hlast & Hlen).
  change (byte_bits 0) with (zeros 8) in Hout.
  replace (drop (8 - o) (zeros 8)) with (zeros o) in Hout
    by (replace 8%nat with ((8 - o) + o)%nat at 2 by lia; rewrite repeat_app, drop_app_length' by (by rewrite repeat_length); done).
  set (shifted := repeat 0 k ++ out).
  assert (Hsb : bytes_ok shifted) by (apply bytes_ok_app; split; [apply bytes_ok_repeat|done]).
  assert (Hsf : flat shifted = zeros (8 * k) ++ flat out) by (unfold shifted; by rewrite flat_app, flat_zeros).
  assert (Hall : (zeros (8 * k) ++ flat out) ++ drop (8 - o) (byte_bits last) = (zeros n ++ bs) ++ zeros (final_block_excess b)).
  { rewrite <- app_assoc, Hout, Hf, Hn, repeat_app, <- !app_assoc. done. }
  assert (Hsl : length (zeros (8 * k) ++ flat out) = (8 * (k + length (blocks b)))%nat)
    by (rewrite length_app, repeat_length, length_flat, Hlen; lia).
  pose proof (resize_flat (length bs + n) shifted (final_block_excess b) Hsb) as Hr.
  set (r := resize _ _) in *. rewrite Hsf in Hr.
  pose proof (length_blocks_resize (length bs + n) (mk shifted (final_block_excess b))) as Hrl. fold r in Hrl.
  pose proof (blocks_size_bounds (length bs + n)) as Hbs. rewrite Hrl.
  destruct (Nat.ltb_spec (k + length (blocks b)) (blocks_size (length bs + n))) as [Hlt|Hge].
  - assert (Hcount : blocks_size (length bs + n) = S (k + length (blocks b))) by lia.
    destruct (exists_last (l := blocks r)) as (init & x & E); [intros E; rewrite E in Hrl; simpl in Hrl; lia|].
    rewrite <- Hrl. eapply (represents_last r _ init x); [exact Hr|done|apply u8_byte|].
    rewrite bits_shiftl_high, app_assoc by done.
    assert (Hinit : flat init = zeros (8 * k) ++ flat out).
    { destruct Hr as (_ & _ & Hrf). rewrite E, flat_app in Hrf. apply (f_equal (take (8 * (k + length (blocks b))))) in Hrf.
      rewrite E, length_app in Hrl. simpl in Hrl.
      rewrite take_app_length' in Hrf by (rewrite length_flat; lia). rewrite Hrf.
      rewrite take_app_le by (rewrite length_fit; lia). rewrite fit_take by lia. by rewrite <- Hsl, fit_exact. }
    rewrite Hinit, Hall, <- app_assoc, zeros_app. do 2 f_equal.
    pose proof (represents_length r _ Hr) as Hlr. rewrite length_fit in Hlr. lia.
  - replace (zeros n ++ bs) with (fit (length bs + n) (zeros (8 * k) ++ flat out)); [exact Hr|].
    rewrite fit_le by lia. rewrite <- (take_app_le _ (drop (8 - o) (byte_bits last))) by lia.
    rewrite Hall, take_app_length'; [done|]. rewrite length_app, repeat_length. lia.
Qed.

(** ** Concatenation *)

Lemma or_blocks_middle other : forall a m c, length m = length other ->
  or_blocks (length a) other (a ++ m ++ c) = a ++ zip_with Z.lor m other ++ c.
Proof.
  induction other as [|x other IH]; intros a m c Hm; [by destruct m|].
  destruct m as [|y m]; [done|]. cbn [or_blocks zip_with].
  replace (alter (fun y => Z.lor y x) (length a) (a ++ (y :: m) ++ c)) with ((a ++ [Z.lor y x]) ++ m ++ c).
  - replace (S (length a)) with (length (a ++ [Z.lor y x])) by (rewrite length_app; simpl; lia).
    rewrite IH by (by injection Hm). by rewrite <- app_assoc.
  - rewrite <- (Nat.add_0_r (length a)), alter_app_r, <- app_assoc. done.
Qed.

Lemma flat_lor l k : length l = length k -> flat (zip_with Z.lor l k) = zip_with orb (flat l) (flat k).
Proof.
  revert k. induction l as [|x l IH]; intros [|y k] Hl; try done.
  cbn [zip_with]. change (?a :: ?b) with ([a] ++ b) at 1. change (x :: l) with ([x] ++ l). change (y :: k) with ([y] ++ k).
  rewrite !flat_app, IH by (by injection Hl). unfold flat at 1 3 5. cbn [map concat]. rewrite !app_nil_r, bits_lor.
  by rewrite zip_with_app.
Qed.

Lemma lor_bytes l k : bytes_ok l -> bytes_ok k -> bytes_ok (zip_with Z.lor l k).
Proof.
  intros Hl. revert k. induction Hl as [|x l Hx Hl IH]; intros k Hk; [apply bytes_ok_nil|].
  destruct k as [|y k]; [apply bytes_ok_nil|]. apply bytes_ok_cons in Hk as [Hy Hk].
  cbn [zip_with]. apply Forall_cons_2; [by apply lor_byte|by apply IH].
Qed.

Lemma or_beside_l l k m n : length l = n -> length k = m -> zip_with orb (zeros n ++ k) (l ++ zeros m) = l ++ k.
Proof.
  intros <- <-. rewrite zip_with_app by (by rewrite repeat_length). by rewrite or_zeros_r, or_zeros_l.
Qed.

(** The blocks of [other] over those of [b] from the [k]th on. *)
Lemma or_represents k b bs other bs' :
  represents b bs -> bytes_ok other -> (k + length other <= length (blocks b))%nat ->
  take (8 * k) (flat (blocks b)) ++
    zip_with orb (take (8 * length other) (drop (8 * k) (flat (blocks b)))) (flat other) ++
    drop (8 * length other) (drop (8 * k) (flat (blocks b))) = bs' ++ zeros (final_block_excess b) ->
  represents (mk (or_blocks k other (blocks b)) (final_block_excess b)) bs'.
Proof.
  intros (Hb & He & _) Ho Hk Hf. set (l := blocks b) in *.
  assert (E : l = take k l ++ take (length other) (drop k l) ++ drop (length other) (drop k l)) by (by rewrite !take_drop).
  assert (Hl : length (take (length other) (drop k l)) = length other) by (rewrite length_take, length_drop; lia).
  assert (Eor : or_blocks k other l =
    take k l ++ zip_with Z.lor (take (length other) (drop k l)) other ++ drop (length other) (drop k l)).
  { rewrite E at 1. replace k with (length (take k l)) at 1 by (rewrite length_take; lia). by apply or_blocks_middle. }
  rewrite Eor. split; [|split; [done|]]; cbn [blocks final_block_excess].
  - apply bytes_ok_app. split; [by apply Forall_take|]. apply bytes_ok_app.
    split; [|by apply Forall_drop, Forall_drop]. apply lor_bytes; [by apply Forall_take, Forall_drop|done].
  - rewrite !flat_app, flat_lor by done. by rewrite !flat_take, !flat_drop.
Qed.

Lemma append_represents b bs c cs : represents b bs -> represents c cs -> represents (append b c) (bs ++ cs).
Proof.
  intros Hb Hc. unfold append. rewrite (represents_size b bs Hb), (represents_size c cs Hc). unfold bits_per_block.
  set (k := (length bs / 8)%nat). set (o := (length bs mod 8)%nat).
  assert (Hn : length bs = (8 * k + o)%nat) by apply Nat.div_mod_eq.
  assert (Ho : (o < 8)%nat) by (apply Nat.mod_upper_bound; lia).
  pose proof (of_blocks_same c cs Hc) as Hd. rewrite (represents_size c cs Hc) in Hd.
  apply (shift_right_represents o) in Hd. set (d := shift_right _ _) in *.
  pose proof (resize_represents (length bs + length cs) b bs Hb) as Hr. set (r := resize _ _) in *.
  assert (Efit : fit (length bs + length cs) bs = bs ++ zeros (length cs)).
  { pose proof (fit_app (length bs) (length cs) bs eq_refl []) as Ha. rewrite app_nil_r in Ha. rewrite Ha.
    unfold fit. rewrite take_nil. cbn [app length]. by rewrite Nat.sub_0_r. }
  rewrite Efit in Hr. pose proof (represents_length _ _ Hr) as Hlr. pose proof (represents_length _ _ Hd) as Hld.
  rewrite length_app, repeat_length in Hlr, Hld. destruct Hd as (Hdb & Hde & Hdf). pose proof Hr as (_ & Hre & Hrf).
  assert (He : final_block_excess d = final_block_excess r) by lia.
  apply (or_represents k r _ (blocks d) _ Hr Hdb); [lia|]. rewrite Hrf, Hdf, He, <- !app_assoc.
  rewrite take_app_le, drop_app_le by lia. rewrite zeros_app. set (tail := drop (8 * k) bs ++ _).
  assert (Htail : length tail = (8 * length (blocks d))%nat)
    by (unfold tail; rewrite length_app, length_drop, repeat_length; lia).
  rewrite (take_ge tail), (drop_ge tail) by lia. unfold tail.
  rewrite app_nil_r, or_beside; [|rewrite length_drop; lia|rewrite length_app, repeat_length; lia].
  rewrite app_assoc. by rewrite take_drop.
Qed.

Lemma prepend_represents b bs c cs : represents b bs -> represents c cs -> represents (prepend b c) (cs ++ bs).
Proof.
  intros Hb Hc. unfold prepend. rewrite (represents_size c cs Hc).
  apply (shift_right_represents (length cs)) in Hb. set (r := shift_right _ _) in *.
  pose proof (represents_length _ _ Hb) as Hlr. pose proof (represents_length _ _ Hc) as Hlc.
  rewrite length_app, repeat_length in Hlr. destruct Hc as (Hcb & Hce & Hcf). pose proof Hb as (_ & Hre & Hrf).
  apply (or_represents 0 r _ (blocks c) _ Hb Hcb); [lia|]. rewrite Hrf, Hcf, Hlc, <- !app_assoc.
  change (8 * 0)%nat with 0%nat. rewrite drop_0, take_0. cbn [app]. set (tail := bs ++ _). assert (Ht : (final_block_excess c <= length tail)%nat).
  { unfold tail. rewrite length_app, repeat_length. lia. }
  rewrite take_app_ge, drop_app_ge by (rewrite repeat_length; lia). rewrite repeat_length, Nat.add_sub_swap, Nat.sub_diag by lia.
  cbn [Nat.add]. rewrite or_beside_l by (rewrite ?length_take; lia). rewrite <- app_assoc. by rewrite take_drop.
Qed.

(** ** Reading bits *)

Lemma nth_flat l q r : (r < 8)%nat -> nth (8 * q + r) (flat l) false = nth r (byte_bits (nth q l 0)) false.
Proof.
  intros Hr. revert q. induction l as [|x l IH]; intros q.
  - rewrite nth_overflow by (simpl; lia). replace (nth q [] 0) with 0 by (by destruct q).
    change (byte_bits 0) with (zeros 8). by rewrite nth_repeat.
  - change (x :: l) with ([x] ++ l). rewrite flat_app. unfold flat at 1. cbn [map concat]. rewrite app_nil_r.
    destruct q as [|q].
    + rewrite app_nth1 by (simpl; lia). by rewrite Nat.mul_0_r.
    + rewrite app_nth2 by (simpl; lia). rewrite app_nth2 by (simpl; lia). rewrite <- (IH (S q - length [x])%nat).
      f_equal. simpl. lia.
Qed.

Lemma bits_get r x : (r < 8)%nat -> byte_ok x ->
  (Z.land x (u8 (Z.shiftl 1 (Z.of_nat (8 - r - 1)))) >? 0) = nth r (byte_bits x) false.
Proof.
  intros Hr Hx. apply (bool_decide_eq_true_1 _). revert r x Hr Hx.
  apply (block_forall (fun r x => bool_decide
    ((Z.land x (u8 (Z.shiftl 1 (Z.of_nat (8 - r - 1)))) >? 0) = nth r (byte_bits x) false))).
  by vm_compute.
Qed.

Lemma get_represents b bs i : represents b bs -> get b i = nth i bs false.
Proof.
  intros (Hb & _ & Hf). unfold get, bits_per_block.
  pose proof (Nat.div_mod_eq i 8) as Hi. pose proof (Nat.mod_upper_bound i 8 ltac:(lia)) as Hm.
  replace (i - i / 8 * 8)%nat with (i mod 8)%nat by lia. rewrite bits_get by (done || by apply nth_byte).
  rewrite <- nth_flat by done. rewrite <- Hi, Hf. destruct (decide (i < length bs)%nat).
  - by rewrite app_nth1.
  - rewrite app_nth2 by lia. rewrite nth_repeat. by rewrite nth_overflow by lia.
Qed.

Definition bit_char (b : bool) : Z := if b then 49 else 48.

Lemma encoded_represents b bs : represents b bs -> encoded b = map bit_char bs.
Proof.
  intros Hr. unfold encoded. rewrite (represents_size b bs Hr). rewrite <- (map_nth_seq false bs) at 2. rewrite map_map.
  apply map_ext. intros i. by rewrite (get_represents b bs i Hr).
Qed.

Lemma eqb_represents a bs b cs : represents a bs -> represents b cs -> eqb a b = true <-> bs = cs.
Proof.
  intros Ha Hb. unfold eqb. rewrite (represents_size a bs Ha), (represents_size b cs Hb).
  destruct (Nat.eqb_spec (length bs) (length cs)) as [E|E]; cbn [negb]; [|split; [done|by intros ->]].
  rewrite forallb_forall. split.
  - intros Hi. rewrite <- (map_nth_seq false bs), <- (map_nth_seq false cs), <- E. apply map_ext_in. intros i Hin.
    specialize (Hi i Hin). apply Bool.eqb_prop in Hi.
    by rewrite (get_represents a bs i Ha), (get_represents b cs i Hb) in Hi.
  - intros -> i _. rewrite (get_represents a cs i Ha), (get_represents b cs i Hb). apply Bool.eqb_reflx.
Qed.

Lemma bits_value x : byte_ok x -> fold_left (fun a (b : bool) => 2 * a + Z.b2z b) (byte_bits x) 0 = x.
Proof.
  intros Hx. apply Z.eqb_eq. revert x Hx.
  apply (byte_forall (fun x => fold_left (fun a (b : bool) => 2 * a + Z.b2z b) (byte_bits x) 0 =? x)). by vm_compute.
Qed.

Lemma flat_inj l k : bytes_ok l -> bytes_ok k -> flat l = flat k -> l = k.
Proof.
  intros Hl. revert k. induction Hl as [|x l Hx Hl IH]; intros k Hk E.
  - apply (f_equal length) in E. rewrite !length_flat in E. destruct k; [done|simpl in E; lia].
  - destruct k as [|y k]; [apply (f_equal length) in E; rewrite !length_flat in E; simpl in E; lia|].
    apply bytes_ok_cons in Hk as [Hy Hk]. change (x :: l) with ([x] ++ l) in E. change (y :: k) with ([y] ++ k) in E.
    rewrite !flat_app in E. unfold flat at 1 3 in E. cbn [map concat] in E. rewrite !app_nil_r in E.
    apply app_inj_1 in E as [Exy E]; [|done]. f_equal; [|by apply IH].
    by rewrite <- (bits_value x Hx), <- (bits_value y Hy), Exy.
Qed.

(** The bits determine the object. *)
Lemma represents_unique a b bs : represents a bs -> represents b bs -> a = b.
Proof.
  intros Ha Hb. pose proof (represents_length a bs Ha). pose proof (represents_length b bs Hb).
  destruct Ha as (Hab & Hae & Haf), Hb as (Hbb & Hbe & Hbf). destruct a as [l e], b as [k f].
  cbn [blocks final_block_excess] in *. assert (e = f) as -> by lia. f_equal. apply flat_inj; [done|done|].
  by rewrite Haf, Hbf.
Qed.

(** What [substring] takes: [start + length] is a sum of 64 bits, and when it
    wraps the length is not cut at the end of the string. *)
Definition part (start len : Z) (bs : list bool) : list bool :=
  let rest := drop (Z.to_nat start) bs in
  if negb (len =? max_uint64) && (2 ^ 64 <=? Z.min start (zlen bs) + len)
  then rest ++ repeat false (Z.to_nat len - length rest) else take (Z.to_nat len) rest.

Lemma substring_represents start len b bs :
  represents b bs -> 0 <= start -> in_width 64 len -> zlen bs < 2 ^ 63 ->
  represents (substring start len b) (part start len bs).
Proof.
  intros Hr Hs [Hl Hl'] Hmax. unfold substring, part. rewrite (represents_size b bs Hr). fold (zlen bs).
  rewrite <- (represents_size b bs Hr).
  replace (if start >? zlen bs then zlen bs else start) with (Z.min start (zlen bs))
    by (destruct (Z.gtb_spec start (zlen bs)); lia).
  set (s := Z.min start (zlen bs)).
  set (n := if (len =? max_uint64) || (u64 (s + len) >? zlen bs) then zlen bs - s else len).
  assert (Es : drop (Z.to_nat start) bs = drop (Z.to_nat s) bs /\ 0 <= s <= zlen bs).
  { unfold s, zlen. split; [|lia]. destruct (Z.le_ge_cases start (Z.of_nat (length bs))).
    - by rewrite Z.min_l by lia.
    - rewrite !drop_ge by lia. done. }
  destruct Es as [-> Hsr]. unfold zlen in *.
  pose proof (resize_represents (Z.to_nat n) _ _ (shift_left_represents (Z.to_nat s) _ _ (of_blocks_same b bs Hr))) as Hres.
  fold (fit (Z.to_nat n) (drop (Z.to_nat s) bs)) in Hres.
  match goal with |- represents _ ?l => replace l with (fit (Z.to_nat n) (drop (Z.to_nat s) bs)); [exact Hres|] end.
  clear Hres. unfold n, u64, max_uint64 in *.
  destruct (Z.eqb_spec len (2 ^ 64 - 1)) as [E|Hne]; cbn [orb negb andb].
  - rewrite fit_le, !take_ge by (rewrite length_drop; lia). done.
  - destruct (Z.leb_spec (2 ^ 64) (s + len)) as [Hw|Hw].
    + replace (wrap 64 (s + len)) with (s + len - 2 ^ 64)
        by (unfold wrap; apply (Z.mod_unique_pos _ _ 1); lia). destruct (Z.gtb_spec (s + len - 2 ^ 64) (Z.of_nat (length bs))); [lia|].
      unfold fit. by rewrite take_ge by (rewrite length_drop; lia).
    + rewrite wrap_small by (unfold in_width; lia). destruct (Z.gtb_spec (s + len) (Z.of_nat (length bs))).
      * rewrite fit_le, !take_ge by (rewrite length_drop; lia). done.
      * rewrite fit_le by (rewrite length_drop; lia). done.
Qed.

(** The bytes a prefix is compared with: none stays none, and fewer than the
    prefix needs are padded with zeros. *)
Definition padded (n : nat) (field : list Z) : list bool :=
  match field with [] => [] | _ => flat field ++ repeat false (n - length (flat field)) end.

Lemma prefix_represents b bs field :
  represents b bs -> bytes_ok field ->
  is_prefix_of b field = true <-> bs `prefix_of` padded (length bs) field.
Proof.
  intros Hb Hf. unfold is_prefix_of. rewrite (represents_size b bs Hb).
  rewrite (eqb_represents b bs _ _ Hb (of_blocks_represents (length bs) field Hf)).
  destruct field as [|x field]; cbn [length Nat.eqb padded].
  { split; [intros ->; apply prefix_nil|apply prefix_nil_inv]. }
  set (l := flat (x :: field)). unfold fit.
  replace (take (length bs) l ++ zeros (length bs - length l))
    with (take (length bs) (l ++ zeros (length bs - length l))).
  - generalize (l ++ zeros (length bs - length l)). intros k. split; [intros E; rewrite E; apply prefix_take|].
    intros [k' ->]. by rewrite take_app_length.
  - by rewrite take_app, (take_ge (zeros _)) by (rewrite repeat_length; lia).
Qed.

(** ** Parsing *)

Lemma bit_set it : (1 <= it <= 8)%nat ->
  byte_bits (u8 (Z.shiftl 1 (Z.of_nat (it - 1)))) = zeros (8 - it) ++ true :: zeros (it - 1).
Proof. intros Hit. do 9 (destruct it as [|it]; [done || lia|]). lia. Qed.

(** The next bit of a block whose [it] last bits are clear. *)
Lemma block_next block it cur (c : bool) :
  (1 <= it <= 8)%nat -> byte_bits block = cur ++ zeros it ->
  byte_bits (if bit_char c =? 49 then Z.lor block (u8 (Z.shiftl 1 (Z.of_nat (it - 1)))) else block) =
  (cur ++ [c]) ++ zeros (it - 1).
Proof.
  intros Hit Hb. assert (Hl : length cur = (8 - it)%nat).
  { apply (f_equal length) in Hb. rewrite length_app, repeat_length in Hb. simpl in Hb. lia. }
  rewrite <- app_assoc. destruct it as [|it]; [lia|]. replace (S it - 1)%nat with it by lia. cbn [repeat] in Hb.
  destruct c; cbn [bit_char Z.eqb Pos.eqb]; [|by rewrite Hb].
  rewrite bits_lor, Hb. pose proof (bit_set (S it) Hit) as Hset. replace (S it - 1)%nat with it in Hset by lia.
  rewrite Hset. rewrite zip_with_app by (by rewrite repeat_length).
  rewrite <- Hl, or_zeros_r. cbn [zip_with app]. do 2 f_equal. rewrite <- (repeat_length false it) at 2. apply or_zeros_r.
Qed.

Lemma parse_bits bs : forall out block it cur,
  (1 <= it <= 8)%nat -> byte_bits block = cur ++ zeros it -> bytes_ok out -> byte_ok block ->
  exists out' block' it' cur', parse_loop out block it (map bit_char bs) = Some (out', block', it') /\
    (1 <= it' <= 8)%nat /\ byte_bits block' = cur' ++ zeros it' /\ bytes_ok out' /\ byte_ok block' /\
    flat out' ++ cur' = flat out ++ cur ++ bs.
Proof.
  induction bs as [|c bs IH]; intros out block it cur Hit Hb Ho Hby.
  - exists out, block, it, cur. by rewrite app_nil_r.
  - cbn [map parse_loop]. replace (negb (bit_char c =? 48) && negb (bit_char c =? 49)) with false by (by destruct c).
    pose proof (block_next block it cur c Hit Hb) as Hn.
    assert (Hnb : byte_ok (if bit_char c =? 49 then Z.lor block (u8 (Z.shiftl 1 (Z.of_nat (it - 1)))) else block)).
    { case_match; [|done]. apply lor_byte; [done|apply u8_byte]. }
    set (next := if bit_char c =? 49 then _ else _) in *.
    destruct (Nat.eqb_spec (it - 1) 0) as [E|E].
    + destruct (IH (out ++ [next]) 0 8%nat []) as (o' & b' & i' & c' & Hp & Hi & Hbb & Hob & Hbb' & Hf);
        [lia|done|apply bytes_ok_app; split; [done|by apply Forall_cons_2; [|apply Forall_nil_2]]|unfold byte_ok; lia|].
      exists o', b', i', c'. split_and!; try done; try lia. rewrite Hf, flat_app. unfold flat at 2. cbn [map concat].
      rewrite Hn, E. cbn [repeat]. rewrite !app_nil_r, <- !app_assoc. done.
    + destruct (IH out next (it - 1)%nat (cur ++ [c])) as (o' & b' & i' & c' & Hp & Hi & Hbb & Hob & Hbb' & Hf);
        [lia|done|done|done|].
      exists o', b', i', c'. split_and!; try done; try lia. by rewrite Hf, <- app_assoc.
Qed.

Lemma token_bits bs : token (trim_left (map bit_char bs)) = map bit_char bs.
Proof.
  assert (Ht : token (map bit_char bs) = map bit_char bs).
  { induction bs as [|c bs IH]; [done|]. cbn [map token]. rewrite IH. by destruct c. }
  destruct bs as [|c bs]; [done|]. cbn [map trim_left]. by destruct c.
Qed.

Lemma of_string_represents bs : represents (of_string (map bit_char bs)) bs.
Proof.
  unfold of_string, bits_per_block. rewrite token_bits.
  destruct (parse_bits bs [] 0 8%nat []) as (out & block & it & cur & -> & Hit & Hb & Ho & Hby & Hf);
    [lia|done|apply bytes_ok_nil|unfold byte_ok; lia|]. cbn [app flat map concat] in Hf. rewrite length_map.
  destruct (Nat.eqb_spec it 8) as [->|Hne]; cbn [negb].
  - assert (cur = []) as ->.
    { apply (f_equal length) in Hb. rewrite length_app, repeat_length in Hb. simpl in Hb. destruct cur; [done|simpl in Hb; lia]. }
    rewrite app_nil_r in Hf. pose proof (resize_flat (length bs) out 0 Ho) as Hr. by rewrite Hf, fit_exact in Hr.
  - assert (Hob : bytes_ok (out ++ [block])) by (apply bytes_ok_app; split; [done|by apply Forall_cons_2; [|apply Forall_nil_2]]).
    pose proof (resize_flat (length bs) (out ++ [block]) 0 Hob) as Hr. rewrite flat_app in Hr. unfold flat at 2 in Hr.
    cbn [map concat] in Hr. by rewrite app_nil_r, Hb, app_assoc, Hf, fit_app_zeros, fit_exact in Hr.
Qed.

(** ** The operations implement those on lists of bits *)

(** C17: The packed bit string implements a list of bits, of fewer than 2^63
    bits: size, indexing, resize, append, prepend, the shifts and equality are
    the list operations, and the text of a bit string is read back. substring
    is the sublist when start (cut to the size) and length do not wrap 64 bits
    or the length is the maximum, and otherwise the rest from start extended
    by zeros to the length; the prefix test on bytes is the prefix relation on
    their bits, which are padded with zeros when they are fewer than the
    prefix, except that only the empty prefix matches no bytes. *)
Theorem binary_refines b bs c cs n start len field :
  represents b bs -> represents c cs -> bytes_ok field ->
  0 <= start -> in_width 64 len -> zlen bs < 2 ^ 63 ->
  size b = length bs /\
  (forall i, get b i = nth i bs false) /\
  represents (resize n b) (take n bs ++ repeat false (n - length bs)) /\
  represents (append b c) (bs ++ cs) /\
  represents (prepend b c) (cs ++ bs) /\
  represents (shift_left n b) (drop n bs) /\
  represents (shift_right n b) (repeat false n ++ bs) /\
  represents (substring start len b) (part start len bs) /\
  (eqb b c = true <-> bs = cs) /\
  (is_prefix_of b field = true <-> bs `prefix_of` padded (length bs) field) /\
  of_string (encoded b) = b.
Proof.
  intros Hb Hc Hf Hs Hl Hmax.
  refine (conj (represents_size b bs Hb) (conj (fun i => get_represents b bs i Hb) (conj (resize_represents n b bs Hb)
    (conj (append_represents b bs c cs Hb Hc) (conj (prepend_represents b bs c cs Hb Hc)
    (conj (shift_left_represents n b bs Hb) (conj (shift_right_represents n b bs Hb)
    (conj (substring_represents start len b bs Hb Hs Hl Hmax) (conj (eqb_represents b bs c cs Hb Hc)
    (conj (prefix_represents b bs field Hb Hf) _)))))))))).
  rewrite (encoded_represents b bs Hb). by apply (represents_unique _ _ bs (of_string_represents bs)).
Qed.
End binary.
