(* ===== verification/Codes.v ===== *)
(** The code tables of the program: the result codes of
    [include/bitcoin/bitcoin/error.hpp], the opcodes of
    [include/bitcoin/bitcoin/machine/opcode.hpp], the rule forks of
    [include/bitcoin/bitcoin/machine/rule_fork.hpp], and the currency-dependent
    constants of [include/bitcoin/bitcoin/constants.hpp]. *)

From S2P Require Import Prelude.

(** ** Result codes *)

Module error.

Inductive code : Type :=
| success
| deprecated
| unknown
| not_found
| file_system
| non_standard
| not_implemented
| oversubscribed
| service_stopped
| operation_failed
| resolve_failed
| network_unreachable
| address_in_use
| listen_failed
| accept_failed
| bad_stream
| channel_timeout
| address_blocked
| channel_stopped
| peer_throttling
| store_block_duplicate
| store_block_invalid_height
| store_block_missing_parent
| duplicate_block
| orphan_block
| invalid_previous_block
| insufficient_work
| orphan_transaction
| insufficient_fee
| dusty_transaction
| stale_chain
| invalid_proof_of_work
| futuristic_timestamp
| checkpoints_failed
| old_version_block
| incorrect_proof_of_work
| timestamp_too_early
| block_size_limit
| empty_block
| first_not_coinbase
| extra_coinbases
| internal_duplicate
| block_internal_double_spend
| forward_reference
| merkle_mismatch
| block_legacy_sigop_limit
| non_canonical_ordered
| block_non_final
| coinbase_height_mismatch
| coinbase_value_limit
| block_embedded_sigop_limit
| invalid_witness_commitment
| block_weight_limit
| empty_transaction
| previous_output_null
| spend_overflow
| invalid_coinbase_script_size
| coinbase_transaction
| transaction_internal_double_spend
| transaction_size_limit
| transaction_legacy_sigop_limit
| transaction_non_final
| premature_validation
| unspent_duplicate
| missing_previous_output
| double_spend
| coinbase_maturity
| spend_exceeds_value
| transaction_embedded_sigop_limit
| sequence_locked
| transaction_weight_limit
| invalid_script
| invalid_script_size
| invalid_push_data_size
| invalid_operation_count
| invalid_stack_size
| invalid_stack_scope
| invalid_script_embed
| invalid_signature_encoding
| invalid_signature_lax_encoding
| incorrect_signature
| unexpected_witness
| invalid_witness
| dirty_witness
| stack_false
| op_disabled
| op_reserved
| op_push_size
| op_push_data
| op_if
| op_notif
| op_else
| op_endif
| op_verify1
| op_verify2
| op_return
| op_to_alt_stack
| op_from_alt_stack
| op_drop2
| op_dup2
| op_dup3
| op_over2
| op_rot2
| op_swap2
| op_if_dup
| op_drop
| op_dup
| op_nip
| op_over
| op_pick
| op_roll
| op_rot
| op_swap
| op_tuck
| op_size
| op_equal
| op_equal_verify1
| op_equal_verify2
| op_add1
| op_sub1
| op_negate
| op_abs
| op_not
| op_nonzero
| op_add
| op_sub
| op_bool_and
| op_bool_or
| op_num_equal
| op_num_equal_verify1
| op_num_equal_verify2
| op_num_not_equal
| op_less_than
| op_greater_than
| op_less_than_or_equal
| op_greater_than_or_equal
| op_min
| op_max
| op_within
| op_ripemd160
| op_sha1
| op_sha256
| op_hash160
| op_hash256
| op_code_seperator
| op_check_sig_verify1
| op_check_sig
| op_check_multisig_verify1
| op_check_multisig_verify2
| op_check_multisig_verify3
| op_check_multisig_verify4
| op_check_multisig_verify5
| op_check_multisig_verify6
| op_check_multisig_verify7
| op_check_multisig
| op_check_locktime_verify1
| op_check_locktime_verify2
| op_check_locktime_verify3
| op_check_locktime_verify4
| op_check_locktime_verify5
| op_check_locktime_verify6
| op_check_sequence_verify1
| op_check_sequence_verify2
| op_check_sequence_verify3
| op_check_sequence_verify4
| op_check_sequence_verify5
| op_check_sequence_verify6
| op_check_sequence_verify7
| operation_failed_0
| operation_failed_1
| operation_failed_2
| operation_failed_3
| operation_failed_4
| operation_failed_5
| operation_failed_6
| operation_failed_7
| operation_failed_8
| operation_failed_9
| operation_failed_10
| operation_failed_11
| operation_failed_12
| operation_failed_13
| operation_failed_14
| operation_failed_15
| operation_failed_16
| operation_failed_17
| operation_failed_18
| operation_failed_19
| operation_failed_20
| operation_failed_21
| operation_failed_22
| operation_failed_23
| operation_failed_24
| operation_failed_25
| operation_failed_26
| operation_failed_27
| operation_failed_28
| operation_failed_29
| operation_failed_30
| op_check_multisig_verify8
| invalid_output
| lock_time_conflict
| input_index_out_of_range
| input_sign_failed.

(** The numeric value of the enumerator. *)
Definition value (c : code) : Z :=
  match c with
  | success => 0
  | deprecated => 6
  | unknown => 43
  | not_found => 3
  | file_system => 42
  | non_standard => 17
  | not_implemented => 4
  | oversubscribed => 71
  | service_stopped => 1
  | operation_failed => 2
  | resolve_failed => 7
  | network_unreachable => 8
  | address_in_use => 9
  | listen_failed => 10
  | accept_failed => 11
  | bad_stream => 12
  | channel_timeout => 13
  | address_blocked => 44
  | channel_stopped => 45
  | peer_throttling => 73
  | store_block_duplicate => 66
  | store_block_invalid_height => 67
  | store_block_missing_parent => 68
  | duplicate_block => 51
  | orphan_block => 5
  | invalid_previous_block => 24
  | insufficient_work => 48
  | orphan_transaction => 14
  | insufficient_fee => 70
  | dusty_transaction => 76
  | stale_chain => 75
  | invalid_proof_of_work => 26
  | futuristic_timestamp => 27
  | checkpoints_failed => 35
  | old_version_block => 36
  | incorrect_proof_of_work => 32
  | timestamp_too_early => 33
  | block_size_limit => 50
  | empty_block => 47
  | first_not_coinbase => 28
  | extra_coinbases => 29
  | internal_duplicate => 49
  | block_internal_double_spend => 15
  | forward_reference => 79
  | merkle_mismatch => 31
  | block_legacy_sigop_limit => 30
  | non_canonical_ordered => 84
  | block_non_final => 34
  | coinbase_height_mismatch => 37
  | coinbase_value_limit => 41
  | block_embedded_sigop_limit => 52
  | invalid_witness_commitment => 25
  | block_weight_limit => 82
  | empty_transaction => 20
  | previous_output_null => 23
  | spend_overflow => 21
  | invalid_coinbase_script_size => 22
  | coinbase_transaction => 16
  | transaction_internal_double_spend => 72
  | transaction_size_limit => 53
  | transaction_legacy_sigop_limit => 54
  | transaction_non_final => 74
  | premature_validation => 69
  | unspent_duplicate => 38
  | missing_previous_output => 19
  | double_spend => 18
  | coinbase_maturity => 46
  | spend_exceeds_value => 40
  | transaction_embedded_sigop_limit => 55
  | sequence_locked => 78
  | transaction_weight_limit => 83
  | invalid_script => 39
  | invalid_script_size => 56
  | invalid_push_data_size => 57
  | invalid_operation_count => 58
  | invalid_stack_size => 59
  | invalid_stack_scope => 60
  | invalid_script_embed => 61
  | invalid_signature_encoding => 62
  | invalid_signature_lax_encoding => 63
  | incorrect_signature => 64
  | unexpected_witness => 77
  | invalid_witness => 80
  | dirty_witness => 81
  | stack_false => 65
  | op_disabled => 100
  | op_reserved => 101
  | op_push_size => 102
  | op_push_data => 103
  | op_if => 104
  | op_notif => 105
  | op_else => 106
  | op_endif => 107
  | op_verify1 => 108
  | op_verify2 => 109
  | op_return => 110
  | op_to_alt_stack => 111
  | op_from_alt_stack => 112
  | op_drop2 => 113
  | op_dup2 => 114
  | op_dup3 => 115
  | op_over2 => 116
  | op_rot2 => 117
  | op_swap2 => 118
  | op_if_dup => 119
  | op_drop => 120
  | op_dup => 121
  | op_nip => 122
  | op_over => 123
  | op_pick => 124
  | op_roll => 125
  | op_rot => 126
  | op_swap => 127
  | op_tuck => 128
  | op_size => 129
  | op_equal => 130
  | op_equal_verify1 => 131
  | op_equal_verify2 => 132
  | op_add1 => 133
  | op_sub1 => 134
  | op_negate => 135
  | op_abs => 136
  | op_not => 137
  | op_nonzero => 138
  | op_add => 139
  | op_sub => 140
  | op_bool_and => 141
  | op_bool_or => 142
  | op_num_equal => 143
  | op_num_equal_verify1 => 144
  | op_num_equal_verify2 => 145
  | op_num_not_equal => 146
  | op_less_than => 147
  | op_greater_than => 148
  | op_less_than_or_equal => 149
  | op_greater_than_or_equal => 150
  | op_min => 151
  | op_max => 152
  | op_within => 153
  | op_ripemd160 => 154
  | op_sha1 => 155
  | op_sha256 => 156
  | op_hash160 => 157
  | op_hash256 => 158
  | op_code_seperator => 159
  | op_check_sig_verify1 => 160
  | op_check_sig => 161
  | op_check_multisig_verify1 => 162
  | op_check_multisig_verify2 => 163
  | op_check_multisig_verify3 => 164
  | op_check_multisig_verify4 => 165
  | op_check_multisig_verify5 => 166
  | op_check_multisig_verify6 => 167
  | op_check_multisig_verify7 => 168
  | op_check_multisig => 169
  | op_check_locktime_verify1 => 170
  | op_check_locktime_verify2 => 171
  | op_check_locktime_verify3 => 172
  | op_check_locktime_verify4 => 173
  | op_check_locktime_verify5 => 174
  | op_check_locktime_verify6 => 175
  | op_check_sequence_verify1 => 176
  | op_check_sequence_verify2 => 177
  | op_check_sequence_verify3 => 178
  | op_check_sequence_verify4 => 179
  | op_check_sequence_verify5 => 180
  | op_check_sequence_verify6 => 181
  | op_check_sequence_verify7 => 182
  | operation_failed_0 => 183
  | operation_failed_1 => 184
  | operation_failed_2 => 185
  | operation_failed_3 => 186
  | operation_failed_4 => 187
  | operation_failed_5 => 188
  | operation_failed_6 => 189
  | operation_failed_7 => 190
  | operation_failed_8 => 191
  | operation_failed_9 => 192
  | operation_failed_10 => 193
  | operation_failed_11 => 194
  | operation_failed_12 => 195
  | operation_failed_13 => 196
  | operation_failed_14 => 197
  | operation_failed_15 => 198
  | operation_failed_16 => 199
  | operation_failed_17 => 200
  | operation_failed_18 => 201
  | operation_failed_19 => 202
  | operation_failed_20 => 203
  | operation_failed_21 => 204
  | operation_failed_22 => 205
  | operation_failed_23 => 206
  | operation_failed_24 => 207
  | operation_failed_25 => 208
  | operation_failed_26 => 209
  | operation_failed_27 => 210
  | operation_failed_28 => 211
  | operation_failed_29 => 212
  | operation_failed_30 => 213
  | op_check_multisig_verify8 => 214
  | invalid_output => 215
  | lock_time_conflict => 216
  | input_index_out_of_range => 217
  | input_sign_failed => 218
  end.

Definition of_value (v : Z) : option code :=
  match v with
  | 0 => Some success
  | 6 => Some deprecated
  | 43 => Some unknown
  | 3 => Some not_found
  | 42 => Some file_system
  | 17 => Some non_standard
  | 4 => Some not_implemented
  | 71 => Some oversubscribed
  | 1 => Some service_stopped
  | 2 => Some operation_failed
  | 7 => Some resolve_failed
  | 8 => Some network_unreachable
  | 9 => Some address_in_use
  | 10 => Some listen_failed
  | 11 => Some accept_failed
  | 12 => Some bad_stream
  | 13 => Some channel_timeout
  | 44 => Some address_blocked
  | 45 => Some channel_stopped
  | 73 => Some peer_throttling
  | 66 => Some store_block_duplicate
  | 67 => Some store_block_invalid_height
  | 68 => Some store_block_missing_parent
  | 51 => Some duplicate_block
  | 5 => Some orphan_block
  | 24 => Some invalid_previous_block
  | 48 => Some insufficient_work
  | 14 => Some orphan_transaction
  | 70 => Some insufficient_fee
  | 76 => Some dusty_transaction
  | 75 => Some stale_chain
  | 26 => Some invalid_proof_of_work
  | 27 => Some futuristic_timestamp
  | 35 => Some checkpoints_failed
  | 36 => Some old_version_block
  | 32 => Some incorrect_proof_of_work
  | 33 => Some timestamp_too_early
  | 50 => Some block_size_limit
  | 47 => Some empty_block
  | 28 => Some first_not_coinbase
  | 29 => Some extra_coinbases
  | 49 => Some internal_duplicate
  | 15 => Some block_internal_double_spend
  | 79 => Some forward_reference
  | 31 => Some merkle_mismatch
  | 30 => Some block_legacy_sigop_limit
  | 84 => Some non_canonical_ordered
  | 34 => Some block_non_final
  | 37 => Some coinbase_height_mismatch
  | 41 => Some coinbase_value_limit
  | 52 => Some block_embedded_sigop_limit
  | 25 => Some invalid_witness_commitment
  | 82 => Some block_weight_limit
  | 20 => Some empty_transaction
  | 23 => Some previous_output_null
  | 21 => Some spend_overflow
  | 22 => Some invalid_coinbase_script_size
  | 16 => Some coinbase_transaction
  | 72 => Some transaction_internal_double_spend
  | 53 => Some transaction_size_limit
  | 54 => Some transaction_legacy_sigop_limit
  | 74 => Some transaction_non_final
  | 69 => Some premature_validation
  | 38 => Some unspent_duplicate
  | 19 => Some missing_previous_output
  | 18 => Some double_spend
  | 46 => Some coinbase_maturity
  | 40 => Some spend_exceeds_value
  | 55 => Some transaction_embedded_sigop_limit
  | 78 => Some sequence_locked
  | 83 => Some transaction_weight_limit
  | 39 => Some invalid_script
  | 56 => Some invalid_script_size
  | 57 => Some invalid_push_data_size
  | 58 => Some invalid_operation_count
  | 59 => Some invalid_stack_size
  | 60 => Some invalid_stack_scope
  | 61 => Some invalid_script_embed
  | 62 => Some invalid_signature_encoding
  | 63 => Some invalid_signature_lax_encoding
  | 64 => Some incorrect_signature
  | 77 => Some unexpected_witness
  | 80 => Some invalid_witness
  | 81 => Some dirty_witness
  | 65 => Some stack_false
  | 100 => Some op_disabled
  | 101 => Some op_reserved
  | 102 => Some op_push_size
  | 103 => Some op_push_data
  | 104 => Some op_if
  | 105 => Some op_notif
  | 106 => Some op_else
  | 107 => Some op_endif
  | 108 => Some op_verify1
  | 109 => Some op_verify2
  | 110 => Some op_return
  | 111 => Some op_to_alt_stack
  | 112 => Some op_from_alt_stack
  | 113 => Some op_drop2
  | 114 => Some op_dup2
  | 115 => Some op_dup3
  | 116 => Some op_over2
  | 117 => Some op_rot2
  | 118 => Some op_swap2
  | 119 => Some op_if_dup
  | 120 => Some op_drop
  | 121 => Some op_dup
  | 122 => Some op_nip
  | 123 => Some op_over
  | 124 => Some op_pick
  | 125 => Some op_roll
  | 126 => Some op_rot
  | 127 => Some op_swap
  | 128 => Some op_tuck
  | 129 => Some op_size
  | 130 => Some op_equal
  | 131 => Some op_equal_verify1
  | 132 => Some op_equal_verify2
  | 133 => Some op_add1
  | 134 => Some op_sub1
  | 135 => Some op_negate
  | 136 => Some op_abs
  | 137 => Some op_not
  | 138 => Some op_nonzero
  | 139 => Some op_add
  | 140 => Some op_sub
  | 141 => Some op_bool_and
  | 142 => Some op_bool_or
  | 143 => Some op_num_equal
  | 144 => Some op_num_equal_verify1
  | 145 => Some op_num_equal_verify2
  | 146 => Some op_num_not_equal
  | 147 => Some op_less_than
  | 148 => Some op_greater_than
  | 149 => Some op_less_than_or_equal
  | 150 => Some op_greater_than_or_equal
  | 151 => Some op_min
  | 152 => Some op_max
  | 153 => Some op_within
  | 154 => Some op_ripemd160
  | 155 => Some op_sha1
  | 156 => Some op_sha256
  | 157 => Some op_hash160
  | 158 => Some op_hash256
  | 159 => Some op_code_seperator
  | 160 => Some op_check_sig_verify1
  | 161 => Some op_check_sig
  | 162 => Some op_check_multisig_verify1
  | 163 => Some op_check_multisig_verify2
  | 164 => Some op_check_multisig_verify3
  | 165 => Some op_check_multisig_verify4
  | 166 => Some op_check_multisig_verify5
  | 167 => Some op_check_multisig_verify6
  | 168 => Some op_check_multisig_verify7
  | 169 => Some op_check_multisig
  | 170 => Some op_check_locktime_verify1
  | 171 => Some op_check_locktime_verify2
  | 172 => Some op_check_locktime_verify3
  | 173 => Some op_check_locktime_verify4
  | 174 => Some op_check_locktime_verify5
  | 175 => Some op_check_locktime_verify6
  | 176 => Some op_check_sequence_verify1
  | 177 => Some op_check_sequence_verify2
  | 178 => Some op_check_sequence_verify3
  | 179 => Some op_check_sequence_verify4
  | 180 => Some op_check_sequence_verify5
  | 181 => Some op_check_sequence_verify6
  | 182 => Some op_check_sequence_verify7
  | 183 => Some operation_failed_0
  | 184 => Some operation_failed_1
  | 185 => Some operation_failed_2
  | 186 => Some operation_failed_3
  | 187 => Some operation_failed_4
  | 188 => Some operation_failed_5
  | 189 => Some operation_failed_6
  | 190 => Some operation_failed_7
  | 191 => Some operation_failed_8
  | 192 => Some operation_failed_9
  | 193 => Some operation_failed_10
  | 194 => Some operation_failed_11
  | 195 => Some operation_failed_12
  | 196 => Some operation_failed_13
  | 197 => Some operation_failed_14
  | 198 => Some operation_failed_15
  | 199 => Some operation_failed_16
  | 200 => Some operation_failed_17
  | 201 => Some operation_failed_18
  | 202 => Some operation_failed_19
  | 203 => Some operation_failed_20
  | 204 => Some operation_failed_21
  | 205 => Some operation_failed_22
  | 206 => Some operation_failed_23
  | 207 => Some operation_failed_24
  | 208 => Some operation_failed_25
  | 209 => Some operation_failed_26
  | 210 => Some operation_failed_27
  | 211 => Some operation_failed_28
  | 212 => Some operation_failed_29
  | 213 => Some operation_failed_30
  | 214 => Some op_check_multisig_verify8
  | 215 => Some invalid_output
  | 216 => Some lock_time_conflict
  | 217 => Some input_index_out_of_range
  | 218 => Some input_sign_failed
  | _ => None
  end.

(** No two enumerators share a value. *)
Lemma of_value_value c : of_value (value c) = Some c.
Proof. by destruct c. Qed.

#[global] Instance code_eq_dec : EqDecision code.
Proof.
  intros a b. destruct (decide (value a = value b)) as [E|E].
  - left. apply (inj Some). rewrite <- !of_value_value. by rewrite E.
  - right. intros ->. by apply E.
Defined.

End error.

(** [if ((ec = e))]: continue with [k] on success, else return the error. *)
Definition and_then (e : error.code) (k : error.code) : error.code :=
  match e with error.success => k | _ => e end.

(** ** Opcodes: an enumeration over [uint8_t] in which every byte is a code *)

Module opcode.

Definition push_size_0 : Z := 0.
Definition push_size_1 : Z := 1.
Definition push_size_36 : Z := 36.
Definition push_size_75 : Z := 75.
Definition push_one_size : Z := 76.
Definition push_two_size : Z := 77.
Definition push_four_size : Z := 78.
Definition push_negative_1 : Z := 79.
Definition reserved_80 : Z := 80.
Definition push_positive_1 : Z := 81.
Definition push_positive_2 : Z := 82.
Definition push_positive_3 : Z := 83.
Definition push_positive_4 : Z := 84.
Definition push_positive_5 : Z := 85.
Definition push_positive_6 : Z := 86.
Definition push_positive_7 : Z := 87.
Definition push_positive_8 : Z := 88.
Definition push_positive_9 : Z := 89.
Definition push_positive_10 : Z := 90.
Definition push_positive_11 : Z := 91.
Definition push_positive_12 : Z := 92.
Definition push_positive_13 : Z := 93.
Definition push_positive_14 : Z := 94.
Definition push_positive_15 : Z := 95.
Definition push_positive_16 : Z := 96.
Definition nop : Z := 97.
Definition reserved_98 : Z := 98.
Definition if_ : Z := 99.
Definition notif : Z := 100.
Definition disabled_verif : Z := 101.
Definition disabled_vernotif : Z := 102.
Definition else_ : Z := 103.
Definition endif : Z := 104.
Definition verify : Z := 105.
Definition return_ : Z := 106.
Definition toaltstack : Z := 107.
Definition fromaltstack : Z := 108.
Definition drop2 : Z := 109.
Definition dup2 : Z := 110.
Definition dup3 : Z := 111.
Definition over2 : Z := 112.
Definition rot2 : Z := 113.
Definition swap2 : Z := 114.
Definition ifdup : Z := 115.
Definition depth : Z := 116.
Definition drop : Z := 117.
Definition dup : Z := 118.
Definition nip : Z := 119.
Definition over : Z := 120.
Definition pick : Z := 121.
Definition roll : Z := 122.
Definition rot : Z := 123.
Definition swap : Z := 124.
Definition tuck : Z := 125.
Definition disabled_cat : Z := 126.
Definition disabled_substr : Z := 127.
Definition disabled_left : Z := 128.
Definition disabled_right : Z := 129.
Definition size : Z := 130.
Definition disabled_invert : Z := 131.
Definition disabled_and : Z := 132.
Definition disabled_or : Z := 133.
Definition disabled_xor : Z := 134.
Definition equal : Z := 135.
Definition equalverify : Z := 136.
Definition reserved_137 : Z := 137.
Definition reserved_138 : Z := 138.
Definition add1 : Z := 139.
Definition sub1 : Z := 140.
Definition disabled_mul2 : Z := 141.
Definition disabled_div2 : Z := 142.
Definition negate : Z := 143.
Definition abs : Z := 144.
Definition not_ : Z := 145.
Definition nonzero : Z := 146.
Definition add : Z := 147.
Definition sub : Z := 148.
Definition disabled_mul : Z := 149.
Definition disabled_div : Z := 150.
Definition disabled_mod : Z := 151.
Definition disabled_lshift : Z := 152.
Definition disabled_rshift : Z := 153.
Definition booland : Z := 154.
Definition boolor : Z := 155.
Definition numequal : Z := 156.
Definition numequalverify : Z := 157.
Definition numnotequal : Z := 158.
Definition lessthan : Z := 159.
Definition greaterthan : Z := 160.
Definition lessthanorequal : Z := 161.
Definition greaterthanorequal : Z := 162.
Definition min : Z := 163.
Definition max : Z := 164.
Definition within : Z := 165.
Definition ripemd160 : Z := 166.
Definition sha1 : Z := 167.
Definition sha256 : Z := 168.
Definition hash160 : Z := 169.
Definition hash256 : Z := 170.
Definition codeseparator : Z := 171.
Definition checksig : Z := 172.
Definition checksigverify : Z := 173.
Definition checkmultisig : Z := 174.
Definition checkmultisigverify : Z := 175.
Definition nop1 : Z := 176.
Definition nop2 : Z := 177.
Definition nop3 : Z := 178.
Definition nop4 : Z := 179.
Definition nop5 : Z := 180.
Definition nop6 : Z := 181.
Definition nop7 : Z := 182.
Definition nop8 : Z := 183.
Definition nop9 : Z := 184.
Definition nop10 : Z := 185.
Definition checklocktimeverify : Z := nop2.
Definition checksequenceverify : Z := nop3.
Definition reserved_186 : Z := 186.
Definition reserved_255 : Z := 255.

End opcode.
(** ** Rule forks: the bits of a [uint32_t] *)

Module rule_fork.

Definition no_rules : Z := 0.
Definition easy_blocks : Z := Z.shiftl 1 0.
Definition bip16_rule : Z := Z.shiftl 1 1.
Definition bip30_rule : Z := Z.shiftl 1 2.
Definition bip34_rule : Z := Z.shiftl 1 3.
Definition bip66_rule : Z := Z.shiftl 1 4.
Definition bip65_rule : Z := Z.shiftl 1 5.
Definition bip90_rule : Z := Z.shiftl 1 6.
Definition allow_collisions : Z := Z.shiftl 1 7.
Definition bip68_rule : Z := Z.shiftl 1 8.
Definition bip112_rule : Z := Z.shiftl 1 9.
Definition bip113_rule : Z := Z.shiftl 1 10.
Definition bip141_rule : Z := Z.shiftl 1 11.
Definition bip143_rule : Z := Z.shiftl 1 12.
Definition bip147_rule : Z := Z.shiftl 1 13.
Definition cash_low_s_rule : Z := Z.shiftl 1 15.
Definition cash_verify_flags_script_enable_sighash_forkid : Z := Z.shiftl 1 16.
Definition cash_replay_protection : Z := Z.shiftl 1 17.
Definition cash_checkdatasig : Z := Z.shiftl 1 18.
Definition retarget : Z := Z.shiftl 1 30.
Definition unverified : Z := Z.shiftl 1 31.
Definition bip34_activations : Z := Z.lor bip34_rule (Z.lor bip65_rule bip66_rule).
Definition bip9_bit0_group : Z := Z.lor bip68_rule (Z.lor bip112_rule bip113_rule).
Definition bip9_bit1_group : Z := Z.lor bip141_rule (Z.lor bip143_rule bip147_rule).
Definition all_rules : Z := 0xffffffff.

(** [script::is_enabled]: a fork is active when one of its bits is set. *)
Definition is_enabled (active_forks fork : Z) : bool :=
  negb (Z.land fork active_forks =? 0).

End rule_fork.

(** ** The currency the library is compiled for

    The preprocessor symbols [BITPRIM_CURRENCY_BCH] and
    [BITPRIM_CURRENCY_LTC] select one of three programs; the definitions take
    the choice as an implicit argument. *)

Inductive currency := bitcoin | bitcoin_cash | litecoin.

Class Currency := get_currency : currency.

Definition is_bch `{Currency} : bool :=
  match get_currency with bitcoin_cash => true | _ => false end.

Definition is_ltc `{Currency} : bool :=
  match get_currency with litecoin => true | _ => false end.

Section Constants.
Context `{Currency}.

Definition max_block_size_new : Z := 32000000.
Definition max_block_size : Z := 1000000.
Definition max_sigops_factor : Z := 50.

Definition get_max_block_size : Z := if is_bch then max_block_size_new else max_block_size.

Definition get_max_block_sigops : Z :=
  if is_bch then max_block_size_new / max_sigops_factor
  else max_block_size / max_sigops_factor.

Definition fast_sigops_factor : Z := 4.
Definition max_fast_sigops : Z := fast_sigops_factor * get_max_block_sigops.
Definition light_weight_factor : Z := 4.
Definition max_block_weight : Z := light_weight_factor * get_max_block_size.
Definition base_size_contribution : Z := 3.
Definition total_size_contribution : Z := 1.

Definition one_million_bytes_block : Z := 1000000.
Definition sigops_per_million_bytes : Z := 20000.

(** [size_t] arithmetic: [block_size - 1] wraps at zero. *)
Definition get_allowed_sigops (block_size : Z) : Z :=
  u64 ((1 + u64 (block_size - 1) / one_million_bytes_block) * sigops_per_million_bytes).

Definition satoshi_per_bitcoin : Z := 100000000.
Definition bitcoin_to_satoshi (bitcoin_uints : Z) : Z := u64 (bitcoin_uints * satoshi_per_bitcoin).
Definition initial_block_subsidy_bitcoin : Z := 50.
Definition initial_block_subsidy_satoshi : Z := bitcoin_to_satoshi initial_block_subsidy_bitcoin.

(** [max_money_recursive]: [money] halves each turn, so the 64 turns of its
    width exhaust it. *)
Fixpoint max_money_recursive_fuel (fuel : nat) (money : Z) : Z :=
  match fuel with
  | O => 0
  | S fuel => if money >? 0 then u64 (money + max_money_recursive_fuel fuel (Z.shiftr money 1)) else 0
  end.
Definition max_money_recursive (money : Z) : Z := max_money_recursive_fuel 65 money.

Definition recursive_money : Z := 0x02540be3f5.
Definition retarget_subsidy_interval : Z := if is_ltc then 840000 else 210000.
Definition no_retarget_subsidy_interval : Z := 150.

Definition subsidy_interval (retarget : bool) : Z :=
  if retarget then retarget_subsidy_interval else no_retarget_subsidy_interval.

Definition max_money (retarget : bool) : Z := u64 (recursive_money * subsidy_interval retarget).
End Constants.

Definition max_push_data_size : Z := 520.
Definition max_script_size : Z := 10000.
Definition max_counted_ops : Z := 201.
Definition max_stack_size : Z := 1000.
Definition max_script_public_keys : Z := 20.
Definition multisig_default_sigops : Z := 20.
Definition max_number_size : Z := 4.
Definition max_check_locktime_verify_number_size : Z := 5.
Definition max_check_sequence_verify_number_size : Z := 5.
Definition max_null_data_size : Z := 80.
Definition min_coinbase_size : Z := 2.
Definition max_coinbase_size : Z := 100.
Definition coinbase_maturity : Z := 100.
Definition locktime_threshold : Z := 500000000.
Definition min_transaction_size : Z := 100.
Definition max_input_sequence : Z := 2 ^ 32 - 1.
Definition no_previous_output : Z := 2 ^ 32 - 1.
Definition sighash_null_value : Z := 2 ^ 64 - 1.
Definition relative_locktime_min_version : Z := 2.
Definition relative_locktime_seconds_shift : Z := 9.
Definition relative_locktime_mask : Z := 0x0000ffff.
Definition relative_locktime_disabled : Z := 0x80000000.
Definition relative_locktime_time_locked : Z := 0x00400000.
Definition witness_marker : Z := 0.
Definition witness_flag : Z := 1.
Definition witness_head : Z := 0xaa21a9ed.
Definition min_witness_program : Z := 2.
Definition max_witness_program : Z := 40.

Definition hash_size : nat := 32.
Definition short_hash_size : nat := 20.
Definition null_hash : list Z := repeat 0 32.

(** The memory guards never exceed the width of a size. *)
Lemma get_max_block_size_bound `{Currency} : 0 < get_max_block_size <= 32000000.
Proof. unfold get_max_block_size, is_bch. destruct get_currency; by vm_compute. Qed.

(** The constant [recursive_money] is the value the comment in [max_money]
    says was optimized out, and the supply fits [uint64_t]. *)
Lemma recursive_money_derivation :
  recursive_money = max_money_recursive initial_block_subsidy_satoshi.
Proof. by vm_compute. Qed.

Lemma max_money_exact `{Currency} retarget :
  max_money retarget = recursive_money * subsidy_interval retarget /\
  0 < max_money retarget < 2 ^ 53.
Proof.
  unfold max_money, subsidy_interval, retarget_subsidy_interval, is_ltc.
  destruct retarget, get_currency; by vm_compute.
Qed.
