(* ===== verification/Errors.v ===== *)
(** Error codes as text and from the outside: [src/error.cpp]. *)

From Stdlib Require Import String.
From stdpp Require Import strings.
From S2P Require Import Prelude Codes.

Import error.

Local Open Scope string_scope.
Local Open Scope list_scope.

(** ** Messages *)

Definition category_name : String.string := "bitcoin".

(** The table of [error_category_impl::message] *)
Definition messages : list (code * String.string) := [
  (success, "success");
  (deprecated, "deprecated");
  (unknown, "unknown error");
  (not_found, "object does not exist");
  (file_system, "file system error");
  (non_standard, "transaction not standard");
  (not_implemented, "feature not implemented");
  (oversubscribed, "service oversubscribed");
  (service_stopped, "service stopped");
  (operation_failed, "operation failed");
  (resolve_failed, "resolving hostname failed");
  (network_unreachable, "unable to reach remote host");
  (address_in_use, "address already in use");
  (listen_failed, "incoming connection failed");
  (accept_failed, "connection acceptance failed");
  (bad_stream, "bad data stream");
  (channel_timeout, "connection timed out");
  (address_blocked, "address blocked by policy");
  (channel_stopped, "channel stopped");
  (peer_throttling, "unresponsive peer may be throttling");
  (store_block_invalid_height, "block out of order");
  (store_block_missing_parent, "block missing parent");
  (store_block_duplicate, "block duplicate");
  (duplicate_block, "duplicate block");
  (orphan_block, "missing block parent");
  (invalid_previous_block, "previous block failed to validate");
  (insufficient_work, "insufficient work to reorganize");
  (orphan_transaction, "missing transaction parent");
  (insufficient_fee, "insufficient transaction fee");
  (dusty_transaction, "output value too low");
  (stale_chain, "blockchain too far behind");
  (invalid_proof_of_work, "proof of work invalid");
  (futuristic_timestamp, "timestamp too far in the future");
  (checkpoints_failed, "block hash rejected by checkpoint");
  (old_version_block, "block version rejected at current height");
  (incorrect_proof_of_work, "proof of work does not match bits field");
  (timestamp_too_early, "block timestamp is too early");
  (block_size_limit, "block size limit exceeded");
  (empty_block, "block has no transactions");
  (first_not_coinbase, "first transaction not a coinbase");
  (extra_coinbases, "more than one coinbase");
  (internal_duplicate, "matching transaction hashes in block");
  (block_internal_double_spend, "double spend internal to block");
  (forward_reference, "transactions out of order");
  (merkle_mismatch, "merkle root mismatch");
  (block_legacy_sigop_limit, "too many block legacy signature operations");
  (non_canonical_ordered, "the block is not canonically ordered");
  (block_non_final, "block contains a non-final transaction");
  (coinbase_height_mismatch, "block height mismatch in coinbase");
  (coinbase_value_limit, "coinbase value too high");
  (block_embedded_sigop_limit, "too many block embedded signature operations");
  (invalid_witness_commitment, "invalid witness commitment");
  (block_weight_limit, "block weight limit exceeded");
  (empty_transaction, "transaction inputs or outputs empty");
  (previous_output_null, "non-coinbase transaction has input with null previous output");
  (spend_overflow, "spend outside valid range");
  (invalid_coinbase_script_size, "coinbase script too small or large");
  (coinbase_transaction, "coinbase transaction disallowed in memory pool");
  (transaction_internal_double_spend, "double spend internal to transaction");
  (transaction_size_limit, "transaction size limit exceeded");
  (transaction_legacy_sigop_limit, "too many transaction legacy signature operations");
  (transaction_non_final, "transaction currently non-final for next block");
  (premature_validation, "transaction validation under checkpoint");
  (unspent_duplicate, "matching transaction with unspent outputs");
  (missing_previous_output, "previous output not found");
  (double_spend, "double spend of input");
  (coinbase_maturity, "immature coinbase spent");
  (spend_exceeds_value, "spend exceeds value of inputs");
  (transaction_embedded_sigop_limit, "too many transaction embedded signature operations");
  (sequence_locked, "transaction currently locked");
  (transaction_weight_limit, "transaction weight limit exceeded");
  (invalid_script, "invalid script");
  (invalid_script_size, "invalid script size");
  (invalid_push_data_size, "invalid push data size");
  (invalid_operation_count, "invalid operation count");
  (invalid_stack_size, "invalid stack size");
  (invalid_stack_scope, "invalid stack scope");
  (invalid_script_embed, "invalid script embed");
  (invalid_signature_encoding, "invalid signature encoding");
  (invalid_signature_lax_encoding, "invalid signature lax encoding");
  (incorrect_signature, "incorrect signature");
  (unexpected_witness, "unexpected witness");
  (invalid_witness, "invalid witness");
  (dirty_witness, "dirty witness");
  (stack_false, "stack false");
  (op_disabled, "op_disabled");
  (op_reserved, "op_reserved");
  (op_push_size, "op_push_size");
  (op_push_data, "op_push_data");
  (op_if, "op_if");
  (op_notif, "op_notif");
  (op_else, "op_else");
  (op_endif, "op_endif");
  (op_verify1, "op_verify1");
  (op_verify2, "op_verify2");
  (op_return, "op_return");
  (op_to_alt_stack, "op_to_alt_stack");
  (op_from_alt_stack, "op_from_alt_stack");
  (op_drop2, "op_drop2");
  (op_dup2, "op_dup2");
  (op_dup3, "op_dup3");
  (op_over2, "op_over2");
  (op_rot2, "op_rot2");
  (op_swap2, "op_swap2");
  (op_if_dup, "op_if_dup");
  (op_drop, "op_drop");
  (op_dup, "op_dup");
  (op_nip, "op_nip");
  (op_over, "op_over");
  (op_pick, "op_pick");
  (op_roll, "op_roll");
  (op_rot, "op_rot");
  (op_swap, "op_swap");
  (op_tuck, "op_tuck");
  (op_size, "op_size");
  (op_equal, "op_equal");
  (op_equal_verify1, "op_equal_verify1");
  (op_equal_verify2, "op_equal_verify2");
  (op_add1, "op_add1");
  (op_sub1, "op_sub1");
  (op_negate, "op_negate");
  (op_abs, "op_abs");
  (op_not, "op_not");
  (op_nonzero, "op_nonzero");
  (op_add, "op_add");
  (op_sub, "op_sub");
  (op_bool_and, "op_bool_and");
  (op_bool_or, "op_bool_or");
  (op_num_equal, "op_num_equal");
  (op_num_equal_verify1, "op_num_equal_verify1");
  (op_num_equal_verify2, "op_num_equal_verify2");
  (op_num_not_equal, "op_num_not_equal");
  (op_less_than, "op_less_than");
  (op_greater_than, "op_greater_than");
  (op_less_than_or_equal, "op_less_than_or_equal");
  (op_greater_than_or_equal, "op_greater_than_or_equal");
  (op_min, "op_min");
  (op_max, "op_max");
  (op_within, "op_within");
  (op_ripemd160, "op_ripemd160");
  (op_sha1, "op_sha1");
  (op_sha256, "op_sha256");
  (op_hash160, "op_hash160");
  (op_hash256, "op_hash256");
  (op_code_seperator, "op_code_seperator");
  (op_check_sig_verify1, "op_check_sig_verify1");
  (op_check_sig, "op_check_sig");
  (op_check_multisig_verify1, "op_check_multisig_verify1");
  (op_check_multisig_verify2, "op_check_multisig_verify2");
  (op_check_multisig_verify3, "op_check_multisig_verify3");
  (op_check_multisig_verify4, "op_check_multisig_verify4");
  (op_check_multisig_verify5, "op_check_multisig_verify5");
  (op_check_multisig_verify6, "op_check_multisig_verify6");
  (op_check_multisig_verify7, "op_check_multisig_verify7");
  (op_check_multisig, "op_check_multisig");
  (op_check_locktime_verify1, "op_check_locktime_verify1");
  (op_check_locktime_verify2, "op_check_locktime_verify2");
  (op_check_locktime_verify3, "op_check_locktime_verify3");
  (op_check_locktime_verify4, "op_check_locktime_verify4");
  (op_check_locktime_verify5, "op_check_locktime_verify5");
  (op_check_locktime_verify6, "op_check_locktime_verify6");
  (op_check_sequence_verify1, "op_check_sequence_verify1");
  (op_check_sequence_verify2, "op_check_sequence_verify2");
  (op_check_sequence_verify3, "op_check_sequence_verify3");
  (op_check_sequence_verify4, "op_check_sequence_verify4");
  (op_check_sequence_verify5, "op_check_sequence_verify5");
  (op_check_sequence_verify6, "op_check_sequence_verify6");
  (op_check_sequence_verify7, "op_check_sequence_verify7");
  (operation_failed_0, "operation failed 0");
  (operation_failed_1, "operation failed 1");
  (operation_failed_2, "operation failed 2");
  (operation_failed_3, "operation failed 3");
  (operation_failed_4, "operation failed 4");
  (operation_failed_5, "operation failed 5");
  (operation_failed_6, "operation failed 6");
  (operation_failed_7, "operation failed 7");
  (operation_failed_8, "operation failed 8");
  (operation_failed_9, "operation failed 9");
  (operation_failed_10, "operation failed 10");
  (operation_failed_11, "operation failed 11");
  (operation_failed_12, "operation failed 12");
  (operation_failed_13, "operation failed 13");
  (operation_failed_14, "operation failed 14");
  (operation_failed_15, "operation failed 15");
  (operation_failed_16, "operation failed 16");
  (operation_failed_17, "operation failed 17");
  (operation_failed_18, "operation failed 18");
  (operation_failed_19, "operation failed 19");
  (operation_failed_20, "operation failed 20");
  (operation_failed_21, "operation failed 21");
  (operation_failed_22, "operation failed 22");
  (operation_failed_23, "operation failed 23");
  (operation_failed_24, "operation failed 24");
  (operation_failed_25, "operation failed 25");
  (operation_failed_26, "operation failed 26");
  (operation_failed_27, "operation failed 27");
  (operation_failed_28, "operation failed 28");
  (operation_failed_29, "operation failed 29");
  (operation_failed_30, "operation failed 30");
  (op_check_multisig_verify8, "op_check_multisig_verify8")].

Fixpoint find_message (ev : Z) (l : list (code * String.string)) : option String.string :=
  match l with
  | [] => None
  | (c, text) :: l => if (value c =? ev)%Z then Some text else find_message ev l
  end.

Definition message (ev : Z) : String.string :=
  match find_message ev messages with Some text => text | None => "invalid code" end.

(** ** Codes of the system *)

(** The names of [boost::system::errc] that the code tests, and any other
    value. *)
Inductive boost_error :=
| boost_success
| boost_connection_aborted
| boost_connection_refused
| boost_connection_reset
| boost_not_connected
| boost_operation_canceled
| boost_operation_not_permitted
| boost_operation_not_supported
| boost_owner_dead
| boost_permission_denied
| boost_address_family_not_supported
| boost_address_not_available
| boost_bad_address
| boost_destination_address_required
| boost_broken_pipe
| boost_host_unreachable
| boost_network_down
| boost_network_reset
| boost_network_unreachable
| boost_no_link
| boost_no_protocol_option
| boost_no_such_file_or_directory
| boost_not_a_socket
| boost_protocol_not_supported
| boost_wrong_protocol_type
| boost_address_in_use
| boost_already_connected
| boost_connection_already_in_progress
| boost_operation_in_progress
| boost_bad_message
| boost_illegal_byte_sequence
| boost_io_error
| boost_message_size
| boost_no_message_available
| boost_no_message
| boost_no_stream_resources
| boost_not_a_stream
| boost_protocol_error
| boost_stream_timeout
| boost_timed_out
| boost_cross_device_link
| boost_bad_file_descriptor
| boost_device_or_resource_busy
| boost_directory_not_empty
| boost_executable_format_error
| boost_file_exists
| boost_file_too_large
| boost_filename_too_long
| boost_invalid_seek
| boost_is_a_directory
| boost_no_space_on_device
| boost_no_such_device
| boost_no_such_device_or_address
| boost_read_only_file_system
| boost_text_file_busy
| boost_too_many_files_open
| boost_too_many_files_open_in_system
| boost_too_many_links
| boost_too_many_symbolic_link_levels
| boost_argument_list_too_long
| boost_argument_out_of_domain
| boost_function_not_supported
| boost_identifier_removed
| boost_inappropriate_io_control_operation
| boost_interrupted
| boost_invalid_argument
| boost_no_buffer_space
| boost_no_child_process
| boost_no_lock_available
| boost_no_such_process
| boost_not_a_directory
| boost_not_enough_memory
| boost_operation_would_block
| boost_resource_deadlock_would_occur
| boost_result_out_of_range
| boost_state_not_recoverable
| boost_value_too_large
| boost_other.

Definition boost_to_error_code (ec : boost_error) : code :=
  match ec with
  | boost_success => success
  | boost_connection_aborted | boost_connection_refused | boost_connection_reset | boost_not_connected
  | boost_operation_canceled | boost_operation_not_permitted | boost_operation_not_supported
  | boost_owner_dead | boost_permission_denied => operation_failed
  | boost_address_family_not_supported | boost_address_not_available | boost_bad_address
  | boost_destination_address_required => resolve_failed
  | boost_broken_pipe | boost_host_unreachable | boost_network_down | boost_network_reset
  | boost_network_unreachable | boost_no_link | boost_no_protocol_option
  | boost_no_such_file_or_directory | boost_not_a_socket | boost_protocol_not_supported
  | boost_wrong_protocol_type => network_unreachable
  | boost_address_in_use | boost_already_connected | boost_connection_already_in_progress
  | boost_operation_in_progress => address_in_use
  | boost_bad_message | boost_illegal_byte_sequence | boost_io_error | boost_message_size
  | boost_no_message_available | boost_no_message | boost_no_stream_resources | boost_not_a_stream
  | boost_protocol_error => bad_stream
  | boost_stream_timeout | boost_timed_out => channel_timeout
  | boost_cross_device_link | boost_bad_file_descriptor | boost_device_or_resource_busy
  | boost_directory_not_empty | boost_executable_format_error | boost_file_exists | boost_file_too_large
  | boost_filename_too_long | boost_invalid_seek | boost_is_a_directory | boost_no_space_on_device
  | boost_no_such_device | boost_no_such_device_or_address | boost_read_only_file_system
  | boost_text_file_busy | boost_too_many_files_open | boost_too_many_files_open_in_system
  | boost_too_many_links | boost_too_many_symbolic_link_levels => file_system
  | boost_argument_list_too_long | boost_argument_out_of_domain | boost_function_not_supported
  | boost_identifier_removed | boost_inappropriate_io_control_operation | boost_interrupted
  | boost_invalid_argument | boost_no_buffer_space | boost_no_child_process | boost_no_lock_available
  | boost_no_such_process | boost_not_a_directory | boost_not_enough_memory
  | boost_operation_would_block | boost_resource_deadlock_would_occur | boost_result_out_of_range
  | boost_state_not_recoverable | boost_value_too_large => unknown
  | boost_other => unknown
  end.

(** The values of [errno] that the code tests, and any other. *)
Inductive posix_error :=
| ENOBUFS
| ENOTSUP
| EPROTONOSUPPORT
| ENETDOWN
| EADDRINUSE
| EADDRNOTAVAIL
| ECONNREFUSED
| EINPROGRESS
| EAGAIN
| EFAULT
| EINTR
| ENOTSOCK
| E_other.

Definition posix_to_error_code (ec : posix_error) : code :=
  match ec with
  | ENOBUFS | ENOTSUP | EPROTONOSUPPORT => operation_failed
  | ENETDOWN => network_unreachable
  | EADDRINUSE => address_in_use
  | EADDRNOTAVAIL => resolve_failed
  | ECONNREFUSED => accept_failed
  | EINPROGRESS | EAGAIN => channel_timeout
  | EFAULT => bad_stream
  | EINTR | ENOTSOCK => service_stopped
  | E_other => unknown
  end.

(** ** What the messages identify *)

(** The codes of the transaction functions, which the table lacks. *)
Definition unnamed : list code := [invalid_output; lock_time_conflict; input_index_out_of_range; input_sign_failed].

Lemma value_inj c c' : value c = value c' -> c = c'.
Proof. intros E. apply (f_equal of_value) in E. rewrite !of_value_value in E. by injection E. Qed.

Lemma messages_listed c : existsb (fun c' => (value c' =? value c)%Z) (map fst messages ++ unnamed) = true.
Proof. by destruct c. Qed.

Lemma messages_complete c : In c (map fst messages) \/ In c unnamed.
Proof.
  apply in_app_iff. pose proof (messages_listed c) as Hl. apply existsb_exists in Hl as (c' & Hin & E%Z.eqb_eq).
  apply value_inj in E. by subst.
Qed.

Lemma messages_found : forallb (fun p => String.eqb (message (value (fst p))) (snd p)) messages = true.
Proof. by vm_compute. Qed.

Lemma messages_distinct : NoDup (map snd messages).
Proof. apply (bool_decide_unpack _). by vm_compute. Qed.

Lemma unnamed_invalid c : In c unnamed -> message (value c) = "invalid code".
Proof. unfold unnamed. cbn [In]. intros [<-|[<-|[<-|[<-|[]]]]]; by vm_compute. Qed.

Lemma message_found c text : In (c, text) messages -> message (value c) = text.
Proof.
  intros Hin. pose proof messages_found as Hf. rewrite forallb_forall in Hf. specialize (Hf _ Hin).
  by apply String.eqb_eq in Hf.
Qed.

Lemma no_invalid_message : forallb (fun p => negb (String.eqb (snd p) "invalid code")) messages = true.
Proof. by vm_compute. Qed.

Lemma distinct_second {A B} (l : list (A * B)) a a' b : NoDup (map snd l) -> In (a, b) l -> In (a', b) l -> a = a'.
Proof.
  induction l as [|[x y] l IH]; cbn [map snd In]; [done|]. intros [Hn Hd]%NoDup_cons [E|Ha] [E'|Ha'].
  - congruence.
  - injection E as -> ->. exfalso. apply Hn, list_elem_of_In, in_map_iff. by exists (a', b).
  - injection E' as -> ->. exfalso. apply Hn, list_elem_of_In, in_map_iff. by exists (a, b).
  - by apply IH.
Qed.

(** A message identifies its code: two codes with the same message are the
    same, or are both among the four codes of the transaction functions, which
    have no message of their own; and every other code has one. *)
Lemma messages_identify c c' :
  (message (value c) = "invalid code" <-> In c unnamed) /\
  (message (value c) = message (value c') -> c = c' \/ In c unnamed /\ In c' unnamed).
Proof.
  assert (Hin : forall x, In x (map fst messages) -> exists text, In (x, text) messages /\ message (value x) = text /\ text <> "invalid code").
  { intros x Hx. apply in_map_iff in Hx as ([y text] & <- & Hx). exists text. cbn [fst] in *. split_and!; [done|by apply message_found|].
    pose proof no_invalid_message as Hn. rewrite forallb_forall in Hn. specialize (Hn _ Hx). cbn [snd] in Hn.
    apply negb_true_iff, String.eqb_neq in Hn. done. }
  assert (Hinv : forall x, message (value x) = "invalid code" <-> In x unnamed).
  { intros x. split; [|apply unnamed_invalid]. intros E. destruct (messages_complete x) as [Hx|Hx]; [|done].
    destruct (Hin x Hx) as (text & _ & Ht & Hne). congruence. }
  split; [apply Hinv|]. intros E. destruct (messages_complete c) as [Hc|Hc].
  - destruct (Hin c Hc) as (text & Hm & Ht & Hne). destruct (messages_complete c') as [Hc'|Hc'].
    + destruct (Hin c' Hc') as (text' & Hm' & Ht' & _). left. replace text' with text in Hm' by congruence.
      exact (distinct_second messages c c' text messages_distinct Hm Hm').
    + apply Hinv in Hc'. congruence.
  - right. split; [done|]. apply Hinv. apply Hinv in Hc. congruence.
Qed.
