(* ===== verification/Serializer.v ===== *)
(** The serializer of [impl/utility/serializer.ipp], which writes through an
    iterator without checking for the end of the memory. An operation outside of
    the memory has no result. *)

From S2P Require Import Prelude Limits Endian Reader Writer Codes.

Module serializer.

(** The memory that the iterator runs over, the position of the iterator, and
    [valid_]. *)
Record t := mk { memory : list Z; position : nat; valid : bool }.

Definition construct (memory : list Z) : t := mk memory 0 true.

(** [*iterator_++ = value] *)
Definition write_byte (value : Z) (s : t) : option t :=
  if (position s <? length (memory s))%nat
  then Some (mk (<[position s := u8 value]> (memory s)) (S (position s)) (valid s))
  else None.

(** [std::copy] to the iterator *)
Fixpoint write_forward (data : list Z) (s : t) : option t :=
  match data with
  | [] => Some s
  | b :: data => s ← write_byte b s; write_forward data s
  end.

Definition write_reverse (data : list Z) (s : t) : option t := write_forward (rev data) s.
Definition write_big_endian (n : nat) (value : Z) (s : t) : option t := write_forward (to_big_endian n value) s.
Definition write_little_endian (n : nat) (value : Z) (s : t) : option t := write_forward (to_little_endian n value) s.

Definition write_hash (hash : list Z) (s : t) : option t := write_forward hash s.
Definition write_2_bytes_big_endian (value : Z) (s : t) : option t := write_big_endian 2 value s.
Definition write_4_bytes_big_endian (value : Z) (s : t) : option t := write_big_endian 4 value s.
Definition write_8_bytes_big_endian (value : Z) (s : t) : option t := write_big_endian 8 value s.

Definition write_variable_big_endian (value : Z) (s : t) : option t :=
  if value <? varint_two_bytes then write_byte (u8 value) s
  else if value <=? max_uint16 then s ← write_byte varint_two_bytes s; write_2_bytes_big_endian (u16 value) s
  else if value <=? max_uint32 then s ← write_byte varint_four_bytes s; write_4_bytes_big_endian (u32 value) s
  else s ← write_byte varint_eight_bytes s; write_8_bytes_big_endian value s.

Definition write_size_big_endian (value : Z) (s : t) : option t := write_variable_big_endian value s.

Definition write_2_bytes_little_endian (value : Z) (s : t) : option t := write_little_endian 2 value s.
Definition write_4_bytes_little_endian (value : Z) (s : t) : option t := write_little_endian 4 value s.
Definition write_8_bytes_little_endian (value : Z) (s : t) : option t := write_little_endian 8 value s.

Definition write_error_code (ec : error.code) (s : t) : option t := write_4_bytes_little_endian (u32 (error.value ec)) s.

Definition write_variable_little_endian (value : Z) (s : t) : option t :=
  if value <? varint_two_bytes then write_byte (u8 value) s
  else if value <=? max_uint16 then s ← write_byte varint_two_bytes s; write_2_bytes_little_endian (u16 value) s
  else if value <=? max_uint32 then s ← write_byte varint_four_bytes s; write_4_bytes_little_endian (u32 value) s
  else s ← write_byte varint_eight_bytes s; write_8_bytes_little_endian value s.

Definition write_size_little_endian (value : Z) (s : t) : option t := write_variable_little_endian value s.

Definition write_bytes (data : list Z) (s : t) : option t := write_forward data s.
(** [write_bytes] of an address and a size *)
Definition write_bytes_size (data : list Z) (size : Z) (s : t) : option t := write_forward (take (Z.to_nat size) data) s.

Definition write_string (value : list Z) (s : t) : option t :=
  s ← write_variable_little_endian (zlen value) s; write_forward value s.

Definition write_string_size (value : list Z) (size : Z) (s : t) : option t :=
  let length := Z.min size (zlen value) in
  s ← write_bytes_size value length s;
  write_bytes (repeat string_terminator (Z.to_nat (floor_subtract 64 size length))) s.

Definition skip (size : Z) (s : t) : t := mk (memory s) (position s + Z.to_nat size) (valid s).

Definition write_delegated (write : t -> option t) (s : t) : option t := write s.

(** [from_big_endian_unsafe] and [from_little_endian_unsafe] of the bytes at an
    iterator *)
Definition load (from : nat -> list Z -> Z) (n : nat) (at_ : nat) (s : t) : option Z :=
  if (at_ + n <=? length (memory s))%nat then Some (from n (take n (drop at_ (memory s)))) else None.

Definition advance (n : nat) (s : t) : t := mk (memory s) (position s + n) (valid s).

(** The cases of the switch: the one of eight bytes goes on to the one of four,
    so that what it read is not used, and neither is what follows the
    switch. *)
Definition read_size (from : nat -> list Z -> Z) (s : t) : option (Z * t) :=
  prefix ← memory s !! position s;
  let begin := S (position s) in
  let s := advance 1 s in
  let four s := (let s := advance 4 s in size ← load from 4 begin s; Some (size, s)) in
  if prefix =? varint_eight_bytes then
    let s := advance 8 s in _ ← load from 8 begin s; four s
  else if prefix =? varint_four_bytes then four s
  else if prefix =? varint_two_bytes then
    let s := advance 2 s in size ← load from 2 begin s; Some (size, s)
  else Some (prefix, s).

Definition read_size_big_endian (s : t) : option (Z * t) := read_size from_big_endian s.
Definition read_size_little_endian (s : t) : option (Z * t) := read_size from_little_endian s.

(** ** What is written *)

(** The bytes are in the memory, before and after which nothing changes, or do
    not fit. *)
Definition stores (data : list Z) (s : t) : option t :=
  if (position s + length data <=? length (memory s))%nat
  then Some (mk (take (position s) (memory s) ++ data ++ drop (position s + length data) (memory s))
                (position s + length data) (valid s))
  else if (length data =? 0)%nat then Some s else None.

Lemma stores_nil s : stores [] s = Some s.
Proof.
  unfold stores. cbn [length]. rewrite Nat.add_0_r. destruct (Nat.leb_spec (position s) (length (memory s))); [|done].
  cbn [app]. rewrite take_drop. by destruct s.
Qed.

Lemma stores_byte b data s : byte_ok b -> (s' ← write_byte b s; stores data s') = stores (b :: data) s.
Proof.
  intros Hb. unfold write_byte, stores. cbn [length]. unfold u8. rewrite wrap_small by exact Hb.
  destruct (Nat.ltb_spec (position s) (length (memory s))) as [Hl|Hl]; cbn [mbind option_bind].
  - cbn [position memory valid]. rewrite length_insert.
    replace (S (position s) + length data)%nat with (position s + S (length data))%nat by lia.
    destruct (Nat.leb_spec (position s + S (length data)) (length (memory s))).
    + do 2 f_equal. destruct (lookup_lt_is_Some_2 (memory s) (position s) Hl) as [x Hx].
      rewrite (insert_take_drop _ _ _ Hl).
      assert (Ht : length (take (position s) (memory s)) = position s) by (rewrite length_take; lia).
      rewrite take_app_ge, drop_app_ge by lia. rewrite Ht.
      replace (S (position s) - position s)%nat with 1%nat by lia.
      replace (position s + S (length data) - position s)%nat with (S (length data)) by lia.
      cbn [take drop]. rewrite drop_drop. rewrite take_0, <- app_assoc. cbn [app]. do 4 f_equal. lia.
    + destruct data; [cbn in *; lia|]. done.
  - destruct (Nat.leb_spec (position s + S (length data)) (length (memory s))); [lia|done].
Qed.

Lemma write_forward_stores data s : bytes_ok data -> write_forward data s = stores data s.
Proof.
  intros Hd. revert s. induction data as [|b data IH]; intros s; [by rewrite stores_nil|].
  apply bytes_ok_cons in Hd as [Hb Hd]. cbn [write_forward]. rewrite <- stores_byte by done.
  destruct (write_byte b s) as [s'|]; [|done]. by apply IH.
Qed.

Lemma stores_app a b s : bytes_ok a -> bytes_ok b -> (s' ← stores a s; stores b s') = stores (a ++ b) s.
Proof.
  intros Ha Hb. rewrite <- !write_forward_stores by (done || by apply bytes_ok_app).
  transitivity (s' ← write_forward a s; write_forward b s').
  - destruct (write_forward a s); [|done]. cbn [mbind option_bind]. by rewrite write_forward_stores.
  - clear. revert s. induction a as [|x a IH]; intros s; [done|]. cbn [write_forward app].
    destruct (write_byte x s); [|done]. apply IH.
Qed.

Lemma write_byte_stores v s : write_byte v s = stores (Writer.write_byte v) s.
Proof.
  unfold Writer.write_byte. rewrite <- stores_byte by apply u8_byte.
  assert (E : write_byte (u8 v) s = write_byte v s) by (unfold write_byte, u8; by rewrite (wrap_small 8 (wrap 8 v)) by apply (u8_byte v)).
  rewrite E. destruct (write_byte v s) as [s'|]; [|done]. cbn [mbind option_bind]. by rewrite stores_nil.
Qed.

(** Sequences of stores. *)
Lemma then_stores (m : t -> option t) (k : t -> option t) a b s :
  (forall s, m s = stores a s) -> (forall s, k s = stores b s) -> bytes_ok a -> bytes_ok b ->
  (s' ← m s; k s') = stores (a ++ b) s.
Proof.
  intros Hm Hk Ha Hb. rewrite Hm, <- stores_app by done. destruct (stores a s); [|done]. cbn [mbind option_bind]. apply Hk.
Qed.

Lemma write_big_stores n v s : write_big_endian n v s = stores (to_big_endian n v) s.
Proof. apply write_forward_stores, bytes_ok_to_big_endian. Qed.

Lemma write_little_stores n v s : write_little_endian n v s = stores (to_little_endian n v) s.
Proof. apply write_forward_stores, bytes_ok_to_little_endian. Qed.

Lemma byte_written v : bytes_ok (Writer.write_byte v).
Proof. apply Forall_cons_2; [apply u8_byte|constructor]. Qed.

Lemma variable_written v :
  bytes_ok (Writer.write_variable_little_endian v) /\ bytes_ok (Writer.write_variable_big_endian v).
Proof.
  unfold Writer.write_variable_little_endian, Writer.write_variable_big_endian.
  split; repeat case_match; rewrite ?bytes_ok_app; split_and?; try apply byte_written;
    apply bytes_ok_to_little_endian || apply bytes_ok_to_big_endian.
Qed.

Lemma write_variable_stores v s :
  write_variable_little_endian v s = stores (Writer.write_variable_little_endian v) s /\
  write_variable_big_endian v s = stores (Writer.write_variable_big_endian v) s.
Proof.
  assert (Hu : forall s, write_byte (u8 v) s = stores (Writer.write_byte v) s).
  { intros s'. rewrite write_byte_stores. unfold Writer.write_byte, u8. by rewrite (wrap_small 8 (wrap 8 v)) by apply (u8_byte v). }
  unfold write_variable_little_endian, write_variable_big_endian,
    Writer.write_variable_little_endian, Writer.write_variable_big_endian.
  split; repeat case_match; try apply Hu; (apply then_stores;
    [intros; apply write_byte_stores|intros; apply write_little_stores || apply write_big_stores|apply byte_written|
     apply bytes_ok_to_little_endian || apply bytes_ok_to_big_endian]).
Qed.

Lemma write_string_size_stores value size s :
  bytes_ok value -> in_width 64 size ->
  write_string_size value size s = stores (Writer.write_string_size value size) s.
Proof.
  intros Hv Hs. unfold write_string_size, Writer.write_string_size.
  set (n := Z.min size (zlen value)). pose proof (zlen_nonneg value) as Hz.
  assert (Hn : 0 <= n <= zlen value) by (unfold n; unfold in_width in Hs; lia).
  assert (Hf : floor_subtract 64 size n = if n >=? size then 0 else size - n).
  { unfold floor_subtract. destruct (Z.geb_spec size n), (Z.geb_spec n size); lia. }
  rewrite Hf. apply then_stores.
  - intros s'. by apply write_forward_stores, Forall_take.
  - intros s'. apply write_forward_stores, bytes_ok_repeat.
  - by apply Forall_take.
  - apply bytes_ok_repeat.
Qed.

(** ** What is read back *)

(** The memory holds some bytes at the iterator. *)
Definition holds (data : list Z) (s : t) : Prop := take (length data) (drop (position s) (memory s)) = data.

Lemma holds_length data s : holds data s -> data <> [] -> (position s + length data <= length (memory s))%nat.
Proof.
  unfold holds. intros Hh Hne. apply (f_equal length) in Hh. rewrite length_take, length_drop in Hh.
  destruct data; [done|]. simpl length in *. lia.
Qed.

Lemma holds_cons b data s : holds (b :: data) s ->
  memory s !! position s = Some b /\ take (length data) (drop (S (position s)) (memory s)) = data.
Proof.
  unfold holds. cbn [length]. intros Hh. destruct (drop (position s) (memory s)) as [|x l] eqn:E; [done|].
  cbn [take] in Hh. injection Hh as -> Hl. split.
  - rewrite <- (Nat.add_0_r (position s)), <- lookup_drop, E. done.
  - replace (S (position s)) with (position s + 1)%nat by lia. by rewrite <- drop_drop, E.
Qed.

Lemma load_held from n at_ s data rest :
  take (length (data ++ rest)) (drop at_ (memory s)) = data ++ rest -> length data = n -> (0 < n)%nat ->
  load from n at_ s = Some (from n data).
Proof.
  intros Hh Hn Hp. unfold load. pose proof (f_equal length Hh) as Hl.
  rewrite length_take, length_drop, length_app, Hn in Hl. destruct (Nat.leb_spec (at_ + n) (length (memory s))); [|lia].
  do 2 f_equal. apply (f_equal (take n)) in Hh. rewrite take_take in Hh.
  rewrite (take_app_length' data rest n) in Hh by done. rewrite length_app, Hn in Hh.
  by replace (min n (n + length rest)) with n in Hh by lia.
Qed.

Lemma advance_advance a b s : advance a (advance b s) = advance (b + a) s.
Proof. unfold advance. cbn. f_equal. lia. Qed.

Lemma read_size_held from (n : nat) prefix d rest s :
  holds (prefix :: d ++ rest) s ->
  (n = 0 /\ d = [] /\ (prefix < varint_two_bytes)%Z \/
   n = 2 /\ length d = 2 /\ prefix = varint_two_bytes \/
   n = 4 /\ length d = 4 /\ prefix = varint_four_bytes \/
   n = 12 /\ length d = 4 /\ length rest = 4 /\ prefix = varint_eight_bytes)%nat ->
  read_size from s = Some (if (n =? 0)%nat then prefix else from (length d) d, advance (1 + n) s).
Proof.
  intros Hh Hn. apply holds_cons in Hh as [Hp Hd]. unfold read_size. rewrite Hp. cbn [mbind option_bind].
  unfold varint_two_bytes, varint_four_bytes, varint_eight_bytes in *.
  assert (Hmem : forall k, memory (advance k s) = memory s) by done.
  destruct Hn as [(-> & -> & Hx)|[(-> & Hl & ->)|[(-> & Hl & ->)|(-> & Hl & Hr & ->)]]]; cbn [Nat.eqb].
  - repeat (case_if; [lia|]). by rewrite Nat.add_0_r.
  - cbn [Z.eqb Pos.eqb]. rewrite (load_held from 2 _ _ d rest) by (done || lia). cbn [mbind option_bind].
    by rewrite advance_advance, Hl.
  - cbn [Z.eqb Pos.eqb]. rewrite (load_held from 4 _ _ d rest) by (done || lia). cbn [mbind option_bind].
    by rewrite advance_advance, Hl.
  - cbn [Z.eqb Pos.eqb]. rewrite (load_held from 8 _ _ (d ++ rest) []); [|by rewrite app_nil_r|rewrite length_app; lia|lia].
    cbn [mbind option_bind]. rewrite (load_held from 4 _ _ d rest) by (done || lia). cbn [mbind option_bind].
    by rewrite !advance_advance, Hl.
Qed.

Lemma to_little_endian_split n m v : to_little_endian (n + m) v = to_little_endian n v ++ to_little_endian m (Z.shiftr v (8 * Z.of_nat n)).
Proof.
  revert v. induction n as [|n IH]; intros v; [done|]. cbn [Nat.add to_little_endian app]. rewrite IH. do 3 f_equal.
  rewrite Z.shiftr_shiftr by lia. f_equal. lia.
Qed.

Lemma to_big_endian_split n m v : to_big_endian (n + m) v = to_big_endian m (Z.shiftr v (8 * Z.of_nat n)) ++ to_big_endian n v.
Proof. rewrite !to_big_endian_rev, to_little_endian_split. apply rev_app_distr. Qed.

Lemma from_little_endian_wrap n v : from_little_endian n (to_little_endian n v) = v mod 2 ^ (8 * Z.of_nat n).
Proof.
  rewrite from_little_endian_value; [apply le_value_to_little_endian|apply bytes_ok_to_little_endian|apply length_to_little_endian].
Qed.

Lemma from_big_endian_wrap n v : from_big_endian n (to_big_endian n v) = v mod 2 ^ (8 * Z.of_nat n).
Proof.
  rewrite from_big_endian_value, to_big_endian_rev, rev_involutive;
    [apply le_value_to_little_endian|apply bytes_ok_to_big_endian|apply length_to_big_endian].
Qed.

Lemma read_size_little v s :
  in_width 64 v -> holds (Writer.write_size_little_endian v) s ->
  read_size_little_endian s =
  Some (v mod 2 ^ 32, advance (length (Writer.write_size_little_endian v) + if v <? 2 ^ 32 then 0 else 4) s).
Proof.
  intros Hv. unfold read_size_little_endian, Writer.write_size_little_endian, Writer.write_variable_little_endian.
  unfold in_width in Hv. unfold Writer.write_byte, Writer.write_2_bytes_little_endian, Writer.write_4_bytes_little_endian, Writer.write_8_bytes_little_endian,
    max_uint16, max_uint32, u8, u16, u32 in *.
  assert (Hw : forall w, 0 <= v < 2 ^ w -> wrap w v = v) by (intros; by apply wrap_small).
  case_if; [|case_if; [|case_if]].
  - unfold varint_two_bytes in *. rewrite Hw by lia. intros Hh. rewrite (read_size_held _ 0 v [] [] s Hh) by (left; split_and!; (done || unfold varint_two_bytes; lia)).
    destruct (Z.ltb_spec v (2 ^ 32)); [|lia]. cbn [Nat.eqb length]. by rewrite Z.mod_small by lia.
  - unfold varint_two_bytes in *. rewrite Hw by lia. intros Hh. erewrite (read_size_held _ 2 _ _ [] s); [|rewrite app_nil_r; exact Hh|right; left; split_and!; [done|apply length_to_little_endian|done]].
    rewrite length_to_little_endian, from_little_endian_wrap. destruct (Z.ltb_spec v (2 ^ 32)); [|lia]. cbn [Nat.eqb length app].
    rewrite length_to_little_endian, !Z.mod_small by (simpl; lia). done.
  - unfold varint_two_bytes in *. rewrite Hw by lia. intros Hh. erewrite (read_size_held _ 4 _ _ [] s); [|rewrite app_nil_r; exact Hh|right; right; left; split_and!; [done|apply length_to_little_endian|done]].
    rewrite length_to_little_endian, from_little_endian_wrap. destruct (Z.ltb_spec v (2 ^ 32)); [|lia]. cbn [Nat.eqb length app].
    rewrite length_to_little_endian, !Z.mod_small by (simpl; lia). done.
  - change 8%nat with (4 + 4)%nat. rewrite to_little_endian_split. intros Hh.
    erewrite (read_size_held _ 12 _ _ _ s); [|exact Hh|right; right; right; split_and!; [done|apply length_to_little_endian|apply length_to_little_endian|done]].
    rewrite length_to_little_endian, from_little_endian_wrap. destruct (Z.ltb_spec v (2 ^ 32)); [lia|]. cbn [Nat.eqb length app].
    by rewrite length_app, !length_to_little_endian.
Qed.

Lemma read_size_big v s :
  in_width 64 v -> holds (Writer.write_variable_big_endian v) s ->
  read_size_big_endian s =
  Some (if v <? 2 ^ 32 then v else v / 2 ^ 32,
        advance (length (Writer.write_variable_big_endian v) + if v <? 2 ^ 32 then 0 else 4) s).
Proof.
  intros Hv. unfold read_size_big_endian, Writer.write_variable_big_endian.
  unfold in_width in Hv. unfold Writer.write_byte, Writer.write_2_bytes_big_endian, Writer.write_4_bytes_big_endian, Writer.write_8_bytes_big_endian,
    max_uint16, max_uint32, u8, u16, u32 in *.
  assert (Hw : forall w, 0 <= v < 2 ^ w -> wrap w v = v) by (intros; by apply wrap_small).
  case_if; [|case_if; [|case_if]].
  - unfold varint_two_bytes in *. rewrite Hw by lia. intros Hh. rewrite (read_size_held _ 0 v [] [] s Hh) by (left; split_and!; (done || unfold varint_two_bytes; lia)).
    by destruct (Z.ltb_spec v (2 ^ 32)); [|lia].
  - unfold varint_two_bytes in *. rewrite Hw by lia. intros Hh. erewrite (read_size_held _ 2 _ _ [] s); [|rewrite app_nil_r; exact Hh|right; left; split_and!; [done|apply length_to_big_endian|done]].
    rewrite length_to_big_endian, from_big_endian_wrap. destruct (Z.ltb_spec v (2 ^ 32)); [|lia]. cbn [Nat.eqb length app].
    rewrite length_to_big_endian, !Z.mod_small by (simpl; lia). done.
  - unfold varint_two_bytes in *. rewrite Hw by lia. intros Hh. erewrite (read_size_held _ 4 _ _ [] s); [|rewrite app_nil_r; exact Hh|right; right; left; split_and!; [done|apply length_to_big_endian|done]].
    rewrite length_to_big_endian, from_big_endian_wrap. destruct (Z.ltb_spec v (2 ^ 32)); [|lia]. cbn [Nat.eqb length app].
    rewrite length_to_big_endian, !Z.mod_small by (simpl; lia). done.
  - change 8%nat with (4 + 4)%nat. rewrite to_big_endian_split. intros Hh.
    erewrite (read_size_held _ 12 _ _ _ s); [|exact Hh|right; right; right; split_and!; [done|apply length_to_big_endian|apply length_to_big_endian|done]].
    rewrite length_to_big_endian, from_big_endian_wrap, Z.shiftr_div_pow2 by lia. destruct (Z.ltb_spec v (2 ^ 32)); [lia|]. cbn [Nat.eqb length app].
    rewrite length_app, !length_to_big_endian. do 2 f_equal. apply Z.mod_small. split; [apply Z.div_pos; lia|].
    apply Z.div_lt_upper_bound; simpl; lia.
Qed.

(** C39: What the serializer writes into its memory at the iterator is what
    the stream writer appends, byte for byte, with the iterator after it and
    the rest of the memory as it was, or it would pass the end of the memory.
    A size it wrote is read back with the iterator after it if it has at most
    32 bits; the case of eight bytes falls through, and gives the low 32 bits
    of a little endian size or the high 32 bits of a big endian size, and
    leaves the iterator four bytes too far. *)
Theorem serializer_refines_writer v value size ec s :
  in_width 64 v -> in_width 64 size -> bytes_ok value ->
  (write_byte v s = stores (Writer.write_byte v) s /\
   write_bytes value s = stores (Writer.write_bytes value) s /\
   write_2_bytes_little_endian v s = stores (Writer.write_2_bytes_little_endian v) s /\
   write_4_bytes_big_endian v s = stores (Writer.write_4_bytes_big_endian v) s /\
   write_error_code ec s = stores (Writer.write_4_bytes_little_endian (u32 (error.value ec))) s /\
   write_variable_little_endian v s = stores (Writer.write_variable_little_endian v) s /\
   write_variable_big_endian v s = stores (Writer.write_variable_big_endian v) s /\
   write_string value s = stores (Writer.write_string value) s /\
   write_string_size value size s = stores (Writer.write_string_size value size) s) /\
  (holds (Writer.write_size_little_endian v) s ->
   read_size_little_endian s =
   Some (v mod 2 ^ 32, advance (length (Writer.write_size_little_endian v) + if v <? 2 ^ 32 then 0 else 4) s)) /\
  (holds (Writer.write_variable_big_endian v) s ->
   read_size_big_endian s =
   Some (if v <? 2 ^ 32 then v else v / 2 ^ 32,
         advance (length (Writer.write_variable_big_endian v) + if v <? 2 ^ 32 then 0 else 4) s)).
Proof.
  intros Hv Hs Hb. split; [|split].
  - split_and!.
    + apply write_byte_stores.
    + by apply write_forward_stores.
    + apply write_little_stores.
    + apply write_big_stores.
    + apply write_little_stores.
    + apply write_variable_stores.
    + apply write_variable_stores.
    + apply then_stores; [intros; apply write_variable_stores|intros; by apply write_forward_stores|apply variable_written|done].
    + by apply write_string_size_stores.
  - by apply read_size_little.
  - by apply read_size_big.
Qed.
End serializer.
