(* ===== verification/Number.v ===== *)
(** The script number of [include/bitcoin/bitcoin/impl/machine/number.ipp]: a
    64-bit signed value read from and written to a variable-length little
    endian byte string whose top bit is the sign. *)

From S2P Require Import Prelude Endian.

Module number.

Definition negative_mask : Z := 0x80.
Definition positive_0 : Z := 0.
Definition positive_1 : Z := 1.
Definition positive_16 : Z := 16.
Definition negative_1 : Z := Z.lor negative_mask positive_1.

Definition is_negative (data : list Z) : bool :=
  negb (Z.land (List.last data 0) negative_mask =? 0).

(** [number::set_data]; [None] is a return of false, which leaves the number
    as it was. *)
Definition set_data (data : list Z) (max_size : Z) : option Z :=
  if zlen data >? max_size then None
  else match data with
       | [] => Some 0
       | _ =>
           let value := swrap 64 (from_little_endian_loop 0 0 data) in
           if is_negative data then
             let last_shift := 8 * (zlen data - 1) in
             let mask := u64 (Z.lnot (Z.shiftl negative_mask last_shift)) in
             Some (-1 * swrap 64 (Z.land (u64 value) mask))
           else Some value
       end.

(** [while (absolute != 0)]: a [uint64_t] is exhausted after eight bytes. *)
Fixpoint data_loop (fuel : nat) (absolute : Z) : list Z :=
  match fuel with
  | O => []
  | S fuel => if absolute =? 0 then [] else u8 absolute :: data_loop fuel (Z.shiftr absolute 8)
  end.

(** [data.back() |= number::negative_mask] *)
Fixpoint or_back (data : list Z) (mask : Z) : list Z :=
  match data with
  | [] => []
  | [b] => [Z.lor b mask]
  | b :: rest => b :: or_back rest mask
  end.

Definition data (value : Z) : list Z :=
  if value =? 0 then []
  else
    let set_negative := value <? 0 in
    let absolute := u64 (if set_negative then - value else value) in
    let data := data_loop 8 absolute in
    let negative_bit_set := is_negative data in
    if negative_bit_set && set_negative then data ++ [negative_mask]
    else if negative_bit_set then data ++ [0]
    else if set_negative then or_back data negative_mask
    else data.

(** [domain_constrain<int32_t>(value_)] *)
Definition int32 (value : Z) : Z :=
  if value <? - 2 ^ 31 then - 2 ^ 31
  else if value >? 2 ^ 31 - 1 then 2 ^ 31 - 1
  else value.

Definition is_true (value : Z) : bool := negb (value =? 0).

(** ** The loops *)

Lemma data_loop_value fuel a :
  0 <= a < 2 ^ (8 * Z.of_nat fuel) -> le_value (data_loop fuel a) = a.
Proof.
  revert a. induction fuel as [|fuel IH]; intros a Ha; cbn [data_loop].
  - cbn in *. lia.
  - case_if; [subst; done|]. cbn [le_value]. rewrite Z.shiftr_div_pow2 by lia.
    change (2 ^ 8) with 256. rewrite IH.
    + unfold u8, wrap. change (2 ^ 8) with 256. pose proof (Z.div_mod a 256). lia.
    + split; [apply Z.div_pos; lia|]. apply Z.div_lt_upper_bound; [lia|].
      replace (8 * Z.of_nat (S fuel)) with (8 + 8 * Z.of_nat fuel) in Ha by lia.
      rewrite Z.pow_add_r in Ha by lia. lia.
Qed.

Lemma data_loop_bytes fuel a : bytes_ok (data_loop fuel a).
Proof.
  revert a. induction fuel as [|fuel IH]; intros a; cbn [data_loop]; [auto with bitprim|].
  case_if; [auto with bitprim|]. apply bytes_ok_cons. auto with bitprim.
Qed.

(** The loop produces [n] bytes exactly for the values of [n] bytes. *)
Lemma data_loop_length fuel a n :
  0 <= a < 2 ^ (8 * Z.of_nat n) -> (length (data_loop fuel a) <= n)%nat.
Proof.
  revert a n. induction fuel as [|fuel IH]; intros a n Ha; cbn [data_loop]; [simpl; lia|].
  case_if; [simpl; lia|]. destruct n as [|n]; [cbn in Ha; lia|].
  cbn [length]. apply le_n_S, IH. rewrite Z.shiftr_div_pow2 by lia.
  replace (8 * Z.of_nat (S n)) with (8 + 8 * Z.of_nat n) in Ha by lia.
  rewrite Z.pow_add_r in Ha by lia.
  split; [apply Z.div_pos; lia|apply Z.div_lt_upper_bound; lia].
Qed.

Lemma data_loop_snoc fuel a :
  0 < a < 2 ^ (8 * Z.of_nat fuel) ->
  exists p m, data_loop fuel a = p ++ [m] /\ 0 < m < 256 /\ (length p < fuel)%nat.
Proof.
  revert a. induction fuel as [|fuel IH]; intros a Ha; [cbn in Ha; lia|].
  cbn [data_loop]. case_if; [lia|].
  replace (8 * Z.of_nat (S fuel)) with (8 + 8 * Z.of_nat fuel) in Ha by lia.
  rewrite Z.pow_add_r in Ha by lia. change (2 ^ 8) with 256 in Ha.
  rewrite Z.shiftr_div_pow2 by lia. change (2 ^ 8) with 256.
  destruct (Z.lt_ge_cases a 256) as [Hs|Hb].
  - rewrite Z.div_small by lia. exists [], (u8 a). split; [by destruct fuel|].
    unfold u8. rewrite wrap_small by (unfold in_width; lia). simpl. lia.
  - destruct (IH (a / 256)) as (p & m & E' & Hm & Hp).
    { split; [apply Z.div_str_pos; lia|apply Z.div_lt_upper_bound; lia]. }
    exists (u8 a :: p), m. rewrite E'. simpl. split; [done|lia].
Qed.

Lemma or_back_snoc p m mask : or_back (p ++ [m]) mask = p ++ [Z.lor m mask].
Proof.
  induction p as [|b p IH]; [done|]. cbn [app or_back].
  destruct p; [done|]. cbn [app] in *. by rewrite IH.
Qed.

Lemma is_negative_snoc p m : 0 <= m < 256 -> is_negative (p ++ [m]) = (128 <=? m).
Proof.
  intros Hm. unfold is_negative. rewrite List.last_last. apply eqb_prop.
  by apply (byte_forall (fun m => eqb (negb (Z.land m negative_mask =? 0)) (128 <=? m))).
Qed.

(** Clearing the sign bit. *)
Lemma land_clear_sign a k s :
  0 <= s <= 56 -> 0 <= a < 2 ^ s -> 0 <= k < 128 ->
  Z.land (a + (128 + k) * 2 ^ s) (u64 (Z.lnot (Z.shiftl negative_mask s))) = a + k * 2 ^ s.
Proof.
  intros Hs Ha Hk. set (x := a + (128 + k) * 2 ^ s).
  assert (Hx : 0 <= x < 2 ^ 64).
  { pose proof (Z.pow_le_mono_r 2 s 56). pose proof (pow2_pos s). subst x. nia. }
  assert (Hsh : Z.shiftl negative_mask s = 2 ^ (s + 7)).
  { rewrite Z.shiftl_mul_pow2 by lia. rewrite Z.pow_add_r by lia.
    unfold negative_mask. change (2 ^ 7) with 128. lia. }
  assert (Hbit : x = a + k * 2 ^ s + 2 ^ (s + 7)).
  { subst x. rewrite Z.pow_add_r by lia. change (2 ^ 7) with 128. lia. }
  assert (Hhi : 0 <= a + k * 2 ^ s < 2 ^ (s + 7)).
  { rewrite Z.pow_add_r by lia. change (2 ^ 7) with 128. pose proof (pow2_pos s). nia. }
  transitivity (Z.ldiff x (2 ^ (s + 7))).
  - apply Z.bits_inj'. intros i Hi. rewrite Z.land_spec, Z.ldiff_spec, Hsh.
    unfold u64, wrap. destruct (Z.lt_ge_cases i 64).
    + rewrite Z.mod_pow2_bits_low, Z.lnot_spec by lia. done.
    + rewrite Z.mod_pow2_bits_high by lia.
      rewrite <- (Z.mod_small x (2 ^ 64)), Z.mod_pow2_bits_high by lia. done.
  - rewrite <- Z.sub_nocarry_ldiff; [lia|].
    apply Z.bits_inj'. intros i Hi. rewrite Z.ldiff_spec, Z.bits_0, Z.pow2_bits_eqb by lia.
    destruct (Z.eqb_spec (s + 7) i) as [<-|]; [|done].
    rewrite Hbit. replace (2 ^ (s + 7)) with (Z.shiftl 1 (s + 7))
      by (rewrite Z.shiftl_mul_pow2 by lia; lia).
    replace (a + k * 2 ^ s + Z.shiftl 1 (s + 7))
      with (Z.lor (a + k * 2 ^ s) (Z.shiftl 1 (s + 7)))
      by (rewrite lor_shiftl_add, Z.shiftl_mul_pow2 by lia; lia).
    rewrite Z.lor_spec, Z.shiftl_spec by lia. rewrite Z.sub_diag. cbn.
    by rewrite orb_true_r.
Qed.

Lemma swrap_small v : 0 <= v < 2 ^ 63 -> swrap 64 v = v.
Proof. intros H. unfold swrap. rewrite Z.mod_small; lia. Qed.

(** The value of a number of at most eight bytes: the magnitude is the little
    endian value without the sign bit of the last byte. *)
Lemma set_data_value p m max_size :
  bytes_ok p -> byte_ok m -> (length p <= 7)%nat -> zlen p + 1 <= max_size ->
  set_data (p ++ [m]) max_size =
  Some (if 128 <=? m then - le_value (p ++ [m - 128]) else le_value (p ++ [m])).
Proof.
  intros Hp Hm Hl Hmax. unfold set_data.
  assert (Hz : zlen (p ++ [m]) = zlen p + 1) by (rewrite zlen_app; done).
  case_if; [zlen_lia|].
  destruct (p ++ [m]) eqn:Epm; [by destruct p|]. rewrite <- Epm in *. clear Epm.
  assert (Hpm : bytes_ok (p ++ [m])) by solve_bytes.
  rewrite from_little_endian_loop_value by (done || (cbn; lia)).
  rewrite is_negative_snoc by exact Hm. rewrite !le_value_app. cbn [le_value].
  rewrite Hz. replace (8 * (zlen p + 1 - 1)) with (8 * zlen p) by lia.
  pose proof (le_value_bound p Hp) as Hlv.
  assert (Hs : 0 <= 8 * zlen p <= 56) by zlen_lia.
  pose proof (Z.pow_le_mono_r 2 (8 * zlen p) 56 ltac:(lia) ltac:(lia)) as Hpw.
  pose proof (pow2_pos (8 * zlen p) ltac:(lia)). unfold byte_ok in Hm.
  change (2 ^ (8 * 0)) with 1. case_if; f_equal.
  - rewrite !Z.mul_0_r, !Z.add_0_r, Z.add_0_l, Z.mul_1_r. set (P := 2 ^ (8 * zlen p)) in *.
    assert (Hx : 0 <= le_value p + m * P < 2 ^ 64) by nia.
    assert (Hu : u64 (swrap 64 (le_value p + m * P)) = le_value p + m * P).
    { unfold u64, wrap, swrap. change (2 ^ (64 - 1)) with (2 ^ 63).
      rewrite Zminus_mod_idemp_l. rewrite Z.add_simpl_r. by apply Z.mod_small. }
    rewrite Hu. replace (le_value p + m * P) with (le_value p + (128 + (m - 128)) * P) by lia.
    subst P. rewrite land_clear_sign by lia. rewrite swrap_small; [lia|nia].
  - rewrite swrap_small; [lia|nia].
Qed.

(** ** Round trip *)

(** A number between the 64 bit limits is read back from its minimal
    encoding whenever the encoding fits the size the reader allows. *)
Lemma set_data_data v max_size :
  - 2 ^ 63 < v < 2 ^ 63 -> zlen (data v) <= max_size ->
  set_data (data v) max_size = Some v.
Proof.
  intros Hv. unfold data. case_if.
  { subst. intros Hm. unfold set_data. case_if; [zlen_lia|done]. }
  set (a := Z.abs v).
  assert (Ha : u64 (if v <? 0 then - v else v) = a).
  { unfold u64. rewrite wrap_small; [|unfold in_width]; case_if; subst a; lia. }
  rewrite Ha. assert (Ha' : 0 < a < 2 ^ 63) by (subst a; lia).
  destruct (data_loop_snoc 8 a) as (p & m & Eq & Hm & Hlen); [simpl; lia|].
  pose proof (data_loop_value 8 a ltac:(simpl; lia)) as Hval.
  pose proof (data_loop_bytes 8 a) as Hb. rewrite Eq in *.
  apply bytes_ok_app in Hb as [Hp Hmb]. apply bytes_ok_cons in Hmb as [Hmb _].
  rewrite is_negative_snoc, or_back_snoc by lia.
  rewrite le_value_app in Hval. cbn [le_value] in Hval.
  assert (Hfull : 128 <= m -> (length p <= 6)%nat).
  { intros. destruct (decide (length p = 7%nat)) as [E7|]; [|lia].
    pose proof (le_value_bound p Hp). unfold zlen in Hval. rewrite E7 in Hval. cbn in Hval. lia. }
  destruct (128 <=? m) eqn:Em, (v <? 0) eqn:Ev; bool_to_prop; simpl; intros Hmax.
  - rewrite set_data_value; rewrite ?zlen_app in *; [|solve_bytes|done| |done].
    + change (128 <=? negative_mask) with true. change (negative_mask - 128) with 0.
      cbv iota. rewrite !le_value_app. cbn [le_value]. f_equal. subst a. lia.
    + rewrite length_app. simpl. specialize (Hfull Em). lia.
  - rewrite set_data_value; rewrite ?zlen_app in *; [|solve_bytes|done| |done].
    + change (128 <=? 0) with false. cbv iota.
      rewrite !le_value_app. cbn [le_value]. f_equal. subst a. lia.
    + rewrite length_app. simpl. specialize (Hfull Em). lia.
  - assert (El : Z.lor m negative_mask = m + 128).
    { change negative_mask with (Z.shiftl 1 7). rewrite lor_shiftl_add by lia. lia. }
    rewrite El in *. rewrite zlen_app in Hmax.
    rewrite set_data_value; [|done|unfold byte_ok; lia|lia|done].
    case_if; [|lia]. rewrite Z.add_simpl_r, le_value_app. cbn [le_value]. f_equal. subst a. lia.
  - rewrite zlen_app in Hmax. rewrite set_data_value; [|done|unfold byte_ok; lia|lia|done].
    case_if; [lia|]. rewrite le_value_app. cbn [le_value]. f_equal. subst a. lia.
Qed.

(** A number below [2^(8 n - 1)] in magnitude takes at most [n] bytes. *)
Lemma data_size v n :
  (0 < n <= 8)%nat -> Z.abs v < 2 ^ (8 * Z.of_nat n - 1) -> zlen (data v) <= Z.of_nat n.
Proof.
  intros Hn Hv. unfold data. case_if; [zlen_lia|].
  assert (H63 : 2 ^ (8 * Z.of_nat n - 1) <= 2 ^ 63) by (apply Z.pow_le_mono_r; lia).
  set (a := Z.abs v).
  assert (Ha : u64 (if v <? 0 then - v else v) = a).
  { unfold u64. rewrite wrap_small; [|unfold in_width]; case_if; subst a; lia. }
  rewrite Ha. assert (Ha' : 0 < a < 2 ^ 63) by (subst a; lia).
  destruct (data_loop_snoc 8 a) as (p & m & Eq & Hm & Hlen); [simpl; lia|].
  pose proof (data_loop_value 8 a ltac:(simpl; lia)) as Hval.
  pose proof (data_loop_bytes 8 a) as Hb.
  assert (Hle : (length (data_loop 8 a) <= n)%nat).
  { apply data_loop_length. split; [lia|].
    pose proof (Z.pow_le_mono_r 2 (8 * Z.of_nat n - 1) (8 * Z.of_nat n)). lia. }
  rewrite Eq in *. rewrite length_app in Hle. simpl in Hle.
  apply bytes_ok_app in Hb as [Hp _].
  rewrite is_negative_snoc, or_back_snoc by lia.
  rewrite le_value_app in Hval. cbn [le_value] in Hval.
  assert (Hfull : 128 <= m -> (length p + 2 <= n)%nat).
  { intros. destruct (decide (length p + 1 = n)%nat) as [E7|]; [|lia].
    pose proof (le_value_bound p Hp).
    assert (2 ^ (8 * Z.of_nat n - 1) = 128 * 2 ^ (8 * zlen p)); [|nia].
    replace (8 * Z.of_nat n - 1) with (7 + 8 * zlen p) by zlen_lia.
    rewrite Z.pow_add_r by zlen_lia. done. }
  repeat case_if; rewrite ?zlen_app; unfold zlen; simpl length; try lia.
  all: destruct (128 <=? m) eqn:Em; bool_to_prop; try done.
  all: specialize (Hfull Em); lia.
Qed.

Lemma or_back_bytes l : bytes_ok l -> bytes_ok (or_back l negative_mask).
Proof.
  induction l as [|b [|c l] IH]; intros Hl; [done| |].
  - apply bytes_ok_cons in Hl as [Hb _]. apply bytes_ok_cons. split; [|auto with bitprim].
    pose proof (byte_forall (fun b => (0 <=? Z.lor b negative_mask) &&
      (Z.lor b negative_mask <? 256)) eq_refl b Hb) as G. simpl in G.
    bool_to_prop. unfold byte_ok. lia.
  - apply bytes_ok_cons in Hl as [Hb Hl]. apply bytes_ok_cons. split; [done|]. by apply IH.
Qed.

Lemma data_bytes v : bytes_ok (data v).
Proof.
  assert (byte_ok negative_mask /\ byte_ok 0) as [? ?] by (unfold byte_ok, negative_mask; lia).
  unfold data. case_if; [auto with bitprim|].
  set (a := u64 _). pose proof (data_loop_bytes 8 a) as Hb.
  repeat case_if; solve_bytes. by apply or_back_bytes.
Qed.

End number.
