(* ===== verification/Operation.v ===== *)
(** The script operation of [src/machine/operation.cpp] and
    [include/bitcoin/bitcoin/impl/machine/operation.ipp]: an opcode, the data it
    pushes and a validity flag; its classification, encoding and decoding. *)

From S2P Require Import Prelude Endian Reader Writer Codes Number.

Record operation := mk_operation {
  code : Z;
  op_data : list Z;
  op_valid : bool
}.

#[global] Instance operation_eq_dec : EqDecision operation.
Proof. solve_decision. Defined.

(** [operation::operator==] compares code and data, not validity. *)
Definition operation_eqb (a b : operation) : bool :=
  (code a =? code b) && bool_decide (op_data a = op_data b).

Definition invalid_code : Z := opcode.disabled_xor.

(** The default instance, also the result of [operation::reset]. *)
Definition reset_operation : operation := mk_operation invalid_code [] false.

(** [operation::operation(opcode)] *)
Definition op_of_code (c : Z) : operation := mk_operation c [] true.

(** ** Classification *)

Definition opcode_from_positive (value : Z) : Z := value + opcode.push_positive_1 - 1.
Definition opcode_to_positive (c : Z) : Z := u8 (c - opcode.push_positive_1 + 1).

Definition is_positive (c : Z) : bool :=
  (c >=? opcode.push_positive_1) && (c <=? opcode.push_positive_16).

Definition is_push (c : Z) : bool :=
  (c <=? opcode.push_positive_16) && negb (c =? opcode.reserved_80).

Definition is_payload (c : Z) : bool :=
  (c >=? opcode.push_size_1) && (c <=? opcode.push_four_size).

Definition is_counted (c : Z) : bool := c >=? opcode.nop.

Definition is_version (c : Z) : bool := (c =? opcode.push_size_0) || is_positive c.

Definition is_numeric (c : Z) : bool := is_positive c || (c =? opcode.push_negative_1).

Definition is_reserved (c : Z) : bool :=
  if (c =? opcode.reserved_80) || (c =? opcode.reserved_98) ||
     (c =? opcode.reserved_137) || (c =? opcode.reserved_138) then true
  else (c >=? opcode.reserved_186) && (c <=? opcode.reserved_255).

Definition is_disabled (c : Z) : bool :=
  existsb (Z.eqb c)
    [opcode.disabled_cat; opcode.disabled_substr; opcode.disabled_left;
     opcode.disabled_right; opcode.disabled_invert; opcode.disabled_and;
     opcode.disabled_or; opcode.disabled_xor; opcode.disabled_mul2;
     opcode.disabled_div2; opcode.disabled_mul; opcode.disabled_div;
     opcode.disabled_mod; opcode.disabled_lshift; opcode.disabled_rshift;
     opcode.disabled_verif; opcode.disabled_vernotif].

Definition is_conditional (c : Z) : bool :=
  existsb (Z.eqb c) [opcode.if_; opcode.notif; opcode.else_; opcode.endif].

Definition is_relaxed_push (c : Z) : bool := c <=? opcode.push_positive_16.

(** ** Opcodes of data *)

Definition opcode_from_size (size : Z) : Z :=
  if size <=? opcode.push_size_75 then size
  else if size <=? max_uint8 then opcode.push_one_size
  else if size <=? max_uint16 then opcode.push_two_size
  else opcode.push_four_size.

Definition minimal_opcode_from_data (data : list Z) : Z :=
  let size := zlen data in
  if size =? 1 then
    let value := hd 0 data in
    if value =? number.negative_1 then opcode.push_negative_1
    else if value =? number.positive_0 then opcode.push_size_0
    else if (value >=? number.positive_1) && (value <=? number.positive_16)
    then opcode_from_positive value
    else opcode_from_size size
  else opcode_from_size size.

Definition nominal_opcode_from_data (data : list Z) : Z := opcode_from_size (zlen data).

Definition opcode_from_data (data : list Z) (minimal : bool) : Z :=
  if minimal then minimal_opcode_from_data data else nominal_opcode_from_data data.

Definition is_oversized (data : list Z) : bool := zlen data >? max_push_data_size.

(** [operation::operation(data_chunk, bool minimal)] *)
Definition op_of_data (uncoded : list Z) (minimal : bool) : operation :=
  let valid := negb (is_oversized uncoded) in
  let op := if valid then mk_operation (opcode_from_data uncoded minimal) uncoded true
            else reset_operation in
  if minimal && negb (is_payload (code op))
  then mk_operation (code op) [] (op_valid op)
  else op.

Definition is_minimal_push (op : operation) : bool :=
  code op =? minimal_opcode_from_data (op_data op).

Definition is_nominal_push (op : operation) : bool :=
  code op =? nominal_opcode_from_data (op_data op).

(** ** Encoding *)

Definition operation_serialized_size (op : operation) : Z :=
  let size := zlen (op_data op) in
  if code op =? opcode.push_one_size then 1 + 1 + size
  else if code op =? opcode.push_two_size then 1 + 2 + size
  else if code op =? opcode.push_four_size then 1 + 4 + size
  else 1 + size.

Definition operation_to_data (op : operation) : list Z :=
  let size := zlen (op_data op) in
  write_byte (code op) ++
  (if code op =? opcode.push_one_size then write_byte (u8 size)
   else if code op =? opcode.push_two_size then write_2_bytes_little_endian (u16 size)
   else if code op =? opcode.push_four_size then write_4_bytes_little_endian (u32 size)
   else []) ++
  write_bytes (op_data op).

(** ** Decoding *)

Section Decode.
Context {R : Type} `{Reader R} `{Currency}.

Definition read_data_size (c : Z) : rd R Z :=
  if c =? opcode.push_one_size then rd_read_byte
  else if c =? opcode.push_two_size then read_2_bytes_little_endian
  else if c =? opcode.push_four_size then read_4_bytes_little_endian
  else rret (if c <=? opcode.push_size_75 then c else 0).

Definition operation_from_data : rd R operation :=
  c <~ rd_read_byte ;;
  size <~ read_data_size c ;;
  data <~ (if size >? get_max_block_size then rd_invalidate ;;; rret []
           else rd_read_bytes size) ;;
  fun r => (if rd_valid r then mk_operation c data true else reset_operation, r).

(** The loop of [script::operations]: each turn consumes a byte or
    invalidates the source, so one turn more than there are bytes ends it. *)
Fixpoint operations_loop (fuel : nat) (ops : list operation) : rd R (list operation) :=
  fun r =>
  match fuel with
  | O => (ops, r)
  | S fuel =>
      let '(done, r) := rd_is_exhausted r in
      if done then (ops, r)
      else let '(op, r) := operation_from_data r in
           operations_loop fuel (ops ++ [op]) r
  end.
End Decode.

(** ** Well-formed operations: those that some byte string decodes to *)

Definition operation_wf `{Currency} (op : operation) : Prop :=
  op_valid op = true /\ byte_ok (code op) /\ bytes_ok (op_data op) /\
  zlen (op_data op) <= get_max_block_size /\
  (if code op =? opcode.push_one_size then zlen (op_data op) <= max_uint8
   else if code op =? opcode.push_two_size then zlen (op_data op) <= max_uint16
   else if code op =? opcode.push_four_size then True
   else zlen (op_data op) = if code op <=? opcode.push_size_75 then code op else 0).

#[global] Instance operation_wf_dec `{Currency} op : Decision (operation_wf op).
Proof. unfold operation_wf. repeat (apply and_dec; [apply _|]). repeat case_if; apply _. Defined.

Section Facts.
Context {R : Type} `{ReaderLaws R} `{Currency}.

Lemma operation_size_reads op :
  operation_wf op ->
  reads (read_data_size (code op))
    (if code op =? opcode.push_one_size then write_byte (u8 (zlen (op_data op)))
     else if code op =? opcode.push_two_size
     then write_2_bytes_little_endian (u16 (zlen (op_data op)))
     else if code op =? opcode.push_four_size
     then write_4_bytes_little_endian (u32 (zlen (op_data op)))
     else [])
    (zlen (op_data op)).
Proof.
  intros (_ & _ & _ & Hmax & Hsize). pose proof get_max_block_size_bound.
  pose proof (zlen_nonneg (op_data op)). unfold read_data_size.
  unfold max_uint8, max_uint16 in *. unfold u8, u16, u32.
  case_if; [rewrite wrap_small by (unfold in_width; lia); apply reads_write_byte; unfold byte_ok; lia|].
  do 2 (case_if; [rewrite wrap_small by (unfold in_width; lia);
                  apply reads_le; unfold in_width; simpl; lia|]).
  rewrite Hsize. apply reads_ret.
Qed.

Lemma operation_reads op :
  operation_wf op -> reads operation_from_data (operation_to_data op) op.
Proof.
  intros Hwf. pose proof (operation_size_reads op Hwf) as Hs.
  destruct Hwf as (Hv & Hc & Hd & Hmax & _).
  eapply reads_bind; [by apply reads_write_byte|].
  eapply reads_bind; [exact Hs|].
  eapply reads_bind_nil.
  - case_if; [lia|]. by apply reads_bytes.
  - intros l. simpl. rewrite rd_valid_at. destruct op; simpl in *. by subst.
Qed.

Lemma sticky_operation : sticky operation_from_data.
Proof.
  apply sticky_bind; [apply sticky_byte|]. intros c.
  apply sticky_bind.
  { unfold read_data_size.
    repeat case_if; (apply sticky_byte || apply sticky_le || apply sticky_ret). }
  intros size. apply sticky_bind.
  { case_if; [apply sticky_invalidate, sticky_ret|apply sticky_bytes]. }
  intros data r Hr. simpl. by rewrite Hr.
Qed.
End Facts.

Section Stream.
Context {R : Type} `{ReaderLaws R} `{Currency}.

(** What [read_data_size] consumed for a size of [n]. *)
Definition size_code (c n : Z) (e : list Z) : Prop :=
  if c =? opcode.push_one_size then e = [n] /\ byte_ok n
  else if c =? opcode.push_two_size then e = to_little_endian 2 n /\ in_width 16 n
  else if c =? opcode.push_four_size then e = to_little_endian 4 n /\ in_width 32 n
  else n = (if c <=? opcode.push_size_75 then c else 0) /\ e = [].

Lemma read_data_size_accepts c : accepts (read_data_size c) (size_code c).
Proof.
  unfold read_data_size, size_code.
  do 3 (case_if; [apply accepts_byte || apply accepts_le|]). apply accepts_ret.
Qed.

Lemma sticky_data_size c : sticky (read_data_size c).
Proof.
  unfold read_data_size.
  repeat case_if; (apply sticky_byte || apply sticky_le || apply sticky_ret).
Qed.

Lemma sticky_data c size :
  sticky (data <~ (if size >? get_max_block_size then rd_invalidate ;;; rret []
                   else rd_read_bytes size) ;;
          fun r => (if rd_valid r then mk_operation c data true else reset_operation, r)).
Proof.
  apply sticky_bind.
  - case_if; [apply sticky_invalidate, sticky_ret|apply sticky_bytes].
  - intros data r Hr. simpl. by rewrite Hr.
Qed.

Lemma operation_encoded c data e :
  byte_ok c -> bytes_ok data -> zlen data <= get_max_block_size ->
  size_code c (zlen data) e ->
  [c] ++ e ++ data = operation_to_data (mk_operation c data true) /\
  operation_wf (mk_operation c data true).
Proof.
  intros Hc Hd Hmax Hsize.
  unfold operation_to_data, operation_wf, write_byte, size_code in *. simpl.
  unfold u8, u16, u32. rewrite (wrap_small 8 c) by exact Hc.
  assert (Hw : forall w, in_width w (zlen data) -> wrap w (zlen data) = zlen data)
    by (intros; by apply wrap_small).
  unfold max_uint8, max_uint16, byte_ok, in_width in *.
  repeat case_if_in Hsize; destruct Hsize as [Hs1 Hs2]; subst;
    rewrite ?Hw by lia; split_and!; try done; lia.
Qed.

(** Decoding accepts nothing but the encoding of the operation it returns. *)
Lemma operation_accepts :
  accepts operation_from_data (fun op e => e = operation_to_data op /\ operation_wf op).
Proof.
  eapply accepts_bind; [apply accepts_byte| |].
  { intros c. apply sticky_bind; [apply sticky_data_size|]. intros; apply sticky_data. }
  intros c e1 _ [-> Hc]. eapply accepts_bind; [apply read_data_size_accepts| |].
  { intros; apply sticky_data. }
  intros size e2 _ Hsize. assert (0 <= size).
  { unfold size_code, byte_ok, in_width in *. repeat case_if_in Hsize; lia. }
  eapply (accepts_bind _ _ (fun p e => e = p /\ zlen p = size /\ size <= get_max_block_size)).
  { case_if; [apply accepts_invalidate, sticky_ret|].
    eapply accepts_impl; [by apply accepts_bytes|]. naive_solver. }
  { intros data r Hr. simpl. by rewrite Hr. }
  intros data e3 He (-> & <- & Hmax).
  eapply accepts_pure; [intros l; simpl; by rewrite rd_valid_at|].
  rewrite app_nil_r. by apply operation_encoded.
Qed.

Lemma operation_to_data_nonempty op : (0 < length (operation_to_data op))%nat.
Proof. unfold operation_to_data, write_byte. simpl. lia. Qed.

Lemma operations_loop_invalid fuel ops r :
  rd_valid r = false -> operations_loop fuel ops r = (ops, r).
Proof. destruct fuel; simpl; [done|]. intros Hr. by rewrite rd_is_exhausted_invalid. Qed.

(** The shape of a decoded script: the encodings of well-formed operations,
    and at most one trailing default operation where decoding failed. *)
Definition decoded (l : list Z) (ops : list operation) : Prop :=
  exists good rest,
    l = concat (map operation_to_data good) ++ rest /\ Forall operation_wf good /\
    ((rest = [] /\ ops = good) \/ (rest <> [] /\ ops = good ++ [reset_operation])).

Lemma operations_loop_decoded fuel l acc :
  bytes_ok l -> (length l < fuel)%nat ->
  exists ops, fst (operations_loop fuel acc (rd_at l)) = acc ++ ops /\ decoded l ops.
Proof.
  revert l acc. induction fuel as [|fuel IH]; intros l acc Hl Hf; [lia|].
  cbn [operations_loop]. destruct l as [|b l].
  - destruct rd_is_exhausted_nil as [He _].
    destruct (rd_is_exhausted (rd_at [])) as [done r]. simpl in He. subst. simpl.
    exists []. rewrite app_nil_r. split; [done|]. exists [], []. by auto.
  - rewrite rd_is_exhausted_cons by (by apply bytes_ok_cons in Hl as [? _]).
    pose proof (operation_accepts (b :: l) Hl) as Hop.
    pose proof (eq_refl (operation_from_data (rd_at (b :: l)))) as Edef.
    destruct (operation_from_data (rd_at (b :: l))) as [op r] eqn:E. simpl in Hop.
    destruct Hop as [Hv|(e & l' & El & -> & -> & Hwf)].
    + rewrite operations_loop_invalid by done. simpl.
      assert (op = reset_operation) as ->.
      { clear -E Hv. unfold operation_from_data, rbind in E.
        repeat match type of E with context [let '(_, _) := ?x in _] => destruct x end.
        injection E as <- <-. by rewrite Hv. }
      exists [reset_operation]. split; [done|]. exists [], (b :: l). by auto.
    + pose proof (operation_to_data_nonempty op). rewrite El in Hl, Hf.
      rewrite length_app in Hf. apply bytes_ok_app in Hl as [_ Hl'].
      destruct (IH l' (acc ++ [op]) Hl' ltac:(lia)) as (ops & -> & good & rest & -> & Hg & Hd).
      exists (op :: ops). rewrite <- app_assoc. split; [done|].
      exists (op :: good), rest. rewrite El. cbn [map concat]. rewrite <- app_assoc.
      split_and!; [done|by constructor|]. naive_solver.
Qed.

Lemma operations_loop_reads fuel ops acc :
  Forall operation_wf ops ->
  (length (concat (map operation_to_data ops)) < fuel)%nat ->
  fst (operations_loop fuel acc (rd_at (concat (map operation_to_data ops)))) = acc ++ ops.
Proof.
  revert fuel acc. induction ops as [|op ops IH]; intros [|fuel] acc Hops Hf;
    simpl in Hf; try lia.
  - cbn. destruct rd_is_exhausted_nil as [He _].
    destruct (rd_is_exhausted (rd_at [])) as [b r]. simpl in He. subst. simpl.
    by rewrite app_nil_r.
  - inversion_clear Hops as [|? ? Hop Hops']. rewrite length_app in Hf.
    pose proof (operation_to_data_nonempty op).
    cbn [operations_loop map concat].
    pose proof (operation_reads op Hop (concat (map operation_to_data ops))) as E.
    destruct (operation_to_data op) as [|b e] eqn:Eop; [simpl in *; lia|].
    assert (Hb : byte_ok b).
    { unfold operation_to_data, write_byte in Eop. simpl in Eop. injection Eop as <- _.
      apply u8_byte. }
    rewrite <- app_comm_cons, rd_is_exhausted_cons by exact Hb.
    rewrite app_comm_cons, E. rewrite IH by (done || lia). by rewrite <- app_assoc.
Qed.
End Stream.

(** ** The operations of a byte string, as [script::operations] parses them *)

Definition operations_of `{Currency} (bytes : list Z) : list operation :=
  fst (operations_loop (R := Istream.t) (S (length bytes)) [] (Istream.mk bytes false false)).

(** [script::operations_to_data] *)
Definition operations_to_data (ops : list operation) : list Z :=
  concat (map operation_to_data ops).

Lemma operations_of_decoded `{Currency} bytes :
  bytes_ok bytes -> decoded bytes (operations_of bytes).
Proof.
  intros Hb. destruct (operations_loop_decoded (R := Istream.t) (S (length bytes)) bytes [] Hb)
    as (ops & E & Hd); [lia|]. unfold operations_of. simpl rd_at in E. by rewrite E.
Qed.

Lemma bytes_ok_operation `{Currency} op : operation_wf op -> bytes_ok (operation_to_data op).
Proof.
  intros (_ & _ & Hd & _). unfold operation_to_data, write_2_bytes_little_endian,
    write_4_bytes_little_endian, write_bytes.
  repeat case_if; solve_bytes.
Qed.

Lemma bytes_ok_operations `{Currency} ops :
  Forall operation_wf ops -> bytes_ok (operations_to_data ops).
Proof.
  induction 1 as [|op ops Hop _ IH]; [apply bytes_ok_nil|].
  apply bytes_ok_app. split; [by apply bytes_ok_operation|done].
Qed.

Lemma operations_of_to_data `{Currency} ops :
  Forall operation_wf ops -> operations_of (operations_to_data ops) = ops.
Proof.
  intros Hops.
  exact (operations_loop_reads (R := Istream.t) (S (length (operations_to_data ops)))
           ops [] Hops (Nat.lt_succ_diag_r _)).
Qed.

(** C19: The operations of a script are a lossless reading of its bytes: they
    are well formed and serialize to the bytes, except that an unparsable tail
    becomes one final invalid operation; and well formed operations parse back
    from their serialization. *)
Theorem operations_lossless `{Currency} bs ops :
  bytes_ok bs ->
  (operations_of bs = ops ->
   (Forall operation_wf ops /\ operations_to_data ops = bs) \/
   (exists good rest, rest <> [] /\ ops = good ++ [reset_operation] /\ Forall operation_wf good /\
      operations_to_data good ++ rest = bs)) /\
  (Forall operation_wf ops -> operations_of (operations_to_data ops) = ops).
Proof.
  intros Hb. split; [|by apply operations_of_to_data]. intros <-.
  destruct (operations_of_decoded bs Hb) as (good & rest & Hbs & Hwf & [[Hr Ho]|[Hr Ho]]);
    rewrite Ho, Hbs; [left|right].
  - split; [done|]. by rewrite Hr, app_nil_r.
  - by exists good, rest.
Qed.
