(* ===== verification/Script.v ===== *)
(** The script of [src/chain/script.cpp]: its bytes, its operations, the
    standard patterns, signature operation counting and find-and-delete. The
    operations are parsed from the bytes on first use; [ops_cache] is the cache
    of the code ([operations_] under [cached_]), filled where the code fills it
    with operations that were not parsed from the bytes. *)

From S2P Require Import Prelude Limits Endian Reader Writer Codes Number Operation.

Record script := mk_script {
  bytes : list Z;
  script_valid : bool;
  ops_cache : option (list operation)
}.

(** The default instance, also the result of [script::reset]. *)
Definition reset_script : script := mk_script [] false None.

(** [script::operator==] *)
Definition script_eqb (a b : script) : bool := bool_decide (bytes a = bytes b).

(** ** Key formats of [src/math/elliptic_curve.cpp] *)

Definition is_compressed_key (point : list Z) : bool :=
  (zlen point =? 33) && ((hd 0 point =? 0x02) || (hd 0 point =? 0x03)).

Definition is_uncompressed_key (point : list Z) : bool :=
  (zlen point =? 65) && (hd 0 point =? 0x04).

Definition is_public_key (point : list Z) : bool :=
  is_compressed_key point || is_uncompressed_key point.

Definition is_endorsement (endorsement : list Z) : bool :=
  (zlen endorsement >=? 9) && (zlen endorsement <=? 73).

Section Script.
Context `{Currency}.

(** ** Operations *)

Definition operations (s : script) : list operation :=
  match ops_cache s with
  | Some ops => ops
  | None => operations_of (bytes s)
  end.

Definition from_operations (ops : list operation) : script :=
  mk_script (operations_to_data ops) true (Some ops).

(** Copy and move construction and assignment drop the cache. *)
Definition copy_script (s : script) : script := mk_script (bytes s) (script_valid s) None.

(** [script::script(data_chunk&&, false)] *)
Definition script_of_bytes (encoded : list Z) : script := mk_script encoded true None.

Definition is_valid_operations (s : script) : bool :=
  match operations s with
  | [] => true
  | ops => op_valid (List.last ops reset_operation)
  end.

(** ** Serialization *)

Definition script_serialized_size (prefix : bool) (s : script) : Z :=
  let size := zlen (bytes s) in
  if prefix then size + variable_uint_size size else size.

Definition script_to_data (prefix : bool) (s : script) : list Z :=
  (if prefix then write_variable_little_endian (script_serialized_size false s) else []) ++
  write_bytes (bytes s).

Section Decode.
Context {R : Type} `{Reader R}.

(** The result pairs the instance with the returned [bool]. *)
Definition script_from_data (prefix : bool) : rd R (script * bool) :=
  data <~ (if prefix then
             size <~ read_size_little_endian ;;
             if size >? get_max_block_size then rd_invalidate ;;; rret []
             else rd_read_bytes size
           else rd_read_all) ;;
  rd_check (mk_script data true None) reset_script.
End Decode.

(** ** Signature operations *)

Definition multisig_sigops (accurate : bool) (c : Z) : Z :=
  if accurate && is_positive c then opcode_to_positive c else multisig_default_sigops.

Fixpoint sigops_loop (accurate : bool) (preceding total : Z) (ops : list operation) : Z :=
  match ops with
  | [] => total
  | op :: rest =>
      let c := code op in
      let total :=
        if (c =? opcode.checksig) || (c =? opcode.checksigverify) then total + 1
        else if (c =? opcode.checkmultisig) || (c =? opcode.checkmultisigverify)
        then total + multisig_sigops accurate preceding
        else total in
      sigops_loop accurate c total rest
  end.

Definition sigops (accurate : bool) (s : script) : Z :=
  sigops_loop accurate opcode.reserved_255 0 (operations s).

Definition is_unspendable (s : script) : bool :=
  match operations s with
  | op :: _ => (code op =? opcode.return_) || (script_serialized_size false s >? max_script_size)
  | [] => script_serialized_size false s >? max_script_size
  end.
End Script.

(** ** Patterns (static, over operation lists) *)

Definition is_push_only (ops : list operation) : bool := forallb (fun op => is_push (code op)) ops.

Definition is_relaxed_push_only (ops : list operation) : bool :=
  forallb (fun op => is_relaxed_push (code op)) ops.

Definition is_coinbase_pattern (ops : list operation) (height : Z) : bool :=
  match ops with
  | op :: _ => is_nominal_push op && bool_decide (op_data op = number.data height)
  | [] => false
  end.

Definition is_commitment_pattern (ops : list operation) : bool :=
  match ops with
  | op0 :: op1 :: _ =>
      (code op0 =? opcode.return_) && (code op1 =? opcode.push_size_36) &&
      bool_decide (take 4 (op_data op1) = to_big_endian 4 witness_head)
  | _ => false
  end.

Definition is_witness_program_pattern (ops : list operation) : bool :=
  match ops with
  | [op0; op1] =>
      is_version (code op0) && (zlen (op_data op1) >=? min_witness_program) &&
      (zlen (op_data op1) <=? max_witness_program)
  | _ => false
  end.

Definition is_null_data_pattern (ops : list operation) : bool :=
  match ops with
  | [op0; op1] =>
      (code op0 =? opcode.return_) && is_minimal_push op1 &&
      (zlen (op_data op1) <=? max_null_data_size)
  | _ => false
  end.

Definition is_pay_multisig_pattern (ops : list operation) : bool :=
  let op_count := zlen ops in
  let last := List.last ops reset_operation in
  if (op_count <? 4) || negb (code last =? opcode.checkmultisig) then false
  else
    let op_m := code (hd reset_operation ops) in
    let op_n := code (nth (length ops - 2) ops reset_operation) in
    if (op_m <? opcode.push_positive_1) || (op_m >? op_n) ||
       (op_n <? opcode.push_positive_1) || (op_n >? opcode.push_positive_16) then false
    else
      let number := op_n - opcode.push_positive_1 + 1 in
      let points := op_count - 3 in
      if negb (number =? points) then false
      else forallb (fun op => is_public_key (op_data op)) (take (length ops - 3) (tl ops)).

Definition is_pay_public_key_pattern (ops : list operation) : bool :=
  match ops with
  | [op0; op1] => is_public_key (op_data op0) && (code op1 =? opcode.checksig)
  | _ => false
  end.

Definition is_pay_key_hash_pattern (ops : list operation) : bool :=
  match ops with
  | [op0; op1; op2; op3; op4] =>
      (code op0 =? opcode.dup) && (code op1 =? opcode.hash160) &&
      (zlen (op_data op2) =? Z.of_nat short_hash_size) &&
      (code op3 =? opcode.equalverify) && (code op4 =? opcode.checksig)
  | _ => false
  end.

Definition is_pay_script_hash_pattern (ops : list operation) : bool :=
  match ops with
  | [op0; op1; op2] =>
      (code op0 =? opcode.hash160) && (code op1 =? 20) && (code op2 =? opcode.equal)
  | _ => false
  end.

Definition is_pay_witness_script_hash_pattern (ops : list operation) : bool :=
  match ops with
  | [op0; op1] => (code op0 =? opcode.push_size_0) && (code op1 =? 32)
  | _ => false
  end.

Definition is_sign_multisig_pattern (ops : list operation) : bool :=
  match ops with
  | op0 :: _ :: _ =>
      (code op0 =? opcode.push_size_0) && forallb (fun op => is_endorsement (op_data op)) (tl ops)
  | _ => false
  end.

Definition is_sign_public_key_pattern (ops : list operation) : bool :=
  match ops with
  | [op0] => is_endorsement (op_data op0)
  | _ => false
  end.

Definition is_sign_key_hash_pattern (ops : list operation) : bool :=
  match ops with
  | [op0; op1] => is_endorsement (op_data op0) && is_public_key (op_data op1)
  | _ => false
  end.

Definition is_sign_script_hash_pattern (ops : list operation) : bool :=
  match ops with
  | [] => false
  | _ => is_push_only ops && negb (zlen (op_data (List.last ops reset_operation)) =? 0)
  end.

Definition to_null_data_pattern (data : list Z) : list operation :=
  if zlen data >? max_null_data_size then []
  else [op_of_code opcode.return_; op_of_data data true].

Definition to_pay_public_key_pattern (point : list Z) : list operation :=
  if negb (is_public_key point) then []
  else [op_of_data point true; op_of_code opcode.checksig].

Definition to_pay_key_hash_pattern (hash : list Z) : list operation :=
  [op_of_code opcode.dup; op_of_code opcode.hash160; op_of_data hash true;
   op_of_code opcode.equalverify; op_of_code opcode.checksig].

Definition to_pay_script_hash_pattern (hash : list Z) : list operation :=
  [op_of_code opcode.hash160; op_of_data hash true; op_of_code opcode.equal].

Definition to_pay_multisig_pattern (signatures : Z) (points : list (list Z)) : list operation :=
  let zero := opcode.push_positive_1 - 1 in
  let max := opcode.push_positive_16 - zero in
  let m := signatures in
  let n := zlen points in
  if (m <? 1) || (m >? n) || (n <? 1) || (n >? max) then []
  else if negb (forallb is_public_key points) then []
  else [op_of_code (m + zero)] ++ map (fun point => op_of_data point true) points ++
       [op_of_code (n + zero); op_of_code opcode.checkmultisig].

Inductive script_pattern :=
| null_data | pay_multisig | pay_public_key | pay_key_hash | pay_script_hash
| sign_multisig | sign_public_key | sign_key_hash | sign_script_hash | non_standard.

#[global] Instance script_pattern_eq_dec : EqDecision script_pattern.
Proof. solve_decision. Defined.

Inductive script_version := unversioned | zero | reserved.

#[global] Instance script_version_eq_dec : EqDecision script_version.
Proof. solve_decision. Defined.

Section Pattern.
Context `{Currency}.

Definition output_pattern (s : script) : script_pattern :=
  let ops := operations s in
  if is_pay_key_hash_pattern ops then pay_key_hash
  else if is_pay_script_hash_pattern ops then pay_script_hash
  else if is_null_data_pattern ops then null_data
  else if is_pay_public_key_pattern ops then pay_public_key
  else if is_pay_multisig_pattern ops then pay_multisig
  else non_standard.

Definition input_pattern (s : script) : script_pattern :=
  let ops := operations s in
  if is_sign_key_hash_pattern ops then sign_key_hash
  else if is_sign_script_hash_pattern ops then sign_script_hash
  else if is_sign_public_key_pattern ops then sign_public_key
  else if is_sign_multisig_pattern ops then sign_multisig
  else non_standard.

Definition pattern (s : script) : script_pattern :=
  let input := output_pattern s in
  if bool_decide (input = non_standard) then input_pattern s else input.

Definition witness_program (s : script) : list Z :=
  match operations s with
  | [op0; op1] => if is_witness_program_pattern (operations s) then op_data op1 else []
  | _ => []
  end.

Definition version (s : script) : script_version :=
  let ops := operations s in
  if negb (is_witness_program_pattern ops) then unversioned
  else if code (hd reset_operation ops) =? opcode.push_size_0 then zero else reserved.

Definition is_pay_to_witness (forks : Z) (s : script) : bool :=
  rule_fork.is_enabled forks rule_fork.bip141_rule && is_witness_program_pattern (operations s).

Definition is_pay_to_script_hash (forks : Z) (s : script) : bool :=
  rule_fork.is_enabled forks rule_fork.bip16_rule && is_pay_script_hash_pattern (operations s).
End Pattern.

(** ** Find and delete *)

Section FindAndDelete.
Context `{Currency}.

(** [starts_with(it, bytes.end(), value)] *)
Definition starts_with (l value : list Z) : bool :=
  (zlen l >=? zlen value) && bool_decide (take (length value) l = value).

(** [for (; starts_with(it, end, value); it += value.size())]. Every turn
    moves [it] by the size of [value], which is not empty. *)
Fixpoint found_loop (fuel : nat) (bs value : list Z) (it : nat) (found : list nat)
    (source : Istream.t) : nat * list nat * Istream.t :=
  match fuel with
  | O => (it, found, source)
  | S fuel =>
      if starts_with (drop it bs) value then
        let '(_, source) := rd_skip (zlen value) source in
        found_loop fuel bs value (it + length value) (found ++ [it]) source
      else (it, found, source)
  end.

(** The outer loop stops at the end of the stream or at a failed operation. *)
Fixpoint find_loop (fuel : nat) (bs value : list Z) (it : nat) (found : list nat)
    (source : Istream.t) : list nat :=
  match fuel with
  | O => found
  | S fuel =>
      let '(exhausted, source) := rd_is_exhausted source in
      if exhausted then found
      else
        let '(it, found, source) := found_loop (S (length bs)) bs value it found source in
        let '(op, source) := operation_from_data source in
        let it := if rd_valid source
                  then (it + Z.to_nat (operation_serialized_size op))%nat else it in
        find_loop fuel bs value it found source
  end.

(** [bytes_.erase(it, it + value.size())] *)
Definition erase_at (n : nat) (bs : list Z) (it : nat) : list Z :=
  take it bs ++ drop (it + n) bs.

Definition find_and_delete_ (endorsement bs : list Z) : list Z :=
  match endorsement with
  | [] => bs
  | _ =>
      let value := operation_to_data (op_of_data endorsement false) in
      let found := find_loop (S (length bs)) bs value 0 [] (Istream.mk bs false false) in
      fold_left (erase_at (length value)) (rev found) bs
  end.

Definition find_and_delete (endorsements : list (list Z)) (s : script) : script :=
  mk_script (fold_left (fun bs e => find_and_delete_ e bs) endorsements (bytes s))
    (script_valid s) None.

Lemma found_loop_absent fuel bs value it found source :
  (forall i, starts_with (drop i bs) value = false) ->
  found_loop fuel bs value it found source = (it, found, source).
Proof. intros Hno. destruct fuel; simpl; [done|]. by rewrite Hno. Qed.

Lemma find_loop_absent fuel bs value it found source :
  (forall i, starts_with (drop i bs) value = false) ->
  find_loop fuel bs value it found source = found.
Proof.
  intros Hno. revert it source. induction fuel as [|fuel IH]; intros it source; [done|].
  cbn [find_loop]. destruct (rd_is_exhausted source) as [[] source']; [done|].
  rewrite found_loop_absent by done.
  destruct (operation_from_data source') as [op source'']. apply IH.
Qed.

(** A script in which no pushed endorsement occurs is not changed. *)
Lemma find_and_delete_absent e bs :
  (forall i, starts_with (drop i bs) (operation_to_data (op_of_data e false)) = false) ->
  find_and_delete_ e bs = bs.
Proof.
  intros Hno. unfold find_and_delete_. destruct e; [done|].
  by rewrite find_loop_absent.
Qed.
End FindAndDelete.

(** ** Well-formed scripts *)

Definition script_wf `{Currency} (s : script) : Prop :=
  script_valid s = true /\ bytes_ok (bytes s) /\ zlen (bytes s) <= get_max_block_size /\
  ops_cache s = None.

#[global] Instance script_wf_dec `{Currency} s : Decision (script_wf s).
Proof. unfold script_wf. repeat (apply and_dec; [apply _|]). destruct (ops_cache s); [by right|by left]. Defined.

Section ScriptCodec.
Context `{Currency} {R : Type} `{ReaderLaws R}.

Lemma script_size_width (s : script) :
  zlen (bytes s) <= get_max_block_size -> in_width 64 (zlen (bytes s)).
Proof.
  intros Hs. pose proof get_max_block_size_bound. pose proof (zlen_nonneg (bytes s)).
  unfold in_width. lia.
Qed.

Lemma script_reads s :
  script_wf s -> reads (script_from_data true) (script_to_data true s) (s, true).
Proof.
  intros (Hv & Hb & Hmax & Hc). unfold script_to_data, script_serialized_size.
  eapply reads_bind_nil.
  - eapply reads_bind; [apply reads_size; by apply script_size_width|].
    case_if; [lia|]. by apply reads_bytes.
  - destruct s; simpl in *; subst. apply reads_check.
Qed.

(** Without a prefix the script is the rest of the source. *)
Lemma script_read_all l :
  bytes_ok l -> fst (script_from_data false (rd_at l)) = (mk_script l true None, true).
Proof.
  intros Hl. unfold script_from_data, rbind. destruct (rd_read_all_at l Hl) as [E1 E2].
  destruct (rd_read_all (rd_at l)) as [data r]. simpl in *. subst.
  unfold rd_check. by rewrite E2.
Qed.

Lemma script_from_data_sticky p : p = true -> sticky (script_from_data p).
Proof.
  intros ->. apply sticky_bind; [|intros; apply sticky_check].
  apply sticky_bind; [apply sticky_size|]. intros size.
  case_if; [apply sticky_invalidate, sticky_ret|apply sticky_bytes].
Qed.
End ScriptCodec.

Lemma zlen_script_to_data `{Currency} p s :
  zlen (bytes s) <= get_max_block_size ->
  zlen (script_to_data p s) = script_serialized_size p s.
Proof.
  intros Hs. unfold script_to_data, script_serialized_size, write_bytes.
  rewrite zlen_app. destruct p; [|done].
  rewrite zlen_write_variable by (by apply script_size_width). lia.
Qed.

Lemma bytes_ok_script_to_data `{Currency} p s :
  bytes_ok (bytes s) -> bytes_ok (script_to_data p s).
Proof. intros Hb. unfold script_to_data, write_bytes. destruct p; solve_bytes. Qed.

(** ** Signature operation counts *)

Lemma multisig_sigops_bound accurate c :
  byte_ok c -> 0 <= multisig_sigops accurate c <= multisig_default_sigops.
Proof.
  intros Hc. unfold multisig_sigops, multisig_default_sigops. case_if; [|lia].
  pose proof (byte_forall (fun c => negb (is_positive c) ||
    ((0 <=? opcode_to_positive c) && (opcode_to_positive c <=? 20))) eq_refl c Hc) as G.
  simpl in G. rewrite H0 in G. simpl in G. bool_to_prop. lia.
Qed.

(** The accurate count never exceeds the legacy count. *)
Lemma sigops_loop_accurate ops preceding t1 t2 :
  byte_ok preceding -> Forall (fun op => byte_ok (code op)) ops -> t1 <= t2 ->
  sigops_loop true preceding t1 ops <= sigops_loop false preceding t2 ops.
Proof.
  intros Hp Hops. revert preceding t1 t2 Hp.
  induction Hops as [|op ops Hop _ IH]; intros preceding t1 t2 Hp Ht; simpl; [done|].
  apply IH; [done|]. pose proof (multisig_sigops_bound true preceding Hp).
  unfold multisig_sigops at 2. simpl. unfold multisig_default_sigops in *.
  repeat case_if; lia.
Qed.

Lemma sigops_loop_bound accurate ops preceding t :
  byte_ok preceding -> Forall (fun op => byte_ok (code op)) ops ->
  t <= sigops_loop accurate preceding t ops <= t + multisig_default_sigops * zlen ops.
Proof.
  intros Hp Hops. revert preceding t Hp.
  induction Hops as [|op ops Hop _ IH]; intros preceding t Hp; simpl.
  { unfold multisig_default_sigops. zlen_lia. }
  pose proof (multisig_sigops_bound accurate preceding Hp) as Hm.
  replace (zlen (op :: ops)) with (1 + zlen ops) by zlen_lia.
  match goal with |- context [sigops_loop _ _ ?t' ops] =>
    specialize (IH (code op) t' Hop); assert (t <= t' <= t + multisig_default_sigops) end.
  { unfold multisig_default_sigops in *. repeat case_if; lia. }
  unfold multisig_default_sigops in *. lia.
Qed.
