(* ===== verification/Patterns.v ===== *)
(** Correctness of the script patterns: the output patterns are disjoint from
    each other and from the input patterns, and the pattern constructors build
    scripts that are recognized after a trip through their bytes. *)

From S2P Require Import Prelude Reader Writer Codes Number Operation Script.

(** An operation that parsing can produce. *)
Definition op_parsed `{Currency} (op : operation) : Prop :=
  operation_wf op \/ op = reset_operation.

Section Parsed.
Context `{Currency}.

Lemma decoded_parsed l ops : decoded l ops -> Forall op_parsed ops.
Proof.
  intros (good & rest & _ & Hg & [[_ ->]|[_ ->]]).
  - eapply Forall_impl; [exact Hg|]. by left.
  - apply Forall_app. split; [eapply Forall_impl; [exact Hg|]; by left|].
    constructor; [by right|constructor].
Qed.

Lemma operations_of_parsed bs : bytes_ok bs -> Forall op_parsed (operations_of bs).
Proof. intros Hb. eapply decoded_parsed, operations_of_decoded, Hb. Qed.

(** Only the payload opcodes carry data. *)
Lemma parsed_payload op :
  op_parsed op -> 0 < zlen (op_data op) -> 1 <= code op <= 78.
Proof.
  intros [Hwf| ->] Hd; [|by vm_compute in Hd].
  destruct Hwf as (_ & Hc & _ & _ & Hs).
  unfold opcode.push_one_size, opcode.push_two_size, opcode.push_four_size,
    opcode.push_size_75, byte_ok in *.
  repeat case_if_in Hs; lia.
Qed.

Lemma parsed_byte op : op_parsed op -> byte_ok (code op).
Proof. intros [(_ & Hc & _)| ->]; [done|]. by vm_compute. Qed.

Lemma endorsement_payload op :
  op_parsed op -> is_endorsement (op_data op) = true -> 1 <= code op <= 78.
Proof. intros Hp He. apply parsed_payload; [done|]. unfold is_endorsement in He. bool_to_prop. lia. Qed.

Lemma public_key_payload op :
  op_parsed op -> is_public_key (op_data op) = true -> 1 <= code op <= 78.
Proof.
  intros Hp He. apply parsed_payload; [done|].
  unfold is_public_key, is_compressed_key, is_uncompressed_key in He.
  apply orb_true_iff in He as [He|He]; bool_to_prop; lia.
Qed.
End Parsed.

(** Reduce a pattern test on a list of known length to its conditions. *)
Ltac pattern_cases :=
  repeat match goal with
  | H : is_pay_key_hash_pattern ?l = true |- _ =>
      destruct l as [|? [|? [|? [|? [|? [|? ?]]]]]]; try discriminate H; simpl in H; bool_to_prop
  | H : is_pay_script_hash_pattern ?l = true |- _ =>
      destruct l as [|? [|? [|? [|? ?]]]]; try discriminate H; simpl in H; bool_to_prop
  | H : is_null_data_pattern ?l = true |- _ =>
      destruct l as [|? [|? [|? ?]]]; try discriminate H; simpl in H; bool_to_prop
  | H : is_pay_public_key_pattern ?l = true |- _ =>
      destruct l as [|? [|? [|? ?]]]; try discriminate H; simpl in H; bool_to_prop
  | H : is_sign_public_key_pattern ?l = true |- _ =>
      destruct l as [|? [|? ?]]; try discriminate H; simpl in H; bool_to_prop
  | H : is_sign_key_hash_pattern ?l = true |- _ =>
      destruct l as [|? [|? [|? ?]]]; try discriminate H; simpl in H; bool_to_prop
  end.

Ltac opcode_contra :=
  unfold opcode.dup, opcode.hash160, opcode.equalverify, opcode.checksig, opcode.equal,
    opcode.return_, opcode.checkmultisig, opcode.push_positive_1, opcode.push_positive_16,
    opcode.push_size_0, opcode.reserved_80 in *; lia.

Section Disjoint.
Context `{Currency}.

(** What a multisig output has at both ends. *)
Lemma pay_multisig_ends ops :
  is_pay_multisig_pattern ops = true ->
  4 <= zlen ops /\ code (List.last ops reset_operation) = opcode.checkmultisig /\
  opcode.push_positive_1 <= code (hd reset_operation ops) /\
  exists op, In op ops /\ code op = opcode.checkmultisig.
Proof.
  unfold is_pay_multisig_pattern. intros Hp.
  destruct ((zlen ops <? 4) || _) eqn:E1; [discriminate|].
  destruct (_ || (_ >? opcode.push_positive_16)) eqn:E2; [discriminate|]. clear Hp. bool_to_prop.
  split_and!; try lia. exists (List.last ops reset_operation). split; [|lia].
  destruct ops as [|op ops]; [|by apply last_In].
  by match goal with Hz : 4 <= zlen [] |- _ => vm_compute in Hz end.
Qed.

Lemma output_patterns_exclusive ops :
  Forall op_parsed ops ->
  (length (List.filter (fun p : list operation -> bool => p ops)
     [is_pay_key_hash_pattern; is_pay_script_hash_pattern; is_null_data_pattern;
      is_pay_public_key_pattern; is_pay_multisig_pattern]) <= 1)%nat.
Proof.
  intros Hp. simpl.
  destruct (is_pay_multisig_pattern ops) eqn:Em.
  - apply pay_multisig_ends in Em as (Hz & Hl & Hh & _).
    destruct (is_pay_key_hash_pattern ops) eqn:E1;
      [pattern_cases; simpl in *; opcode_contra|].
    destruct (is_pay_script_hash_pattern ops) eqn:E2; [pattern_cases; zlen_lia|].
    destruct (is_null_data_pattern ops) eqn:E3; [pattern_cases; zlen_lia|].
    destruct (is_pay_public_key_pattern ops) eqn:E4; [pattern_cases; zlen_lia|]. simpl. lia.
  - destruct ops as [|a [|b [|c [|d [|e [|f ops]]]]]]; simpl;
      repeat match goal with |- context [if ?x then _ else _] => destruct x eqn:? end;
      simpl; try lia.
    (* two operations: a return carries no public key *)
    bool_to_prop. inversion_clear Hp as [|? ? Ha _].
    match goal with Hk : is_public_key _ = true |- _ => apply public_key_payload in Hk; [|done] end.
    opcode_contra.
Qed.

Lemma push_only_In ops op : is_push_only ops = true -> In op ops -> code op <= 96.
Proof.
  unfold is_push_only. rewrite forallb_forall. intros Hf Hin.
  specialize (Hf op Hin). unfold is_push, opcode.push_positive_16 in Hf. bool_to_prop. lia.
Qed.

(** Each output pattern has an operation that is not a push. *)
Lemma output_pattern_non_push ops :
  is_pay_key_hash_pattern ops || is_pay_script_hash_pattern ops || is_null_data_pattern ops
  || is_pay_public_key_pattern ops || is_pay_multisig_pattern ops = true ->
  exists op, In op ops /\ 96 < code op.
Proof.
  intros Ho. repeat (apply orb_true_iff in Ho as [Ho|Ho]).
  5: { apply pay_multisig_ends in Ho as (_ & _ & _ & op & Hin & Hc). exists op.
       split; [done|opcode_contra]. }
  all: pattern_cases;
    match goal with
    | Hc : code ?x = opcode.dup |- _ => exists x
    | Hc : code ?x = opcode.hash160 |- _ => exists x
    | Hc : code ?x = opcode.return_ |- _ => exists x
    | Hc : code ?x = opcode.checksig |- _ => exists x
    end; (split; [simpl; tauto|opcode_contra]).
Qed.

Lemma output_input_disjoint ops :
  Forall op_parsed ops ->
  is_pay_key_hash_pattern ops || is_pay_script_hash_pattern ops || is_null_data_pattern ops
  || is_pay_public_key_pattern ops || is_pay_multisig_pattern ops = true ->
  is_sign_key_hash_pattern ops = false /\ is_sign_script_hash_pattern ops = false /\
  is_sign_public_key_pattern ops = false /\ is_sign_multisig_pattern ops = false.
Proof.
  intros Hp Ho. destruct (output_pattern_non_push ops Ho) as (op & Hin & Hc).
  rewrite List.Forall_forall in Hp. split_and!; apply not_true_is_false; intros Hi.
  - pattern_cases. destruct Hin as [<-|[<-|[]]].
    + pose proof (endorsement_payload o ltac:(apply Hp; simpl; tauto) ltac:(done)). lia.
    + pose proof (public_key_payload o0 ltac:(apply Hp; simpl; tauto) ltac:(done)). lia.
  - destruct ops as [|o ops]; [done|]. unfold is_sign_script_hash_pattern in Hi. bool_to_prop.
    pose proof (push_only_In _ op ltac:(eassumption) Hin). lia.
  - pattern_cases. destruct Hin as [<-|[]].
    pose proof (endorsement_payload o ltac:(apply Hp; simpl; tauto) ltac:(done)). lia.
  - destruct ops as [|o [|o0 ops]]; [done|done|].
    unfold is_sign_multisig_pattern in Hi. bool_to_prop. cbn [tl] in *.
    destruct Hin as [<-|Hin]; [opcode_contra|].
    match goal with Hf : forallb _ _ = true |- _ => rewrite forallb_forall in Hf;
      pose proof (endorsement_payload op ltac:(apply Hp; by right) (Hf op Hin)) end. lia.
Qed.

Lemma sign_key_hash_script_hash ops :
  Forall op_parsed ops ->
  is_sign_key_hash_pattern ops = true -> is_sign_script_hash_pattern ops = true.
Proof.
  intros Hp Hi. pattern_cases.
  inversion_clear Hp as [|? ? Ha Hp']. inversion_clear Hp' as [|? ? Hb _].
  pose proof (endorsement_payload o Ha ltac:(done)) as Hca.
  pose proof (public_key_payload o0 Hb ltac:(done)) as Hcb.
  unfold is_sign_script_hash_pattern, is_push_only, is_push. simpl.
  unfold opcode.push_positive_16, opcode.reserved_80.
  assert (0 < zlen (op_data o0)).
  { unfold is_public_key, is_compressed_key, is_uncompressed_key in *.
    match goal with Hk : _ || _ = true |- _ => apply orb_true_iff in Hk as [Hk|Hk] end;
      bool_to_prop; lia. }
  repeat match goal with |- context [?x <=? ?y] =>
    replace (x <=? y) with true by (symmetry; apply Z.leb_le; lia) end.
  repeat match goal with |- context [?x =? ?y] =>
    replace (x =? y) with false by (symmetry; apply Z.eqb_neq; lia) end.
  done.
Qed.
End Disjoint.

(** ** Constructors *)

Section Construct.
Context `{Currency}.

Lemma op_of_data_payload d :
  2 <= zlen d <= max_push_data_size ->
  op_of_data d true = mk_operation (opcode_from_size (zlen d)) d true /\
  is_payload (opcode_from_size (zlen d)) = true.
Proof.
  intros Hd. unfold max_push_data_size in Hd.
  assert (Hp : is_payload (opcode_from_size (zlen d)) = true).
  { unfold is_payload, opcode_from_size, opcode.push_size_75, opcode.push_one_size,
      opcode.push_two_size, opcode.push_four_size, opcode.push_size_1, max_uint8, max_uint16.
    repeat case_if; try done. apply andb_true_iff. rewrite Z.geb_leb, !Z.leb_le. lia. }
  split; [|done]. unfold op_of_data, opcode_from_data, minimal_opcode_from_data, is_oversized.
  unfold max_push_data_size.
  replace (zlen d >? 520) with false by (symmetry; rewrite Z.gtb_ltb; apply Z.ltb_ge; lia).
  replace (zlen d =? 1) with false by (symmetry; apply Z.eqb_neq; lia).
  simpl. by rewrite Hp.
Qed.

Lemma op_of_data_wf d :
  bytes_ok d -> 2 <= zlen d <= max_push_data_size -> operation_wf (op_of_data d true).
Proof.
  intros Hb Hd. destruct (op_of_data_payload d Hd) as [-> Hp].
  unfold max_push_data_size in Hd.
  assert (520 <= get_max_block_size).
  { unfold get_max_block_size, is_bch. destruct get_currency; by vm_compute. }
  unfold is_payload, opcode.push_size_1, opcode.push_four_size in Hp. bool_to_prop.
  unfold operation_wf. cbn [code op_data op_valid].
  split_and!; [done|unfold byte_ok; lia|done|lia|].
  unfold opcode_from_size, opcode.push_size_75, opcode.push_one_size, opcode.push_two_size,
    opcode.push_four_size, max_uint8, max_uint16.
  destruct (zlen d <=? 75) eqn:E1; bool_to_prop.
  - repeat case_if; lia.
  - destruct (zlen d <=? 2 ^ 8 - 1) eqn:E2; bool_to_prop; simpl; [lia|].
    destruct (zlen d <=? 2 ^ 16 - 1) eqn:E3; bool_to_prop; simpl; lia.
Qed.

Lemma op_of_code_wf c : 79 <= c < 256 -> operation_wf (op_of_code c).
Proof.
  intros Hc. pose proof get_max_block_size_bound. unfold operation_wf. simpl.
  split_and!; [done|unfold byte_ok; lia|apply bytes_ok_nil| |].
  - change (zlen []) with 0. lia.
  - unfold opcode.push_one_size, opcode.push_two_size, opcode.push_four_size,
      opcode.push_size_75. repeat case_if; try lia. done.
Qed.

Ltac forall_ops :=
  repeat (apply Forall_cons_2); try apply Forall_nil_2;
  try (apply op_of_code_wf; split; [by vm_compute|by vm_compute]; fail).

(** A script built from well-formed operations has them after its bytes have
    been copied, stored or sent. *)
Lemma copy_from_operations ops :
  Forall operation_wf ops -> operations (copy_script (from_operations ops)) = ops.
Proof. intros Hops. by apply operations_of_to_data. Qed.

Lemma public_key_size p : is_public_key p = true -> zlen p = 33 \/ zlen p = 65.
Proof.
  unfold is_public_key, is_compressed_key, is_uncompressed_key. intros Hk.
  apply orb_true_iff in Hk as [Hk|Hk]; bool_to_prop; lia.
Qed.

Lemma op_of_key_wf p :
  bytes_ok p -> is_public_key p = true ->
  operation_wf (op_of_data p true) /\ op_data (op_of_data p true) = p.
Proof.
  intros Hb Hk. apply public_key_size in Hk as Hz.
  assert (Hr : 2 <= zlen p <= max_push_data_size) by (unfold max_push_data_size; lia).
  split; [by apply op_of_data_wf|]. by destruct (op_of_data_payload p Hr) as [-> _].
Qed.

Lemma key_hash_recognized h :
  bytes_ok h -> zlen h = 20 ->
  output_pattern (copy_script (from_operations (to_pay_key_hash_pattern h))) = pay_key_hash.
Proof.
  intros Hb Hz. unfold output_pattern. rewrite copy_from_operations.
  - unfold to_pay_key_hash_pattern. destruct (op_of_data_payload h) as [-> _];
      [unfold max_push_data_size; lia|]. simpl. by rewrite Hz.
  - forall_ops. apply op_of_data_wf; [done|unfold max_push_data_size; lia].
Qed.

Lemma script_hash_recognized h :
  bytes_ok h -> zlen h = 20 ->
  output_pattern (copy_script (from_operations (to_pay_script_hash_pattern h))) = pay_script_hash.
Proof.
  intros Hb Hz. unfold output_pattern. rewrite copy_from_operations.
  - unfold to_pay_script_hash_pattern. destruct (op_of_data_payload h) as [-> _];
      [unfold max_push_data_size; lia|]. simpl. by rewrite Hz.
  - forall_ops. apply op_of_data_wf; [done|unfold max_push_data_size; lia].
Qed.

Lemma public_key_recognized p :
  bytes_ok p -> is_public_key p = true ->
  output_pattern (copy_script (from_operations (to_pay_public_key_pattern p))) = pay_public_key.
Proof.
  intros Hb Hk. destruct (op_of_key_wf p Hb Hk) as [Hwf Hd].
  unfold output_pattern, to_pay_public_key_pattern. rewrite Hk. cbn [negb].
  rewrite copy_from_operations.
  - unfold is_pay_key_hash_pattern, is_pay_script_hash_pattern, is_null_data_pattern.
    cbn [is_pay_public_key_pattern]. rewrite Hd, Hk.
    assert (Hc : code (op_of_data p true) =? opcode.return_ = false).
    { apply Z.eqb_neq. pose proof (public_key_payload _ (or_introl Hwf)) as Hpay.
      rewrite Hd in Hpay. specialize (Hpay Hk). opcode_contra. }
    by rewrite Hc.
  - by forall_ops.
Qed.

Lemma multisig_shape m points :
  1 <= m <= zlen points -> zlen points <= 16 ->
  Forall (fun p => bytes_ok p /\ is_public_key p = true) points ->
  is_pay_multisig_pattern
    ([op_of_code (m + 80)] ++ map (fun point => op_of_data point true) points ++
     [op_of_code (zlen points + 80); op_of_code opcode.checkmultisig]) = true.
Proof.
  intros Hm Hn Hps. set (keys := map _ points).
  assert (Hkl : length keys = length points) by (subst keys; apply length_map).
  set (a := op_of_code (m + 80)). set (b := op_of_code (zlen points + 80)).
  set (c := op_of_code opcode.checkmultisig).
  assert (Hlast : List.last ([a] ++ keys ++ [b; c]) reset_operation = c).
  { change [b; c] with ([b] ++ [c]). rewrite !app_assoc. apply List.last_last. }
  assert (Hlen : length ([a] ++ keys ++ [b; c]) = (length points + 3)%nat).
  { rewrite !length_app. simpl. lia. }
  assert (Hnth : nth (length points + 1) ([a] ++ keys ++ [b; c]) reset_operation = b).
  { rewrite app_assoc. replace (length points + 1)%nat with (length ([a] ++ keys))
      by (simpl; lia). apply nth_middle. }
  assert (Htake : take (length points) (tl ([a] ++ keys ++ [b; c])) = keys).
  { simpl. rewrite <- Hkl. apply take_app_length. }
  unfold is_pay_multisig_pattern. rewrite Hlast. unfold zlen at 1 2. rewrite Hlen.
  replace (length points + 3 - 2)%nat with (length points + 1)%nat by lia.
  replace (length points + 3 - 3)%nat with (length points) by lia.
  rewrite Hnth, Htake. cbn [app hd]. subst a b c. cbn [op_of_code code].
  unfold opcode.push_positive_1, opcode.push_positive_16, zlen in *. simpl negb.
  repeat match goal with |- context [?x <? ?y] =>
    replace (x <? y) with false by (symmetry; apply Z.ltb_ge; lia) end.
  repeat match goal with |- context [?x >? ?y] =>
    replace (x >? y) with false by (symmetry; rewrite Z.gtb_ltb; apply Z.ltb_ge; lia) end.
  match goal with |- context [?x =? ?y] =>
    replace (x =? y) with true by (symmetry; apply Z.eqb_eq; lia) end.
  simpl. apply forallb_forall. intros op Hin. apply in_map_iff in Hin as (p & <- & Hin).
  rewrite List.Forall_forall in Hps. destruct (Hps p Hin) as [Hb Hk].
  by destruct (op_of_key_wf p Hb Hk) as [_ ->].
Qed.

Lemma multisig_recognized m points :
  1 <= m <= zlen points -> zlen points <= 16 ->
  Forall (fun p => bytes_ok p /\ is_public_key p = true) points ->
  output_pattern (copy_script (from_operations (to_pay_multisig_pattern m points))) = pay_multisig.
Proof.
  intros Hm Hn Hps.
  assert (Hks : forallb is_public_key points = true).
  { apply forallb_forall. rewrite List.Forall_forall in Hps. intros p Hin. by apply Hps. }
  set (keys := map (fun point => op_of_data point true) points).
  assert (Hkl : length keys = length points) by (subst keys; apply length_map).
  set (ops := [op_of_code (m + 80)] ++ keys ++
              [op_of_code (zlen points + 80); op_of_code opcode.checkmultisig]).
  assert (Eops : to_pay_multisig_pattern m points = ops).
  { unfold to_pay_multisig_pattern, opcode.push_positive_1, opcode.push_positive_16.
    rewrite Hks. repeat case_if; try done; lia. }
  assert (Hwf : Forall operation_wf ops).
  { repeat (apply Forall_app; split).
    - forall_ops. apply op_of_code_wf. lia.
    - subst keys. apply Forall_map. eapply Forall_impl; [exact Hps|].
      intros p [Hb Hk]. by apply op_of_key_wf.
    - forall_ops. apply op_of_code_wf. lia. }
  unfold output_pattern. rewrite Eops, copy_from_operations by done.
  assert (Hlen : length ops = (length points + 3)%nat).
  { subst ops. rewrite !length_app. simpl. lia. }
  assert (Hms : is_pay_multisig_pattern ops = true).
  { by apply multisig_shape. }
  clearbody ops. pose proof (output_patterns_exclusive ops) as Hx.
  cbn [List.filter] in Hx. rewrite Hms in Hx.
  assert (Hpar : Forall op_parsed ops) by (eapply Forall_impl; [exact Hwf|by left]).
  specialize (Hx Hpar). rewrite Hms. revert Hx.
  repeat case_if; cbn [length]; (done || (intros; exfalso; lia)).
Qed.
End Construct.

(** ** Signature operations *)

(** The accurate count of signature operations of a script never exceeds
    the legacy count, and both are bounded by twenty per operation. *)
Lemma sigops_bounds `{Currency} s :
  bytes_ok (bytes s) -> ops_cache s = None ->
  0 <= sigops true s <= sigops false s /\
  sigops false s <= multisig_default_sigops * zlen (operations s).
Proof.
  intros Hb Hc. unfold sigops.
  assert (Hops : Forall (fun op => byte_ok (code op)) (operations s)).
  { unfold operations. rewrite Hc. eapply Forall_impl; [by apply operations_of_parsed|].
    apply parsed_byte. }
  assert (Hp : byte_ok opcode.reserved_255) by (by vm_compute).
  pose proof (sigops_loop_bound true _ _ 0 Hp Hops). pose proof (sigops_loop_bound false _ _ 0 Hp Hops).
  pose proof (sigops_loop_accurate _ _ 0 0 Hp Hops). lia.
Qed.

(** ** Classification *)

(** A parsed script matches at most one of the output templates, and a
    script that matches one is not an input template. *)
Lemma template_classification `{Currency} ops :
  Forall op_parsed ops ->
  let output_templates := [is_pay_key_hash_pattern; is_pay_script_hash_pattern;
    is_null_data_pattern; is_pay_public_key_pattern; is_pay_multisig_pattern] in
  let input_templates := [is_sign_key_hash_pattern; is_sign_script_hash_pattern;
    is_sign_public_key_pattern; is_sign_multisig_pattern] in
  (length (List.filter (fun f : list operation -> bool => f ops) output_templates) <= 1)%nat /\
  (existsb (fun f : list operation -> bool => f ops) output_templates = true ->
   existsb (fun f : list operation -> bool => f ops) input_templates = false).
Proof.
  intros Hp outs ins. split; [by apply output_patterns_exclusive|]. subst outs ins. simpl.
  rewrite !orb_false_r, !orb_assoc. intros Ho.
  by destruct (output_input_disjoint ops Hp Ho) as (-> & -> & -> & ->).
Qed.

(** The scripts the library builds for a key hash, a script hash, a
    public key and a multisignature are recognized as what they are after they
    have been serialized and parsed again. *)
Lemma built_scripts_recognized `{Currency} hash key m points :
  bytes_ok hash -> zlen hash = 20 -> bytes_ok key -> is_public_key key = true ->
  1 <= m <= zlen points -> zlen points <= 16 ->
  Forall (fun p => bytes_ok p /\ is_public_key p = true) points ->
  let reparsed ops := copy_script (from_operations ops) in
  output_pattern (reparsed (to_pay_key_hash_pattern hash)) = pay_key_hash /\
  output_pattern (reparsed (to_pay_script_hash_pattern hash)) = pay_script_hash /\
  output_pattern (reparsed (to_pay_public_key_pattern key)) = pay_public_key /\
  output_pattern (reparsed (to_pay_multisig_pattern m points)) = pay_multisig.
Proof.
  intros. cbv zeta. split_and!; [by apply key_hash_recognized|by apply script_hash_recognized
    |by apply public_key_recognized|by apply multisig_recognized].
Qed.
