(* ===== verification/Chain.v ===== *)
(** The parts of a transaction: [src/chain/point.cpp], [output.cpp],
    [output_point.cpp], [witness.cpp] and [input.cpp]; their state, codecs,
    sizes and validation helpers. A [from_data] returns the instance with the
    [bool] the code returns. [wire] selects the protocol serialization, false is
    the store's. *)

From S2P Require Import Prelude Limits Endian Reader Writer Codes Number Operation Script.

(** ** Point *)

Record point := mk_point {
  pt_hash : list Z;
  pt_index : Z;
  pt_valid : bool
}.

Definition null_index : Z := no_previous_output.

Definition reset_point : point := mk_point null_hash 0 false.

(** [point::point(hash, index)] *)
Definition new_point (hash : list Z) (index : Z) : point := mk_point hash index true.

(** A point that is set is no longer a default instance, so valid. *)
Definition point_set_hash (hash : list Z) (p : point) : point := mk_point hash (pt_index p) true.
Definition point_set_index (index : Z) (p : point) : point := mk_point (pt_hash p) index true.

(** [point::operator=]: the validity flag is not assigned. *)
Definition assign_point (self other : point) : point :=
  mk_point (pt_hash other) (pt_index other) (pt_valid self).

(** [std::array] order of the hashes. *)
Fixpoint bytes_ltb (a b : list Z) : bool :=
  match a, b with
  | [], _ :: _ => true
  | _, [] => false
  | x :: a, y :: b => if x <? y then true else if y <? x then false else bytes_ltb a b
  end.

Definition point_ltb (a b : point) : bool :=
  if pt_index a =? pt_index b then bytes_ltb (pt_hash a) (pt_hash b)
  else pt_index a <? pt_index b.

Definition point_eqb (a b : point) : bool :=
  bool_decide (pt_hash a = pt_hash b) && (pt_index a =? pt_index b).

Definition point_is_valid (p : point) : bool :=
  pt_valid p || negb (bool_decide (pt_hash p = null_hash)) || negb (pt_index p =? 0).

Definition point_is_null (p : point) : bool :=
  (pt_index p =? null_index) && bool_decide (pt_hash p = null_hash).

Definition satoshi_fixed_size : Z := 32 + 4.
Definition store_point_size : Z := 32 + 2.

Definition point_serialized_size (wire : bool) : Z :=
  if wire then satoshi_fixed_size else store_point_size.

Definition point_to_data (wire : bool) (p : point) : list Z :=
  write_hash (pt_hash p) ++
  (if wire then write_4_bytes_little_endian (pt_index p)
   else write_2_bytes_little_endian (u16 (pt_index p))).

Definition point_checksum (p : point) : Z :=
  let mask := 0xffffffffffff8000 in
  let tx := from_little_endian 8 (drop 12 (pt_hash p)) in
  let index := pt_index p in
  let tx_upper_49_bits := Z.land tx mask in
  let index_lower_15_bits := Z.land index (u64 (Z.lnot mask)) in
  Z.lor tx_upper_49_bits index_lower_15_bits.

(** ** Output *)

Record output := mk_output {
  out_value : Z;
  out_script : script;
  spender_height : Z
}.

Definition not_found : Z := sighash_null_value.
Definition not_spent : Z := max_uint32.

Definition default_output : output := mk_output not_found reset_script not_spent.

(** [output::reset] keeps the validation metadata. *)
Definition reset_output (o : output) : output := mk_output not_found reset_script (spender_height o).

Definition new_output (value : Z) (s : script) : output := mk_output value s not_spent.

Definition output_set_value (value : Z) (o : output) : output :=
  mk_output value (out_script o) (spender_height o).
Definition output_set_script (s : script) (o : output) : output :=
  mk_output (out_value o) (copy_script s) (spender_height o).

(** [output::operator=] *)
Definition assign_output (self other : output) : output :=
  mk_output (out_value other) (copy_script (out_script other)) (spender_height other).

Definition output_eqb (a b : output) : bool :=
  (out_value a =? out_value b) && script_eqb (out_script a) (out_script b).

Definition output_is_valid (o : output) : bool := negb (out_value o =? not_found).

(** [safe_unsigned<uint32_t>(validation.spender_height)] throws ([None]) when
    the height does not fit. *)
Definition output_to_data (wire : bool) (o : output) : option (list Z) :=
  let body := write_8_bytes_little_endian (out_value o) ++ script_to_data true (out_script o) in
  if wire then Some body
  else match safe_unsigned 32 (spender_height o) with
       | Some height32 => Some (write_4_bytes_little_endian height32 ++ body)
       | None => None
       end.

Definition output_serialized_size (wire : bool) (o : output) : Z :=
  (if wire then 0 else 4) + 8 + script_serialized_size true (out_script o).

(** ** Output point: a point with the metadata of the output it refers to *)

Record output_point := mk_output_point {
  op_point : point;
  spent : bool;
  confirmed : bool;
  prevout_coinbase : bool;
  prevout_height : Z;
  prevout_median_time_past : Z;
  prevout_cache : output
}.

Definition new_output_point (p : point) : output_point :=
  mk_output_point p false false false 0 0 default_output.

(** [output_point::operator=(const output_point&)] *)
Definition assign_output_point (self other : output_point) : output_point :=
  mk_output_point (assign_point (op_point self) (op_point other)) (spent other) (confirmed other)
    (prevout_coinbase other) (prevout_height other) (prevout_median_time_past other)
    (assign_output (prevout_cache self) (prevout_cache other)).

(** The point part of an output point, replaced. *)
Definition set_op_point (o : output_point) (p : point) : output_point :=
  mk_output_point p (spent o) (confirmed o) (prevout_coinbase o) (prevout_height o)
    (prevout_median_time_past o) (prevout_cache o).

Definition is_mature (height : Z) (o : output_point) : bool :=
  if negb (prevout_coinbase o) || point_is_null (op_point o) then true
  else floor_subtract 64 height (prevout_height o) >=? coinbase_maturity.

(** ** Witness *)

Record witness := mk_witness {
  stack : list (list Z);
  wit_valid : bool
}.

Definition reset_witness : witness := mk_witness [] false.

Definition witness_eqb (a b : witness) : bool := bool_decide (stack a = stack b).

Definition witness_is_empty (w : witness) : bool := zlen (stack w) =? 0.

Definition element_to_data (element : list Z) : list Z :=
  write_size_little_endian (zlen element) ++ write_bytes element.

Definition witness_to_data (prefix : bool) (w : witness) : list Z :=
  (if prefix then write_size_little_endian (zlen (stack w)) else []) ++
  concat (map element_to_data (stack w)).

Definition stack_serialized_size (st : list (list Z)) : Z :=
  fold_left (fun total element => total + variable_uint_size (zlen element) + zlen element) st 0.

Definition witness_serialized_size (prefix : bool) (w : witness) : Z :=
  (if prefix then variable_uint_size (zlen (stack w)) else 0) + stack_serialized_size (stack w).

Definition is_push_size (st : list (list Z)) : bool :=
  forallb (fun element => zlen element <=? max_push_data_size) st.

Definition is_reserved_pattern (st : list (list Z)) : bool :=
  match st with
  | [element] => zlen element =? Z.of_nat hash_size
  | _ => false
  end.

(** ** Input *)

Record input := mk_input {
  previous_output : output_point;
  in_script : script;
  in_witness : witness;
  sequence : Z
}.

Definition new_input (previous : output_point) (s : script) (seq : Z) : input :=
  mk_input previous s reset_witness seq.

Definition input_set_previous_output (value : output_point) (i : input) : input :=
  mk_input (assign_output_point (previous_output i) value) (in_script i) (in_witness i) (sequence i).
Definition input_set_script (s : script) (i : input) : input :=
  mk_input (previous_output i) (copy_script s) (in_witness i) (sequence i).
Definition input_set_witness (w : witness) (i : input) : input :=
  mk_input (previous_output i) (in_script i) w (sequence i).
Definition input_set_sequence (value : Z) (i : input) : input :=
  mk_input (previous_output i) (in_script i) (in_witness i) value.

(** [input::operator=] *)
Definition assign_input (self other : input) : input :=
  mk_input (assign_output_point (previous_output self) (previous_output other))
    (copy_script (in_script other)) (in_witness other) (sequence other).

(** [output_point::operator==] and so [input::operator==] ignore metadata. *)
Definition input_eqb (a b : input) : bool :=
  (sequence a =? sequence b) && point_eqb (op_point (previous_output a)) (op_point (previous_output b)) &&
  script_eqb (in_script a) (in_script b) && witness_eqb (in_witness a) (in_witness b).

Definition input_is_valid (i : input) : bool :=
  negb (sequence i =? 0) || point_is_valid (op_point (previous_output i)) ||
  script_valid (in_script i) || wit_valid (in_witness i).

Definition strip_input_witness (i : input) : input :=
  mk_input (previous_output i) (in_script i) reset_witness (sequence i).

Definition is_final_input (i : input) : bool := sequence i =? max_input_sequence.

Definition is_segregated_input (i : input) : bool := negb (witness_is_empty (in_witness i)).

(** [size_t] and [uint32_t] subtractions wrap below zero. *)
Definition is_locked_input (block_height median_time_past : Z) (i : input) : bool :=
  if negb (Z.land (sequence i) relative_locktime_disabled =? 0) then false
  else
    let minimum := Z.land (sequence i) relative_locktime_mask in
    if negb (Z.land (sequence i) relative_locktime_time_locked =? 0) then
      let age_seconds := u32 (median_time_past - prevout_median_time_past (previous_output i)) in
      age_seconds <? u32 (Z.shiftl minimum relative_locktime_seconds_shift)
    else
      let age_blocks := u64 (block_height - prevout_height (previous_output i)) in
      age_blocks <? minimum.

Section Codecs.
Context `{Currency}.

(** [witness |= !wire], or always false without segregated witness. *)
Definition store_witness (wire wit : bool) : bool := if is_bch then false else wit || negb wire.

Definition input_to_data (wire wit : bool) (i : input) : list Z :=
  let wit := store_witness wire wit in
  point_to_data wire (op_point (previous_output i)) ++
  script_to_data true (in_script i) ++
  (if wit && negb wire then witness_to_data true (in_witness i) else []) ++
  write_4_bytes_little_endian (sequence i).

Definition input_serialized_size (wire wit : bool) (i : input) : Z :=
  let wit := store_witness wire wit in
  point_serialized_size wire + script_serialized_size true (in_script i) +
  (if wit then witness_serialized_size true (in_witness i) else 0) + 4.

Section Decode.
Context {R : Type} `{Reader R}.

Definition point_from_data (wire : bool) : rd R (point * bool) :=
  hash <~ read_hash ;;
  index <~ (if wire then read_4_bytes_little_endian
            else index <~ read_2_bytes_little_endian ;;
                 rret (if index =? max_uint16 then null_index else index)) ;;
  rd_check (mk_point hash index true) reset_point.

(** [self] is the instance read into: its metadata survives the reset. *)
Definition output_from_data (wire : bool) (self : output) : rd R (output * bool) :=
  height <~ (if wire then rret (spender_height self) else read_4_bytes_little_endian) ;;
  value <~ read_8_bytes_little_endian ;;
  s <~ script_from_data true ;;
  let o := mk_output value (fst s) height in
  rd_check o (reset_output o).

Definition read_element : rd R (list Z) :=
  size <~ read_size_little_endian ;;
  if size >? max_block_weight then rd_invalidate ;;; rret []
  else rd_read_bytes size.

(** [for (count; count > 0; --count)]: one element per turn, whether or not
    the source is still valid. *)
Fixpoint read_elements (count : nat) (acc : list (list Z)) : rd R (list (list Z)) :=
  match count with
  | O => rret acc
  | S count => element <~ read_element ;; read_elements count (acc ++ [element])
  end.

Definition witness_from_data : rd R (witness * bool) :=
  count <~ read_size_little_endian ;;
  st <~ read_elements (Z.to_nat count) [] ;;
  rd_check (mk_witness st true) reset_witness.

Definition input_from_data (wire wit : bool) (self : input) : rd R (input * bool) :=
  let wit := store_witness wire wit in
  p <~ point_from_data wire ;;
  let previous := set_op_point (previous_output self) (fst p) in
  if negb (snd p) then rret (mk_input previous reset_script reset_witness 0, false)
  else
    s <~ script_from_data true ;;
    w <~ (if wit && negb wire then witness_from_data else rret (reset_witness, true)) ;;
    seq <~ read_4_bytes_little_endian ;;
    rd_check (mk_input previous (fst s) (fst w) seq)
      (mk_input (set_op_point previous reset_point) reset_script reset_witness 0).
End Decode.

(** ** Signature operations *)

Definition output_signature_operations (bip141 : bool) (o : output) : Z :=
  let bip141 := if is_bch then false else bip141 in
  let sigops_factor := if bip141 then fast_sigops_factor else 1 in
  sigops false (out_script o) * sigops_factor.

Definition is_dust (minimum_value : Z) (o : output) : bool :=
  (out_value o <? minimum_value) && negb (is_unspendable (out_script o)).

Definition extract_committed_hash (o : output) : option (list Z) :=
  let ops := operations (out_script o) in
  if negb (is_commitment_pattern ops) then None
  else Some (take hash_size (drop 4 (op_data (nth 1 ops reset_operation)))).

(** [witness::extract_sigop_script]; [None] is a return of false. *)
Definition extract_sigop_script (w : witness) (program_script : script) : option script :=
  match version program_script with
  | zero =>
      let size := length (witness_program program_script) in
      if (size =? short_hash_size)%nat then Some (from_operations [op_of_code opcode.checksig])
      else if (size =? hash_size)%nat then
        match stack w with
        | [] => Some reset_script
        | _ => Some (mk_script (List.last (stack w) []) true None)
        end
      else Some reset_script
  | reserved => Some reset_script
  | unversioned => None
  end.

(** [input::extract_embedded_script] *)
Definition extract_input_embedded_script (i : input) : option script :=
  let ops := operations (in_script i) in
  let prevout_script := out_script (prevout_cache (previous_output i)) in
  if negb (is_pay_to_script_hash rule_fork.bip16_rule prevout_script) then None
  else match ops with
       | [] => None
       | _ => if negb (is_relaxed_push_only ops) then None
              else Some (mk_script (op_data (List.last ops reset_operation)) true None)
       end.

Definition input_signature_operations (bip16 bip141 : bool) (i : input) : Z :=
  let bip141 := if is_bch then false else bip141 in
  let prevout := out_script (prevout_cache (previous_output i)) in
  let sigops_factor := if bip141 then fast_sigops_factor else 1 in
  let total := sigops false (in_script i) * sigops_factor in
  match (if bip141 then extract_sigop_script (in_witness i) prevout else None) with
  | Some wscript => total + sigops true wscript
  | None =>
      match (if bip16 then extract_input_embedded_script i else None) with
      | Some embedded =>
          match (if bip141 then extract_sigop_script (in_witness i) embedded else None) with
          | Some wscript => total + sigops true wscript
          | None => total + sigops true embedded * sigops_factor
          end
      | None => total
      end
  end.

Definition extract_reserved_hash (i : input) : option (list Z) :=
  if negb (is_reserved_pattern (stack (in_witness i))) then None
  else Some (take hash_size (hd [] (stack (in_witness i)))).
End Codecs.


(** ** Round trips and sizes *)

Definition point_wf (wire : bool) (p : point) : Prop :=
  pt_valid p = true /\ length (pt_hash p) = hash_size /\ bytes_ok (pt_hash p) /\
  if wire then in_width 32 (pt_index p)
  else in_width 16 (pt_index p) /\ pt_index p <> max_uint16 \/ pt_index p = null_index.

Definition output_wf `{Currency} (o : output) : Prop :=
  in_width 64 (out_value o) /\ script_wf (out_script o).

Definition element_wf `{Currency} (e : list Z) : Prop := zlen e <= max_block_weight /\ bytes_ok e.

Definition witness_wf `{Currency} (w : witness) : Prop :=
  wit_valid w = true /\ in_width 64 (zlen (stack w)) /\ Forall element_wf (stack w).

Lemma element_width `{Currency} e : element_wf e -> in_width 64 (zlen e).
Proof.
  intros [Hlen _]. apply in_width_zlen. pose proof get_max_block_size_bound.
  unfold max_block_weight, light_weight_factor in Hlen. lia.
Qed.

Section ChainCodec.
Context {R : Type} `{ReaderLaws R} `{Currency}.

Lemma point_reads wire p :
  point_wf wire p -> reads (point_from_data wire) (point_to_data wire p) (p, true).
Proof.
  destruct p as [h i v]. intros (Hv & Hlen & Hb & Hi). simpl in *. subst v.
  unfold point_from_data, point_to_data, write_hash.
  eapply reads_bind; [by apply reads_forward|]. eapply reads_bind_nil; [|apply reads_check].
  destruct wire; simpl; [by apply reads_le|].
  eapply reads_bind_nil.
  - apply reads_le. destruct Hi as [[Hi _]| ->]; [|vm_compute; by split].
    unfold u16. by rewrite wrap_small.
  - destruct Hi as [[Hi Hne]| ->]; [|apply reads_ret].
    unfold u16. rewrite wrap_small by done. case_if; [lia|]. apply reads_ret.
Qed.

Lemma output_reads wire o self e :
  output_wf o -> output_to_data wire o = Some e ->
  reads (output_from_data wire self) e
    (mk_output (out_value o) (out_script o)
       (if wire then spender_height self else spender_height o), true).
Proof.
  intros [Hv Hs] He. unfold output_from_data, output_to_data in *. destruct wire.
  - simplify_eq. rewrite <- (app_nil_l (_ ++ _)).
    eapply reads_bind; [apply reads_ret|]. eapply reads_bind; [by apply reads_le|].
    eapply reads_bind_nil; [by apply script_reads|]. apply reads_check.
  - destruct (safe_unsigned 32 (spender_height o)) as [h|] eqn:Eh; simplify_eq.
    apply safe_unsigned_some in Eh as [-> Hh]. eapply reads_bind; [by apply reads_le|].
    eapply reads_bind; [by apply reads_le|].
    eapply reads_bind_nil; [by apply script_reads|]. apply reads_check.
Qed.

Lemma read_elements_reads st acc :
  Forall element_wf st ->
  reads (read_elements (length st) acc) (concat (map element_to_data st)) (acc ++ st).
Proof.
  intros Hst. revert acc. induction Hst as [|e st [Hlen Hb] _ IH]; intros acc; simpl.
  { rewrite app_nil_r. apply reads_ret. }
  rewrite (cons_middle e acc st), app_assoc. eapply reads_bind; [|apply IH].
  eapply reads_bind; [apply reads_size|].
  - apply element_width. by split.
  - case_if; [lia|]. by apply reads_bytes.
Qed.

Lemma witness_reads w :
  witness_wf w -> reads witness_from_data (witness_to_data true w) (w, true).
Proof.
  destruct w as [st v]. intros (Hv & Hc & Hst). simpl in *. subst v.
  eapply reads_bind; [by apply reads_size|]. eapply reads_bind_nil; [|apply reads_check].
  unfold zlen. rewrite Nat2Z.id. by apply read_elements_reads.
Qed.
End ChainCodec.

Section InputCodec.
Context {R : Type} `{ReaderLaws R} `{Currency}.

(** Whether the input carries its witness in its own serialization. *)
Definition writes_witness (wire wit : bool) : bool := store_witness wire wit && negb wire.

Definition input_wf (wire wit : bool) (i : input) : Prop :=
  point_wf wire (op_point (previous_output i)) /\ script_wf (in_script i) /\
  (if writes_witness wire wit then witness_wf (in_witness i) else in_witness i = reset_witness) /\
  in_width 32 (sequence i).

(** What is decoded into [self]: its prevout metadata is kept. *)
Definition decoded_input (self i : input) : input :=
  mk_input (set_op_point (previous_output self) (op_point (previous_output i)))
    (in_script i) (in_witness i) (sequence i).

Lemma input_reads wire wit i self :
  input_wf wire wit i ->
  reads (input_from_data wire wit self) (input_to_data wire wit i) (decoded_input self i, true).
Proof.
  intros (Hp & Hs & Hw & Hq). unfold input_from_data, input_to_data, decoded_input.
  eapply reads_bind; [by apply point_reads|]. simpl.
  eapply reads_bind; [by apply script_reads|]. simpl.
  apply reads_bind with (a := (in_witness i, true)).
  - unfold writes_witness in Hw.
    destruct (store_witness wire wit && negb wire); [by apply witness_reads|].
    rewrite Hw. apply reads_ret.
  - eapply reads_bind_nil; [by apply reads_le|]. apply reads_check.
Qed.
End InputCodec.

Lemma zlen_point_to_data wire p :
  length (pt_hash p) = hash_size -> zlen (point_to_data wire p) = point_serialized_size wire.
Proof.
  intros Hl. unfold point_to_data, write_hash, zlen. rewrite length_app, Hl. by destruct wire.
Qed.

Lemma zlen_output_to_data `{Currency} wire o e :
  zlen (bytes (out_script o)) <= get_max_block_size -> output_to_data wire o = Some e ->
  zlen e = output_serialized_size wire o.
Proof.
  intros Hs He. pose proof (zlen_script_to_data true (out_script o) Hs) as Hz.
  unfold output_to_data, output_serialized_size in *. destruct wire.
  - simplify_eq. rewrite zlen_app, Hz. change (zlen (write_8_bytes_little_endian _)) with 8. lia.
  - destruct (safe_unsigned 32 _); simplify_eq. rewrite !zlen_app, Hz.
    change (zlen (write_8_bytes_little_endian _)) with 8.
    change (zlen (write_4_bytes_little_endian _)) with 4. lia.
Qed.

Lemma stack_serialized_size_sum st acc :
  Forall (fun e => in_width 64 (zlen e)) st ->
  fold_left (fun total element => total + variable_uint_size (zlen element) + zlen element) st acc =
  acc + zlen (concat (map element_to_data st)).
Proof.
  intros Hst. revert acc. induction Hst as [|e st He _ IH]; intros acc; simpl; [unfold zlen; simpl; lia|].
  unfold element_to_data at 1. rewrite IH, !zlen_app. unfold write_size_little_endian, write_bytes.
  rewrite zlen_write_variable by done. lia.
Qed.

Lemma zlen_witness_to_data prefix w :
  in_width 64 (zlen (stack w)) -> Forall (fun e => in_width 64 (zlen e)) (stack w) ->
  zlen (witness_to_data prefix w) = witness_serialized_size prefix w.
Proof.
  intros Hc Hst. unfold witness_to_data, witness_serialized_size, stack_serialized_size.
  rewrite stack_serialized_size_sum, zlen_app by done. destruct prefix; [|done].
  unfold write_size_little_endian. rewrite zlen_write_variable by done. lia.
Qed.

Lemma witness_wf_sizes `{Currency} w :
  witness_wf w -> in_width 64 (zlen (stack w)) /\ Forall (fun e => in_width 64 (zlen e)) (stack w).
Proof.
  intros (_ & Hc & Hst). split; [done|]. eapply Forall_impl; [exact Hst|]. apply element_width.
Qed.

(** On the wire the size of an input with its witness counts the witness that
    the transaction writes after the outputs. *)
Lemma zlen_input_to_data `{Currency} wire wit i :
  length (pt_hash (op_point (previous_output i))) = hash_size ->
  zlen (bytes (in_script i)) <= get_max_block_size ->
  witness_wf (in_witness i) ->
  zlen (input_to_data wire wit i) +
    (if store_witness wire wit && wire then zlen (witness_to_data true (in_witness i)) else 0) =
  input_serialized_size wire wit i.
Proof.
  intros Hh Hs Hw. apply witness_wf_sizes in Hw as [Hc Hst].
  unfold input_to_data, input_serialized_size. rewrite !zlen_app.
  rewrite zlen_point_to_data, zlen_script_to_data by done.
  change (zlen (write_4_bytes_little_endian _)) with 4.
  rewrite zlen_witness_to_data by done.
  destruct (store_witness wire wit), wire; simpl; rewrite ?zlen_witness_to_data by done;
    unfold zlen; simpl; lia.
Qed.

(** ** The order of points *)

Lemma bytes_ltb_irrefl a : bytes_ltb a a = false.
Proof. induction a as [|x a IH]; [done|]. simpl. by rewrite Z.ltb_irrefl. Qed.

Lemma bytes_ltb_trans a b c : bytes_ltb a b = true -> bytes_ltb b c = true -> bytes_ltb a c = true.
Proof.
  revert b c. induction a as [|x a IH]; intros [|y b] [|z c] Hab Hbc; simpl in *; try done.
  destruct (Z.ltb_spec x y), (Z.ltb_spec y x), (Z.ltb_spec y z), (Z.ltb_spec z y),
    (Z.ltb_spec x z), (Z.ltb_spec z x); try lia; try done. by eapply IH.
Qed.

Lemma bytes_ltb_total a b : bytes_ltb a b = false -> bytes_ltb b a = false -> a = b.
Proof.
  revert b. induction a as [|x a IH]; intros [|y b] Hab Hba; simpl in *; try done.
  destruct (Z.ltb_spec x y), (Z.ltb_spec y x); try lia; try done.
  f_equal; [lia|by apply IH].
Qed.

(** What the comparisons of points depend on. *)
Definition point_key (p : point) : Z * list Z := (pt_index p, pt_hash p).

Lemma point_ltb_trans p q r : point_ltb p q = true -> point_ltb q r = true -> point_ltb p r = true.
Proof.
  unfold point_ltb. destruct (Z.eqb_spec (pt_index p) (pt_index q)), (Z.eqb_spec (pt_index q) (pt_index r)),
    (Z.eqb_spec (pt_index p) (pt_index r)); intros; bool_to_prop; try lia;
    try (apply Z.ltb_lt; lia). by eapply bytes_ltb_trans.
Qed.

Lemma point_ltb_irrefl p q : point_key p = point_key q -> point_ltb p q = false.
Proof.
  unfold point_key, point_ltb. intros E. simplify_eq. rewrite H, Z.eqb_refl, H0. apply bytes_ltb_irrefl.
Qed.

Lemma point_ltb_total p q :
  point_ltb p q = false -> point_ltb q p = false -> point_key p = point_key q.
Proof.
  unfold point_ltb, point_key. rewrite (Z.eqb_sym (pt_index q)).
  destruct (Z.eqb_spec (pt_index p) (pt_index q)) as [E|]; intros; bool_to_prop; [|lia].
  f_equal; [done|by apply bytes_ltb_total].
Qed.

Lemma point_ltb_asym p q : point_ltb p q = true -> point_ltb q p = false.
Proof.
  intros Hpq. destruct (point_ltb q p) eqn:Hqp; [|done].
  pose proof (point_ltb_trans p q p Hpq Hqp) as Hp. by rewrite point_ltb_irrefl in Hp.
Qed.

Lemma point_le_trans p q r :
  sort_le point_ltb p q -> sort_le point_ltb q r -> sort_le point_ltb p r.
Proof.
  unfold sort_le. intros Hpq Hqr. destruct (point_ltb r p) eqn:Hrp; [|done].
  destruct (point_ltb p q) eqn:Epq.
  - by rewrite (point_ltb_trans r p q Hrp Epq) in Hqr.
  - pose proof (point_ltb_total p q Epq Hpq) as Ek. unfold point_key, point_ltb in *. simplify_eq.
    rewrite H, H0 in Hrp. by rewrite Hrp in Hqr.
Qed.

Lemma point_eqb_key p q : point_eqb p q = true <-> point_key p = point_key q.
Proof.
  unfold point_eqb, point_key. rewrite andb_true_iff, bool_decide_eq_true, Z.eqb_eq.
  split; [by intros [-> ->]|]. intros E. by simplify_eq.
Qed.

(** Sort and unique over points decide that no point occurs twice. *)
Lemma points_distinct ps :
  is_unique point_eqb (std_sort point_ltb ps) = true <-> NoDup (map point_key ps).
Proof.
  apply is_unique_sort.
  - exact point_ltb_asym.
  - exact point_le_trans.
  - intros p q Hpq Hqp. by apply point_ltb_total.
  - intros p q E. apply point_ltb_irrefl. done.
  - exact point_eqb_key.
Qed.
