(* ===== verification/Selection.v ===== *)
(** The selection of outputs to spend, [src/wallet/select_outputs.cpp], over
    [src/chain/point_value.cpp] and [src/chain/points_value.cpp], and the byte
    iterator over a point, [src/chain/point_iterator.cpp]. *)

From S2P Require Import Prelude Limits Endian Reader Writer Codes Chain.

(** ** Points with their values *)

Module point_value.
Record t := mk { base : point; value : Z }.

Definition default : t := mk reset_point 0.
Definition set_value (value : Z) (p : t) : t := mk (base p) value.

(** [std::swap] of the points goes through their assignment, which does not
    assign the validity flag. *)
Definition swap (left right : t) : t * t :=
  (mk (assign_point (base left) (base right)) (value right),
   mk (assign_point (base right) (base left)) (value left)).
Definition assign (self other : t) : t := fst (swap self other).
Definition eqb (a b : t) : bool := point_eqb (base a) (base b) && (value a =? value b).
End point_value.

Module points_value.
(** [std::accumulate] with [safe_add], which throws on overflow. *)
Fixpoint accumulate (total : Z) (points : list point_value.t) : option Z :=
  match points with
  | [] => Some total
  | p :: points => total ← safe_add 64 total (point_value.value p); accumulate total points
  end.

Definition value (points : list point_value.t) : option Z := accumulate 0 points.
End points_value.

(** ** Selection *)

Module select_outputs.

Inductive algorithm := greedy_ | individual_.

Definition lesser (left right : point_value.t) : bool := point_value.value left <? point_value.value right.
Definition greater (left right : point_value.t) : bool := point_value.value left >? point_value.value right.

(** [std::min_element] with [lesser] over a range, [None] for its end. *)
Fixpoint min_element (l : list point_value.t) : option point_value.t :=
  match l with
  | [] => None
  | p :: l =>
      match min_element l with
      | None => Some p
      | Some q => if lesser q p then Some q else Some p
      end
  end.

(** The loop that appends points until their value suffices. At the end of the
    list, which is asserted not to be reached, everything has been appended. *)
Fixpoint gather (minimum_value : Z) (out copy : list point_value.t) : option (list point_value.t) :=
  match copy with
  | [] => Some out
  | p :: copy =>
      let out := out ++ [p] in
      total ← points_value.value out;
      if total >=? minimum_value then Some out else gather minimum_value out copy
  end.

(** [None] is an overflow of a total. [std::partition] puts the values below
    the minimum first; the order within the two parts, which it leaves open, is
    kept. *)
Definition greedy (unspent : list point_value.t) (minimum_value : Z) : option (list point_value.t) :=
  total ← points_value.value unspent;
  if total <? minimum_value then Some []
  else match unspent with
  | [p] => Some [p]
  | _ =>
      let below p := point_value.value p <? minimum_value in
      let insufficient := List.filter below unspent in
      let sufficient := List.filter (fun p => negb (below p)) unspent in
      match min_element sufficient with
      | Some minimum => Some [minimum]
      | None => gather minimum_value [] (std_sort greater (insufficient ++ sufficient))
      end
  end.

Definition individual (unspent : list point_value.t) (minimum_value : Z) : list point_value.t :=
  std_sort lesser (List.filter (fun p => point_value.value p >=? minimum_value) unspent).

Definition select (unspent : list point_value.t) (minimum_value : Z) (option_ : algorithm) :
    option (list point_value.t) :=
  match option_ with
  | individual_ => Some (individual unspent minimum_value)
  | greedy_ => greedy unspent minimum_value
  end.

(** *** Totals *)

Definition sum (l : list point_value.t) : Z := fold_right (fun p s => point_value.value p + s) 0 l.
Definition values_ok (l : list point_value.t) : Prop := Forall (fun p => in_width 64 (point_value.value p)) l.

Lemma sum_app l k : sum (l ++ k) = sum l + sum k.
Proof. induction l as [|p l IH]; simpl; [done|]. rewrite IH. lia. Qed.

Lemma sum_nonneg l : values_ok l -> 0 <= sum l.
Proof. induction 1 as [|p l Hp _ IH]; simpl; [done|]. unfold in_width in Hp. lia. Qed.

#[global] Instance sum_proper : Proper (Permutation ==> eq) sum.
Proof. intros l k Hp. induction Hp; simpl; lia. Qed.

Lemma accumulate_fits l t :
  values_ok l -> 0 <= t -> t + sum l < 2 ^ 64 -> points_value.accumulate t l = Some (t + sum l).
Proof.
  intros Hl. revert t. induction Hl as [|p l Hp Hl IH]; intros t Ht Hs; simpl in *; [f_equal; lia|].
  pose proof (sum_nonneg l Hl). unfold in_width in Hp. unfold safe_add, umax.
  destruct (Z.gtb_spec t (2 ^ 64 - 1 - point_value.value p)); [lia|]. simpl.
  rewrite IH by lia. f_equal. lia.
Qed.

Lemma accumulate_some l t total :
  values_ok l -> 0 <= t < 2 ^ 64 -> points_value.accumulate t l = Some total -> total = t + sum l /\ total < 2 ^ 64.
Proof.
  intros Hl. revert t. induction Hl as [|p l Hp Hl IH]; intros t Ht E; simpl in *; [simplify_eq; lia|].
  unfold safe_add, umax in E. destruct (Z.gtb_spec t (2 ^ 64 - 1 - point_value.value p)); [done|]. simpl in E.
  unfold in_width in Hp. apply IH in E as [-> ?]; lia.
Qed.

(** *** Minimal selections *)

Lemma sorted_heads (s : list point_value.t) k : values_ok s -> sum (take k s) <= sum (take (S k) s).
Proof.
  revert k. induction s as [|p s IH]; intros k Hs; [by rewrite !take_nil|].
  apply Forall_cons in Hs as [Hp Hs]. unfold in_width in Hp. destruct k as [|k]; simpl; [lia|].
  specialize (IH k Hs). simpl in IH. lia.
Qed.

Lemma sum_take_mono (s : list point_value.t) j k : values_ok s -> (j <= k)%nat -> sum (take j s) <= sum (take k s).
Proof.
  intros Hs Hjk. induction Hjk as [|k _ IH]; [done|]. etransitivity; [exact IH|by apply sorted_heads].
Qed.

(** The head of a descending list replaces what is dropped. *)
Lemma take_shift p (s : list point_value.t) k :
  Forall (fun q => point_value.value q <= point_value.value p) s -> 0 <= point_value.value p ->
  sum (take (S k) s) <= point_value.value p + sum (take k s).
Proof.
  revert p k. induction s as [|q s IH]; intros p k Hs Hp; [rewrite !take_nil; simpl; lia|].
  apply Forall_cons in Hs as [Hq Hs]. destruct k as [|k]; [simpl; lia|].
  change (point_value.value q + sum (take (S k) s) <= point_value.value p + (point_value.value q + sum (take k s))).
  specialize (IH p k Hs Hp). lia.
Qed.

(** No selection of a size is worth more than the largest values. *)
Lemma largest_first (s t : list point_value.t) :
  values_ok s -> StronglySorted (sort_le greater) s -> t ⊆+ s -> sum t <= sum (take (length t) s).
Proof.
  intros Hv Hs. revert t Hv. induction Hs as [|p s Hs IH Hp]; intros t Hv Ht.
  { apply submseteq_nil_r in Ht. by subst t. }
  apply Forall_cons in Hv as [Hpv Hv]. unfold in_width in Hpv.
  assert (Hle : Forall (fun q => point_value.value q <= point_value.value p) s).
  { eapply Forall_impl; [exact Hp|]. intros q. unfold sort_le, greater. rewrite Z.gtb_ltb, Z.ltb_ge. done. }
  apply submseteq_cons_r in Ht as [Ht|(t' & Hperm & Ht)].
  - specialize (IH t Hv Ht). destruct t as [|q t]; [done|]. cbn [length take] in *.
    etransitivity; [exact IH|]. apply (take_shift p s (length t)); [done|lia].
  - specialize (IH t' Hv Ht). rewrite Hperm.
    change (point_value.value p + sum t' <= point_value.value p + sum (take (length t') s)). lia.
Qed.

(** The loop stops at the shortest sufficient prefix. *)
Lemma gather_prefix minimum_value out copy :
  values_ok (out ++ copy) -> sum (out ++ copy) < 2 ^ 64 -> minimum_value <= sum (out ++ copy) ->
  sum out < minimum_value ->
  exists n, gather minimum_value out copy = Some (out ++ take (S n) copy) /\ (n < length copy)%nat /\
    sum (out ++ take n copy) < minimum_value <= sum (out ++ take (S n) copy).
Proof.
  revert out. induction copy as [|p copy IH]; intros out Hv Hs Hmin Hlt; [rewrite app_nil_r in Hmin; lia|].
  cbn [gather]. replace (out ++ p :: copy) with ((out ++ [p]) ++ copy) in * by (by rewrite <- app_assoc).
  apply Forall_app in Hv as Hv2. destruct Hv2 as [Hvo Hvc]. pose proof (sum_nonneg copy Hvc).
  unfold points_value.value. rewrite accumulate_fits by (done || rewrite sum_app in Hs; lia).
  cbn [mbind option_bind]. rewrite Z.add_0_l. destruct (Z.geb_spec (sum (out ++ [p])) minimum_value) as [Hge|Hl].
  - exists 0%nat. rewrite take_0, app_nil_r. split_and!; [done|simpl; lia|done|done].
  - destruct (IH (out ++ [p]) Hv Hs Hmin Hl) as (n & -> & Hn & Hsum). exists (S n).
    rewrite <- !app_assoc in *. cbn [app take length] in *. split_and!; [done|lia|lia|lia].
Qed.

Lemma greater_asym x y : greater x y = true -> greater y x = false.
Proof. unfold greater. rewrite !Z.gtb_ltb, Z.ltb_lt, Z.ltb_ge. lia. Qed.

Lemma greater_trans x y z : sort_le greater x y -> sort_le greater y z -> sort_le greater x z.
Proof. unfold sort_le, greater. rewrite !Z.gtb_ltb, !Z.ltb_ge. lia. Qed.

Lemma filter_split (f : point_value.t -> bool) l : Permutation (List.filter f l ++ List.filter (fun p => negb (f p)) l) l.
Proof.
  induction l as [|p l IH]; [done|]. cbn [List.filter]. destruct (f p); cbn [negb app].
  - by constructor.
  - rewrite <- Permutation_middle. by constructor.
Qed.

Lemma min_element_spec l :
  match min_element l with
  | None => l = []
  | Some p => In p l /\ Forall (fun q => point_value.value p <= point_value.value q) l
  end.
Proof.
  induction l as [|p l IH]; [done|]. cbn [min_element]. destruct (min_element l) as [q|].
  - destruct IH as [Hin Hall]. unfold lesser. destruct (Z.ltb_spec (point_value.value q) (point_value.value p)).
    + split; [by right|]. constructor; [lia|done].
    + split; [by left|]. constructor; [lia|]. eapply Forall_impl; [exact Hall|]. simpl. lia.
  - subst l. split; [by left|]. by repeat constructor.
Qed.

Lemma submseteq_singleton (p : point_value.t) l : In p l -> [p] ⊆+ l.
Proof. intros Hin. apply singleton_submseteq_l. by apply list_elem_of_In. Qed.

(** Enough is selected of what there is, with as few outputs as possible, and a
    single output is the least that is enough. *)
Definition selection (unspent : list point_value.t) (minimum_value : Z) (out : list point_value.t) : Prop :=
  out ⊆+ unspent /\ minimum_value <= sum out /\
  (forall other, other ⊆+ unspent -> minimum_value <= sum other -> (length out <= length other)%nat) /\
  (forall p q, out = [p] -> In q unspent -> minimum_value <= point_value.value q ->
     point_value.value p <= point_value.value q).

(** For a positive amount the greedy selection succeeds exactly when the
    outputs hold the amount; it then selects outputs of the wallet that
    suffice, as few as any selection that suffices, and a single output is the
    smallest that does. *)
Lemma greedy_spec unspent minimum_value :
  values_ok unspent -> sum unspent < 2 ^ 64 -> 0 < minimum_value ->
  exists out, greedy unspent minimum_value = Some out /\
    if sum unspent <? minimum_value then out = [] else selection unspent minimum_value out.
Proof.
  intros Hv Hs Hm. unfold greedy, points_value.value. rewrite accumulate_fits by (done || lia).
  cbn [mbind option_bind]. rewrite Z.add_0_l. destruct (Z.ltb_spec (sum unspent) minimum_value) as [Hlt|Hge]; [by eexists|].
  assert (Hne : forall other, minimum_value <= sum other -> (1 <= length other)%nat).
  { intros [|q other] Ho; [simpl in Ho; lia|simpl; lia]. }
  assert (Hgo : exists out,
    match min_element (List.filter (fun p => negb (point_value.value p <? minimum_value)) unspent) with
    | Some minimum => Some [minimum]
    | None => gather minimum_value [] (std_sort greater
        (List.filter (fun p => point_value.value p <? minimum_value) unspent ++
         List.filter (fun p => negb (point_value.value p <? minimum_value)) unspent))
    end = Some out /\ selection unspent minimum_value out).
  { pose proof (min_element_spec (List.filter (fun p => negb (point_value.value p <? minimum_value)) unspent)) as Hme.
    destruct (min_element _) as [p|].
    - destruct Hme as [Hin Hall]. exists [p]. split; [done|]. apply filter_In in Hin as [Hin Hp].
      split_and!.
      + by apply submseteq_singleton.
      + simpl. apply negb_true_iff, Z.ltb_ge in Hp. lia.
      + intros other _ Ho. by apply Hne.
      + intros p' q [= <-] Hq Hqm. rewrite Forall_forall in Hall. apply Hall. apply list_elem_of_In, filter_In.
        split; [done|]. by apply negb_true_iff, Z.ltb_ge.
    - set (sorted := std_sort greater _).
      assert (Hperm : Permutation sorted unspent) by (unfold sorted; rewrite std_sort_perm; apply filter_split).
      assert (Hsorted : StronglySorted (sort_le greater) sorted)
        by (apply std_sort_sorted; [apply greater_asym|apply greater_trans]).
      assert (Hvs : values_ok sorted) by (unfold values_ok; by rewrite Hperm).
      destruct (gather_prefix minimum_value [] sorted) as (n & E & Hn & Hlow & Hhigh);
        [done|simpl; by rewrite Hperm|simpl; by rewrite Hperm|simpl; lia|].
      simpl in Hlow, Hhigh. exists (take (S n) sorted). split; [exact E|]. split_and!.
      + rewrite <- Hperm. apply sublist_submseteq, sublist_take.
      + done.
      + intros other Hother Ho. rewrite <- Hperm in Hother.
        pose proof (largest_first sorted other Hvs Hsorted Hother) as Hlarge.
        rewrite length_take. destruct (Nat.le_gt_cases (length other) n) as [Hle|]; [|lia].
        pose proof (sum_take_mono sorted (length other) n Hvs Hle). lia.
      + intros p q _ Hq Hqm. exfalso.
        assert (Hf : In q (List.filter (fun p => negb (point_value.value p <? minimum_value)) unspent)).
        { apply filter_In. split; [done|]. by apply negb_true_iff, Z.ltb_ge. }
        by rewrite Hme in Hf. }
  destruct unspent as [|p [|p2 rest]]; [exact Hgo| |exact Hgo].
  exists [p]. split; [done|]. split_and!; [done|simpl in *; lia|intros other _ Ho; by apply Hne|].
  intros p' q [= <-] [->|[]] _. lia.
Qed.

(** Every output that is enough by itself, in ascending order. *)
Lemma individual_spec unspent minimum_value :
  Permutation (individual unspent minimum_value)
    (List.filter (fun p => point_value.value p >=? minimum_value) unspent) /\
  StronglySorted (fun p q => point_value.value p <= point_value.value q) (individual unspent minimum_value).
Proof.
  split; [apply std_sort_perm|].
  assert (Hs : StronglySorted (sort_le lesser) (individual unspent minimum_value)).
  { apply std_sort_sorted; unfold sort_le, lesser.
    - intros x y. rewrite Z.ltb_lt, Z.ltb_ge. lia.
    - intros x y z. rewrite !Z.ltb_ge. lia. }
  induction Hs as [|p l _ IH Hp]; constructor; [done|].
  eapply Forall_impl; [exact Hp|]. intros q. unfold sort_le, lesser. by rewrite Z.ltb_ge.
Qed.
End select_outputs.

(** ** The bytes of a point *)

Module point_iterator.

(** [std::tuple_size<point>]: the hash and a two byte index. *)
Definition point_size : Z := 34.

(** Two iterators of a point hold a reference to it; [address] is that of the point. *)
Record t := mk { pt : point; address : Z; current_ : Z }.

Definition begin (p : point) (address : Z) : t := mk p address 0.
Definition is_valid (it : t) : bool := current_ it <? point_size.

Definition current (it : t) : Z :=
  if current_ it <? 32 then nth (Z.to_nat (current_ it)) (pt_hash (pt it)) 0
  else u8 (Z.shiftr (pt_index (pt it)) ((current_ it - 32) * 8)).

Definition increment (it : t) : t :=
  if current_ it <? point_size then mk (pt it) (address it) (current_ it + 1) else it.

Definition decrement (it : t) : t :=
  if current_ it >? 0 then mk (pt it) (address it) (current_ it - 1) else it.

(** The result of [increase] is never before the end: it takes the maximum. *)
Definition increase (value : Z) (it : t) : t :=
  mk (pt it) (address it) (Z.max (ceiling_add 32 (current_ it) value) point_size).

Definition decrease (value : Z) (it : t) : t :=
  mk (pt it) (address it) (floor_subtract 32 (current_ it) value).

Definition plus (it : t) (value : Z) : t := if value <? 0 then decrease (Z.abs value) it else increase value it.
Definition minus (it : t) (value : Z) : t := if value <? 0 then increase (Z.abs value) it else decrease value it.

Definition eqb (a b : t) : bool := (current_ a =? current_ b) && (address a =? address b).

(** The bytes from an iterator to the end. *)
Fixpoint bytes_from (fuel : nat) (it : t) : list Z :=
  match fuel with
  | O => []
  | S fuel => if is_valid it then current it :: bytes_from fuel (increment it) else []
  end.

Lemma bytes_from_seq p a n i :
  Z.of_nat n + i = point_size -> 0 <= i ->
  bytes_from n (mk p a i) = map (fun j => current (mk p a (i + Z.of_nat j))) (seq 0 n).
Proof.
  revert i. induction n as [|n IH]; intros i Hi H0; [done|].
  cbn [bytes_from seq map]. unfold is_valid, increment. cbn [current_ pt address].
  destruct (Z.ltb_spec i point_size); [|lia]. rewrite Z.add_0_r. f_equal.
  rewrite IH by lia. rewrite <- seq_shift, map_map. apply map_ext. intros j. do 2 f_equal. lia.
Qed.

(** The iterator walks over the store form of the point. *)
Lemma iterates_store p a :
  length (pt_hash p) = 32%nat -> bytes_from 34 (begin p a) = point_to_data false p.
Proof.
  intros Hl. unfold begin. rewrite bytes_from_seq by done.
  change 34%nat with (32 + 2)%nat. rewrite seq_app, map_app. unfold point_to_data. f_equal.
  - unfold write_hash, write_bytes. rewrite <- (map_nth_seq 0 (pt_hash p)) at 1. rewrite Hl.
    apply map_ext_in. intros j Hj%in_seq. unfold current. cbn [current_ pt]. rewrite Z.add_0_l.
    destruct (Z.ltb_spec (Z.of_nat j) 32); [|lia]. by rewrite Nat2Z.id.
  - change (write_2_bytes_little_endian (u16 (pt_index p)))
      with [u8 (u16 (pt_index p)); u8 (Z.shiftr (u16 (pt_index p)) 8)].
    change (map _ _) with [u8 (Z.shiftr (pt_index p) 0); u8 (Z.shiftr (pt_index p) 8)].
    rewrite Z.shiftr_0_r. set (v := pt_index p). unfold u8, u16, wrap. rewrite !Z.shiftr_div_pow2 by lia.
    change (2 ^ 16) with (2 ^ 8 * 2 ^ 8). rewrite Z.rem_mul_r by lia.
    rewrite (Z.mul_comm (2 ^ 8) (v / _ mod _)), Z.mod_add, Z.div_add by lia.
    rewrite (Z.div_small (v mod 2 ^ 8)) by (apply Z.mod_pos_bound; lia).
    by rewrite Z.add_0_l, !Z.mod_mod by lia.
Qed.

(** An iterator that is advanced by any amount has passed the last byte. *)
Lemma increase_past_end it value : is_valid (increase value it) = false.
Proof. unfold is_valid, increase. cbn [current_]. apply Z.ltb_ge. lia. Qed.
End point_iterator.
