(* ===== verification/Radix.v ===== *)
(** Positional notation in a base: the value of a list of digits, the digits of
    a value, and the uniqueness of the notation without leading zeros. The text
    formats of [src/formats] are conversions between two bases. *)

From S2P Require Import Prelude.

Section Radix.
Context (b : Z) (base_gt : 1 < b).

Definition digit_ok (d : Z) : Prop := 0 <= d < b.

(** The value of digits, least significant first. *)
Fixpoint lval (l : list Z) : Z :=
  match l with
  | [] => 0
  | d :: l => d + b * lval l
  end.

(** The value of digits, most significant first. *)
Definition bval (l : list Z) : Z := fold_left (fun v d => v * b + d) l 0.

Lemma bval_acc l v : fold_left (fun v d => v * b + d) l v = v * b ^ zlen l + bval l.
Proof.
  unfold bval. revert v. induction l as [|d l IH]; intros v; cbn [fold_left].
  - unfold zlen. simpl. lia.
  - rewrite (IH (v * b + d)), (IH (0 * b + d)).
    replace (zlen (d :: l)) with (1 + zlen l) by zlen_lia.
    rewrite Z.pow_add_r by (auto with bitprim; lia). lia.
Qed.

Lemma bval_cons d l : bval (d :: l) = d * b ^ zlen l + bval l.
Proof. unfold bval. cbn [fold_left]. rewrite bval_acc. unfold bval. lia. Qed.

Lemma bval_app l k : bval (l ++ k) = bval l * b ^ zlen k + bval k.
Proof. unfold bval at 1. rewrite fold_left_app. fold (bval l). apply bval_acc. Qed.

Lemma bval_rev l : bval (rev l) = lval l.
Proof.
  induction l as [|d l IH]; [done|]. simpl. rewrite bval_app, IH.
  unfold zlen, bval. cbn [length fold_left]. rewrite Z.pow_1_r. lia.
Qed.

Lemma lval_app l k : lval (l ++ k) = lval l + b ^ zlen l * lval k.
Proof.
  induction l as [|d l IH]; simpl; [unfold zlen; simpl; lia|]. rewrite IH.
  replace (zlen (d :: l)) with (1 + zlen l) by zlen_lia.
  rewrite Z.pow_add_r by (auto with bitprim; lia). lia.
Qed.

Lemma lval_bound l : Forall digit_ok l -> 0 <= lval l < b ^ zlen l.
Proof.
  induction 1 as [|d l Hd _ IH]; [unfold zlen; simpl; lia|]. cbn [lval].
  replace (zlen (d :: l)) with (1 + zlen l) by zlen_lia.
  rewrite Z.pow_add_r, Z.pow_1_r by (auto with bitprim; lia). unfold digit_ok in Hd. nia.
Qed.

Lemma bval_bound l : Forall digit_ok l -> 0 <= bval l < b ^ zlen l.
Proof.
  intros Hl. assert (Hr : Forall digit_ok (rev l)) by (by apply Forall_rev).
  apply lval_bound in Hr. unfold zlen in *. rewrite rev_length in Hr.
  by rewrite <- (rev_involutive l), bval_rev, rev_involutive.
Qed.

Lemma lval_zeros n : lval (repeat 0 n) = 0.
Proof. induction n as [|n IH]; simpl; lia. Qed.

Lemma lval_inj l k :
  Forall digit_ok l -> Forall digit_ok k -> length l = length k -> lval l = lval k -> l = k.
Proof.
  intros Hl. revert k. induction Hl as [|d l Hd _ IH]; intros [|e k] Hk Hlen Hv; try done.
  apply Forall_cons in Hk as [He Hk]. cbn [lval] in Hv. unfold digit_ok in *.
  assert (d = e).
  { rewrite <- (Z.mod_small d b), <- (Z.mod_small e b) by lia.
    rewrite <- (Z.mod_add d (lval l) b), <- (Z.mod_add e (lval k) b) by lia.
    f_equal. lia. }
  subst e. f_equal. apply IH; [done|simpl in Hlen; lia|]. nia.
Qed.

Lemma bval_inj l k :
  Forall digit_ok l -> Forall digit_ok k -> length l = length k -> bval l = bval k -> l = k.
Proof.
  intros Hl Hk Hlen. rewrite <- (rev_involutive l), <- (rev_involutive k), !bval_rev.
  intros Hv. f_equal. apply lval_inj; [by apply Forall_rev|by apply Forall_rev| |done].
  by rewrite !rev_length.
Qed.

(** ** The digits of a value, most significant first, at a fixed length *)

Fixpoint digits_be (n : nat) (v : Z) : list Z :=
  match n with
  | O => []
  | S n => v / b ^ Z.of_nat n mod b :: digits_be n v
  end.

Lemma length_digits_be n v : length (digits_be n v) = n.
Proof. induction n as [|n IH]; simpl; by rewrite ?IH. Qed.

Lemma digits_be_ok n v : Forall digit_ok (digits_be n v).
Proof. induction n; simpl; constructor; [apply Z.mod_pos_bound; lia|done]. Qed.

Lemma base_pow_pos (n : nat) : 0 < b ^ Z.of_nat n.
Proof. apply Z.pow_pos_nonneg; lia. Qed.

Lemma bval_digits_mod n v : bval (digits_be n v) = v mod b ^ Z.of_nat n.
Proof.
  induction n as [|n IH]; [simpl; by rewrite Z.mod_1_r|]. cbn [digits_be].
  rewrite bval_cons, IH. unfold zlen. rewrite length_digits_be.
  rewrite Nat2Z.inj_succ, Z.pow_succ_r by lia. pose proof (base_pow_pos n).
  rewrite (Z.mul_comm b), Z.rem_mul_r by lia. lia.
Qed.

Lemma bval_digits n v : 0 <= v < b ^ Z.of_nat n -> bval (digits_be n v) = v.
Proof. intros Hv. by rewrite bval_digits_mod, Z.mod_small. Qed.

Lemma digits_be_app n m v : digits_be (n + m) v = digits_be n (v / b ^ Z.of_nat m) ++ digits_be m v.
Proof.
  induction n as [|n IH]; [done|]. cbn [Nat.add digits_be app]. rewrite IH. f_equal.
  rewrite Z.div_div by (try apply Z.pow_nonzero; pose proof (base_pow_pos n); pose proof (base_pow_pos m); lia).
  rewrite <- Z.pow_add_r by lia. do 2 f_equal. f_equal. lia.
Qed.

Lemma digits_bval l : Forall digit_ok l -> digits_be (length l) (bval l) = l.
Proof.
  intros Hl. apply bval_inj; [apply digits_be_ok|done|apply length_digits_be|].
  apply bval_digits. by apply bval_bound in Hl.
Qed.

(** ** Without leading zeros *)

(** [search_first_nonzero]: the digits from the first that is not zero. *)
Fixpoint strip_zeros (l : list Z) : list Z :=
  match l with
  | d :: rest => if d =? 0 then strip_zeros rest else l
  | [] => []
  end.

Fixpoint count_zeros (l : list Z) : nat :=
  match l with
  | d :: rest => if d =? 0 then S (count_zeros rest) else 0%nat
  | [] => 0%nat
  end.

Lemma strip_zeros_split l : l = repeat 0 (count_zeros l) ++ strip_zeros l.
Proof.
  induction l as [|d l IH]; [done|]. simpl. case_if; [|done]. subst d. simpl. by rewrite <- IH.
Qed.

Lemma strip_zeros_head l : hd 1 (strip_zeros l) <> 0.
Proof. induction l as [|d l IH]; simpl; [done|]. by case_if. Qed.

Lemma strip_zeros_id l : hd 1 l <> 0 -> strip_zeros l = l /\ count_zeros l = 0%nat.
Proof. destruct l as [|d l]; simpl; [done|]. intros Hd. apply Z.eqb_neq in Hd. by rewrite Hd. Qed.

Lemma strip_zeros_app n l : strip_zeros (repeat 0 n ++ l) = strip_zeros l.
Proof. induction n as [|n IH]; simpl; done. Qed.

Lemma count_zeros_app n l : hd 1 l <> 0 -> count_zeros (repeat 0 n ++ l) = n.
Proof.
  intros Hl. induction n as [|n IH]; simpl; [by apply strip_zeros_id|]. by rewrite IH.
Qed.

Lemma bval_strip l : bval (strip_zeros l) = bval l.
Proof.
  rewrite (strip_zeros_split l) at 2. rewrite bval_app.
  assert (E : bval (repeat 0 (count_zeros l)) = 0).
  { rewrite <- (rev_involutive (repeat 0 _)), bval_rev.
    replace (rev (repeat 0 (count_zeros l))) with (repeat 0 (count_zeros l)).
    - apply lval_zeros.
    - symmetry. induction (count_zeros l) as [|n IH]; [done|]. simpl. rewrite IH.
      clear IH. induction n as [|n IH]; [done|]. simpl. by rewrite IH. }
  rewrite E. lia.
Qed.

Lemma strip_zeros_digits l : Forall digit_ok l -> Forall digit_ok (strip_zeros l).
Proof. intros Hl. rewrite (strip_zeros_split l) in Hl. by apply Forall_app in Hl as [_ ?]. Qed.

(** Two notations of a value differ by leading zeros only. *)
Lemma strip_zeros_unique l k :
  Forall digit_ok l -> Forall digit_ok k -> bval l = bval k -> strip_zeros l = strip_zeros k.
Proof.
  intros Hl Hk Hv. set (n := Nat.max (length l) (length k)).
  assert (Hpad : forall x, strip_zeros (repeat 0 (n - length x) ++ x) = strip_zeros x)
    by (intros x; apply strip_zeros_app).
  assert (Hval : forall m x, bval (repeat 0 m ++ x) = bval x)
    by (intros m x; rewrite <- (bval_strip (repeat 0 m ++ x)), strip_zeros_app; apply bval_strip).
  assert (Hzeros : forall m, Forall digit_ok (repeat 0 m))
    by (intros m; induction m; constructor; [unfold digit_ok; lia|done]).
  rewrite <- (Hpad l), <- (Hpad k). f_equal. apply bval_inj.
  - by apply Forall_app.
  - by apply Forall_app.
  - rewrite !length_app, !repeat_length. lia.
  - by rewrite !Hval.
Qed.

Lemma strip_zeros_strip l : strip_zeros (strip_zeros l) = strip_zeros l.
Proof. apply strip_zeros_id, strip_zeros_head. Qed.

(** ** Multiply and add in place

    One turn of the loops that convert from base [m]: the digits, least
    significant first, become those of [m * lval l + carry]. *)
Fixpoint mul_add (m : Z) (l : list Z) (carry : Z) : list Z * Z :=
  match l with
  | [] => ([], carry)
  | d :: l =>
      let carry := carry + m * d in
      let '(rest, last) := mul_add m l (carry / b) in
      (carry mod b :: rest, last)
  end.

Lemma mul_add_value m l carry :
  lval (fst (mul_add m l carry)) + b ^ zlen l * snd (mul_add m l carry) = carry + m * lval l.
Proof.
  revert carry. induction l as [|d l IH]; intros carry; cbn [mul_add].
  { unfold zlen. simpl. lia. }
  specialize (IH ((carry + m * d) / b)). destruct (mul_add m l _) as [rest last]. cbn [fst snd lval] in *.
  replace (zlen (d :: l)) with (1 + zlen l) by zlen_lia.
  rewrite Z.pow_add_r, Z.pow_1_r by (auto with bitprim; lia).
  pose proof (Z.div_mod (carry + m * d) b). nia.
Qed.

Lemma mul_add_digits m l carry :
  length (fst (mul_add m l carry)) = length l /\ Forall digit_ok (fst (mul_add m l carry)).
Proof.
  revert carry. induction l as [|d l IH]; intros carry; cbn [mul_add]; [by split; [|constructor]|].
  destruct (IH ((carry + m * d) / b)) as [Hl Hd]. destruct (mul_add m l _) as [rest last].
  simpl in *. split; [by rewrite Hl|]. constructor; [|done]. apply Z.mod_pos_bound. lia.
Qed.

(** Where the result fits, nothing is carried out. *)
Lemma mul_add_exact m l carry :
  0 <= m -> Forall digit_ok l -> 0 <= carry -> carry + m * lval l < b ^ zlen l ->
  snd (mul_add m l carry) = 0 /\ lval (fst (mul_add m l carry)) = carry + m * lval l.
Proof.
  intros Hm Hl Hc Hfit. pose proof (mul_add_value m l carry) as Hv.
  destruct (mul_add_digits m l carry) as [Hlen Hd].
  pose proof (lval_bound _ Hd) as Hb. unfold zlen in Hb. rewrite Hlen in Hb. fold (zlen l) in Hb.
  pose proof (lval_bound _ Hl) as Hb0.
  assert (snd (mul_add m l carry) = 0) by nia. split; [done|]. nia.
Qed.
End Radix.

(** ** Conversion of a number, digit by digit

    The digits, most significant first, are multiplied by the other base and a
    digit is added, in place. *)
Section Convert.
Context (b m : Z) (base_gt : 1 < b) (from_gt : 1 < m).

Definition convert_step (digits : list Z) (carry : Z) : list Z :=
  rev (fst (mul_add b m (rev digits) carry)).

Lemma convert_step_digits digits carry :
  length (convert_step digits carry) = length digits /\
  Forall (digit_ok b) (convert_step digits carry).
Proof.
  unfold convert_step. destruct (mul_add_digits b base_gt m (rev digits) carry) as [Hl Hd].
  split; [by rewrite rev_length, Hl, rev_length|by apply Forall_rev].
Qed.

Lemma convert_step_value digits carry :
  Forall (digit_ok b) digits -> digit_ok m carry ->
  bval b digits * m + carry < b ^ zlen digits ->
  bval b (convert_step digits carry) = bval b digits * m + carry /\
  snd (mul_add b m (rev digits) carry) = 0.
Proof.
  intros Hd Hc Hfit. unfold digit_ok in Hc.
  assert (E : bval b digits = lval b (rev digits)) by (by rewrite <- bval_rev, rev_involutive).
  destruct (mul_add_exact b base_gt m (rev digits) carry) as [Hz Hv]; try lia.
  - by apply Forall_rev.
  - unfold zlen in *. rewrite rev_length, <- E. lia.
  - unfold convert_step. rewrite bval_rev, Hv, E. lia.
Qed.

Lemma convert_value ds digits :
  Forall (digit_ok b) digits -> Forall (digit_ok m) ds ->
  bval b digits * m ^ zlen ds + bval m ds < b ^ zlen digits ->
  let out := fold_left convert_step ds digits in
  bval b out = bval b digits * m ^ zlen ds + bval m ds /\ Forall (digit_ok b) out.
Proof.
  intros Hd Hds. revert digits Hd. induction Hds as [|c ds Hc Hds IH]; intros digits Hd Hfit; cbn [fold_left].
  { unfold zlen, bval. simpl. split; [lia|done]. }
  rewrite bval_cons in Hfit. replace (zlen (c :: ds)) with (1 + zlen ds) in * by zlen_lia.
  rewrite Z.pow_add_r, Z.pow_1_r in * by (auto with bitprim; lia).
  pose proof (bval_bound m from_gt ds Hds) as Hb. pose proof (bval_bound b base_gt digits Hd) as Hb0.
  assert (0 < m ^ zlen ds) by (apply Z.pow_pos_nonneg; [lia|apply zlen_nonneg]).
  unfold digit_ok in Hc.
  destruct (convert_step_value digits c) as [Hv _]; [done|done|nia|].
  destruct (convert_step_digits digits c) as [Hl Hdd].
  destruct (IH (convert_step digits c) Hdd) as [Hv' Hd'].
  - unfold zlen in *. rewrite Hl, Hv. nia.
  - split; [|done]. rewrite Hv', Hv, bval_cons. nia.
Qed.

(** From a zeroed array that is large enough. *)
Lemma convert_zeros ds n :
  Forall (digit_ok m) ds -> m ^ zlen ds <= b ^ Z.of_nat n ->
  let out := fold_left convert_step ds (repeat 0 n) in
  bval b out = bval m ds /\ Forall (digit_ok b) out.
Proof.
  intros Hds Hcap.
  assert (Hz : bval b (repeat 0 n) = 0).
  { rewrite <- (bval_strip b (repeat 0 n)), <- (app_nil_r (repeat 0 n)), strip_zeros_app. done. }
  destruct (convert_value ds (repeat 0 n)) as [Hv Hd]; [|done| |].
  - apply Forall_forall. intros x Hx. apply list_elem_of_In, repeat_spec in Hx. unfold digit_ok. lia.
  - pose proof (bval_bound m from_gt ds Hds). unfold zlen at 2. rewrite repeat_length, Hz. lia.
  - cbv zeta. rewrite Hv, Hz. split; [lia|done].
Qed.
End Convert.

(** The capacity of a rounded ratio: [n] digits in base [c] fit
    [n * p / q + 1] digits in base [b], if [q] digits fit [p]. *)
Lemma radix_capacity b c p q n :
  1 < b -> 0 < c -> 0 < q -> 0 <= p -> 0 <= n -> c ^ q <= b ^ p ->
  c ^ n <= b ^ (n * p / q + 1).
Proof.
  intros Hb Hc Hq Hp Hn Hcap.
  assert (Hdiv : n * p <= (n * p / q + 1) * q).
  { pose proof (Z.div_mod (n * p) q). pose proof (Z.mod_pos_bound (n * p) q). nia. }
  assert (Hk : 0 <= n * p / q + 1) by (assert (0 <= n * p / q) by (apply Z.div_pos; nia); lia).
  assert (Hpow : (c ^ n) ^ q <= (b ^ (n * p / q + 1)) ^ q).
  { rewrite <- !Z.pow_mul_r by lia. rewrite (Z.mul_comm n q), Z.pow_mul_r by lia.
    transitivity ((b ^ p) ^ n); [apply Z.pow_le_mono_l; split; [apply Z.pow_nonneg; lia|done]|].
    rewrite <- Z.pow_mul_r by lia. apply Z.pow_le_mono_r; lia. }
  apply Z.nlt_ge. intros Hlt.
  assert ((b ^ (n * p / q + 1)) ^ q < (c ^ n) ^ q); [|lia].
  apply Z.pow_lt_mono_l; [lia|]. split; [apply Z.pow_nonneg; lia|done].
Qed.
