(* ===== verification/Base16.v ===== *)
(** The base 16 format of [src/formats/base_16.cpp] and
    [impl/formats/base_16.ipp]. A [std::string] is the list of its character
    codes. *)

From S2P Require Import Prelude Limits Codes.

(** One digit as [std::hex] writes it. *)
Definition hex_digit (v : Z) : Z := if v <? 10 then 48 + v else 97 + (v - 10).

(** [std::setw(2) << val] with fill ['0']. *)
Definition hex_byte (val : Z) : list Z := [hex_digit (val / 16); hex_digit (val mod 16)].

Definition encode_base16 (data : list Z) : list Z := concat (map hex_byte data).

Definition is_base16 (c : Z) : bool :=
  ((48 <=? c) && (c <=? 57)) || ((65 <=? c) && (c <=? 70)) || ((97 <=? c) && (c <=? 102)).

Definition from_hex (c : Z) : Z :=
  if (65 <=? c) && (c <=? 70) then 10 + c - 65
  else if (97 <=? c) && (c <=? 102) then 10 + c - 97
  else c - 48.

(** The loop of [decode_base16_private] over pairs of characters. *)
Fixpoint decode_pairs (out_size : nat) (inp : list Z) : list Z :=
  match out_size with
  | O => []
  | S out_size =>
      u8 (Z.shiftl (from_hex (nth 0 inp 0)) 4 + from_hex (nth 1 inp 0)) ::
      decode_pairs out_size (drop 2 inp)
  end.

Definition decode_base16_private (out_size : nat) (inp : list Z) : option (list Z) :=
  if negb (forallb is_base16 (take (2 * out_size) inp)) then None
  else Some (decode_pairs out_size inp).

Definition decode_base16 (inp : list Z) : option (list Z) :=
  if negb (length inp mod 2 =? 0)%nat then None
  else decode_base16_private (length inp / 2) inp.

(** [decode_base16<Size>] *)
Definition decode_base16_array (size : nat) (inp : list Z) : option (list Z) :=
  if negb (length inp =? 2 * size)%nat then None else decode_base16_private size inp.

Definition encode_hash (hash : list Z) : list Z := encode_base16 (reverse hash).

Definition decode_hash (inp : list Z) : option (list Z) :=
  if negb (length inp =? 2 * hash_size)%nat then None
  else reverse <$> decode_base16_private hash_size inp.

(** ** Round trips *)

Definition to_lower (c : Z) : Z := if (65 <=? c) && (c <=? 70) then c + 32 else c.

(** A byte is written as two digits that decode to it. *)
Definition hex_byte_ok (b : Z) : bool :=
  is_base16 (hex_digit (b / 16)) && is_base16 (hex_digit (b mod 16)) &&
  (u8 (Z.shiftl (from_hex (hex_digit (b / 16))) 4 + from_hex (hex_digit (b mod 16))) =? b).

Lemma decode_byte b : byte_ok b -> hex_byte_ok b = true.
Proof. apply byte_forall. by vm_compute. Qed.

Lemma length_encode_base16 d : length (encode_base16 d) = (2 * length d)%nat.
Proof. unfold encode_base16. induction d as [|b d IH]; [done|]. simpl in *. rewrite IH. lia. Qed.

Lemma decode_private_encode d :
  bytes_ok d -> decode_base16_private (length d) (encode_base16 d) = Some d.
Proof.
  intros Hd. unfold decode_base16_private. rewrite firstn_all2 by (rewrite length_encode_base16; lia).
  assert (H : forallb is_base16 (encode_base16 d) = true /\ decode_pairs (length d) (encode_base16 d) = d).
  { induction Hd as [|b d Hb _ [IH1 IH2]]; [done|]. pose proof (decode_byte b Hb) as Hx. unfold hex_byte_ok in Hx.
    bool_to_prop. simpl. rewrite drop_0. unfold encode_base16 in IH1, IH2.
    rewrite H, H1, IH1, IH2. by rewrite H0. }
  destruct H as [-> ->]. done.
Qed.

Lemma decode_encode_base16 d : bytes_ok d -> decode_base16 (encode_base16 d) = Some d.
Proof.
  intros Hd. unfold decode_base16. rewrite length_encode_base16, (Nat.mul_comm 2).
  rewrite Nat.Div0.mod_mul, Nat.div_mul by lia. by apply decode_private_encode.
Qed.

Lemma decode_encode_hash h :
  length h = hash_size -> bytes_ok h -> decode_hash (encode_hash h) = Some h.
Proof.
  intros Hl Hb. unfold decode_hash, encode_hash. rewrite length_encode_base16, length_reverse, Hl, Nat.eqb_refl.
  cbn [negb]. replace hash_size with (length (reverse h)) by (by rewrite length_reverse).
  rewrite decode_private_encode; [simpl; by rewrite reverse_involutive|].
  unfold bytes_ok. by apply Forall_reverse.
Qed.

(** Two digits decode to a byte whose encoding is the digits in lower case. *)
Definition is_pair_ok (c1 c2 : Z) : bool :=
  negb (is_base16 c1 && is_base16 c2) ||
  bool_decide (hex_byte (u8 (Z.shiftl (from_hex c1) 4 + from_hex c2)) = [to_lower c1; to_lower c2]).

Definition are_pairs_ok (c1 : Z) : bool := forallb (is_pair_ok c1) (map Z.of_nat (seq 0 256)).

Lemma all_pairs_ok : forallb are_pairs_ok (map Z.of_nat (seq 0 256)) = true.
Proof. vm_compute. reflexivity. Qed.

Lemma base16_byte c : is_base16 c = true -> byte_ok c.
Proof. unfold is_base16, byte_ok. intros Hc. rewrite !orb_true_iff in Hc. destruct Hc as [[|]|]; bool_to_prop; lia. Qed.

Lemma encode_pair c1 c2 :
  is_base16 c1 = true -> is_base16 c2 = true ->
  hex_byte (u8 (Z.shiftl (from_hex c1) 4 + from_hex c2)) = [to_lower c1; to_lower c2].
Proof.
  intros H1 H2.
  pose proof (byte_forall are_pairs_ok all_pairs_ok c1 (base16_byte c1 H1)) as Hp.
  pose proof (byte_forall (is_pair_ok c1) Hp c2 (base16_byte c2 H2)) as Hq.
  unfold is_pair_ok in Hq. rewrite H1, H2 in Hq. simpl in Hq. by apply bool_decide_eq_true in Hq.
Qed.

Lemma encode_decode_pairs n inp :
  length inp = (2 * n)%nat -> forallb is_base16 inp = true ->
  encode_base16 (decode_pairs n inp) = map to_lower inp.
Proof.
  revert inp. induction n as [|n IH]; intros inp Hl Hf; [by destruct inp|].
  destruct inp as [|c1 [|c2 inp]]; [simpl in Hl; lia..|]. simpl in Hf. bool_to_prop.
  cbn [decode_pairs nth encode_base16 map concat]. rewrite encode_pair by done.
  simpl. rewrite drop_0. do 2 f_equal. apply IH; [simpl in Hl; lia|done].
Qed.

Lemma encode_decode_base16 inp d :
  decode_base16 inp = Some d -> encode_base16 d = map to_lower inp.
Proof.
  unfold decode_base16, decode_base16_private. intros Hd.
  destruct (Nat.eqb_spec (length inp mod 2) 0) as [E|]; cbn [negb] in Hd; [|done].
  assert (Hl : length inp = (2 * (length inp / 2))%nat)
    by (pose proof (Nat.div_mod_eq (length inp) 2); lia).
  rewrite <- Hl, firstn_all in Hd. case_if_in Hd; simplify_eq.
  by apply encode_decode_pairs.
Qed.

(** Upper case digits decode as the lower case ones. *)
Lemma is_base16_lower c : is_base16 (to_lower c) = is_base16 c.
Proof.
  unfold to_lower. destruct ((65 <=? c) && (c <=? 70)) eqn:E; [|done]. bool_to_prop.
  unfold is_base16. rewrite (proj2 (Z.leb_le 97 (c + 32))), (proj2 (Z.leb_le (c + 32) 102)),
    (proj2 (Z.leb_le 65 c)), (proj2 (Z.leb_le c 70)) by lia. by rewrite !orb_true_r.
Qed.

Lemma from_hex_lower c : from_hex (to_lower c) = from_hex c.
Proof.
  unfold to_lower. destruct ((65 <=? c) && (c <=? 70)) eqn:E; [|done].
  unfold from_hex. rewrite E. bool_to_prop.
  rewrite (proj2 (Z.leb_gt (c + 32) 70)), (proj2 (Z.leb_le 97 (c + 32))),
    (proj2 (Z.leb_le (c + 32) 102)) by lia. rewrite andb_false_r. simpl. lia.
Qed.

Lemma decode_base16_lower inp : decode_base16 (map to_lower inp) = decode_base16 inp.
Proof.
  unfold decode_base16, decode_base16_private. rewrite length_map, firstn_map.
  assert (Hp : forall n l, decode_pairs n (map to_lower l) = decode_pairs n l).
  { induction n as [|n IH]; intros l; [done|]. cbn [decode_pairs]. rewrite skipn_map, IH.
    assert (Hn : forall k, from_hex (nth k (map to_lower l) 0) = from_hex (nth k l 0)).
    { intros k. change 0 with (to_lower 0) at 1. by rewrite map_nth, from_hex_lower. }
    by rewrite !Hn. }
  assert (Hf : forall l, forallb is_base16 (map to_lower l) = forallb is_base16 l).
  { induction l as [|c l IH]; [done|]. simpl. by rewrite is_base16_lower, IH. }
  by rewrite Hp, Hf.
Qed.

(** The decoder accepts exactly the encodings of the decoded bytes, in
    either case: no other text decodes, and every encoding decodes back. *)
Lemma base16_roundtrip inp d :
  bytes_ok d -> decode_base16 inp = Some d <-> map to_lower inp = encode_base16 d.
Proof.
  intros Hd. split; [by intros Hi%encode_decode_base16|]. intros Hi.
  rewrite <- decode_base16_lower, Hi. by apply decode_encode_base16.
Qed.
