(* ===== verification/Base58.v ===== *)
(** The base 58 format, [src/formats/base_58.cpp]. The two functions convert
    between bases 256 and 58 in an array of estimated size; leading zero bytes
    are written as leading ones. They are proved to be a bijection between byte
    strings and strings of base 58 characters, so the estimated sizes suffice. *)

From S2P Require Import Prelude Radix.

Definition base58_chars : list Z := chars "123456789ABCDEFGHJKLMNPQRSTUVWXYZabcdefghijkmnopqrstuvwxyz".

(** [std::binary_search] in the sorted characters. *)
Definition is_base58_char (ch : Z) : bool := existsb (Z.eqb ch) base58_chars.
Definition is_base58 (text : list Z) : bool := forallb is_base58_char text.

Definition search_first_nonzero (data : list Z) : list Z := strip_zeros data.
Definition count_leading_zeros (unencoded : list Z) : nat := count_zeros unencoded.

(** [pack_value]: from the back, [carry += 256 * digit; digit = carry % 58;
    carry /= 58]. The carry that is left is asserted to be zero. *)
Definition pack_value (indexes : list Z) (carry : Z) : list Z := convert_step 58 256 indexes carry.

Definition encode_base58 (unencoded : list Z) : list Z :=
  let leading_zeros := count_leading_zeros unencoded in
  let number_nonzero := zlen unencoded - Z.of_nat leading_zeros in
  let indexes_size := Z.to_nat (number_nonzero * 138 / 100 + 1) in
  let indexes := fold_left pack_value (drop leading_zeros unencoded) (repeat 0 indexes_size) in
  let first_nonzero := search_first_nonzero indexes in
  repeat (nth 0 base58_chars 0) leading_zeros ++
  map (fun index => nth (Z.to_nat index) base58_chars 0) first_nonzero.

(** [count_leading_zeros(const std::string&)] *)
Fixpoint count_leading_ones (encoded : list Z) : nat :=
  match encoded with
  | digit :: rest => if digit =? nth 0 base58_chars 0 then S (count_leading_ones rest) else 0%nat
  | [] => 0%nat
  end.

(** [unpack_char]: from the back, [carry += 58 * byte; byte = carry % 256;
    carry /= 256]. *)
Definition unpack_char (data : list Z) (carry : Z) : list Z := convert_step 256 58 data carry.

(** [std::string::find] of a character from a position. *)
Fixpoint find_char (ch position : Z) (s : list Z) : option Z :=
  match s with
  | [] => None
  | c :: s => if c =? ch then Some position else find_char ch (position + 1) s
  end.

Fixpoint unpack_chars (data s : list Z) : option (list Z) :=
  match s with
  | [] => Some data
  | ch :: s =>
      match find_char ch 0 base58_chars with
      | None => None
      | Some carry => unpack_chars (unpack_char data carry) s
      end
  end.

Definition decode_base58 (s : list Z) : option (list Z) :=
  let leading_zeros := count_leading_ones s in
  let data_size := Z.to_nat (zlen s * 733 / 1000 + 1) in
  match unpack_chars (repeat 0 data_size) (drop leading_zeros s) with
  | None => None
  | Some data => Some (repeat 0 leading_zeros ++ search_first_nonzero data)
  end.

(** [decode_base58<Size>]: the argument is passed as a null terminated string. *)
Fixpoint c_string (s : list Z) : list Z :=
  match s with
  | [] => []
  | c :: s => if c =? 0 then [] else c :: c_string s
  end.

Definition decode_base58_array (size : nat) (s : list Z) : option (list Z) :=
  match decode_base58 (c_string s) with
  | Some buffer => if (length buffer =? size)%nat then Some buffer else None
  | None => None
  end.

(** ** The alphabet *)

Definition digit_char (d : Z) : Z := nth (Z.to_nat d) base58_chars 0.

Lemma digit_range (f : Z -> bool) :
  forallb f (map Z.of_nat (seq 0 58)) = true -> forall d, digit_ok 58 d -> f d = true.
Proof.
  intros Hf d Hd. rewrite forallb_forall in Hf. apply Hf. apply in_map_iff. exists (Z.to_nat d).
  unfold digit_ok in Hd. split; [lia|]. apply in_seq. lia.
Qed.

Lemma find_digit_char d : digit_ok 58 d -> find_char (digit_char d) 0 base58_chars = Some d.
Proof.
  intros Hd. pose proof (digit_range (fun d => bool_decide (find_char (digit_char d) 0 base58_chars = Some d))) as Hr.
  specialize (Hr ltac:(by vm_compute) d Hd). by apply bool_decide_eq_true in Hr.
Qed.

Lemma digit_char_zero d : digit_ok 58 d -> digit_char d = digit_char 0 -> d = 0.
Proof. intros Hd E. pose proof (find_digit_char d Hd) as Hf. rewrite E in Hf. by injection Hf. Qed.

Lemma find_char_digit ch d :
  find_char ch 0 base58_chars = Some d -> digit_ok 58 d /\ ch = digit_char d.
Proof.
  assert (Hgen : forall s p, find_char ch p s = Some d ->
    p <= d < p + zlen s /\ ch = nth (Z.to_nat (d - p)) s 0).
  { induction s as [|c s IH]; intros p; cbn [find_char]; [done|]. case_if.
    - intros [= <-]. rewrite Z.sub_diag. split; [zlen_lia|done].
    - intros Hf. apply IH in Hf as [Hr ->]. split; [zlen_lia|].
      replace (Z.to_nat (d - p)) with (S (Z.to_nat (d - (p + 1)))) by lia. done. }
  intros Hf. apply Hgen in Hf as [Hr ->]. rewrite Z.sub_0_r. split; [exact Hr|done].
Qed.

Lemma find_char_none ch s p : find_char ch p s = None <-> existsb (Z.eqb ch) s = false.
Proof.
  revert p. induction s as [|c s IH]; intros p; cbn [find_char existsb]; [done|].
  rewrite (Z.eqb_sym ch c). destruct (c =? ch); [done|]. apply IH.
Qed.

(** ** What the loops compute *)

Lemma unpack_chars_digits data ds :
  Forall (digit_ok 58) ds ->
  unpack_chars data (map digit_char ds) = Some (fold_left unpack_char ds data).
Proof.
  intros Hd. revert data. induction Hd as [|d ds Hd _ IH]; intros data; cbn [unpack_chars map fold_left]; [done|].
  by rewrite find_digit_char.
Qed.

Lemma unpack_chars_inv data s out :
  unpack_chars data s = Some out -> exists ds, s = map digit_char ds /\ Forall (digit_ok 58) ds.
Proof.
  revert data. induction s as [|ch s IH]; intros data; cbn [unpack_chars]; [exists []; split; [done|constructor]|].
  destruct (find_char ch 0 base58_chars) as [d|] eqn:Ef; [|done]. intros Hu.
  apply IH in Hu as (ds & -> & Hds). apply find_char_digit in Ef as [Hd ->].
  exists (d :: ds). split; [done|by constructor].
Qed.

Lemma unpack_chars_none data s : unpack_chars data s = None <-> is_base58 s = false.
Proof.
  revert data. induction s as [|ch s IH]; intros data; cbn [unpack_chars]; [done|].
  cbn [is_base58 forallb]. fold (is_base58 s). unfold is_base58_char.
  destruct (find_char ch 0 base58_chars) as [d|] eqn:Ef.
  - assert (existsb (Z.eqb ch) base58_chars = true) as ->; [|apply IH].
    apply not_false_iff_true. intros E. apply (find_char_none ch base58_chars 0) in E. congruence.
  - apply find_char_none in Ef. rewrite Ef. done.
Qed.

Lemma count_ones_split s :
  s = repeat (digit_char 0) (count_leading_ones s) ++ drop (count_leading_ones s) s /\
  hd (-1) (drop (count_leading_ones s) s) <> digit_char 0.
Proof.
  induction s as [|c s [IH1 IH2]]; [done|]. cbn [count_leading_ones]. case_if.
  - cbn [drop repeat app]. split; [|done]. rewrite <- IH1. by subst c.
  - by rewrite drop_0.
Qed.

Lemma count_ones_app k ds :
  Forall (digit_ok 58) ds -> hd 1 ds <> 0 ->
  count_leading_ones (repeat (digit_char 0) k ++ map digit_char ds) = k.
Proof.
  intros Hd Hh. induction k as [|k IH]; cbn [repeat app count_leading_ones].
  - destruct ds as [|d ds]; [done|]. cbn [map count_leading_ones]. case_if; [|done].
    exfalso. apply Hh. apply Forall_cons in Hd as [Hd _]. by apply digit_char_zero.
  - rewrite Z.eqb_refl. by rewrite IH.
Qed.

(** The digits of a byte string without its leading zeros, and back. *)
Lemma encode_digits d :
  bytes_ok d ->
  exists ds, encode_base58 d = repeat (digit_char 0) (count_zeros d) ++ map digit_char ds /\
    Forall (digit_ok 58) ds /\ hd 1 ds <> 0 /\ bval 58 ds = bval 256 (strip_zeros d).
Proof.
  intros Hb. unfold encode_base58, count_leading_zeros, search_first_nonzero.
  assert (Ed : drop (count_zeros d) d = strip_zeros d).
  { rewrite (strip_zeros_split d) at 2. rewrite <- (repeat_length 0 (count_zeros d)) at 1.
    by rewrite drop_app_length. }
  rewrite Ed.
  assert (Hn : zlen d - Z.of_nat (count_zeros d) = zlen (strip_zeros d)).
  { rewrite (strip_zeros_split d) at 1. rewrite zlen_app. unfold zlen at 1. rewrite repeat_length. lia. }
  rewrite Hn. pose proof (zlen_nonneg (strip_zeros d)) as Hz.
  destruct (convert_zeros 58 256 ltac:(lia) ltac:(lia) (strip_zeros d)
              (Z.to_nat (zlen (strip_zeros d) * 138 / 100 + 1))) as [Hv Hd].
  - by apply (strip_zeros_digits 256).
  - rewrite Z2Nat.id by (assert (0 <= zlen (strip_zeros d) * 138 / 100) by (apply Z.div_pos; lia); lia).
    apply radix_capacity; lia.
  - eexists. split; [reflexivity|]. split_and!.
    + by apply strip_zeros_digits.
    + apply strip_zeros_head.
    + rewrite bval_strip. exact Hv.
Qed.

Lemma decode_digits k ds :
  Forall (digit_ok 58) ds -> hd 1 ds <> 0 ->
  exists body, decode_base58 (repeat (digit_char 0) k ++ map digit_char ds) = Some (repeat 0 k ++ body) /\
    bytes_ok body /\ hd 1 body <> 0 /\ bval 256 body = bval 58 ds.
Proof.
  intros Hds Hh. unfold decode_base58, search_first_nonzero. rewrite count_ones_app by done.
  rewrite drop_app_length' by (by rewrite repeat_length). rewrite unpack_chars_digits by done.
  set (s := repeat (digit_char 0) k ++ map digit_char ds).
  assert (Hs : zlen s = Z.of_nat k + zlen ds).
  { unfold s, zlen. rewrite length_app, repeat_length, length_map. lia. }
  pose proof (zlen_nonneg ds).
  destruct (convert_zeros 256 58 ltac:(lia) ltac:(lia) ds (Z.to_nat (zlen s * 733 / 1000 + 1))) as [Hv Hd];
    [done| |].
  - rewrite Z2Nat.id by (assert (0 <= zlen s * 733 / 1000) by (apply Z.div_pos; lia); lia).
    transitivity (58 ^ zlen s); [apply Z.pow_le_mono_r; lia|].
    apply radix_capacity; lia.
  - eexists. split; [reflexivity|]. split_and!.
    + by apply (strip_zeros_digits 256).
    + apply strip_zeros_head.
    + rewrite bval_strip. exact Hv.
Qed.

Lemma decode_encode_base58 d : bytes_ok d -> decode_base58 (encode_base58 d) = Some d.
Proof.
  intros Hb. destruct (encode_digits d Hb) as (ds & -> & Hds & Hh & Hv).
  destruct (decode_digits (count_zeros d) ds Hds Hh) as (body & -> & Hbody & Hhb & Hvb). f_equal.
  rewrite (strip_zeros_split d) at 2. f_equal.
  rewrite <- (proj1 (strip_zeros_id body Hhb)), <- (strip_zeros_strip d).
  apply (strip_zeros_unique 256); [lia|done| |congruence].
  by apply (strip_zeros_digits 256).
Qed.

Lemma encode_decode_base58 s d :
  decode_base58 s = Some d -> encode_base58 d = s /\ bytes_ok d.
Proof.
  intros Hd. assert (exists k ds, s = repeat (digit_char 0) k ++ map digit_char ds /\
    Forall (digit_ok 58) ds /\ hd 1 ds <> 0) as (k & ds & -> & Hds & Hh).
  { destruct (count_ones_split s) as [Es Hh]. unfold decode_base58 in Hd.
    destruct (unpack_chars _ _) as [data|] eqn:Eu; [|done].
    apply unpack_chars_inv in Eu as (ds & E & Hds). exists (count_leading_ones s), ds.
    split_and!; [by rewrite <- E|done|]. rewrite E in Hh. destruct ds as [|x ds]; [done|].
    simpl in *. intros ->. done. }
  destruct (decode_digits k ds Hds Hh) as (body & E & Hbody & Hhb & Hvb).
  rewrite E in Hd. injection Hd as <-.
  assert (Hok : bytes_ok (repeat 0 k ++ body)) by (apply bytes_ok_app; auto with bitprim).
  split; [|done]. destruct (encode_digits _ Hok) as (es & -> & Hes & Hhe & Hve).
  rewrite count_zeros_app by done. do 2 f_equal.
  rewrite <- (proj1 (strip_zeros_id es Hhe)), <- (proj1 (strip_zeros_id ds Hh)).
  apply (strip_zeros_unique 58); [lia|done|done|].
  by rewrite Hve, strip_zeros_app, bval_strip.
Qed.

Lemma decode_base58_none s : decode_base58 s = None <-> is_base58 s = false.
Proof.
  unfold decode_base58. destruct (unpack_chars _ _) as [data|] eqn:Eu.
  - split; [done|]. intros Hb. exfalso. assert (Hf : is_base58 (drop (count_leading_ones s) s) = false).
    { destruct (count_ones_split s) as [Es _]. rewrite Es in Hb. unfold is_base58 in *.
      rewrite forallb_app in Hb. apply andb_false_iff in Hb as [Hb|Hb]; [|done].
      exfalso. apply not_true_iff_false in Hb. apply Hb. clear.
      induction (count_leading_ones s); simpl; [done|]. done. }
    apply (unpack_chars_none (repeat 0 (Z.to_nat (zlen s * 733 / 1000 + 1)))) in Hf. congruence.
  - split; [intros _|done]. apply unpack_chars_none in Eu.
    destruct (count_ones_split s) as [Es _]. rewrite Es. unfold is_base58 in *.
    by rewrite forallb_app, Eu, andb_false_r.
Qed.
