(* ===== verification/Base64.v ===== *)
(** The base 64 and base 85 formats, [src/formats/base_64.cpp] and
    [src/formats/base_85.cpp]. *)

From S2P Require Import Prelude Radix.

(** ** Base 64 *)

Module base64.

Definition pad : Z := 61.
Definition table : list Z := chars "ABCDEFGHIJKLMNOPQRSTUVWXYZabcdefghijklmnopqrstuvwxyz0123456789+/".

(** [table[(value & mask) >> shift]] *)
Definition entry (value mask shift : Z) : Z := nth (Z.to_nat (Z.shiftr (Z.land value mask) shift)) table 0.

(** [size / 3] groups of three bytes, then one or two that are left. *)
Fixpoint encode_base64 (unencoded : list Z) : list Z :=
  match unencoded with
  | a :: b :: c :: rest =>
      let value := u32 (Z.shiftl a 16) in
      let value := u32 (value + Z.shiftl b 8) in
      let value := u32 (value + c) in
      entry value 0x00FC0000 18 :: entry value 0x0003F000 12 :: entry value 0x00000FC0 6 ::
      entry value 0x0000003F 0 :: encode_base64 rest
  | [a; b] =>
      let value := u32 (Z.shiftl a 16) in
      let value := u32 (value + Z.shiftl b 8) in
      [entry value 0x00FC0000 18; entry value 0x0003F000 12; entry value 0x00000FC0 6; pad]
  | [a] =>
      let value := u32 (Z.shiftl a 16) in
      [entry value 0x00FC0000 18; entry value 0x0003F000 12; pad; pad]
  | [] => []
  end.

(** The tests on a character; [None]: the pad or a character that is refused. *)
Definition sextet (c : Z) : option Z :=
  if (c >=? 0x41) && (c <=? 0x5A) then Some (c - 0x41)
  else if (c >=? 0x61) && (c <=? 0x7A) then Some (c - 0x47)
  else if (c >=? 0x30) && (c <=? 0x39) then Some (c + 0x04)
  else if c =? 0x2B then Some 0x3E
  else if c =? 0x2F then Some 0x3F
  else None.

Definition mask : Z := 0x000000FF.
Definition octet (value shift : Z) : Z := Z.land (Z.shiftr value shift) mask.

(** The value is not cleared between groups; its upper bits are shifted out. *)
Fixpoint decode_loop (position : nat) (value : Z) (decoded cursor : list Z) : option (list Z) :=
  match cursor with
  | [] => Some decoded
  | c :: rest =>
      let value := u32 (Z.shiftl value 6) in
      match sextet c with
      | Some x =>
          let value := Z.lor value x in
          if (position =? 3)%nat
          then decode_loop 0 value (decoded ++ [octet value 16; octet value 8; octet value 0]) rest
          else decode_loop (S position) value decoded rest
      | None =>
          if c =? pad then
            match length cursor with
            | 1%nat => Some (decoded ++ [octet value 16; octet value 8])
            | 2%nat => Some (decoded ++ [octet value 10])
            | _ => None
            end
          else None
      end
  end.

Definition decode_base64 (s : list Z) : option (list Z) :=
  if negb (zlen s mod 4 =? 0) then None else decode_loop 0 0 [] s.

(** *** Groups *)

Definition sextet_ok (x : Z) : Prop := 0 <= x < 64.

Lemma sextet_table x : sextet_ok x -> sextet (nth (Z.to_nat x) table 0) = Some x.
Proof.
  intros Hx. assert (Hall : forallb (fun n => bool_decide (sextet (nth n table 0) = Some (Z.of_nat n))) (seq 0 64) = true)
    by (by vm_compute).
  rewrite forallb_forall in Hall. unfold sextet_ok in Hx.
  specialize (Hall (Z.to_nat x)). rewrite in_seq in Hall. specialize (Hall ltac:(lia)).
  apply bool_decide_eq_true in Hall. by rewrite Hall, Z2Nat.id by lia.
Qed.

(** The sextet at a shift. *)
Lemma entry_sextet value shift :
  0 <= shift -> 0 <= value ->
  Z.shiftr (Z.land value (Z.shiftl 63 shift)) shift = value / 2 ^ shift mod 64.
Proof.
  intros Hs Hv. rewrite Z.shiftr_land, Z.shiftr_shiftl_l, Z.sub_diag, Z.shiftl_0_r by lia.
  change 63 with (Z.ones 6). rewrite Z.land_ones, Z.shiftr_div_pow2 by lia. done.
Qed.

Definition sextet_at (value shift : Z) : Z := value / 2 ^ shift mod 64.

Lemma entry_table value shift :
  0 <= shift -> 0 <= value ->
  entry value (Z.shiftl 63 shift) shift = nth (Z.to_nat (sextet_at value shift)) table 0.
Proof. intros Hs Hv. unfold entry. by rewrite entry_sextet. Qed.

Lemma sextet_at_ok value shift : sextet_ok (sextet_at value shift).
Proof. apply Z.mod_pos_bound. lia. Qed.

(** A turn of the loop appends six bits. *)
Definition shift_in (value x : Z) : Z := Z.lor (u32 (Z.shiftl value 6)) x.

Lemma shift_in_mod value x k :
  0 <= value -> sextet_ok x -> 0 <= k <= 26 ->
  0 <= shift_in value x /\ shift_in value x mod 2 ^ (k + 6) = (value mod 2 ^ k) * 64 + x.
Proof.
  intros Hv Hx Hk. unfold shift_in, u32, wrap, sextet_ok in *.
  rewrite Z.shiftl_mul_pow2 by lia. change (2 ^ 32) with (2 ^ 26 * 2 ^ 6).
  rewrite Z.mul_mod_distr_r by lia. rewrite Z.lor_comm, <- Z.shiftl_mul_pow2 by lia.
  pose proof (Z.mod_pos_bound value (2 ^ 26)).
  rewrite lor_shiftl_add by lia. split; [lia|].
  rewrite Z.pow_add_r by lia. change (2 ^ 6) with 64.
  pose proof (pow2_pos k ltac:(lia)).
  rewrite (Z.mul_comm (2 ^ k) 64), Z.rem_mul_r by lia.
  rewrite Z.mod_add, Z.div_add by lia. rewrite (Z.mod_small x), (Z.div_small x) by lia.
  simpl Z.add at 2. rewrite Z.add_0_l.
  replace (2 ^ 26) with (2 ^ k * 2 ^ (26 - k)) by (rewrite <- Z.pow_add_r by lia; f_equal; lia).
  pose proof (pow2_pos (26 - k) ltac:(lia)).
  rewrite Z.rem_mul_r, Z.mul_comm, Z.add_comm by lia.
  rewrite (Z.mul_comm (2 ^ k)), Z.mod_add by lia. rewrite Z.mod_mod by lia. lia.
Qed.

(** The byte at a shift of a value whose low bits are known. *)
Lemma octet_mod value shift k :
  0 <= value -> 0 <= shift -> shift + 8 <= k -> octet value shift = value mod 2 ^ k / 2 ^ shift mod 256.
Proof.
  intros Hv Hs Hk. unfold octet, mask. change 255 with (Z.ones 8).
  rewrite Z.land_ones, Z.shiftr_div_pow2 by lia. change (2 ^ 8) with 256.
  replace k with (shift + (k - shift)) by lia. rewrite Z.pow_add_r by lia.
  pose proof (pow2_pos shift Hs). pose proof (pow2_pos (k - shift) ltac:(lia)).
  rewrite Z.rem_mul_r by lia. rewrite (Z.mul_comm (2 ^ shift)), Z.div_add by lia.
  rewrite (Z.div_small (value mod 2 ^ shift)) by (apply Z.mod_pos_bound; lia). rewrite Z.add_0_l.
  replace (k - shift) with (8 + (k - shift - 8)) by lia. rewrite Z.pow_add_r by lia.
  change (2 ^ 8) with 256. pose proof (pow2_pos (k - shift - 8) ltac:(lia)).
  rewrite Z.rem_mul_r by lia. rewrite (Z.mul_comm 256), Z.mod_add, Z.mod_mod by lia. done.
Qed.

(** The four sextets of 24 bits. *)
Lemma sextets_value value :
  0 <= value < 2 ^ 24 ->
  ((sextet_at value 18 * 64 + sextet_at value 12) * 64 + sextet_at value 6) * 64 + sextet_at value 0 = value.
Proof.
  intros Hv. unfold sextet_at. change (2 ^ 0) with 1. rewrite Z.div_1_r.
  change (2 ^ 18) with (64 * 64 * 64). change (2 ^ 12) with (64 * 64). change (2 ^ 6) with 64.
  rewrite <- !Z.div_div by lia.
  assert (value / 64 < 262144) by (apply Z.div_lt_upper_bound; lia).
  assert (value / 64 / 64 < 4096) by (apply Z.div_lt_upper_bound; lia).
  assert (value / 64 / 64 / 64 < 64) by (apply Z.div_lt_upper_bound; lia).
  assert (0 <= value / 64 / 64 / 64) by (repeat apply Z.div_pos; lia).
  rewrite (Z.mod_small (value / 64 / 64 / 64)) by lia.
  pose proof (Z.div_mod value 64 ltac:(lia)). pose proof (Z.div_mod (value / 64) 64 ltac:(lia)).
  pose proof (Z.div_mod (value / 64 / 64) 64 ltac:(lia)). lia.
Qed.

Definition group_value (a b c : Z) : Z := a * 65536 + b * 256 + c.

Lemma group_value_bound a b c :
  byte_ok a -> byte_ok b -> byte_ok c -> 0 <= group_value a b c < 2 ^ 24.
Proof. unfold byte_ok, group_value. lia. Qed.

Lemma group_value_u32 a b c :
  byte_ok a -> byte_ok b -> byte_ok c ->
  u32 (u32 (u32 (Z.shiftl a 16) + Z.shiftl b 8) + c) = group_value a b c.
Proof.
  intros Ha Hb Hc. unfold byte_ok, group_value, u32 in *. rewrite !Z.shiftl_mul_pow2 by lia.
  change (2 ^ 16) with 65536. change (2 ^ 8) with 256.
  rewrite (wrap_small 32 (a * 65536)) by (unfold in_width; lia).
  rewrite (wrap_small 32 (a * 65536 + b * 256)) by (unfold in_width; lia).
  rewrite wrap_small by (unfold in_width; lia). lia.
Qed.

Lemma group_octets a b c v :
  byte_ok a -> byte_ok b -> byte_ok c -> 0 <= v -> v mod 2 ^ 24 = group_value a b c ->
  octet v 16 = a /\ octet v 8 = b /\ octet v 0 = c.
Proof.
  intros Ha Hb Hc Hv E. rewrite !(octet_mod v _ 24), E by lia. unfold group_value, byte_ok in *.
  change (2 ^ 16) with 65536. change (2 ^ 8) with 256. change (2 ^ 0) with 1.
  split_and!.
  - replace (a * 65536 + b * 256 + c) with (b * 256 + c + a * 65536) by lia.
    rewrite Z.div_add, Z.div_small, Z.mod_small by lia. lia.
  - replace (a * 65536 + b * 256 + c) with (c + (a * 256 + b) * 256) by lia.
    rewrite Z.div_add, Z.div_small, Z.add_0_l by lia.
    rewrite Z.add_comm, Z.mod_add, Z.mod_small by lia. done.
  - rewrite Z.div_1_r. replace (a * 65536 + b * 256 + c) with (c + (a * 256 + b) * 256) by lia.
    rewrite Z.mod_add, Z.mod_small by lia. done.
Qed.

Lemma decode_sextet position value decoded x rest :
  sextet_ok x -> position <> 3%nat ->
  decode_loop position value decoded (nth (Z.to_nat x) table 0 :: rest) =
  decode_loop (S position) (shift_in value x) decoded rest.
Proof.
  intros Hx Hp. cbn [decode_loop]. rewrite sextet_table by done.
  apply Nat.eqb_neq in Hp. by rewrite Hp.
Qed.

Lemma decode_last_sextet value decoded x rest :
  sextet_ok x ->
  decode_loop 3 value decoded (nth (Z.to_nat x) table 0 :: rest) =
  decode_loop 0 (shift_in value x)
    (decoded ++ [octet (shift_in value x) 16; octet (shift_in value x) 8; octet (shift_in value x) 0]) rest.
Proof. intros Hx. cbn [decode_loop]. by rewrite sextet_table by done. Qed.

(** The low bits after two, three and four characters of a group. *)
Lemma shift_in_chain v s0 s1 s2 s3 :
  0 <= v -> sextet_ok s0 -> sextet_ok s1 -> sextet_ok s2 -> sextet_ok s3 ->
  let v2 := shift_in (shift_in v s0) s1 in
  let v3 := shift_in v2 s2 in
  let v4 := shift_in v3 s3 in
  (0 <= v2 /\ v2 mod 2 ^ 12 = s0 * 64 + s1) /\
  (0 <= v3 /\ v3 mod 2 ^ 18 = (s0 * 64 + s1) * 64 + s2) /\
  (0 <= v4 /\ v4 mod 2 ^ 24 = ((s0 * 64 + s1) * 64 + s2) * 64 + s3).
Proof.
  intros Hv H0 H1 H2 H3.
  destruct (shift_in_mod v s0 0 Hv H0 ltac:(lia)) as [P1 E1].
  destruct (shift_in_mod _ s1 6 P1 H1 ltac:(lia)) as [P2 E2].
  destruct (shift_in_mod _ s2 12 P2 H2 ltac:(lia)) as [P3 E3].
  destruct (shift_in_mod _ s3 18 P3 H3 ltac:(lia)) as [P4 E4].
  change (0 + 6) with 6 in E1. change (2 ^ 0) with 1 in E1. rewrite Z.mod_1_r in E1. rewrite E1 in E2.
  change (6 + 6) with 12 in E2. rewrite E2 in E3. change (12 + 6) with 18 in E3. rewrite E3 in E4.
  change (18 + 6) with 24 in E4. cbv zeta. split_and!; done || lia.
Qed.

Lemma shift_pad v : shift_in v 0 = u32 (Z.shiftl v 6).
Proof. unfold shift_in. apply Z.lor_0_r. Qed.

Lemma decode_group a b c v decoded rest :
  byte_ok a -> byte_ok b -> byte_ok c -> 0 <= v ->
  exists v', 0 <= v' /\
    decode_loop 0 v decoded (encode_base64 (a :: b :: c :: rest)) =
    decode_loop 0 v' (decoded ++ [a; b; c]) (encode_base64 rest).
Proof.
  intros Ha Hb Hc Hv. cbn [encode_base64]. rewrite group_value_u32 by done.
  pose proof (group_value_bound a b c Ha Hb Hc) as Hg. set (g := group_value a b c) in *.
  change 0x00FC0000 with (Z.shiftl 63 18). change 0x0003F000 with (Z.shiftl 63 12).
  change 0x00000FC0 with (Z.shiftl 63 6). change 0x0000003F with (Z.shiftl 63 0).
  rewrite !entry_table by lia.
  do 3 (rewrite decode_sextet by (apply sextet_at_ok || done)).
  rewrite decode_last_sextet by apply sextet_at_ok.
  destruct (shift_in_chain v _ _ _ _ Hv (sextet_at_ok g 18) (sextet_at_ok g 12) (sextet_at_ok g 6)
              (sextet_at_ok g 0)) as (_ & _ & Hp & E).
  rewrite sextets_value in E by done.
  destruct (group_octets a b c _ Ha Hb Hc Hp E) as (-> & -> & ->). by eexists.
Qed.

Lemma decode_two a b v decoded :
  byte_ok a -> byte_ok b -> 0 <= v ->
  decode_loop 0 v decoded (encode_base64 [a; b]) = Some (decoded ++ [a; b]).
Proof.
  intros Ha Hb Hv. cbn [encode_base64].
  replace (u32 (u32 (Z.shiftl a 16) + Z.shiftl b 8)) with (group_value a b 0).
  2: { rewrite <- group_value_u32 by (done || unfold byte_ok; lia). rewrite Z.add_0_r.
       unfold u32 at 1. apply Z.mod_mod. lia. }
  assert (H0 : byte_ok 0) by (unfold byte_ok; lia).
  pose proof (group_value_bound a b 0 Ha Hb H0) as Hg. set (g := group_value a b 0) in *.
  change 0x00FC0000 with (Z.shiftl 63 18). change 0x0003F000 with (Z.shiftl 63 12).
  change 0x00000FC0 with (Z.shiftl 63 6). rewrite !entry_table by lia.
  do 3 (rewrite decode_sextet by (apply sextet_at_ok || done)).
  cbn [decode_loop]. change (sextet pad) with (None (A := Z)). rewrite Z.eqb_refl. cbn [length].
  rewrite <- shift_pad.
  destruct (shift_in_chain v _ _ _ 0 Hv (sextet_at_ok g 18) (sextet_at_ok g 12) (sextet_at_ok g 6)
              ltac:(unfold sextet_ok; lia)) as (_ & _ & Hp & E).
  assert (Hz : sextet_at g 0 = 0).
  { unfold sextet_at, g, group_value. rewrite Z.div_1_r.
    replace (a * 65536 + b * 256 + 0) with ((a * 1024 + b * 4) * 64) by lia. by rewrite Z.mod_mul. }
  pose proof (sextets_value g Hg) as Hs. rewrite Hz in Hs. rewrite Hs in E.
  by destruct (group_octets a b 0 _ Ha Hb H0 Hp E) as (-> & -> & _).
Qed.

Lemma decode_one a v decoded :
  byte_ok a -> 0 <= v -> decode_loop 0 v decoded (encode_base64 [a]) = Some (decoded ++ [a]).
Proof.
  intros Ha Hv. cbn [encode_base64].
  replace (u32 (Z.shiftl a 16)) with (group_value a 0 0).
  2: { unfold byte_ok, group_value, u32 in *. rewrite Z.shiftl_mul_pow2, wrap_small; unfold in_width; lia. }
  assert (H0 : byte_ok 0) by (unfold byte_ok; lia).
  pose proof (group_value_bound a 0 0 Ha H0 H0) as Hg. set (g := group_value a 0 0) in *.
  change 0x00FC0000 with (Z.shiftl 63 18). change 0x0003F000 with (Z.shiftl 63 12).
  rewrite !entry_table by lia.
  do 2 (rewrite decode_sextet by (apply sextet_at_ok || done)).
  cbn [decode_loop]. change (sextet pad) with (None (A := Z)). rewrite Z.eqb_refl. cbn [length].
  rewrite <- shift_pad.
  destruct (shift_in_chain v _ _ 0 0 Hv (sextet_at_ok g 18) (sextet_at_ok g 12)
              ltac:(unfold sextet_ok; lia) ltac:(unfold sextet_ok; lia)) as (_ & (Hp & E) & _).
  rewrite (octet_mod _ 10 18), E by lia.
  assert (Hz : sextet_at g 6 = 0 /\ sextet_at g 0 = 0).
  { unfold sextet_at, g, group_value. change (2 ^ 0) with 1. rewrite Z.div_1_r.
    replace (a * 65536 + 0 * 256 + 0) with (a * 16 * 64 * 64) by lia. change (2 ^ 6) with 64.
    by rewrite Z.div_mul, !Z.mod_mul by lia. }
  pose proof (sextets_value g Hg) as Hs. destruct Hz as [Hz1 Hz2]. rewrite Hz1, Hz2 in Hs.
  do 3 f_equal. unfold byte_ok in Ha. assert (Eg : g = a * 65536) by (unfold g, group_value; lia).
  replace ((sextet_at g 18 * 64 + sextet_at g 12) * 64 + 0) with (a * 2 ^ 10)
    by (change (2 ^ 10) with 1024; lia).
  rewrite Z.div_mul, Z.mod_small by lia. done.
Qed.

Lemma decode_loop_encode d v decoded :
  bytes_ok d -> 0 <= v -> decode_loop 0 v decoded (encode_base64 d) = Some (decoded ++ d).
Proof.
  revert v decoded. induction d as [d IH] using (well_founded_induction (Wf_nat.well_founded_ltof _ (@length Z))).
  unfold Wf_nat.ltof in IH. intros v decoded Hd Hv.
  destruct d as [|a [|b [|c rest]]].
  - simpl. by rewrite app_nil_r.
  - apply bytes_ok_cons in Hd as [Ha _]. by apply decode_one.
  - apply bytes_ok_cons in Hd as [Ha Hd]. apply bytes_ok_cons in Hd as [Hb _]. by apply decode_two.
  - apply bytes_ok_cons in Hd as [Ha Hd]. apply bytes_ok_cons in Hd as [Hb Hd].
    apply bytes_ok_cons in Hd as [Hc Hd].
    destruct (decode_group a b c v decoded rest Ha Hb Hc Hv) as (v' & Hv' & ->).
    rewrite IH by (simpl; done || lia). by rewrite <- app_assoc.
Qed.

Lemma length_encode_base64 d : zlen (encode_base64 d) = (zlen d + 2) / 3 * 4.
Proof.
  induction d as [d IH] using (well_founded_induction (Wf_nat.well_founded_ltof _ (@length Z))).
  unfold Wf_nat.ltof in IH. destruct d as [|a [|b [|c rest]]]; [done|done|done|].
  cbn [encode_base64]. specialize (IH rest ltac:(simpl; lia)).
  replace (zlen (a :: b :: c :: rest) + 2) with (zlen rest + 2 + 1 * 3) by zlen_lia.
  rewrite Z.div_add by lia. cbv zeta. unfold zlen in *. simpl length. lia.
Qed.

Lemma decode_encode_base64 d : bytes_ok d -> decode_base64 (encode_base64 d) = Some d.
Proof.
  intros Hd. unfold decode_base64. rewrite length_encode_base64, Z.mod_mul by lia. simpl.
  by apply (decode_loop_encode d 0 []).
Qed.
End base64.

(** ** Base 85 *)

Module base85.

Definition encoder : list Z := chars "0123456789abcdefghijklmnopqrstuvwxyzABCDEFGHIJKLMNOPQRSTUVWXYZ.-:+=^!/*?&<>()[]{}@%$#".

Definition decoder : list Z :=
  [0x00; 0x44; 0x00; 0x54; 0x53; 0x52; 0x48; 0x00; 0x4B; 0x4C; 0x46; 0x41; 0x00; 0x3F; 0x3E; 0x45;
   0x00; 0x01; 0x02; 0x03; 0x04; 0x05; 0x06; 0x07; 0x08; 0x09; 0x40; 0x00; 0x49; 0x42; 0x4A; 0x47;
   0x51; 0x24; 0x25; 0x26; 0x27; 0x28; 0x29; 0x2A; 0x2B; 0x2C; 0x2D; 0x2E; 0x2F; 0x30; 0x31; 0x32;
   0x33; 0x34; 0x35; 0x36; 0x37; 0x38; 0x39; 0x3A; 0x3B; 0x3C; 0x3D; 0x4D; 0x00; 0x4E; 0x43; 0x00;
   0x00; 0x0A; 0x0B; 0x0C; 0x0D; 0x0E; 0x0F; 0x10; 0x11; 0x12; 0x13; 0x14; 0x15; 0x16; 0x17; 0x18;
   0x19; 0x1A; 0x1B; 0x1C; 0x1D; 0x1E; 0x1F; 0x20; 0x21; 0x22; 0x23; 0x4F; 0x00; 0x50; 0x00; 0x00].

(** The [for] over [divise], from its first value down to 1; the quotient of a
    divisor below the base is 0, which ends the loop. *)
Definition encode_word (accumulator : Z) : list Z :=
  map (fun divise => nth (Z.to_nat (accumulator / divise mod 85)) encoder 0)
    [52200625; 614125; 7225; 85; 1].

Definition decode_word (accumulator : Z) : list Z :=
  map (fun divise => accumulator / divise mod 256) [16777216; 65536; 256; 1].

Fixpoint encode_loop (byte_index accumulator : Z) (encoded inp : list Z) : list Z :=
  match inp with
  | [] => encoded
  | unencoded_byte :: inp =>
      let accumulator := u32 (accumulator * 256 + unencoded_byte) in
      let byte_index := byte_index + 1 in
      if byte_index mod 4 =? 0
      then encode_loop byte_index 0 (encoded ++ encode_word accumulator) inp
      else encode_loop byte_index accumulator encoded inp
  end.

Definition encode_base85 (inp : list Z) : option (list Z) :=
  if negb (zlen inp mod 4 =? 0) then None else Some (encode_loop 0 0 [] inp).

(** [beyond] is the byte the program finds after the table's 96 entries, which
    the bound on the position lets it read for the character 128. *)
Definition decoder_at (beyond position : Z) : Z :=
  if position =? 96 then beyond else nth (Z.to_nat position) decoder 0.

Fixpoint decode_loop (beyond char_index accumulator : Z) (decoded inp : list Z) : option (list Z) :=
  match inp with
  | [] => Some decoded
  | encoded_character :: inp =>
      let position := encoded_character - 32 in
      if (position <? 0) || (position >? 96) then None
      else
        let accumulator := u32 (accumulator * 85 + decoder_at beyond position) in
        let char_index := char_index + 1 in
        if char_index mod 5 =? 0
        then decode_loop beyond char_index 0 (decoded ++ decode_word accumulator) inp
        else decode_loop beyond char_index accumulator decoded inp
  end.

Definition decode_base85 (beyond : Z) (inp : list Z) : option (list Z) :=
  if negb (zlen inp mod 5 =? 0) then None else decode_loop beyond 0 0 [] inp.

(** *** Groups *)

Lemma encode_word_digits v : encode_word v = map (fun d => nth (Z.to_nat d) encoder 0) (digits_be 85 5 v).
Proof. reflexivity. Qed.

Lemma decode_word_digits v : decode_word v = digits_be 256 4 v.
Proof. reflexivity. Qed.

(** A digit's character is in the table and read back. *)
Lemma decoder_encoder beyond d :
  digit_ok 85 d ->
  let c := nth (Z.to_nat d) encoder 0 in 0 <= c - 32 < 96 /\ decoder_at beyond (c - 32) = d.
Proof.
  intros Hd c.
  assert (Hall : forallb (fun n => let p := nth n encoder 0 - 32 in
     (0 <=? p) && (p <? 96) && (nth (Z.to_nat p) decoder 0 =? Z.of_nat n)) (seq 0 85) = true)
    by (by vm_compute).
  rewrite forallb_forall in Hall. unfold digit_ok in Hd.
  specialize (Hall (Z.to_nat d)). rewrite in_seq in Hall. specialize (Hall ltac:(lia)).
  cbv zeta in Hall. fold c in Hall. rewrite !andb_true_iff in Hall.
  destruct Hall as [[H0%Z.leb_le H1%Z.ltb_lt] H2%Z.eqb_eq]. split; [lia|]. unfold decoder_at.
  destruct (Z.eqb_spec (c - 32) 96); lia.
Qed.

Lemma decode_char beyond i acc decoded d rest :
  digit_ok 85 d ->
  decode_loop beyond i acc decoded (nth (Z.to_nat d) encoder 0 :: rest) =
  if (i + 1) mod 5 =? 0 then decode_loop beyond (i + 1) 0 (decoded ++ decode_word (u32 (acc * 85 + d))) rest
  else decode_loop beyond (i + 1) (u32 (acc * 85 + d)) decoded rest.
Proof.
  intros Hd. destruct (decoder_encoder beyond d Hd) as [Hp Hdec]. cbn [decode_loop]. rewrite Hdec.
  destruct (Z.ltb_spec (nth (Z.to_nat d) encoder 0 - 32) 0); [lia|].
  destruct (Z.gtb_spec (nth (Z.to_nat d) encoder 0 - 32) 96); [lia|]. done.
Qed.

(** The accumulator keeps the low 32 bits of the value of a group. *)
Lemma u32_fold m ds x : fold_left (fun v d => u32 (v * m + d)) ds (u32 x) = u32 (fold_left (fun v d => v * m + d) ds x).
Proof.
  revert x. induction ds as [|d ds IH]; intros x; cbn [fold_left]; [done|]. rewrite <- IH. f_equal.
  unfold u32, wrap. rewrite <- Z.add_mod_idemp_l, Z.mul_mod_idemp_l, Z.add_mod_idemp_l by lia. done.
Qed.

Lemma decode_word_chars beyond k decoded ds rest :
  Forall (digit_ok 85) ds -> length ds = 5%nat ->
  decode_loop beyond (5 * k) 0 decoded (map (fun d => nth (Z.to_nat d) encoder 0) ds ++ rest) =
  decode_loop beyond (5 * (k + 1)) 0 (decoded ++ decode_word (u32 (bval 85 ds))) rest.
Proof.
  intros Hds Hlen. destruct ds as [|d0 [|d1 [|d2 [|d3 [|d4 [|]]]]]]; try discriminate Hlen.
  do 5 (apply Forall_cons in Hds as [? Hds]). cbn [map app].
  assert (Hm : forall j, 0 <= j -> (5 * k + j) mod 5 = j mod 5).
  { intros j Hj. rewrite Z.add_comm, Z.mul_comm, Z.mod_add by lia. done. }
  rewrite !decode_char by done. rewrite <- !Z.add_assoc.
  change (1 + 1) with 2. change (1 + (1 + 1)) with 3. change (1 + 2) with 3. change (1 + 3) with 4. change (1 + 4) with 5.
  rewrite !Hm by lia.
  change (1 mod 5 =? 0) with false. change (2 mod 5 =? 0) with false. change (3 mod 5 =? 0) with false.
  change (4 mod 5 =? 0) with false. change (5 mod 5 =? 0) with true. cbv iota.
  replace (5 * k + 5) with (5 * (k + 1)) by lia.
  unfold bval. by rewrite <- u32_fold.
Qed.

Lemma encode_word_bytes k encoded ds rest :
  length ds = 4%nat ->
  encode_loop (4 * k) 0 encoded (ds ++ rest) =
  encode_loop (4 * (k + 1)) 0 (encoded ++ encode_word (u32 (bval 256 ds))) rest.
Proof.
  intros Hlen. destruct ds as [|d0 [|d1 [|d2 [|d3 [|]]]]]; try discriminate Hlen.
  assert (Hm : forall j, 0 <= j -> (4 * k + j) mod 4 = j mod 4).
  { intros j Hj. rewrite Z.add_comm, Z.mul_comm, Z.mod_add by lia. done. }
  cbn [app encode_loop]. cbv zeta. rewrite <- !(Z.add_assoc (4 * k)).
  change (1 + 1) with 2. change (2 + 1) with 3. change (3 + 1) with 4. rewrite !Hm by lia.
  change (1 mod 4 =? 0) with false. change (2 mod 4 =? 0) with false. change (3 mod 4 =? 0) with false.
  change (4 mod 4 =? 0) with true. cbv iota.
  replace (4 * k + 4) with (4 * (k + 1)) by lia.
  unfold bval. by rewrite <- u32_fold.
Qed.

(** The text of a sequence of words. *)
Lemma encode_loop_app k encoded d :
  bytes_ok d -> zlen d mod 4 = 0 ->
  exists text, encode_loop (4 * k) 0 encoded d = encoded ++ text /\ zlen text mod 5 = 0 /\
    forall beyond j decoded, decode_loop beyond (5 * j) 0 decoded text = Some (decoded ++ d).
Proof.
  revert k encoded. induction d as [d IH] using (well_founded_induction (Wf_nat.well_founded_ltof _ (@length Z))).
  unfold Wf_nat.ltof in IH. intros k encoded Hd Hm.
  destruct (decide (d = [])) as [->|Hne].
  { exists []. split_and!; [by rewrite app_nil_r|done|]. intros. cbn. by rewrite app_nil_r. }
  assert (H4 : (4 <= length d)%nat).
  { unfold zlen in Hm. assert (length d <> 0%nat) by (by destruct d).
    assert (Z.of_nat (length d) < 4 -> False); [|lia]. intros Hlt. rewrite Z.mod_small in Hm by lia. lia. }
  rewrite <- (take_drop 4 d) in Hd |- *. apply Forall_app in Hd as [Ht Hd].
  assert (Hl : length (take 4 d) = 4%nat) by (rewrite length_take; lia).
  rewrite encode_word_bytes by done.
  destruct (IH (drop 4 d)) with (k := k + 1) (encoded := encoded ++ encode_word (u32 (bval 256 (take 4 d))))
    as (text & Et & Em & Ed); [rewrite length_drop; lia|done| |].
  { unfold zlen in *. rewrite length_drop, Nat2Z.inj_sub, Zminus_mod, Hm by lia. done. }
  pose proof (bval_bound 256 ltac:(lia) (take 4 d) Ht) as Hb. unfold zlen in Hb. rewrite Hl in Hb.
  exists (encode_word (u32 (bval 256 (take 4 d))) ++ text). split_and!.
  - by rewrite Et, app_assoc.
  - replace (zlen (_ ++ text)) with (zlen text + 1 * 5) by zlen_lia. by rewrite Z.mod_add.
  - intros beyond j decoded. rewrite encode_word_digits, decode_word_chars;
      [|apply digits_be_ok; lia|apply length_digits_be].
    unfold u32. rewrite (wrap_small 32 (bval 256 _)) by exact Hb.
    rewrite bval_digits by lia. rewrite wrap_small by exact Hb.
    rewrite decode_word_digits. rewrite <- Hl at 1. rewrite digits_bval by (done || lia).
    by rewrite Ed, app_assoc.
Qed.

Lemma decode_encode_base85 beyond d :
  bytes_ok d ->
  if zlen d mod 4 =? 0 then encode_base85 d ≫= decode_base85 beyond = Some d
  else encode_base85 d = None.
Proof.
  intros Hd. unfold encode_base85. destruct (Z.eqb_spec (zlen d mod 4) 0) as [Hm|]; [|done].
  destruct (encode_loop_app 0 [] d Hd Hm) as (text & Et & Em & Ed). change (4 * 0) with 0 in Et.
  cbn [negb mbind option_bind]. unfold decode_base85. rewrite Et, app_nil_l, Em. cbn.
  apply (Ed beyond 0 []).
Qed.
End base85.
