(* ===== verification/Base10.v ===== *)
(** Decimal amounts, [src/formats/base_10.cpp]: the amount is an integer number
    of the smallest unit, its text has a decimal point [decimal_places] digits
    from the right. At the end, the round trips of all formats together. *)

From S2P Require Import Prelude Limits Endian Reader Writer Codes Number Radix Base16 Base58 Base64.

Definition is_digit (c : Z) : bool := (48 <=? c) && (c <=? 57).
Definition char_is (x c : Z) : bool := c =? x.
Definition digit_value (c : Z) : Z := c - 48.

(** [std::find(value, '.')] and [erase]: the characters before the point and
    the ones after it; without a point it is at the end. *)
Fixpoint split_point (value : list Z) : list Z * list Z :=
  match value with
  | [] => ([], [])
  | c :: value =>
      if char_is 46 c then ([], value)
      else let '(before, after) := split_point value in (c :: before, after)
  end.

(** [std::istringstream >> uint64_t] of digits; out of range it fails. *)
Definition extract_uint64 (value : list Z) : option Z :=
  let number := bval 10 (map digit_value value) in
  if number <=? max_uint64 then Some number else None.

Definition decode_base10 (amount : list Z) (decimal_places : Z) (strict : bool) : option Z :=
  let '(before, after) := split_point amount in
  let value := before ++ after in
  if negb (forallb is_digit value) then None
  else
    let actual_places := zlen after in
    let value := if actual_places <? decimal_places
                 then value ++ repeat 48 (Z.to_nat (decimal_places - actual_places)) else value in
    let point_end := (length before + Z.to_nat decimal_places)%nat in
    let round := if actual_places >? decimal_places
                 then negb (forallb (char_is 48) (drop point_end value)) else false in
    let value := if actual_places >? decimal_places then take point_end value else value in
    if strict && round then None
    else
      match (if negb (length value =? 0)%nat then extract_uint64 value else Some 0) with
      | None => None
      | Some number =>
          if round && (number =? max_uint64) then None
          else Some (number + Z.b2z round)
      end.

(** [stream << amount]; an [uint64_t] has at most twenty digits. *)
Definition decimal (amount : Z) : list Z :=
  match strip_zeros (digits_be 10 20 amount) with
  | [] => [48]
  | digits => map (fun d => d + 48) digits
  end.

(** [std::setfill('0') << std::setw(width)] *)
Definition set_width (width : Z) (text : list Z) : list Z :=
  repeat 48 (Z.to_nat width - length text) ++ text.

(** [boost::algorithm::trim_right_if] *)
Fixpoint trim_right_if (pred : Z -> bool) (text : list Z) : list Z :=
  match text with
  | [] => []
  | c :: text =>
      match trim_right_if pred text with
      | [] => if pred c then [] else [c]
      | kept => c :: kept
      end
  end.

Definition encode_base10 (amount decimal_places : Z) : list Z :=
  let string := set_width (1 + decimal_places) (decimal amount) in
  let point := (length string - Z.to_nat decimal_places)%nat in
  let string := take point string ++ [46] ++ drop point string in
  let string := trim_right_if (char_is 48) string in
  trim_right_if (char_is 46) string.

Definition btc_decimal_places : Z := 8.
Definition mbtc_decimal_places : Z := 5.
Definition ubtc_decimal_places : Z := 2.

Definition btc_to_satoshi (btc : list Z) : option Z := decode_base10 btc btc_decimal_places true.
Definition satoshi_to_btc (satoshi : Z) : list Z := encode_base10 satoshi btc_decimal_places.

(** ** Digits *)

Notation digits_ok := (Forall (fun c => is_digit c = true)).

Lemma digit_values_ok text : digits_ok text -> Forall (digit_ok 10) (map digit_value text).
Proof.
  intros Ht. apply Forall_map. eapply Forall_impl; [exact Ht|]. intros c. unfold is_digit, digit_ok, digit_value. simpl. lia.
Qed.

Lemma bval_digits_app text more :
  bval 10 (map digit_value (text ++ more)) =
  bval 10 (map digit_value text) * 10 ^ zlen more + bval 10 (map digit_value more).
Proof. rewrite map_app, bval_app by lia. unfold zlen. by rewrite length_map. Qed.

Lemma bval_text_zeros n : bval 10 (map digit_value (repeat 48 n)) = 0.
Proof.
  induction n as [|n IH]; [done|]. cbn [repeat map]. rewrite bval_cons, IH by lia. unfold digit_value. lia.
Qed.

(** Some digit of a text is not zero when its value is not. *)
Lemma bval_text_nonzero text :
  digits_ok text -> (bval 10 (map digit_value text) =? 0) = forallb (char_is 48) text.
Proof.
  induction 1 as [|c text Hc Ht IH]; [done|]. cbn [map forallb]. rewrite bval_cons, <- IH by lia.
  pose proof (bval_bound 10 ltac:(lia) _ (digit_values_ok text Ht)) as Hb.
  assert (0 < 10 ^ zlen (map digit_value text)) by (apply Z.pow_pos_nonneg; zlen_lia).
  unfold char_is, is_digit, digit_value in *. destruct (Z.eqb_spec c 48) as [->|]; simpl.
  - f_equal; lia.
  - apply Z.eqb_neq. nia.
Qed.

Lemma split_point_join before after :
  digits_ok before -> split_point (before ++ 46 :: after) = (before, after).
Proof.
  induction 1 as [|c before Hc _ IH]; [done|]. cbn [app split_point]. rewrite IH.
  unfold char_is, is_digit in *. by destruct (Z.eqb_spec c 46) as [->|].
Qed.

Lemma split_point_none text : digits_ok text -> split_point text = (text, []).
Proof.
  induction 1 as [|c text Hc _ IH]; [done|]. cbn [split_point]. rewrite IH.
  unfold char_is, is_digit in *. by destruct (Z.eqb_spec c 46) as [->|].
Qed.

Lemma forallb_digits text : digits_ok text -> forallb is_digit text = true.
Proof. intros Ht. apply forallb_forall. rewrite Forall_forall in Ht. intros c Hc. apply Ht. by apply list_elem_of_In. Qed.

(** ** Decoding computes the amount, rounded up

    [units] is the number of smallest units and [exact] whether no digit that
    is not zero was beyond the last place. *)
Definition units (before after : list Z) (decimal_places : Z) : Z :=
  let n := bval 10 (map digit_value (before ++ after)) in
  let shift := decimal_places - zlen after in
  if 0 <=? shift then n * 10 ^ shift else - (- n / 10 ^ (- shift)).

Definition exact (before after : list Z) (decimal_places : Z) : bool :=
  let n := bval 10 (map digit_value (before ++ after)) in
  let shift := decimal_places - zlen after in
  (0 <=? shift) || (n mod 10 ^ (- shift) =? 0).

Definition amount_spec (before after : list Z) (decimal_places : Z) (strict : bool) : option Z :=
  if strict && negb (exact before after decimal_places) then None
  else if units before after decimal_places <=? max_uint64
  then Some (units before after decimal_places) else None.

Lemma extract_if value :
  (if negb (length value =? 0)%nat then extract_uint64 value else Some 0) = extract_uint64 value.
Proof. by destruct value. Qed.

(** The quotient and the remainder of the digits kept and dropped. *)
Lemma text_division kept dropped n :
  digits_ok dropped -> zlen dropped = n ->
  bval 10 (map digit_value (kept ++ dropped)) / 10 ^ n = bval 10 (map digit_value kept) /\
  bval 10 (map digit_value (kept ++ dropped)) mod 10 ^ n = bval 10 (map digit_value dropped).
Proof.
  intros Hd <-. rewrite bval_digits_app.
  pose proof (bval_bound 10 ltac:(lia) _ (digit_values_ok dropped Hd)) as Hb.
  unfold zlen in *. rewrite length_map in Hb.
  rewrite Z.add_comm, Z.div_add, Z.mod_add by lia.
  rewrite Z.div_small, Z.mod_small by lia. lia.
Qed.

Lemma ceil_div n m : 0 < m -> - (- n / m) = n / m + Z.b2z (negb (n mod m =? 0)).
Proof.
  intros Hm. destruct (Z.eqb_spec (n mod m) 0) as [E|E]; simpl.
  - rewrite Z.div_opp_l_z by lia. lia.
  - rewrite Z.div_opp_l_nz by lia. lia.
Qed.

Lemma decode_base10_spec before after decimal_places strict :
  digits_ok before -> digits_ok after -> 0 <= decimal_places ->
  decode_base10 (before ++ 46 :: after) decimal_places strict =
  amount_spec before after decimal_places strict.
Proof.
  intros Hb Ha Hp. unfold decode_base10. rewrite split_point_join by done.
  rewrite forallb_digits by (by apply Forall_app). cbn [negb].
  unfold amount_spec, units, exact. destruct (Z.leb_spec 0 (decimal_places - zlen after)).
  - destruct (Z.gtb_spec (zlen after) decimal_places); [lia|]. rewrite andb_false_r, extract_if.
    assert (Hv : bval 10 (map digit_value (if zlen after <? decimal_places
       then (before ++ after) ++ repeat 48 (Z.to_nat (decimal_places - zlen after)) else before ++ after)) =
       bval 10 (map digit_value (before ++ after)) * 10 ^ (decimal_places - zlen after)).
    { destruct (Z.ltb_spec (zlen after) decimal_places).
      - rewrite bval_digits_app, bval_text_zeros. unfold zlen at 1. rewrite repeat_length, Z2Nat.id by lia. lia.
      - replace (decimal_places - zlen after) with 0 by lia. lia. }
    cbn [orb negb]. rewrite andb_false_r. unfold extract_uint64. rewrite Hv.
    case_if; [|done]. simpl. by rewrite Z.add_0_r.
  - destruct (Z.gtb_spec (zlen after) decimal_places); [|lia].
    destruct (Z.ltb_spec (zlen after) decimal_places); [lia|].
    set (e := (length before + Z.to_nat decimal_places)%nat).
    assert (Hd : digits_ok (drop e (before ++ after))) by (apply Forall_drop; by apply Forall_app).
    destruct (text_division (take e (before ++ after)) (drop e (before ++ after)) (- (decimal_places - zlen after)))
      as [Eq Em]; [done| |].
    { unfold zlen in *. rewrite length_drop, length_app. lia. }
    rewrite take_drop in Eq, Em. rewrite ceil_div by (apply Z.pow_pos_nonneg; lia).
    rewrite Eq, Em. rewrite bval_text_nonzero by done. rewrite extract_if. unfold extract_uint64. cbn [orb].
    destruct strict, (forallb (char_is 48) (drop e (before ++ after))); cbn [andb negb Z.b2z];
      rewrite ?Z.add_0_r; repeat case_if; done || (f_equal; lia) || (exfalso; lia).
Qed.

(** Without a point the amount is a whole number. *)
Lemma decode_base10_whole text decimal_places strict :
  digits_ok text -> 0 <= decimal_places ->
  decode_base10 text decimal_places strict = decode_base10 (text ++ [46]) decimal_places strict.
Proof.
  intros Ht Hp. unfold decode_base10. by rewrite split_point_none, (split_point_join text []) by done.
Qed.

(** ** Encoding *)

Lemma decimal_digits amount : digits_ok (decimal amount).
Proof.
  unfold decimal. pose proof (strip_zeros_digits 10 _ (digits_be_ok 10 ltac:(lia) 20 amount)) as Hd.
  destruct (strip_zeros (digits_be 10 20 amount)) as [|d ds]; [by repeat constructor|].
  apply Forall_map. eapply Forall_impl; [exact Hd|]. intros c. unfold digit_ok, is_digit. simpl. lia.
Qed.

Lemma decimal_value amount : in_width 64 amount -> bval 10 (map digit_value (decimal amount)) = amount.
Proof.
  intros Ha. assert (E : bval 10 (strip_zeros (digits_be 10 20 amount)) = amount).
  { rewrite bval_strip by lia. apply bval_digits; [lia|]. unfold in_width in Ha. simpl in *. lia. }
  unfold decimal. destruct (strip_zeros (digits_be 10 20 amount)) as [|d ds]; [done|].
  rewrite map_map. rewrite <- E. f_equal. rewrite <- (map_id (d :: ds)) at 2.
  apply map_ext. intros c. unfold digit_value. lia.
Qed.

Lemma decimal_nonempty amount : (1 <= length (decimal amount))%nat.
Proof.
  unfold decimal. destruct (strip_zeros _); simpl; lia.
Qed.

Lemma trim_right_keep pred text c : pred c = false -> trim_right_if pred (text ++ [c]) = text ++ [c].
Proof.
  intros Hc. induction text as [|x text IH]; simpl; [by rewrite Hc|]. rewrite IH.
  by destruct (text ++ [c]) eqn:E; [destruct text|].
Qed.

Lemma trim_right_drop pred text c : pred c = true -> trim_right_if pred (text ++ [c]) = trim_right_if pred text.
Proof. intros Hc. induction text as [|x text IH]; simpl; [by rewrite Hc|]. by rewrite IH. Qed.

Lemma trim_point_digits text : digits_ok text -> trim_right_if (char_is 46) text = text.
Proof.
  induction text as [|c text _] using rev_ind; [done|]. intros [_ Hc%Forall_inv]%Forall_app.
  apply trim_right_keep. unfold char_is, is_digit in *. cbv beta in Hc. lia.
Qed.

(** What is trimmed is a run of one character. *)
Lemma trim_right_chars (x : Z) (text : list Z) :
  exists n, text = trim_right_if (char_is x) text ++ repeat x n /\
    (trim_right_if (char_is x) text = [] \/
     exists kept c, trim_right_if (char_is x) text = kept ++ [c] /\ c <> x).
Proof.
  induction text as [|c text IH] using rev_ind; [exists 0%nat; by split; [|left]|].
  destruct (Z.eq_dec c x) as [->|Hc].
  - destruct IH as (n & E & H). exists (S n). rewrite trim_right_drop by (apply Z.eqb_refl). split; [|done].
    rewrite E at 1. by rewrite <- app_assoc, <- repeat_cons.
  - rewrite trim_right_keep by (by apply Z.eqb_neq). exists 0%nat. split; [by rewrite app_nil_r|].
    right. by exists text, c.
Qed.

(** The text is the whole part, and the point and the places when some of them
    is not zero. *)
Lemma encode_base10_shape amount decimal_places :
  in_width 64 amount -> 0 <= decimal_places ->
  exists before kept n,
    digits_ok before /\ digits_ok kept /\ zlen kept + Z.of_nat n = decimal_places /\
    bval 10 (map digit_value (before ++ kept ++ repeat 48 n)) = amount /\
    encode_base10 amount decimal_places = before ++ (match kept with [] => [] | _ => 46 :: kept end).
Proof.
  intros Ha Hp. set (str := set_width (1 + decimal_places) (decimal amount)).
  set (point := (length str - Z.to_nat decimal_places)%nat).
  assert (Hs : digits_ok str).
  { apply Forall_app. split; [apply Forall_forall; intros c Hc%list_elem_of_In%repeat_spec; by subst c|apply decimal_digits]. }
  assert (Hl : (Z.to_nat decimal_places < length str)%nat).
  { unfold str, set_width. rewrite length_app, repeat_length. pose proof (decimal_nonempty amount). lia. }
  assert (Hv : bval 10 (map digit_value str) = amount).
  { unfold str, set_width. by rewrite bval_digits_app, bval_text_zeros, decimal_value by done. }
  destruct (trim_right_chars 48 (drop point str)) as (n & En & Hk).
  set (kept := trim_right_if (char_is 48) (drop point str)) in *.
  exists (take point str), kept, n.
  assert (Hd : digits_ok (drop point str)) by (by apply Forall_drop).
  rewrite En in Hd. apply Forall_app in Hd as [Hkd _].
  split_and!; [by apply Forall_take|done| | |].
  - assert (E : zlen (drop point str) = decimal_places) by (unfold zlen, point; rewrite length_drop; lia).
    rewrite En in E. unfold zlen in *. rewrite length_app, repeat_length in E. lia.
  - by rewrite <- En, take_drop.
  - unfold encode_base10. fold str. fold point. rewrite En.
    assert (Htrim : forall t, trim_right_if (char_is 48) (t ++ repeat 48 n) = trim_right_if (char_is 48) t).
    { clear. intros t. induction n as [|n IH]; [by rewrite app_nil_r|].
      cbn [repeat]. rewrite repeat_cons, app_assoc, trim_right_drop by done. done. }
    rewrite !app_assoc, Htrim. destruct Hk as [->|(k & c & E & Hc)].
    + rewrite app_nil_r, trim_right_keep, trim_right_drop, app_nil_r by done.
      apply trim_point_digits. by apply Forall_take.
    + assert (Hne : exists x l, kept = x :: l) by (rewrite E; destruct k; eauto).
      rewrite E in Hkd |- * at 1. apply Forall_app in Hkd as [_ Hcd%Forall_inv].
      rewrite app_assoc, trim_right_keep by (by apply Z.eqb_neq).
      rewrite trim_right_keep by (unfold char_is, is_digit in *; cbv beta in *; lia).
      rewrite <- app_assoc, <- E, <- app_assoc. by destruct Hne as (x & l & ->).
Qed.

Lemma decode_encode_base10 amount decimal_places strict :
  in_width 64 amount -> 0 <= decimal_places ->
  decode_base10 (encode_base10 amount decimal_places) decimal_places strict = Some amount.
Proof.
  intros Ha Hp.
  destruct (encode_base10_shape amount decimal_places Ha Hp) as (before & kept & n & Hb & Hk & Hn & Hv & ->).
  rewrite app_assoc, bval_digits_app, bval_text_zeros in Hv. unfold zlen at 1 in Hv. rewrite repeat_length in Hv.
  assert (Hspec : amount_spec before kept decimal_places strict = Some amount).
  { unfold amount_spec, units, exact. destruct (Z.leb_spec 0 (decimal_places - zlen kept)); [|lia].
    rewrite andb_false_r. replace (decimal_places - zlen kept) with (Z.of_nat n) by lia.
    rewrite Z.add_0_r in Hv. rewrite Hv. unfold in_width, max_uint64 in *.
    by destruct (Z.leb_spec amount (2 ^ 64 - 1)); [|lia]. }
  destruct kept as [|c kept].
  - by rewrite app_nil_r, decode_base10_whole, decode_base10_spec.
  - by rewrite decode_base10_spec.
Qed.

(** ** The formats together *)

(** C36: The encodings of single values: variable length integers and script
    numbers read back; base 16 accepts exactly the encodings in either case
    and base 58 exactly the encodings; base 64, base 85 (for sizes divisible
    by four, others are refused) and decimal amounts decode what was encoded. *)
Theorem encodings_roundtrip {R} `{ReaderLaws R} v n d text amount places beyond strict :
  in_width 64 v -> - 2 ^ 63 < n < 2 ^ 63 -> bytes_ok d -> in_width 64 amount -> 0 <= places ->
  (reads read_variable_little_endian (write_variable_little_endian v) v /\
   zlen (write_variable_little_endian v) = variable_uint_size v) /\
  (forall size, zlen (number.data n) <= size -> number.set_data (number.data n) size = Some n) /\
  (decode_base16 text = Some d <-> map to_lower text = encode_base16 d) /\
  (decode_base58 text = Some d <-> text = encode_base58 d) /\
  base64.decode_base64 (base64.encode_base64 d) = Some d /\
  (if zlen d mod 4 =? 0 then base85.encode_base85 d ≫= base85.decode_base85 beyond = Some d
   else base85.encode_base85 d = None) /\
  decode_base10 (encode_base10 amount places) places strict = Some amount.
Proof.
  intros Hv Hn Hd Ha Hp. refine (conj _ (conj _ (conj _ (conj _ (conj _ (conj _ _)))))).
  - destruct (variable_roundtrip (R := R) v Hv) as (Hr & _ & Hz). exact (conj Hr Hz).
  - intros size. by apply number.set_data_data.
  - by apply base16_roundtrip.
  - split; [intros E; symmetry; by apply encode_decode_base58|intros ->; by apply decode_encode_base58].
  - by apply base64.decode_encode_base64.
  - by apply base85.decode_encode_base85.
  - by apply decode_encode_base10.
Qed.
