(* ===== verification/Mnemonics.v ===== *)
(** The text form of opcodes, operations and scripts: [src/machine/opcode.cpp],
    [operation::from_string] and [to_string], [script::from_string] and
    [to_string]. *)

From S2P Require Import Prelude Text Limits Endian Reader Writer Codes Number Operation Script Radix Base16 Base10.

(** ** Opcodes

    The names that are read, in the order of the tests, and the names that are
    written for a single opcode. *)

Definition push_names : list (list Z * Z) := [
  (chars "zero", opcode.push_size_0); (chars "push_0", opcode.push_size_0);
  (chars "push_1", opcode.push_size_1); (chars "push_2", 2); (chars "push_3", 3); (chars "push_4", 4);
  (chars "push_5", 5); (chars "push_6", 6); (chars "push_7", 7); (chars "push_8", 8); (chars "push_9", 9);
  (chars "push_10", 10); (chars "push_11", 11); (chars "push_12", 12); (chars "push_13", 13);
  (chars "push_14", 14); (chars "push_15", 15); (chars "push_16", 16); (chars "push_17", 17);
  (chars "push_18", 18); (chars "push_19", 19); (chars "push_20", 20); (chars "push_21", 21);
  (chars "push_22", 22); (chars "push_23", 23); (chars "push_24", 24); (chars "push_25", 25);
  (chars "push_26", 26); (chars "push_27", 27); (chars "push_28", 28); (chars "push_29", 29);
  (chars "push_30", 30); (chars "push_31", 31); (chars "push_32", 32); (chars "push_33", 33);
  (chars "push_34", 34); (chars "push_35", 35); (chars "push_36", opcode.push_size_36); (chars "push_37", 37);
  (chars "push_38", 38); (chars "push_39", 39); (chars "push_40", 40); (chars "push_41", 41);
  (chars "push_42", 42); (chars "push_43", 43); (chars "push_44", 44); (chars "push_45", 45);
  (chars "push_46", 46); (chars "push_47", 47); (chars "push_48", 48); (chars "push_49", 49);
  (chars "push_50", 50); (chars "push_51", 51); (chars "push_52", 52); (chars "push_53", 53);
  (chars "push_54", 54); (chars "push_55", 55); (chars "push_56", 56); (chars "push_57", 57);
  (chars "push_58", 58); (chars "push_59", 59); (chars "push_60", 60); (chars "push_61", 61);
  (chars "push_62", 62); (chars "push_63", 63); (chars "push_64", 64); (chars "push_65", 65);
  (chars "push_66", 66); (chars "push_67", 67); (chars "push_68", 68); (chars "push_69", 69);
  (chars "push_70", 70); (chars "push_71", 71); (chars "push_72", 72); (chars "push_73", 73);
  (chars "push_74", 74); (chars "push_75", opcode.push_size_75)].

Definition operation_names : list (list Z * Z) := [
  (chars "push_one", opcode.push_one_size); (chars "pushdata1", opcode.push_one_size);
  (chars "push_two", opcode.push_two_size); (chars "pushdata2", opcode.push_two_size);
  (chars "push_four", opcode.push_four_size); (chars "pushdata4", opcode.push_four_size);
  (chars "-1", opcode.push_negative_1); (chars "reserved_80", opcode.reserved_80);
  (chars "reserved", opcode.reserved_80); (chars "0", opcode.push_size_0); (chars "1", opcode.push_positive_1);
  (chars "2", opcode.push_positive_2); (chars "3", opcode.push_positive_3);
  (chars "4", opcode.push_positive_4); (chars "5", opcode.push_positive_5);
  (chars "6", opcode.push_positive_6); (chars "7", opcode.push_positive_7);
  (chars "8", opcode.push_positive_8); (chars "9", opcode.push_positive_9);
  (chars "10", opcode.push_positive_10); (chars "11", opcode.push_positive_11);
  (chars "12", opcode.push_positive_12); (chars "13", opcode.push_positive_13);
  (chars "14", opcode.push_positive_14); (chars "15", opcode.push_positive_15);
  (chars "16", opcode.push_positive_16); (chars "nop", opcode.nop); (chars "reserved_98", opcode.reserved_98);
  (chars "ver", opcode.reserved_98); (chars "if", opcode.if_); (chars "notif", opcode.notif);
  (chars "disabled_verif", opcode.disabled_verif); (chars "verif", opcode.disabled_verif);
  (chars "disabled_vernotif", opcode.disabled_vernotif); (chars "vernotif", opcode.disabled_vernotif);
  (chars "else", opcode.else_); (chars "endif", opcode.endif); (chars "verify", opcode.verify);
  (chars "return", opcode.return_); (chars "toaltstack", opcode.toaltstack);
  (chars "fromaltstack", opcode.fromaltstack); (chars "drop2", opcode.drop2); (chars "2drop", opcode.drop2);
  (chars "dup2", opcode.dup2); (chars "2dup", opcode.dup2); (chars "dup3", opcode.dup3);
  (chars "3dup", opcode.dup3); (chars "over2", opcode.over2); (chars "2over", opcode.over2);
  (chars "rot2", opcode.rot2); (chars "2rot", opcode.rot2); (chars "swap2", opcode.swap2);
  (chars "2swap", opcode.swap2); (chars "ifdup", opcode.ifdup); (chars "depth", opcode.depth);
  (chars "drop", opcode.drop); (chars "dup", opcode.dup); (chars "nip", opcode.nip);
  (chars "over", opcode.over); (chars "pick", opcode.pick); (chars "roll", opcode.roll);
  (chars "rot", opcode.rot); (chars "swap", opcode.swap); (chars "tuck", opcode.tuck);
  (chars "cat", opcode.disabled_cat); (chars "substr", opcode.disabled_substr);
  (chars "left", opcode.disabled_left); (chars "right", opcode.disabled_right); (chars "size", opcode.size);
  (chars "invert", opcode.disabled_invert); (chars "and", opcode.disabled_and);
  (chars "or", opcode.disabled_or); (chars "xor", opcode.disabled_xor); (chars "equal", opcode.equal);
  (chars "equalverify", opcode.equalverify); (chars "reserved_137", opcode.reserved_137);
  (chars "reserved1", opcode.reserved_137); (chars "reserved_138", opcode.reserved_138);
  (chars "reserved2", opcode.reserved_138); (chars "add1", opcode.add1); (chars "1add", opcode.add1);
  (chars "sub1", opcode.sub1); (chars "1sub", opcode.sub1); (chars "mul2", opcode.disabled_mul2);
  (chars "2mul", opcode.disabled_mul2); (chars "div2", opcode.disabled_div2);
  (chars "2div", opcode.disabled_div2); (chars "negate", opcode.negate); (chars "abs", opcode.abs);
  (chars "not", opcode.not_); (chars "nonzero", opcode.nonzero); (chars "0notequal", opcode.nonzero);
  (chars "add", opcode.add); (chars "sub", opcode.sub); (chars "mul", opcode.disabled_mul);
  (chars "div", opcode.disabled_div); (chars "mod", opcode.disabled_mod);
  (chars "lshift", opcode.disabled_lshift); (chars "rshift", opcode.disabled_rshift);
  (chars "booland", opcode.booland); (chars "boolor", opcode.boolor); (chars "numequal", opcode.numequal);
  (chars "numequalverify", opcode.numequalverify); (chars "numnotequal", opcode.numnotequal);
  (chars "lessthan", opcode.lessthan); (chars "greaterthan", opcode.greaterthan);
  (chars "lessthanorequal", opcode.lessthanorequal); (chars "greaterthanorequal", opcode.greaterthanorequal);
  (chars "min", opcode.min); (chars "max", opcode.max); (chars "within", opcode.within);
  (chars "ripemd160", opcode.ripemd160); (chars "sha1", opcode.sha1); (chars "sha256", opcode.sha256);
  (chars "hash160", opcode.hash160); (chars "hash256", opcode.hash256);
  (chars "codeseparator", opcode.codeseparator); (chars "checksig", opcode.checksig);
  (chars "checksigverify", opcode.checksigverify); (chars "checkmultisig", opcode.checkmultisig);
  (chars "checkmultisigverify", opcode.checkmultisigverify); (chars "nop1", opcode.nop1);
  (chars "checklocktimeverify", opcode.checklocktimeverify); (chars "nop2", opcode.checklocktimeverify);
  (chars "checksequenceverify", opcode.checksequenceverify); (chars "nop3", opcode.checksequenceverify);
  (chars "nop4", opcode.nop4); (chars "nop5", opcode.nop5); (chars "nop6", opcode.nop6);
  (chars "nop7", opcode.nop7); (chars "nop8", opcode.nop8); (chars "nop9", opcode.nop9);
  (chars "nop10", opcode.nop10)].

Definition reserved_names : list (list Z * Z) := [
  (chars "reserved_186", opcode.reserved_186); (chars "reserved_187", 187); (chars "reserved_188", 188);
  (chars "reserved_189", 189); (chars "reserved_190", 190); (chars "reserved_191", 191);
  (chars "reserved_192", 192); (chars "reserved_193", 193); (chars "reserved_194", 194);
  (chars "reserved_195", 195); (chars "reserved_196", 196); (chars "reserved_197", 197);
  (chars "reserved_198", 198); (chars "reserved_199", 199); (chars "reserved_200", 200);
  (chars "reserved_201", 201); (chars "reserved_202", 202); (chars "reserved_203", 203);
  (chars "reserved_204", 204); (chars "reserved_205", 205); (chars "reserved_206", 206);
  (chars "reserved_207", 207); (chars "reserved_208", 208); (chars "reserved_209", 209);
  (chars "reserved_210", 210); (chars "reserved_211", 211); (chars "reserved_212", 212);
  (chars "reserved_213", 213); (chars "reserved_214", 214); (chars "reserved_215", 215);
  (chars "reserved_216", 216); (chars "reserved_217", 217); (chars "reserved_218", 218);
  (chars "reserved_219", 219); (chars "reserved_220", 220); (chars "reserved_221", 221);
  (chars "reserved_222", 222); (chars "reserved_223", 223); (chars "reserved_224", 224);
  (chars "reserved_225", 225); (chars "reserved_226", 226); (chars "reserved_227", 227);
  (chars "reserved_228", 228); (chars "reserved_229", 229); (chars "reserved_230", 230);
  (chars "reserved_231", 231); (chars "reserved_232", 232); (chars "reserved_233", 233);
  (chars "reserved_234", 234); (chars "reserved_235", 235); (chars "reserved_236", 236);
  (chars "reserved_237", 237); (chars "reserved_238", 238); (chars "reserved_239", 239);
  (chars "reserved_240", 240); (chars "reserved_241", 241); (chars "reserved_242", 242);
  (chars "reserved_243", 243); (chars "reserved_244", 244); (chars "reserved_245", 245);
  (chars "reserved_246", 246); (chars "reserved_247", 247); (chars "reserved_248", 248);
  (chars "reserved_249", 249); (chars "reserved_250", 250); (chars "reserved_251", 251);
  (chars "reserved_252", 252); (chars "reserved_253", 253); (chars "reserved_254", 254);
  (chars "reserved_255", opcode.reserved_255)].

Definition mnemonics : list (Z * list Z) := [
  (opcode.push_one_size, chars "pushdata1"); (opcode.push_two_size, chars "pushdata2");
  (opcode.push_four_size, chars "pushdata4"); (opcode.push_negative_1, chars "-1");
  (opcode.reserved_80, chars "reserved"); (opcode.nop, chars "nop"); (opcode.reserved_98, chars "ver");
  (opcode.if_, chars "if"); (opcode.notif, chars "notif"); (opcode.disabled_verif, chars "verif");
  (opcode.disabled_vernotif, chars "vernotif"); (opcode.else_, chars "else"); (opcode.endif, chars "endif");
  (opcode.verify, chars "verify"); (opcode.return_, chars "return"); (opcode.toaltstack, chars "toaltstack");
  (opcode.fromaltstack, chars "fromaltstack"); (opcode.drop2, chars "2drop"); (opcode.dup2, chars "2dup");
  (opcode.dup3, chars "3dup"); (opcode.over2, chars "2over"); (opcode.rot2, chars "2rot");
  (opcode.swap2, chars "2swap"); (opcode.ifdup, chars "ifdup"); (opcode.depth, chars "depth");
  (opcode.drop, chars "drop"); (opcode.dup, chars "dup"); (opcode.nip, chars "nip");
  (opcode.over, chars "over"); (opcode.pick, chars "pick"); (opcode.roll, chars "roll");
  (opcode.rot, chars "rot"); (opcode.swap, chars "swap"); (opcode.tuck, chars "tuck");
  (opcode.disabled_cat, chars "cat"); (opcode.disabled_substr, chars "substr");
  (opcode.disabled_left, chars "left"); (opcode.disabled_right, chars "right"); (opcode.size, chars "size");
  (opcode.disabled_invert, chars "invert"); (opcode.disabled_and, chars "and");
  (opcode.disabled_or, chars "or"); (opcode.disabled_xor, chars "xor"); (opcode.equal, chars "equal");
  (opcode.equalverify, chars "equalverify"); (opcode.reserved_137, chars "reserved_137");
  (opcode.reserved_138, chars "reserved_138"); (opcode.add1, chars "1add"); (opcode.sub1, chars "1sub");
  (opcode.disabled_mul2, chars "2mul"); (opcode.disabled_div2, chars "2div"); (opcode.negate, chars "negate");
  (opcode.abs, chars "abs"); (opcode.not_, chars "not"); (opcode.nonzero, chars "nonzero");
  (opcode.add, chars "add"); (opcode.sub, chars "sub"); (opcode.disabled_mul, chars "mul");
  (opcode.disabled_div, chars "div"); (opcode.disabled_mod, chars "mod");
  (opcode.disabled_lshift, chars "lshift"); (opcode.disabled_rshift, chars "rshift");
  (opcode.booland, chars "booland"); (opcode.boolor, chars "boolor"); (opcode.numequal, chars "numequal");
  (opcode.numequalverify, chars "numequalverify"); (opcode.numnotequal, chars "numnotequal");
  (opcode.lessthan, chars "lessthan"); (opcode.greaterthan, chars "greaterthan");
  (opcode.lessthanorequal, chars "lessthanorequal"); (opcode.greaterthanorequal, chars "greaterthanorequal");
  (opcode.min, chars "min"); (opcode.max, chars "max"); (opcode.within, chars "within");
  (opcode.ripemd160, chars "ripemd160"); (opcode.sha1, chars "sha1"); (opcode.sha256, chars "sha256");
  (opcode.hash160, chars "hash160"); (opcode.hash256, chars "hash256");
  (opcode.codeseparator, chars "codeseparator"); (opcode.checksig, chars "checksig");
  (opcode.checksigverify, chars "checksigverify"); (opcode.checkmultisig, chars "checkmultisig");
  (opcode.checkmultisigverify, chars "checkmultisigverify"); (opcode.nop1, chars "nop1");
  (opcode.nop4, chars "nop4"); (opcode.nop5, chars "nop5"); (opcode.nop6, chars "nop6");
  (opcode.nop7, chars "nop7"); (opcode.nop8, chars "nop8"); (opcode.nop9, chars "nop9");
  (opcode.nop10, chars "nop10")].

Definition opcode_names : list (list Z * Z) := push_names ++ operation_names ++ reserved_names.

Definition opcode_to_hexadecimal (code : Z) : list Z := chars "0x" ++ encode_base16 [code].

Definition opcode_from_hexadecimal (value : list Z) : option Z :=
  if negb (length value =? 4)%nat || negb (nth 0 value 0 =? 48) || negb (nth 1 value 0 =? 120) then None
  else hd 0 <$> decode_base16 (drop 2 value).

Definition opcode_to_string (value active_forks : Z) : list Z :=
  if value =? opcode.push_size_0 then chars "zero"
  else if (opcode.push_size_1 <=? value) && (value <=? opcode.push_size_75)
  then chars "push_" ++ decimal value
  else if (opcode.push_positive_1 <=? value) && (value <=? opcode.push_positive_16)
  then decimal (value - opcode.reserved_80)
  else if value =? opcode.checklocktimeverify
  then if rule_fork.is_enabled active_forks rule_fork.bip65_rule then chars "checklocktimeverify" else chars "nop2"
  else if value =? opcode.checksequenceverify
  then if rule_fork.is_enabled active_forks rule_fork.bip112_rule then chars "checksequenceverify" else chars "nop3"
  else match List.find (fun e => fst e =? value) mnemonics with
       | Some (_, name) => name
       | None => opcode_to_hexadecimal value
       end.

Definition opcode_from_string (value : list Z) : option Z :=
  let norm := to_lower_copy value in
  match List.find (fun e => bool_decide (fst e = norm)) opcode_names with
  | Some (_, code) => Some code
  | None => opcode_from_hexadecimal value
  end.

(** ** Operations *)

Definition is_push_token (token : list Z) : bool :=
  (1 <? zlen token) && (hd 0 token =? 91) && (List.last token 0 =? 93).
Definition is_text_token (token : list Z) : bool :=
  (1 <? zlen token) && (hd 0 token =? 39) && (List.last token 0 =? 39).
Definition is_valid_data_size (code size : Z) : bool := (code >? opcode.push_size_75) || (code =? size).
Definition trim_token (token : list Z) : list Z := removelast (drop 1 token).
Definition split_push_token (token : list Z) : list (list Z) := split (trim_token token) [46] false.

Definition opcode_from_data_prefix (prefix data : list Z) : option Z :=
  let size := zlen data in
  let within (code limit : Z) := if size <=? limit then Some code else None in
  if bool_decide (prefix = chars "0") then within (opcode_from_size size) opcode.push_size_75
  else if bool_decide (prefix = chars "1") then within opcode.push_one_size max_uint8
  else if bool_decide (prefix = chars "2") then within opcode.push_two_size max_uint16
  else if bool_decide (prefix = chars "4") then within opcode.push_four_size max_uint32
  else None.

(** [boost::lexical_cast<int64_t>] *)
Definition lexical_cast_int64 (text : list Z) : option Z :=
  let negative := hd 0 text =? 45 in
  let digits := if negative || (hd 0 text =? 43) then drop 1 text else text in
  if (length digits =? 0)%nat || negb (forallb is_digit digits) then None
  else
    let value := bval 10 (map digit_value digits) in
    if value <=? (if negative then 2 ^ 63 else 2 ^ 63 - 1) then Some (if negative then - value else value) else None.

Definition data_from_number_token (token : list Z) : option (list Z) :=
  number.data <$> lexical_cast_int64 token.

Definition operation_from_string (mnemonic : list Z) : operation :=
  if is_push_token mnemonic then
    match split_push_token mnemonic with
    | [data] =>
        match decode_base16 data with
        | Some data => mk_operation (nominal_opcode_from_data data) data true
        | None => reset_operation
        end
    | [prefix; data] =>
        match decode_base16 data with
        | Some data =>
            match opcode_from_data_prefix prefix data with
            | Some code => mk_operation code data true
            | None => reset_operation
            end
        | None => reset_operation
        end
    | _ => reset_operation
    end
  else if is_text_token mnemonic then
    let text := trim_token mnemonic in mk_operation (nominal_opcode_from_data text) text true
  else match opcode_from_string mnemonic with
       | Some code => if is_valid_data_size code 0 then mk_operation code [] true else reset_operation
       | None =>
           match data_from_number_token mnemonic with
           | Some data => mk_operation (nominal_opcode_from_data data) data true
           | None => reset_operation
           end
       end.

Definition opcode_to_prefix (code : Z) (data : list Z) : list Z :=
  if code =? opcode_from_size (zlen data) then []
  else if code =? opcode.push_one_size then chars "1."
  else if code =? opcode.push_two_size then chars "2."
  else if code =? opcode.push_four_size then chars "4."
  else chars "0.".

Definition operation_to_string (active_forks : Z) (op : operation) : list Z :=
  if negb (op_valid op) then chars "<invalid>"
  else if (length (op_data op) =? 0)%nat then opcode_to_string (code op) active_forks
  else chars "[" ++ opcode_to_prefix (code op) (op_data op) ++ encode_base16 (op_data op) ++ chars "]".

(** ** Scripts *)

(** [None]: a token is refused, and the script is left as [reset] leaves it. *)
Fixpoint operations_from_tokens (tokens : list (list Z)) : option (list operation) :=
  match tokens with
  | [] => Some []
  | token :: tokens =>
      let op := operation_from_string token in
      if op_valid op then cons op <$> operations_from_tokens tokens else None
  end.

Definition script_from_string (mnemonic : list Z) : script * bool :=
  let tokens := split mnemonic [32] true in
  let tokens := if (length (hd [] tokens) =? 0)%nat then [] else tokens in
  match operations_from_tokens tokens with
  | Some ops => (from_operations ops, true)
  | None => (reset_script, false)
  end.

Definition script_to_string `{Currency} (active_forks : Z) (s : script) : list Z :=
  join (map (operation_to_string active_forks) (operations s)) [32].

(** ** What is written is read back *)

Definition opcode_text_ok (text : list Z) (code : Z) : bool :=
  bool_decide (opcode_from_string text = Some code) && negb (is_push_token text) && negb (is_text_token text) &&
  negb (length text =? 0)%nat && forallb (fun c => negb (is_space c)) text.

Lemma opcode_text active_forks c : byte_ok c -> opcode_text_ok (opcode_to_string c active_forks) c = true.
Proof.
  unfold opcode_to_string. destruct (rule_fork.is_enabled active_forks rule_fork.bip65_rule),
    (rule_fork.is_enabled active_forks rule_fork.bip112_rule); revert c; apply byte_forall; by vm_compute.
Qed.

Lemma hex_chars d : bytes_ok d -> Forall (fun c => is_base16 c = true) (encode_base16 d).
Proof.
  induction 1 as [|b d Hb _ IH]; [constructor|]. cbn [encode_base16 map concat]. apply Forall_app. split; [|done].
  pose proof (decode_byte b Hb) as Hd. unfold hex_byte_ok in Hd. bool_to_prop.
  by repeat apply Forall_cons_2.
Qed.

Lemma hex_plain c : is_base16 c = true -> is_space c = false /\ is_any_of [46] c = false.
Proof. unfold is_base16, is_space, is_any_of. simpl. lia. Qed.

Lemma hex_nonempty d : d <> [] -> encode_base16 d <> [].
Proof. by destruct d. Qed.

Lemma trim_bracketed body : trim_token (chars "[" ++ body ++ chars "]") = body.
Proof. unfold trim_token. apply removelast_last. Qed.

Lemma bracketed_push body : is_push_token (chars "[" ++ body ++ chars "]") = true.
Proof.
  unfold is_push_token. rewrite (app_assoc (chars "[")). change (chars "]") with [93]. rewrite last_last, !zlen_app.
  pose proof (zlen_nonneg body). change (zlen (chars "[")) with 1. change (zlen [93]) with 1.
  replace (1 <? 1 + zlen body + 1) with true by lia. done.
Qed.

Lemma bracketed_plain body :
  Forall (fun c => is_space c = false) body -> Forall (fun c => is_space c = false) (chars "[" ++ body ++ chars "]").
Proof.
  intros Hb. change (chars "[") with [91]. change (chars "]") with [93]. apply Forall_cons_2; [done|].
  apply Forall_app. split; [done|]. by apply Forall_cons_2; [|apply Forall_nil_2].
Qed.

(** The tokens of a push, with and without an explicit size. *)
Lemma split_plain d : bytes_ok d -> d <> [] -> split_push_token (chars "[" ++ encode_base16 d ++ chars "]") = [encode_base16 d].
Proof.
  intros Hd Hne. unfold split_push_token, split. rewrite trim_bracketed.
  rewrite <- (app_nil_r (encode_base16 d)) at 1. rewrite split_word; [done| |by apply hex_nonempty].
  eapply Forall_impl; [by apply hex_chars|]. intros c Hc. apply (hex_plain c Hc).
Qed.

Lemma split_prefixed p d : bytes_ok d -> d <> [] -> is_any_of [46] p = false ->
  split_push_token (chars "[" ++ [p; 46] ++ encode_base16 d ++ chars "]") = [[p]; encode_base16 d].
Proof.
  intros Hd Hne Hp. unfold split_push_token, split. rewrite (app_assoc [p; 46]), trim_bracketed.
  cbn [app split_tokens]. rewrite Hp. simpl (is_any_of [46] 46). cbn [split_tokens].
  change (is_any_of [46] 46) with true. cbv iota. cbn [app]. f_equal.
  rewrite <- (app_nil_r (encode_base16 d)) at 1. rewrite split_word; [done| |by apply hex_nonempty].
  eapply Forall_impl; [by apply hex_chars|]. intros c Hc. apply (hex_plain c Hc).
Qed.

Section Texts.
Context `{Currency}.

Lemma opcode_parts active_forks c :
  byte_ok c ->
  let text := opcode_to_string c active_forks in
  opcode_from_string text = Some c /\ is_push_token text = false /\ is_text_token text = false /\
  text <> [] /\ Forall (fun c => is_space c = false) text.
Proof.
  intros Hc text. pose proof (opcode_text active_forks c Hc) as Ht. fold text in Ht. unfold opcode_text_ok in Ht.
  rewrite !andb_true_iff, !negb_true_iff in Ht. destruct Ht as ((((Ho & Hp) & Hx) & Hn) & Hs).
  split_and!; try done.
  - by apply bool_decide_eq_true in Ho.
  - by intros ->.
  - apply Is_true_true, forallb_True in Hs. eapply Forall_impl; [exact Hs|].
    intros x Hx'. by apply Is_true_true, negb_true_iff in Hx'.
Qed.

(** A push whose size is explicit is read with that size. *)
Lemma prefix_text c p d :
  bytes_ok d -> d <> [] -> is_any_of [46] p = false -> opcode_from_data_prefix [p] d = Some c ->
  operation_from_string (chars "[" ++ [p; 46] ++ encode_base16 d ++ chars "]") = mk_operation c d true.
Proof.
  intros Hd Hne Hp Hc. unfold operation_from_string.
  pose proof (bracketed_push ([p; 46] ++ encode_base16 d)) as Hb. rewrite <- app_assoc in Hb. rewrite Hb.
  rewrite split_prefixed by done. rewrite decode_encode_base16 by done. by rewrite Hc.
Qed.

(** The prefix that is written, for a push of data. *)
Lemma prefix_cases op :
  operation_wf op -> op_data op <> [] ->
  (opcode_to_prefix (code op) (op_data op) = [] /\ code op = nominal_opcode_from_data (op_data op)) \/
  exists p, opcode_to_prefix (code op) (op_data op) = [p; 46] /\ is_any_of [46] p = false /\ is_space p = false /\
    opcode_from_data_prefix [p] (op_data op) = Some (code op).
Proof.
  intros (_ & Hb & _ & Hmax & Hsize) Hne. unfold opcode_to_prefix, nominal_opcode_from_data.
  assert (Hpos : 0 < zlen (op_data op)) by (destruct (op_data op); [done|zlen_lia]).
  destruct (Z.eqb_spec (code op) (opcode_from_size (zlen (op_data op)))) as [E|E]; [by left|right].
  destruct (Z.eqb_spec (code op) opcode.push_one_size) as [E1|N1].
  { rewrite E1 in *. exists 49. split_and!; try done. unfold opcode_from_data_prefix. simpl. simpl in Hsize.
    by replace (zlen (op_data op) <=? max_uint8) with true by lia. }
  destruct (Z.eqb_spec (code op) opcode.push_two_size) as [E2|N2].
  { rewrite E2 in *. exists 50. split_and!; try done. unfold opcode_from_data_prefix. simpl. simpl in Hsize.
    by replace (zlen (op_data op) <=? max_uint16) with true by lia. }
  destruct (Z.eqb_spec (code op) opcode.push_four_size) as [E4|N4].
  { rewrite E4 in *. exists 52. split_and!; try done. unfold opcode_from_data_prefix. simpl.
    pose proof get_max_block_size_bound.
    replace (zlen (op_data op) <=? max_uint32) with true; [done|]. symmetry. apply Z.leb_le.
    unfold max_uint32. lia. }
  exfalso. apply E. unfold opcode_from_size.
  destruct (Z.leb_spec (code op) opcode.push_size_75); [|lia]. rewrite Hsize.
  by destruct (Z.leb_spec (code op) opcode.push_size_75); [|lia].
Qed.

Lemma operation_text active_forks op :
  operation_wf op ->
  let text := operation_to_string active_forks op in
  operation_from_string text = op /\ text <> [] /\ Forall (fun c => is_space c = false) text.
Proof.
  intros Hwf text. pose proof Hwf as (Hv & Hb & Hd & _ & Hsize). subst text. unfold operation_to_string.
  rewrite Hv. cbn [negb]. destruct op as [c d v]. cbn [code op_data op_valid] in *. subst v.
  destruct d as [|b d].
  - cbn [length]. destruct (opcode_parts active_forks c Hb) as (Ho & Hp & Ht & Hn & Hs).
    simpl (0 =? 0)%nat. cbv iota. split; [|done]. unfold operation_from_string. rewrite Hp, Ht, Ho.
    unfold is_valid_data_size. destruct (Z.gtb_spec c opcode.push_size_75); [done|].
    replace (c =? 0) with true; [done|]. symmetry. apply Z.eqb_eq. revert Hsize. cbn [zlen].
    change (zlen []) with 0. unfold opcode.push_one_size, opcode.push_two_size, opcode.push_four_size, opcode.push_size_75 in *.
    repeat case_match; bool_to_prop; lia.
  - set (data := b :: d) in *. assert (Hne : data <> []) by done. simpl (_ =? _)%nat. cbv iota.
    assert (Hplain : Forall (fun c => is_space c = false) (encode_base16 data)).
    { eapply Forall_impl; [by apply hex_chars|]. intros x Hx. apply (hex_plain x Hx). }
    destruct (prefix_cases _ Hwf Hne) as [[Hp Hc]|(p & Hp & Hdot & Hsp & Hc)]; cbn [code op_data] in *; rewrite Hp.
    + cbn [app]. split; [|split; [done|]].
      * change (91 :: encode_base16 data ++ chars "]") with (chars "[" ++ encode_base16 data ++ chars "]").
        unfold operation_from_string. rewrite bracketed_push, split_plain by done.
        rewrite decode_encode_base16 by done. by rewrite <- Hc.
      * by apply bracketed_plain.
    + split; [by apply prefix_text|]. split; [done|]. rewrite (app_assoc [p; 46]). apply bracketed_plain.
      do 2 (apply Forall_cons_2; [done|]). done.
Qed.

Lemma operations_text active_forks ops :
  Forall operation_wf ops -> operations_from_tokens (map (operation_to_string active_forks) ops) = Some ops.
Proof.
  induction 1 as [|op ops Hop _ IH]; [done|]. cbn [map operations_from_tokens].
  destruct (operation_text active_forks op Hop) as [-> _]. destruct Hop as (Hv & _). by rewrite Hv, IH.
Qed.

Lemma script_text_parsed active_forks s :
  Forall operation_wf (operations s) ->
  script_from_string (script_to_string active_forks s) = (from_operations (operations s), true).
Proof.
  intros Hs. unfold script_from_string, script_to_string. destruct (operations s) as [|op ops] eqn:E; [done|].
  rewrite <- E in *. set (texts := map (operation_to_string active_forks) (operations s)).
  assert (Ht : Forall (fun w => w <> [] /\ Forall (fun c => is_space c = false) w) texts).
  { apply Forall_map. eapply Forall_impl; [exact Hs|]. intros o Ho. apply (operation_text active_forks o Ho). }
  assert (Hne : texts <> []) by (subst texts; by rewrite E).
  rewrite split_join by done. replace (length (hd [] texts) =? 0)%nat with false.
  - unfold texts. by rewrite operations_text.
  - symmetry. apply Nat.eqb_neq. destruct Ht as [|w l [Hw _]]; [done|]. by destruct w.
Qed.

(** C20: The text of a script of well formed operations parses back to exactly
    these operations, whatever the active forks: every opcode name, the
    explicit size prefix of a push that is not minimal and the base 16 of its
    data are read as they were written. *)
Theorem script_text_roundtrip active_forks s :
  Forall operation_wf (operations s) ->
  script_from_string (script_to_string active_forks s) = (from_operations (operations s), true).
Proof. apply script_text_parsed. Qed.
End Texts.
