(* ===== verification/Cashaddr.v ===== *)
(** The address format of Bitcoin Cash, [src/wallet/cashaddr.cpp]: values of
    five bits in an alphabet of 32 characters after a prefix, with the checksum
    of a code over GF(32). The checksum is linear over exclusive or, which gives
    both the round trip and the detection of bursts of errors. *)

From S2P Require Import Prelude Radix.

Module cashaddr.

Definition CHARSET : list Z := chars "qpzry9x8gf2tvdw0s3jn54khce6mua7l".

Definition CHARSET_REV : list Z :=
  [-1; -1; -1; -1; -1; -1; -1; -1; -1; -1; -1; -1; -1; -1; -1; -1; -1; -1; -1;
   -1; -1; -1; -1; -1; -1; -1; -1; -1; -1; -1; -1; -1; -1; -1; -1; -1; -1; -1;
   -1; -1; -1; -1; -1; -1; -1; -1; -1; -1; 15; -1; 10; 17; 21; 20; 26; 30; 7;
   5;  -1; -1; -1; -1; -1; -1; -1; 29; -1; 24; 13; 25; 9;  8;  23; -1; 18; 22;
   31; 27; 19; -1; 1;  0;  3;  16; 11; 28; 12; 14; 6;  4;  2;  -1; -1; -1; -1;
   -1; -1; 29; -1; 24; 13; 25; 9;  8;  23; -1; 18; 22; 31; 27; 19; -1; 1;  0;
   3;  16; 11; 28; 12; 14; 6;  4;  2;  -1; -1; -1; -1; -1].

Definition cat (x y : list Z) : list Z := x ++ y.

(** A turn of the loop of [poly_mod]. *)
Definition poly_step (c d : Z) : Z :=
  let c0 := u8 (Z.shiftr c 35) in
  let c := Z.lxor (u64 (Z.shiftl (Z.land c 0x07ffffffff) 5)) d in
  let c := if negb (Z.land c0 0x01 =? 0) then Z.lxor c 0x98f2bc8e61 else c in
  let c := if negb (Z.land c0 0x02 =? 0) then Z.lxor c 0x79b76d99e2 else c in
  let c := if negb (Z.land c0 0x04 =? 0) then Z.lxor c 0xf33e5fb3c4 else c in
  let c := if negb (Z.land c0 0x08 =? 0) then Z.lxor c 0xae2eabe2a8 else c in
  if negb (Z.land c0 0x10 =? 0) then Z.lxor c 0x1e4f43e470 else c.

Definition poly_mod (v : list Z) : Z := Z.lxor (fold_left poly_step v 1) 1.

Definition lower_case (c : Z) : Z := Z.lor c 0x20.

Definition expand_prefix (prefix : list Z) : list Z :=
  map (fun c => Z.land c 0x1f) prefix ++ [0].

Definition verify_checksum (prefix payload : list Z) : bool :=
  poly_mod (cat (expand_prefix prefix) payload) =? 0.

Definition create_checksum (prefix payload : list Z) : list Z :=
  let enc := cat (expand_prefix prefix) payload in
  let mod_ := poly_mod (enc ++ repeat 0 8) in
  map (fun i => Z.land (Z.shiftr mod_ (5 * (7 - Z.of_nat i))) 0x1f) (seq 0 8).

(** [CHARSET[c]] *)
Definition char_of (c : Z) : Z := nth (Z.to_nat c) CHARSET 0.

Definition encode (prefix payload : list Z) : list Z :=
  let checksum := create_checksum prefix payload in
  let combined := cat payload checksum in
  prefix ++ [58] ++ map char_of combined.

(** The sanity checks over the string: the two flags and the size of the prefix
    at its end; [None]: a character or a separator that is refused. *)
Record scan := mk_scan { lower : bool; upper : bool; has_number : bool; prefix_size : Z }.

Fixpoint scan_loop (i : Z) (s : scan) (str : list Z) : option scan :=
  match str with
  | [] => Some s
  | c :: str =>
      if (97 <=? c) && (c <=? 122)
      then scan_loop (i + 1) (mk_scan true (upper s) (has_number s) (prefix_size s)) str
      else if (65 <=? c) && (c <=? 90)
      then scan_loop (i + 1) (mk_scan (lower s) true (has_number s) (prefix_size s)) str
      else if (48 <=? c) && (c <=? 57)
      then scan_loop (i + 1) (mk_scan (lower s) (upper s) true (prefix_size s)) str
      else if c =? 58
      then if has_number s || (i =? 0) || negb (prefix_size s =? 0) then None
           else scan_loop (i + 1) (mk_scan (lower s) (upper s) (has_number s) i) str
      else None
  end.

(** [CHARSET_REV[c]], refused beyond the table or where it holds -1. *)
Definition value_of (c : Z) : option Z :=
  if c >? 127 then None
  else let v := nth (Z.to_nat c) CHARSET_REV 0 in if v =? -1 then None else Some v.

Fixpoint values_of (str : list Z) : option (list Z) :=
  match str with
  | [] => Some []
  | c :: str => v ← value_of c; l ← values_of str; Some (v :: l)
  end.

(** An empty pair is returned on failure. [None]: the range from the begin of
    the values to eight before their end is not one, which throws. *)
Definition decode (str default_prefix : list Z) : option (list Z * list Z) :=
  match scan_loop 0 (mk_scan false false false 0) str with
  | None => Some ([], [])
  | Some s =>
      if upper s && lower s then Some ([], [])
      else
        let prefix := if prefix_size s =? 0 then default_prefix
                      else map lower_case (take (Z.to_nat (prefix_size s)) str) in
        let start := if prefix_size s =? 0 then 0 else prefix_size s + 1 in
        match values_of (drop (Z.to_nat start) str) with
        | None => Some ([], [])
        | Some values =>
            if negb (verify_checksum prefix values) then Some ([], [])
            else if zlen values <? 8 then None
            else Some (prefix, take (length values - 8) values)
        end
  end.

(** ** The checksum is linear *)

Definition generator (h : Z) : Z :=
  Z.lxor (if Z.testbit h 0 then 0x98f2bc8e61 else 0)
    (Z.lxor (if Z.testbit h 1 then 0x79b76d99e2 else 0)
       (Z.lxor (if Z.testbit h 2 then 0xf33e5fb3c4 else 0)
          (Z.lxor (if Z.testbit h 3 then 0xae2eabe2a8 else 0)
             (if Z.testbit h 4 then 0x1e4f43e470 else 0)))).

Definition value_ok (d : Z) : Prop := digit_ok 32 d.

Lemma land_bit h i : 0 <= i -> negb (Z.land h (2 ^ i) =? 0) = Z.testbit h i.
Proof.
  intros Hi. destruct (Z.testbit h i) eqn:E.
  - apply negb_true_iff, Z.eqb_neq. intros H0.
    assert (Hb : Z.testbit (Z.land h (2 ^ i)) i = true) by (by rewrite Z.land_spec, E, Z.pow2_bits_true).
    by rewrite H0, Z.bits_0 in Hb.
  - apply negb_false_iff, Z.eqb_eq, Z.bits_inj'. intros n Hn. rewrite Z.land_spec, Z.bits_0.
    destruct (Z.eq_dec i n) as [->|Hne]; [by rewrite E|]. by rewrite Z.pow2_bits_false, andb_false_r.
Qed.

Lemma lxor_if (b : bool) c k : (if b then Z.lxor c k else c) = Z.lxor c (if b then k else 0).
Proof. destruct b; [done|]. by rewrite Z.lxor_0_r. Qed.

(** The 40 bits of the state are a head of five and a tail of 35. *)
Lemma poly_step_split c d :
  in_width 40 c ->
  poly_step c d = Z.lxor (Z.lxor (c mod 2 ^ 35 * 32) d) (generator (c / 2 ^ 35)).
Proof.
  intros Hc. unfold in_width in Hc. unfold poly_step.
  assert (Hh : 0 <= c / 2 ^ 35 < 32) by (split; [apply Z.div_pos; lia|apply Z.div_lt_upper_bound; lia]).
  rewrite Z.shiftr_div_pow2 by lia. unfold u8. rewrite wrap_small by (unfold in_width; lia).
  change 0x07ffffffff with (Z.ones 35). rewrite Z.land_ones, Z.shiftl_mul_pow2 by lia.
  pose proof (Z.mod_pos_bound c (2 ^ 35) ltac:(lia)).
  unfold u64. rewrite wrap_small by (unfold in_width; lia).
  change 0x01 with (2 ^ 0). change 0x02 with (2 ^ 1). change 0x04 with (2 ^ 2).
  change 0x08 with (2 ^ 3). change 0x10 with (2 ^ 4). rewrite !land_bit by lia.
  rewrite !lxor_if. unfold generator. rewrite !Z.lxor_assoc. done.
Qed.

Lemma generator_lxor a b : 0 <= a < 32 -> 0 <= b < 32 -> generator (Z.lxor a b) = Z.lxor (generator a) (generator b).
Proof.
  intros _ _. unfold generator. rewrite !Z.lxor_spec.
  destruct (Z.testbit a 0), (Z.testbit a 1), (Z.testbit a 2), (Z.testbit a 3), (Z.testbit a 4),
    (Z.testbit b 0), (Z.testbit b 1), (Z.testbit b 2), (Z.testbit b 3), (Z.testbit b 4); reflexivity.
Qed.

Lemma generator_width h : in_width 40 (generator h).
Proof. unfold generator. repeat apply lxor_width; try lia; case_match; unfold in_width; lia. Qed.

Lemma poly_step_width c d : in_width 40 c -> value_ok d -> in_width 40 (poly_step c d).
Proof.
  intros Hc Hd. rewrite poly_step_split by done.
  pose proof (Z.mod_pos_bound c (2 ^ 35) ltac:(lia)). unfold value_ok, digit_ok in Hd.
  apply lxor_width; [lia| |apply generator_width]. apply lxor_width; unfold in_width; lia.
Qed.

Lemma lxor_four a b c d : Z.lxor (Z.lxor a b) (Z.lxor c d) = Z.lxor (Z.lxor a c) (Z.lxor b d).
Proof. by rewrite !Z.lxor_assoc, <- (Z.lxor_assoc b), (Z.lxor_comm b), !Z.lxor_assoc. Qed.

Lemma poly_step_linear c d c' d' :
  in_width 40 c -> in_width 40 c' ->
  poly_step (Z.lxor c c') (Z.lxor d d') = Z.lxor (poly_step c d) (poly_step c' d').
Proof.
  intros Hc Hc'. rewrite !poly_step_split by (done || by apply lxor_width).
  rewrite lxor_mod, <- !Z.shiftr_div_pow2, Z.shiftr_lxor, !Z.shiftr_div_pow2 by lia.
  rewrite generator_lxor.
  2,3: unfold in_width in *; split; [apply Z.div_pos; lia|apply Z.div_lt_upper_bound; lia].
  change 32 with (2 ^ 5). rewrite <- !Z.shiftl_mul_pow2, Z.shiftl_lxor by lia.
  rewrite (lxor_four (Z.shiftl (c mod 2 ^ 35) 5)). by rewrite lxor_four.
Qed.

Definition xor_values (v w : list Z) : list Z := zip_with Z.lxor v w.

Lemma poly_fold_width v c : in_width 40 c -> Forall value_ok v -> in_width 40 (fold_left poly_step v c).
Proof.
  intros Hc Hv. revert c Hc. induction Hv as [|d v Hd _ IH]; intros c Hc; [done|].
  simpl. apply IH. by apply poly_step_width.
Qed.

Lemma poly_fold_linear v w c c' :
  length v = length w -> in_width 40 c -> in_width 40 c' -> Forall value_ok v -> Forall value_ok w ->
  fold_left poly_step (xor_values v w) (Z.lxor c c') =
  Z.lxor (fold_left poly_step v c) (fold_left poly_step w c').
Proof.
  revert w c c'. induction v as [|d v IH]; intros [|e w] c c' Hl Hc Hc' Hv Hw; try done.
  apply Forall_cons in Hv as [Hd Hv], Hw as [He Hw]. simpl.
  rewrite poly_step_linear by done. apply IH; [by injection Hl|by apply poly_step_width..|done|done].
Qed.

(** Up to eight values are packed into the state. *)
Lemma poly_fold_pack v : Forall value_ok v -> (length v <= 8)%nat -> fold_left poly_step v 0 = bval 32 v.
Proof.
  induction v as [|d v IH] using rev_ind; intros Hv Hl; [done|].
  apply Forall_app in Hv as [Hv Hd%Forall_inv]. rewrite length_app in Hl. simpl in Hl.
  rewrite fold_left_app, IH, bval_app by (done || lia). simpl.
  pose proof (bval_bound 32 ltac:(lia) v Hv) as Hb.
  assert (Hp : 32 ^ zlen v <= 2 ^ 35).
  { change (2 ^ 35) with (32 ^ 7). apply Z.pow_le_mono_r; unfold zlen; lia. }
  rewrite poly_step_split by (unfold in_width; lia).
  rewrite Z.mod_small, Z.div_small by lia. change (generator 0) with 0. rewrite Z.lxor_0_r.
  unfold value_ok, digit_ok in Hd. change 32 with (2 ^ 5). rewrite <- Z.shiftl_mul_pow2 by lia.
  rewrite <- Z.add_nocarry_lxor.
  - rewrite Z.shiftl_mul_pow2 by lia. unfold bval, zlen. simpl. lia.
  - apply Z.bits_inj'. intros n Hn. rewrite Z.land_spec, Z.bits_0.
    destruct (Z.lt_ge_cases n 5); [by rewrite Z.shiftl_spec_low|].
    replace (Z.testbit d n) with false; [apply andb_false_r|]. symmetry.
    apply Z.testbit_false; [lia|]. rewrite Z.div_small; [done|]. split; [lia|].
    apply Z.lt_le_trans with (2 ^ 5); [lia|]. apply Z.pow_le_mono_r; lia.
Qed.

Lemma xor_values_zeros v : xor_values (repeat 0 (length v)) v = v.
Proof. induction v as [|d v IH]; [done|]. simpl. by rewrite IH. Qed.

Lemma values_zeros n : Forall value_ok (repeat 0 n).
Proof. induction n; simpl; constructor; [by vm_compute|done]. Qed.

(** Values that follow a state are added to what zeros would give. *)
Lemma poly_fold_add c v :
  in_width 40 c -> Forall value_ok v -> (length v <= 8)%nat ->
  fold_left poly_step v c = Z.lxor (fold_left poly_step (repeat 0 (length v)) c) (bval 32 v).
Proof.
  intros Hc Hv Hl. rewrite <- (poly_fold_pack v) by done.
  rewrite <- poly_fold_linear; [|by rewrite repeat_length|done|unfold in_width; lia|apply values_zeros|done].
  by rewrite xor_values_zeros, Z.lxor_0_r.
Qed.

(** ** The checksum created is the one verified *)

Lemma prefix_values prefix : Forall value_ok (expand_prefix prefix).
Proof.
  apply Forall_app. split; [|by repeat constructor]. apply Forall_map, Forall_true. intros c.
  unfold value_ok, digit_ok. change 0x1f with (Z.ones 5). rewrite Z.land_ones by lia.
  apply Z.mod_pos_bound. lia.
Qed.

Lemma create_checksum_digits prefix payload :
  create_checksum prefix payload =
  digits_be 32 8 (poly_mod (cat (expand_prefix prefix) payload ++ repeat 0 8)).
Proof.
  unfold create_checksum. set (m := poly_mod _). cbn [seq map digits_be].
  change 0x1f with (Z.ones 5). rewrite !Z.land_ones, !Z.shiftr_div_pow2 by lia. reflexivity.
Qed.

Lemma create_checksum_values prefix payload : Forall value_ok (create_checksum prefix payload).
Proof. rewrite create_checksum_digits. apply digits_be_ok. lia. Qed.

Lemma length_create_checksum prefix payload : length (create_checksum prefix payload) = 8%nat.
Proof. rewrite create_checksum_digits. apply length_digits_be. Qed.

Lemma verify_create prefix payload :
  Forall value_ok payload ->
  verify_checksum prefix (cat payload (create_checksum prefix payload)) = true.
Proof.
  intros Hp. unfold verify_checksum, cat. rewrite app_assoc. apply Z.eqb_eq.
  set (enc := expand_prefix prefix ++ payload). set (chk := create_checksum prefix payload).
  assert (He : Forall value_ok enc) by (apply Forall_app; split; [apply prefix_values|done]).
  assert (H1 : in_width 40 1) by (unfold in_width; lia).
  unfold poly_mod. rewrite fold_left_app.
  rewrite poly_fold_add; [|by apply poly_fold_width|apply create_checksum_values|].
  2: unfold chk; by rewrite length_create_checksum.
  unfold chk. rewrite length_create_checksum. rewrite create_checksum_digits.
  rewrite bval_digits; [|lia|].
  - unfold poly_mod, cat. fold enc. rewrite fold_left_app.
    set (m := fold_left poly_step (repeat 0 8) _). rewrite <- (Z.lxor_assoc m m), Z.lxor_nilpotent. done.
  - apply (lxor_width 40); [lia| |done]. apply poly_fold_width; [done|].
    apply Forall_app. split; [done|apply values_zeros].
Qed.

(** ** Characters *)

Definition is_lower (c : Z) : bool := (97 <=? c) && (c <=? 122).
Definition is_upper (c : Z) : bool := (65 <=? c) && (c <=? 90).

Lemma ascii_forall (f : Z -> bool) :
  forallb f (map Z.of_nat (seq 0 128)) = true -> forall c, 0 <= c <= 127 -> f c = true.
Proof.
  intros Hall c Hc. rewrite forallb_forall in Hall. apply Hall, in_map_iff.
  exists (Z.to_nat c). rewrite in_seq. lia.
Qed.

Lemma value_forall (f : Z -> bool) :
  forallb f (map Z.of_nat (seq 0 32)) = true -> forall v, value_ok v -> f v = true.
Proof.
  intros Hall v Hv. rewrite forallb_forall in Hall. apply Hall, in_map_iff.
  unfold value_ok, digit_ok in Hv. exists (Z.to_nat v). rewrite in_seq. lia.
Qed.

Lemma value_of_char v : value_ok v -> value_of (char_of v) = Some v.
Proof.
  intros Hv. apply (value_forall (fun v => bool_decide (value_of (char_of v) = Some v))) in Hv; [|by vm_compute].
  by apply bool_decide_eq_true in Hv.
Qed.

Lemma char_of_range v : value_ok v -> (is_lower (char_of v) || ((48 <=? char_of v) && (char_of v <=? 57))) = true.
Proof. revert v. apply value_forall. by vm_compute. Qed.

(** A character that is not in upper case is the one of its value. *)
Lemma char_of_value c v :
  0 <= c -> is_upper c = false -> value_of c = Some v -> value_ok v /\ char_of v = c.
Proof.
  intros H0 Hu Hv. assert (Hc : c <= 127).
  { unfold value_of in Hv. destruct (Z.gtb_spec c 127); [done|lia]. }
  assert (Hall := ascii_forall (fun c => is_upper c ||
    match value_of c with Some v => (0 <=? v) && (v <? 32) && (char_of v =? c) | None => true end)
    ltac:(by vm_compute) c (conj H0 Hc)).
  cbv beta in Hall. rewrite Hu, Hv in Hall. unfold value_ok, digit_ok.
  rewrite orb_false_l, !andb_true_iff in Hall. destruct Hall as [[?%Z.leb_le ?%Z.ltb_lt] ?%Z.eqb_eq]. lia.
Qed.

Lemma values_of_chars l : Forall value_ok l -> values_of (map char_of l) = Some l.
Proof.
  induction 1 as [|v l Hv _ IH]; [done|]. cbn [map values_of]. by rewrite value_of_char, IH.
Qed.

Lemma values_of_app s t : values_of (s ++ t) = (v ← values_of s; w ← values_of t; Some (v ++ w)).
Proof.
  induction s as [|c s IH]; simpl; [by destruct (values_of t)|]. rewrite IH.
  destruct (value_of c); [|done]. destruct (values_of s); [|done]. simpl. by destruct (values_of t).
Qed.

(** The values of a text without upper case give it back. *)
Lemma chars_of_values s v :
  Forall (fun c => 0 <= c /\ is_upper c = false) s -> values_of s = Some v ->
  Forall value_ok v /\ map char_of v = s.
Proof.
  intros Hs. revert v. induction Hs as [|c s [H0 Hu] _ IH]; intros v Hv; simpl in Hv; [by simplify_eq|].
  destruct (value_of c) as [x|] eqn:Ex; [|done]. destruct (values_of s) as [l|]; [|done].
  simpl in Hv. simplify_eq. destruct (char_of_value c x H0 Hu Ex) as [? Hx].
  destruct (IH l eq_refl) as [? Hl]. split; [by constructor|]. cbn [map]. by rewrite Hx, Hl.
Qed.

Lemma values_of_length s v : values_of s = Some v -> length v = length s.
Proof.
  revert v. induction s as [|c s IH]; intros v Hv; simpl in Hv; [by simplify_eq|].
  destruct (value_of c); [|done]. destruct (values_of s) as [l|]; [|done]. simpl in Hv. simplify_eq.
  simpl. by rewrite (IH l).
Qed.

(** ** The scan *)

Lemma scan_prefix prefix i s rest :
  Forall (fun c => is_lower c = true) prefix ->
  scan_loop i s (prefix ++ rest) =
  scan_loop (i + zlen prefix)
    (mk_scan (lower s || negb (length prefix =? 0)%nat) (upper s) (has_number s) (prefix_size s)) rest.
Proof.
  intros Hp. revert i s. induction Hp as [|c prefix Hc _ IH]; intros i s.
  - destruct s. unfold zlen. simpl. by rewrite orb_false_r, Z.add_0_r.
  - cbn [app scan_loop]. unfold is_lower in Hc. rewrite Hc, IH. cbn [lower upper has_number prefix_size].
    simpl length. simpl negb. rewrite orb_true_r, orb_true_l. f_equal. zlen_lia.
Qed.

Lemma scan_separator prefix rest :
  Forall (fun c => is_lower c = true) prefix -> prefix <> [] ->
  scan_loop 0 (mk_scan false false false 0) (prefix ++ 58 :: rest) =
  scan_loop (zlen prefix + 1) (mk_scan true false false (zlen prefix)) rest.
Proof.
  intros Hp Hne. rewrite scan_prefix by done. cbn [lower upper has_number prefix_size scan_loop].
  assert (Hz : zlen prefix <> 0) by (destruct prefix; [done|zlen_lia]). apply Z.eqb_neq in Hz.
  rewrite Z.add_0_l. simpl (_ && _). simpl (58 =? 58). rewrite Hz. simpl. f_equal.
  by destruct prefix.
Qed.

Lemma scan_values l i s :
  Forall value_ok l ->
  exists s', scan_loop i s (map char_of l) = Some s' /\ upper s' = upper s /\ prefix_size s' = prefix_size s.
Proof.
  intros Hl. revert i s. induction Hl as [|v l Hv _ IH]; intros i s; [by exists s|].
  cbn [map scan_loop]. pose proof (char_of_range v Hv) as Hr. unfold is_lower in Hr.
  destruct ((97 <=? char_of v) && (char_of v <=? 122)) eqn:El; [by edestruct IH as (s' & -> & ? & ?); eauto|].
  rewrite orb_false_l in Hr. destruct ((65 <=? char_of v) && (char_of v <=? 90)) eqn:Eu; [lia|].
  rewrite Hr. by edestruct IH as (s' & -> & ? & ?); eauto.
Qed.

(** What a scan keeps: flags that were set, and the first separator. *)
Lemma scan_keeps l i s s' :
  scan_loop i s l = Some s' ->
  (lower s = true -> lower s' = true) /\
  (upper s' = false -> upper s = false /\ Forall (fun c => is_upper c = false) l) /\
  (prefix_size s <> 0 -> prefix_size s' = prefix_size s).
Proof.
  revert i s. induction l as [|c l IH]; intros i s Hs; cbn [scan_loop] in Hs.
  { simplify_eq. split_and!; [done|by split|done]. }
  assert (Hc : forall s1, scan_loop (i + 1) s1 l = Some s' -> (lower s = true -> lower s1 = true) ->
     (upper s1 = false -> upper s = false /\ is_upper c = false) ->
     (prefix_size s <> 0 -> prefix_size s1 = prefix_size s) ->
     (lower s = true -> lower s' = true) /\
     (upper s' = false -> upper s = false /\ Forall (fun c => is_upper c = false) (c :: l)) /\
     (prefix_size s <> 0 -> prefix_size s' = prefix_size s)).
  { intros s1 H1 Hl Hu Hp. apply IH in H1 as (Jl & Ju & Jp). split_and!.
    - auto.
    - intros Hx. destruct (Ju Hx) as [Hy ?]. destruct (Hu Hy) as [? ?]. split; [done|by constructor].
    - intros Hx. rewrite Jp; [auto|]. by rewrite Hp. }
  unfold is_upper in Hc.
  destruct ((97 <=? c) && (c <=? 122)) eqn:El; [eapply Hc; [exact Hs|done|intros ?; split; [done|lia]|done]|].
  destruct ((65 <=? c) && (c <=? 90)) eqn:Eu; [eapply Hc; [exact Hs|done|done|done]|].
  destruct ((48 <=? c) && (c <=? 57)) eqn:En; [eapply Hc; [exact Hs|done|intros ?; split; [done|lia]|done]|].
  destruct (c =? 58) eqn:Es; [|done].
  destruct (has_number s || (i =? 0) || negb (prefix_size s =? 0)) eqn:Eb; [done|].
  eapply Hc; [exact Hs|done|intros ?; split; [done|lia]|]. intros Hp. simpl. rewrite !orb_false_iff in Eb.
  destruct Eb as [_ Eb%negb_false_iff]. lia.
Qed.

(** ** Round trip *)

Lemma lower_case_lower prefix : Forall (fun c => is_lower c = true) prefix -> map lower_case prefix = prefix.
Proof.
  induction 1 as [|c prefix Hc _ IH]; [done|]. cbn [map]. rewrite IH. f_equal.
  assert (Hr : 0 <= c <= 127) by (unfold is_lower in Hc; lia).
  apply (ascii_forall (fun c => negb (is_lower c) || (lower_case c =? c))) in Hr; [|by vm_compute].
  cbv beta in Hr. rewrite Hc in Hr. by apply Z.eqb_eq in Hr.
Qed.

(** What is decoded after a prefix in lower case, once the scan has passed. *)
Lemma decode_prefixed prefix rest dp s :
  Forall (fun c => is_lower c = true) prefix -> prefix <> [] ->
  scan_loop (zlen prefix + 1) (mk_scan true false false (zlen prefix)) rest = Some s ->
  decode (prefix ++ 58 :: rest) dp =
  if upper s then Some ([], [])
  else match values_of rest with
       | None => Some ([], [])
       | Some values =>
           if negb (verify_checksum prefix values) then Some ([], [])
           else if zlen values <? 8 then None else Some (prefix, take (length values - 8) values)
       end.
Proof.
  intros Hp Hne Hs. unfold decode. rewrite scan_separator, Hs by done.
  assert (Hz : zlen prefix <> 0) by (destruct prefix; [done|zlen_lia]).
  destruct (scan_keeps _ _ _ _ Hs) as (Hl & _ & Hpre). rewrite Hl, andb_true_r by done.
  rewrite Hpre by done. cbn [prefix_size]. apply Z.eqb_neq in Hz. rewrite Hz.
  destruct (upper s); [done|].
  replace (Z.to_nat (zlen prefix + 1)) with (length prefix + 1)%nat by (unfold zlen; lia).
  replace (Z.to_nat (zlen prefix)) with (length prefix) by (unfold zlen; lia).
  rewrite take_app_length, lower_case_lower by done.
  by rewrite <- drop_drop, drop_app_length.
Qed.

Lemma decode_encode prefix payload dp :
  Forall (fun c => is_lower c = true) prefix -> prefix <> [] -> Forall value_ok payload ->
  decode (encode prefix payload) dp = Some (prefix, payload).
Proof.
  intros Hp Hne Hv. unfold encode, cat. cbn [app]. set (chk := create_checksum prefix payload).
  assert (Hc : Forall value_ok (payload ++ chk)) by (apply Forall_app; split; [done|apply create_checksum_values]).
  destruct (scan_values (payload ++ chk) (zlen prefix + 1) (mk_scan true false false (zlen prefix)) Hc)
    as (s & Hs & Hu & _).
  rewrite (decode_prefixed _ _ _ s), Hu by done. cbn [upper]. rewrite values_of_chars by done.
  unfold chk. change (payload ++ create_checksum prefix payload) with (cat payload (create_checksum prefix payload)).
  rewrite verify_create by done. cbn [negb]. unfold cat, zlen. rewrite length_app, length_create_checksum.
  destruct (Z.ltb_spec (Z.of_nat (length payload + 8)) 8); [lia|].
  by rewrite Nat.add_sub, take_app_length.
Qed.

(** ** Errors are detected *)

Lemma generator_low h : 0 <= h < 32 -> generator h mod 32 = h.
Proof.
  intros Hh. apply (value_forall (fun h => generator h mod 32 =? h)) in Hh; [|by vm_compute].
  by apply Z.eqb_eq in Hh.
Qed.

Lemma poly_step_zero c : in_width 40 c -> poly_step c 0 = 0 -> c = 0.
Proof.
  intros Hc H0. rewrite poly_step_split, Z.lxor_0_r in H0 by done. apply Z.lxor_eq in H0.
  unfold in_width in Hc.
  assert (Hh : 0 <= c / 2 ^ 35 < 32) by (split; [apply Z.div_pos; lia|apply Z.div_lt_upper_bound; lia]).
  pose proof (generator_low _ Hh) as Hl. rewrite <- H0, Z.mod_mul in Hl by lia. rewrite <- Hl in H0.
  change (generator 0) with 0 in H0. rewrite (Z.div_mod c (2 ^ 35)) by lia. lia.
Qed.

Lemma poly_fold_zero n c : in_width 40 c -> fold_left poly_step (repeat 0 n) c = 0 -> c = 0.
Proof.
  revert c. induction n as [|n IH]; intros c Hc H0; [done|]. simpl in H0.
  apply poly_step_zero; [done|]. apply IH; [|done]. apply poly_step_width; [done|by vm_compute].
Qed.

Lemma xor_values_self v : xor_values v v = repeat 0 (length v).
Proof. induction v as [|d v IH]; [done|]. simpl. by rewrite IH, Z.lxor_nilpotent. Qed.

(** Two lists of values that verify and differ within eight of them are equal. *)
Lemma verify_burst prefix a x y b :
  Forall value_ok a -> Forall value_ok x -> Forall value_ok y -> Forall value_ok b ->
  length x = length y -> (length x <= 8)%nat ->
  verify_checksum prefix (a ++ x ++ b) = true -> verify_checksum prefix (a ++ y ++ b) = true -> x = y.
Proof.
  intros Ha Hx Hy Hb Hlen Hl8 Vx%Z.eqb_eq Vy%Z.eqb_eq. unfold poly_mod, cat in *.
  apply Z.lxor_eq in Vx, Vy. rewrite !fold_left_app in Vx, Vy.
  assert (H1 : in_width 40 1) by (unfold in_width; lia).
  pose proof (poly_fold_width a _ (poly_fold_width _ 1 H1 (prefix_values prefix)) Ha) as Hc.
  set (c := fold_left poly_step a _) in *.
  pose proof (poly_fold_width x c Hc Hx) as Hcx. pose proof (poly_fold_width y c Hc Hy) as Hcy.
  assert (Hxy : Z.lxor (fold_left poly_step x c) (fold_left poly_step y c) = 0).
  { apply (poly_fold_zero (length b)); [by apply lxor_width|].
    rewrite <- xor_values_self, poly_fold_linear, Vx, Vy by done. done. }
  apply Z.lxor_eq in Hxy. rewrite (poly_fold_add c x), (poly_fold_add c y), Hlen in Hxy by (done || lia).
  apply (bval_inj 32); [lia|done|done|done|].
  apply Z.lxor_eq. rewrite <- (Z.lxor_0_l (Z.lxor _ _)).
  rewrite <- (Z.lxor_nilpotent (fold_left poly_step (repeat 0 (length y)) c)).
  by rewrite lxor_four, Hxy, !Z.lxor_nilpotent.
Qed.

(** What a text that is accepted after a prefix in lower case holds. *)
Lemma decode_accepted prefix t dp q v :
  Forall (fun c => is_lower c = true) prefix -> prefix <> [] -> bytes_ok t ->
  decode (prefix ++ 58 :: t) dp = Some (q, v) -> q <> [] ->
  exists values, values_of t = Some values /\ verify_checksum prefix values = true /\
    Forall value_ok values /\ map char_of values = t /\ q = prefix /\
    v = take (length values - 8) values /\ 8 <= zlen values.
Proof.
  intros Hp Hne Ht D N.
  destruct (scan_loop (zlen prefix + 1) (mk_scan true false false (zlen prefix)) t) as [s|] eqn:Es.
  2: { unfold decode in D. rewrite scan_separator, Es in D by done. congruence. }
  rewrite (decode_prefixed prefix t dp s Hp Hne Es) in D.
  destruct (upper s) eqn:Eu; [congruence|]. destruct (values_of t) as [values|] eqn:Ev; [|congruence].
  destruct (verify_checksum prefix values) eqn:Ec; cbn [negb] in D; [|congruence].
  destruct (Z.ltb_spec (zlen values) 8); [congruence|]. simplify_eq.
  destruct (scan_keeps _ _ _ _ Es) as (_ & Hup & _). apply Hup in Eu as [_ Hup'].
  destruct (chars_of_values t values) as [? ?]; [|done|by exists values].
  rewrite Forall_forall in Hup' |- *. unfold bytes_ok in Ht. rewrite Forall_forall in Ht.
  intros c Hc. split; [by apply Ht in Hc as [? _]|auto].
Qed.

(** Two texts with one prefix that are both accepted and differ within eight
    characters are equal. *)
Lemma decode_burst prefix a x y b dp p1 v1 p2 v2 :
  Forall (fun c => is_lower c = true) prefix -> prefix <> [] -> bytes_ok (a ++ x ++ b) -> bytes_ok y ->
  length x = length y -> (length x <= 8)%nat ->
  decode (prefix ++ 58 :: a ++ x ++ b) dp = Some (p1, v1) -> p1 <> [] ->
  decode (prefix ++ 58 :: a ++ y ++ b) dp = Some (p2, v2) -> p2 <> [] -> x = y.
Proof.
  intros Hp Hne Hbx Hby Hlen Hl8 D1 N1 D2 N2.
  assert (Hbx2 : bytes_ok (a ++ y ++ b)).
  { unfold bytes_ok in *. rewrite !Forall_app in *. tauto. }
  destruct (decode_accepted _ _ _ _ _ Hp Hne Hbx D1 N1) as (w1 & E1 & V1 & O1 & C1 & _).
  destruct (decode_accepted _ _ _ _ _ Hp Hne Hbx2 D2 N2) as (w2 & E2 & V2 & O2 & C2 & _).
  rewrite !values_of_app in E1, E2.
  destruct (values_of a) as [va|]; [|done]. destruct (values_of x) as [vx|] eqn:Ex; [|done].
  destruct (values_of y) as [vy|] eqn:Ey; [|done]. destruct (values_of b) as [vb|]; [|done].
  simpl in E1, E2. simplify_eq. rewrite !Forall_app in O1, O2.
  assert (vx = vy) as ->.
  { apply (verify_burst prefix va vx vy vb); try tauto; rewrite ?(values_of_length x vx), ?(values_of_length y vy); done. }
  rewrite C1 in C2. by apply app_inv_head, app_inv_tail in C2.
Qed.

(** A text after a prefix is refused, or decoded if it has the eight values of
    a checksum, or else throws. *)
Lemma decode_cases prefix t dp :
  Forall (fun c => is_lower c = true) prefix -> prefix <> [] ->
  decode (prefix ++ 58 :: t) dp = Some ([], []) \/
  if zlen t <? 8 then decode (prefix ++ 58 :: t) dp = None
  else exists v, decode (prefix ++ 58 :: t) dp = Some (prefix, v).
Proof.
  intros Hp Hne. destruct (scan_loop (zlen prefix + 1) (mk_scan true false false (zlen prefix)) t) as [s|] eqn:Es.
  - rewrite (decode_prefixed prefix t dp s Hp Hne Es). destruct (upper s); [by left|].
    destruct (values_of t) as [values|] eqn:Ev; [|by left].
    destruct (verify_checksum prefix values); cbn [negb]; [right|by left].
    unfold zlen. rewrite (values_of_length t values Ev). case_match; [done|by eexists].
  - left. unfold decode. by rewrite scan_separator, Es by done.
Qed.

(** C34: Errors confined to eight consecutive characters of a cashaddr text
    that has an explicit prefix in lower case, after the prefix and its
    separator, are always detected: if the text is accepted, the changed one
    is refused. *)
Theorem burst_detected prefix a x y b dp p v :
  Forall (fun c => is_lower c = true) prefix -> prefix <> [] -> bytes_ok (a ++ x ++ b) -> bytes_ok y ->
  length x = length y -> (length x <= 8)%nat -> x <> y ->
  decode (prefix ++ 58 :: a ++ x ++ b) dp = Some (p, v) -> p <> [] ->
  decode (prefix ++ 58 :: a ++ y ++ b) dp = Some ([], []).
Proof.
  intros Hp Hne Hbx Hby Hlen Hl8 Hxy D N.
  assert (Hz : zlen (a ++ y ++ b) = zlen (a ++ x ++ b)) by (unfold zlen; rewrite !length_app; lia).
  destruct (decode_cases prefix (a ++ y ++ b) dp Hp Hne) as [?|Hy]; [done|]. rewrite Hz in Hy.
  destruct (decode_cases prefix (a ++ x ++ b) dp Hp Hne) as [Hx|Hx]; [congruence|].
  destruct (zlen (a ++ x ++ b) <? 8); [congruence|]. destruct Hy as (w & Hy).
  destruct Hxy. by eapply (decode_burst prefix a x y b dp p v prefix w).
Qed.

(** What is accepted after a prefix in lower case is what [encode] writes. *)
Lemma decode_exact prefix t dp p v :
  Forall (fun c => is_lower c = true) prefix -> prefix <> [] -> bytes_ok t ->
  decode (prefix ++ 58 :: t) dp = Some (p, v) -> p <> [] ->
  p = prefix /\ Forall value_ok v /\ prefix ++ 58 :: t = encode prefix v.
Proof.
  intros Hp Hne Hb D N. destruct (decode_accepted prefix t dp p v Hp Hne Hb D N)
    as (values & Ev & Ec & Ho & Ht & -> & -> & Hl).
  assert (Hs : values = take (length values - 8) values ++ drop (length values - 8) values) by (by rewrite take_drop).
  set (body := take _ values) in *. set (check := drop _ values) in *.
  rewrite Hs in Ho, Ec. apply Forall_app in Ho as [Hob Hoc]. split; [done|]. split; [done|].
  assert (Hcl : length check = 8%nat) by (unfold check; rewrite length_drop; unfold zlen in Hl; lia).
  assert (check = create_checksum prefix body) as Echk.
  { apply (verify_burst prefix body check (create_checksum prefix body) []);
      rewrite ?app_nil_r, ?length_create_checksum; try done; [apply create_checksum_values|lia|by apply verify_create]. }
  unfold encode, cat. by rewrite <- Echk, <- Hs, Ht.
Qed.

(** A text whose checksum is right and that has fewer than eight values. *)
Lemma decode_short : decode (chars "c:qvdy2z3") (chars "bitcoincash") = None.
Proof. by vm_compute. Qed.
End cashaddr.
