(* ===== verification/ConvertBits.v ===== *)
(** [ConvertBits] of [src/wallet/payment_address.cpp]: a sequence of digits of
    [frombits] bits becomes a sequence of digits of [tobits] bits through an
    accumulator. It is proved to write the same number, and the conversion to
    five bits with padding is undone by the one back to bytes. *)

From S2P Require Import Prelude Radix.

(** [while (bits >= tobits)]; each turn lowers [bits] by [tobits], so the bits
    are fuel enough. *)
Fixpoint emit (fuel : nat) (tobits acc bits : Z) : list Z * Z :=
  match fuel with
  | O => ([], bits)
  | S fuel =>
      if bits >=? tobits then
        let bits := bits - tobits in
        let value := Z.land (Z.shiftr acc bits) (Z.shiftl 1 tobits - 1) in
        let '(out, bits) := emit fuel tobits acc bits in
        (value :: out, bits)
      else ([], bits)
  end.

Fixpoint convert_loop (frombits tobits acc bits : Z) (out inp : list Z) : list Z * Z * Z :=
  match inp with
  | [] => (out, acc, bits)
  | d :: inp =>
      let max_acc := Z.shiftl 1 (frombits + tobits - 1) - 1 in
      let acc := Z.land (Z.lor (Z.shiftl acc frombits) d) max_acc in
      let bits := bits + frombits in
      let '(emitted, bits) := emit (Z.to_nat bits) tobits acc bits in
      convert_loop frombits tobits acc bits (out ++ emitted) inp
  end.

Definition ConvertBits (frombits tobits : Z) (pad : bool) (inp : list Z) : list Z * bool :=
  let '(out, acc, bits) := convert_loop frombits tobits 0 0 [] inp in
  if negb pad && negb (bits =? 0) then (out, false)
  else if pad && negb (bits =? 0)
  then (out ++ [Z.land (Z.shiftl acc (tobits - bits)) (Z.shiftl 1 tobits - 1)], true)
  else (out, true).

Section Convert.
Context (frombits tobits : Z) (Hfrom : 0 < frombits) (Hto : 0 < tobits).

Lemma pow_base n : 0 <= n -> (2 ^ tobits) ^ n = 2 ^ (tobits * n).
Proof. intros. by rewrite Z.pow_mul_r by lia. Qed.

Lemma mod_shift v w s k : 0 <= s -> 0 <= k -> v mod 2 ^ (s + k) = w mod 2 ^ (s + k) -> v / 2 ^ s mod 2 ^ k = w / 2 ^ s mod 2 ^ k.
Proof.
  intros Hs Hk E. rewrite !Z.pow_add_r in E by lia.
  pose proof (pow2_pos s Hs). pose proof (pow2_pos k Hk).
  rewrite !Z.rem_mul_r in E by lia.
  assert (E2 : v mod 2 ^ s = w mod 2 ^ s).
  { apply (f_equal (fun x => x mod 2 ^ s)) in E.
    rewrite !(Z.mul_comm (2 ^ s)), !Z.mod_add, !Z.mod_mod in E by lia. done. }
  rewrite E2 in E. apply Z.add_reg_l in E. by apply Z.mul_reg_l in E; [|lia].
Qed.

Lemma mod_weaken v w s k : 0 <= s -> 0 <= k -> v mod 2 ^ (s + k) = w mod 2 ^ (s + k) -> v mod 2 ^ s = w mod 2 ^ s.
Proof.
  intros Hs Hk E. apply (f_equal (fun x => x mod 2 ^ s)) in E.
  assert (Hw : forall x, x mod 2 ^ (s + k) mod 2 ^ s = x mod 2 ^ s).
  { intros x. rewrite Z.pow_add_r by lia. pose proof (pow2_pos s Hs). pose proof (pow2_pos k Hk).
    rewrite Z.rem_mul_r, (Z.mul_comm (2 ^ s)), Z.mod_add, Z.mod_mod by lia. done. }
  by rewrite !Hw in E.
Qed.

Lemma land_max x : Z.land x (Z.shiftl 1 tobits - 1) = x mod 2 ^ tobits.
Proof. rewrite Z.shiftl_1_l, Z.sub_1_r, <- Z.ones_equiv, Z.land_ones by lia. done. Qed.

(** What is emitted are the digits of the value above the bits that are left. *)
Lemma emit_digits fuel acc bits v :
  0 <= bits <= Z.of_nat fuel -> acc mod 2 ^ bits = v mod 2 ^ bits ->
  emit fuel tobits acc bits =
  (digits_be (2 ^ tobits) (Z.to_nat (bits / tobits)) (v / 2 ^ (bits mod tobits)), bits mod tobits).
Proof.
  revert bits. induction fuel as [|fuel IH]; intros bits Hb E; cbn [emit].
  { replace bits with 0 by lia. by rewrite Z.div_0_l, Z.mod_0_l by lia. }
  destruct (Z.geb_spec bits tobits) as [Hge|Hlt].
  - assert (Hd : bits / tobits = (bits - tobits) / tobits + 1).
    { replace bits with (bits - tobits + 1 * tobits) at 1 by lia. by rewrite Z.div_add by lia. }
    assert (Hm : bits mod tobits = (bits - tobits) mod tobits).
    { replace bits with (bits - tobits + 1 * tobits) at 1 by lia. by rewrite Z.mod_add by lia. }
    assert (Hp : 0 <= (bits - tobits) / tobits) by (apply Z.div_pos; lia).
    replace bits with (bits - tobits + tobits) in E by lia.
    rewrite IH; [|lia|by apply (mod_weaken acc v (bits - tobits) tobits); [lia|lia|]].
    rewrite Hd, Hm, Z2Nat.inj_add, Nat.add_1_r by lia. cbn [digits_be]. rewrite land_max.
    f_equal. f_equal. rewrite Z.shiftr_div_pow2 by lia. rewrite Z2Nat.id by lia.
    rewrite (mod_shift acc v) by (lia || done). rewrite pow_base by lia.
    pose proof (Z.mod_pos_bound (bits - tobits) tobits ltac:(lia)).
    rewrite Z.div_div by (apply Z.pow_nonzero || apply Z.pow_pos_nonneg; lia).
    rewrite <- Z.pow_add_r by lia. do 3 f_equal. rewrite (Z.div_mod (bits - tobits) tobits) at 1 by lia. lia.
  - by rewrite Z.div_small, Z.mod_small by lia.
Qed.

Lemma acc_step acc bits v d :
  0 <= acc -> 0 <= bits < tobits -> digit_ok (2 ^ frombits) d -> acc mod 2 ^ bits = v mod 2 ^ bits ->
  Z.land (Z.lor (Z.shiftl acc frombits) d) (Z.shiftl 1 (frombits + tobits - 1) - 1) mod 2 ^ (bits + frombits) =
  (v * 2 ^ frombits + d) mod 2 ^ (bits + frombits).
Proof.
  intros H0 Hb Hd E. unfold digit_ok in Hd.
  rewrite Z.shiftl_1_l, Z.sub_1_r, <- Z.ones_equiv, Z.land_ones by lia.
  rewrite Z.lor_comm, lor_shiftl_add by lia.
  assert (Hw : forall x, x mod 2 ^ (frombits + tobits - 1) mod 2 ^ (bits + frombits) = x mod 2 ^ (bits + frombits)).
  { intros x. replace (frombits + tobits - 1) with (bits + frombits + (tobits - 1 - bits)) by lia.
    apply (mod_weaken _ x (bits + frombits) (tobits - 1 - bits)); [lia|lia|]. apply Z.mod_mod.
    apply Z.pow_nonzero; lia. }
  rewrite Hw. pose proof (pow2_pos bits ltac:(lia)). pose proof (pow2_pos frombits ltac:(lia)).
  rewrite (Z.add_comm bits), Z.pow_add_r, !Z.rem_mul_r by lia.
  rewrite !(Z.add_comm _ d), !Z.mod_add, !Z.div_add by lia.
  rewrite (Z.div_small d), !Z.add_0_l by lia. by rewrite E.
Qed.

(** The state of the loop against the value of what it has read. *)
Definition converted (read out : list Z) (acc bits : Z) : Prop :=
  let v := bval (2 ^ frombits) read in
  0 <= acc /\ bits = (frombits * zlen read) mod tobits /\ acc mod 2 ^ bits = v mod 2 ^ bits /\
  out = digits_be (2 ^ tobits) (Z.to_nat (frombits * zlen read / tobits)) (v / 2 ^ bits).

Lemma convert_step_inv read out acc bits d :
  converted read out acc bits -> digit_ok (2 ^ frombits) d ->
  let acc' := Z.land (Z.lor (Z.shiftl acc frombits) d) (Z.shiftl 1 (frombits + tobits - 1) - 1) in
  let '(emitted, bits') := emit (Z.to_nat (bits + frombits)) tobits acc' (bits + frombits) in
  converted (read ++ [d]) (out ++ emitted) acc' bits'.
Proof.
  intros (H0 & Hb & Ha & Ho) Hd acc'. set (v := bval (2 ^ frombits) read) in *.
  pose proof (Z.mod_pos_bound (frombits * zlen read) tobits Hto) as Hbb. rewrite <- Hb in Hbb.
  pose proof (acc_step acc bits v d H0 Hbb Hd Ha) as Hacc. fold acc' in Hacc.
  rewrite (emit_digits _ acc' (bits + frombits) (v * 2 ^ frombits + d)) by (lia || done).
  set (n := frombits * zlen read) in *. assert (Hn : 0 <= n) by (unfold n; zlen_lia || nia).
  assert (Hlen : frombits * zlen (read ++ [d]) = n + frombits) by (unfold n; rewrite zlen_app; zlen_lia).
  assert (Hsplit : n = tobits * (n / tobits) + bits) by (rewrite Hb; apply Z.div_mod; lia).
  assert (Hmod : (bits + frombits) mod tobits = (n + frombits) mod tobits).
  { rewrite Hsplit. replace (tobits * (n / tobits) + bits + frombits)
      with (bits + frombits + (n / tobits) * tobits) by lia. by rewrite Z.mod_add by lia. }
  assert (Hdiv : (n + frombits) / tobits = n / tobits + (bits + frombits) / tobits).
  { rewrite Hsplit at 1. replace (tobits * (n / tobits) + bits + frombits)
      with (bits + frombits + (n / tobits) * tobits) by lia. rewrite Z.div_add by lia. lia. }
  assert (Hval : bval (2 ^ frombits) (read ++ [d]) = v * 2 ^ frombits + d).
  { unfold v. rewrite bval_app by (apply Z.pow_gt_1; lia). unfold zlen, bval. simpl. lia. }
  set (k := (bits + frombits) mod tobits) in *.
  pose proof (Z.mod_pos_bound (bits + frombits) tobits Hto) as Hk. fold k in Hk.
  assert (Hq : 0 <= (bits + frombits) / tobits) by (apply Z.div_pos; lia).
  unfold converted. rewrite Hval, Hlen, <- Hmod. split_and!; [|done| |].
  - apply Z.land_nonneg. right. rewrite Z.shiftl_1_l. pose proof (pow2_pos (frombits + tobits - 1) ltac:(lia)). lia.
  - apply (mod_weaken _ _ k (bits + frombits - k)); [lia| |].
    + pose proof (Z.mod_le (bits + frombits) tobits). lia.
    + by replace (k + (bits + frombits - k)) with (bits + frombits) by lia.
  - assert (Hq0 : 0 <= n / tobits) by (apply Z.div_pos; lia).
    rewrite Hdiv, Z2Nat.inj_add by lia. rewrite digits_be_app by (apply Z.pow_gt_1; lia).
    f_equal. rewrite Ho. f_equal. rewrite Z2Nat.id, pow_base by lia.
    rewrite Z.div_div by (apply Z.pow_nonzero || apply Z.pow_pos_nonneg; lia).
    rewrite <- Z.pow_add_r by lia.
    replace (k + tobits * ((bits + frombits) / tobits)) with (frombits + bits)
      by (pose proof (Z.div_mod (bits + frombits) tobits ltac:(lia)); unfold k; lia).
    rewrite Z.pow_add_r by lia. pose proof (pow2_pos bits ltac:(lia)). pose proof (pow2_pos frombits ltac:(lia)).
    rewrite <- Z.div_div by lia. rewrite Z.add_comm, Z.div_add by lia. unfold digit_ok in Hd.
    by rewrite (Z.div_small d) by lia.
Qed.

Lemma convert_loop_inv inp read out acc bits :
  converted read out acc bits -> Forall (digit_ok (2 ^ frombits)) inp ->
  let '(out', acc', bits') := convert_loop frombits tobits acc bits out inp in
  converted (read ++ inp) out' acc' bits'.
Proof.
  intros Hc Hi. revert read out acc bits Hc. induction Hi as [|d inp Hd _ IH]; intros read out acc bits Hc.
  - cbn. by rewrite app_nil_r.
  - cbn [convert_loop]. pose proof (convert_step_inv read out acc bits d Hc Hd) as Hs. cbv zeta in Hs.
    destruct (emit _ _ _ _) as [emitted bits']. specialize (IH _ _ _ _ Hs).
    by rewrite <- app_assoc in IH.
Qed.

Lemma convert_result inp :
  Forall (digit_ok (2 ^ frombits)) inp ->
  exists acc,
    convert_loop frombits tobits 0 0 [] inp =
    (digits_be (2 ^ tobits) (Z.to_nat (frombits * zlen inp / tobits))
       (bval (2 ^ frombits) inp / 2 ^ ((frombits * zlen inp) mod tobits)), acc, (frombits * zlen inp) mod tobits) /\
    acc mod 2 ^ ((frombits * zlen inp) mod tobits) = bval (2 ^ frombits) inp mod 2 ^ ((frombits * zlen inp) mod tobits).
Proof.
  intros Hi. assert (H0 : converted [] [] 0 0).
  { unfold converted, zlen. simpl. by rewrite Z.mul_0_r, Z.mod_0_l, Z.div_0_l by lia. }
  pose proof (convert_loop_inv inp [] [] 0 0 H0 Hi) as H1. simpl app in H1.
  destruct (convert_loop _ _ _ _ _ _) as [[out acc] bits]. destruct H1 as (_ & Hb & Ha & Ho).
  exists acc. rewrite <- Hb. rewrite Ho. done.
Qed.
End Convert.

(** ** Bytes to five bits and back *)

Definition padding (n : Z) : Z := (5 - 8 * n mod 5) mod 5.

Lemma padding_bound n : 0 <= padding n < 5.
Proof. apply Z.mod_pos_bound. lia. Qed.

(** The packed digits write the bytes followed by the padding. *)
Lemma pack_digits data :
  bytes_ok data ->
  let p := padding (zlen data) in
  exists k, 5 * Z.of_nat k = 8 * zlen data + p /\
    ConvertBits 8 5 true data = (digits_be 32 k (bval 256 data * 2 ^ p), true).
Proof.
  intros Hd p. destruct (convert_result 8 5 ltac:(lia) ltac:(lia) data Hd) as (acc & E & Ha).
  unfold ConvertBits. rewrite E. change (2 ^ 5) with 32 in *. change (2 ^ 8) with 256 in *.
  set (n := 8 * zlen data) in *. assert (Hn : 0 <= n) by (unfold n; zlen_lia).
  pose proof (Z.div_mod n 5 ltac:(lia)) as Hdm. pose proof (Z.mod_pos_bound n 5 ltac:(lia)) as Hm.
  assert (Hq : 0 <= n / 5) by (apply Z.div_pos; lia). unfold p, padding. fold n.
  destruct (Z.eqb_spec (n mod 5) 0) as [E0|E0].
  - rewrite E0. change ((5 - 0) mod 5) with 0. exists (Z.to_nat (n / 5)). cbn [negb andb].
    split; [lia|]. change (2 ^ 0) with 1. by rewrite Z.div_1_r, Z.mul_1_r.
  - rewrite (Z.mod_small (5 - n mod 5)) by lia. exists (Z.to_nat (n / 5) + 1)%nat. cbn [negb andb].
    split; [lia|]. f_equal. rewrite digits_be_app by lia. set (s := 5 - n mod 5) in *.
    assert (Hp5 : 2 ^ (n mod 5) * 2 ^ s = 32).
    { rewrite <- Z.pow_add_r by lia. unfold s. by replace (n mod 5 + (5 - n mod 5)) with 5 by lia. }
    pose proof (pow2_pos (n mod 5) ltac:(lia)). pose proof (pow2_pos s ltac:(lia)). f_equal.
    + f_equal. change (32 ^ Z.of_nat 1) with 32. rewrite <- Hp5. by rewrite Z.div_mul_cancel_r by lia.
    + cbn [digits_be]. change (32 ^ Z.of_nat 0) with 1. rewrite Z.div_1_r. f_equal.
      change (Z.shiftl 1 5 - 1) with (Z.ones 5). rewrite Z.land_ones, Z.shiftl_mul_pow2 by lia.
      change (2 ^ 5) with 32. rewrite <- Hp5, !Z.mul_mod_distr_r by lia. by rewrite Ha.
Qed.

(** The packed digits pass the checks on the padding and unpack to the bytes. *)
Lemma unpack_pack data :
  bytes_ok data -> data <> [] ->
  exists digits, ConvertBits 8 5 true data = (digits, true) /\ digits <> [] /\
    Forall (digit_ok 32) digits /\
    (zlen digits * 5) mod 8 < 5 /\
    Z.land (List.last digits 0) (Z.shiftl 1 ((zlen digits * 5) mod 8) - 1) = 0 /\
    fst (ConvertBits 5 8 false digits) = data.
Proof.
  intros Hd Hne. destruct (pack_digits data Hd) as (k & Hk & E). pose proof (padding_bound (zlen data)) as Hp.
  set (p := padding (zlen data)) in *. set (w := bval 256 data * 2 ^ p) in *.
  assert (Hz : 1 <= zlen data) by (destruct data; [done|zlen_lia]).
  exists (digits_be 32 k w).
  assert (Hlen : zlen (digits_be 32 k w) = Z.of_nat k) by (unfold zlen; by rewrite length_digits_be).
  assert (Hmod : (zlen (digits_be 32 k w) * 5) mod 8 = p).
  { rewrite Hlen. replace (Z.of_nat k * 5) with (p + zlen data * 8) by lia.
    rewrite Z.mod_add, Z.mod_small by lia. done. }
  pose proof (bval_bound 256 ltac:(lia) data Hd) as Hb. pose proof (pow2_pos p ltac:(lia)) as Hpp.
  split_and!; [done| |by apply digits_be_ok|lia| |].
  - destruct k; [lia|done].
  - rewrite Hmod. destruct k as [|k]; [lia|]. replace (S k) with (k + 1)%nat by lia.
    rewrite digits_be_app by lia. cbn [digits_be]. rewrite List.last_last.
    change (32 ^ Z.of_nat 0) with 1. rewrite Z.div_1_r, Z.shiftl_1_l, Z.sub_1_r, <- Z.ones_equiv, Z.land_ones by lia.
    unfold w. change 32 with (2 ^ 5). replace 5 with (p + (5 - p)) at 1 by lia.
    rewrite Z.pow_add_r by lia. pose proof (pow2_pos (5 - p) ltac:(lia)).
    rewrite Z.rem_mul_r, Z.mod_mul, Z.add_0_l by lia. rewrite (Z.mul_comm (2 ^ p)). by rewrite Z.mod_mul by lia.
  - destruct (convert_result 5 8 ltac:(lia) ltac:(lia) (digits_be 32 k w)) as (acc & E2 & _);
      [by apply digits_be_ok|].
    change (2 ^ 8) with 256 in E2. change (2 ^ 5) with 32 in E2.
    assert (Hbv : bval 32 (digits_be 32 k w) = w).
    { apply bval_digits; [lia|]. change 32 with (2 ^ 5). rewrite <- Z.pow_mul_r by lia.
      assert (Hb2 : bval 256 data < 2 ^ (8 * zlen data)) by (rewrite Z.pow_mul_r by zlen_lia; apply Hb).
      rewrite Hk, Z.pow_add_r by zlen_lia. unfold w. nia. }
    rewrite Hbv, Hlen in E2. replace (5 * Z.of_nat k) with (p + zlen data * 8) in E2 by lia.
    rewrite Z.mod_add, Z.mod_small, Z.div_add, Z.div_small, Z.add_0_l in E2 by lia.
    unfold w in E2. rewrite Z.div_mul in E2 by lia.
    unfold ConvertBits. fold w in E2 |- *. rewrite E2.
    replace (Z.to_nat (zlen data)) with (length data) by (unfold zlen; lia).
    rewrite digits_bval by (lia || done). by destruct (p =? 0).
Qed.

(** Digits that pass the checks on the padding are the ones their bytes are
    packed to. *)
Lemma pack_unpack digits :
  let extra := (zlen digits * 5) mod 8 in
  Forall (digit_ok 32) digits -> digits <> [] -> extra < 5 ->
  Z.land (List.last digits 0) (Z.shiftl 1 extra - 1) = 0 ->
  ConvertBits 8 5 true (fst (ConvertBits 5 8 false digits)) = (digits, true).
Proof.
  intros extra Hd Hne He Hlast.
  destruct (convert_result 5 8 ltac:(lia) ltac:(lia) digits Hd) as (acc & E & _).
  change (2 ^ 8) with 256 in E. change (2 ^ 5) with 32 in E. rewrite (Z.mul_comm 5) in E. fold extra in E.
  set (n := zlen digits * 5) in *. assert (Hn : 0 <= n) by (unfold n; zlen_lia).
  set (v := bval 32 digits) in *. pose proof (bval_bound 32 ltac:(lia) digits Hd) as Hv. fold v in Hv.
  assert (Hex : 0 <= extra < 8) by (apply Z.mod_pos_bound; lia).
  pose proof (Z.div_mod n 8 ltac:(lia)) as Hdm. fold extra in Hdm.
  assert (Hq : 0 <= n / 8) by (apply Z.div_pos; lia).
  set (data := digits_be 256 (Z.to_nat (n / 8)) (v / 2 ^ extra)) in *.
  assert (Edata : fst (ConvertBits 5 8 false digits) = data).
  { unfold ConvertBits. rewrite E. by destruct (extra =? 0). }
  rewrite Edata. assert (Hzl : zlen data = n / 8) by (unfold zlen, data; rewrite length_digits_be; lia).
  destruct (pack_digits data ltac:(apply digits_be_ok; lia)) as (k & Hk & ->). f_equal.
  assert (Hp : padding (zlen data) = extra).
  { unfold padding. rewrite Hzl. replace (8 * (n / 8)) with (zlen digits * 5 - extra) by (unfold n in *; lia).
    rewrite Zminus_mod_idemp_r. replace (5 - (zlen digits * 5 - extra)) with (extra + (1 - zlen digits) * 5) by lia.
    rewrite Z.mod_add by lia. apply Z.mod_small. lia. }
  rewrite Hp in *. pose proof (pow2_pos extra ltac:(lia)) as He2.
  assert (Hb : v / 2 ^ extra < 256 ^ (n / 8)).
  { apply Z.div_lt_upper_bound; [lia|]. change 256 with (2 ^ 8). rewrite <- Z.pow_mul_r, <- Z.pow_add_r by lia.
    replace (extra + 8 * (n / 8)) with (5 * zlen digits) by (unfold n in *; lia).
    rewrite Z.pow_mul_r by (lia || zlen_lia). apply Hv. }
  unfold data. rewrite bval_digits; [|lia|rewrite Z2Nat.id by lia; split; [apply Z.div_pos; lia|done]].
  assert (Hz : v mod 2 ^ extra = 0).
  { destruct (exists_last Hne) as (init & x & Ei). unfold v. rewrite Ei in Hlast |- *. rewrite List.last_last in Hlast.
    rewrite bval_app by lia. change (bval 32 [x]) with (0 * 32 + x). change (zlen [x]) with 1.
    rewrite Z.shiftl_1_l, Z.sub_1_r, <- Z.ones_equiv, Z.land_ones in Hlast by lia.
    replace (32 ^ 1) with (2 ^ (5 - extra) * 2 ^ extra) by (rewrite <- Z.pow_add_r by lia; by replace (5 - extra + extra) with 5 by lia).
    rewrite Z.mul_assoc, Z.add_comm, Z.mod_add by lia. by rewrite Z.mul_0_l. }
  rewrite Z.mul_comm, <- Z_div_exact_full_2 by lia.
  replace k with (length digits) by (unfold n, zlen in *; lia). by apply digits_bval.
Qed.

Lemma unpack_bytes digits : Forall (digit_ok 32) digits -> bytes_ok (fst (ConvertBits 5 8 false digits)).
Proof.
  intros Hd. destruct (convert_result 5 8 ltac:(lia) ltac:(lia) digits Hd) as (acc & E & _).
  unfold ConvertBits. rewrite E. destruct (_ =? 0); cbn [negb andb fst]; by apply digits_be_ok.
Qed.
