(* ===== verification/Compact.v ===== *)
(** The compact encoding of a proof of work target, [src/chain/compact.cpp].
    [uint256_t] is the unchecked 256 bit integer: its arithmetic wraps. *)

From S2P Require Import Prelude Limits.

Definition u256 (v : Z) : Z := wrap 256 v.

Definition exp_byte : Z := 0xff000000.
Definition sign_bit : Z := 0x00800000.
Definition mantissa_max : Z := u32 (Z.lnot (Z.lor exp_byte sign_bit)).
Definition mantissa_bits : Z := (4 - 1) * 8.

Definition is_negated (compact : Z) : bool := negb (Z.land compact sign_bit =? 0).

Definition log_256 (mantissa : Z) : Z :=
  if mantissa >? 0x0000ffff then 3
  else if mantissa >? 0x000000ff then 2
  else if mantissa >? 0x00000000 then 1 else 0.

Definition is_overflow (exponent mantissa : Z) : bool :=
  (mantissa >? 0) && (exponent >? 32 + 3 - log_256 mantissa).

Definition shift_low (exponent : Z) : Z := 8 * (3 - exponent).
Definition shift_high (exponent : Z) : Z := 8 * (exponent - 3).

(** The loop shifts a 256 bit value by a byte: 32 turns clear it. *)
Fixpoint logical_size_loop (fuel : nat) (byte value : Z) : Z :=
  match fuel with
  | O => byte
  | S fuel => if negb (value =? 0) then logical_size_loop fuel (byte + 1) (Z.shiftr value 8) else byte
  end.
Definition logical_size (value : Z) : Z := logical_size_loop 32 0 value.

(** [None] is a return of false, on overflow. *)
Definition from_compact (compact : Z) : option Z :=
  if is_negated compact then Some 0
  else
    let mantissa := Z.land compact mantissa_max in
    let exponent := u8 (Z.shiftr compact mantissa_bits) in
    if exponent <=? 3 then Some (Z.shiftr mantissa (shift_low exponent))
    else if is_overflow exponent mantissa then None
    else Some (u256 (Z.shiftl mantissa (shift_high exponent))).

Definition from_big (big : Z) : Z :=
  let exponent := u8 (logical_size big) in
  let mantissa64 :=
    if exponent <=? 3 then u64 (Z.shiftl (u64 big) (shift_low exponent))
    else u64 (Z.shiftr big (shift_high exponent)) in
  let mantissa := u32 mantissa64 in
  if is_negated mantissa then
    u32 (Z.lor (Z.shiftl (u8 (exponent + 1)) mantissa_bits) (Z.shiftr mantissa 8))
  else u32 (Z.lor (Z.shiftl exponent mantissa_bits) mantissa).

Record compact := mk_compact {
  big : Z;
  normal : Z;
  is_overflowed : bool
}.

(** [compact::compact(uint32_t)]: [big_] is zero after an overflow. *)
Definition compact_of_bits (bits : Z) : compact :=
  match from_compact bits with
  | Some value => mk_compact value (from_big value) false
  | None => mk_compact 0 (from_big 0) true
  end.

(** [compact::compact(const uint256_t&)] *)
Definition compact_of_big (value : Z) : compact := mk_compact value (from_big value) false.

(** ** Arithmetic reading of the encoding *)

Lemma pow_256 k : 0 <= k -> 2 ^ (8 * k) = 256 ^ k.
Proof. intros. rewrite Z.pow_mul_r by lia. reflexivity. Qed.

Lemma pow_256_add a b : 0 <= a -> 0 <= b -> 256 ^ (a + b) = 256 ^ a * 256 ^ b.
Proof. intros. apply Z.pow_add_r; lia. Qed.

Lemma pow_256_pos a : 0 <= a -> 0 < 256 ^ a.
Proof. intros. apply Z.pow_pos_nonneg; lia. Qed.

Lemma pow_256_le a b : 0 <= a <= b -> 256 ^ a <= 256 ^ b.
Proof. intros. apply Z.pow_le_mono_r; lia. Qed.

Lemma wrap_256_high : 2 ^ 256 = 256 ^ 32.
Proof. reflexivity. Qed.

Lemma mantissa_of c : Z.land c mantissa_max = c mod 2 ^ 23.
Proof. change mantissa_max with (Z.ones 23). by apply Z.land_ones. Qed.

Lemma exponent_of c : in_width 32 c -> u8 (Z.shiftr c mantissa_bits) = c / 2 ^ 24.
Proof.
  intros Hc. change mantissa_bits with 24. rewrite Z.shiftr_div_pow2 by lia.
  apply wrap_small. unfold in_width in *. split; [apply Z.div_pos; lia|].
  apply Z.div_lt_upper_bound; lia.
Qed.

Lemma is_negated_testbit c : is_negated c = Z.testbit c 23.
Proof.
  unfold is_negated. change sign_bit with (Z.shiftl 1 23).
  destruct (Z.testbit c 23) eqn:E.
  - apply negb_true_iff, Z.eqb_neq. intros Hz.
    assert (Hb : Z.testbit (Z.land c (Z.shiftl 1 23)) 23 = true) by (rewrite Z.land_spec, E; reflexivity).
    by rewrite Hz, Z.bits_0 in Hb.
  - apply negb_false_iff, Z.eqb_eq. apply Z.bits_inj'. intros i Hi.
    rewrite Z.land_spec, Z.bits_0, Z.shiftl_spec by lia.
    destruct (Z.eq_dec i 23) as [->|Hne]; [by rewrite E|].
    destruct (Z.lt_ge_cases i 23).
    + rewrite (Z.testbit_neg_r 1) by lia. apply andb_false_r.
    + rewrite (Z.bits_above_log2 1 (i - 23)) by (simpl; lia). apply andb_false_r.
Qed.

Lemma is_negated_div c : is_negated c = ((c / 2 ^ 23) mod 2 =? 1).
Proof.
  rewrite is_negated_testbit, <- Z.testbit_spec' by lia. by destruct (Z.testbit c 23).
Qed.

(** A word under 24 bits is negated from 2^23. *)
Lemma is_negated_small m : 0 <= m < 2 ^ 24 -> is_negated m = (2 ^ 23 <=? m).
Proof.
  intros Hm. rewrite is_negated_div. destruct (Z.leb_spec (2 ^ 23) m).
  - assert (m / 2 ^ 23 = 1) as -> by (symmetry; apply Z.div_unique with (m - 2 ^ 23); lia). done.
  - by rewrite Z.div_small by lia.
Qed.

Lemma log_256_spec m :
  0 < m < 2 ^ 24 -> 1 <= log_256 m <= 3 /\ 256 ^ (log_256 m - 1) <= m < 256 ^ log_256 m.
Proof. intros Hm. unfold log_256. repeat case_if; (split; [lia|simpl; lia]). Qed.

(** The overflow test is exact: the shifted mantissa does not fit 256 bits. *)
Lemma is_overflow_exact e m :
  3 < e -> 0 <= m < 2 ^ 23 -> is_overflow e m = (2 ^ 256 <=? m * 256 ^ (e - 3)).
Proof.
  intros He Hm. unfold is_overflow. rewrite wrap_256_high.
  destruct (Z.eq_dec m 0) as [->|Hne]; [by vm_compute|].
  destruct (log_256_spec m) as [Hk [Hlo Hhi]]; [lia|]. set (k := log_256 m) in *.
  rewrite (proj2 (Z.gtb_lt m 0)) by lia. rewrite Z.gtb_ltb. simpl andb.
  pose proof (pow_256_pos (e - 3)) as Hp. destruct (Z.ltb_spec (32 + 3 - k) e).
  - symmetry. apply Z.leb_le. transitivity (256 ^ (k - 1 + (e - 3))).
    + apply pow_256_le. lia.
    + rewrite pow_256_add by lia. nia.
  - symmetry. apply Z.leb_gt. apply Z.lt_le_trans with (256 ^ (k + (e - 3))).
    + rewrite pow_256_add by lia. nia.
    + apply pow_256_le. lia.
Qed.

(** The value the notation denotes: [mantissa * 256^(exponent - 3)]. *)
Definition compact_value (m e : Z) : Z := m * 256 ^ e / 256 ^ 3.

Lemma compact_value_high m e : 3 <= e -> compact_value m e = m * 256 ^ (e - 3).
Proof.
  intros He. unfold compact_value. replace e with (e - 3 + 3) at 1 by lia.
  rewrite pow_256_add, Z.mul_assoc by lia. by apply Z.div_mul.
Qed.

Lemma compact_value_low m e : 0 <= e <= 3 -> compact_value m e = m / 256 ^ (3 - e).
Proof.
  intros He. unfold compact_value. replace 3 with (3 - e + e) at 1 by lia.
  rewrite pow_256_add by lia. apply Z.div_mul_cancel_r; apply Z.neq_sym, Z.lt_neq, pow_256_pos; lia.
Qed.

Lemma from_compact_value c :
  in_width 32 c ->
  from_compact c =
    if is_negated c then Some 0
    else let v := compact_value (c mod 2 ^ 23) (c / 2 ^ 24) in
         if v <? 2 ^ 256 then Some v else None.
Proof.
  intros Hc. unfold from_compact. destruct (is_negated c); [done|].
  rewrite mantissa_of, exponent_of by done. cbv zeta.
  assert (Hm : 0 <= c mod 2 ^ 23 < 2 ^ 23) by (apply Z.mod_pos_bound; lia).
  assert (He : 0 <= c / 2 ^ 24) by (apply Z.div_pos; unfold in_width in Hc; lia).
  set (m := c mod 2 ^ 23) in *. set (e := c / 2 ^ 24) in *.
  destruct (Z.leb_spec e 3).
  - rewrite compact_value_low by lia. unfold shift_low.
    rewrite Z.shiftr_div_pow2, pow_256 by lia. pose proof (pow_256_pos (3 - e)).
    rewrite (proj2 (Z.ltb_lt _ _)); [done|].
    apply Z.le_lt_trans with m; [apply Z.div_le_upper_bound; nia|].
    apply Z.lt_trans with (2 ^ 23); [lia|by vm_compute].
  - rewrite compact_value_high by lia. rewrite is_overflow_exact by lia.
    rewrite Z.leb_antisym. unfold shift_high. rewrite Z.shiftl_mul_pow2, pow_256 by lia.
    pose proof (pow_256_pos (e - 3)). destruct (Z.ltb_spec (m * 256 ^ (e - 3)) (2 ^ 256)); [|done].
    simpl. f_equal. apply wrap_small. unfold in_width. nia.
Qed.

(** ** The size in bytes *)

Lemma logical_size_loop_spec fuel byte v :
  0 <= v < 256 ^ Z.of_nat fuel ->
  exists n, logical_size_loop fuel byte v = byte + n /\ 0 <= n <= Z.of_nat fuel /\
    v < 256 ^ n /\ (v = 0 /\ n = 0 \/ 1 <= n /\ 256 ^ (n - 1) <= v).
Proof.
  revert byte v. induction fuel as [|fuel IH]; intros byte v Hv.
  { exists 0. change (256 ^ Z.of_nat 0) with 1 in Hv. simpl. lia. }
  cbn [logical_size_loop]. destruct (Z.eqb_spec v 0) as [->|Hne]; simpl negb.
  { exists 0. simpl. lia. }
  rewrite Z.shiftr_div_pow2 by lia. change (2 ^ 8) with 256.
  rewrite Nat2Z.inj_succ, Z.pow_succ_r in Hv by lia.
  destruct (IH (byte + 1) (v / 256)) as (n & -> & Hn & Hlt & Hge).
  { split; [apply Z.div_pos; lia|]. apply Z.div_lt_upper_bound; lia. }
  exists (n + 1). split; [lia|]. split; [lia|].
  pose proof (Z.div_mod v 256 ltac:(lia)). pose proof (Z.mod_pos_bound v 256 ltac:(lia)).
  split; [rewrite pow_256_add by lia; change (256 ^ 1) with 256; lia|].
  right. split; [lia|]. replace (n + 1 - 1) with n by lia.
  destruct Hge as [[E ->]|[Hn1 Hge]]; [simpl; lia|].
  replace n with (n - 1 + 1) by lia. rewrite pow_256_add by lia. change (256 ^ 1) with 256. lia.
Qed.

Lemma logical_size_spec v :
  in_width 256 v ->
  0 <= logical_size v <= 32 /\ v < 256 ^ logical_size v /\
  (v = 0 /\ logical_size v = 0 \/ 1 <= logical_size v /\ 256 ^ (logical_size v - 1) <= v).
Proof.
  intros Hv. destruct (logical_size_loop_spec 32 0 v Hv) as (n & E & Hn & H).
  unfold logical_size. rewrite E. by replace (0 + n) with n by lia.
Qed.

Lemma logical_size_unique v n :
  in_width 256 v -> 1 <= n -> 256 ^ (n - 1) <= v < 256 ^ n -> logical_size v = n.
Proof.
  intros Hv Hn [Hlo Hhi]. destruct (logical_size_spec v Hv) as (Hb & Hlt & Hor).
  pose proof (pow_256_pos (n - 1)). destruct Hor as [[-> _]|[H1 Hge]]; [lia|].
  destruct (Z.lt_trichotomy (logical_size v) n) as [L|[E|G]]; [|done|].
  - pose proof (pow_256_le (logical_size v) (n - 1)). lia.
  - pose proof (pow_256_le n (logical_size v - 1)). lia.
Qed.

(** The leading 24 bits of a value of [n] bytes. *)
Definition leading (v n : Z) : Z := v * 256 ^ 3 / 256 ^ n.

Lemma leading_high v n : 3 <= n -> leading v n = v / 256 ^ (n - 3).
Proof.
  intros Hn. unfold leading. replace n with (n - 3 + 3) at 1 by lia. rewrite pow_256_add by lia.
  apply Z.div_mul_cancel_r; apply Z.neq_sym, Z.lt_neq, pow_256_pos; lia.
Qed.

Lemma leading_low v n : 0 <= n <= 3 -> leading v n = v * 256 ^ (3 - n).
Proof.
  intros Hn. unfold leading. replace 3 with (3 - n + n) at 1 by lia. rewrite pow_256_add by lia.
  rewrite Z.mul_assoc. apply Z.div_mul, Z.neq_sym, Z.lt_neq, pow_256_pos. lia.
Qed.

Lemma leading_succ v n : 0 <= n -> leading v (n + 1) = leading v n / 256.
Proof.
  intros Hn. unfold leading. rewrite pow_256_add by lia.
  rewrite Z.div_div; [done| |lia]. apply Z.neq_sym, Z.lt_neq, pow_256_pos. lia.
Qed.

Lemma leading_bound v n :
  1 <= n -> 256 ^ (n - 1) <= v < 256 ^ n -> 2 ^ 16 <= leading v n < 2 ^ 24.
Proof.
  intros Hn [Hlo Hhi]. unfold leading. pose proof (pow_256_pos n).
  change (2 ^ 16) with (256 ^ 2). change (2 ^ 24) with (256 ^ 3). split.
  - apply Z.div_le_lower_bound; [lia|].
    replace (256 ^ n) with (256 ^ (n - 1) * 256); [nia|].
    replace n with (n - 1 + 1) at 2 by lia. rewrite pow_256_add by lia. done.
  - apply Z.div_lt_upper_bound; nia.
Qed.

(** The assembled word. *)
Lemma assemble e m :
  0 <= e < 256 -> 0 <= m < 2 ^ 24 ->
  u32 (Z.lor (Z.shiftl e mantissa_bits) m) = e * 2 ^ 24 + m.
Proof.
  intros He Hm. change mantissa_bits with 24. rewrite Z.lor_comm, lor_shiftl_add by lia.
  unfold u32. rewrite wrap_small; unfold in_width; lia.
Qed.

(** [from_big] writes the size and the leading digits, with one more byte of
    exponent where the digits would read as a sign. *)
Lemma from_big_value v :
  in_width 256 v ->
  let n := logical_size v in
  from_big v = if 2 ^ 23 <=? leading v n then (n + 1) * 2 ^ 24 + leading v (n + 1)
               else n * 2 ^ 24 + leading v n.
Proof.
  intros Hv n. destruct (logical_size_spec v Hv) as (Hn & Hlt & Hor). fold n in Hn, Hlt, Hor.
  assert (Hl : 0 <= leading v n < 2 ^ 24).
  { destruct Hor as [[-> ->]|[Hn1 Hge]]; [by vm_compute|].
    pose proof (leading_bound v n Hn1 (conj Hge Hlt)). lia. }
  unfold from_big. fold n. assert (Hn8 : u8 n = n) by (apply wrap_small; unfold in_width; lia).
  rewrite Hn8. unfold in_width in Hv.
  assert (Hm : u32 (if n <=? 3 then u64 (Z.shiftl (u64 v) (shift_low n))
                    else u64 (Z.shiftr v (shift_high n))) = leading v n).
  { unfold u32, u64, shift_low, shift_high. destruct (Z.leb_spec n 3).
    - pose proof (pow_256_le n 3 ltac:(lia)) as Hp. change (256 ^ 3) with (2 ^ 24) in Hp.
      rewrite (wrap_small 64 v) by (unfold in_width; lia).
      rewrite Z.shiftl_mul_pow2, pow_256, <- leading_low by lia.
      rewrite !wrap_small by (unfold in_width; lia || (rewrite wrap_small; unfold in_width; lia)). done.
    - rewrite Z.shiftr_div_pow2, pow_256, <- leading_high by lia.
      rewrite !wrap_small by (unfold in_width; lia || (rewrite wrap_small; unfold in_width; lia)). done. }
  rewrite Hm. rewrite is_negated_small by done. destruct (Z.leb_spec (2 ^ 23) (leading v n)).
  - assert (Hn9 : u8 (n + 1) = n + 1) by (apply wrap_small; unfold in_width; lia).
    rewrite Hn9, Z.shiftr_div_pow2 by lia. change (2 ^ 8) with 256. rewrite <- leading_succ by lia.
    apply assemble; [lia|]. rewrite leading_succ by lia.
    split; [apply Z.div_pos; lia|apply Z.div_lt_upper_bound; lia].
  - apply assemble; lia.
Qed.

(** Exponent and mantissa of the word [from_big] assembles. *)
Definition normal_exponent (v : Z) : Z :=
  let n := logical_size v in if 2 ^ 23 <=? leading v n then n + 1 else n.

Lemma from_big_normal v :
  in_width 256 v ->
  let e := normal_exponent v in
  from_big v = e * 2 ^ 24 + leading v e /\ 0 <= e <= 33 /\ 0 <= leading v e < 2 ^ 23.
Proof.
  intros Hv e. pose proof (from_big_value v Hv) as Hf. cbv zeta in Hf.
  destruct (logical_size_spec v Hv) as (Hn & Hlt & Hor).
  unfold e, normal_exponent. destruct (Z.leb_spec (2 ^ 23) (leading v (logical_size v))).
  - rewrite leading_succ in * by lia. split; [done|]. split; [lia|].
    destruct Hor as [[-> E]|[Hn1 Hge]]; [by rewrite E in *|].
    pose proof (leading_bound v _ Hn1 (conj Hge Hlt)).
    split; [apply Z.div_pos; lia|apply Z.div_lt_upper_bound; lia].
  - split; [done|]. split; [lia|]. split; [|done].
    unfold leading. unfold in_width in Hv. pose proof (pow_256_pos (logical_size v)).
    apply Z.div_pos; lia.
Qed.

Lemma from_big_width v : in_width 256 v -> in_width 32 (from_big v).
Proof.
  intros Hv. destruct (from_big_normal v Hv) as (-> & He & Hm). unfold in_width. lia.
Qed.

(** What the encoding keeps of a value: all but the digits below the mantissa. *)
Definition truncated (v : Z) : Z := compact_value (leading v (normal_exponent v)) (normal_exponent v).

Lemma truncated_spec v :
  in_width 256 v ->
  truncated v <= v < truncated v + 256 ^ Z.max 0 (normal_exponent v - 3) /\
  leading (truncated v) (normal_exponent v) = leading v (normal_exponent v).
Proof.
  intros Hv. destruct (from_big_normal v Hv) as (_ & He & Hm). unfold truncated.
  set (e := normal_exponent v) in *. destruct (Z.le_gt_cases 3 e) as [H|H].
  - rewrite compact_value_high, !leading_high, Z.max_r by lia.
    pose proof (pow_256_pos (e - 3)). rewrite Z.div_mul by lia. split; [|done].
    pose proof (Z.div_mod v (256 ^ (e - 3)) ltac:(lia)).
    pose proof (Z.mod_pos_bound v (256 ^ (e - 3)) ltac:(lia)). lia.
  - rewrite compact_value_low, !leading_low, Z.max_l by lia.
    pose proof (pow_256_pos (3 - e)). rewrite Z.div_mul by lia. simpl. split; [lia|done].
Qed.

Lemma from_compact_from_big v :
  in_width 256 v -> from_compact (from_big v) = Some (truncated v).
Proof.
  intros Hv. rewrite from_compact_value by (by apply from_big_width).
  destruct (from_big_normal v Hv) as (-> & He & Hm). unfold truncated.
  set (e := normal_exponent v) in *. set (m := leading v e) in *.
  assert (Hd : (e * 2 ^ 24 + m) / 2 ^ 24 = e).
  { symmetry. apply Z.div_unique with m; lia. }
  assert (Hr : (e * 2 ^ 24 + m) mod 2 ^ 23 = m).
  { symmetry. apply Z.mod_unique with (e * 2); lia. }
  assert (Hneg : is_negated (e * 2 ^ 24 + m) = false).
  { rewrite is_negated_div. replace ((e * 2 ^ 24 + m) / 2 ^ 23) with (e * 2).
    - by rewrite Z.mod_mul by lia.
    - apply Z.div_unique with m; lia. }
  rewrite Hneg, Hd, Hr. cbv zeta. rewrite (proj2 (Z.ltb_lt _ _)); [done|].
  pose proof (truncated_spec v Hv) as [[Hle _] _]. unfold in_width in Hv.
  unfold truncated in Hle. fold e m in Hle. lia.
Qed.

Lemma truncated_nonneg v : in_width 256 v -> 0 <= truncated v.
Proof.
  intros Hv. destruct (from_big_normal v Hv) as (_ & He & Hm). unfold truncated, compact_value.
  pose proof (pow_256_pos (normal_exponent v)). apply Z.div_pos; [nia|lia].
Qed.

Lemma truncated_width v : in_width 256 v -> in_width 256 (truncated v).
Proof.
  intros Hv. pose proof (truncated_nonneg v Hv). destruct (truncated_spec v Hv) as [[Hle _] _].
  unfold in_width in *. lia.
Qed.

(** Truncation keeps the size, so the encoding is a normal form. *)
Lemma logical_size_truncated v : in_width 256 v -> logical_size (truncated v) = logical_size v.
Proof.
  intros Hv. destruct (logical_size_spec v Hv) as (Hn & Hlt & Hor).
  destruct (truncated_spec v Hv) as [[Hle Hgt] Hlead].
  destruct Hor as [[-> _]|[Hn1 Hge]]; [reflexivity|].
  apply logical_size_unique; [by apply truncated_width|done|]. split; [|lia].
  destruct (Z.le_gt_cases (normal_exponent v) 3) as [H|H].
  { rewrite Z.max_l in Hgt by lia. change (256 ^ 0) with 1 in Hgt. lia. }
  (* the kept digits are a multiple of a power that divides 256^(n-1) *)
  unfold truncated. rewrite compact_value_high, leading_high by lia.
  assert (He : normal_exponent v - 3 <= logical_size v - 1)
    by (unfold normal_exponent; case_if; lia).
  set (k := normal_exponent v - 3) in *. pose proof (pow_256_pos k ltac:(lia)).
  replace (logical_size v - 1) with (logical_size v - 1 - k + k) in * by lia.
  rewrite pow_256_add in * by lia. apply Z.mul_le_mono_nonneg_r; [lia|].
  apply Z.div_le_lower_bound; lia.
Qed.

Lemma from_big_truncated v : in_width 256 v -> from_big (truncated v) = from_big v.
Proof.
  intros Hv. pose proof (truncated_width v Hv) as Ht.
  assert (Hne : normal_exponent (truncated v) = normal_exponent v).
  { destruct (truncated_spec v Hv) as [_ Hlead]. unfold normal_exponent in *.
    rewrite logical_size_truncated by done. set (n := logical_size v) in *.
    pose proof (logical_size_spec v Hv) as [Hn _]. fold n in Hn.
    destruct (Z.leb_spec (2 ^ 23) (leading v n)) as [H|H].
    - rewrite !leading_succ in Hlead by lia.
      destruct (Z.leb_spec (2 ^ 23) (leading (truncated v) n)) as [H'|H']; [done|].
      pose proof (Z.div_le_lower_bound (leading v n) 256 (2 ^ 15) ltac:(lia) ltac:(lia)).
      pose proof (Z.div_lt_upper_bound (leading (truncated v) n) 256 (2 ^ 15) ltac:(lia) ltac:(lia)). lia.
    - rewrite Hlead. destruct (Z.leb_spec (2 ^ 23) (leading v n)); [lia|done]. }
  destruct (from_big_normal v Hv) as (-> & _ & _).
  destruct (from_big_normal _ Ht) as (-> & _ & _). rewrite Hne.
  by destruct (truncated_spec v Hv) as [_ ->].
Qed.

(** The constructor from bits yields the mantissa scaled by the exponent,
    rounded down, zero for the sign bit, and overflows exactly when that value
    does not fit 256 bits. *)
Lemma compact_of_bits_exact bits :
  in_width 32 bits ->
  let value := if is_negated bits then 0 else compact_value (bits mod 2 ^ 23) (bits / 2 ^ 24) in
  is_overflowed (compact_of_bits bits) = (2 ^ 256 <=? value) /\
  big (compact_of_bits bits) = (if 2 ^ 256 <=? value then 0 else value).
Proof.
  intros Hb value. unfold compact_of_bits. rewrite from_compact_value by done.
  subst value. destruct (is_negated bits); [done|]. cbv zeta.
  set (v := compact_value _ _). rewrite (Z.leb_antisym v). by destruct (v <? 2 ^ 256).
Qed.

(** The normal form of a 256 bit number is a fixed point of the two
    constructors, and stands for the number with all but its leading digits in
    base 256 cleared: the error is below one unit of the last digit kept. *)
Lemma compact_normal_form v :
  in_width 256 v ->
  let c := compact_of_bits (normal (compact_of_big v)) in
  is_overflowed c = false /\ normal c = normal (compact_of_big v) /\
  big c <= v < big c + 256 ^ Z.max 0 (normal_exponent v - 3).
Proof.
  intros Hv. unfold compact_of_bits, compact_of_big. cbn [normal].
  rewrite from_compact_from_big by done. cbn [is_overflowed normal big].
  split_and!; [done|by apply from_big_truncated|apply truncated_spec..]; done.
Qed.

(** C24: The constructor from bits yields the mantissa scaled by the exponent,
    rounded down, zero for the sign bit, and overflows exactly when that value
    does not fit 256 bits; the normal form of a 256 bit number is a fixed
    point of the two constructors, and stands for the number with all but its
    leading digits in base 256 cleared. *)
Theorem compact_forms bits v :
  in_width 32 bits -> in_width 256 v ->
  (let value := if is_negated bits then 0 else compact_value (bits mod 2 ^ 23) (bits / 2 ^ 24) in
   is_overflowed (compact_of_bits bits) = (2 ^ 256 <=? value) /\
   big (compact_of_bits bits) = (if 2 ^ 256 <=? value then 0 else value)) /\
  (let c := compact_of_bits (normal (compact_of_big v)) in
   is_overflowed c = false /\ normal c = normal (compact_of_big v) /\
   big c <= v < big c + 256 ^ Z.max 0 (normal_exponent v - 3)).
Proof. intros Hb Hv. split; [by apply compact_of_bits_exact|by apply compact_normal_form]. Qed.
