(* ===== verification/Data.v ===== *)
(** The byte array helpers of
    [include/bitcoin/bitcoin/impl/utility/data.ipp]. A [byte_array<Size>] is a
    list of [Size] bytes; an array that the code declares without an initial
    value is an argument. *)

From S2P Require Import Prelude.

Definition build_chunk (slices : list (list Z)) : list Z := concat slices.

(** The slices in order at the front of [out], if they fit. *)
Definition build_array (out : list Z) (slices : list (list Z)) : list Z * bool :=
  let size := length (concat slices) in
  if decide (length out < size)%nat then (out, false)
  else ((fold_left (fun '(position, out) slice =>
                     ((position + length slice)%nat,
                      take position out ++ slice ++ drop (position + length slice) out))
          slices (0%nat, out)).2,
       true).

(** [slice<Start, End>] *)
Definition slice (first last : nat) (bytes : list Z) : list Z :=
  take (last - first) (drop first bytes).

Definition splice (left right : list Z) : list Z :=
  fst (build_array (repeat 0 (length left + length right)) [left; right]).

Definition splice_three (left middle right : list Z) : list Z :=
  fst (build_array (repeat 0 (length left + length middle + length right)) [left; middle; right]).

Definition split (bytes : list Z) : list Z * list Z :=
  let half := (length bytes / 2)%nat in
  (take half bytes, take half (drop half bytes)).

(** [starts_with(begin, end, value)], the range as a list. *)
Definition starts_with (range value : list Z) : bool :=
  (zlen range >=? zlen value) && bool_decide (take (length value) range = value).

(** [xor_data<Size>(bytes1, bytes2, offset1, offset2)] *)
Definition xor_data (size : nat) (bytes1 bytes2 : list Z) (offset1 offset2 : nat) : list Z :=
  zip_with Z.lxor (take size (drop offset1 bytes1)) (take size (drop offset2 bytes2)).

(** ** Arrays that the slices fill *)

Lemma build_array_loop (out : list Z) (slices : list (list Z)) (pre : list Z) :
  (length pre + length (concat slices) <= length out)%nat -> take (length pre) out = pre ->
  (fold_left (fun '(position, out) slice =>
                ((position + length slice)%nat,
                 take position out ++ slice ++ drop (position + length slice) out))
     slices (length pre, out)).2 =
  pre ++ concat slices ++ drop (length pre + length (concat slices)) out.
Proof.
  revert out pre. induction slices as [|s slices IH]; intros out pre Hlen Hpre; cbn [fold_left concat].
  { simpl. rewrite Nat.add_0_r. rewrite <- Hpre at 1. by rewrite take_drop. }
  cbn [concat] in Hlen. rewrite length_app in Hlen. rewrite Hpre, <- length_app.
  rewrite IH.
  - rewrite length_app, <- !app_assoc. do 3 f_equal.
    rewrite drop_app_ge, drop_app_ge, drop_drop by lia. f_equal. rewrite length_app. lia.
  - rewrite !length_app, length_drop. lia.
  - rewrite app_assoc. by rewrite take_app_length.
Qed.

Lemma build_array_fits out slices :
  (length (concat slices) <= length out)%nat ->
  build_array out slices = (concat slices ++ drop (length (concat slices)) out, true).
Proof.
  intros Hlen. unfold build_array. rewrite decide_False by lia. f_equal.
  by apply (build_array_loop out slices []).
Qed.

Lemma build_array_exact out slices :
  length (concat slices) = length out -> build_array out slices = (concat slices, true).
Proof.
  intros E. rewrite build_array_fits by lia. by rewrite drop_ge, app_nil_r by lia.
Qed.

Lemma splice_app left right : splice left right = left ++ right.
Proof.
  unfold splice. rewrite build_array_exact; simpl; [by rewrite app_nil_r|].
  by rewrite repeat_length, app_nil_r, length_app.
Qed.

(** Splitting undoes splicing of halves. *)
Lemma split_splice left right :
  length left = length right -> split (splice left right) = (left, right).
Proof.
  intros E. rewrite splice_app. unfold split. rewrite length_app, E.
  replace ((length right + length right) / 2)%nat with (length left)
    by (rewrite E; apply Nat.div_unique with 0%nat; lia).
  rewrite take_app_length, drop_app_length. by rewrite E, take_ge by lia.
Qed.

Lemma starts_with_app value rest : starts_with (value ++ rest) value = true.
Proof.
  unfold starts_with. rewrite zlen_app, take_app_length. apply andb_true_iff.
  split; [pose proof (zlen_nonneg rest); lia|by apply bool_decide_eq_true].
Qed.

Lemma starts_with_spec range value :
  starts_with range value = true <-> exists rest, range = value ++ rest.
Proof.
  split.
  - intros E. unfold starts_with in E. bool_to_prop. apply bool_decide_eq_true in H0.
    exists (drop (length value) range). rewrite <- H0 at 1. by rewrite take_drop.
  - intros [rest ->]. apply starts_with_app.
Qed.

(** Masking twice with the same bytes restores them. *)
Lemma xor_data_involutive size a b :
  length a = size -> length b = size ->
  xor_data size (xor_data size a b 0 0) b 0 0 = a.
Proof.
  unfold xor_data. rewrite !drop_0. intros Ha Hb. subst size.
  rewrite (take_ge b), (take_ge a) by lia. rewrite take_ge by (rewrite length_zip_with; lia).
  revert b Hb. induction a as [|x a IH]; intros [|y b] Hb; simpl in *; try done.
  rewrite IH by lia. by rewrite Z.lxor_assoc, Z.lxor_nilpotent, Z.lxor_0_r.
Qed.
