(* ===== verification/Header.v ===== *)
(** The block header of [src/chain/header.cpp] and the hash functions it uses.
    The digests themselves ([src/math/external]) are parameters: nothing below
    depends on more than their size. *)

From S2P Require Import Prelude Limits Endian Reader Writer Codes Compact.

(** The hash functions of [src/math/hash.cpp] whose bodies are the vendored C
    digests. *)
Class Crypto := {
  sha256_hash : list Z -> list Z;
  ripemd160_hash : list Z -> list Z;
  sha1_hash : list Z -> list Z;
  scrypt_hash : list Z -> list Z
}.

Definition bitcoin_hash `{Crypto} (data : list Z) : list Z := sha256_hash (sha256_hash data).
Definition bitcoin_short_hash `{Crypto} (data : list Z) : list Z := ripemd160_hash (sha256_hash data).
Definition litecoin_hash `{Crypto} (data : list Z) : list Z := scrypt_hash data.

(** [to_uint256] *)
Definition to_uint256 (hash : list Z) : Z := from_little_endian hash_size hash.

Record header := mk_header {
  hd_version : Z;
  previous_block_hash : list Z;
  merkle : list Z;
  hd_timestamp : Z;
  hd_bits : Z;
  nonce : Z;
  hd_hash_ : option (list Z);
  hd_height : Z;
  hd_median_time_past : Z
}.

(** [header::header(version, previous_block_hash, merkle, ...)] *)
Definition new_header (version : Z) (previous merkle : list Z) (timestamp bits nonce : Z) : header :=
  mk_header version previous merkle timestamp bits nonce None 0 0.

Definition default_header : header := new_header 0 null_hash null_hash 0 0 0.

(** The copy constructor takes the validation data and no cached hash. *)
Definition copy_header (h : header) : header :=
  mk_header (hd_version h) (previous_block_hash h) (merkle h) (hd_timestamp h) (hd_bits h) (nonce h)
    None (hd_height h) (hd_median_time_past h).

(** [header::operator=]: the hash cached by the target is not invalidated. *)
Definition assign_header (self other : header) : header :=
  mk_header (hd_version other) (previous_block_hash other) (merkle other) (hd_timestamp other)
    (hd_bits other) (nonce other) (hd_hash_ self) (hd_height other) (hd_median_time_past other).

Definition header_eqb (a b : header) : bool :=
  (hd_version a =? hd_version b) && bool_decide (previous_block_hash a = previous_block_hash b) &&
  bool_decide (merkle a = merkle b) && (hd_timestamp a =? hd_timestamp b) &&
  (hd_bits a =? hd_bits b) && (nonce a =? nonce b).

(** [header::reset] keeps the validation data. *)
Definition reset_header (h : header) : header :=
  mk_header 0 null_hash null_hash 0 0 0 None (hd_height h) (hd_median_time_past h).

Definition header_is_valid (h : header) : bool :=
  negb (hd_version h =? 0) || negb (bool_decide (previous_block_hash h = null_hash)) ||
  negb (bool_decide (merkle h = null_hash)) || negb (hd_timestamp h =? 0) ||
  negb (hd_bits h =? 0) || negb (nonce h =? 0).

Definition header_to_data (wire : bool) (h : header) : list Z :=
  write_4_bytes_little_endian (hd_version h) ++
  write_hash (previous_block_hash h) ++
  write_hash (merkle h) ++
  write_4_bytes_little_endian (hd_timestamp h) ++
  write_4_bytes_little_endian (hd_bits h) ++
  write_4_bytes_little_endian (nonce h) ++
  (if wire then [] else write_4_bytes_little_endian (hd_median_time_past h)).

Definition header_fixed_size : Z := 4 + 32 + 32 + 4 + 4 + 4.
Definition header_serialized_size (wire : bool) : Z := header_fixed_size + (if wire then 0 else 4).

(** The setters assign a field and invalidate the cached hash. *)
Definition header_set_version (v : Z) (h : header) : header :=
  mk_header v (previous_block_hash h) (merkle h) (hd_timestamp h) (hd_bits h) (nonce h) None
    (hd_height h) (hd_median_time_past h).
Definition header_set_previous_block_hash (v : list Z) (h : header) : header :=
  mk_header (hd_version h) v (merkle h) (hd_timestamp h) (hd_bits h) (nonce h) None
    (hd_height h) (hd_median_time_past h).
Definition header_set_merkle (v : list Z) (h : header) : header :=
  mk_header (hd_version h) (previous_block_hash h) v (hd_timestamp h) (hd_bits h) (nonce h) None
    (hd_height h) (hd_median_time_past h).
Definition header_set_timestamp (v : Z) (h : header) : header :=
  mk_header (hd_version h) (previous_block_hash h) (merkle h) v (hd_bits h) (nonce h) None
    (hd_height h) (hd_median_time_past h).
Definition header_set_bits (v : Z) (h : header) : header :=
  mk_header (hd_version h) (previous_block_hash h) (merkle h) (hd_timestamp h) v (nonce h) None
    (hd_height h) (hd_median_time_past h).
Definition header_set_nonce (v : Z) (h : header) : header :=
  mk_header (hd_version h) (previous_block_hash h) (merkle h) (hd_timestamp h) (hd_bits h) v None
    (hd_height h) (hd_median_time_past h).

(** Writing through the non-const [previous_block_hash()] and [merkle()]: the
    cached hash is kept. *)
Definition write_to_previous_block_hash (f : list Z -> list Z) (h : header) : header :=
  mk_header (hd_version h) (f (previous_block_hash h)) (merkle h) (hd_timestamp h) (hd_bits h) (nonce h)
    (hd_hash_ h) (hd_height h) (hd_median_time_past h).
Definition write_to_merkle (f : list Z -> list Z) (h : header) : header :=
  mk_header (hd_version h) (previous_block_hash h) (f (merkle h)) (hd_timestamp h) (hd_bits h) (nonce h)
    (hd_hash_ h) (hd_height h) (hd_median_time_past h).

Section Decode.
Context {R : Type} `{Reader R}.

(** The cached hash of [self] is dropped by the reset only. *)
Definition header_from_data (wire : bool) (self : header) : rd R (header * bool) :=
  version <~ read_4_bytes_little_endian ;;
  previous <~ read_hash ;;
  merkle <~ read_hash ;;
  timestamp <~ read_4_bytes_little_endian ;;
  bits <~ read_4_bytes_little_endian ;;
  nonce <~ read_4_bytes_little_endian ;;
  mtp <~ (if wire then rret (hd_median_time_past self) else read_4_bytes_little_endian) ;;
  let h := mk_header version previous merkle timestamp bits nonce (hd_hash_ self)
             (hd_height self) mtp in
  rd_check h (reset_header h).
End Decode.

Section Header.
Context `{Crypto} `{Currency}.

(** [header::hash] caches what it computes. *)
Definition header_hash (h : header) : list Z * header :=
  match hd_hash_ h with
  | Some hash => (hash, h)
  | None =>
      let hash := bitcoin_hash (header_to_data true h) in
      (hash, mk_header (hd_version h) (previous_block_hash h) (merkle h) (hd_timestamp h)
               (hd_bits h) (nonce h) (Some hash) (hd_height h) (hd_median_time_past h))
  end.

Definition litecoin_proof_of_work_hash (h : header) : list Z :=
  litecoin_hash (header_to_data true h).

(** [~target] is the complement at 256 bits, the additions wrap. *)
Definition header_proof (bits : Z) : Z :=
  let header_bits := compact_of_bits bits in
  if is_overflowed header_bits then 0
  else
    let target := big header_bits in
    let divisor := u256 (target + 1) in
    if divisor =? 0 then 0 else u256 (u256 (Z.lnot target) / divisor + 1).

Definition retarget_proof_of_work_limit : Z := if is_ltc then 0x1e0fffff else 0x1d00ffff.
Definition no_retarget_proof_of_work_limit : Z := 0x207fffff.
Definition work_limit (retarget : bool) : Z :=
  if retarget then retarget_proof_of_work_limit else no_retarget_proof_of_work_limit.

(** [pow_limit] is a function-local static: it keeps the limit of the first
    call. [static_limit] is its state, [None] before the first call. *)
Definition is_valid_proof_of_work (static_limit : option Z) (retarget : bool) (h : header)
    : bool * option Z :=
  let bits := compact_of_bits (hd_bits h) in
  let pow_limit := match static_limit with
                   | Some limit => limit
                   | None => big (compact_of_bits (work_limit retarget))
                   end in
  (if is_overflowed bits then false
   else
     let target := big bits in
     if (target <? 1) || (target >? pow_limit) then false
     else if is_ltc then to_uint256 (litecoin_proof_of_work_hash h) <=? target
     else to_uint256 (fst (header_hash h)) <=? target,
   Some pow_limit).

Definition timestamp_future_seconds : Z := 2 * 60 * 60.

(** [now] is [wall_clock::now()] in seconds. *)
Definition is_valid_timestamp (now : Z) (h : header) : bool :=
  hd_timestamp h <=? now + timestamp_future_seconds.

Definition header_check (static_limit : option Z) (now : Z) (retarget : bool) (h : header)
    : error.code :=
  if negb (fst (is_valid_proof_of_work static_limit retarget h)) then error.invalid_proof_of_work
  else if negb (is_valid_timestamp now h) then error.futuristic_timestamp
  else error.success.
End Header.

(** ** Codec *)

Definition header_wf (h : header) : Prop :=
  in_width 32 (hd_version h) /\ length (previous_block_hash h) = hash_size /\
  length (merkle h) = hash_size /\ in_width 32 (hd_timestamp h) /\ in_width 32 (hd_bits h) /\
  in_width 32 (nonce h) /\ in_width 32 (hd_median_time_past h).

Lemma header_reads {R} `{ReaderLaws R} wire h self :
  header_wf h ->
  reads (header_from_data wire self) (header_to_data wire h)
    (mk_header (hd_version h) (previous_block_hash h) (merkle h) (hd_timestamp h) (hd_bits h)
       (nonce h) (hd_hash_ self) (hd_height self)
       (if wire then hd_median_time_past self else hd_median_time_past h), true).
Proof.
  intros (Hv & Hp & Hm & Ht & Hb & Hn & Hmt). unfold header_from_data, header_to_data, write_hash.
  eapply reads_bind; [by apply reads_le|].
  do 2 (eapply reads_bind; [by apply reads_forward|]).
  do 3 (eapply reads_bind; [by apply reads_le|]).
  destruct wire; (eapply reads_bind_nil; [|apply reads_check]); [apply reads_ret|by apply reads_le].
Qed.

Lemma zlen_header_to_data wire h :
  header_wf h -> zlen (header_to_data wire h) = header_serialized_size wire.
Proof.
  intros (_ & Hp & Hm & _). unfold header_to_data, write_hash, zlen.
  rewrite !length_app, Hp, Hm. by destruct wire.
Qed.

(** ** The cached hash *)

Definition header_coherent `{Crypto} (h : header) : Prop :=
  hd_hash_ h = None \/ hd_hash_ h = Some (bitcoin_hash (header_to_data true h)).

Lemma header_hash_coherent `{Crypto} h :
  header_coherent h ->
  fst (header_hash h) = bitcoin_hash (header_to_data true h) /\ header_coherent (snd (header_hash h)).
Proof.
  intros Hc. unfold header_hash, header_coherent in *.
  destruct Hc as [E|E]; rewrite E; simpl; rewrite ?E; auto.
Qed.

(** ** Work *)

Lemma from_compact_width bits v : in_width 32 bits -> from_compact bits = Some v -> in_width 256 v.
Proof.
  intros Hb Hf. rewrite from_compact_value in Hf by done. case_if_in Hf; simplify_eq; [by vm_compute|].
  cbv zeta in Hf. case_if_in Hf; simplify_eq. split; [|done]. unfold compact_value.
  apply Z.div_pos; [|lia]. apply Z.mul_nonneg_nonneg; [apply Z.mod_pos_bound; lia|].
  apply Z.pow_nonneg. lia.
Qed.

Lemma compact_of_bits_width bits : in_width 32 bits -> in_width 256 (big (compact_of_bits bits)).
Proof.
  intros Hb. unfold compact_of_bits. destruct (from_compact bits) eqn:E; simpl.
  - by eapply from_compact_width.
  - by vm_compute.
Qed.

(** The division the code rearranges to stay within 256 bits. *)
Lemma work_division t : 0 <= t -> (2 ^ 256 - 1 - t) / (t + 1) + 1 = 2 ^ 256 / (t + 1).
Proof.
  intros Ht. replace (2 ^ 256) with (2 ^ 256 - 1 - t + 1 * (t + 1)) at 2 by lia.
  by rewrite Z.div_add by lia.
Qed.

Lemma lnot_complement t : in_width 256 t -> u256 (Z.lnot t) = 2 ^ 256 - 1 - t.
Proof.
  unfold in_width. intros Ht. unfold u256, wrap, Z.lnot.
  symmetry. apply Z.mod_unique with (-1); lia.
Qed.

(** The proof of some bits, computed in 256 bit arithmetic without the
    257 bit dividend, is 2^256 divided by the target plus one; it is zero for
    an overflowing or zero target, and for the largest target, whose successor
    wraps. *)
Lemma header_proof_value bits :
  in_width 32 bits ->
  header_proof bits =
    match from_compact bits with
    | Some target => if target =? 0 then 0 else if target =? 2 ^ 256 - 1 then 0
                     else 2 ^ 256 / (target + 1)
    | None => 0
    end.
Proof.
  intros Hb. unfold header_proof, compact_of_bits.
  destruct (from_compact bits) as [t|] eqn:E; simpl; [|done].
  pose proof (from_compact_width bits t Hb E) as Ht. rewrite lnot_complement by done.
  destruct (Z.eqb_spec t 0) as [->|Hne]; [by vm_compute|].
  unfold in_width in Ht. destruct (Z.eqb_spec t (2 ^ 256 - 1)) as [->|Hn1]; [by vm_compute|].
  unfold u256 at 1 3. rewrite (wrap_small 256 (t + 1)) by (unfold in_width; lia).
  rewrite (proj2 (Z.eqb_neq _ _)) by lia. unfold u256. rewrite work_division by lia.
  apply wrap_small. split; [apply Z.div_pos; lia|]. apply Z.div_lt_upper_bound; nia.
Qed.

(** C10: The proof of work of a header is accepted exactly when its bits
    decode without overflow to a target between one and the limit in force,
    and its hash, read as a little endian number, does not exceed that target. *)
Theorem is_valid_proof_of_work_exact `{Crypto} `{Currency} st retarget h :
  fst (is_valid_proof_of_work st retarget h) = true <->
  exists target, from_compact (hd_bits h) = Some target /\
    1 <= target <= match st with Some l => l | None => big (compact_of_bits (work_limit retarget)) end /\
    to_uint256 (if is_ltc then litecoin_proof_of_work_hash h else fst (header_hash h)) <= target.
Proof.
  unfold is_valid_proof_of_work. cbn [fst]. unfold compact_of_bits at 1 2 3 5 6.
  set (limit := match st with Some _ => _ | None => _ end).
  destruct (from_compact (hd_bits h)) as [target|]; cbn [is_overflowed big].
  2:{ split; [done|by intros (? & ? & _)]. }
  rewrite Z.gtb_ltb. destruct (Z.ltb_spec target 1); [split; [done|intros (? & ? & ? & _); simplify_eq; lia]|].
  destruct (Z.ltb_spec limit target); cbn [orb]; [split; [done|intros (? & ? & ? & _); simplify_eq; lia]|].
  split.
  - intros Hw. exists target. split; [done|]. split; [lia|]. destruct is_ltc; by apply Z.leb_le.
  - intros (? & ? & _ & Hw). simplify_eq. destruct is_ltc; by apply Z.leb_le.
Qed.
