(* ===== verification/Checksum.v ===== *)
(** The checksums of [src/math/checksum.cpp] and
    [include/bitcoin/bitcoin/impl/math/checksum.ipp]: the first four bytes of
    the double SHA-256 of a payload, appended to it. The message framing and the
    text forms of keys and addresses rest on them. *)

From S2P Require Import Prelude Endian Data Header.

Module checksum.
Section Checksum.
Context `{Crypto}.

Definition checksum_size : nat := 4.

Definition bitcoin_checksum (data : list Z) : Z := from_little_endian 4 (bitcoin_hash data).

Definition append_checksum (data : list Z) : list Z :=
  data ++ to_little_endian 4 (bitcoin_checksum data).

Definition verify_checksum (data : list Z) : bool :=
  if decide (length data < checksum_size)%nat then false
  else
    let body := (length data - checksum_size)%nat in
    bitcoin_checksum (take body data) =? from_little_endian 4 (drop body data).

Definition insert_checksum (out : list Z) : list Z * bool :=
  if decide (length out < checksum_size)%nat then (out, false)
  else
    let body := take (length out - checksum_size) out in
    (body ++ to_little_endian 4 (bitcoin_checksum body), true).

Definition build_checked_array (out : list Z) (slices : list (list Z)) : list Z * bool :=
  let '(out, built) := build_array out slices in
  if negb built then (out, false) else insert_checksum out.

(** [wrap]: a version byte, the payload and the checksum of the two. *)
Definition wrap (version : Z) (payload : list Z) : list Z :=
  let size := (1 + length payload + checksum_size)%nat in
  fst (insert_checksum (fst (build_array (repeat 0 size) [[version]; payload]))).

(** [unwrap]: the version, the payload and the checksum, if it verifies. *)
Definition unwrap (wrapped : list Z) : option (Z * list Z * Z) :=
  if negb (verify_checksum wrapped) then None
  else
    let size := length wrapped in
    Some (hd 0 wrapped, slice 1 (size - checksum_size) wrapped,
          from_little_endian 4 (slice (size - checksum_size) size wrapped)).

(** ** The digest is well formed

    What a client may rely on: a digest of 32 bytes. *)
Class CryptoLaws := {
  sha256_hash_length data : length (sha256_hash data) = 32%nat;
  sha256_hash_bytes data : bytes_ok (sha256_hash data);
  ripemd160_hash_length data : length (ripemd160_hash data) = 20%nat;
  ripemd160_hash_bytes data : bytes_ok (ripemd160_hash data)
}.
Context `{!CryptoLaws}.

Lemma bitcoin_checksum_width data : in_width 32 (bitcoin_checksum data).
Proof.
  unfold bitcoin_checksum, bitcoin_hash. pose proof (sha256_hash_bytes (sha256_hash data)) as Hb.
  pose proof (sha256_hash_length (sha256_hash data)) as Hl.
  set (h := sha256_hash (sha256_hash data)) in *.
  assert (E : from_little_endian 4 h = from_little_endian 4 (take 4 h))
    by (unfold from_little_endian; by rewrite take_take).
  rewrite E. rewrite from_little_endian_value.
  - pose proof (le_value_bound (take 4 h)) as Hv. unfold in_width, zlen in *.
    rewrite length_take, Hl in Hv. simpl in Hv. apply Hv. by apply Forall_take.
  - by apply Forall_take.
  - rewrite length_take. lia.
Qed.

Lemma append_checksum_length data : length (append_checksum data) = (length data + 4)%nat.
Proof. unfold append_checksum. by rewrite length_app, length_to_little_endian. Qed.

(** The data and the checksum of a checked string. *)
Lemma verify_append_iff data check :
  length check = 4%nat -> bytes_ok check ->
  verify_checksum (data ++ check) = true <-> check = to_little_endian 4 (bitcoin_checksum data).
Proof.
  intros Hl Hb. unfold verify_checksum, checksum_size. rewrite length_app, Hl.
  rewrite decide_False by lia. cbv zeta. replace (length data + 4 - 4)%nat with (length data) by lia.
  rewrite take_app_length, drop_app_length, Z.eqb_eq, from_little_endian_value by done. split.
  - intros E. rewrite E. change 4%nat with (4%nat). rewrite <- Hl.
    by rewrite to_little_endian_le_value.
  - intros ->. rewrite le_value_to_little_endian.
    symmetry. apply Z.mod_small. apply bitcoin_checksum_width.
Qed.

Lemma verify_append data : verify_checksum (append_checksum data) = true.
Proof.
  apply verify_append_iff; [apply length_to_little_endian|apply bytes_ok_to_little_endian|done].
Qed.

Lemma insert_checksum_app body tail :
  length tail = 4%nat -> insert_checksum (body ++ tail) = (append_checksum body, true).
Proof.
  intros Hl. unfold insert_checksum, checksum_size, append_checksum. rewrite length_app, Hl.
  rewrite decide_False by lia. replace (length body + 4 - 4)%nat with (length body) by lia.
  by rewrite take_app_length.
Qed.

Lemma wrap_eq version payload : wrap version payload = append_checksum (version :: payload).
Proof.
  unfold wrap. rewrite build_array_fits by (simpl; rewrite app_nil_r, repeat_length; unfold checksum_size; lia).
  cbn [fst concat]. rewrite app_nil_r. cbn [app].
  change (version :: payload ++ ?t) with ((version :: payload) ++ t). rewrite insert_checksum_app; [done|].
  rewrite length_drop, repeat_length. simpl. unfold checksum_size. lia.
Qed.

(** A wrapped payload unwraps to what was wrapped. *)
Lemma unwrap_wrap version payload :
  unwrap (wrap version payload) =
  Some (version, payload, bitcoin_checksum (version :: payload)).
Proof.
  rewrite wrap_eq. unfold unwrap. rewrite verify_append. cbn [negb].
  rewrite append_checksum_length. unfold checksum_size, slice.
  replace (length (version :: payload) + 4 - 4)%nat with (length (version :: payload)) by lia.
  unfold append_checksum at 1 2. cbn [app hd drop length].
  rewrite Nat.sub_succ, Nat.sub_0_r, drop_0, take_app_length.
  unfold append_checksum. change (S (length payload)) with (length (version :: payload)).
  rewrite drop_app_length, take_ge by (rewrite length_to_little_endian; lia).
  rewrite from_to_little_endian; [done|apply bitcoin_checksum_width].
Qed.
End Checksum.
End checksum.
