(* ===== verification/WordsLatin.v ===== *)
(** The word lists of [src/wallet/dictionary.cpp] in the Latin script, as they
    stand in the file: each list in sixteen parts, the words as UTF-8 strings. *)

From Stdlib Require Import String.
From S2P Require Import Prelude.

Local Open Scope string_scope.
Local Open Scope list_scope.

Module en.
(** ** English *)

Definition words_0 : list String.string :=
  ["abandon"; "ability"; "able"; "about"; "above"; "absent"; "absorb"; "abstract"; "absurd"; "abuse";
   "access"; "accident"; "account"; "accuse"; "achieve"; "acid"; "acoustic"; "acquire"; "across"; "act";
   "action"; "actor"; "actress"; "actual"; "adapt"; "add"; "addict"; "address"; "adjust"; "admit"; "adult";
   "advance"; "advice"; "aerobic"; "affair"; "afford"; "afraid"; "again"; "age"; "agent"; "agree"; "ahead";
   "aim"; "air"; "airport"; "aisle"; "alarm"; "album"; "alcohol"; "alert"; "alien"; "all"; "alley"; "allow";
   "almost"; "alone"; "alpha"; "already"; "also"; "alter"; "always"; "amateur"; "amazing"; "among"; "amount";
   "amused"; "analyst"; "anchor"; "ancient"; "anger"; "angle"; "angry"; "animal"; "ankle"; "announce";
   "annual"; "another"; "answer"; "antenna"; "antique"; "anxiety"; "any"; "apart"; "apology"; "appear";
   "apple"; "approve"; "april"; "arch"; "arctic"; "area"; "arena"; "argue"; "arm"; "armed"; "armor"; "army";
   "around"; "arrange"; "arrest"; "arrive"; "arrow"; "art"; "artefact"; "artist"; "artwork"; "ask"; "aspect";
   "assault"; "asset"; "assist"; "assume"; "asthma"; "athlete"; "atom"; "attack"; "attend"; "attitude";
   "attract"; "auction"; "audit"; "august"; "aunt"; "author"; "auto"; "autumn"; "average"; "avocado"].

Definition words_1 : list String.string :=
  ["avoid"; "awake"; "aware"; "away"; "awesome"; "awful"; "awkward"; "axis"; "baby"; "bachelor"; "bacon";
   "badge"; "bag"; "balance"; "balcony"; "ball"; "bamboo"; "banana"; "banner"; "bar"; "barely"; "bargain";
   "barrel"; "base"; "basic"; "basket"; "battle"; "beach"; "bean"; "beauty"; "because"; "become"; "beef";
   "before"; "begin"; "behave"; "behind"; "believe"; "below"; "belt"; "bench"; "benefit"; "best"; "betray";
   "better"; "between"; "beyond"; "bicycle"; "bid"; "bike"; "bind"; "biology"; "bird"; "birth"; "bitter";
   "black"; "blade"; "blame"; "blanket"; "blast"; "bleak"; "bless"; "blind"; "blood"; "blossom"; "blouse";
   "blue"; "blur"; "blush"; "board"; "boat"; "body"; "boil"; "bomb"; "bone"; "bonus"; "book"; "boost";
   "border"; "boring"; "borrow"; "boss"; "bottom"; "bounce"; "box"; "boy"; "bracket"; "brain"; "brand";
   "brass"; "brave"; "bread"; "breeze"; "brick"; "bridge"; "brief"; "bright"; "bring"; "brisk"; "broccoli";
   "broken"; "bronze"; "broom"; "brother"; "brown"; "brush"; "bubble"; "buddy"; "budget"; "buffalo"; "build";
   "bulb"; "bulk"; "bullet"; "bundle"; "bunker"; "burden"; "burger"; "burst"; "bus"; "business"; "busy";
   "butter"; "buyer"; "buzz"; "cabbage"; "cabin"; "cable"].

Definition words_2 : list String.string :=
  ["cactus"; "cage"; "cake"; "call"; "calm"; "camera"; "camp"; "can"; "canal"; "cancel"; "candy"; "cannon";
   "canoe"; "canvas"; "canyon"; "capable"; "capital"; "captain"; "car"; "carbon"; "card"; "cargo"; "carpet";
   "carry"; "cart"; "case"; "cash"; "casino"; "castle"; "casual"; "cat"; "catalog"; "catch"; "category";
   "cattle"; "caught"; "cause"; "caution"; "cave"; "ceiling"; "celery"; "cement"; "census"; "century";
   "cereal"; "certain"; "chair"; "chalk"; "champion"; "change"; "chaos"; "chapter"; "charge"; "chase";
   "chat"; "cheap"; "check"; "cheese"; "chef"; "cherry"; "chest"; "chicken"; "chief"; "child"; "chimney";
   "choice"; "choose"; "chronic"; "chuckle"; "chunk"; "churn"; "cigar"; "cinnamon"; "circle"; "citizen";
   "city"; "civil"; "claim"; "clap"; "clarify"; "claw"; "clay"; "clean"; "clerk"; "clever"; "click";
   "client"; "cliff"; "climb"; "clinic"; "clip"; "clock"; "clog"; "close"; "cloth"; "cloud"; "clown"; "club";
   "clump"; "cluster"; "clutch"; "coach"; "coast"; "coconut"; "code"; "coffee"; "coil"; "coin"; "collect";
   "color"; "column"; "combine"; "come"; "comfort"; "comic"; "common"; "company"; "concert"; "conduct";
   "confirm"; "congress"; "connect"; "consider"; "control"; "convince"; "cook"; "cool"; "copper"].

Definition words_3 : list String.string :=
  ["copy"; "coral"; "core"; "corn"; "correct"; "cost"; "cotton"; "couch"; "country"; "couple"; "course";
   "cousin"; "cover"; "coyote"; "crack"; "cradle"; "craft"; "cram"; "crane"; "crash"; "crater"; "crawl";
   "crazy"; "cream"; "credit"; "creek"; "crew"; "cricket"; "crime"; "crisp"; "critic"; "crop"; "cross";
   "crouch"; "crowd"; "crucial"; "cruel"; "cruise"; "crumble"; "crunch"; "crush"; "cry"; "crystal"; "cube";
   "culture"; "cup"; "cupboard"; "curious"; "current"; "curtain"; "curve"; "cushion"; "custom"; "cute";
   "cycle"; "dad"; "damage"; "damp"; "dance"; "danger"; "daring"; "dash"; "daughter"; "dawn"; "day"; "deal";
   "debate"; "debris"; "decade"; "december"; "decide"; "decline"; "decorate"; "decrease"; "deer"; "defense";
   "define"; "defy"; "degree"; "delay"; "deliver"; "demand"; "demise"; "denial"; "dentist"; "deny"; "depart";
   "depend"; "deposit"; "depth"; "deputy"; "derive"; "describe"; "desert"; "design"; "desk"; "despair";
   "destroy"; "detail"; "detect"; "develop"; "device"; "devote"; "diagram"; "dial"; "diamond"; "diary";
   "dice"; "diesel"; "diet"; "differ"; "digital"; "dignity"; "dilemma"; "dinner"; "dinosaur"; "direct";
   "dirt"; "disagree"; "discover"; "disease"; "dish"; "dismiss"; "disorder"; "display"; "distance"; "divert";
   "divide"].

Definition words_4 : list String.string :=
  ["divorce"; "dizzy"; "doctor"; "document"; "dog"; "doll"; "dolphin"; "domain"; "donate"; "donkey"; "donor";
   "door"; "dose"; "double"; "dove"; "draft"; "dragon"; "drama"; "drastic"; "draw"; "dream"; "dress";
   "drift"; "drill"; "drink"; "drip"; "drive"; "drop"; "drum"; "dry"; "duck"; "dumb"; "dune"; "during";
   "dust"; "dutch"; "duty"; "dwarf"; "dynamic"; "eager"; "eagle"; "early"; "earn"; "earth"; "easily"; "east";
   "easy"; "echo"; "ecology"; "economy"; "edge"; "edit"; "educate"; "effort"; "egg"; "eight"; "either";
   "elbow"; "elder"; "electric"; "elegant"; "element"; "elephant"; "elevator"; "elite"; "else"; "embark";
   "embody"; "embrace"; "emerge"; "emotion"; "employ"; "empower"; "empty"; "enable"; "enact"; "end";
   "endless"; "endorse"; "enemy"; "energy"; "enforce"; "engage"; "engine"; "enhance"; "enjoy"; "enlist";
   "enough"; "enrich"; "enroll"; "ensure"; "enter"; "entire"; "entry"; "envelope"; "episode"; "equal";
   "equip"; "era"; "erase"; "erode"; "erosion"; "error"; "erupt"; "escape"; "essay"; "essence"; "estate";
   "eternal"; "ethics"; "evidence"; "evil"; "evoke"; "evolve"; "exact"; "example"; "excess"; "exchange";
   "excite"; "exclude"; "excuse"; "execute"; "exercise"; "exhaust"; "exhibit"; "exile"; "exist"; "exit"].

Definition words_5 : list String.string :=
  ["exotic"; "expand"; "expect"; "expire"; "explain"; "expose"; "express"; "extend"; "extra"; "eye";
   "eyebrow"; "fabric"; "face"; "faculty"; "fade"; "faint"; "faith"; "fall"; "false"; "fame"; "family";
   "famous"; "fan"; "fancy"; "fantasy"; "farm"; "fashion"; "fat"; "fatal"; "father"; "fatigue"; "fault";
   "favorite"; "feature"; "february"; "federal"; "fee"; "feed"; "feel"; "female"; "fence"; "festival";
   "fetch"; "fever"; "few"; "fiber"; "fiction"; "field"; "figure"; "file"; "film"; "filter"; "final"; "find";
   "fine"; "finger"; "finish"; "fire"; "firm"; "first"; "fiscal"; "fish"; "fit"; "fitness"; "fix"; "flag";
   "flame"; "flash"; "flat"; "flavor"; "flee"; "flight"; "flip"; "float"; "flock"; "floor"; "flower";
   "fluid"; "flush"; "fly"; "foam"; "focus"; "fog"; "foil"; "fold"; "follow"; "food"; "foot"; "force";
   "forest"; "forget"; "fork"; "fortune"; "forum"; "forward"; "fossil"; "foster"; "found"; "fox"; "fragile";
   "frame"; "frequent"; "fresh"; "friend"; "fringe"; "frog"; "front"; "frost"; "frown"; "frozen"; "fruit";
   "fuel"; "fun"; "funny"; "furnace"; "fury"; "future"; "gadget"; "gain"; "galaxy"; "gallery"; "game"; "gap";
   "garage"; "garbage"; "garden"; "garlic"; "garment"].

Definition words_6 : list String.string :=
  ["gas"; "gasp"; "gate"; "gather"; "gauge"; "gaze"; "general"; "genius"; "genre"; "gentle"; "genuine";
   "gesture"; "ghost"; "giant"; "gift"; "giggle"; "ginger"; "giraffe"; "girl"; "give"; "glad"; "glance";
   "glare"; "glass"; "glide"; "glimpse"; "globe"; "gloom"; "glory"; "glove"; "glow"; "glue"; "goat";
   "goddess"; "gold"; "good"; "goose"; "gorilla"; "gospel"; "gossip"; "govern"; "gown"; "grab"; "grace";
   "grain"; "grant"; "grape"; "grass"; "gravity"; "great"; "green"; "grid"; "grief"; "grit"; "grocery";
   "group"; "grow"; "grunt"; "guard"; "guess"; "guide"; "guilt"; "guitar"; "gun"; "gym"; "habit"; "hair";
   "half"; "hammer"; "hamster"; "hand"; "happy"; "harbor"; "hard"; "harsh"; "harvest"; "hat"; "have"; "hawk";
   "hazard"; "head"; "health"; "heart"; "heavy"; "hedgehog"; "height"; "hello"; "helmet"; "help"; "hen";
   "hero"; "hidden"; "high"; "hill"; "hint"; "hip"; "hire"; "history"; "hobby"; "hockey"; "hold"; "hole";
   "holiday"; "hollow"; "home"; "honey"; "hood"; "hope"; "horn"; "horror"; "horse"; "hospital"; "host";
   "hotel"; "hour"; "hover"; "hub"; "huge"; "human"; "humble"; "humor"; "hundred"; "hungry"; "hunt";
   "hurdle"; "hurry"; "hurt"; "husband"].

Definition words_7 : list String.string :=
  ["hybrid"; "ice"; "icon"; "idea"; "identify"; "idle"; "ignore"; "ill"; "illegal"; "illness"; "image";
   "imitate"; "immense"; "immune"; "impact"; "impose"; "improve"; "impulse"; "inch"; "include"; "income";
   "increase"; "index"; "indicate"; "indoor"; "industry"; "infant"; "inflict"; "inform"; "inhale"; "inherit";
   "initial"; "inject"; "injury"; "inmate"; "inner"; "innocent"; "input"; "inquiry"; "insane"; "insect";
   "inside"; "inspire"; "install"; "intact"; "interest"; "into"; "invest"; "invite"; "involve"; "iron";
   "island"; "isolate"; "issue"; "item"; "ivory"; "jacket"; "jaguar"; "jar"; "jazz"; "jealous"; "jeans";
   "jelly"; "jewel"; "job"; "join"; "joke"; "journey"; "joy"; "judge"; "juice"; "jump"; "jungle"; "junior";
   "junk"; "just"; "kangaroo"; "keen"; "keep"; "ketchup"; "key"; "kick"; "kid"; "kidney"; "kind"; "kingdom";
   "kiss"; "kit"; "kitchen"; "kite"; "kitten"; "kiwi"; "knee"; "knife"; "knock"; "know"; "lab"; "label";
   "labor"; "ladder"; "lady"; "lake"; "lamp"; "language"; "laptop"; "large"; "later"; "latin"; "laugh";
   "laundry"; "lava"; "law"; "lawn"; "lawsuit"; "layer"; "lazy"; "leader"; "leaf"; "learn"; "leave";
   "lecture"; "left"; "leg"; "legal"; "legend"; "leisure"; "lemon"; "lend"].

Definition words_8 : list String.string :=
  ["length"; "lens"; "leopard"; "lesson"; "letter"; "level"; "liar"; "liberty"; "library"; "license"; "life";
   "lift"; "light"; "like"; "limb"; "limit"; "link"; "lion"; "liquid"; "list"; "little"; "live"; "lizard";
   "load"; "loan"; "lobster"; "local"; "lock"; "logic"; "lonely"; "long"; "loop"; "lottery"; "loud";
   "lounge"; "love"; "loyal"; "lucky"; "luggage"; "lumber"; "lunar"; "lunch"; "luxury"; "lyrics"; "machine";
   "mad"; "magic"; "magnet"; "maid"; "mail"; "main"; "major"; "make"; "mammal"; "man"; "manage"; "mandate";
   "mango"; "mansion"; "manual"; "maple"; "marble"; "march"; "margin"; "marine"; "market"; "marriage";
   "mask"; "mass"; "master"; "match"; "material"; "math"; "matrix"; "matter"; "maximum"; "maze"; "meadow";
   "mean"; "measure"; "meat"; "mechanic"; "medal"; "media"; "melody"; "melt"; "member"; "memory"; "mention";
   "menu"; "mercy"; "merge"; "merit"; "merry"; "mesh"; "message"; "metal"; "method"; "middle"; "midnight";
   "milk"; "million"; "mimic"; "mind"; "minimum"; "minor"; "minute"; "miracle"; "mirror"; "misery"; "miss";
   "mistake"; "mix"; "mixed"; "mixture"; "mobile"; "model"; "modify"; "mom"; "moment"; "monitor"; "monkey";
   "monster"; "month"; "moon"; "moral"; "more"; "morning"].

Definition words_9 : list String.string :=
  ["mosquito"; "mother"; "motion"; "motor"; "mountain"; "mouse"; "move"; "movie"; "much"; "muffin"; "mule";
   "multiply"; "muscle"; "museum"; "mushroom"; "music"; "must"; "mutual"; "myself"; "mystery"; "myth";
   "naive"; "name"; "napkin"; "narrow"; "nasty"; "nation"; "nature"; "near"; "neck"; "need"; "negative";
   "neglect"; "neither"; "nephew"; "nerve"; "nest"; "net"; "network"; "neutral"; "never"; "news"; "next";
   "nice"; "night"; "noble"; "noise"; "nominee"; "noodle"; "normal"; "north"; "nose"; "notable"; "note";
   "nothing"; "notice"; "novel"; "now"; "nuclear"; "number"; "nurse"; "nut"; "oak"; "obey"; "object";
   "oblige"; "obscure"; "observe"; "obtain"; "obvious"; "occur"; "ocean"; "october"; "odor"; "off"; "offer";
   "office"; "often"; "oil"; "okay"; "old"; "olive"; "olympic"; "omit"; "once"; "one"; "onion"; "online";
   "only"; "open"; "opera"; "opinion"; "oppose"; "option"; "orange"; "orbit"; "orchard"; "order"; "ordinary";
   "organ"; "orient"; "original"; "orphan"; "ostrich"; "other"; "outdoor"; "outer"; "output"; "outside";
   "oval"; "oven"; "over"; "own"; "owner"; "oxygen"; "oyster"; "ozone"; "pact"; "paddle"; "page"; "pair";
   "palace"; "palm"; "panda"; "panel"; "panic"; "panther"; "paper"].

Definition words_10 : list String.string :=
  ["parade"; "parent"; "park"; "parrot"; "party"; "pass"; "patch"; "path"; "patient"; "patrol"; "pattern";
   "pause"; "pave"; "payment"; "peace"; "peanut"; "pear"; "peasant"; "pelican"; "pen"; "penalty"; "pencil";
   "people"; "pepper"; "perfect"; "permit"; "person"; "pet"; "phone"; "photo"; "phrase"; "physical"; "piano";
   "picnic"; "picture"; "piece"; "pig"; "pigeon"; "pill"; "pilot"; "pink"; "pioneer"; "pipe"; "pistol";
   "pitch"; "pizza"; "place"; "planet"; "plastic"; "plate"; "play"; "please"; "pledge"; "pluck"; "plug";
   "plunge"; "poem"; "poet"; "point"; "polar"; "pole"; "police"; "pond"; "pony"; "pool"; "popular";
   "portion"; "position"; "possible"; "post"; "potato"; "pottery"; "poverty"; "powder"; "power"; "practice";
   "praise"; "predict"; "prefer"; "prepare"; "present"; "pretty"; "prevent"; "price"; "pride"; "primary";
   "print"; "priority"; "prison"; "private"; "prize"; "problem"; "process"; "produce"; "profit"; "program";
   "project"; "promote"; "proof"; "property"; "prosper"; "protect"; "proud"; "provide"; "public"; "pudding";
   "pull"; "pulp"; "pulse"; "pumpkin"; "punch"; "pupil"; "puppy"; "purchase"; "purity"; "purpose"; "purse";
   "push"; "put"; "puzzle"; "pyramid"; "quality"; "quantum"; "quarter"; "question"; "quick"; "quit"; "quiz"].

Definition words_11 : list String.string :=
  ["quote"; "rabbit"; "raccoon"; "race"; "rack"; "radar"; "radio"; "rail"; "rain"; "raise"; "rally"; "ramp";
   "ranch"; "random"; "range"; "rapid"; "rare"; "rate"; "rather"; "raven"; "raw"; "razor"; "ready"; "real";
   "reason"; "rebel"; "rebuild"; "recall"; "receive"; "recipe"; "record"; "recycle"; "reduce"; "reflect";
   "reform"; "refuse"; "region"; "regret"; "regular"; "reject"; "relax"; "release"; "relief"; "rely";
   "remain"; "remember"; "remind"; "remove"; "render"; "renew"; "rent"; "reopen"; "repair"; "repeat";
   "replace"; "report"; "require"; "rescue"; "resemble"; "resist"; "resource"; "response"; "result";
   "retire"; "retreat"; "return"; "reunion"; "reveal"; "review"; "reward"; "rhythm"; "rib"; "ribbon"; "rice";
   "rich"; "ride"; "ridge"; "rifle"; "right"; "rigid"; "ring"; "riot"; "ripple"; "risk"; "ritual"; "rival";
   "river"; "road"; "roast"; "robot"; "robust"; "rocket"; "romance"; "roof"; "rookie"; "room"; "rose";
   "rotate"; "rough"; "round"; "route"; "royal"; "rubber"; "rude"; "rug"; "rule"; "run"; "runway"; "rural";
   "sad"; "saddle"; "sadness"; "safe"; "sail"; "salad"; "salmon"; "salon"; "salt"; "salute"; "same";
   "sample"; "sand"; "satisfy"; "satoshi"; "sauce"; "sausage"; "save"; "say"].

Definition words_12 : list String.string :=
  ["scale"; "scan"; "scare"; "scatter"; "scene"; "scheme"; "school"; "science"; "scissors"; "scorpion";
   "scout"; "scrap"; "screen"; "script"; "scrub"; "sea"; "search"; "season"; "seat"; "second"; "secret";
   "section"; "security"; "seed"; "seek"; "segment"; "select"; "sell"; "seminar"; "senior"; "sense";
   "sentence"; "series"; "service"; "session"; "settle"; "setup"; "seven"; "shadow"; "shaft"; "shallow";
   "share"; "shed"; "shell"; "sheriff"; "shield"; "shift"; "shine"; "ship"; "shiver"; "shock"; "shoe";
   "shoot"; "shop"; "short"; "shoulder"; "shove"; "shrimp"; "shrug"; "shuffle"; "shy"; "sibling"; "sick";
   "side"; "siege"; "sight"; "sign"; "silent"; "silk"; "silly"; "silver"; "similar"; "simple"; "since";
   "sing"; "siren"; "sister"; "situate"; "six"; "size"; "skate"; "sketch"; "ski"; "skill"; "skin"; "skirt";
   "skull"; "slab"; "slam"; "sleep"; "slender"; "slice"; "slide"; "slight"; "slim"; "slogan"; "slot"; "slow";
   "slush"; "small"; "smart"; "smile"; "smoke"; "smooth"; "snack"; "snake"; "snap"; "sniff"; "snow"; "soap";
   "soccer"; "social"; "sock"; "soda"; "soft"; "solar"; "soldier"; "solid"; "solution"; "solve"; "someone";
   "song"; "soon"; "sorry"; "sort"; "soul"; "sound"; "soup"].

Definition words_13 : list String.string :=
  ["source"; "south"; "space"; "spare"; "spatial"; "spawn"; "speak"; "special"; "speed"; "spell"; "spend";
   "sphere"; "spice"; "spider"; "spike"; "spin"; "spirit"; "split"; "spoil"; "sponsor"; "spoon"; "sport";
   "spot"; "spray"; "spread"; "spring"; "spy"; "square"; "squeeze"; "squirrel"; "stable"; "stadium"; "staff";
   "stage"; "stairs"; "stamp"; "stand"; "start"; "state"; "stay"; "steak"; "steel"; "stem"; "step"; "stereo";
   "stick"; "still"; "sting"; "stock"; "stomach"; "stone"; "stool"; "story"; "stove"; "strategy"; "street";
   "strike"; "strong"; "struggle"; "student"; "stuff"; "stumble"; "style"; "subject"; "submit"; "subway";
   "success"; "such"; "sudden"; "suffer"; "sugar"; "suggest"; "suit"; "summer"; "sun"; "sunny"; "sunset";
   "super"; "supply"; "supreme"; "sure"; "surface"; "surge"; "surprise"; "surround"; "survey"; "suspect";
   "sustain"; "swallow"; "swamp"; "swap"; "swarm"; "swear"; "sweet"; "swift"; "swim"; "swing"; "switch";
   "sword"; "symbol"; "symptom"; "syrup"; "system"; "table"; "tackle"; "tag"; "tail"; "talent"; "talk";
   "tank"; "tape"; "target"; "task"; "taste"; "tattoo"; "taxi"; "teach"; "team"; "tell"; "ten"; "tenant";
   "tennis"; "tent"; "term"; "test"; "text"; "thank"; "that"].

Definition words_14 : list String.string :=
  ["theme"; "then"; "theory"; "there"; "they"; "thing"; "this"; "thought"; "three"; "thrive"; "throw";
   "thumb"; "thunder"; "ticket"; "tide"; "tiger"; "tilt"; "timber"; "time"; "tiny"; "tip"; "tired"; "tissue";
   "title"; "toast"; "tobacco"; "today"; "toddler"; "toe"; "together"; "toilet"; "token"; "tomato";
   "tomorrow"; "tone"; "tongue"; "tonight"; "tool"; "tooth"; "top"; "topic"; "topple"; "torch"; "tornado";
   "tortoise"; "toss"; "total"; "tourist"; "toward"; "tower"; "town"; "toy"; "track"; "trade"; "traffic";
   "tragic"; "train"; "transfer"; "trap"; "trash"; "travel"; "tray"; "treat"; "tree"; "trend"; "trial";
   "tribe"; "trick"; "trigger"; "trim"; "trip"; "trophy"; "trouble"; "truck"; "true"; "truly"; "trumpet";
   "trust"; "truth"; "try"; "tube"; "tuition"; "tumble"; "tuna"; "tunnel"; "turkey"; "turn"; "turtle";
   "twelve"; "twenty"; "twice"; "twin"; "twist"; "two"; "type"; "typical"; "ugly"; "umbrella"; "unable";
   "unaware"; "uncle"; "uncover"; "under"; "undo"; "unfair"; "unfold"; "unhappy"; "uniform"; "unique";
   "unit"; "universe"; "unknown"; "unlock"; "until"; "unusual"; "unveil"; "update"; "upgrade"; "uphold";
   "upon"; "upper"; "upset"; "urban"; "urge"; "usage"; "use"; "used"; "useful"].

Definition words_15 : list String.string :=
  ["useless"; "usual"; "utility"; "vacant"; "vacuum"; "vague"; "valid"; "valley"; "valve"; "van"; "vanish";
   "vapor"; "various"; "vast"; "vault"; "vehicle"; "velvet"; "vendor"; "venture"; "venue"; "verb"; "verify";
   "version"; "very"; "vessel"; "veteran"; "viable"; "vibrant"; "vicious"; "victory"; "video"; "view";
   "village"; "vintage"; "violin"; "virtual"; "virus"; "visa"; "visit"; "visual"; "vital"; "vivid"; "vocal";
   "voice"; "void"; "volcano"; "volume"; "vote"; "voyage"; "wage"; "wagon"; "wait"; "walk"; "wall"; "walnut";
   "want"; "warfare"; "warm"; "warrior"; "wash"; "wasp"; "waste"; "water"; "wave"; "way"; "wealth"; "weapon";
   "wear"; "weasel"; "weather"; "web"; "wedding"; "weekend"; "weird"; "welcome"; "west"; "wet"; "whale";
   "what"; "wheat"; "wheel"; "when"; "where"; "whip"; "whisper"; "wide"; "width"; "wife"; "wild"; "will";
   "win"; "window"; "wine"; "wing"; "wink"; "winner"; "winter"; "wire"; "wisdom"; "wise"; "wish"; "witness";
   "wolf"; "woman"; "wonder"; "wood"; "wool"; "word"; "work"; "world"; "worry"; "worth"; "wrap"; "wreck";
   "wrestle"; "wrist"; "write"; "wrong"; "yard"; "year"; "yellow"; "you"; "young"; "youth"; "zebra"; "zero";
   "zone"; "zoo"].

(** The English word list. *)
Definition words : list String.string :=
  words_0 ++ words_1 ++ words_2 ++ words_3 ++ words_4 ++ words_5 ++ words_6 ++ words_7 ++
  words_8 ++ words_9 ++ words_10 ++ words_11 ++ words_12 ++ words_13 ++ words_14 ++ words_15.
End en.

Module es.
(** ** Spanish *)

Definition words_0 : list String.string :=
  ["ábaco"; "abdomen"; "abeja"; "abierto"; "abogado"; "abono"; "aborto"; "abrazo"; "abrir"; "abuelo";
   "abuso"; "acabar"; "academia"; "acceso"; "acción"; "aceite"; "acelga"; "acento"; "aceptar"; "ácido";
   "aclarar"; "acné"; "acoger"; "acoso"; "activo"; "acto"; "actriz"; "actuar"; "acudir"; "acuerdo"; "acusar";
   "adicto"; "admitir"; "adoptar"; "adorno"; "aduana"; "adulto"; "aéreo"; "afectar"; "afición"; "afinar";
   "afirmar"; "ágil"; "agitar"; "agonía"; "agosto"; "agotar"; "agregar"; "agrio"; "agua"; "agudo"; "águila";
   "aguja"; "ahogo"; "ahorro"; "aire"; "aislar"; "ajedrez"; "ajeno"; "ajuste"; "alacrán"; "alambre";
   "alarma"; "alba"; "álbum"; "alcalde"; "aldea"; "alegre"; "alejar"; "alerta"; "aleta"; "alfiler"; "alga";
   "algodón"; "aliado"; "aliento"; "alivio"; "alma"; "almeja"; "almíbar"; "altar"; "alteza"; "altivo";
   "alto"; "altura"; "alumno"; "alzar"; "amable"; "amante"; "amapola"; "amargo"; "amasar"; "ámbar"; "ámbito";
   "ameno"; "amigo"; "amistad"; "amor"; "amparo"; "amplio"; "ancho"; "anciano"; "ancla"; "andar"; "andén";
   "anemia"; "ángulo"; "anillo"; "ánimo"; "anís"; "anotar"; "antena"; "antiguo"; "antojo"; "anual"; "anular";
   "anuncio"; "añadir"; "añejo"; "año"; "apagar"; "aparato"; "apetito"; "apio"; "aplicar"; "apodo"; "aporte";
   "apoyo"].

Definition words_1 : list String.string :=
  ["aprender"; "aprobar"; "apuesta"; "apuro"; "arado"; "araña"; "arar"; "árbitro"; "árbol"; "arbusto";
   "archivo"; "arco"; "arder"; "ardilla"; "arduo"; "área"; "árido"; "aries"; "armonía"; "arnés"; "aroma";
   "arpa"; "arpón"; "arreglo"; "arroz"; "arruga"; "arte"; "artista"; "asa"; "asado"; "asalto"; "ascenso";
   "asegurar"; "aseo"; "asesor"; "asiento"; "asilo"; "asistir"; "asno"; "asombro"; "áspero"; "astilla";
   "astro"; "astuto"; "asumir"; "asunto"; "atajo"; "ataque"; "atar"; "atento"; "ateo"; "ático"; "atleta";
   "átomo"; "atraer"; "atroz"; "atún"; "audaz"; "audio"; "auge"; "aula"; "aumento"; "ausente"; "autor";
   "aval"; "avance"; "avaro"; "ave"; "avellana"; "avena"; "avestruz"; "avión"; "aviso"; "ayer"; "ayuda";
   "ayuno"; "azafrán"; "azar"; "azote"; "azúcar"; "azufre"; "azul"; "baba"; "babor"; "bache"; "bahía";
   "baile"; "bajar"; "balanza"; "balcón"; "balde"; "bambú"; "banco"; "banda"; "baño"; "barba"; "barco";
   "barniz"; "barro"; "báscula"; "bastón"; "basura"; "batalla"; "batería"; "batir"; "batuta"; "baúl";
   "bazar"; "bebé"; "bebida"; "bello"; "besar"; "beso"; "bestia"; "bicho"; "bien"; "bingo"; "blanco";
   "bloque"; "blusa"; "boa"; "bobina"; "bobo"; "boca"; "bocina"; "boda"; "bodega"; "boina"].

Definition words_2 : list String.string :=
  ["bola"; "bolero"; "bolsa"; "bomba"; "bondad"; "bonito"; "bono"; "bonsái"; "borde"; "borrar"; "bosque";
   "bote"; "botín"; "bóveda"; "bozal"; "bravo"; "brazo"; "brecha"; "breve"; "brillo"; "brinco"; "brisa";
   "broca"; "broma"; "bronce"; "brote"; "bruja"; "brusco"; "bruto"; "buceo"; "bucle"; "bueno"; "buey";
   "bufanda"; "bufón"; "búho"; "buitre"; "bulto"; "burbuja"; "burla"; "burro"; "buscar"; "butaca"; "buzón";
   "caballo"; "cabeza"; "cabina"; "cabra"; "cacao"; "cadáver"; "cadena"; "caer"; "café"; "caída"; "caimán";
   "caja"; "cajón"; "cal"; "calamar"; "calcio"; "caldo"; "calidad"; "calle"; "calma"; "calor"; "calvo";
   "cama"; "cambio"; "camello"; "camino"; "campo"; "cáncer"; "candil"; "canela"; "canguro"; "canica";
   "canto"; "caña"; "cañón"; "caoba"; "caos"; "capaz"; "capitán"; "capote"; "captar"; "capucha"; "cara";
   "carbón"; "cárcel"; "careta"; "carga"; "cariño"; "carne"; "carpeta"; "carro"; "carta"; "casa"; "casco";
   "casero"; "caspa"; "castor"; "catorce"; "catre"; "caudal"; "causa"; "cazo"; "cebolla"; "ceder"; "cedro";
   "celda"; "célebre"; "celoso"; "célula"; "cemento"; "ceniza"; "centro"; "cerca"; "cerdo"; "cereza"; "cero";
   "cerrar"; "certeza"; "césped"; "cetro"; "chacal"; "chaleco"; "champú"; "chancla"].

Definition words_3 : list String.string :=
  ["chapa"; "charla"; "chico"; "chiste"; "chivo"; "choque"; "choza"; "chuleta"; "chupar"; "ciclón"; "ciego";
   "cielo"; "cien"; "cierto"; "cifra"; "cigarro"; "cima"; "cinco"; "cine"; "cinta"; "ciprés"; "circo";
   "ciruela"; "cisne"; "cita"; "ciudad"; "clamor"; "clan"; "claro"; "clase"; "clave"; "cliente"; "clima";
   "clínica"; "cobre"; "cocción"; "cochino"; "cocina"; "coco"; "código"; "codo"; "cofre"; "coger"; "cohete";
   "cojín"; "cojo"; "cola"; "colcha"; "colegio"; "colgar"; "colina"; "collar"; "colmo"; "columna"; "combate";
   "comer"; "comida"; "cómodo"; "compra"; "conde"; "conejo"; "conga"; "conocer"; "consejo"; "contar"; "copa";
   "copia"; "corazón"; "corbata"; "corcho"; "cordón"; "corona"; "correr"; "coser"; "cosmos"; "costa";
   "cráneo"; "cráter"; "crear"; "crecer"; "creído"; "crema"; "cría"; "crimen"; "cripta"; "crisis"; "cromo";
   "crónica"; "croqueta"; "crudo"; "cruz"; "cuadro"; "cuarto"; "cuatro"; "cubo"; "cubrir"; "cuchara";
   "cuello"; "cuento"; "cuerda"; "cuesta"; "cueva"; "cuidar"; "culebra"; "culpa"; "culto"; "cumbre";
   "cumplir"; "cuna"; "cuneta"; "cuota"; "cupón"; "cúpula"; "curar"; "curioso"; "curso"; "curva"; "cutis";
   "dama"; "danza"; "dar"; "dardo"; "dátil"; "deber"; "débil"; "década"; "decir"; "dedo"].

Definition words_4 : list String.string :=
  ["defensa"; "definir"; "dejar"; "delfín"; "delgado"; "delito"; "demora"; "denso"; "dental"; "deporte";
   "derecho"; "derrota"; "desayuno"; "deseo"; "desfile"; "desnudo"; "destino"; "desvío"; "detalle";
   "detener"; "deuda"; "día"; "diablo"; "diadema"; "diamante"; "diana"; "diario"; "dibujo"; "dictar";
   "diente"; "dieta"; "diez"; "difícil"; "digno"; "dilema"; "diluir"; "dinero"; "directo"; "dirigir";
   "disco"; "diseño"; "disfraz"; "diva"; "divino"; "doble"; "doce"; "dolor"; "domingo"; "don"; "donar";
   "dorado"; "dormir"; "dorso"; "dos"; "dosis"; "dragón"; "droga"; "ducha"; "duda"; "duelo"; "dueño";
   "dulce"; "dúo"; "duque"; "durar"; "dureza"; "duro"; "ébano"; "ebrio"; "echar"; "eco"; "ecuador"; "edad";
   "edición"; "edificio"; "editor"; "educar"; "efecto"; "eficaz"; "eje"; "ejemplo"; "elefante"; "elegir";
   "elemento"; "elevar"; "elipse"; "élite"; "elixir"; "elogio"; "eludir"; "embudo"; "emitir"; "emoción";
   "empate"; "empeño"; "empleo"; "empresa"; "enano"; "encargo"; "enchufe"; "encía"; "enemigo"; "enero";
   "enfado"; "enfermo"; "engaño"; "enigma"; "enlace"; "enorme"; "enredo"; "ensayo"; "enseñar"; "entero";
   "entrar"; "envase"; "envío"; "época"; "equipo"; "erizo"; "escala"; "escena"; "escolar"; "escribir";
   "escudo"; "esencia"; "esfera"; "esfuerzo"; "espada"].

Definition words_5 : list String.string :=
  ["espejo"; "espía"; "esposa"; "espuma"; "esquí"; "estar"; "este"; "estilo"; "estufa"; "etapa"; "eterno";
   "ética"; "etnia"; "evadir"; "evaluar"; "evento"; "evitar"; "exacto"; "examen"; "exceso"; "excusa";
   "exento"; "exigir"; "exilio"; "existir"; "éxito"; "experto"; "explicar"; "exponer"; "extremo"; "fábrica";
   "fábula"; "fachada"; "fácil"; "factor"; "faena"; "faja"; "falda"; "fallo"; "falso"; "faltar"; "fama";
   "familia"; "famoso"; "faraón"; "farmacia"; "farol"; "farsa"; "fase"; "fatiga"; "fauna"; "favor"; "fax";
   "febrero"; "fecha"; "feliz"; "feo"; "feria"; "feroz"; "fértil"; "fervor"; "festín"; "fiable"; "fianza";
   "fiar"; "fibra"; "ficción"; "ficha"; "fideo"; "fiebre"; "fiel"; "fiera"; "fiesta"; "figura"; "fijar";
   "fijo"; "fila"; "filete"; "filial"; "filtro"; "fin"; "finca"; "fingir"; "finito"; "firma"; "flaco";
   "flauta"; "flecha"; "flor"; "flota"; "fluir"; "flujo"; "flúor"; "fobia"; "foca"; "fogata"; "fogón";
   "folio"; "folleto"; "fondo"; "forma"; "forro"; "fortuna"; "forzar"; "fosa"; "foto"; "fracaso"; "frágil";
   "franja"; "frase"; "fraude"; "freír"; "freno"; "fresa"; "frío"; "frito"; "fruta"; "fuego"; "fuente";
   "fuerza"; "fuga"; "fumar"; "función"; "funda"; "furgón"; "furia"; "fusil"; "fútbol"].

Definition words_6 : list String.string :=
  ["futuro"; "gacela"; "gafas"; "gaita"; "gajo"; "gala"; "galería"; "gallo"; "gamba"; "ganar"; "gancho";
   "ganga"; "ganso"; "garaje"; "garza"; "gasolina"; "gastar"; "gato"; "gavilán"; "gemelo"; "gemir"; "gen";
   "género"; "genio"; "gente"; "geranio"; "gerente"; "germen"; "gesto"; "gigante"; "gimnasio"; "girar";
   "giro"; "glaciar"; "globo"; "gloria"; "gol"; "golfo"; "goloso"; "golpe"; "goma"; "gordo"; "gorila";
   "gorra"; "gota"; "goteo"; "gozar"; "grada"; "gráfico"; "grano"; "grasa"; "gratis"; "grave"; "grieta";
   "grillo"; "gripe"; "gris"; "grito"; "grosor"; "grúa"; "grueso"; "grumo"; "grupo"; "guante"; "guapo";
   "guardia"; "guerra"; "guía"; "guiño"; "guion"; "guiso"; "guitarra"; "gusano"; "gustar"; "haber"; "hábil";
   "hablar"; "hacer"; "hacha"; "hada"; "hallar"; "hamaca"; "harina"; "haz"; "hazaña"; "hebilla"; "hebra";
   "hecho"; "helado"; "helio"; "hembra"; "herir"; "hermano"; "héroe"; "hervir"; "hielo"; "hierro"; "hígado";
   "higiene"; "hijo"; "himno"; "historia"; "hocico"; "hogar"; "hoguera"; "hoja"; "hombre"; "hongo"; "honor";
   "honra"; "hora"; "hormiga"; "horno"; "hostil"; "hoyo"; "hueco"; "huelga"; "huerta"; "hueso"; "huevo";
   "huida"; "huir"; "humano"; "húmedo"; "humilde"; "humo"; "hundir"; "huracán"].

Definition words_7 : list String.string :=
  ["hurto"; "icono"; "ideal"; "idioma"; "ídolo"; "iglesia"; "iglú"; "igual"; "ilegal"; "ilusión"; "imagen";
   "imán"; "imitar"; "impar"; "imperio"; "imponer"; "impulso"; "incapaz"; "índice"; "inerte"; "infiel";
   "informe"; "ingenio"; "inicio"; "inmenso"; "inmune"; "innato"; "insecto"; "instante"; "interés"; "íntimo";
   "intuir"; "inútil"; "invierno"; "ira"; "iris"; "ironía"; "isla"; "islote"; "jabalí"; "jabón"; "jamón";
   "jarabe"; "jardín"; "jarra"; "jaula"; "jazmín"; "jefe"; "jeringa"; "jinete"; "jornada"; "joroba"; "joven";
   "joya"; "juerga"; "jueves"; "juez"; "jugador"; "jugo"; "juguete"; "juicio"; "junco"; "jungla"; "junio";
   "juntar"; "júpiter"; "jurar"; "justo"; "juvenil"; "juzgar"; "kilo"; "koala"; "labio"; "lacio"; "lacra";
   "lado"; "ladrón"; "lagarto"; "lágrima"; "laguna"; "laico"; "lamer"; "lámina"; "lámpara"; "lana"; "lancha";
   "langosta"; "lanza"; "lápiz"; "largo"; "larva"; "lástima"; "lata"; "látex"; "latir"; "laurel"; "lavar";
   "lazo"; "leal"; "lección"; "leche"; "lector"; "leer"; "legión"; "legumbre"; "lejano"; "lengua"; "lento";
   "leña"; "león"; "leopardo"; "lesión"; "letal"; "letra"; "leve"; "leyenda"; "libertad"; "libro"; "licor";
   "líder"; "lidiar"; "lienzo"; "liga"; "ligero"; "lima"; "límite"; "limón"; "limpio"].

Definition words_8 : list String.string :=
  ["lince"; "lindo"; "línea"; "lingote"; "lino"; "linterna"; "líquido"; "liso"; "lista"; "litera"; "litio";
   "litro"; "llaga"; "llama"; "llanto"; "llave"; "llegar"; "llenar"; "llevar"; "llorar"; "llover"; "lluvia";
   "lobo"; "loción"; "loco"; "locura"; "lógica"; "logro"; "lombriz"; "lomo"; "lonja"; "lote"; "lucha";
   "lucir"; "lugar"; "lujo"; "luna"; "lunes"; "lupa"; "lustro"; "luto"; "luz"; "maceta"; "macho"; "madera";
   "madre"; "maduro"; "maestro"; "mafia"; "magia"; "mago"; "maíz"; "maldad"; "maleta"; "malla"; "malo";
   "mamá"; "mambo"; "mamut"; "manco"; "mando"; "manejar"; "manga"; "maniquí"; "manjar"; "mano"; "manso";
   "manta"; "mañana"; "mapa"; "máquina"; "mar"; "marco"; "marea"; "marfil"; "margen"; "marido"; "mármol";
   "marrón"; "martes"; "marzo"; "masa"; "máscara"; "masivo"; "matar"; "materia"; "matiz"; "matriz"; "máximo";
   "mayor"; "mazorca"; "mecha"; "medalla"; "medio"; "médula"; "mejilla"; "mejor"; "melena"; "melón";
   "memoria"; "menor"; "mensaje"; "mente"; "menú"; "mercado"; "merengue"; "mérito"; "mes"; "mesón"; "meta";
   "meter"; "método"; "metro"; "mezcla"; "miedo"; "miel"; "miembro"; "miga"; "mil"; "milagro"; "militar";
   "millón"; "mimo"; "mina"; "minero"; "mínimo"; "minuto"; "miope"].

Definition words_9 : list String.string :=
  ["mirar"; "misa"; "miseria"; "misil"; "mismo"; "mitad"; "mito"; "mochila"; "moción"; "moda"; "modelo";
   "moho"; "mojar"; "molde"; "moler"; "molino"; "momento"; "momia"; "monarca"; "moneda"; "monja"; "monto";
   "moño"; "morada"; "morder"; "moreno"; "morir"; "morro"; "morsa"; "mortal"; "mosca"; "mostrar"; "motivo";
   "mover"; "móvil"; "mozo"; "mucho"; "mudar"; "mueble"; "muela"; "muerte"; "muestra"; "mugre"; "mujer";
   "mula"; "muleta"; "multa"; "mundo"; "muñeca"; "mural"; "muro"; "músculo"; "museo"; "musgo"; "música";
   "muslo"; "nácar"; "nación"; "nadar"; "naipe"; "naranja"; "nariz"; "narrar"; "nasal"; "natal"; "nativo";
   "natural"; "náusea"; "naval"; "nave"; "navidad"; "necio"; "néctar"; "negar"; "negocio"; "negro"; "neón";
   "nervio"; "neto"; "neutro"; "nevar"; "nevera"; "nicho"; "nido"; "niebla"; "nieto"; "niñez"; "niño";
   "nítido"; "nivel"; "nobleza"; "noche"; "nómina"; "noria"; "norma"; "norte"; "nota"; "noticia"; "novato";
   "novela"; "novio"; "nube"; "nuca"; "núcleo"; "nudillo"; "nudo"; "nuera"; "nueve"; "nuez"; "nulo";
   "número"; "nutria"; "oasis"; "obeso"; "obispo"; "objeto"; "obra"; "obrero"; "observar"; "obtener";
   "obvio"; "oca"; "ocaso"; "océano"; "ochenta"; "ocho"; "ocio"; "ocre"].

Definition words_10 : list String.string :=
  ["octavo"; "octubre"; "oculto"; "ocupar"; "ocurrir"; "odiar"; "odio"; "odisea"; "oeste"; "ofensa";
   "oferta"; "oficio"; "ofrecer"; "ogro"; "oído"; "oír"; "ojo"; "ola"; "oleada"; "olfato"; "olivo"; "olla";
   "olmo"; "olor"; "olvido"; "ombligo"; "onda"; "onza"; "opaco"; "opción"; "ópera"; "opinar"; "oponer";
   "optar"; "óptica"; "opuesto"; "oración"; "orador"; "oral"; "órbita"; "orca"; "orden"; "oreja"; "órgano";
   "orgía"; "orgullo"; "oriente"; "origen"; "orilla"; "oro"; "orquesta"; "oruga"; "osadía"; "oscuro";
   "osezno"; "oso"; "ostra"; "otoño"; "otro"; "oveja"; "óvulo"; "óxido"; "oxígeno"; "oyente"; "ozono";
   "pacto"; "padre"; "paella"; "página"; "pago"; "país"; "pájaro"; "palabra"; "palco"; "paleta"; "pálido";
   "palma"; "paloma"; "palpar"; "pan"; "panal"; "pánico"; "pantera"; "pañuelo"; "papá"; "papel"; "papilla";
   "paquete"; "parar"; "parcela"; "pared"; "parir"; "paro"; "párpado"; "parque"; "párrafo"; "parte"; "pasar";
   "paseo"; "pasión"; "paso"; "pasta"; "pata"; "patio"; "patria"; "pausa"; "pauta"; "pavo"; "payaso";
   "peatón"; "pecado"; "pecera"; "pecho"; "pedal"; "pedir"; "pegar"; "peine"; "pelar"; "peldaño"; "pelea";
   "peligro"; "pellejo"; "pelo"; "peluca"; "pena"; "pensar"; "peñón"; "peón"].

Definition words_11 : list String.string :=
  ["peor"; "pepino"; "pequeño"; "pera"; "percha"; "perder"; "pereza"; "perfil"; "perico"; "perla"; "permiso";
   "perro"; "persona"; "pesa"; "pesca"; "pésimo"; "pestaña"; "pétalo"; "petróleo"; "pez"; "pezuña"; "picar";
   "pichón"; "pie"; "piedra"; "pierna"; "pieza"; "pijama"; "pilar"; "piloto"; "pimienta"; "pino"; "pintor";
   "pinza"; "piña"; "piojo"; "pipa"; "pirata"; "pisar"; "piscina"; "piso"; "pista"; "pitón"; "pizca";
   "placa"; "plan"; "plata"; "playa"; "plaza"; "pleito"; "pleno"; "plomo"; "pluma"; "plural"; "pobre";
   "poco"; "poder"; "podio"; "poema"; "poesía"; "poeta"; "polen"; "policía"; "pollo"; "polvo"; "pomada";
   "pomelo"; "pomo"; "pompa"; "poner"; "porción"; "portal"; "posada"; "poseer"; "posible"; "poste";
   "potencia"; "potro"; "pozo"; "prado"; "precoz"; "pregunta"; "premio"; "prensa"; "preso"; "previo";
   "primo"; "príncipe"; "prisión"; "privar"; "proa"; "probar"; "proceso"; "producto"; "proeza"; "profesor";
   "programa"; "prole"; "promesa"; "pronto"; "propio"; "próximo"; "prueba"; "público"; "puchero"; "pudor";
   "pueblo"; "puerta"; "puesto"; "pulga"; "pulir"; "pulmón"; "pulpo"; "pulso"; "puma"; "punto"; "puñal";
   "puño"; "pupa"; "pupila"; "puré"; "quedar"; "queja"; "quemar"; "querer"; "queso"; "quieto"; "química"].

Definition words_12 : list String.string :=
  ["quince"; "quitar"; "rábano"; "rabia"; "rabo"; "ración"; "radical"; "raíz"; "rama"; "rampa"; "rancho";
   "rango"; "rapaz"; "rápido"; "rapto"; "rasgo"; "raspa"; "rato"; "rayo"; "raza"; "razón"; "reacción";
   "realidad"; "rebaño"; "rebote"; "recaer"; "receta"; "rechazo"; "recoger"; "recreo"; "recto"; "recurso";
   "red"; "redondo"; "reducir"; "reflejo"; "reforma"; "refrán"; "refugio"; "regalo"; "regir"; "regla";
   "regreso"; "rehén"; "reino"; "reír"; "reja"; "relato"; "relevo"; "relieve"; "relleno"; "reloj"; "remar";
   "remedio"; "remo"; "rencor"; "rendir"; "renta"; "reparto"; "repetir"; "reposo"; "reptil"; "res";
   "rescate"; "resina"; "respeto"; "resto"; "resumen"; "retiro"; "retorno"; "retrato"; "reunir"; "revés";
   "revista"; "rey"; "rezar"; "rico"; "riego"; "rienda"; "riesgo"; "rifa"; "rígido"; "rigor"; "rincón";
   "riñón"; "río"; "riqueza"; "risa"; "ritmo"; "rito"; "rizo"; "roble"; "roce"; "rociar"; "rodar"; "rodeo";
   "rodilla"; "roer"; "rojizo"; "rojo"; "romero"; "romper"; "ron"; "ronco"; "ronda"; "ropa"; "ropero";
   "rosa"; "rosca"; "rostro"; "rotar"; "rubí"; "rubor"; "rudo"; "rueda"; "rugir"; "ruido"; "ruina"; "ruleta";
   "rulo"; "rumbo"; "rumor"; "ruptura"; "ruta"; "rutina"; "sábado"; "saber"; "sabio"].

Definition words_13 : list String.string :=
  ["sable"; "sacar"; "sagaz"; "sagrado"; "sala"; "saldo"; "salero"; "salir"; "salmón"; "salón"; "salsa";
   "salto"; "salud"; "salvar"; "samba"; "sanción"; "sandía"; "sanear"; "sangre"; "sanidad"; "sano"; "santo";
   "sapo"; "saque"; "sardina"; "sartén"; "sastre"; "satán"; "sauna"; "saxofón"; "sección"; "seco"; "secreto";
   "secta"; "sed"; "seguir"; "seis"; "sello"; "selva"; "semana"; "semilla"; "senda"; "sensor"; "señal";
   "señor"; "separar"; "sepia"; "sequía"; "ser"; "serie"; "sermón"; "servir"; "sesenta"; "sesión"; "seta";
   "setenta"; "severo"; "sexo"; "sexto"; "sidra"; "siesta"; "siete"; "siglo"; "signo"; "sílaba"; "silbar";
   "silencio"; "silla"; "símbolo"; "simio"; "sirena"; "sistema"; "sitio"; "situar"; "sobre"; "socio";
   "sodio"; "sol"; "solapa"; "soldado"; "soledad"; "sólido"; "soltar"; "solución"; "sombra"; "sondeo";
   "sonido"; "sonoro"; "sonrisa"; "sopa"; "soplar"; "soporte"; "sordo"; "sorpresa"; "sorteo"; "sostén";
   "sótano"; "suave"; "subir"; "suceso"; "sudor"; "suegra"; "suelo"; "sueño"; "suerte"; "sufrir"; "sujeto";
   "sultán"; "sumar"; "superar"; "suplir"; "suponer"; "supremo"; "sur"; "surco"; "sureño"; "surgir"; "susto";
   "sutil"; "tabaco"; "tabique"; "tabla"; "tabú"; "taco"; "tacto"; "tajo"; "talar"; "talco"].

Definition words_14 : list String.string :=
  ["talento"; "talla"; "talón"; "tamaño"; "tambor"; "tango"; "tanque"; "tapa"; "tapete"; "tapia"; "tapón";
   "taquilla"; "tarde"; "tarea"; "tarifa"; "tarjeta"; "tarot"; "tarro"; "tarta"; "tatuaje"; "tauro"; "taza";
   "tazón"; "teatro"; "techo"; "tecla"; "técnica"; "tejado"; "tejer"; "tejido"; "tela"; "teléfono"; "tema";
   "temor"; "templo"; "tenaz"; "tender"; "tener"; "tenis"; "tenso"; "teoría"; "terapia"; "terco"; "término";
   "ternura"; "terror"; "tesis"; "tesoro"; "testigo"; "tetera"; "texto"; "tez"; "tibio"; "tiburón"; "tiempo";
   "tienda"; "tierra"; "tieso"; "tigre"; "tijera"; "tilde"; "timbre"; "tímido"; "timo"; "tinta"; "tío";
   "típico"; "tipo"; "tira"; "tirón"; "titán"; "títere"; "título"; "tiza"; "toalla"; "tobillo"; "tocar";
   "tocino"; "todo"; "toga"; "toldo"; "tomar"; "tono"; "tonto"; "topar"; "tope"; "toque"; "tórax"; "torero";
   "tormenta"; "torneo"; "toro"; "torpedo"; "torre"; "torso"; "tortuga"; "tos"; "tosco"; "toser"; "tóxico";
   "trabajo"; "tractor"; "traer"; "tráfico"; "trago"; "traje"; "tramo"; "trance"; "trato"; "trauma";
   "trazar"; "trébol"; "tregua"; "treinta"; "tren"; "trepar"; "tres"; "tribu"; "trigo"; "tripa"; "triste";
   "triunfo"; "trofeo"; "trompa"; "tronco"; "tropa"; "trote"; "trozo"].

Definition words_15 : list String.string :=
  ["truco"; "trueno"; "trufa"; "tubería"; "tubo"; "tuerto"; "tumba"; "tumor"; "túnel"; "túnica"; "turbina";
   "turismo"; "turno"; "tutor"; "ubicar"; "úlcera"; "umbral"; "unidad"; "unir"; "universo"; "uno"; "untar";
   "uña"; "urbano"; "urbe"; "urgente"; "urna"; "usar"; "usuario"; "útil"; "utopía"; "uva"; "vaca"; "vacío";
   "vacuna"; "vagar"; "vago"; "vaina"; "vajilla"; "vale"; "válido"; "valle"; "valor"; "válvula"; "vampiro";
   "vara"; "variar"; "varón"; "vaso"; "vecino"; "vector"; "vehículo"; "veinte"; "vejez"; "vela"; "velero";
   "veloz"; "vena"; "vencer"; "venda"; "veneno"; "vengar"; "venir"; "venta"; "venus"; "ver"; "verano";
   "verbo"; "verde"; "vereda"; "verja"; "verso"; "verter"; "vía"; "viaje"; "vibrar"; "vicio"; "víctima";
   "vida"; "vídeo"; "vidrio"; "viejo"; "viernes"; "vigor"; "vil"; "villa"; "vinagre"; "vino"; "viñedo";
   "violín"; "viral"; "virgo"; "virtud"; "visor"; "víspera"; "vista"; "vitamina"; "viudo"; "vivaz"; "vivero";
   "vivir"; "vivo"; "volcán"; "volumen"; "volver"; "voraz"; "votar"; "voto"; "voz"; "vuelo"; "vulgar";
   "yacer"; "yate"; "yegua"; "yema"; "yerno"; "yeso"; "yodo"; "yoga"; "yogur"; "zafiro"; "zanja"; "zapato";
   "zarza"; "zona"; "zorro"; "zumo"; "zurdo"].

(** The Spanish word list. *)
Definition words : list String.string :=
  words_0 ++ words_1 ++ words_2 ++ words_3 ++ words_4 ++ words_5 ++ words_6 ++ words_7 ++
  words_8 ++ words_9 ++ words_10 ++ words_11 ++ words_12 ++ words_13 ++ words_14 ++ words_15.
End es.

Module it.
(** ** Italian *)

Definition words_0 : list String.string :=
  ["abaco"; "abbaglio"; "abbinato"; "abete"; "abisso"; "abolire"; "abrasivo"; "abrogato"; "accadere";
   "accenno"; "accusato"; "acetone"; "achille"; "acido"; "acqua"; "acre"; "acrilico"; "acrobata"; "acuto";
   "adagio"; "addebito"; "addome"; "adeguato"; "aderire"; "adipe"; "adottare"; "adulare"; "affabile";
   "affetto"; "affisso"; "affranto"; "aforisma"; "afoso"; "africano"; "agave"; "agente"; "agevole";
   "aggancio"; "agire"; "agitare"; "agonismo"; "agricolo"; "agrumeto"; "aguzzo"; "alabarda"; "alato";
   "albatro"; "alberato"; "albo"; "albume"; "alce"; "alcolico"; "alettone"; "alfa"; "algebra"; "aliante";
   "alibi"; "alimento"; "allagato"; "allegro"; "allievo"; "allodola"; "allusivo"; "almeno"; "alogeno";
   "alpaca"; "alpestre"; "altalena"; "alterno"; "alticcio"; "altrove"; "alunno"; "alveolo"; "alzare";
   "amalgama"; "amanita"; "amarena"; "ambito"; "ambrato"; "ameba"; "america"; "ametista"; "amico"; "ammasso";
   "ammenda"; "ammirare"; "ammonito"; "amore"; "ampio"; "ampliare"; "amuleto"; "anacardo"; "anagrafe";
   "analista"; "anarchia"; "anatra"; "anca"; "ancella"; "ancora"; "andare"; "andrea"; "anello"; "angelo";
   "angolare"; "angusto"; "anima"; "annegare"; "annidato"; "anno"; "annuncio"; "anonimo"; "anticipo"; "anzi";
   "apatico"; "apertura"; "apode"; "apparire"; "appetito"; "appoggio"; "approdo"; "appunto"; "aprile";
   "arabica"; "arachide"; "aragosta"; "araldica"; "arancio"; "aratura"].

Definition words_1 : list String.string :=
  ["arazzo"; "arbitro"; "archivio"; "ardito"; "arenile"; "argento"; "argine"; "arguto"; "aria"; "armonia";
   "arnese"; "arredato"; "arringa"; "arrosto"; "arsenico"; "arso"; "artefice"; "arzillo"; "asciutto";
   "ascolto"; "asepsi"; "asettico"; "asfalto"; "asino"; "asola"; "aspirato"; "aspro"; "assaggio"; "asse";
   "assoluto"; "assurdo"; "asta"; "astenuto"; "astice"; "astratto"; "atavico"; "ateismo"; "atomico"; "atono";
   "attesa"; "attivare"; "attorno"; "attrito"; "attuale"; "ausilio"; "austria"; "autista"; "autonomo";
   "autunno"; "avanzato"; "avere"; "avvenire"; "avviso"; "avvolgere"; "azione"; "azoto"; "azzimo"; "azzurro";
   "babele"; "baccano"; "bacino"; "baco"; "badessa"; "badilata"; "bagnato"; "baita"; "balcone"; "baldo";
   "balena"; "ballata"; "balzano"; "bambino"; "bandire"; "baraonda"; "barbaro"; "barca"; "baritono";
   "barlume"; "barocco"; "basilico"; "basso"; "batosta"; "battuto"; "baule"; "bava"; "bavosa"; "becco";
   "beffa"; "belgio"; "belva"; "benda"; "benevole"; "benigno"; "benzina"; "bere"; "berlina"; "beta";
   "bibita"; "bici"; "bidone"; "bifido"; "biga"; "bilancia"; "bimbo"; "binocolo"; "biologo"; "bipede";
   "bipolare"; "birbante"; "birra"; "biscotto"; "bisesto"; "bisnonno"; "bisonte"; "bisturi"; "bizzarro";
   "blando"; "blatta"; "bollito"; "bonifico"; "bordo"; "bosco"; "botanico"; "bottino"; "bozzolo"; "braccio";
   "bradipo"; "brama"].

Definition words_2 : list String.string :=
  ["branca"; "bravura"; "bretella"; "brevetto"; "brezza"; "briglia"; "brillante"; "brindare"; "broccolo";
   "brodo"; "bronzina"; "brullo"; "bruno"; "bubbone"; "buca"; "budino"; "buffone"; "buio"; "bulbo"; "buono";
   "burlone"; "burrasca"; "bussola"; "busta"; "cadetto"; "caduco"; "calamaro"; "calcolo"; "calesse";
   "calibro"; "calmo"; "caloria"; "cambusa"; "camerata"; "camicia"; "cammino"; "camola"; "campale"; "canapa";
   "candela"; "cane"; "canino"; "canotto"; "cantina"; "capace"; "capello"; "capitolo"; "capogiro"; "cappero";
   "capra"; "capsula"; "carapace"; "carcassa"; "cardo"; "carisma"; "carovana"; "carretto"; "cartolina";
   "casaccio"; "cascata"; "caserma"; "caso"; "cassone"; "castello"; "casuale"; "catasta"; "catena";
   "catrame"; "cauto"; "cavillo"; "cedibile"; "cedrata"; "cefalo"; "celebre"; "cellulare"; "cena"; "cenone";
   "centesimo"; "ceramica"; "cercare"; "certo"; "cerume"; "cervello"; "cesoia"; "cespo"; "ceto"; "chela";
   "chiaro"; "chicca"; "chiedere"; "chimera"; "china"; "chirurgo"; "chitarra"; "ciao"; "ciclismo"; "cifrare";
   "cigno"; "cilindro"; "ciottolo"; "circa"; "cirrosi"; "citrico"; "cittadino"; "ciuffo"; "civetta";
   "civile"; "classico"; "clinica"; "cloro"; "cocco"; "codardo"; "codice"; "coerente"; "cognome"; "collare";
   "colmato"; "colore"; "colposo"; "coltivato"; "colza"; "coma"; "cometa"; "commando"; "comodo"; "computer";
   "comune"; "conciso"].

Definition words_3 : list String.string :=
  ["condurre"; "conferma"; "congelare"; "coniuge"; "connesso"; "conoscere"; "consumo"; "continuo";
   "convegno"; "coperto"; "copione"; "coppia"; "copricapo"; "corazza"; "cordata"; "coricato"; "cornice";
   "corolla"; "corpo"; "corredo"; "corsia"; "cortese"; "cosmico"; "costante"; "cottura"; "covato"; "cratere";
   "cravatta"; "creato"; "credere"; "cremoso"; "crescita"; "creta"; "criceto"; "crinale"; "crisi"; "critico";
   "croce"; "cronaca"; "crostata"; "cruciale"; "crusca"; "cucire"; "cuculo"; "cugino"; "cullato"; "cupola";
   "curatore"; "cursore"; "curvo"; "cuscino"; "custode"; "dado"; "daino"; "dalmata"; "damerino"; "daniela";
   "dannoso"; "danzare"; "datato"; "davanti"; "davvero"; "debutto"; "decennio"; "deciso"; "declino";
   "decollo"; "decreto"; "dedicato"; "definito"; "deforme"; "degno"; "delegare"; "delfino"; "delirio";
   "delta"; "demenza"; "denotato"; "dentro"; "deposito"; "derapata"; "derivare"; "deroga"; "descritto";
   "deserto"; "desiderio"; "desumere"; "detersivo"; "devoto"; "diametro"; "dicembre"; "diedro"; "difeso";
   "diffuso"; "digerire"; "digitale"; "diluvio"; "dinamico"; "dinnanzi"; "dipinto"; "diploma"; "dipolo";
   "diradare"; "dire"; "dirotto"; "dirupo"; "disagio"; "discreto"; "disfare"; "disgelo"; "disposto";
   "distanza"; "disumano"; "dito"; "divano"; "divelto"; "dividere"; "divorato"; "doblone"; "docente";
   "doganale"; "dogma"; "dolce"; "domato"; "domenica"; "dominare"; "dondolo"; "dono"].

Definition words_4 : list String.string :=
  ["dormire"; "dote"; "dottore"; "dovuto"; "dozzina"; "drago"; "druido"; "dubbio"; "dubitare"; "ducale";
   "duna"; "duomo"; "duplice"; "duraturo"; "ebano"; "eccesso"; "ecco"; "eclissi"; "economia"; "edera";
   "edicola"; "edile"; "editoria"; "educare"; "egemonia"; "egli"; "egoismo"; "egregio"; "elaborato";
   "elargire"; "elegante"; "elencato"; "eletto"; "elevare"; "elfico"; "elica"; "elmo"; "elsa"; "eluso";
   "emanato"; "emblema"; "emesso"; "emiro"; "emotivo"; "emozione"; "empirico"; "emulo"; "endemico"; "enduro";
   "energia"; "enfasi"; "enoteca"; "entrare"; "enzima"; "epatite"; "epilogo"; "episodio"; "epocale";
   "eppure"; "equatore"; "erario"; "erba"; "erboso"; "erede"; "eremita"; "erigere"; "ermetico"; "eroe";
   "erosivo"; "errante"; "esagono"; "esame"; "esanime"; "esaudire"; "esca"; "esempio"; "esercito"; "esibito";
   "esigente"; "esistere"; "esito"; "esofago"; "esortato"; "esoso"; "espanso"; "espresso"; "essenza"; "esso";
   "esteso"; "estimare"; "estonia"; "estroso"; "esultare"; "etilico"; "etnico"; "etrusco"; "etto";
   "euclideo"; "europa"; "evaso"; "evidenza"; "evitato"; "evoluto"; "evviva"; "fabbrica"; "faccenda";
   "fachiro"; "falco"; "famiglia"; "fanale"; "fanfara"; "fango"; "fantasma"; "fare"; "farfalla"; "farinoso";
   "farmaco"; "fascia"; "fastoso"; "fasullo"; "faticare"; "fato"; "favoloso"; "febbre"; "fecola"; "fede";
   "fegato"; "felpa"].

Definition words_5 : list String.string :=
  ["feltro"; "femmina"; "fendere"; "fenomeno"; "fermento"; "ferro"; "fertile"; "fessura"; "festivo"; "fetta";
   "feudo"; "fiaba"; "fiducia"; "fifa"; "figurato"; "filo"; "finanza"; "finestra"; "finire"; "fiore";
   "fiscale"; "fisico"; "fiume"; "flacone"; "flamenco"; "flebo"; "flemma"; "florido"; "fluente"; "fluoro";
   "fobico"; "focaccia"; "focoso"; "foderato"; "foglio"; "folata"; "folclore"; "folgore"; "fondente";
   "fonetico"; "fonia"; "fontana"; "forbito"; "forchetta"; "foresta"; "formica"; "fornaio"; "foro";
   "fortezza"; "forzare"; "fosfato"; "fosso"; "fracasso"; "frana"; "frassino"; "fratello"; "freccetta";
   "frenata"; "fresco"; "frigo"; "frollino"; "fronde"; "frugale"; "frutta"; "fucilata"; "fucsia"; "fuggente";
   "fulmine"; "fulvo"; "fumante"; "fumetto"; "fumoso"; "fune"; "funzione"; "fuoco"; "furbo"; "furgone";
   "furore"; "fuso"; "futile"; "gabbiano"; "gaffe"; "galateo"; "gallina"; "galoppo"; "gambero"; "gamma";
   "garanzia"; "garbo"; "garofano"; "garzone"; "gasdotto"; "gasolio"; "gastrico"; "gatto"; "gaudio";
   "gazebo"; "gazzella"; "geco"; "gelatina"; "gelso"; "gemello"; "gemmato"; "gene"; "genitore"; "gennaio";
   "genotipo"; "gergo"; "ghepardo"; "ghiaccio"; "ghisa"; "giallo"; "gilda"; "ginepro"; "giocare"; "gioiello";
   "giorno"; "giove"; "girato"; "girone"; "gittata"; "giudizio"; "giurato"; "giusto"; "globulo"; "glutine";
   "gnomo"; "gobba"].

Definition words_6 : list String.string :=
  ["golf"; "gomito"; "gommone"; "gonfio"; "gonna"; "governo"; "gracile"; "grado"; "grafico"; "grammo";
   "grande"; "grattare"; "gravoso"; "grazia"; "greca"; "gregge"; "grifone"; "grigio"; "grinza"; "grotta";
   "gruppo"; "guadagno"; "guaio"; "guanto"; "guardare"; "gufo"; "guidare"; "ibernato"; "icona"; "identico";
   "idillio"; "idolo"; "idra"; "idrico"; "idrogeno"; "igiene"; "ignaro"; "ignorato"; "ilare"; "illeso";
   "illogico"; "illudere"; "imballo"; "imbevuto"; "imbocco"; "imbuto"; "immane"; "immerso"; "immolato";
   "impacco"; "impeto"; "impiego"; "importo"; "impronta"; "inalare"; "inarcare"; "inattivo"; "incanto";
   "incendio"; "inchino"; "incisivo"; "incluso"; "incontro"; "incrocio"; "incubo"; "indagine"; "india";
   "indole"; "inedito"; "infatti"; "infilare"; "inflitto"; "ingaggio"; "ingegno"; "inglese"; "ingordo";
   "ingrosso"; "innesco"; "inodore"; "inoltrare"; "inondato"; "insano"; "insetto"; "insieme"; "insonnia";
   "insulina"; "intasato"; "intero"; "intonaco"; "intuito"; "inumidire"; "invalido"; "invece"; "invito";
   "iperbole"; "ipnotico"; "ipotesi"; "ippica"; "iride"; "irlanda"; "ironico"; "irrigato"; "irrorare";
   "isolato"; "isotopo"; "isterico"; "istituto"; "istrice"; "italia"; "iterare"; "labbro"; "labirinto";
   "lacca"; "lacerato"; "lacrima"; "lacuna"; "laddove"; "lago"; "lampo"; "lancetta"; "lanterna"; "lardoso";
   "larga"; "laringe"; "lastra"; "latenza"; "latino"; "lattuga"].

Definition words_7 : list String.string :=
  ["lavagna"; "lavoro"; "legale"; "leggero"; "lembo"; "lentezza"; "lenza"; "leone"; "lepre"; "lesivo";
   "lessato"; "lesto"; "letterale"; "leva"; "levigato"; "libero"; "lido"; "lievito"; "lilla"; "limatura";
   "limitare"; "limpido"; "lineare"; "lingua"; "liquido"; "lira"; "lirica"; "lisca"; "lite"; "litigio";
   "livrea"; "locanda"; "lode"; "logica"; "lombare"; "londra"; "longevo"; "loquace"; "lorenzo"; "loto";
   "lotteria"; "luce"; "lucidato"; "lumaca"; "luminoso"; "lungo"; "lupo"; "luppolo"; "lusinga"; "lusso";
   "lutto"; "macabro"; "macchina"; "macero"; "macinato"; "madama"; "magico"; "maglia"; "magnete"; "magro";
   "maiolica"; "malafede"; "malgrado"; "malinteso"; "malsano"; "malto"; "malumore"; "mana"; "mancia";
   "mandorla"; "mangiare"; "manifesto"; "mannaro"; "manovra"; "mansarda"; "mantide"; "manubrio"; "mappa";
   "maratona"; "marcire"; "maretta"; "marmo"; "marsupio"; "maschera"; "massaia"; "mastino"; "materasso";
   "matricola"; "mattone"; "maturo"; "mazurca"; "meandro"; "meccanico"; "mecenate"; "medesimo"; "meditare";
   "mega"; "melassa"; "melis"; "melodia"; "meninge"; "meno"; "mensola"; "mercurio"; "merenda"; "merlo";
   "meschino"; "mese"; "messere"; "mestolo"; "metallo"; "metodo"; "mettere"; "miagolare"; "mica"; "micelio";
   "michele"; "microbo"; "midollo"; "miele"; "migliore"; "milano"; "milite"; "mimosa"; "minerale"; "mini";
   "minore"; "mirino"].

Definition words_8 : list String.string :=
  ["mirtillo"; "miscela"; "missiva"; "misto"; "misurare"; "mitezza"; "mitigare"; "mitra"; "mittente";
   "mnemonico"; "modello"; "modifica"; "modulo"; "mogano"; "mogio"; "mole"; "molosso"; "monastero"; "monco";
   "mondina"; "monetario"; "monile"; "monotono"; "monsone"; "montato"; "monviso"; "mora"; "mordere";
   "morsicato"; "mostro"; "motivato"; "motosega"; "motto"; "movenza"; "movimento"; "mozzo"; "mucca";
   "mucosa"; "muffa"; "mughetto"; "mugnaio"; "mulatto"; "mulinello"; "multiplo"; "mummia"; "munto";
   "muovere"; "murale"; "musa"; "muscolo"; "musica"; "mutevole"; "muto"; "nababbo"; "nafta"; "nanometro";
   "narciso"; "narice"; "narrato"; "nascere"; "nastrare"; "naturale"; "nautica"; "naviglio"; "nebulosa";
   "necrosi"; "negativo"; "negozio"; "nemmeno"; "neofita"; "neretto"; "nervo"; "nessuno"; "nettuno";
   "neutrale"; "neve"; "nevrotico"; "nicchia"; "ninfa"; "nitido"; "nobile"; "nocivo"; "nodo"; "nome";
   "nomina"; "nordico"; "normale"; "norvegese"; "nostrano"; "notare"; "notizia"; "notturno"; "novella";
   "nucleo"; "nulla"; "numero"; "nuovo"; "nutrire"; "nuvola"; "nuziale"; "oasi"; "obbedire"; "obbligo";
   "obelisco"; "oblio"; "obolo"; "obsoleto"; "occasione"; "occhio"; "occidente"; "occorrere"; "occultare";
   "ocra"; "oculato"; "odierno"; "odorare"; "offerta"; "offrire"; "offuscato"; "oggetto"; "oggi"; "ognuno";
   "olandese"; "olfatto"; "oliato"; "oliva"; "ologramma"; "oltre"].

Definition words_9 : list String.string :=
  ["omaggio"; "ombelico"; "ombra"; "omega"; "omissione"; "ondoso"; "onere"; "onice"; "onnivoro"; "onorevole";
   "onta"; "operato"; "opinione"; "opposto"; "oracolo"; "orafo"; "ordine"; "orecchino"; "orefice"; "orfano";
   "organico"; "origine"; "orizzonte"; "orma"; "ormeggio"; "ornativo"; "orologio"; "orrendo"; "orribile";
   "ortensia"; "ortica"; "orzata"; "orzo"; "osare"; "oscurare"; "osmosi"; "ospedale"; "ospite"; "ossa";
   "ossidare"; "ostacolo"; "oste"; "otite"; "otre"; "ottagono"; "ottimo"; "ottobre"; "ovale"; "ovest";
   "ovino"; "oviparo"; "ovocito"; "ovunque"; "ovviare"; "ozio"; "pacchetto"; "pace"; "pacifico"; "padella";
   "padrone"; "paese"; "paga"; "pagina"; "palazzina"; "palesare"; "pallido"; "palo"; "palude"; "pandoro";
   "pannello"; "paolo"; "paonazzo"; "paprica"; "parabola"; "parcella"; "parere"; "pargolo"; "pari";
   "parlato"; "parola"; "partire"; "parvenza"; "parziale"; "passivo"; "pasticca"; "patacca"; "patologia";
   "pattume"; "pavone"; "peccato"; "pedalare"; "pedonale"; "peggio"; "peloso"; "penare"; "pendice";
   "penisola"; "pennuto"; "penombra"; "pensare"; "pentola"; "pepe"; "pepita"; "perbene"; "percorso";
   "perdonato"; "perforare"; "pergamena"; "periodo"; "permesso"; "perno"; "perplesso"; "persuaso";
   "pertugio"; "pervaso"; "pesatore"; "pesista"; "peso"; "pestifero"; "petalo"; "pettine"; "petulante";
   "pezzo"; "piacere"; "pianta"; "piattino"; "piccino"; "picozza"].

Definition words_10 : list String.string :=
  ["piega"; "pietra"; "piffero"; "pigiama"; "pigolio"; "pigro"; "pila"; "pilifero"; "pillola"; "pilota";
   "pimpante"; "pineta"; "pinna"; "pinolo"; "pioggia"; "piombo"; "piramide"; "piretico"; "pirite";
   "pirolisi"; "pitone"; "pizzico"; "placebo"; "planare"; "plasma"; "platano"; "plenario"; "pochezza";
   "poderoso"; "podismo"; "poesia"; "poggiare"; "polenta"; "poligono"; "pollice"; "polmonite"; "polpetta";
   "polso"; "poltrona"; "polvere"; "pomice"; "pomodoro"; "ponte"; "popoloso"; "porfido"; "poroso"; "porpora";
   "porre"; "portata"; "posa"; "positivo"; "possesso"; "postulato"; "potassio"; "potere"; "pranzo"; "prassi";
   "pratica"; "precluso"; "predica"; "prefisso"; "pregiato"; "prelievo"; "premere"; "prenotare"; "preparato";
   "presenza"; "pretesto"; "prevalso"; "prima"; "principe"; "privato"; "problema"; "procura"; "produrre";
   "profumo"; "progetto"; "prolunga"; "promessa"; "pronome"; "proposta"; "proroga"; "proteso"; "prova";
   "prudente"; "prugna"; "prurito"; "psiche"; "pubblico"; "pudica"; "pugilato"; "pugno"; "pulce"; "pulito";
   "pulsante"; "puntare"; "pupazzo"; "pupilla"; "puro"; "quadro"; "qualcosa"; "quasi"; "querela"; "quota";
   "raccolto"; "raddoppio"; "radicale"; "radunato"; "raffica"; "ragazzo"; "ragione"; "ragno"; "ramarro";
   "ramingo"; "ramo"; "randagio"; "rantolare"; "rapato"; "rapina"; "rappreso"; "rasatura"; "raschiato";
   "rasente"; "rassegna"; "rastrello"; "rata"; "ravveduto"; "reale"].

Definition words_11 : list String.string :=
  ["recepire"; "recinto"; "recluta"; "recondito"; "recupero"; "reddito"; "redimere"; "regalato"; "registro";
   "regola"; "regresso"; "relazione"; "remare"; "remoto"; "renna"; "replica"; "reprimere"; "reputare";
   "resa"; "residente"; "responso"; "restauro"; "rete"; "retina"; "retorica"; "rettifica"; "revocato";
   "riassunto"; "ribadire"; "ribelle"; "ribrezzo"; "ricarica"; "ricco"; "ricevere"; "riciclato"; "ricordo";
   "ricreduto"; "ridicolo"; "ridurre"; "rifasare"; "riflesso"; "riforma"; "rifugio"; "rigare"; "rigettato";
   "righello"; "rilassato"; "rilevato"; "rimanere"; "rimbalzo"; "rimedio"; "rimorchio"; "rinascita";
   "rincaro"; "rinforzo"; "rinnovo"; "rinomato"; "rinsavito"; "rintocco"; "rinuncia"; "rinvenire";
   "riparato"; "ripetuto"; "ripieno"; "riportare"; "ripresa"; "ripulire"; "risata"; "rischio"; "riserva";
   "risibile"; "riso"; "rispetto"; "ristoro"; "risultato"; "risvolto"; "ritardo"; "ritegno"; "ritmico";
   "ritrovo"; "riunione"; "riva"; "riverso"; "rivincita"; "rivolto"; "rizoma"; "roba"; "robotico"; "robusto";
   "roccia"; "roco"; "rodaggio"; "rodere"; "roditore"; "rogito"; "rollio"; "romantico"; "rompere"; "ronzio";
   "rosolare"; "rospo"; "rotante"; "rotondo"; "rotula"; "rovescio"; "rubizzo"; "rubrica"; "ruga"; "rullino";
   "rumine"; "rumoroso"; "ruolo"; "rupe"; "russare"; "rustico"; "sabato"; "sabbiare"; "sabotato"; "sagoma";
   "salasso"; "saldatura"; "salgemma"; "salivare"; "salmone"; "salone"; "saltare"; "saluto"; "salvo"].

Definition words_12 : list String.string :=
  ["sapere"; "sapido"; "saporito"; "saraceno"; "sarcasmo"; "sarto"; "sassoso"; "satellite"; "satira";
   "satollo"; "saturno"; "savana"; "savio"; "saziato"; "sbadiglio"; "sbalzo"; "sbancato"; "sbarra";
   "sbattere"; "sbavare"; "sbendare"; "sbirciare"; "sbloccato"; "sbocciato"; "sbrinare"; "sbruffone";
   "sbuffare"; "scabroso"; "scadenza"; "scala"; "scambiare"; "scandalo"; "scapola"; "scarso"; "scatenare";
   "scavato"; "scelto"; "scenico"; "scettro"; "scheda"; "schiena"; "sciarpa"; "scienza"; "scindere";
   "scippo"; "sciroppo"; "scivolo"; "sclerare"; "scodella"; "scolpito"; "scomparto"; "sconforto"; "scoprire";
   "scorta"; "scossone"; "scozzese"; "scriba"; "scrollare"; "scrutinio"; "scuderia"; "scultore"; "scuola";
   "scuro"; "scusare"; "sdebitare"; "sdoganare"; "seccatura"; "secondo"; "sedano"; "seggiola"; "segnalato";
   "segregato"; "seguito"; "selciato"; "selettivo"; "sella"; "selvaggio"; "semaforo"; "sembrare"; "seme";
   "seminato"; "sempre"; "senso"; "sentire"; "sepolto"; "sequenza"; "serata"; "serbato"; "sereno"; "serio";
   "serpente"; "serraglio"; "servire"; "sestina"; "setola"; "settimana"; "sfacelo"; "sfaldare"; "sfamato";
   "sfarzoso"; "sfaticato"; "sfera"; "sfida"; "sfilato"; "sfinge"; "sfocato"; "sfoderare"; "sfogo";
   "sfoltire"; "sforzato"; "sfratto"; "sfruttato"; "sfuggito"; "sfumare"; "sfuso"; "sgabello"; "sgarbato";
   "sgonfiare"; "sgorbio"; "sgrassato"; "sguardo"; "sibilo"; "siccome"; "sierra"; "sigla"; "signore";
   "silenzio"; "sillaba"].

Definition words_13 : list String.string :=
  ["simbolo"; "simpatico"; "simulato"; "sinfonia"; "singolo"; "sinistro"; "sino"; "sintesi"; "sinusoide";
   "sipario"; "sisma"; "sistole"; "situato"; "slitta"; "slogatura"; "sloveno"; "smarrito"; "smemorato";
   "smentito"; "smeraldo"; "smilzo"; "smontare"; "smottato"; "smussato"; "snellire"; "snervato"; "snodo";
   "sobbalzo"; "sobrio"; "soccorso"; "sociale"; "sodale"; "soffitto"; "sogno"; "soldato"; "solenne";
   "solido"; "sollazzo"; "solo"; "solubile"; "solvente"; "somatico"; "somma"; "sonda"; "sonetto";
   "sonnifero"; "sopire"; "soppeso"; "sopra"; "sorgere"; "sorpasso"; "sorriso"; "sorso"; "sorteggio";
   "sorvolato"; "sospiro"; "sosta"; "sottile"; "spada"; "spalla"; "spargere"; "spatola"; "spavento";
   "spazzola"; "specie"; "spedire"; "spegnere"; "spelatura"; "speranza"; "spessore"; "spettrale"; "spezzato";
   "spia"; "spigoloso"; "spillato"; "spinoso"; "spirale"; "splendido"; "sportivo"; "sposo"; "spranga";
   "sprecare"; "spronato"; "spruzzo"; "spuntino"; "squillo"; "sradicare"; "srotolato"; "stabile"; "stacco";
   "staffa"; "stagnare"; "stampato"; "stantio"; "starnuto"; "stasera"; "statuto"; "stelo"; "steppa";
   "sterzo"; "stiletto"; "stima"; "stirpe"; "stivale"; "stizzoso"; "stonato"; "storico"; "strappo";
   "stregato"; "stridulo"; "strozzare"; "strutto"; "stuccare"; "stufo"; "stupendo"; "subentro"; "succoso";
   "sudore"; "suggerito"; "sugo"; "sultano"; "suonare"; "superbo"; "supporto"; "surgelato"; "surrogato";
   "sussurro"; "sutura"].

Definition words_14 : list String.string :=
  ["svagare"; "svedese"; "sveglio"; "svelare"; "svenuto"; "svezia"; "sviluppo"; "svista"; "svizzera";
   "svolta"; "svuotare"; "tabacco"; "tabulato"; "tacciare"; "taciturno"; "tale"; "talismano"; "tampone";
   "tannino"; "tara"; "tardivo"; "targato"; "tariffa"; "tarpare"; "tartaruga"; "tasto"; "tattico"; "taverna";
   "tavolata"; "tazza"; "teca"; "tecnico"; "telefono"; "temerario"; "tempo"; "temuto"; "tendone"; "tenero";
   "tensione"; "tentacolo"; "teorema"; "terme"; "terrazzo"; "terzetto"; "tesi"; "tesserato"; "testato";
   "tetro"; "tettoia"; "tifare"; "tigella"; "timbro"; "tinto"; "tipico"; "tipografo"; "tiraggio"; "tiro";
   "titanio"; "titolo"; "titubante"; "tizio"; "tizzone"; "toccare"; "tollerare"; "tolto"; "tombola"; "tomo";
   "tonfo"; "tonsilla"; "topazio"; "topologia"; "toppa"; "torba"; "tornare"; "torrone"; "tortora"; "toscano";
   "tossire"; "tostatura"; "totano"; "trabocco"; "trachea"; "trafila"; "tragedia"; "tralcio"; "tramonto";
   "transito"; "trapano"; "trarre"; "trasloco"; "trattato"; "trave"; "treccia"; "tremolio"; "trespolo";
   "tributo"; "tricheco"; "trifoglio"; "trillo"; "trincea"; "trio"; "tristezza"; "triturato"; "trivella";
   "tromba"; "trono"; "troppo"; "trottola"; "trovare"; "truccato"; "tubatura"; "tuffato"; "tulipano";
   "tumulto"; "tunisia"; "turbare"; "turchino"; "tuta"; "tutela"; "ubicato"; "uccello"; "uccisore"; "udire";
   "uditivo"; "uffa"; "ufficio"; "uguale"; "ulisse"].

Definition words_15 : list String.string :=
  ["ultimato"; "umano"; "umile"; "umorismo"; "uncinetto"; "ungere"; "ungherese"; "unicorno"; "unificato";
   "unisono"; "unitario"; "unte"; "uovo"; "upupa"; "uragano"; "urgenza"; "urlo"; "usanza"; "usato"; "uscito";
   "usignolo"; "usuraio"; "utensile"; "utilizzo"; "utopia"; "vacante"; "vaccinato"; "vagabondo"; "vagliato";
   "valanga"; "valgo"; "valico"; "valletta"; "valoroso"; "valutare"; "valvola"; "vampata"; "vangare";
   "vanitoso"; "vano"; "vantaggio"; "vanvera"; "vapore"; "varano"; "varcato"; "variante"; "vasca"; "vedetta";
   "vedova"; "veduto"; "vegetale"; "veicolo"; "velcro"; "velina"; "velluto"; "veloce"; "venato"; "vendemmia";
   "vento"; "verace"; "verbale"; "vergogna"; "verifica"; "vero"; "verruca"; "verticale"; "vescica";
   "vessillo"; "vestale"; "veterano"; "vetrina"; "vetusto"; "viandante"; "vibrante"; "vicenda"; "vichingo";
   "vicinanza"; "vidimare"; "vigilia"; "vigneto"; "vigore"; "vile"; "villano"; "vimini"; "vincitore";
   "viola"; "vipera"; "virgola"; "virologo"; "virulento"; "viscoso"; "visione"; "vispo"; "vissuto"; "visura";
   "vita"; "vitello"; "vittima"; "vivanda"; "vivido"; "viziare"; "voce"; "voga"; "volatile"; "volere";
   "volpe"; "voragine"; "vulcano"; "zampogna"; "zanna"; "zappato"; "zattera"; "zavorra"; "zefiro"; "zelante";
   "zelo"; "zenzero"; "zerbino"; "zibetto"; "zinco"; "zircone"; "zitto"; "zolla"; "zotico"; "zucchero";
   "zufolo"; "zulu"; "zuppa"].

(** The Italian word list. *)
Definition words : list String.string :=
  words_0 ++ words_1 ++ words_2 ++ words_3 ++ words_4 ++ words_5 ++ words_6 ++ words_7 ++
  words_8 ++ words_9 ++ words_10 ++ words_11 ++ words_12 ++ words_13 ++ words_14 ++ words_15.
End it.

Module fr.
(** ** French *)

Definition words_0 : list String.string :=
  ["abaisser"; "abandon"; "abdiquer"; "abeille"; "abolir"; "aborder"; "aboutir"; "aboyer"; "abrasif";
   "abreuver"; "abriter"; "abroger"; "abrupt"; "absence"; "absolu"; "absurde"; "abusif"; "abyssal";
   "académie"; "acajou"; "acarien"; "accabler"; "accepter"; "acclamer"; "accolade"; "accroche"; "accuser";
   "acerbe"; "achat"; "acheter"; "aciduler"; "acier"; "acompte"; "acquérir"; "acronyme"; "acteur"; "actif";
   "actuel"; "adepte"; "adéquat"; "adhésif"; "adjectif"; "adjuger"; "admettre"; "admirer"; "adopter";
   "adorer"; "adoucir"; "adresse"; "adroit"; "adulte"; "adverbe"; "aérer"; "aéronef"; "affaire";
   "affecter"; "affiche"; "affreux"; "affubler"; "agacer"; "agencer"; "agile"; "agiter"; "agrafer";
   "agréable"; "agrume"; "aider"; "aiguille"; "ailier"; "aimable"; "aisance"; "ajouter"; "ajuster";
   "alarmer"; "alchimie"; "alerte"; "algèbre"; "algue"; "aliéner"; "aliment"; "alléger"; "alliage";
   "allouer"; "allumer"; "alourdir"; "alpaga"; "altesse"; "alvéole"; "amateur"; "ambigu"; "ambre";
   "aménager"; "amertume"; "amidon"; "amiral"; "amorcer"; "amour"; "amovible"; "amphibie"; "ampleur";
   "amusant"; "analyse"; "anaphore"; "anarchie"; "anatomie"; "ancien"; "anéantir"; "angle"; "angoisse";
   "anguleux"; "animal"; "annexer"; "annonce"; "annuel"; "anodin"; "anomalie"; "anonyme"; "anormal";
   "antenne"; "antidote"; "anxieux"; "apaiser"; "apéritif"; "aplanir"; "apologie"; "appareil"; "appeler";
   "apporter"].

Definition words_1 : list String.string :=
  ["appuyer"; "aquarium"; "aqueduc"; "arbitre"; "arbuste"; "ardeur"; "ardoise"; "argent"; "arlequin";
   "armature"; "armement"; "armoire"; "armure"; "arpenter"; "arracher"; "arriver"; "arroser"; "arsenic";
   "artériel"; "article"; "aspect"; "asphalte"; "aspirer"; "assaut"; "asservir"; "assiette"; "associer";
   "assurer"; "asticot"; "astre"; "astuce"; "atelier"; "atome"; "atrium"; "atroce"; "attaque"; "attentif";
   "attirer"; "attraper"; "aubaine"; "auberge"; "audace"; "audible"; "augurer"; "aurore"; "automne";
   "autruche"; "avaler"; "avancer"; "avarice"; "avenir"; "averse"; "aveugle"; "aviateur"; "avide"; "avion";
   "aviser"; "avoine"; "avouer"; "avril"; "axial"; "axiome"; "badge"; "bafouer"; "bagage"; "baguette";
   "baignade"; "balancer"; "balcon"; "baleine"; "balisage"; "bambin"; "bancaire"; "bandage"; "banlieue";
   "bannière"; "banquier"; "barbier"; "baril"; "baron"; "barque"; "barrage"; "bassin"; "bastion";
   "bataille"; "bateau"; "batterie"; "baudrier"; "bavarder"; "belette"; "bélier"; "belote"; "bénéfice";
   "berceau"; "berger"; "berline"; "bermuda"; "besace"; "besogne"; "bétail"; "beurre"; "biberon"; "bicycle";
   "bidule"; "bijou"; "bilan"; "bilingue"; "billard"; "binaire"; "biologie"; "biopsie"; "biotype"; "biscuit";
   "bison"; "bistouri"; "bitume"; "bizarre"; "blafard"; "blague"; "blanchir"; "blessant"; "blinder"; "blond";
   "bloquer"; "blouson"; "bobard"; "bobine"; "boire"].

Definition words_2 : list String.string :=
  ["boiser"; "bolide"; "bonbon"; "bondir"; "bonheur"; "bonifier"; "bonus"; "bordure"; "borne"; "botte";
   "boucle"; "boueux"; "bougie"; "boulon"; "bouquin"; "bourse"; "boussole"; "boutique"; "boxeur"; "branche";
   "brasier"; "brave"; "brebis"; "brèche"; "breuvage"; "bricoler"; "brigade"; "brillant"; "brioche";
   "brique"; "brochure"; "broder"; "bronzer"; "brousse"; "broyeur"; "brume"; "brusque"; "brutal"; "bruyant";
   "buffle"; "buisson"; "bulletin"; "bureau"; "burin"; "bustier"; "butiner"; "butoir"; "buvable"; "buvette";
   "cabanon"; "cabine"; "cachette"; "cadeau"; "cadre"; "caféine"; "caillou"; "caisson"; "calculer";
   "calepin"; "calibre"; "calmer"; "calomnie"; "calvaire"; "camarade"; "caméra"; "camion"; "campagne";
   "canal"; "caneton"; "canon"; "cantine"; "canular"; "capable"; "caporal"; "caprice"; "capsule"; "capter";
   "capuche"; "carabine"; "carbone"; "caresser"; "caribou"; "carnage"; "carotte"; "carreau"; "carton";
   "cascade"; "casier"; "casque"; "cassure"; "causer"; "caution"; "cavalier"; "caverne"; "caviar";
   "cédille"; "ceinture"; "céleste"; "cellule"; "cendrier"; "censurer"; "central"; "cercle"; "cérébral";
   "cerise"; "cerner"; "cerveau"; "cesser"; "chagrin"; "chaise"; "chaleur"; "chambre"; "chance"; "chapitre";
   "charbon"; "chasseur"; "chaton"; "chausson"; "chavirer"; "chemise"; "chenille"; "chéquier"; "chercher";
   "cheval"; "chien"; "chiffre"; "chignon"; "chimère"].

Definition words_3 : list String.string :=
  ["chiot"; "chlorure"; "chocolat"; "choisir"; "chose"; "chouette"; "chrome"; "chute"; "cigare"; "cigogne";
   "cimenter"; "cinéma"; "cintrer"; "circuler"; "cirer"; "cirque"; "citerne"; "citoyen"; "citron"; "civil";
   "clairon"; "clameur"; "claquer"; "classe"; "clavier"; "client"; "cligner"; "climat"; "clivage"; "cloche";
   "clonage"; "cloporte"; "cobalt"; "cobra"; "cocasse"; "cocotier"; "coder"; "codifier"; "coffre"; "cogner";
   "cohésion"; "coiffer"; "coincer"; "colère"; "colibri"; "colline"; "colmater"; "colonel"; "combat";
   "comédie"; "commande"; "compact"; "concert"; "conduire"; "confier"; "congeler"; "connoter"; "consonne";
   "contact"; "convexe"; "copain"; "copie"; "corail"; "corbeau"; "cordage"; "corniche"; "corpus"; "correct";
   "cortège"; "cosmique"; "costume"; "coton"; "coude"; "coupure"; "courage"; "couteau"; "couvrir"; "coyote";
   "crabe"; "crainte"; "cravate"; "crayon"; "créature"; "créditer"; "crémeux"; "creuser"; "crevette";
   "cribler"; "crier"; "cristal"; "critère"; "croire"; "croquer"; "crotale"; "crucial"; "cruel"; "crypter";
   "cubique"; "cueillir"; "cuillère"; "cuisine"; "cuivre"; "culminer"; "cultiver"; "cumuler"; "cupide";
   "curatif"; "curseur"; "cyanure"; "cycle"; "cylindre"; "cynique"; "daigner"; "damier"; "danger"; "danseur";
   "dauphin"; "débattre"; "débiter"; "déborder"; "débrider"; "débutant"; "décaler"; "décembre";
   "déchirer"; "décider"; "déclarer"; "décorer"].

Definition words_4 : list String.string :=
  ["décrire"; "décupler"; "dédale"; "déductif"; "déesse"; "défensif"; "défiler"; "défrayer";
   "dégager"; "dégivrer"; "déglutir"; "dégrafer"; "déjeuner"; "délice"; "déloger"; "demander";
   "demeurer"; "démolir"; "dénicher"; "dénouer"; "dentelle"; "dénuder"; "départ"; "dépenser";
   "déphaser"; "déplacer"; "déposer"; "déranger"; "dérober"; "désastre"; "descente"; "désert";
   "désigner"; "désobéir"; "dessiner"; "destrier"; "détacher"; "détester"; "détourer"; "détresse";
   "devancer"; "devenir"; "deviner"; "devoir"; "diable"; "dialogue"; "diamant"; "dicter"; "différer";
   "digérer"; "digital"; "digne"; "diluer"; "dimanche"; "diminuer"; "dioxyde"; "directif"; "diriger";
   "discuter"; "disposer"; "dissiper"; "distance"; "divertir"; "diviser"; "docile"; "docteur"; "dogme";
   "doigt"; "domaine"; "domicile"; "dompter"; "donateur"; "donjon"; "donner"; "dopamine"; "dortoir";
   "dorure"; "dosage"; "doseur"; "dossier"; "dotation"; "douanier"; "double"; "douceur"; "douter"; "doyen";
   "dragon"; "draper"; "dresser"; "dribbler"; "droiture"; "duperie"; "duplexe"; "durable"; "durcir";
   "dynastie"; "éblouir"; "écarter"; "écharpe"; "échelle"; "éclairer"; "éclipse"; "éclore"; "écluse";
   "école"; "économie"; "écorce"; "écouter"; "écraser"; "écrémer"; "écrivain"; "écrou"; "écume";
   "écureuil"; "édifier"; "éduquer"; "effacer"; "effectif"; "effigie"; "effort"; "effrayer"; "effusion";
   "égaliser"; "égarer"; "éjecter"; "élaborer"; "élargir"; "électron"].

Definition words_5 : list String.string :=
  ["élégant"; "éléphant"; "élève"; "éligible"; "élitisme"; "éloge"; "élucider"; "éluder";
   "emballer"; "embellir"; "embryon"; "émeraude"; "émission"; "emmener"; "émotion"; "émouvoir";
   "empereur"; "employer"; "emporter"; "emprise"; "émulsion"; "encadrer"; "enchère"; "enclave"; "encoche";
   "endiguer"; "endosser"; "endroit"; "enduire"; "énergie"; "enfance"; "enfermer"; "enfouir"; "engager";
   "engin"; "englober"; "énigme"; "enjamber"; "enjeu"; "enlever"; "ennemi"; "ennuyeux"; "enrichir";
   "enrobage"; "enseigne"; "entasser"; "entendre"; "entier"; "entourer"; "entraver"; "énumérer"; "envahir";
   "enviable"; "envoyer"; "enzyme"; "éolien"; "épaissir"; "épargne"; "épatant"; "épaule"; "épicerie";
   "épidémie"; "épier"; "épilogue"; "épine"; "épisode"; "épitaphe"; "époque"; "épreuve";
   "éprouver"; "épuisant"; "équerre"; "équipe"; "ériger"; "érosion"; "erreur"; "éruption"; "escalier";
   "espadon"; "espèce"; "espiègle"; "espoir"; "esprit"; "esquiver"; "essayer"; "essence"; "essieu";
   "essorer"; "estime"; "estomac"; "estrade"; "étagère"; "étaler"; "étanche"; "étatique"; "éteindre";
   "étendoir"; "éternel"; "éthanol"; "éthique"; "ethnie"; "étirer"; "étoffer"; "étoile"; "étonnant";
   "étourdir"; "étrange"; "étroit"; "étude"; "euphorie"; "évaluer"; "évasion"; "éventail";
   "évidence"; "éviter"; "évolutif"; "évoquer"; "exact"; "exagérer"; "exaucer"; "exceller"; "excitant";
   "exclusif"; "excuse"; "exécuter"; "exemple"; "exercer"; "exhaler"].

Definition words_6 : list String.string :=
  ["exhorter"; "exigence"; "exiler"; "exister"; "exotique"; "expédier"; "explorer"; "exposer"; "exprimer";
   "exquis"; "extensif"; "extraire"; "exulter"; "fable"; "fabuleux"; "facette"; "facile"; "facture";
   "faiblir"; "falaise"; "fameux"; "famille"; "farceur"; "farfelu"; "farine"; "farouche"; "fasciner";
   "fatal"; "fatigue"; "faucon"; "fautif"; "faveur"; "favori"; "fébrile"; "féconder"; "fédérer";
   "félin"; "femme"; "fémur"; "fendoir"; "féodal"; "fermer"; "féroce"; "ferveur"; "festival"; "feuille";
   "feutre"; "février"; "fiasco"; "ficeler"; "fictif"; "fidèle"; "figure"; "filature"; "filetage";
   "filière"; "filleul"; "filmer"; "filou"; "filtrer"; "financer"; "finir"; "fiole"; "firme"; "fissure";
   "fixer"; "flairer"; "flamme"; "flasque"; "flatteur"; "fléau"; "flèche"; "fleur"; "flexion"; "flocon";
   "flore"; "fluctuer"; "fluide"; "fluvial"; "folie"; "fonderie"; "fongible"; "fontaine"; "forcer";
   "forgeron"; "formuler"; "fortune"; "fossile"; "foudre"; "fougère"; "fouiller"; "foulure"; "fourmi";
   "fragile"; "fraise"; "franchir"; "frapper"; "frayeur"; "frégate"; "freiner"; "frelon"; "frémir";
   "frénésie"; "frère"; "friable"; "friction"; "frisson"; "frivole"; "froid"; "fromage"; "frontal";
   "frotter"; "fruit"; "fugitif"; "fuite"; "fureur"; "furieux"; "furtif"; "fusion"; "futur"; "gagner";
   "galaxie"; "galerie"; "gambader"; "garantir"; "gardien"; "garnir"; "garrigue"].

Definition words_7 : list String.string :=
  ["gazelle"; "gazon"; "géant"; "gélatine"; "gélule"; "gendarme"; "général"; "génie"; "genou";
   "gentil"; "géologie"; "géomètre"; "géranium"; "germe"; "gestuel"; "geyser"; "gibier"; "gicler";
   "girafe"; "givre"; "glace"; "glaive"; "glisser"; "globe"; "gloire"; "glorieux"; "golfeur"; "gomme";
   "gonfler"; "gorge"; "gorille"; "goudron"; "gouffre"; "goulot"; "goupille"; "gourmand"; "goutte";
   "graduel"; "graffiti"; "graine"; "grand"; "grappin"; "gratuit"; "gravir"; "grenat"; "griffure"; "griller";
   "grimper"; "grogner"; "gronder"; "grotte"; "groupe"; "gruger"; "grutier"; "gruyère"; "guépard";
   "guerrier"; "guide"; "guimauve"; "guitare"; "gustatif"; "gymnaste"; "gyrostat"; "habitude"; "hachoir";
   "halte"; "hameau"; "hangar"; "hanneton"; "haricot"; "harmonie"; "harpon"; "hasard"; "hélium";
   "hématome"; "herbe"; "hérisson"; "hermine"; "héron"; "hésiter"; "heureux"; "hiberner"; "hibou";
   "hilarant"; "histoire"; "hiver"; "homard"; "hommage"; "homogène"; "honneur"; "honorer"; "honteux";
   "horde"; "horizon"; "horloge"; "hormone"; "horrible"; "houleux"; "housse"; "hublot"; "huileux"; "humain";
   "humble"; "humide"; "humour"; "hurler"; "hydromel"; "hygiène"; "hymne"; "hypnose"; "idylle"; "ignorer";
   "iguane"; "illicite"; "illusion"; "image"; "imbiber"; "imiter"; "immense"; "immobile"; "immuable";
   "impact"; "impérial"; "implorer"; "imposer"; "imprimer"; "imputer"; "incarner"].

Definition words_8 : list String.string :=
  ["incendie"; "incident"; "incliner"; "incolore"; "indexer"; "indice"; "inductif"; "inédit"; "ineptie";
   "inexact"; "infini"; "infliger"; "informer"; "infusion"; "ingérer"; "inhaler"; "inhiber"; "injecter";
   "injure"; "innocent"; "inoculer"; "inonder"; "inscrire"; "insecte"; "insigne"; "insolite"; "inspirer";
   "instinct"; "insulter"; "intact"; "intense"; "intime"; "intrigue"; "intuitif"; "inutile"; "invasion";
   "inventer"; "inviter"; "invoquer"; "ironique"; "irradier"; "irréel"; "irriter"; "isoler"; "ivoire";
   "ivresse"; "jaguar"; "jaillir"; "jambe"; "janvier"; "jardin"; "jauger"; "jaune"; "javelot"; "jetable";
   "jeton"; "jeudi"; "jeunesse"; "joindre"; "joncher"; "jongler"; "joueur"; "jouissif"; "journal"; "jovial";
   "joyau"; "joyeux"; "jubiler"; "jugement"; "junior"; "jupon"; "juriste"; "justice"; "juteux"; "juvénile";
   "kayak"; "kimono"; "kiosque"; "label"; "labial"; "labourer"; "lacérer"; "lactose"; "lagune"; "laine";
   "laisser"; "laitier"; "lambeau"; "lamelle"; "lampe"; "lanceur"; "langage"; "lanterne"; "lapin"; "largeur";
   "larme"; "laurier"; "lavabo"; "lavoir"; "lecture"; "légal"; "léger"; "légume"; "lessive"; "lettre";
   "levier"; "lexique"; "lézard"; "liasse"; "libérer"; "libre"; "licence"; "licorne"; "liège"; "lièvre";
   "ligature"; "ligoter"; "ligue"; "limer"; "limite"; "limonade"; "limpide"; "linéaire"; "lingot";
   "lionceau"; "liquide"; "lisière"; "lister"].

Definition words_9 : list String.string :=
  ["lithium"; "litige"; "littoral"; "livreur"; "logique"; "lointain"; "loisir"; "lombric"; "loterie";
   "louer"; "lourd"; "loutre"; "louve"; "loyal"; "lubie"; "lucide"; "lucratif"; "lueur"; "lugubre";
   "luisant"; "lumière"; "lunaire"; "lundi"; "luron"; "lutter"; "luxueux"; "machine"; "magasin"; "magenta";
   "magique"; "maigre"; "maillon"; "maintien"; "mairie"; "maison"; "majorer"; "malaxer"; "maléfice";
   "malheur"; "malice"; "mallette"; "mammouth"; "mandater"; "maniable"; "manquant"; "manteau"; "manuel";
   "marathon"; "marbre"; "marchand"; "mardi"; "maritime"; "marqueur"; "marron"; "marteler"; "mascotte";
   "massif"; "matériel"; "matière"; "matraque"; "maudire"; "maussade"; "mauve"; "maximal"; "méchant";
   "méconnu"; "médaille"; "médecin"; "méditer"; "méduse"; "meilleur"; "mélange"; "mélodie"; "membre";
   "mémoire"; "menacer"; "mener"; "menhir"; "mensonge"; "mentor"; "mercredi"; "mérite"; "merle";
   "messager"; "mesure"; "métal"; "météore"; "méthode"; "métier"; "meuble"; "miauler"; "microbe";
   "miette"; "mignon"; "migrer"; "milieu"; "million"; "mimique"; "mince"; "minéral"; "minimal"; "minorer";
   "minute"; "miracle"; "miroiter"; "missile"; "mixte"; "mobile"; "moderne"; "moelleux"; "mondial";
   "moniteur"; "monnaie"; "monotone"; "monstre"; "montagne"; "monument"; "moqueur"; "morceau"; "morsure";
   "mortier"; "moteur"; "motif"; "mouche"; "moufle"; "moulin"; "mousson"; "mouton"].

Definition words_10 : list String.string :=
  ["mouvant"; "multiple"; "munition"; "muraille"; "murène"; "murmure"; "muscle"; "muséum"; "musicien";
   "mutation"; "muter"; "mutuel"; "myriade"; "myrtille"; "mystère"; "mythique"; "nageur"; "nappe";
   "narquois"; "narrer"; "natation"; "nation"; "nature"; "naufrage"; "nautique"; "navire"; "nébuleux";
   "nectar"; "néfaste"; "négation"; "négliger"; "négocier"; "neige"; "nerveux"; "nettoyer"; "neurone";
   "neutron"; "neveu"; "niche"; "nickel"; "nitrate"; "niveau"; "noble"; "nocif"; "nocturne"; "noirceur";
   "noisette"; "nomade"; "nombreux"; "nommer"; "normatif"; "notable"; "notifier"; "notoire"; "nourrir";
   "nouveau"; "novateur"; "novembre"; "novice"; "nuage"; "nuancer"; "nuire"; "nuisible"; "numéro";
   "nuptial"; "nuque"; "nutritif"; "obéir"; "objectif"; "obliger"; "obscur"; "observer"; "obstacle";
   "obtenir"; "obturer"; "occasion"; "occuper"; "océan"; "octobre"; "octroyer"; "octupler"; "oculaire";
   "odeur"; "odorant"; "offenser"; "officier"; "offrir"; "ogive"; "oiseau"; "oisillon"; "olfactif";
   "olivier"; "ombrage"; "omettre"; "onctueux"; "onduler"; "onéreux"; "onirique"; "opale"; "opaque";
   "opérer"; "opinion"; "opportun"; "opprimer"; "opter"; "optique"; "orageux"; "orange"; "orbite";
   "ordonner"; "oreille"; "organe"; "orgueil"; "orifice"; "ornement"; "orque"; "ortie"; "osciller"; "osmose";
   "ossature"; "otarie"; "ouragan"; "ourson"; "outil"; "outrager"; "ouvrage"; "ovation"; "oxyde"].

Definition words_11 : list String.string :=
  ["oxygène"; "ozone"; "paisible"; "palace"; "palmarès"; "palourde"; "palper"; "panache"; "panda";
   "pangolin"; "paniquer"; "panneau"; "panorama"; "pantalon"; "papaye"; "papier"; "papoter"; "papyrus";
   "paradoxe"; "parcelle"; "paresse"; "parfumer"; "parler"; "parole"; "parrain"; "parsemer"; "partager";
   "parure"; "parvenir"; "passion"; "pastèque"; "paternel"; "patience"; "patron"; "pavillon"; "pavoiser";
   "payer"; "paysage"; "peigne"; "peintre"; "pelage"; "pélican"; "pelle"; "pelouse"; "peluche"; "pendule";
   "pénétrer"; "pénible"; "pensif"; "pénurie"; "pépite"; "péplum"; "perdrix"; "perforer"; "période";
   "permuter"; "perplexe"; "persil"; "perte"; "peser"; "pétale"; "petit"; "pétrir"; "peuple"; "pharaon";
   "phobie"; "phoque"; "photon"; "phrase"; "physique"; "piano"; "pictural"; "pièce"; "pierre"; "pieuvre";
   "pilote"; "pinceau"; "pipette"; "piquer"; "pirogue"; "piscine"; "piston"; "pivoter"; "pixel"; "pizza";
   "placard"; "plafond"; "plaisir"; "planer"; "plaque"; "plastron"; "plateau"; "pleurer"; "plexus"; "pliage";
   "plomb"; "plonger"; "pluie"; "plumage"; "pochette"; "poésie"; "poète"; "pointe"; "poirier"; "poisson";
   "poivre"; "polaire"; "policier"; "pollen"; "polygone"; "pommade"; "pompier"; "ponctuel"; "pondérer";
   "poney"; "portique"; "position"; "posséder"; "posture"; "potager"; "poteau"; "potion"; "pouce";
   "poulain"; "poumon"; "pourpre"; "poussin"; "pouvoir"].

Definition words_12 : list String.string :=
  ["prairie"; "pratique"; "précieux"; "prédire"; "préfixe"; "prélude"; "prénom"; "présence";
   "prétexte"; "prévoir"; "primitif"; "prince"; "prison"; "priver"; "problème"; "procéder"; "prodige";
   "profond"; "progrès"; "proie"; "projeter"; "prologue"; "promener"; "propre"; "prospère"; "protéger";
   "prouesse"; "proverbe"; "prudence"; "pruneau"; "psychose"; "public"; "puceron"; "puiser"; "pulpe";
   "pulsar"; "punaise"; "punitif"; "pupitre"; "purifier"; "puzzle"; "pyramide"; "quasar"; "querelle";
   "question"; "quiétude"; "quitter"; "quotient"; "racine"; "raconter"; "radieux"; "ragondin"; "raideur";
   "raisin"; "ralentir"; "rallonge"; "ramasser"; "rapide"; "rasage"; "ratisser"; "ravager"; "ravin";
   "rayonner"; "réactif"; "réagir"; "réaliser"; "réanimer"; "recevoir"; "réciter"; "réclamer";
   "récolter"; "recruter"; "reculer"; "recycler"; "rédiger"; "redouter"; "refaire"; "réflexe";
   "réformer"; "refrain"; "refuge"; "régalien"; "région"; "réglage"; "régulier"; "réitérer";
   "rejeter"; "rejouer"; "relatif"; "relever"; "relief"; "remarque"; "remède"; "remise"; "remonter";
   "remplir"; "remuer"; "renard"; "renfort"; "renifler"; "renoncer"; "rentrer"; "renvoi"; "replier";
   "reporter"; "reprise"; "reptile"; "requin"; "réserve"; "résineux"; "résoudre"; "respect"; "rester";
   "résultat"; "rétablir"; "retenir"; "réticule"; "retomber"; "retracer"; "réunion"; "réussir";
   "revanche"; "revivre"; "révolte"; "révulsif"; "richesse"; "rideau"; "rieur"].

Definition words_13 : list String.string :=
  ["rigide"; "rigoler"; "rincer"; "riposter"; "risible"; "risque"; "rituel"; "rival"; "rivière"; "rocheux";
   "romance"; "rompre"; "ronce"; "rondin"; "roseau"; "rosier"; "rotatif"; "rotor"; "rotule"; "rouge";
   "rouille"; "rouleau"; "routine"; "royaume"; "ruban"; "rubis"; "ruche"; "ruelle"; "rugueux"; "ruiner";
   "ruisseau"; "ruser"; "rustique"; "rythme"; "sabler"; "saboter"; "sabre"; "sacoche"; "safari"; "sagesse";
   "saisir"; "salade"; "salive"; "salon"; "saluer"; "samedi"; "sanction"; "sanglier"; "sarcasme"; "sardine";
   "saturer"; "saugrenu"; "saumon"; "sauter"; "sauvage"; "savant"; "savonner"; "scalpel"; "scandale";
   "scélérat"; "scénario"; "sceptre"; "schéma"; "science"; "scinder"; "score"; "scrutin"; "sculpter";
   "séance"; "sécable"; "sécher"; "secouer"; "sécréter"; "sédatif"; "séduire"; "seigneur"; "séjour";
   "sélectif"; "semaine"; "sembler"; "semence"; "séminal"; "sénateur"; "sensible"; "sentence"; "séparer";
   "séquence"; "serein"; "sergent"; "sérieux"; "serrure"; "sérum"; "service"; "sésame"; "sévir";
   "sevrage"; "sextuple"; "sidéral"; "siècle"; "siéger"; "siffler"; "sigle"; "signal"; "silence";
   "silicium"; "simple"; "sincère"; "sinistre"; "siphon"; "sirop"; "sismique"; "situer"; "skier"; "social";
   "socle"; "sodium"; "soigneux"; "soldat"; "soleil"; "solitude"; "soluble"; "sombre"; "sommeil"; "somnoler";
   "sonde"; "songeur"; "sonnette"; "sonore"].

Definition words_14 : list String.string :=
  ["sorcier"; "sortir"; "sosie"; "sottise"; "soucieux"; "soudure"; "souffle"; "soulever"; "soupape";
   "source"; "soutirer"; "souvenir"; "spacieux"; "spatial"; "spécial"; "sphère"; "spiral"; "stable";
   "station"; "sternum"; "stimulus"; "stipuler"; "strict"; "studieux"; "stupeur"; "styliste"; "sublime";
   "substrat"; "subtil"; "subvenir"; "succès"; "sucre"; "suffixe"; "suggérer"; "suiveur"; "sulfate";
   "superbe"; "supplier"; "surface"; "suricate"; "surmener"; "surprise"; "sursaut"; "survie"; "suspect";
   "syllabe"; "symbole"; "symétrie"; "synapse"; "syntaxe"; "système"; "tabac"; "tablier"; "tactile";
   "tailler"; "talent"; "talisman"; "talonner"; "tambour"; "tamiser"; "tangible"; "tapis"; "taquiner";
   "tarder"; "tarif"; "tartine"; "tasse"; "tatami"; "tatouage"; "taupe"; "taureau"; "taxer"; "témoin";
   "temporel"; "tenaille"; "tendre"; "teneur"; "tenir"; "tension"; "terminer"; "terne"; "terrible";
   "tétine"; "texte"; "thème"; "théorie"; "thérapie"; "thorax"; "tibia"; "tiède"; "timide"; "tirelire";
   "tiroir"; "tissu"; "titane"; "titre"; "tituber"; "toboggan"; "tolérant"; "tomate"; "tonique"; "tonneau";
   "toponyme"; "torche"; "tordre"; "tornade"; "torpille"; "torrent"; "torse"; "tortue"; "totem"; "toucher";
   "tournage"; "tousser"; "toxine"; "traction"; "trafic"; "tragique"; "trahir"; "train"; "trancher";
   "travail"; "trèfle"; "tremper"; "trésor"; "treuil"; "triage"; "tribunal"].

Definition words_15 : list String.string :=
  ["tricoter"; "trilogie"; "triomphe"; "tripler"; "triturer"; "trivial"; "trombone"; "tronc"; "tropical";
   "troupeau"; "tuile"; "tulipe"; "tumulte"; "tunnel"; "turbine"; "tuteur"; "tutoyer"; "tuyau"; "tympan";
   "typhon"; "typique"; "tyran"; "ubuesque"; "ultime"; "ultrason"; "unanime"; "unifier"; "union"; "unique";
   "unitaire"; "univers"; "uranium"; "urbain"; "urticant"; "usage"; "usine"; "usuel"; "usure"; "utile";
   "utopie"; "vacarme"; "vaccin"; "vagabond"; "vague"; "vaillant"; "vaincre"; "vaisseau"; "valable";
   "valise"; "vallon"; "valve"; "vampire"; "vanille"; "vapeur"; "varier"; "vaseux"; "vassal"; "vaste";
   "vecteur"; "vedette"; "végétal"; "véhicule"; "veinard"; "véloce"; "vendredi"; "vénérer"; "venger";
   "venimeux"; "ventouse"; "verdure"; "vérin"; "vernir"; "verrou"; "verser"; "vertu"; "veston"; "vétéran";
   "vétuste"; "vexant"; "vexer"; "viaduc"; "viande"; "victoire"; "vidange"; "vidéo"; "vignette"; "vigueur";
   "vilain"; "village"; "vinaigre"; "violon"; "vipère"; "virement"; "virtuose"; "virus"; "visage"; "viseur";
   "vision"; "visqueux"; "visuel"; "vital"; "vitesse"; "viticole"; "vitrine"; "vivace"; "vivipare";
   "vocation"; "voguer"; "voile"; "voisin"; "voiture"; "volaille"; "volcan"; "voltiger"; "volume"; "vorace";
   "vortex"; "voter"; "vouloir"; "voyage"; "voyelle"; "wagon"; "xénon"; "yacht"; "zèbre"; "zénith";
   "zeste"; "zoologie"].

(** The French word list. *)
Definition words : list String.string :=
  words_0 ++ words_1 ++ words_2 ++ words_3 ++ words_4 ++ words_5 ++ words_6 ++ words_7 ++
  words_8 ++ words_9 ++ words_10 ++ words_11 ++ words_12 ++ words_13 ++ words_14 ++ words_15.
End fr.

Module cs.
(** ** Czech *)

Definition words_0 : list String.string :=
  ["abdikace"; "abeceda"; "adresa"; "agrese"; "akce"; "aktovka"; "alej"; "alkohol"; "amputace"; "ananas";
   "andulka"; "anekdota"; "anketa"; "antika"; "anulovat"; "archa"; "arogance"; "asfalt"; "asistent";
   "aspirace"; "astma"; "astronom"; "atlas"; "atletika"; "atol"; "autobus"; "azyl"; "babka"; "bachor";
   "bacil"; "baculka"; "badatel"; "bageta"; "bagr"; "bahno"; "bakterie"; "balada"; "baletka"; "balkon";
   "balonek"; "balvan"; "balza"; "bambus"; "bankomat"; "barbar"; "baret"; "barman"; "baroko"; "barva";
   "baterka"; "batoh"; "bavlna"; "bazalka"; "bazilika"; "bazuka"; "bedna"; "beran"; "beseda"; "bestie";
   "beton"; "bezinka"; "bezmoc"; "beztak"; "bicykl"; "bidlo"; "biftek"; "bikiny"; "bilance"; "biograf";
   "biolog"; "bitva"; "bizon"; "blahobyt"; "blatouch"; "blecha"; "bledule"; "blesk"; "blikat"; "blizna";
   "blokovat"; "bloudit"; "blud"; "bobek"; "bobr"; "bodlina"; "bodnout"; "bohatost"; "bojkot"; "bojovat";
   "bokorys"; "bolest"; "borec"; "borovice"; "bota"; "boubel"; "bouchat"; "bouda"; "boule"; "bourat";
   "boxer"; "bradavka"; "brambora"; "branka"; "bratr"; "brepta"; "briketa"; "brko"; "brloh"; "bronz";
   "broskev"; "brunetka"; "brusinka"; "brzda"; "brzy"; "bublina"; "bubnovat"; "buchta"; "buditel"; "budka";
   "budova"; "bufet"; "bujarost"; "bukvice"; "buldok"; "bulva"; "bunda"; "bunkr"; "burza"].

Definition words_1 : list String.string :=
  ["butik"; "buvol"; "buzola"; "bydlet"; "bylina"; "bytovka"; "bzukot"; "capart"; "carevna"; "cedr";
   "cedule"; "cejch"; "cejn"; "cela"; "celer"; "celkem"; "celnice"; "cenina"; "cennost"; "cenovka";
   "centrum"; "cenzor"; "cestopis"; "cetka"; "chalupa"; "chapadlo"; "charita"; "chata"; "chechtat"; "chemie";
   "chichot"; "chirurg"; "chlad"; "chleba"; "chlubit"; "chmel"; "chmura"; "chobot"; "chochol"; "chodba";
   "cholera"; "chomout"; "chopit"; "choroba"; "chov"; "chrapot"; "chrlit"; "chrt"; "chrup"; "chtivost";
   "chudina"; "chutnat"; "chvat"; "chvilka"; "chvost"; "chyba"; "chystat"; "chytit"; "cibule"; "cigareta";
   "cihelna"; "cihla"; "cinkot"; "cirkus"; "cisterna"; "citace"; "citrus"; "cizinec"; "cizost"; "clona";
   "cokoliv"; "couvat"; "ctitel"; "ctnost"; "cudnost"; "cuketa"; "cukr"; "cupot"; "cvaknout"; "cval"; "cvik";
   "cvrkot"; "cyklista"; "daleko"; "dareba"; "datel"; "datum"; "dcera"; "debata"; "dechovka"; "decibel";
   "deficit"; "deflace"; "dekl"; "dekret"; "demokrat"; "deprese"; "derby"; "deska"; "detektiv"; "dikobraz";
   "diktovat"; "dioda"; "diplom"; "disk"; "displej"; "divadlo"; "divoch"; "dlaha"; "dlouho"; "dluhopis";
   "dnes"; "dobro"; "dobytek"; "docent"; "dochutit"; "dodnes"; "dohled"; "dohoda"; "dohra"; "dojem";
   "dojnice"; "doklad"; "dokola"; "doktor"; "dokument"; "dolar"; "doleva"].

Definition words_2 : list String.string :=
  ["dolina"; "doma"; "dominant"; "domluvit"; "domov"; "donutit"; "dopad"; "dopis"; "doplnit"; "doposud";
   "doprovod"; "dopustit"; "dorazit"; "dorost"; "dort"; "dosah"; "doslov"; "dostatek"; "dosud"; "dosyta";
   "dotaz"; "dotek"; "dotknout"; "doufat"; "doutnat"; "dovozce"; "dozadu"; "doznat"; "dozorce"; "drahota";
   "drak"; "dramatik"; "dravec"; "draze"; "drdol"; "drobnost"; "drogerie"; "drozd"; "drsnost"; "drtit";
   "drzost"; "duben"; "duchovno"; "dudek"; "duha"; "duhovka"; "dusit"; "dusno"; "dutost"; "dvojice";
   "dvorec"; "dynamit"; "ekolog"; "ekonomie"; "elektron"; "elipsa"; "email"; "emise"; "emoce"; "empatie";
   "epizoda"; "epocha"; "epopej"; "epos"; "esej"; "esence"; "eskorta"; "eskymo"; "etiketa"; "euforie";
   "evoluce"; "exekuce"; "exkurze"; "expedice"; "exploze"; "export"; "extrakt"; "facka"; "fajfka"; "fakulta";
   "fanatik"; "fantazie"; "farmacie"; "favorit"; "fazole"; "federace"; "fejeton"; "fenka"; "fialka";
   "figurant"; "filozof"; "filtr"; "finance"; "finta"; "fixace"; "fjord"; "flanel"; "flirt"; "flotila";
   "fond"; "fosfor"; "fotbal"; "fotka"; "foton"; "frakce"; "freska"; "fronta"; "fukar"; "funkce"; "fyzika";
   "galeje"; "garant"; "genetika"; "geolog"; "gilotina"; "glazura"; "glejt"; "golem"; "golfista"; "gotika";
   "graf"; "gramofon"; "granule"; "grep"; "gril"; "grog"; "groteska"; "guma"].

Definition words_3 : list String.string :=
  ["hadice"; "hadr"; "hala"; "halenka"; "hanba"; "hanopis"; "harfa"; "harpuna"; "havran"; "hebkost";
   "hejkal"; "hejno"; "hejtman"; "hektar"; "helma"; "hematom"; "herec"; "herna"; "heslo"; "hezky";
   "historik"; "hladovka"; "hlasivky"; "hlava"; "hledat"; "hlen"; "hlodavec"; "hloh"; "hloupost"; "hltat";
   "hlubina"; "hluchota"; "hmat"; "hmota"; "hmyz"; "hnis"; "hnojivo"; "hnout"; "hoblina"; "hoboj"; "hoch";
   "hodiny"; "hodlat"; "hodnota"; "hodovat"; "hojnost"; "hokej"; "holinka"; "holka"; "holub"; "homole";
   "honitba"; "honorace"; "horal"; "horda"; "horizont"; "horko"; "horlivec"; "hormon"; "hornina"; "horoskop";
   "horstvo"; "hospoda"; "hostina"; "hotovost"; "houba"; "houf"; "houpat"; "houska"; "hovor"; "hradba";
   "hranice"; "hravost"; "hrazda"; "hrbolek"; "hrdina"; "hrdlo"; "hrdost"; "hrnek"; "hrobka"; "hromada";
   "hrot"; "hrouda"; "hrozen"; "hrstka"; "hrubost"; "hryzat"; "hubenost"; "hubnout"; "hudba"; "hukot";
   "humr"; "husita"; "hustota"; "hvozd"; "hybnost"; "hydrant"; "hygiena"; "hymna"; "hysterik"; "idylka";
   "ihned"; "ikona"; "iluze"; "imunita"; "infekce"; "inflace"; "inkaso"; "inovace"; "inspekce"; "internet";
   "invalida"; "investor"; "inzerce"; "ironie"; "jablko"; "jachta"; "jahoda"; "jakmile"; "jakost"; "jalovec";
   "jantar"; "jarmark"; "jaro"; "jasan"; "jasno"; "jatka"; "javor"].

Definition words_4 : list String.string :=
  ["jazyk"; "jedinec"; "jedle"; "jednatel"; "jehlan"; "jekot"; "jelen"; "jelito"; "jemnost"; "jenom";
   "jepice"; "jeseter"; "jevit"; "jezdec"; "jezero"; "jinak"; "jindy"; "jinoch"; "jiskra"; "jistota";
   "jitrnice"; "jizva"; "jmenovat"; "jogurt"; "jurta"; "kabaret"; "kabel"; "kabinet"; "kachna"; "kadet";
   "kadidlo"; "kahan"; "kajak"; "kajuta"; "kakao"; "kaktus"; "kalamita"; "kalhoty"; "kalibr"; "kalnost";
   "kamera"; "kamkoliv"; "kamna"; "kanibal"; "kanoe"; "kantor"; "kapalina"; "kapela"; "kapitola"; "kapka";
   "kaple"; "kapota"; "kapr"; "kapusta"; "kapybara"; "karamel"; "karotka"; "karton"; "kasa"; "katalog";
   "katedra"; "kauce"; "kauza"; "kavalec"; "kazajka"; "kazeta"; "kazivost"; "kdekoliv"; "kdesi"; "kedluben";
   "kemp"; "keramika"; "kino"; "klacek"; "kladivo"; "klam"; "klapot"; "klasika"; "klaun"; "klec"; "klenba";
   "klepat"; "klesnout"; "klid"; "klima"; "klisna"; "klobouk"; "klokan"; "klopa"; "kloub"; "klubovna";
   "klusat"; "kluzkost"; "kmen"; "kmitat"; "kmotr"; "kniha"; "knot"; "koalice"; "koberec"; "kobka";
   "kobliha"; "kobyla"; "kocour"; "kohout"; "kojenec"; "kokos"; "koktejl"; "kolaps"; "koleda"; "kolize";
   "kolo"; "komando"; "kometa"; "komik"; "komnata"; "komora"; "kompas"; "komunita"; "konat"; "koncept";
   "kondice"; "konec"; "konfese"; "kongres"; "konina"; "konkurs"; "kontakt"].

Definition words_5 : list String.string :=
  ["konzerva"; "kopanec"; "kopie"; "kopnout"; "koprovka"; "korbel"; "korektor"; "kormidlo"; "koroptev";
   "korpus"; "koruna"; "koryto"; "korzet"; "kosatec"; "kostka"; "kotel"; "kotleta"; "kotoul"; "koukat";
   "koupelna"; "kousek"; "kouzlo"; "kovboj"; "koza"; "kozoroh"; "krabice"; "krach"; "krajina"; "kralovat";
   "krasopis"; "kravata"; "kredit"; "krejcar"; "kresba"; "kreveta"; "kriket"; "kritik"; "krize"; "krkavec";
   "krmelec"; "krmivo"; "krocan"; "krok"; "kronika"; "kropit"; "kroupa"; "krovka"; "krtek"; "kruhadlo";
   "krupice"; "krutost"; "krvinka"; "krychle"; "krypta"; "krystal"; "kryt"; "kudlanka"; "kufr"; "kujnost";
   "kukla"; "kulajda"; "kulich"; "kulka"; "kulomet"; "kultura"; "kuna"; "kupodivu"; "kurt"; "kurzor";
   "kutil"; "kvalita"; "kvasinka"; "kvestor"; "kynolog"; "kyselina"; "kytara"; "kytice"; "kytka"; "kytovec";
   "kyvadlo"; "labrador"; "lachtan"; "ladnost"; "laik"; "lakomec"; "lamela"; "lampa"; "lanovka"; "lasice";
   "laso"; "lastura"; "latinka"; "lavina"; "lebka"; "leckdy"; "leden"; "lednice"; "ledovka"; "ledvina";
   "legenda"; "legie"; "legrace"; "lehce"; "lehkost"; "lehnout"; "lektvar"; "lenochod"; "lentilka";
   "lepenka"; "lepidlo"; "letadlo"; "letec"; "letmo"; "letokruh"; "levhart"; "levitace"; "levobok"; "libra";
   "lichotka"; "lidojed"; "lidskost"; "lihovina"; "lijavec"; "lilek"; "limetka"; "linie"; "linka";
   "linoleum"].

Definition words_6 : list String.string :=
  ["listopad"; "litina"; "litovat"; "lobista"; "lodivod"; "logika"; "logoped"; "lokalita"; "loket";
   "lomcovat"; "lopata"; "lopuch"; "lord"; "losos"; "lotr"; "loudal"; "louh"; "louka"; "louskat"; "lovec";
   "lstivost"; "lucerna"; "lucifer"; "lump"; "lusk"; "lustrace"; "lvice"; "lyra"; "lyrika"; "lysina";
   "madam"; "madlo"; "magistr"; "mahagon"; "majetek"; "majitel"; "majorita"; "makak"; "makovice"; "makrela";
   "malba"; "malina"; "malovat"; "malvice"; "maminka"; "mandle"; "manko"; "marnost"; "masakr"; "maskot";
   "masopust"; "matice"; "matrika"; "maturita"; "mazanec"; "mazivo"; "mazlit"; "mazurka"; "mdloba";
   "mechanik"; "meditace"; "medovina"; "melasa"; "meloun"; "mentolka"; "metla"; "metoda"; "metr"; "mezera";
   "migrace"; "mihnout"; "mihule"; "mikina"; "mikrofon"; "milenec"; "milimetr"; "milost"; "mimika";
   "mincovna"; "minibar"; "minomet"; "minulost"; "miska"; "mistr"; "mixovat"; "mladost"; "mlha"; "mlhovina";
   "mlok"; "mlsat"; "mluvit"; "mnich"; "mnohem"; "mobil"; "mocnost"; "modelka"; "modlitba"; "mohyla";
   "mokro"; "molekula"; "momentka"; "monarcha"; "monokl"; "monstrum"; "montovat"; "monzun"; "mosaz";
   "moskyt"; "most"; "motivace"; "motorka"; "motyka"; "moucha"; "moudrost"; "mozaika"; "mozek"; "mozol";
   "mramor"; "mravenec"; "mrkev"; "mrtvola"; "mrzet"; "mrzutost"; "mstitel"; "mudrc"; "muflon"; "mulat";
   "mumie"].

Definition words_7 : list String.string :=
  ["munice"; "muset"; "mutace"; "muzeum"; "muzikant"; "myslivec"; "mzda"; "nabourat"; "nachytat"; "nadace";
   "nadbytek"; "nadhoz"; "nadobro"; "nadpis"; "nahlas"; "nahnat"; "nahodile"; "nahradit"; "naivita";
   "najednou"; "najisto"; "najmout"; "naklonit"; "nakonec"; "nakrmit"; "nalevo"; "namazat"; "namluvit";
   "nanometr"; "naoko"; "naopak"; "naostro"; "napadat"; "napevno"; "naplnit"; "napnout"; "naposled";
   "naprosto"; "narodit"; "naruby"; "narychlo"; "nasadit"; "nasekat"; "naslepo"; "nastat"; "natolik";
   "navenek"; "navrch"; "navzdory"; "nazvat"; "nebe"; "nechat"; "necky"; "nedaleko"; "nedbat"; "neduh";
   "negace"; "nehet"; "nehoda"; "nejen"; "nejprve"; "neklid"; "nelibost"; "nemilost"; "nemoc"; "neochota";
   "neonka"; "nepokoj"; "nerost"; "nerv"; "nesmysl"; "nesoulad"; "netvor"; "neuron"; "nevina"; "nezvykle";
   "nicota"; "nijak"; "nikam"; "nikdy"; "nikl"; "nikterak"; "nitro"; "nocleh"; "nohavice"; "nominace";
   "nora"; "norek"; "nositel"; "nosnost"; "nouze"; "noviny"; "novota"; "nozdra"; "nuda"; "nudle"; "nuget";
   "nutit"; "nutnost"; "nutrie"; "nymfa"; "obal"; "obarvit"; "obava"; "obdiv"; "obec"; "obehnat"; "obejmout";
   "obezita"; "obhajoba"; "obilnice"; "objasnit"; "objekt"; "obklopit"; "oblast"; "oblek"; "obliba";
   "obloha"; "obluda"; "obnos"; "obohatit"; "obojek"; "obout"; "obrazec"; "obrna"; "obruba"; "obrys";
   "obsah"].

Definition words_8 : list String.string :=
  ["obsluha"; "obstarat"; "obuv"; "obvaz"; "obvinit"; "obvod"; "obvykle"; "obyvatel"; "obzor"; "ocas";
   "ocel"; "ocenit"; "ochladit"; "ochota"; "ochrana"; "ocitnout"; "odboj"; "odbyt"; "odchod"; "odcizit";
   "odebrat"; "odeslat"; "odevzdat"; "odezva"; "odhadce"; "odhodit"; "odjet"; "odjinud"; "odkaz"; "odkoupit";
   "odliv"; "odluka"; "odmlka"; "odolnost"; "odpad"; "odpis"; "odplout"; "odpor"; "odpustit"; "odpykat";
   "odrazka"; "odsoudit"; "odstup"; "odsun"; "odtok"; "odtud"; "odvaha"; "odveta"; "odvolat"; "odvracet";
   "odznak"; "ofina"; "ofsajd"; "ohlas"; "ohnisko"; "ohrada"; "ohrozit"; "ohryzek"; "okap"; "okenice";
   "oklika"; "okno"; "okouzlit"; "okovy"; "okrasa"; "okres"; "okrsek"; "okruh"; "okupant"; "okurka";
   "okusit"; "olejnina"; "olizovat"; "omak"; "omeleta"; "omezit"; "omladina"; "omlouvat"; "omluva"; "omyl";
   "onehdy"; "opakovat"; "opasek"; "operace"; "opice"; "opilost"; "opisovat"; "opora"; "opozice"; "opravdu";
   "oproti"; "orbital"; "orchestr"; "orgie"; "orlice"; "orloj"; "ortel"; "osada"; "oschnout"; "osika";
   "osivo"; "oslava"; "oslepit"; "oslnit"; "oslovit"; "osnova"; "osoba"; "osolit"; "ospalec"; "osten";
   "ostraha"; "ostuda"; "ostych"; "osvojit"; "oteplit"; "otisk"; "otop"; "otrhat"; "otrlost"; "otrok";
   "otruby"; "otvor"; "ovanout"; "ovar"; "oves"; "ovlivnit"; "ovoce"; "oxid"].

Definition words_9 : list String.string :=
  ["ozdoba"; "pachatel"; "pacient"; "padouch"; "pahorek"; "pakt"; "palanda"; "palec"; "palivo"; "paluba";
   "pamflet"; "pamlsek"; "panenka"; "panika"; "panna"; "panovat"; "panstvo"; "pantofle"; "paprika";
   "parketa"; "parodie"; "parta"; "paruka"; "paryba"; "paseka"; "pasivita"; "pastelka"; "patent"; "patrona";
   "pavouk"; "pazneht"; "pazourek"; "pecka"; "pedagog"; "pejsek"; "peklo"; "peloton"; "penalta"; "pendrek";
   "penze"; "periskop"; "pero"; "pestrost"; "petarda"; "petice"; "petrolej"; "pevnina"; "pexeso"; "pianista";
   "piha"; "pijavice"; "pikle"; "piknik"; "pilina"; "pilnost"; "pilulka"; "pinzeta"; "pipeta"; "pisatel";
   "pistole"; "pitevna"; "pivnice"; "pivovar"; "placenta"; "plakat"; "plamen"; "planeta"; "plastika";
   "platit"; "plavidlo"; "plaz"; "plech"; "plemeno"; "plenta"; "ples"; "pletivo"; "plevel"; "plivat";
   "plnit"; "plno"; "plocha"; "plodina"; "plomba"; "plout"; "pluk"; "plyn"; "pobavit"; "pobyt"; "pochod";
   "pocit"; "poctivec"; "podat"; "podcenit"; "podepsat"; "podhled"; "podivit"; "podklad"; "podmanit";
   "podnik"; "podoba"; "podpora"; "podraz"; "podstata"; "podvod"; "podzim"; "poezie"; "pohanka"; "pohnutka";
   "pohovor"; "pohroma"; "pohyb"; "pointa"; "pojistka"; "pojmout"; "pokazit"; "pokles"; "pokoj"; "pokrok";
   "pokuta"; "pokyn"; "poledne"; "polibek"; "polknout"; "poloha"; "polynom"; "pomalu"; "pominout"; "pomlka"].

Definition words_10 : list String.string :=
  ["pomoc"; "pomsta"; "pomyslet"; "ponechat"; "ponorka"; "ponurost"; "popadat"; "popel"; "popisek";
   "poplach"; "poprosit"; "popsat"; "popud"; "poradce"; "porce"; "porod"; "porucha"; "poryv"; "posadit";
   "posed"; "posila"; "poskok"; "poslanec"; "posoudit"; "pospolu"; "postava"; "posudek"; "posyp"; "potah";
   "potkan"; "potlesk"; "potomek"; "potrava"; "potupa"; "potvora"; "poukaz"; "pouto"; "pouzdro"; "povaha";
   "povidla"; "povlak"; "povoz"; "povrch"; "povstat"; "povyk"; "povzdech"; "pozdrav"; "pozemek"; "poznatek";
   "pozor"; "pozvat"; "pracovat"; "prahory"; "praktika"; "prales"; "praotec"; "praporek"; "prase"; "pravda";
   "princip"; "prkno"; "probudit"; "procento"; "prodej"; "profese"; "prohra"; "projekt"; "prolomit";
   "promile"; "pronikat"; "propad"; "prorok"; "prosba"; "proton"; "proutek"; "provaz"; "prskavka"; "prsten";
   "prudkost"; "prut"; "prvek"; "prvohory"; "psanec"; "psovod"; "pstruh"; "ptactvo"; "puberta"; "puch";
   "pudl"; "pukavec"; "puklina"; "pukrle"; "pult"; "pumpa"; "punc"; "pupen"; "pusa"; "pusinka"; "pustina";
   "putovat"; "putyka"; "pyramida"; "pysk"; "pytel"; "racek"; "rachot"; "radiace"; "radnice"; "radon";
   "raft"; "ragby"; "raketa"; "rakovina"; "rameno"; "rampouch"; "rande"; "rarach"; "rarita"; "rasovna";
   "rastr"; "ratolest"; "razance"; "razidlo"; "reagovat"; "reakce"; "recept"; "redaktor"; "referent"].

Definition words_11 : list String.string :=
  ["reflex"; "rejnok"; "reklama"; "rekord"; "rekrut"; "rektor"; "reputace"; "revize"; "revma"; "revolver";
   "rezerva"; "riskovat"; "riziko"; "robotika"; "rodokmen"; "rohovka"; "rokle"; "rokoko"; "romaneto";
   "ropovod"; "ropucha"; "rorejs"; "rosol"; "rostlina"; "rotmistr"; "rotoped"; "rotunda"; "roubenka";
   "roucho"; "roup"; "roura"; "rovina"; "rovnice"; "rozbor"; "rozchod"; "rozdat"; "rozeznat"; "rozhodce";
   "rozinka"; "rozjezd"; "rozkaz"; "rozloha"; "rozmar"; "rozpad"; "rozruch"; "rozsah"; "roztok"; "rozum";
   "rozvod"; "rubrika"; "ruchadlo"; "rukavice"; "rukopis"; "ryba"; "rybolov"; "rychlost"; "rydlo"; "rypadlo";
   "rytina"; "ryzost"; "sadista"; "sahat"; "sako"; "samec"; "samizdat"; "samota"; "sanitka"; "sardinka";
   "sasanka"; "satelit"; "sazba"; "sazenice"; "sbor"; "schovat"; "sebranka"; "secese"; "sedadlo"; "sediment";
   "sedlo"; "sehnat"; "sejmout"; "sekera"; "sekta"; "sekunda"; "sekvoje"; "semeno"; "seno"; "servis";
   "sesadit"; "seshora"; "seskok"; "seslat"; "sestra"; "sesuv"; "sesypat"; "setba"; "setina"; "setkat";
   "setnout"; "setrvat"; "sever"; "seznam"; "shoda"; "shrnout"; "sifon"; "silnice"; "sirka"; "sirotek";
   "sirup"; "situace"; "skafandr"; "skalisko"; "skanzen"; "skaut"; "skeptik"; "skica"; "skladba"; "sklenice";
   "sklo"; "skluz"; "skoba"; "skokan"; "skoro"; "skripta"; "skrz"; "skupina"; "skvost"; "skvrna"].

Definition words_12 : list String.string :=
  ["slabika"; "sladidlo"; "slanina"; "slast"; "slavnost"; "sledovat"; "slepec"; "sleva"; "slezina"; "slib";
   "slina"; "sliznice"; "slon"; "sloupek"; "slovo"; "sluch"; "sluha"; "slunce"; "slupka"; "slza"; "smaragd";
   "smetana"; "smilstvo"; "smlouva"; "smog"; "smrad"; "smrk"; "smrtka"; "smutek"; "smysl"; "snad"; "snaha";
   "snob"; "sobota"; "socha"; "sodovka"; "sokol"; "sopka"; "sotva"; "souboj"; "soucit"; "soudce"; "souhlas";
   "soulad"; "soumrak"; "souprava"; "soused"; "soutok"; "souviset"; "spalovna"; "spasitel"; "spis"; "splav";
   "spodek"; "spojenec"; "spolu"; "sponzor"; "spornost"; "spousta"; "sprcha"; "spustit"; "sranda"; "sraz";
   "srdce"; "srna"; "srnec"; "srovnat"; "srpen"; "srst"; "srub"; "stanice"; "starosta"; "statika"; "stavba";
   "stehno"; "stezka"; "stodola"; "stolek"; "stopa"; "storno"; "stoupat"; "strach"; "stres"; "strhnout";
   "strom"; "struna"; "studna"; "stupnice"; "stvol"; "styk"; "subjekt"; "subtropy"; "suchar"; "sudost";
   "sukno"; "sundat"; "sunout"; "surikata"; "surovina"; "svah"; "svalstvo"; "svetr"; "svatba"; "svazek";
   "svisle"; "svitek"; "svoboda"; "svodidlo"; "svorka"; "svrab"; "sykavka"; "sykot"; "synek"; "synovec";
   "sypat"; "sypkost"; "syrovost"; "sysel"; "sytost"; "tabletka"; "tabule"; "tahoun"; "tajemno"; "tajfun";
   "tajga"; "tajit"; "tajnost"; "taktika"].

Definition words_13 : list String.string :=
  ["tamhle"; "tampon"; "tancovat"; "tanec"; "tanker"; "tapeta"; "tavenina"; "tazatel"; "technika"; "tehdy";
   "tekutina"; "telefon"; "temnota"; "tendence"; "tenista"; "tenor"; "teplota"; "tepna"; "teprve"; "terapie";
   "termoska"; "textil"; "ticho"; "tiskopis"; "titulek"; "tkadlec"; "tkanina"; "tlapka"; "tleskat"; "tlukot";
   "tlupa"; "tmel"; "toaleta"; "topinka"; "topol"; "torzo"; "touha"; "toulec"; "tradice"; "traktor"; "tramp";
   "trasa"; "traverza"; "trefit"; "trest"; "trezor"; "trhavina"; "trhlina"; "trochu"; "trojice"; "troska";
   "trouba"; "trpce"; "trpitel"; "trpkost"; "trubec"; "truchlit"; "truhlice"; "trus"; "trvat"; "tudy";
   "tuhnout"; "tuhost"; "tundra"; "turista"; "turnaj"; "tuzemsko"; "tvaroh"; "tvorba"; "tvrdost"; "tvrz";
   "tygr"; "tykev"; "ubohost"; "uboze"; "ubrat"; "ubrousek"; "ubrus"; "ubytovna"; "ucho"; "uctivost";
   "udivit"; "uhradit"; "ujednat"; "ujistit"; "ujmout"; "ukazatel"; "uklidnit"; "uklonit"; "ukotvit";
   "ukrojit"; "ulice"; "ulita"; "ulovit"; "umyvadlo"; "unavit"; "uniforma"; "uniknout"; "upadnout";
   "uplatnit"; "uplynout"; "upoutat"; "upravit"; "uran"; "urazit"; "usednout"; "usilovat"; "usmrtit";
   "usnadnit"; "usnout"; "usoudit"; "ustlat"; "ustrnout"; "utahovat"; "utkat"; "utlumit"; "utonout";
   "utopenec"; "utrousit"; "uvalit"; "uvolnit"; "uvozovka"; "uzdravit"; "uzel"; "uzenina"; "uzlina"; "uznat";
   "vagon"].

Definition words_14 : list String.string :=
  ["valcha"; "valoun"; "vana"; "vandal"; "vanilka"; "varan"; "varhany"; "varovat"; "vcelku"; "vchod";
   "vdova"; "vedro"; "vegetace"; "vejce"; "velbloud"; "veletrh"; "velitel"; "velmoc"; "velryba"; "venkov";
   "veranda"; "verze"; "veselka"; "veskrze"; "vesnice"; "vespodu"; "vesta"; "veterina"; "veverka"; "vibrace";
   "vichr"; "videohra"; "vidina"; "vidle"; "vila"; "vinice"; "viset"; "vitalita"; "vize"; "vizitka"; "vjezd";
   "vklad"; "vkus"; "vlajka"; "vlak"; "vlasec"; "vlevo"; "vlhkost"; "vliv"; "vlnovka"; "vloupat"; "vnucovat";
   "vnuk"; "voda"; "vodivost"; "vodoznak"; "vodstvo"; "vojensky"; "vojna"; "vojsko"; "volant"; "volba";
   "volit"; "volno"; "voskovka"; "vozidlo"; "vozovna"; "vpravo"; "vrabec"; "vracet"; "vrah"; "vrata"; "vrba";
   "vrcholek"; "vrhat"; "vrstva"; "vrtule"; "vsadit"; "vstoupit"; "vstup"; "vtip"; "vybavit"; "vybrat";
   "vychovat"; "vydat"; "vydra"; "vyfotit"; "vyhledat"; "vyhnout"; "vyhodit"; "vyhradit"; "vyhubit";
   "vyjasnit"; "vyjet"; "vyjmout"; "vyklopit"; "vykonat"; "vylekat"; "vymazat"; "vymezit"; "vymizet";
   "vymyslet"; "vynechat"; "vynikat"; "vynutit"; "vypadat"; "vyplatit"; "vypravit"; "vypustit"; "vyrazit";
   "vyrovnat"; "vyrvat"; "vyslovit"; "vysoko"; "vystavit"; "vysunout"; "vysypat"; "vytasit"; "vytesat";
   "vytratit"; "vyvinout"; "vyvolat"; "vyvrhel"; "vyzdobit"; "vyznat"; "vzadu"; "vzbudit"; "vzchopit"].

Definition words_15 : list String.string :=
  ["vzdor"; "vzduch"; "vzdychat"; "vzestup"; "vzhledem"; "vzkaz"; "vzlykat"; "vznik"; "vzorek"; "vzpoura";
   "vztah"; "vztek"; "xylofon"; "zabrat"; "zabydlet"; "zachovat"; "zadarmo"; "zadusit"; "zafoukat";
   "zahltit"; "zahodit"; "zahrada"; "zahynout"; "zajatec"; "zajet"; "zajistit"; "zaklepat"; "zakoupit";
   "zalepit"; "zamezit"; "zamotat"; "zamyslet"; "zanechat"; "zanikat"; "zaplatit"; "zapojit"; "zapsat";
   "zarazit"; "zastavit"; "zasunout"; "zatajit"; "zatemnit"; "zatknout"; "zaujmout"; "zavalit"; "zavelet";
   "zavinit"; "zavolat"; "zavrtat"; "zazvonit"; "zbavit"; "zbrusu"; "zbudovat"; "zbytek"; "zdaleka";
   "zdarma"; "zdatnost"; "zdivo"; "zdobit"; "zdroj"; "zdvih"; "zdymadlo"; "zelenina"; "zeman"; "zemina";
   "zeptat"; "zezadu"; "zezdola"; "zhatit"; "zhltnout"; "zhluboka"; "zhotovit"; "zhruba"; "zima"; "zimnice";
   "zjemnit"; "zklamat"; "zkoumat"; "zkratka"; "zkumavka"; "zlato"; "zlehka"; "zloba"; "zlom"; "zlost";
   "zlozvyk"; "zmapovat"; "zmar"; "zmatek"; "zmije"; "zmizet"; "zmocnit"; "zmodrat"; "zmrzlina"; "zmutovat";
   "znak"; "znalost"; "znamenat"; "znovu"; "zobrazit"; "zotavit"; "zoubek"; "zoufale"; "zplodit"; "zpomalit";
   "zprava"; "zprostit"; "zprudka"; "zprvu"; "zrada"; "zranit"; "zrcadlo"; "zrnitost"; "zrno"; "zrovna";
   "zrychlit"; "zrzavost"; "zticha"; "ztratit"; "zubovina"; "zubr"; "zvednout"; "zvenku"; "zvesela"; "zvon";
   "zvrat"; "zvukovod"; "zvyk"].

(** The Czech word list. *)
Definition words : list String.string :=
  words_0 ++ words_1 ++ words_2 ++ words_3 ++ words_4 ++ words_5 ++ words_6 ++ words_7 ++
  words_8 ++ words_9 ++ words_10 ++ words_11 ++ words_12 ++ words_13 ++ words_14 ++ words_15.
End cs.
