(* ===== verification/WordsOther.v ===== *)
(** The word lists of [src/wallet/dictionary.cpp] in the other scripts, as they
    stand in the file: each list in sixteen parts, the words as UTF-8 strings. *)

From Stdlib Require Import String.
From S2P Require Import Prelude.

Local Open Scope string_scope.
Local Open Scope list_scope.

Module ja.
(** ** Japanese *)

Definition words_0 : list String.string :=
  ["あいこくしん"; "あいさつ"; "あいだ"; "あおぞら"; "あかちゃん"; "あきる"; "あけがた"; "あける"; "あこがれる"; "あさい"; "あさひ"; "あしあと"; "あじわう";
   "あずかる"; "あずき"; "あそぶ"; "あたえる"; "あたためる"; "あたりまえ"; "あたる"; "あつい"; "あつかう"; "あっしゅく"; "あつまり"; "あつめる"; "あてな";
   "あてはまる"; "あひる"; "あぶら"; "あぶる"; "あふれる"; "あまい"; "あまど"; "あまやかす"; "あまり"; "あみもの"; "あめりか"; "あやまる"; "あゆむ";
   "あらいぐま"; "あらし"; "あらすじ"; "あらためる"; "あらゆる"; "あらわす"; "ありがとう"; "あわせる"; "あわてる"; "あんい"; "あんがい"; "あんこ"; "あんぜん";
   "あんてい"; "あんない"; "あんまり"; "いいだす"; "いおん"; "いがい"; "いがく"; "いきおい"; "いきなり"; "いきもの"; "いきる"; "いくじ"; "いくぶん"; "いけばな";
   "いけん"; "いこう"; "いこく"; "いこつ"; "いさましい"; "いさん"; "いしき"; "いじゅう"; "いじょう"; "いじわる"; "いずみ"; "いずれ"; "いせい"; "いせえび";
   "いせかい"; "いせき"; "いぜん"; "いそうろう"; "いそがしい"; "いだい"; "いだく"; "いたずら"; "いたみ"; "いたりあ"; "いちおう"; "いちじ"; "いちど"; "いちば";
   "いちぶ"; "いちりゅう"; "いつか"; "いっしゅん"; "いっせい"; "いっそう"; "いったん"; "いっち"; "いってい"; "いっぽう"; "いてざ"; "いてん"; "いどう"; "いとこ";
   "いない"; "いなか"; "いねむり"; "いのち"; "いのる"; "いはつ"; "いばる"; "いはん"; "いびき"; "いひん"; "いふく"; "いへん"; "いほう"; "いみん"; "いもうと";
   "いもたれ"; "いもり"; "いやがる"; "いやす"; "いよかん"].

Definition words_1 : list String.string :=
  ["いよく"; "いらい"; "いらすと"; "いりぐち"; "いりょう"; "いれい"; "いれもの"; "いれる"; "いろえんぴつ"; "いわい"; "いわう"; "いわかん"; "いわば"; "いわゆる";
   "いんげんまめ"; "いんさつ"; "いんしょう"; "いんよう"; "うえき"; "うえる"; "うおざ"; "うがい"; "うかぶ"; "うかべる"; "うきわ"; "うくらいな"; "うくれれ";
   "うけたまわる"; "うけつけ"; "うけとる"; "うけもつ"; "うける"; "うごかす"; "うごく"; "うこん"; "うさぎ"; "うしなう"; "うしろがみ"; "うすい"; "うすぎ";
   "うすぐらい"; "うすめる"; "うせつ"; "うちあわせ"; "うちがわ"; "うちき"; "うちゅう"; "うっかり"; "うつくしい"; "うったえる"; "うつる"; "うどん"; "うなぎ";
   "うなじ"; "うなずく"; "うなる"; "うねる"; "うのう"; "うぶげ"; "うぶごえ"; "うまれる"; "うめる"; "うもう"; "うやまう"; "うよく"; "うらがえす"; "うらぐち";
   "うらない"; "うりあげ"; "うりきれ"; "うるさい"; "うれしい"; "うれゆき"; "うれる"; "うろこ"; "うわき"; "うわさ"; "うんこう"; "うんちん"; "うんてん";
   "うんどう"; "えいえん"; "えいが"; "えいきょう"; "えいご"; "えいせい"; "えいぶん"; "えいよう"; "えいわ"; "えおり"; "えがお"; "えがく"; "えきたい"; "えくせる";
   "えしゃく"; "えすて"; "えつらん"; "えのぐ"; "えほうまき"; "えほん"; "えまき"; "えもじ"; "えもの"; "えらい"; "えらぶ"; "えりあ"; "えんえん"; "えんかい";
   "えんぎ"; "えんげき"; "えんしゅう"; "えんぜつ"; "えんそく"; "えんちょう"; "えんとつ"; "おいかける"; "おいこす"; "おいしい"; "おいつく"; "おうえん"; "おうさま";
   "おうじ"; "おうせつ"; "おうたい"; "おうふく"; "おうべい"; "おうよう"; "おえる"].

Definition words_2 : list String.string :=
  ["おおい"; "おおう"; "おおどおり"; "おおや"; "おおよそ"; "おかえり"; "おかず"; "おがむ"; "おかわり"; "おぎなう"; "おきる"; "おくさま"; "おくじょう";
   "おくりがな"; "おくる"; "おくれる"; "おこす"; "おこなう"; "おこる"; "おさえる"; "おさない"; "おさめる"; "おしいれ"; "おしえる"; "おじぎ"; "おじさん";
   "おしゃれ"; "おそらく"; "おそわる"; "おたがい"; "おたく"; "おだやか"; "おちつく"; "おっと"; "おつり"; "おでかけ"; "おとしもの"; "おとなしい"; "おどり";
   "おどろかす"; "おばさん"; "おまいり"; "おめでとう"; "おもいで"; "おもう"; "おもたい"; "おもちゃ"; "おやつ"; "おやゆび"; "およぼす"; "おらんだ"; "おろす";
   "おんがく"; "おんけい"; "おんしゃ"; "おんせん"; "おんだん"; "おんちゅう"; "おんどけい"; "かあつ"; "かいが"; "がいき"; "がいけん"; "がいこう"; "かいさつ";
   "かいしゃ"; "かいすいよく"; "かいぜん"; "かいぞうど"; "かいつう"; "かいてん"; "かいとう"; "かいふく"; "がいへき"; "かいほう"; "かいよう"; "がいらい"; "かいわ";
   "かえる"; "かおり"; "かかえる"; "かがく"; "かがし"; "かがみ"; "かくご"; "かくとく"; "かざる"; "がぞう"; "かたい"; "かたち"; "がちょう"; "がっきゅう";
   "がっこう"; "がっさん"; "がっしょう"; "かなざわし"; "かのう"; "がはく"; "かぶか"; "かほう"; "かほご"; "かまう"; "かまぼこ"; "かめれおん"; "かゆい";
   "かようび"; "からい"; "かるい"; "かろう"; "かわく"; "かわら"; "がんか"; "かんけい"; "かんこう"; "かんしゃ"; "かんそう"; "かんたん"; "かんち"; "がんばる";
   "きあい"; "きあつ"; "きいろ"; "ぎいん"; "きうい"; "きうん"; "きえる"; "きおう"; "きおく"].

Definition words_3 : list String.string :=
  ["きおち"; "きおん"; "きかい"; "きかく"; "きかんしゃ"; "ききて"; "きくばり"; "きくらげ"; "きけんせい"; "きこう"; "きこえる"; "きこく"; "きさい"; "きさく";
   "きさま"; "きさらぎ"; "ぎじかがく"; "ぎしき"; "ぎじたいけん"; "ぎじにってい"; "ぎじゅつしゃ"; "きすう"; "きせい"; "きせき"; "きせつ"; "きそう"; "きぞく";
   "きぞん"; "きたえる"; "きちょう"; "きつえん"; "ぎっちり"; "きつつき"; "きつね"; "きてい"; "きどう"; "きどく"; "きない"; "きなが"; "きなこ"; "きぬごし";
   "きねん"; "きのう"; "きのした"; "きはく"; "きびしい"; "きひん"; "きふく"; "きぶん"; "きぼう"; "きほん"; "きまる"; "きみつ"; "きむずかしい"; "きめる";
   "きもだめし"; "きもち"; "きもの"; "きゃく"; "きやく"; "ぎゅうにく"; "きよう"; "きょうりゅう"; "きらい"; "きらく"; "きりん"; "きれい"; "きれつ"; "きろく";
   "ぎろん"; "きわめる"; "ぎんいろ"; "きんかくじ"; "きんじょ"; "きんようび"; "ぐあい"; "くいず"; "くうかん"; "くうき"; "くうぐん"; "くうこう"; "ぐうせい";
   "くうそう"; "ぐうたら"; "くうふく"; "くうぼ"; "くかん"; "くきょう"; "くげん"; "ぐこう"; "くさい"; "くさき"; "くさばな"; "くさる"; "くしゃみ"; "くしょう";
   "くすのき"; "くすりゆび"; "くせげ"; "くせん"; "ぐたいてき"; "くださる"; "くたびれる"; "くちこみ"; "くちさき"; "くつした"; "ぐっすり"; "くつろぐ"; "くとうてん";
   "くどく"; "くなん"; "くねくね"; "くのう"; "くふう"; "くみあわせ"; "くみたてる"; "くめる"; "くやくしょ"; "くらす"; "くらべる"; "くるま"; "くれる"; "くろう";
   "くわしい"; "ぐんかん"; "ぐんしょく"; "ぐんたい"; "ぐんて"].

Definition words_4 : list String.string :=
  ["けあな"; "けいかく"; "けいけん"; "けいこ"; "けいさつ"; "げいじゅつ"; "けいたい"; "げいのうじん"; "けいれき"; "けいろ"; "けおとす"; "けおりもの"; "げきか";
   "げきげん"; "げきだん"; "げきちん"; "げきとつ"; "げきは"; "げきやく"; "げこう"; "げこくじょう"; "げざい"; "けさき"; "げざん"; "けしき"; "けしごむ";
   "けしょう"; "げすと"; "けたば"; "けちゃっぷ"; "けちらす"; "けつあつ"; "けつい"; "けつえき"; "けっこん"; "けつじょ"; "けっせき"; "けってい"; "けつまつ";
   "げつようび"; "げつれい"; "けつろん"; "げどく"; "けとばす"; "けとる"; "けなげ"; "けなす"; "けなみ"; "けぬき"; "げねつ"; "けねん"; "けはい"; "げひん";
   "けぶかい"; "げぼく"; "けまり"; "けみかる"; "けむし"; "けむり"; "けもの"; "けらい"; "けろけろ"; "けわしい"; "けんい"; "けんえつ"; "けんお"; "けんか";
   "げんき"; "けんげん"; "けんこう"; "けんさく"; "けんしゅう"; "けんすう"; "げんそう"; "けんちく"; "けんてい"; "けんとう"; "けんない"; "けんにん"; "げんぶつ";
   "けんま"; "けんみん"; "けんめい"; "けんらん"; "けんり"; "こあくま"; "こいぬ"; "こいびと"; "ごうい"; "こうえん"; "こうおん"; "こうかん"; "ごうきゅう";
   "ごうけい"; "こうこう"; "こうさい"; "こうじ"; "こうすい"; "ごうせい"; "こうそく"; "こうたい"; "こうちゃ"; "こうつう"; "こうてい"; "こうどう"; "こうない";
   "こうはい"; "ごうほう"; "ごうまん"; "こうもく"; "こうりつ"; "こえる"; "こおり"; "ごかい"; "ごがつ"; "ごかん"; "こくご"; "こくさい"; "こくとう"; "こくない";
   "こくはく"; "こぐま"; "こけい"; "こける"; "ここのか"; "こころ"; "こさめ"; "こしつ"].

Definition words_5 : list String.string :=
  ["こすう"; "こせい"; "こせき"; "こぜん"; "こそだて"; "こたい"; "こたえる"; "こたつ"; "こちょう"; "こっか"; "こつこつ"; "こつばん"; "こつぶ"; "こてい";
   "こてん"; "ことがら"; "ことし"; "ことば"; "ことり"; "こなごな"; "こねこね"; "このまま"; "このみ"; "このよ"; "ごはん"; "こひつじ"; "こふう"; "こふん";
   "こぼれる"; "ごまあぶら"; "こまかい"; "ごますり"; "こまつな"; "こまる"; "こむぎこ"; "こもじ"; "こもち"; "こもの"; "こもん"; "こやく"; "こやま"; "こゆう";
   "こゆび"; "こよい"; "こよう"; "こりる"; "これくしょん"; "ころっけ"; "こわもて"; "こわれる"; "こんいん"; "こんかい"; "こんき"; "こんしゅう"; "こんすい";
   "こんだて"; "こんとん"; "こんなん"; "こんびに"; "こんぽん"; "こんまけ"; "こんや"; "こんれい"; "こんわく"; "ざいえき"; "さいかい"; "さいきん"; "ざいげん";
   "ざいこ"; "さいしょ"; "さいせい"; "ざいたく"; "ざいちゅう"; "さいてき"; "ざいりょう"; "さうな"; "さかいし"; "さがす"; "さかな"; "さかみち"; "さがる";
   "さぎょう"; "さくし"; "さくひん"; "さくら"; "さこく"; "さこつ"; "さずかる"; "ざせき"; "さたん"; "さつえい"; "ざつおん"; "ざっか"; "ざつがく"; "さっきょく";
   "ざっし"; "さつじん"; "ざっそう"; "さつたば"; "さつまいも"; "さてい"; "さといも"; "さとう"; "さとおや"; "さとし"; "さとる"; "さのう"; "さばく"; "さびしい";
   "さべつ"; "さほう"; "さほど"; "さます"; "さみしい"; "さみだれ"; "さむけ"; "さめる"; "さやえんどう"; "さゆう"; "さよう"; "さよく"; "さらだ"; "ざるそば";
   "さわやか"; "さわる"; "さんいん"; "さんか"; "さんきゃく"].

Definition words_6 : list String.string :=
  ["さんこう"; "さんさい"; "ざんしょ"; "さんすう"; "さんせい"; "さんそ"; "さんち"; "さんま"; "さんみ"; "さんらん"; "しあい"; "しあげ"; "しあさって"; "しあわせ";
   "しいく"; "しいん"; "しうち"; "しえい"; "しおけ"; "しかい"; "しかく"; "じかん"; "しごと"; "しすう"; "じだい"; "したうけ"; "したぎ"; "したて"; "したみ";
   "しちょう"; "しちりん"; "しっかり"; "しつじ"; "しつもん"; "してい"; "してき"; "してつ"; "じてん"; "じどう"; "しなぎれ"; "しなもの"; "しなん"; "しねま";
   "しねん"; "しのぐ"; "しのぶ"; "しはい"; "しばかり"; "しはつ"; "しはらい"; "しはん"; "しひょう"; "しふく"; "じぶん"; "しへい"; "しほう"; "しほん";
   "しまう"; "しまる"; "しみん"; "しむける"; "じむしょ"; "しめい"; "しめる"; "しもん"; "しゃいん"; "しゃうん"; "しゃおん"; "じゃがいも"; "しやくしょ";
   "しゃくほう"; "しゃけん"; "しゃこ"; "しゃざい"; "しゃしん"; "しゃせん"; "しゃそう"; "しゃたい"; "しゃちょう"; "しゃっきん"; "じゃま"; "しゃりん"; "しゃれい";
   "じゆう"; "じゅうしょ"; "しゅくはく"; "じゅしん"; "しゅっせき"; "しゅみ"; "しゅらば"; "じゅんばん"; "しょうかい"; "しょくたく"; "しょっけん"; "しょどう";
   "しょもつ"; "しらせる"; "しらべる"; "しんか"; "しんこう"; "じんじゃ"; "しんせいじ"; "しんちく"; "しんりん"; "すあげ"; "すあし"; "すあな"; "ずあん";
   "すいえい"; "すいか"; "すいとう"; "ずいぶん"; "すいようび"; "すうがく"; "すうじつ"; "すうせん"; "すおどり"; "すきま"; "すくう"; "すくない"; "すける";
   "すごい"; "すこし"; "ずさん"; "すずしい"; "すすむ"; "すすめる"; "すっかり"].

Definition words_7 : list String.string :=
  ["ずっしり"; "ずっと"; "すてき"; "すてる"; "すねる"; "すのこ"; "すはだ"; "すばらしい"; "ずひょう"; "ずぶぬれ"; "すぶり"; "すふれ"; "すべて"; "すべる";
   "ずほう"; "すぼん"; "すまい"; "すめし"; "すもう"; "すやき"; "すらすら"; "するめ"; "すれちがう"; "すろっと"; "すわる"; "すんぜん"; "すんぽう"; "せあぶら";
   "せいかつ"; "せいげん"; "せいじ"; "せいよう"; "せおう"; "せかいかん"; "せきにん"; "せきむ"; "せきゆ"; "せきらんうん"; "せけん"; "せこう"; "せすじ"; "せたい";
   "せたけ"; "せっかく"; "せっきゃく"; "ぜっく"; "せっけん"; "せっこつ"; "せっさたくま"; "せつぞく"; "せつだん"; "せつでん"; "せっぱん"; "せつび"; "せつぶん";
   "せつめい"; "せつりつ"; "せなか"; "せのび"; "せはば"; "せびろ"; "せぼね"; "せまい"; "せまる"; "せめる"; "せもたれ"; "せりふ"; "ぜんあく"; "せんい";
   "せんえい"; "せんか"; "せんきょ"; "せんく"; "せんげん"; "ぜんご"; "せんさい"; "せんしゅ"; "せんすい"; "せんせい"; "せんぞ"; "せんたく"; "せんちょう";
   "せんてい"; "せんとう"; "せんぬき"; "せんねん"; "せんぱい"; "ぜんぶ"; "ぜんぽう"; "せんむ"; "せんめんじょ"; "せんもん"; "せんやく"; "せんゆう"; "せんよう";
   "ぜんら"; "ぜんりゃく"; "せんれい"; "せんろ"; "そあく"; "そいとげる"; "そいね"; "そうがんきょう"; "そうき"; "そうご"; "そうしん"; "そうだん"; "そうなん";
   "そうび"; "そうめん"; "そうり"; "そえもの"; "そえん"; "そがい"; "そげき"; "そこう"; "そこそこ"; "そざい"; "そしな"; "そせい"; "そせん"; "そそぐ";
   "そだてる"; "そつう"; "そつえん"; "そっかん"; "そつぎょう"; "そっけつ"].

Definition words_8 : list String.string :=
  ["そっこう"; "そっせん"; "そっと"; "そとがわ"; "そとづら"; "そなえる"; "そなた"; "そふぼ"; "そぼく"; "そぼろ"; "そまつ"; "そまる"; "そむく"; "そむりえ";
   "そめる"; "そもそも"; "そよかぜ"; "そらまめ"; "そろう"; "そんかい"; "そんけい"; "そんざい"; "そんしつ"; "そんぞく"; "そんちょう"; "ぞんび"; "ぞんぶん";
   "そんみん"; "たあい"; "たいいん"; "たいうん"; "たいえき"; "たいおう"; "だいがく"; "たいき"; "たいぐう"; "たいけん"; "たいこ"; "たいざい"; "だいじょうぶ";
   "だいすき"; "たいせつ"; "たいそう"; "だいたい"; "たいちょう"; "たいてい"; "だいどころ"; "たいない"; "たいねつ"; "たいのう"; "たいはん"; "だいひょう"; "たいふう";
   "たいへん"; "たいほ"; "たいまつばな"; "たいみんぐ"; "たいむ"; "たいめん"; "たいやき"; "たいよう"; "たいら"; "たいりょく"; "たいる"; "たいわん"; "たうえ";
   "たえる"; "たおす"; "たおる"; "たおれる"; "たかい"; "たかね"; "たきび"; "たくさん"; "たこく"; "たこやき"; "たさい"; "たしざん"; "だじゃれ"; "たすける";
   "たずさわる"; "たそがれ"; "たたかう"; "たたく"; "ただしい"; "たたみ"; "たちばな"; "だっかい"; "だっきゃく"; "だっこ"; "だっしゅつ"; "だったい"; "たてる";
   "たとえる"; "たなばた"; "たにん"; "たぬき"; "たのしみ"; "たはつ"; "たぶん"; "たべる"; "たぼう"; "たまご"; "たまる"; "だむる"; "ためいき"; "ためす";
   "ためる"; "たもつ"; "たやすい"; "たよる"; "たらす"; "たりきほんがん"; "たりょう"; "たりる"; "たると"; "たれる"; "たれんと"; "たろっと"; "たわむれる";
   "だんあつ"; "たんい"; "たんおん"; "たんか"; "たんき"; "たんけん"; "たんご"; "たんさん"].

Definition words_9 : list String.string :=
  ["たんじょうび"; "だんせい"; "たんそく"; "たんたい"; "だんち"; "たんてい"; "たんとう"; "だんな"; "たんにん"; "だんねつ"; "たんのう"; "たんぴん"; "だんぼう";
   "たんまつ"; "たんめい"; "だんれつ"; "だんろ"; "だんわ"; "ちあい"; "ちあん"; "ちいき"; "ちいさい"; "ちえん"; "ちかい"; "ちから"; "ちきゅう"; "ちきん";
   "ちけいず"; "ちけん"; "ちこく"; "ちさい"; "ちしき"; "ちしりょう"; "ちせい"; "ちそう"; "ちたい"; "ちたん"; "ちちおや"; "ちつじょ"; "ちてき"; "ちてん";
   "ちぬき"; "ちぬり"; "ちのう"; "ちひょう"; "ちへいせん"; "ちほう"; "ちまた"; "ちみつ"; "ちみどろ"; "ちめいど"; "ちゃんこなべ"; "ちゅうい"; "ちゆりょく";
   "ちょうし"; "ちょさくけん"; "ちらし"; "ちらみ"; "ちりがみ"; "ちりょう"; "ちるど"; "ちわわ"; "ちんたい"; "ちんもく"; "ついか"; "ついたち"; "つうか";
   "つうじょう"; "つうはん"; "つうわ"; "つかう"; "つかれる"; "つくね"; "つくる"; "つけね"; "つける"; "つごう"; "つたえる"; "つづく"; "つつじ"; "つつむ";
   "つとめる"; "つながる"; "つなみ"; "つねづね"; "つのる"; "つぶす"; "つまらない"; "つまる"; "つみき"; "つめたい"; "つもり"; "つもる"; "つよい"; "つるぼ";
   "つるみく"; "つわもの"; "つわり"; "てあし"; "てあて"; "てあみ"; "ていおん"; "ていか"; "ていき"; "ていけい"; "ていこく"; "ていさつ"; "ていし"; "ていせい";
   "ていたい"; "ていど"; "ていねい"; "ていひょう"; "ていへん"; "ていぼう"; "てうち"; "ておくれ"; "てきとう"; "てくび"; "でこぼこ"; "てさぎょう"; "てさげ";
   "てすり"; "てそう"; "てちがい"; "てちょう"; "てつがく"; "てつづき"].

Definition words_10 : list String.string :=
  ["でっぱ"; "てつぼう"; "てつや"; "でぬかえ"; "てぬき"; "てぬぐい"; "てのひら"; "てはい"; "てぶくろ"; "てふだ"; "てほどき"; "てほん"; "てまえ"; "てまきずし";
   "てみじか"; "てみやげ"; "てらす"; "てれび"; "てわけ"; "てわたし"; "でんあつ"; "てんいん"; "てんかい"; "てんき"; "てんぐ"; "てんけん"; "てんごく"; "てんさい";
   "てんし"; "てんすう"; "でんち"; "てんてき"; "てんとう"; "てんない"; "てんぷら"; "てんぼうだい"; "てんめつ"; "てんらんかい"; "でんりょく"; "でんわ"; "どあい";
   "といれ"; "どうかん"; "とうきゅう"; "どうぐ"; "とうし"; "とうむぎ"; "とおい"; "とおか"; "とおく"; "とおす"; "とおる"; "とかい"; "とかす"; "ときおり";
   "ときどき"; "とくい"; "とくしゅう"; "とくてん"; "とくに"; "とくべつ"; "とけい"; "とける"; "とこや"; "とさか"; "としょかん"; "とそう"; "とたん"; "とちゅう";
   "とっきゅう"; "とっくん"; "とつぜん"; "とつにゅう"; "とどける"; "ととのえる"; "とない"; "となえる"; "となり"; "とのさま"; "とばす"; "どぶがわ"; "とほう";
   "とまる"; "とめる"; "ともだち"; "ともる"; "どようび"; "とらえる"; "とんかつ"; "どんぶり"; "ないかく"; "ないこう"; "ないしょ"; "ないす"; "ないせん";
   "ないそう"; "なおす"; "ながい"; "なくす"; "なげる"; "なこうど"; "なさけ"; "なたでここ"; "なっとう"; "なつやすみ"; "ななおし"; "なにごと"; "なにもの";
   "なにわ"; "なのか"; "なふだ"; "なまいき"; "なまえ"; "なまみ"; "なみだ"; "なめらか"; "なめる"; "なやむ"; "ならう"; "ならび"; "ならぶ"; "なれる";
   "なわとび"; "なわばり"; "にあう"; "にいがた"; "にうけ"; "におい"].

Definition words_11 : list String.string :=
  ["にかい"; "にがて"; "にきび"; "にくしみ"; "にくまん"; "にげる"; "にさんかたんそ"; "にしき"; "にせもの"; "にちじょう"; "にちようび"; "にっか"; "にっき";
   "にっけい"; "にっこう"; "にっさん"; "にっしょく"; "にっすう"; "にっせき"; "にってい"; "になう"; "にほん"; "にまめ"; "にもつ"; "にやり"; "にゅういん";
   "にりんしゃ"; "にわとり"; "にんい"; "にんか"; "にんき"; "にんげん"; "にんしき"; "にんずう"; "にんそう"; "にんたい"; "にんち"; "にんてい"; "にんにく";
   "にんぷ"; "にんまり"; "にんむ"; "にんめい"; "にんよう"; "ぬいくぎ"; "ぬかす"; "ぬぐいとる"; "ぬぐう"; "ぬくもり"; "ぬすむ"; "ぬまえび"; "ぬめり"; "ぬらす";
   "ぬんちゃく"; "ねあげ"; "ねいき"; "ねいる"; "ねいろ"; "ねぐせ"; "ねくたい"; "ねくら"; "ねこぜ"; "ねこむ"; "ねさげ"; "ねすごす"; "ねそべる"; "ねだん";
   "ねつい"; "ねっしん"; "ねつぞう"; "ねったいぎょ"; "ねぶそく"; "ねふだ"; "ねぼう"; "ねほりはほり"; "ねまき"; "ねまわし"; "ねみみ"; "ねむい"; "ねむたい";
   "ねもと"; "ねらう"; "ねわざ"; "ねんいり"; "ねんおし"; "ねんかん"; "ねんきん"; "ねんぐ"; "ねんざ"; "ねんし"; "ねんちゃく"; "ねんど"; "ねんぴ"; "ねんぶつ";
   "ねんまつ"; "ねんりょう"; "ねんれい"; "のいず"; "のおづま"; "のがす"; "のきなみ"; "のこぎり"; "のこす"; "のこる"; "のせる"; "のぞく"; "のぞむ"; "のたまう";
   "のちほど"; "のっく"; "のばす"; "のはら"; "のべる"; "のぼる"; "のみもの"; "のやま"; "のらいぬ"; "のらねこ"; "のりもの"; "のりゆき"; "のれん"; "のんき";
   "ばあい"; "はあく"; "ばあさん"; "ばいか"; "ばいく"; "はいけん"].

Definition words_12 : list String.string :=
  ["はいご"; "はいしん"; "はいすい"; "はいせん"; "はいそう"; "はいち"; "ばいばい"; "はいれつ"; "はえる"; "はおる"; "はかい"; "ばかり"; "はかる"; "はくしゅ";
   "はけん"; "はこぶ"; "はさみ"; "はさん"; "はしご"; "ばしょ"; "はしる"; "はせる"; "ぱそこん"; "はそん"; "はたん"; "はちみつ"; "はつおん"; "はっかく";
   "はづき"; "はっきり"; "はっくつ"; "はっけん"; "はっこう"; "はっさん"; "はっしん"; "はったつ"; "はっちゅう"; "はってん"; "はっぴょう"; "はっぽう"; "はなす";
   "はなび"; "はにかむ"; "はぶらし"; "はみがき"; "はむかう"; "はめつ"; "はやい"; "はやし"; "はらう"; "はろうぃん"; "はわい"; "はんい"; "はんえい"; "はんおん";
   "はんかく"; "はんきょう"; "ばんぐみ"; "はんこ"; "はんしゃ"; "はんすう"; "はんだん"; "ぱんち"; "ぱんつ"; "はんてい"; "はんとし"; "はんのう"; "はんぱ";
   "はんぶん"; "はんぺん"; "はんぼうき"; "はんめい"; "はんらん"; "はんろん"; "ひいき"; "ひうん"; "ひえる"; "ひかく"; "ひかり"; "ひかる"; "ひかん"; "ひくい";
   "ひけつ"; "ひこうき"; "ひこく"; "ひさい"; "ひさしぶり"; "ひさん"; "びじゅつかん"; "ひしょ"; "ひそか"; "ひそむ"; "ひたむき"; "ひだり"; "ひたる"; "ひつぎ";
   "ひっこし"; "ひっし"; "ひつじゅひん"; "ひっす"; "ひつぜん"; "ぴったり"; "ぴっちり"; "ひつよう"; "ひてい"; "ひとごみ"; "ひなまつり"; "ひなん"; "ひねる";
   "ひはん"; "ひびく"; "ひひょう"; "ひほう"; "ひまわり"; "ひまん"; "ひみつ"; "ひめい"; "ひめじし"; "ひやけ"; "ひやす"; "ひよう"; "びょうき"; "ひらがな";
   "ひらく"; "ひりつ"; "ひりょう"; "ひるま"; "ひるやすみ"].

Definition words_13 : list String.string :=
  ["ひれい"; "ひろい"; "ひろう"; "ひろき"; "ひろゆき"; "ひんかく"; "ひんけつ"; "ひんこん"; "ひんしゅ"; "ひんそう"; "ぴんち"; "ひんぱん"; "びんぼう"; "ふあん";
   "ふいうち"; "ふうけい"; "ふうせん"; "ぷうたろう"; "ふうとう"; "ふうふ"; "ふえる"; "ふおん"; "ふかい"; "ふきん"; "ふくざつ"; "ふくぶくろ"; "ふこう"; "ふさい";
   "ふしぎ"; "ふじみ"; "ふすま"; "ふせい"; "ふせぐ"; "ふそく"; "ぶたにく"; "ふたん"; "ふちょう"; "ふつう"; "ふつか"; "ふっかつ"; "ふっき"; "ふっこく";
   "ぶどう"; "ふとる"; "ふとん"; "ふのう"; "ふはい"; "ふひょう"; "ふへん"; "ふまん"; "ふみん"; "ふめつ"; "ふめん"; "ふよう"; "ふりこ"; "ふりる"; "ふるい";
   "ふんいき"; "ぶんがく"; "ぶんぐ"; "ふんしつ"; "ぶんせき"; "ふんそう"; "ぶんぽう"; "へいあん"; "へいおん"; "へいがい"; "へいき"; "へいげん"; "へいこう";
   "へいさ"; "へいしゃ"; "へいせつ"; "へいそ"; "へいたく"; "へいてん"; "へいねつ"; "へいわ"; "へきが"; "へこむ"; "べにいろ"; "べにしょうが"; "へらす";
   "へんかん"; "べんきょう"; "べんごし"; "へんさい"; "へんたい"; "べんり"; "ほあん"; "ほいく"; "ぼうぎょ"; "ほうこく"; "ほうそう"; "ほうほう"; "ほうもん";
   "ほうりつ"; "ほえる"; "ほおん"; "ほかん"; "ほきょう"; "ぼきん"; "ほくろ"; "ほけつ"; "ほけん"; "ほこう"; "ほこる"; "ほしい"; "ほしつ"; "ほしゅ";
   "ほしょう"; "ほせい"; "ほそい"; "ほそく"; "ほたて"; "ほたる"; "ぽちぶくろ"; "ほっきょく"; "ほっさ"; "ほったん"; "ほとんど"; "ほめる"; "ほんい"; "ほんき";
   "ほんけ"; "ほんしつ"; "ほんやく"; "まいにち"].

Definition words_14 : list String.string :=
  ["まかい"; "まかせる"; "まがる"; "まける"; "まこと"; "まさつ"; "まじめ"; "ますく"; "まぜる"; "まつり"; "まとめ"; "まなぶ"; "まぬけ"; "まねく"; "まほう";
   "まもる"; "まゆげ"; "まよう"; "まろやか"; "まわす"; "まわり"; "まわる"; "まんが"; "まんきつ"; "まんぞく"; "まんなか"; "みいら"; "みうち"; "みえる";
   "みがく"; "みかた"; "みかん"; "みけん"; "みこん"; "みじかい"; "みすい"; "みすえる"; "みせる"; "みっか"; "みつかる"; "みつける"; "みてい"; "みとめる";
   "みなと"; "みなみかさい"; "みねらる"; "みのう"; "みのがす"; "みほん"; "みもと"; "みやげ"; "みらい"; "みりょく"; "みわく"; "みんか"; "みんぞく"; "むいか";
   "むえき"; "むえん"; "むかい"; "むかう"; "むかえ"; "むかし"; "むぎちゃ"; "むける"; "むげん"; "むさぼる"; "むしあつい"; "むしば"; "むじゅん"; "むしろ";
   "むすう"; "むすこ"; "むすぶ"; "むすめ"; "むせる"; "むせん"; "むちゅう"; "むなしい"; "むのう"; "むやみ"; "むよう"; "むらさき"; "むりょう"; "むろん";
   "めいあん"; "めいうん"; "めいえん"; "めいかく"; "めいきょく"; "めいさい"; "めいし"; "めいそう"; "めいぶつ"; "めいれい"; "めいわく"; "めぐまれる"; "めざす";
   "めした"; "めずらしい"; "めだつ"; "めまい"; "めやす"; "めんきょ"; "めんせき"; "めんどう"; "もうしあげる"; "もうどうけん"; "もえる"; "もくし"; "もくてき";
   "もくようび"; "もちろん"; "もどる"; "もらう"; "もんく"; "もんだい"; "やおや"; "やける"; "やさい"; "やさしい"; "やすい"; "やすたろう"; "やすみ"; "やせる";
   "やそう"; "やたい"; "やちん"].

Definition words_15 : list String.string :=
  ["やっと"; "やっぱり"; "やぶる"; "やめる"; "ややこしい"; "やよい"; "やわらかい"; "ゆうき"; "ゆうびんきょく"; "ゆうべ"; "ゆうめい"; "ゆけつ"; "ゆしゅつ";
   "ゆせん"; "ゆそう"; "ゆたか"; "ゆちゃく"; "ゆでる"; "ゆにゅう"; "ゆびわ"; "ゆらい"; "ゆれる"; "ようい"; "ようか"; "ようきゅう"; "ようじ"; "ようす";
   "ようちえん"; "よかぜ"; "よかん"; "よきん"; "よくせい"; "よくぼう"; "よけい"; "よごれる"; "よさん"; "よしゅう"; "よそう"; "よそく"; "よっか"; "よてい";
   "よどがわく"; "よねつ"; "よやく"; "よゆう"; "よろこぶ"; "よろしい"; "らいう"; "らくがき"; "らくご"; "らくさつ"; "らくだ"; "らしんばん"; "らせん"; "らぞく";
   "らたい"; "らっか"; "られつ"; "りえき"; "りかい"; "りきさく"; "りきせつ"; "りくぐん"; "りくつ"; "りけん"; "りこう"; "りせい"; "りそう"; "りそく";
   "りてん"; "りねん"; "りゆう"; "りゅうがく"; "りよう"; "りょうり"; "りょかん"; "りょくちゃ"; "りょこう"; "りりく"; "りれき"; "りろん"; "りんご"; "るいけい";
   "るいさい"; "るいじ"; "るいせき"; "るすばん"; "るりがわら"; "れいかん"; "れいぎ"; "れいせい"; "れいぞうこ"; "れいとう"; "れいぼう"; "れきし"; "れきだい";
   "れんあい"; "れんけい"; "れんこん"; "れんさい"; "れんしゅう"; "れんぞく"; "れんらく"; "ろうか"; "ろうご"; "ろうじん"; "ろうそく"; "ろくが"; "ろこつ";
   "ろじうら"; "ろしゅつ"; "ろせん"; "ろてん"; "ろめん"; "ろれつ"; "ろんぎ"; "ろんぱ"; "ろんぶん"; "ろんり"; "わかす"; "わかめ"; "わかやま"; "わかれる";
   "わしつ"; "わじまし"; "わすれもの"; "わらう"; "われる"].

(** The Japanese word list. *)
Definition words : list String.string :=
  words_0 ++ words_1 ++ words_2 ++ words_3 ++ words_4 ++ words_5 ++ words_6 ++ words_7 ++
  words_8 ++ words_9 ++ words_10 ++ words_11 ++ words_12 ++ words_13 ++ words_14 ++ words_15.
End ja.

Module ru.
(** ** Russian *)

Definition words_0 : list String.string :=
  ["абажур"; "абзац"; "абонент"; "абордаж"; "абрикос"; "абсолют"; "абсурд"; "авангард"; "август"; "авиация";
   "авизо"; "аврал"; "автор"; "агат"; "агент"; "агрегат"; "адажио"; "адвокат"; "адепт"; "адмирал"; "адрес";
   "ажиотаж"; "азарт"; "азбука"; "азимут"; "азот"; "айва"; "айсберг"; "академия"; "аквариум"; "акведук";
   "аккорд"; "акробат"; "аксиома"; "актер"; "актриса"; "акула"; "акцент"; "акция"; "алгебра"; "алгоритм";
   "алиби"; "аллея"; "алмаз"; "алоэ"; "алтарь"; "алфавит"; "алхимик"; "алый"; "альбом"; "алюминий"; "амбар";
   "амбиция"; "аметист"; "амнезия"; "ампир"; "амулет"; "амфора"; "анализ"; "ангар"; "анекдот"; "анимация";
   "анкета"; "аноним"; "ансамбль"; "антиквар"; "анфилада"; "анчоус"; "апатия"; "апельсин"; "апогей";
   "апофеоз"; "апрель"; "аптека"; "арахис"; "арбуз"; "аргумент"; "аренда"; "ария"; "арка"; "арлекин";
   "армада"; "аромат"; "арсенал"; "артист"; "арфа"; "архив"; "аршин"; "асбест"; "аскет"; "аспирант";
   "астроном"; "асфальт"; "атака"; "ателье"; "атлас"; "атом"; "атрибут"; "аудитор"; "аукцион"; "аура";
   "афиша"; "афоризм"; "ацетон"; "аэропорт"; "бабочка"; "багаж"; "бадья"; "байка"; "бакалея"; "баланс";
   "балет"; "балкон"; "баллада"; "бамбук"; "бампер"; "банджо"; "банк"; "баобаб"; "барабан"; "бард"; "барс";
   "бархат"; "барьер"; "басня"; "бассейн"; "бастион"; "батарея"].

Definition words_1 : list String.string :=
  ["батон"; "батут"; "баул"; "бахрома"; "башмак"; "баян"; "бегемот"; "бегония"; "бегство"; "бездна";
   "бейсбол"; "бекон"; "белок"; "белый"; "белье"; "бензин"; "бергамот"; "берег"; "берлога"; "беседа";
   "биатлон"; "бигуди"; "бидон"; "бизнес"; "бикини"; "бильярд"; "бинокль"; "бинт"; "биология"; "биржа";
   "бисер"; "бицепс"; "благо"; "блеск"; "блеф"; "блин"; "блокнот"; "блондин"; "блюдо"; "бляха"; "бобер";
   "бобина"; "богатырь"; "бодрый"; "боевик"; "боец"; "бойлер"; "бокал"; "болид"; "бордюр"; "борода"; "борщ";
   "борьба"; "босой"; "ботва"; "ботинок"; "боцман"; "бочка"; "боярин"; "брак"; "брат"; "бревно"; "бригада";
   "брикет"; "бровь"; "брод"; "брокер"; "бросок"; "брюки"; "брюнет"; "бубен"; "бублик"; "бугор"; "будка";
   "будущее"; "бузина"; "буйвол"; "буква"; "букет"; "буксир"; "булат"; "бульвар"; "бумага"; "бумеранг";
   "бунгало"; "бунт"; "бурьян"; "буря"; "бусы"; "бутон"; "бутылка"; "буфет"; "бухта"; "быстрота"; "бюджет";
   "бюро"; "бюст"; "вагон"; "важный"; "вазелин"; "вакса"; "вакуум"; "вакцина"; "валенок"; "валюта"; "вандал";
   "ваниль"; "ванна"; "варенье"; "вариант"; "варьете"; "ватага"; "ватман"; "ваучер"; "вафля"; "вахта";
   "ведро"; "ведьма"; "везение"; "веко"; "вексель"; "велеть"; "величие"; "велодром"; "венец"; "вентиль";
   "веранда"; "верблюд"].

Definition words_2 : list String.string :=
  ["веревка"; "версия"; "вершина"; "веселье"; "весло"; "весна"; "весть"; "ветвь"; "ветер"; "ветчина"; "веха";
   "вещь"; "веяние"; "взбучка"; "взвод"; "взгляд"; "вздох"; "взмах"; "взнос"; "взор"; "взрыв"; "вибрация";
   "видение"; "визг"; "визит"; "вилка"; "вирус"; "висеть"; "висок"; "витрина"; "вихрь"; "вкус"; "влага";
   "владелец"; "власть"; "влияние"; "внимание"; "внук"; "вобла"; "вода"; "водород"; "вожак"; "возглас";
   "воздух"; "возить"; "возраст"; "воин"; "вокзал"; "волк"; "волна"; "волокно"; "воля"; "вопрос"; "ворота";
   "восторг"; "вотум"; "вояж"; "врач"; "время"; "всадник"; "всплеск"; "вспышка"; "встреча"; "вторник";
   "втулка"; "вулкан"; "вход"; "выбор"; "вывод"; "выгиб"; "выдра"; "выемка"; "вызов"; "выигрыш"; "выкуп";
   "вымысел"; "выпечка"; "выпуск"; "вырез"; "выскочка"; "высота"; "выставка"; "вытяжка"; "вычет"; "вышка";
   "вьюга"; "вязанка"; "вялый"; "гавань"; "гадать"; "газета"; "газон"; "галерея"; "галоп"; "галстук";
   "галун"; "гамак"; "гамбит"; "гандбол"; "гантель"; "гараж"; "гардина"; "гарем"; "гармония"; "гарнир";
   "гарпун"; "гвардия"; "гвоздь"; "гегемон"; "гейзер"; "гектар"; "генерал"; "гений"; "геолог"; "гепард";
   "гербарий"; "герой"; "герцог"; "гжель"; "гигант"; "гильза"; "гимн"; "гипноз"; "гипотеза"; "гиря";
   "гитара"; "глава"; "глагол"].

Definition words_3 : list String.string :=
  ["глаз"; "глина"; "глобус"; "глубина"; "глухой"; "глыба"; "глюкоза"; "глянец"; "гнев"; "гнездо"; "гном";
   "гобелен"; "голова"; "голый"; "гомон"; "гондола"; "гонка"; "гора"; "горло"; "город"; "горшок"; "госпожа";
   "гость"; "градус"; "грамота"; "грань"; "графа"; "гребень"; "грек"; "гречиха"; "гриб"; "гривна"; "гром";
   "грохот"; "грубый"; "грудь"; "груз"; "группа"; "груша"; "грязь"; "губа"; "гудеть"; "гулять"; "гурман";
   "гусли"; "густой"; "гусь"; "гуща"; "давать"; "давление"; "давний"; "дамба"; "данные"; "дарить"; "дата";
   "датчик"; "дверь"; "движение"; "двойня"; "дворец"; "дебют"; "девочка"; "девушка"; "действие"; "декабрь";
   "декорум"; "делить"; "дело"; "дельфин"; "демагог"; "демократ"; "день"; "депеша"; "депутат"; "дерево";
   "держава"; "десерт"; "десяток"; "деталь"; "детство"; "дефицит"; "деятель"; "джаз"; "джигит"; "джинсы";
   "джунгли"; "диагноз"; "диалог"; "диапазон"; "диафильм"; "диван"; "дивизия"; "диета"; "дизайн"; "дизель";
   "дикий"; "дикобраз"; "диктант"; "дилижанс"; "динамика"; "диплом"; "директор"; "диск"; "дисплей"; "дитя";
   "дифирамб"; "дичь"; "дневник"; "добавка"; "добро"; "добыча"; "доверие"; "догмат"; "договор"; "дождь";
   "доклад"; "доктор"; "документ"; "долг"; "доллар"; "домысел"; "дорога"; "досада"; "доска"; "досье";
   "дотация"; "доход"; "доцент"].

Definition words_4 : list String.string :=
  ["доярка"; "драгун"; "драка"; "дремота"; "дрова"; "дрожь"; "друг"; "дружба"; "дубликат"; "дукат"; "дума";
   "дупло"; "духовка"; "душа"; "дуэт"; "дыня"; "дыра"; "дыхание"; "дышать"; "дюжина"; "дюйм"; "дюна"; "дядя";
   "дятел"; "европа"; "егерь"; "егоза"; "единица"; "едкий"; "ежевика"; "езда"; "ельник"; "емкость"; "енот";
   "ералаш"; "ермолка"; "ерунда"; "есаул"; "ехать"; "жабо"; "жажда"; "жалкий"; "жалоба"; "жалюзи"; "жандарм";
   "жанр"; "жара"; "жаргон"; "жаровня"; "жатва"; "жбан"; "жгут"; "желание"; "железо"; "желтый"; "жемчуг";
   "жених"; "женщина"; "жердь"; "жеребец"; "жерло"; "жест"; "живот"; "жизнь"; "жилет"; "жилье"; "жираф";
   "житель"; "жнец"; "жокей"; "жребий"; "журнал"; "жюри"; "забава"; "забег"; "забияка"; "забрало"; "забыть";
   "завал"; "завеса"; "завод"; "завтрак"; "завязь"; "загадка"; "заговор"; "задача"; "задел"; "задира";
   "задний"; "задор"; "задумка"; "зажим"; "зазывала"; "закат"; "заклад"; "закон"; "залежь"; "залив";
   "заметка"; "замок"; "замысел"; "занос"; "занятие"; "запад"; "запись"; "заплыв"; "заповедь"; "запятая";
   "зарок"; "зарубка"; "заря"; "засада"; "заслуга"; "заставка"; "затея"; "затор"; "затрата"; "затылок";
   "захват"; "зацепка"; "зачаток"; "зачет"; "защита"; "заявка"; "заяц"; "звезда"; "звонок"; "звук"].

Definition words_5 : list String.string :=
  ["здоровье"; "зебра"; "зевака"; "зелень"; "земля"; "зенит"; "зеркало"; "зерно"; "зефир"; "зигзаг"; "зима";
   "злоба"; "змея"; "знак"; "знамя"; "знание"; "значение"; "зной"; "зодчий"; "зола"; "золото"; "зоопарк";
   "зоркий"; "зрачок"; "зрелище"; "зрение"; "зритель"; "зубило"; "зыбкий"; "зять"; "иволга"; "игла"; "игра";
   "идеал"; "идея"; "идиллия"; "идиома"; "идол"; "идти"; "иерархия"; "иероглиф"; "изба"; "известие"; "изгиб";
   "издание"; "изделие"; "изотоп"; "изыск"; "изюм"; "иллюзия"; "имбирь"; "имение"; "имидж"; "империя";
   "импульс"; "инвестор"; "индекс"; "индивид"; "инерция"; "инженер"; "инжир"; "институт"; "интерес";
   "интрига"; "ипподром"; "ирис"; "ирония"; "искать"; "искра"; "испуг"; "истина"; "история"; "истукан";
   "исход"; "итог"; "кабаре"; "кабель"; "кабина"; "каблук"; "кавалер"; "кадка"; "кадр"; "кадык"; "казак";
   "казино"; "казус"; "кайма"; "кайф"; "какао"; "кактус"; "каламбур"; "калитка"; "калория"; "кальций";
   "камбала"; "камень"; "камин"; "камыш"; "канал"; "кандидат"; "канкан"; "каноэ"; "каньон"; "капитал";
   "капля"; "капот"; "каприз"; "капсула"; "капуста"; "капюшон"; "карабин"; "карета"; "каркас"; "карман";
   "карп"; "картон"; "карьера"; "каскад"; "касторка"; "каталог"; "катер"; "катод"; "каучук"; "кафель";
   "качать"; "качество"; "каша"; "кашпо"].

Definition words_6 : list String.string :=
  ["каштан"; "каюта"; "квадрат"; "квант"; "кварц"; "квинтет"; "квиток"; "кворум"; "квота"; "кегли"; "кекс";
   "кемпинг"; "кенгуру"; "кепка"; "керосин"; "кетчуп"; "кибитка"; "кивок"; "километр"; "килька"; "кимоно";
   "кинжал"; "кино"; "киоск"; "кипеть"; "кипяток"; "кирка"; "кирпич"; "кисель"; "кислота"; "кисть"; "клапан";
   "кларнет"; "клевер"; "клерк"; "клетка"; "клиент"; "климат"; "клинок"; "кличка"; "клише"; "клоун"; "клуб";
   "клумба"; "клык"; "клюква"; "ключ"; "клюшка"; "клякса"; "клятва"; "кляча"; "книга"; "кнопка"; "кнут";
   "князь"; "ковбой"; "ковер"; "ковыль"; "когорта"; "кодекс"; "кожа"; "кожура"; "козел"; "козырь"; "койка";
   "койот"; "кокос"; "коктейль"; "колбаса"; "колдун"; "колесо"; "коллаж"; "колодец"; "колпак"; "колхоз";
   "кольцо"; "комар"; "комбайн"; "комедия"; "комитет"; "комната"; "компания"; "конверт"; "конгресс";
   "кондитер"; "конец"; "конкурс"; "конспект"; "контакт"; "конус"; "конфуз"; "концерт"; "конь"; "копейка";
   "копия"; "копна"; "копоть"; "копыто"; "копье"; "корабль"; "корень"; "корзина"; "коридор"; "кормить";
   "корнет"; "король"; "корпус"; "коррида"; "корсет"; "космос"; "костюм"; "котел"; "котлета"; "коттедж";
   "кофе"; "кофта"; "кочан"; "кошка"; "край"; "краска"; "кредит"; "крекер"; "кремль"; "кресло"; "кривой";
   "кризис"; "крик"; "критика"].

Definition words_7 : list String.string :=
  ["кровать"; "кролик"; "крыло"; "крыша"; "крючок"; "кубок"; "кувшин"; "кузен"; "кузнец"; "кузов"; "кукла";
   "кулак"; "кулон"; "культура"; "кумир"; "купец"; "купол"; "курица"; "курорт"; "курс"; "куртка"; "кусок";
   "куст"; "кухня"; "куча"; "кювет"; "лабиринт"; "лаваш"; "лавина"; "лавка"; "лагерь"; "лагуна"; "ладонь";
   "лазер"; "лайнер"; "лакей"; "лампа"; "ландшафт"; "лапоть"; "лапша"; "ларек"; "латунь"; "лауреат";
   "лацкан"; "лачуга"; "лаять"; "лебедь"; "легенда"; "лежак"; "лезть"; "лекция"; "лента"; "лепесток";
   "леска"; "лестница"; "лететь"; "лето"; "летчик"; "лечение"; "леший"; "лиана"; "либерал"; "ливень";
   "ливрея"; "лига"; "лидер"; "лимит"; "лимон"; "линия"; "лирика"; "литр"; "лифт"; "лихой"; "лицей"; "лицо";
   "ловить"; "логика"; "лодка"; "лозунг"; "локоть"; "ломать"; "лоно"; "лопата"; "лорд"; "лось"; "лошадь";
   "луна"; "лучший"; "лыжа"; "льгота"; "льдина"; "любовь"; "люстра"; "лютня"; "лягушка"; "лямка"; "магазин";
   "магия"; "магма"; "мадам"; "майор"; "маклер"; "максимум"; "малыш"; "мальчик"; "маляр"; "мангал"; "мандат";
   "манеж"; "мантия"; "марафон"; "март"; "маршал"; "маскарад"; "масло"; "мастер"; "масштаб"; "матадор";
   "материя"; "матрос"; "матч"; "мафия"; "махать"; "машина"; "маэстро"; "маяк"; "мебель"; "медаль"].

Definition words_8 : list String.string :=
  ["медведь"; "мелкий"; "мелодия"; "менять"; "мера"; "место"; "месяц"; "металл"; "метеор"; "метла"; "метод";
   "метр"; "механизм"; "мечта"; "мешок"; "мизинец"; "микрофон"; "миксер"; "милиция"; "миллион"; "милость";
   "милый"; "мимоза"; "министр"; "минута"; "митинг"; "мишень"; "мнение"; "модель"; "модуль"; "мозг"; "молва";
   "молния"; "молоко"; "молчать"; "момент"; "монах"; "монета"; "монитор"; "монолог"; "мораль"; "море";
   "морковь"; "мороз"; "моряк"; "мост"; "мотив"; "мотор"; "мудрый"; "мужчина"; "музей"; "музыка"; "мундир";
   "муравей"; "мусор"; "мустанг"; "муфта"; "муха"; "мушкетер"; "мыло"; "мысль"; "мышь"; "мэтр"; "мюзикл";
   "мягкий"; "мякиш"; "мясо"; "мятый"; "набат"; "навар"; "навык"; "наган"; "награда"; "надежда"; "надпись";
   "название"; "наитие"; "наличие"; "налог"; "намек"; "напиток"; "напор"; "народ"; "наряд"; "натура";
   "наука"; "нация"; "начало"; "наяда"; "небо"; "невеста"; "неделя"; "нейлон"; "нейрон"; "немой"; "неон";
   "нерв"; "нести"; "нефть"; "нива"; "низкий"; "никель"; "нирвана"; "нитка"; "нить"; "ничья"; "ниша";
   "новация"; "новелла"; "новость"; "нога"; "ноготь"; "ноздря"; "номер"; "норма"; "носок"; "нота"; "ночлег";
   "ночь"; "ноябрь"; "нрав"; "нужда"; "нужный"; "нюанс"; "няня"; "оазис"; "обаяние"; "обвод"].

Definition words_9 : list String.string :=
  ["обед"; "обелиск"; "обещать"; "обзор"; "обида"; "облако"; "облик"; "обломок"; "обман"; "обморок";
   "оборот"; "обочина"; "образ"; "обруч"; "обрыв"; "обувь"; "обучение"; "обхват"; "общение"; "объект";
   "объятие"; "обычай"; "овес"; "овощ"; "овраг"; "овца"; "овчарка"; "огонь"; "ограда"; "огурец"; "одежда";
   "одеяло"; "ожидание"; "ожог"; "озеро"; "океан"; "окно"; "окоп"; "окорок"; "окраина"; "округ"; "октава";
   "октябрь"; "олень"; "олимп"; "опека"; "операция"; "описание"; "оплата"; "опора"; "оппонент"; "оправа";
   "оптика"; "опыт"; "орбита"; "орган"; "орден"; "орел"; "оригинал"; "ориентир"; "оркестр"; "орнамент";
   "оружие"; "осадок"; "осень"; "осина"; "осколок"; "осмотр"; "основа"; "особняк"; "осока"; "остаток";
   "остров"; "отбор"; "ответ"; "отдача"; "отдел"; "отдых"; "отель"; "отец"; "отзыв"; "отказ"; "открытие";
   "откуп"; "отличие"; "отпуск"; "отрасль"; "отряд"; "отсев"; "оттенок"; "отчет"; "отшиб"; "отъезд"; "офис";
   "офицер"; "охапка"; "охота"; "охрана"; "оценка"; "очаг"; "очерк"; "очки"; "ошейник"; "ошибка"; "павильон";
   "павлин"; "падение"; "паек"; "пакля"; "пакт"; "палата"; "палец"; "палуба"; "пальто"; "памфлет"; "память";
   "панель"; "паника"; "парафин"; "парень"; "парк"; "пароход"; "партия"; "парус"; "пасека"; "паспорт";
   "пастух"; "патрон"].

Definition words_10 : list String.string :=
  ["пауза"; "пафос"; "пахарь"; "пацан"; "пациент"; "певец"; "педагог"; "пейзаж"; "пельмень"; "пена";
   "пенсия"; "пепел"; "перец"; "период"; "перо"; "персонаж"; "песня"; "песок"; "петля"; "петух"; "петь";
   "пехота"; "печать"; "печень"; "пешеход"; "пешка"; "пещера"; "пианист"; "пиво"; "пиджак"; "пила"; "пилот";
   "пионер"; "писатель"; "письмо"; "питание"; "пицца"; "пища"; "плагиат"; "плакат"; "план"; "платье"; "плац";
   "пленка"; "плечо"; "плита"; "плод"; "площадь"; "плыть"; "плюс"; "пляж"; "победа"; "повар"; "повесть";
   "повод"; "повтор"; "повязка"; "погода"; "подарок"; "подвиг"; "поднос"; "подпись"; "подруга"; "подушка";
   "подход"; "подъем"; "поезд"; "позиция"; "поиск"; "покер"; "поклажа"; "покой"; "покупка"; "полдень";
   "поле"; "политик"; "полный"; "полоса"; "получка"; "полынь"; "польза"; "поляна"; "пометка"; "помощь";
   "помпон"; "пони"; "понятие"; "попытка"; "порог"; "портрет"; "порция"; "порыв"; "порядок"; "посадка";
   "поселок"; "посох"; "постель"; "посуда"; "потеря"; "поток"; "походка"; "поцелуй"; "почва"; "поэзия";
   "поэт"; "пояс"; "правда"; "праздник"; "практик"; "преграда"; "предел"; "презент"; "премия"; "препарат";
   "прибор"; "привет"; "прием"; "призыв"; "приказ"; "приличие"; "пример"; "принц"; "природа"; "приступ";
   "прицел"; "причина"; "приятель"; "пробка"].

Definition words_11 : list String.string :=
  ["провал"; "прогноз"; "продукт"; "проект"; "проза"; "прокурор"; "пропуск"; "простор"; "протеже"; "процент";
   "прочерк"; "прошлое"; "пруд"; "прыжок"; "прялка"; "прямота"; "психика"; "птица"; "публика"; "пугать";
   "пудра"; "пузырь"; "пульт"; "пуля"; "пункт"; "пунш"; "пурга"; "пустяк"; "путь"; "пухлый"; "пчела";
   "пшеница"; "пыль"; "пышный"; "пьеса"; "пятно"; "работа"; "радар"; "раджа"; "радио"; "радость"; "радуга";
   "развитие"; "разговор"; "раздел"; "разлив"; "размер"; "разница"; "разряд"; "разум"; "район"; "ракета";
   "ракушка"; "рама"; "рандеву"; "рантье"; "ранчо"; "рапира"; "рапорт"; "раритет"; "раскат"; "расписка";
   "рассвет"; "раствор"; "расход"; "расчет"; "ратуша"; "раунд"; "рация"; "реакция"; "реализм"; "ребенок";
   "ребро"; "ребус"; "ревизор"; "регион"; "редис"; "реестр"; "режим"; "резак"; "рейтинг"; "река"; "реклама";
   "ректор"; "рельс"; "ремарка"; "ремень"; "ремонт"; "реноме"; "рента"; "реплика"; "ресница"; "ресторан";
   "ресурс"; "реформа"; "рецепт"; "речь"; "решение"; "ржавчина"; "рикша"; "риск"; "рисунок"; "ритм"; "рифма";
   "робкий"; "родео"; "родина"; "рождение"; "роман"; "рост"; "росчерк"; "рота"; "рояль"; "рубашка"; "рубеж";
   "рубль"; "рубрика"; "ругать"; "рудник"; "ружье"; "руины"; "рука"; "рулет"; "рупор"; "ручей"; "рыба";
   "рыжий"; "рынок"].

Definition words_12 : list String.string :=
  ["рысь"; "рыцарь"; "рычаг"; "рюкзак"; "рюмка"; "рябина"; "сабля"; "сазан"; "сайгак"; "саксаул"; "сальто";
   "самолет"; "самурай"; "сандвич"; "сани"; "сапог"; "сапфир"; "сарай"; "сарказм"; "сатира"; "сауна";
   "сахар"; "сбруя"; "сбыт"; "свадьба"; "свежий"; "сверло"; "свеча"; "свидание"; "свист"; "свобода";
   "свойство"; "связь"; "сделка"; "сеанс"; "сегмент"; "седина"; "седло"; "сезон"; "сейф"; "секрет";
   "секунда"; "селение"; "семафор"; "семинар"; "семья"; "сено"; "сентябрь"; "сервис"; "сердце"; "середина";
   "сержант"; "серия"; "серьга"; "сестра"; "сеть"; "сигара"; "сигнал"; "сиденье"; "сила"; "символ";
   "симптом"; "синева"; "сирень"; "сирота"; "система"; "ситец"; "ситуация"; "сиять"; "сказка"; "скакун";
   "скала"; "скамья"; "скачок"; "скважина"; "сквер"; "скворец"; "скелет"; "скидка"; "склад"; "скрепа";
   "скрипка"; "скука"; "слабый"; "слава"; "след"; "слеза"; "слияние"; "слово"; "слон"; "служба"; "слух";
   "случай"; "смена"; "смесь"; "смех"; "смола"; "смысл"; "смычок"; "смятение"; "снег"; "снимок"; "собака";
   "собрание"; "событие"; "совет"; "сокол"; "солдат"; "солнце"; "соловей"; "соль"; "соната"; "соперник";
   "сопка"; "сорт"; "сосед"; "сосна"; "состав"; "сосуд"; "соус"; "социолог"; "союз"; "спальня"; "спать";
   "спина"; "список"; "спичка"; "спор"].

Definition words_13 : list String.string :=
  ["способ"; "справка"; "спутник"; "среда"; "ставка"; "стадо"; "стакан"; "сталкер"; "станция"; "старик";
   "статус"; "стая"; "ствол"; "стекло"; "стена"; "степь"; "стиль"; "стихи"; "стойка"; "столица"; "стон";
   "сторона"; "стоянка"; "страна"; "стрела"; "строка"; "струя"; "студия"; "стук"; "ступень"; "стыд";
   "стюард"; "стяжка"; "суббота"; "субъект"; "сувенир"; "сугроб"; "судно"; "судья"; "суета"; "сумка";
   "супруг"; "суть"; "сухой"; "суша"; "сфера"; "схема"; "счастье"; "счет"; "съезд"; "съемка"; "сырой";
   "сырье"; "сытый"; "сыщик"; "сюжет"; "сюрприз"; "сюртук"; "табак"; "табель"; "таблица"; "табун"; "тайна";
   "тайфун"; "такси"; "талант"; "талон"; "таможня"; "танец"; "танк"; "танцор"; "тарелка"; "тариф"; "творог";
   "театр"; "тезис"; "текст"; "телега"; "темнота"; "темп"; "тень"; "теория"; "тепло"; "терапия"; "термин";
   "терять"; "тесный"; "тетрадь"; "тетя"; "техника"; "течение"; "тигр"; "тираж"; "титул"; "тишина"; "ткань";
   "товар"; "токарь"; "толк"; "толпа"; "толчок"; "тонкий"; "тонна"; "топливо"; "топор"; "торговля"; "тостер";
   "точка"; "тощий"; "трава"; "традиция"; "трактор"; "трамвай"; "траншея"; "тревога"; "треск"; "трещина";
   "трибуна"; "тройка"; "тропа"; "тротуар"; "труба"; "труд"; "трюк"; "тряпка"; "трясти"; "туман"; "тундра"].

Definition words_14 : list String.string :=
  ["тупик"; "турист"; "турнир"; "туфля"; "туча"; "тюльпан"; "тяга"; "тяжесть"; "тянуть"; "уважение"; "угол";
   "удав"; "удаль"; "удар"; "удача"; "ужин"; "узел"; "узкий"; "узор"; "указ"; "уклон"; "уксус"; "улица";
   "улыбка"; "умение"; "умный"; "умысел"; "унция"; "уплата"; "уран"; "урна"; "уровень"; "урок"; "усадьба";
   "усердие"; "усилие"; "условие"; "услуга"; "усмешка"; "успех"; "устав"; "утка"; "утро"; "утюг"; "уход";
   "участок"; "учеба"; "ученик"; "училище"; "учитель"; "ушко"; "ущерб"; "уютный"; "фабрика"; "фабула";
   "фаворит"; "файл"; "факел"; "факт"; "фамилия"; "фантазия"; "фара"; "фасад"; "фаянс"; "февраль"; "феерия";
   "фельетон"; "феномен"; "феодал"; "ферзь"; "фигура"; "физика"; "философ"; "фильм"; "финал"; "фишка";
   "флаг"; "флейта"; "флора"; "флот"; "флюгер"; "фокус"; "фольклор"; "фонарь"; "фонд"; "фонтан"; "форма";
   "фосфор"; "фото"; "фраза"; "фреска"; "фронт"; "фрукт"; "функция"; "фуражка"; "футбол"; "халат"; "хаос";
   "характер"; "хата"; "хвала"; "хвост"; "хижина"; "химера"; "химия"; "хирург"; "хищник"; "хлам"; "хлеб";
   "хлопок"; "хмурый"; "хобот"; "хозяин"; "хоккей"; "холм"; "холод"; "хохот"; "хребет"; "хроника"; "худоба";
   "хулиган"; "хурма"; "хутор"; "цапля"; "царство"; "царь"; "цвет"; "целина"].

Definition words_15 : list String.string :=
  ["цемент"; "цена"; "центр"; "цепь"; "цикада"; "цикл"; "цилиндр"; "цинк"; "цирк"; "цистерна"; "цитата";
   "цифра"; "цокот"; "цыпленок"; "чабан"; "чадо"; "чайник"; "чародей"; "часы"; "чашка"; "челнок"; "человек";
   "чемодан"; "чепуха"; "черника"; "черта"; "чеснок"; "честь"; "четкий"; "чехол"; "чиновник"; "число";
   "чистота"; "читатель"; "чтение"; "чувство"; "чудак"; "чудо"; "чулок"; "чучело"; "шаблон"; "шайба";
   "шалаш"; "шалфей"; "шампунь"; "шанс"; "шапка"; "шатер"; "шахта"; "шашлык"; "шедевр"; "шепот"; "шерсть";
   "шинель"; "шить"; "шкаф"; "школа"; "шкура"; "шланг"; "шлем"; "шлюпка"; "шляпа"; "шнур"; "шоколад";
   "шорох"; "шофер"; "шпага"; "шпион"; "шрифт"; "штаб"; "штат"; "штора"; "штраф"; "штурман"; "штык"; "шуба";
   "эволюция"; "эгоизм"; "экзамен"; "экипаж"; "экология"; "экран"; "эксперт"; "элемент"; "элита"; "эмблема";
   "эмоция"; "энергия"; "эпатаж"; "эпизод"; "эпоха"; "эрудит"; "эскиз"; "эстрада"; "этаж"; "этика"; "этюд";
   "эфир"; "эффект"; "эшелон"; "юбилей"; "юбка"; "юмор"; "юнга"; "юность"; "юноша"; "юрист"; "юрта";
   "яблоко"; "явление"; "ягода"; "ягуар"; "ядро"; "язык"; "яйцо"; "якорь"; "январь"; "яркий"; "ярмарка";
   "ярость"; "ярус"; "ясный"; "ястреб"; "яхта"; "ячейка"; "ячмень"; "ящерица"; "ящик"].

(** The Russian word list. *)
Definition words : list String.string :=
  words_0 ++ words_1 ++ words_2 ++ words_3 ++ words_4 ++ words_5 ++ words_6 ++ words_7 ++
  words_8 ++ words_9 ++ words_10 ++ words_11 ++ words_12 ++ words_13 ++ words_14 ++ words_15.
End ru.

Module uk.
(** ** Ukrainian *)

Definition words_0 : list String.string :=
  ["абетка"; "або"; "абонент"; "абрикос"; "аванс"; "аварія"; "автор"; "авіація"; "агент"; "аграрій";
   "агрегат"; "агітатор"; "адаптер"; "адвокат"; "адже"; "адмірал"; "адреса"; "азарт"; "азбест"; "азбука";
   "азот"; "акація"; "акорд"; "акрил"; "акробат"; "аксіома"; "акт"; "актив"; "актор"; "актриса"; "акула";
   "акцент"; "акція"; "алгебра"; "алгоритм"; "але"; "алергія"; "алея"; "алича"; "алмаз"; "альбом"; "альфа";
   "альянс"; "амеба"; "ампер"; "аналіз"; "ананас"; "анархія"; "ангел"; "антена"; "антонім"; "апельсин";
   "аптека"; "арбітр"; "арена"; "арка"; "аркуш"; "армія"; "аромат"; "арсенал"; "архів"; "асистент"; "аспект";
   "астма"; "асфальт"; "атака"; "атестат"; "атлас"; "атом"; "атрибут"; "аудит"; "аудіо"; "аукціон"; "афіша";
   "аіст"; "баба"; "бабуся"; "бавовна"; "багаж"; "бажання"; "базар"; "базіка"; "байка"; "бал"; "балада";
   "балет"; "бали"; "балон"; "бампер"; "банан"; "банда"; "банер"; "банк"; "барабан"; "барва"; "барон";
   "басейн"; "батарея"; "батько"; "батіг"; "бачення"; "баян"; "бджола"; "без"; "безлад"; "безпека"; "бекон";
   "бензин"; "берег"; "бесіда"; "бетон"; "бик"; "бинт"; "благо"; "ближче"; "близнюк"; "блиск"; "блогер";
   "блок"; "блондин"; "блукати"; "блюдо"; "блюз"; "блідий"; "бобер"; "боби"; "бовдур"; "богатир"].

Definition words_1 : list String.string :=
  ["бокс"; "болт"; "бомба"; "бондар"; "бонус"; "борг"; "борода"; "борщ"; "боулінг"; "боєць"; "брага";
   "браслет"; "брат"; "бренд"; "брехня"; "бринза"; "брови"; "брокер"; "броня"; "брошура"; "брудно"; "брід";
   "бугор"; "буде"; "будинок"; "будка"; "будні"; "будова"; "будівля"; "бузина"; "бузок"; "буйвіл"; "букет";
   "булава"; "було"; "бульба"; "бункер"; "бунт"; "бунчук"; "бур"; "буряк"; "буріння"; "бути"; "бутон";
   "буфет"; "бухта"; "бюджет"; "бюро"; "біблія"; "бігун"; "бізнес"; "бій"; "бік"; "бікіні"; "білий";
   "білка"; "більше"; "бінго"; "біологія"; "бісер"; "вага"; "вагон"; "важко"; "важливо"; "вакуум"; "вакцина";
   "валовий"; "валун"; "валюта"; "ванна"; "вантаж"; "ваніль"; "вапно"; "варан"; "варення"; "варта";
   "варіант"; "ватра"; "вважати"; "вгору"; "вдова"; "вдячний"; "ведмідь"; "вежа"; "великий"; "верба";
   "верес"; "версія"; "верхній"; "вершник"; "веселий"; "весна"; "весілля"; "ветеран"; "вечеря"; "вечір";
   "вживати"; "взуття"; "взяти"; "вибачте"; "вибори"; "вибрати"; "вибух"; "вибір"; "вигадка"; "вигляд";
   "вигода"; "виграш"; "вид"; "видання"; "видимий"; "визнати"; "виклик"; "викуп"; "вилазка"; "вилка";
   "вимога"; "винахід"; "винний"; "вино"; "виняток"; "випадок"; "виплата"; "випічка"; "вираз"; "вирок";
   "виручка"; "виріс"].

Definition words_2 : list String.string :=
  ["висновок"; "висота"; "витвір"; "витрата"; "витік"; "вихід"; "вишня"; "вище"; "вищий"; "виїзд";
   "вказати"; "вкладка"; "включно"; "влада"; "власник"; "влучати"; "вмикач"; "вміння"; "вміщати"; "внесок";
   "вниз"; "вночі"; "вовк"; "вовна"; "вогнище"; "вогонь"; "вода"; "водень"; "водний"; "водій"; "вокал";
   "волога"; "вольт"; "воля"; "ворог"; "воїн"; "вперше"; "вплив"; "враження"; "врода"; "врожай"; "все";
   "всесвіт"; "вставка"; "всюди"; "втеча"; "втома"; "втрата"; "вугляр"; "вуж"; "вузол"; "вузький"; "вулиця";
   "вухо"; "вхід"; "вчений"; "вчинок"; "вчитель"; "вчора"; "вщент"; "вівця"; "відбір"; "відвага"; "відгук";
   "відділ"; "відео"; "відмова"; "відомий"; "відсоток"; "відчути"; "відьма"; "віз"; "візит"; "візок";
   "військо"; "вікно"; "вікінг"; "вініл"; "вірус"; "вірш"; "вісник"; "вісті"; "вісь"; "вісім"; "вітання";
   "вітер"; "вітрило"; "вічний"; "вішати"; "гавань"; "гадати"; "гаджет"; "гадюка"; "газета"; "газон";
   "галера"; "галузь"; "гальма"; "гамак"; "ганьба"; "гараж"; "гарбуз"; "гармата"; "гарний"; "гарячо";
   "гасло"; "гвардія"; "гвинт"; "гель"; "генерал"; "гени"; "геном"; "генсека"; "геній"; "гепард"; "герой";
   "герцог"; "гетьман"; "гладкий"; "глибина"; "глина"; "глузд"; "глухий"; "глюкоза"; "глядач"; "гном";
   "гнів"; "гніздо"].

Definition words_3 : list String.string :=
  ["година"; "голий"; "голка"; "голос"; "гончар"; "гопак"; "гора"; "гордий"; "горила"; "горло"; "гормон";
   "горобець"; "горщик"; "горіх"; "гострий"; "готель"; "готовий"; "гравець"; "грамота"; "грант"; "грати";
   "граф"; "гребля"; "гриб"; "гриль"; "громада"; "гроші"; "грубо"; "груди"; "груша"; "гріх"; "губа";
   "гукати"; "гурман"; "гурт"; "гуру"; "гібрид"; "гігант"; "гігієна"; "гілка"; "гірко"; "гість"; "гітара";
   "дайвінг"; "далеко"; "далі"; "даремно"; "дарма"; "датчик"; "дах"; "дбати"; "два"; "двері"; "двигун";
   "двір"; "двічі"; "дебати"; "дебют"; "декан"; "дельта"; "день"; "депо"; "дерево"; "держава"; "десять";
   "дефект"; "дефолт"; "дефіцит"; "децибел"; "дещо"; "джаз"; "джем"; "джерело"; "джинси"; "джип"; "джоуль";
   "джунглі"; "дзвін"; "дзеркало"; "диван"; "дивний"; "диво"; "дивізія"; "дизайн"; "дизель"; "дикий";
   "дикун"; "дим"; "димар"; "динамік"; "диня"; "диплом"; "диск"; "дисплей"; "дитина"; "дитя"; "дно"; "доба";
   "добро"; "довго"; "довжина"; "довше"; "довіра"; "договір"; "додаток"; "дозвіл"; "доказ"; "доктор";
   "документ"; "долар"; "долина"; "домашня"; "домен"; "домкрат"; "донор"; "донька"; "дорога"; "доріжка";
   "досада"; "досвід"; "досить"; "доступ"; "досягти"; "дотик"; "доходи"; "дохід"; "дошка"; "дощ"].

Definition words_4 : list String.string :=
  ["драбина"; "дракон"; "драма"; "друг"; "дружба"; "друк"; "дріт"; "дуб"; "дуель"; "дуже"; "думати"; "думка";
   "дурний"; "душа"; "дюжина"; "дюйм"; "дядько"; "дякувати"; "дятел"; "діабет"; "діагноз"; "діалог";
   "діамант"; "діва"; "дівка"; "дівчина"; "дід"; "дідусь"; "дійсно"; "ділянка"; "діти"; "дієвий"; "дієта";
   "екватор"; "екзамен"; "екзотика"; "екологія"; "екран"; "екскурс"; "експерт"; "екстра"; "екіпаж";
   "електрон"; "елемент"; "ельф"; "еліксир"; "еліпс"; "еліта"; "емаль"; "емоція"; "емперія"; "емульсія";
   "емісія"; "енергія"; "епос"; "епоха"; "епіграф"; "епізод"; "епілог"; "епітет"; "епічний"; "ера";
   "ерозія"; "ерудит"; "ескорт"; "ескімо"; "естет"; "етап"; "етика"; "етичний"; "етнос"; "етюд"; "ефект";
   "ефір"; "ешелон"; "жаба"; "жага"; "жакет"; "жало"; "жаль"; "жанр"; "жар"; "жарт"; "жати"; "жах"; "жебрак";
   "желе"; "жереб"; "жертва"; "жива"; "живий"; "живо"; "живіт"; "жила"; "жим"; "жир"; "житель"; "жити";
   "житло"; "жито"; "життя"; "жмут"; "жовтий"; "жовч"; "жолоб"; "жуйка"; "журба"; "журнал"; "журі";
   "жінка"; "забава"; "забутий"; "завада"; "завжди"; "завод"; "завтра"; "загар"; "загроза"; "задача";
   "задній"; "зазнати"; "зазор"; "зайнято"; "заклик"; "закон"; "зал"; "залишок"; "залізо"].

Definition words_5 : list String.string :=
  ["замок"; "заміна"; "запаси"; "запис"; "заповіт"; "запуск"; "зараз"; "зарядка"; "заслуга"; "заспів";
   "застава"; "засіб"; "затока"; "захист"; "захід"; "заявник"; "заєць"; "збирати"; "збиток"; "збори";
   "зброя"; "збір"; "звалище"; "званий"; "звичка"; "звук"; "звід"; "згадка"; "згинати"; "згодом"; "зграя";
   "згідно"; "здавати"; "здатний"; "здобути"; "зелений"; "земля"; "зерно"; "зима"; "зимно"; "злам";
   "злива"; "злий"; "зло"; "злодій"; "злочин"; "змагання"; "зміна"; "зміст"; "змія"; "знайти"; "знання";
   "значно"; "знижка"; "знову"; "знімок"; "зозуля"; "зокрема"; "золото"; "зоопарк"; "зоря"; "зошит"; "зрада";
   "зразок"; "зручний"; "зрілий"; "зсув"; "зупинка"; "зустріч"; "зібрання"; "зір"; "зірка"; "йогурт";
   "йод"; "йти"; "кабель"; "каблук"; "кабіна"; "кава"; "кавун"; "кадр"; "кажан"; "казати"; "казино";
   "казка"; "калина"; "калорія"; "кальцій"; "камера"; "кампус"; "камінь"; "канат"; "канон"; "канцлер";
   "каньйон"; "капелюх"; "каплиця"; "капот"; "капсула"; "капуста"; "капці"; "капітан"; "карабін"; "карп";
   "карта"; "касета"; "катання"; "катер"; "католик"; "кафе"; "квадрат"; "квант"; "квартира"; "квасоля";
   "квиток"; "квітка"; "кедр"; "келих"; "кемпінг"; "кермо"; "кетяг"; "кефір"; "кидати"; "кийок"; "килим";
   "кисень"; "кислота"; "кицька"].

Definition words_6 : list String.string :=
  ["клавіша"; "клапан"; "клас"; "клен"; "клуб"; "ключ"; "клімат"; "клініка"; "кліп"; "кліринг"; "клітина";
   "клієнт"; "книга"; "кнопка"; "князь"; "кобза"; "коваль"; "ковбой"; "ковдра"; "код"; "кодекс"; "кожен";
   "кожух"; "козак"; "козел"; "колесо"; "колиска"; "коло"; "кольчуга"; "колядка"; "колір"; "комар";
   "комедія"; "комфорт"; "комікс"; "конгрес"; "конкурс"; "консул"; "контакт"; "концерт"; "конюх"; "копати";
   "копія"; "корабель"; "кордон"; "коридор"; "корова"; "корпус"; "корінь"; "коса"; "костюм"; "котедж";
   "котрий"; "кохання"; "кошеня"; "кошик"; "кошти"; "краватка"; "крадій"; "край"; "крамниця"; "крапля";
   "краса"; "кратер"; "краще"; "країна"; "кредит"; "крем"; "крига"; "крило"; "кришка"; "крок"; "кролик";
   "круглий"; "крізь"; "кулак"; "культ"; "куля"; "купець"; "купол"; "купівля"; "курага"; "курка"; "курорт";
   "курс"; "кут"; "кухар"; "кухня"; "кущ"; "кільце"; "кімната"; "кінець"; "кінь"; "кістка"; "кіт"; "кітель";
   "кішка"; "лава"; "лавина"; "лагуна"; "лагідно"; "лад"; "лазер"; "лазур"; "лазівка"; "лайка"; "лама";
   "лампа"; "ланка"; "лантух"; "ланцюг"; "лань"; "лапки"; "ласка"; "ласо"; "ласти"; "лати"; "латка";
   "латунь"; "лебідь"; "лев"; "легенда"; "легко"; "легіон"; "ледачий"; "ледве"; "леді"; "лезо"].

Definition words_7 : list String.string :=
  ["лексика"; "лектор"; "лекція"; "лелека"; "лема"; "лепеха"; "лижа"; "лижня"; "лимон"; "липа"; "липень";
   "липкий"; "лис"; "лисий"; "лист"; "лихо"; "лицар"; "лице"; "лишок"; "ловець"; "логотип"; "логіка";
   "лоза"; "лозина"; "локатор"; "лом"; "лопата"; "лопух"; "лосось"; "лось"; "лотерея"; "лото"; "лоша";
   "лощина"; "луна"; "лунка"; "лупа"; "любов"; "люди"; "людно"; "людство"; "люк"; "люкс"; "люлька"; "люстра";
   "лютий"; "ляда"; "лякати"; "лялька"; "ляпас"; "ліана"; "лівий"; "лівша"; "ліга"; "лідер"; "ліжко";
   "лізти"; "лійка"; "лікар"; "лікер"; "ліки"; "лікоть"; "ліліпут"; "лімфа"; "ліміт"; "лінгвіст"; "лінза";
   "лінощі"; "лінія"; "ліпше"; "ліра"; "лірика"; "лірник"; "ліс"; "лісовик"; "літак"; "літера"; "літній";
   "літо"; "ліфт"; "ліхтар"; "ліцей"; "лічба"; "мабуть"; "магазин"; "магніт"; "магія"; "мазь"; "майно";
   "мак"; "макіяж"; "малеча"; "малюнок"; "маляр"; "мама"; "мамонт"; "мандри"; "манера"; "манікюр"; "марафон";
   "маркер"; "мармур"; "марш"; "масив"; "маска"; "масло"; "материк"; "мати"; "матовий"; "матрос"; "матуся";
   "машина"; "меблі"; "мед"; "медаль"; "медик"; "медіана"; "межа"; "мелодія"; "мельник"; "менше"; "меню";
   "мережа"; "мета"; "метелик"; "метод"; "метро"; "меч"].

Definition words_8 : list String.string :=
  ["мийка"; "милий"; "мило"; "милість"; "минуле"; "мирно"; "митний"; "миттєво"; "мить"; "млин"; "мова";
   "модем"; "можливо"; "мозок"; "мокро"; "молитва"; "молоко"; "момент"; "монах"; "монета"; "моно"; "монтаж";
   "монумент"; "монітор"; "морква"; "мороз"; "мотузка"; "мох"; "мрія"; "мудрий"; "мужність"; "музей";
   "музика"; "мураха"; "мури"; "мустанг"; "муха"; "мідь"; "мікроб"; "міксер"; "мільйон"; "мінерал"; "мінус";
   "міністр"; "міра"; "міст"; "місяць"; "місія"; "міф"; "міхур"; "міцний"; "мішень"; "мішок"; "набрати";
   "набути"; "навички"; "навколо"; "навпаки"; "навряд"; "навіть"; "нагляд"; "нагота"; "надія"; "назад";
   "назва"; "накидка"; "належно"; "намет"; "намисто"; "намір"; "напевно"; "напрям"; "напій"; "наразi";
   "народ"; "насос"; "наступ"; "насіння"; "натовп"; "натрій"; "натяк"; "наука"; "нафта"; "нахаба"; "нахил";
   "начерк"; "небо"; "негайно"; "неділя"; "нежить"; "нейлон"; "немовля"; "неон"; "нерв"; "нести"; "нижче";
   "низький"; "нині"; "нитка"; "новий"; "нога"; "ножиці"; "номер"; "норма"; "носій"; "нотатки"; "ноти";
   "ньютон"; "нюх"; "нянька"; "ніж"; "ніжний"; "нікель"; "ніколи"; "німий"; "нічна"; "нічого"; "оазис";
   "обачно"; "оберт"; "область"; "облік"; "обмін"; "оборот"; "образ"; "обрив"; "обробка"; "обсяг"].

Definition words_9 : list String.string :=
  ["обух"; "обід"; "овації"; "овес"; "овоч"; "огляд"; "огірок"; "один"; "однак"; "одяг"; "ожина"; "озеро";
   "ознака"; "озноб"; "озон"; "оказія"; "океан"; "око"; "окремо"; "оксамит"; "окуляри"; "окунь"; "олень";
   "олівець"; "олія"; "омана"; "омар"; "омела"; "опади"; "опера"; "опис"; "оплата"; "оптика"; "оптом";
   "опікун"; "опір"; "орбіта"; "орган"; "орден"; "орел"; "оренда"; "оркестр"; "освіта"; "оселя"; "основа";
   "особа"; "острів"; "осідати"; "осінь"; "отаман"; "отара"; "отвір"; "отже"; "отрута"; "офіс"; "офіцер";
   "охорона"; "охоче"; "оцінка"; "очерет"; "очі"; "павук"; "пагорб"; "пазли"; "пакет"; "палац"; "палець";
   "паливо"; "палуба"; "пальто"; "паляниця"; "палітра"; "пан"; "панчоха"; "папаха"; "папір"; "парад"; "парк";
   "паром"; "партія"; "пасажир"; "пасивна"; "паспорт"; "паста"; "пасіка"; "патруль"; "пацюк"; "пацієнт";
   "певно"; "пейзаж"; "пекар"; "пензель"; "перець"; "перо"; "персона"; "перукар"; "перший"; "період";
   "пес"; "петля"; "печера"; "печиво"; "печінка"; "пильний"; "пиріг"; "писар"; "питань"; "плавати";
   "плазма"; "плакат"; "план"; "пластик"; "плече"; "плита"; "площа"; "плюс"; "пляж"; "пляма"; "поблизу";
   "повага"; "поверхня"; "повинен"; "повний"; "поворот"; "повінь"; "погано"; "погляд"; "погода"].

Definition words_10 : list String.string :=
  ["подача"; "подвиг"; "подорож"; "подруга"; "подушка"; "подяка"; "подія"; "поезія"; "поема"; "позика";
   "покупка"; "поле"; "полотно"; "полуниця"; "полюс"; "політ"; "помідор"; "понад"; "поняття"; "поні";
   "попит"; "попіл"; "порада"; "порив"; "порох"; "портал"; "поруч"; "порція"; "порядно"; "посадка";
   "посилка"; "послуга"; "посмішка"; "посол"; "постіль"; "посуд"; "посібник"; "потреба"; "потужно"; "потяг";
   "потік"; "почати"; "почуття"; "пошта"; "пошук"; "поява"; "пояс"; "право"; "прагне"; "пральня"; "прапор";
   "праска"; "праця"; "предмет"; "премія"; "преса"; "прибій"; "привид"; "пригода"; "приз"; "прийом";
   "прилад"; "принц"; "природа"; "присмак"; "приток"; "причеп"; "пробка"; "провал"; "прогрес"; "продаж";
   "проект"; "прокат"; "проліт"; "промінь"; "пророк"; "просто"; "проти"; "профі"; "прохід"; "процес";
   "проїзд"; "пряжа"; "прямий"; "прірва"; "птах"; "птиця"; "пузо"; "пульс"; "пункт"; "пустеля"; "путь";
   "пшениця"; "пшоно"; "піаніно"; "південь"; "півень"; "північ"; "пігулка"; "підвал"; "підйом"; "підлога";
   "підошва"; "підпис"; "підхід"; "пізно"; "пікнік"; "пілот"; "пільги"; "піна"; "пінгвін"; "піонер"; "пірат";
   "пісня 	"; "пітон"; "піч"; "пішки"; "равлик"; "радар"; "радий"; "радник"; "радіо"; "разом"; "рай";
   "ракета"; "рамка"; "ранг"; "ранок"].

Definition words_11 : list String.string :=
  ["ранчо"; "раніше"; "раптом"; "рахунок"; "реалізм"; "ребро"; "регіон"; "редакція"; "режим"; "резерв";
   "резюме"; "рейс"; "рельс"; "ремонт"; "ремінь"; "ресурс"; "рецепт"; "речі"; "решта"; "риба"; "ризик";
   "рис"; "ритм"; "родичі"; "розвал"; "розгін"; "розділ"; "розкол"; "розмір"; "розпад"; "розрив"; "розум";
   "ролик"; "роль"; "рости"; "рот"; "рояль"; "рубін"; "рулон"; "руно"; "рута"; "рутина"; "рух"; "ручний";
   "рушник"; "рюкзак"; "ряд"; "рядок"; "рятувати"; "рідина"; "рідко"; "рідне"; "ріжок"; "різати"; "різдво";
   "різке"; "рік"; "ріпа"; "річка"; "садок"; "сажа"; "сазан"; "салат"; "сало"; "сапсан"; "сапфір"; "сарай";
   "сатин"; "сафарі"; "свиня"; "свобода"; "свято"; "свідок"; "свіжий"; "світ"; "свічка"; "седан"; "сезон";
   "секрет"; "сектор"; "секунда"; "селище"; "сенат"; "сенс"; "сервер"; "сержант"; "серп"; "серце"; "серія";
   "сестра"; "сигнал"; "сидіти"; "сила"; "сильно"; "символ"; "синиця"; "синтез"; "синій"; "сир"; "система";
   "сито"; "сканер"; "скарб"; "сквер"; "склад"; "скло"; "скриня"; "скіфи"; "слава"; "слайд"; "слива";
   "слово"; "слон"; "слух"; "сльоза"; "слід"; "сліпий"; "смак"; "смачно"; "смерека"; "смуга"; "сміх";
   "сніг"; "собака"; "собор"; "сова"; "сокира"; "сокіл"].

Definition words_12 : list String.string :=
  ["солдат"; "сон"; "сонце"; "соняшник"; "сопілка"; "сором"; "сорт"; "сосна"; "сотня"; "соус"; "союз";
   "спадщина"; "спалах"; "спам"; "спека"; "список"; "сплав"; "спогад"; "спокій"; "спорт"; "справа";
   "спрей"; "сприяти"; "спроба"; "спуск"; "спів"; "спільно"; "срібло"; "ставок"; "стажист"; "стан"; "старт";
   "стать"; "стебло"; "стежка"; "стеля"; "стенд"; "стерео"; "стиль"; "стимул"; "сто"; "стовп"; "сторож";
   "стояти"; "страх"; "стрес"; "стрибок"; "строго"; "стрічка"; "студія"; "ступа"; "стяг"; "стіл"; "стіна";
   "субота"; "суд"; "суддя"; "судно"; "сукня"; "сума"; "сумнів"; "суміш"; "супер"; "сусід"; "сухий";
   "сфера"; "схема"; "схил"; "сходи"; "сцена"; "сьомий"; "сюжет"; "сяйво"; "сідло"; "сік"; "сіль"; "сім";
   "сіно"; "сірий"; "січень"; "табель"; "табло"; "табун"; "табір"; "таймер"; "таким"; "також"; "таксі";
   "такт"; "талант"; "талія"; "там"; "танго"; "танець"; "танк"; "танок"; "таран"; "тарган"; "тариф"; "тато";
   "тату"; "тварина"; "твердо"; "творець"; "твій"; "театр"; "тебе"; "текст"; "телефон"; "теля"; "тема";
   "тембр"; "темп"; "темрява"; "темінь"; "тендер"; "теніс"; "теорія"; "тепло"; "тераса"; "термін"; "терор";
   "тест"; "технік"; "теча"; "теща"; "тигр"; "тиждень"].

Definition words_13 : list String.string :=
  ["тип"; "типово"; "тираж"; "тире"; "тиск"; "тисяча"; "титан"; "титул"; "тихий"; "тиша"; "тобто"; "товар";
   "товкач"; "товща"; "той"; "токар"; "токсин"; "толк"; "томат"; "тому"; "тонкий"; "тонна"; "тонус";
   "топка"; "тополя"; "торба"; "торги"; "торф"; "тост"; "точка"; "точно"; "трава"; "тракт"; "трамвай";
   "транс"; "трап"; "тренер"; "третій"; "три"; "тримати"; "триста"; "троль"; "трос"; "тротуар"; "трохи";
   "троянда"; "труба"; "трюк"; "трійка"; "тріумф"; "туалет"; "тулуб"; "туман"; "тундра"; "тунель";
   "турбіна"; "турист"; "турнір"; "тюльпан"; "тютюн"; "тягар"; "тягне"; "тіло"; "тільки"; "тінь"; "тісно";
   "тісто"; "тітка"; "убивця"; "увага"; "удав"; "удар"; "удача"; "ужиток"; "узвар"; "узвіз"; "узлісок";
   "узор"; "указ"; "уклад"; "укол"; "укус"; "улов"; "ультра"; "умова"; "унікум"; "унісон"; "унітаз"; "унія";
   "упор"; "управа"; "ура"; "ураган"; "уран"; "урвище"; "уривок"; "урок"; "уряд"; "усміх"; "успіх";
   "устрій"; "утопія"; "утрата"; "утіха"; "ухвала"; "ухил"; "участь"; "учень"; "уява"; "уявний"; "фаза";
   "файл"; "факт"; "фальш"; "фанат"; "фантом"; "фарба"; "фартух"; "фарфор"; "фасад"; "фах"; "ферма"; "фея";
   "фланг"; "флейта"; "флешка"; "флора"; "флот"].

Definition words_14 : list String.string :=
  ["фляга"; "флірт"; "фокус"; "фонд"; "фонтан"; "фора"; "форель"; "фортеця"; "форум"; "фото"; "фраза";
   "фрегат"; "фреска"; "фронт"; "фрукт"; "фтор"; "фургон"; "фіалка"; "фіаско"; "фігура"; "фізика";
   "фіксатор"; "фікція"; "філе"; "фільм"; "філія"; "фінал"; "фінік"; "фіолет"; "фіранка"; "фірма"; "фішка";
   "хабар"; "халепа"; "халтура"; "хан"; "хаос"; "хапати"; "харч"; "хата"; "хатина"; "хвала"; "хватка";
   "хвиля"; "хворий"; "хвоя"; "хвіртка"; "хвіст"; "хиба"; "хибно"; "хист"; "хлопець"; "хлор"; "хліб";
   "хлів"; "хмара"; "хмуро"; "хміль"; "хобот"; "хомут"; "хор"; "хорда"; "хостел"; "хотіти"; "храм"; "храп";
   "хребет"; "хрест"; "хробак"; "хром"; "хрущ"; "хрящ"; "хрін"; "хтось"; "худоба"; "хутко"; "хутро"; "хутір";
   "хіба"; "хімія"; "хірург"; "цар"; "цариця"; "цвях"; "цегла"; "цемент"; "цензура"; "центр"; "церква";
   "цех"; "цибуля"; "цикл"; "цикорій"; "цирк"; "цитата"; "цитрус"; "цифра"; "цукор"; "цунамі"; "цятка";
   "цікаво"; "ціле"; "цілком"; "ціна"; "цінний"; "чавун"; "чагар"; "чадо"; "чай"; "чаклун"; "чапля";
   "чари"; "чарка"; "чартер"; "чарівно"; "час"; "часник"; "часто"; "чахлий"; "чаша"; "чверть"; "чебрець";
   "чемно"; "чемодан"; "чемпіон"; "червень"; "черга"; "через"].

Definition words_15 : list String.string :=
  ["чесний"; "честь"; "четвер"; "чиж"; "чимало"; "чинник"; "число"; "чистий"; "читач"; "чоботи"; "чобіт";
   "човен"; "човник"; "чоловік"; "чорне"; "чотири"; "чохол"; "чуб"; "чудо"; "чужак"; "чужий"; "чути";
   "чутка"; "чутно"; "чхати"; "чіпати"; "чіпси"; "чітко"; "шабля"; "шайба"; "шампунь"; "шанс"; "шар";
   "шафа"; "шахи"; "шахта"; "швець"; "швидко"; "шериф"; "шерсть"; "шибка"; "шина"; "широко"; "ширше"; "шифр";
   "шия"; "школа"; "шкіра"; "шлунок"; "шлях"; "шовк"; "шолом"; "шорти"; "шостий"; "шрам"; "штани"; "штик";
   "шторм"; "штраф"; "штука"; "шукач"; "шум"; "щастя"; "щедрий"; "щирий"; "щоденник"; "щодня"; "щодо";
   "щойно"; "щука"; "щур"; "щітка"; "ювелір"; "ювілей"; "юнак"; "юнга"; "юність"; "юрист"; "юстиція";
   "юшка"; "яблуко"; "явище"; "явний"; "явно"; "явір"; "ягня"; "ягода"; "ягуар"; "ядро"; "язик"; "яйце";
   "який"; "якщо"; "якір"; "якість"; "ялинка"; "яма"; "янтар"; "ярлик"; "ярус"; "ясла"; "ясно"; "яструб";
   "яхта"; "ящик"; "ящір"; "яєчня"; "євнух"; "єврей"; "єдиний"; "їжа"; "їсти"; "ідея"; "імбир"; "імпорт";
   "індекс"; "індик"; "індус"; "інжир"; "іноді"; "інститут"; "інший"; "інші"; "іржа"; "ірис"; "іспит";
   "істина"; "істота"].

(** The Ukrainian word list. *)
Definition words : list String.string :=
  words_0 ++ words_1 ++ words_2 ++ words_3 ++ words_4 ++ words_5 ++ words_6 ++ words_7 ++
  words_8 ++ words_9 ++ words_10 ++ words_11 ++ words_12 ++ words_13 ++ words_14 ++ words_15.
End uk.

Module zh_Hans.
(** ** Simplified Chinese *)

Definition words_0 : list String.string :=
  ["的"; "一"; "是"; "在"; "不"; "了"; "有"; "和"; "人"; "这"; "中"; "大"; "为"; "上"; "个"; "国"; "我"; "以"; "要"; "他"; "时";
   "来"; "用"; "们"; "生"; "到"; "作"; "地"; "于"; "出"; "就"; "分"; "对"; "成"; "会"; "可"; "主"; "发"; "年"; "动"; "同"; "工";
   "也"; "能"; "下"; "过"; "子"; "说"; "产"; "种"; "面"; "而"; "方"; "后"; "多"; "定"; "行"; "学"; "法"; "所"; "民"; "得"; "经";
   "十"; "三"; "之"; "进"; "着"; "等"; "部"; "度"; "家"; "电"; "力"; "里"; "如"; "水"; "化"; "高"; "自"; "二"; "理"; "起"; "小";
   "物"; "现"; "实"; "加"; "量"; "都"; "两"; "体"; "制"; "机"; "当"; "使"; "点"; "从"; "业"; "本"; "去"; "把"; "性"; "好"; "应";
   "开"; "它"; "合"; "还"; "因"; "由"; "其"; "些"; "然"; "前"; "外"; "天"; "政"; "四"; "日"; "那"; "社"; "义"; "事"; "平"; "形";
   "相"; "全"].

Definition words_1 : list String.string :=
  ["表"; "间"; "样"; "与"; "关"; "各"; "重"; "新"; "线"; "内"; "数"; "正"; "心"; "反"; "你"; "明"; "看"; "原"; "又"; "么"; "利";
   "比"; "或"; "但"; "质"; "气"; "第"; "向"; "道"; "命"; "此"; "变"; "条"; "只"; "没"; "结"; "解"; "问"; "意"; "建"; "月"; "公";
   "无"; "系"; "军"; "很"; "情"; "者"; "最"; "立"; "代"; "想"; "已"; "通"; "并"; "提"; "直"; "题"; "党"; "程"; "展"; "五"; "果";
   "料"; "象"; "员"; "革"; "位"; "入"; "常"; "文"; "总"; "次"; "品"; "式"; "活"; "设"; "及"; "管"; "特"; "件"; "长"; "求"; "老";
   "头"; "基"; "资"; "边"; "流"; "路"; "级"; "少"; "图"; "山"; "统"; "接"; "知"; "较"; "将"; "组"; "见"; "计"; "别"; "她"; "手";
   "角"; "期"; "根"; "论"; "运"; "农"; "指"; "几"; "九"; "区"; "强"; "放"; "决"; "西"; "被"; "干"; "做"; "必"; "战"; "先"; "回";
   "则"; "任"].

Definition words_2 : list String.string :=
  ["取"; "据"; "处"; "队"; "南"; "给"; "色"; "光"; "门"; "即"; "保"; "治"; "北"; "造"; "百"; "规"; "热"; "领"; "七"; "海"; "口";
   "东"; "导"; "器"; "压"; "志"; "世"; "金"; "增"; "争"; "济"; "阶"; "油"; "思"; "术"; "极"; "交"; "受"; "联"; "什"; "认"; "六";
   "共"; "权"; "收"; "证"; "改"; "清"; "美"; "再"; "采"; "转"; "更"; "单"; "风"; "切"; "打"; "白"; "教"; "速"; "花"; "带"; "安";
   "场"; "身"; "车"; "例"; "真"; "务"; "具"; "万"; "每"; "目"; "至"; "达"; "走"; "积"; "示"; "议"; "声"; "报"; "斗"; "完"; "类";
   "八"; "离"; "华"; "名"; "确"; "才"; "科"; "张"; "信"; "马"; "节"; "话"; "米"; "整"; "空"; "元"; "况"; "今"; "集"; "温"; "传";
   "土"; "许"; "步"; "群"; "广"; "石"; "记"; "需"; "段"; "研"; "界"; "拉"; "林"; "律"; "叫"; "且"; "究"; "观"; "越"; "织"; "装";
   "影"; "算"].

Definition words_3 : list String.string :=
  ["低"; "持"; "音"; "众"; "书"; "布"; "复"; "容"; "儿"; "须"; "际"; "商"; "非"; "验"; "连"; "断"; "深"; "难"; "近"; "矿"; "千";
   "周"; "委"; "素"; "技"; "备"; "半"; "办"; "青"; "省"; "列"; "习"; "响"; "约"; "支"; "般"; "史"; "感"; "劳"; "便"; "团"; "往";
   "酸"; "历"; "市"; "克"; "何"; "除"; "消"; "构"; "府"; "称"; "太"; "准"; "精"; "值"; "号"; "率"; "族"; "维"; "划"; "选"; "标";
   "写"; "存"; "候"; "毛"; "亲"; "快"; "效"; "斯"; "院"; "查"; "江"; "型"; "眼"; "王"; "按"; "格"; "养"; "易"; "置"; "派"; "层";
   "片"; "始"; "却"; "专"; "状"; "育"; "厂"; "京"; "识"; "适"; "属"; "圆"; "包"; "火"; "住"; "调"; "满"; "县"; "局"; "照"; "参";
   "红"; "细"; "引"; "听"; "该"; "铁"; "价"; "严"; "首"; "底"; "液"; "官"; "德"; "随"; "病"; "苏"; "失"; "尔"; "死"; "讲"; "配";
   "女"; "黄"].

Definition words_4 : list String.string :=
  ["推"; "显"; "谈"; "罪"; "神"; "艺"; "呢"; "席"; "含"; "企"; "望"; "密"; "批"; "营"; "项"; "防"; "举"; "球"; "英"; "氧"; "势";
   "告"; "李"; "台"; "落"; "木"; "帮"; "轮"; "破"; "亚"; "师"; "围"; "注"; "远"; "字"; "材"; "排"; "供"; "河"; "态"; "封"; "另";
   "施"; "减"; "树"; "溶"; "怎"; "止"; "案"; "言"; "士"; "均"; "武"; "固"; "叶"; "鱼"; "波"; "视"; "仅"; "费"; "紧"; "爱"; "左";
   "章"; "早"; "朝"; "害"; "续"; "轻"; "服"; "试"; "食"; "充"; "兵"; "源"; "判"; "护"; "司"; "足"; "某"; "练"; "差"; "致"; "板";
   "田"; "降"; "黑"; "犯"; "负"; "击"; "范"; "继"; "兴"; "似"; "余"; "坚"; "曲"; "输"; "修"; "故"; "城"; "夫"; "够"; "送"; "笔";
   "船"; "占"; "右"; "财"; "吃"; "富"; "春"; "职"; "觉"; "汉"; "画"; "功"; "巴"; "跟"; "虽"; "杂"; "飞"; "检"; "吸"; "助"; "升";
   "阳"; "互"].

Definition words_5 : list String.string :=
  ["初"; "创"; "抗"; "考"; "投"; "坏"; "策"; "古"; "径"; "换"; "未"; "跑"; "留"; "钢"; "曾"; "端"; "责"; "站"; "简"; "述"; "钱";
   "副"; "尽"; "帝"; "射"; "草"; "冲"; "承"; "独"; "令"; "限"; "阿"; "宣"; "环"; "双"; "请"; "超"; "微"; "让"; "控"; "州"; "良";
   "轴"; "找"; "否"; "纪"; "益"; "依"; "优"; "顶"; "础"; "载"; "倒"; "房"; "突"; "坐"; "粉"; "敌"; "略"; "客"; "袁"; "冷"; "胜";
   "绝"; "析"; "块"; "剂"; "测"; "丝"; "协"; "诉"; "念"; "陈"; "仍"; "罗"; "盐"; "友"; "洋"; "错"; "苦"; "夜"; "刑"; "移"; "频";
   "逐"; "靠"; "混"; "母"; "短"; "皮"; "终"; "聚"; "汽"; "村"; "云"; "哪"; "既"; "距"; "卫"; "停"; "烈"; "央"; "察"; "烧"; "迅";
   "境"; "若"; "印"; "洲"; "刻"; "括"; "激"; "孔"; "搞"; "甚"; "室"; "待"; "核"; "校"; "散"; "侵"; "吧"; "甲"; "游"; "久"; "菜";
   "味"; "旧"].

Definition words_6 : list String.string :=
  ["模"; "湖"; "货"; "损"; "预"; "阻"; "毫"; "普"; "稳"; "乙"; "妈"; "植"; "息"; "扩"; "银"; "语"; "挥"; "酒"; "守"; "拿"; "序";
   "纸"; "医"; "缺"; "雨"; "吗"; "针"; "刘"; "啊"; "急"; "唱"; "误"; "训"; "愿"; "审"; "附"; "获"; "茶"; "鲜"; "粮"; "斤"; "孩";
   "脱"; "硫"; "肥"; "善"; "龙"; "演"; "父"; "渐"; "血"; "欢"; "械"; "掌"; "歌"; "沙"; "刚"; "攻"; "谓"; "盾"; "讨"; "晚"; "粒";
   "乱"; "燃"; "矛"; "乎"; "杀"; "药"; "宁"; "鲁"; "贵"; "钟"; "煤"; "读"; "班"; "伯"; "香"; "介"; "迫"; "句"; "丰"; "培"; "握";
   "兰"; "担"; "弦"; "蛋"; "沉"; "假"; "穿"; "执"; "答"; "乐"; "谁"; "顺"; "烟"; "缩"; "征"; "脸"; "喜"; "松"; "脚"; "困"; "异";
   "免"; "背"; "星"; "福"; "买"; "染"; "井"; "概"; "慢"; "怕"; "磁"; "倍"; "祖"; "皇"; "促"; "静"; "补"; "评"; "翻"; "肉"; "践";
   "尼"; "衣"].

Definition words_7 : list String.string :=
  ["宽"; "扬"; "棉"; "希"; "伤"; "操"; "垂"; "秋"; "宜"; "氢"; "套"; "督"; "振"; "架"; "亮"; "末"; "宪"; "庆"; "编"; "牛"; "触";
   "映"; "雷"; "销"; "诗"; "座"; "居"; "抓"; "裂"; "胞"; "呼"; "娘"; "景"; "威"; "绿"; "晶"; "厚"; "盟"; "衡"; "鸡"; "孙"; "延";
   "危"; "胶"; "屋"; "乡"; "临"; "陆"; "顾"; "掉"; "呀"; "灯"; "岁"; "措"; "束"; "耐"; "剧"; "玉"; "赵"; "跳"; "哥"; "季"; "课";
   "凯"; "胡"; "额"; "款"; "绍"; "卷"; "齐"; "伟"; "蒸"; "殖"; "永"; "宗"; "苗"; "川"; "炉"; "岩"; "弱"; "零"; "杨"; "奏"; "沿";
   "露"; "杆"; "探"; "滑"; "镇"; "饭"; "浓"; "航"; "怀"; "赶"; "库"; "夺"; "伊"; "灵"; "税"; "途"; "灭"; "赛"; "归"; "召"; "鼓";
   "播"; "盘"; "裁"; "险"; "康"; "唯"; "录"; "菌"; "纯"; "借"; "糖"; "盖"; "横"; "符"; "私"; "努"; "堂"; "域"; "枪"; "润"; "幅";
   "哈"; "竟"].

Definition words_8 : list String.string :=
  ["熟"; "虫"; "泽"; "脑"; "壤"; "碳"; "欧"; "遍"; "侧"; "寨"; "敢"; "彻"; "虑"; "斜"; "薄"; "庭"; "纳"; "弹"; "饲"; "伸"; "折";
   "麦"; "湿"; "暗"; "荷"; "瓦"; "塞"; "床"; "筑"; "恶"; "户"; "访"; "塔"; "奇"; "透"; "梁"; "刀"; "旋"; "迹"; "卡"; "氯"; "遇";
   "份"; "毒"; "泥"; "退"; "洗"; "摆"; "灰"; "彩"; "卖"; "耗"; "夏"; "择"; "忙"; "铜"; "献"; "硬"; "予"; "繁"; "圈"; "雪"; "函";
   "亦"; "抽"; "篇"; "阵"; "阴"; "丁"; "尺"; "追"; "堆"; "雄"; "迎"; "泛"; "爸"; "楼"; "避"; "谋"; "吨"; "野"; "猪"; "旗"; "累";
   "偏"; "典"; "馆"; "索"; "秦"; "脂"; "潮"; "爷"; "豆"; "忽"; "托"; "惊"; "塑"; "遗"; "愈"; "朱"; "替"; "纤"; "粗"; "倾"; "尚";
   "痛"; "楚"; "谢"; "奋"; "购"; "磨"; "君"; "池"; "旁"; "碎"; "骨"; "监"; "捕"; "弟"; "暴"; "割"; "贯"; "殊"; "释"; "词"; "亡";
   "壁"; "顿"].

Definition words_9 : list String.string :=
  ["宝"; "午"; "尘"; "闻"; "揭"; "炮"; "残"; "冬"; "桥"; "妇"; "警"; "综"; "招"; "吴"; "付"; "浮"; "遭"; "徐"; "您"; "摇"; "谷";
   "赞"; "箱"; "隔"; "订"; "男"; "吹"; "园"; "纷"; "唐"; "败"; "宋"; "玻"; "巨"; "耕"; "坦"; "荣"; "闭"; "湾"; "键"; "凡"; "驻";
   "锅"; "救"; "恩"; "剥"; "凝"; "碱"; "齿"; "截"; "炼"; "麻"; "纺"; "禁"; "废"; "盛"; "版"; "缓"; "净"; "睛"; "昌"; "婚"; "涉";
   "筒"; "嘴"; "插"; "岸"; "朗"; "庄"; "街"; "藏"; "姑"; "贸"; "腐"; "奴"; "啦"; "惯"; "乘"; "伙"; "恢"; "匀"; "纱"; "扎"; "辩";
   "耳"; "彪"; "臣"; "亿"; "璃"; "抵"; "脉"; "秀"; "萨"; "俄"; "网"; "舞"; "店"; "喷"; "纵"; "寸"; "汗"; "挂"; "洪"; "贺"; "闪";
   "柬"; "爆"; "烯"; "津"; "稻"; "墙"; "软"; "勇"; "像"; "滚"; "厘"; "蒙"; "芳"; "肯"; "坡"; "柱"; "荡"; "腿"; "仪"; "旅"; "尾";
   "轧"; "冰"].

Definition words_10 : list String.string :=
  ["贡"; "登"; "黎"; "削"; "钻"; "勒"; "逃"; "障"; "氨"; "郭"; "峰"; "币"; "港"; "伏"; "轨"; "亩"; "毕"; "擦"; "莫"; "刺"; "浪";
   "秘"; "援"; "株"; "健"; "售"; "股"; "岛"; "甘"; "泡"; "睡"; "童"; "铸"; "汤"; "阀"; "休"; "汇"; "舍"; "牧"; "绕"; "炸"; "哲";
   "磷"; "绩"; "朋"; "淡"; "尖"; "启"; "陷"; "柴"; "呈"; "徒"; "颜"; "泪"; "稍"; "忘"; "泵"; "蓝"; "拖"; "洞"; "授"; "镜"; "辛";
   "壮"; "锋"; "贫"; "虚"; "弯"; "摩"; "泰"; "幼"; "廷"; "尊"; "窗"; "纲"; "弄"; "隶"; "疑"; "氏"; "宫"; "姐"; "震"; "瑞"; "怪";
   "尤"; "琴"; "循"; "描"; "膜"; "违"; "夹"; "腰"; "缘"; "珠"; "穷"; "森"; "枝"; "竹"; "沟"; "催"; "绳"; "忆"; "邦"; "剩"; "幸";
   "浆"; "栏"; "拥"; "牙"; "贮"; "礼"; "滤"; "钠"; "纹"; "罢"; "拍"; "咱"; "喊"; "袖"; "埃"; "勤"; "罚"; "焦"; "潜"; "伍"; "墨";
   "欲"; "缝"].

Definition words_11 : list String.string :=
  ["姓"; "刊"; "饱"; "仿"; "奖"; "铝"; "鬼"; "丽"; "跨"; "默"; "挖"; "链"; "扫"; "喝"; "袋"; "炭"; "污"; "幕"; "诸"; "弧"; "励";
   "梅"; "奶"; "洁"; "灾"; "舟"; "鉴"; "苯"; "讼"; "抱"; "毁"; "懂"; "寒"; "智"; "埔"; "寄"; "届"; "跃"; "渡"; "挑"; "丹"; "艰";
   "贝"; "碰"; "拔"; "爹"; "戴"; "码"; "梦"; "芽"; "熔"; "赤"; "渔"; "哭"; "敬"; "颗"; "奔"; "铅"; "仲"; "虎"; "稀"; "妹"; "乏";
   "珍"; "申"; "桌"; "遵"; "允"; "隆"; "螺"; "仓"; "魏"; "锐"; "晓"; "氮"; "兼"; "隐"; "碍"; "赫"; "拨"; "忠"; "肃"; "缸"; "牵";
   "抢"; "博"; "巧"; "壳"; "兄"; "杜"; "讯"; "诚"; "碧"; "祥"; "柯"; "页"; "巡"; "矩"; "悲"; "灌"; "龄"; "伦"; "票"; "寻"; "桂";
   "铺"; "圣"; "恐"; "恰"; "郑"; "趣"; "抬"; "荒"; "腾"; "贴"; "柔"; "滴"; "猛"; "阔"; "辆"; "妻"; "填"; "撤"; "储"; "签"; "闹";
   "扰"; "紫"].

Definition words_12 : list String.string :=
  ["砂"; "递"; "戏"; "吊"; "陶"; "伐"; "喂"; "疗"; "瓶"; "婆"; "抚"; "臂"; "摸"; "忍"; "虾"; "蜡"; "邻"; "胸"; "巩"; "挤"; "偶";
   "弃"; "槽"; "劲"; "乳"; "邓"; "吉"; "仁"; "烂"; "砖"; "租"; "乌"; "舰"; "伴"; "瓜"; "浅"; "丙"; "暂"; "燥"; "橡"; "柳"; "迷";
   "暖"; "牌"; "秧"; "胆"; "详"; "簧"; "踏"; "瓷"; "谱"; "呆"; "宾"; "糊"; "洛"; "辉"; "愤"; "竞"; "隙"; "怒"; "粘"; "乃"; "绪";
   "肩"; "籍"; "敏"; "涂"; "熙"; "皆"; "侦"; "悬"; "掘"; "享"; "纠"; "醒"; "狂"; "锁"; "淀"; "恨"; "牲"; "霸"; "爬"; "赏"; "逆";
   "玩"; "陵"; "祝"; "秒"; "浙"; "貌"; "役"; "彼"; "悉"; "鸭"; "趋"; "凤"; "晨"; "畜"; "辈"; "秩"; "卵"; "署"; "梯"; "炎"; "滩";
   "棋"; "驱"; "筛"; "峡"; "冒"; "啥"; "寿"; "译"; "浸"; "泉"; "帽"; "迟"; "硅"; "疆"; "贷"; "漏"; "稿"; "冠"; "嫩"; "胁"; "芯";
   "牢"; "叛"].

Definition words_13 : list String.string :=
  ["蚀"; "奥"; "鸣"; "岭"; "羊"; "凭"; "串"; "塘"; "绘"; "酵"; "融"; "盆"; "锡"; "庙"; "筹"; "冻"; "辅"; "摄"; "袭"; "筋"; "拒";
   "僚"; "旱"; "钾"; "鸟"; "漆"; "沈"; "眉"; "疏"; "添"; "棒"; "穗"; "硝"; "韩"; "逼"; "扭"; "侨"; "凉"; "挺"; "碗"; "栽"; "炒";
   "杯"; "患"; "馏"; "劝"; "豪"; "辽"; "勃"; "鸿"; "旦"; "吏"; "拜"; "狗"; "埋"; "辊"; "掩"; "饮"; "搬"; "骂"; "辞"; "勾"; "扣";
   "估"; "蒋"; "绒"; "雾"; "丈"; "朵"; "姆"; "拟"; "宇"; "辑"; "陕"; "雕"; "偿"; "蓄"; "崇"; "剪"; "倡"; "厅"; "咬"; "驶"; "薯";
   "刷"; "斥"; "番"; "赋"; "奉"; "佛"; "浇"; "漫"; "曼"; "扇"; "钙"; "桃"; "扶"; "仔"; "返"; "俗"; "亏"; "腔"; "鞋"; "棱"; "覆";
   "框"; "悄"; "叔"; "撞"; "骗"; "勘"; "旺"; "沸"; "孤"; "吐"; "孟"; "渠"; "屈"; "疾"; "妙"; "惜"; "仰"; "狠"; "胀"; "谐"; "抛";
   "霉"; "桑"].

Definition words_14 : list String.string :=
  ["岗"; "嘛"; "衰"; "盗"; "渗"; "脏"; "赖"; "涌"; "甜"; "曹"; "阅"; "肌"; "哩"; "厉"; "烃"; "纬"; "毅"; "昨"; "伪"; "症"; "煮";
   "叹"; "钉"; "搭"; "茎"; "笼"; "酷"; "偷"; "弓"; "锥"; "恒"; "杰"; "坑"; "鼻"; "翼"; "纶"; "叙"; "狱"; "逮"; "罐"; "络"; "棚";
   "抑"; "膨"; "蔬"; "寺"; "骤"; "穆"; "冶"; "枯"; "册"; "尸"; "凸"; "绅"; "坯"; "牺"; "焰"; "轰"; "欣"; "晋"; "瘦"; "御"; "锭";
   "锦"; "丧"; "旬"; "锻"; "垄"; "搜"; "扑"; "邀"; "亭"; "酯"; "迈"; "舒"; "脆"; "酶"; "闲"; "忧"; "酚"; "顽"; "羽"; "涨"; "卸";
   "仗"; "陪"; "辟"; "惩"; "杭"; "姚"; "肚"; "捉"; "飘"; "漂"; "昆"; "欺"; "吾"; "郎"; "烷"; "汁"; "呵"; "饰"; "萧"; "雅"; "邮";
   "迁"; "燕"; "撒"; "姻"; "赴"; "宴"; "烦"; "债"; "帐"; "斑"; "铃"; "旨"; "醇"; "董"; "饼"; "雏"; "姿"; "拌"; "傅"; "腹"; "妥";
   "揉"; "贤"].

Definition words_15 : list String.string :=
  ["拆"; "歪"; "葡"; "胺"; "丢"; "浩"; "徽"; "昂"; "垫"; "挡"; "览"; "贪"; "慰"; "缴"; "汪"; "慌"; "冯"; "诺"; "姜"; "谊"; "凶";
   "劣"; "诬"; "耀"; "昏"; "躺"; "盈"; "骑"; "乔"; "溪"; "丛"; "卢"; "抹"; "闷"; "咨"; "刮"; "驾"; "缆"; "悟"; "摘"; "铒"; "掷";
   "颇"; "幻"; "柄"; "惠"; "惨"; "佳"; "仇"; "腊"; "窝"; "涤"; "剑"; "瞧"; "堡"; "泼"; "葱"; "罩"; "霍"; "捞"; "胎"; "苍"; "滨";
   "俩"; "捅"; "湘"; "砍"; "霞"; "邵"; "萄"; "疯"; "淮"; "遂"; "熊"; "粪"; "烘"; "宿"; "档"; "戈"; "驳"; "嫂"; "裕"; "徙"; "箭";
   "捐"; "肠"; "撑"; "晒"; "辨"; "殿"; "莲"; "摊"; "搅"; "酱"; "屏"; "疫"; "哀"; "蔡"; "堵"; "沫"; "皱"; "畅"; "叠"; "阁"; "莱";
   "敲"; "辖"; "钩"; "痕"; "坝"; "巷"; "饿"; "祸"; "丘"; "玄"; "溜"; "曰"; "逻"; "彭"; "尝"; "卿"; "妨"; "艇"; "吞"; "韦"; "怨";
   "矮"; "歇"].

(** The simplified Chinese word list. *)
Definition words : list String.string :=
  words_0 ++ words_1 ++ words_2 ++ words_3 ++ words_4 ++ words_5 ++ words_6 ++ words_7 ++
  words_8 ++ words_9 ++ words_10 ++ words_11 ++ words_12 ++ words_13 ++ words_14 ++ words_15.
End zh_Hans.

Module zh_Hant.
(** ** Traditional Chinese *)

Definition words_0 : list String.string :=
  ["的"; "一"; "是"; "在"; "不"; "了"; "有"; "和"; "人"; "這"; "中"; "大"; "為"; "上"; "個"; "國"; "我"; "以"; "要"; "他"; "時";
   "來"; "用"; "們"; "生"; "到"; "作"; "地"; "於"; "出"; "就"; "分"; "對"; "成"; "會"; "可"; "主"; "發"; "年"; "動"; "同"; "工";
   "也"; "能"; "下"; "過"; "子"; "說"; "產"; "種"; "面"; "而"; "方"; "後"; "多"; "定"; "行"; "學"; "法"; "所"; "民"; "得"; "經";
   "十"; "三"; "之"; "進"; "著"; "等"; "部"; "度"; "家"; "電"; "力"; "裡"; "如"; "水"; "化"; "高"; "自"; "二"; "理"; "起"; "小";
   "物"; "現"; "實"; "加"; "量"; "都"; "兩"; "體"; "制"; "機"; "當"; "使"; "點"; "從"; "業"; "本"; "去"; "把"; "性"; "好"; "應";
   "開"; "它"; "合"; "還"; "因"; "由"; "其"; "些"; "然"; "前"; "外"; "天"; "政"; "四"; "日"; "那"; "社"; "義"; "事"; "平"; "形";
   "相"; "全"].

Definition words_1 : list String.string :=
  ["表"; "間"; "樣"; "與"; "關"; "各"; "重"; "新"; "線"; "內"; "數"; "正"; "心"; "反"; "你"; "明"; "看"; "原"; "又"; "麼"; "利";
   "比"; "或"; "但"; "質"; "氣"; "第"; "向"; "道"; "命"; "此"; "變"; "條"; "只"; "沒"; "結"; "解"; "問"; "意"; "建"; "月"; "公";
   "無"; "系"; "軍"; "很"; "情"; "者"; "最"; "立"; "代"; "想"; "已"; "通"; "並"; "提"; "直"; "題"; "黨"; "程"; "展"; "五"; "果";
   "料"; "象"; "員"; "革"; "位"; "入"; "常"; "文"; "總"; "次"; "品"; "式"; "活"; "設"; "及"; "管"; "特"; "件"; "長"; "求"; "老";
   "頭"; "基"; "資"; "邊"; "流"; "路"; "級"; "少"; "圖"; "山"; "統"; "接"; "知"; "較"; "將"; "組"; "見"; "計"; "別"; "她"; "手";
   "角"; "期"; "根"; "論"; "運"; "農"; "指"; "幾"; "九"; "區"; "強"; "放"; "決"; "西"; "被"; "幹"; "做"; "必"; "戰"; "先"; "回";
   "則"; "任"].

Definition words_2 : list String.string :=
  ["取"; "據"; "處"; "隊"; "南"; "給"; "色"; "光"; "門"; "即"; "保"; "治"; "北"; "造"; "百"; "規"; "熱"; "領"; "七"; "海"; "口";
   "東"; "導"; "器"; "壓"; "志"; "世"; "金"; "增"; "爭"; "濟"; "階"; "油"; "思"; "術"; "極"; "交"; "受"; "聯"; "什"; "認"; "六";
   "共"; "權"; "收"; "證"; "改"; "清"; "美"; "再"; "採"; "轉"; "更"; "單"; "風"; "切"; "打"; "白"; "教"; "速"; "花"; "帶"; "安";
   "場"; "身"; "車"; "例"; "真"; "務"; "具"; "萬"; "每"; "目"; "至"; "達"; "走"; "積"; "示"; "議"; "聲"; "報"; "鬥"; "完"; "類";
   "八"; "離"; "華"; "名"; "確"; "才"; "科"; "張"; "信"; "馬"; "節"; "話"; "米"; "整"; "空"; "元"; "況"; "今"; "集"; "溫"; "傳";
   "土"; "許"; "步"; "群"; "廣"; "石"; "記"; "需"; "段"; "研"; "界"; "拉"; "林"; "律"; "叫"; "且"; "究"; "觀"; "越"; "織"; "裝";
   "影"; "算"].

Definition words_3 : list String.string :=
  ["低"; "持"; "音"; "眾"; "書"; "布"; "复"; "容"; "兒"; "須"; "際"; "商"; "非"; "驗"; "連"; "斷"; "深"; "難"; "近"; "礦"; "千";
   "週"; "委"; "素"; "技"; "備"; "半"; "辦"; "青"; "省"; "列"; "習"; "響"; "約"; "支"; "般"; "史"; "感"; "勞"; "便"; "團"; "往";
   "酸"; "歷"; "市"; "克"; "何"; "除"; "消"; "構"; "府"; "稱"; "太"; "準"; "精"; "值"; "號"; "率"; "族"; "維"; "劃"; "選"; "標";
   "寫"; "存"; "候"; "毛"; "親"; "快"; "效"; "斯"; "院"; "查"; "江"; "型"; "眼"; "王"; "按"; "格"; "養"; "易"; "置"; "派"; "層";
   "片"; "始"; "卻"; "專"; "狀"; "育"; "廠"; "京"; "識"; "適"; "屬"; "圓"; "包"; "火"; "住"; "調"; "滿"; "縣"; "局"; "照"; "參";
   "紅"; "細"; "引"; "聽"; "該"; "鐵"; "價"; "嚴"; "首"; "底"; "液"; "官"; "德"; "隨"; "病"; "蘇"; "失"; "爾"; "死"; "講"; "配";
   "女"; "黃"].

Definition words_4 : list String.string :=
  ["推"; "顯"; "談"; "罪"; "神"; "藝"; "呢"; "席"; "含"; "企"; "望"; "密"; "批"; "營"; "項"; "防"; "舉"; "球"; "英"; "氧"; "勢";
   "告"; "李"; "台"; "落"; "木"; "幫"; "輪"; "破"; "亞"; "師"; "圍"; "注"; "遠"; "字"; "材"; "排"; "供"; "河"; "態"; "封"; "另";
   "施"; "減"; "樹"; "溶"; "怎"; "止"; "案"; "言"; "士"; "均"; "武"; "固"; "葉"; "魚"; "波"; "視"; "僅"; "費"; "緊"; "愛"; "左";
   "章"; "早"; "朝"; "害"; "續"; "輕"; "服"; "試"; "食"; "充"; "兵"; "源"; "判"; "護"; "司"; "足"; "某"; "練"; "差"; "致"; "板";
   "田"; "降"; "黑"; "犯"; "負"; "擊"; "范"; "繼"; "興"; "似"; "餘"; "堅"; "曲"; "輸"; "修"; "故"; "城"; "夫"; "夠"; "送"; "筆";
   "船"; "佔"; "右"; "財"; "吃"; "富"; "春"; "職"; "覺"; "漢"; "畫"; "功"; "巴"; "跟"; "雖"; "雜"; "飛"; "檢"; "吸"; "助"; "昇";
   "陽"; "互"].

Definition words_5 : list String.string :=
  ["初"; "創"; "抗"; "考"; "投"; "壞"; "策"; "古"; "徑"; "換"; "未"; "跑"; "留"; "鋼"; "曾"; "端"; "責"; "站"; "簡"; "述"; "錢";
   "副"; "盡"; "帝"; "射"; "草"; "衝"; "承"; "獨"; "令"; "限"; "阿"; "宣"; "環"; "雙"; "請"; "超"; "微"; "讓"; "控"; "州"; "良";
   "軸"; "找"; "否"; "紀"; "益"; "依"; "優"; "頂"; "礎"; "載"; "倒"; "房"; "突"; "坐"; "粉"; "敵"; "略"; "客"; "袁"; "冷"; "勝";
   "絕"; "析"; "塊"; "劑"; "測"; "絲"; "協"; "訴"; "念"; "陳"; "仍"; "羅"; "鹽"; "友"; "洋"; "錯"; "苦"; "夜"; "刑"; "移"; "頻";
   "逐"; "靠"; "混"; "母"; "短"; "皮"; "終"; "聚"; "汽"; "村"; "雲"; "哪"; "既"; "距"; "衛"; "停"; "烈"; "央"; "察"; "燒"; "迅";
   "境"; "若"; "印"; "洲"; "刻"; "括"; "激"; "孔"; "搞"; "甚"; "室"; "待"; "核"; "校"; "散"; "侵"; "吧"; "甲"; "遊"; "久"; "菜";
   "味"; "舊"].

Definition words_6 : list String.string :=
  ["模"; "湖"; "貨"; "損"; "預"; "阻"; "毫"; "普"; "穩"; "乙"; "媽"; "植"; "息"; "擴"; "銀"; "語"; "揮"; "酒"; "守"; "拿"; "序";
   "紙"; "醫"; "缺"; "雨"; "嗎"; "針"; "劉"; "啊"; "急"; "唱"; "誤"; "訓"; "願"; "審"; "附"; "獲"; "茶"; "鮮"; "糧"; "斤"; "孩";
   "脫"; "硫"; "肥"; "善"; "龍"; "演"; "父"; "漸"; "血"; "歡"; "械"; "掌"; "歌"; "沙"; "剛"; "攻"; "謂"; "盾"; "討"; "晚"; "粒";
   "亂"; "燃"; "矛"; "乎"; "殺"; "藥"; "寧"; "魯"; "貴"; "鐘"; "煤"; "讀"; "班"; "伯"; "香"; "介"; "迫"; "句"; "豐"; "培"; "握";
   "蘭"; "擔"; "弦"; "蛋"; "沉"; "假"; "穿"; "執"; "答"; "樂"; "誰"; "順"; "煙"; "縮"; "徵"; "臉"; "喜"; "松"; "腳"; "困"; "異";
   "免"; "背"; "星"; "福"; "買"; "染"; "井"; "概"; "慢"; "怕"; "磁"; "倍"; "祖"; "皇"; "促"; "靜"; "補"; "評"; "翻"; "肉"; "踐";
   "尼"; "衣"].

Definition words_7 : list String.string :=
  ["寬"; "揚"; "棉"; "希"; "傷"; "操"; "垂"; "秋"; "宜"; "氫"; "套"; "督"; "振"; "架"; "亮"; "末"; "憲"; "慶"; "編"; "牛"; "觸";
   "映"; "雷"; "銷"; "詩"; "座"; "居"; "抓"; "裂"; "胞"; "呼"; "娘"; "景"; "威"; "綠"; "晶"; "厚"; "盟"; "衡"; "雞"; "孫"; "延";
   "危"; "膠"; "屋"; "鄉"; "臨"; "陸"; "顧"; "掉"; "呀"; "燈"; "歲"; "措"; "束"; "耐"; "劇"; "玉"; "趙"; "跳"; "哥"; "季"; "課";
   "凱"; "胡"; "額"; "款"; "紹"; "卷"; "齊"; "偉"; "蒸"; "殖"; "永"; "宗"; "苗"; "川"; "爐"; "岩"; "弱"; "零"; "楊"; "奏"; "沿";
   "露"; "桿"; "探"; "滑"; "鎮"; "飯"; "濃"; "航"; "懷"; "趕"; "庫"; "奪"; "伊"; "靈"; "稅"; "途"; "滅"; "賽"; "歸"; "召"; "鼓";
   "播"; "盤"; "裁"; "險"; "康"; "唯"; "錄"; "菌"; "純"; "借"; "糖"; "蓋"; "橫"; "符"; "私"; "努"; "堂"; "域"; "槍"; "潤"; "幅";
   "哈"; "竟"].

Definition words_8 : list String.string :=
  ["熟"; "蟲"; "澤"; "腦"; "壤"; "碳"; "歐"; "遍"; "側"; "寨"; "敢"; "徹"; "慮"; "斜"; "薄"; "庭"; "納"; "彈"; "飼"; "伸"; "折";
   "麥"; "濕"; "暗"; "荷"; "瓦"; "塞"; "床"; "築"; "惡"; "戶"; "訪"; "塔"; "奇"; "透"; "梁"; "刀"; "旋"; "跡"; "卡"; "氯"; "遇";
   "份"; "毒"; "泥"; "退"; "洗"; "擺"; "灰"; "彩"; "賣"; "耗"; "夏"; "擇"; "忙"; "銅"; "獻"; "硬"; "予"; "繁"; "圈"; "雪"; "函";
   "亦"; "抽"; "篇"; "陣"; "陰"; "丁"; "尺"; "追"; "堆"; "雄"; "迎"; "泛"; "爸"; "樓"; "避"; "謀"; "噸"; "野"; "豬"; "旗"; "累";
   "偏"; "典"; "館"; "索"; "秦"; "脂"; "潮"; "爺"; "豆"; "忽"; "托"; "驚"; "塑"; "遺"; "愈"; "朱"; "替"; "纖"; "粗"; "傾"; "尚";
   "痛"; "楚"; "謝"; "奮"; "購"; "磨"; "君"; "池"; "旁"; "碎"; "骨"; "監"; "捕"; "弟"; "暴"; "割"; "貫"; "殊"; "釋"; "詞"; "亡";
   "壁"; "頓"].

Definition words_9 : list String.string :=
  ["寶"; "午"; "塵"; "聞"; "揭"; "炮"; "殘"; "冬"; "橋"; "婦"; "警"; "綜"; "招"; "吳"; "付"; "浮"; "遭"; "徐"; "您"; "搖"; "谷";
   "贊"; "箱"; "隔"; "訂"; "男"; "吹"; "園"; "紛"; "唐"; "敗"; "宋"; "玻"; "巨"; "耕"; "坦"; "榮"; "閉"; "灣"; "鍵"; "凡"; "駐";
   "鍋"; "救"; "恩"; "剝"; "凝"; "鹼"; "齒"; "截"; "煉"; "麻"; "紡"; "禁"; "廢"; "盛"; "版"; "緩"; "淨"; "睛"; "昌"; "婚"; "涉";
   "筒"; "嘴"; "插"; "岸"; "朗"; "莊"; "街"; "藏"; "姑"; "貿"; "腐"; "奴"; "啦"; "慣"; "乘"; "夥"; "恢"; "勻"; "紗"; "扎"; "辯";
   "耳"; "彪"; "臣"; "億"; "璃"; "抵"; "脈"; "秀"; "薩"; "俄"; "網"; "舞"; "店"; "噴"; "縱"; "寸"; "汗"; "掛"; "洪"; "賀"; "閃";
   "柬"; "爆"; "烯"; "津"; "稻"; "牆"; "軟"; "勇"; "像"; "滾"; "厘"; "蒙"; "芳"; "肯"; "坡"; "柱"; "盪"; "腿"; "儀"; "旅"; "尾";
   "軋"; "冰"].

Definition words_10 : list String.string :=
  ["貢"; "登"; "黎"; "削"; "鑽"; "勒"; "逃"; "障"; "氨"; "郭"; "峰"; "幣"; "港"; "伏"; "軌"; "畝"; "畢"; "擦"; "莫"; "刺"; "浪";
   "秘"; "援"; "株"; "健"; "售"; "股"; "島"; "甘"; "泡"; "睡"; "童"; "鑄"; "湯"; "閥"; "休"; "匯"; "舍"; "牧"; "繞"; "炸"; "哲";
   "磷"; "績"; "朋"; "淡"; "尖"; "啟"; "陷"; "柴"; "呈"; "徒"; "顏"; "淚"; "稍"; "忘"; "泵"; "藍"; "拖"; "洞"; "授"; "鏡"; "辛";
   "壯"; "鋒"; "貧"; "虛"; "彎"; "摩"; "泰"; "幼"; "廷"; "尊"; "窗"; "綱"; "弄"; "隸"; "疑"; "氏"; "宮"; "姐"; "震"; "瑞"; "怪";
   "尤"; "琴"; "循"; "描"; "膜"; "違"; "夾"; "腰"; "緣"; "珠"; "窮"; "森"; "枝"; "竹"; "溝"; "催"; "繩"; "憶"; "邦"; "剩"; "幸";
   "漿"; "欄"; "擁"; "牙"; "貯"; "禮"; "濾"; "鈉"; "紋"; "罷"; "拍"; "咱"; "喊"; "袖"; "埃"; "勤"; "罰"; "焦"; "潛"; "伍"; "墨";
   "欲"; "縫"].

Definition words_11 : list String.string :=
  ["姓"; "刊"; "飽"; "仿"; "獎"; "鋁"; "鬼"; "麗"; "跨"; "默"; "挖"; "鏈"; "掃"; "喝"; "袋"; "炭"; "污"; "幕"; "諸"; "弧"; "勵";
   "梅"; "奶"; "潔"; "災"; "舟"; "鑑"; "苯"; "訟"; "抱"; "毀"; "懂"; "寒"; "智"; "埔"; "寄"; "屆"; "躍"; "渡"; "挑"; "丹"; "艱";
   "貝"; "碰"; "拔"; "爹"; "戴"; "碼"; "夢"; "芽"; "熔"; "赤"; "漁"; "哭"; "敬"; "顆"; "奔"; "鉛"; "仲"; "虎"; "稀"; "妹"; "乏";
   "珍"; "申"; "桌"; "遵"; "允"; "隆"; "螺"; "倉"; "魏"; "銳"; "曉"; "氮"; "兼"; "隱"; "礙"; "赫"; "撥"; "忠"; "肅"; "缸"; "牽";
   "搶"; "博"; "巧"; "殼"; "兄"; "杜"; "訊"; "誠"; "碧"; "祥"; "柯"; "頁"; "巡"; "矩"; "悲"; "灌"; "齡"; "倫"; "票"; "尋"; "桂";
   "鋪"; "聖"; "恐"; "恰"; "鄭"; "趣"; "抬"; "荒"; "騰"; "貼"; "柔"; "滴"; "猛"; "闊"; "輛"; "妻"; "填"; "撤"; "儲"; "簽"; "鬧";
   "擾"; "紫"].

Definition words_12 : list String.string :=
  ["砂"; "遞"; "戲"; "吊"; "陶"; "伐"; "餵"; "療"; "瓶"; "婆"; "撫"; "臂"; "摸"; "忍"; "蝦"; "蠟"; "鄰"; "胸"; "鞏"; "擠"; "偶";
   "棄"; "槽"; "勁"; "乳"; "鄧"; "吉"; "仁"; "爛"; "磚"; "租"; "烏"; "艦"; "伴"; "瓜"; "淺"; "丙"; "暫"; "燥"; "橡"; "柳"; "迷";
   "暖"; "牌"; "秧"; "膽"; "詳"; "簧"; "踏"; "瓷"; "譜"; "呆"; "賓"; "糊"; "洛"; "輝"; "憤"; "競"; "隙"; "怒"; "粘"; "乃"; "緒";
   "肩"; "籍"; "敏"; "塗"; "熙"; "皆"; "偵"; "懸"; "掘"; "享"; "糾"; "醒"; "狂"; "鎖"; "淀"; "恨"; "牲"; "霸"; "爬"; "賞"; "逆";
   "玩"; "陵"; "祝"; "秒"; "浙"; "貌"; "役"; "彼"; "悉"; "鴨"; "趨"; "鳳"; "晨"; "畜"; "輩"; "秩"; "卵"; "署"; "梯"; "炎"; "灘";
   "棋"; "驅"; "篩"; "峽"; "冒"; "啥"; "壽"; "譯"; "浸"; "泉"; "帽"; "遲"; "矽"; "疆"; "貸"; "漏"; "稿"; "冠"; "嫩"; "脅"; "芯";
   "牢"; "叛"].

Definition words_13 : list String.string :=
  ["蝕"; "奧"; "鳴"; "嶺"; "羊"; "憑"; "串"; "塘"; "繪"; "酵"; "融"; "盆"; "錫"; "廟"; "籌"; "凍"; "輔"; "攝"; "襲"; "筋"; "拒";
   "僚"; "旱"; "鉀"; "鳥"; "漆"; "沈"; "眉"; "疏"; "添"; "棒"; "穗"; "硝"; "韓"; "逼"; "扭"; "僑"; "涼"; "挺"; "碗"; "栽"; "炒";
   "杯"; "患"; "餾"; "勸"; "豪"; "遼"; "勃"; "鴻"; "旦"; "吏"; "拜"; "狗"; "埋"; "輥"; "掩"; "飲"; "搬"; "罵"; "辭"; "勾"; "扣";
   "估"; "蔣"; "絨"; "霧"; "丈"; "朵"; "姆"; "擬"; "宇"; "輯"; "陝"; "雕"; "償"; "蓄"; "崇"; "剪"; "倡"; "廳"; "咬"; "駛"; "薯";
   "刷"; "斥"; "番"; "賦"; "奉"; "佛"; "澆"; "漫"; "曼"; "扇"; "鈣"; "桃"; "扶"; "仔"; "返"; "俗"; "虧"; "腔"; "鞋"; "棱"; "覆";
   "框"; "悄"; "叔"; "撞"; "騙"; "勘"; "旺"; "沸"; "孤"; "吐"; "孟"; "渠"; "屈"; "疾"; "妙"; "惜"; "仰"; "狠"; "脹"; "諧"; "拋";
   "黴"; "桑"].

Definition words_14 : list String.string :=
  ["崗"; "嘛"; "衰"; "盜"; "滲"; "臟"; "賴"; "湧"; "甜"; "曹"; "閱"; "肌"; "哩"; "厲"; "烴"; "緯"; "毅"; "昨"; "偽"; "症"; "煮";
   "嘆"; "釘"; "搭"; "莖"; "籠"; "酷"; "偷"; "弓"; "錐"; "恆"; "傑"; "坑"; "鼻"; "翼"; "綸"; "敘"; "獄"; "逮"; "罐"; "絡"; "棚";
   "抑"; "膨"; "蔬"; "寺"; "驟"; "穆"; "冶"; "枯"; "冊"; "屍"; "凸"; "紳"; "坯"; "犧"; "焰"; "轟"; "欣"; "晉"; "瘦"; "禦"; "錠";
   "錦"; "喪"; "旬"; "鍛"; "壟"; "搜"; "撲"; "邀"; "亭"; "酯"; "邁"; "舒"; "脆"; "酶"; "閒"; "憂"; "酚"; "頑"; "羽"; "漲"; "卸";
   "仗"; "陪"; "闢"; "懲"; "杭"; "姚"; "肚"; "捉"; "飄"; "漂"; "昆"; "欺"; "吾"; "郎"; "烷"; "汁"; "呵"; "飾"; "蕭"; "雅"; "郵";
   "遷"; "燕"; "撒"; "姻"; "赴"; "宴"; "煩"; "債"; "帳"; "斑"; "鈴"; "旨"; "醇"; "董"; "餅"; "雛"; "姿"; "拌"; "傅"; "腹"; "妥";
   "揉"; "賢"].

Definition words_15 : list String.string :=
  ["拆"; "歪"; "葡"; "胺"; "丟"; "浩"; "徽"; "昂"; "墊"; "擋"; "覽"; "貪"; "慰"; "繳"; "汪"; "慌"; "馮"; "諾"; "姜"; "誼"; "兇";
   "劣"; "誣"; "耀"; "昏"; "躺"; "盈"; "騎"; "喬"; "溪"; "叢"; "盧"; "抹"; "悶"; "諮"; "刮"; "駕"; "纜"; "悟"; "摘"; "鉺"; "擲";
   "頗"; "幻"; "柄"; "惠"; "慘"; "佳"; "仇"; "臘"; "窩"; "滌"; "劍"; "瞧"; "堡"; "潑"; "蔥"; "罩"; "霍"; "撈"; "胎"; "蒼"; "濱";
   "倆"; "捅"; "湘"; "砍"; "霞"; "邵"; "萄"; "瘋"; "淮"; "遂"; "熊"; "糞"; "烘"; "宿"; "檔"; "戈"; "駁"; "嫂"; "裕"; "徙"; "箭";
   "捐"; "腸"; "撐"; "曬"; "辨"; "殿"; "蓮"; "攤"; "攪"; "醬"; "屏"; "疫"; "哀"; "蔡"; "堵"; "沫"; "皺"; "暢"; "疊"; "閣"; "萊";
   "敲"; "轄"; "鉤"; "痕"; "壩"; "巷"; "餓"; "禍"; "丘"; "玄"; "溜"; "曰"; "邏"; "彭"; "嘗"; "卿"; "妨"; "艇"; "吞"; "韋"; "怨";
   "矮"; "歇"].

(** The traditional Chinese word list. *)
Definition words : list String.string :=
  words_0 ++ words_1 ++ words_2 ++ words_3 ++ words_4 ++ words_5 ++ words_6 ++ words_7 ++
  words_8 ++ words_9 ++ words_10 ++ words_11 ++ words_12 ++ words_13 ++ words_14 ++ words_15.
End zh_Hant.
