(* ===== verification/Mnemonic.v ===== *)
(** Mnemonic sentences, [src/wallet/mnemonic.cpp] (BIP 39). A word is the list of
    its characters; the dictionary is an argument, as in the code. *)

From S2P Require Import Prelude Text Limits Endian Reader Writer Binary Codes Data Header Checksum.

Class KeyStretch := {
  pkcs5_pbkdf2_hmac_sha512 : list Z -> list Z -> Z -> list Z;
  to_normal_nfkd_form : list Z -> list Z
}.

Module mnemonic.

Definition mnemonic_word_multiple : nat := 3.
Definition mnemonic_seed_multiple : nat := 4.
Definition dictionary_size : nat := 2048.
Definition bits_per_word : nat := 11.
Definition entropy_bit_divisor : nat := 32.
Definition hmac_iterations : Z := 2048.
Definition passphrase_prefix : list Z := chars "mnemonic".

Definition bip39_shift (bit : nat) : Z := u8 (Z.shiftl 1 (Z.of_nat (8 - bit mod 8 - 1))).

(** [find_position]: -1 if the word is not in the list. *)
Fixpoint find_from (position : Z) (lexicon : list (list Z)) (word : list Z) : Z :=
  match lexicon with
  | [] => -1
  | w :: lexicon => if bool_decide (w = word) then position else find_from (position + 1) lexicon word
  end.
Definition find_position (lexicon : list (list Z)) (word : list Z) : Z := find_from 0 lexicon word.

Section Mnemonic.
Context `{Crypto}.

(** The eleven bits of a word. *)
Definition word_position (data : list Z) (word : nat) : Z :=
  fold_left (fun position loop =>
      let bit := (word * bits_per_word + loop)%nat in
      let position := Z.shiftl position 1 in
      if Z.land (nth (bit / 8) data 0) (bip39_shift bit) >? 0 then position + 1 else position)
    (seq 0 bits_per_word) 0.

Definition create_mnemonic (entropy : list Z) (lexicon : list (list Z)) : list (list Z) :=
  if negb (length entropy mod mnemonic_seed_multiple =? 0)%nat then []
  else
    let entropy_bits := (length entropy * 8)%nat in
    let check_bits := (entropy_bits / entropy_bit_divisor)%nat in
    let total_bits := (entropy_bits + check_bits)%nat in
    let word_count := (total_bits / bits_per_word)%nat in
    let data := build_chunk [entropy; sha256_hash entropy] in
    map (fun word => nth (Z.to_nat (word_position data word)) lexicon []) (seq 0 word_count).

(** The bits of a position, from [bit] on. *)
Definition set_bits (data : list Z) (bit : nat) (position : Z) : list Z :=
  fold_left (fun data loop =>
      if negb (Z.land position (Z.shiftl 1 (Z.of_nat (bits_per_word - loop - 1))) =? 0)
      then alter (fun x => Z.lor x (bip39_shift (bit + loop))) ((bit + loop) / 8)%nat data else data)
    (seq 0 bits_per_word) data.

(** [None]: a word is not in the dictionary. *)
Fixpoint read_words (lexicon : list (list Z)) (bit : nat) (data : list Z) (words : list (list Z)) : option (list Z) :=
  match words with
  | [] => Some data
  | word :: words =>
      let position := find_position lexicon word in
      if position =? -1 then None
      else read_words lexicon (bit + bits_per_word) (set_bits data bit position) words
  end.

Definition validate_mnemonic (words lexicon : list (list Z)) : bool :=
  let word_count := length words in
  if negb (word_count mod mnemonic_word_multiple =? 0)%nat then false
  else
    let total_bits := (bits_per_word * word_count)%nat in
    let check_bits := (total_bits / (entropy_bit_divisor + 1))%nat in
    let entropy_bits := (total_bits - check_bits)%nat in
    match read_words lexicon 0 (repeat 0 ((total_bits + 8 - 1) / 8)) words with
    | None => false
    | Some data =>
        let data := binary.resize_blocks (entropy_bits / 8) data in
        let mnemonic := create_mnemonic data lexicon in
        bool_decide (mnemonic = take (length mnemonic) words)
    end.

(** with a list of dictionaries *)
Definition validate_mnemonic_any (words : list (list Z)) (lexicons : list (list (list Z))) : bool :=
  existsb (fun lexicon => validate_mnemonic words lexicon) lexicons.

Definition decode_mnemonic `{KeyStretch} (words : list (list Z)) : list Z :=
  pkcs5_pbkdf2_hmac_sha512 (join words [32]) passphrase_prefix hmac_iterations.

Definition decode_mnemonic_passphrase `{KeyStretch} (words : list (list Z)) (passphrase : list Z) : list Z :=
  pkcs5_pbkdf2_hmac_sha512 (join words [32]) (to_normal_nfkd_form (passphrase_prefix ++ passphrase)) hmac_iterations.
End Mnemonic.

(** ** Numbers and their bits *)

Import binary.

Definition be_value (bs : list bool) : Z := fold_left (fun a (b : bool) => 2 * a + Z.b2z b) bs 0.
Definition word_bits (p : Z) : list bool := map (fun loop => Z.testbit p (Z.of_nat (11 - loop - 1))) (seq 0 11).

Lemma be_value_snoc bs b : be_value (bs ++ [b]) = 2 * be_value bs + Z.b2z b.
Proof. unfold be_value. by rewrite fold_left_app. Qed.

Lemma be_value_inj bs : forall cs, length bs = length cs -> be_value bs = be_value cs -> bs = cs.
Proof.
  induction bs as [|b bs IH] using rev_ind; intros cs Hl E.
  - by destruct cs.
  - destruct (exists_last (l := cs)) as (cs' & c & ->); [intros ->; rewrite length_app in Hl; simpl in Hl; lia|].
    rewrite !length_app in Hl. simpl in Hl. rewrite !be_value_snoc in E.
    assert (Hb : b = c) by (destruct b, c; simpl in E; (done || lia)). subst c.
    f_equal. apply IH; lia.
Qed.

Lemma be_value_range bs : 0 <= be_value bs < 2 ^ zlen bs.
Proof.
  induction bs as [|b bs IH] using rev_ind; [by vm_compute|]. rewrite be_value_snoc. unfold zlen in *.
  rewrite length_app, Nat2Z.inj_add, Z.pow_add_r by lia. simpl (2 ^ Z.of_nat (length [b])). destruct b; simpl Z.b2z; lia.
Qed.

Lemma word_value p : 0 <= p < 2048 -> be_value (word_bits p) = p.
Proof.
  intros Hp. assert (Hall : forallb (fun n => be_value (word_bits (Z.of_nat n)) =? Z.of_nat n) (seq 0 2048) = true) by (by vm_compute).
  rewrite forallb_forall in Hall. specialize (Hall (Z.to_nat p)). rewrite Z2Nat.id in Hall by lia.
  apply Z.eqb_eq, Hall, in_seq. lia.
Qed.

Lemma word_bits_value bs : length bs = 11%nat -> word_bits (be_value bs) = bs.
Proof.
  intros Hl. apply be_value_inj; [done|]. apply word_value. pose proof (be_value_range bs) as Hr.
  unfold zlen in Hr. by rewrite Hl in Hr.
Qed.

(** ** Bits in the data *)

Lemma shift_bits r x : (r < 8)%nat -> byte_ok x ->
  byte_bits (Z.lor x (u8 (Z.shiftl 1 (Z.of_nat (8 - r - 1))))) = <[r := true]> (byte_bits x).
Proof.
  intros Hr Hx. apply (bool_decide_eq_true_1 _). revert r x Hr Hx.
  apply (block_forall (fun r x => bool_decide
    (byte_bits (Z.lor x (u8 (Z.shiftl 1 (Z.of_nat (8 - r - 1))))) = <[r := true]> (byte_bits x)))).
  by vm_compute.
Qed.

(** A bit that is set after the first [i]. *)
Lemma set_bit data i pre n :
  bytes_ok data -> length pre = i -> flat data = pre ++ zeros (S n) ->
  let data' := alter (fun x => Z.lor x (bip39_shift i)) (i / 8)%nat data in
  flat data' = pre ++ true :: zeros n /\ bytes_ok data' /\ length data' = length data.
Proof.
  intros Hb Hl Hf data'. unfold data'.
  pose proof (f_equal length Hf) as Hlen. rewrite length_flat, length_app, repeat_length, Hl in Hlen.
  pose proof (Nat.div_mod_eq i 8) as Hdm. pose proof (Nat.mod_upper_bound i 8 ltac:(lia)) as Hm.
  set (k := (i / 8)%nat) in *. set (r := (i mod 8)%nat) in *.
  destruct (lookup_lt_is_Some_2 data k ltac:(lia)) as [x Hx].
  pose proof (take_drop_middle data k x Hx) as Hsplit. set (a := take k data) in *. set (c := drop (S k) data) in *.
  assert (Ha : length a = k) by (unfold a; rewrite length_take; lia).
  rewrite <- Hsplit in Hb. apply bytes_ok_app in Hb as [Hba Hbc]. apply bytes_ok_cons in Hbc as [Hbx Hbc].
  assert (E : alter (fun x => Z.lor x (bip39_shift i)) k data = a ++ Z.lor x (bip39_shift i) :: c).
  { rewrite <- Hsplit at 1. rewrite <- Ha at 1. rewrite <- (Nat.add_0_r (length a)), alter_app_r. done. }
  rewrite E. split; [|split].
  - rewrite flat_app, flat_cons. unfold bip39_shift. fold r. rewrite shift_bits by done.
    rewrite <- Hsplit, flat_app, flat_cons in Hf.
    apply (f_equal (fun l => <[i := true]> l)) in Hf.
    rewrite insert_app_r_alt in Hf by (rewrite length_flat; lia). rewrite length_flat, Ha in Hf.
    replace (i - 8 * k)%nat with r in Hf by lia. rewrite insert_app_l in Hf by (simpl; lia). rewrite Hf.
    rewrite insert_app_r_alt by lia. by rewrite Hl, Nat.sub_diag.
  - apply bytes_ok_app. split; [done|]. apply Forall_cons_2; [|done]. apply lor_byte; [done|apply u8_byte].
  - rewrite <- Hsplit. by rewrite !length_app.
Qed.

Lemma land_bit_set p i : negb (Z.land p (Z.shiftl 1 (Z.of_nat i)) =? 0) = Z.testbit p (Z.of_nat i).
Proof.
  rewrite Z.shiftl_1_l. destruct (Z.testbit p (Z.of_nat i)) eqn:E.
  - apply negb_true_iff, Z.eqb_neq. intros H0. apply (f_equal (fun v => Z.testbit v (Z.of_nat i))) in H0.
    by rewrite Z.land_spec, Z.pow2_bits_true, E, Z.bits_0 in H0 by lia.
  - apply negb_false_iff, Z.eqb_eq, Z.bits_inj'. intros n Hn. rewrite Z.land_spec, Z.bits_0.
    destruct (decide (n = Z.of_nat i)) as [->|Hne]; [by rewrite E|]. by rewrite Z.pow2_bits_false, andb_false_r by lia.
Qed.

Lemma set_bits_loop p bit m : forall s data pre n,
  bytes_ok data -> length pre = (bit + s)%nat -> flat data = pre ++ zeros (m + n) ->
  let data' := fold_left (fun data loop =>
      if negb (Z.land p (Z.shiftl 1 (Z.of_nat (bits_per_word - loop - 1))) =? 0)
      then alter (fun x => Z.lor x (bip39_shift (bit + loop))) ((bit + loop) / 8)%nat data else data) (seq s m) data in
  flat data' = pre ++ map (fun loop => Z.testbit p (Z.of_nat (11 - loop - 1))) (seq s m) ++ zeros n /\
  bytes_ok data' /\ length data' = length data.
Proof.
  induction m as [|m IH]; intros s data pre n Hb Hl Hf; cbn [seq map fold_left]; [done|].
  rewrite land_bit_set. cbn [Nat.add] in Hf. destruct (set_bit data (bit + s) pre (m + n) Hb Hl Hf) as (Hf' & Hb' & Hl').
  change (bits_per_word - s - 1)%nat with (11 - s - 1)%nat. destruct (Z.testbit p (Z.of_nat (11 - s - 1))).
  - destruct (IH (S s) _ (pre ++ [true]) n Hb') as (F & B & L); [rewrite length_app; simpl; lia|by rewrite <- app_assoc|].
    rewrite F, L, Hl', <- app_assoc. done.
  - destruct (IH (S s) data (pre ++ [false]) n Hb) as (F & B & L); [rewrite length_app; simpl; lia|by rewrite <- app_assoc|].
    rewrite F, L, <- app_assoc. done.
Qed.

Lemma set_bits_flat data bit p pre n :
  bytes_ok data -> length pre = bit -> flat data = pre ++ zeros (11 + n) ->
  flat (set_bits data bit p) = (pre ++ word_bits p) ++ zeros n /\ bytes_ok (set_bits data bit p) /\
  length (set_bits data bit p) = length data.
Proof.
  intros Hb Hl Hf. rewrite <- app_assoc. apply (set_bits_loop p bit 11 0 data pre n); [done|lia|done].
Qed.

(** ** Words and bits *)

Lemma find_from_nth lexicon i p : NoDup lexicon -> (i < length lexicon)%nat ->
  find_from p lexicon (nth i lexicon []) = p + Z.of_nat i.
Proof.
  intros Hn. revert i p. induction Hn as [|w l Hw _ IH]; intros i p Hi; [simpl in Hi; lia|].
  destruct i as [|i]; cbn [nth find_from].
  - rewrite bool_decide_true by done. lia.
  - simpl in Hi. rewrite bool_decide_false.
    + rewrite IH by lia. lia.
    + intros ->. apply Hw. apply list_elem_of_In, nth_In. lia.
Qed.

Lemma word_position_value data w :
  bytes_ok data -> (11 * w + 11 <= 8 * length data)%nat ->
  word_position data w = be_value (take 11 (drop (11 * w) (flat data))).
Proof.
  intros Hb Hw. set (F := flat data).
  assert (E : take 11 (drop (11 * w) F) = map (fun loop => nth (w * 11 + loop) F false) (seq 0 11)).
  { assert (Hl : length (take 11 (drop (11 * w) F)) = 11%nat) by (rewrite length_take, length_drop; unfold F; rewrite length_flat; lia).
    rewrite <- (map_nth_seq false (take 11 (drop (11 * w) F))), Hl. apply map_ext_in. intros i Hi%in_seq.
    rewrite nth_firstn. destruct (Nat.ltb_spec i 11); [|lia]. rewrite nth_skipn. f_equal. lia. }
  rewrite E. unfold word_position, be_value, bits_per_word. 
  match goal with |- fold_left ?f ?l 0 = fold_left ?g (map ?h ?l) 0 =>
    assert (Hfold : forall k acc, fold_left f k acc = fold_left g (map h k) acc); [|apply Hfold] end.
  induction k as [|i k IH]; intros acc; [done|]. cbn [fold_left map]. rewrite IH. f_equal.
  unfold bip39_shift. pose proof (Nat.mod_upper_bound (w * 11 + i) 8 ltac:(lia)) as Hm.
  rewrite bits_get by (done || by apply nth_byte). rewrite <- nth_flat by done. rewrite <- Nat.div_mod_eq. fold F.
  rewrite Z.shiftl_mul_pow2 by lia. destruct (nth (w * 11 + i) F false); simpl Z.b2z; lia.
Qed.

Lemma concat_slices (F : list bool) m :
  concat (map (fun w => take 11 (drop (11 * w) F)) (seq 0 m)) = take (11 * m) F.
Proof.
  induction m as [|m IH]; [by rewrite Nat.mul_0_r|]. rewrite seq_S, map_app, concat_app, IH. cbn [Nat.add map concat].
  rewrite app_nil_r, take_take_drop. f_equal. lia.
Qed.

Section Lexicon.
Context `{Crypto} `{!checksum.CryptoLaws} (lexicon : list (list Z)).
Hypothesis lexicon_distinct : NoDup lexicon.
Hypothesis lexicon_size : length lexicon = dictionary_size.

Notation word_of p := (nth (Z.to_nat p) lexicon []).

(** The words of some positions are read as the bits of the positions. *)
Lemma read_words_bits ps : forall bit data pre n,
  Forall (fun p => 0 <= p < 2048) ps -> bytes_ok data -> length pre = bit ->
  flat data = pre ++ zeros (11 * length ps + n) ->
  exists data', read_words lexicon bit data (map (fun p => word_of p) ps) = Some data' /\
    flat data' = (pre ++ concat (map word_bits ps)) ++ zeros n /\ bytes_ok data'.
Proof.
  induction ps as [|p ps IH]; intros bit data pre n Hps Hb Hl Hf; cbn [map read_words concat].
  - exists data. by rewrite app_nil_r.
  - inversion_clear Hps as [|? ? Hp Hps']. unfold find_position.
    rewrite find_from_nth by (done || rewrite lexicon_size; unfold dictionary_size; lia).
    rewrite Z.add_0_l, Z2Nat.id by lia. replace (p =? -1) with false by lia.
    replace (11 * length (p :: ps) + n)%nat with (11 + (11 * length ps + n))%nat in Hf by (simpl; lia).
    destruct (set_bits_flat data bit p pre _ Hb Hl Hf) as (Hf' & Hb' & _).
    destruct (IH (bit + bits_per_word)%nat _ (pre ++ word_bits p) n Hps' Hb') as (data' & Hr & F & B); [|exact Hf'|].
    + rewrite length_app, Hl. done.
    + exists data'. rewrite Hr, F, <- !app_assoc. done.
Qed.

(** The positions of the words of some entropy of [4 * k] bytes. *)
Definition positions (entropy : list Z) (k : nat) : list Z :=
  map (word_position (entropy ++ sha256_hash entropy)) (seq 0 (3 * k)).

Lemma create_positions entropy k : length entropy = (4 * k)%nat ->
  create_mnemonic entropy lexicon = map (fun p => word_of p) (positions entropy k).
Proof.
  intros Hl. unfold create_mnemonic, positions, build_chunk, mnemonic_seed_multiple, entropy_bit_divisor, bits_per_word.
  cbn [concat]. rewrite app_nil_r, map_map, Hl.
  replace (4 * k)%nat with (k * 4)%nat by lia. rewrite Nat.Div0.mod_mul. cbn [Nat.eqb negb].
  replace (k * 4 * 8)%nat with (k * 32)%nat by lia. rewrite Nat.div_mul by lia.
  replace (k * 32 + k)%nat with ((3 * k) * 11)%nat by lia. by rewrite Nat.div_mul by lia.
Qed.

Lemma positions_bits entropy k :
  length entropy = (4 * k)%nat -> (k <= 256)%nat -> bytes_ok entropy ->
  Forall (fun p => 0 <= p < 2048) (positions entropy k) /\
  concat (map word_bits (positions entropy k)) = take (33 * k) (flat (entropy ++ sha256_hash entropy)).
Proof.
  intros Hl Hk Hb. set (data := entropy ++ sha256_hash entropy).
  assert (Hd : bytes_ok data) by (apply bytes_ok_app; split; [done|apply checksum.sha256_hash_bytes]).
  assert (Hdl : length data = (4 * k + 32)%nat) by (unfold data; rewrite length_app, checksum.sha256_hash_length; lia).
  assert (Hw : forall w, In w (seq 0 (3 * k)) -> word_position data w = be_value (take 11 (drop (11 * w) (flat data))) /\
             length (take 11 (drop (11 * w) (flat data))) = 11%nat).
  { intros w Hw%in_seq. split; [apply word_position_value; [done|lia]|].
    rewrite length_take, length_drop, length_flat. lia. }
  unfold positions. fold data. split.
  - apply List.Forall_forall. intros p Hp%in_map_iff. destruct Hp as (w & <- & Hin). destruct (Hw w Hin) as [-> Hlen].
    pose proof (be_value_range (take 11 (drop (11 * w) (flat data)))) as Hr. unfold zlen in Hr. by rewrite Hlen in Hr.
  - rewrite map_map. replace (33 * k)%nat with (11 * (3 * k))%nat by lia. rewrite <- concat_slices. f_equal.
    apply map_ext_in. intros w Hin. destruct (Hw w Hin) as [-> Hlen]. by apply word_bits_value.
Qed.

(** The words of a mnemonic are words of the lexicon. *)
Lemma created_words entropy :
  bytes_ok entropy -> (length entropy mod 4 = 0)%nat -> (length entropy <= 1024)%nat ->
  length (create_mnemonic entropy lexicon) = (3 * (length entropy / 4))%nat /\
  Forall (fun w => In w lexicon) (create_mnemonic entropy lexicon).
Proof.
  intros Hb Hm Hl. apply Nat.Div0.div_exact in Hm. set (k := (length entropy / 4)%nat) in *.
  destruct (positions_bits entropy k) as [Hp _]; [done|lia|done|]. rewrite (create_positions entropy k) by done.
  split; [unfold positions; by rewrite !length_map, length_seq|].
  apply Forall_map. eapply Forall_impl; [exact Hp|]. intros p Hr. cbv beta in *. apply nth_In.
  rewrite lexicon_size. unfold dictionary_size. lia.
Qed.

Lemma created_validates entropy k :
  length entropy = (4 * k)%nat -> (k <= 256)%nat -> bytes_ok entropy ->
  validate_mnemonic (create_mnemonic entropy lexicon) lexicon = true.
Proof.
  intros Hl Hk Hb. destruct (positions_bits entropy k Hl Hk Hb) as [Hp Hbits].
  pose proof (create_positions entropy k Hl) as Hc. set (words := create_mnemonic entropy lexicon) in *.
  assert (Hpl : length (positions entropy k) = (3 * k)%nat) by (unfold positions; by rewrite length_map, length_seq).
  assert (Hwl : length words = (3 * k)%nat) by (by rewrite Hc, length_map).
  unfold validate_mnemonic, mnemonic_word_multiple, bits_per_word, entropy_bit_divisor. rewrite Hwl.
  replace (3 * k)%nat with (k * 3)%nat at 1 by lia. rewrite Nat.Div0.mod_mul. cbn [Nat.eqb negb].
  replace (11 * (3 * k))%nat with (k * 33)%nat by lia. change (32 + 1)%nat with 33%nat. rewrite Nat.div_mul by lia.
  set (size := ((k * 33 + 8 - 1) / 8)%nat).
  assert (Hsize : (k * 33 <= 8 * size)%nat).
  { unfold size. pose proof (Nat.div_mod_eq (k * 33 + 8 - 1) 8). pose proof (Nat.mod_upper_bound (k * 33 + 8 - 1) 8). lia. }
  destruct (read_words_bits (positions entropy k) 0 (repeat 0 size) [] (8 * size - k * 33)) as (data & Hr & Hf & Hd);
    [done|apply bytes_ok_repeat|done| |].
  { rewrite flat_zeros, Hpl. cbn [app]. f_equal. lia. }
  rewrite <- Hc in Hr. rewrite Hr. cbn [app] in Hf. rewrite Hbits in Hf.
  replace (k * 33 - k)%nat with (4 * k * 8)%nat by lia. rewrite Nat.div_mul by lia.
  replace (resize_blocks (4 * k) data) with entropy.
  - fold words. apply bool_decide_eq_true. by rewrite take_ge.
  - apply flat_inj; [done|by apply bytes_ok_resize|]. rewrite flat_resize, Hf, fit_app_zeros.
    rewrite fit_le by (rewrite length_take, length_flat, length_app, checksum.sha256_hash_length; lia).
    rewrite take_take, flat_app, take_app_length'; [done|]. rewrite length_flat. lia.
Qed.

Lemma read_words_bytes words : forall bit data data',
  bytes_ok data -> read_words lexicon bit data words = Some data' -> bytes_ok data'.
Proof.
  assert (Hset : forall l data bit p, bytes_ok data -> bytes_ok (fold_left (fun data loop =>
      if negb (Z.land p (Z.shiftl 1 (Z.of_nat (bits_per_word - loop - 1))) =? 0)
      then alter (fun x => Z.lor x (bip39_shift (bit + loop))) ((bit + loop) / 8)%nat data else data) l data)).
  { induction l as [|i l IH]; intros data bit p Hb; [done|]. cbn [fold_left]. apply IH. case_match; [|done].
    apply Forall_alter; [done|]. intros x _ Hx. apply lor_byte; [done|apply u8_byte]. }
  induction words as [|w words IH]; intros bit data data' Hb; cbn [read_words]; [by intros [= <-]|].
  case_match; [done|]. apply IH. by apply Hset.
Qed.

(** For a lexicon of 2048 distinct words and at most 768 words, a word
    list validates exactly when it is the mnemonic of some entropy of a
    multiple of four bytes: the bits of the words and the check bits of the
    hash are packed and unpacked as create_mnemonic writes them. *)
Lemma mnemonic_validation words :
  (length words <= 768)%nat ->
  validate_mnemonic words lexicon = true <->
  exists entropy, bytes_ok entropy /\ (length entropy mod 4 = 0)%nat /\ (length entropy <= 1024)%nat /\
    create_mnemonic entropy lexicon = words.
Proof.
  intros Hw. split.
  - unfold validate_mnemonic, mnemonic_word_multiple, bits_per_word, entropy_bit_divisor.
    destruct (Nat.eqb_spec (length words mod 3) 0) as [Hm|]; cbn [negb]; [|done].
    destruct (read_words _ _ _ _) as [data|] eqn:Er; [|done]. intros Heq%bool_decide_eq_true.
    apply Nat.Div0.div_exact in Hm. set (k := (length words / 3)%nat) in *.
    assert (Hdl : ((11 * length words - 11 * length words / (32 + 1)) / 8 = 4 * k)%nat).
    { rewrite Hm. replace (11 * (3 * k))%nat with (k * 33)%nat by lia. change (32 + 1)%nat with 33%nat.
      rewrite Nat.div_mul by lia. replace (k * 33 - k)%nat with (4 * k * 8)%nat by lia. by rewrite Nat.div_mul by lia. }
    rewrite Hdl in Heq. set (entropy := resize_blocks (4 * k) data) in *.
    assert (Hel : length entropy = (4 * k)%nat) by apply length_resize_blocks.
    exists entropy. rewrite Hel. split_and!; [| |lia|].
    + apply bytes_ok_resize. eapply read_words_bytes; [|exact Er]. apply bytes_ok_repeat.
    + rewrite Nat.mul_comm. apply Nat.Div0.mod_mul.
    + rewrite Heq at 1. apply take_ge. rewrite (create_positions entropy k Hel).
      unfold positions. rewrite !length_map, length_seq. lia.
  - intros (entropy & Hb & Hm & Hl & <-). apply Nat.Div0.div_exact in Hm.
    apply (created_validates entropy (length entropy / 4)); [done|lia|done].
Qed.
End Lexicon.
End mnemonic.
