(* ===== verification/Dictionary.v ===== *)
(** The dictionaries of [src/wallet/dictionary.cpp] as the mnemonics use them,
    and what [validate_mnemonic] does with all of them. *)

From Stdlib Require Import FMapPositive.
From stdpp Require Import countable strings.
From S2P Require Import Prelude Text Limits Endian Reader Writer Binary Codes Data Header Checksum Mnemonic WordsLatin WordsOther.

Module language.

(** A dictionary is the array of its words, as characters. *)
Definition lexicon_of (words : list String.string) : list (list Z) := map chars words.

Definition all : list (list String.string) :=
  [en.words; es.words; ja.words; it.words; fr.words; cs.words; ru.words; uk.words; zh_Hans.words; zh_Hant.words].

(** ** A test that words are distinct *)

Fixpoint distinct (seen : PositiveMap.t unit) (words : list String.string) : bool :=
  match words with
  | [] => true
  | w :: words => negb (PositiveMap.mem (encode w) seen) && distinct (PositiveMap.add (encode w) tt seen) words
  end.

Lemma distinct_spec words : forall seen,
  distinct seen words = true ->
  NoDup words /\ forall w, In w words -> PositiveMap.find (encode w) seen = None.
Proof.
  induction words as [|w words IH]; intros seen; cbn [distinct]; [intros _; split; [constructor|done]|].
  intros [Hm Hd]%andb_true_iff. apply negb_true_iff in Hm. apply IH in Hd as [Hn Hf].
  assert (Hw : PositiveMap.find (encode w) seen = None).
  { revert Hm. rewrite PositiveMap.mem_find. by destruct (PositiveMap.find (encode w) seen). }
  assert (Hne : ~ In w words).
  { intros Hin. specialize (Hf w Hin). by rewrite PositiveMap.gss in Hf. }
  split; [constructor; [by rewrite list_elem_of_In|done]|]. intros v [<-|Hv]; [done|].
  specialize (Hf v Hv). rewrite PositiveMap.gso in Hf; [done|]. intros E%(inj encode). by subst.
Qed.

(** A word with no white space. *)
Definition one_word (w : String.string) : bool :=
  negb (bool_decide (w = String.EmptyString)) && forallb (fun c => negb (is_space c)) (chars w).

Lemma chars_inj v w : chars v = chars w -> v = w.
Proof.
  intros E. rewrite <- (String.string_of_list_ascii_of_string v), <- (String.string_of_list_ascii_of_string w). f_equal.
  revert E. unfold chars. generalize (String.list_ascii_of_string v), (String.list_ascii_of_string w).
  induction l as [|a l IH]; intros [|b l']; cbn [map]; try done. intros [= Ha Hl]. f_equal; [|by apply IH].
  apply N2Z.inj in Ha. by rewrite <- (Ascii.ascii_N_embedding a), <- (Ascii.ascii_N_embedding b), Ha.
Qed.

(** ** The dictionaries *)

Lemma all_complete :
  forallb (fun words => (length words =? 2048)%nat && distinct (PositiveMap.empty unit) words) all = true.
Proof. by vm_compute. Qed.

(** The words of the Ukrainian list but one, and all the others. *)
Lemma all_words :
  forallb (fun words => forallb (fun w => one_word w || bool_decide (w = nth 1393 uk.words ""%string)) words) all = true.
Proof. by vm_compute. Qed.

Definition spaced_word : String.string := nth 1393 uk.words ""%string.

Lemma all_words_spec words w :
  In words all -> In w (lexicon_of words) -> w <> chars spaced_word -> w <> [] /\ Forall (fun c => is_space c = false) w.
Proof.
  intros Hw Hin Hne. pose proof all_words as Ha. rewrite forallb_forall in Ha. specialize (Ha words Hw).
  rewrite forallb_forall in Ha. unfold lexicon_of in Hin. apply in_map_iff in Hin as (v & <- & Hv).
  apply Ha, orb_true_iff in Hv as [Hv|Hv%bool_decide_eq_true]; [|by subst v].
  unfold one_word in Hv. apply andb_true_iff in Hv as [Hn Hs]. apply negb_true_iff, bool_decide_eq_false in Hn. split.
  - intros E. apply Hn, chars_inj. by rewrite E.
  - apply Forall_forall. intros c Hc. rewrite forallb_forall in Hs. apply negb_true_iff, Hs. by apply list_elem_of_In.
Qed.

Lemma all_lexicons words :
  In words all -> NoDup (lexicon_of words) /\ length (lexicon_of words) = mnemonic.dictionary_size.
Proof.
  intros Hw. pose proof all_complete as Ha. rewrite forallb_forall in Ha. specialize (Ha words Hw).
  apply andb_true_iff in Ha as [Hl Hd]. apply Nat.eqb_eq in Hl. apply distinct_spec in Hd as [Hn _]. split.
  - unfold lexicon_of. change (NoDup (chars <$> words)). apply NoDup_fmap_2; [|done]. intros v w. apply chars_inj.
  - unfold lexicon_of. by rewrite length_map.
Qed.

(** No piece of a split text has a delimiter. *)
Lemma split_tokens_free delimit text : forall run word,
  Forall (fun c => delimit c = false) word ->
  Forall (Forall (fun c => delimit c = false)) (split_tokens delimit run word text).
Proof.
  induction text as [|c text IH]; intros run word Hw; cbn [split_tokens]; [by apply Forall_cons_2; [|constructor]|].
  destruct (delimit c) eqn:E; [|apply IH, Forall_app; split; [done|by apply Forall_cons_2; [|constructor]]].
  destruct run; [by apply IH|]. apply Forall_cons_2; [done|]. apply IH. constructor.
Qed.

(** C21: With the dictionaries that are shipped, at most 768 words validate
    exactly when they are the mnemonic of some entropy of a multiple of four
    bytes in one of the ten languages; and a mnemonic that is written as a
    sentence is read back word for word, unless it has the Ukrainian word that
    ends in white space, which no sentence gives back. *)
Theorem shipped_mnemonics `{Crypto} `{!checksum.CryptoLaws} words :
  (length words <= 768)%nat ->
  (mnemonic.validate_mnemonic_any words (map lexicon_of all) = true <->
   exists lexicon entropy, In lexicon all /\ bytes_ok entropy /\ (length entropy mod 4 = 0)%nat /\
     (length entropy <= 1024)%nat /\ mnemonic.create_mnemonic entropy (lexicon_of lexicon) = words) /\
  (mnemonic.validate_mnemonic_any words (map lexicon_of all) = true -> words <> [] ->
   Text.split (join words [32]) [32] true = words <-> ~ In (chars spaced_word) words).
Proof.
  intros Hlen.
  assert (Hv : mnemonic.validate_mnemonic_any words (map lexicon_of all) = true <->
     exists lexicon entropy, In lexicon all /\ bytes_ok entropy /\ (length entropy mod 4 = 0)%nat /\
       (length entropy <= 1024)%nat /\ mnemonic.create_mnemonic entropy (lexicon_of lexicon) = words).
  { unfold mnemonic.validate_mnemonic_any. rewrite existsb_exists. setoid_rewrite in_map_iff. split.
    - intros (x & (lexicon & <- & Hin) & Hv). destruct (all_lexicons lexicon Hin) as [Hn Hs].
      apply (mnemonic.mnemonic_validation _ Hn Hs words Hlen) in Hv as (entropy & Hv). by exists lexicon, entropy.
    - intros (lexicon & entropy & Hin & Hv). destruct (all_lexicons lexicon Hin) as [Hn Hs].
      exists (lexicon_of lexicon). split; [by exists lexicon|].
      apply (mnemonic.mnemonic_validation _ Hn Hs words Hlen). by exists entropy. }
  split; [exact Hv|]. intros Hval Hne. apply Hv in Hval as (lexicon & entropy & Hin & Hb & Hm & Hl & <-).
  destruct (all_lexicons lexicon Hin) as [Hn Hs].
  destruct (mnemonic.created_words _ Hs entropy Hb Hm Hl) as [_ Hw].
  split.
  - intros E Hin'. assert (Hfree := split_tokens_free (is_any_of [32]) (trim_copy (join (mnemonic.create_mnemonic entropy (lexicon_of lexicon)) [32]))
      false [] (Forall_nil_2 _)).
    unfold Text.split in E. rewrite E in Hfree. rewrite Forall_forall in Hfree. apply list_elem_of_In in Hin'.
    specialize (Hfree _ Hin'). rewrite Forall_forall in Hfree. specialize (Hfree 32).
    assert (H32 : is_any_of [32] 32 = true) by done. rewrite Hfree in H32; [done|].
    apply (bool_decide_unpack _). by vm_compute.
  - intros Hno. apply split_join; [done|]. apply Forall_forall. intros w Hw'.
    rewrite Forall_forall in Hw. apply (all_words_spec lexicon); [done|by apply Hw|].
    intros ->. apply Hno. by apply list_elem_of_In.
Qed.
End language.
