(* ===== verification/ChainState.v ===== *)
(** The chain state of [src/chain/chain_state.cpp] and the checkpoints of
    [src/config/checkpoint.cpp]: rule activation, median time past, the required
    work and the promotion of the state from a height to the next. A
    computation that throws returns [None]. *)

From Stdlib Require Import String.
From S2P Require Import Prelude Limits Writer Codes Base16 Compact Header.

(** ** Checkpoints *)

Record checkpoint := mk_checkpoint { cp_hash : list Z; cp_height : Z }.

(** [checkpoint::checkpoint(const std::string&, size_t)], of a constant. *)
Definition checkpoint_of (hash : string) (height : Z) : checkpoint :=
  mk_checkpoint (default null_hash (decode_hash (chars hash))) height.

Definition checkpoint_eqb (a b : checkpoint) : bool :=
  (cp_height a =? cp_height b) && bool_decide (cp_hash a = cp_hash b).

Definition checkpoint_sort (checks : list checkpoint) : list checkpoint :=
  std_sort (fun left right => cp_height left <? cp_height right) checks.

Definition checkpoint_covered (height : Z) (checks : list checkpoint) : bool :=
  match checks with
  | [] => false
  | _ => height <=? cp_height (List.last checks (mk_checkpoint null_hash 0))
  end.

Definition checkpoint_validate (hash : list Z) (height : Z) (checks : list checkpoint) : bool :=
  forallb (fun item => negb ((height =? cp_height item) && negb (bool_decide (hash = cp_hash item))))
    checks.

(** ** Parameters of [constants.hpp] *)

Section Parameters.
Context `{Currency}.

Definition mainnet_active : Z := 750.
Definition mainnet_enforce : Z := 950.
Definition mainnet_sample : Z := 1000.
Definition testnet_active : Z := 51.
Definition testnet_enforce : Z := 75.
Definition testnet_sample : Z := 100.

Definition mainnet_bip65_freeze : Z := if is_ltc then max_uint32 else 388381.
Definition mainnet_bip66_freeze : Z := if is_ltc then max_uint32 else 363725.
Definition mainnet_bip34_freeze : Z := if is_ltc then 710000 else 227931.
Definition testnet_bip65_freeze : Z := if is_ltc then max_uint32 else 581885.
Definition testnet_bip66_freeze : Z := if is_ltc then max_uint32 else 330776.
Definition testnet_bip34_freeze : Z := if is_ltc then 76 else 21111.
Definition regtest_bip65_freeze : Z := 1351.
Definition regtest_bip66_freeze : Z := 1251.
Definition regtest_bip34_freeze : Z := if is_ltc then 100000000 else 0.

Definition bip16_activation_time : Z := if is_ltc then 0x4f779a80 else 0x4f3af580.

Definition mainnet_bip16_exception_checkpoint : checkpoint :=
  checkpoint_of "00000000000002dc756eebf4f49723ed8d30cc28a5f108eb94b1ba88ac4f9c22" 170060.
Definition mainnet_bip30_exception_checkpoint1 : checkpoint :=
  checkpoint_of "00000000000a4d0a398161ffc163c503763b1f4360639393e0e4c8e300e0caec" 91842.
Definition mainnet_bip30_exception_checkpoint2 : checkpoint :=
  checkpoint_of "00000000000743f190a18c5577a3c2d2a1f610ae9601ac046a38084ccb7cd721" 91880.

Definition mainnet_bip34_active_checkpoint : checkpoint :=
  if is_ltc then checkpoint_of "fa09d204a83a768ed5a7c8d441fa62f2043abf420cff1226c7b4329aeb9d51cf" 710000
  else checkpoint_of "000000000000024b89b42a942fe0d9fea3bb44ab7bd1b19115dd6a759c0808b8" 227931.
Definition testnet_bip34_active_checkpoint : checkpoint :=
  if is_ltc then checkpoint_of "8075c771ed8b495ffd943980a95f702ab34fce3c8c54e379548bda33cc8c0573" 76
  else checkpoint_of "0000000023b3a96d3484e5abb3755c413e7d41500f8e2a5c3f0dd01299cd8ef8" 21111.
Definition regtest_bip34_active_checkpoint : checkpoint :=
  if is_ltc then checkpoint_of "fa09d204a83a768ed5a7c8d441fa62f2043abf420cff1226c7b4329aeb9d51cf" 100000000
  else checkpoint_of "06226e46111a0b59caaf126043eb5bbf28c34f3a5e332a1fc7b2b73cf188910f" 0.

Definition mainnet_bip9_bit0_active_checkpoint : checkpoint :=
  if is_ltc then checkpoint_of "b50ce9202c152e481ca509156028af954654ed13e4b0656eb497554aa753db0b" 1201535
  else checkpoint_of "000000000000000004a1b34462cb8aeebd5799177f7a29cf28f2d1961716b5b5" 419328.
Definition testnet_bip9_bit0_active_checkpoint : checkpoint :=
  if is_ltc then checkpoint_of "4966625a4b2851d9fdee139e56211a0d88575f59ed816ff5e6a63deb4e3e29a0" 0
  else checkpoint_of "00000000025e930139bac5c6c31a403776da130831ab85be56578f3fa75369bb" 770112.
Definition regtest_bip9_bit0_active_checkpoint : checkpoint :=
  checkpoint_of "06226e46111a0b59caaf126043eb5bbf28c34f3a5e332a1fc7b2b73cf188910f" 0.
Definition mainnet_bip9_bit1_active_checkpoint : checkpoint :=
  if is_ltc then checkpoint_of "b50ce9202c152e481ca509156028af954654ed13e4b0656eb497554aa753db0b" 1201535
  else checkpoint_of "0000000000000000001c8018d9cb3b742ef25114f27563e3fc4a1902167f9893" 481824.
Definition testnet_bip9_bit1_active_checkpoint : checkpoint :=
  if is_ltc then checkpoint_of "4966625a4b2851d9fdee139e56211a0d88575f59ed816ff5e6a63deb4e3e29a0" 0
  else checkpoint_of "00000000002b980fcd729daaa248fd9316a5200e9b367f4ff2c42453e84201ca" 834624.
Definition regtest_bip9_bit1_active_checkpoint : checkpoint :=
  checkpoint_of "06226e46111a0b59caaf126043eb5bbf28c34f3a5e332a1fc7b2b73cf188910f" 0.

Definition mainnet_uahf_active_height : Z := 478558.
Definition testnet_uahf_active_height : Z := 1155876.
Definition mainnet_daa_active_height : Z := 504031.
Definition testnet_daa_active_height : Z := 1188697.
Definition mainnet_monolith_active_height : Z := 530359.
Definition testnet_monolith_active_height : Z := 1233078.

Definition first_version : Z := 1.
Definition bip34_version : Z := 2.
Definition bip66_version : Z := 3.
Definition bip65_version : Z := 4.
Definition bip9_version_bit0 : Z := Z.shiftl 1 0.
Definition bip9_version_bit1 : Z := Z.shiftl 1 1.
Definition bip9_version_base : Z := 0x20000000.

Definition retargeting_factor : Z := 4.
Definition target_spacing_seconds : Z := if is_ltc then 10 * 15 else 10 * 60.
Definition target_timespan_seconds : Z :=
  if is_ltc then 2 * 7 * 24 * 60 * 15 else 2 * 7 * 24 * 60 * 60.
Definition easy_spacing_seconds : Z := 2 * target_spacing_seconds.
Definition min_timespan : Z := target_timespan_seconds / retargeting_factor.
Definition max_timespan : Z := target_timespan_seconds * retargeting_factor.
Definition retargeting_interval : Z := target_timespan_seconds / target_spacing_seconds.
Definition median_time_past_interval : Z := 11.
Definition chain_state_timestamp_count : Z := 147.
Definition bitcoin_cash_offset_tip : Z := 147 - 11.
Definition bitcoin_cash_offset_tip_minus_6 : Z := bitcoin_cash_offset_tip - 6.
End Parameters.

(** ** State *)

(** [chain_state::data] *)
Record chain_data := mk_chain_data {
  cd_height : Z;
  cd_hash : list Z;
  allow_collisions_hash : list Z;
  bip9_bit0_hash : list Z;
  bip9_bit1_hash : list Z;
  bits_self : Z;
  bits_ordered : list Z;
  version_self : Z;
  version_ordered : list Z;
  timestamp_self : Z;
  timestamp_retarget : Z;
  timestamp_ordered : list Z
}.

(** [chain_state::activations] *)
Record activations := mk_activations { act_forks : Z; act_minimum_version : Z }.

Record chain_state := mk_chain_state {
  cs_data : chain_data;
  cs_forks : Z;
  cs_checkpoints : list checkpoint;
  cs_active : activations;
  cs_median_time_past : Z;
  cs_work_required : Z;
  magnetic_anomaly_activation_time : Z;
  great_wall_activation_time : Z
}.

Section ChainState.
Context `{Currency}.

(** ** Activation *)

Definition version_sample_size (mainnet : bool) : Z :=
  if mainnet then mainnet_sample else testnet_sample.

Definition is_active (count : Z) (mainnet : bool) : bool :=
  count >=? (if mainnet then mainnet_active else testnet_active).

Definition is_enforced (count : Z) (mainnet : bool) : bool :=
  count >=? (if mainnet then mainnet_enforce else testnet_enforce).

Definition is_bip16_exception (check : checkpoint) (mainnet : bool) : bool :=
  mainnet && checkpoint_eqb check mainnet_bip16_exception_checkpoint.

Definition is_bip30_exception (check : checkpoint) (mainnet : bool) : bool :=
  mainnet && (checkpoint_eqb check mainnet_bip30_exception_checkpoint1 ||
              checkpoint_eqb check mainnet_bip30_exception_checkpoint2).

(** The three networks' checkpoint compared by hash. *)
Definition hash_matches (main test reg : checkpoint) (hash : list Z) (mainnet testnet : bool) : bool :=
  let regtest := negb mainnet && negb testnet in
  (mainnet && bool_decide (hash = cp_hash main)) || (testnet && bool_decide (hash = cp_hash test)) ||
  (regtest && bool_decide (hash = cp_hash reg)).

(** The three networks' checkpoint compared by height. *)
Definition height_matches (main test reg : checkpoint) (height : Z) (mainnet testnet : bool) : bool :=
  let regtest := negb mainnet && negb testnet in
  (mainnet && (height =? cp_height main)) || (testnet && (height =? cp_height test)) ||
  (regtest && (height =? cp_height reg)).

Definition allow_collisions_by_hash : list Z -> bool -> bool -> bool :=
  hash_matches mainnet_bip34_active_checkpoint testnet_bip34_active_checkpoint
    regtest_bip34_active_checkpoint.
Definition allow_collisions_by_height : Z -> bool -> bool -> bool :=
  height_matches mainnet_bip34_active_checkpoint testnet_bip34_active_checkpoint
    regtest_bip34_active_checkpoint.
Definition bip9_bit0_active_by_hash : list Z -> bool -> bool -> bool :=
  hash_matches mainnet_bip9_bit0_active_checkpoint testnet_bip9_bit0_active_checkpoint
    regtest_bip9_bit0_active_checkpoint.
Definition bip9_bit0_active_by_height : Z -> bool -> bool -> bool :=
  height_matches mainnet_bip9_bit0_active_checkpoint testnet_bip9_bit0_active_checkpoint
    regtest_bip9_bit0_active_checkpoint.
Definition bip9_bit1_active_by_hash (hash : list Z) (mainnet testnet : bool) : bool :=
  if is_bch then false
  else hash_matches mainnet_bip9_bit1_active_checkpoint testnet_bip9_bit1_active_checkpoint
         regtest_bip9_bit1_active_checkpoint hash mainnet testnet.
Definition bip9_bit1_active_by_height (height : Z) (mainnet testnet : bool) : bool :=
  if is_bch then false
  else height_matches mainnet_bip9_bit1_active_checkpoint testnet_bip9_bit1_active_checkpoint
         regtest_bip9_bit1_active_checkpoint height mainnet testnet.

Definition frozen_at (main test reg height : Z) (frozen mainnet testnet : bool) : bool :=
  let regtest := negb mainnet && negb testnet in
  frozen && ((mainnet && (height >=? main)) || (testnet && (height >=? test)) ||
             (regtest && (height >=? reg))).

Definition bip34 : Z -> bool -> bool -> bool -> bool :=
  frozen_at mainnet_bip34_freeze testnet_bip34_freeze regtest_bip34_freeze.
Definition bip66 : Z -> bool -> bool -> bool -> bool :=
  frozen_at mainnet_bip66_freeze testnet_bip66_freeze regtest_bip66_freeze.
Definition bip65 : Z -> bool -> bool -> bool -> bool :=
  frozen_at mainnet_bip65_freeze testnet_bip65_freeze regtest_bip65_freeze.

Definition is_mtp_activated (median_time_past activation_time : Z) : bool :=
  median_time_past >=? u32 activation_time.

Definition is_rule_enabled (height forks mainnet_height testnet_height : Z) : bool :=
  let testnet := rule_fork.is_enabled forks rule_fork.easy_blocks in
  let retarget := rule_fork.is_enabled forks rule_fork.retarget in
  if negb retarget && negb testnet then true
  else
    let activation_height := if testnet then testnet_height else mainnet_height in
    height >? activation_height.

Definition is_uahf_enabled (height forks : Z) : bool :=
  is_rule_enabled height forks mainnet_uahf_active_height testnet_uahf_active_height.
Definition is_daa_enabled (height forks : Z) : bool :=
  is_rule_enabled height forks mainnet_daa_active_height testnet_daa_active_height.
Definition is_monolith_enabled_at (height forks : Z) : bool :=
  is_rule_enabled height forks mainnet_monolith_active_height testnet_monolith_active_height.

(** ** Median time past *)

(** The offset [timestamps_position] returns. *)
Definition timestamps_position (times : list Z) (tip : bool) : nat :=
  let from_end := if zlen times >? 11 then (length times - 11)%nat else 0%nat in
  if is_bch then
    if tip then
      if zlen times >=? bitcoin_cash_offset_tip then Z.to_nat bitcoin_cash_offset_tip else from_end
    else
      if zlen times >=? bitcoin_cash_offset_tip_minus_6 then Z.to_nat bitcoin_cash_offset_tip_minus_6
      else from_end
  else from_end.

Definition timestamps_subset (times : list Z) (tip : bool) : list Z :=
  take (Z.to_nat median_time_past_interval) (drop (timestamps_position times tip) times).

Definition median_time_past (values : chain_data) (tip : bool) : Z :=
  let subset := std_sort Z.ltb (timestamps_subset (timestamp_ordered values) tip) in
  match subset with [] => 0 | _ => nth (length subset / 2) subset 0 end.

(** [static_cast<int32_t>(value) >= version], [version] a [size_t]: the
    signed value is converted to the unsigned type. *)
Definition version_ge (value version : Z) : bool := u64 (swrap 32 value) >=? version.

Definition count_if (f : Z -> bool) (l : list Z) : Z := zlen (filter (fun x => f x = true) l).

Definition set_fork (condition : bool) (rule forks result : Z) : Z :=
  if condition then Z.lor result (Z.land rule forks) else result.

Definition activation (values : chain_data) (forks magnetic_anomaly_time great_wall_time : Z)
    : activations :=
  let height := cd_height values in
  let version := version_self values in
  let history := version_ordered values in
  let frozen := rule_fork.is_enabled forks rule_fork.bip90_rule in
  let testnet := rule_fork.is_enabled forks rule_fork.easy_blocks in
  let retarget := rule_fork.is_enabled forks rule_fork.retarget in
  let mainnet := retarget && negb testnet in
  let count_2 := count_if (fun v => version_ge v bip34_version) history in
  let count_3 := count_if (fun v => version_ge v bip66_version) history in
  let count_4 := count_if (fun v => version_ge v bip65_version) history in
  let bip34_ice := bip34 height frozen mainnet testnet in
  let bip66_ice := bip66 height frozen mainnet testnet in
  let bip65_ice := bip65 height frozen mainnet testnet in
  let check := mk_checkpoint (cd_hash values) height in
  let r := rule_fork.no_rules in
  let r := set_fork true rule_fork.retarget forks r in
  let r := set_fork true rule_fork.easy_blocks forks r in
  let r := set_fork true rule_fork.bip90_rule forks r in
  let r := set_fork ((timestamp_self values >=? bip16_activation_time) &&
                     negb (is_bip16_exception check mainnet)) rule_fork.bip16_rule forks r in
  let r := set_fork (negb (is_bip30_exception check mainnet)) rule_fork.bip30_rule forks r in
  let r := set_fork (if is_ltc then bip34_ice
                     else bip34_ice || (is_active count_2 mainnet && (version >=? bip34_version)))
             rule_fork.bip34_rule forks r in
  let r := set_fork (bip66_ice || (is_active count_3 mainnet && (version >=? bip66_version)))
             rule_fork.bip66_rule forks r in
  let r := set_fork (bip65_ice || (is_active count_4 mainnet && (version >=? bip65_version)))
             rule_fork.bip65_rule forks r in
  let r := set_fork (allow_collisions_by_hash (allow_collisions_hash values) mainnet testnet)
             rule_fork.allow_collisions forks r in
  let r := set_fork (bip9_bit0_active_by_hash (bip9_bit0_hash values) mainnet testnet)
             rule_fork.bip9_bit0_group forks r in
  let r := if is_bch then r
           else set_fork (bip9_bit1_active_by_hash (bip9_bit1_hash values) mainnet testnet)
                  rule_fork.bip9_bit1_group forks r in
  let minimum_version :=
    if bip65_ice || is_enforced count_4 mainnet then bip65_version
    else if bip66_ice || is_enforced count_3 mainnet then bip66_version
    else if bip34_ice || is_enforced count_2 mainnet then bip34_version
    else first_version in
  let r :=
    if is_bch then
      let r := set_fork (is_uahf_enabled height forks)
                 rule_fork.cash_verify_flags_script_enable_sighash_forkid forks r in
      let r := set_fork (is_daa_enabled height forks) rule_fork.cash_low_s_rule forks r in
      let mtp := median_time_past values true in
      let r := set_fork (is_mtp_activated mtp magnetic_anomaly_time)
                 rule_fork.cash_checkdatasig forks r in
      set_fork (is_mtp_activated mtp great_wall_time) rule_fork.cash_replay_protection forks r
    else r in
  mk_activations r minimum_version.

(** ** Heights of the data a state needs *)

Definition unrequested : Z := max_uint64.

Definition retarget_distance (height : Z) : Z := height mod retargeting_interval.
Definition is_retarget_height (height : Z) : bool := retarget_distance height =? 0.

Definition bits_count (height forks : Z) : Z :=
  let testnet := rule_fork.is_enabled forks rule_fork.easy_blocks in
  let retarget := rule_fork.is_enabled forks rule_fork.retarget in
  let easy_work := testnet && retarget && negb (is_retarget_height height) in
  if is_bch then
    if easy_work then Z.min height retargeting_interval else Z.min height chain_state_timestamp_count
  else if easy_work then Z.min height retargeting_interval else 1.

Definition version_count (height forks : Z) : Z :=
  if rule_fork.is_enabled forks rule_fork.bip90_rule ||
     negb (rule_fork.is_enabled forks rule_fork.bip34_activations) then 0
  else
    let testnet := rule_fork.is_enabled forks rule_fork.easy_blocks in
    let retarget := rule_fork.is_enabled forks rule_fork.retarget in
    Z.min height (version_sample_size (retarget && negb testnet)).

Definition timestamp_count (height : Z) : Z :=
  if is_bch then Z.min height chain_state_timestamp_count
  else Z.min height median_time_past_interval.

Definition retarget_height (height forks : Z) : Z :=
  if negb (rule_fork.is_enabled forks rule_fork.retarget) then unrequested
  else u64 (height - (if is_retarget_height height then retargeting_interval
                      else retarget_distance height)).

Definition activation_height (main test reg : checkpoint) (height forks : Z) : Z :=
  let testnet := rule_fork.is_enabled forks rule_fork.easy_blocks in
  let regtest := negb (rule_fork.is_enabled forks rule_fork.retarget) in
  let at_height := if testnet then cp_height test else if regtest then cp_height reg
                   else cp_height main in
  if height >? at_height then at_height else unrequested.

Definition collision_height : Z -> Z -> Z :=
  activation_height mainnet_bip34_active_checkpoint testnet_bip34_active_checkpoint
    regtest_bip34_active_checkpoint.
Definition bip9_bit0_height : Z -> Z -> Z :=
  activation_height mainnet_bip9_bit0_active_checkpoint testnet_bip9_bit0_active_checkpoint
    regtest_bip9_bit0_active_checkpoint.
Definition bip9_bit1_height (height forks : Z) : Z :=
  if is_bch then unrequested
  else
    let testnet := rule_fork.is_enabled forks rule_fork.easy_blocks in
    let at_height := if testnet then cp_height testnet_bip9_bit1_active_checkpoint
                     else cp_height mainnet_bip9_bit1_active_checkpoint in
    if height >? at_height then at_height else unrequested.

(** [chain_state::map] *)
Record chain_map := mk_chain_map {
  map_bits : Z * Z;
  map_bits_self : Z;
  map_version : Z * Z;
  map_version_self : Z;
  map_timestamp : Z * Z;
  map_timestamp_self : Z;
  map_timestamp_retarget : Z;
  map_allow_collisions_height : Z;
  map_bip9_bit0_height : Z;
  map_bip9_bit1_height : Z
}.

(** Ranges are pairs of count and high; the map of height 0 is value-initialized. *)
Definition get_map (height forks : Z) : chain_map :=
  if height =? 0 then mk_chain_map (0, 0) 0 (0, 0) 0 (0, 0) 0 0 0 0 0
  else
    mk_chain_map (bits_count height forks, height - 1) height
      (version_count height forks, height - 1) height
      (timestamp_count height, height - 1) height
      (retarget_height height forks) (collision_height height forks)
      (bip9_bit0_height height forks) (bip9_bit1_height height forks).
End ChainState.

(** ** Median of three: [select_0_2], [select_1_3_ac], [select_1_3] *)

Section Select.
Context {T : Type} (r : T -> T -> bool).

Definition select_0_2 (a b : T) : T := if r b a then b else a.
Definition select_1_3_ac (a b c : T) : T := if r b a then a else select_0_2 b c.
Definition select_1_3 (a b c : T) : T := if r c a then select_1_3_ac c b a else select_1_3_ac a b c.
End Select.

(** ** Required work *)

Section Work.
Context `{Currency}.

Definition timestamp_high (values : chain_data) : Z := List.last (timestamp_ordered values) 0.
Definition bits_high (values : chain_data) : Z := List.last (bits_ordered values) 0.

Definition pow_limit : Z := big (compact_of_bits retarget_proof_of_work_limit).

Definition retarget_timespan (values : chain_data) : Z :=
  let high := timestamp_high values in
  let retarget := timestamp_retarget values in
  range_constrain (high - retarget) min_timespan max_timespan.

Definition limited (limit target : Z) : Z :=
  if target >? limit then retarget_proof_of_work_limit else normal (compact_of_big target).

(** The litecoin branch shifts a large target so that the product fits. *)
Definition work_required_retarget (values : chain_data) : Z :=
  let target := big (compact_of_bits (bits_high values)) in
  if is_ltc then
    let shift := target >? Z.shiftl 1 236 - 1 in
    let target := if shift then Z.shiftr target 1 else target in
    let target := u256 (target * retarget_timespan values) in
    let target := target / target_timespan_seconds in
    let target := if shift then u256 (Z.shiftl target 1) else target in
    limited (2 ^ 236 - 1) target
  else
    let target := u256 (target * retarget_timespan values) in
    let target := target / target_timespan_seconds in
    limited pow_limit target.

Definition easy_time_limit (values : chain_data) : Z :=
  domain_constrain 32 (timestamp_high values + easy_spacing_seconds).

Definition is_retarget_or_non_limit (height bits : Z) : bool :=
  negb (bits =? retarget_proof_of_work_limit) || is_retarget_height height.

(** The reverse iteration of [easy_work_required]. *)
Fixpoint easy_bits (height : Z) (reversed_bits : list Z) : Z :=
  match reversed_bits with
  | [] => retarget_proof_of_work_limit
  | bit :: rest =>
      let height := u64 (height - 1) in
      if is_retarget_or_non_limit height bit then bit else easy_bits height rest
  end.

Definition difficulty_adjustment_cash (target : Z) : Z := u256 (target + Z.shiftr target 2).

Definition work_required_adjust_cash (values : chain_data) : Z :=
  limited pow_limit (difficulty_adjustment_cash (big (compact_of_bits (bits_high values)))).

(** [for (i = first; i <= last; ++i) work += proof(bits[i])] *)
Fixpoint sum_proofs (count : nat) (i work : Z) (bits : list Z) : Z :=
  match count with
  | O => work
  | S count => sum_proofs count (i + 1)
                 (u256 (work + header_proof (nth (Z.to_nat i) bits 0))) bits
  end.

(** [int64_t nActualTimespan = first_block.second - last_block.second]: the
    operands are [uint32_t], the difference wraps before the conversion. *)
Definition cash_timespan (first last : Z) : Z :=
  let actual := u32 (first - last) in
  if actual >? 288 * target_spacing_seconds then 288 * target_spacing_seconds
  else if actual <? 72 * target_spacing_seconds then 72 * target_spacing_seconds
  else actual.

(** A block of the window: its position in [bits] and its timestamp. *)
Definition window_block (position : Z) (times : list Z) (i : nat) : Z * Z :=
  (u64 position, nth i times 0).

Definition pair_cmp (a b : Z * Z) : bool := snd a <? snd b.

(** [None]: the division by a work of zero throws. *)
Definition cash_difficulty_adjustment (values : chain_data) : option Z :=
  let bits := bits_ordered values in
  let times := timestamp_ordered values in
  let bits_size := zlen bits in
  let first_block := select_1_3 pair_cmp (window_block (bits_size - 3) times 144)
                       (window_block (bits_size - 2) times 145)
                       (window_block (bits_size - 1) times 146) in
  let last_block := select_1_3 pair_cmp (window_block (bits_size - 147) times 0)
                      (window_block (bits_size - 146) times 1)
                      (window_block (bits_size - 145) times 2) in
  let start := u64 (fst last_block + 1) in
  let work := sum_proofs (Z.to_nat (fst first_block + 1 - start)) start 0 bits in
  let work := u256 (work * target_spacing_seconds) in
  let work := work / cash_timespan (snd first_block) (snd last_block) in
  if work =? 0 then None
  else Some (limited pow_limit (u256 (- work) / work)).

Definition easy_work_required (values : chain_data) (daa_active : bool) : option Z :=
  if timestamp_self values >? easy_time_limit values then Some retarget_proof_of_work_limit
  else if daa_active && is_bch then cash_difficulty_adjustment values
  else if daa_active then Some retarget_proof_of_work_limit
  else Some (easy_bits (cd_height values) (rev (bits_ordered values))).

Definition work_required (values : chain_data) (forks : Z) : option Z :=
  if cd_height values =? 0 then Some 0
  else if negb (rule_fork.is_enabled forks rule_fork.retarget) then Some (bits_high values)
  else
    let last_time_span := median_time_past values true in
    let daa_active := if is_bch then is_daa_enabled (cd_height values) forks else false in
    if is_retarget_height (cd_height values) && negb daa_active then
      Some (work_required_retarget values)
    else if rule_fork.is_enabled forks rule_fork.easy_blocks then
      easy_work_required values daa_active
    else if is_bch && is_uahf_enabled (cd_height values) forks then
      if is_daa_enabled (cd_height values) forks then cash_difficulty_adjustment values
      else
        let six_time_span := median_time_past values false in
        if u32 (last_time_span - six_time_span) >? 12 * 3600 then
          Some (work_required_adjust_cash values)
        else Some (bits_high values)
    else Some (bits_high values).

(** ** Construction and promotion *)

Definition signal_version (forks : Z) : Z :=
  if rule_fork.is_enabled forks rule_fork.bip65_rule then bip65_version
  else if rule_fork.is_enabled forks rule_fork.bip66_rule then bip66_version
  else if rule_fork.is_enabled forks rule_fork.bip34_rule then bip34_version
  else if rule_fork.is_enabled forks rule_fork.bip9_bit0_group then
    Z.lor bip9_version_base bip9_version_bit0
  else if rule_fork.is_enabled forks rule_fork.bip9_bit1_group then
    Z.lor bip9_version_base bip9_version_bit1
  else first_version.

(** [push_back], then one [pop_front] if the collection exceeds its count. *)
Definition enqueue (ordered : list Z) (value count : Z) : list Z :=
  let l := ordered ++ [value] in
  if zlen l >? count then drop 1 l else l.

(** [None]: [ordered.at(size - 2)] throws (litecoin). *)
Definition to_pool (top : chain_state) : option chain_data :=
  let forks := cs_forks top in
  let retarget := rule_fork.is_enabled forks rule_fork.retarget in
  let d := cs_data top in
  let height := u64 (cd_height d + 1) in
  let bits := enqueue (bits_ordered d) (bits_self d) (bits_count height forks) in
  let versions := enqueue (version_ordered d) (version_self d) (version_count height forks) in
  let times := enqueue (timestamp_ordered d) (timestamp_self d) (timestamp_count height) in
  let retarget_time :=
    if retarget && is_retarget_height (u64 (height - 1)) then
      if is_ltc then
        if zlen times <? 2 then None else Some (nth (length times - 2) times 0)
      else Some (timestamp_self d)
    else Some (timestamp_retarget d) in
  match retarget_time with
  | None => None
  | Some retarget_time =>
      Some (mk_chain_data height null_hash (allow_collisions_hash d) (bip9_bit0_hash d)
              (bip9_bit1_hash d) (work_limit retarget) bits (signal_version forks) versions
              max_uint32 retarget_time times)
  end.

Section Hashing.
Context `{Crypto}.

(** The header part shared by [to_block] and [to_header]. *)
Definition with_header (forks : Z) (d : chain_data) (h : header) : chain_data :=
  let testnet := rule_fork.is_enabled forks rule_fork.easy_blocks in
  let retarget := rule_fork.is_enabled forks rule_fork.retarget in
  let mainnet := retarget && negb testnet in
  let hash := fst (header_hash h) in
  mk_chain_data (cd_height d) hash
    (if allow_collisions_by_height (cd_height d) mainnet testnet then hash
     else allow_collisions_hash d)
    (if bip9_bit0_active_by_height (cd_height d) mainnet testnet then hash else bip9_bit0_hash d)
    (if negb is_bch && bip9_bit1_active_by_height (cd_height d) mainnet testnet then hash
     else bip9_bit1_hash d)
    (hd_bits h) (bits_ordered d) (hd_version h) (version_ordered d)
    (hd_timestamp h) (timestamp_retarget d) (timestamp_ordered d).

Definition to_block (pool : chain_state) (block_header : header) : chain_data :=
  with_header (cs_forks pool) (cs_data pool) block_header.

Definition to_header (parent : chain_state) (h : header) : option chain_data :=
  match to_pool parent with
  | Some d => Some (with_header (cs_forks parent) d h)
  | None => None
  end.
End Hashing.

(** The member initializers every constructor shares. *)
Definition make_state (d : chain_data) (forks : Z) (checks : list checkpoint)
    (magnetic_anomaly_time great_wall_time : Z) : option chain_state :=
  match work_required d forks with
  | None => None
  | Some work =>
      Some (mk_chain_state d forks checks (activation d forks magnetic_anomaly_time great_wall_time)
              (median_time_past d true) work magnetic_anomaly_time great_wall_time)
  end.

(** Top to pool. *)
Definition pool_state (top : chain_state) : option chain_state :=
  match to_pool top with
  | None => None
  | Some d => make_state d (cs_forks top) (cs_checkpoints top)
                (magnetic_anomaly_activation_time top) (great_wall_activation_time top)
  end.

(** Pool to block. *)
Definition block_state `{Crypto} (pool : chain_state) (h : header) : option chain_state :=
  make_state (to_block pool h) (cs_forks pool) (cs_checkpoints pool)
    (magnetic_anomaly_activation_time pool) (great_wall_activation_time pool).

(** Parent to header. *)
Definition header_state `{Crypto} (parent : chain_state) (h : header) : option chain_state :=
  match to_header parent h with
  | None => None
  | Some d => make_state d (cs_forks parent) (cs_checkpoints parent)
                (magnetic_anomaly_activation_time parent) (great_wall_activation_time parent)
  end.

(** From raw data: [allow_collisions] is always configured. *)
Definition raw_state (values : chain_data) (checks : list checkpoint) (forks : Z)
    (magnetic_anomaly_time great_wall_time : Z) : option chain_state :=
  make_state values (Z.lor forks rule_fork.allow_collisions) checks magnetic_anomaly_time
    great_wall_time.

Definition state_is_valid (s : chain_state) : bool := negb (cd_height (cs_data s) =? 0).
Definition state_height (s : chain_state) : Z := cd_height (cs_data s).
Definition enabled_forks (s : chain_state) : Z := act_forks (cs_active s).
Definition minimum_version (s : chain_state) : Z := act_minimum_version (cs_active s).

Definition state_is_enabled (s : chain_state) (fork : Z) : bool :=
  rule_fork.is_enabled (act_forks (cs_active s)) fork.

Definition is_checkpoint_conflict (s : chain_state) (hash : list Z) : bool :=
  negb (checkpoint_validate hash (cd_height (cs_data s)) (cs_checkpoints s)).

Definition is_under_checkpoint (s : chain_state) : bool :=
  checkpoint_covered (cd_height (cs_data s)) (cs_checkpoints s).

Definition is_monolith_enabled (s : chain_state) : bool :=
  is_monolith_enabled_at (state_height s) (enabled_forks s).
Definition is_magnetic_anomaly_enabled (s : chain_state) : bool :=
  is_mtp_activated (cs_median_time_past s) (magnetic_anomaly_activation_time s).
Definition is_great_wall_enabled (s : chain_state) : bool :=
  is_mtp_activated (cs_median_time_past s) (great_wall_activation_time s).

Definition get_next_work_required (s : chain_state) (time_now : Z) : option Z :=
  let d := cs_data s in
  work_required (mk_chain_data (cd_height d) (cd_hash d) (allow_collisions_hash d)
                   (bip9_bit0_hash d) (bip9_bit1_hash d) (bits_self d) (bits_ordered d)
                   (version_self d) (version_ordered d) time_now (timestamp_retarget d)
                   (timestamp_ordered d)) (enabled_forks s).

(** [header::accept] *)
Definition header_accept `{Crypto} (s : chain_state) (h : header) : error.code :=
  if negb (hd_bits h =? cs_work_required s) then error.incorrect_proof_of_work
  else if is_checkpoint_conflict s (fst (header_hash h)) then error.checkpoints_failed
  else if is_under_checkpoint s then error.success
  else if hd_version h <? minimum_version s then error.old_version_block
  else if hd_timestamp h <=? cs_median_time_past s then error.timestamp_too_early
  else error.success.
End Work.

(** ** Activation is bounded by configuration *)

Definition fork_subset (a b : Z) : Prop := Z.land a b = a.

Lemma set_fork_subset condition rule forks r :
  fork_subset r forks -> fork_subset (set_fork condition rule forks r) forks.
Proof.
  unfold fork_subset, set_fork. intros Hr. destruct condition; [|done].
  rewrite Z.land_lor_distr_l, Hr, <- Z.land_assoc, Z.land_diag. done.
Qed.

Lemma no_rules_subset forks : fork_subset rule_fork.no_rules forks.
Proof. apply Z.land_0_l. Qed.

#[export] Hint Resolve set_fork_subset no_rules_subset : bitprim.

Lemma activation_subset `{Currency} values forks ma gw :
  fork_subset (act_forks (activation values forks ma gw)) forks.
Proof.
  unfold activation. cbn [act_forks]. destruct is_bch; repeat apply set_fork_subset; auto with bitprim.
Qed.

Lemma enabled_testbit a k : 0 <= k -> rule_fork.is_enabled a (Z.shiftl 1 k) = Z.testbit a k.
Proof.
  intros Hk. unfold rule_fork.is_enabled. rewrite Z.land_comm.
  assert (Hb : Z.testbit (Z.land a (Z.shiftl 1 k)) k = Z.testbit a k).
  { rewrite Z.land_spec, Z.shiftl_spec by lia. rewrite Z.sub_diag. by rewrite andb_true_r. }
  destruct (Z.eqb_spec (Z.land a (Z.shiftl 1 k)) 0) as [E|E].
  - by rewrite <- Hb, E, Z.testbit_0_l.
  - destruct (Z.testbit a k) eqn:Et; [done|]. destruct E. apply Z.bits_inj'. intros n Hn.
    rewrite Z.land_spec, Z.shiftl_spec, Z.testbit_0_l by lia. destruct (decide (n = k)) as [->|].
    + by rewrite Et.
    + destruct (Z.lt_ge_cases n k); [rewrite (Z.testbit_neg_r 1) by lia; apply andb_false_r|].
      replace 1 with (2 ^ 0) by done. rewrite Z.pow2_bits_false by lia. apply andb_false_r.
Qed.

Lemma set_fork_testbit condition rule forks r k :
  Z.testbit (set_fork condition rule forks r) k =
  Z.testbit r k || (condition && Z.testbit rule k && Z.testbit forks k).
Proof.
  unfold set_fork. destruct condition; simpl; [|by rewrite orb_false_r].
  by rewrite Z.lor_spec, Z.land_spec.
Qed.

(** Evaluates the bits of the rule constants. *)
Ltac eval_bits :=
  repeat match goal with
  | |- context [Z.testbit ?rule ?k] =>
      let v := eval vm_compute in (Z.testbit rule k) in
      first [constr_eq v true | constr_eq v false]; change (Z.testbit rule k) with v
  end.

Ltac activation_bits :=
  unfold activation; cbn [act_forks]; rewrite !enabled_testbit by lia;
  destruct is_bch; rewrite !set_fork_testbit; eval_bits;
  rewrite ?andb_false_r, ?andb_true_r, ?orb_false_r, ?orb_false_l, ?andb_false_l; try done;
  apply andb_comm.

(** A rule is active only if it is configured, and then exactly when its
    own condition holds: bip16 from its activation time on, but for one block;
    bip30 but for two blocks; bip65 and bip66 above their frozen heights or by
    the votes of the preceding blocks; the bip9 groups above their
    checkpoints; the segregated witness rules never for Bitcoin Cash. *)
Lemma activation_rules `{Currency} values forks ma gw :
  let testnet := rule_fork.is_enabled forks rule_fork.easy_blocks in
  let mainnet := rule_fork.is_enabled forks rule_fork.retarget && negb testnet in
  let frozen := rule_fork.is_enabled forks rule_fork.bip90_rule in
  let check := mk_checkpoint (cd_hash values) (cd_height values) in
  let votes v := count_if (fun x => version_ge x v) (version_ordered values) in
  let voted v := is_active (votes v) mainnet && (version_self values >=? v) in
  let active := rule_fork.is_enabled (act_forks (activation values forks ma gw)) in
  let configured := rule_fork.is_enabled forks in
  fork_subset (act_forks (activation values forks ma gw)) forks /\
  active rule_fork.bip16_rule = configured rule_fork.bip16_rule &&
    ((timestamp_self values >=? bip16_activation_time) && negb (is_bip16_exception check mainnet)) /\
  active rule_fork.bip30_rule = configured rule_fork.bip30_rule &&
    negb (is_bip30_exception check mainnet) /\
  active rule_fork.bip66_rule = configured rule_fork.bip66_rule &&
    (bip66 (cd_height values) frozen mainnet testnet || voted bip66_version) /\
  active rule_fork.bip65_rule = configured rule_fork.bip65_rule &&
    (bip65 (cd_height values) frozen mainnet testnet || voted bip65_version) /\
  active rule_fork.bip68_rule = configured rule_fork.bip68_rule &&
    bip9_bit0_active_by_hash (bip9_bit0_hash values) mainnet testnet /\
  active rule_fork.bip141_rule = configured rule_fork.bip141_rule &&
    (negb is_bch && bip9_bit1_active_by_hash (bip9_bit1_hash values) mainnet testnet).
Proof.
  cbv zeta. split; [apply activation_subset|].
  split_and!; unfold rule_fork.bip16_rule, rule_fork.bip30_rule, rule_fork.bip66_rule,
    rule_fork.bip65_rule, rule_fork.bip68_rule, rule_fork.bip141_rule; activation_bits.
Qed.

(** ** The median *)

Lemma ltb_sort_asym x y : (x <? y) = true -> (y <? x) = false.
Proof. intros. bool_to_prop. apply Z.ltb_ge. lia. Qed.

Lemma ltb_sort_trans x y z : sort_le Z.ltb x y -> sort_le Z.ltb y z -> sort_le Z.ltb x z.
Proof. unfold sort_le. intros. bool_to_prop. apply Z.ltb_ge. lia. Qed.

Lemma sorted_times l : StronglySorted (sort_le Z.ltb) (std_sort Z.ltb l).
Proof. apply std_sort_sorted; [exact ltb_sort_asym|exact ltb_sort_trans]. Qed.

Lemma sorted_drop_ge l k x :
  StronglySorted (sort_le Z.ltb) l -> (k < length l)%nat -> In x (drop k l) -> nth k l 0 <= x.
Proof.
  revert k. induction l as [|y l IH]; intros k Hs Hk Hx; [simpl in Hk; lia|].
  inversion Hs as [|? ? Hl Hy]; subst. destruct k as [|k]; simpl in *.
  - destruct Hx as [->|Hx]; [lia|]. rewrite Forall_forall in Hy.
    specialize (Hy x (proj2 (list_elem_of_In _ _) Hx)). unfold sort_le in Hy. bool_to_prop. lia.
  - apply IH; [done|lia|done].
Qed.

Lemma sorted_take_le l k x :
  StronglySorted (sort_le Z.ltb) l -> (k < length l)%nat -> In x (take (S k) l) -> x <= nth k l 0.
Proof.
  revert k. induction l as [|y l IH]; intros k Hs Hk Hx; [simpl in Hk; lia|].
  inversion Hs as [|? ? Hl Hy]; subst. destruct k as [|k].
  { simpl in *. destruct Hx as [->|[]]. lia. }
  rewrite firstn_cons in Hx. cbn [nth length] in *.
  destruct Hx as [->|Hx]; [|apply IH; [done|lia|done]].
  rewrite Forall_forall in Hy. assert (Hin : nth k l 0 ∈ l) by (apply list_elem_of_In, nth_In; lia).
  specialize (Hy _ Hin). unfold sort_le in Hy. bool_to_prop. lia.
Qed.

(** Elements of [l] below and above [m]. *)
Definition count_below (m : Z) (l : list Z) : nat := length (filter (fun x => x < m) l).
Definition count_above (m : Z) (l : list Z) : nat := length (filter (fun x => m < x) l).

Lemma filter_none {A} (P : A -> Prop) `{forall x, Decision (P x)} (l : list A) :
  (forall x, In x l -> ~ P x) -> filter P l = [].
Proof.
  intros Hn. induction l as [|x l IH]; [done|]. rewrite filter_cons_False by (apply Hn; by left).
  apply IH. intros y Hy. apply Hn. by right.
Qed.

Lemma sorted_median l k :
  StronglySorted (sort_le Z.ltb) l -> (k < length l)%nat ->
  let m := nth k l 0 in
  (count_below m l <= k)%nat /\ (count_above m l <= length l - k - 1)%nat.
Proof.
  intros Hs Hk m. unfold count_below, count_above. split.
  - rewrite <- (take_drop k l) at 1. rewrite filter_app, length_app.
    rewrite (filter_none _ (drop k l)).
    + pose proof (length_filter (fun x => x < m) (take k l)). rewrite length_take in *. simpl. lia.
    + intros x Hx. pose proof (sorted_drop_ge l k x Hs Hk Hx). unfold m. lia.
  - rewrite <- (take_drop (S k) l) at 1. rewrite filter_app, length_app.
    rewrite (filter_none _ (take (S k) l)).
    + pose proof (length_filter (fun x => m < x) (drop (S k) l)). rewrite length_drop in *. simpl in *. lia.
    + intros x Hx. pose proof (sorted_take_le l k x Hs Hk Hx). unfold m. lia.
Qed.

Lemma count_perm (P : Z -> Prop) `{forall x, Decision (P x)} l k :
  Permutation l k -> length (filter P l) = length (filter P k).
Proof. intros Hp. by rewrite Hp. Qed.

(** The median time past is one of the timestamps of the subset it is
    taken from, with at most half of them below it and at most half above it. *)
Lemma median_time_past_spec `{Currency} values tip :
  let subset := timestamps_subset (timestamp_ordered values) tip in
  let m := median_time_past values tip in
  subset <> [] ->
  In m subset /\ (count_below m subset <= length subset / 2)%nat /\
  (count_above m subset <= length subset / 2)%nat.
Proof.
  intros subset m Hne. set (s := std_sort Z.ltb subset).
  pose proof (std_sort_perm Z.ltb subset) as Hp. fold s in Hp.
  assert (Hlen : length s = length subset) by (by rewrite Hp).
  assert (Hpos : (0 < length s)%nat) by (rewrite Hlen; destruct subset; simpl; [done|lia]).
  assert (Hhalf : (length s / 2 < length s)%nat) by (apply Nat.div_lt; lia).
  assert (Hm : m = nth (length s / 2) s 0).
  { unfold m, median_time_past. fold subset s. by destruct s. }
  pose proof (sorted_median s (length s / 2) (sorted_times subset) Hhalf) as [Hb Ha].
  cbv zeta in Hb, Ha. rewrite <- Hm in Hb, Ha. split.
  - rewrite Hm. eapply Permutation_in; [exact Hp|]. by apply nth_In.
  - rewrite <- Hlen. unfold count_below, count_above in *.
    rewrite (count_perm _ s subset Hp) in Hb. rewrite (count_perm _ s subset Hp) in Ha. split; [done|].
    pose proof (Nat.div_mod_eq (length s) 2).
    pose proof (Nat.mod_upper_bound (length s) 2 ltac:(lia)). lia.
Qed.

(** The selection network of the difficulty adjustment returns one of its
    three arguments and the median of their timestamps. *)
Lemma select_1_3_median (a b c : Z * Z) :
  let r := select_1_3 pair_cmp a b c in
  (r = a \/ r = b \/ r = c) /\
  snd r = Z.max (Z.min (snd a) (snd b)) (Z.min (Z.max (snd a) (snd b)) (snd c)).
Proof.
  unfold select_1_3, select_1_3_ac, select_0_2, pair_cmp. simpl.
  repeat case_if; (split; [tauto|lia]).
Qed.

(** The median time past is one of the timestamps of the subset it is
    taken from, with at most half of them below it and at most half above it;
    the selection network of the difficulty adjustment returns one of its
    three arguments and the median of their timestamps. *)
Lemma medians `{Currency} values tip (a b c : Z * Z) :
  let subset := timestamps_subset (timestamp_ordered values) tip in
  subset <> [] ->
  (let m := median_time_past values tip in
   In m subset /\ (count_below m subset <= length subset / 2)%nat /\
   (count_above m subset <= length subset / 2)%nat) /\
  (let r := select_1_3 pair_cmp a b c in
   (r = a \/ r = b \/ r = c) /\
   snd r = Z.max (Z.min (snd a) (snd b)) (Z.min (Z.max (snd a) (snd b)) (snd c))).
Proof. intros subset Hne. split; [by apply median_time_past_spec|apply select_1_3_median]. Qed.

(** ** Windows *)

Lemma enqueue_length l v count :
  zlen l <= count -> zlen (enqueue l v count) = Z.min (zlen l + 1) count.
Proof.
  intros Hl. unfold enqueue. rewrite zlen_app. change (zlen [v]) with 1. pose proof (zlen_nonneg l).
  destruct (Z.gtb_spec (zlen l + 1) count).
  - unfold zlen in *. rewrite length_drop, length_app. simpl length. lia.
  - rewrite zlen_app. change (zlen [v]) with 1. lia.
Qed.

(** The newest value is at the end. *)
Lemma enqueue_last l v count d : 1 <= count -> zlen l <= count -> List.last (enqueue l v count) d = v.
Proof.
  intros Hc Hl. unfold enqueue. destruct (zlen (l ++ [v]) >? count) eqn:E; [|apply last_last].
  destruct l as [|x l]; [|simpl; rewrite drop_0; apply last_last].
  bool_to_prop. zlen_lia.
Qed.

(** The pool state above a block has the next height, exactly the number
    of timestamps that height calls for, and the timestamp of the block as its
    latest. *)
Lemma to_pool_timestamps `{Currency} top d :
  in_width 64 (state_height top + 1) ->
  zlen (timestamp_ordered (cs_data top)) = timestamp_count (state_height top) ->
  to_pool top = Some d ->
  cd_height d = state_height top + 1 /\
  zlen (timestamp_ordered d) = timestamp_count (cd_height d) /\
  timestamp_high d = timestamp_self (cs_data top).
Proof.
  unfold state_height. intros Hh Hl Hp. unfold to_pool in Hp.
  match type of Hp with match ?x with _ => _ end = _ => destruct x; [|done] end.
  simplify_eq. cbn [cd_height timestamp_ordered]. unfold timestamp_high. cbn [timestamp_ordered].
  unfold u64. rewrite wrap_small by done. pose proof (zlen_nonneg (timestamp_ordered (cs_data top))).
  assert (Hc : zlen (timestamp_ordered (cs_data top)) <= timestamp_count (cd_height (cs_data top) + 1) /\
               1 <= timestamp_count (cd_height (cs_data top) + 1)).
  { rewrite Hl in *. unfold timestamp_count in *. unfold chain_state_timestamp_count, median_time_past_interval in *.
    destruct is_bch; lia. }
  destruct Hc as [Hc H1]. split; [done|]. split; [|by apply enqueue_last].
  rewrite enqueue_length, Hl by done. unfold timestamp_count, chain_state_timestamp_count, median_time_past_interval.
  destruct is_bch; lia.
Qed.

(** ** Work *)

Lemma pow_limit_compact `{Currency} :
  from_compact retarget_proof_of_work_limit = Some pow_limit /\ 0 < pow_limit < 2 ^ 236.
Proof. unfold pow_limit, retarget_proof_of_work_limit, is_ltc. destruct get_currency; by vm_compute. Qed.

Lemma pow_limit_small `{Currency} : is_ltc = false -> pow_limit < 2 ^ 224.
Proof. unfold pow_limit, retarget_proof_of_work_limit, is_ltc. destruct get_currency; by vm_compute. Qed.

Lemma limited_target `{Currency} limit t :
  in_width 256 t ->
  from_compact (limited limit t) = Some (if limit <? t then pow_limit else truncated t).
Proof.
  intros Ht. unfold limited. rewrite Z.gtb_ltb. destruct (limit <? t).
  - apply pow_limit_compact.
  - by apply from_compact_from_big.
Qed.

(** A limited target never denotes less work than the limit. *)
Lemma limited_le `{Currency} t v :
  in_width 256 t -> from_compact (limited pow_limit t) = Some v -> 0 <= v <= pow_limit.
Proof.
  intros Ht. rewrite limited_target by done. intros Hv. simplify_eq. pose proof pow_limit_compact as [_ Hl].
  case_if; [lia|]. pose proof (truncated_nonneg t Ht). destruct (truncated_spec t Ht) as [[Hle _] _]. lia.
Qed.

Lemma range_constrain_bounds v lo hi : lo <= hi -> lo <= range_constrain v lo hi <= hi.
Proof. intros. unfold range_constrain. repeat case_if; lia. Qed.

Lemma timespan_bounds `{Currency} :
  0 < min_timespan <= max_timespan /\ max_timespan < 2 ^ 23 /\
  4 * min_timespan = target_timespan_seconds /\ max_timespan = 4 * target_timespan_seconds.
Proof.
  unfold min_timespan, max_timespan, target_timespan_seconds, retargeting_factor, is_ltc.
  destruct get_currency; by vm_compute.
Qed.

Lemma retarget_timespan_bounds `{Currency} values :
  min_timespan <= retarget_timespan values <= max_timespan.
Proof. apply range_constrain_bounds. pose proof timespan_bounds. lia. Qed.

(** The retarget scales the target by a factor within [1/4, 4]. *)
Lemma retarget_scale `{Currency} values old :
  0 <= old ->
  old / 4 <= old * retarget_timespan values / target_timespan_seconds <= 4 * old.
Proof.
  intros Ho. pose proof timespan_bounds as (Hmin & Hmax & H4 & Hm4).
  pose proof (retarget_timespan_bounds values) as Hr. set (span := retarget_timespan values) in *. split.
  - apply Z.div_le_lower_bound; [lia|]. pose proof (Z.mul_div_le old 4 ltac:(lia)).
    rewrite <- H4. apply Z.le_trans with (min_timespan * old); [nia|].
    rewrite Z.mul_comm. apply Z.mul_le_mono_nonneg_l; lia.
  - apply Z.div_le_upper_bound; [lia|].
    replace (target_timespan_seconds * (4 * old)) with (old * (4 * target_timespan_seconds)) by lia.
    apply Z.mul_le_mono_nonneg_l; lia.
Qed.

(** C11: Except for Litecoin, at a retarget the required work stands for the
    previous target scaled by the clamped time span over the intended one,
    capped at the limit of the chain and rounded down to the precision of the
    compact form. *)
Theorem work_required_retarget_target `{Currency} values old :
  is_ltc = false -> from_compact (bits_high values) = Some old -> 0 <= old <= pow_limit ->
  let new := old * retarget_timespan values / target_timespan_seconds in
  from_compact (work_required_retarget values) =
    Some (if pow_limit <? new then pow_limit else truncated new).
Proof.
  intros Hltc Hc Ho new. unfold work_required_retarget. rewrite Hltc.
  assert (Hb : big (compact_of_bits (bits_high values)) = old) by (unfold compact_of_bits; by rewrite Hc).
  rewrite Hb. pose proof timespan_bounds as (Hmin & Hmax & _). pose proof (pow_limit_small Hltc) as Hl.
  pose proof (retarget_timespan_bounds values) as Hr.
  assert (Hw : in_width 256 (old * retarget_timespan values)) 
    by (unfold in_width; split; [nia|]; apply Z.le_lt_trans with (2 ^ 224 * 2 ^ 23);
        [apply Z.mul_le_mono_nonneg; lia|by vm_compute]).
  unfold u256. rewrite wrap_small by done. fold new. apply limited_target.
  pose proof (retarget_scale values old ltac:(lia)). fold new in H0. unfold in_width.
  split; [|lia]. apply Z.div_pos; [unfold in_width in Hw; lia|]. pose proof timespan_bounds. lia.
Qed.

(** The minimum difficulty rule searches back for bits that are not the limit,
    and no further than a retarget height. *)
Lemma easy_bits_spec `{Currency} bits height :
  easy_bits height bits = retarget_proof_of_work_limit \/ In (easy_bits height bits) bits.
Proof.
  revert height. induction bits as [|b bits IH]; intros height; simpl; [by left|].
  case_if; [right; by left|]. destruct (IH (u64 (height - 1))); [by left|right; by right].
Qed.
