(* ===== verification/Transaction.v ===== *)
(** The transaction of [src/chain/transaction.cpp]: its codecs (wire with the
    bip144 marker, store), its caches, its validation helpers and the [check]
    and [accept] rules. The members of [script.cpp] that hash parts of a
    transaction are here too, since the transaction caches them. *)

From S2P Require Import Prelude Limits Endian Reader Writer Codes Number Operation Script Chain Compact Header ChainState.

(** What the code memoizes in a transaction. *)
Record tx_caches := mk_tx_caches {
  hash_ : option (list Z);
  witness_hash_ : option (list Z);
  outputs_hash_ : option (list Z);
  inpoints_hash_ : option (list Z);
  sequences_hash_ : option (list Z);
  segregated_ : option bool;
  total_input_value_ : option Z;
  total_output_value_ : option Z
}.

Definition no_caches : tx_caches := mk_tx_caches None None None None None None None None.

(** Values kept for unconfirmed transactions. *)
Record tx_unconfirmed := mk_tx_unconfirmed {
  cached_sigops_ : Z;
  cached_fees_ : Z;
  cached_is_standard_ : bool
}.

Definition no_unconfirmed : tx_unconfirmed := mk_tx_unconfirmed 0 0 false.

(** The members of [transaction::validation] the transaction reads. *)
Record tx_validation := mk_tx_validation {
  tx_state : option chain_state;
  duplicate : bool
}.

Record transaction := mk_transaction {
  tx_version : Z;
  tx_locktime : Z;
  inputs : list input;
  outputs : list output;
  caches : tx_caches;
  unconfirmed : tx_unconfirmed;
  validation : tx_validation
}.

(** ** Construction, assignment, setters *)

Definition new_transaction (version locktime : Z) (ins : list input) (outs : list output) : transaction :=
  mk_transaction version locktime ins outs no_caches no_unconfirmed (mk_tx_validation None false).

Definition default_transaction : transaction := new_transaction 0 0 [] [].

(** The constructor with the values kept for an unconfirmed transaction, by
    reference and by move. *)
Definition construct_transaction (version locktime : Z) (ins : list input) (outs : list output)
    (sigops fees : Z) (standard : bool) : transaction :=
  mk_transaction version locktime ins outs no_caches (mk_tx_unconfirmed sigops fees standard)
    (mk_tx_validation None false).

(** The copy constructor takes the validation data and no cache. *)
Definition copy_transaction (t : transaction) : transaction :=
  mk_transaction (tx_version t) (tx_locktime t) (inputs t) (outputs t) no_caches no_unconfirmed
    (validation t).

(** [transaction(const transaction&, const hash_digest&)] *)
Definition copy_with_hash (t : transaction) (hash : list Z) : transaction :=
  mk_transaction (tx_version t) (tx_locktime t) (inputs t) (outputs t)
    (mk_tx_caches (Some hash) None None None None None None None) (unconfirmed t) (validation t).

(** [transaction::operator=]: the caches of the target are kept. *)
Definition assign_transaction (self other : transaction) : transaction :=
  mk_transaction (tx_version other) (tx_locktime other) (inputs other) (outputs other)
    (caches self) (unconfirmed self) (validation other).

Fixpoint list_eqb {A} (eqb : A -> A -> bool) (a b : list A) : bool :=
  match a, b with
  | [], [] => true
  | x :: a, y :: b => eqb x y && list_eqb eqb a b
  | _, _ => false
  end.

Definition transaction_eqb (a b : transaction) : bool :=
  (tx_version a =? tx_version b) && (tx_locktime a =? tx_locktime b) &&
  list_eqb input_eqb (inputs a) (inputs b) && list_eqb output_eqb (outputs a) (outputs b).

(** [transaction::invalidate_cache] *)
Definition invalidate_cache (c : tx_caches) : tx_caches :=
  mk_tx_caches None None (outputs_hash_ c) (inpoints_hash_ c) (sequences_hash_ c) (segregated_ c)
    (total_input_value_ c) (total_output_value_ c).

Definition set_caches (c : tx_caches) (t : transaction) : transaction :=
  mk_transaction (tx_version t) (tx_locktime t) (inputs t) (outputs t) c (unconfirmed t) (validation t).

(** [transaction::reset]: the values of an unconfirmed transaction are kept. *)
Definition reset_transaction (t : transaction) : transaction :=
  mk_transaction 0 0 [] [] no_caches (unconfirmed t) (validation t).

Definition set_version (value : Z) (t : transaction) : transaction :=
  mk_transaction value (tx_locktime t) (inputs t) (outputs t) (invalidate_cache (caches t))
    (unconfirmed t) (validation t).

Definition set_locktime (value : Z) (t : transaction) : transaction :=
  mk_transaction (tx_version t) value (inputs t) (outputs t) (invalidate_cache (caches t))
    (unconfirmed t) (validation t).

(** [set_inputs(const input::list&)] *)
Definition set_inputs (value : list input) (t : transaction) : transaction :=
  let c := caches t in
  mk_transaction (tx_version t) (tx_locktime t) value (outputs t)
    (mk_tx_caches None None (outputs_hash_ c) None None None None (total_output_value_ c))
    (unconfirmed t) (validation t).

(** [set_inputs(input::list&&)]: the inpoints and sequences hashes are kept. *)
Definition set_inputs_move (value : list input) (t : transaction) : transaction :=
  let c := caches t in
  mk_transaction (tx_version t) (tx_locktime t) value (outputs t)
    (mk_tx_caches None None (outputs_hash_ c) (inpoints_hash_ c) (sequences_hash_ c) None None
       (total_output_value_ c))
    (unconfirmed t) (validation t).

(** [set_outputs(const output::list&)] *)
Definition set_outputs (value : list output) (t : transaction) : transaction :=
  let c := caches t in
  mk_transaction (tx_version t) (tx_locktime t) (inputs t) value
    (mk_tx_caches None None None (inpoints_hash_ c) (sequences_hash_ c) (segregated_ c)
       (total_input_value_ c) None)
    (unconfirmed t) (validation t).

(** [set_outputs(output::list&&)]: the outputs hash is kept. *)
Definition set_outputs_move (value : list output) (t : transaction) : transaction :=
  let c := caches t in
  mk_transaction (tx_version t) (tx_locktime t) (inputs t) value
    (mk_tx_caches None None (outputs_hash_ c) (inpoints_hash_ c) (sequences_hash_ c) (segregated_ c)
       (total_input_value_ c) None)
    (unconfirmed t) (validation t).

(** Writing through the non-const [inputs()] and [outputs()]: nothing cached is
    dropped. *)
Definition write_to_inputs (f : list input -> list input) (t : transaction) : transaction :=
  mk_transaction (tx_version t) (tx_locktime t) (f (inputs t)) (outputs t) (caches t) (unconfirmed t)
    (validation t).
Definition write_to_outputs (f : list output -> list output) (t : transaction) : transaction :=
  mk_transaction (tx_version t) (tx_locktime t) (inputs t) (f (outputs t)) (caches t) (unconfirmed t)
    (validation t).

Definition strip_witness (t : transaction) : transaction :=
  let c := caches t in
  mk_transaction (tx_version t) (tx_locktime t) (map strip_input_witness (inputs t)) (outputs t)
    (mk_tx_caches (hash_ c) (witness_hash_ c) (outputs_hash_ c) (inpoints_hash_ c) (sequences_hash_ c)
       (Some false) (total_input_value_ c) (total_output_value_ c))
    (unconfirmed t) (validation t).

Definition transaction_is_valid (t : transaction) : bool :=
  negb (tx_version t =? 0) || negb (tx_locktime t =? 0) || negb (zlen (inputs t) =? 0) ||
  negb (zlen (outputs t) =? 0).

(** ** Predicates on inputs and outputs *)

Definition is_coinbase (t : transaction) : bool :=
  match inputs t with
  | [i] => point_is_null (op_point (previous_output i))
  | _ => false
  end.

Definition is_oversized_coinbase `{Currency} (t : transaction) : bool :=
  if negb (is_coinbase t) then false
  else match inputs t with
       | i :: _ =>
           let script_size := script_serialized_size false (in_script i) in
           (script_size <? min_coinbase_size) || (script_size >? max_coinbase_size)
       | [] => false
       end.

Definition is_null_non_coinbase (t : transaction) : bool :=
  if is_coinbase t then false
  else existsb (fun i => point_is_null (op_point (previous_output i))) (inputs t).

Definition all_inputs_final (t : transaction) : bool := forallb is_final_input (inputs t).

(** [None]: [safe_unsigned<uint32_t>(block_height)] throws. *)
Definition is_final (block_height block_time : Z) (t : transaction) : option bool :=
  if tx_locktime t =? 0 then Some true
  else
    match (if tx_locktime t <? locktime_threshold then safe_unsigned 32 block_height
           else Some block_time) with
    | None => None
    | Some max_locktime => Some ((tx_locktime t <? max_locktime) || all_inputs_final t)
    end.

Definition is_locked (block_height median_time_past : Z) (t : transaction) : bool :=
  if (tx_version t <? relative_locktime_min_version) || is_coinbase t then false
  else existsb (is_locked_input block_height median_time_past) (inputs t).

Definition is_locktime_conflict (t : transaction) : bool :=
  negb (tx_locktime t =? 0) && all_inputs_final t.

Definition is_missing_previous_outputs (t : transaction) : bool :=
  existsb (fun i => let prevout := previous_output i in
     negb (output_is_valid (prevout_cache prevout)) && negb (point_is_null (op_point prevout)))
    (inputs t).

Definition previous_outputs (t : transaction) : list point :=
  map (fun i => op_point (previous_output i)) (inputs t).

Definition missing_previous_outputs (t : transaction) : list point :=
  map (fun i => op_point (previous_output i))
    (List.filter (fun i => negb (output_is_valid (prevout_cache (previous_output i))) &&
                           negb (point_is_null (op_point (previous_output i)))) (inputs t)).

(** The lambda of the loop returns the hash and nothing collects it. *)
Definition missing_previous_transactions (t : transaction) : list (list Z) :=
  let points := missing_previous_outputs t in
  let hashes : list (list Z) := [] in
  fold_left (fun hashes (_ : point) => hashes) points hashes.

(** [std::sort], then [std::unique] leaves the list as it is. *)
Definition is_distinct_points (points : list point) : bool :=
  is_unique point_eqb (std_sort point_ltb points).

Definition is_internal_double_spend (t : transaction) : bool :=
  negb (is_distinct_points (previous_outputs t)).

Definition is_double_spend (include_unconfirmed : bool) (t : transaction) : bool :=
  existsb (fun i => let prevout := previous_output i in
     spent prevout && (include_unconfirmed || confirmed prevout)) (inputs t).

Definition is_dusty `{Currency} (minimum_output_value : Z) (t : transaction) : bool :=
  existsb (is_dust minimum_output_value) (outputs t).

Definition is_mature_tx (height : Z) (t : transaction) : bool :=
  forallb (fun i => is_mature height (previous_output i)) (inputs t).

(** ** Cached totals: a computed value is stored and returned from then on *)

Definition sum_input_value (total : Z) (i : input) : Z :=
  let prevout := prevout_cache (previous_output i) in
  let missing := negb (output_is_valid prevout) in
  ceiling_add 64 total (if missing then 0 else out_value prevout).

Definition total_input_value (t : transaction) : Z * transaction :=
  let c := caches t in
  match total_input_value_ c with
  | Some value => (value, t)
  | None =>
      let value := fold_left sum_input_value (inputs t) 0 in
      (value, set_caches (mk_tx_caches (hash_ c) (witness_hash_ c) (outputs_hash_ c)
                            (inpoints_hash_ c) (sequences_hash_ c) (segregated_ c) (Some value)
                            (total_output_value_ c)) t)
  end.

Definition sum_output_value (total : Z) (o : output) : Z := ceiling_add 64 total (out_value o).

Definition total_output_value (t : transaction) : Z * transaction :=
  let c := caches t in
  match total_output_value_ c with
  | Some value => (value, t)
  | None =>
      let value := fold_left sum_output_value (outputs t) 0 in
      (value, set_caches (mk_tx_caches (hash_ c) (witness_hash_ c) (outputs_hash_ c)
                            (inpoints_hash_ c) (sequences_hash_ c) (segregated_ c)
                            (total_input_value_ c) (Some value)) t)
  end.

Definition fees (t : transaction) : Z :=
  floor_subtract 64 (fst (total_input_value t)) (fst (total_output_value t)).

Definition is_overspent (t : transaction) : bool :=
  negb (is_coinbase t) && (fst (total_output_value t) >? fst (total_input_value t)).

Section Transaction.
Context `{Currency}.

Definition is_segregated (t : transaction) : bool :=
  if is_bch then false
  else match segregated_ (caches t) with
       | Some value => value
       | None => existsb is_segregated_input (inputs t)
       end.

Definition tx_signature_operations (bip16 bip141 : bool) (t : transaction) : Z :=
  let bip141 := if is_bch then false else bip141 in
  u64 (fold_left (fun total i => ceiling_add 64 total (input_signature_operations bip16 bip141 i))
         (inputs t) 0 +
       fold_left (fun total o => ceiling_add 64 total (output_signature_operations bip141 o))
         (outputs t) 0).

(** [transaction::signature_operations()] *)
Definition tx_signature_operations_of_state (t : transaction) : Z :=
  match tx_state (validation t) with
  | Some state =>
      tx_signature_operations (state_is_enabled state rule_fork.bip16_rule)
        (if is_bch then false else state_is_enabled state rule_fork.bip141_rule) t
  | None => max_uint64
  end.

Definition is_standard (t : transaction) : bool :=
  forallb (fun i => negb (bool_decide (pattern (in_script i) = non_standard))) (inputs t) &&
  forallb (fun o => negb (bool_decide (pattern (out_script o) = non_standard))) (outputs t).

(** ** Size *)

Definition tx_serialized_size (wire wit is_unconfirmed : bool) (t : transaction) : Z :=
  let wit := (if is_bch then false else wit) && is_segregated t in
  (if wire && wit then 1 else 0) + (if wire && wit then 1 else 0) +
  (if wire then 4 else variable_uint_size (tx_version t)) +
  (if wire then 4 else variable_uint_size (tx_locktime t)) +
  variable_uint_size (zlen (inputs t)) + variable_uint_size (zlen (outputs t)) +
  fold_left (fun size i => size + input_serialized_size wire wit i) (inputs t) 0 +
  fold_left (fun size o => size + output_serialized_size wire o) (outputs t) 0 +
  (if negb wire && is_unconfirmed then 4 + 8 + 1 else 0).

Definition weight (t : transaction) : Z :=
  base_size_contribution * tx_serialized_size true false false t +
  total_size_contribution * tx_serialized_size true true false t.

(** ** Serialization *)

Fixpoint all_some {A} (l : list (option (list A))) : option (list A) :=
  match l with
  | [] => Some []
  | None :: _ => None
  | Some x :: l => match all_some l with Some y => Some (x ++ y) | None => None end
  end.

(** [write(sink, inputs_, ...)] *)
Definition write_inputs (wire wit : bool) (ins : list input) : list Z :=
  let wit := if is_bch then false else wit in
  write_variable_little_endian (zlen ins) ++ concat (map (input_to_data wire wit) ins).

(** [write(sink, outputs_, ...)]; [None] when an output throws. *)
Definition write_outputs (wire : bool) (outs : list output) : option (list Z) :=
  match all_some (map (output_to_data wire) outs) with
  | Some body => Some (write_variable_little_endian (zlen outs) ++ body)
  | None => None
  end.

Definition write_witnesses (ins : list input) : list Z :=
  concat (map (fun i => witness_to_data true (in_witness i)) ins).

(** [transaction::to_data(writer&, ...)] *)
Definition tx_to_data (wire wit is_unconfirmed : bool) (t : transaction) : option (list Z) :=
  let wit := if is_bch then false else wit in
  match write_outputs wire (outputs t) with
  | None => None
  | Some outs =>
      if wire then
        let wit := wit && is_segregated t in
        Some (write_4_bytes_little_endian (tx_version t) ++
              (if wit then
                 write_byte witness_marker ++ write_byte witness_flag ++
                 write_inputs wire wit (inputs t) ++ outs ++ write_witnesses (inputs t)
               else write_inputs wire wit (inputs t) ++ outs) ++
              write_4_bytes_little_endian (tx_locktime t))
      else
        Some (outs ++ write_inputs wire wit (inputs t) ++
              write_variable_little_endian (tx_locktime t) ++
              write_variable_little_endian (tx_version t) ++
              (if is_unconfirmed then
                 write_4_bytes_little_endian (u32 (tx_signature_operations_of_state t)) ++
                 write_8_bytes_little_endian (fees t) ++
                 write_byte (if is_standard t then 1 else 0)
               else []))
  end.

(** [transaction::to_data(bool, bool, bool)] *)
Definition tx_to_data_chunk (wire wit is_unconfirmed : bool) (t : transaction) : option (list Z) :=
  let wit := (if is_bch then false else wit) && is_segregated t in
  tx_to_data wire wit is_unconfirmed t.

Definition default_input : input :=
  mk_input (new_output_point reset_point) reset_script reset_witness 0.

Section Decode.
Context {R : Type} `{Reader R}.

(** [for_each] over the resized puts; none is read after a failure. *)
Fixpoint read_puts {A} (from : rd R (A * bool)) (put : A) (count : nat) (result : bool)
    (acc : list A) : rd R (list A) :=
  match count with
  | O => rret acc
  | S count =>
      if result then p <~ from ;; read_puts from put count (snd p) (acc ++ [fst p])
      else read_puts from put count false (acc ++ [put])
  end.

(** [read(source, puts, wire, witness)] into an empty collection. *)
Definition read_list {A} (from : rd R (A * bool)) (put : A) : rd R (list A) :=
  count <~ read_size_little_endian ;;
  if count >? get_max_block_size then rd_invalidate ;;; rret []
  else read_puts from put (Z.to_nat count) true [].

Definition read_inputs (wire wit : bool) : rd R (list input) :=
  read_list (input_from_data wire (if is_bch then false else wit) default_input) default_input.

Definition read_outputs (wire : bool) : rd R (list output) :=
  read_list (output_from_data wire default_output) default_output.

Fixpoint read_witnesses (ins : list input) : rd R (list input) :=
  match ins with
  | [] => rret []
  | i :: ins =>
      w <~ witness_from_data ;;
      rest <~ read_witnesses ins ;;
      rret (mk_input (previous_output i) (in_script i) (fst w) (sequence i) :: rest)
  end.

(** The size and the next byte detect a witness serialization (bip144). *)
Definition read_marker (ins : list input) : rd R bool :=
  if is_bch then rret false
  else if zlen ins =? witness_marker then
    flag <~ rd_peek_byte ;; rret (flag =? witness_flag)
  else rret false.

Definition tx_from_data (wire wit is_unconfirmed : bool) (self : transaction)
    : rd R (transaction * bool) :=
  let wit := if is_bch then false else wit in
  let finish version locktime ins outs extra :=
    let t := mk_transaction version locktime ins outs no_caches extra (validation self) in
    rd_check (if wit then t else strip_witness t) (reset_transaction t) in
  if wire then
    version <~ read_4_bytes_little_endian ;;
    ins <~ read_inputs wire wit ;;
    marker <~ read_marker ins ;;
    p <~ (if marker : bool then
            rd_skip 1 ;;;
            ins <~ read_inputs wire wit ;;
            outs <~ read_outputs wire ;;
            ins <~ read_witnesses ins ;;
            rret (ins, outs)
          else outs <~ read_outputs wire ;; rret (ins, outs)) ;;
    locktime <~ read_4_bytes_little_endian ;;
    finish version locktime (fst p) (snd p) (unconfirmed self)
  else
    outs <~ read_outputs wire ;;
    ins <~ read_inputs wire wit ;;
    locktime <~ read_variable_little_endian ;;
    version <~ read_variable_little_endian ;;
    (if (locktime >? max_uint32) || (version >? max_uint32) then rd_invalidate else rret tt) ;;;
    extra <~ (if is_unconfirmed then
                sigops <~ read_4_bytes_little_endian ;;
                fees <~ read_8_bytes_little_endian ;;
                standard <~ rd_read_byte ;;
                rret (mk_tx_unconfirmed sigops fees (negb (standard =? 0)))
              else rret (unconfirmed self)) ;;
    finish (u32 version) (u32 locktime) ins outs extra.
End Decode.

(** ** Hashes *)

Section Hash.
Context `{Crypto}.

(** [script::to_outputs]; on the wire an output always serializes. *)
Definition to_outputs (t : transaction) : list Z :=
  bitcoin_hash (default [] (all_some (map (output_to_data true) (outputs t)))).

Definition to_inpoints (t : transaction) : list Z :=
  bitcoin_hash (concat (map (fun i => point_to_data true (op_point (previous_output i))) (inputs t))).

Definition to_sequences (t : transaction) : list Z :=
  bitcoin_hash (concat (map (fun i => write_4_bytes_little_endian (sequence i)) (inputs t))).

(** [transaction::hash] *)
Definition tx_hash (wit : bool) (t : transaction) : list Z * transaction :=
  let wit := (if is_bch then false else wit) && is_segregated t in
  let c := caches t in
  if wit then
    match witness_hash_ c with
    | Some hash => (hash, t)
    | None =>
        let hash := if is_coinbase t then null_hash
                    else bitcoin_hash (default [] (tx_to_data_chunk true true false t)) in
        (hash, set_caches (mk_tx_caches (hash_ c) (Some hash) (outputs_hash_ c) (inpoints_hash_ c)
                             (sequences_hash_ c) (segregated_ c) (total_input_value_ c)
                             (total_output_value_ c)) t)
    end
  else
    match hash_ c with
    | Some hash => (hash, t)
    | None =>
        let hash := bitcoin_hash (default [] (tx_to_data_chunk true false false t)) in
        (hash, set_caches (mk_tx_caches (Some hash) (witness_hash_ c) (outputs_hash_ c)
                             (inpoints_hash_ c) (sequences_hash_ c) (segregated_ c)
                             (total_input_value_ c) (total_output_value_ c)) t)
    end.

Definition recompute_hash (t : transaction) : transaction :=
  let c := caches t in
  snd (tx_hash false (set_caches (mk_tx_caches None (witness_hash_ c) (outputs_hash_ c)
         (inpoints_hash_ c) (sequences_hash_ c) (segregated_ c) (total_input_value_ c)
         (total_output_value_ c)) t)).

Definition outputs_hash (t : transaction) : list Z * transaction :=
  let c := caches t in
  match outputs_hash_ c with
  | Some hash => (hash, t)
  | None =>
      let hash := to_outputs t in
      (hash, set_caches (mk_tx_caches (hash_ c) (witness_hash_ c) (Some hash) (inpoints_hash_ c)
                           (sequences_hash_ c) (segregated_ c) (total_input_value_ c)
                           (total_output_value_ c)) t)
  end.

Definition inpoints_hash (t : transaction) : list Z * transaction :=
  let c := caches t in
  match inpoints_hash_ c with
  | Some hash => (hash, t)
  | None =>
      let hash := to_inpoints t in
      (hash, set_caches (mk_tx_caches (hash_ c) (witness_hash_ c) (outputs_hash_ c) (Some hash)
                           (sequences_hash_ c) (segregated_ c) (total_input_value_ c)
                           (total_output_value_ c)) t)
  end.

Definition sequences_hash (t : transaction) : list Z * transaction :=
  let c := caches t in
  match sequences_hash_ c with
  | Some hash => (hash, t)
  | None =>
      let hash := to_sequences t in
      (hash, set_caches (mk_tx_caches (hash_ c) (witness_hash_ c) (outputs_hash_ c)
                           (inpoints_hash_ c) (Some hash) (segregated_ c) (total_input_value_ c)
                           (total_output_value_ c)) t)
  end.
End Hash.

(** ** Validation *)

Definition check (transaction_pool retarget : bool) (t : transaction) : error.code :=
  if (zlen (inputs t) =? 0) || (zlen (outputs t) =? 0) then error.empty_transaction
  else if is_null_non_coinbase t then error.previous_output_null
  else if fst (total_output_value t) >? max_money retarget then error.spend_overflow
  else if negb transaction_pool && is_oversized_coinbase t then error.invalid_coinbase_script_size
  else if transaction_pool && is_coinbase t then error.coinbase_transaction
  else if transaction_pool && is_internal_double_spend t then error.transaction_internal_double_spend
  else if transaction_pool && (tx_serialized_size true false false t >=? get_max_block_size) then
    error.transaction_size_limit
  else error.success.

(** [transaction::accept(const chain_state&, bool)]; [None]: [is_final] throws. *)
Definition accept_state (state : chain_state) (transaction_pool : bool) (t : transaction)
    : option error.code :=
  let bip16 := state_is_enabled state rule_fork.bip16_rule in
  let bip30 := state_is_enabled state rule_fork.bip30_rule in
  let bip68 := state_is_enabled state rule_fork.bip68_rule in
  let bip141 := if is_bch then false else state_is_enabled state rule_fork.bip141_rule in
  let revert_bip30 := state_is_enabled state rule_fork.allow_collisions in
  let max_sigops := if bip141 then max_fast_sigops else get_max_block_sigops in
  if transaction_pool && is_under_checkpoint state then Some error.premature_validation
  else if is_bch && is_magnetic_anomaly_enabled state &&
          (tx_serialized_size true false false t <? min_transaction_size) then
    Some error.transaction_size_limit
  else if negb bip141 && is_segregated t then Some error.empty_transaction
  else
    match (if transaction_pool then is_final (state_height state) (cs_median_time_past state) t
           else Some true) with
    | None => None
    | Some final =>
        Some
          (if negb final then error.transaction_non_final
           else if bip30 && negb revert_bip30 && duplicate (validation t) then error.unspent_duplicate
           else if is_missing_previous_outputs t then error.missing_previous_output
           else if is_double_spend transaction_pool t then error.double_spend
           else if negb (is_mature_tx (state_height state) t) then error.coinbase_maturity
           else if is_overspent t then error.spend_exceeds_value
           else if bip68 && is_locked (state_height state) (cs_median_time_past state) t then
             error.sequence_locked
           else if transaction_pool && (tx_signature_operations bip16 bip141 t >? max_sigops) then
             error.transaction_embedded_sigop_limit
           else if transaction_pool && bip141 && (weight t >? max_block_weight) then
             error.transaction_weight_limit
           else error.success)
    end.

Definition accept (transaction_pool : bool) (t : transaction) : option error.code :=
  match tx_state (validation t) with
  | Some state => accept_state state transaction_pool t
  | None => Some error.operation_failed
  end.
End Transaction.
