(* ===== verification/TxCodec.v ===== *)
(** Round trips and sizes of the transaction serializations of
    [src/chain/transaction.cpp]: wire, wire with witnesses (bip144) and store. *)

From S2P Require Import Prelude Limits Endian Reader Writer Codes Number Operation Script Chain Header ChainState Transaction.

Section TxCodec.
Context {R : Type} `{ReaderLaws R} `{Currency}.

(** ** Length-prefixed collections *)

Lemma read_puts_reads {A} (from : rd R (A * bool)) put l es acc :
  Forall2 (fun a e => reads from e (a, true)) l es ->
  reads (read_puts from put (length l) true acc) (concat es) (acc ++ l).
Proof.
  intros Hl. revert acc. induction Hl as [|a e l es He _ IH]; intros acc; simpl.
  { rewrite app_nil_r. apply reads_ret. }
  eapply reads_bind; [exact He|]. simpl. rewrite (cons_middle a acc l), app_assoc. apply IH.
Qed.

Lemma read_list_reads {A} (from : rd R (A * bool)) put l es n :
  zlen l <= get_max_block_size -> n = zlen l ->
  Forall2 (fun a e => reads from e (a, true)) l es ->
  reads (read_list from put) (write_variable_little_endian n ++ concat es) l.
Proof.
  intros Hlen -> Hl. pose proof get_max_block_size_bound.
  eapply reads_bind; [apply reads_size, in_width_zlen; lia|].
  case_if; [lia|]. unfold zlen. rewrite Nat2Z.id. by apply (read_puts_reads from put l es []).
Qed.

(** ** Inputs and outputs *)

Definition decoded_output (wire : bool) (o : output) : output :=
  mk_output (out_value o) (out_script o) (if wire then not_spent else spender_height o).

Lemma all_some_map {A B} (f : A -> option (list B)) l e :
  all_some (map f l) = Some e ->
  exists es, Forall2 (fun a x => f a = Some x) l es /\ e = concat es.
Proof.
  revert e. induction l as [|a l IH]; simpl; intros e He; simplify_eq.
  { exists []. split; [constructor|done]. }
  destruct (f a) as [x|] eqn:Ef; [|done]. destruct (all_some (map f l)) as [y|] eqn:E; [|done].
  simplify_eq. destruct (IH y eq_refl) as (es & Hes & ->).
  exists (x :: es). split; [by constructor|done].
Qed.

Lemma read_outputs_reads wire outs e :
  zlen outs <= get_max_block_size -> Forall output_wf outs -> write_outputs wire outs = Some e ->
  reads (read_outputs wire) e (map (decoded_output wire) outs).
Proof.
  intros Hlen Hwf He. unfold write_outputs in He.
  destruct (all_some (map (output_to_data wire) outs)) as [body|] eqn:E; [|done]. simplify_eq.
  apply all_some_map in E as (es & Hes & ->).
  apply read_list_reads; [unfold zlen in *; by rewrite length_map|unfold zlen; by rewrite length_map|].
  clear Hlen. induction Hes as [|o x outs es Ho _ IH]; simpl; [constructor|].
  apply Forall_cons in Hwf as [Hw Hwf]. constructor; [|by apply IH].
  exact (output_reads wire o default_output x Hw Ho).
Qed.

Lemma read_inputs_reads wire wit ins :
  zlen ins <= get_max_block_size -> Forall (input_wf wire (if is_bch then false else wit)) ins ->
  reads (read_inputs wire wit) (write_inputs wire wit ins) (map (decoded_input default_input) ins).
Proof.
  intros Hlen Hwf. unfold read_inputs, write_inputs. set (w := if is_bch then false else wit) in *.
  apply read_list_reads; [unfold zlen in *; by rewrite length_map|unfold zlen; by rewrite length_map|].
  clear Hlen. induction Hwf as [|i ins Hi _ IH]; simpl; constructor; [|done].
  by apply input_reads.
Qed.

(** On the wire an input does not write its witness. *)
Lemma input_to_data_strip wit i :
  input_to_data true wit i = input_to_data true wit (strip_input_witness i).
Proof. unfold input_to_data. by rewrite !andb_false_r. Qed.

Lemma write_inputs_wire a b ins : write_inputs true a ins = write_inputs true b ins.
Proof. unfold write_inputs, input_to_data. by setoid_rewrite andb_false_r. Qed.

Lemma write_inputs_strip wit ins :
  write_inputs true wit ins = write_inputs true wit (map strip_input_witness ins).
Proof.
  unfold write_inputs, zlen. rewrite length_map, map_map.
  by rewrite (map_ext _ _ (input_to_data_strip _)).
Qed.

(** ** Witnesses *)

Definition stack_wf (i : input) : Prop :=
  in_width 64 (zlen (stack (in_witness i))) /\ Forall element_wf (stack (in_witness i)).

Definition with_witness (i : input) : input :=
  mk_input (set_op_point (previous_output default_input) (op_point (previous_output i)))
    (in_script i) (mk_witness (stack (in_witness i)) true) (sequence i).

Lemma read_witnesses_reads ins :
  Forall stack_wf ins ->
  reads (read_witnesses (map (decoded_input default_input) (map strip_input_witness ins)))
    (write_witnesses ins) (map with_witness ins).
Proof.
  intros Hwf. unfold write_witnesses. induction Hwf as [|i ins [Hc Hs] _ IH]; simpl; [apply reads_ret|].
  eapply reads_bind.
  - apply (witness_reads (mk_witness (stack (in_witness i)) true)). by split_and!.
  - eapply reads_bind_nil; [exact IH|]. apply reads_ret.
Qed.

(** ** The transaction *)

Definition tx_wf (wire wit : bool) (t : transaction) : Prop :=
  in_width 32 (tx_version t) /\ in_width 32 (tx_locktime t) /\
  zlen (inputs t) <= get_max_block_size /\ zlen (outputs t) <= get_max_block_size /\
  Forall (fun i => input_wf wire (if is_bch then false else wit)
                     (if wire then strip_input_witness i else i)) (inputs t) /\
  Forall output_wf (outputs t) /\ Forall stack_wf (inputs t).

(** The instance a wire serialization decodes to, read into [self]. *)
Definition decoded_tx (wit : bool) (self t : transaction) : transaction :=
  let wit := if is_bch then false else wit in
  let plain := map (decoded_input default_input) (map strip_input_witness (inputs t)) in
  let d ins := mk_transaction (tx_version t) (tx_locktime t) ins (map (decoded_output true) (outputs t))
                 no_caches (unconfirmed self) (validation self) in
  if wit then d (if is_segregated t then map with_witness (inputs t) else plain)
  else strip_witness (d plain).

Lemma reads_marker_false ins : ins <> [] -> reads (read_marker ins) [] false.
Proof.
  intros Hne. unfold read_marker. destruct is_bch; [apply reads_ret|].
  unfold witness_marker. destruct ins; [done|]. case_if; [unfold zlen in *; simpl in *; lia|].
  apply reads_ret.
Qed.

(** An empty input list followed by the flag is a marker; nothing is consumed. *)
Lemma reads_marker_true {A} (f : bool -> rd R A) e v :
  is_bch = false -> reads (f true) (write_byte witness_flag ++ e) v ->
  reads (rbind (read_marker []) f) (write_byte witness_flag ++ e) v.
Proof.
  intros Hb Hk l. rewrite <- (Hk l). unfold read_marker. rewrite Hb. simpl zlen.
  rewrite Z.eqb_refl. unfold rbind, write_byte. simpl app.
  change (u8 witness_flag) with 1. by rewrite rd_peek_byte_at.
Qed.

Lemma reads_skip_byte b : reads (rd_skip 1) (write_byte b) tt.
Proof. intros l. by apply rd_skip_at. Qed.

Lemma reads_no_inputs wire wit : reads (read_inputs wire wit) (write_byte witness_marker) [].
Proof.
  pose proof get_max_block_size_bound.
  apply (read_inputs_reads wire wit []); [unfold zlen; simpl; lia|constructor].
Qed.

Lemma tx_wire_reads wit t self e :
  tx_wf true wit t -> inputs t <> [] -> tx_to_data true wit false t = Some e ->
  reads (tx_from_data true wit false self) e (decoded_tx wit self t, true).
Proof.
  intros (Hv & Hlt & Hni & Hno & Hi & Ho & Hw) Hne He. unfold tx_to_data in He.
  destruct (write_outputs true (outputs t)) as [outs|] eqn:Eo; [|done]. simplify_eq.
  assert (Hstrip : zlen (map strip_input_witness (inputs t)) <= get_max_block_size)
    by (unfold zlen in *; by rewrite length_map).
  assert (Hwf : forall w, w = (if is_bch then false else wit) ->
            Forall (input_wf true (if is_bch then false else w)) (map strip_input_witness (inputs t))).
  { intros w ->. apply Forall_map. eapply Forall_impl; [exact Hi|]. intros i. by destruct is_bch. }
  unfold tx_from_data, decoded_tx. eapply reads_bind; [by apply reads_le|].
  set (w := if is_bch then false else wit) in *.
  destruct (w && is_segregated t) eqn:Eseg.
  - bool_to_prop. rewrite H2, H3 in *. assert (Hb : is_bch = false) by (by destruct is_bch).
    rewrite <- app_assoc. eapply reads_bind; [apply reads_no_inputs|].
    rewrite <- app_assoc. apply reads_marker_true; [done|].
    rewrite app_assoc. eapply reads_bind.
    + eapply reads_bind; [apply reads_skip_byte|].
      rewrite write_inputs_strip.
      eapply reads_bind; [by apply read_inputs_reads; [|apply Hwf]|].
      eapply reads_bind; [by apply read_outputs_reads|].
      eapply reads_bind_nil; [by apply read_witnesses_reads|]. apply reads_ret.
    + eapply reads_bind_nil; [by apply reads_le|]. apply reads_check.
  - rewrite (write_inputs_wire false w), write_inputs_strip, <- app_assoc.
    eapply reads_bind; [apply read_inputs_reads; [done|]|].
    { specialize (Hwf w eq_refl). destruct is_bch; [done|]. by destruct w. }
    rewrite <- (app_nil_l (outs ++ _)). eapply reads_bind; [apply reads_marker_false|].
    { by destruct (inputs t). }
    eapply reads_bind; [eapply reads_bind_nil; [by apply read_outputs_reads|apply reads_ret]|].
    eapply reads_bind_nil; [by apply reads_le|].
    destruct w; [|apply reads_check]. simpl in Eseg. rewrite Eseg. apply reads_check.
Qed.

(** ** The store serialization *)

Lemma write_inputs_store a b ins : write_inputs false a ins = write_inputs false b ins.
Proof.
  unfold write_inputs, input_to_data, store_witness. destruct is_bch; [done|].
  by setoid_rewrite orb_true_r.
Qed.

Definition store_unconfirmed (is_unconfirmed : bool) (self t : transaction) : tx_unconfirmed :=
  if is_unconfirmed then
    mk_tx_unconfirmed (u32 (tx_signature_operations_of_state t)) (fees t) (is_standard t)
  else unconfirmed self.

Definition decoded_store_tx (wit is_unconfirmed : bool) (self t : transaction) : transaction :=
  let d := mk_transaction (tx_version t) (tx_locktime t)
             (map (decoded_input default_input) (inputs t)) (map (decoded_output false) (outputs t))
             no_caches (store_unconfirmed is_unconfirmed self t) (validation self) in
  if (if is_bch then false else wit) then d else strip_witness d.

Lemma reads_u32_guard locktime version :
  in_width 32 locktime -> in_width 32 version ->
  reads (if (locktime >? max_uint32) || (version >? max_uint32) then rd_invalidate else rret tt)
    [] tt.
Proof.
  unfold in_width, max_uint32. intros Hl Hv. rewrite !Z.gtb_ltb.
  destruct (Z.ltb_spec (2 ^ 32 - 1) locktime); [lia|].
  destruct (Z.ltb_spec (2 ^ 32 - 1) version); [lia|]. apply reads_ret.
Qed.

Lemma reads_store_unconfirmed is_unconfirmed self t :
  (is_unconfirmed = true -> in_width 64 (fees t)) ->
  reads (if is_unconfirmed then
           sigops <~ read_4_bytes_little_endian ;; fees <~ read_8_bytes_little_endian ;;
           standard <~ rd_read_byte ;; rret (mk_tx_unconfirmed sigops fees (negb (standard =? 0)))
         else rret (unconfirmed self))
    (if is_unconfirmed then
       write_4_bytes_little_endian (u32 (tx_signature_operations_of_state t)) ++
       write_8_bytes_little_endian (fees t) ++ write_byte (if is_standard t then 1 else 0)
     else [])
    (store_unconfirmed is_unconfirmed self t).
Proof.
  intros Hf. unfold store_unconfirmed. destruct is_unconfirmed; [|apply reads_ret].
  eapply reads_bind; [apply reads_le; apply wrap_bound; lia|].
  eapply reads_bind; [apply reads_le; by apply Hf|].
  eapply reads_bind_nil; [apply reads_write_byte; by destruct (is_standard t)|].
  destruct (is_standard t); apply reads_ret.
Qed.

(** The store form of a transaction, which puts outputs first, compresses
    indexes and lock times and may carry the values of an unconfirmed
    transaction, parses back from either reader and with any bytes after it. *)
Lemma tx_store_reads wit is_unconfirmed t self e :
  tx_wf false wit t -> (is_unconfirmed = true -> in_width 64 (fees t)) ->
  tx_to_data false wit is_unconfirmed t = Some e ->
  reads (tx_from_data false wit is_unconfirmed self) e
    (decoded_store_tx wit is_unconfirmed self t, true).
Proof.
  intros (Hv & Hlt & Hni & Hno & Hi & Ho & Hw) Hf He. unfold tx_to_data in He.
  destruct (write_outputs false (outputs t)) as [outs|] eqn:Eo; [|done]. simplify_eq.
  unfold tx_from_data, decoded_store_tx. eapply reads_bind; [by apply read_outputs_reads|].
  eapply reads_bind; [apply read_inputs_reads; [done|]|].
  { eapply Forall_impl; [exact Hi|]. intros i. by destruct is_bch. }
  pose proof (Hv : 0 <= _ < _). pose proof (Hlt : 0 <= _ < _).
  eapply reads_bind; [apply reads_variable; unfold in_width; lia|].
  eapply reads_bind; [apply reads_variable; unfold in_width; lia|].
  eapply (reads_bind _ _ []); [by apply reads_u32_guard|].
  eapply reads_bind_nil; [by apply reads_store_unconfirmed|].
  unfold u32. rewrite !wrap_small by done. destruct (if is_bch then false else wit); apply reads_check.
Qed.
End TxCodec.

(** ** Sizes *)

Section TxSize.
Context `{Currency}.

Lemma fold_size {A} (f : A -> Z) l acc :
  fold_left (fun size x => size + f x) l acc = acc + fold_left (fun size x => size + f x) l 0.
Proof.
  revert acc. induction l as [|x l IH]; intros acc; cbn [fold_left]; [lia|].
  rewrite (IH (acc + f x)), (IH (0 + f x)). lia.
Qed.

Definition sized_input (i : input) : Prop :=
  length (pt_hash (op_point (previous_output i))) = hash_size /\
  zlen (bytes (in_script i)) <= get_max_block_size /\ stack_wf i.

Lemma stack_wf_sizes i :
  stack_wf i -> in_width 64 (zlen (stack (in_witness i))) /\
                Forall (fun e => in_width 64 (zlen e)) (stack (in_witness i)).
Proof. intros [Hc Hs]. split; [done|]. eapply Forall_impl; [exact Hs|]. apply element_width. Qed.

(** The bytes of the inputs, and of their witnesses where the transaction
    writes them, are what the inputs' sizes add up to. *)
Lemma inputs_size wire wit ins :
  Forall sized_input ins ->
  zlen (concat (map (input_to_data wire wit) ins)) +
    (if store_witness wire wit && wire then zlen (write_witnesses ins) else 0) =
  fold_left (fun size i => size + input_serialized_size wire wit i) ins 0.
Proof.
  unfold write_witnesses. intros Hs. induction Hs as [|i ins (Hh & Hz & Hst) _ IH]; simpl.
  { unfold zlen. simpl. by destruct (_ && _). }
  rewrite fold_size, <- IH, !zlen_app.
  apply stack_wf_sizes in Hst as [Hc Hw].
  assert (Hi : zlen (input_to_data wire wit i) +
     (if store_witness wire wit && wire then zlen (witness_to_data true (in_witness i)) else 0) =
     input_serialized_size wire wit i); [|destruct (_ && _); lia].
  unfold input_to_data, input_serialized_size. rewrite !zlen_app.
  rewrite zlen_point_to_data, zlen_script_to_data by done.
  change (zlen (write_4_bytes_little_endian _)) with 4. rewrite zlen_witness_to_data by done.
  destruct (store_witness wire wit), wire; simpl; rewrite ?zlen_witness_to_data by done;
    unfold zlen; simpl; lia.
Qed.

Lemma outputs_size wire outs e :
  Forall (fun o => zlen (bytes (out_script o)) <= get_max_block_size) outs ->
  all_some (map (output_to_data wire) outs) = Some e ->
  zlen e = fold_left (fun size o => size + output_serialized_size wire o) outs 0.
Proof.
  intros Hs. revert e. induction Hs as [|o outs Ho _ IH]; simpl; intros e He; simplify_eq; [done|].
  destruct (output_to_data wire o) as [x|] eqn:Ex; [|done].
  destruct (all_some _) as [y|]; simplify_eq.
  rewrite fold_size, zlen_app, <- (IH y eq_refl), (zlen_output_to_data wire o x Ho Ex). lia.
Qed.

Lemma tx_chunk_size wire wit is_unconfirmed t e :
  in_width 32 (tx_version t) -> in_width 32 (tx_locktime t) ->
  in_width 64 (zlen (inputs t)) -> in_width 64 (zlen (outputs t)) ->
  Forall sized_input (inputs t) ->
  Forall (fun o => zlen (bytes (out_script o)) <= get_max_block_size) (outputs t) ->
  tx_to_data_chunk wire wit is_unconfirmed t = Some e ->
  zlen e = tx_serialized_size wire wit is_unconfirmed t.
Proof.
  intros Hv Hlt Hni Hno Hi Ho He. unfold tx_to_data_chunk, tx_to_data, write_outputs in He.
  destruct (all_some (map (output_to_data wire) (outputs t))) as [body|] eqn:Eb; [|done].
  pose proof (outputs_size wire _ body Ho Eb) as Hob.
  unfold tx_serialized_size. rewrite <- Hob.
  set (w := (if is_bch then false else wit) && is_segregated t) in *.
  assert (Hw : (if is_bch then false else w) = w) by (unfold w; by destruct is_bch).
  rewrite Hw in He. rewrite <- (inputs_size wire w (inputs t) Hi).
  unfold in_width in Hv, Hlt. destruct wire; apply (inj Some) in He; rewrite <- He; clear He e.
  - assert (Hseg : w && is_segregated t = w).
    { unfold w. destruct (if is_bch then false else wit), (is_segregated t); done. }
    rewrite Hseg. unfold write_inputs, store_witness. rewrite Hw.
    assert (Hbch : w = true -> is_bch = false) by (unfold w; by destruct is_bch).
    destruct w; [rewrite (Hbch eq_refl)|destruct is_bch]; cbn [andb orb negb];
      rewrite ?zlen_app, ?zlen_write_variable by done;
      repeat change (zlen (write_4_bytes_little_endian _)) with 4;
      repeat change (zlen (write_byte _)) with 1; lia.
  - unfold write_inputs. rewrite Hw. rewrite !zlen_app, !zlen_write_variable by (done || unfold in_width; lia).
    rewrite andb_false_r. destruct is_unconfirmed; [|unfold zlen; simpl; lia].
    rewrite !zlen_app. change (zlen (write_4_bytes_little_endian _)) with 4.
    change (zlen (write_8_bytes_little_endian _)) with 8. change (zlen (write_byte _)) with 1.
    simpl. lia.
Qed.

(** The size the code computes for a transaction, and reserves before
    writing, is the length of its serialization, for the wire and the store
    form, with and without witnesses. *)
Lemma tx_size wire wit is_unconfirmed t e :
  in_width 32 (tx_version t) -> in_width 32 (tx_locktime t) ->
  in_width 64 (zlen (inputs t)) -> in_width 64 (zlen (outputs t)) ->
  Forall sized_input (inputs t) ->
  Forall (fun o => zlen (bytes (out_script o)) <= get_max_block_size) (outputs t) ->
  tx_to_data_chunk wire wit is_unconfirmed t = Some e ->
  zlen e = tx_serialized_size wire wit is_unconfirmed t.
Proof. apply tx_chunk_size. Qed.

(** What the round trip of a wire transaction asks for implies what its size
    asks for. *)
Lemma tx_wf_sized wit t : tx_wf true wit t -> Forall sized_input (inputs t).
Proof.
  intros (_ & _ & _ & _ & Hi & _ & Hs). rewrite Forall_forall in *. intros i Hin.
  destruct (Hi i Hin) as ((_ & Hh & _) & (_ & _ & Hz & _) & _). split_and!; [done|done|by apply Hs].
Qed.

(** On the wire the two overloads of [to_data] agree. *)
Lemma tx_to_data_chunk_wire wit is_unconfirmed t :
  tx_to_data_chunk true wit is_unconfirmed t = tx_to_data true wit is_unconfirmed t.
Proof.
  unfold tx_to_data_chunk, tx_to_data. destruct (write_outputs true (outputs t)); [|done].
  destruct is_bch; [done|]. destruct wit, (is_segregated t); done.
Qed.

Lemma tx_wire_size wit t e :
  tx_wf true wit t -> tx_to_data true wit false t = Some e ->
  zlen e = tx_serialized_size true wit false t.
Proof.
  intros Hwf He. pose proof (tx_wf_sized wit t Hwf) as Hs.
  destruct Hwf as (Hv & Hl & Hi & Ho & _ & Hout & _). pose proof get_max_block_size_bound.
  apply tx_chunk_size; try done; try (apply in_width_zlen; lia).
  - eapply Forall_impl; [exact Hout|]. by intros o (_ & _ & _ & Hz & _).
  - by rewrite tx_to_data_chunk_wire.
Qed.

(** ** The bytes of a transaction *)

Lemma bytes_ok_witness_to_data prefix w :
  Forall bytes_ok (stack w) -> bytes_ok (witness_to_data prefix w).
Proof.
  intros Hw. apply bytes_ok_app. split; [destruct prefix; auto with bitprim; constructor|].
  apply bytes_ok_concat, Forall_map. eapply Forall_impl; [exact Hw|]. intros e He.
  apply bytes_ok_app. split; [apply bytes_ok_write_variable|done].
Qed.

Lemma all_some_bytes {A} (f : A -> option (list Z)) l e :
  Forall (fun a => forall x, f a = Some x -> bytes_ok x) l ->
  all_some (map f l) = Some e -> bytes_ok e.
Proof.
  intros Hl He. apply all_some_map in He as (es & Hes & ->). apply bytes_ok_concat.
  induction Hes as [|a x l es Ha _ IH]; [constructor|].
  apply Forall_cons in Hl as [Hx Hl]. constructor; auto.
Qed.

Lemma tx_wire_bytes wit t e :
  tx_wf true wit t -> tx_to_data true wit false t = Some e -> bytes_ok e.
Proof.
  intros (_ & _ & _ & _ & Hi & Ho & Hst) He. unfold tx_to_data, write_outputs in He.
  destruct (all_some (map (output_to_data true) (outputs t))) as [body|] eqn:Eb; [|done].
  assert (Hins : forall w, bytes_ok (write_inputs true w (inputs t))).
  { intros w. apply bytes_ok_app. split; [auto with bitprim|]. apply bytes_ok_concat, Forall_map.
    eapply Forall_impl; [exact Hi|]. intros i ((_ & _ & Hh & _) & (_ & Hs & _) & _).
    unfold input_to_data, point_to_data, write_hash. rewrite andb_false_r, !bytes_ok_app.
    split_and!; try apply bytes_ok_to_little_endian; [done|by apply bytes_ok_script_to_data|constructor]. }
  assert (Hbody : bytes_ok body).
  { eapply all_some_bytes; [|exact Eb]. eapply Forall_impl; [exact Ho|].
    intros o (_ & _ & Hs & _) x Hx. unfold output_to_data in Hx. apply (inj Some) in Hx. subst x.
    apply bytes_ok_app.
    split; [apply bytes_ok_to_little_endian|by apply bytes_ok_script_to_data]. }
  assert (Hw : bytes_ok (write_witnesses (inputs t))).
  { apply bytes_ok_concat, Forall_map. eapply Forall_impl; [exact Hst|]. intros i [_ Hs].
    apply bytes_ok_witness_to_data. eapply Forall_impl; [exact Hs|]. by intros x [_ Hx]. }
  simplify_eq. destruct ((if is_bch then false else wit) && is_segregated t); rewrite !bytes_ok_app;
    split_and!; auto with bitprim; try apply bytes_ok_to_little_endian; try constructor.
Qed.
End TxSize.
