(* ===== verification/TxRules.v ===== *)
(** What the rules of [src/chain/transaction.cpp] guarantee: coherence of the
    memoized values under the operations of the class, saturating totals,
    detection of repeated inputs, and what an accepted transaction satisfies. *)

From S2P Require Import Prelude Limits Endian Reader Writer Codes Number Operation Script Chain Compact Header ChainState Transaction TxCodec.

(** ** Coherence of the caches *)

Definition memo {A} (cached : option A) (value : A) : Prop := cached = None \/ cached = Some value.

Lemma memo_none {A} (v : A) : memo None v.
Proof. by left. Qed.

Lemma memo_some {A} (v : A) : memo (Some v) v.
Proof. by right. Qed.

#[export] Hint Resolve memo_none memo_some : bitprim.

Section Caches.
Context `{Currency} `{Crypto}.

Definition computed_hash (t : transaction) : list Z :=
  bitcoin_hash (default [] (tx_to_data true false false t)).

Definition computed_segregated (t : transaction) : bool := existsb is_segregated_input (inputs t).

Definition computed_witness_hash (t : transaction) : list Z :=
  if is_coinbase t then null_hash else bitcoin_hash (default [] (tx_to_data true true false t)).

(** Every memoized value is the one the code would compute now; the witness
    hash is consulted for segregated transactions only. *)
Definition coherent (t : transaction) : Prop :=
  let c := caches t in
  memo (hash_ c) (computed_hash t) /\
  (computed_segregated t = true -> memo (witness_hash_ c) (computed_witness_hash t)) /\
  memo (outputs_hash_ c) (to_outputs t) /\
  memo (inpoints_hash_ c) (to_inpoints t) /\
  memo (sequences_hash_ c) (to_sequences t) /\
  memo (segregated_ c) (computed_segregated t) /\
  memo (total_input_value_ c) (fold_left sum_input_value (inputs t) 0) /\
  memo (total_output_value_ c) (fold_left sum_output_value (outputs t) 0).

Lemma new_transaction_coherent version locktime ins outs :
  coherent (new_transaction version locktime ins outs).
Proof. unfold coherent, new_transaction. simpl. split_and!; auto with bitprim. Qed.

Lemma construct_transaction_coherent version locktime ins outs sigops fees standard :
  coherent (construct_transaction version locktime ins outs sigops fees standard).
Proof. unfold coherent, construct_transaction. simpl. split_and!; auto with bitprim. Qed.

Lemma copy_with_hash_coherent t : coherent (copy_with_hash t (computed_hash t)).
Proof.
  unfold coherent, copy_with_hash. simpl. split_and!; [|auto with bitprim..].
  right. unfold computed_hash, tx_to_data. by destruct is_bch.
Qed.

Lemma copy_transaction_coherent t : coherent (copy_transaction t).
Proof. unfold coherent, copy_transaction. simpl. split_and!; auto with bitprim. Qed.

Lemma reset_transaction_coherent t : coherent (reset_transaction t).
Proof. unfold coherent, reset_transaction. simpl. split_and!; auto with bitprim. Qed.

Lemma set_version_coherent v t : coherent t -> coherent (set_version v t).
Proof.
  intros (_ & _ & Ho & Hi & Hs & Hg & Hti & Hto). unfold coherent, set_version, invalidate_cache.
  simpl. split_and!; auto with bitprim.
Qed.

Lemma set_locktime_coherent v t : coherent t -> coherent (set_locktime v t).
Proof.
  intros (_ & _ & Ho & Hi & Hs & Hg & Hti & Hto). unfold coherent, set_locktime, invalidate_cache.
  simpl. split_and!; auto with bitprim.
Qed.

Lemma set_inputs_coherent v t : coherent t -> coherent (set_inputs v t).
Proof.
  intros (_ & _ & Ho & Hi & Hs & Hg & Hti & Hto). unfold coherent, set_inputs.
  simpl. split_and!; auto with bitprim.
Qed.

Lemma set_outputs_coherent v t : coherent t -> coherent (set_outputs v t).
Proof.
  intros (_ & _ & Ho & Hi & Hs & Hg & Hti & Hto). unfold coherent, set_outputs.
  simpl. split_and!; auto with bitprim.
Qed.

(** Witnesses are not part of what the other caches depend on. *)
Lemma strip_write_inputs wit ins :
  write_inputs true wit (map strip_input_witness ins) = write_inputs true wit ins.
Proof.
  unfold write_inputs, zlen. rewrite length_map, map_map. do 2 f_equal. apply map_ext. intros i.
  unfold input_to_data. by rewrite !andb_false_r.
Qed.

Lemma strip_not_segregated ins : existsb is_segregated_input (map strip_input_witness ins) = false.
Proof. induction ins as [|i ins IH]; [done|]. simpl. by rewrite IH. Qed.

Lemma strip_witness_hash t : computed_hash (strip_witness t) = computed_hash t.
Proof.
  unfold computed_hash, tx_to_data. simpl. destruct is_bch; simpl; by rewrite strip_write_inputs.
Qed.

Lemma strip_witness_coherent t : coherent t -> coherent (strip_witness t).
Proof.
  intros (Hh & _ & Ho & Hi & Hs & Hg & Hti & Hto). unfold coherent.
  rewrite strip_witness_hash. unfold computed_segregated, to_inpoints, to_sequences in *. simpl.
  rewrite strip_not_segregated, !map_map. simpl.
  assert (Hf : forall l acc, fold_left sum_input_value (map strip_input_witness l) acc =
                             fold_left sum_input_value l acc).
  { induction l as [|i l IH]; intros acc; simpl; [done|]. by rewrite IH. }
  rewrite Hf. split_and!; auto with bitprim; done.
Qed.

(** ** What the memoizing accessors return *)

Lemma is_segregated_computed t :
  coherent t -> is_segregated t = if is_bch then false else computed_segregated t.
Proof.
  intros (_ & _ & _ & _ & _ & Hg & _). unfold is_segregated. destruct is_bch; [done|].
  by destruct Hg as [-> | ->].
Qed.

Lemma total_output_value_computed t :
  coherent t ->
  fst (total_output_value t) = fold_left sum_output_value (outputs t) 0 /\
  coherent (snd (total_output_value t)).
Proof.
  intros Hc. pose proof Hc as (Hh & Hw & Ho & Hi & Hs & Hg & Hti & [E|E]);
    unfold total_output_value; rewrite E; [|done].
  split; [done|]. unfold coherent. simpl. split_and!; auto with bitprim.
Qed.

Lemma total_input_value_computed t :
  coherent t ->
  fst (total_input_value t) = fold_left sum_input_value (inputs t) 0 /\
  coherent (snd (total_input_value t)).
Proof.
  intros Hc. pose proof Hc as (Hh & Hw & Ho & Hi & Hs & Hg & [E|E] & Hto);
    unfold total_input_value; rewrite E; [|done].
  split; [done|]. unfold coherent. simpl. split_and!; auto with bitprim.
Qed.

Lemma outputs_hash_computed t :
  coherent t -> fst (outputs_hash t) = to_outputs t /\ coherent (snd (outputs_hash t)).
Proof.
  intros Hc. pose proof Hc as (Hh & Hw & [E|E] & Hi & Hs & Hg & Hti & Hto);
    unfold outputs_hash; rewrite E; [|done].
  split; [done|]. unfold coherent. simpl. split_and!; auto with bitprim.
Qed.

Lemma inpoints_hash_computed t :
  coherent t -> fst (inpoints_hash t) = to_inpoints t /\ coherent (snd (inpoints_hash t)).
Proof.
  intros Hc. pose proof Hc as (Hh & Hw & Ho & [E|E] & Hs & Hg & Hti & Hto);
    unfold inpoints_hash; rewrite E; [|done].
  split; [done|]. unfold coherent. simpl. split_and!; auto with bitprim.
Qed.

Lemma sequences_hash_computed t :
  coherent t -> fst (sequences_hash t) = to_sequences t /\ coherent (snd (sequences_hash t)).
Proof.
  intros Hc. pose proof Hc as (Hh & Hw & Ho & Hi & [E|E] & Hg & Hti & Hto);
    unfold sequences_hash; rewrite E; [|done].
  split; [done|]. unfold coherent. simpl. split_and!; auto with bitprim.
Qed.

Lemma tx_hash_computed t :
  coherent t -> fst (tx_hash false t) = computed_hash t /\ coherent (snd (tx_hash false t)).
Proof.
  intros Hc. pose proof Hc as ([E|E] & Hw & Ho & Hi & Hs & Hg & Hti & Hto);
    unfold tx_hash; rewrite E; destruct is_bch eqn:Eb; simpl; try done.
  all: unfold tx_to_data_chunk; rewrite Eb; simpl; split; [done|].
  all: unfold coherent; simpl; split_and!; auto with bitprim.
Qed.

Lemma tx_witness_hash_computed t :
  coherent t ->
  fst (tx_hash true t) = (if is_segregated t then computed_witness_hash t else computed_hash t) /\
  coherent (snd (tx_hash true t)).
Proof.
  intros Hc. pose proof (is_segregated_computed t Hc) as Hs.
  destruct (is_segregated t) eqn:Et.
  2:{ pose proof (tx_hash_computed t Hc) as Hh. revert Hh. unfold tx_hash. rewrite Et.
      by rewrite !andb_false_r. }
  assert (Eb : is_bch = false) by (destruct is_bch; done). rewrite Eb in Hs.
  pose proof Hc as (Hh & Hw & Ho & Hi & Hq & Hg & Hti & Hto).
  specialize (Hw (eq_sym Hs)). unfold tx_hash. rewrite Eb, Et. simpl.
  destruct Hw as [E|E]; rewrite E; [|done].
  unfold tx_to_data_chunk. rewrite Eb, Et. simpl. split; [done|].
  unfold coherent. simpl. split_and!; auto with bitprim.
Qed.
End Caches.

(** ** Sequences of operations

    The operations of the class that keep the caches: a transaction reached
    from a constructor by any sequence of them is coherent. *)

Section Steps.
Context `{Currency} `{Crypto}.

Inductive tx_step : transaction -> transaction -> Prop :=
| step_set_version v t : tx_step t (set_version v t)
| step_set_locktime v t : tx_step t (set_locktime v t)
| step_set_inputs l t : tx_step t (set_inputs l t)
| step_set_outputs l t : tx_step t (set_outputs l t)
| step_strip_witness t : tx_step t (strip_witness t)
| step_reset t : tx_step t (reset_transaction t)
| step_copy t : tx_step t (copy_transaction t)
| step_copy_hash t : tx_step t (copy_with_hash t (computed_hash t))
| step_from_data {R} `{Reader R} wire wit is_unconfirmed (source : R) t :
    tx_step t (fst (fst (tx_from_data wire wit is_unconfirmed t source)))
| step_recompute_hash t : tx_step t (recompute_hash t)
| step_hash wit t : tx_step t (snd (tx_hash wit t))
| step_outputs_hash t : tx_step t (snd (outputs_hash t))
| step_inpoints_hash t : tx_step t (snd (inpoints_hash t))
| step_sequences_hash t : tx_step t (snd (sequences_hash t))
| step_total_input_value t : tx_step t (snd (total_input_value t))
| step_total_output_value t : tx_step t (snd (total_output_value t)).

Inductive tx_reachable : transaction -> Prop :=
| reach_new version locktime ins outs : tx_reachable (new_transaction version locktime ins outs)
| reach_construct version locktime ins outs sigops fees standard :
    tx_reachable (construct_transaction version locktime ins outs sigops fees standard)
| reach_step t u : tx_reachable t -> tx_step t u -> tx_reachable u.

Lemma tx_from_data_coherent {R} `{Reader R} wire wit is_unconfirmed t :
  always (R := R) (tx_from_data wire wit is_unconfirmed t) (fun p => coherent (fst p)).
Proof.
  unfold tx_from_data. destruct wire; repeat (apply always_step; intros ?); apply always_check;
    try apply reset_transaction_coherent; case_match; try apply strip_witness_coherent;
    unfold coherent; simpl; split_and!; auto with bitprim.
Qed.

Lemma recompute_hash_coherent t : coherent t -> coherent (recompute_hash t).
Proof.
  intros (Hh & Hw & Ho & Hi & Hs & Hg & Hti & Hto). unfold recompute_hash. apply tx_hash_computed.
  unfold coherent. simpl. split_and!; auto with bitprim.
Qed.

Lemma tx_step_coherent t u : tx_step t u -> coherent t -> coherent u.
Proof.
  destruct 1; intros Hc.
  - by apply set_version_coherent.
  - by apply set_locktime_coherent.
  - by apply set_inputs_coherent.
  - by apply set_outputs_coherent.
  - by apply strip_witness_coherent.
  - apply reset_transaction_coherent.
  - apply copy_transaction_coherent.
  - apply copy_with_hash_coherent.
  - apply tx_from_data_coherent.
  - by apply recompute_hash_coherent.
  - destruct wit; [by apply tx_witness_hash_computed|by apply tx_hash_computed].
  - by apply outputs_hash_computed.
  - by apply inpoints_hash_computed.
  - by apply sequences_hash_computed.
  - by apply total_input_value_computed.
  - by apply total_output_value_computed.
Qed.

Lemma tx_reachable_coherent t : tx_reachable t -> coherent t.
Proof.
  induction 1 as [| |t u _ IH Hstep]; [apply new_transaction_coherent
    |apply construct_transaction_coherent|by eapply tx_step_coherent].
Qed.

(** C7: After any sequence of constructions from fields, with or without the
    values of an unconfirmed transaction, copies, copies that take the hash of
    the transaction, reads from any source, the setters that take their
    argument by reference, the memoizing accessors, recompute_hash,
    strip_witness and reset, the accessors return what a computation from the
    fields would: the transaction hash, the witness hash, the three digests of
    the signature hash and the two totals are never stale. A copy that takes
    another hash reports that hash. (Assignment, the setters that take an
    rvalue and writing through the accessors by reference are not among the
    operations: they keep stale values.) *)
Theorem reachable_accessors t :
  tx_reachable t ->
  fst (tx_hash false t) = computed_hash t /\
  fst (tx_hash true t) = (if is_segregated t then computed_witness_hash t else computed_hash t) /\
  is_segregated t = (if is_bch then false else existsb is_segregated_input (inputs t)) /\
  fst (outputs_hash t) = to_outputs t /\ fst (inpoints_hash t) = to_inpoints t /\
  fst (sequences_hash t) = to_sequences t /\
  fst (total_input_value t) = fold_left sum_input_value (inputs t) 0 /\
  fst (total_output_value t) = fold_left sum_output_value (outputs t) 0 /\
  (forall h, fst (tx_hash false (copy_with_hash t h)) = h).
Proof.
  intros Hc%tx_reachable_coherent. split_and!; [by apply tx_hash_computed
    |by apply tx_witness_hash_computed|by apply is_segregated_computed|by apply outputs_hash_computed
    |by apply inpoints_hash_computed|by apply sequences_hash_computed
    |by apply total_input_value_computed|by apply total_output_value_computed|].
  intros h. unfold tx_hash. by destruct is_bch.
Qed.

(** Assignment does not drop the caches of the target: once the target
    has computed its hash, it reports that hash for whatever is assigned to
    it. *)
Lemma assigned_hash_is_stale t other h :
  hash_ (caches t) = Some h -> fst (tx_hash false (assign_transaction t other)) = h.
Proof. intros Hh. unfold tx_hash. simpl. rewrite Hh. by destruct is_bch. Qed.
End Steps.

(** ** Totals *)

Definition sum_outputs (outs : list output) : Z := fold_right (fun o s => out_value o + s) 0 outs.

(** The value of the output an input spends; zero when it is not known. *)
Definition spent_value (i : input) : Z :=
  let prevout := prevout_cache (previous_output i) in
  if output_is_valid prevout then out_value prevout else 0.

Definition sum_inputs (ins : list input) : Z := fold_right (fun i s => spent_value i + s) 0 ins.

Lemma fold_ceiling {A} (f : A -> Z) l acc :
  Forall (fun x => 0 <= f x) l -> 0 <= acc <= umax 64 ->
  fold_left (fun total x => ceiling_add 64 total (f x)) l acc =
  Z.min (umax 64) (acc + fold_right (fun x s => f x + s) 0 l).
Proof.
  intros Hl. revert acc. induction Hl as [|x l Hx Hl IH]; intros acc Hacc; simpl; [lia|].
  rewrite ceiling_add_min, IH by lia.
  assert (0 <= fold_right (fun x s => f x + s) 0 l); [|lia].
  clear IH. induction Hl; simpl; lia.
Qed.

Lemma sum_output_value_saturates outs :
  Forall (fun o => 0 <= out_value o) outs ->
  fold_left sum_output_value outs 0 = Z.min (umax 64) (sum_outputs outs).
Proof. intros Ho. by apply (fold_ceiling out_value outs 0 Ho). Qed.

Lemma sum_input_value_saturates ins :
  Forall (fun i => 0 <= spent_value i) ins ->
  fold_left sum_input_value ins 0 = Z.min (umax 64) (sum_inputs ins).
Proof.
  intros Hi. transitivity (fold_left (fun total i => ceiling_add 64 total (spent_value i)) ins 0);
    [|by apply (fold_ceiling spent_value ins 0 Hi)].
  assert (E : forall l acc, fold_left sum_input_value l acc =
                fold_left (fun total i => ceiling_add 64 total (spent_value i)) l acc).
  { induction l as [|i l IH]; intros acc; simpl; [done|]. rewrite IH.
    unfold sum_input_value, spent_value. by destruct (output_is_valid _). }
  apply E.
Qed.

(** ** What the checks establish *)

Section Checks.
Context `{Currency} `{Crypto}.

Lemma check_success pool retarget t :
  check pool retarget t = error.success ->
  inputs t <> [] /\ outputs t <> [] /\ is_null_non_coinbase t = false /\
  fst (total_output_value t) <= max_money retarget /\
  (pool = true -> is_coinbase t = false /\ is_internal_double_spend t = false /\
                  tx_serialized_size true false false t < get_max_block_size) /\
  (pool = false -> is_oversized_coinbase t = false).
Proof.
  unfold check. intros Hc. do 7 (case_if_in Hc; [done|]).
  destruct (inputs t); [done|]. destruct (outputs t); [done|]. simpl in *.
  destruct pool; simpl in *; bool_to_prop; split_and!; done.
Qed.

(** The sort based test for internal double spends finds one exactly when
    two inputs of the transaction name the same output. *)
Lemma is_internal_double_spend_spec t :
  is_internal_double_spend t = false <->
  NoDup (map (fun i => point_key (op_point (previous_output i))) (inputs t)).
Proof.
  unfold is_internal_double_spend, is_distinct_points. rewrite negb_false_iff, points_distinct.
  unfold previous_outputs. by rewrite map_map.
Qed.

Lemma accept_success state pool t :
  accept_state state pool t = Some error.success ->
  is_missing_previous_outputs t = false /\ is_double_spend pool t = false /\
  is_mature_tx (state_height state) t = true /\ is_overspent t = false /\
  (pool = true -> is_final (state_height state) (cs_median_time_past state) t = Some true) /\
  (state_is_enabled state rule_fork.bip68_rule = true ->
   is_locked (state_height state) (cs_median_time_past state) t = false).
Proof.
  unfold accept_state. intros Ha. do 3 (case_if_in Ha; [done|]).
  destruct (if pool then _ else _) as [final|] eqn:Ef; [|done]. apply (inj Some) in Ha.
  do 9 (case_if_in Ha; [done|]). subst final. split_and!; try done.
  - by intros ->.
  - intros Hb. rewrite Hb in *. by bool_to_prop.
Qed.

(** Values as the code reads them: unsigned and within 64 bits. *)
Definition values_ok (t : transaction) : Prop :=
  Forall (fun o => 0 <= out_value o) (outputs t) /\ Forall (fun i => 0 <= spent_value i) (inputs t).

(** C2: A transaction that is not a coinbase, whose cached totals are not
    stale, and that passes check and accept, creates outputs whose sum,
    computed without a bound, is at most the sum of the outputs it consumes
    and within the money limit, and its fee is the difference of the two sums,
    the consumed one capped at the largest 64 bit value: the saturating 64 bit
    totals cannot be used to hide an overspend. (The code compares the
    consumed sum with no money limit.) *)
Theorem checked_accepted_conserves state pool retarget t :
  coherent t -> values_ok t -> is_coinbase t = false ->
  check pool retarget t = error.success ->
  accept_state state pool t = Some error.success ->
  sum_outputs (outputs t) <= sum_inputs (inputs t) /\ sum_outputs (outputs t) <= max_money retarget /\
  fees t = Z.min (umax 64) (sum_inputs (inputs t)) - sum_outputs (outputs t).
Proof.
  intros Hc [Ho Hi] Hcb Hk Ha.
  apply check_success in Hk as (_ & _ & _ & Hm & _).
  apply accept_success in Ha as (_ & _ & _ & Hos & _).
  unfold is_overspent in Hos. rewrite Hcb in Hos. simpl in Hos. unfold fees. rewrite floor_subtract_max.
  rewrite (proj1 (total_output_value_computed t Hc)) in *.
  rewrite (proj1 (total_input_value_computed t Hc)) in *.
  rewrite sum_output_value_saturates in * by done.
  rewrite sum_input_value_saturates in * by done. bool_to_prop.
  pose proof (max_money_exact retarget) as [_ Hmm]. unfold umax in *. split_and!; lia.
Qed.
End Checks.

(** ** Wire round trip *)

Section Roundtrip.
Context {R : Type} `{Currency} `{Crypto} `{ReaderLaws R}.

(** The parts of an input the wire format carries outside the witnesses. *)
Definition same_wire_input (i j : input) : Prop :=
  op_point (previous_output i) = op_point (previous_output j) /\ in_script i = in_script j /\
  sequence i = sequence j.

Lemma write_inputs_same wit ins ins' :
  Forall2 same_wire_input ins ins' -> write_inputs true wit ins = write_inputs true wit ins'.
Proof.
  intros Hs. unfold write_inputs, zlen. rewrite (Forall2_length _ _ _ Hs). f_equal.
  induction Hs as [|i j ins ins' (Hp & Hc & Hq) _ IH]; simpl; [done|]. rewrite IH. f_equal.
  unfold input_to_data. by rewrite Hp, Hc, Hq, !andb_false_r.
Qed.

Lemma same_wire_map f ins : (forall i, same_wire_input (f i) i) -> Forall2 same_wire_input (map f ins) ins.
Proof. intros Hf. induction ins; simpl; by constructor. Qed.

Lemma decoded_tx_inputs wit self t :
  Forall2 same_wire_input (inputs (decoded_tx wit self t)) (inputs t).
Proof.
  unfold decoded_tx. destruct (if is_bch then false else wit); simpl.
  - destruct (is_segregated t); [|rewrite map_map]; by apply same_wire_map.
  - rewrite !map_map. by apply same_wire_map.
Qed.

Lemma decoded_tx_outputs wit self t :
  write_outputs true (outputs (decoded_tx wit self t)) = write_outputs true (outputs t).
Proof.
  assert (Ho : outputs (decoded_tx wit self t) = map (decoded_output true) (outputs t)).
  { unfold decoded_tx. by destruct (if is_bch then false else wit). }
  rewrite Ho. unfold write_outputs, zlen. rewrite length_map, map_map. done.
Qed.

Lemma with_witness_segregated ins :
  existsb is_segregated_input (map with_witness ins) = existsb is_segregated_input ins.
Proof. induction ins as [|i ins IH]; simpl; [done|]. by rewrite IH. Qed.

Lemma decoded_plain_segregated ins :
  existsb is_segregated_input (map (decoded_input default_input) (map strip_input_witness ins)) = false.
Proof. induction ins as [|i ins IH]; simpl; [done|]. by rewrite IH. Qed.

Lemma decoded_tx_segregated wit self t :
  coherent t ->
  (if is_bch then false else wit) && is_segregated (decoded_tx wit self t) =
  (if is_bch then false else wit) && is_segregated t.
Proof.
  intros Hc. pose proof (is_segregated_computed t Hc) as Hs. revert Hs.
  unfold decoded_tx. destruct is_bch eqn:Eb; [done|]. intros Hs. destruct wit; [|done].
  destruct (is_segregated t) eqn:Et; unfold is_segregated; simpl; rewrite Eb.
  - rewrite with_witness_segregated. by rewrite Hs.
  - by rewrite decoded_plain_segregated.
Qed.

Lemma decoded_tx_witnesses wit self t :
  (if is_bch then false else wit) && is_segregated t = true ->
  write_witnesses (inputs (decoded_tx wit self t)) = write_witnesses (inputs t).
Proof.
  unfold decoded_tx, write_witnesses. destruct (if is_bch then false else wit); [|done].
  simpl. intros ->. by rewrite map_map.
Qed.

Lemma decoded_tx_data wit self t :
  coherent t -> tx_to_data true wit false (decoded_tx wit self t) = tx_to_data true wit false t.
Proof.
  intros Hc. unfold tx_to_data. rewrite decoded_tx_outputs, decoded_tx_segregated by done.
  rewrite (write_inputs_same _ _ _ (decoded_tx_inputs wit self t)).
  assert (Hv : tx_version (decoded_tx wit self t) = tx_version t /\
               tx_locktime (decoded_tx wit self t) = tx_locktime t).
  { unfold decoded_tx. by destruct (if is_bch then false else wit). }
  destruct Hv as [-> ->]. destruct (write_outputs true (outputs t)); [|done]. do 3 f_equal.
  destruct ((if is_bch then false else wit) && is_segregated t) eqn:E; [|done].
  by rewrite (decoded_tx_witnesses wit self t E).
Qed.

(** C8: The wire form of a transaction that has an input and whose fields are
    within their widths and limits parses back, from either reader and with
    any bytes after it, to a transaction with the same fields, and that
    transaction serializes to the same bytes, with or without witnesses. *)
Theorem tx_wire_roundtrip wit t self e :
  coherent t -> tx_wf true wit t -> inputs t <> [] -> tx_to_data true wit false t = Some e ->
  reads (tx_from_data true wit false self) e (decoded_tx wit self t, true) /\
  tx_to_data true wit false (decoded_tx wit self t) = Some e.
Proof.
  intros Hc Hwf Hne He. split; [by apply tx_wire_reads|]. by rewrite decoded_tx_data.
Qed.
End Roundtrip.
