(* ===== verification/Block.v ===== *)
(** The block of [src/chain/block.cpp]: codec, cached sizes, subsidy, locator,
    merkle root, ordering and the [check] and [accept] rules. *)

From Stdlib Require Import String.
From S2P Require Import Prelude Limits Endian Reader Writer Codes Number Operation Script Chain Base16 Compact Header ChainState Transaction.

Record block := mk_block {
  bk_header : header;
  transactions : list transaction;
  bk_segregated_ : option bool;
  total_inputs_ : option Z;
  base_size_ : option Z;
  total_size_ : option Z;
  bk_state : option chain_state
}.

Definition new_block (h : header) (txs : list transaction) : block :=
  mk_block h txs None None None None None.

Definition default_block : block := new_block default_header [].

(** The copy constructor copies the header and the transactions with their
    constructors, which drop their caches. *)
Definition copy_block (b : block) : block :=
  mk_block (copy_header (bk_header b)) (map copy_transaction (transactions b)) None None None None
    (bk_state b).

(** [block::operator=(block&&)]: the cached sizes of the target are kept. *)
Definition assign_block (self other : block) : block :=
  mk_block (assign_header (bk_header self) (bk_header other)) (transactions other)
    (bk_segregated_ self) (total_inputs_ self) (base_size_ self) (total_size_ self) (bk_state other).

Definition block_eqb (a b : block) : bool :=
  header_eqb (bk_header a) (bk_header b) && list_eqb transaction_eqb (transactions a) (transactions b).

(** [block::reset]: the cached values are kept. *)
Definition reset_block (b : block) : block :=
  mk_block (reset_header (bk_header b)) [] (bk_segregated_ b) (total_inputs_ b) (base_size_ b)
    (total_size_ b) (bk_state b).

Definition block_is_valid (b : block) : bool :=
  negb (zlen (transactions b) =? 0) || header_is_valid (bk_header b).

Definition block_set_header (h : header) (b : block) : block :=
  mk_block (assign_header (bk_header b) h) (transactions b) (bk_segregated_ b) (total_inputs_ b)
    (base_size_ b) (total_size_ b) (bk_state b).

Definition set_transactions (txs : list transaction) (b : block) : block :=
  mk_block (bk_header b) txs None None None None (bk_state b).

(** Writing through the non-const [header()] and [transactions()]: nothing
    cached is dropped. *)
Definition write_to_header (f : header -> header) (b : block) : block :=
  mk_block (f (bk_header b)) (transactions b) (bk_segregated_ b) (total_inputs_ b) (base_size_ b)
    (total_size_ b) (bk_state b).
Definition write_to_transactions (f : list transaction -> list transaction) (b : block) : block :=
  mk_block (bk_header b) (f (transactions b)) (bk_segregated_ b) (total_inputs_ b) (base_size_ b)
    (total_size_ b) (bk_state b).

Definition block_strip_witness (b : block) : block :=
  mk_block (bk_header b) (map strip_witness (transactions b)) (Some false) (total_inputs_ b)
    (base_size_ b) None (bk_state b).

(** ** The genesis blocks *)

Definition litecoin_encoded_mainnet_genesis_block : string :=
  ("01000000" ++
   "0000000000000000000000000000000000000000000000000000000000000000" ++
   "d9ced4ed1130f7b7faad9be25323ffafa33232a17c3edf6cfd97bee6bafbdd97" ++
   "b9aa8e4e" ++
   "f0ff0f1e" ++
   "cd513f7c" ++
   "01" ++
   "01000000" ++
   "01" ++
   "0000000000000000000000000000000000000000000000000000000000000000ffffffff" ++
   "48" ++
   "04ffff001d0104404e592054696d65732030352f4f63742f32303131205374657665204a6f62732c204170706c65e280997320566973696f6e6172792c2044696573206174203536" ++
   "ffffffff" ++
   "01" ++
   "00f2052a01000000" ++
   "43" ++
   "41040184710fa689ad5023690c80f3a49c8f13f8d45b8c857fbcbc8bc4a8e4d3eb4b10f4d4604fa08dce601aaf0f470216fe1b51850b4acf21b179c45070ac7b03a9ac" ++
   "00000000")%string.

Definition litecoin_encoded_testnet_genesis_block : string :=
  ("01000000" ++
   "0000000000000000000000000000000000000000000000000000000000000000" ++
   "d9ced4ed1130f7b7faad9be25323ffafa33232a17c3edf6cfd97bee6bafbdd97" ++
   "f60ba158" ++
   "f0ff0f1e" ++
   "e1790400" ++
   "01" ++
   "01000000" ++
   "01" ++
   "0000000000000000000000000000000000000000000000000000000000000000ffffffff" ++
   "48" ++
   "04ffff001d0104404e592054696d65732030352f4f63742f32303131205374657665204a6f62732c204170706c65e280997320566973696f6e6172792c2044696573206174203536" ++
   "ffffffff" ++
   "01" ++
   "00f2052a01000000" ++
   "43" ++
   "41040184710fa689ad5023690c80f3a49c8f13f8d45b8c857fbcbc8bc4a8e4d3eb4b10f4d4604fa08dce601aaf0f470216fe1b51850b4acf21b179c45070ac7b03a9ac" ++
   "00000000")%string.

Definition encoded_mainnet_genesis_block : string :=
  ("01000000" ++
   "0000000000000000000000000000000000000000000000000000000000000000" ++
   "3ba3edfd7a7b12b27ac72c3e67768f617fc81bc3888a51323a9fb8aa4b1e5e4a" ++
   "29ab5f49" ++
   "ffff001d" ++
   "1dac2b7c" ++
   "01" ++
   "01000000" ++
   "01" ++
   "0000000000000000000000000000000000000000000000000000000000000000ffffffff" ++
   "4d" ++
   "04ffff001d0104455468652054696d65732030332f4a616e2f32303039204368616e63656c6c6f72206f6e206272696e6b206f66207365636f6e64206261696c6f757420666f722062616e6b73" ++
   "ffffffff" ++
   "01" ++
   "00f2052a01000000" ++
   "43" ++
   "4104678afdb0fe5548271967f1a67130b7105cd6a828e03909a67962e0ea1f61deb649f6bc3f4cef38c4f35504e51ec112de5c384df7ba0b8d578a4c702b6bf11d5fac" ++
   "00000000")%string.

Definition encoded_testnet_genesis_block : string :=
  ("01000000" ++
   "0000000000000000000000000000000000000000000000000000000000000000" ++
   "3ba3edfd7a7b12b27ac72c3e67768f617fc81bc3888a51323a9fb8aa4b1e5e4a" ++
   "dae5494d" ++
   "ffff001d" ++
   "1aa4ae18" ++
   "01" ++
   "01000000" ++
   "01" ++
   "0000000000000000000000000000000000000000000000000000000000000000ffffffff" ++
   "4d" ++
   "04ffff001d0104455468652054696d65732030332f4a616e2f32303039204368616e63656c6c6f72206f6e206272696e6b206f66207365636f6e64206261696c6f757420666f722062616e6b73" ++
   "ffffffff" ++
   "01" ++
   "00f2052a01000000" ++
   "43" ++
   "4104678afdb0fe5548271967f1a67130b7105cd6a828e03909a67962e0ea1f61deb649f6bc3f4cef38c4f35504e51ec112de5c384df7ba0b8d578a4c702b6bf11d5fac" ++
   "00000000")%string.

Definition encoded_regtest_genesis_block : string :=
  ("01000000" ++
   "0000000000000000000000000000000000000000000000000000000000000000" ++
   "3ba3edfd7a7b12b27ac72c3e67768f617fc81bc3888a51323a9fb8aa4b1e5e4a" ++
   "dae5494d" ++
   "ffff7f20" ++
   "02000000" ++
   "01" ++
   "01000000" ++
   "01" ++
   "0000000000000000000000000000000000000000000000000000000000000000ffffffff" ++
   "4d" ++
   "04ffff001d0104455468652054696d65732030332f4a616e2f32303039204368616e63656c6c6f72206f6e206272696e6b206f66207365636f6e64206261696c6f757420666f722062616e6b73" ++
   "ffffffff" ++
   "01" ++
   "00f2052a01000000" ++
   "43" ++
   "4104678afdb0fe5548271967f1a67130b7105cd6a828e03909a67962e0ea1f61deb649f6bc3f4cef38c4f35504e51ec112de5c384df7ba0b8d578a4c702b6bf11d5fac" ++
   "00000000")%string.


(** ** Locator *)

(** [step] is a [size_t] shifted by one from the tenth height on; 75 turns reach
    zero from any height of 64 bits. *)
Fixpoint locator_loop (fuel : nat) (height step : Z) (heights : list Z) : option (list Z) :=
  if height >? 0 then
    match fuel with
    | O => None
    | S fuel =>
        let step := if zlen heights >=? 10 then u64 (Z.shiftl step 1) else step in
        locator_loop fuel (floor_subtract 64 height step) step (heights ++ [height])
    end
  else Some (heights ++ [0]).

Definition locator_heights (top : Z) : option (list Z) := locator_loop 75 top 1 [].

Section Block.
Context `{Currency}.

(** What [genesis_mainnet], [genesis_testnet] and [genesis_regtest] decode. *)
Definition genesis_data (encoded : string) : list Z := default [] (decode_base16 (chars encoded)).

Definition mainnet_genesis_data : list Z :=
  genesis_data (if is_ltc then litecoin_encoded_mainnet_genesis_block
                else encoded_mainnet_genesis_block).
Definition testnet_genesis_data : list Z :=
  genesis_data (if is_ltc then litecoin_encoded_testnet_genesis_block
                else encoded_testnet_genesis_block).
Definition regtest_genesis_data : list Z := genesis_data encoded_regtest_genesis_block.

(** ** Subsidy *)

Definition subsidy (height : Z) (retarget : bool) : Z :=
  let overflow := 64 in
  let halvings := height / subsidy_interval retarget in
  Z.shiftr initial_block_subsidy_satoshi (if halvings >=? overflow then 0 else halvings).

(** ** Codec *)

Definition block_to_data (wit : bool) (b : block) : option (list Z) :=
  let wit := if is_bch then false else wit in
  match all_some (map (tx_to_data true wit false) (transactions b)) with
  | Some body =>
      Some (header_to_data true (bk_header b) ++
            write_size_little_endian (zlen (transactions b)) ++ body)
  | None => None
  end.

(** [block::to_data(bool witness)]: the witness flag is not passed on. *)
Definition block_to_data_chunk (wit : bool) (b : block) : option (list Z) := block_to_data false b.

Definition sum_sizes (wit : bool) (total : option Z) (t : transaction) : option Z :=
  match total with
  | Some total => safe_add 64 total (tx_serialized_size true wit false t)
  | None => None
  end.

(** The size is cached per witness flag; [None]: the sum throws. *)
Definition block_serialized_size (wit : bool) (b : block) : option Z * block :=
  let wit := if is_bch then false else wit in
  match (if wit then total_size_ b else base_size_ b) with
  | Some value => (Some value, b)
  | None =>
      match fold_left (sum_sizes wit) (transactions b) (Some 0) with
      | None => (None, b)
      | Some sum =>
          let value := u64 (header_serialized_size true + variable_uint_size (zlen (transactions b)) + sum) in
          (Some value,
           mk_block (bk_header b) (transactions b) (bk_segregated_ b) (total_inputs_ b)
             (if wit then base_size_ b else Some value) (if wit then Some value else total_size_ b)
             (bk_state b))
      end
  end.

Section Decode.
Context {R : Type} `{Reader R}.

(** Stops at the first transaction that fails; the rest stay default. *)
Fixpoint read_transactions (wit : bool) (count : nat) (acc : list transaction)
    : rd R (list transaction) :=
  match count with
  | O => rret acc
  | S count =>
      p <~ tx_from_data true wit false default_transaction ;;
      if snd p : bool then read_transactions wit count (acc ++ [fst p])
      else rret (acc ++ [fst p] ++ repeat default_transaction count)
  end.

Definition block_from_data (wit : bool) (self : block) : rd R (block * bool) :=
  let wit := if is_bch then false else wit in
  let self := reset_block self in
  h <~ header_from_data true (bk_header self) ;;
  let with_header := mk_block (fst h) [] (bk_segregated_ self) (total_inputs_ self)
                       (base_size_ self) (total_size_ self) (bk_state self) in
  if negb (snd h) then rret (with_header, false)
  else
    count <~ read_size_little_endian ;;
    txs <~ (if count >? get_max_block_size then rd_invalidate ;;; rret []
            else read_transactions wit (Z.to_nat count) []) ;;
    let b := mk_block (fst h) txs (bk_segregated_ self) (total_inputs_ self) (base_size_ self)
               (total_size_ self) (bk_state self) in
    let b := if wit then b else block_strip_witness b in
    rd_check b (reset_block b).
End Decode.

(** ** Counts *)

Definition block_signature_operations (bip16 bip141 : bool) (b : block) : Z :=
  let bip141 := if is_bch then false else bip141 in
  fold_left (fun total t => ceiling_add 64 total (tx_signature_operations bip16 bip141 t))
    (transactions b) 0.

Definition sum_counts (total : option Z) (t : transaction) : option Z :=
  match total with
  | Some total => safe_add 64 total (zlen (inputs t))
  | None => None
  end.

(** The cache does not distinguish the argument. *)
Definition total_inputs (with_coinbase : bool) (b : block) : option Z * block :=
  match total_inputs_ b with
  | Some value => (Some value, b)
  | None =>
      let offset := if with_coinbase then 0%nat else 1%nat in
      match fold_left sum_counts (drop offset (transactions b)) (Some 0) with
      | None => (None, b)
      | Some value =>
          (Some value, mk_block (bk_header b) (transactions b) (bk_segregated_ b) (Some value)
                         (base_size_ b) (total_size_ b) (bk_state b))
      end
  end.

Definition non_coinbase_input_count (b : block) : Z :=
  fold_left (fun sum t => u64 (sum + zlen (inputs t))) (drop 1 (transactions b)) 0.

Definition block_weight (b : block) : option Z :=
  match fst (block_serialized_size false b), fst (block_serialized_size true b) with
  | Some base, Some total => Some (base_size_contribution * base + total_size_contribution * total)
  | _, _ => None
  end.

Definition is_extra_coinbases (b : block) : bool :=
  match transactions b with [] => false | _ :: txs => existsb is_coinbase txs end.

(** [std::all_of]: stops at the first transaction that is not final. *)
Fixpoint all_final (height block_time : Z) (txs : list transaction) : option bool :=
  match txs with
  | [] => Some true
  | t :: txs =>
      match is_final height block_time t with
      | None => None
      | Some false => Some false
      | Some true => all_final height block_time txs
      end
  end.

Definition block_is_final (height block_time : Z) (b : block) : option bool :=
  all_final height block_time (transactions b).

Definition block_is_segregated (b : block) : bool :=
  if is_bch then false
  else match bk_segregated_ b with
       | Some value => value
       | None => existsb is_segregated (transactions b)
       end.

Definition block_is_internal_double_spend (b : block) : bool :=
  match transactions b with
  | [] => false
  | _ :: txs => negb (is_distinct_points (concat (map previous_outputs txs)))
  end.

(** ** Value *)

Definition block_fees (b : block) : Z :=
  fold_left (fun total t => ceiling_add 64 total (fees t)) (transactions b) 0.

Definition claim (b : block) : Z :=
  match transactions b with [] => 0 | t :: _ => fst (total_output_value t) end.

(** [subsidy(height)]: the interval is always the retargeting one. *)
Definition reward (height : Z) (b : block) : Z := ceiling_add 64 (block_fees b) (subsidy height true).

Definition is_valid_coinbase_claim (height : Z) (b : block) : bool := claim b <=? reward height b.

Definition is_valid_coinbase_script (height : Z) (b : block) : bool :=
  match transactions b with
  | t :: _ =>
      match inputs t with
      | i :: _ => is_coinbase_pattern (operations (in_script i)) height
      | [] => false
      end
  | [] => false
  end.
End Block.

Section BlockHash.
Context `{Currency} `{Crypto}.

Definition to_hashes (wit : bool) (b : block) : list (list Z) :=
  map (fun t => fst (tx_hash (if is_bch then false else wit) t)) (transactions b).

Definition block_hash (b : block) : list Z := fst (header_hash (bk_header b)).

(** ** Merkle root *)

Fixpoint merkle_pairs (hashes : list (list Z)) : list (list Z) :=
  match hashes with
  | x :: y :: rest => bitcoin_hash (x ++ y) :: merkle_pairs rest
  | _ => []
  end.

(** The duplication of the last hash of an odd list. *)
Definition merkle_even (hashes : list (list Z)) : list (list Z) :=
  if Nat.odd (length hashes) then hashes ++ [List.last hashes []] else hashes.

(** [while (merkle.size() > 1)]; the list is halved, so its length is fuel. *)
Fixpoint merkle_loop (fuel : nat) (hashes : list (list Z)) : list Z :=
  match hashes with
  | [] => null_hash
  | [hash] => hash
  | _ =>
      match fuel with
      | O => null_hash
      | S fuel => merkle_loop fuel (merkle_pairs (merkle_even hashes))
      end
  end.

Definition merkle_root (hashes : list (list Z)) : list Z := merkle_loop (length hashes) hashes.

Definition generate_merkle_root (wit : bool) (b : block) : list Z :=
  match transactions b with
  | [] => null_hash
  | _ => merkle_root (to_hashes (if is_bch then false else wit) b)
  end.

Definition is_valid_merkle_root (b : block) : bool :=
  bool_decide (generate_merkle_root false b = merkle (bk_header b)).

(** ** Order *)

Definition is_distinct_transaction_set (b : block) : bool :=
  is_unique (fun x y => bool_decide (x = y))
    (std_sort bytes_ltb (map (fun t => fst (tx_hash false t)) (transactions b))).

(** [hashes] is the set of the unordered map; transactions come in reverse. *)
Fixpoint forward_loop (hashes : list (list Z)) (reversed : list transaction) : bool :=
  match reversed with
  | [] => false
  | t :: rest =>
      let hashes := fst (tx_hash false t) :: hashes in
      if existsb (fun i => existsb (fun h => bool_decide (pt_hash (op_point (previous_output i)) = h)) hashes)
           (inputs t) then true
      else forward_loop hashes rest
  end.

Definition is_forward_reference (b : block) : bool := forward_loop [] (rev (transactions b)).

(** The comparison the code means: its [rbegin] and [rend] are taken of two
    temporaries, copies of the same hash. *)
Definition hash_cmp (a b : transaction) : bool :=
  bytes_ltb (rev (fst (tx_hash false a))) (rev (fst (tx_hash false b))).

(** [std::is_sorted] *)
Fixpoint is_sorted_by {A} (lt : A -> A -> bool) (l : list A) : bool :=
  match l with
  | x :: ((y :: _) as rest) => negb (lt y x) && is_sorted_by lt rest
  | _ => true
  end.

Definition is_canonical_ordered (b : block) : bool := is_sorted_by hash_cmp (drop 1 (transactions b)).

(** ** Witness commitment *)

Fixpoint find_committed (outs : list output) : option (list Z) :=
  match outs with
  | [] => None
  | o :: outs =>
      match extract_committed_hash o with
      | Some committed => Some committed
      | None => find_committed outs
      end
  end.

Definition is_valid_witness_commitment (b : block) : bool :=
  if is_bch then false
  else
    match transactions b with
    | [] => false
    | coinbase :: _ =>
        match inputs coinbase with
        | [] => false
        | i :: _ =>
            match (match extract_reserved_hash i with
                   | Some held =>
                       match find_committed (rev (outputs coinbase)) with
                       | Some committed => Some (held, committed)
                       | None => None
                       end
                   | None => None
                   end) with
            | Some (held, committed) =>
                bool_decide (committed = bitcoin_hash (generate_merkle_root true b ++ held))
            | None => negb (block_is_segregated b)
            end
        end
    end.

(** ** Validation *)

(** The loops over transactions: the first error is returned. *)
Fixpoint first_error (f : transaction -> option error.code) (txs : list transaction)
    : option error.code :=
  match txs with
  | [] => Some error.success
  | t :: txs =>
      match f t with
      | None => None
      | Some error.success => first_error f txs
      | Some ec => Some ec
      end
  end.

Definition check_transactions (b : block) : option error.code :=
  first_error (fun t => Some (check false true t)) (transactions b).

Definition accept_transactions (state : chain_state) (b : block) : option error.code :=
  first_error (accept_state state false) (transactions b).

(** [header_.check()] has the default argument, no retargeting. *)
Definition block_check (static_limit : option Z) (now : Z) (b : block) : option error.code :=
  match header_check static_limit now false (bk_header b) with
  | error.success =>
      match fst (block_serialized_size false b) with
      | None => None
      | Some size =>
          if size >? get_max_block_size then Some error.block_size_limit
          else match transactions b with
               | [] => Some error.empty_block
               | t :: _ =>
                   if negb (is_coinbase t) then Some error.first_not_coinbase
                   else if is_extra_coinbases b then Some error.extra_coinbases
                   else if negb is_bch && is_forward_reference b then Some error.forward_reference
                   else if block_is_internal_double_spend b then Some error.block_internal_double_spend
                   else if negb (is_valid_merkle_root b) then Some error.merkle_mismatch
                   else check_transactions b
               end
      end
  | ec => Some ec
  end.

Definition max_block_size_old : Z := 8000000.

(** [block::accept(const chain_state&, bool)] *)
Definition block_accept_state (state : chain_state) (with_transactions : bool) (b : block)
    : option error.code :=
  let bip16 := state_is_enabled state rule_fork.bip16_rule in
  let bip34 := state_is_enabled state rule_fork.bip34_rule in
  let bip113 := state_is_enabled state rule_fork.bip113_rule in
  let bip141 := if is_bch then false else state_is_enabled state rule_fork.bip141_rule in
  let block_time := if bip113 then cs_median_time_past state else hd_timestamp (bk_header b) in
  match fst (block_serialized_size false b) with
  | None => None
  | Some size =>
      let allowed_sigops := get_allowed_sigops size in
      match header_accept state (bk_header b) with
      | error.success =>
          if is_bch && negb (is_monolith_enabled state) && (size >? max_block_size_old) then
            Some error.block_size_limit
          else if is_under_checkpoint state then Some error.success
          else if is_bch && is_magnetic_anomaly_enabled state && negb (is_canonical_ordered b) then
            Some error.non_canonical_ordered
          else if is_bch && negb (is_magnetic_anomaly_enabled state) && is_forward_reference b then
            Some error.forward_reference
          else
            match (if bip141 then block_weight b else Some 0) with
            | None => None
            | Some weight =>
                if bip141 && (weight >? max_block_weight) then Some error.block_weight_limit
                else if bip34 && negb (is_valid_coinbase_script (state_height state) b) then
                  Some error.coinbase_height_mismatch
                else if negb (is_valid_coinbase_claim (state_height state) b) then
                  Some error.coinbase_value_limit
                else
                  match block_is_final (state_height state) block_time b with
                  | None => None
                  | Some final =>
                      if negb final then Some error.block_non_final
                      else if bip141 && negb (is_valid_witness_commitment b) then
                        Some error.invalid_witness_commitment
                      else if with_transactions &&
                              (block_signature_operations bip16 bip141 b >? allowed_sigops) then
                        Some error.block_embedded_sigop_limit
                      else if with_transactions then accept_transactions state b
                      else Some error.success
                  end
            end
      | ec => Some ec
      end
  end.

Definition block_accept (with_transactions : bool) (b : block) : option error.code :=
  match bk_state b with
  | Some state => block_accept_state state with_transactions b
  | None => Some error.operation_failed
  end.
End BlockHash.
