(* ===== verification/BlockRules.v ===== *)
(** What the definitions of [Block] guarantee: the block codec, the locator,
    the subsidy schedule, the merkle tree, the ordering rules and the limits a
    checked and accepted block satisfies. *)

From S2P Require Import Prelude Limits Endian Reader Writer Codes Number Operation Script Chain Base16 Compact Header ChainState Transaction TxCodec TxRules Block.

(** ** Locator *)

Definition descending : list Z -> Prop := StronglySorted Z.gt.

Lemma descending_snoc l x : descending l -> Forall (fun y => y > x) l -> descending (l ++ [x]).
Proof.
  unfold descending. induction 1 as [|y l Hs IH Hy]; intros Hx; simpl.
  { repeat constructor. }
  apply Forall_cons in Hx as [Hyx Hx]. constructor; [by apply IH|].
  apply Forall_app. split; [done|]. by repeat constructor.
Qed.

(** The state before a turn that has pushed [n] heights: single steps for the
    first ten, doubled steps from then on. *)
Definition locator_inv (n height step : Z) : Prop :=
  if n <? 10 then step = 1 /\ height + n <= 2 ^ 64 - 1
  else step = 2 ^ (n - 10) /\ (height = 0 \/ height + 2 ^ (n - 9) <= 2 ^ 64 - 9).

Definition next_step (n step : Z) : Z := if n >=? 10 then u64 (Z.shiftl step 1) else step.

Lemma locator_inv_step n height step :
  0 <= n -> 0 < height -> locator_inv n height step ->
  n <= 72 /\ 1 <= next_step n step /\
  locator_inv (n + 1) (floor_subtract 64 height (next_step n step)) (next_step n step).
Proof.
  intros Hn Hh Hi. unfold locator_inv, next_step in *. rewrite floor_subtract_max, Z.geb_leb.
  destruct (Z.ltb_spec n 10).
  - destruct Hi as [-> Hi]. destruct (Z.leb_spec 10 n); [lia|]. split; [lia|]. split; [lia|].
    destruct (Z.ltb_spec (n + 1) 10); [lia|]. replace n with 9 in * by lia. simpl. split; [done|]. lia.
  - destruct Hi as [-> Hi]. destruct (Z.leb_spec 10 n); [|lia]. destruct (Z.ltb_spec (n + 1) 10); [lia|].
    rewrite Z.shiftl_mul_pow2 by lia. change (2 ^ 1) with 2.
    assert (E : 2 ^ (n - 10) * 2 = 2 ^ (n - 9))
      by (replace (n - 9) with (Z.succ (n - 10)) by lia; rewrite Z.pow_succ_r by lia; lia).
    rewrite E. pose proof (Z.pow_pos_nonneg 2 (n - 9) ltac:(lia) ltac:(lia)) as Hp.
    assert (Hlt : 2 ^ (n - 9) < 2 ^ 64) by lia. apply Z.pow_lt_mono_r_iff in Hlt; [|lia..].
    unfold u64. rewrite wrap_small by (unfold in_width; lia).
    replace (n + 1 - 10) with (n - 9) by lia. split; [lia|]. split; [lia|]. split; [done|].
    replace (n + 1 - 9) with (Z.succ (n - 9)) by lia. rewrite Z.pow_succ_r by lia. lia.
Qed.

Lemma locator_loop_spec fuel height step heights :
  0 <= height -> zlen heights + Z.of_nat fuel = 75 -> zlen heights <= 73 ->
  locator_inv (zlen heights) height step ->
  descending heights -> Forall (fun y => y > height) heights ->
  exists rest, locator_loop fuel height step heights = Some (heights ++ rest ++ [0]) /\
    descending (heights ++ rest ++ [0]) /\ zlen (heights ++ rest ++ [0]) <= 75 /\
    (0 < height -> hd 0 rest = height).
Proof.
  revert height step heights. induction fuel as [|fuel IH]; intros height step heights Hh Hf Hn Hi Hd Hgt;
    [lia|]. cbn [locator_loop]. rewrite Z.gtb_ltb. destruct (Z.ltb_spec 0 height) as [Hpos|Hz].
  2:{ exists []. simpl. split_and!; [done| | |lia].
      - apply descending_snoc; [done|]. by replace 0 with height by lia.
      - rewrite zlen_app. change (zlen [0]) with 1. lia. }
  destruct (locator_inv_step _ _ _ (zlen_nonneg heights) Hpos Hi) as (H72 & Hs & Hi').
  cbv zeta. fold (next_step (zlen heights) step).
  set (step' := next_step (zlen heights) step) in *. rewrite floor_subtract_max in *.
  destruct (IH (Z.max 0 (height - step')) step' (heights ++ [height])) as (rest & -> & Hd' & Hl & _).
  - lia.
  - rewrite zlen_app. change (zlen [height]) with 1. lia.
  - rewrite zlen_app. change (zlen [height]) with 1. lia.
  - rewrite zlen_app. exact Hi'.
  - by apply descending_snoc.
  - apply Forall_app. split; [|repeat constructor; lia].
    eapply Forall_impl; [exact Hgt|]. simpl. intros; lia.
  - exists (height :: rest). simpl. rewrite <- !app_assoc in *. simpl in *. done.
Qed.

(** C29: The computation of the locator ends for every height of 64 bits with
    a strictly descending list that starts at the top, ends at the genesis
    height and has at most 75 entries. *)
Theorem locator_heights_spec top :
  0 <= top <= 2 ^ 64 - 1 ->
  exists rest, locator_heights top = Some (rest ++ [0]) /\ descending (rest ++ [0]) /\
    zlen (rest ++ [0]) <= 75 /\ (0 < top -> hd 0 rest = top).
Proof.
  intros Ht. apply (locator_loop_spec 75 top 1 []); try done; try lia.
  - split; [done|]. change (zlen []) with 0. lia.
  - constructor.
Qed.

(** ** Subsidy *)

(** The subsidy at a height is the initial one halved once per interval,
    rounded down, for the first 64 intervals; from the 64th halving on the
    shift is dropped and the full initial subsidy is paid again. *)
Lemma subsidy_schedule `{Currency} height retarget :
  0 <= height ->
  let halvings := height / subsidy_interval retarget in
  subsidy height retarget =
    if halvings <? 64 then initial_block_subsidy_satoshi / 2 ^ halvings
    else initial_block_subsidy_satoshi.
Proof.
  intros Hh halvings. unfold subsidy. fold halvings. rewrite Z.geb_leb.
  destruct (Z.leb_spec 64 halvings), (Z.ltb_spec halvings 64); try lia; [done|].
  apply Z.shiftr_div_pow2, Z.div_pos; [done|].
  unfold subsidy_interval, retarget_subsidy_interval. destruct retarget, is_ltc; by vm_compute.
Qed.

(** ** Merkle tree *)

Section Merkle.
Context `{Crypto}.

(** Induction two elements at a time. *)
Lemma pairs_ind {A} (P : list A -> Prop) :
  P [] -> (forall x, P [x]) -> (forall x y l, P l -> P (x :: y :: l)) -> forall l, P l.
Proof. intros H0 H1 H2. fix IH 1. intros [|x [|y l]]; [exact H0|apply H1|apply H2, IH]. Qed.

Lemma merkle_pairs_app l r :
  Nat.even (length l) = true -> merkle_pairs (l ++ r) = merkle_pairs l ++ merkle_pairs r.
Proof.
  induction l as [|x|x y l IH] using pairs_ind; intros Hl; [done..|]. simpl. by rewrite IH.
Qed.

Lemma length_merkle_pairs l : length (merkle_pairs l) = Nat.div2 (length l).
Proof. induction l as [|x|x y l IH] using pairs_ind; simpl; [done..|]. by rewrite IH. Qed.

Lemma length_merkle_even l : Nat.even (length (merkle_even l)) = true.
Proof.
  unfold merkle_even. destruct (Nat.odd (length l)) eqn:E.
  - rewrite length_app, Nat.add_1_r, Nat.even_succ. done.
  - by rewrite <- Nat.negb_odd, E.
Qed.

Lemma merkle_step_length l :
  (2 <= length l)%nat -> (1 <= length (merkle_pairs (merkle_even l)) < length l)%nat.
Proof.
  intros Hl. rewrite length_merkle_pairs. unfold merkle_even.
  destruct (Nat.odd (length l)) eqn:E; rewrite ?length_app, Nat.div2_div; simpl length.
  - apply Nat.odd_spec in E as [k E]. rewrite E in *.
    replace (2 * k + 1 + 1)%nat with ((k + 1) * 2)%nat by lia. rewrite Nat.div_mul by lia. lia.
  - split; [apply Nat.div_le_lower_bound; lia|apply Nat.div_lt; lia].
Qed.

(** The length is enough fuel. *)
Lemma merkle_loop_fuel f g l :
  (length l <= f)%nat -> (length l <= g)%nat -> merkle_loop f l = merkle_loop g l.
Proof.
  revert g l. induction f as [|f IH]; intros g l Hf Hg.
  { destruct l; [by destruct g|simpl in Hf; lia]. }
  destruct l as [|x [|y l]]; [by destruct g..|]. destruct g as [|g]; [simpl in Hg; lia|].
  cbn [merkle_loop]. pose proof (merkle_step_length (x :: y :: l) ltac:(simpl; lia)) as Hs.
  simpl length in *. apply IH; lia.
Qed.

Lemma merkle_root_step l :
  (2 <= length l)%nat -> merkle_root l = merkle_root (merkle_pairs (merkle_even l)).
Proof.
  intros Hl. pose proof (merkle_step_length l Hl) as Hs. unfold merkle_root at 1.
  destruct l as [|x [|y l]]; [simpl in Hl; lia..|]. set (l' := x :: y :: l) in *.
  transitivity (merkle_loop (S (length l)) (merkle_pairs (merkle_even l'))); [reflexivity|].
  apply merkle_loop_fuel; [simpl in *; lia|done].
Qed.

Lemma merkle_even_id l : Nat.even (length l) = true -> merkle_even l = l.
Proof. intros Hl. unfold merkle_even. by rewrite <- Nat.negb_even, Hl. Qed.

(** The iterative computation of the merkle root is the binary tree: the
    root of two halves of equal size, a power of two, is the hash of the roots
    of the halves. *)
Lemma merkle_root_tree k l r :
  length l = (2 ^ k)%nat -> length r = (2 ^ k)%nat ->
  merkle_root (l ++ r) = bitcoin_hash (merkle_root l ++ merkle_root r).
Proof.
  revert l r. induction k as [|k IH]; intros l r Hl Hr.
  { destruct l as [|x [|]]; try done. by destruct r as [|y [|]]. }
  assert (He : forall m : list (list Z), length m = (2 ^ S k)%nat ->
            Nat.even (length m) = true /\ (2 <= length m)%nat /\ length (merkle_pairs m) = (2 ^ k)%nat).
  { intros m Hm. rewrite length_merkle_pairs, Hm. change (2 ^ S k)%nat with (2 * 2 ^ k)%nat.
    rewrite Nat.even_mul, Nat.div2_double. pose proof (Nat.pow_nonzero 2 k ltac:(lia)). simpl. lia. }
  destruct (He l Hl) as (El & Hl2 & Hlp), (He r Hr) as (Er & Hr2 & Hrp).
  rewrite (merkle_root_step l), (merkle_root_step r), (merkle_root_step (l ++ r))
    by (rewrite ?length_app; lia).
  rewrite !merkle_even_id by (rewrite ?length_app, ?Nat.even_add, ?El, ?Er; done).
  rewrite merkle_pairs_app by done. by apply IH.
Qed.

(** A list of odd length above one has the same merkle root as the list
    with its last element repeated. *)
Lemma merkle_root_odd l :
  (2 <= length l)%nat -> Nat.odd (length l) = true ->
  merkle_root (l ++ [List.last l []]) = merkle_root l.
Proof.
  intros Hl Ho. rewrite (merkle_root_step l), (merkle_root_step (l ++ _)) by (rewrite ?length_app; lia).
  unfold merkle_even at 2. rewrite Ho. rewrite merkle_even_id; [done|].
  by rewrite length_app, Nat.add_1_r, Nat.even_succ.
Qed.

(** C28: The iterative computation of the merkle root is the binary tree: the
    root of two halves of equal size, a power of two, is the hash of the roots
    of the halves; and a list of odd length above one has the same root as the
    list with its last element repeated. *)
Theorem merkle_root_shape k l r m :
  length l = (2 ^ k)%nat -> length r = (2 ^ k)%nat -> (2 <= length m)%nat -> Nat.odd (length m) = true ->
  merkle_root (l ++ r) = bitcoin_hash (merkle_root l ++ merkle_root r) /\
  merkle_root (m ++ [List.last m []]) = merkle_root m.
Proof. intros Hl Hr Hm Ho. split; [by apply (merkle_root_tree k)|by apply merkle_root_odd]. Qed.
End Merkle.

(** ** Order of transactions *)

Section Order.
Context `{Currency} `{Crypto}.

Definition tx_id (t : transaction) : list Z := fst (tx_hash false t).

Definition spends_from (t : transaction) (h : list Z) : Prop :=
  exists i, In i (inputs t) /\ pt_hash (op_point (previous_output i)) = h.

Lemma forward_test hashes t :
  existsb (fun i => existsb (fun h => bool_decide (pt_hash (op_point (previous_output i)) = h)) hashes)
    (inputs t) = true <-> exists h, In h hashes /\ spends_from t h.
Proof.
  rewrite existsb_exists. split.
  - intros (i & Hi & Hx). apply existsb_exists in Hx as (h & Hh & Heq).
    apply bool_decide_eq_true in Heq. exists h. split; [done|]. by exists i.
  - intros (h & Hh & i & Hi & Heq). exists i. split; [done|]. apply existsb_exists.
    exists h. split; [done|]. by apply bool_decide_eq_true.
Qed.

Lemma forward_loop_spec rev_txs hashes :
  forward_loop hashes rev_txs = true <->
  exists after t before, rev_txs = after ++ t :: before /\
    exists h, (In h hashes \/ h = tx_id t \/ In h (map tx_id after)) /\ spends_from t h.
Proof.
  revert hashes. induction rev_txs as [|t txs IH]; intros hashes; cbn [forward_loop].
  { split; [done|]. intros (after & t & before & E & _). by destruct after. }
  fold (tx_id t). destruct (existsb _ (inputs t)) eqn:E.
  - split; [intros _|done]. apply forward_test in E as (h & Hh & Hs).
    exists [], t, txs. split; [done|]. exists h. split; [|done]. simpl in Hh. naive_solver.
  - rewrite IH. split.
    + intros (after & u & before & -> & h & Hh & Hs). exists (t :: after), u, before. split; [done|].
      exists h. split; [|done]. simpl in *. naive_solver.
    + intros ([|u after] & v & before & Eq & h & Hh & Hs); simplify_eq/=.
      * exfalso. assert (Hc : true = false); [|done]. rewrite <- E. symmetry. apply (forward_test (tx_id v :: hashes) v).
        exists h. split; [|done]. simpl. naive_solver.
      * exists after, v, before. split; [done|]. exists h. split; [|done]. simpl in *. naive_solver.
Qed.

(** The reverse scan reports a forward reference exactly when some
    transaction of the block spends an output of itself or of a later
    transaction. *)
Lemma is_forward_reference_spec b :
  is_forward_reference b = true <->
  exists before t after, transactions b = before ++ t :: after /\
    exists u, In u (t :: after) /\ spends_from t (tx_id u).
Proof.
  unfold is_forward_reference. rewrite forward_loop_spec. split.
  - intros (after & t & before & E & h & Hh & Hs). exists (rev before), t, (rev after). split.
    + rewrite <- (rev_involutive (transactions b)), E, rev_app_distr. simpl. by rewrite <- app_assoc.
    + destruct Hh as [[]|[->|Hh]]; [exists t; split; [by left|done]|].
      apply in_map_iff in Hh as (u & <- & Hu). exists u. split; [right; by apply in_rev in Hu|done].
  - intros (before & t & after & E & u & Hu & Hs). exists (rev after), t, (rev before). split.
    + rewrite E, rev_app_distr. simpl. by rewrite <- app_assoc.
    + exists (tx_id u). split; [|done]. right. destruct Hu as [->|Hu]; [by left|right].
      apply in_map. by apply in_rev in Hu || rewrite <- in_rev.
Qed.

(** The sort based test for double spends within a block finds one
    exactly when two inputs of its transactions, the first transaction left
    aside, name the same output. *)
Lemma block_is_internal_double_spend_spec b :
  block_is_internal_double_spend b = false <->
  NoDup (map point_key (concat (map previous_outputs (drop 1 (transactions b))))).
Proof.
  unfold block_is_internal_double_spend, is_distinct_points.
  destruct (transactions b) as [|t txs]; simpl; [split; [constructor|done]|].
  rewrite drop_0, negb_false_iff. apply points_distinct.
Qed.

(** C27: The sort based tests find a double spend within a transaction, or
    within a block with its first transaction left aside, exactly when two
    inputs name the same output; the reverse scan reports a forward reference
    exactly when some transaction of the block spends an output of itself or
    of a later one. *)
Theorem spend_tests t b :
  (is_internal_double_spend t = false <->
   NoDup (map (fun i => point_key (op_point (previous_output i))) (inputs t))) /\
  (block_is_internal_double_spend b = false <->
   NoDup (map point_key (concat (map previous_outputs (drop 1 (transactions b)))))) /\
  (is_forward_reference b = true <->
   exists before t after, transactions b = before ++ t :: after /\
     exists u, In u (t :: after) /\ spends_from t (tx_id u)).
Proof.
  split_and!; [apply is_internal_double_spend_spec|apply block_is_internal_double_spend_spec|
    apply is_forward_reference_spec].
Qed.
End Order.

(** ** Validated blocks *)

Section Validated.
Context `{Currency} `{Crypto}.

Lemma first_error_success f txs :
  first_error f txs = Some error.success <-> Forall (fun t => f t = Some error.success) txs.
Proof.
  induction txs as [|t txs IH]; simpl; [split; [constructor|done]|].
  rewrite Forall_cons, <- IH. destruct (f t) as [[]|]; split; (done || by intros [? ?]).
Qed.

Lemma block_check_success st now b :
  block_check st now b = Some error.success ->
  header_check st now false (bk_header b) = error.success /\
  (exists coinbase txs, transactions b = coinbase :: txs /\ is_coinbase coinbase = true /\
     Forall (fun t => is_coinbase t = false) txs) /\
  block_is_internal_double_spend b = false /\
  generate_merkle_root false b = merkle (bk_header b) /\
  Forall (fun t => check false true t = error.success) (transactions b).
Proof.
  unfold block_check. destruct (header_check st now false (bk_header b)); try done. intros Hb.
  destruct (fst (block_serialized_size false b)) as [size|]; [|done].
  case_if_in Hb; [done|]. destruct (transactions b) as [|t txs] eqn:Et; [done|].
  do 5 (case_if_in Hb; [done|]). split; [done|]. split.
  - exists t, txs. split; [done|]. split; [done|]. unfold is_extra_coinbases in *. rewrite Et in *.
    apply Forall_forall. intros u Hu. apply not_true_iff_false. intros Hc.
    match goal with H : existsb is_coinbase txs = false |- _ => rewrite <- not_true_iff_false in H; apply H end.
    apply existsb_exists. exists u. split; [by apply list_elem_of_In|done].
  - split; [done|]. split.
    + unfold is_valid_merkle_root in *. by eapply bool_decide_eq_true_1.
    + unfold check_transactions in Hb. rewrite Et in Hb. apply first_error_success in Hb.
      eapply Forall_impl; [exact Hb|]. intros u Hu. by apply (inj Some) in Hu.
Qed.

Lemma block_accept_success state b :
  block_accept_state state true b = Some error.success -> is_under_checkpoint state = false ->
  header_accept state (bk_header b) = error.success /\
  claim b <= reward (state_height state) b /\
  Forall (fun t => accept_state state false t = Some error.success) (transactions b).
Proof.
  unfold block_accept_state. intros Ha Hu.
  destruct (fst (block_serialized_size false b)) as [size|]; [|done].
  destruct (header_accept state (bk_header b)); try done.
  case_if_in Ha; [done|]. rewrite Hu in Ha. do 2 (case_if_in Ha; [done|]).
  destruct (if (if is_bch then false else _) then _ else _) as [w|]; [|done].
  do 3 (case_if_in Ha; [done|]). destruct (block_is_final _ _ b) as [final|]; [|done].
  do 3 (case_if_in Ha; [done|]). unfold is_valid_coinbase_claim in *. bool_to_prop.
  split; [done|]. split; [done|]. by apply first_error_success.
Qed.

(** ** Money supply *)

Definition tx_fee (t : transaction) : Z := Z.max 0 (sum_inputs (inputs t) - sum_outputs (outputs t)).

Lemma fees_bound t : coherent t -> values_ok t -> 0 <= fees t <= sum_inputs (inputs t).
Proof.
  intros Hc [Ho Hi]. unfold fees. rewrite floor_subtract_max.
  rewrite (proj1 (total_output_value_computed t Hc)), (proj1 (total_input_value_computed t Hc)).
  rewrite sum_output_value_saturates, sum_input_value_saturates by done.
  assert (0 <= sum_inputs (inputs t)) by (clear -Hi; induction Hi; simpl; lia).
  assert (0 <= sum_outputs (outputs t)) by (clear -Ho; induction Ho; simpl; lia). lia.
Qed.

(** The fee of a transaction whose outputs are below the money limit. *)
Lemma fees_exact t retarget :
  coherent t -> values_ok t -> sum_outputs (outputs t) <= max_money retarget ->
  fees t <= tx_fee t.
Proof.
  intros Hc [Ho Hi] Hm. unfold fees, tx_fee. rewrite floor_subtract_max.
  rewrite (proj1 (total_output_value_computed t Hc)), (proj1 (total_input_value_computed t Hc)).
  rewrite sum_output_value_saturates, sum_input_value_saturates by done.
  pose proof (max_money_exact retarget) as [_ Hmm]. unfold umax. lia.
Qed.

Lemma block_fees_le txs acc (g : transaction -> Z) :
  Forall (fun t => 0 <= fees t <= g t) txs -> 0 <= acc ->
  fold_left (fun total t => ceiling_add 64 total (fees t)) txs acc <=
  acc + fold_right (fun t s => g t + s) 0 txs.
Proof.
  intros Ht. revert acc. induction Ht as [|t txs Hb _ IH]; intros acc Ha; simpl; [lia|].
  rewrite ceiling_add_min. unfold umax.
  destruct (Z.le_gt_cases (acc + fees t) (2 ^ 64 - 1)).
  - rewrite Z.min_r by lia. specialize (IH (acc + fees t) ltac:(lia)). lia.
  - rewrite Z.min_l by lia. specialize (IH (2 ^ 64 - 1) ltac:(lia)). lia.
Qed.

Definition sum_fees (txs : list transaction) : Z := fold_right (fun t s => tx_fee t + s) 0 txs.

(** C1: A block that passes check and accept, outside checkpoint coverage,
    pays its coinbase at most the subsidy of its height plus the fees of its
    transactions: no block creates more money than the schedule allows. *)
Theorem block_conserves st now state b coinbase txs :
  block_check st now b = Some error.success ->
  block_accept_state state true b = Some error.success ->
  is_under_checkpoint state = false ->
  transactions b = coinbase :: txs ->
  Forall (fun t => coherent t /\ values_ok t) (transactions b) ->
  sum_inputs (inputs coinbase) = 0 ->
  sum_outputs (outputs coinbase) <= sum_fees txs + subsidy (state_height state) true.
Proof.
  intros Hk Ha Hu Et Hwf Hzero. apply block_check_success in Hk as (_ & _ & _ & _ & Hchk).
  apply block_accept_success in Ha as (_ & Hclaim & _); [|done].
  unfold reward, block_fees, claim in Hclaim. rewrite Et in *.
  apply Forall_cons in Hwf as [[Hcc Hcv] Hwf]. apply Forall_cons in Hchk as [Hck Hchk].
  assert (Htxs : Forall (fun t => 0 <= fees t <= tx_fee t) txs).
  { apply Forall_forall. intros t Hin. rewrite Forall_forall in Hwf, Hchk.
    destruct (Hwf t Hin) as [Hc Hv]. specialize (Hchk t Hin).
    split; [by apply fees_bound|]. apply check_success in Hchk as (_ & _ & _ & Hm & _).
    rewrite (proj1 (total_output_value_computed t Hc)) in Hm.
    rewrite sum_output_value_saturates in Hm by apply Hv.
    apply (fees_exact t true); [done|done|].
    pose proof (max_money_exact true) as [_ Hmm]. unfold umax in *. lia. }
  assert (Hf0 : fees coinbase = 0) by (pose proof (fees_bound coinbase Hcc Hcv); lia).
  cbn [fold_left] in Hclaim. rewrite Hf0 in Hclaim. rewrite (ceiling_add_min 64 0 0) in Hclaim.
  rewrite Z.min_r in Hclaim by (by vm_compute). change (0 + 0) with 0 in Hclaim.
  pose proof (block_fees_le txs 0 tx_fee Htxs ltac:(lia)) as Hle.
  rewrite ceiling_add_min in Hclaim. apply check_success in Hck as (_ & _ & _ & Hm & _).
  rewrite (proj1 (total_output_value_computed coinbase Hcc)) in *.
  rewrite sum_output_value_saturates in * by apply Hcv.
  pose proof (max_money_exact true) as [_ Hmm]. unfold umax, sum_fees in *. lia.
Qed.
End Validated.

(** ** Codec *)

Section BlockCodec.
Context {R : Type} `{ReaderLaws R} `{Currency}.

Definition block_wf (wit : bool) (b : block) : Prop :=
  header_wf (bk_header b) /\ zlen (transactions b) <= get_max_block_size /\
  Forall (fun t => tx_wf true (if is_bch then false else wit) t /\ inputs t <> []) (transactions b).

Lemma read_transactions_reads wit txs es acc :
  Forall (fun t => tx_wf true wit t /\ inputs t <> []) txs ->
  Forall2 (fun t e => tx_to_data true wit false t = Some e) txs es ->
  reads (read_transactions wit (length txs) acc) (concat es)
    (acc ++ map (decoded_tx wit default_transaction) txs).
Proof.
  intros Hwf Hes. revert acc Hwf. induction Hes as [|t e txs es He _ IH]; intros acc Hwf;
    cbn [length read_transactions concat map].
  { rewrite app_nil_r. apply reads_ret. }
  apply Forall_cons in Hwf as [[Ht Hne] Hwf].
  rewrite (cons_middle (decoded_tx wit default_transaction t) acc), app_assoc.
  eapply reads_bind; [by apply tx_wire_reads|]. cbn [fst snd]. by apply IH.
Qed.

(** The instance a serialization decodes to, read into [self]. *)
Definition decoded_block (wit : bool) (self b : block) : block :=
  let wit := if is_bch then false else wit in
  let h := bk_header b in
  let s := bk_header self in
  let d := mk_block (mk_header (hd_version h) (previous_block_hash h) (merkle h) (hd_timestamp h)
                       (hd_bits h) (nonce h) None (hd_height s) (hd_median_time_past s))
             (map (decoded_tx wit default_transaction) (transactions b)) (bk_segregated_ self)
             (total_inputs_ self) (base_size_ self) (total_size_ self) (bk_state self) in
  if wit then d else block_strip_witness d.

Lemma block_reads wit b self e :
  block_wf wit b -> block_to_data wit b = Some e ->
  reads (block_from_data wit self) e (decoded_block wit self b, true).
Proof.
  intros (Hh & Hn & Htx) He. unfold block_to_data in He.
  set (w := if is_bch then false else wit) in *.
  destruct (all_some _) as [body|] eqn:Eb; [|done]. simplify_eq.
  apply all_some_map in Eb as (es & Hes & ->). pose proof get_max_block_size_bound.
  unfold block_from_data, decoded_block. fold w.
  eapply reads_bind; [by apply header_reads|]. cbn [fst snd negb].
  eapply reads_bind; [apply reads_size, in_width_zlen; lia|].
  eapply reads_bind_nil.
  - case_if; [lia|]. unfold zlen. rewrite Nat2Z.id.
    by apply (read_transactions_reads w (transactions b) es []).
  - destruct w; apply reads_check.
Qed.

Lemma strip_witness_data t :
  tx_to_data true false false (strip_witness t) = tx_to_data true false false t.
Proof. unfold tx_to_data. simpl. destruct is_bch; simpl; by rewrite strip_write_inputs. Qed.

Lemma decoded_block_data `{Crypto} wit self b :
  Forall coherent (transactions b) ->
  block_to_data wit (decoded_block wit self b) = block_to_data wit b.
Proof.
  intros Hc. unfold block_to_data, decoded_block. set (w := if is_bch then false else wit).
  assert (Hd : map (tx_to_data true w false) (map (decoded_tx w default_transaction) (transactions b)) =
               map (tx_to_data true w false) (transactions b)).
  { rewrite map_map. apply map_ext_Forall. eapply Forall_impl; [exact Hc|].
    intros t Ht. by apply decoded_tx_data. }
  destruct w; simpl.
  - rewrite Hd. unfold zlen. by rewrite length_map.
  - rewrite map_map. rewrite (map_ext _ _ strip_witness_data), Hd. unfold zlen. by rewrite !length_map.
Qed.

(** C9: A serialized block within the limits, each of whose transactions has
    an input, parses back, from either reader and with any bytes after it, to
    a block with the same header fields and transactions, which serializes to
    the same bytes. *)
Theorem block_roundtrip `{Crypto} wit b self e :
  block_wf wit b -> Forall coherent (transactions b) -> block_to_data wit b = Some e ->
  reads (block_from_data wit self) e (decoded_block wit self b, true) /\
  block_to_data wit (decoded_block wit self b) = Some e.
Proof.
  intros Hwf Hc He. split; [by apply block_reads|]. by rewrite decoded_block_data.
Qed.
End BlockCodec.
