(* ===== verification/Sighash.v ===== *)
(** Signature hashes and signature checks of [src/chain/script.cpp]. The
    elliptic curve library is a parameter: parsing of a DER signature and the
    verification of a signature over a hash. *)

From S2P Require Import Prelude Limits Endian Reader Writer Codes Number Operation Script Chain Compact Header ChainState Transaction.

(** [parse_signature] and [verify_signature] of [src/math/elliptic_curve.cpp],
    wrappers of libsecp256k1. A parsed signature is its byte array. *)
Class Ecdsa := {
  parse_signature : list Z -> bool -> option (list Z);
  verify_signature : list Z -> list Z -> list Z -> bool
}.

(** [sighash_algorithm] *)
Definition sighash_all : Z := 0x01.
Definition sighash_none : Z := 0x02.
Definition sighash_single : Z := 0x03.
Definition sighash_anyone_can_pay : Z := 0x80.
Definition sighash_mask : Z := 0x1f.

Definition one_hash : list Z := 1 :: repeat 0 31.

(** The result is one of [sighash_single], [sighash_none], [sighash_all]. *)
Definition to_sighash_enum (sighash_type : Z) : Z :=
  let masked := Z.land sighash_type sighash_mask in
  if masked =? sighash_single then sighash_single
  else if masked =? sighash_none then sighash_none
  else sighash_all.

Definition is_anyone_can_pay (sighash_type : Z) : bool :=
  negb (Z.land sighash_type sighash_anyone_can_pay =? 0).

(** [parse_endorsement]: the last byte and what precedes it. *)
Definition parse_endorsement (endorsement : list Z) : option (Z * list Z) :=
  match endorsement with
  | [] => None
  | _ => Some (List.last endorsement 0, removelast endorsement)
  end.

Section Sighash.
Context `{Currency} `{Crypto}.

(** [signature_hash] *)
Definition signature_hash (tx : transaction) (sighash_type : Z) : list Z :=
  bitcoin_hash (default [] (tx_to_data_chunk true false false tx) ++
                to_little_endian 4 sighash_type).

(** The inputs a signature covers: only itself, or all with other scripts
    (and, unless [keep_sequences], other sequences) erased. *)
Definition sign_inputs (any keep_sequences : bool) (tx : transaction) (input_index : nat)
    (script_code : script) : list input :=
  match inputs tx !! input_index with
  | None => []
  | Some self =>
      if any then [new_input (previous_output self) script_code (sequence self)]
      else
        let erased := map (fun i => new_input (previous_output i) reset_script
                                      (if keep_sequences then sequence i else 0)) (inputs tx) in
        <[input_index := new_input (previous_output self) script_code (sequence self)]> erased
  end.

Definition sign_none (tx : transaction) (input_index : nat) (script_code : script)
    (sighash_type : Z) : list Z :=
  signature_hash (new_transaction (tx_version tx) (tx_locktime tx)
    (sign_inputs (is_anyone_can_pay sighash_type) false tx input_index script_code) [])
    sighash_type.

(** Default outputs up to the one signed. *)
Definition sign_single (tx : transaction) (input_index : nat) (script_code : script)
    (sighash_type : Z) : list Z :=
  let outs := repeat default_output input_index ++
              [List.nth input_index (outputs tx) default_output] in
  signature_hash (new_transaction (tx_version tx) (tx_locktime tx)
    (sign_inputs (is_anyone_can_pay sighash_type) false tx input_index script_code) outs)
    sighash_type.

Definition sign_all (tx : transaction) (input_index : nat) (script_code : script)
    (sighash_type : Z) : list Z :=
  signature_hash
    (set_inputs_move (sign_inputs (is_anyone_can_pay sighash_type) true tx input_index script_code)
       (new_transaction (tx_version tx) (tx_locktime tx) [] (outputs tx)))
    sighash_type.

Definition strip_code_seperators (script_code : script) : script :=
  from_operations
    (List.filter (fun op => negb (code op =? opcode.codeseparator)) (operations script_code)).

Definition generate_unversioned_signature_hash (tx : transaction) (input_index : nat)
    (script_code : script) (sighash_type : Z) : list Z :=
  let sighash := to_sighash_enum sighash_type in
  if (length (inputs tx) <=? input_index)%nat ||
     ((length (outputs tx) <=? input_index)%nat && (sighash =? sighash_single)) then one_hash
  else
    let stripped := strip_code_seperators script_code in
    if sighash =? sighash_none then sign_none tx input_index stripped sighash_type
    else if sighash =? sighash_single then sign_single tx input_index stripped sighash_type
    else sign_all tx input_index stripped sighash_type.

(** The bytes hashed for version 0 (bip143). [all_forkid] of the cash build
    is not among the results of [to_sighash_enum]. *)
Definition version_0_preimage (tx : transaction) (input_index : nat) (script_code : script)
    (value sighash_type : Z) : list Z :=
  let i := List.nth input_index (inputs tx) default_input in
  let sighash := to_sighash_enum sighash_type in
  let any := is_anyone_can_pay sighash_type in
  let single := sighash =? sighash_single in
  let all := sighash =? sighash_all in
  write_4_bytes_little_endian (tx_version tx) ++
  write_hash (if negb any then fst (inpoints_hash tx) else null_hash) ++
  write_hash (if negb any && all then fst (sequences_hash tx) else null_hash) ++
  point_to_data true (op_point (previous_output i)) ++
  script_to_data true script_code ++
  write_8_bytes_little_endian value ++
  write_4_bytes_little_endian (sequence i) ++
  write_hash (if all then fst (outputs_hash tx)
              else if single && (input_index <? length (outputs tx))%nat then
                bitcoin_hash (default [] (output_to_data true
                  (List.nth input_index (outputs tx) default_output)))
              else null_hash) ++
  write_4_bytes_little_endian (tx_locktime tx) ++
  write_4_bytes_little_endian sighash_type.

Definition generate_version_0_signature_hash (tx : transaction) (input_index : nat)
    (script_code : script) (value sighash_type : Z) : list Z :=
  bitcoin_hash (version_0_preimage tx input_index script_code value sighash_type).

Definition generate_signature_hash (tx : transaction) (input_index : nat) (script_code : script)
    (sighash_type : Z) (v : script_version) (value : Z) : list Z :=
  match v with
  | unversioned => generate_unversioned_signature_hash tx input_index script_code sighash_type
  | zero => generate_version_0_signature_hash tx input_index script_code value sighash_type
  | reserved => null_hash
  end.

Definition check_signature `{Ecdsa} (signature : list Z) (sighash_type : Z) (public_key : list Z)
    (script_code : script) (tx : transaction) (input_index : nat) (v : script_version)
    (value : Z) : bool :=
  match public_key with
  | [] => false
  | _ => verify_signature public_key
           (generate_signature_hash tx input_index script_code sighash_type v value) signature
  end.
End Sighash.
