(* ===== verification/LaxDer.v ===== *)
(** The lax parser of signatures, [src/math/external/lax_der_parsing.c]: what it
    accepts is given by a grammar, and it never reads outside its input. The
    parser of compact signatures is libsecp256k1's, a parameter. *)

From S2P Require Import Prelude Radix.

(** The outcome of a step: a read outside of the input, a return of zero, or a
    value. *)
Inductive lax (A : Type) :=
| out_of_bounds
| malformed
| accepted (a : A).
Arguments out_of_bounds {A}.
Arguments malformed {A}.
Arguments accepted {A} _.

Definition lax_bind {A B} (f : A -> lax B) (r : lax A) : lax B :=
  match r with out_of_bounds => out_of_bounds | malformed => malformed | accepted a => f a end.

Notation "' p <-! o ;; k" := (lax_bind (fun x => let 'p := x in k) o) (at level 100, p pattern, o at next level, right associativity).
Notation "x <-! o ;; k" := (lax_bind (fun x => k) o) (at level 100, o at next level, right associativity).

Module lax_der.

(** [input[pos]] *)
Definition read (input : list Z) (pos : Z) : lax Z :=
  match input !! Z.to_nat pos with Some b => accepted b | None => out_of_bounds end.

(** [if (pos == inputlen || input[pos] != tag) return 0; pos++;] *)
Definition tag_byte (tag : Z) (input : list Z) (pos : Z) : lax Z :=
  if pos =? zlen input then malformed
  else b <-! read input pos ;; if negb (b =? tag) then malformed else accepted (pos + 1).

(** [if (pos == inputlen) return 0; lenbyte = input[pos++];] *)
Definition length_byte (input : list Z) (pos : Z) : lax (Z * Z) :=
  if pos =? zlen input then malformed else b <-! read input pos ;; accepted (b, pos + 1).

Definition sequence_length (input : list Z) (pos : Z) : lax Z :=
  '(lenbyte, pos) <-! length_byte input pos ;;
  if negb (Z.land lenbyte 0x80 =? 0) then
    let lenbyte := lenbyte - 0x80 in
    if u64 (pos + lenbyte) >? zlen input then malformed else accepted (pos + lenbyte)
  else accepted pos.

(** [while (lenbyte > 0 && input[pos] == 0) { pos++; lenbyte--; }] *)
Fixpoint skip_zeros (input : list Z) (lenbyte : nat) (pos : Z) : lax (nat * Z) :=
  match lenbyte with
  | O => accepted (O, pos)
  | S n => b <-! read input pos ;; if b =? 0 then skip_zeros input n (pos + 1) else accepted (lenbyte, pos)
  end.

(** [while (lenbyte > 0) { len = (len << 8) + input[pos]; pos++; lenbyte--; }] *)
Fixpoint read_number (input : list Z) (lenbyte : nat) (pos len : Z) : lax (Z * Z) :=
  match lenbyte with
  | O => accepted (len, pos)
  | S n => b <-! read input pos ;; read_number input n (pos + 1) (u64 (Z.shiftl len 8 + b))
  end.

Definition integer_length (input : list Z) (pos : Z) : lax (Z * Z) :=
  '(lenbyte, pos) <-! length_byte input pos ;;
  if negb (Z.land lenbyte 0x80 =? 0) then
    let lenbyte := lenbyte - 0x80 in
    if u64 (pos + lenbyte) >? zlen input then malformed
    else
      '(lenbyte, pos) <-! skip_zeros input (Z.to_nat lenbyte) pos ;;
      if (8 <=? lenbyte)%nat then malformed else read_number input lenbyte pos 0
  else accepted (lenbyte, pos).

(** The tag, the length and the place of an integer, and the position after it. *)
Definition integer (input : list Z) (pos : Z) : lax (Z * Z * Z) :=
  pos <-! tag_byte 0x02 input pos ;;
  '(len, pos) <-! integer_length input pos ;;
  if len >? zlen input - pos then malformed else accepted (pos, len, pos + len).

(** The bytes of an integer without its leading zeros. *)
Definition significant (input : list Z) (pos len : Z) : lax (list Z) :=
  '(len, pos) <-! skip_zeros input (Z.to_nat len) pos ;;
  if pos + Z.of_nat len >? zlen input then out_of_bounds else accepted (take len (drop (Z.to_nat pos) input)).

(** [memcpy(tmpsig + end - len, value, len)] into zeros *)
Definition right_aligned (value : list Z) : list Z := repeat 0 (32 - length value) ++ value.

Section Parser.
Variable secp256k1_ecdsa_signature_parse_compact : list Z -> option (list Z).

(** [sig] after a call, which is always initialized: with zeros if it fails. *)
Definition parse_compact (bytes : list Z) : list Z * bool :=
  match secp256k1_ecdsa_signature_parse_compact bytes with
  | Some signature => (signature, true)
  | None => (repeat 0 64, false)
  end.

Definition finish (r s : list Z) : list Z :=
  let invalid := fst (parse_compact (repeat 0 64)) in
  if (32 <? length r)%nat || (32 <? length s)%nat then invalid
  else
    let '(sig, parsed) := parse_compact (right_aligned r ++ right_aligned s) in
    if negb parsed then invalid else sig.

Definition parse (input : list Z) : lax (list Z) :=
  pos <-! tag_byte 0x30 input 0 ;;
  pos <-! sequence_length input pos ;;
  '(rpos, rlen, pos) <-! integer input pos ;;
  '(spos, slen, pos) <-! integer input pos ;;
  r <-! significant input rpos rlen ;;
  s <-! significant input spos slen ;;
  accepted (finish r s).

(** [ecdsa_signature_parse_der_lax]: [None] is a return of zero. *)
Definition ecdsa_signature_parse_der_lax (input : list Z) : option (list Z) :=
  match parse input with accepted signature => Some signature | _ => None end.
End Parser.

(** ** The grammar *)

(** The length of the sequence, which is not used. *)
Definition sequence_form (text : list Z) : Prop :=
  exists b bytes, text = b :: bytes /\ byte_ok b /\
    ((b < 0x80 /\ bytes = []) \/ (0x80 <= b /\ zlen bytes = b - 0x80)).

(** A length in one byte, or in up to 127 of which fewer than eight follow the
    zeros. *)
Definition length_form (text : list Z) (len : Z) : Prop :=
  exists b bytes, text = b :: bytes /\ byte_ok b /\
    ((b < 0x80 /\ bytes = [] /\ len = b) \/
     (0x80 <= b /\ zlen bytes = b - 0x80 /\ zlen (strip_zeros bytes) < 8 /\ len = bval 256 bytes)).

Definition integer_form (text value : list Z) : Prop :=
  exists len, length_form len (zlen value) /\ text = [0x02] ++ len ++ value.

(** Two integers within a sequence, with anything after them. *)
Definition signature_form (input r s : list Z) : Prop :=
  exists len r_text s_text rest,
    sequence_form len /\ integer_form r_text r /\ integer_form s_text s /\
    input = [0x30] ++ len ++ r_text ++ s_text ++ rest.

(** ** The steps on what is left of the input *)

Lemma read_app pre c post : read (pre ++ c :: post) (zlen pre) = accepted c.
Proof. unfold read, zlen. rewrite Nat2Z.id. by rewrite list_lookup_middle. Qed.

Lemma zlen_cons (c : Z) l : zlen (c :: l) = 1 + zlen l.
Proof. unfold zlen. cbn [length]. lia. Qed.

Lemma zlen_snoc (pre : list Z) c : zlen (pre ++ [c]) = zlen pre + 1.
Proof. by rewrite zlen_app. Qed.

Lemma app_snoc (pre : list Z) c post : pre ++ c :: post = (pre ++ [c]) ++ post.
Proof. by rewrite <- app_assoc. Qed.

Lemma tag_byte_app tag pre suf :
  tag_byte tag (pre ++ suf) (zlen pre) =
  match suf with [] => malformed | c :: _ => if c =? tag then accepted (zlen (pre ++ [c])) else malformed end.
Proof.
  unfold tag_byte. rewrite zlen_app. destruct suf as [|c suf].
  - by rewrite Z.add_0_r, Z.eqb_refl.
  - destruct (Z.eqb_spec (zlen pre) (zlen pre + zlen (c :: suf))) as [E|_]; [rewrite zlen_cons in E; pose proof (zlen_nonneg suf); lia|].
    rewrite read_app. cbn [lax_bind]. rewrite zlen_snoc. by destruct (c =? tag).
Qed.

Lemma length_byte_app pre suf :
  length_byte (pre ++ suf) (zlen pre) =
  match suf with [] => malformed | c :: _ => accepted (c, zlen (pre ++ [c])) end.
Proof.
  unfold length_byte. rewrite zlen_app. destruct suf as [|c suf].
  - by rewrite Z.add_0_r, Z.eqb_refl.
  - destruct (Z.eqb_spec (zlen pre) (zlen pre + zlen (c :: suf))) as [E|_]; [rewrite zlen_cons in E; pose proof (zlen_nonneg suf); lia|].
    rewrite read_app. cbn [lax_bind]. by rewrite zlen_snoc.
Qed.

(** The high bit of a length byte. *)
Lemma high_bit b : byte_ok b -> negb (Z.land b 0x80 =? 0) = (0x80 <=? b).
Proof.
  intros Hb. revert b Hb. assert (H : forall b, byte_ok b -> Bool.eqb (negb (Z.land b 0x80 =? 0)) (0x80 <=? b) = true).
  { apply byte_forall. by vm_compute. }
  intros b Hb. by apply eqb_prop, H.
Qed.

(** An input of a size that positions do not wrap around. *)
Definition small (input : list Z) : Prop := bytes_ok input /\ zlen input < 2 ^ 63.

Lemma small_add input pos n : small input -> 0 <= pos <= zlen input -> 0 <= n < 128 -> u64 (pos + n) = pos + n.
Proof. intros [_ Hs] Hp Hn. apply Z.mod_small. lia. Qed.

Lemma skip_zeros_app pre bytes post :
  skip_zeros (pre ++ bytes ++ post) (length bytes) (zlen pre) =
  accepted (length (strip_zeros bytes), zlen (pre ++ repeat 0 (count_zeros bytes))).
Proof.
  revert pre. induction bytes as [|b bytes IH]; intros pre; [cbn; by rewrite app_nil_r|].
  cbn [length skip_zeros app]. rewrite read_app. cbn [lax_bind strip_zeros count_zeros].
  destruct (Z.eqb_spec b 0) as [->|Hb].
  - rewrite <- zlen_snoc with (c := 0), (app_snoc pre 0), IH. cbn [repeat].
    by rewrite <- app_snoc.
  - cbn [repeat]. by rewrite app_nil_r.
Qed.

Lemma read_number_app pre bytes post len :
  bytes_ok bytes -> 0 <= len -> len * 256 ^ zlen bytes + bval 256 bytes < 2 ^ 64 ->
  read_number (pre ++ bytes ++ post) (length bytes) (zlen pre) len =
  accepted (len * 256 ^ zlen bytes + bval 256 bytes, zlen (pre ++ bytes)).
Proof.
  revert pre len. induction bytes as [|b bytes IH]; intros pre len Hb Hl Hv; cbn [length read_number app].
  { unfold bval, zlen. cbn. rewrite app_nil_r. do 2 f_equal. lia. }
  apply Forall_cons in Hb as [Hb Hbs]. rewrite read_app. cbn [lax_bind]. rewrite zlen_cons, bval_cons in * by lia.
  pose proof (zlen_nonneg bytes) as Hz. pose proof (bval_bound 256 ltac:(lia) bytes Hbs) as Hbound.
  rewrite Z.pow_add_r, Z.pow_1_r in * by lia. unfold byte_ok in Hb.
  assert (Hp : 1 <= 256 ^ zlen bytes) by (pose proof (Z.pow_pos_nonneg 256 (zlen bytes)); lia).
  assert (E : u64 (Z.shiftl len 8 + b) = len * 256 + b).
  { rewrite Z.shiftl_mul_pow2 by lia. change (2 ^ 8) with 256. apply Z.mod_small. nia. }
  rewrite E, <- zlen_snoc with (c := b), (app_snoc pre b), IH by (try done; nia). rewrite <- app_snoc. do 2 f_equal. lia.
Qed.

(** A step reads a text of a form and moves past it, and reads nothing past the
    end. *)
Definition reads_form (step : list Z -> Z -> lax Z) (form : list Z -> Prop) : Prop :=
  forall pre suf, small (pre ++ suf) ->
    step (pre ++ suf) (zlen pre) <> out_of_bounds /\
    forall p, step (pre ++ suf) (zlen pre) = accepted p <->
              exists text rest, suf = text ++ rest /\ form text /\ p = zlen (pre ++ text).

Lemma tag_reads tag : reads_form (tag_byte tag) (fun text => text = [tag]).
Proof.
  intros pre suf _. rewrite tag_byte_app. destruct suf as [|c suf].
  { split; [done|]. intros p. split; [done|]. by intros (text & rest & E & -> & _). }
  destruct (Z.eqb_spec c tag) as [->|Hne]; (split; [done|]); intros p; split.
  - intros [= <-]. by exists [tag], suf.
  - intros (text & rest & E & -> & ->). by injection E as _.
  - done.
  - intros (text & rest & E & -> & _). by injection E as -> _.
Qed.

Lemma sequence_reads : reads_form sequence_length sequence_form.
Proof.
  intros pre suf Hs. unfold sequence_length. rewrite length_byte_app. destruct suf as [|b suf].
  { split; [done|]. intros p. split; [done|]. by intros (text & rest & E & (b & bytes & -> & _) & _). }
  cbn [lax_bind]. destruct Hs as [Hb Hs]. pose proof Hb as Hbytes. apply Forall_app in Hb as [_ Hb]. apply Forall_cons in Hb as [Hb Hsuf].
  rewrite high_bit by done. rewrite zlen_app, zlen_cons in Hs. pose proof (zlen_nonneg pre). pose proof (zlen_nonneg suf).
  unfold byte_ok in Hb. rewrite zlen_snoc, zlen_app, zlen_cons.
  destruct (Z.leb_spec 0x80 b) as [Hge|Hlt].
  - replace (u64 (zlen pre + 1 + (b - 128))) with (zlen pre + 1 + (b - 128)) by (symmetry; apply Z.mod_small; lia).
    destruct (Z.gtb_spec (zlen pre + 1 + (b - 128)) (zlen pre + (1 + zlen suf))) as [Hgt|Hle]; (split; [done|]); intros p; split; try done.
    + intros (text & rest & E & (b' & bytes & -> & _ & Hform) & _). injection E as <- E.
      destruct Hform as [[? _]|[_ Hl]]; [lia|]. rewrite E, zlen_app in Hgt. pose proof (zlen_nonneg rest). lia.
    + intros [= <-]. exists (b :: take (Z.to_nat (b - 128)) suf), (drop (Z.to_nat (b - 128)) suf).
      assert (Hl : zlen (take (Z.to_nat (b - 128)) suf) = b - 128) by (unfold zlen in *; rewrite length_take; lia).
      split_and!; [cbn [app]; by rewrite take_drop| |rewrite zlen_app, zlen_cons, Hl; lia].
      eexists _, _. split_and!; [done|done|]. right. split; [done|exact Hl].
    + intros (text & rest & E & (b' & bytes & -> & _ & Hform) & ->). injection E as <- E.
      destruct Hform as [[? _]|[_ Hl]]; [lia|]. f_equal. rewrite zlen_app, zlen_cons. lia.
  - split; [done|]. intros p. split.
    + intros [= <-]. exists [b], suf. split_and!; [done| |by rewrite zlen_app].
      eexists _, _. split_and!; [done|done|]. by left.
    + intros (text & rest & E & (b' & bytes & -> & _ & Hform) & ->). injection E as <- E.
      destruct Hform as [[_ ->]|[? _]]; [|lia]. f_equal. by rewrite zlen_app.
Qed.

Lemma zlen_strip bytes : zlen (strip_zeros bytes) <= zlen bytes.
Proof. rewrite (strip_zeros_split bytes) at 2. rewrite zlen_app. pose proof (zlen_nonneg (repeat 0 (count_zeros bytes))). lia. Qed.

Lemma length_reads pre suf :
  small (pre ++ suf) ->
  integer_length (pre ++ suf) (zlen pre) <> out_of_bounds /\
  forall n p, integer_length (pre ++ suf) (zlen pre) = accepted (n, p) <->
              exists text rest, suf = text ++ rest /\ length_form text n /\ p = zlen (pre ++ text).
Proof.
  intros Hs. unfold integer_length. rewrite length_byte_app. destruct suf as [|b suf].
  { split; [done|]. intros n p. split; [done|]. by intros (text & rest & E & (b & bytes & -> & _) & _). }
  cbn [lax_bind]. destruct Hs as [Hb Hs]. apply Forall_app in Hb as [_ Hb]. apply Forall_cons in Hb as [Hb Hsuf].
  rewrite high_bit by done. rewrite zlen_app, zlen_cons in Hs. pose proof (zlen_nonneg pre). pose proof (zlen_nonneg suf).
  unfold byte_ok in Hb. destruct (Z.leb_spec 0x80 b) as [Hge|Hlt].
  2: { split; [done|]. intros n p. split.
       - intros [= <- <-]. exists [b], suf. split_and!; [done| |done]. eexists _, _. split_and!; [done|done|]. by left.
       - intros (text & rest & E & (b' & bytes & -> & _ & Hform) & ->). injection E as <- E.
         destruct Hform as [(_ & -> & ->)|(? & _)]; [done|lia]. }
  rewrite zlen_snoc, zlen_app, zlen_cons.
  replace (u64 (zlen pre + 1 + (b - 128))) with (zlen pre + 1 + (b - 128)) by (symmetry; apply Z.mod_small; lia).
  destruct (Z.gtb_spec (zlen pre + 1 + (b - 128)) (zlen pre + (1 + zlen suf))) as [Hgt|Hle].
  { split; [done|]. intros n p. split; [done|].
    intros (text & rest & E & (b' & bytes & -> & _ & Hform) & _). injection E as <- E.
    destruct Hform as [(? & _)|(_ & Hl & _)]; [lia|]. rewrite E, zlen_app in Hgt. pose proof (zlen_nonneg rest). lia. }
  set (bytes := take (Z.to_nat (b - 128)) suf). set (post := drop (Z.to_nat (b - 128)) suf).
  assert (Esuf : suf = bytes ++ post) by (symmetry; apply take_drop).
  assert (Hl : length bytes = Z.to_nat (b - 128)) by (unfold bytes, zlen in *; rewrite length_take; lia).
  assert (Hbytes : bytes_ok bytes) by (by apply Forall_take).
  rewrite <- zlen_snoc with (c := b), (app_snoc pre b), Esuf, <- Hl, skip_zeros_app. cbn [lax_bind].
  assert (Hform : forall n p, (exists text rest, b :: bytes ++ post = text ++ rest /\ length_form text n /\ p = zlen (pre ++ text)) <->
    zlen (strip_zeros bytes) < 8 /\ n = bval 256 bytes /\ p = zlen ((pre ++ [b]) ++ bytes)).
  { intros n p. split.
    - intros (text & rest & E & (b' & bytes' & -> & _ & Hform) & ->). injection E as <- E.
      destruct Hform as [(? & _)|(_ & Hl' & Hsig & ->)]; [lia|].
      assert (bytes' = bytes) as -> by (apply app_inj_1 in E as [-> _]; [done|unfold zlen in Hl'; lia]).
      split_and!; [done|done|by rewrite <- app_snoc].
    - intros (Hsig & -> & ->). exists (b :: bytes), post. split_and!; [done| |by rewrite <- app_snoc].
      eexists _, _. split_and!; [done|done|]. right. split_and!; [done|unfold zlen; lia|done|done]. }
  assert (Hzlen : zlen (strip_zeros bytes) = Z.of_nat (length (strip_zeros bytes))) by done.
  destruct (Nat.leb_spec 8 (length (strip_zeros bytes))) as [Hbig|Hfew].
  { split; [done|]. intros n p. rewrite Hform. split; [done|]. intros (? & _). lia. }
  assert (Einput : (pre ++ [b]) ++ bytes ++ post =
    ((pre ++ [b]) ++ repeat 0 (count_zeros bytes)) ++ strip_zeros bytes ++ post).
  { rewrite (strip_zeros_split bytes) at 1. by rewrite <- !app_assoc. }
  assert (Hstrip : bytes_ok (strip_zeros bytes)).
  { rewrite (strip_zeros_split bytes) in Hbytes. by apply Forall_app in Hbytes as [_ ?]. }
  pose proof (bval_bound 256 ltac:(lia) (strip_zeros bytes) Hstrip) as Hbound.
  assert (Hpow : 256 ^ zlen (strip_zeros bytes) <= 256 ^ 7) by (apply Z.pow_le_mono_r; lia).
  rewrite Einput, read_number_app by (try done; lia). rewrite Z.mul_0_l, Z.add_0_l, bval_strip by lia.
  split; [done|]. intros n p. rewrite Hform, <- app_assoc, <- strip_zeros_split. split.
  - intros [= <- <-]. split_and!; [lia|done|done].
  - by intros (_ & -> & ->).
Qed.

(** An integer, and the place of its value. *)
Lemma integer_reads pre suf :
  small (pre ++ suf) ->
  integer (pre ++ suf) (zlen pre) <> out_of_bounds /\
  forall vp n p, integer (pre ++ suf) (zlen pre) = accepted (vp, n, p) <->
    exists text value rest, suf = text ++ rest /\ integer_form text value /\
      p = zlen (pre ++ text) /\ vp = p - zlen value /\ n = zlen value.
Proof.
  intros Hs. unfold integer. destruct (tag_reads 0x02 pre suf Hs) as [Hno Htag].
  destruct (tag_byte 0x02 (pre ++ suf) (zlen pre)) as [| |p1] eqn:E1; [done| |].
  { split; [done|]. intros vp n p. split; [done|].
    intros (text & value & rest & -> & (len & _ & ->) & _).
    assert (Hx : @malformed Z = accepted (zlen (pre ++ [2]))); [|done]. apply Htag. exists [2], ((len ++ value) ++ rest).
    split_and!; [by rewrite <- app_assoc|done|done]. }
  cbn [lax_bind]. destruct (proj1 (Htag p1) eq_refl) as (text & suf1 & -> & -> & ->). clear Hno Htag E1.
  rewrite app_assoc in *. destruct (length_reads (pre ++ [2]) suf1 Hs) as [Hno Hlen].
  destruct (integer_length ((pre ++ [2]) ++ suf1) (zlen (pre ++ [2]))) as [| |[n1 p2]] eqn:E2; [done| |].
  { split; [done|]. intros vp n p. split; [done|].
    intros (text & value & rest & E & (len & Hform & ->) & _). injection E as E.
    assert (Hx : @malformed (Z * Z) = accepted (zlen value, zlen ((pre ++ [2]) ++ len))); [|done]. apply Hlen. exists len, (value ++ rest).
    split_and!; [by rewrite app_assoc|done|done]. }
  cbn [lax_bind]. destruct (proj1 (Hlen n1 p2) eq_refl) as (len & suf2 & -> & Hform & ->). clear Hno E2.
  assert (Hn1 : 0 <= n1).
  { destruct Hform as (b & bytes & -> & Hb & [(_ & _ & ->)|(_ & _ & _ & ->)]); [unfold byte_ok in Hb; lia|].
    destruct Hs as [Hs _]. apply Forall_app in Hs as [_ Hs]. apply Forall_app in Hs as [Hs _]. apply Forall_cons in Hs as [_ Hs].
    pose proof (bval_bound 256 ltac:(lia) bytes Hs). lia. }
  assert (Hother : forall text value rest, [2] ++ len ++ suf2 = text ++ rest -> integer_form text value ->
    text = [2] ++ len ++ value /\ zlen value = n1 /\ suf2 = value ++ rest).
  { intros text value rest E (len' & Hform' & ->). injection E as E. rewrite <- app_assoc in E.
    assert (Hboth : @accepted (Z * Z) (n1, zlen ((pre ++ [2]) ++ len)) = accepted (zlen value, zlen ((pre ++ [2]) ++ len'))).
    { apply Hlen. exists len', (value ++ rest). by split_and!. }
    injection Hboth as -> Hz. rewrite !zlen_app in Hz.
    apply app_inj_1 in E as [-> ->]; [done|]. unfold zlen in Hz. lia. }
  rewrite !zlen_app. destruct (Z.gtb_spec n1 (zlen pre + zlen [2] + (zlen len + zlen suf2) - (zlen pre + zlen [2] + zlen len))) as [Hgt|Hle].
  { split; [done|]. intros vp n p. split; [done|]. intros (text & value & rest & E & Hint & _).
    destruct (Hother text value rest E Hint) as (_ & <- & ->). rewrite zlen_app in Hgt. pose proof (zlen_nonneg rest). lia. }
  split; [done|]. intros vp n p. split.
  - intros [= <- <- <-]. set (value := take (Z.to_nat n1) suf2).
    assert (Hvalue : zlen value = n1) by (unfold value, zlen in *; rewrite length_take; lia).
    exists ([2] ++ len ++ value), value, (drop (Z.to_nat n1) suf2). split_and!.
    + unfold value. rewrite <- !app_assoc. by rewrite take_drop.
    + exists len. rewrite Hvalue. by split.
    + rewrite !zlen_app, Hvalue. lia.
    + rewrite Hvalue. lia.
    + done.
  - intros (text & value & rest & E & Hint & -> & -> & ->). destruct (Hother text value rest E Hint) as (-> & Hvalue & ->).
    rewrite !zlen_app. rewrite Hvalue. do 2 f_equal; [f_equal|]; lia.
Qed.

(** The value without its leading zeros. *)
Lemma significant_app pre value post :
  significant (pre ++ value ++ post) (zlen pre) (zlen value) = accepted (strip_zeros value).
Proof.
  unfold significant. assert (Hn : forall l : list Z, Z.to_nat (zlen l) = length l) by (intros l; unfold zlen; lia).
  rewrite Hn, skip_zeros_app. cbn [lax_bind].
  assert (E : pre ++ value ++ post = (pre ++ repeat 0 (count_zeros value)) ++ strip_zeros value ++ post).
  { rewrite (strip_zeros_split value) at 1. by rewrite <- !app_assoc. }
  rewrite E. fold (zlen (strip_zeros value)). rewrite <- zlen_app.
  set (front := pre ++ repeat 0 (count_zeros value)). rewrite app_assoc, (zlen_app (front ++ _) post).
  pose proof (zlen_nonneg post).
  destruct (Z.gtb_spec (zlen (front ++ strip_zeros value)) (zlen (front ++ strip_zeros value) + zlen post)); [lia|].
  rewrite <- app_assoc, Hn, drop_app_length. by rewrite take_app_length.
Qed.

(** ** The parser is the grammar *)

Lemma accepted_inj {A} (a b : A) : accepted a = accepted b -> a = b.
Proof. by intros [=]. Qed.

(** An input is accepted exactly when it has the form of a signature, with the
    parse of its two integers, aligned, for a signature; and no input makes the
    parser read outside of it. *)
Lemma lax_parse_spec compact input :
  small input ->
  parse compact input <> out_of_bounds /\
  forall sig, parse compact input = accepted sig <->
    exists r s, signature_form input r s /\ sig = finish compact (strip_zeros r) (strip_zeros s).
Proof.
  intros Hs. unfold parse.
  destruct (tag_reads 0x30 [] input Hs) as [Hno Htag]. cbn [app] in Hno, Htag. change (zlen []) with 0 in Hno, Htag.
  destruct (tag_byte 0x30 input 0) as [| |p1] eqn:E1; [done| |].
  { split; [done|]. intros sig. split; [done|]. intros (r & s & (len & rt & st & rest & _ & _ & _ & ->) & _).
    assert (Hx : @malformed Z = accepted (zlen [0x30])); [|done]. apply Htag. by exists [0x30], (len ++ rt ++ st ++ rest). }
  cbn [lax_bind]. destruct (proj1 (Htag p1) eq_refl) as (text & suf1 & -> & -> & ->). clear Hno Htag E1.
  destruct (sequence_reads [0x30] suf1 Hs) as [Hno Hseq].
  destruct (sequence_length ([0x30] ++ suf1) (zlen [0x30])) as [| |p2] eqn:E2; [done| |].
  { split; [done|]. intros sig. split; [done|]. intros (r & s & (len & rt & st & rest & Hlen & _ & _ & E) & _).
    injection E as ->. assert (Hx : @malformed Z = accepted (zlen ([0x30] ++ len))); [|done]. apply Hseq. by exists len, (rt ++ st ++ rest). }
  cbn [lax_bind]. destruct (proj1 (Hseq p2) eq_refl) as (len & suf2 & -> & Hlen & ->). clear Hno E2.
  assert (Hlens : forall len' t, len ++ suf2 = len' ++ t -> sequence_form len' -> len' = len /\ t = suf2).
  { intros len' t E Hform. assert (Hboth : accepted (zlen ([0x30] ++ len)) = accepted (zlen ([0x30] ++ len'))).
    { apply Hseq. by exists len', t. }
    apply accepted_inj in Hboth as Hz. repeat first [rewrite zlen_cons in Hz | rewrite zlen_app in Hz]. symmetry in E. apply app_inj_1 in E as [-> ->]; [done|]. unfold zlen in Hz. lia. }
  clear Hseq. rewrite app_assoc in Hs |- *. destruct (integer_reads ([0x30] ++ len) suf2 Hs) as [Hno Hint].
  destruct (integer (([0x30] ++ len) ++ suf2) (zlen ([0x30] ++ len))) as [| |[[rp rn] p3]] eqn:E3; [done| |].
  { split; [done|]. intros sig. split; [done|]. intros (r & s & (len' & rt & st & rest & Hl & Hr & _ & E) & _).
    rewrite <- app_assoc in E. injection E as E. apply Hlens in E as [-> E]; [|done].
    assert (Hx : @malformed (Z * Z * Z) = accepted (zlen (([0x30] ++ len) ++ rt) - zlen r, zlen r, zlen (([0x30] ++ len) ++ rt))); [|done].
    apply Hint. by exists rt, r, (st ++ rest). }
  cbn [lax_bind]. destruct (proj1 (Hint rp rn p3) eq_refl) as (rt & r & suf3 & -> & Hr & -> & -> & ->). clear Hno E3.
  assert (Hrs : forall rt' r' t, rt ++ suf3 = rt' ++ t -> integer_form rt' r' -> rt' = rt /\ t = suf3 /\ zlen r' = zlen r).
  { intros rt' r' t E Hform.
    assert (Hboth : @accepted (Z * Z * Z) (zlen (([0x30] ++ len) ++ rt) - zlen r, zlen r, zlen (([0x30] ++ len) ++ rt)) =
      accepted (zlen (([0x30] ++ len) ++ rt') - zlen r', zlen r', zlen (([0x30] ++ len) ++ rt'))).
    { apply Hint. by exists rt', r', t. }
    apply accepted_inj, pair_eq in Hboth as [[_ Hn]%pair_eq Hz]. repeat first [rewrite zlen_cons in Hz | rewrite zlen_app in Hz]. symmetry in E. apply app_inj_1 in E as [-> ->]; [done|]. unfold zlen in Hz. lia. }
  clear Hint. rewrite app_assoc in Hs |- *. destruct (integer_reads (([0x30] ++ len) ++ rt) suf3 Hs) as [Hno Hint].
  destruct (integer ((([0x30] ++ len) ++ rt) ++ suf3) (zlen (([0x30] ++ len) ++ rt))) as [| |[[sp sn] p4]] eqn:E4; [done| |].
  { split; [done|]. intros sig. split; [done|]. intros (r' & s & (len' & rt' & st & rest & Hl & Hr' & Hst & E) & _).
    rewrite <- !app_assoc in E. injection E as E. apply Hlens in E as [-> E]; [|done]. symmetry in E.
    apply (Hrs rt' r') in E as (-> & <- & _); [|done].
    assert (Hx : @malformed (Z * Z * Z) = accepted (zlen ((([0x30] ++ len) ++ rt) ++ st) - zlen s, zlen s, zlen ((([0x30] ++ len) ++ rt) ++ st))); [|done].
    apply Hint. by exists st, s, rest. }
  cbn [lax_bind]. destruct (proj1 (Hint sp sn p4) eq_refl) as (st & s & suf4 & -> & Hst & -> & -> & ->). clear Hno E4.
  assert (Esig_r : significant ((([0x30] ++ len) ++ rt) ++ st ++ suf4) (zlen (([0x30] ++ len) ++ rt) - zlen r) (zlen r) =
    accepted (strip_zeros r)).
  { destruct Hr as (lr & _ & ->).
    replace ((([0x30] ++ len) ++ [2] ++ lr ++ r) ++ st ++ suf4) with (([0x30] ++ len ++ [2] ++ lr) ++ r ++ st ++ suf4)
      by (by rewrite <- !app_assoc).
    replace (zlen (([0x30] ++ len) ++ [2] ++ lr ++ r) - zlen r) with (zlen ([0x30] ++ len ++ [2] ++ lr))
      by (rewrite !zlen_app; lia).
    apply significant_app. }
  assert (Esig_s : significant ((([0x30] ++ len) ++ rt) ++ st ++ suf4) (zlen ((([0x30] ++ len) ++ rt) ++ st) - zlen s) (zlen s) =
    accepted (strip_zeros s)).
  { destruct Hst as (ls & _ & ->).
    replace ((([0x30] ++ len) ++ rt) ++ ([2] ++ ls ++ s) ++ suf4) with (([0x30] ++ len ++ rt ++ [2] ++ ls) ++ s ++ suf4)
      by (by rewrite <- !app_assoc).
    replace (zlen ((([0x30] ++ len) ++ rt) ++ [2] ++ ls ++ s) - zlen s) with (zlen ([0x30] ++ len ++ rt ++ [2] ++ ls))
      by (rewrite !zlen_app; lia).
    apply significant_app. }
  rewrite Esig_r. cbn [lax_bind]. rewrite Esig_s. cbn [lax_bind]. split; [done|]. intros sig. split.
  - intros <-%accepted_inj. exists r, s. split; [|done]. exists len, rt, st, suf4. split_and!; try done. by rewrite <- !app_assoc.
  - intros (r' & s' & (len' & rt' & st' & rest & Hl & Hr' & Hst' & E) & ->).
    rewrite <- !app_assoc in E. injection E as E. apply Hlens in E as [-> E]; [|done]. symmetry in E.
    pose proof (Hrs rt' r' (st' ++ rest) E Hr') as (-> & E' & Hzr).
    assert (r' = r) as ->.
    { destruct Hr as (lr & _ & ->), Hr' as (lr' & _ & Er). rewrite !app_assoc in Er. symmetry in Er.
      apply app_inj_2 in Er as [_ ->]; [done|]. unfold zlen in Hzr. lia. }
    assert (Hboth : @accepted (Z * Z * Z) (zlen ((([0x30] ++ len) ++ rt) ++ st) - zlen s, zlen s, zlen ((([0x30] ++ len) ++ rt) ++ st)) =
      accepted (zlen ((([0x30] ++ len) ++ rt) ++ st') - zlen s', zlen s', zlen ((([0x30] ++ len) ++ rt) ++ st'))).
    { apply Hint. by exists st', s', rest. }
    apply accepted_inj, pair_eq in Hboth as [[_ Hn]%pair_eq Hz]. rewrite !(zlen_app (([0x30] ++ len) ++ rt)) in Hz.
    apply app_inj_1 in E' as [-> ->]; [|unfold zlen in Hz; lia].
    assert (s' = s) as ->; [|done].
    destruct Hst as (ls & _ & ->), Hst' as (ls' & _ & Es). rewrite !app_assoc in Es. symmetry in Es.
    apply app_inj_2 in Es as [_ ->]; [done|]. unfold zlen in Hn. lia.
Qed.

(** A signature of the strict form, with lengths in one byte and nothing after
    it, is accepted. *)
Lemma lax_parses_der compact r s :
  bytes_ok r -> bytes_ok s -> zlen r < 0x80 -> zlen s < 0x80 -> zlen r + zlen s + 4 < 0x80 ->
  ecdsa_signature_parse_der_lax compact
    ([0x30; zlen r + zlen s + 4] ++ [0x02; zlen r] ++ r ++ [0x02; zlen s] ++ s) =
  Some (finish compact (strip_zeros r) (strip_zeros s)).
Proof.
  intros Hr Hs Hlr Hls Hl. set (input := [_; _] ++ _). pose proof (zlen_nonneg r). pose proof (zlen_nonneg s).
  assert (Hsmall : small input).
  { split; [|unfold input; rewrite !zlen_app; change (zlen [0x30; zlen r + zlen s + 4]) with 2; change (zlen [2; zlen r]) with 2; change (zlen [2; zlen s]) with 2; lia].
    unfold input, bytes_ok. rewrite !Forall_app, !Forall_cons. unfold byte_ok. split_and!; try lia; done || constructor. }
  destruct (lax_parse_spec compact input Hsmall) as [_ Hiff]. unfold ecdsa_signature_parse_der_lax.
  rewrite (proj2 (Hiff (finish compact (strip_zeros r) (strip_zeros s)))); [done|].
  exists r, s. split; [|done]. exists [zlen r + zlen s + 4], ([0x02; zlen r] ++ r), ([0x02; zlen s] ++ s), [].
  assert (Hform : forall v, zlen v < 0x80 -> integer_form ([0x02; zlen v] ++ v) v).
  { intros v Hv. exists [zlen v]. pose proof (zlen_nonneg v). split; [|done]. exists (zlen v), []. split_and!; [done|unfold byte_ok; lia|].
    left. by split_and!. }
  split_and!; [|by apply Hform|by apply Hform|].
  - exists (zlen r + zlen s + 4), []. split_and!; [done|unfold byte_ok; lia|]. by left.
  - unfold input. by rewrite app_nil_r, <- !app_assoc.
Qed.
End lax_der.
