(* ===== verification/Elliptic.v ===== *)
(** The elliptic curve functions of [src/math/elliptic_curve.cpp] over the
    interface of libsecp256k1, which is not part of the repository: the class
    [Secp256k1] has one operation per library function the file calls, and
    [Secp256k1Laws] what the library documents of them. The signature functions
    instantiate the interface of the script interpreter. *)

From S2P Require Import Prelude Limits Endian Reader Writer Codes Operation Script Chain Radix Compact Header ChainState Transaction Sighash LaxDer.

(** ** The library *)

Class Secp256k1 := {
  pubkey : Type;
  secp256k1_ec_pubkey_parse : list Z -> option pubkey;
  (** with [SECP256K1_EC_COMPRESSED] or not *)
  secp256k1_ec_pubkey_serialize : bool -> pubkey -> list Z;
  secp256k1_ec_pubkey_tweak_add : pubkey -> list Z -> option pubkey;
  secp256k1_ec_pubkey_tweak_mul : pubkey -> list Z -> option pubkey;
  secp256k1_ec_pubkey_create : list Z -> option pubkey;
  secp256k1_ec_privkey_tweak_add : list Z -> list Z -> option (list Z);
  secp256k1_ec_privkey_tweak_mul : list Z -> list Z -> option (list Z);
  secp256k1_ec_seckey_verify : list Z -> bool;
  (** signatures are the 64 bytes of the library's structure *)
  secp256k1_ecdsa_signature_parse_der : list Z -> option (list Z);
  secp256k1_ecdsa_signature_parse_compact : list Z -> option (list Z);
  (** [None]: the buffer of the given size is too small *)
  secp256k1_ecdsa_signature_serialize_der : nat -> list Z -> option (list Z);
  secp256k1_ecdsa_signature_normalize : list Z -> list Z;
  secp256k1_ecdsa_verify : list Z -> list Z -> pubkey -> bool;
  secp256k1_ecdsa_sign : list Z -> list Z -> option (list Z);
  (** sign and serialize compact: the 64 bytes and the recovery id *)
  secp256k1_ecdsa_sign_recoverable : list Z -> list Z -> option (list Z * Z);
  (** parse compact and recover *)
  secp256k1_ecdsa_recover : list Z -> Z -> list Z -> option pubkey
}.

Definition ec_secret_size : nat := 32.
Definition ec_compressed_size : nat := 33.
Definition ec_uncompressed_size : nat := 65.
Definition ec_signature_size : nat := 64.
Definition max_der_signature_size : nat := 72.
Definition ec_even_sign : Z := 2.

Definition null_compressed_point : list Z := repeat 0 33.
Definition null_uncompressed_point : list Z := repeat 0 65.

Module elliptic_curve.
Section Elliptic.
Context `{Secp256k1}.

Definition parse (point : list Z) : option pubkey := secp256k1_ec_pubkey_parse point.

(** [serialize<Size>] *)
Definition serialize (size : nat) (point : pubkey) : option (list Z) :=
  let out := secp256k1_ec_pubkey_serialize (size =? ec_compressed_size)%nat point in
  if (length out =? size)%nat then Some out else None.

(** [ec_add] and [ec_multiply] of a point, whose size is kept. *)
Definition ec_add_point (point secret : list Z) : option (list Z) :=
  p ← parse point; q ← secp256k1_ec_pubkey_tweak_add p secret; serialize (length point) q.

Definition ec_multiply_point (point secret : list Z) : option (list Z) :=
  p ← parse point; q ← secp256k1_ec_pubkey_tweak_mul p secret; serialize (length point) q.

Definition ec_add_secret (left right : list Z) : option (list Z) := secp256k1_ec_privkey_tweak_add left right.
Definition ec_multiply_secret (left right : list Z) : option (list Z) := secp256k1_ec_privkey_tweak_mul left right.

Definition compress (point : list Z) : option (list Z) :=
  p ← parse point; serialize ec_compressed_size p.

Definition decompress (point : list Z) : option (list Z) :=
  p ← parse point; serialize ec_uncompressed_size p.

(** [secret_to_public<Size>] *)
Definition secret_to_public (size : nat) (secret : list Z) : option (list Z) :=
  p ← secp256k1_ec_pubkey_create secret; serialize size p.

Definition verify_secret (secret : list Z) : bool := secp256k1_ec_seckey_verify secret.
Definition verify_point (point : list Z) : bool := bool_decide (is_Some (parse point)).

Definition is_even_key (point : list Z) : bool := hd 0 point =? ec_even_sign.

Definition parse_signature (der_signature : list Z) (strict : bool) : option (list Z) :=
  match der_signature with
  | [] => None
  | _ => if strict then secp256k1_ecdsa_signature_parse_der der_signature
         else lax_der.ecdsa_signature_parse_der_lax secp256k1_ecdsa_signature_parse_compact der_signature
  end.

Definition encode_signature (signature : list Z) : option (list Z) :=
  secp256k1_ecdsa_signature_serialize_der max_der_signature_size signature.

Definition sign (secret hash : list Z) : option (list Z) := secp256k1_ecdsa_sign hash secret.

Definition verify_signature (point hash signature : list Z) : bool :=
  let normal := secp256k1_ecdsa_signature_normalize signature in
  match secp256k1_ec_pubkey_parse point with
  | Some p => secp256k1_ecdsa_verify normal hash p
  | None => false
  end.

(** A [recoverable_signature] is the compact signature and the recovery id. *)
Definition sign_recoverable (secret hash : list Z) : option (list Z * Z) :=
  secp256k1_ecdsa_sign_recoverable hash secret.

(** [recover_public<Size>] *)
Definition recover_public (size : nat) (recoverable : list Z * Z) (hash : list Z) : option (list Z) :=
  p ← secp256k1_ecdsa_recover (fst recoverable) (snd recoverable) hash; serialize size p.

(** The functions the interpreter calls. *)
#[global] Instance secp256k1_ecdsa : Ecdsa := {|
  Sighash.parse_signature := parse_signature;
  Sighash.verify_signature := verify_signature
|}.

(** [script::create_endorsement] *)
Definition create_endorsement `{Currency} `{Crypto} (secret : list Z) (prevout_script : script)
    (tx : transaction) (input_index : nat) (sighash_type : Z) (v : script_version) (value : Z) :
    option (list Z) :=
  let sighash := generate_signature_hash tx input_index prevout_script sighash_type v value in
  signature ← sign secret sighash;
  out ← encode_signature signature;
  Some (out ++ [sighash_type]).
End Elliptic.
End elliptic_curve.

(** ** What the library documents *)

Class Secp256k1Laws `{Secp256k1} := {
  serialize_length compressed p :
    length (secp256k1_ec_pubkey_serialize compressed p) = if compressed : bool then 33%nat else 65%nat;
  serialize_bytes compressed p : bytes_ok (secp256k1_ec_pubkey_serialize compressed p);
  (** the header byte *)
  serialize_header compressed p :
    if compressed : bool then
      hd 0 (secp256k1_ec_pubkey_serialize compressed p) = 2 \/ hd 0 (secp256k1_ec_pubkey_serialize compressed p) = 3
    else hd 0 (secp256k1_ec_pubkey_serialize compressed p) = 4;
  parse_serialize compressed p :
    secp256k1_ec_pubkey_parse (secp256k1_ec_pubkey_serialize compressed p) = Some p;
  (** a public key is created exactly for a valid secret *)
  create_valid secret :
    length secret = 32%nat -> is_Some (secp256k1_ec_pubkey_create secret) <-> secp256k1_ec_seckey_verify secret = true;
  (** the public key of a tweaked secret is the tweaked public key, and a tweak
      that fails for the one fails for the other *)
  tweak_add_create secret tweak p :
    secp256k1_ec_pubkey_create secret = Some p ->
    secp256k1_ec_pubkey_tweak_add p tweak =
    (secp256k1_ec_privkey_tweak_add secret tweak ≫= secp256k1_ec_pubkey_create);
  tweak_add_length secret tweak secret' :
    secp256k1_ec_privkey_tweak_add secret tweak = Some secret' -> length secret' = 32%nat /\ bytes_ok secret';
  (** a valid secret signs, its signature is encoded within 72 bytes as the two
      integers of its compact form, and it is verified with the public key *)
  sign_valid hash secret p :
    secp256k1_ec_pubkey_create secret = Some p ->
    exists signature der,
      secp256k1_ecdsa_sign hash secret = Some signature /\
      secp256k1_ecdsa_verify (secp256k1_ecdsa_signature_normalize signature) hash p = true /\
      secp256k1_ecdsa_signature_serialize_der 72 signature = Some der /\
      (8 <= length der <= 72)%nat /\ bytes_ok der /\
      secp256k1_ecdsa_signature_parse_der der = Some signature /\
      exists r s,
        der = [0x30; zlen r + zlen s + 4] ++ [0x02; zlen r] ++ r ++ [0x02; zlen s] ++ s /\
        zlen r <= 33 /\ zlen s <= 33 /\ (length (strip_zeros r) <= 32)%nat /\ (length (strip_zeros s) <= 32)%nat /\
        secp256k1_ecdsa_signature_parse_compact
          (lax_der.right_aligned (strip_zeros r) ++ lax_der.right_aligned (strip_zeros s)) = Some signature;
  (** and signs recoverably: the compact signature gives the public key back *)
  sign_recoverable_valid hash secret p :
    secp256k1_ec_pubkey_create secret = Some p ->
    exists signature id,
      secp256k1_ecdsa_sign_recoverable hash secret = Some (signature, id) /\
      length signature = 64%nat /\ 0 <= id <= 3 /\
      secp256k1_ecdsa_recover signature id hash = Some p;
  (** multiplication by two secrets does not depend on their order *)
  tweak_mul_comm a b p q :
    secp256k1_ec_pubkey_create a = Some p -> secp256k1_ec_pubkey_create b = Some q ->
    secp256k1_ec_pubkey_tweak_mul p b = secp256k1_ec_pubkey_tweak_mul q a;
  (** the public key of a multiplied secret is the multiplied public key *)
  tweak_mul_create secret tweak p :
    secp256k1_ec_pubkey_create secret = Some p ->
    secp256k1_ec_pubkey_tweak_mul p tweak =
    (secp256k1_ec_privkey_tweak_mul secret tweak ≫= secp256k1_ec_pubkey_create)
}.

Section Laws.
Context `{Secp256k1Laws}.

Import elliptic_curve.

Lemma serialize_point compressed p :
  serialize (if compressed : bool then 33 else 65) p = Some (secp256k1_ec_pubkey_serialize compressed p).
Proof.
  unfold serialize, ec_compressed_size. destruct compressed; simpl (_ =? _)%nat; by rewrite serialize_length.
Qed.

Lemma compressed_is_key p : is_compressed_key (secp256k1_ec_pubkey_serialize true p) = true.
Proof.
  pose proof (serialize_header true p) as Hh. unfold is_compressed_key, zlen. simpl in Hh.
  rewrite serialize_length. destruct Hh as [-> | ->]; done.
Qed.

Lemma uncompressed_is_key p : is_uncompressed_key (secp256k1_ec_pubkey_serialize false p) = true.
Proof.
  pose proof (serialize_header false p) as Hh. unfold is_uncompressed_key, zlen. simpl in Hh.
  by rewrite serialize_length, Hh.
Qed.

Lemma compress_uncompressed p :
  compress (secp256k1_ec_pubkey_serialize false p) = Some (secp256k1_ec_pubkey_serialize true p).
Proof. unfold compress, parse. rewrite parse_serialize. simpl. apply (serialize_point true). Qed.

Lemma decompress_compressed p :
  decompress (secp256k1_ec_pubkey_serialize true p) = Some (secp256k1_ec_pubkey_serialize false p).
Proof. unfold decompress, parse. rewrite parse_serialize. simpl. apply (serialize_point false). Qed.

Lemma ec_add_compressed p tweak :
  ec_add_point (secp256k1_ec_pubkey_serialize true p) tweak =
  secp256k1_ec_pubkey_serialize true <$> secp256k1_ec_pubkey_tweak_add p tweak.
Proof.
  unfold ec_add_point, parse. rewrite parse_serialize, serialize_length. simpl.
  destruct (secp256k1_ec_pubkey_tweak_add p tweak) as [q|]; [|done]. apply (serialize_point true).
Qed.

(** The lax parser takes what the library encodes. *)
Lemma signed_der_lax signature der r s :
  bytes_ok der -> der = [0x30; zlen r + zlen s + 4] ++ [0x02; zlen r] ++ r ++ [0x02; zlen s] ++ s ->
  zlen r <= 33 -> zlen s <= 33 -> (length (strip_zeros r) <= 32)%nat -> (length (strip_zeros s) <= 32)%nat ->
  secp256k1_ecdsa_signature_parse_compact
    (lax_der.right_aligned (strip_zeros r) ++ lax_der.right_aligned (strip_zeros s)) = Some signature ->
  lax_der.ecdsa_signature_parse_der_lax secp256k1_ecdsa_signature_parse_compact der = Some signature.
Proof.
  intros Hb -> Hr Hs Hsr Hss Hc. unfold bytes_ok in Hb. rewrite !Forall_app in Hb. destruct Hb as (_ & _ & Hbr & _ & Hbs).
  rewrite lax_der.lax_parses_der by (try done; lia). f_equal. unfold lax_der.finish, lax_der.parse_compact.
  rewrite (proj2 (Nat.ltb_ge _ _)), (proj2 (Nat.ltb_ge _ _)) by lia. cbn [orb]. by rewrite Hc.
Qed.

(** An endorsement created for an input with a valid secret has the size
    and the type of an endorsement, parses under both encodings rules, and its
    signature passes check_signature for the public key of the secret, in
    either form, on the same transaction, script and value. *)
Lemma endorsement_verifies `{Currency} `{Crypto} secret p compressed sc tx i ty v value :
  secp256k1_ec_pubkey_create secret = Some p ->
  exists out signature,
    create_endorsement secret sc tx i ty v value = Some (out ++ [ty]) /\
    bytes_ok out /\ is_endorsement (out ++ [ty]) = true /\
    (forall strict, parse_signature out strict = Some signature) /\
    check_signature signature ty (secp256k1_ec_pubkey_serialize compressed p) sc tx i v value = true.
Proof.
  intros Hp. set (h := generate_signature_hash tx i sc ty v value).
  destruct (sign_valid h secret p Hp) as (signature & der & Hs & Hv & Hd & Hl & Hb & Hstrict & r & s & Hder & Hr & Hss & Hsr & Hsss & Hc).
  pose proof (signed_der_lax signature der r s Hb Hder Hr Hss Hsr Hsss Hc) as Hlax.
  exists der, signature. split_and!.
  - unfold create_endorsement, sign. fold h. rewrite Hs. simpl. unfold encode_signature, max_der_signature_size.
    by rewrite Hd.
  - exact Hb.
  - unfold is_endorsement, zlen. rewrite length_app, andb_true_iff, Z.geb_le, Z.leb_le. simpl length. lia.
  - intros []; unfold parse_signature; by destruct der; [simpl in Hl; lia|].
  - unfold check_signature. pose proof (serialize_length compressed p) as Hlen.
    destruct (secp256k1_ec_pubkey_serialize compressed p) as [|b bs] eqn:E; [by destruct compressed|].
    simpl. unfold verify_signature. rewrite <- E, parse_serialize. exact Hv.
Qed.
End Laws.
