(* ===== verification/Keys.v ===== *)
(** Keys and addresses of the wallet: [ec_public], [ec_private] and
    [payment_address] of [src/wallet], over the elliptic curve functions, the
    checksum and the text formats. A [short_hash], [ec_secret] or
    [ec_compressed] array is the list of its bytes. *)

From S2P Require Import Prelude Limits Endian Reader Writer Codes Operation Script Patterns Radix Base16 Base58 Cashaddr ConvertBits Data Compact Header Checksum Sighash Elliptic.

(** ** Public keys

    [version_] is never initialized and is compared by [operator==], so its
    values are arguments of the comparison. *)

Module ec_public.
Section Public.
Context `{Currency} `{Secp256k1}.

Record t := mk { valid : bool; compress : bool; point : list Z }.

Definition compressed_even : Z := 0x02.
Definition compressed_odd : Z := 0x03.
Definition uncompressed : Z := 0x04.
Definition mainnet_p2kh : Z := if is_ltc then 0x30 else 0x00.

Definition default : t := mk false true null_compressed_point.

(** [ec_public(const ec_compressed&, bool)] *)
Definition of_compressed (point : list Z) (compress : bool) : t := mk true compress point.

Definition is_point (decoded : list Z) : bool := is_public_key decoded.

Definition from_data (decoded : list Z) : t :=
  if negb (is_point decoded) then default
  else if (length decoded =? ec_compressed_size)%nat then of_compressed decoded true
  else match elliptic_curve.compress decoded with
       | Some compressed => of_compressed compressed false
       | None => default
       end.

Definition from_string (base16 : list Z) : t :=
  match decode_base16 base16 with
  | None => default
  | Some decoded => from_data decoded
  end.

Definition from_point (point : list Z) (compress : bool) : t :=
  if negb (is_point point) then default
  else match elliptic_curve.compress point with
       | Some compressed => of_compressed compressed compress
       | None => default
       end.

Definition to_uncompressed (a : t) : option (list Z) :=
  if negb (valid a) then None else elliptic_curve.decompress (point a).

Definition encoded (a : t) : list Z :=
  if compress a then encode_base16 (point a)
  else encode_base16 (match to_uncompressed a with
                      | Some uncompressed => uncompressed
                      | None => null_uncompressed_point
                      end).

Definition to_data (a : t) : option (list Z) :=
  if negb (valid a) then None
  else if compress a then Some (point a)
  else to_uncompressed a.

Definition assign (self other : t) : t := mk (valid other) (compress other) (point other).

Definition eqb (a b : t) (version_a version_b : Z) : bool :=
  Bool.eqb (valid a) (valid b) && Bool.eqb (compress a) (compress b) &&
  (version_a =? version_b) && bool_decide (point a = point b).
End Public.
End ec_public.

(** ** Private keys *)

Module ec_private.
Section Private.
Context `{Currency} `{Crypto} `{Secp256k1}.

Record t := mk { valid : bool; compress : bool; version : Z; secret : list Z }.

Definition wif_uncompressed_size : nat := 37.
Definition wif_compressed_size : nat := wif_uncompressed_size + 1.

Definition to_address_prefix (version : Z) : Z := u8 (Z.land version 0x00FF).
Definition to_wif_prefix (version : Z) : Z := u8 (Z.shiftr version 8).
Definition to_version (address wif : Z) : Z := u16 (Z.lor (Z.shiftl wif 8) address).

Definition compressed_sentinel : Z := 0x01.
Definition mainnet_wif : Z := if is_ltc then 0xb0 else 0x80.
Definition mainnet_p2kh : Z := if is_ltc then 0x30 else 0x00.
Definition mainnet : Z := to_version mainnet_p2kh mainnet_wif.
Definition testnet_wif : Z := 0xef.
Definition testnet_p2kh : Z := 0x6f.
Definition testnet : Z := to_version testnet_p2kh testnet_wif.

Definition default : t := mk false true 0 null_hash.

(** [ec_private(const ec_secret&, uint16_t, bool)] *)
Definition of_secret (secret : list Z) (version : Z) (compress : bool) : t := mk true compress version secret.

Definition is_wif (decoded : list Z) : bool :=
  let size := length decoded in
  if negb (size =? wif_compressed_size)%nat && negb (size =? wif_uncompressed_size)%nat then false
  else if negb (checksum.verify_checksum decoded) then false
  else (size =? wif_uncompressed_size)%nat || (nth (1 + ec_secret_size) decoded 0 =? compressed_sentinel).

Definition from_compressed (wif : list Z) (address_version : Z) : t :=
  if negb (is_wif wif) then default
  else of_secret (slice 1 (ec_secret_size + 1) wif) (to_version address_version (hd 0 wif)) true.

Definition from_uncompressed (wif : list Z) (address_version : Z) : t :=
  if negb (is_wif wif) then default
  else of_secret (slice 1 (ec_secret_size + 1) wif) (to_version address_version (hd 0 wif)) false.

Definition from_string (wif : list Z) (address_version : Z) : t :=
  match decode_base58 wif with
  | None => default
  | Some decoded =>
      if negb (is_wif decoded) then default
      else if (length decoded =? wif_compressed_size)%nat
      then from_compressed decoded address_version
      else from_uncompressed decoded address_version
  end.

Definition payment_version (k : t) : Z := to_address_prefix (version k).
Definition wif_version (k : t) : Z := to_wif_prefix (version k).

Definition encoded (k : t) : list Z :=
  if compress k then
    encode_base58 (fst (checksum.build_checked_array (repeat 0 wif_compressed_size)
                          [[wif_version k]; secret k; [compressed_sentinel]]))
  else
    encode_base58 (fst (checksum.build_checked_array (repeat 0 wif_uncompressed_size)
                          [[wif_version k]; secret k])).

Definition to_public (k : t) : ec_public.t :=
  if valid k then
    match elliptic_curve.secret_to_public ec_compressed_size (secret k) with
    | Some point => ec_public.of_compressed point (compress k)
    | None => ec_public.default
    end
  else ec_public.default.

Definition assign (self other : t) : t := mk (valid other) (compress other) (version other) (secret other).

Definition eqb (a b : t) : bool :=
  Bool.eqb (valid a) (valid b) && Bool.eqb (compress a) (compress b) &&
  (version a =? version b) && bool_decide (secret a = secret b).

(** [ec_public::from_private] *)
Definition public_from_private (k : t) : ec_public.t :=
  if negb (valid k) then ec_public.default else to_public k.
End Private.
End ec_private.

(** ** Payment addresses *)

Module payment_address.
Section Address.
Context `{Currency} `{Crypto} `{Secp256k1}.

Record t := mk { valid : bool; version : Z; hash : list Z }.

Definition payment_size : nat := 1 + short_hash_size + 4.

Definition mainnet_p2kh : Z := if is_ltc then 0x30 else 0x00.
Definition mainnet_p2sh : Z := 0x05.
Definition testnet_p2kh : Z := 0x6f.
Definition testnet_p2sh : Z := 0xc4.
Definition cashaddr_prefix_mainnet : list Z := chars "bitcoincash".
Definition cashaddr_prefix_testnet : list Z := chars "bchtest".

Definition default : t := mk false 0 (repeat 0 20).

(** [payment_address(const short_hash&, uint8_t)] *)
Definition of_hash (hash : list Z) (version : Z) : t := mk true version hash.

Definition is_address (decoded : list Z) : bool :=
  (length decoded =? payment_size)%nat && checksum.verify_checksum decoded.

Definition from_payment (decoded : list Z) : t :=
  if negb (is_address decoded) then default
  else of_hash (slice 1 (short_hash_size + 1) decoded) (hd 0 decoded).

(** [PUBKEY_TYPE] is 0; every other type is taken for [SCRIPT_TYPE]. The
    decoded hash is copied into 20 bytes whatever its size; [None] if it is
    longer, or if the decoding throws. *)
Definition PUBKEY_TYPE : Z := 0.
Definition SCRIPT_TYPE : Z := 1.

Definition from_string_cashaddr (cashaddr_prefix address : list Z) : option t :=
  '(prefix, payload) ← cashaddr.decode address cashaddr_prefix;
  if negb (bool_decide (prefix = cashaddr_prefix)) then Some default
  else if (length payload =? 0)%nat then Some default
  else
    let extrabits := (zlen payload * 5) mod 8 in
    if extrabits >=? 5 then Some default
    else
      let last := List.last payload 0 in
      let mask := u8 (Z.shiftl 1 extrabits - 1) in
      if negb (Z.land last mask =? 0) then Some default
      else
        let data := fst (ConvertBits 5 8 false payload) in
        let version := hd 0 data in
        if negb (Z.land version 0x80 =? 0) then Some default
        else
          let type := Z.land (Z.shiftr version 3) 0x1f in
          let size := 20 + 4 * Z.land version 0x03 in
          let size := if negb (Z.land version 0x04 =? 0) then size * 2 else size in
          if negb (zlen data =? size + 1) then Some default
          else if size >? Z.of_nat short_hash_size then None
          else if bool_decide (prefix = cashaddr_prefix_mainnet)
          then Some (of_hash (drop 1 data) (if type =? PUBKEY_TYPE then mainnet_p2kh else mainnet_p2sh))
          else Some (of_hash (drop 1 data) (if type =? PUBKEY_TYPE then testnet_p2kh else testnet_p2sh)).

(** [cashaddr_prefix] is the value of the global prefix. *)
Definition from_string (cashaddr_prefix address : list Z) : option t :=
  let refused := if is_bch then from_string_cashaddr cashaddr_prefix address else Some default in
  match decode_base58_array payment_size address with
  | None => refused
  | Some decoded => if negb (is_address decoded) then refused else Some (from_payment decoded)
  end.

Definition from_public (point : ec_public.t) (version : Z) : t :=
  if negb (ec_public.valid point) then default
  else match ec_public.to_data point with
       | None => default
       | Some data => of_hash (bitcoin_short_hash data) version
       end.

Definition from_private (secret : ec_private.t) : t :=
  if negb (ec_private.valid secret) then default
  else from_public (ec_private.to_public secret) (ec_private.payment_version secret).

Definition from_script (s : script) (version : Z) : t :=
  of_hash (bitcoin_short_hash (script_to_data false s)) version.

Definition to_payment (a : t) : list Z := checksum.wrap (version a) (hash a).
Definition encoded (a : t) : list Z := encode_base58 (checksum.wrap (version a) (hash a)).

(** [None]: a size that is not one of the eight, which throws. *)
Definition encoded_size (size : Z) : option Z :=
  if size * 8 =? 160 then Some 0
  else if size * 8 =? 192 then Some 1
  else if size * 8 =? 224 then Some 2
  else if size * 8 =? 256 then Some 3
  else if size * 8 =? 320 then Some 4
  else if size * 8 =? 384 then Some 5
  else if size * 8 =? 448 then Some 6
  else if size * 8 =? 512 then Some 7
  else None.

Definition pack_addr_data_ (id : list Z) (type : Z) : option (list Z) :=
  size ← encoded_size (zlen id);
  let version_byte := Z.lor (u8 (Z.shiftl type 3)) size in
  Some (fst (ConvertBits 8 5 true (version_byte :: id))).

Definition encode_cashaddr_ (wallet : t) : option (list Z) :=
  if (version wallet =? mainnet_p2kh) || (version wallet =? mainnet_p2sh) then
    data ← pack_addr_data_ (hash wallet) (if version wallet =? mainnet_p2kh then PUBKEY_TYPE else SCRIPT_TYPE);
    Some (cashaddr.encode cashaddr_prefix_mainnet data)
  else if (version wallet =? testnet_p2kh) || (version wallet =? testnet_p2sh) then
    data ← pack_addr_data_ (hash wallet) (if version wallet =? testnet_p2kh then PUBKEY_TYPE else SCRIPT_TYPE);
    Some (cashaddr.encode cashaddr_prefix_testnet data)
  else Some [].

Definition encoded_cashaddr (a : t) : option (list Z) := encode_cashaddr_ a.

Definition assign (self other : t) : t := mk (valid other) (version other) (hash other).

Definition eqb (a b : t) : bool :=
  Bool.eqb (valid a) (valid b) && (version a =? version b) && bool_decide (hash a = hash b).

(** [script[n].data()] *)
Definition data_at (s : script) (n : nat) : list Z := op_data (nth n (operations s) (op_of_code 0)).
Definition back_data (s : script) : list Z := op_data (List.last (operations s) (op_of_code 0)).

Definition extract_input (s : script) (p2kh_version p2sh_version : Z) : list t :=
  match input_pattern s with
  | sign_key_hash =>
      [from_public (ec_public.from_data (data_at s 1)) p2kh_version;
       of_hash (bitcoin_short_hash (back_data s)) p2sh_version]
  | sign_script_hash => [of_hash (bitcoin_short_hash (back_data s)) p2sh_version]
  | _ => []
  end.

Definition extract_output (s : script) (p2kh_version p2sh_version : Z) : list t :=
  match output_pattern s with
  | pay_key_hash => [of_hash (data_at s 2) p2kh_version]
  | pay_script_hash => [of_hash (data_at s 1) p2sh_version]
  | pay_public_key => [from_public (ec_public.from_data (data_at s 0)) p2kh_version]
  | _ => []
  end.

Definition extract (s : script) (p2kh_version p2sh_version : Z) : list t :=
  match extract_input s p2kh_version p2sh_version with
  | [] => extract_output s p2kh_version p2sh_version
  | input => input
  end.

(** [ec_public::to_payment_address], [ec_private::to_payment_address] *)
Definition public_to_payment_address (point : ec_public.t) (version : Z) : t := from_public point version.
Definition private_to_payment_address (k : ec_private.t) : t := from_private k.
End Address.
End payment_address.
