(* ===== verification/KeyRules.v ===== *)
(** What the wallet's keys and addresses promise: their text forms read back,
    an address is the address of the script that pays to it, and the texts that
    are read as an address are described exactly. *)

From S2P Require Import Prelude Limits Endian Reader Writer Codes Operation Script Patterns Radix Base16 Base58 Cashaddr ConvertBits Data Compact Header Checksum Sighash Elliptic Keys.

(** ** Base 58 texts *)

Lemma c_string_id s : Forall (fun c => c <> 0) s -> c_string s = s.
Proof.
  induction 1 as [|c s Hc _ IH]; [done|]. simpl. apply Z.eqb_neq in Hc. by rewrite Hc, IH.
Qed.

Lemma base58_nonzero s : is_base58 s = true -> Forall (fun c => c <> 0) s.
Proof.
  intros Hs. apply Forall_forall. intros c Hc%list_elem_of_In. unfold is_base58 in Hs. rewrite forallb_forall in Hs.
  intros ->. apply Hs in Hc. by vm_compute in Hc.
Qed.

Lemma encode_is_base58 d : bytes_ok d -> is_base58 (encode_base58 d) = true.
Proof.
  intros Hd. destruct (is_base58 (encode_base58 d)) eqn:E; [done|]. apply decode_base58_none in E.
  by rewrite decode_encode_base58 in E.
Qed.

Lemma decode_array_encode size d :
  bytes_ok d -> length d = size -> decode_base58_array size (encode_base58 d) = Some d.
Proof.
  intros Hd Hl. unfold decode_base58_array. rewrite c_string_id by (by apply base58_nonzero, encode_is_base58).
  rewrite decode_encode_base58 by done. by rewrite Hl, Nat.eqb_refl.
Qed.

Lemma decode_array_length size s d : decode_base58_array size s = Some d -> length d = size /\ bytes_ok d.
Proof.
  unfold decode_base58_array. destruct (decode_base58 (c_string s)) as [b|] eqn:E; [|done].
  destruct (Nat.eqb_spec (length b) size); [|done]. intros ?. simplify_eq. split; [done|].
  by apply encode_decode_base58 in E as [_ ?].
Qed.

Section Checksums.
Context `{Crypto} `{!checksum.CryptoLaws}.

Lemma append_checksum_bytes data : bytes_ok data -> bytes_ok (checksum.append_checksum data).
Proof. intros Hd. apply bytes_ok_app. split; [done|apply bytes_ok_to_little_endian]. Qed.

(** [build_checked_array] over an array that the slices and the checksum fill. *)
Lemma build_checked slices size :
  (length (concat slices) + 4)%nat = size ->
  checksum.build_checked_array (repeat 0 size) slices = (checksum.append_checksum (concat slices), true).
Proof.
  intros Hl. unfold checksum.build_checked_array.
  rewrite build_array_fits by (rewrite repeat_length; lia). cbn [negb].
  apply checksum.insert_checksum_app. rewrite length_drop, repeat_length. lia.
Qed.
End Checksums.

(** ** Payment addresses *)

Definition address_ok (a : payment_address.t) : Prop :=
  payment_address.valid a = true /\ byte_ok (payment_address.version a) /\
  length (payment_address.hash a) = 20%nat /\ bytes_ok (payment_address.hash a).

Section Addresses.
Context `{Currency} `{Crypto} `{!checksum.CryptoLaws} `{Secp256k1}.

Import payment_address.

Lemma address_eta a : valid a = true -> of_hash (hash a) (version a) = a.
Proof. destruct a as [v ver h]. simpl. by intros ->. Qed.

Lemma from_string_encoded prefix a : address_ok a -> from_string prefix (encoded a) = Some a.
Proof.
  intros (Hv & Hver & Hl & Hb). unfold from_string, encoded. rewrite checksum.wrap_eq.
  set (d := version a :: hash a). assert (Hd : bytes_ok d) by (by apply bytes_ok_cons).
  rewrite decode_array_encode; [|by apply append_checksum_bytes|].
  2: { unfold d. rewrite checksum.append_checksum_length. simpl. by rewrite Hl. }
  assert (Ha : is_address (checksum.append_checksum d) = true).
  { unfold is_address. rewrite checksum.verify_append, andb_true_r, checksum.append_checksum_length.
    unfold d. simpl. by rewrite Hl. }
  rewrite Ha. cbn [negb]. f_equal. unfold from_payment. rewrite Ha. cbn [negb].
  unfold slice, checksum.append_checksum, d. cbn [app drop hd].
  rewrite drop_0, <- (address_eta a Hv). f_equal. unfold short_hash_size.
  replace (20 + 1 - 1)%nat with (length (hash a)) by lia. by rewrite take_app_length.
Qed.

Lemma lower_prefix_mainnet : Forall (fun c => cashaddr.is_lower c = true) cashaddr_prefix_mainnet.
Proof. by repeat constructor. Qed.
Lemma lower_prefix_testnet : Forall (fun c => cashaddr.is_lower c = true) cashaddr_prefix_testnet.
Proof. by repeat constructor. Qed.

(** The mask of the padding, as a byte. *)
Lemma extra_mask n : u8 (Z.shiftl 1 (n mod 8) - 1) = Z.shiftl 1 (n mod 8) - 1.
Proof.
  pose proof (Z.mod_pos_bound n 8 ltac:(lia)). apply wrap_small. rewrite Z.shiftl_1_l.
  pose proof (pow2_pos (n mod 8) ltac:(lia)).
  assert (2 ^ (n mod 8) <= 2 ^ 8) by (apply Z.pow_le_mono_r; lia). unfold in_width. lia.
Qed.

(** A text with a prefix in lower case and a separator is not base 58. *)
Lemma separator_not_base58 size prefix t :
  Forall (fun c => cashaddr.is_lower c = true) prefix ->
  decode_base58_array size (prefix ++ 58 :: t) = None.
Proof.
  intros Hp. unfold decode_base58_array.
  assert (Hz : c_string (prefix ++ 58 :: t) = prefix ++ 58 :: c_string t).
  { induction Hp as [|c prefix Hc _ IH]; [done|]. cbn [app c_string]. rewrite IH.
    destruct (Z.eqb_spec c 0) as [->|]; done. }
  rewrite Hz. replace (decode_base58 (prefix ++ 58 :: c_string t)) with (None (A := list Z)); [done|].
  symmetry. apply decode_base58_none. unfold is_base58. rewrite forallb_app.
  cbn [app forallb]. by rewrite andb_false_r.
Qed.


(** The version that is read for a type in a network. *)
Definition network_version (prefix : list Z) (type : Z) : Z :=
  if bool_decide (prefix = cashaddr_prefix_mainnet)
  then (if type =? PUBKEY_TYPE then mainnet_p2kh else mainnet_p2sh)
  else (if type =? PUBKEY_TYPE then testnet_p2kh else testnet_p2sh).

Definition is_network (prefix : list Z) : Prop :=
  prefix = cashaddr_prefix_mainnet \/ prefix = cashaddr_prefix_testnet.

Lemma network_lower prefix :
  is_network prefix -> Forall (fun c => cashaddr.is_lower c = true) prefix /\ prefix <> [].
Proof. by intros [-> | ->]; (split; [apply lower_prefix_mainnet || apply lower_prefix_testnet|]). Qed.


(** The byte of a type below 16 with a hash of 20 bytes, and its parts. *)
Lemma version_byte type : 0 <= type < 16 ->
  Z.lor (u8 (Z.shiftl type 3)) 0 = 8 * type /\ (Z.land (8 * type) 0x80 =? 0) = true /\
  Z.land (Z.shiftr (8 * type) 3) 0x1f = type /\ Z.land (8 * type) 0x03 = 0 /\
  (Z.land (8 * type) 0x04 =? 0) = true.
Proof.
  intros Ht. assert (Hin : In type (map Z.of_nat (seq 0 16))).
  { apply in_map_iff. exists (Z.to_nat type). rewrite in_seq. lia. }
  clear Ht. revert type Hin. apply List.Forall_forall. repeat constructor.
Qed.


(** What is packed for a hash of 20 bytes and a type is unpacked from its text. *)
Lemma from_packed prefix type h :
  is_network prefix -> 0 <= type < 16 -> length h = 20%nat -> bytes_ok h ->
  exists data, pack_addr_data_ h type = Some data /\ Forall cashaddr.value_ok data /\
    from_string_cashaddr prefix (cashaddr.encode prefix data) = Some (of_hash h (network_version prefix type)).
Proof.
  intros Hpre Hty Hl Hb. unfold pack_addr_data_, zlen. rewrite Hl. change (encoded_size (Z.of_nat 20)) with (Some 0). cbn [mbind option_bind].
  destruct (version_byte type Hty) as (-> & B1 & B2 & B3 & B4).
  destruct (unpack_pack (8 * type :: h)) as (data & E & Hne & Hok & Hx & Hlast & Hu); [|done|].
  { apply bytes_ok_cons. split; [|done]. unfold byte_ok. lia. }
  rewrite E. cbn [fst]. exists data. split; [done|]. split; [done|].
  destruct (network_lower prefix Hpre) as [Hlow Hnil].
  unfold from_string_cashaddr. rewrite cashaddr.decode_encode by done. cbn [mbind option_bind].
  rewrite bool_decide_eq_true_2 by done. cbn [negb].
  destruct (Nat.eqb_spec (length data) 0); [by destruct data|].
  destruct (Z.geb_spec ((zlen data * 5) mod 8) 5); [lia|].
  rewrite extra_mask, Hlast, Hu. cbn [negb hd drop]. unfold zlen. cbn [length]. rewrite Hl, drop_0.
  rewrite B1, B2, B3, B4. cbn [negb]. simpl (_ =? _ + 1). simpl (_ >? _). cbn [negb].
  unfold network_version. by destruct (bool_decide _).
Qed.


Lemma from_string_encoded_cashaddr prefix a text :
  is_bch = true -> address_ok a ->
  (prefix = cashaddr_prefix_mainnet /\ (version a = mainnet_p2kh \/ version a = mainnet_p2sh)) \/
  (prefix = cashaddr_prefix_testnet /\ (version a = testnet_p2kh \/ version a = testnet_p2sh)) ->
  encoded_cashaddr a = Some text -> from_string prefix text = Some a.
Proof.
  intros Hbch (Hv & Hver & Hl & Hb) Hnet Ht. rewrite <- (address_eta a Hv).
  assert (Hltc : is_ltc = false) by (unfold is_bch, is_ltc in *; by destruct get_currency).
  assert (Hk : mainnet_p2kh = 0) by (unfold mainnet_p2kh; by rewrite Hltc).
  assert (Hgo : forall pre ver ty, (pre = cashaddr_prefix_mainnet \/ pre = cashaddr_prefix_testnet) ->
     0 <= ty < 16 -> ver = network_version pre ty ->
     (data ← pack_addr_data_ (hash a) ty; Some (cashaddr.encode pre data)) = Some text ->
     from_string pre text = Some (of_hash (hash a) ver)).
  { intros pre ver ty Hp Hty -> Hpack.
    destruct (from_packed pre ty (hash a) Hp Hty Hl Hb) as (data & E & Hok & Hfrom).
    rewrite E in Hpack. simpl in Hpack. simplify_eq. unfold from_string. rewrite Hbch.
    unfold cashaddr.encode in *. cbn [app] in *. by rewrite separator_not_base58 by apply network_lower, Hp. }
  unfold encoded_cashaddr, encode_cashaddr_ in Ht. rewrite Hk in *. clear Hver.
  destruct Hnet as [[-> Hver]|[-> Hver]]; destruct Hver as [Hver|Hver]; rewrite Hver in *.
  - apply (Hgo _ _ PUBKEY_TYPE); [by left|done|done|done].
  - apply (Hgo _ _ SCRIPT_TYPE); [by left|done|done|done].
  - apply (Hgo _ _ PUBKEY_TYPE); [by right|done|done|done].
  - apply (Hgo _ _ SCRIPT_TYPE); [by right|done|done|done].
Qed.



(** C18: A payment address is read back from its base 58 text; and in a
    Bitcoin Cash build, an address with a version of the network of the prefix
    has a cashaddr text, from which it is read back. *)
Theorem address_texts_roundtrip prefix a :
  address_ok a ->
  from_string prefix (encoded a) = Some a /\
  (is_bch = true ->
   (prefix = cashaddr_prefix_mainnet /\ (version a = mainnet_p2kh \/ version a = mainnet_p2sh)) \/
   (prefix = cashaddr_prefix_testnet /\ (version a = testnet_p2kh \/ version a = testnet_p2sh)) ->
   exists text, encoded_cashaddr a = Some text /\ from_string prefix text = Some a).
Proof.
  intros Ha. split; [by apply from_string_encoded|]. intros Hb Hp.
  destruct (encoded_cashaddr a) as [text|] eqn:E.
  - exists text. split; [done|]. by apply (from_string_encoded_cashaddr prefix a).
  - exfalso. destruct Ha as (_ & _ & Hl & _). revert E.
    unfold encoded_cashaddr, encode_cashaddr_, pack_addr_data_, zlen. rewrite Hl. simpl.
    repeat case_match; done.
Qed.
End Addresses.

(** ** Private keys *)

Definition private_ok (k : ec_private.t) : Prop :=
  ec_private.valid k = true /\ in_width 16 (ec_private.version k) /\
  length (ec_private.secret k) = 32%nat /\ bytes_ok (ec_private.secret k).

Section Privates.
Context `{Currency} `{Crypto} `{!checksum.CryptoLaws} `{Secp256k1}.

Import ec_private.

(** The version pairs the two prefixes. *)
Lemma version_prefixes v : in_width 16 v -> to_version (to_address_prefix v) (to_wif_prefix v) = v.
Proof.
  intros Hv. unfold in_width in Hv. unfold to_version, to_address_prefix, to_wif_prefix.
  change 0x00FF with (Z.ones 8). rewrite Z.land_ones, Z.shiftr_div_pow2 by lia.
  assert (Hq : 0 <= v / 2 ^ 8 < 2 ^ 8) by (split; [apply Z.div_pos; lia|apply Z.div_lt_upper_bound; lia]).
  pose proof (Z.mod_pos_bound v (2 ^ 8) ltac:(lia)) as Hm.
  unfold u8, u16. rewrite (wrap_small 8 (v mod 2 ^ 8)), (wrap_small 8 (v / 2 ^ 8)) by (unfold in_width; lia).
  rewrite Z.lor_comm, lor_shiftl_add by lia. rewrite wrap_small by (unfold in_width; lia).
  rewrite (Z.div_mod v (2 ^ 8)) at 3 by lia. lia.
Qed.

Lemma wif_version_byte k : byte_ok (wif_version k).
Proof. apply u8_byte. Qed.

Lemma private_from_encoded k : private_ok k -> from_string (encoded k) (payment_version k) = k.
Proof.
  intros (Hv & Hver & Hl & Hb). pose proof (wif_version_byte k) as Hw.
  assert (Ek : forall c, compress k = c -> of_secret (secret k) (to_version (payment_version k) (wif_version k)) c = k).
  { intros c Hc. unfold payment_version, wif_version, of_secret. rewrite version_prefixes by done.
    destruct k; simpl in *; congruence. }
  unfold from_string, encoded. destruct (compress k) eqn:Ec.
  - rewrite build_checked by (simpl; rewrite length_app, Hl; done). cbn [fst concat].
    set (d := [wif_version k] ++ secret k ++ [compressed_sentinel] ++ []).
    assert (Hd : bytes_ok d).
    { unfold d. cbn [app]. apply bytes_ok_cons. split; [done|]. apply bytes_ok_app. by repeat constructor. }
    assert (Hld : length (checksum.append_checksum d) = 38%nat).
    { rewrite checksum.append_checksum_length. unfold d. simpl. rewrite length_app, Hl. done. }
    rewrite decode_encode_base58 by (by apply append_checksum_bytes).
    assert (Hwif : is_wif (checksum.append_checksum d) = true).
    { unfold is_wif. rewrite Hld, checksum.verify_append.
      replace (nth (1 + ec_secret_size) (checksum.append_checksum d) 0) with compressed_sentinel; [done|].
      unfold checksum.append_checksum, d, ec_secret_size. change (1 + 32)%nat with 33%nat. cbn [app nth].
      rewrite <- Hl, <- app_assoc, app_nth2, Nat.sub_diag by lia. done. }
    rewrite Hwif, Hld. cbn [negb]. change ((38 =? wif_compressed_size)%nat) with true. cbv iota.
    unfold from_compressed. rewrite Hwif. cbn [negb]. etransitivity; [|apply (Ek true eq_refl)]. f_equal.
    unfold slice, checksum.append_checksum, d, ec_secret_size. cbn [app drop].
    replace (32 + 1 - 1)%nat with (length (secret k)) by lia. by rewrite drop_0, <- app_assoc, take_app_length.
  - rewrite build_checked by (simpl; rewrite app_nil_r, Hl; done). cbn [fst concat].
    set (d := [wif_version k] ++ secret k ++ []).
    assert (Hd : bytes_ok d) by (unfold d; rewrite app_nil_r; by apply bytes_ok_cons).
    assert (Hld : length (checksum.append_checksum d) = 37%nat).
    { rewrite checksum.append_checksum_length. unfold d. simpl. rewrite app_nil_r, Hl. done. }
    rewrite decode_encode_base58 by (by apply append_checksum_bytes).
    assert (Hwif : is_wif (checksum.append_checksum d) = true).
    { unfold is_wif. rewrite Hld, checksum.verify_append. done. }
    rewrite Hwif, Hld. cbn [negb]. change ((37 =? wif_compressed_size)%nat) with false. cbv iota.
    unfold from_uncompressed. rewrite Hwif. cbn [negb]. etransitivity; [|apply (Ek false eq_refl)]. f_equal.
    unfold slice, checksum.append_checksum, d, ec_secret_size. cbn [app drop]. rewrite app_nil_r.
    replace (32 + 1 - 1)%nat with (length (secret k)) by lia. by rewrite drop_0, take_app_length.
Qed.
End Privates.

(** ** Public keys *)

Section Publics.
Context `{Currency} `{Secp256k1Laws}.

Import ec_public.

(** A key that holds a point of the curve. *)
Definition public_ok (a : t) : Prop :=
  valid a = true /\ exists p, point a = secp256k1_ec_pubkey_serialize true p.

(** The data and the text of a key, in either form, give it back. *)
Lemma public_from_data a :
  public_ok a -> exists data, to_data a = Some data /\ bytes_ok data /\ is_public_key data = true /\ from_data data = a.
Proof.
  intros (Hv & p & Hp). unfold to_data. rewrite Hv. cbn [negb]. destruct (compress a) eqn:Ec.
  - exists (point a). rewrite Hp. pose proof (compressed_is_key p) as Hk.
    assert (Hpk : is_public_key (secp256k1_ec_pubkey_serialize true p) = true) by (unfold is_public_key; by rewrite Hk).
    split_and!; [done|apply serialize_bytes|done|]. unfold from_data, is_point. rewrite Hpk. cbn [negb].
    rewrite serialize_length. simpl. destruct a; simpl in *. by subst.
  - unfold to_uncompressed. rewrite Hv, Hp, decompress_compressed. cbn [negb].
    exists (secp256k1_ec_pubkey_serialize false p). pose proof (uncompressed_is_key p) as Hk.
    assert (Hpk : is_public_key (secp256k1_ec_pubkey_serialize false p) = true)
      by (unfold is_public_key; by rewrite Hk, orb_true_r).
    split_and!; [done|apply serialize_bytes|done|]. unfold from_data, is_point. rewrite Hpk. cbn [negb].
    rewrite serialize_length, compress_uncompressed. simpl. destruct a; simpl in *. by subst.
Qed.

(** A valid secret has a public key. *)
Lemma to_public_ok `{Crypto} k p :
  ec_private.valid k = true -> secp256k1_ec_pubkey_create (ec_private.secret k) = Some p ->
  public_ok (ec_private.to_public k).
Proof.
  intros Hv Hp. unfold ec_private.to_public, elliptic_curve.secret_to_public. rewrite Hv, Hp.
  cbn [mbind option_bind]. change ec_compressed_size with 33%nat. rewrite (serialize_point true).
  split; [done|]. by exists p.
Qed.
End Publics.

(** ** Scripts that pay to an address *)

Section Extraction.
Context `{Currency} `{Crypto} `{Secp256k1}.

Import payment_address.

Lemma hash_payload h : length h = 20%nat -> op_of_data h true = mk_operation 20 h true.
Proof.
  intros Hl. destruct (op_of_data_payload h) as [-> _]; unfold max_push_data_size, zlen; rewrite Hl; [lia|done].
Qed.

(** The operations of the two scripts, built or parsed. *)
Lemma hash_ops_wf h :
  bytes_ok h -> length h = 20%nat ->
  Forall operation_wf (to_pay_key_hash_pattern h) /\ Forall operation_wf (to_pay_script_hash_pattern h).
Proof.
  intros Hb Hl. assert (Hd : operation_wf (op_of_data h true)).
  { apply op_of_data_wf; [done|]. unfold max_push_data_size, zlen. lia. }
  split; repeat (apply Forall_cons_2; [done || (apply op_of_code_wf; split; by vm_compute)|]); apply Forall_nil_2.
Qed.

Lemma extract_key_hash h p2kh p2sh :
  bytes_ok h -> length h = 20%nat ->
  extract_output (copy_script (from_operations (to_pay_key_hash_pattern h))) p2kh p2sh = [of_hash h p2kh].
Proof.
  intros Hb Hl. unfold extract_output. rewrite key_hash_recognized by (unfold zlen; by rewrite ?Hl).
  unfold data_at. rewrite copy_from_operations by (by apply hash_ops_wf).
  cbn [to_pay_key_hash_pattern nth]. by rewrite hash_payload.
Qed.

Lemma extract_script_hash h p2kh p2sh :
  bytes_ok h -> length h = 20%nat ->
  extract_output (copy_script (from_operations (to_pay_script_hash_pattern h))) p2kh p2sh = [of_hash h p2sh].
Proof.
  intros Hb Hl. unfold extract_output. rewrite script_hash_recognized by (unfold zlen; by rewrite ?Hl).
  unfold data_at. rewrite copy_from_operations by (by apply hash_ops_wf).
  cbn [to_pay_script_hash_pattern nth]. by rewrite hash_payload.
Qed.
End Extraction.

(** A key pays to the address of its public key, whichever form it is in. *)
Lemma extract_public_key `{Currency} `{Crypto} `{Secp256k1Laws} a data p2kh p2sh :
  public_ok a -> ec_public.to_data a = Some data ->
  payment_address.extract_output (copy_script (from_operations (to_pay_public_key_pattern data))) p2kh p2sh =
  [payment_address.from_public a p2kh].
Proof.
  intros Ha Hd. destruct (public_from_data a Ha) as (data' & Hd' & Hb & Hk & Hf).
  rewrite Hd in Hd'. apply (inj Some) in Hd'. subst data'.
  unfold payment_address.extract_output. rewrite public_key_recognized by done.
  destruct (op_of_key_wf data Hb Hk) as [Hwf Hop]. unfold payment_address.data_at, to_pay_public_key_pattern.
  rewrite Hk. cbn [negb]. rewrite copy_from_operations.
  - cbn [nth]. by rewrite Hop, Hf.
  - repeat (apply Forall_cons_2; [done || (apply op_of_code_wf; split; by vm_compute)|]). apply Forall_nil_2.
Qed.
