(* ===== verification/Addresses.v ===== *)
(** The payment addresses that outputs and inputs keep once they were asked for,
    [src/chain/output.cpp] and [src/chain/input.cpp], and the text of a witness,
    [src/chain/witness.cpp]. *)

From S2P Require Import Prelude Text Limits Endian Reader Writer Codes Operation Script Patterns Chain Radix Base16 Base58 Cashaddr ConvertBits Data Compact Header Checksum Elliptic Keys KeyRules.

(** ** Outputs *)

Module output_addresses.
Section Outputs.
Context `{Currency} `{Crypto} `{Secp256k1}.

(** An output with [addresses_], which is null or points to a list. *)
Record t := mk { object : output; addresses_ : option (list payment_address.t) }.

Definition new (value : Z) (s : script) : t := mk (new_output value (copy_script s)) None.
Definition default : t := mk default_output None.

(** Copying shares the list. *)
Definition addresses_cache (o : t) : option (list payment_address.t) := addresses_ o.
Definition copy (other : t) : t := mk (assign_output default_output (object other)) (addresses_cache other).
Definition assign (self other : t) : t := mk (assign_output (object self) (object other)) (addresses_cache other).

Definition invalidate_cache (o : t) : t := mk (object o) None.

Definition set_value (value : Z) (o : t) : t := mk (output_set_value value (object o)) (addresses_ o).
Definition set_script (s : script) (o : t) : t := invalidate_cache (mk (output_set_script s (object o)) (addresses_ o)).

Definition addresses (p2kh_version p2sh_version : Z) (o : t) : list payment_address.t * t :=
  let found :=
    match addresses_ o with
    | Some found => found
    | None => payment_address.extract_output (out_script (object o)) p2kh_version p2sh_version
    end in
  (found, mk (object o) (Some found)).

Definition address_of_versions (p2kh_version p2sh_version : Z) (o : t) : payment_address.t * t :=
  let '(value, o) := addresses p2kh_version p2sh_version o in (hd payment_address.default value, o).

Definition address (testnet : bool) (o : t) : payment_address.t * t :=
  if testnet then address_of_versions payment_address.testnet_p2kh payment_address.testnet_p2sh o
  else address_of_versions payment_address.mainnet_p2kh payment_address.mainnet_p2sh o.

(** [from_data] and the [reset] it starts with leave the list. *)
Definition from_data {R} `{Reader R} (wire : bool) (self : t) : rd R (t * bool) :=
  r <~ output_from_data wire (object self) ;; rret (mk (fst r) (addresses_ self), snd r).

(** ** When the list is that of the script *)

(** What the operations other than [from_data] make, when the addresses are
    always asked for with the same two versions. *)
Inductive reachable (p2kh_version p2sh_version : Z) : t -> Prop :=
| reachable_default : reachable p2kh_version p2sh_version default
| reachable_new value s : reachable p2kh_version p2sh_version (new value s)
| reachable_copy o : reachable p2kh_version p2sh_version o -> reachable p2kh_version p2sh_version (copy o)
| reachable_assign self o :
    reachable p2kh_version p2sh_version self -> reachable p2kh_version p2sh_version o ->
    reachable p2kh_version p2sh_version (assign self o)
| reachable_set_value value o : reachable p2kh_version p2sh_version o -> reachable p2kh_version p2sh_version (set_value value o)
| reachable_set_script s o : reachable p2kh_version p2sh_version o -> reachable p2kh_version p2sh_version (set_script s o)
| reachable_addresses o :
    reachable p2kh_version p2sh_version o ->
    reachable p2kh_version p2sh_version (snd (addresses p2kh_version p2sh_version o)).

Definition coherent (p2kh_version p2sh_version : Z) (o : t) : Prop :=
  forall found, addresses_ o = Some found ->
    found = payment_address.extract_output (copy_script (out_script (object o))) p2kh_version p2sh_version.

Lemma extract_output_copy s p2kh p2sh :
  ops_cache s = None -> payment_address.extract_output (copy_script s) p2kh p2sh = payment_address.extract_output s p2kh p2sh.
Proof. intros Hs. destruct s as [b v c]. cbn in Hs. by subst c. Qed.

Lemma reachable_coherent p2kh p2sh o :
  reachable p2kh p2sh o -> coherent p2kh p2sh o /\ ops_cache (out_script (object o)) = None.
Proof.
  unfold coherent. induction 1 as [|value s|o _ [IH Hc]|self o _ _ _ [IH Hc]|value o _ [IH Hc]|s o _ _|o _ [IH Hc]];
    cbn [default new copy assign set_value set_script invalidate_cache addresses snd addresses_ object addresses_cache]; try done.
  split; [|done]. intros found [= <-]. destruct (addresses_ o) as [found|]; [by apply IH|].
  by rewrite extract_output_copy.
Qed.

(** Whatever was done before, the addresses are those of the script. *)
Lemma addresses_of_script p2kh p2sh o :
  reachable p2kh p2sh o ->
  fst (addresses p2kh p2sh o) = payment_address.extract_output (out_script (object o)) p2kh p2sh.
Proof.
  intros [Hcoh Hc]%reachable_coherent. unfold addresses. cbn [fst]. destruct (addresses_ o) as [found|] eqn:E; [|done].
  rewrite (Hcoh found E). by apply extract_output_copy.
Qed.

(** The list does not record its versions: an address that is asked for on one
    network first is given for the other, and one that was asked for before the
    output is read again is that of the former script. *)
Lemma addresses_keep_versions testnet testnet' o :
  fst (address testnet' (snd (address testnet o))) = fst (address testnet o).
Proof. by destruct testnet, testnet'. Qed.

Lemma addresses_outlive_reading {R} `{Reader R} wire p2kh p2sh o (r : R) :
  fst (addresses p2kh p2sh (fst (fst (from_data wire (snd (addresses p2kh p2sh o)) r)))) = fst (addresses p2kh p2sh o).
Proof.
  unfold from_data, rbind. by destruct (output_from_data wire (object (snd (addresses p2kh p2sh o))) r) as [[o' v] r'].
Qed.
End Outputs.
End output_addresses.

(** ** Inputs *)

Module input_addresses.
Section Inputs.
Context `{Currency} `{Crypto} `{Secp256k1}.

Record t := mk { object : input; addresses_ : option (list payment_address.t) }.

Definition new (previous : output_point) (s : script) (seq : Z) : t := mk (new_input previous (copy_script s) seq) None.
Definition addresses_cache (i : t) : option (list payment_address.t) := addresses_ i.
Definition copy (other : t) : t :=
  mk (mk_input (previous_output (object other)) (copy_script (in_script (object other))) (in_witness (object other))
        (sequence (object other))) (addresses_cache other).
Definition assign (self other : t) : t := mk (assign_input (object self) (object other)) (addresses_cache other).

Definition invalidate_cache (i : t) : t := mk (object i) None.

Definition set_previous_output (value : output_point) (i : t) : t :=
  mk (input_set_previous_output value (object i)) (addresses_ i).
Definition set_script (s : script) (i : t) : t := invalidate_cache (mk (input_set_script s (object i)) (addresses_ i)).
Definition set_witness (w : witness) (i : t) : t := invalidate_cache (mk (input_set_witness w (object i)) (addresses_ i)).
Definition set_sequence (value : Z) (i : t) : t := mk (input_set_sequence value (object i)) (addresses_ i).
Definition strip_witness (i : t) : t := mk (input_set_witness reset_witness (object i)) (addresses_ i).

Definition addresses (i : t) : list payment_address.t * t :=
  let found :=
    match addresses_ i with
    | Some found => found
    | None =>
        payment_address.extract_input (in_script (object i)) payment_address.mainnet_p2kh payment_address.mainnet_p2sh
    end in
  (found, mk (object i) (Some found)).

Definition address (i : t) : payment_address.t * t :=
  let '(value, i) := addresses i in (hd payment_address.default value, i).

Definition from_data {R} `{Reader R} (wire wit : bool) (self : t) : rd R (t * bool) :=
  r <~ input_from_data wire wit (object self) ;; rret (mk (fst r) (addresses_ self), snd r).

(** What the operations other than [from_data] make. *)
Inductive reachable : t -> Prop :=
| reachable_new previous s seq : reachable (new previous s seq)
| reachable_copy i : reachable i -> reachable (copy i)
| reachable_assign self i : reachable self -> reachable i -> reachable (assign self i)
| reachable_set_previous_output p i : reachable i -> reachable (set_previous_output p i)
| reachable_set_script s i : reachable i -> reachable (set_script s i)
| reachable_set_witness w i : reachable i -> reachable (set_witness w i)
| reachable_set_sequence value i : reachable i -> reachable (set_sequence value i)
| reachable_strip_witness i : reachable i -> reachable (strip_witness i)
| reachable_addresses i : reachable i -> reachable (snd (addresses i)).

Definition found_in (s : script) : list payment_address.t :=
  payment_address.extract_input s payment_address.mainnet_p2kh payment_address.mainnet_p2sh.

Lemma found_in_copy s : ops_cache s = None -> found_in (copy_script s) = found_in s.
Proof. intros Hs. destruct s as [b v c]. cbn in Hs. by subst c. Qed.

Lemma input_reachable_coherent i :
  reachable i ->
  (forall found, addresses_ i = Some found -> found = found_in (in_script (object i))) /\
  ops_cache (in_script (object i)) = None.
Proof.
  induction 1 as [p s seq|i _ [IH Hc]|self i _ _ _ [IH Hc]|p i _ [IH Hc]|s i _ _|w i _ [IH Hc]|v i _ [IH Hc]|i _ [IH Hc]|i _ [IH Hc]];
    cbn [new copy assign set_previous_output set_script set_witness set_sequence strip_witness invalidate_cache addresses snd
         addresses_ object addresses_cache input_set_previous_output input_set_script input_set_witness input_set_sequence
         assign_input new_input in_script]; try done.
  - split; [|done]. intros found E. by rewrite found_in_copy; [apply IH|].
  - split; [|done]. intros found E. by rewrite found_in_copy; [apply IH|].
  - split; [|done]. intros found [= <-]. destruct (addresses_ i) as [found|]; [by apply IH|done].
Qed.

(** Whatever was done before, the addresses are those of the script. *)
Lemma input_addresses_of_script i : reachable i -> fst (addresses i) = found_in (in_script (object i)).
Proof.
  intros [Hcoh _]%input_reachable_coherent. unfold addresses. cbn [fst].
  destruct (addresses_ i) as [found|] eqn:E; [by apply Hcoh|done].
Qed.
End Inputs.
End input_addresses.

(** ** The text of a witness *)

Definition bracketed (element : list Z) : list Z := [91] ++ encode_base16 element ++ [93].

Definition witness_to_string (w : witness) : list Z :=
  if negb (wit_valid w) then chars "<invalid>"
  else trim_copy (concat (map (fun element => bracketed element ++ [32]) (stack w))).

Lemma bracketed_word element :
  bytes_ok element -> bracketed element <> [] /\ Forall (fun c => is_space c = false) (bracketed element).
Proof.
  intros Hb. split; [done|]. unfold bracketed. apply Forall_cons_2; [done|]. apply Forall_app. split; [|by repeat constructor].
  unfold encode_base16. induction Hb as [|b element Hb _ IH]; [constructor|]. cbn [map concat]. apply Forall_app.
  split; [|done]. pose proof (byte_forall (fun b => forallb (fun c => negb (is_space c)) (hex_byte b)) eq_refl b Hb) as Hf.
  apply Forall_forall. intros c Hc. cbv beta in Hf. rewrite forallb_forall in Hf.
  apply negb_true_iff, Hf. by apply list_elem_of_In.
Qed.

(** The text is the elements in brackets, with a space between two. *)
Lemma witness_text_joined elements :
  Forall bytes_ok elements ->
  trim_copy (concat (map (fun element => bracketed element ++ [32]) elements)) = join (map bracketed elements) [32].
Proof.
  intros Hb. destruct (decide (elements = [])) as [->|Hne]; [done|].
  assert (E : concat (map (fun element => bracketed element ++ [32]) elements) = join (map bracketed elements) [32] ++ [32]).
  { clear Hb. induction elements as [|e elements IH]; [done|]. destruct elements as [|f elements].
    - cbn [map concat join]. by rewrite app_nil_r.
    - cbn [map concat join] in *. rewrite IH by done. by rewrite <- !app_assoc. }
  rewrite E.
  destruct (join_ends (map bracketed elements) 0 (fun c => is_space c = false)) as [Hh Hl].
  { apply Forall_map. eapply Forall_impl; [exact Hb|]. apply bracketed_word. }
  { by destruct elements. }
  set (text := join _ _) in *. assert (Hn : text <> []).
  { unfold text. destruct elements as [|e [|f l]]; done. }
  unfold trim_copy. destruct text as [|c text]; [done|].
  cbn [app hd] in *. rewrite trim_left_id by done. rewrite app_comm_cons, rev_app_distr. cbn [rev app trim_left].
  change (is_space 32) with true. cbv iota.
  pose proof (trim_copy_id (c :: text) Hh Hl) as Ht. unfold trim_copy in Ht. by rewrite trim_left_id in Ht.
Qed.

(** Two witnesses with the same text have the same elements. *)
Lemma witness_text_injective a b :
  wit_valid a = true -> wit_valid b = true -> Forall bytes_ok (stack a) -> Forall bytes_ok (stack b) ->
  witness_to_string a = witness_to_string b -> stack a = stack b.
Proof.
  intros Ha Hb Hba Hbb. unfold witness_to_string. rewrite Ha, Hb. cbn [negb]. rewrite !witness_text_joined by done.
  assert (Hsplit : forall l, Forall bytes_ok l -> l <> [] -> Text.split (join (map bracketed l) [32]) [32] true = map bracketed l).
  { intros l Hl Hne. apply split_join; [by destruct l|]. apply Forall_map. eapply Forall_impl; [exact Hl|]. apply bracketed_word. }
  assert (Hinj : forall l l', Forall bytes_ok l -> Forall bytes_ok l' -> map bracketed l = map bracketed l' -> l = l').
  { induction l as [|e l IH]; intros [|e' l'] Hl Hl'; try done. cbn [map]. intros [= He Ht].
    apply Forall_cons in Hl as [Hle Hl]. apply Forall_cons in Hl' as [Hle' Hl'].
    f_equal; [|by apply IH]. apply app_inj_tail in He as [He _].
    apply (f_equal decode_base16) in He. rewrite !decode_encode_base16 in He by done. by injection He. }
  intros E. destruct (decide (stack a = [])) as [Ea|Ea], (decide (stack b = [])) as [Eb|Eb].
  - by rewrite Ea, Eb.
  - rewrite Ea in E. by destruct (stack b) as [|e [|f l]].
  - rewrite Eb in E. by destruct (stack a) as [|e [|f l]].
  - apply Hinj; [done|done|]. rewrite <- (Hsplit (stack a)), <- (Hsplit (stack b)) by done. by rewrite E.
Qed.

