(* ===== verification/EncryptedKeys.v ===== *)
(** Keys encrypted with a passphrase (BIP 38),
    [src/wallet/encrypted_keys.cpp] and [src/wallet/parse_encrypted_keys]: a
    private key that is encrypted, and the token from which another party makes
    an encrypted key pair. The memory hard digest is an interface that [Hash.v]
    implements, and the normal form of a passphrase is a function of ICU. *)

From S2P Require Import Prelude Aes Text Limits Endian Codes Radix Base58 Data Compact Header Checksum Sighash Elliptic Keys KeyRules.

(** [scrypt<Size>(data, salt, N, p, r)] of [math/hash.hpp]; [None]: it throws. *)
Class ScryptHash := scrypt_of_size : Z -> list Z -> list Z -> Z -> Z -> Z -> option (list Z).

(** It has a digest for the parameters of the standard. *)
Class ScryptLaws `{ScryptHash} := {
  scrypt_standard size N p r data salt :
    size = 32 \/ size = 64 -> (N, p, r) = (16384, 8, 8) \/ (N, p, r) = (1024, 1, 1) ->
    exists out, scrypt_of_size size data salt N p r = Some out /\ zlen out = size /\ bytes_ok out
}.

(** [to_normal_nfc_form], which calls ICU *)
Class NormalForm := to_normal_nfc_form : list Z -> list Z.

(** A call that returns [true] with its outputs, that returns [false], or that
    throws. *)
Inductive outcome (A : Type) :=
| returned (a : A)
| refused
| thrown.
Arguments returned {A} _.
Arguments refused {A}.
Arguments thrown {A}.

Definition outcome_bind {A B} (f : A -> outcome B) (r : outcome A) : outcome B :=
  match r with returned a => f a | refused => refused | thrown => thrown end.
Definition accept {A} (o : option A) : outcome A := match o with Some a => returned a | None => refused end.
Definition no_throw {A} (o : option A) : outcome A := match o with Some a => returned a | None => thrown end.

Notation "x <-? o ;; k" := (outcome_bind (fun x => k) o) (at level 100, o at next level, right associativity).

(** ** The layouts *)

Definition ek_max_lot : Z := 1048575.
Definition ek_max_sequence : Z := 4095.
Definition ek_salt_size : nat := 4.
Definition ek_entropy_size : nat := 8.
Definition ek_seed_size : nat := 24.
Definition encrypted_token_decoded_size : nat := 53.
Definition ek_private_decoded_size : nat := 43.
Definition encrypted_public_decoded_size : nat := 55.

Definition lot_sequence_key : Z := Z.shiftl 1 2.
Definition ec_compressed_key : Z := Z.shiftl 1 5.
Definition ec_non_multiplied_low : Z := Z.shiftl 1 6.
Definition ec_non_multiplied_high : Z := Z.shiftl 1 7.
Definition ec_non_multiplied : Z := Z.lor ec_non_multiplied_low ec_non_multiplied_high.

(** [parse_encrypted_prefix]: the context is the last byte. *)
Definition context_of (prefix : list Z) : Z := List.last prefix 0.

(** [parse_encrypted_key], the part that the two kinds of keys share *)
Module parse_encrypted_key.
Record t := mk { prefix : list Z; flags_ : list Z; salt : list Z; entropy : list Z }.

Definition flags (k : t) : Z := hd 0 (flags_ k).
Definition compressed (k : t) : bool := negb (Z.land (flags k) ec_compressed_key =? 0).
Definition lot_sequence (k : t) : bool := negb (Z.land (flags k) lot_sequence_key =? 0).
Definition owner_salt (k : t) : list Z := if lot_sequence k then slice 0 ek_salt_size (entropy k) else entropy k.
End parse_encrypted_key.

Section Layouts.
Context `{Crypto}.

Definition private_default_context : Z := 0x42.
Definition private_multiplied_context : Z := 0x43.
Definition private_magic : list Z := [0x01].

(** [parse_encrypted_private::prefix_factory] *)
Definition private_prefix (address : Z) (multiplied : bool) : list Z :=
  let base := if multiplied then private_multiplied_context else private_default_context in
  splice private_magic [u8 (base + address)].

Record parse_encrypted_private := mk_private {
  private_key : parse_encrypted_key.t;
  data1 : list Z;
  data2 : list Z;
  private_valid : bool
}.

(** [parse_encrypted_private(key)] *)
Definition parse_private (key : list Z) : parse_encrypted_private :=
  let base := parse_encrypted_key.mk (slice 0 2 key) (slice 2 3 key) (slice 3 7 key) (slice 7 15 key) in
  mk_private base (slice 15 23 key) (slice 23 39 key)
    (bool_decide (slice 0 1 (parse_encrypted_key.prefix base) = private_magic) && checksum.verify_checksum key).

Definition multiplied (p : parse_encrypted_private) : bool :=
  Z.land (parse_encrypted_key.flags (private_key p)) ec_non_multiplied =? 0.

Definition private_address_version (p : parse_encrypted_private) : Z :=
  let base := if multiplied p then private_multiplied_context else private_default_context in
  u8 (context_of (parse_encrypted_key.prefix (private_key p)) - base).

Definition public_default_context : Z := 0x9a.
Definition public_magic : list Z := [0x64; 0x3b; 0xf6; 0xa8].

(** [parse_encrypted_public::prefix_factory] *)
Definition public_prefix (address : Z) : list Z :=
  splice public_magic [u8 (public_default_context + address)].

Record parse_encrypted_public := mk_public {
  public_key : parse_encrypted_key.t;
  public_sign : list Z;
  public_data : list Z;
  public_valid : bool
}.

(** [parse_encrypted_public(key)] *)
Definition parse_public (key : list Z) : parse_encrypted_public :=
  let base := parse_encrypted_key.mk (slice 0 5 key) (slice 5 6 key) (slice 6 10 key) (slice 10 18 key) in
  mk_public base (slice 18 19 key) (slice 19 51 key)
    (bool_decide (slice 0 4 (parse_encrypted_key.prefix base) = public_magic) && checksum.verify_checksum key).

Definition public_address_version (p : parse_encrypted_public) : Z :=
  u8 (context_of (parse_encrypted_key.prefix (public_key p)) - public_default_context).

Definition token_lot_context : Z := 0x51.
Definition token_default_context : Z := 0x53.
Definition token_magic : list Z := [0x2c; 0xe9; 0xb3; 0xe1; 0xff; 0x39; 0xe2].

(** [parse_encrypted_token::prefix_factory] *)
Definition token_prefix (lot_sequence : bool) : list Z :=
  splice token_magic [if lot_sequence then token_lot_context else token_default_context].

Record parse_encrypted_token := mk_token {
  token_prefix_ : list Z;
  token_entropy : list Z;
  token_sign : list Z;
  token_data : list Z;
  token_valid : bool
}.

(** [parse_encrypted_token(value)] *)
Definition parse_token (value : list Z) : parse_encrypted_token :=
  let prefix := slice 0 8 value in
  let context := context_of prefix in
  mk_token prefix (slice 8 16 value) (slice 16 17 value) (slice 17 49 value)
    (bool_decide (slice 0 7 prefix = token_magic) &&
     ((context =? token_default_context) || (context =? token_lot_context)) && checksum.verify_checksum value).

Definition token_lot_sequence (p : parse_encrypted_token) : bool := context_of (token_prefix_ p) =? token_lot_context.
End Layouts.

(** ** The operations *)

Module encrypted_keys.
Section Keys.
Context `{Currency} `{Crypto} `{Secp256k1} `{ScryptHash} `{NormalForm}.
(** what the cipher's context holds before it is used *)
Variable uninitialized : aes.aes256_context.

Definition half : nat := 16.
Definition quarter : nat := 8.

Definition address_hash (address : payment_address.t) : list Z := bitcoin_hash (payment_address.encoded address).

(** The three overloads of [address_salt]; [None]: the address is not valid. *)
Definition address_salt (address : payment_address.t) : list Z := slice 0 ek_salt_size (address_hash address).

Definition address_salt_point (point : list Z) (version : Z) (compressed : bool) : option (list Z) :=
  let address := payment_address.from_public (ec_public.of_compressed point compressed) version in
  if payment_address.valid address then Some (address_salt address) else None.

Definition address_salt_secret (secret : list Z) (version : Z) (compressed : bool) : option (list Z) :=
  let address := payment_address.from_private (ec_private.of_secret secret version compressed) in
  if payment_address.valid address then Some (address_salt address) else None.

(** [std::equal] over the bytes of the salt *)
Definition address_validate (salt : list Z) (address : payment_address.t) : bool :=
  bool_decide (take (length salt) (address_hash address) = salt).

Definition address_validate_point (salt point : list Z) (version : Z) (compressed : bool) : bool :=
  let address := payment_address.from_public (ec_public.of_compressed point compressed) version in
  if payment_address.valid address then address_validate salt address else false.

Definition address_validate_secret (salt secret : list Z) (version : Z) (compressed : bool) : bool :=
  let address := payment_address.from_private (ec_private.of_secret secret version compressed) in
  if payment_address.valid address then address_validate salt address else false.

Definition point_hash (point : list Z) : list Z := slice 1 ec_compressed_size point.

Definition point_sign (byte : Z) (hash : list Z) : list Z :=
  let last_byte_odd_field := Z.land (List.last hash 0) 0x01 in
  [Z.lxor byte last_byte_odd_field].

Definition scrypt_token (data salt : list Z) : outcome (list Z) := no_throw (scrypt_of_size 32 data salt 16384 8 8).
Definition scrypt_pair (data salt : list Z) : outcome (list Z) := no_throw (scrypt_of_size 64 data salt 1024 1 1).
Definition scrypt_private (data salt : list Z) : outcome (list Z) := no_throw (scrypt_of_size 64 data salt 16384 8 8).

Definition set_flags (compressed lot_sequence multiplied : bool) : list Z :=
  let byte := 0 in
  let byte := if compressed then Z.lor byte ec_compressed_key else byte in
  let byte := if lot_sequence then Z.lor byte lot_sequence_key else byte in
  let byte := if negb multiplied then Z.lor byte ec_non_multiplied else byte in
  [byte].

(** The call [return build_checked_array(out, ...)]. *)
Definition build (out : list Z) (slices : list (list Z)) : outcome (list Z) :=
  let '(out, built) := checksum.build_checked_array out slices in if built then returned out else refused.

Definition create_private_key (out_private flags salt entropy derived1 derived2 seed : list Z) (version : Z) : list Z :=
  let prefix := private_prefix version true in
  let encrypt1 := xor_data half seed derived1 0 0 in
  let encrypt1 := aes.aes256_encrypt uninitialized derived2 encrypt1 in
  let combined := splice (slice quarter half encrypt1) (slice half (half + quarter) seed) in
  let encrypt2 := xor_data half combined derived1 0 half in
  let encrypt2 := aes.aes256_encrypt uninitialized derived2 encrypt2 in
  let quarter1 := slice 0 quarter encrypt1 in
  fst (checksum.build_checked_array out_private [prefix; flags; salt; entropy; quarter1; encrypt2]).

Definition create_public_key (out_public flags salt entropy derived1 derived2 secret : list Z) (version : Z) :
    outcome (list Z) :=
  point <-? accept (elliptic_curve.secret_to_public ec_compressed_size secret) ;;
  let prefix := public_prefix version in
  let hash := point_hash point in
  let encrypted1 := aes.aes256_encrypt uninitialized derived2 (xor_data half hash derived1 0 0) in
  let encrypted2 := aes.aes256_encrypt uninitialized derived2 (xor_data half hash derived1 half half) in
  let sign := point_sign (hd 0 point) derived2 in
  build out_public [prefix; flags; salt; entropy; sign; encrypted1; encrypted2].

(** The outputs are the private key, the public key and the point. *)
Definition create_key_pair (out_private out_public token seed : list Z) (version : Z) (compressed : bool) :
    outcome (list Z * list Z * list Z) :=
  let parse := parse_token token in
  if negb (token_valid parse) then refused
  else
    let point := splice (token_sign parse) (token_data parse) in
    let factor := bitcoin_hash seed in
    point_copy <-? accept (elliptic_curve.ec_multiply_point point factor) ;;
    salt <-? accept (address_salt_point point_copy version compressed) ;;
    let salt_entropy := splice salt (token_entropy parse) in
    pair <-? scrypt_pair point salt_entropy ;;
    let derived := split pair in
    let flags := set_flags compressed (token_lot_sequence parse) true in
    out_public <-? create_public_key out_public flags salt (token_entropy parse) (fst derived) (snd derived) factor version ;;
    let out_private :=
      create_private_key out_private flags salt (token_entropy parse) (fst derived) (snd derived) seed version in
    returned (out_private, out_public, point_copy).

(** The overload without the public key, which it makes and drops. *)
Definition create_key_pair_private (out_private out_public token seed : list Z) (version : Z) (compressed : bool) :
    outcome (list Z * list Z) :=
  r <-? create_key_pair out_private out_public token seed version compressed ;;
  let '(out_private, _, point) := r in returned (out_private, point).

Definition normal (passphrase : list Z) : list Z := to_normal_nfc_form passphrase.

(** The secret of the owner of a token. *)
Definition create_token_prefix (out_token passphrase owner_salt owner_entropy prefix : list Z) : outcome (list Z) :=
  let lot_sequence := (length owner_salt =? ek_salt_size)%nat in
  factor <-? scrypt_token (normal passphrase) owner_salt ;;
  let factor := if lot_sequence then bitcoin_hash (splice factor owner_entropy) else factor in
  point <-? accept (elliptic_curve.secret_to_public ec_compressed_size factor) ;;
  build out_token [prefix; owner_entropy; point].

Definition create_token (out_token passphrase entropy : list Z) : outcome (list Z) :=
  create_token_prefix out_token passphrase entropy entropy (token_prefix false).

(** [(lot << max_sequence_bits) || sequence] is a truth value, and the outcome of
    the call is not used. *)
Definition create_token_lot (out_token passphrase salt : list Z) (lot sequence : Z) : outcome (list Z) :=
  if (lot >? ek_max_lot) || (sequence >? ek_max_sequence) then refused
  else
    let max_sequence_bits := 12 in
    let lot_sequence : Z := Z.b2z (negb (u32 (Z.shiftl lot max_sequence_bits) =? 0) || negb (sequence =? 0)) in
    let entropy := splice salt (to_big_endian 4 lot_sequence) in
    match create_token_prefix out_token passphrase salt entropy (token_prefix true) with
    | returned token => returned token
    | refused => returned out_token
    | thrown => thrown
    end.

Definition encrypt (out_private secret passphrase : list Z) (version : Z) (compressed : bool) : outcome (list Z) :=
  salt <-? accept (address_salt_secret secret version compressed) ;;
  key <-? scrypt_private (normal passphrase) salt ;;
  let derived := split key in
  let prefix := private_prefix version false in
  let encrypted1 := aes.aes256_encrypt uninitialized (snd derived) (xor_data half secret (fst derived) 0 0) in
  let encrypted2 := aes.aes256_encrypt uninitialized (snd derived) (xor_data half secret (fst derived) half half) in
  build out_private [prefix; set_flags compressed false false; salt; encrypted1; encrypted2].

Definition decrypt_multiplied (parse : parse_encrypted_private) (passphrase : list Z) : outcome (list Z) :=
  let key := private_key parse in
  secret <-? scrypt_token (normal passphrase) (parse_encrypted_key.owner_salt key) ;;
  let secret :=
    if parse_encrypted_key.lot_sequence key then bitcoin_hash (splice secret (parse_encrypted_key.entropy key))
    else secret in
  point <-? accept (elliptic_curve.secret_to_public ec_compressed_size secret) ;;
  let salt_entropy := splice (parse_encrypted_key.salt key) (parse_encrypted_key.entropy key) in
  pair <-? scrypt_pair point salt_entropy ;;
  let derived := split pair in
  let encrypt1 := data1 parse in
  let encrypt2 := data2 parse in
  let encrypt2 := aes.aes256_decrypt uninitialized (snd derived) encrypt2 in
  let decrypt2 := xor_data half encrypt2 (fst derived) 0 half in
  let part := split decrypt2 in
  let extended := splice encrypt1 (fst part) in
  let extended := aes.aes256_decrypt uninitialized (snd derived) extended in
  let decrypt1 := xor_data half extended (fst derived) 0 0 in
  let factor := bitcoin_hash (splice decrypt1 (snd part)) in
  secret <-? accept (elliptic_curve.ec_multiply_secret secret factor) ;;
  if address_validate_secret (parse_encrypted_key.salt key) secret (private_address_version parse)
       (parse_encrypted_key.compressed key)
  then returned secret else refused.

Definition decrypt_secret (parse : parse_encrypted_private) (passphrase : list Z) : outcome (list Z) :=
  let key := private_key parse in
  let encrypt1 := splice (parse_encrypted_key.entropy key) (data1 parse) in
  let encrypt2 := data2 parse in
  out <-? scrypt_private (normal passphrase) (parse_encrypted_key.salt key) ;;
  let derived := split out in
  let encrypt1 := aes.aes256_decrypt uninitialized (snd derived) encrypt1 in
  let encrypt2 := aes.aes256_decrypt uninitialized (snd derived) encrypt2 in
  let encrypted := splice encrypt1 encrypt2 in
  let secret := xor_data 32 encrypted (fst derived) 0 0 in
  if address_validate_secret (parse_encrypted_key.salt key) secret (private_address_version parse)
       (parse_encrypted_key.compressed key)
  then returned secret else refused.

(** [decrypt] of a private key: the secret, the version and the compression. *)
Definition decrypt (key passphrase : list Z) : outcome (list Z * Z * bool) :=
  let parse := parse_private key in
  if negb (private_valid parse) then refused
  else
    secret <-? (if multiplied parse then decrypt_multiplied parse passphrase else decrypt_secret parse passphrase) ;;
    returned (secret, private_address_version parse, parse_encrypted_key.compressed (private_key parse)).

(** [decrypt] of a public key: the point, the version and the compression. *)
Definition decrypt_public (key passphrase : list Z) : outcome (list Z * Z * bool) :=
  let parse := parse_public key in
  if negb (public_valid parse) then refused
  else
    let base := public_key parse in
    let version := public_address_version parse in
    factor <-? scrypt_token (normal passphrase) (parse_encrypted_key.owner_salt base) ;;
    let factor :=
      if parse_encrypted_key.lot_sequence base then bitcoin_hash (splice factor (parse_encrypted_key.entropy base))
      else factor in
    point <-? accept (elliptic_curve.secret_to_public ec_compressed_size factor) ;;
    let salt_entropy := splice (parse_encrypted_key.salt base) (parse_encrypted_key.entropy base) in
    pair <-? scrypt_pair point salt_entropy ;;
    let derived := split pair in
    let encrypt := split (public_data parse) in
    let left := aes.aes256_decrypt uninitialized (snd derived) (fst encrypt) in
    let decrypt1 := xor_data half left (fst derived) 0 0 in
    let right := aes.aes256_decrypt uninitialized (snd derived) (snd encrypt) in
    let decrypt2 := xor_data half right (fst derived) 0 half in
    let sign_byte := point_sign (hd 0 (public_sign parse)) (snd derived) in
    let product := splice_three sign_byte decrypt1 decrypt2 in
    product <-? accept (elliptic_curve.ec_multiply_point product factor) ;;
    if negb (address_validate_point (parse_encrypted_key.salt base) product version
               (parse_encrypted_key.compressed base))
    then refused
    else returned (product, version, parse_encrypted_key.compressed base).
End Keys.
End encrypted_keys.
