(* ===== verification/EncryptedRules.v ===== *)
(** What encrypting a key with a passphrase guarantees: a key that is encrypted
    is decrypted with its passphrase, a pair that is made from a token is
    decrypted with the passphrase of the token to a secret and its point, and
    whatever is decrypted has the address that the key commits to. *)

From S2P Require Import Prelude Aes Text Limits Endian Codes Radix Base58 Data Compact Header Checksum Sighash Elliptic Keys KeyRules EncryptedKeys.

Import encrypted_keys.

(** ** Masks and slices *)

Lemma length_xor_data size a b i j :
  (i + size <= length a)%nat -> (j + size <= length b)%nat -> length (xor_data size a b i j) = size.
Proof. intros Ha Hb. unfold xor_data. rewrite length_zip_with, !length_take, !length_drop. lia. Qed.

Lemma xor_data_ok size a b i j : bytes_ok a -> bytes_ok b -> bytes_ok (xor_data size a b i j).
Proof.
  intros Ha Hb. unfold xor_data. apply zip_lxor_bytes; by apply Forall_take, Forall_drop.
Qed.

(** A mask that is applied twice to a part of an array gives the part. *)
Lemma xor_data_back size a b i j :
  (i + size <= length a)%nat -> (j + size <= length b)%nat ->
  xor_data size (xor_data size a b i j) b 0 j = slice i (i + size) a.
Proof.
  intros Ha Hb. unfold xor_data, slice. rewrite drop_0. replace (i + size - i)%nat with size by lia.
  rewrite (take_ge (zip_with _ _ _)) by (rewrite length_zip_with, !length_take, !length_drop; lia).
  assert (Hl : length (take size (drop i a)) = length (take size (drop j b)))
    by (rewrite !length_take, !length_drop; lia).
  revert Hl. generalize (take size (drop i a)) (take size (drop j b)). clear.
  intros l. induction l as [|x l IH]; intros [|y k] Hl; simpl in *; try done. rewrite IH by lia.
  by rewrite Z.lxor_assoc, Z.lxor_nilpotent, Z.lxor_0_r.
Qed.

(** A mask over an array of two halves. *)
Lemma xor_data_halves n a b mask :
  length a = n -> length b = n -> (n + n <= length mask)%nat ->
  xor_data (n + n) (a ++ b) mask 0 0 = xor_data n a mask 0 0 ++ xor_data n b mask 0 n.
Proof.
  intros Ha Hb Hm. unfold xor_data. rewrite !drop_0, (take_ge (a ++ b)), (take_ge a), (take_ge b)
    by (rewrite ?length_app; lia).
  rewrite <- (take_take_drop mask n n). apply zip_with_app. rewrite length_take. lia.
Qed.

Lemma slice_ok i j l : bytes_ok l -> bytes_ok (slice i j l).
Proof. intros Hl. by apply Forall_take, Forall_drop. Qed.

Lemma length_slice i j l : (j <= length l)%nat -> length (slice i j l) = (j - i)%nat.
Proof. intros Hl. unfold slice. rewrite length_take, length_drop. lia. Qed.

Lemma slice_all i j l : i = 0%nat -> length l = j -> slice i j l = l.
Proof. intros -> <-. unfold slice. rewrite drop_0, Nat.sub_0_r. apply take_ge. lia. Qed.

Lemma slices_app i j k l : (i <= j <= k)%nat -> slice i j l ++ slice j k l = slice i k l.
Proof.
  intros Hle. unfold slice. replace (k - i)%nat with ((j - i) + (k - j))%nat by lia.
  rewrite <- take_take_drop. rewrite drop_drop. do 3 f_equal. lia.
Qed.

Lemma secret_halves l n :
  length l = (n + n)%nat -> split l = (slice 0 n l, slice n (n + n) l).
Proof.
  intros Hl. unfold split, slice. rewrite Hl. replace ((n + n) / 2)%nat with n
    by (apply Nat.div_unique with 0%nat; lia). rewrite drop_0. do 2 f_equal; lia.
Qed.

#[local] Opaque aes.aes256_encrypt aes.aes256_decrypt xor_data.

Lemma returned_inj {A} (a b : A) : returned a = returned b -> a = b.
Proof. by intros [=]. Qed.

(** ** The layouts are parsed as they are built *)

Section Parsing.
Context `{Crypto} `{!checksum.CryptoLaws}.

Lemma private_parsed prefix flags salt entropy d1 d2 :
  length prefix = 2%nat -> length flags = 1%nat -> length salt = 4%nat -> length entropy = 8%nat ->
  length d1 = 8%nat -> length d2 = 16%nat ->
  parse_private (checksum.append_checksum (concat [prefix; flags; salt; entropy; d1; d2])) =
  mk_private (parse_encrypted_key.mk prefix flags salt entropy) d1 d2
    (bool_decide (slice 0 1 prefix = private_magic)).
Proof.
  intros Hp Hf Hs He H1 H2. unfold parse_private. rewrite checksum.verify_append, andb_true_r.
  unfold checksum.append_checksum. set (tail := to_little_endian 4 _). clearbody tail.
  aes.explode prefix Hp. aes.explode flags Hf. aes.explode salt Hs. aes.explode entropy He.
  aes.explode d1 H1. aes.explode d2 H2. reflexivity.
Qed.

Lemma public_parsed prefix flags salt entropy sign d1 d2 :
  length prefix = 5%nat -> length flags = 1%nat -> length salt = 4%nat -> length entropy = 8%nat ->
  length sign = 1%nat -> length d1 = 16%nat -> length d2 = 16%nat ->
  parse_public (checksum.append_checksum (concat [prefix; flags; salt; entropy; sign; d1; d2])) =
  mk_public (parse_encrypted_key.mk prefix flags salt entropy) sign (d1 ++ d2)
    (bool_decide (slice 0 4 prefix = public_magic)).
Proof.
  intros Hp Hf Hs He Hg H1 H2. unfold parse_public. rewrite checksum.verify_append, andb_true_r.
  unfold checksum.append_checksum. set (tail := to_little_endian 4 _). clearbody tail.
  aes.explode prefix Hp. aes.explode flags Hf. aes.explode salt Hs. aes.explode entropy He. aes.explode sign Hg.
  aes.explode d1 H1. aes.explode d2 H2. reflexivity.
Qed.

Lemma token_parsed lot entropy point :
  length entropy = 8%nat -> length point = 33%nat ->
  parse_token (checksum.append_checksum (concat [token_prefix lot; entropy; point])) =
  mk_token (token_prefix lot) entropy (slice 0 1 point) (slice 1 33 point) true.
Proof.
  intros He Hp. unfold parse_token. rewrite checksum.verify_append, andb_true_r.
  unfold checksum.append_checksum. set (tail := to_little_endian 4 _). clearbody tail.
  aes.explode entropy He. aes.explode point Hp. by destruct lot.
Qed.

(** The version of an address is what its prefix was made from. *)
Lemma context_back base version : byte_ok version -> u8 (u8 (base + version) - base) = version.
Proof.
  intros Hv. unfold u8, wrap. rewrite Zminus_mod_idemp_l. replace (base + version - base) with version by lia.
  by apply Z.mod_small.
Qed.

Lemma private_version_back version (multiplied : bool) flags salt entropy d1 d2 valid :
  byte_ok version -> (Z.land (hd 0 flags) ec_non_multiplied =? 0) = multiplied ->
  private_address_version
    (mk_private (parse_encrypted_key.mk (private_prefix version multiplied) flags salt entropy) d1 d2 valid) = version.
Proof.
  intros Hv Hf. unfold private_address_version, EncryptedKeys.multiplied, parse_encrypted_key.flags.
  cbn [private_key parse_encrypted_key.flags_ parse_encrypted_key.prefix]. rewrite Hf.
  unfold private_prefix. rewrite splice_app. by apply context_back.
Qed.
End Parsing.

(** ** The digests *)

Section Rules.
Context `{Currency} `{Crypto} `{!checksum.CryptoLaws} `{Secp256k1Laws} `{ScryptLaws} `{NormalForm}.
Variable uninitialized : aes.aes256_context.

(** The halves of the memory hard digest mask and encrypt. *)
Lemma halves out :
  zlen out = 64 -> bytes_ok out ->
  exists left right, split out = (left, right) /\ length left = 32%nat /\ length right = 32%nat /\
                     bytes_ok left /\ bytes_ok right.
Proof.
  intros Hl Hb. unfold zlen in Hl. assert (Hn : length out = 64%nat) by lia.
  exists (slice 0 32 out), (slice 32 64 out). rewrite (secret_halves out 32) by done.
  rewrite !length_slice by lia. split_and!; try done; by apply slice_ok.
Qed.

Lemma scrypt_private_halves data salt :
  exists out left right,
    scrypt_private data salt = returned out /\ split out = (left, right) /\
    length left = 32%nat /\ length right = 32%nat /\ bytes_ok left /\ bytes_ok right.
Proof.
  destruct (scrypt_standard 64 16384 8 8 data salt) as (out & E & Hl & Hb); [by right|by left|].
  destruct (halves out Hl Hb) as (left & right & Hs). exists out, left, right.
  unfold scrypt_private. by rewrite E.
Qed.

Lemma scrypt_pair_halves data salt :
  exists out left right,
    scrypt_pair data salt = returned out /\ split out = (left, right) /\
    length left = 32%nat /\ length right = 32%nat /\ bytes_ok left /\ bytes_ok right.
Proof.
  destruct (scrypt_standard 64 1024 1 1 data salt) as (out & E & Hl & Hb); [by right|by right|].
  destruct (halves out Hl Hb) as (left & right & Hs). exists out, left, right.
  unfold scrypt_pair. by rewrite E.
Qed.

Lemma scrypt_token_length data salt :
  exists out, scrypt_token data salt = returned out /\ length out = 32%nat /\ bytes_ok out.
Proof.
  destruct (scrypt_standard 32 16384 8 8 data salt) as (out & E & Hl & Hb); [by left|by left|].
  exists out. unfold scrypt_token, zlen in *. rewrite E. split_and!; [done|lia|done].
Qed.

(** A block that is masked and encrypted, and what decrypting and unmasking it
    gives. *)
Definition sealed (key data mask : list Z) (i j : nat) : list Z :=
  aes.aes256_encrypt uninitialized key (xor_data half data mask i j).

Lemma sealed_back key data mask i j :
  length key = 32%nat -> bytes_ok key -> bytes_ok data -> bytes_ok mask ->
  (i + half <= length data)%nat -> (j + half <= length mask)%nat ->
  length (sealed key data mask i j) = 16%nat /\
  length (aes.aes256_decrypt uninitialized key (sealed key data mask i j)) = 16%nat /\ bytes_ok (sealed key data mask i j) /\
  xor_data half (aes.aes256_decrypt uninitialized key (sealed key data mask i j)) mask 0 j = slice i (i + half) data.
Proof.
  intros Hk Hkb Hd Hm Hi Hj. unfold sealed. set (plain := xor_data half data mask i j).
  assert (Hp : aes.block_ok plain) by (split; [by apply length_xor_data|by apply xor_data_ok]).
  destruct (aes.encrypted_ok key Hk Hkb uninitialized plain Hp) as [Hl Hb].
  rewrite aes.decrypt_encrypted by done. split_and!; [done|apply Hp|done|]. by apply xor_data_back.
Qed.

(** ** The salt commits to the address *)

Lemma address_salt_length address : length (address_salt address) = 4%nat.
Proof.
  unfold address_salt, address_hash, bitcoin_hash. rewrite length_slice; [done|].
  rewrite checksum.sha256_hash_length. unfold ek_salt_size. lia.
Qed.

Lemma address_salt_secret_ok secret version compressed salt :
  address_salt_secret secret version compressed = Some salt -> bytes_ok salt.
Proof.
  unfold address_salt_secret. case_match; [intros [= <-]|done]. apply slice_ok. apply checksum.sha256_hash_bytes.
Qed.

Lemma address_salt_validates address : address_validate (address_salt address) address = true.
Proof.
  unfold address_validate. apply bool_decide_eq_true. rewrite address_salt_length. unfold address_salt, slice.
  by rewrite drop_0.
Qed.

(** The address of a secret is the address of its point. *)
Lemma private_address secret p version compressed :
  byte_ok version -> secp256k1_ec_pubkey_create secret = Some p ->
  payment_address.from_private (ec_private.of_secret secret version compressed) =
  payment_address.from_public (ec_public.of_compressed (secp256k1_ec_pubkey_serialize true p) compressed) version.
Proof.
  intros Hv Hp. unfold payment_address.from_private, ec_private.payment_version, ec_private.to_address_prefix.
  cbn [ec_private.valid ec_private.of_secret ec_private.version negb]. unfold ec_private.to_public, elliptic_curve.secret_to_public.
  cbn [ec_private.valid ec_private.of_secret ec_private.secret ec_private.compress]. rewrite Hp. cbn [mbind option_bind].
  change ec_compressed_size with 33%nat. rewrite (serialize_point true). f_equal.
  change 0x00FF with (Z.ones 8). rewrite Z.land_ones by lia. unfold u8, wrap.
  rewrite Z.mod_mod by lia. by apply Z.mod_small.
Qed.

Lemma public_address_valid p version compressed :
  payment_address.valid
    (payment_address.from_public (ec_public.of_compressed (secp256k1_ec_pubkey_serialize true p) compressed) version) = true.
Proof.
  unfold payment_address.from_public, ec_public.to_data. cbn [ec_public.valid ec_public.of_compressed negb ec_public.compress].
  destruct compressed; [done|]. unfold ec_public.to_uncompressed. cbn [ec_public.valid ec_public.of_compressed negb ec_public.point].
  by rewrite decompress_compressed.
Qed.

(** The salt that an address gives, and that a secret and its point validate. *)
Lemma salt_of_point p version compressed :
  exists salt,
    address_salt_point (secp256k1_ec_pubkey_serialize true p) version compressed = Some salt /\ length salt = 4%nat /\
    address_validate_point salt (secp256k1_ec_pubkey_serialize true p) version compressed = true /\
    (forall secret, byte_ok version -> secp256k1_ec_pubkey_create secret = Some p ->
      address_salt_secret secret version compressed = Some salt /\
      address_validate_secret salt secret version compressed = true).
Proof.
  pose proof (public_address_valid p version compressed) as Hv.
  set (address := payment_address.from_public _ _) in Hv. exists (address_salt address).
  unfold address_salt_point, address_validate_point, address_salt_secret, address_validate_secret.
  fold address. rewrite Hv. split_and!; [done|apply address_salt_length|apply address_salt_validates|].
  intros secret Hb Hp. rewrite (private_address secret p) by done. fold address. rewrite Hv.
  split; [done|apply address_salt_validates].
Qed.

(** ** A key that is encrypted is decrypted *)

Lemma flags_spec compressed lot multiplied flags :
  set_flags compressed lot multiplied = flags ->
  length flags = 1%nat /\ (Z.land (hd 0 flags) ec_non_multiplied =? 0) = multiplied /\
  negb (Z.land (hd 0 flags) ec_compressed_key =? 0) = compressed /\
  negb (Z.land (hd 0 flags) lot_sequence_key =? 0) = lot.
Proof. intros <-. by destruct compressed, lot, multiplied. Qed.

Lemma set_flags_ok compressed lot multiplied : bytes_ok (set_flags compressed lot multiplied).
Proof. destruct compressed, lot, multiplied; repeat constructor; vm_compute; intuition congruence. Qed.

Lemma private_prefix_ok version multiplied : bytes_ok (private_prefix version multiplied).
Proof.
  unfold private_prefix, private_magic. rewrite splice_app. apply Forall_cons. split; [split; lia|].
  apply Forall_singleton, u8_byte.
Qed.

Lemma private_prefix_magic version multiplied :
  length (private_prefix version multiplied) = 2%nat /\
  bool_decide (slice 0 1 (private_prefix version multiplied) = private_magic) = true.
Proof. unfold private_prefix. by rewrite splice_app. Qed.

Lemma encrypt_decrypts secret p passphrase version compressed :
  length secret = 32%nat -> bytes_ok secret -> byte_ok version ->
  secp256k1_ec_pubkey_create secret = Some p ->
  exists key,
    encrypt uninitialized (repeat 0 43) secret passphrase version compressed = returned key /\
    length key = 43%nat /\ bytes_ok key /\ checksum.verify_checksum key = true /\
    decrypt uninitialized key passphrase = returned (secret, version, compressed).
Proof.
  intros Hl Hb Hv Hp. destruct (salt_of_point p version compressed) as (salt & _ & Hs & _ & Hsalt).
  destruct (Hsalt secret Hv Hp) as [Esalt Evalid].
  destruct (scrypt_private_halves (normal passphrase) salt) as (out & left & right & Eout & Esplit & Hll & Hlr & Hlb & Hrb).
  destruct (sealed_back right secret left 0 0) as (L1 & D1 & B1 & E1); [done..|unfold half; lia|unfold half; lia|].
  destruct (sealed_back right secret left half half) as (L2 & D2 & B2 & E2); [done..|unfold half; lia|unfold half; lia|].
  destruct (flags_spec compressed false false _ eq_refl) as (Lf & Fm & Fc & _).
  destruct (private_prefix_magic version false) as [Lp Hm].
  unfold encrypt. rewrite Esalt. cbn [accept outcome_bind]. rewrite Eout. cbn [outcome_bind]. rewrite Esplit.
  cbn [fst snd]. unfold sealed in *.
  set (e1 := aes.aes256_encrypt uninitialized right (xor_data half secret left 0 0)) in *.
  set (e2 := aes.aes256_encrypt uninitialized right (xor_data half secret left half half)) in *.
  set (flags := set_flags compressed false false) in *. set (prefix := private_prefix version false) in *.
  assert (Ee : e1 = slice 0 8 e1 ++ slice 8 16 e1) by (rewrite slices_app by lia; by rewrite slice_all).
  unfold build. rewrite build_checked by (cbn [concat]; rewrite !length_app; cbn [length]; lia).
  exists (checksum.append_checksum (concat [prefix; flags; salt; slice 0 8 e1; slice 8 16 e1; e2])).
  split_and!; [..|apply checksum.verify_append|].
  - do 2 f_equal. cbn [concat]. rewrite Ee at 1. by rewrite <- app_assoc.
  - rewrite checksum.append_checksum_length. cbn [concat]. rewrite !length_app, !length_slice by lia. cbn [length]. lia.
  - apply append_checksum_bytes. cbn [concat]. unfold bytes_ok. rewrite !Forall_app.
    split_and!; try done; first [apply private_prefix_ok | apply set_flags_ok | by eapply address_salt_secret_ok | by apply slice_ok | constructor].
  - unfold decrypt. rewrite private_parsed by (try apply length_slice; lia). cbn [private_valid]. rewrite Hm. cbn [negb].
    set (parse := mk_private _ _ _ _).
    assert (Hversion : private_address_version parse = version) by (by apply private_version_back).
    unfold multiplied, parse_encrypted_key.flags, parse. cbn [private_key parse_encrypted_key.flags_]. rewrite Fm.
    fold parse. unfold decrypt_secret. rewrite Hversion. unfold parse_encrypted_key.compressed, parse_encrypted_key.flags, parse.
    cbn [private_key parse_encrypted_key.flags_ parse_encrypted_key.salt parse_encrypted_key.entropy data1 data2].
    rewrite Fc, Eout. cbn [outcome_bind]. rewrite Esplit. cbn [fst snd]. rewrite !splice_app, <- Ee.
    change 32%nat with (half + half)%nat. rewrite xor_data_halves by first [assumption | unfold half; lia].
    rewrite E1, E2. change (slice 0 (0 + half) secret ++ slice half (half + half) secret)
      with (slice 0 16 secret ++ slice 16 32 secret). rewrite slices_app by lia. rewrite slice_all by done.
    by rewrite Evalid.
Qed.

(** ** A pair made from a token is decrypted *)

(** The secret of the owner of a token: what the passphrase and the owner's
    bytes give. *)
Definition owner_secret (passphrase : list Z) (lot : bool) (entropy : list Z) : outcome (list Z) :=
  factor <-? scrypt_token (normal passphrase) (if lot then slice 0 ek_salt_size entropy else entropy) ;;
  returned (if lot then bitcoin_hash (splice factor entropy) else factor).

(** What a token holds. *)
Definition token_of (passphrase : list Z) (lot : bool) (entropy token : list Z) (factor : list Z) (p : pubkey) : Prop :=
  length entropy = 8%nat /\ owner_secret passphrase lot entropy = returned factor /\
  secp256k1_ec_pubkey_create factor = Some p /\
  token = checksum.append_checksum (concat [token_prefix lot; entropy; secp256k1_ec_pubkey_serialize true p]).

Lemma create_token_prefix_spec passphrase (lot : bool) owner_salt entropy token :
  length entropy = 8%nat -> (length owner_salt =? ek_salt_size)%nat = lot ->
  (if lot then slice 0 ek_salt_size entropy else entropy) = owner_salt ->
  create_token_prefix (repeat 0 53) passphrase owner_salt entropy (token_prefix lot) = returned token ->
  exists factor p, token_of passphrase lot entropy token factor p.
Proof.
  intros He Hlot Hsalt. unfold create_token_prefix. rewrite Hlot.
  destruct (scrypt_token_length (normal passphrase) owner_salt) as (out & Eout & _). rewrite Eout. cbn [outcome_bind].
  set (factor := if lot then _ else out). unfold elliptic_curve.secret_to_public.
  destruct (secp256k1_ec_pubkey_create factor) as [p|] eqn:Ep; [|done]. cbn [mbind option_bind].
  change ec_compressed_size with 33%nat. rewrite (serialize_point true). cbn [accept outcome_bind]. unfold build.
  rewrite build_checked by (cbn [concat]; rewrite !length_app, He, (serialize_length true); by destruct lot).
  intros [= <-]. exists factor, p. split_and!; [done| |done|done].
  unfold owner_secret. rewrite Hsalt, Eout. done.
Qed.

(** The secret of the owner as the decryption of a pair computes it. *)
Lemma owner_secret_parsed passphrase lot prefix flags salt entropy factor :
  negb (Z.land (hd 0 flags) lot_sequence_key =? 0) = lot ->
  owner_secret passphrase lot entropy = returned factor ->
  let key := parse_encrypted_key.mk prefix flags salt entropy in
  exists raw,
    scrypt_token (normal passphrase) (parse_encrypted_key.owner_salt key) = returned raw /\
    (if parse_encrypted_key.lot_sequence key then bitcoin_hash (splice raw (parse_encrypted_key.entropy key))
     else raw) = factor.
Proof.
  intros Hlot Howner. cbv zeta. unfold parse_encrypted_key.owner_salt, parse_encrypted_key.lot_sequence, parse_encrypted_key.flags.
  cbn [parse_encrypted_key.flags_ parse_encrypted_key.entropy]. rewrite Hlot. unfold owner_secret in Howner.
  destruct (scrypt_token_length (normal passphrase) (if lot then slice 0 ek_salt_size entropy else entropy)) as (out & E & _).
  exists out. rewrite E in *. cbn [outcome_bind] in Howner. split; [done|congruence].
Qed.

(** The point is what its masked sign and the halves of its hash give. *)
Lemma product_point point key :
  length point = 33%nat ->
  splice_three (point_sign (hd 0 (point_sign (hd 0 point) key)) key)
    (slice 0 (0 + half) (point_hash point)) (slice half (half + half) (point_hash point)) = point.
Proof.
  intros Hl. unfold point_sign. cbn [hd]. rewrite Z.lxor_assoc, Z.lxor_nilpotent, Z.lxor_0_r.
  aes.explode point Hl. reflexivity.
Qed.

Section Pair.
Context (passphrase entropy factor salt seed out left right : list Z) (lot compressed : bool) (version : Z) (q : pubkey).
Context (entropy_length : length entropy = 8%nat) (salt_length : length salt = 4%nat) (version_byte : byte_ok version)
  (owner : owner_secret passphrase lot entropy = returned factor)
  (owner_point : secp256k1_ec_pubkey_create factor = Some q)
  (pair : scrypt_pair (secp256k1_ec_pubkey_serialize true q) (splice salt entropy) = returned out)
  (pair_split : split out = (left, right)) (left_length : length left = 32%nat) (right_length : length right = 32%nat)
  (left_bytes : bytes_ok left) (right_bytes : bytes_ok right).

Lemma owner_public : elliptic_curve.secret_to_public ec_compressed_size factor = Some (secp256k1_ec_pubkey_serialize true q).
Proof. unfold elliptic_curve.secret_to_public. rewrite owner_point. apply (serialize_point true). Qed.

Lemma private_decrypts secret :
  length seed = 24%nat -> bytes_ok seed ->
  secp256k1_ec_privkey_tweak_mul factor (bitcoin_hash seed) = Some secret ->
  address_validate_secret salt secret version compressed = true ->
  decrypt uninitialized
    (create_private_key uninitialized (repeat 0 43) (set_flags compressed lot true) salt entropy left right seed version)
    passphrase = returned (secret, version, compressed).
Proof.
  intros Hs Hsb Emul Evalid. unfold create_private_key. rewrite splice_app.
  destruct (sealed_back right seed left 0 0) as (L1 & D1 & B1 & E1); [done..|unfold half; lia|unfold half; lia|].
  unfold sealed in *. set (e1 := aes.aes256_encrypt uninitialized right (xor_data half seed left 0 0)) in *.
  set (combined := slice quarter half e1 ++ slice half (half + quarter) seed).
  assert (Lq : length (slice quarter half e1) = 8%nat) by (rewrite length_slice; unfold quarter, half; lia).
  assert (Ls : length (slice half (half + quarter) seed) = 8%nat) by (rewrite length_slice; unfold quarter, half; lia).
  assert (Lc : length combined = 16%nat) by (unfold combined; rewrite length_app; lia).
  destruct (sealed_back right combined left 0 half) as (L2 & D2 & B2 & E2);
    [done..|apply Forall_app; split; by apply slice_ok|done|unfold half; lia|unfold half; lia|].
  unfold sealed in *. set (e2 := aes.aes256_encrypt uninitialized right (xor_data half combined left 0 half)) in *.
  destruct (flags_spec compressed lot true _ eq_refl) as (Lf & Fm & Fc & Fl).
  destruct (private_prefix_magic version true) as [Lp Hm].
  set (flags := set_flags compressed lot true) in *. set (prefix := private_prefix version true) in *.
  assert (L0 : length (slice 0 quarter e1) = 8%nat) by (rewrite length_slice; unfold quarter; lia).
  rewrite build_checked by (cbn [concat]; rewrite !length_app; cbn [length]; lia). cbn [fst].
  unfold decrypt. rewrite private_parsed by done. cbn [private_valid]. rewrite Hm. cbn [negb].
  set (parse := mk_private _ _ _ _).
  assert (Hversion : private_address_version parse = version) by (by apply private_version_back).
  assert (Hmultiplied : multiplied parse = true) by exact Fm. rewrite Hmultiplied.
  unfold decrypt_multiplied. rewrite Hversion. unfold parse. cbn [private_key data1 data2].
  destruct (owner_secret_parsed passphrase lot prefix flags salt entropy factor Fl owner) as (raw & Eraw & Efactor).
  rewrite Eraw. cbn [outcome_bind]. rewrite Efactor, owner_public.
  cbn [accept outcome_bind parse_encrypted_key.salt parse_encrypted_key.entropy]. rewrite pair. cbn [outcome_bind].
  rewrite pair_split. cbn [fst snd]. rewrite E2, (slice_all 0 (0 + half) combined) by first [done | exact Lc].
  assert (Esplit : split combined = (slice quarter half e1, slice half (half + quarter) seed))
    by (unfold combined; rewrite <- splice_app; apply split_splice; lia). rewrite Esplit. cbn [fst snd].
  rewrite !splice_app, slices_app by (unfold quarter, half; lia). rewrite (slice_all 0 half e1) by done.
  rewrite E1, slices_app by (unfold quarter, half; lia). rewrite (slice_all 0 (half + quarter) seed) by done.
  unfold elliptic_curve.ec_multiply_secret. rewrite Emul. cbn [accept outcome_bind].
  unfold parse_encrypted_key.compressed, parse_encrypted_key.flags. cbn [parse_encrypted_key.flags_]. rewrite Fc.
  by rewrite Evalid.
Qed.

Lemma public_decrypts p f factorb out_public :
  secp256k1_ec_pubkey_create factorb = Some f ->
  secp256k1_ec_pubkey_tweak_mul q factorb = Some p ->
  address_validate_point salt (secp256k1_ec_pubkey_serialize true p) version compressed = true ->
  create_public_key uninitialized (repeat 0 55) (set_flags compressed lot true) salt entropy left right factorb version =
    returned out_public ->
  decrypt_public uninitialized out_public passphrase =
  returned (secp256k1_ec_pubkey_serialize true p, version, compressed).
Proof.
  intros Ef Emul Evalid. unfold create_public_key, elliptic_curve.secret_to_public. rewrite Ef. cbn [mbind option_bind].
  change ec_compressed_size with 33%nat. rewrite (serialize_point true). cbn [accept outcome_bind].
  set (point := secp256k1_ec_pubkey_serialize true f). assert (Lpoint : length point = 33%nat) by apply (serialize_length true).
  assert (Bpoint : bytes_ok point) by apply serialize_bytes.
  assert (Lh : length (point_hash point) = 32%nat) by (unfold point_hash; by rewrite length_slice by (unfold ec_compressed_size; lia)).
  assert (Bh : bytes_ok (point_hash point)) by (by apply slice_ok).
  destruct (sealed_back right (point_hash point) left 0 0) as (L1 & D1 & B1 & E1); [done..|unfold half; lia|unfold half; lia|].
  destruct (sealed_back right (point_hash point) left half half) as (L2 & D2 & B2 & E2);
    [done..|unfold half; lia|unfold half; lia|].
  unfold sealed in *. set (e1 := aes.aes256_encrypt uninitialized right (xor_data half (point_hash point) left 0 0)) in *.
  set (e2 := aes.aes256_encrypt uninitialized right (xor_data half (point_hash point) left half half)) in *.
  destruct (flags_spec compressed lot true _ eq_refl) as (Lf & Fm & Fc & Fl).
  set (flags := set_flags compressed lot true) in *. unfold build.
  assert (Lsign : length (point_sign (hd 0 point) right) = 1%nat) by done.
  assert (Lp : length (public_prefix version) = 5%nat) by (unfold public_prefix; by rewrite splice_app).
  rewrite build_checked by (cbn [concat]; rewrite !length_app; cbn [length]; lia). intros <-%returned_inj.
  unfold decrypt_public. rewrite public_parsed by done. cbn [public_valid].
  replace (bool_decide (slice 0 4 (public_prefix version) = public_magic)) with true
    by (unfold public_prefix; by rewrite splice_app). cbn [negb public_key public_data public_sign].
  set (parse := mk_public _ _ _ _).
  assert (Hversion : public_address_version parse = version)
    by (unfold public_address_version, parse, public_prefix; rewrite splice_app; by apply context_back). rewrite Hversion.
  destruct (owner_secret_parsed passphrase lot (public_prefix version) flags salt entropy factor Fl owner) as (raw & Eraw & Efactor).
  rewrite Eraw. cbn [outcome_bind]. rewrite Efactor, owner_public.
  cbn [accept outcome_bind parse_encrypted_key.salt parse_encrypted_key.entropy]. rewrite pair. cbn [outcome_bind].
  rewrite pair_split. cbn [fst snd]. rewrite <- splice_app, split_splice by lia. cbn [fst snd]. rewrite E1, E2.
  rewrite product_point by done. unfold elliptic_curve.ec_multiply_point, elliptic_curve.parse, point. rewrite parse_serialize.
  cbn [mbind option_bind]. rewrite <- (tweak_mul_comm factor factorb q f), Emul by done. cbn [mbind option_bind].
  rewrite (serialize_length true), (serialize_point true). cbn [accept outcome_bind].
  unfold parse_encrypted_key.compressed, parse_encrypted_key.flags. cbn [parse_encrypted_key.flags_]. rewrite Fc.
  by rewrite Evalid.
Qed.
End Pair.

Lemma key_pair_decrypts passphrase lot entropy token factor q seed version compressed private public point :
  token_of passphrase lot entropy token factor q ->
  length seed = 24%nat -> bytes_ok seed -> byte_ok version ->
  create_key_pair uninitialized (repeat 0 43) (repeat 0 55) token seed version compressed =
    returned (private, public, point) ->
  exists secret p,
    secp256k1_ec_pubkey_create secret = Some p /\ point = secp256k1_ec_pubkey_serialize true p /\
    decrypt uninitialized private passphrase = returned (secret, version, compressed) /\
    decrypt_public uninitialized public passphrase = returned (point, version, compressed).
Proof.
  intros (He & Eowner & Ecreate & ->) Hs Hsb Hv. unfold create_key_pair.
  rewrite (token_parsed lot entropy _ He (serialize_length true q)).
  cbn [token_valid token_sign token_data token_entropy negb]. rewrite splice_app, slices_app by lia.
  rewrite (slice_all 0 33) by first [done | apply (serialize_length true)].
  unfold elliptic_curve.ec_multiply_point, elliptic_curve.parse. rewrite parse_serialize. cbn [mbind option_bind].
  pose proof (tweak_mul_create factor (bitcoin_hash seed) q Ecreate) as Emul.
  destruct (secp256k1_ec_pubkey_tweak_mul q (bitcoin_hash seed)) as [p|] eqn:Ep; [|done]. cbn [mbind option_bind].
  rewrite (serialize_length true), (serialize_point true). cbn [accept outcome_bind].
  destruct (secp256k1_ec_privkey_tweak_mul factor (bitcoin_hash seed)) as [secret|] eqn:Esecret; [|done].
  cbn [mbind option_bind] in Emul. symmetry in Emul.
  destruct (salt_of_point p version compressed) as (salt & Esalt & Hsalt & Epoint & Hsecret).
  destruct (Hsecret secret Hv Emul) as [_ Evalid]. rewrite Esalt. cbn [accept outcome_bind].
  destruct (scrypt_pair_halves (secp256k1_ec_pubkey_serialize true q) (splice salt entropy))
    as (out & left & right & Eout & Esplit & Hll & Hlr & Hlb & Hrb).
  rewrite Eout. cbn [outcome_bind]. rewrite Esplit. cbn [fst snd].
  replace (token_lot_sequence _) with lot by (by destruct lot).
  destruct (create_public_key _ _ _ _ _ _ _ _ _) as [out_public| |] eqn:Epublic; [|done|done]. cbn [outcome_bind].
  intros E%returned_inj. injection E as <- <- <-. exists secret, p. split_and!; [done|done| |].
  - by apply (private_decrypts passphrase entropy factor salt seed out left right lot compressed version q).
  - destruct (secp256k1_ec_pubkey_create (bitcoin_hash seed)) as [f|] eqn:Ef.
    + by apply (public_decrypts passphrase entropy factor salt out left right lot compressed version q
        He Hsalt Hv Eowner Ecreate Eout Esplit Hll Hlr Hlb Hrb p f (bitcoin_hash seed)).
    + unfold create_public_key, elliptic_curve.secret_to_public in Epublic. by rewrite Ef in Epublic.
Qed.


(** The array of a token that was not made is not a token. *)
Lemma zero_token seed version compressed :
  create_key_pair uninitialized (repeat 0 43) (repeat 0 55) (repeat 0 53) seed version compressed = refused.
Proof. reflexivity. Qed.

Lemma create_token_spec passphrase entropy token :
  length entropy = 8%nat -> create_token (repeat 0 53) passphrase entropy = returned token ->
  exists factor p, token_of passphrase false entropy token factor p.
Proof.
  intros He. apply create_token_prefix_spec; [done| |done]. by rewrite He.
Qed.

Lemma create_token_lot_spec passphrase salt lot sequence token :
  length salt = 4%nat -> create_token_lot (repeat 0 53) passphrase salt lot sequence = returned token ->
  token = repeat 0 53 \/ exists entropy factor p, token_of passphrase true entropy token factor p.
Proof.
  intros Hs. unfold create_token_lot. destruct (_ || _); [done|]. rewrite splice_app.
  set (entropy := salt ++ _).
  assert (He : length entropy = 8%nat) by (unfold entropy; by rewrite length_app, length_to_big_endian, Hs).
  destruct (create_token_prefix _ _ _ _ _) as [t| |] eqn:E; intros Et; [| |done].
  - apply returned_inj in Et as <-. right. exists entropy. apply (create_token_prefix_spec _ _ salt); try done.
    + by rewrite Hs.
    + unfold entropy. rewrite <- Hs. unfold slice, ek_salt_size. rewrite drop_0, Nat.sub_0_r.
      rewrite <- Hs. apply take_app_length.
  - left. by apply returned_inj in Et.
Qed.

Lemma token_pair_decrypts passphrase token seed version compressed private public point :
  (exists entropy, length entropy = 8%nat /\ create_token (repeat 0 53) passphrase entropy = returned token) \/
  (exists salt lot sequence,
     length salt = 4%nat /\ create_token_lot (repeat 0 53) passphrase salt lot sequence = returned token) ->
  length seed = 24%nat -> bytes_ok seed -> byte_ok version ->
  create_key_pair uninitialized (repeat 0 43) (repeat 0 55) token seed version compressed =
    returned (private, public, point) ->
  exists secret p,
    secp256k1_ec_pubkey_create secret = Some p /\ point = secp256k1_ec_pubkey_serialize true p /\
    decrypt uninitialized private passphrase = returned (secret, version, compressed) /\
    decrypt_public uninitialized public passphrase = returned (point, version, compressed).
Proof.
  intros Htoken Hs Hsb Hv Epair.
  assert (Hof : exists lot entropy factor q, token_of passphrase lot entropy token factor q).
  { destruct Htoken as [(entropy & He & E)|(salt & lot & sequence & Hsalt & E)].
    - exists false, entropy. by apply create_token_spec.
    - exists true. apply create_token_lot_spec in E as [->|E]; [|done|done]. by rewrite zero_token in Epair. }
  destruct Hof as (lot & entropy & factor & q & Hof). by eapply key_pair_decrypts.
Qed.

(** ** What is decrypted has the address of the key *)

Lemma validated salt secret version compressed :
  address_validate_secret salt secret version compressed = true ->
  payment_address.valid (payment_address.from_private (ec_private.of_secret secret version compressed)) = true /\
  take (length salt)
    (bitcoin_hash
       (payment_address.encoded (payment_address.from_private (ec_private.of_secret secret version compressed)))) = salt.
Proof.
  unfold address_validate_secret. set (address := payment_address.from_private _). clearbody address. intros Hv.
  destruct (payment_address.valid address); [|done]. split; [done|].
  unfold address_validate in Hv. by apply bool_decide_eq_true in Hv.
Qed.

Lemma decrypted_secret_validated parse passphrase secret :
  (if multiplied parse then decrypt_multiplied uninitialized parse passphrase
   else decrypt_secret uninitialized parse passphrase) = returned secret ->
  address_validate_secret (parse_encrypted_key.salt (private_key parse)) secret (private_address_version parse)
    (parse_encrypted_key.compressed (private_key parse)) = true.
Proof.
  assert (Hguard : forall (b : bool) (s : list Z), (if b then returned s else refused) = returned secret ->
    s = secret /\ b = true) by (intros []; [intros s ->%returned_inj|]; done).
  destruct (multiplied parse).
  - unfold decrypt_multiplied. destruct (scrypt_token _ _); [|done|done]. cbn [outcome_bind].
    destruct (elliptic_curve.secret_to_public _ _); [|done]. cbn [accept outcome_bind].
    destruct (scrypt_pair _ _) as [pair| |]; [|done|done]. cbn [outcome_bind].
    destruct (elliptic_curve.ec_multiply_secret _ _) as [s|]; [|done]. cbn [accept outcome_bind].
    by intros [-> ?]%Hguard.
  - unfold decrypt_secret. destruct (scrypt_private _ _) as [out| |]; [|done|done]. cbn [outcome_bind].
    set (s := xor_data _ _ _ _ _). clearbody s. by intros [-> ?]%Hguard.
Qed.

Lemma decrypted_commits key passphrase secret version compressed :
  decrypt uninitialized key passphrase = returned (secret, version, compressed) ->
  checksum.verify_checksum key = true /\ slice 0 1 key = private_magic /\
  let address := payment_address.from_private (ec_private.of_secret secret version compressed) in
  payment_address.valid address = true /\
  take (length (slice 3 7 key)) (bitcoin_hash (payment_address.encoded address)) = slice 3 7 key.
Proof.
  unfold decrypt. destruct (private_valid (parse_private key)) eqn:Evalid; [|done]. cbn [negb].
  destruct (if multiplied _ then _ else _) as [s| |] eqn:E; [|done|done]. cbn [outcome_bind].
  intros [= -> <- <-]. apply decrypted_secret_validated, validated in E. cbn [private_valid parse_private] in Evalid.
  apply andb_true_iff in Evalid as [Hm Hc]. apply bool_decide_eq_true in Hm. split_and!; [done| |apply E|apply E].
  rewrite <- Hm. cbn [parse_encrypted_key.prefix]. unfold slice. by rewrite !drop_0, take_take.
Qed.
End Rules.
