(* ===== verification/SignedMessage.v ===== *)
(** Signed messages, [src/wallet/message.cpp]: a message is signed with a
    recoverable signature under a byte that holds the recovery id and the form
    of the public key, and verified against the hash of a payment address. *)

From S2P Require Import Prelude Limits Endian Reader Writer Codes Operation Script Data Header Checksum Sighash Elliptic Keys KeyRules.

Module signed_message.
Section Signed.
Context `{Currency} `{Crypto} `{Secp256k1}.

Definition message_signature_size : nat := 1 + ec_signature_size.

Definition max_recovery_id : Z := 3.
Definition magic_compressed : Z := 31.
Definition magic_uncompressed : Z := 27.
Definition magic_differential : Z := magic_compressed - magic_uncompressed.

Definition hash_message (message : list Z) : list Z :=
  bitcoin_hash (write_string (chars "Bitcoin Signed Message:" ++ [10]) ++
                write_variable_little_endian (zlen message) ++ write_bytes message).

Definition recover (compressed : bool) (compact : list Z) (recovery_id : Z) (message_digest : list Z) :
    option (list Z) :=
  bitcoin_short_hash <$>
    elliptic_curve.recover_public (if compressed then ec_compressed_size else ec_uncompressed_size)
      (compact, recovery_id) message_digest.

Definition recovery_id_to_magic (recovery_id : Z) (compressed : bool) : option Z :=
  if recovery_id >? max_recovery_id then None
  else Some (u8 (recovery_id + if compressed then magic_compressed else magic_uncompressed)).

Definition magic_to_recovery_id (magic : Z) : option (Z * bool) :=
  if (magic <? magic_uncompressed) || (magic >? magic_compressed + max_recovery_id) then None
  else
    let recovery_id := magic - magic_uncompressed in
    let compressed := recovery_id >=? magic_differential in
    Some (if compressed then recovery_id - magic_differential else recovery_id, compressed).

(** [sign_message(signature, message, secret, compressed)] *)
Definition sign_message (message secret : list Z) (compressed : bool) : option (list Z) :=
  '(signature, recovery_id) ← elliptic_curve.sign_recoverable secret (hash_message message);
  magic ← recovery_id_to_magic recovery_id compressed;
  Some (splice [magic] signature).

(** with an [ec_private], and with the text of one *)
Definition sign_message_private (message : list Z) (secret : ec_private.t) : option (list Z) :=
  sign_message message (ec_private.secret secret) (ec_private.compress secret).

Definition sign_message_wif (message wif : list Z) : option (list Z) :=
  let secret := ec_private.from_string wif ec_private.mainnet_p2kh in
  if ec_private.valid secret then sign_message_private message secret else None.

Definition verify_message (message : list Z) (address : payment_address.t) (signature : list Z) : bool :=
  match magic_to_recovery_id (hd 0 signature) with
  | None => false
  | Some (recovery_id, compressed) =>
      match recover compressed (slice 1 message_signature_size signature) recovery_id (hash_message message) with
      | Some hash => bool_decide (hash = payment_address.hash address)
      | None => false
      end
  end.
End Signed.

(** The byte is read back. *)
Lemma magic_roundtrip recovery_id compressed :
  0 <= recovery_id <= max_recovery_id ->
  exists magic, recovery_id_to_magic recovery_id compressed = Some magic /\
    magic_to_recovery_id magic = Some (recovery_id, compressed).
Proof.
  intros Hid. unfold recovery_id_to_magic, max_recovery_id in *. destruct (Z.gtb_spec recovery_id 3); [lia|].
  eexists. split; [done|]. assert (Hc : recovery_id = 0 \/ recovery_id = 1 \/ recovery_id = 2 \/ recovery_id = 3) by lia.
  destruct compressed, Hc as [->|[->|[->| ->]]]; done.
Qed.

(** A message that is signed with a key is verified with the address of the
    key, for either form of the key. *)
Lemma signed_verifies `{Currency} `{Crypto} `{Secp256k1Laws} message k version p :
  ec_private.valid k = true -> secp256k1_ec_pubkey_create (ec_private.secret k) = Some p ->
  exists signature, sign_message_private message k = Some signature /\
    length signature = message_signature_size /\
    verify_message message (payment_address.from_public (ec_private.to_public k) version) signature = true.
Proof.
  intros Hv Hp. unfold sign_message_private, sign_message, elliptic_curve.sign_recoverable.
  destruct (sign_recoverable_valid (hash_message message) (ec_private.secret k) p Hp)
    as (signature & id & -> & Hl & Hid & Hrec). cbn [mbind option_bind].
  destruct (magic_roundtrip id (ec_private.compress k) Hid) as (magic & -> & Hm). cbn [mbind option_bind].
  eexists. split; [done|]. rewrite splice_app. split; [cbn [app length]; by rewrite Hl|].
  unfold verify_message. cbn [app hd]. rewrite Hm.
  replace (slice 1 message_signature_size (magic :: signature)) with signature.
  2:{ unfold slice, message_signature_size, ec_signature_size. cbn [drop]. symmetry. apply take_ge. simpl. lia. }
  unfold recover, elliptic_curve.recover_public. cbn [fst snd]. rewrite Hrec. cbn [mbind option_bind].
  unfold ec_private.to_public, elliptic_curve.secret_to_public. rewrite Hv, Hp. cbn [mbind option_bind].
  unfold ec_compressed_size, ec_uncompressed_size. rewrite (serialize_point true).
  unfold payment_address.from_public, ec_public.of_compressed, ec_public.to_data. cbn [ec_public.valid ec_public.compress negb].
  destruct (ec_private.compress k).
  - rewrite (serialize_point true). cbn [fmap option_fmap option_map payment_address.hash payment_address.of_hash].
    by apply bool_decide_eq_true.
  - rewrite (serialize_point false). unfold ec_public.to_uncompressed. cbn [ec_public.valid ec_public.point negb].
    rewrite decompress_compressed. cbn [fmap option_fmap option_map payment_address.hash payment_address.of_hash].
    by apply bool_decide_eq_true.
Qed.

(** C13: What a valid private key signs, verifies. An endorsement created for
    an input has the size and the type of an endorsement, parses under strict
    and lax rules, and its signature passes check_signature for the public key
    in either form, on the same transaction, script and value; a signed
    message has 65 bytes and is verified with the payment address of the key,
    compressed or not, for any version. *)
Theorem signatures_verify `{Currency} `{Crypto} `{Secp256k1Laws} k p message version compressed sc tx i ty v value :
  ec_private.valid k = true -> secp256k1_ec_pubkey_create (ec_private.secret k) = Some p ->
  (exists out signature,
     elliptic_curve.create_endorsement (ec_private.secret k) sc tx i ty v value = Some (out ++ [ty]) /\
     is_endorsement (out ++ [ty]) = true /\
     (forall strict, elliptic_curve.parse_signature out strict = Some signature) /\
     check_signature signature ty (secp256k1_ec_pubkey_serialize compressed p) sc tx i v value = true) /\
  (exists signature,
     sign_message_private message k = Some signature /\ length signature = message_signature_size /\
     verify_message message (payment_address.from_public (ec_private.to_public k) version) signature = true).
Proof. intros Hv Hp. split; [destruct (endorsement_verifies (ec_private.secret k) p compressed sc tx i ty v value Hp) as (out & signature & ? & _ & ?); by exists out, signature|by apply (signed_verifies message k version p)]. Qed.
End signed_message.
