(* ===== verification/Stealth.v ===== *)
(** Stealth payments: [src/math/stealth.cpp], and [stealth_address],
    [stealth_receiver] and [stealth_sender] of [src/wallet]. The hash functions
    that only this code calls are parameters. *)

From S2P Require Import Prelude Limits Endian Reader Writer Binary Codes Number Operation Script Patterns Radix Base58 Data Header Checksum Sighash Elliptic Keys KeyRules.

Class StealthHash := {
  hmac_sha256_hash : list Z -> list Z -> list Z;
  sha512_hash : list Z -> list Z
}.

Class StealthHashLaws `{StealthHash} := {
  sha512_length data : length (sha512_hash data) = 64%nat;
  sha512_bytes data : bytes_ok (sha512_hash data)
}.

(** [for (nonce = start; ...; ++nonce)] with a 32 bit counter, at most [p]
    turns: the result of the first turn that has one, or the counter after the
    turns. *)
Fixpoint search {A} (step : Z -> option A) (p : positive) (nonce : Z) : A + Z :=
  match p with
  | xH => match step nonce with Some a => inl a | None => inr (u32 (nonce + 1)) end
  | xO p => match search step p nonce with inl a => inl a | inr nonce => search step p nonce end
  | xI p =>
      match step nonce with
      | Some a => inl a
      | None =>
          match search step p (u32 (nonce + 1)) with inl a => inl a | inr nonce => search step p nonce end
      end
  end.

Module stealth.
Section Stealth.
Context `{Currency} `{Crypto} `{Secp256k1} `{StealthHash}.

Definition data_at (s : script) (n : nat) : list Z := op_data (nth n (operations s) reset_operation).

Definition is_stealth_script (s : script) : bool :=
  if negb (bool_decide (pattern s = null_data)) then false
  else zlen (data_at s 1) >=? Z.of_nat hash_size.

Definition to_stealth_prefix (s : script) : option Z :=
  if negb (is_stealth_script s) then None
  else Some (from_little_endian 4 (bitcoin_hash (script_to_data false s))).

Definition magic : list Z := chars "Stealth seed".

(** The turns of the loop, over the nonces that are left. *)
Fixpoint ephemeral_loop (seed nonces : list Z) : option (list Z) :=
  match nonces with
  | [] => None
  | nonce :: nonces =>
      let secret := hmac_sha256_hash (build_chunk [[nonce]; seed]) magic in
      match elliptic_curve.secret_to_public ec_compressed_size secret with
      | Some point => if elliptic_curve.is_even_key point then Some secret else ephemeral_loop seed nonces
      | None => ephemeral_loop seed nonces
      end
  end.

Definition create_ephemeral_key (seed : list Z) : option (list Z) :=
  ephemeral_loop seed (map Z.of_nat (seq 0 255)).

Definition max_pad_size : Z := max_null_data_size - 32 - 4.

(** The data of a nonce: the key without its sign, the pad and the nonce. *)
Definition stealth_data (point bytes : list Z) (nonce : Z) : list Z :=
  take 32 (drop 1 point) ++ take (Z.to_nat (List.last bytes 0 mod max_pad_size)) bytes ++ to_little_endian 4 nonce.

(** One turn of the loop that mines the filter. *)
Definition mine (point bytes : list Z) (filter : binary.t) (nonce : Z) : option script :=
  let s := from_operations (to_null_data_pattern (stealth_data point bytes nonce)) in
  match to_stealth_prefix s with
  | Some field => if binary.is_prefix_of_number filter field then Some s else None
  | None => None
  end.

Definition create_stealth_script (secret : list Z) (filter : binary.t) (seed : list Z) : option script :=
  let bytes := sha512_hash seed in
  match elliptic_curve.secret_to_public ec_compressed_size secret with
  | None => None
  | Some point =>
      if negb (elliptic_curve.is_even_key point) then None
      else
        let start := from_little_endian 4 (drop (Z.to_nat max_pad_size) bytes) in
        match search (mine point bytes filter) (2 ^ 32 - 1) (u32 (start + 1)) with
        | inl s => Some s
        | inr _ => None
        end
  end.

Definition create_stealth_data (filter : binary.t) (seed : list Z) : option (script * list Z) :=
  secret ← create_ephemeral_key seed;
  s ← create_stealth_script secret filter seed;
  Some (s, secret).

Definition extract_ephemeral_key (s : script) : option (list Z) :=
  if negb (is_stealth_script s) then None else Some (ec_even_sign :: take hash_size (data_at s 1)).

Definition extract_unsigned_ephemeral_key (s : script) : option (list Z) :=
  if negb (is_stealth_script s) then None else Some (take hash_size (data_at s 1)).

Definition shared_secret (secret point : list Z) : option (list Z) :=
  sha256_hash <$> elliptic_curve.ec_multiply_point point secret.

(** [uncover_stealth] of a public and of a private spend key *)
Definition uncover_public (ephemeral_or_scan scan_or_ephemeral spend : list Z) : option (list Z) :=
  shared ← shared_secret scan_or_ephemeral ephemeral_or_scan; elliptic_curve.ec_add_point spend shared.

Definition uncover_secret (ephemeral_or_scan scan_or_ephemeral spend : list Z) : option (list Z) :=
  shared ← shared_secret scan_or_ephemeral ephemeral_or_scan; elliptic_curve.ec_add_secret spend shared.
End Stealth.
End stealth.

(** ** Addresses *)

Module stealth_address.
Section Address.
Context `{Crypto} `{Secp256k1}.

Record t := mk {
  valid : bool;
  version : Z;
  scan_key : list Z;
  spend_keys : list (list Z);
  signatures : Z;
  filter : binary.t
}.

Definition min_address_size : nat := 1 + 1 + ec_compressed_size + 1 + 1 + 1 + 4.
Definition max_spend_key_count : Z := max_uint8.
Definition mainnet_p2kh : Z := 0x2a.
Definition reuse_key_flag : Z := 1.
Definition max_filter_bits : nat := 32.

Definition default : t := mk false 0 null_compressed_point [] 0 binary.default.

(** [from_stealth] of the parts *)
Definition from_parts (filter : binary.t) (scan_key : list Z) (spend_keys : list (list Z)) (signatures version : Z) : t :=
  let spenders := match spend_keys with [] => [scan_key] | _ => spend_keys end in
  if zlen spenders >? max_spend_key_count then default
  else if (max_filter_bits <? binary.size filter)%nat then default
  else
    let maximum := (signatures =? 0) || (signatures >? zlen spenders) in
    mk true version scan_key spenders (if maximum then u8 (zlen spenders) else signatures) filter.

(** The keys from the front of the data. *)
Fixpoint read_keys (count : nat) (data : list Z) : list (list Z) :=
  match count with
  | O => []
  | S count => take ec_compressed_size data :: read_keys count (drop ec_compressed_size data)
  end.

Definition from_stealth (decoded : list Z) : t :=
  if (length decoded <? min_address_size)%nat || negb (checksum.verify_checksum decoded) then default
  else
    let version := nth 0 decoded 0 in
    let options := nth 1 decoded 0 in
    if options >? reuse_key_flag then default
    else
      let scan_key := take ec_compressed_size (drop 2 decoded) in
      let number_spend_pubkeys := Z.to_nat (nth (2 + ec_compressed_size) decoded 0) in
      let required_size := (min_address_size + number_spend_pubkeys * ec_compressed_size)%nat in
      if (length decoded <? required_size)%nat then default
      else
        let data := drop (3 + ec_compressed_size) decoded in
        let keys := (if options =? reuse_key_flag then [scan_key] else []) ++ read_keys number_spend_pubkeys data in
        let data := drop (number_spend_pubkeys * ec_compressed_size) data in
        let signatures := nth 0 data 0 in
        let filter_bits := Z.to_nat (nth 1 data 0) in
        if (max_filter_bits <? filter_bits)%nat then default
        else
          let filter_bytes := ((filter_bits + 7) / 8)%nat in
          if negb (length decoded =? required_size + filter_bytes)%nat then default
          else from_parts (binary.of_blocks filter_bits (take filter_bytes (drop 2 data))) scan_key keys signatures version.

Definition from_string (encoded : list Z) : t :=
  match decode_base58 encoded with
  | Some decoded => from_stealth decoded
  | None => default
  end.

Definition reuse_key (a : t) : bool := bool_decide (scan_key a ∈ spend_keys a).
Definition options (a : t) : Z := if reuse_key a then reuse_key_flag else 0.

Definition to_chunk (a : t) : list Z :=
  let number_spend_pubkeys := u8 (zlen (spend_keys a)) in
  let number_spend_pubkeys := if reuse_key a then u8 (number_spend_pubkeys - 1) else number_spend_pubkeys in
  checksum.append_checksum
    ([version a] ++ [options a] ++ scan_key a ++ [number_spend_pubkeys] ++
     concat (List.filter (fun key => negb (bool_decide (key = scan_key a))) (spend_keys a)) ++
     [signatures a] ++ [u8 (Z.of_nat (binary.size (filter a)))] ++ binary.blocks (filter a)).

Definition encoded (a : t) : list Z := encode_base58 (to_chunk a).

Definition assign (self other : t) : t :=
  mk (valid other) (version other) (scan_key other) (spend_keys other) (signatures other) (filter other).

Definition eqb (a b : t) : bool :=
  Bool.eqb (valid a) (valid b) && (version a =? version b) && bool_decide (scan_key a = scan_key b) &&
  bool_decide (spend_keys a = spend_keys b) && (signatures a =? signatures b) && binary.eqb (filter a) (filter b).
End Address.
End stealth_address.

(** ** The two sides of a payment *)

Module stealth_receiver.
Section Receiver.
Context `{Currency} `{Crypto} `{Secp256k1} `{StealthHash}.

Record t := mk {
  version : Z;
  scan_private : list Z;
  spend_private : list Z;
  spend_public : list Z;
  address : stealth_address.t
}.

(** [uninitialized]: what [spend_public_] holds before it is assigned. *)
Definition make (uninitialized scan_private spend_private : list Z) (filter : binary.t) (version : Z) : t :=
  match elliptic_curve.secret_to_public ec_compressed_size scan_private with
  | None => mk version scan_private spend_private uninitialized stealth_address.default
  | Some scan_public =>
      match elliptic_curve.secret_to_public ec_compressed_size spend_private with
      | None => mk version scan_private spend_private uninitialized stealth_address.default
      | Some spend_public =>
          mk version scan_private spend_private spend_public
            (stealth_address.from_parts filter scan_public [spend_public] 0 stealth_address.mainnet_p2kh)
      end
  end.

Definition derive_address (r : t) (ephemeral_public : list Z) : option payment_address.t :=
  receiver_public ← stealth.uncover_public ephemeral_public (scan_private r) (spend_public r);
  Some (payment_address.from_public (ec_public.of_compressed receiver_public true) (version r)).

Definition derive_private (r : t) (ephemeral_public : list Z) : option (list Z) :=
  stealth.uncover_secret ephemeral_public (scan_private r) (spend_private r).
End Receiver.
End stealth_receiver.

Module stealth_sender.
Section Sender.
Context `{Currency} `{Crypto} `{Secp256k1} `{StealthHash}.

Record t := mk { version : Z; stealth_script : script; address : payment_address.t }.

Definition initialize (version : Z) (ephemeral_private : list Z) (to : stealth_address.t) (seed : list Z)
    (filter : binary.t) : t :=
  let failed := mk version reset_script payment_address.default in
  match elliptic_curve.secret_to_public ec_compressed_size ephemeral_private with
  | None => failed
  | Some ephemeral_public =>
      match stealth_address.spend_keys to with
      | [spend_key] =>
          match stealth.uncover_public (stealth_address.scan_key to) ephemeral_private spend_key with
          | None => failed
          | Some sender_public =>
              match stealth.create_stealth_script ephemeral_private filter seed with
              | Some s => mk version s (payment_address.from_public (ec_public.of_compressed sender_public true) version)
              | None => failed
              end
          end
      | _ => failed
      end
  end.

(** with the seed of the ephemeral key, or with the key *)
Definition make (to : stealth_address.t) (seed : list Z) (filter : binary.t) (version : Z) : t :=
  match stealth.create_ephemeral_key seed with
  | Some ephemeral_private => initialize version ephemeral_private to seed filter
  | None => mk version reset_script payment_address.default
  end.

Definition make_with (ephemeral_private : list Z) (to : stealth_address.t) (seed : list Z) (filter : binary.t)
    (version : Z) : t := initialize version ephemeral_private to seed filter.
End Sender.
End stealth_sender.
