(* ===== verification/StealthRules.v ===== *)
(** What holds of stealth payments: the search of a nonce is complete, an
    address is read back from its text, and the receiver of a payment derives
    the address the sender pays to and the key that spends it. *)

From S2P Require Import Prelude Limits Endian Reader Writer Binary Codes Number Operation Script Patterns Radix Base58 Data Header Checksum Sighash Elliptic Keys KeyRules Stealth.

Lemma word_roundtrip l : length l = 4%nat -> bytes_ok l -> to_little_endian 4 (from_little_endian 4 l) = l.
Proof. intros Hl Hb. rewrite from_little_endian_value by done. rewrite <- Hl. by apply to_little_endian_le_value. Qed.

Lemma wrapped_distance a b : 0 <= a < 2 ^ 32 -> 0 <= b < 2 ^ 32 -> a <> b -> 0 <= (a - b - 1) mod 2 ^ 32 < 2 ^ 32 - 1.
Proof.
  intros Ha Hb Hne. destruct (decide (b < a)).
  - rewrite Z.mod_small; lia.
  - replace ((a - b - 1) mod 2 ^ 32) with (a - b - 1 + 2 ^ 32); [lia|].
    apply (Z.mod_unique _ _ (-1)); lia.
Qed.

Lemma word_width l : bytes_ok l -> in_width 32 (from_little_endian 4 l).
Proof.
  intros Hb. replace (from_little_endian 4 l) with (from_little_endian (length (take 4 l)) (take 4 l)).
  - rewrite from_little_endian_value by (done || by apply Forall_take). pose proof (le_value_bound (take 4 l) ltac:(by apply Forall_take)).
    assert (2 ^ (8 * zlen (take 4 l)) <= 2 ^ 32); [|unfold in_width; lia].
    apply Z.pow_le_mono_r; [lia|]. unfold zlen. rewrite length_take. lia.
  - unfold from_little_endian. by rewrite (take_ge (take 4 l)) by lia.
Qed.

(** ** The search *)

Lemma u32_add n k : u32 (u32 n + k) = u32 (n + k).
Proof. unfold u32, wrap. by rewrite Zplus_mod_idemp_l. Qed.

(** What [count] turns from [n] on return: the result of the first turn that has
    one, or the counter after turns without any. *)
Definition searched {A} (step : Z -> option A) (count n : Z) (r : A + Z) : Prop :=
  match r with
  | inl a => exists k, 0 <= k < count /\ step (u32 (n + k)) = Some a
  | inr m => m = u32 (n + count) /\ forall j, 0 <= j < count -> step (u32 (n + j)) = None
  end.

Lemma searched_then {A} (step : Z -> option A) c d n r (next : Z -> A + Z) :
  0 < c -> 0 < d -> searched step c n r -> (forall m, u32 m = m -> searched step d m (next m)) ->
  searched step (c + d) n (match r with inl a => inl a | inr m => next m end).
Proof.
  intros Hc Hd. destruct r as [a|m]; simpl.
  - intros (k & Hk & Hs) _. exists k. split; [lia|done].
  - intros [-> H1] H2. specialize (H2 (u32 (n + c))).
    assert (Hu : u32 (u32 (n + c)) = u32 (n + c)) by (pose proof (u32_add (n + c) 0) as E; by rewrite !Z.add_0_r in E).
    specialize (H2 Hu). destruct (next _) as [a|m]; simpl in *.
    + destruct H2 as (k & Hk & Hs). exists (c + k). rewrite u32_add, <- Z.add_assoc in Hs. split; [lia|done].
    + destruct H2 as [-> Hj]. rewrite u32_add, Z.add_assoc. split; [done|]. intros j Hjr.
      destruct (decide (j < c)); [apply H1; lia|]. specialize (Hj (j - c) ltac:(lia)).
      rewrite u32_add in Hj. by replace (n + c + (j - c)) with (n + j) in Hj by lia.
Qed.

Lemma searched_once {A} (step : Z -> option A) n :
  u32 n = n -> searched step 1 n (match step n with Some a => inl a | None => inr (u32 (n + 1)) end).
Proof.
  intros Hn. destruct (step n) as [a|] eqn:E; simpl.
  - exists 0. rewrite Z.add_0_r, Hn. split; [lia|done].
  - split; [done|]. intros j Hj. replace j with 0 by lia. by rewrite Z.add_0_r, Hn.
Qed.

Lemma search_spec {A} (step : Z -> option A) p : forall n, u32 n = n -> searched step (Zpos p) n (search step p n).
Proof.
  induction p as [p IH|p IH|]; intros n Hn; cbn [search].
  - rewrite Pos2Z.inj_xI. replace (2 * Zpos p + 1) with (1 + (Zpos p + Zpos p)) by lia.
    pose proof (searched_then step 1 (Zpos p + Zpos p) n _
      (fun m => match search step p m with inl a => inl a | inr m => search step p m end)
      ltac:(lia) ltac:(lia) (searched_once step n Hn)) as Hs.
    destruct (step n); apply Hs; intros m Hm; apply searched_then; (lia || by apply IH || done).
  - rewrite Pos2Z.inj_xO. replace (2 * Zpos p) with (Zpos p + Zpos p) by lia.
    apply searched_then; [lia|lia|by apply IH|done].
  - by apply searched_once.
Qed.

(** ** The script *)

Section Scripts.
Context `{Currency} `{Crypto} `{Secp256k1Laws} `{StealthHashLaws} `{!checksum.CryptoLaws}.

Import stealth.

Lemma stealth_data_size point bytes nonce :
  length point = 33%nat -> bytes_ok point -> length bytes = 64%nat -> bytes_ok bytes ->
  32 <= zlen (stealth_data point bytes nonce) <= 80 /\ bytes_ok (stealth_data point bytes nonce) /\
  take 32 (stealth_data point bytes nonce) = drop 1 point.
Proof.
  intros Hl Hb Hlb Hbb. unfold stealth_data. assert (Hk : length (drop 1 point) = 32%nat) by (rewrite length_drop; lia).
  rewrite (take_ge (drop 1 point)) by lia.
  change max_pad_size with 44. pose proof (Z.mod_pos_bound (List.last bytes 0) 44 ltac:(lia)) as Hm. split_and!.
  - unfold zlen. rewrite !length_app, length_take, length_to_little_endian. lia.
  - unfold zlen. rewrite !length_app, length_take, length_to_little_endian. lia.
  - apply bytes_ok_app. split; [by apply Forall_drop|]. apply bytes_ok_app. split; [by apply Forall_take|apply bytes_ok_to_little_endian].
  - by apply take_app_length'.
Qed.

(** A null data script of such data, built or parsed. *)
Lemma stealth_script s data :
  32 <= zlen data <= 80 -> operations s = to_null_data_pattern data ->
  is_stealth_script s = true /\ data_at s 1 = data.
Proof.
  intros Hd Hs. unfold is_stealth_script, data_at, pattern, output_pattern. rewrite Hs.
  unfold to_null_data_pattern, max_null_data_size. destruct (Z.gtb_spec (zlen data) 80); [lia|].
  destruct (op_of_data_payload data) as [-> Hp]; [unfold max_push_data_size; lia|].
  set (op := mk_operation _ _ _).
  assert (Hn : is_null_data_pattern [op_of_code opcode.return_; op] = true).
  { unfold is_null_data_pattern, is_minimal_push, op. cbn [code op_data]. rewrite Z.eqb_refl. cbn [andb].
    unfold minimal_opcode_from_data. replace (zlen data =? 1) with false by lia. rewrite Z.eqb_refl. cbn [andb].
    unfold max_null_data_size. lia. }
  assert (Hother : is_pay_key_hash_pattern [op_of_code opcode.return_; op] = false /\
    is_pay_script_hash_pattern [op_of_code opcode.return_; op] = false) by done.
  destruct Hother as [-> ->]. rewrite Hn. cbn [nth op_data op].
  rewrite (bool_decide_false (null_data = non_standard)) by done.
  rewrite bool_decide_true by done. split; [|done]. cbn [negb]. rewrite Z.geb_le. change (Z.of_nat hash_size) with 32. lia.
Qed.

(** What a successful search of a nonce returns. *)
Lemma mined point bytes filter nonce s :
  length point = 33%nat -> bytes_ok point -> length bytes = 64%nat -> bytes_ok bytes ->
  mine point bytes filter nonce = Some s <->
  s = from_operations (to_null_data_pattern (stealth_data point bytes nonce)) /\
  binary.is_prefix_of filter (take 4 (bitcoin_hash (script_to_data false s))) = true.
Proof.
  intros Hl Hb Hlb Hbb. unfold mine. set (s' := from_operations _).
  destruct (stealth_data_size point bytes nonce Hl Hb Hlb Hbb) as (Hz & Hdb & Ht).
  destruct (stealth_script s' _ Hz eq_refl) as [Hs Hd]. unfold to_stealth_prefix. rewrite Hs. cbn [negb].
  assert (E : binary.is_prefix_of_number filter (from_little_endian 4 (bitcoin_hash (script_to_data false s'))) =
    binary.is_prefix_of filter (take 4 (bitcoin_hash (script_to_data false s')))).
  { unfold binary.is_prefix_of_number. set (h := bitcoin_hash _).
    assert (Hh : length h = 32%nat /\ bytes_ok h)
      by (split; [apply checksum.sha256_hash_length|apply checksum.sha256_hash_bytes]).
    replace (from_little_endian 4 h) with (from_little_endian 4 (take 4 h)) by (unfold from_little_endian; by rewrite take_take).
    rewrite word_roundtrip; [done|rewrite length_take; lia|by apply Forall_take, Hh]. }
  rewrite E. destruct (binary.is_prefix_of _ _) eqn:Ep.
  - split; [by intros [= <-]|by intros [-> _]].
  - split; [done|]. intros [-> Hp]. congruence.
Qed.

(** The key of the sender is read from the script, also after it was sent. *)
Lemma extracted point bytes nonce s :
  length point = 33%nat -> bytes_ok point -> length bytes = 64%nat -> bytes_ok bytes ->
  elliptic_curve.is_even_key point = true ->
  s = from_operations (to_null_data_pattern (stealth_data point bytes nonce)) ->
  extract_ephemeral_key s = Some point /\ extract_ephemeral_key (copy_script s) = Some point.
Proof.
  intros Hl Hb Hlb Hbb He ->.
  destruct (stealth_data_size point bytes nonce Hl Hb Hlb Hbb) as (Hz & Hdb & Ht).
  assert (Hp : ec_even_sign :: drop 1 point = point).
  { unfold elliptic_curve.is_even_key in He. apply Z.eqb_eq in He. destruct point; [done|]. simpl in *. by subst. }
  assert (Hwf : Forall operation_wf (to_null_data_pattern (stealth_data point bytes nonce))).
  { unfold to_null_data_pattern, max_null_data_size. destruct (Z.gtb_spec (zlen (stealth_data point bytes nonce)) 80); [lia|].
    apply Forall_cons_2; [apply op_of_code_wf; by vm_compute|]. apply Forall_cons_2; [|apply Forall_nil_2].
    apply op_of_data_wf; [done|unfold max_push_data_size; lia]. }
  assert (Hx : forall s, operations s = to_null_data_pattern (stealth_data point bytes nonce) ->
            extract_ephemeral_key s = Some point).
  { intros s Hs. destruct (stealth_script s _ Hz Hs) as [Hst Hd]. unfold extract_ephemeral_key.
    rewrite Hst, Hd. cbn [negb]. change hash_size with 32%nat. by rewrite Ht, Hp. }
  split; apply Hx; [done|]. by apply copy_from_operations.
Qed.

(** The script is found for some nonce, and is not found only if there is no
    nonce for it but the one the search starts from. *)
Lemma create_stealth_script_spec secret filter seed p :
  secp256k1_ec_pubkey_create secret = Some p ->
  let point := secp256k1_ec_pubkey_serialize true p in
  let bytes := sha512_hash seed in
  match create_stealth_script secret filter seed with
  | Some s => elliptic_curve.is_even_key point = true /\
              exists nonce, in_width 32 nonce /\ nonce <> from_little_endian 4 (drop 44 bytes) /\
                mine point bytes filter nonce = Some s
  | None => elliptic_curve.is_even_key point = false \/
            forall nonce, in_width 32 nonce -> nonce <> from_little_endian 4 (drop 44 bytes) -> mine point bytes filter nonce = None
  end.
Proof.
  intros Hp point bytes. unfold create_stealth_script, elliptic_curve.secret_to_public. rewrite Hp. cbn [mbind option_bind].
  change ec_compressed_size with 33%nat. rewrite (serialize_point true). fold point bytes.
  destruct (elliptic_curve.is_even_key point) eqn:He; cbn [negb]; [|by left].
  change (Z.to_nat max_pad_size) with 44%nat. set (start := from_little_endian 4 (drop 44 bytes)).
  pose proof (search_spec (mine point bytes filter) (2 ^ 32 - 1) (u32 (start + 1))) as Hs.
  assert (Hu : u32 (u32 (start + 1)) = u32 (start + 1)).
  { pose proof (u32_add (start + 1) 0) as E. by rewrite !Z.add_0_r in E. }
  assert (Hst : in_width 32 start) by (apply word_width, Forall_drop, sha512_bytes).
  specialize (Hs Hu). destruct (search _ _ _) as [s|m]; simpl in Hs.
  - destruct Hs as (k & Hk & Hm). split; [done|]. eexists. split_and!; [| |exact Hm].
    + unfold in_width, u32, wrap. apply Z.mod_pos_bound. lia.
    + rewrite u32_add. unfold u32, wrap. replace (start + 1 + k) with (start + (k + 1)) by lia. intros Ew.
      pose proof (Z.div_mod (start + (k + 1)) (2 ^ 32) ltac:(lia)). unfold in_width in Hst. nia.
  - destruct Hs as [_ Hn]. right. intros nonce Hw Hne. unfold in_width in Hw, Hst.
    pose proof (wrapped_distance nonce start Hw Hst Hne) as Hm.
    specialize (Hn ((nonce - start - 1) mod 2 ^ 32)). rewrite u32_add in Hn.
    replace (u32 (start + 1 + (nonce - start - 1) mod 2 ^ 32)) with nonce in Hn; [apply Hn; lia|].
    unfold u32, wrap. rewrite Zplus_mod_idemp_r. replace (start + 1 + (nonce - start - 1)) with nonce by lia.
    by rewrite Z.mod_small.
Qed.

Lemma secret_public secret p :
  secp256k1_ec_pubkey_create secret = Some p ->
  elliptic_curve.secret_to_public ec_compressed_size secret = Some (secp256k1_ec_pubkey_serialize true p).
Proof.
  intros Hp. unfold elliptic_curve.secret_to_public. rewrite Hp. cbn [mbind option_bind].
  apply (serialize_point true).
Qed.

(** The ephemeral key is valid and even. *)
Lemma ephemeral_even seed secret :
  create_ephemeral_key seed = Some secret ->
  exists p, secp256k1_ec_pubkey_create secret = Some p /\
    elliptic_curve.is_even_key (secp256k1_ec_pubkey_serialize true p) = true.
Proof.
  unfold create_ephemeral_key. generalize (map Z.of_nat (seq 0 255)). intros nonces.
  induction nonces as [|nonce nonces IH]; [done|]. cbn [ephemeral_loop].
  set (candidate := hmac_sha256_hash _ _). destruct (secp256k1_ec_pubkey_create candidate) as [p|] eqn:E.
  - rewrite (secret_public candidate p E). destruct (elliptic_curve.is_even_key _) eqn:He; [|done].
    intros [= <-]. by exists p.
  - unfold elliptic_curve.secret_to_public. rewrite E. done.
Qed.

Lemma ec_multiply_compressed p tweak :
  elliptic_curve.ec_multiply_point (secp256k1_ec_pubkey_serialize true p) tweak =
  secp256k1_ec_pubkey_serialize true <$> secp256k1_ec_pubkey_tweak_mul p tweak.
Proof.
  unfold elliptic_curve.ec_multiply_point, elliptic_curve.parse. rewrite parse_serialize, serialize_length. simpl.
  destruct (secp256k1_ec_pubkey_tweak_mul p tweak) as [q|]; [|done]. apply (serialize_point true).
Qed.

(** Both sides compute one secret. *)
Lemma shared_secret_comm a b p q :
  secp256k1_ec_pubkey_create a = Some p -> secp256k1_ec_pubkey_create b = Some q ->
  shared_secret a (secp256k1_ec_pubkey_serialize true q) = shared_secret b (secp256k1_ec_pubkey_serialize true p).
Proof.
  intros Ha Hb. unfold shared_secret. rewrite !ec_multiply_compressed. by rewrite (tweak_mul_comm a b p q Ha Hb).
Qed.

(** The private side of an uncovered key, when the public side has one. *)
Lemma uncover_sides ephemeral scan spend p point :
  secp256k1_ec_pubkey_create spend = Some p ->
  uncover_public ephemeral scan (secp256k1_ec_pubkey_serialize true p) = Some point ->
  exists secret q, uncover_secret ephemeral scan spend = Some secret /\
    secp256k1_ec_pubkey_create secret = Some q /\ point = secp256k1_ec_pubkey_serialize true q.
Proof.
  intros Hp. unfold uncover_public, uncover_secret, elliptic_curve.ec_add_secret.
  destruct (shared_secret scan ephemeral) as [shared|]; [|done]. cbn [mbind option_bind].
  rewrite ec_add_compressed, (tweak_add_create spend shared p Hp).
  destruct (secp256k1_ec_privkey_tweak_add spend shared) as [secret|]; [|done]. cbn [mbind option_bind].
  destruct (secp256k1_ec_pubkey_create secret) as [q|] eqn:E; [|done]. intros [= <-]. by exists secret, q.
Qed.

(** How a sender that is valid was made. *)
Lemma sender_made to seed filter version :
  payment_address.valid (stealth_sender.address (stealth_sender.make to seed filter version)) = true ->
  exists e s spend point,
    create_ephemeral_key seed = Some e /\ stealth_address.spend_keys to = [spend] /\
    uncover_public (stealth_address.scan_key to) e spend = Some point /\
    create_stealth_script e filter seed = Some s /\
    stealth_sender.make to seed filter version =
      stealth_sender.mk version s (payment_address.from_public (ec_public.of_compressed point true) version).
Proof.
  unfold stealth_sender.make. destruct (create_ephemeral_key seed) as [e|]; [|done]. unfold stealth_sender.initialize.
  destruct (elliptic_curve.secret_to_public ec_compressed_size e); [|done].
  destruct (stealth_address.spend_keys to) as [|spend []]; [done| |done].
  destruct (uncover_public _ e spend) as [point|] eqn:Eu; [|done].
  destruct (create_stealth_script e filter seed) as [s|] eqn:Es; [|done]. intros _. exists e, s, spend, point. split_and!; done.
Qed.

Lemma receiver_made uninitialized scan spend filter version ps pq :
  secp256k1_ec_pubkey_create scan = Some ps -> secp256k1_ec_pubkey_create spend = Some pq ->
  (binary.size filter <= 32)%nat ->
  stealth_receiver.make uninitialized scan spend filter version =
  stealth_receiver.mk version scan spend (secp256k1_ec_pubkey_serialize true pq)
    (stealth_address.mk true stealth_address.mainnet_p2kh (secp256k1_ec_pubkey_serialize true ps)
       [secp256k1_ec_pubkey_serialize true pq] 1 filter).
Proof.
  intros Hs Hq Hf. unfold stealth_receiver.make. rewrite (secret_public scan ps Hs), (secret_public spend pq Hq).
  unfold stealth_address.from_parts, stealth_address.max_filter_bits. simpl.
  destruct (Nat.ltb_spec 32 (binary.size filter)); [lia|done].
Qed.

(** What is mined carries the key of the sender, with the filter. *)
Lemma script_made e pe filter seed s :
  secp256k1_ec_pubkey_create e = Some pe -> create_stealth_script e filter seed = Some s ->
  extract_ephemeral_key (copy_script s) = Some (secp256k1_ec_pubkey_serialize true pe) /\
  binary.is_prefix_of filter (take 4 (bitcoin_hash (script_to_data false s))) = true.
Proof.
  intros He Hc. pose proof (create_stealth_script_spec e filter seed pe He) as Hspec. rewrite Hc in Hspec.
  destruct Hspec as (Heven & nonce & _ & _ & Hmine).
  apply (mined _ _ _ _ _ (serialize_length true pe) (serialize_bytes true pe) (sha512_length seed) (sha512_bytes seed)) in Hmine
    as [Hscript Hpre].
  split; [|exact Hpre].
  apply (extracted _ _ nonce s (serialize_length true pe) (serialize_bytes true pe) (sha512_length seed) (sha512_bytes seed) Heven Hscript).
Qed.

(** C30: With an even ephemeral key the search for a stealth script ends, and
    returns a script exactly when one of the 2^32 nonces, the initial one
    apart, gives a script whose hash starts with the filter: the wrapping
    counter visits every other nonce. *)
Theorem stealth_script_found secret filter seed p :
  secp256k1_ec_pubkey_create secret = Some p ->
  let point := secp256k1_ec_pubkey_serialize true p in
  let bytes := sha512_hash seed in
  elliptic_curve.is_even_key point = true ->
  (exists s, create_stealth_script secret filter seed = Some s) <->
  exists nonce, in_width 32 nonce /\ nonce <> from_little_endian 4 (drop 44 bytes) /\
    binary.is_prefix_of filter (take 4 (bitcoin_hash (script_to_data false
      (from_operations (to_null_data_pattern (stealth_data point bytes nonce)))))) = true.
Proof.
  intros Hp point bytes He. pose proof (create_stealth_script_spec secret filter seed p Hp) as Hspec. fold point bytes in Hspec.
  pose proof (fun nonce s => mined point bytes filter nonce s (serialize_length true p) (serialize_bytes true p)
    (sha512_length seed) (sha512_bytes seed)) as Hm.
  destruct (create_stealth_script secret filter seed) as [s|].
  - destruct Hspec as (_ & nonce & Hw & Hn & [-> Hpre]%Hm). split; [|by eauto]. intros _. by exists nonce.
  - split; [by intros [? ?]|]. intros (nonce & Hw & Hn & Hpre). destruct Hspec as [Hodd|Hnone]; [congruence|].
    specialize (Hnone nonce Hw Hn). rewrite (proj2 (Hm nonce _) (conj eq_refl Hpre)) in Hnone. done.
Qed.

(** C15: A sender that succeeds in paying the stealth address of a receiver
    publishes a script whose hash starts with the filter it mined, and from
    which, after it was written and read back, the receiver extracts the
    ephemeral key, derives the very payment address that was paid, and derives
    a private key whose public key has that address. *)
Theorem stealth_payment uninitialized scan spend filter version seed mined_filter ps pq :
  secp256k1_ec_pubkey_create scan = Some ps -> secp256k1_ec_pubkey_create spend = Some pq ->
  (binary.size filter <= 32)%nat ->
  let receiver := stealth_receiver.make uninitialized scan spend filter version in
  let sender := stealth_sender.make (stealth_receiver.address receiver) seed mined_filter version in
  let sent := copy_script (stealth_sender.stealth_script sender) in
  payment_address.valid (stealth_sender.address sender) = true ->
  binary.is_prefix_of mined_filter (take 4 (bitcoin_hash (script_to_data false sent))) = true /\
  exists ephemeral secret,
    extract_ephemeral_key sent = Some ephemeral /\
    stealth_receiver.derive_address receiver ephemeral = Some (stealth_sender.address sender) /\
    stealth_receiver.derive_private receiver ephemeral = Some secret /\
    payment_address.from_public (ec_private.to_public (ec_private.of_secret secret 0 true)) version =
      stealth_sender.address sender.
Proof.
  intros Hs Hq Hf. cbv zeta. rewrite (receiver_made uninitialized scan spend filter version ps pq Hs Hq Hf).
  cbn [stealth_receiver.address]. intros Hv.
  destruct (sender_made _ _ _ _ Hv) as (e & s & key & point & He & Hkey & Hu & Hc & Hmade). rewrite Hmade. clear Hv Hmade.
  cbn [stealth_address.spend_keys stealth_address.scan_key] in Hkey, Hu. injection Hkey as <-.
  destruct (ephemeral_even seed e He) as (pe & Hpe & _).
  destruct (script_made e pe mined_filter seed s Hpe Hc) as [Hx Hpre]. clear Hc.
  cbn [stealth_sender.stealth_script stealth_sender.address]. split; [exact Hpre|].
  unfold uncover_public in Hu. rewrite (shared_secret_comm e scan pe ps Hpe Hs) in Hu.
  fold (uncover_public (secp256k1_ec_pubkey_serialize true pe) scan (secp256k1_ec_pubkey_serialize true pq)) in Hu.
  destruct (uncover_sides _ _ spend pq _ Hq Hu) as (secret & q & Hsec & Hsp & ->).
  exists (secp256k1_ec_pubkey_serialize true pe), secret. split_and!; [exact Hx| |exact Hsec|].
  - unfold stealth_receiver.derive_address. cbn [stealth_receiver.scan_private stealth_receiver.spend_public stealth_receiver.version].
    by rewrite Hu.
  - unfold ec_private.to_public. cbn [ec_private.valid ec_private.of_secret ec_private.secret ec_private.compress].
    by rewrite (secret_public secret q Hsp).
Qed.
End Scripts.

(** ** Addresses *)

Section Texts.
Context `{Crypto} `{!checksum.CryptoLaws} `{Secp256k1}.

Import stealth_address.

Notation key_ok := (fun k : list Z => length k = 33%nat /\ bytes_ok k).

(** The scan key is a spend key at most once, and then the first. *)
Definition stealth_ok (a : t) : Prop :=
  valid a = true /\ byte_ok (version a) /\ key_ok (scan_key a) /\ Forall key_ok (spend_keys a) /\
  1 <= zlen (spend_keys a) <= 255 /\ scan_key a ∉ drop 1 (spend_keys a) /\
  1 <= signatures a <= zlen (spend_keys a) /\
  exists bs, binary.represents (filter a) bs /\ (length bs <= 32)%nat.

(** The keys that are written, and what comes before them when they are read. *)
Definition written_keys (a : t) : list (list Z) := if reuse_key a then drop 1 (spend_keys a) else spend_keys a.

Lemma written a : stealth_ok a ->
  List.filter (fun key => negb (bool_decide (key = scan_key a))) (spend_keys a) = written_keys a /\
  (if reuse_key a then [scan_key a] else []) ++ written_keys a = spend_keys a.
Proof.
  intros (_ & _ & _ & _ & Hz & Hn & _). unfold written_keys, reuse_key.
  assert (Hkeep : forall l : list (list Z), scan_key a ∉ l ->
    List.filter (fun key => negb (bool_decide (key = scan_key a))) l = l).
  { intros l. induction l as [|k l IH]; intros Hin; [done|]. apply not_elem_of_cons in Hin as [Hk Hl]. simpl.
    rewrite bool_decide_false by done. simpl. by rewrite IH. }
  destruct (spend_keys a) as [|k l]; [change (zlen (@nil (list Z))) with 0 in Hz; lia|]. cbn [drop] in *. rewrite drop_0 in *.
  destruct (decide (scan_key a = k)) as [<-|Hne].
  - rewrite bool_decide_true by apply list_elem_of_here. split; [|done]. simpl. rewrite bool_decide_true by done.
    simpl. by apply Hkeep.
  - rewrite bool_decide_false; [split; [|done]; apply Hkeep|]; by apply not_elem_of_cons.
Qed.

Lemma read_keys_concat keys rest : Forall key_ok keys -> read_keys (length keys) (concat keys ++ rest) = keys.
Proof.
  induction 1 as [|k keys [Hk _] _ IH]; [done|]. cbn [length read_keys concat]. rewrite <- app_assoc.
  unfold ec_compressed_size. rewrite take_app_length', drop_app_length' by done. by rewrite IH.
Qed.

Lemma concat_keys_length keys : Forall key_ok keys -> length (concat keys) = (length keys * 33)%nat.
Proof. induction 1 as [|k keys [Hk _] _ IH]; [done|]. cbn [concat length]. rewrite length_app, IH. lia. Qed.

Lemma concat_keys_bytes keys : Forall key_ok keys -> bytes_ok (concat keys).
Proof. induction 1 as [|k keys [_ Hk] _ IH]; [apply bytes_ok_nil|]. apply bytes_ok_app. by split. Qed.

(** The parser on a serialization, field by field. *)
Lemma from_stealth_fields version (reuse : bool) scan keys signatures bits blocks chk :
  key_ok scan -> Forall key_ok keys -> (length keys <= 255)%nat -> (bits <= 32)%nat ->
  length blocks = ((bits + 7) / 8)%nat -> length chk = 4%nat ->
  let decoded := [version; if reuse then 1 else 0] ++ scan ++ [zlen keys] ++ concat keys ++
                 [signatures; Z.of_nat bits] ++ blocks ++ chk in
  checksum.verify_checksum decoded = true ->
  from_stealth decoded =
  from_parts (binary.of_blocks bits blocks) scan ((if reuse then [scan] else []) ++ keys) signatures version.
Proof.
  intros [Hs _] Hk Hn Hbits Hblocks Hchk decoded Hv.
  assert (Hlen : length decoded = (42 + length keys * 33 + (bits + 7) / 8)%nat).
  { unfold decoded. rewrite !length_app, concat_keys_length, Hs, Hblocks, Hchk by done. simpl. lia. }
  unfold from_stealth. rewrite Hv, Hlen. change min_address_size with 42%nat.
  destruct (Nat.ltb_spec (42 + length keys * 33 + (bits + 7) / 8) 42); [lia|]. cbn [orb negb].
  assert (Ho : nth 1 decoded 0 = if reuse then 1 else 0) by done. rewrite Ho.
  replace ((if reuse then 1 else 0) >? reuse_key_flag) with false by (by destruct reuse).
  assert (Hscan : take ec_compressed_size (drop 2 decoded) = scan) by (unfold decoded; by apply take_app_length').
  set (tail := concat keys ++ [signatures; Z.of_nat bits] ++ blocks ++ chk).
  assert (Hd : decoded = ([version; if reuse then 1 else 0] ++ scan ++ [zlen keys]) ++ tail) by (unfold decoded, tail; by rewrite <- !app_assoc).
  assert (Hhead : length ([version; if reuse then 1 else 0] ++ scan ++ [zlen keys]) = 36%nat) by (rewrite !length_app, Hs; done).
  assert (Hcount : nth (2 + ec_compressed_size) decoded 0 = zlen keys).
  { rewrite Hd, app_nth1 by (rewrite Hhead; unfold ec_compressed_size; lia).
    rewrite app_nth2 by (simpl; lia). rewrite app_nth2 by (rewrite Hs; simpl; lia). rewrite Hs. done. }
  rewrite Hcount, Hscan. unfold zlen. rewrite Nat2Z.id. change ec_compressed_size with 33%nat.
  destruct (Nat.ltb_spec (42 + length keys * 33 + (bits + 7) / 8) (42 + length keys * 33)); [lia|].
  assert (Htail : drop (3 + 33) decoded = tail) by (rewrite Hd; by apply drop_app_length').
  rewrite Htail. unfold tail. rewrite read_keys_concat by done.
  rewrite drop_app_length' by (symmetry; by apply concat_keys_length). cbn [app nth drop]. rewrite Nat2Z.id.
  unfold max_filter_bits. destruct (Nat.ltb_spec 32 bits); [lia|].
  rewrite Nat.eqb_refl. cbn [negb]. rewrite drop_0, take_app_length' by done.
  replace ((if reuse then 1 else 0) =? reuse_key_flag) with reuse by (by destruct reuse). done.
Qed.

(** An address is read back from its text. *)
(** A stealth address is read back from its text. *)
Lemma stealth_address_roundtrip a : stealth_ok a -> from_string (encoded a) = a.
Proof.
  intros Ha. pose proof (written a Ha) as [Hw Hk].
  destruct Ha as (Hv & Hver & Hscan & Hkeys & Hz & _ & Hsig & bs & Hf & Hbits).
  assert (Hwk : Forall key_ok (written_keys a)) by (unfold written_keys; destruct (reuse_key a); [by apply Forall_drop|done]).
  assert (Hcount : (if reuse_key a then u8 (u8 (zlen (spend_keys a)) - 1) else u8 (zlen (spend_keys a))) = zlen (written_keys a)).
  { rewrite <- Hk in Hz |- *. unfold u8, wrap, zlen in *. destruct (reuse_key a); rewrite length_app in *; simpl length in *.
    - rewrite (Z.mod_small (Z.of_nat _)), Z.mod_small by lia. lia.
    - rewrite Z.mod_small by lia. lia. }
  pose proof (binary.represents_size _ _ Hf) as Hsize. pose proof (binary.represents_length _ _ Hf) as Hblocks.
  pose proof (binary.of_blocks_same _ _ Hf) as Hsame. pose proof Hf as (Hfb & Hfe & _).
  assert (Hfu : u8 (Z.of_nat (binary.size (filter a))) = Z.of_nat (binary.size (filter a))).
  { unfold u8, wrap. apply Z.mod_small. lia. }
  assert (Hlen : length (binary.blocks (filter a)) = ((binary.size (filter a) + 7) / 8)%nat).
  { rewrite Hsize. apply (Nat.div_unique _ _ _ (7 - binary.final_block_excess (filter a))); lia. }
  assert (Hwn : (length (written_keys a) <= 255)%nat) by (rewrite <- Hk in Hz; unfold zlen in Hz; rewrite length_app in Hz; lia).
  unfold from_string, encoded, to_chunk, options. rewrite Hw, Hcount, Hfu.
  set (body := [version a] ++ _).
  assert (Hbytes : bytes_ok (checksum.append_checksum body)).
  { apply append_checksum_bytes. unfold body. repeat (apply bytes_ok_app; split); try (apply Forall_cons_2; [|apply Forall_nil_2]).
    - done.
    - by destruct (reuse_key a); vm_compute.
    - apply Hscan.
    - unfold byte_ok, zlen. lia.
    - by apply concat_keys_bytes.
    - unfold byte_ok. lia.
    - unfold byte_ok. lia.
    - done. }
  rewrite decode_encode_base58 by done.
  pose proof (checksum.verify_append body) as Hvb. revert Hvb. unfold checksum.append_checksum.
  set (chk := to_little_endian 4 _). unfold body. rewrite <- !app_assoc. intros Hvb.
  etransitivity.
  { apply (from_stealth_fields (version a) (reuse_key a) (scan_key a) (written_keys a) (signatures a)
      (binary.size (filter a)) (binary.blocks (filter a)) chk); try done. lia. }
  rewrite Hk. rewrite (binary.represents_unique _ _ _ Hsame Hf).
  unfold from_parts. destruct (spend_keys a) as [|k l] eqn:El; [change (zlen (@nil (list Z))) with 0 in Hz; lia|]. rewrite <- El in *.
  unfold max_spend_key_count. destruct (Z.gtb_spec (zlen (spend_keys a)) max_uint8); [unfold max_uint8 in *; lia|].
  unfold max_filter_bits. destruct (Nat.ltb_spec 32 (binary.size (filter a))); [lia|].
  replace ((signatures a =? 0) || (signatures a >? zlen (spend_keys a))) with false by lia.
  destruct a; simpl in *. by subst.
Qed.
End Texts.
