(* ===== verification/HdKeys.v ===== *)
(** Hierarchical deterministic keys, [src/wallet/hd_public.cpp] and
    [src/wallet/hd_private.cpp]. The message authentication code is an external
    function. The main result is that deriving a private key and taking its
    public key is deriving the public key, for indexes that are not hardened. *)

From S2P Require Import Prelude Limits Endian Reader Writer Codes Radix Base58 Data Compact Header Checksum Sighash Elliptic Keys KeyRules Stealth StealthRules.

(** [hmac_sha512_hash(data, key)] of [src/math/hash.cpp] *)
Class Hmac := hmac_sha512_hash : list Z -> list Z -> list Z.

Class HmacLaws `{Hmac} := {
  hmac_length data key : length (hmac_sha512_hash data key) = 64%nat;
  hmac_bytes data key : bytes_ok (hmac_sha512_hash data key)
}.

Definition hd_first_hardened_key : Z := 2 ^ 31.
Definition hd_chain_code_size : nat := 32.
Definition hd_key_size : nat := 82.

Record hd_lineage := mk_lineage {
  prefixes : Z;
  depth : Z;
  parent_fingerprint : Z;
  child_number : Z
}.

Definition lineage_eqb (a b : hd_lineage) : bool :=
  (prefixes a =? prefixes b) && (depth a =? depth b) &&
  (parent_fingerprint a =? parent_fingerprint b) && (child_number a =? child_number b).

(** The fields of a serialized key before its last 33 bytes. *)
Definition read_key_fields {R} `{Reader R} : rd R (Z * Z * Z * Z * list Z) :=
  prefix <~ read_4_bytes_big_endian ;;
  depth <~ rd_read_byte ;;
  parent <~ read_4_bytes_big_endian ;;
  child <~ read_4_bytes_big_endian ;;
  chain <~ rd_read_forward hd_chain_code_size ;;
  rret (prefix, depth, parent, child, chain).

Module hd_public.
Section Public.
Context `{Crypto} `{Secp256k1} `{Hmac}.

Definition mainnet : Z := 76067358.
Definition testnet : Z := 70617039.
Definition to_prefix (prefixes : Z) : Z := Z.land prefixes 0x00000000FFFFFFFF.

Record t := mk { valid : bool; chain : list Z; lineage : hd_lineage; point : list Z }.

Definition default : t := mk false null_hash (mk_lineage 0 0 0 0) null_compressed_point.

(** [hd_public(const ec_compressed&, const hd_chain_code&, const hd_lineage&)] *)
Definition of_point (point chain_code : list Z) (lineage : hd_lineage) : t := mk true chain_code lineage point.

Definition from_secret (secret chain_code : list Z) (lineage : hd_lineage) : t :=
  match elliptic_curve.secret_to_public ec_compressed_size secret with
  | Some point => of_point point chain_code lineage
  | None => default
  end.

(** [from_key(const hd_key&, uint32_t)] *)
Definition from_key_prefix (key : list Z) (prefix : Z) : t :=
  fst ((p <~ read_key_fields ;;
        let '(actual_prefix, depth, parent, child, chain) := p in
        compressed <~ rd_read_forward ec_compressed_size ;;
        rret (if negb (actual_prefix =? prefix) then default
              else of_point compressed chain (mk_lineage prefix depth parent child)))
         (Istream.mk key false false)).

Definition from_key (key : list Z) : t := from_key_prefix key (from_big_endian 4 key).

Definition from_string (encoded : list Z) : t :=
  match decode_base58_array hd_key_size encoded with
  | None => default
  | Some key => from_key key
  end.

Definition from_string_prefix (encoded : list Z) (prefix : Z) : t :=
  match decode_base58_array hd_key_size encoded with
  | None => default
  | Some key => from_key_prefix key prefix
  end.

Definition to_hd_key (k : t) : list Z :=
  fst (checksum.build_checked_array (repeat 0 hd_key_size)
         [to_big_endian 4 (to_prefix (prefixes (lineage k)));
          [depth (lineage k)];
          to_big_endian 4 (parent_fingerprint (lineage k));
          to_big_endian 4 (child_number (lineage k));
          chain k; point k]).

Definition encoded (k : t) : list Z := encode_base58 (to_hd_key k).

Definition fingerprint (k : t) : Z := from_big_endian 4 (bitcoin_short_hash (point k)).

(** [derive_public]; a [uint8_t] depth of 255 has no child. *)
Definition derive_public (k : t) (index : Z) : t :=
  if index >=? hd_first_hardened_key then default
  else
    let data := splice (point k) (to_big_endian 4 index) in
    let '(il, ir) := split (hmac_sha512_hash data (chain k)) in
    match elliptic_curve.ec_add_point (point k) il with
    | None => default
    | Some combined =>
        if depth (lineage k) =? max_uint8 then default
        else of_point combined ir
               (mk_lineage (prefixes (lineage k)) (u8 (depth (lineage k) + 1)) (fingerprint k) index)
    end.

Definition assign (self other : t) : t := mk (valid other) (chain other) (lineage other) (point other).

Definition eqb (a b : t) : bool :=
  Bool.eqb (valid a) (valid b) && bool_decide (chain a = chain b) &&
  lineage_eqb (lineage a) (lineage b) && bool_decide (point a = point b).
End Public.
End hd_public.

Module hd_private.
Section Private.
Context `{Crypto} `{Secp256k1} `{Hmac}.

Definition to_prefix (prefixes : Z) : Z := u32 (Z.shiftr prefixes 32).
Definition to_prefixes (private_prefix public_prefix : Z) : Z :=
  Z.lor (u64 (Z.shiftl private_prefix 32)) public_prefix.
Definition mainnet : Z := to_prefixes 76066276 hd_public.mainnet.
Definition testnet : Z := to_prefixes 70615956 hd_public.testnet.

Record t := mk { base : hd_public.t; secret : list Z }.

Definition default : t := mk hd_public.default null_hash.

(** [hd_private(const ec_secret&, const hd_chain_code&, const hd_lineage&)] *)
Definition of_secret (secret chain_code : list Z) (lineage : hd_lineage) : t :=
  mk (hd_public.from_secret secret chain_code lineage) secret.

Definition magic : list Z := chars "Bitcoin seed".

Definition from_seed (seed : list Z) (prefixes : Z) : t :=
  let '(il, ir) := split (hmac_sha512_hash seed magic) in
  if negb (elliptic_curve.verify_secret il) then default
  else of_secret il ir (mk_lineage prefixes 0 0 0).

(** [from_key(const hd_key&, uint64_t)] *)
Definition from_key_prefixes (key : list Z) (prefixes : Z) : t :=
  fst ((p <~ read_key_fields ;;
        let '(prefix, depth, parent, child, chain) := p in
        rd_read_byte ;;;
        secret <~ rd_read_forward ec_secret_size ;;
        rret (if negb (prefix =? to_prefix prefixes) then default
              else of_secret secret chain (mk_lineage prefixes depth parent child)))
         (Istream.mk key false false)).

(** [from_key(const hd_key&, uint32_t)] *)
Definition from_key (key : list Z) (public_prefix : Z) : t :=
  from_key_prefixes key (to_prefixes (from_big_endian 4 key) public_prefix).

Definition from_string (encoded : list Z) (public_prefix : Z) : t :=
  match decode_base58_array hd_key_size encoded with
  | None => default
  | Some key => from_key key public_prefix
  end.

Definition from_string_prefixes (encoded : list Z) (prefixes : Z) : t :=
  match decode_base58_array hd_key_size encoded with
  | None => default
  | Some key => from_key_prefixes key prefixes
  end.

Definition private_key_padding : Z := 0x00.

Definition to_hd_key (k : t) : list Z :=
  let l := hd_public.lineage (base k) in
  fst (checksum.build_checked_array (repeat 0 hd_key_size)
         [to_big_endian 4 (to_prefix (prefixes l));
          [depth l];
          to_big_endian 4 (parent_fingerprint l);
          to_big_endian 4 (child_number l);
          hd_public.chain (base k); [private_key_padding]; secret k]).

Definition encoded (k : t) : list Z := encode_base58 (to_hd_key k).

Definition to_public (k : t) : hd_public.t :=
  hd_public.from_key_prefix (hd_public.to_hd_key (base k))
    (hd_public.to_prefix (prefixes (hd_public.lineage (base k)))).

Definition derive_private (k : t) (index : Z) : t :=
  let data := if index >=? hd_first_hardened_key
              then splice_three [0] (secret k) (to_big_endian 4 index)
              else splice (hd_public.point (base k)) (to_big_endian 4 index) in
  let '(il, ir) := split (hmac_sha512_hash data (hd_public.chain (base k))) in
  match elliptic_curve.ec_add_secret (secret k) il with
  | None => default
  | Some child =>
      let l := hd_public.lineage (base k) in
      if depth l =? max_uint8 then default
      else of_secret child ir
             (mk_lineage (prefixes l) (u8 (depth l + 1)) (hd_public.fingerprint (base k)) index)
  end.

Definition derive_public (k : t) (index : Z) : hd_public.t := to_public (derive_private k index).

(** [operator=] swaps with a copy of the other. *)
Definition swap (left right : t) : t * t := (right, left).
Definition assign (self other : t) : t := fst (swap self other).

Definition eqb (a b : t) : bool :=
  bool_decide (secret a = secret b) && hd_public.eqb (base a) (base b).
End Private.
End hd_private.

(** ** Serialized keys *)

Definition lineage_ok (l : hd_lineage) : Prop :=
  in_width 64 (prefixes l) /\ byte_ok (depth l) /\ in_width 32 (parent_fingerprint l) /\ in_width 32 (child_number l).

Section Serialized.
Context `{Crypto} `{!checksum.CryptoLaws} `{Secp256k1Laws} `{HmacLaws}.

Lemma reads_be4 {R} `{ReaderLaws R} v : in_width 32 v -> reads read_4_bytes_big_endian (to_big_endian 4 v) v.
Proof.
  intros Hv l. unfold read_4_bytes_big_endian. rewrite rd_read_big_endian_at by apply length_to_big_endian.
  by rewrite from_to_big_endian.
Qed.

Lemma reads_key_fields {R} `{ReaderLaws R} prefix d parent child c :
  in_width 32 prefix -> byte_ok d -> in_width 32 parent -> in_width 32 child -> length c = 32%nat ->
  reads read_key_fields
    (to_big_endian 4 prefix ++ [d] ++ to_big_endian 4 parent ++ to_big_endian 4 child ++ c)
    (prefix, d, parent, child, c).
Proof.
  intros Hp Hd Hpa Hc Hl. unfold read_key_fields.
  eapply reads_bind; [by apply reads_be4|]. eapply reads_bind; [by apply reads_byte|].
  eapply reads_bind; [by apply reads_be4|]. eapply reads_bind; [by apply reads_be4|].
  eapply reads_bind_nil; [by apply reads_forward|]. apply reads_ret.
Qed.

Lemma to_prefix_width p : in_width 32 (hd_public.to_prefix p).
Proof.
  unfold hd_public.to_prefix. change 0xFFFFFFFF with (Z.ones 32). rewrite Z.land_ones by lia.
  apply Z.mod_pos_bound. lia.
Qed.

Lemma to_prefix_id p : in_width 32 p -> hd_public.to_prefix p = p.
Proof.
  intros Hp. unfold hd_public.to_prefix. change 0xFFFFFFFF with (Z.ones 32). rewrite Z.land_ones by lia.
  by apply Z.mod_small.
Qed.

(** A reader of the fields and of more, run over a checked key. *)
Lemma run_key {A} (rest : Z * Z * Z * Z * list Z -> rd Istream.t A) slices prefix d parent child c body v :
  in_width 32 prefix -> byte_ok d -> in_width 32 parent -> in_width 32 child -> length c = 32%nat ->
  length body = 33%nat -> reads (rest (prefix, d, parent, child, c)) body v ->
  concat slices = to_big_endian 4 prefix ++ [d] ++ to_big_endian 4 parent ++ to_big_endian 4 child ++ c ++ body ->
  fst (rbind read_key_fields rest
         (Istream.mk (fst (checksum.build_checked_array (repeat 0 hd_key_size) slices)) false false)) = v.
Proof.
  intros Hp Hd Hpa Hc Hl Hlb Hr Hs. rewrite build_checked.
  2: { rewrite Hs, !length_app, !length_to_big_endian, Hl, Hlb. done. }
  cbn [fst]. unfold checksum.append_checksum.
  set (e1 := to_big_endian 4 prefix ++ [d] ++ to_big_endian 4 parent ++ to_big_endian 4 child ++ c).
  replace (concat slices) with (e1 ++ body) by (rewrite Hs; unfold e1; by rewrite <- !app_assoc).
  change (Istream.mk ?k false false) with (rd_at (R := Istream.t) k).
  rewrite (reads_bind read_key_fields rest e1 body (prefix, d, parent, child, c) v); [done| |exact Hr].
  by apply reads_key_fields.
Qed.

(** The fields have their sizes. *)
Definition public_key_ok (k : hd_public.t) : Prop :=
  lineage_ok (hd_public.lineage k) /\ length (hd_public.chain k) = 32%nat /\
  bytes_ok (hd_public.chain k) /\ length (hd_public.point k) = 33%nat /\ bytes_ok (hd_public.point k).

(** A public key is read back from its serialization, with its public prefix. *)
Lemma public_from_key k :
  public_key_ok k ->
  let l := hd_public.lineage k in
  hd_public.from_key_prefix (hd_public.to_hd_key k) (hd_public.to_prefix (prefixes l)) =
  hd_public.of_point (hd_public.point k) (hd_public.chain k)
    (mk_lineage (hd_public.to_prefix (prefixes l)) (depth l) (parent_fingerprint l) (child_number l)).
Proof.
  intros ((Hpre & Hd & Hpa & Hc) & Hl & Hb & Hlp & Hbp) l.
  unfold hd_public.from_key_prefix, hd_public.to_hd_key. fold l.
  eapply (run_key _ _ (hd_public.to_prefix (prefixes l)) (depth l) (parent_fingerprint l) (child_number l)
            (hd_public.chain k) (hd_public.point k)); try done; [apply to_prefix_width| |].
  - eapply reads_bind_nil; [by apply reads_forward|]. rewrite Z.eqb_refl. apply reads_ret.
  - cbn [concat]. by rewrite app_nil_r.
Qed.

(** What a valid private key is: a secret with a public key, and its point. *)
Definition private_key_ok (k : hd_private.t) : Prop :=
  exists p c l,
    k = hd_private.of_secret (hd_private.secret k) c l /\
    secp256k1_ec_pubkey_create (hd_private.secret k) = Some p /\
    length (hd_private.secret k) = 32%nat /\ bytes_ok (hd_private.secret k) /\
    length c = 32%nat /\ bytes_ok c /\ lineage_ok l.

Lemma from_secret_point secret p c l :
  secp256k1_ec_pubkey_create secret = Some p ->
  hd_public.from_secret secret c l = hd_public.of_point (secp256k1_ec_pubkey_serialize true p) c l.
Proof.
  intros Hp. unfold hd_public.from_secret, elliptic_curve.secret_to_public. rewrite Hp. cbn [mbind option_bind].
  change ec_compressed_size with 33%nat. by rewrite (serialize_point true).
Qed.

Lemma private_base k : private_key_ok k -> public_key_ok (hd_private.base k).
Proof.
  intros (p & c & l & Hk & Hp & _ & _ & Hl & Hb & Hlin). rewrite Hk. unfold hd_private.of_secret.
  cbn [hd_private.base]. rewrite (from_secret_point _ p) by done.
  split_and!; try done; apply serialize_length || apply serialize_bytes.
Qed.

Lemma private_prefix_width p : in_width 32 (hd_private.to_prefix p).
Proof. apply Z.mod_pos_bound. lia. Qed.

(** A private key is read back from its serialization. *)
Lemma private_from_key k :
  private_key_ok k ->
  hd_private.from_key_prefixes (hd_private.to_hd_key k) (prefixes (hd_public.lineage (hd_private.base k))) = k.
Proof.
  intros (p & c & l & Hk & Hp & Hls & Hbs & Hl & Hb & (Hpre & Hd & Hpa & Hc)).
  assert (Hbase : hd_private.base k = hd_public.of_point (secp256k1_ec_pubkey_serialize true p) c l).
  { rewrite Hk. unfold hd_private.of_secret. cbn [hd_private.base]. by apply from_secret_point. }
  unfold hd_private.from_key_prefixes, hd_private.to_hd_key. rewrite Hbase. cbn [hd_public.of_point hd_public.lineage hd_public.chain].
  eapply (run_key _ _ (hd_private.to_prefix (prefixes l)) (depth l) (parent_fingerprint l) (child_number l) c
            ([hd_private.private_key_padding] ++ hd_private.secret k));
    try done; [apply private_prefix_width|simpl; by rewrite Hls| |].
  - eapply reads_bind; [by apply reads_byte|]. eapply reads_bind_nil; [by apply reads_forward|].
    rewrite Z.eqb_refl. cbn [negb]. rewrite Hk at 2. destruct l. apply reads_ret.
  - cbn [concat]. by rewrite app_nil_r.
Qed.

Lemma to_hd_key_bytes slices size :
  Forall bytes_ok slices -> (length (concat slices) + 4)%nat = size ->
  let key := fst (checksum.build_checked_array (repeat 0 size) slices) in
  length key = size /\ bytes_ok key.
Proof.
  intros Hb Hl key. unfold key. rewrite build_checked by done. cbn [fst].
  rewrite checksum.append_checksum_length. split; [done|]. apply append_checksum_bytes. by apply bytes_ok_concat.
Qed.

Lemma private_from_encoded_hd k :
  private_key_ok k ->
  hd_private.from_string_prefixes (hd_private.encoded k) (prefixes (hd_public.lineage (hd_private.base k))) = k.
Proof.
  intros Hk. unfold hd_private.from_string_prefixes, hd_private.encoded.
  destruct (private_base k Hk) as ((_ & Hd & _) & Hl & Hb & _).
  pose proof Hk as (p & c & l & _ & _ & Hls & Hbs & _).
  destruct (to_hd_key_bytes
    [to_big_endian 4 (hd_private.to_prefix (prefixes (hd_public.lineage (hd_private.base k))));
     [depth (hd_public.lineage (hd_private.base k))];
     to_big_endian 4 (parent_fingerprint (hd_public.lineage (hd_private.base k)));
     to_big_endian 4 (child_number (hd_public.lineage (hd_private.base k)));
     hd_public.chain (hd_private.base k); [hd_private.private_key_padding]; hd_private.secret k] hd_key_size)
    as [Hlen Hbytes].
  - repeat (apply Forall_cons_2; [first [done | apply bytes_ok_to_big_endian | by apply Forall_cons_2; [|apply Forall_nil_2]]|]).
    apply Forall_nil_2.
  - cbn [concat]. rewrite !length_app, !length_to_big_endian, Hl, Hls. done.
  - rewrite decode_array_encode by done. by apply private_from_key.
Qed.

(** ** Derivation *)

Lemma split_halves data key : 
  let '(il, ir) := split (hmac_sha512_hash data key) in
  length il = 32%nat /\ bytes_ok il /\ length ir = 32%nat /\ bytes_ok ir.
Proof.
  unfold split. rewrite hmac_length. change (64 / 2)%nat with 32%nat.
  rewrite !length_take, length_drop, hmac_length. pose proof (hmac_bytes data key) as Hb.
  split_and!; [done|by apply Forall_take|done|by apply Forall_take, Forall_drop].
Qed.

Lemma fingerprint_width k : in_width 32 (hd_public.fingerprint k).
Proof.
  unfold hd_public.fingerprint, bitcoin_short_hash. set (h := ripemd160_hash _).
  assert (Hb : bytes_ok h) by apply checksum.ripemd160_hash_bytes.
  assert (Hl : length h = 20%nat) by apply checksum.ripemd160_hash_length.
  replace (from_big_endian 4 h) with (from_big_endian 4 (take 4 h)) by (unfold from_big_endian; by rewrite take_take).
  rewrite from_big_endian_value; [|by apply Forall_take|rewrite length_take; lia].
  pose proof (le_value_bound (rev (take 4 h))) as Hv. unfold in_width, zlen in *.
  rewrite rev_length, length_take, Hl in Hv. apply Hv. by apply Forall_rev, Forall_take.
Qed.

(** C14: For a valid extended private key and an index that is not hardened,
    deriving the private child and taking its public key gives the key that
    the public derivation gives from the public parent, and the one fails when
    the other does. *)
Theorem derive_commutes k i :
  private_key_ok k -> 0 <= i < hd_first_hardened_key ->
  let child := hd_private.derive_private k i in
  let public_child := hd_public.derive_public (hd_private.to_public k) i in
  if hd_public.valid (hd_private.base child)
  then private_key_ok child /\ hd_private.to_public child = public_child
  else public_child = hd_public.default.
Proof.
  intros Hk Hi. pose proof (private_base k Hk) as Hbase.
  destruct Hk as (p & c & l & Hk & Hp & Hls & Hbs & Hl & Hb & Hlin).
  assert (Ebase : hd_private.base k = hd_public.of_point (secp256k1_ec_pubkey_serialize true p) c l).
  { rewrite Hk. unfold hd_private.of_secret. cbn [hd_private.base]. by apply from_secret_point. }
  assert (Hpub : hd_private.to_public k = hd_public.of_point (secp256k1_ec_pubkey_serialize true p) c
    (mk_lineage (hd_public.to_prefix (prefixes l)) (depth l) (parent_fingerprint l) (child_number l))).
  { unfold hd_private.to_public. rewrite public_from_key by done. by rewrite Ebase. }
  unfold hd_private.derive_private, hd_public.derive_public. rewrite Hpub, Ebase.
  cbn [hd_public.of_point hd_public.point hd_public.chain hd_public.lineage depth prefixes].
  destruct (Z.geb_spec i hd_first_hardened_key) as [|_]; [lia|].
  set (data := splice _ _). pose proof (split_halves data c) as Hsplit.
  destruct (split (hmac_sha512_hash data c)) as [il ir]. destruct Hsplit as (_ & _ & Hlr & Hbr).
  rewrite ec_add_compressed, (tweak_add_create (hd_private.secret k) il p Hp).
  unfold elliptic_curve.ec_add_secret.
  destruct (secp256k1_ec_privkey_tweak_add (hd_private.secret k) il) as [child|] eqn:Et; [|done].
  destruct (tweak_add_length _ _ _ Et) as [Hlc Hbc]. cbn [mbind option_bind].
  set (l' := mk_lineage _ _ _ i).
  destruct (Z.eqb_spec (depth l) max_uint8) as [Hmax|Hmax].
  { by destruct (secp256k1_ec_pubkey_create child). }
  destruct (secp256k1_ec_pubkey_create child) as [q|] eqn:Eq.
  - assert (Hof : hd_private.of_secret child ir l' =
      hd_private.mk (hd_public.mk true ir l' (secp256k1_ec_pubkey_serialize true q)) child).
    { unfold hd_private.of_secret. by rewrite (from_secret_point child q). }
    replace (hd_public.valid (hd_private.base (hd_private.of_secret child ir l'))) with true by (by rewrite Hof).
    assert (Hok : private_key_ok (hd_private.of_secret child ir l')).
    { exists q, ir, l'. cbn [hd_private.of_secret hd_private.secret]. split_and!; try done.
      destruct Hlin as (Hpre & Hd & _). unfold l'. split_and!; cbn [prefixes depth parent_fingerprint child_number].
      - done.
      - apply u8_byte.
      - apply fingerprint_width.
      - unfold in_width, hd_first_hardened_key in *. lia. }
    split; [done|].
    unfold hd_private.to_public. rewrite public_from_key by (by apply private_base). rewrite Hof. cbn [hd_private.base hd_public.point hd_public.chain hd_public.lineage].
    unfold l'. cbn [prefixes depth parent_fingerprint child_number fmap option_fmap option_map].
    unfold hd_public.fingerprint. cbn [hd_public.point]. done.
  - unfold hd_private.of_secret, hd_public.from_secret, elliptic_curve.secret_to_public. rewrite Eq. done.
Qed.
End Serialized.

(** A key that could not be derived is turned into a public key that is valid. *)
Lemma default_to_public `{Crypto} `{!checksum.CryptoLaws} `{Secp256k1} :
  hd_private.to_public hd_private.default =
  hd_public.of_point null_compressed_point null_hash (mk_lineage 0 0 0 0).
Proof.
  unfold hd_private.to_public. rewrite public_from_key; [done|].
  split_and!; try done; apply (bool_decide_unpack _); by vm_compute.
Qed.

(** ** Texts of public keys *)

Section Texts.
Context `{Crypto} `{!checksum.CryptoLaws} `{Secp256k1}.

Lemma public_from_encoded k :
  public_key_ok k -> hd_public.valid k = true -> in_width 32 (prefixes (hd_public.lineage k)) ->
  hd_public.from_string (hd_public.encoded k) = k.
Proof.
  intros Hk Hv Hw. pose proof Hk as ((_ & Hd & _) & Hl & Hb & Hlp & Hbp).
  unfold hd_public.from_string, hd_public.encoded.
  set (slices := [to_big_endian 4 (hd_public.to_prefix (prefixes (hd_public.lineage k)));
     [depth (hd_public.lineage k)]; to_big_endian 4 (parent_fingerprint (hd_public.lineage k));
     to_big_endian 4 (child_number (hd_public.lineage k)); hd_public.chain k; hd_public.point k]).
  assert (Hlen : (length (concat slices) + 4)%nat = hd_key_size).
  { unfold slices. cbn [concat]. rewrite !length_app, !length_to_big_endian, Hl, Hlp. done. }
  destruct (to_hd_key_bytes slices hd_key_size) as [Hkl Hkb]; [|done|].
  { unfold slices. repeat (apply Forall_cons_2; [first [done | apply bytes_ok_to_big_endian |
      by apply Forall_cons_2; [|apply Forall_nil_2]]|]). apply Forall_nil_2. }
  fold (hd_public.to_hd_key k) in Hkl, Hkb. rewrite decode_array_encode by done. unfold hd_public.from_key.
  replace (from_big_endian 4 (hd_public.to_hd_key k)) with (hd_public.to_prefix (prefixes (hd_public.lineage k))).
  - rewrite public_from_key by done. rewrite to_prefix_id by done. destruct k as [v c [pre d pa ch] pt].
    simpl in *. by subst v.
  - unfold hd_public.to_hd_key. fold slices. rewrite build_checked by done. cbn [fst].
    unfold checksum.append_checksum, slices. cbn [concat]. rewrite <- app_assoc.
    set (w := hd_public.to_prefix _). pose proof (to_prefix_width (prefixes (hd_public.lineage k))) as Hpw. fold w in Hpw.
    rewrite <- (from_to_big_endian 4 w Hpw) at 1. unfold from_big_endian.
    rewrite take_app_length' by (by rewrite length_to_big_endian).
    by rewrite take_ge by (rewrite length_to_big_endian; lia).
Qed.
End Texts.

(** C35: A private key is read back from its wallet import text, extended
    private and public keys from their base 58 texts, a stealth address that
    does not repeat its scan key among the spend keys after the first from its
    text, and a public key from its serialized form, compressed or not. *)
Theorem key_texts_roundtrip `{Currency} `{Crypto} `{!checksum.CryptoLaws} `{Secp256k1Laws} `{HmacLaws}
    wif private public point stealth :
  private_ok wif -> private_key_ok private ->
  public_key_ok public -> hd_public.valid public = true -> in_width 32 (prefixes (hd_public.lineage public)) ->
  public_ok point -> stealth_ok stealth ->
  ec_private.from_string (ec_private.encoded wif) (ec_private.payment_version wif) = wif /\
  hd_private.from_string_prefixes (hd_private.encoded private)
    (prefixes (hd_public.lineage (hd_private.base private))) = private /\
  hd_public.from_string (hd_public.encoded public) = public /\
  stealth_address.from_string (stealth_address.encoded stealth) = stealth /\
  exists data, ec_public.to_data point = Some data /\ ec_public.from_data data = point.
Proof.
  intros Hw Hp Hq Hv Hl Ho Ha. split_and!; [by apply private_from_encoded|by apply private_from_encoded_hd|
    by apply public_from_encoded|by apply stealth_address_roundtrip|].
  destruct (public_from_data point Ho) as (data & E & _ & _ & Hd). by exists data.
Qed.
