(* ===== verification/Program.v ===== *)
(** The state of the script machine, [impl/machine/program.ipp] and
    [src/machine/program.cpp]. The stacks are vectors whose back is the top; here
    they are lists whose head is the top, so that [item(index)] is the element
    at [index]. *)

From S2P Require Import Prelude Limits Endian Reader Writer Codes Number Operation Script Chain Compact Header ChainState Transaction.

Record program := mk_program {
  p_script : script;
  p_transaction : transaction;
  p_input_index : nat;
  p_forks : Z;
  p_value : Z;
  p_version : script_version;
  negative_count : Z;
  operation_count : Z;
  jump : nat;
  primary : list (list Z);
  alternate : list (list Z);
  condition : list bool
}.

Section Program.
Context `{Currency}.

(** [program(script, transaction, input_index, forks)] *)
Definition input_program (s : script) (tx : transaction) (input_index : nat) (forks : Z) : program :=
  mk_program s tx input_index forks max_uint64 unversioned 0 0 0 [] [] [].

(** [program(script, transaction, input_index, forks, stack, value, version)];
    [stack] is a vector, its back is the top. *)
Definition witness_program_of (s : script) (tx : transaction) (input_index : nat) (forks : Z)
    (stack : list (list Z)) (value : Z) (v : script_version) : program :=
  mk_program s tx input_index forks value v 0 0 0 (rev stack) [] [].

(** [program(script, other)], by copy or by move: only the primary stack is
    taken over. *)
Definition next_program (s : script) (other : program) : program :=
  mk_program s (p_transaction other) (p_input_index other) (p_forks other) (p_value other)
    unversioned 0 0 0 (primary other) [] [].

Definition program_is_valid (p : program) : bool :=
  is_valid_operations (p_script p) && negb (is_unspendable (p_script p)).

(** ** Registers *)

Definition set_primary (l : list (list Z)) (p : program) : program :=
  mk_program (p_script p) (p_transaction p) (p_input_index p) (p_forks p) (p_value p) (p_version p)
    (negative_count p) (operation_count p) (jump p) l (alternate p) (condition p).

Definition set_alternate (l : list (list Z)) (p : program) : program :=
  mk_program (p_script p) (p_transaction p) (p_input_index p) (p_forks p) (p_value p) (p_version p)
    (negative_count p) (operation_count p) (jump p) (primary p) l (condition p).

Definition set_condition (count : Z) (l : list bool) (p : program) : program :=
  mk_program (p_script p) (p_transaction p) (p_input_index p) (p_forks p) (p_value p) (p_version p)
    count (operation_count p) (jump p) (primary p) (alternate p) l.

Definition set_operation_count (count : Z) (p : program) : program :=
  mk_program (p_script p) (p_transaction p) (p_input_index p) (p_forks p) (p_value p) (p_version p)
    (negative_count p) count (jump p) (primary p) (alternate p) (condition p).

Definition set_jump (position : nat) (p : program) : program :=
  mk_program (p_script p) (p_transaction p) (p_input_index p) (p_forks p) (p_value p) (p_version p)
    (negative_count p) (operation_count p) position (primary p) (alternate p) (condition p).

Definition operation_overflow (count : Z) : bool := count >? max_counted_ops.

(** [increment_operation_count(const operation&)] *)
Definition increment_operation_count (op : operation) (p : program) : bool * program :=
  let p := if is_counted (code op) then set_operation_count (operation_count p + 1) p else p in
  (negb (operation_overflow (operation_count p)), p).

(** [increment_operation_count(int32_t)] *)
Definition increment_key_count (public_keys : Z) (p : program) : bool * program :=
  if (public_keys <? 0) || (public_keys >? max_script_public_keys) then (false, p)
  else
    let p := set_operation_count (operation_count p + public_keys) p in
    (negb (operation_overflow (operation_count p)), p).

(** [position] is where the operation is in the script, [None] when it is not
    an element of the script being run. *)
Definition set_jump_register (position : option nat) (offset : nat) (p : program) : bool * program :=
  match operations (p_script p), position with
  | [], _ => (false, p)
  | ops, None => (false, set_jump (length ops) p)
  | _, Some i => (true, set_jump (i + offset) p)
  end.

(** ** Primary stack *)

Definition push_move (item : list Z) (p : program) : program := set_primary (item :: primary p) p.

Definition push (value : bool) (p : program) : program :=
  push_move (if value then [number.positive_1] else []) p.

Definition is_empty (p : program) : bool := zlen (primary p) =? 0.
Definition size (p : program) : Z := zlen (primary p).

(** [pop()]: guarded, the empty case is not reached. *)
Definition pop (p : program) : list Z * program :=
  match primary p with
  | [] => ([], p)
  | x :: l => (x, set_primary l p)
  end.

(** [pop(number&, size_t)]: the item is popped also when it is no number. *)
Definition pop_number (maximum_size : Z) (p : program) : option Z * program :=
  if is_empty p then (None, p)
  else let '(item, p) := pop p in (number.set_data item maximum_size, p).

(** [pop(int32_t&)] *)
Definition pop_int32 (p : program) : option Z * program :=
  let '(value, p) := pop_number max_number_size p in (number.int32 <$> value, p).

Definition pop_binary (p : program) : option (Z * Z) * program :=
  let '(first, p) := pop_number max_number_size p in
  match first with
  | None => (None, p)
  | Some first =>
      let '(second, p) := pop_number max_number_size p in
      match second with
      | None => (None, p)
      | Some second => (Some (first, second), p)
      end
  end.

Definition pop_ternary (p : program) : option (Z * Z * Z) * program :=
  let '(two, p) := pop_binary p in
  match two with
  | None => (None, p)
  | Some (first, second) =>
      let '(third, p) := pop_number max_number_size p in
      match third with
      | None => (None, p)
      | Some third => (Some (first, second, third), p)
      end
  end.

(** The index of a valid position in the stack after the pop. *)
Definition pop_position (p : program) : option nat * program :=
  let '(signed_index, p) := pop_int32 p in
  match signed_index with
  | None => (None, p)
  | Some signed_index =>
      if signed_index <? 0 then (None, p)
      else if signed_index >=? size p then (None, p)
      else (Some (Z.to_nat signed_index), p)
  end.

(** [pop(data_stack&, size_t)]: the section in the order of the pops. *)
Definition pop_section (count : Z) (p : program) : option (list (list Z)) * program :=
  if size p <? count then (None, p)
  else (Some (take (Z.to_nat count) (primary p)), set_primary (drop (Z.to_nat count) (primary p)) p).

Definition item (index : nat) (p : program) : list Z := nth index (primary p) [].

Definition duplicate_item (index : nat) (p : program) : program := push_move (item index p) p.

Definition swap_items (left_index right_index : nat) (p : program) : program :=
  set_primary (<[left_index := item right_index p]> (<[right_index := item left_index p]> (primary p))) p.

(** [erase(position(index))] *)
Definition erase_item (index : nat) (p : program) : program :=
  set_primary (take index (primary p) ++ drop (S index) (primary p)) p.

(** The loop of [stack_to_bool]: a number is true unless all its bytes are
    zero or only the last is and it is the negative sign. *)
Fixpoint bytes_to_bool (bs : list Z) : bool :=
  match bs with
  | [] => false
  | b :: rest =>
      if negb (b =? 0) then negb ((match rest with [] => true | _ => false end) && (b =? number.negative_mask))
      else bytes_to_bool rest
  end.

Definition stack_to_bool (clean : bool) (p : program) : bool :=
  if clean && negb (size p =? 1) then false else bytes_to_bool (item 0 p).

Definition stack_true (clean : bool) (p : program) : bool := stack_to_bool clean p.

Definition stack_result (clean : bool) (p : program) : bool := negb (is_empty p) && stack_true clean p.

Definition is_stack_overflow (p : program) : bool :=
  size p + zlen (alternate p) >? max_stack_size.

Definition top (maximum_size : Z) (p : program) : option Z :=
  if is_empty p then None else number.set_data (item 0 p) maximum_size.

Definition subscript (p : program) : list operation := drop (jump p) (operations (p_script p)).

(** ** Alternate stack *)

Definition empty_alternate (p : program) : bool := zlen (alternate p) =? 0.

Definition push_alternate (value : list Z) (p : program) : program :=
  set_alternate (value :: alternate p) p.

Definition pop_alternate (p : program) : list Z * program :=
  match alternate p with
  | [] => ([], p)
  | x :: l => (x, set_alternate l p)
  end.

(** ** Conditional stack *)

Definition open (value : bool) (p : program) : program :=
  set_condition (negative_count p + (if value then 0 else 1)) (value :: condition p) p.

Definition negate (p : program) : program :=
  match condition p with
  | [] => p
  | value :: l => set_condition (negative_count p + (if value then 1 else -1)) (negb value :: l) p
  end.

Definition close (p : program) : program :=
  match condition p with
  | [] => p
  | value :: l => set_condition (negative_count p + (if value then 0 else -1)) l p
  end.

Definition closed (p : program) : bool := match condition p with [] => true | _ => false end.

Definition succeeded (p : program) : bool := negative_count p =? 0.

Definition if_ (op : operation) (p : program) : bool := is_conditional (code op) || succeeded p.
End Program.

(** ** The count of false conditions

    The commented-out code of [succeeded] asks whether all conditions hold; the
    counter answers that. *)

Definition count_false (l : list bool) : Z :=
  fold_right (fun (b : bool) n => (if b then 0 else 1) + n) 0 l.

Lemma count_false_nonneg l : 0 <= count_false l.
Proof. induction l as [|[] l IH]; simpl; lia. Qed.

Lemma count_false_zero l : count_false l = 0 <-> forallb id l = true.
Proof.
  pose proof (count_false_nonneg l). induction l as [|[] l IH]; simpl in *; [done| |].
  - apply IH. apply count_false_nonneg.
  - pose proof (count_false_nonneg l). split; [lia|done].
Qed.

Definition condition_inv (p : program) : Prop := negative_count p = count_false (condition p).

Lemma succeeded_spec p : condition_inv p -> succeeded p = forallb id (condition p).
Proof.
  unfold condition_inv, succeeded. intros ->. destruct (forallb id (condition p)) eqn:E.
  - apply Z.eqb_eq. by apply count_false_zero.
  - apply Z.eqb_neq. intros Hz. apply count_false_zero in Hz. congruence.
Qed.

Lemma open_inv v p : condition_inv p -> condition_inv (open v p).
Proof. unfold condition_inv, open. simpl. intros ->. destruct v; lia. Qed.

Lemma negate_inv p : condition_inv p -> condition_inv (negate p).
Proof.
  unfold condition_inv, negate. intros Hc. destruct (condition p) as [|v l] eqn:E; [by rewrite E|].
  simpl in *. rewrite Hc. destruct v; simpl; lia.
Qed.

Lemma close_inv p : condition_inv p -> condition_inv (close p).
Proof.
  unfold condition_inv, close. intros Hc. destruct (condition p) as [|v l] eqn:E; [by rewrite E|].
  simpl in *. rewrite Hc. destruct v; simpl; lia.
Qed.

