(* ===== verification/Interpreter.v ===== *)
(** The operations of the script machine, [impl/machine/interpreter.ipp], and
    the evaluation loop of [src/machine/interpreter.cpp]. An operation returns
    its result code and the program it leaves, also when it fails. *)

From S2P Require Import Prelude Limits Endian Reader Writer Codes Number Operation Script Chain Compact Header ChainState Transaction Block Sighash Program.

Definition result : Type := error.code * program.

Definition ok (p : program) : result := (error.success, p).

Section Operations.
Context `{Currency}.

(** ** Shared *)

Definition op_nop (p : program) : result := ok p.
Definition op_disabled (p : program) : result := (error.op_disabled, p).
Definition op_reserved (p : program) : result := (error.op_reserved, p).

Definition op_push_number (value : Z) (p : program) : result := ok (push_move [value] p).

Definition op_push_size (op : operation) (p : program) : result :=
  if zlen (op_data op) >? opcode.push_size_75 then (error.op_push_size, p)
  else ok (push_move (op_data op) p).

Definition op_push_data (data : list Z) (size_limit : Z) (p : program) : result :=
  if zlen data >? size_limit then (error.op_push_data, p) else ok (push_move data p).

(** ** Flow *)

Definition op_if (p : program) : result :=
  if succeeded p then
    if is_empty p then (error.op_if, p)
    else ok (open (stack_true false p) (snd (pop p)))
  else ok (open false p).

Definition op_notif (p : program) : result :=
  if succeeded p then
    if is_empty p then (error.op_notif, p)
    else ok (open (negb (stack_true false p)) (snd (pop p)))
  else ok (open false p).

Definition op_else (p : program) : result :=
  if closed p then (error.op_else, p) else ok (negate p).

Definition op_endif (p : program) : result :=
  if closed p then (error.op_endif, p) else ok (close p).

Definition op_verify (p : program) : result :=
  if is_empty p then (error.op_verify1, p)
  else if negb (stack_true false p) then (error.op_verify2, p)
  else ok (snd (pop p)).

Definition op_return (p : program) : result := (error.op_return, p).

(** ** Stack *)

Definition op_to_alt_stack (p : program) : result :=
  if is_empty p then (error.op_to_alt_stack, p)
  else let '(value, p) := pop p in ok (push_alternate value p).

Definition op_from_alt_stack (p : program) : result :=
  if empty_alternate p then (error.op_from_alt_stack, p)
  else let '(value, p) := pop_alternate p in ok (push_move value p).

Definition op_drop2 (p : program) : result :=
  if size p <? 2 then (error.op_drop2, p) else ok (snd (pop (snd (pop p)))).

Definition op_dup2 (p : program) : result :=
  if size p <? 2 then (error.op_dup2, p)
  else let item1 := item 1 p in let item0 := item 0 p in
       ok (push_move item0 (push_move item1 p)).

Definition op_dup3 (p : program) : result :=
  if size p <? 3 then (error.op_dup3, p)
  else let item2 := item 2 p in let item1 := item 1 p in let item0 := item 0 p in
       ok (push_move item0 (push_move item1 (push_move item2 p))).

Definition op_over2 (p : program) : result :=
  if size p <? 4 then (error.op_over2, p)
  else let item3 := item 3 p in let item2 := item 2 p in
       ok (push_move item2 (push_move item3 p)).

(** [erase(position_5, position_4 + 1)] removes the items 5 and 4. *)
Definition op_rot2 (p : program) : result :=
  if size p <? 6 then (error.op_rot2, p)
  else
    let copy_5 := item 5 p in let copy_4 := item 4 p in
    ok (push_move copy_4 (push_move copy_5 (erase_item 4 (erase_item 5 p)))).

Definition op_swap2 (p : program) : result :=
  if size p <? 4 then (error.op_swap2, p) else ok (swap_items 2 0 (swap_items 3 1 p)).

Definition op_if_dup (p : program) : result :=
  if is_empty p then (error.op_if_dup, p)
  else ok (if stack_true false p then duplicate_item 0 p else p).

Definition op_depth (p : program) : result := ok (push_move (number.data (size p)) p).

Definition op_drop (p : program) : result :=
  if is_empty p then (error.op_drop, p) else ok (snd (pop p)).

Definition op_dup (p : program) : result :=
  if is_empty p then (error.op_dup, p) else ok (duplicate_item 0 p).

Definition op_nip (p : program) : result :=
  if size p <? 2 then (error.op_nip, p) else ok (erase_item 1 p).

Definition op_over (p : program) : result :=
  if size p <? 2 then (error.op_over, p) else ok (duplicate_item 1 p).

Definition op_pick (p : program) : result :=
  let '(position, p) := pop_position p in
  match position with
  | None => (error.op_pick, p)
  | Some position => ok (push_move (item position p) p)
  end.

Definition op_roll (p : program) : result :=
  let '(position, p) := pop_position p in
  match position with
  | None => (error.op_roll, p)
  | Some position => let copy := item position p in ok (push_move copy (erase_item position p))
  end.

Definition op_rot (p : program) : result :=
  if size p <? 3 then (error.op_rot, p) else ok (swap_items 1 0 (swap_items 2 1 p)).

Definition op_swap (p : program) : result :=
  if size p <? 2 then (error.op_swap, p) else ok (swap_items 1 0 p).

Definition op_tuck (p : program) : result :=
  if size p <? 2 then (error.op_tuck, p)
  else
    let '(first, p) := pop p in
    let '(second, p) := pop p in
    ok (push_move first (push_move second (push_move first p))).

Definition op_size (p : program) : result :=
  if is_empty p then (error.op_size, p)
  else
    let '(top, p) := pop p in
    let size := zlen top in
    ok (push_move (number.data size) (push_move top p)).

Definition op_equal (p : program) : result :=
  if size p <? 2 then (error.op_equal, p)
  else
    let '(a, p) := pop p in
    let '(b, p) := pop p in
    ok (push (bool_decide (a = b)) p).

Definition op_equal_verify (p : program) : result :=
  if size p <? 2 then (error.op_equal_verify1, p)
  else
    let '(a, p) := pop p in
    let '(b, p) := pop p in
    if bool_decide (a = b) then ok p else (error.op_equal_verify2, p).

(** ** Numbers *)

(** The pattern of the operations on one number. *)
Definition unary (ec : error.code) (f : Z -> program -> result) (p : program) : result :=
  let '(value, p) := pop_number max_number_size p in
  match value with None => (ec, p) | Some value => f value p end.

(** The pattern of the operations on two; [first] was the top. *)
Definition binary (ec : error.code) (f : Z -> Z -> program -> result) (p : program) : result :=
  let '(two, p) := pop_binary p in
  match two with None => (ec, p) | Some (first, second) => f first second p end.

Definition push_number_result (v : Z) (p : program) : result := ok (push_move (number.data v) p).
Definition push_bool_result (b : bool) (p : program) : result := ok (push b p).

Definition op_add1 : program -> result := unary error.op_add1 (fun n => push_number_result (n + 1)).
Definition op_sub1 : program -> result := unary error.op_sub1 (fun n => push_number_result (n - 1)).
Definition op_negate : program -> result := unary error.op_negate (fun n => push_number_result (- n)).
Definition op_abs : program -> result :=
  unary error.op_abs (fun n => push_number_result (if n <? 0 then - n else n)).
Definition op_not : program -> result :=
  unary error.op_not (fun n => push_bool_result (negb (number.is_true n))).
Definition op_nonzero : program -> result :=
  unary error.op_nonzero (fun n => push_bool_result (number.is_true n)).

Definition op_add : program -> result :=
  binary error.op_add (fun first second => push_number_result (first + second)).
Definition op_sub : program -> result :=
  binary error.op_sub (fun first second => push_number_result (second - first)).
Definition op_bool_and : program -> result :=
  binary error.op_bool_and (fun first second =>
    push_bool_result (number.is_true first && number.is_true second)).
Definition op_bool_or : program -> result :=
  binary error.op_bool_or (fun first second =>
    push_bool_result (number.is_true first || number.is_true second)).
Definition op_num_equal : program -> result :=
  binary error.op_num_equal (fun first second => push_bool_result (first =? second)).
Definition op_num_equal_verify : program -> result :=
  binary error.op_num_equal_verify1 (fun first second p =>
    if first =? second then ok p else (error.op_num_equal_verify2, p)).
Definition op_num_not_equal : program -> result :=
  binary error.op_num_not_equal (fun first second => push_bool_result (negb (first =? second))).
Definition op_less_than : program -> result :=
  binary error.op_less_than (fun first second => push_bool_result (second <? first)).
Definition op_greater_than : program -> result :=
  binary error.op_greater_than (fun first second => push_bool_result (second >? first)).
Definition op_less_than_or_equal : program -> result :=
  binary error.op_less_than_or_equal (fun first second => push_bool_result (second <=? first)).
Definition op_greater_than_or_equal : program -> result :=
  binary error.op_greater_than_or_equal (fun first second => push_bool_result (second >=? first)).
Definition op_min : program -> result :=
  binary error.op_min (fun first second =>
    push_number_result (if second <? first then second else first)).
Definition op_max : program -> result :=
  binary error.op_max (fun first second =>
    push_number_result (if second >? first then second else first)).

Definition op_within (p : program) : result :=
  let '(three, p) := pop_ternary p in
  match three with
  | None => (error.op_within, p)
  | Some (first, second, third) => push_bool_result ((second <=? third) && (third <? first)) p
  end.

(** ** Hashes *)

Section Hashes.
Context `{Crypto}.

Definition hash_top (ec : error.code) (f : list Z -> list Z) (p : program) : result :=
  if is_empty p then (ec, p) else let '(top, p) := pop p in ok (push_move (f top) p).

Definition op_ripemd160 : program -> result := hash_top error.op_ripemd160 ripemd160_hash.
Definition op_sha1 : program -> result := hash_top error.op_sha1 sha1_hash.
Definition op_sha256 : program -> result := hash_top error.op_sha256 sha256_hash.
Definition op_hash160 : program -> result :=
  hash_top error.op_hash160 (fun d => ripemd160_hash (sha256_hash d)).
Definition op_hash256 : program -> result :=
  hash_top error.op_hash256 (fun d => sha256_hash (sha256_hash d)).
End Hashes.

Definition op_codeseparator (position : option nat) (p : program) : result :=
  let '(set, p) := set_jump_register position 1 p in
  (if set : bool then error.success else error.op_code_seperator, p).

(** ** Signatures *)

Section Signatures.
Context `{Crypto} `{Ecdsa}.

(** The subscript the signatures cover: endorsements are deleted except in
    version 0 (bip143). *)
Definition script_code_of (p : program) (endorsements : list (list Z)) : script :=
  let script_code := from_operations (subscript p) in
  let bip143 := rule_fork.is_enabled (p_forks p) rule_fork.bip143_rule in
  if negb (bip143 && bool_decide (p_version p = zero)) then find_and_delete endorsements script_code
  else script_code.

Definition signature_version (p : program) : script_version :=
  if rule_fork.is_enabled (p_forks p) rule_fork.bip143_rule then p_version p else unversioned.

(** What an endorsement parses to, or the error of the operation. *)
Definition parse_signed (p : program) (endorsement : list Z) : error.code + (Z * list Z) :=
  let bip66 := rule_fork.is_enabled (p_forks p) rule_fork.bip66_rule in
  match parse_endorsement endorsement with
  | None => inl error.invalid_signature_encoding
  | Some (sighash, distinguished) =>
      match parse_signature distinguished bip66 with
      | None => inl (if bip66 then error.invalid_signature_lax_encoding
                     else error.invalid_signature_encoding)
      | Some signature => inr (sighash, signature)
      end
  end.

Definition check_key (p : program) (script_code : script) (signed : Z * list Z)
    (public_key : list Z) : bool :=
  check_signature (snd signed) (fst signed) public_key script_code (p_transaction p)
    (p_input_index p) (signature_version p) (p_value p).

Definition op_check_sig_verify (p : program) : result :=
  if size p <? 2 then (error.op_check_sig_verify1, p)
  else
    let '(public_key, p) := pop p in
    let '(endorsement, p) := pop p in
    let script_code := script_code_of p [endorsement] in
    match parse_signed p endorsement with
    | inl ec => (ec, p)
    | inr signed =>
        (if check_key p script_code signed public_key then error.success
         else error.incorrect_signature, p)
    end.

Definition op_check_sig (p : program) : result :=
  let '(verified, p) := op_check_sig_verify p in
  if decide (verified = error.invalid_signature_lax_encoding) then (error.op_check_sig, p)
  else ok (push (bool_decide (verified = error.success)) p).

(** [while (true)]: the keys from the current one on; [None] when they are
    exhausted. The matching key remains current. *)
Fixpoint find_key (p : program) (script_code : script) (signed : Z * list Z)
    (public_keys : list (list Z)) : option (list (list Z)) :=
  match public_keys with
  | [] => None
  | key :: rest =>
      if check_key p script_code signed key then Some public_keys
      else find_key p script_code signed rest
  end.

(** The loop over the endorsements. *)
Fixpoint multisig_loop (p : program) (script_code : script) (endorsements public_keys : list (list Z))
    : error.code :=
  match endorsements with
  | [] => error.success
  | endorsement :: rest =>
      match parse_signed p endorsement with
      | inl ec => ec
      | inr signed =>
          match find_key p script_code signed public_keys with
          | None => error.incorrect_signature
          | Some public_keys => multisig_loop p script_code rest public_keys
          end
      end
  end.

Definition op_check_multisig_verify (p : program) : result :=
  let '(key_count, p) := pop_int32 p in
  match key_count with
  | None => (error.op_check_multisig_verify1, p)
  | Some key_count =>
      let '(counted, p) := increment_key_count key_count p in
      if negb counted then (error.op_check_multisig_verify2, p)
      else
        let '(public_keys, p) := pop_section key_count p in
        match public_keys with
        | None => (error.op_check_multisig_verify3, p)
        | Some public_keys =>
            let '(signature_count, p) := pop_int32 p in
            match signature_count with
            | None => (error.op_check_multisig_verify4, p)
            | Some signature_count =>
                if (signature_count <? 0) || (signature_count >? key_count) then
                  (error.op_check_multisig_verify5, p)
                else
                  let '(endorsements, p) := pop_section signature_count p in
                  match endorsements with
                  | None => (error.op_check_multisig_verify6, p)
                  | Some endorsements =>
                      if is_empty p then (error.op_check_multisig_verify7, p)
                      else
                        let '(dummy, p) := pop p in
                        if negb (zlen dummy =? 0) &&
                           rule_fork.is_enabled (p_forks p) rule_fork.bip147_rule then
                          (error.op_check_multisig_verify8, p)
                        else
                          (multisig_loop p (script_code_of p endorsements) endorsements public_keys, p)
                  end
            end
        end
  end.

Definition op_check_multisig (p : program) : result :=
  let '(verified, p) := op_check_multisig_verify p in
  if decide (verified = error.invalid_signature_lax_encoding) then (error.op_check_multisig, p)
  else ok (push (bool_decide (verified = error.success)) p).
End Signatures.

(** ** Locktimes *)

Definition op_check_locktime_verify (p : program) : result :=
  if negb (rule_fork.is_enabled (p_forks p) rule_fork.bip65_rule) then op_nop p
  else
    let tx := p_transaction p in
    match inputs tx !! p_input_index p with
    | None => (error.op_check_locktime_verify1, p)
    | Some i =>
        if is_final_input i then (error.op_check_locktime_verify2, p)
        else
          match top max_check_locktime_verify_number_size p with
          | None => (error.op_check_locktime_verify3, p)
          | Some stack =>
              if stack <? 0 then (error.op_check_locktime_verify4, p)
              else
                let locktime := u64 stack in
                if negb (Bool.eqb (locktime <? locktime_threshold)
                           (tx_locktime tx <? locktime_threshold)) then
                  (error.op_check_locktime_verify5, p)
                else (if locktime >? tx_locktime tx then error.op_check_locktime_verify6
                      else error.success, p)
          end
    end.

Definition op_check_sequence_verify (p : program) : result :=
  if negb (rule_fork.is_enabled (p_forks p) rule_fork.bip112_rule) then op_nop p
  else
    let tx := p_transaction p in
    match inputs tx !! p_input_index p with
    | None => (error.op_check_sequence_verify1, p)
    | Some i =>
        match top max_check_sequence_verify_number_size p with
        | None => (error.op_check_sequence_verify2, p)
        | Some stack =>
            if stack <? 0 then (error.op_check_sequence_verify3, p)
            else
              let seq := u64 stack in
              if negb (Z.land seq relative_locktime_disabled =? 0) then op_nop p
              else if tx_version tx <? relative_locktime_min_version then
                (error.op_check_sequence_verify4, p)
              else
                let tx_sequence := sequence i in
                if negb (Z.land tx_sequence relative_locktime_disabled =? 0) then
                  (error.op_check_sequence_verify5, p)
                else if negb (Z.land seq relative_locktime_time_locked =?
                              Z.land tx_sequence relative_locktime_time_locked) then
                  (error.op_check_sequence_verify6, p)
                else (if Z.land seq relative_locktime_mask >? Z.land tx_sequence relative_locktime_mask
                      then error.op_check_sequence_verify7 else error.success, p)
        end
    end.
End Operations.

Section Run.
Context `{Currency} `{Crypto} `{Ecdsa}.

(** [position] is the place of [op] in the script of the program. *)
Definition run_op (op : operation) (position : option nat) (p : program) : result :=
  let c := code op in
  if c <=? opcode.push_size_75 then op_push_size op p else
  if c =? opcode.push_one_size then op_push_data (op_data op) max_uint8 p else
  if c =? opcode.push_two_size then op_push_data (op_data op) max_uint16 p else
  if c =? opcode.push_four_size then op_push_data (op_data op) max_uint32 p else
  if c =? opcode.push_negative_1 then op_push_number number.negative_1 p else
  if c =? opcode.push_positive_1 then op_push_number 1 p else
  if c =? opcode.push_positive_2 then op_push_number 2 p else
  if c =? opcode.push_positive_3 then op_push_number 3 p else
  if c =? opcode.push_positive_4 then op_push_number 4 p else
  if c =? opcode.push_positive_5 then op_push_number 5 p else
  if c =? opcode.push_positive_6 then op_push_number 6 p else
  if c =? opcode.push_positive_7 then op_push_number 7 p else
  if c =? opcode.push_positive_8 then op_push_number 8 p else
  if c =? opcode.push_positive_9 then op_push_number 9 p else
  if c =? opcode.push_positive_10 then op_push_number 10 p else
  if c =? opcode.push_positive_11 then op_push_number 11 p else
  if c =? opcode.push_positive_12 then op_push_number 12 p else
  if c =? opcode.push_positive_13 then op_push_number 13 p else
  if c =? opcode.push_positive_14 then op_push_number 14 p else
  if c =? opcode.push_positive_15 then op_push_number 15 p else
  if c =? opcode.push_positive_16 then op_push_number 16 p else
  if (c =? opcode.nop) || (c =? opcode.nop1) || (c =? opcode.nop4) || (c =? opcode.nop5) ||
     (c =? opcode.nop6) || (c =? opcode.nop7) || (c =? opcode.nop8) || (c =? opcode.nop9) ||
     (c =? opcode.nop10) then op_nop p else
  if c =? opcode.if_ then op_if p else
  if c =? opcode.notif then op_notif p else
  if (c =? opcode.disabled_verif) || (c =? opcode.disabled_vernotif) || (c =? opcode.disabled_cat) ||
     (c =? opcode.disabled_substr) || (c =? opcode.disabled_left) || (c =? opcode.disabled_right) ||
     (c =? opcode.disabled_invert) || (c =? opcode.disabled_and) || (c =? opcode.disabled_or) ||
     (c =? opcode.disabled_xor) || (c =? opcode.disabled_mul2) || (c =? opcode.disabled_div2) ||
     (c =? opcode.disabled_mul) || (c =? opcode.disabled_div) || (c =? opcode.disabled_mod) ||
     (c =? opcode.disabled_lshift) || (c =? opcode.disabled_rshift) then op_disabled p else
  if c =? opcode.else_ then op_else p else
  if c =? opcode.endif then op_endif p else
  if c =? opcode.verify then op_verify p else
  if c =? opcode.return_ then op_return p else
  if c =? opcode.toaltstack then op_to_alt_stack p else
  if c =? opcode.fromaltstack then op_from_alt_stack p else
  if c =? opcode.drop2 then op_drop2 p else
  if c =? opcode.dup2 then op_dup2 p else
  if c =? opcode.dup3 then op_dup3 p else
  if c =? opcode.over2 then op_over2 p else
  if c =? opcode.rot2 then op_rot2 p else
  if c =? opcode.swap2 then op_swap2 p else
  if c =? opcode.ifdup then op_if_dup p else
  if c =? opcode.depth then op_depth p else
  if c =? opcode.drop then op_drop p else
  if c =? opcode.dup then op_dup p else
  if c =? opcode.nip then op_nip p else
  if c =? opcode.over then op_over p else
  if c =? opcode.pick then op_pick p else
  if c =? opcode.roll then op_roll p else
  if c =? opcode.rot then op_rot p else
  if c =? opcode.swap then op_swap p else
  if c =? opcode.tuck then op_tuck p else
  if c =? opcode.size then op_size p else
  if c =? opcode.equal then op_equal p else
  if c =? opcode.equalverify then op_equal_verify p else
  if c =? opcode.add1 then op_add1 p else
  if c =? opcode.sub1 then op_sub1 p else
  if c =? opcode.negate then op_negate p else
  if c =? opcode.abs then op_abs p else
  if c =? opcode.not_ then op_not p else
  if c =? opcode.nonzero then op_nonzero p else
  if c =? opcode.add then op_add p else
  if c =? opcode.sub then op_sub p else
  if c =? opcode.booland then op_bool_and p else
  if c =? opcode.boolor then op_bool_or p else
  if c =? opcode.numequal then op_num_equal p else
  if c =? opcode.numequalverify then op_num_equal_verify p else
  if c =? opcode.numnotequal then op_num_not_equal p else
  if c =? opcode.lessthan then op_less_than p else
  if c =? opcode.greaterthan then op_greater_than p else
  if c =? opcode.lessthanorequal then op_less_than_or_equal p else
  if c =? opcode.greaterthanorequal then op_greater_than_or_equal p else
  if c =? opcode.min then op_min p else
  if c =? opcode.max then op_max p else
  if c =? opcode.within then op_within p else
  if c =? opcode.ripemd160 then op_ripemd160 p else
  if c =? opcode.sha1 then op_sha1 p else
  if c =? opcode.sha256 then op_sha256 p else
  if c =? opcode.hash160 then op_hash160 p else
  if c =? opcode.hash256 then op_hash256 p else
  if c =? opcode.codeseparator then op_codeseparator position p else
  if c =? opcode.checksig then op_check_sig p else
  if c =? opcode.checksigverify then op_check_sig_verify p else
  if c =? opcode.checkmultisig then op_check_multisig p else
  if c =? opcode.checkmultisigverify then op_check_multisig_verify p else
  if c =? opcode.checklocktimeverify then op_check_locktime_verify p else
  if c =? opcode.checksequenceverify then op_check_sequence_verify p else
  op_reserved p.

(** The loop of [interpreter::run(program&)] over the operations from [i] on. *)
Fixpoint run_loop (i : nat) (ops : list operation) (p : program) : result :=
  match ops with
  | [] => (if closed p then error.success else error.invalid_stack_scope, p)
  | op :: rest =>
      if is_oversized (op_data op) then (error.invalid_push_data_size, p)
      else if is_disabled (code op) then (error.op_disabled, p)
      else
        let '(counted, p) := increment_operation_count op p in
        if negb counted then (error.invalid_operation_count, p)
        else if if_ op p then
          let '(ec, p) := run_op op (Some i) p in
          if decide (ec = error.success) then
            if is_stack_overflow p then (error.invalid_stack_size, p)
            else run_loop (S i) rest p
          else (ec, p)
        else run_loop (S i) rest p
  end.

(** [interpreter::run(program&)], [program::evaluate()] *)
Definition evaluate (p : program) : result :=
  if negb (program_is_valid p) then (error.invalid_script, p)
  else run_loop 0 (operations (p_script p)) p.

(** [interpreter::run(const operation&, program&)] *)
Definition evaluate_operation (op : operation) (p : program) : result := run_op op None p.

(** ** Verification *)

(** [witness::extract_embedded_script]; [None] is a return of false. *)
Definition extract_embedded_script (w : witness) (program_script : script)
    : option (script * list (list Z)) :=
  match Script.version program_script with
  | zero =>
      let program := witness_program program_script in
      let size := length program in
      if (size =? short_hash_size)%nat then
        if negb (zlen (stack w) =? 2) || negb (is_push_size (stack w)) then None
        else Some (from_operations (to_pay_key_hash_pattern program), stack w)
      else if (size =? hash_size)%nat then
        match stack w with
        | [] => None
        | _ =>
            let out_stack := removelast (stack w) in
            let out_script := script_of_bytes (List.last (stack w) []) in
            if negb (is_push_size out_stack) then None
            else if bool_decide (program = sha256_hash (script_to_data false out_script))
            then Some (out_script, out_stack) else None
        end
      else None
  | reserved => Some (reset_script, [])
  | unversioned => None
  end.

(** [witness::verify] *)
Definition witness_verify (w : witness) (tx : transaction) (input_index : nat) (forks : Z)
    (program_script : script) (value : Z) : error.code :=
  match Script.version program_script with
  | zero =>
      match extract_embedded_script w program_script with
      | None => error.invalid_witness
      | Some (s, st) =>
          let '(ec, p) := evaluate (witness_program_of s tx input_index forks st value zero) in
          if decide (ec = error.success) then
            if negb (stack_result true p) then error.stack_false else error.success
          else ec
      end
  | reserved => error.success
  | unversioned => error.operation_failed
  end.

(** The embedded script of pay to script hash, run on the stack of the input
    script without its top; the result says whether it was witnessed. *)
Definition verify_embedded (tx : transaction) (input_index : nat) (forks : Z)
    (input_script : script) (input_witness : witness) (value : Z) (inp : program)
    : error.code * bool :=
  if negb (is_relaxed_push_only (operations input_script)) then (error.invalid_script_embed, false)
  else
    let '(top, inp) := pop inp in
    let embedded_script := script_of_bytes top in
    let '(ec, embedded) := evaluate (next_program embedded_script inp) in
    if decide (ec = error.success) then
      if negb (stack_result false embedded) then (error.stack_false, false)
      else if is_pay_to_witness forks embedded_script then
        if negb (length (operations input_script) =? 1)%nat then (error.dirty_witness, true)
        else (witness_verify input_witness tx input_index forks embedded_script value, true)
      else (error.success, false)
    else (ec, false).

(** [script::verify(tx, input_index, forks, input_script, ...)] *)
Definition verify (tx : transaction) (input_index : nat) (forks : Z) (input_script : script)
    (input_witness : witness) (prevout_script : script) (value : Z) : error.code :=
  let '(ec, inp) := evaluate (input_program input_script tx input_index forks) in
  if decide (ec = error.success) then
    let '(ec, prevout) := evaluate (next_program prevout_script inp) in
    if decide (ec = error.success) then
      if negb (stack_result false prevout) then error.stack_false
      else
        let '(ec, witnessed) :=
          if is_pay_to_witness forks prevout_script then
            if negb (length (operations input_script) =? 0)%nat then (error.dirty_witness, true)
            else (witness_verify input_witness tx input_index forks prevout_script value, true)
          else if is_pay_to_script_hash forks prevout_script then
            verify_embedded tx input_index forks input_script input_witness value inp
          else (error.success, false) in
        if decide (ec = error.success) then
          if negb witnessed && negb (witness_is_empty input_witness) then error.unexpected_witness
          else error.success
        else ec
    else ec
  else ec.

(** [script::verify(tx, input, forks)] *)
Definition verify_input (tx : transaction) (input_index : nat) (forks : Z) : error.code :=
  match inputs tx !! input_index with
  | None => error.operation_failed
  | Some i =>
      let prevout := prevout_cache (previous_output i) in
      verify tx input_index forks (in_script i) (in_witness i) (out_script prevout) (out_value prevout)
  end.

(** ** Connection *)

Definition connect_input (state : chain_state) (input_index : nat) (tx : transaction) : error.code :=
  match inputs tx !! input_index with
  | None => error.operation_failed
  | Some i =>
      if is_coinbase tx then error.success
      else if negb (output_is_valid (prevout_cache (previous_output i))) then
        error.missing_previous_output
      else verify_input tx input_index (enabled_forks state)
  end.

Fixpoint connect_loop (state : chain_state) (tx : transaction) (i : nat) (remaining : nat) : error.code :=
  match remaining with
  | O => error.success
  | S remaining =>
      let ec := connect_input state i tx in
      if decide (ec = error.success) then connect_loop state tx (S i) remaining else ec
  end.

(** [transaction::connect(const chain_state&)] *)
Definition connect_state (state : chain_state) (tx : transaction) : error.code :=
  connect_loop state tx 0 (length (inputs tx)).

(** [transaction::connect()] *)
Definition connect (tx : transaction) : error.code :=
  match tx_state (validation tx) with
  | Some state => connect_state state tx
  | None => error.operation_failed
  end.

(** [block::connect_transactions] *)
Fixpoint connect_transactions (state : chain_state) (txs : list transaction) : error.code :=
  match txs with
  | [] => error.success
  | tx :: rest =>
      let ec := connect_state state tx in
      if decide (ec = error.success) then connect_transactions state rest else ec
  end.

(** [block::connect(const chain_state&)] *)
Definition block_connect_state (state : chain_state) (b : block) : error.code :=
  if is_under_checkpoint state then error.success else connect_transactions state (transactions b).

(** [block::connect()] *)
Definition block_connect (b : block) : error.code :=
  match bk_state b with
  | Some state => block_connect_state state b
  | None => error.operation_failed
  end.
End Run.
