(* ===== verification/InterpRules.v ===== *)
(** What evaluation guarantees: the conditional counter, the limits of a script
    that succeeds, the multisignature search, the lock time operations and the
    standard spends. *)

From S2P Require Import Prelude Limits Endian Reader Writer Codes Number Operation Script Chain Compact Header ChainState Transaction Block Sighash Program Interpreter.

(** ** What an operation may change *)

(** All registers but the data stacks, the jump and the operation count. *)
Definition same_context (p q : program) : Prop :=
  p_script q = p_script p /\ p_transaction q = p_transaction p /\
  p_input_index q = p_input_index p /\ p_forks q = p_forks p /\ p_value q = p_value p /\
  p_version q = p_version p.

Definition same_condition (p q : program) : Prop :=
  negative_count q = negative_count p /\ condition q = condition p.

(** Everything is kept but the stacks and the jump, and [n] is added to the
    operation count. *)
Definition counting (n : Z) (p q : program) : Prop :=
  same_context p q /\ same_condition p q /\ operation_count q = operation_count p + n.

(** The frame of every operation outside the conditionals and the two
    multisignature operations. *)
Definition frame : program -> program -> Prop := counting 0.

(** The registers of a concrete update. *)
Ltac same_registers := unfold frame, counting, same_context, same_condition; simpl; split_and!; done || lia.

Lemma frame_refl p : frame p p.
Proof. same_registers. Qed.

Lemma counting_trans n m p q r : counting n p q -> counting m q r -> counting (n + m) p r.
Proof.
  unfold counting, same_context, same_condition.
  intros ((?&?&?&?&?&?)&(?&?)&?) ((?&?&?&?&?&?)&(?&?)&?). split_and!; congruence || lia.
Qed.

Lemma frame_trans p q r : frame p q -> frame q r -> frame p r.
Proof. exact (counting_trans 0 0 p q r). Qed.

Lemma counting_frame n p q r : counting n p q -> frame q r -> counting n p r.
Proof. intros Hp Hq. rewrite <- (Z.add_0_r n). by eapply counting_trans. Qed.

Lemma frame_primary l p : frame p (set_primary l p).
Proof. same_registers. Qed.

Lemma frame_alternate l p : frame p (set_alternate l p).
Proof. same_registers. Qed.

Lemma frame_jump n p : frame p (set_jump n p).
Proof. same_registers. Qed.

Lemma frame_push_move x p : frame p (push_move x p).
Proof. same_registers. Qed.

Lemma frame_push b p : frame p (push b p).
Proof. same_registers. Qed.

Lemma frame_pop p : frame p (snd (pop p)).
Proof. unfold pop. destruct (primary p); same_registers. Qed.

Lemma frame_pop_alternate p : frame p (snd (pop_alternate p)).
Proof. unfold pop_alternate. destruct (alternate p); same_registers. Qed.

#[export] Hint Resolve frame_refl frame_primary frame_alternate frame_jump frame_push_move frame_push
  frame_pop frame_pop_alternate : frame.

(** [f] has the frame property when its result does. *)
Definition framed (f : program -> result) : Prop := forall p, frame p (snd (f p)).

Lemma frame_pop_number n p : frame p (snd (pop_number n p)).
Proof.
  unfold pop_number. destruct (is_empty p); [apply frame_refl|].
  pose proof (frame_pop p) as Hf. by destruct (pop p).
Qed.

Lemma frame_pop_int32 p : frame p (snd (pop_int32 p)).
Proof.
  unfold pop_int32. pose proof (frame_pop_number max_number_size p) as Hf.
  by destruct (pop_number max_number_size p).
Qed.

Lemma frame_pop_binary p : frame p (snd (pop_binary p)).
Proof.
  unfold pop_binary. pose proof (frame_pop_number max_number_size p) as Hf.
  destruct (pop_number max_number_size p) as [[v|] q]; [|done].
  pose proof (frame_pop_number max_number_size q) as Hg.
  destruct (pop_number max_number_size q) as [[w|] r]; by eapply frame_trans.
Qed.

Lemma frame_pop_ternary p : frame p (snd (pop_ternary p)).
Proof.
  unfold pop_ternary. pose proof (frame_pop_binary p) as Hf.
  destruct (pop_binary p) as [[[v w]|] q]; [|done].
  pose proof (frame_pop_number max_number_size q) as Hg.
  destruct (pop_number max_number_size q) as [[x|] r]; by eapply frame_trans.
Qed.

Lemma frame_pop_position p : frame p (snd (pop_position p)).
Proof.
  unfold pop_position. pose proof (frame_pop_int32 p) as Hf.
  destruct (pop_int32 p) as [[v|] q]; [|done]. by repeat case_if.
Qed.

Lemma frame_pop_section n p : frame p (snd (pop_section n p)).
Proof. unfold pop_section. case_if; same_registers. Qed.

(** The number of keys on the top of the stack, which is counted within the
    limit of a script, whatever it makes of the operation count. *)
Definition keys_of (p : program) : Z :=
  match fst (pop_int32 p) with
  | Some n => if (n <? 0) || (n >? max_script_public_keys) then 0 else n
  | None => 0
  end.

Lemma counting_key_count n p :
  counting (if (n <? 0) || (n >? max_script_public_keys) then 0 else n) p (snd (increment_key_count n p)).
Proof. unfold increment_key_count. case_if; same_registers. Qed.

#[export] Hint Resolve frame_pop_number frame_pop_int32 frame_pop_binary frame_pop_ternary
  frame_pop_position frame_pop_section : frame.

(** Follow a sequence of framed steps. *)
Ltac frame_step :=
  match goal with
  | |- context [let '(_, _) := ?e in _] =>
      let q := fresh "q" in let H := fresh "Hq" in
      match e with
      | ?f ?p => assert (H : frame p (snd e)) by eauto with frame
      end;
      destruct e as [? q]; simpl in H
  | |- context [if ?b then _ else _] => destruct b
  | |- context [match ?x with _ => _ end] => destruct x
  end.

Ltac solve_frame :=
  repeat frame_step; simpl; eauto 6 using frame_trans with frame.

Section Frames.
Context `{Currency}.

Lemma framed_unary ec f : (forall v, framed (f v)) -> framed (unary ec f).
Proof.
  intros Hf p. unfold unary. pose proof (frame_pop_number max_number_size p) as Hp.
  destruct (pop_number max_number_size p) as [[v|] q]; [|done]. eapply frame_trans; [exact Hp|apply Hf].
Qed.

Lemma framed_binary ec f : (forall v w, framed (f v w)) -> framed (binary ec f).
Proof.
  intros Hf p. unfold binary. pose proof (frame_pop_binary p) as Hp.
  destruct (pop_binary p) as [[[v w]|] q]; [|done]. eapply frame_trans; [exact Hp|apply Hf].
Qed.

Lemma framed_hash_top ec f : framed (hash_top ec f).
Proof.
  intros p. unfold hash_top. destruct (is_empty p); [apply frame_refl|].
  pose proof (frame_pop p) as Hp. destruct (pop p) as [x q]. eapply frame_trans; [exact Hp|apply frame_push_move].
Qed.

Context `{Crypto} `{Ecdsa}.

Lemma framed_check_sig_verify : framed op_check_sig_verify.
Proof.
  intros p. unfold op_check_sig_verify. destruct (size p <? 2); [apply frame_refl|].
  pose proof (frame_pop p) as Hp. destruct (pop p) as [key q]. simpl in Hp.
  pose proof (frame_pop q) as Hq. destruct (pop q) as [e r]. simpl in Hq.
  destruct (parse_signed r e); by eapply frame_trans.
Qed.

Lemma framed_check_sig : framed op_check_sig.
Proof.
  intros p. unfold op_check_sig. pose proof (framed_check_sig_verify p) as Hp.
  destruct (op_check_sig_verify p) as [ec q]. case_decide; [done|].
  eapply frame_trans; [exact Hp|apply frame_push].
Qed.

Lemma counting_check_multisig_verify p : counting (keys_of p) p (snd (op_check_multisig_verify p)).
Proof.
  unfold op_check_multisig_verify, keys_of.
  pose proof (frame_pop_int32 p) as H1'. destruct (pop_int32 p) as [[keys|] p1]; [|done]. cbn [fst snd] in *.
  pose proof (counting_trans _ _ _ _ _ H1' (counting_key_count keys p1)) as H2'. rewrite Z.add_0_l in H2'.
  destruct (increment_key_count keys p1) as [[] p2]; [|done]. cbn [negb].
  pose proof (counting_frame _ _ _ _ H2' (frame_pop_section keys p2)) as H3'.
  destruct (pop_section keys p2) as [[ks|] p3]; [|done].
  pose proof (counting_frame _ _ _ _ H3' (frame_pop_int32 p3)) as H4'.
  destruct (pop_int32 p3) as [[sigs|] p4]; [|done].
  destruct ((sigs <? 0) || (sigs >? keys)); [done|].
  pose proof (counting_frame _ _ _ _ H4' (frame_pop_section sigs p4)) as H5'.
  destruct (pop_section sigs p4) as [[es|] p5]; [|done]. destruct (is_empty p5); [done|].
  pose proof (counting_frame _ _ _ _ H5' (frame_pop p5)) as H6'. destruct (pop p5) as [d p6].
  by destruct (_ && _).
Qed.

Lemma counting_check_multisig p : counting (keys_of p) p (snd (op_check_multisig p)).
Proof.
  unfold op_check_multisig. pose proof (counting_check_multisig_verify p) as Hp.
  destruct (op_check_multisig_verify p) as [ec q]. case_decide; [done|].
  eapply counting_frame; [exact Hp|apply frame_push].
Qed.

(** An operation that succeeds leaves its keys within the operation count, if
    it does not push what became of it. *)
Lemma check_multisig_verify_count p q :
  op_check_multisig_verify p = (error.success, q) -> operation_count q <= max_counted_ops.
Proof.
  unfold op_check_multisig_verify, increment_key_count, operation_overflow.
  destruct (pop_int32 p) as [[keys|] p1]; [|done]. case_if; [done|]. cbn [fst snd].
  destruct (Z.gtb_spec (operation_count (set_operation_count (operation_count p1 + keys) p1)) max_counted_ops) as [|Hle]; [done|].
  cbn [negb]. set (p2 := set_operation_count _ _) in *.
  pose proof (frame_pop_section keys p2) as H3'. destruct (pop_section keys p2) as [[ks|] p3]; [|done].
  pose proof (frame_trans _ _ _ H3' (frame_pop_int32 p3)) as H4'. destruct (pop_int32 p3) as [[sigs|] p4]; [|done].
  case_if; [done|].
  pose proof (frame_trans _ _ _ H4' (frame_pop_section sigs p4)) as H5'.
  destruct (pop_section sigs p4) as [[es|] p5]; [|done]. destruct (is_empty p5); [done|].
  pose proof (frame_trans _ _ _ H5' (frame_pop p5)) as H6'. destruct (pop p5) as [d p6]. cbn [fst snd] in *.
  case_if; [done|]. intros ?. simplify_eq. destruct H6' as (_ & _ & ->). lia.
Qed.
End Frames.

Section RunOp.
Context `{Currency} `{Crypto} `{Ecdsa}.

Lemma framed_locktime : framed op_check_locktime_verify.
Proof.
  intros p. unfold op_check_locktime_verify, op_nop, ok.
  repeat first [apply frame_refl | case_if | case_match].
Qed.

Lemma framed_sequence : framed op_check_sequence_verify.
Proof.
  intros p. unfold op_check_sequence_verify, op_nop, ok.
  repeat first [apply frame_refl | case_if | case_match].
Qed.

Lemma framed_pick : framed op_pick.
Proof.
  intros p. unfold op_pick. pose proof (frame_pop_position p) as Hp.
  destruct (pop_position p) as [[i|] q]; [|done]. eapply frame_trans; [exact Hp|apply frame_push_move].
Qed.

Lemma framed_roll : framed op_roll.
Proof.
  intros p. unfold op_roll. pose proof (frame_pop_position p) as Hp.
  destruct (pop_position p) as [[i|] q]; [|done]. eapply frame_trans; [exact Hp|]. simpl. same_registers.
Qed.

Lemma framed_within : framed op_within.
Proof.
  intros p. unfold op_within. pose proof (frame_pop_ternary p) as Hp.
  destruct (pop_ternary p) as [[[[a b] c]|] q]; [|done]. eapply frame_trans; [exact Hp|apply frame_push].
Qed.

Lemma framed_codeseparator position : framed (op_codeseparator position).
Proof.
  intros p. unfold op_codeseparator, set_jump_register.
  destruct (operations (p_script p)), position; simpl; same_registers.
Qed.

Hint Resolve framed_locktime framed_sequence framed_pick framed_roll framed_within
  framed_codeseparator framed_check_sig framed_check_sig_verify framed_hash_top : frame.

Lemma framed_numeric : 
  Forall framed [op_add1; op_sub1; op_negate; op_abs; op_not; op_nonzero; op_add; op_sub;
    op_bool_and; op_bool_or; op_num_equal; op_num_equal_verify; op_num_not_equal; op_less_than;
    op_greater_than; op_less_than_or_equal; op_greater_than_or_equal; op_min; op_max].
Proof.
  repeat apply Forall_cons_2; try apply Forall_nil_2;
    try (apply framed_unary; intros v q; apply frame_push_move);
    try (apply framed_binary; intros v w q; apply frame_push_move).
  apply framed_binary. intros v w q. simpl. case_if; apply frame_refl.
Qed.

(** The stack operations: pops, pushes and permutations of the stacks. *)
Ltac solve_stack p :=
  unfold pop, pop_alternate, ok; repeat case_if; try same_registers;
  repeat (case_match; simplify_eq; try same_registers).

Lemma framed_stack op :
  Forall framed [op_nop; op_disabled; op_reserved; op_push_size op; op_verify; op_return;
    op_to_alt_stack; op_from_alt_stack; op_drop2; op_dup2; op_dup3; op_over2; op_rot2; op_swap2;
    op_if_dup; op_depth; op_drop; op_dup; op_nip; op_over; op_rot; op_swap; op_tuck; op_size;
    op_equal; op_equal_verify].
Proof.
  repeat apply Forall_cons_2; try apply Forall_nil_2; intros p;
    match goal with |- frame _ (snd (?f _ _)) => unfold f | |- frame _ (snd (?f _)) => unfold f end;
    solve_stack p.
Qed.

Definition is_multisig (c : Z) : bool :=
  (c =? opcode.checkmultisig) || (c =? opcode.checkmultisigverify).

(** Outside the conditionals and the multisignature operations an operation
    leaves the conditions and the operation count alone. *)
Lemma run_op_framed op position :
  is_conditional (code op) = false -> is_multisig (code op) = false -> framed (run_op op position).
Proof.
  unfold is_conditional, is_multisig. simpl. intros Hc Hm. apply orb_false_iff in Hm as [Hm Hmv].
  apply orb_false_iff in Hc as [Hif Hc]. apply orb_false_iff in Hc as [Hnotif Hc].
  apply orb_false_iff in Hc as [Helse Hc]. apply orb_false_iff in Hc as [Hendif _].
  pose proof (framed_stack op) as Hs. rewrite !Forall_cons in Hs.
  pose proof framed_numeric as Hn. rewrite !Forall_cons in Hn. destruct_and!.
  intros p. unfold run_op. cbv zeta.
  repeat match goal with
  | |- frame _ (snd (if ?b then _ else _)) =>
      let E := fresh "E" in destruct b eqn:E;
      [first [ congruence
             | match goal with Hf : framed ?f |- frame p (snd (?f p)) => apply Hf end
             | apply frame_push_move
             | apply framed_hash_top | apply framed_check_sig | apply framed_check_sig_verify
             | apply framed_locktime | apply framed_sequence | apply framed_pick | apply framed_roll
             | apply framed_within | apply framed_codeseparator
             | unfold op_push_data; case_if; apply frame_refl || apply frame_push_move ]
      | clear E]
  end.
  apply frame_refl.
Qed.
End RunOp.

(** ** The conditional operations *)

Section Conditionals.
Context `{Currency} `{Crypto} `{Ecdsa}.

Lemma frame_condition_inv p q : frame p q -> condition_inv p -> condition_inv q.
Proof. unfold condition_inv. intros (_ & [-> ->] & _). done. Qed.

(** A step keeps the condition counter exact and adds [k] to the operation
    count. *)
Definition steps (k : program -> Z) (f : program -> result) : Prop := forall p,
  (condition_inv p -> condition_inv (snd (f p))) /\ same_context p (snd (f p)) /\
  operation_count (snd (f p)) = operation_count p + k p.

Definition conditional_step : (program -> result) -> Prop := steps (fun _ => 0).

Lemma counting_steps k f : (forall p, counting (k p) p (snd (f p))) -> steps k f.
Proof.
  intros Hf p. destruct (Hf p) as (Hx & [Hn Hc] & Ho). split; [|done].
  unfold condition_inv. by rewrite Hn, Hc.
Qed.

Lemma conditional_if : conditional_step op_if.
Proof.
  intros p. unfold op_if. destruct (succeeded p); [destruct (is_empty p)|]; simpl.
  - split_and!; done || lia.
  - pose proof (frame_pop p) as Hf. split; [|by destruct Hf as (Hc & _ & Ho)].
    intros Hi. apply open_inv. by eapply frame_condition_inv.
  - split; [apply open_inv|]. split; [by same_registers|]. simpl. lia.
Qed.

Lemma conditional_notif : conditional_step op_notif.
Proof.
  intros p. unfold op_notif. destruct (succeeded p); [destruct (is_empty p)|]; simpl.
  - split_and!; done || lia.
  - pose proof (frame_pop p) as Hf. split; [|by destruct Hf as (Hc & _ & Ho)].
    intros Hi. apply open_inv. by eapply frame_condition_inv.
  - split; [apply open_inv|]. split; [by same_registers|]. simpl. lia.
Qed.

Lemma conditional_else : conditional_step op_else.
Proof.
  intros p. unfold op_else. destruct (closed p); simpl; [split_and!; done || lia|].
  split; [apply negate_inv|]. unfold negate. destruct (condition p); split; try same_registers; simpl; lia.
Qed.

Lemma conditional_endif : conditional_step op_endif.
Proof.
  intros p. unfold op_endif. destruct (closed p); simpl; [split_and!; done || lia|].
  split; [apply close_inv|]. unfold close. destruct (condition p); split; try same_registers; simpl; lia.
Qed.

(** The keys an operation counts when it runs. *)
Definition keys_run (op : operation) (p : program) : Z := if is_multisig (code op) then keys_of p else 0.

Lemma run_op_step op position : steps (keys_run op) (run_op op position).
Proof.
  unfold keys_run. destruct (is_conditional (code op)) eqn:E.
  - unfold is_conditional in E. simpl in E. rewrite !orb_true_iff in E.
    assert (Hc : code op = opcode.if_ \/ code op = opcode.notif \/ code op = opcode.else_ \/
                 code op = opcode.endif) by (destruct E as [|[|[|[|]]]]; bool_to_prop; auto; done).
    intros p. unfold run_op. cbv zeta.
    destruct Hc as [->|[->|[->| ->]]]; [apply conditional_if|apply conditional_notif
      |apply conditional_else|apply conditional_endif].
  - destruct (is_multisig (code op)) eqn:Em.
    + apply counting_steps. intros p. unfold run_op. cbv zeta.
      unfold is_multisig in Em. apply orb_true_iff in Em as [Em|Em]; bool_to_prop; rewrite Em;
        [apply counting_check_multisig|apply counting_check_multisig_verify].
    + apply counting_steps. by apply run_op_framed.
Qed.

(** The programs a run goes through: operations are counted and run, in any
    order and also when they fail. *)
Inductive program_reachable : program -> Prop :=
| reach_start p : condition p = [] -> negative_count p = 0 -> program_reachable p
| reach_count op p : program_reachable p -> program_reachable (snd (increment_operation_count op p))
| reach_run op position p : program_reachable p -> program_reachable (snd (run_op op position p)).

Lemma increment_count_inv op p :
  condition_inv p -> condition_inv (snd (increment_operation_count op p)).
Proof. unfold condition_inv, increment_operation_count. simpl. by destruct (is_counted (code op)). Qed.

(** C31: The counter of negative conditions, which the code keeps in place of
    scanning the condition stack, always decides as the scan would: operations
    run exactly when every open branch is taken. *)
Theorem condition_counter_exact p : program_reachable p -> succeeded p = forallb id (condition p).
Proof.
  intros Hr. apply succeeded_spec. induction Hr as [p Hc Hn|op p _ IH|op position p _ IH].
  - unfold condition_inv. by rewrite Hc, Hn.
  - by apply increment_count_inv.
  - by apply run_op_step.
Qed.

(** ** The limits of a script that succeeds *)

Definition counted (ops : list operation) : Z :=
  zlen (List.filter (fun op => is_counted (code op)) ops).

Lemma increment_operation_count_spec op p :
  let q := snd (increment_operation_count op p) in
  same_context p q /\ same_condition p q /\ primary q = primary p /\ alternate q = alternate p /\
  operation_count q = operation_count p + counted [op] /\
  (fst (increment_operation_count op p) = true -> operation_count q <= max_counted_ops).
Proof.
  unfold increment_operation_count, operation_overflow, counted. simpl.
  destruct (is_counted (code op)); simpl; split_and!; try done;
    try (unfold zlen; simpl; lia); intros Hb; bool_to_prop; lia.
Qed.

(** The data stacks of the final state of a run. *)
Definition stacks (p : program) : Z := size p + zlen (alternate p).

Lemma counted_cons op ops : counted (op :: ops) = counted [op] + counted ops.
Proof. unfold counted. simpl. destruct (is_counted (code op)); unfold zlen; simpl; lia. Qed.

(** One turn of the loop of [evaluate], without its tests: the operation is
    counted, and run where every open branch is taken. *)
Definition turn (i : nat) (op : operation) (p : program) : program :=
  let p := snd (increment_operation_count op p) in
  if if_ op p then snd (run_op op (Some i) p) else p.

(** The turns over a list of operations: each operation with the program
    before and after it. *)
Fixpoint turns (i : nat) (ops : list operation) (p : program) : list (operation * program * program) :=
  match ops with
  | [] => []
  | op :: ops => (op, p, turn i op p) :: turns (S i) ops (turn i op p)
  end.

(** The public keys counted in a turn: those of a multisignature operation
    that runs. *)
Definition keys_counted (op : operation) (p : program) : Z :=
  let p := snd (increment_operation_count op p) in if if_ op p then keys_run op p else 0.

(** A turn within the limits: the stacks together, the count before the
    operation runs, and the count after it with its keys. CHECKMULTISIG pushes
    false, and does not fail, when its keys exceed the count. *)
Definition within_limits (t : operation * program * program) : Prop :=
  let '(op, before, after) := t in
  stacks after <= max_stack_size /\
  operation_count before + counted [op] <= max_counted_ops /\
  operation_count after = operation_count before + counted [op] + keys_counted op before /\
  (code op <> opcode.checkmultisig -> operation_count after <= max_counted_ops).

Lemma run_op_count op position p q :
  run_op op position p = (error.success, q) -> code op <> opcode.checkmultisig ->
  operation_count p <= max_counted_ops -> operation_count q <= max_counted_ops.
Proof.
  intros Hr Hm Hp. destruct (decide (code op = opcode.checkmultisigverify)) as [E|E].
  - unfold run_op in Hr. cbv zeta in Hr. rewrite E in Hr. exact (check_multisig_verify_count p q Hr).
  - pose proof (run_op_step op position p) as (_ & _ & Ho). rewrite Hr in Ho. simpl in Ho.
    unfold keys_run, is_multisig in Ho.
    rewrite (proj2 (Z.eqb_neq _ _) Hm), (proj2 (Z.eqb_neq _ _) E) in Ho. simpl in Ho. lia.
Qed.

(** A turn of the loop that does not fail. *)
Lemma run_loop_turn i op ops p q :
  run_loop i (op :: ops) p = (error.success, q) -> succeeded p = true \/ stacks p <= max_stack_size ->
  is_oversized (op_data op) = false /\ is_disabled (code op) = false /\
  run_loop (S i) ops (turn i op p) = (error.success, q) /\ within_limits (op, p, turn i op p).
Proof.
  cbn [run_loop]. intros Hr Hs. destruct (is_oversized (op_data op)); [done|].
  destruct (is_disabled (code op)); [done|]. unfold within_limits, turn, keys_counted.
  pose proof (increment_operation_count_spec op p) as (_ & [Hn _] & Hp & Ha & Hcount & Hle).
  destruct (increment_operation_count op p) as [[] p1]; [|done]. simpl in *. specialize (Hle eq_refl).
  do 2 (split; [done|]). destruct (if_ op p1) eqn:Eif.
  - pose proof (run_op_step op (Some i) p1) as (_ & _ & Ho). pose proof (run_op_count op (Some i) p1) as Hk.
    destruct (run_op op (Some i) p1) as [ec p2]. simpl in *. case_decide; [|by simplify_eq]. subst ec.
    destruct (is_stack_overflow p2) eqn:Ev; [done|]. unfold is_stack_overflow in Ev. fold (stacks p2) in Ev.
    bool_to_prop. split_and!; [done|done|lia|lia|]. intros Hm. by apply (Hk p2).
  - unfold if_, succeeded in *. apply orb_false_iff in Eif as [_ Eif]. rewrite Hn in Eif.
    destruct Hs as [Hs|Hs]; [congruence|]. split_and!; [done| |lia|lia|lia].
    unfold stacks, size in *. by rewrite Hp, Ha.
Qed.

Lemma run_loop_success i ops p q :
  run_loop i ops p = (error.success, q) -> succeeded p = true \/ stacks p <= max_stack_size ->
  Forall (fun op => is_oversized (op_data op) = false /\ is_disabled (code op) = false) ops /\
  Forall within_limits (turns i ops p) /\
  q = default p (snd <$> last (turns i ops p)) /\ condition q = [].
Proof.
  revert i p. induction ops as [|op ops IH]; intros i p Hr Hs.
  { cbn [run_loop] in Hr. unfold closed in Hr. destruct (condition p) eqn:Ec; simplify_eq.
    split_and!; by try constructor. }
  destruct (run_loop_turn i op ops p q Hr Hs) as (Ho & Hd & Hr' & Hl).
  destruct (IH (S i) _ Hr' ltac:(right; apply Hl)) as (Hf & Hw & -> & Hc).
  split_and!; [by constructor|by constructor| |done].
  cbn [turns]. rewrite last_cons. by destruct (last (turns (S i) ops (turn i op p))).
Qed.

Lemma keys_counted_nonneg op p : 0 <= keys_counted op p.
Proof.
  unfold keys_counted, keys_run, keys_of. repeat case_match; try lia.
Qed.

(** The operations of the turns are counted one by one. *)
Lemma turns_counted i ops p :
  Forall within_limits (turns i ops p) -> 0 <= operation_count p <= max_counted_ops ->
  operation_count p + counted ops <= max_counted_ops.
Proof.
  revert i p. induction ops as [|op ops IH]; intros i p Hw Hp; [change (counted []) with 0; lia|].
  cbn [turns] in Hw. apply Forall_cons in Hw as [Hl Hw].
  rewrite counted_cons. destruct Hl as (_ & Hb & Ha & _).
  pose proof (keys_counted_nonneg op p). destruct ops as [|op' ops]; [change (counted []) with 0; lia|].
  assert (0 <= counted [op] /\ 0 <= counted [op']) by (unfold counted, zlen; lia).
  assert (Hle : operation_count (turn i op p) <= max_counted_ops).
  { cbn [turns] in Hw. apply Forall_cons in Hw as [(_ & Hb' & _) _]. lia. }
  specialize (IH (S i) _ Hw ltac:(lia)). lia.
Qed.

(** C6: A script that evaluates with success, from a program without a false
    condition and with a count of zero, as every constructor leaves it, has
    only valid operations, fits the script size limit, has no disabled
    operation and no oversized push; it ends with every conditional closed, in
    the state after its last operation. After each operation the two stacks
    together are within their limit, whatever was on them at the start; before
    each operation runs the count is within its limit; and each operation adds
    to the count itself, if it is one that is counted, and the public keys of
    a multisignature operation that runs, which stay within the limit too, but
    for CHECKMULTISIG, which pushes false instead of failing. *)
Theorem evaluate_success p q :
  evaluate p = (error.success, q) -> negative_count p = 0 -> operation_count p = 0 ->
  let ops := operations (p_script p) in
  is_valid_operations (p_script p) = true /\
  script_serialized_size false (p_script p) <= max_script_size /\
  Forall (fun op => is_oversized (op_data op) = false /\ is_disabled (code op) = false) ops /\
  counted ops <= max_counted_ops /\
  Forall within_limits (turns 0 ops p) /\
  q = default p (snd <$> last (turns 0 ops p)) /\ condition q = [].
Proof.
  intros He Hn Ho ops. unfold evaluate in He. destruct (program_is_valid p) eqn:Ev; [|done].
  unfold program_is_valid in Ev. bool_to_prop. cbn [negb] in He.
  assert (Hi : succeeded p = true) by (unfold succeeded; by rewrite Hn).
  destruct (run_loop_success 0 _ p q He (or_introl Hi)) as (Hf & Hw & Hq & Hcond).
  split; [done|]. split.
  { match goal with H : is_unspendable _ = false |- _ => unfold is_unspendable in H end.
    destruct (operations (p_script p)); bool_to_prop; done. }
  split_and!; try done. pose proof (turns_counted 0 ops p Hw) as Hc. unfold max_counted_ops in *. lia.
Qed.
End Conditionals.

(** ** Multisignature *)

Section Multisig.
Context `{Currency} `{Crypto} `{Ecdsa}.

(** Signatures are matched to keys in order; the same key may serve several
    consecutive signatures. *)
Inductive signed_by (p : program) (script_code : script) : list (list Z) -> list (list Z) -> Prop :=
| signed_nil keys : signed_by p script_code [] keys
| signed_match e es key keys signed :
    parse_signed p e = inr signed -> check_key p script_code signed key = true ->
    signed_by p script_code es (key :: keys) -> signed_by p script_code (e :: es) (key :: keys)
| signed_skip es key keys :
    signed_by p script_code es keys -> signed_by p script_code es (key :: keys).

(** More keys in front never hurt. *)
Lemma signed_by_app p sc es front keys :
  signed_by p sc es keys -> signed_by p sc es (front ++ keys).
Proof. intros Hs. induction front as [|k front IH]; simpl; [done|]. by constructor. Qed.

Lemma find_key_suffix p sc signed keys found :
  find_key p sc signed keys = Some found ->
  exists front key rest, keys = front ++ key :: rest /\ found = key :: rest /\
    check_key p sc signed key = true /\ Forall (fun k => check_key p sc signed k = false) front.
Proof.
  induction keys as [|k keys IH]; simpl; [done|]. destruct (check_key p sc signed k) eqn:E; intros Hf.
  - simplify_eq. exists [], k, keys. by split_and!.
  - destruct (IH Hf) as (front & key & rest & -> & -> & Hk & Hfr).
    exists (k :: front), key, rest. split_and!; try done. by constructor.
Qed.

(** If signatures are covered from a suffix, they are from the greedy one. *)
Lemma signed_by_first p sc e es keys signed :
  parse_signed p e = inr signed -> signed_by p sc (e :: es) keys ->
  exists found, find_key p sc signed keys = Some found /\ signed_by p sc es found.
Proof.
  intros Hp Hs. remember (e :: es) as l eqn:El. revert e es Hp El.
  induction Hs as [keys|e' es' key keys signed' Hp' Hk Hs IH|es' key keys Hs IH]; intros e es Hp El;
    simplify_eq; simpl.
  - rewrite Hp in Hp'. simplify_eq. rewrite Hk. by eexists.
  - destruct (IH e es Hp eq_refl) as (found & Hf & Hes). destruct (check_key p sc signed key).
    + eexists. split; [done|]. constructor. apply find_key_suffix in Hf as (front & k & rest & -> & -> & _).
      by apply signed_by_app.
    + by exists found.
Qed.

Lemma multisig_loop_spec p sc es keys :
  multisig_loop p sc es keys = error.success <-> signed_by p sc es keys.
Proof.
  revert keys. induction es as [|e es IH]; intros keys; simpl; [split; [constructor|done]|].
  destruct (parse_signed p e) as [ec|signed] eqn:Ep.
  - split.
    + intros ->. exfalso. unfold parse_signed in Ep. repeat case_match; simplify_eq.
    + intros Hs. exfalso. remember (e :: es) as l eqn:El. induction Hs as [|? ? ? ? ? Hp|? ? ? ? IHs]; simplify_eq; congruence.
  - destruct (find_key p sc signed keys) as [found|] eqn:Ef.
    + rewrite IH. split.
      * intros Hs. apply find_key_suffix in Ef as (front & k & rest & -> & -> & Hk & _).
        apply signed_by_app. by econstructor.
      * intros Hs. destruct (signed_by_first p sc e es keys signed Ep Hs) as (found' & Hf & Hes).
        congruence.
    + split; [done|]. intros Hs.
      destruct (signed_by_first p sc e es keys signed Ep Hs) as (found' & Hf & _). congruence.
Qed.

Lemma pop_int32_some p n p' :
  pop_int32 p = (Some n, p') <->
  exists x l, primary p = x :: l /\ number.int32 <$> number.set_data x max_number_size = Some n /\
    p' = set_primary l p.
Proof.
  unfold pop_int32, pop_number, is_empty, pop. destruct (primary p) as [|x l].
  - split; [done|]. by intros (? & ? & ? & _).
  - change (zlen (x :: l) =? 0) with (Z.of_nat (S (length l)) =? 0).
    destruct (Z.eqb_spec (Z.of_nat (S (length l))) 0); [lia|].
    split; [intros E; simplify_eq; by exists x, l|].
    intros (x' & l' & E & Hn & ->). simplify_eq. by rewrite Hn.
Qed.

Lemma pop_section_some n p items p' :
  0 <= n ->
  pop_section n p = (Some items, p') <->
  exists rest, primary p = items ++ rest /\ zlen items = n /\ p' = set_primary rest p.
Proof.
  intros Hn. unfold pop_section, size. split.
  - destruct (Z.ltb_spec (zlen (primary p)) n); [done|]. intros E. simplify_eq.
    exists (drop (Z.to_nat n) (primary p)). split; [by rewrite take_drop|]. split; [|done].
    unfold zlen in *. rewrite length_take. lia.
  - intros (rest & E & Hl & ->). rewrite E. unfold zlen in *. rewrite length_app.
    destruct (Z.ltb_spec (Z.of_nat (length items + length rest)) n); [lia|].
    replace (Z.to_nat n) with (length items) by lia. by rewrite take_app_length, drop_app_length.
Qed.

Lemma increment_key_count_true n p p' :
  increment_key_count n p = (true, p') <->
  0 <= n <= max_script_public_keys /\ operation_count p + n <= max_counted_ops /\
  p' = set_operation_count (operation_count p + n) p.
Proof.
  unfold increment_key_count, operation_overflow. rewrite !Z.gtb_ltb.
  destruct (Z.ltb_spec n 0); [split; [done|intros (? & _); lia]|].
  destruct (Z.ltb_spec max_script_public_keys n); [split; [done|intros (? & _); lia]|]. simpl.
  destruct (Z.ltb_spec max_counted_ops (operation_count p + n)); simpl.
  - split; [done|intros (_ & ? & _); lia].
  - split; [intros E; by simplify_eq|]. by intros (_ & _ & ->).
Qed.

(** The operands of the operation, top first: the number of keys, the keys, the
    number of endorsements, the endorsements and the element the operation
    discards; [q] is what remains, with the keys counted as operations. *)
Definition multisig_operands (p q : program) (keys endorsements : list (list Z)) : Prop :=
  exists key_count signature_count dummy rest,
    primary p = key_count :: keys ++ signature_count :: endorsements ++ dummy :: rest /\
    number.int32 <$> number.set_data key_count max_number_size = Some (zlen keys) /\
    number.int32 <$> number.set_data signature_count max_number_size = Some (zlen endorsements) /\
    zlen endorsements <= zlen keys <= max_script_public_keys /\
    operation_count p + zlen keys <= max_counted_ops /\
    (rule_fork.is_enabled (p_forks p) rule_fork.bip147_rule = true -> dummy = []) /\
    q = set_primary rest (set_operation_count (operation_count p + zlen keys) p).

Lemma multisig_operands_found p q keys es :
  multisig_operands p q keys es ->
  op_check_multisig_verify p = (multisig_loop q (script_code_of q es) es keys, q).
Proof.
  intros (kc & sc & dummy & rest & Hp & Hk & Hs & Hle & Hops & Hd & ->).
  unfold op_check_multisig_verify.
  rewrite (proj2 (pop_int32_some p (zlen keys) _)) by (eexists _, _; split; [exact Hp|done]).
  cbv iota beta. rewrite (proj2 (increment_key_count_true (zlen keys) _ _))
    by (split; [pose proof (Zle_0_nat (length keys)); unfold zlen in *; lia|done]).
  cbn [negb]. erewrite (proj2 (pop_section_some (zlen keys) _ keys _ ltac:(unfold zlen; lia)))
    by (eexists; split; [reflexivity|done]).
  cbv iota beta. erewrite (proj2 (pop_int32_some _ (zlen es) _))
    by (eexists _, _; split; [reflexivity|done]).
  cbv iota beta. rewrite Z.gtb_ltb.
  destruct (Z.ltb_spec (zlen es) 0); [unfold zlen in *; lia|].
  destruct (Z.ltb_spec (zlen keys) (zlen es)); [lia|]. cbn [orb].
  erewrite (proj2 (pop_section_some (zlen es) _ es _ ltac:(lia))) by (eexists; split; [reflexivity|done]).
  cbv iota beta. unfold is_empty, pop. cbn [primary set_primary].
  change (zlen (dummy :: rest) =? 0) with (Z.of_nat (S (length rest)) =? 0).
  destruct (Z.eqb_spec (Z.of_nat (S (length rest))) 0); [lia|].
  match goal with |- context [p_forks ?x] => change (p_forks x) with (p_forks p) end.
  destruct (rule_fork.is_enabled (p_forks p) rule_fork.bip147_rule); [by rewrite (Hd eq_refl)|].
  by rewrite andb_false_r.
Qed.

Lemma multisig_operands_of p q :
  op_check_multisig_verify p = (error.success, q) -> exists keys es, multisig_operands p q keys es.
Proof.
  unfold op_check_multisig_verify. intros Hv.
  destruct (pop_int32 p) as [[n|] p1] eqn:E1; [|by simplify_eq].
  apply pop_int32_some in E1 as (kc & l1 & Hp & Hk & ->).
  destruct (increment_key_count _ _) as [[] p2] eqn:E2; cbn [negb] in Hv; [|by simplify_eq].
  apply increment_key_count_true in E2 as (Hn & Hops & ->).
  destruct (pop_section _ _) as [[keys|] p3] eqn:E3; [|by simplify_eq].
  apply pop_section_some in E3 as (l2 & Hl1 & Hkeys & ->); [|lia].
  destruct (pop_int32 _) as [[m|] p4] eqn:E4; [|by simplify_eq].
  apply pop_int32_some in E4 as (sc & l3 & Hl2 & Hs & ->).
  rewrite Z.gtb_ltb in Hv. destruct (Z.ltb_spec m 0); [by simplify_eq|].
  destruct (Z.ltb_spec n m); cbn [orb] in Hv; [by simplify_eq|].
  destruct (pop_section _ _) as [[es|] p5] eqn:E5; [|by simplify_eq].
  apply pop_section_some in E5 as (l4 & Hl3 & Hes & ->); [|lia]. simpl in Hl1, Hl2, Hl3.
  unfold is_empty, pop in Hv. cbn [primary set_primary] in Hv.
  destruct l4 as [|dummy rest]; [by simplify_eq|].
  change (zlen (dummy :: rest) =? 0) with (Z.of_nat (S (length rest)) =? 0) in Hv.
  destruct (Z.eqb_spec (Z.of_nat (S (length rest))) 0); [lia|].
  match type of Hv with context [p_forks ?x] => change (p_forks x) with (p_forks p) in Hv end.
  destruct (negb (zlen dummy =? 0) && _) eqn:Ed; simplify_eq.
  exists keys, es, kc, sc, dummy, rest. subst. split_and!; try done; try lia.
  intros Hb. rewrite Hb, andb_true_r in Ed. apply negb_false_iff, Z.eqb_eq in Ed.
  by destruct dummy.
Qed.

(** C5: CHECKMULTISIGVERIFY accepts exactly the stacks that hold its operands
    within their limits and whose endorsements, in order, each verify with one
    of the keys, in order; it leaves what was below the operands. *)
Theorem check_multisig_accepts p q :
  op_check_multisig_verify p = (error.success, q) <->
  exists keys endorsements, multisig_operands p q keys endorsements /\
    signed_by q (script_code_of q endorsements) endorsements keys.
Proof.
  split.
  - intros Hv. destruct (multisig_operands_of p q Hv) as (keys & es & Ho). exists keys, es.
    split; [done|]. rewrite (multisig_operands_found p q keys es Ho) in Hv. simplify_eq.
    by apply multisig_loop_spec.
  - intros (keys & es & Ho & Hs). rewrite (multisig_operands_found p q keys es Ho).
    by apply multisig_loop_spec in Hs as ->.
Qed.
End Multisig.

(** ** Lock times *)

Section Locktime.
Context `{Currency}.

(** When CHECKLOCKTIMEVERIFY is active it succeeds, and then leaves the
    program as it was, exactly if the input is not final, the operand is a
    non-negative number of at most five bytes, it does not exceed the lock
    time of the transaction, and both are heights or both are times. *)
Lemma check_locktime_success p :
  rule_fork.is_enabled (p_forks p) rule_fork.bip65_rule = true ->
  op_check_locktime_verify p = (error.success, p) <->
  exists i stack, inputs (p_transaction p) !! p_input_index p = Some i /\
    sequence i <> max_input_sequence /\
    top max_check_locktime_verify_number_size p = Some stack /\ 0 <= stack /\
    u64 stack <= tx_locktime (p_transaction p) /\
    (u64 stack < locktime_threshold <-> tx_locktime (p_transaction p) < locktime_threshold).
Proof.
  intros Hf. unfold op_check_locktime_verify. rewrite Hf. cbn [negb].
  destruct (inputs (p_transaction p) !! p_input_index p) as [i|]; [|split; [done|by intros (?&?&?&_)]].
  unfold is_final_input. destruct (Z.eqb_spec (sequence i) max_input_sequence) as [E|E].
  { split; [done|]. intros (?&?&?&?&_). by simplify_eq. }
  destruct (top _ p) as [stack|]; [|split; [done|by intros (?&?&?&?&?&_)]].
  transitivity (0 <= stack /\ u64 stack <= tx_locktime (p_transaction p) /\
    (u64 stack < locktime_threshold <-> tx_locktime (p_transaction p) < locktime_threshold)).
  2:{ split; [intros; exists i, stack; tauto|]. intros (?&?&?&?&?&?&?&?). simplify_eq. tauto. }
  destruct (Z.ltb_spec stack 0); [split; [done|lia]|]. rewrite Z.gtb_ltb.
  destruct (Z.ltb_spec (u64 stack) locktime_threshold),
    (Z.ltb_spec (tx_locktime (p_transaction p)) locktime_threshold),
    (Z.ltb_spec (tx_locktime (p_transaction p)) (u64 stack)); simpl;
    (split; [intros; simplify_eq; by split_and!; try lia|intros; (done || lia)]).
Qed.

(** When CHECKSEQUENCEVERIFY is active it succeeds, and then leaves the
    program as it was, exactly if the operand is a non-negative number of at
    most five bytes that either disables the check or is of the same type as
    the sequence of the input and does not exceed it, in a transaction of
    version two or above whose input does not disable relative lock times. *)
Lemma check_sequence_success p :
  rule_fork.is_enabled (p_forks p) rule_fork.bip112_rule = true ->
  op_check_sequence_verify p = (error.success, p) <->
  exists i stack, inputs (p_transaction p) !! p_input_index p = Some i /\
    top max_check_sequence_verify_number_size p = Some stack /\ 0 <= stack /\
    (Z.land (u64 stack) relative_locktime_disabled <> 0 \/
     relative_locktime_min_version <= tx_version (p_transaction p) /\
     Z.land (sequence i) relative_locktime_disabled = 0 /\
     Z.land (u64 stack) relative_locktime_time_locked =
       Z.land (sequence i) relative_locktime_time_locked /\
     Z.land (u64 stack) relative_locktime_mask <= Z.land (sequence i) relative_locktime_mask).
Proof.
  intros Hf. unfold op_check_sequence_verify. rewrite Hf. cbn [negb].
  destruct (inputs (p_transaction p) !! p_input_index p) as [i|]; [|split; [done|by intros (?&?&?&_)]].
  destruct (top _ p) as [stack|]; [|split; [done|by intros (?&?&?&?&_)]].
  transitivity (0 <= stack /\
    (Z.land (u64 stack) relative_locktime_disabled <> 0 \/
     relative_locktime_min_version <= tx_version (p_transaction p) /\
     Z.land (sequence i) relative_locktime_disabled = 0 /\
     Z.land (u64 stack) relative_locktime_time_locked =
       Z.land (sequence i) relative_locktime_time_locked /\
     Z.land (u64 stack) relative_locktime_mask <= Z.land (sequence i) relative_locktime_mask)).
  2:{ split; [intros; exists i, stack; tauto|]. intros (?&?&?&?&?&?). simplify_eq. tauto. }
  destruct (Z.ltb_spec stack 0); [split; [done|lia]|].
  destruct (Z.eqb_spec (Z.land (u64 stack) relative_locktime_disabled) 0) as [E|E]; cbn [negb];
    [|by split; [split; [lia|by left]|]].
  destruct (Z.ltb_spec (tx_version (p_transaction p)) relative_locktime_min_version);
    [split; [done|lia]|].
  destruct (Z.eqb_spec (Z.land (sequence i) relative_locktime_disabled) 0); cbn [negb];
    [|split; [done|lia]].
  destruct (Z.eqb_spec (Z.land (u64 stack) relative_locktime_time_locked)
              (Z.land (sequence i) relative_locktime_time_locked)); cbn [negb]; [|split; [done|lia]].
  rewrite Z.gtb_ltb. destruct (Z.ltb_spec (Z.land (sequence i) relative_locktime_mask)
    (Z.land (u64 stack) relative_locktime_mask)); [split; [done|lia]|].
  split; [intros _; split; [lia|right; by split_and!]|done].
Qed.

(** C32: When it is active, CHECKLOCKTIMEVERIFY succeeds, and then leaves the
    program as it was, exactly if the input is not final and the operand is a
    non-negative number of at most five bytes, of the kind of the lock time of
    the transaction and not above it; CHECKSEQUENCEVERIFY exactly if the
    operand is such a number that disables the check or is of the type of the
    sequence of the input and not above it, in a transaction of version two or
    more whose input does not disable relative lock times. *)
Theorem lock_time_checks p q :
  rule_fork.is_enabled (p_forks p) rule_fork.bip65_rule = true ->
  rule_fork.is_enabled (p_forks q) rule_fork.bip112_rule = true ->
  (op_check_locktime_verify p = (error.success, p) <->
   exists i stack, inputs (p_transaction p) !! p_input_index p = Some i /\
     sequence i <> max_input_sequence /\
     top max_check_locktime_verify_number_size p = Some stack /\ 0 <= stack /\
     u64 stack <= tx_locktime (p_transaction p) /\
     (u64 stack < locktime_threshold <-> tx_locktime (p_transaction p) < locktime_threshold)) /\
  (op_check_sequence_verify q = (error.success, q) <->
   exists i stack, inputs (p_transaction q) !! p_input_index q = Some i /\
     top max_check_sequence_verify_number_size q = Some stack /\ 0 <= stack /\
     (Z.land (u64 stack) relative_locktime_disabled <> 0 \/
      relative_locktime_min_version <= tx_version (p_transaction q) /\
      Z.land (sequence i) relative_locktime_disabled = 0 /\
      Z.land (u64 stack) relative_locktime_time_locked =
        Z.land (sequence i) relative_locktime_time_locked /\
      Z.land (u64 stack) relative_locktime_mask <= Z.land (sequence i) relative_locktime_mask)).
Proof. intros Hp Hq. split; [by apply check_locktime_success|by apply check_sequence_success]. Qed.
End Locktime.

(** ** Standard spends *)

Section Standard.
Context `{Currency} `{Crypto} `{Ecdsa}.

(** A turn whose operation is [op], the conditions being satisfied. *)
Lemma run_loop_op i op ops p ec q :
  let p1 := snd (increment_operation_count op p) in
  is_oversized (op_data op) = false -> is_disabled (code op) = false ->
  operation_count p + 1 <= max_counted_ops -> succeeded p = true ->
  run_op op (Some i) p1 = (ec, q) -> stacks q <= max_stack_size ->
  run_loop i (op :: ops) p =
    if decide (ec = error.success) then run_loop (S i) ops q else (ec, q).
Proof.
  intros p1 Ho Hd Hc Hs Hr Hq. cbn [run_loop]. rewrite Ho, Hd.
  assert (Hi : increment_operation_count op p = (true, p1)).
  { unfold p1, increment_operation_count, operation_overflow. simpl.
    destruct (is_counted (code op)); simpl; f_equal; apply negb_true_iff; rewrite Z.gtb_ltb;
      apply Z.ltb_ge; lia. }
  rewrite Hi. cbn [negb]. unfold if_.
  assert (Hs1 : succeeded p1 = true).
  { unfold p1, increment_operation_count. simpl. by destruct (is_counted (code op)). }
  rewrite Hs1, orb_true_r, Hr. case_decide; [|done].
  unfold is_stack_overflow. fold (stacks q). rewrite Z.gtb_ltb.
  by destruct (Z.ltb_spec max_stack_size (stacks q)); [lia|].
Qed.

Lemma op_of_hash h :
  zlen h = 20 -> op_of_data h true = mk_operation 20 h true.
Proof.
  intros Hz. unfold op_of_data, is_oversized, opcode_from_data, minimal_opcode_from_data. rewrite Hz. done.
Qed.

(** A script of the pattern, with its operations kept or parsed anew. *)
Definition key_hash_script (s : script) (h : list Z) : Prop :=
  operations s = to_pay_key_hash_pattern h /\ bytes s = operations_to_data (to_pay_key_hash_pattern h).

Section KeyHash.
Variables (s : script) (h : list Z).
Hypothesis Hs : key_hash_script s h.
Hypothesis Hz : zlen h = 20.


Lemma key_hash_valid p : p_script p = s -> program_is_valid p = true.
Proof.
  intros Hp. unfold program_is_valid, is_valid_operations, is_unspendable, script_serialized_size.
  destruct Hs as [Ho Hb]. rewrite Hp, Ho, Hb. unfold to_pay_key_hash_pattern. rewrite op_of_hash by done.
  simpl List.last. cbn [op_valid code].
  unfold operations_to_data, operation_to_data. simpl. unfold zlen, write_bytes in *. simpl.
  rewrite length_app. simpl. rewrite Z.gtb_ltb. apply negb_true_iff, Z.ltb_ge.
  unfold max_script_size. lia.
Qed.

(** The states of the run: the count of operations and the stack vary. *)
Definition key_hash_state (count : Z) (l : list (list Z)) (p : program) : program :=
  mk_program s (p_transaction p) (p_input_index p) (p_forks p) (p_value p)
    (p_version p) 0 count 0 l [] [].

Definition key_hash (key : list Z) : list Z := ripemd160_hash (sha256_hash key).

Lemma key_hash_step i op ops count l count' l' p :
  is_oversized (op_data op) = false -> is_disabled (code op) = false -> count <= 200 ->
  snd (increment_operation_count op (key_hash_state count l p)) = key_hash_state count' l p ->
  run_op op (Some i) (key_hash_state count' l p) = ok (key_hash_state count' l' p) ->
  zlen l' <= max_stack_size ->
  run_loop i (op :: ops) (key_hash_state count l p) = run_loop (S i) ops (key_hash_state count' l' p).
Proof.
  intros Ho Hd Hc Hi Hr Hl. erewrite run_loop_op; [|done|done|simpl; unfold max_counted_ops; lia|done| |].
  - apply decide_True. reflexivity.
  - rewrite Hi. exact Hr.
  - unfold stacks, size. simpl. change (zlen []) with 0. lia.
Qed.

(** Up to the comparison of the hashes. *)
Lemma key_hash_prefix key e rest p :
  zlen rest <= 996 ->
  evaluate (key_hash_state 0 (key :: e :: rest) p) =
  run_loop 3 [op_of_code opcode.equalverify; op_of_code opcode.checksig]
    (key_hash_state 2 (h :: key_hash key :: key :: e :: rest) p).
Proof.
  intros Hr. unfold evaluate. rewrite key_hash_valid by done. cbn [negb].
  change (p_script _) with s. destruct Hs as [Ho Hb]. rewrite Ho.
  unfold to_pay_key_hash_pattern. rewrite op_of_hash by done.
  assert (Hst : forall l : list (list Z), zlen l <= 4 -> zlen (l ++ rest) <= max_stack_size)
    by (intros l Hl; rewrite zlen_app; unfold max_stack_size; lia).
  rewrite (key_hash_step 0 _ _ 0 _ 1 (key :: key :: e :: rest));
    [|done..|apply (Hst [_; _; _]); by vm_compute].
  rewrite (key_hash_step 1 _ _ 1 _ 2 (key_hash key :: key :: e :: rest));
    [|done..|apply (Hst [_; _; _]); by vm_compute].
  rewrite (key_hash_step 2 _ _ 2 _ 2 (h :: key_hash key :: key :: e :: rest));
    [done|unfold is_oversized; simpl; by rewrite Hz|done..|
     |apply (Hst [_; _; _; _]); by vm_compute].
  unfold run_op, op_push_size. simpl. by rewrite Hz.
Qed.

Lemma key_hash_equal_verify key e rest p :
  op_equal_verify (key_hash_state 3 (h :: key_hash key :: key :: e :: rest) p) =
  (if bool_decide (h = key_hash key) then error.success else error.op_equal_verify2,
   key_hash_state 3 (key :: e :: rest) p).
Proof.
  unfold op_equal_verify. rewrite (proj2 (Z.ltb_ge _ _)) by (unfold size, zlen; simpl; lia).
  simpl. by destruct (bool_decide _).
Qed.

Lemma key_hash_mismatch key e rest p :
  zlen rest <= 996 -> h <> key_hash key ->
  fst (evaluate (key_hash_state 0 (key :: e :: rest) p)) = error.op_equal_verify2.
Proof.
  intros Hr Hh. rewrite key_hash_prefix by done.
  erewrite (run_loop_op 3 _ _ _ error.op_equal_verify2 (key_hash_state 3 (key :: e :: rest) p));
    [done|done|done|done|done| |].
  - change (run_op _ _ _) with
      (op_equal_verify (key_hash_state 3 (h :: key_hash key :: key :: e :: rest) p)).
    by rewrite key_hash_equal_verify, bool_decide_eq_false_2.
  - unfold stacks, size, max_stack_size, zlen in *. simpl. lia.
Qed.

Lemma key_hash_match key e rest p :
  zlen rest <= 996 -> h = key_hash key ->
  evaluate (key_hash_state 0 (key :: e :: rest) p) =
  op_check_sig (key_hash_state 4 (key :: e :: rest) p).
Proof.
  intros Hr Hh. rewrite key_hash_prefix by done.
  assert (Hst : forall l : list (list Z), zlen l <= 4 -> zlen (l ++ rest) <= max_stack_size)
    by (intros l Hl; rewrite zlen_app; unfold max_stack_size; lia).
  rewrite (key_hash_step 3 _ _ 2 _ 3 (key :: e :: rest));
    [|done..| |apply (Hst [_; _]); by vm_compute].
  2:{ change (run_op _ _ _) with
        (op_equal_verify (key_hash_state 3 (h :: key_hash key :: key :: e :: rest) p)).
      rewrite key_hash_equal_verify, bool_decide_eq_true_2 by done. done. }
  cbn [run_loop]. change (is_oversized _) with false. change (is_disabled _) with false.
  change (increment_operation_count _ _) with (true, key_hash_state 4 (key :: e :: rest) p).
  cbn [negb]. change (if_ _ _) with true. cbv iota.
  change (run_op _ _ _) with (op_check_sig (key_hash_state 4 (key :: e :: rest) p)).
  set (r := op_check_sig (key_hash_state 4 (key :: e :: rest) p)).
  assert (Hq : condition (snd r) = [] /\ stacks (snd r) <= max_stack_size).
  { unfold r, op_check_sig, op_check_sig_verify.
    rewrite (proj2 (Z.ltb_ge _ _)) by (unfold size, zlen; simpl; lia). simpl.
    destruct (parse_signed _ e); simpl; case_decide; simpl; (split; [done|]);
      unfold stacks, size, max_stack_size; simpl; unfold zlen in *; simpl in *; lia. }
  destruct r as [ec q]. destruct Hq as [Hc Hst']. simpl in Hc, Hst'.
  case_decide as Hec; [rewrite Hec|done]. unfold is_stack_overflow. fold (stacks q). rewrite Z.gtb_ltb.
  destruct (Z.ltb_spec max_stack_size (stacks q)); [lia|]. unfold closed. by rewrite Hc.
Qed.

Lemma op_check_sig_signing key e rest p :
  let signing := key_hash_state 4 rest p in
  op_check_sig (key_hash_state 4 (key :: e :: rest) p) =
  match parse_signed signing e with
  | inl ec =>
      if decide (ec = error.invalid_signature_lax_encoding) then (error.op_check_sig, signing)
      else ok (push (bool_decide (ec = error.success)) signing)
  | inr signed => ok (push (check_key signing (script_code_of signing [e]) signed key) signing)
  end.
Proof.
  intros signing. unfold op_check_sig, op_check_sig_verify.
  rewrite (proj2 (Z.ltb_ge _ _)) by (unfold size, zlen; simpl; lia).
  change (pop (key_hash_state 4 (key :: e :: rest) p)) with (key, key_hash_state 4 (e :: rest) p).
  cbv iota beta. change (pop (key_hash_state 4 (e :: rest) p)) with (e, signing). cbv iota beta.
  destruct (parse_signed signing e); [done|]. by destruct (check_key _ _ _ _).
Qed.

Lemma parse_signed_error p e ec : parse_signed p e = inl ec -> ec <> error.success.
Proof. unfold parse_signed. intros Hp. repeat case_match; simplify_eq; done. Qed.
End KeyHash.

(** C4: The pay to key hash script, run with a key over an endorsement on the
    stack, leaves true exactly when the key hashes to the committed hash and
    the endorsement parses to a signature that the key verifies over the hash
    of the transaction. *)
Theorem key_hash_spend s h key e rest p :
  key_hash_script s h -> zlen h = 20 -> zlen rest <= 996 ->
  let start := key_hash_state s 0 (key :: e :: rest) p in
  let signing := key_hash_state s 4 rest p in
  (exists q, evaluate start = (error.success, q) /\ stack_result false q = true) <->
  h = key_hash key /\
  exists signed, parse_signed signing e = inr signed /\
    check_key signing (script_code_of signing [e]) signed key = true.
Proof.
  intros Hs Hz Hr start signing. destruct (decide (h = key_hash key)) as [Hh|Hh].
  2:{ pose proof (key_hash_mismatch s h Hs Hz key e rest p Hr Hh) as Hm. fold start in Hm.
      split; [|by intros [? _]]. intros (q & Hq & _). by rewrite Hq in Hm. }
  unfold start. rewrite (key_hash_match s h), op_check_sig_signing by done. fold signing.
  destruct (parse_signed signing e) as [ec|signed] eqn:Ep.
  - apply parse_signed_error in Ep. rewrite bool_decide_eq_false_2 by done.
    split; [|by intros (_ & sg & ? & _)]. intros (q & Hq & Hres). case_decide; [done|].
    unfold ok in Hq. by simplify_eq.
  - split.
    + intros (q & Hq & Hres). unfold ok in Hq. simplify_eq. split; [done|]. exists signed. split; [done|].
      by destruct (check_key _ _ _ _).
    + intros (_ & sg & Hsg & Hks). apply (inj inr) in Hsg. subst sg. rewrite Hks. by eexists.
Qed.
End Standard.

(** ** Verified inputs *)

Section Verified.
Context `{Currency} `{Crypto} `{Ecdsa}.

(** A script that runs to the end and leaves a true value, and the program it leaves. *)
Definition leaves_true (p q : program) : Prop :=
  evaluate p = (error.success, q) /\ stack_result false q = true.

(** The embedded script of a pay-to-script-hash spend accepts what the input
    script left below it; a witness program also needs the input script to be
    that one push. *)
Definition embedded_accepts (tx : transaction) (input_index : nat) (forks : Z) (input_script : script)
    (input_witness : witness) (value : Z) (inp : program) : Prop :=
  is_relaxed_push_only (operations input_script) = true /\
  let '(top, rest) := pop inp in
  let redeem := script_of_bytes top in
  (exists q, leaves_true (next_program redeem rest) q) /\
  if is_pay_to_witness forks redeem then
    length (operations input_script) = 1%nat /\
    witness_verify input_witness tx input_index forks redeem value = error.success
  else witness_is_empty input_witness = true.

(** What [script::verify] accepts. *)
Definition verified (tx : transaction) (input_index : nat) (forks : Z) (input_script : script)
    (input_witness : witness) (prevout_script : script) (value : Z) : Prop :=
  exists inp prevout,
    evaluate (input_program input_script tx input_index forks) = (error.success, inp) /\
    leaves_true (next_program prevout_script inp) prevout /\
    if is_pay_to_witness forks prevout_script then
      operations input_script = [] /\
      witness_verify input_witness tx input_index forks prevout_script value = error.success
    else if is_pay_to_script_hash forks prevout_script then
      embedded_accepts tx input_index forks input_script input_witness value inp
    else witness_is_empty input_witness = true.

Lemma verify_embedded_success tx i forks s w value inp :
  (exists witnessed, verify_embedded tx i forks s w value inp = (error.success, witnessed) /\
     negb witnessed && negb (witness_is_empty w) = false) <->
  embedded_accepts tx i forks s w value inp.
Proof.
  unfold verify_embedded, embedded_accepts, leaves_true.
  destruct (is_relaxed_push_only (operations s)); cbn [negb]; [|naive_solver].
  destruct (pop inp) as [top rest]. destruct (evaluate _) as [ec q].
  case_decide as Hec; [subst ec|naive_solver].
  destruct (stack_result false q) eqn:Hs; cbn [negb].
  2:{ split; [by intros (? & ? & _); simplify_eq|]. intros (_ & (q' & Hq & Ht) & _). simplify_eq. congruence. }
  destruct (is_pay_to_witness forks (script_of_bytes top)).
  - destruct (Nat.eqb_spec (length (operations s)) 1) as [Hl|Hl]; cbn [negb].
    + split; [intros (? & ? & _); simplify_eq; eauto 6|]. intros (_ & _ & _ & ->). by exists true.
    + split; [by intros (? & ? & _); simplify_eq|]. by intros (_ & _ & ? & _).
  - split; [intros (? & ? & Hw); simplify_eq; simpl in Hw; apply negb_false_iff in Hw; eauto|].
    intros (_ & _ & ->). by exists false.
Qed.

(** The last part of [verify]: the spend of a program, of a script hash, or neither. *)
Lemma verify_program_success tx i forks s w prevout_script value inp :
  (let '(ec, witnessed) :=
     if is_pay_to_witness forks prevout_script then
       if negb (length (operations s) =? 0)%nat then (error.dirty_witness, true)
       else (witness_verify w tx i forks prevout_script value, true)
     else if is_pay_to_script_hash forks prevout_script then
       verify_embedded tx i forks s w value inp
     else (error.success, false) in
   if decide (ec = error.success) then
     if negb witnessed && negb (witness_is_empty w) then error.unexpected_witness else error.success
   else ec) = error.success <->
  if is_pay_to_witness forks prevout_script then
    operations s = [] /\ witness_verify w tx i forks prevout_script value = error.success
  else if is_pay_to_script_hash forks prevout_script then embedded_accepts tx i forks s w value inp
  else witness_is_empty w = true.
Proof.
  destruct (is_pay_to_witness forks prevout_script).
  - rewrite <- length_zero_iff_nil.
    destruct (Nat.eqb_spec (length (operations s)) 0) as [Hl|Hl]; cbn [negb].
    + case_decide; simpl; tauto.
    + case_decide; [done|]. split; [done|by intros [? _]].
  - destruct (is_pay_to_script_hash forks prevout_script).
    + rewrite <- verify_embedded_success. destruct (verify_embedded _ _ _ _ _ _ _) as [ec wd].
      case_decide as Hec; [subst ec|split; [done|by intros (? & ? & _); simplify_eq]].
      destruct (negb wd && negb (witness_is_empty w)) eqn:E; [|split; [by exists wd|done]].
      split; [done|]. intros (? & ? & ?). simplify_eq. congruence.
    + simpl. by destruct (witness_is_empty w).
Qed.

Lemma verify_success tx i forks s w prevout_script value :
  verify tx i forks s w prevout_script value = error.success <->
  verified tx i forks s w prevout_script value.
Proof.
  unfold verify, verified. destruct (evaluate (input_program s tx i forks)) as [ec inp].
  case_decide as Hec; [subst ec|split; [done|by intros (? & ? & ? & _); simplify_eq]].
  destruct (evaluate (next_program prevout_script inp)) as [ec q] eqn:Eq.
  case_decide as Hec; [subst ec|].
  2:{ split; [done|]. intros (? & ? & ? & [Hl _] & _). simplify_eq. congruence. }
  destruct (stack_result false q) eqn:Hs; cbn [negb].
  2:{ split; [done|]. intros (? & ? & ? & [Hl ?] & _). simplify_eq. congruence. }
  rewrite verify_program_success. split.
  - intros Hp. exists inp, q. split; [done|]. by split.
  - intros (inp' & q' & ? & _ & Hp). simplify_eq. exact Hp.
Qed.

(** An input whose spent output is known and whose scripts accept. *)
Definition input_verified (state : chain_state) (tx : transaction) (i : nat) (input : input) : Prop :=
  let prevout := prevout_cache (previous_output input) in
  output_is_valid prevout = true /\
  verified tx i (enabled_forks state) (in_script input) (in_witness input)
    (out_script prevout) (out_value prevout).

Lemma connect_input_success state tx i :
  connect_input state i tx = error.success <->
  exists input, inputs tx !! i = Some input /\
    (is_coinbase tx = true \/ input_verified state tx i input).
Proof.
  unfold connect_input, input_verified, verify_input.
  destruct (inputs tx !! i) as [input|]; [|split; [done|by intros (? & ? & _)]].
  destruct (is_coinbase tx); [split; [by exists input; eauto|done]|].
  destruct (output_is_valid _) eqn:Ho; cbn [negb].
  - rewrite verify_success. split; [intros Hv; exists input; eauto|].
    intros (? & ? & [?|[_ ?]]); by simplify_eq.
  - split; [done|]. intros (? & ? & [?|[? _]]); simplify_eq; congruence.
Qed.

Lemma connect_loop_success state tx n i :
  connect_loop state tx i n = error.success <->
  forall j, (i <= j < i + n)%nat -> connect_input state j tx = error.success.
Proof.
  revert i. induction n as [|n IH]; intros i; cbn [connect_loop]; [split; [lia|done]|].
  case_decide as Hec.
  - rewrite IH. split; intros Hj j Hb; [|apply Hj; lia].
    destruct (decide (j = i)) as [->|]; [done|apply Hj; lia].
  - split; [done|]. intros Hj. apply Hj. lia.
Qed.

Lemma connect_success state tx :
  connect_state state tx = error.success <->
  is_coinbase tx = true \/
  forall i input, inputs tx !! i = Some input -> input_verified state tx i input.
Proof.
  unfold connect_state. rewrite connect_loop_success. split.
  - intros Hall. destruct (is_coinbase tx) eqn:Hc; [by left|right]. intros i input Hi.
    pose proof (lookup_lt_Some _ _ _ Hi). specialize (Hall i ltac:(lia)).
    apply connect_input_success in Hall as (input' & Hi' & [?|?]); [congruence|by simplify_eq].
  - intros Hv j Hj. apply connect_input_success.
    destruct (lookup_lt_is_Some_2 (inputs tx) j) as [input Hi]; [lia|].
    exists input. split; [done|]. destruct Hv; eauto.
Qed.

Lemma connect_transactions_success state txs :
  connect_transactions state txs = error.success <->
  Forall (fun tx => connect_state state tx = error.success) txs.
Proof.
  induction txs as [|tx txs IH]; cbn [connect_transactions]; [split; [constructor|done]|].
  rewrite Forall_cons, <- IH. case_decide; tauto.
Qed.

(** C3: Outside checkpoint coverage a block connects exactly when every input
    of every transaction but the coinbase has a known spent output and is
    verified against it: the input script and the output script run to the end
    and leave true, a witness program or a script hash is satisfied by its own
    rules, and a witness that nothing asked for is refused. *)
Theorem block_connect_success state b :
  is_under_checkpoint state = false ->
  block_connect_state state b = error.success <->
  forall tx i input, In tx (transactions b) -> is_coinbase tx = false ->
    inputs tx !! i = Some input -> input_verified state tx i input.
Proof.
  intros Hu. unfold block_connect_state. rewrite Hu, connect_transactions_success, Forall_forall.
  split.
  - intros Hall tx i input Ht Hc Hi. apply list_elem_of_In, Hall, connect_success in Ht as [?|Ht]; [congruence|eauto].
  - intros Hall tx Ht. apply list_elem_of_In in Ht. apply connect_success.
    destruct (is_coinbase tx) eqn:Hc; [by left|right]. eauto.
Qed.
End Verified.

(** ** Two departures from the consensus rules *)

(** An output that pays to CHECKSIG NOT is spent by an empty input
    script: the missing operands make the signature check fail, the failure is
    pushed as false, and the negation accepts. *)
Lemma check_sig_not_spent_by_nothing `{cur : Currency} `{Crypto} `{Ecdsa} tx i forks value :
  verify tx i forks (script_of_bytes []) (mk_witness [] true) (script_of_bytes [0xac; 0x91]) value =
  error.success.
Proof.
  apply verify_success. destruct cur.
  all: eexists _, _; split; [reflexivity|]; split; [split; reflexivity|].
  all: unfold is_pay_to_witness, is_pay_to_script_hash.
  all: by destruct (rule_fork.is_enabled forks rule_fork.bip141_rule),
    (rule_fork.is_enabled forks rule_fork.bip16_rule).
Qed.

(** One key and one endorsement satisfy any number of required
    signatures: the search for the next endorsement starts again at the key
    that matched. *)
Lemma multisig_key_is_reused `{Currency} `{Crypto} `{Ecdsa} p sc e signed key keys n :
  parse_signed p e = inr signed -> check_key p sc signed key = true ->
  multisig_loop p sc (repeat e n) (key :: keys) = error.success.
Proof.
  intros Hp Hk. apply multisig_loop_spec. induction n as [|n IH]; simpl; [constructor|].
  by apply (signed_match p sc e _ key keys signed).
Qed.
