(* ===== verification/SipHash.v ===== *)
(** SipHash-2-4, [src/math/sip_hash.cpp]: the streaming [sip_hasher], and the
    two specialized functions for a digest, which compact blocks use. The
    streaming hasher is proved to compute the function of its specification,
    [siphash], on the bytes written so far; the specialized functions are proved
    equal to it. *)

From S2P Require Import Prelude Endian.

(** ** The rounds *)

Record sip_state := mk_sip { v0 : Z; v1 : Z; v2 : Z; v3 : Z }.

(** [ROTL(x, b)] on 64 bits. *)
Definition rotl (x b : Z) : Z := Z.lor (u64 (Z.shiftl x b)) (Z.shiftr x (64 - b)).

Definition sip_round (s : sip_state) : sip_state :=
  let '(mk_sip v0 v1 v2 v3) := s in
  let v0 := u64 (v0 + v1) in
  let v1 := rotl v1 13 in
  let v1 := Z.lxor v1 v0 in
  let v0 := rotl v0 32 in
  let v2 := u64 (v2 + v3) in
  let v3 := rotl v3 16 in
  let v3 := Z.lxor v3 v2 in
  let v0 := u64 (v0 + v3) in
  let v3 := rotl v3 21 in
  let v3 := Z.lxor v3 v0 in
  let v2 := u64 (v2 + v1) in
  let v1 := rotl v1 17 in
  let v1 := Z.lxor v1 v2 in
  let v2 := rotl v2 32 in
  mk_sip v0 v1 v2 v3.

Definition xor_v0 (d : Z) (s : sip_state) : sip_state := mk_sip (Z.lxor (v0 s) d) (v1 s) (v2 s) (v3 s).
Definition xor_v2 (d : Z) (s : sip_state) : sip_state := mk_sip (v0 s) (v1 s) (Z.lxor (v2 s) d) (v3 s).
Definition xor_v3 (d : Z) (s : sip_state) : sip_state := mk_sip (v0 s) (v1 s) (v2 s) (Z.lxor (v3 s) d).

(** [v3 ^= d; SIPROUND; SIPROUND; v0 ^= d;] *)
Definition absorb (d : Z) (s : sip_state) : sip_state :=
  xor_v0 d (sip_round (sip_round (xor_v3 d s))).

(** [v2 ^= 0xFF;], four rounds and [return v0 ^ v1 ^ v2 ^ v3;] *)
Definition squeeze (s : sip_state) : Z :=
  let s := xor_v2 0xff s in
  let s := sip_round (sip_round (sip_round (sip_round s))) in
  Z.lxor (Z.lxor (Z.lxor (v0 s) (v1 s)) (v2 s)) (v3 s).

Definition sip_init (k0 k1 : Z) : sip_state :=
  mk_sip (Z.lxor 0x736f6d6570736575 k0) (Z.lxor 0x646f72616e646f6d k1)
    (Z.lxor 0x6c7967656e657261 k0) (Z.lxor 0x7465646279746573 k1).

(** ** [sip_hasher] *)

Record sip_hasher := mk_hasher { sip_v : sip_state; sip_tmp : Z; sip_count : Z }.

Definition new_sip_hasher (k0 k1 : Z) : sip_hasher := mk_hasher (sip_init k0 k1) 0 0.

(** [write(uint64_t data)]; the assertion is [count % 8 == 0]. *)
Definition sip_write_word (data : Z) (h : sip_hasher) : sip_hasher :=
  mk_hasher (absorb data (sip_v h)) (sip_tmp h) (sip_count h + 8).

(** One turn of the loop of [write(data, size)]. *)
Definition sip_write_byte (h : sip_hasher) (b : Z) : sip_hasher :=
  let t := Z.lor (sip_tmp h) (u64 (Z.shiftl b (8 * (sip_count h mod 8)))) in
  let c := sip_count h + 1 in
  if Z.land c 7 =? 0 then mk_hasher (absorb t (sip_v h)) 0 c
  else mk_hasher (sip_v h) t c.

Definition sip_write (data : list Z) (h : sip_hasher) : sip_hasher := fold_left sip_write_byte data h.

Definition sip_finalize (h : sip_hasher) : Z :=
  let t := Z.lor (sip_tmp h) (u64 (Z.shiftl (u64 (sip_count h)) 56)) in
  squeeze (absorb t (sip_v h)).

(** ** The specialized functions *)

(** [get_uint64<i>] *)
Definition get_uint64 (i : nat) (x : list Z) : Z :=
  let ptr k := nth (i * 8 + k) x 0 in
  Z.lor (Z.lor (Z.lor (Z.lor (Z.lor (Z.lor (Z.lor
    (ptr 0%nat) (Z.shiftl (ptr 1%nat) 8)) (Z.shiftl (ptr 2%nat) 16)) (Z.shiftl (ptr 3%nat) 24))
    (Z.shiftl (ptr 4%nat) 32)) (Z.shiftl (ptr 5%nat) 40)) (Z.shiftl (ptr 6%nat) 48))
    (Z.shiftl (ptr 7%nat) 56).

(** The four words; the first is mixed into the initial [v3]. *)
Definition sip_digest (k0 k1 : Z) (val : list Z) : sip_state :=
  let d := get_uint64 0 val in
  let s := mk_sip (Z.lxor 0x736f6d6570736575 k0) (Z.lxor 0x646f72616e646f6d k1)
             (Z.lxor 0x6c7967656e657261 k0) (Z.lxor (Z.lxor 0x7465646279746573 k1) d) in
  let s := xor_v0 d (sip_round (sip_round s)) in
  let s := absorb (get_uint64 1 val) s in
  let s := absorb (get_uint64 2 val) s in
  absorb (get_uint64 3 val) s.

Definition sip_hash_uint256 (k0 k1 : Z) (val : list Z) : Z :=
  squeeze (absorb (u64 (Z.shiftl 4 59)) (sip_digest k0 k1 val)).

Definition sip_hash_uint256_extra (k0 k1 : Z) (val : list Z) (extra : Z) : Z :=
  squeeze (absorb (Z.lor (u64 (Z.shiftl 36 56)) extra) (sip_digest k0 k1 val)).

(** ** The specification

    The words of a message, eight bytes each in little endian order, and the
    bytes that are left. *)
Fixpoint sip_words (m : list Z) : list Z * list Z :=
  match m with
  | b0 :: b1 :: b2 :: b3 :: b4 :: b5 :: b6 :: b7 :: m =>
      let '(ws, rest) := sip_words m in (le_value [b0; b1; b2; b3; b4; b5; b6; b7] :: ws, rest)
  | rest => ([], rest)
  end.

(** SipHash-2-4 of a message: the words, then a word of the bytes that are left
    and of the length modulo 256 in the top byte. *)
Definition siphash (k0 k1 : Z) (m : list Z) : Z :=
  let '(ws, rest) := sip_words m in
  let last := le_value rest + (zlen m mod 256) * 2 ^ 56 in
  squeeze (absorb last (fold_left (fun s w => absorb w s) ws (sip_init k0 k1))).

(** The first message of the test vectors of the algorithm's authors. *)
Example siphash_vector :
  siphash 0x0706050403020100 0x0f0e0d0c0b0a0908 [] = 0x726fdb47dd0e0e31 /\
  siphash 0x0706050403020100 0x0f0e0d0c0b0a0908 (map Z.of_nat (seq 0 15)) = 0xa129ca6149be45e5.
Proof. by vm_compute. Qed.

(** ** The hasher computes the specification *)

Lemma sip_words_split m :
  exists chunks, m = concat chunks ++ snd (sip_words m) /\ Forall (fun c => length c = 8%nat) chunks /\
    fst (sip_words m) = map le_value chunks /\ (length (snd (sip_words m)) < 8)%nat.
Proof.
  induction m as [m IH] using (well_founded_induction (Wf_nat.well_founded_ltof _ (@length Z))).
  unfold Wf_nat.ltof in IH.
  destruct m as [|b0 [|b1 [|b2 [|b3 [|b4 [|b5 [|b6 [|b7 m]]]]]]]];
    try (exists []; simpl; split_and!; try done; lia).
  destruct (IH m) as (chunks & E & Hc & Ew & Hl); [simpl; lia|].
  cbn [sip_words]. destruct (sip_words m) as [ws rest]. cbn [fst snd] in *.
  exists ([b0; b1; b2; b3; b4; b5; b6; b7] :: chunks). cbn [concat map].
  split_and!; [|by constructor|by rewrite Ew|done].
  rewrite <- app_assoc, <- E. done.
Qed.

Lemma sip_words_chunks chunks rest :
  Forall (fun c => length c = 8%nat) chunks -> (length rest < 8)%nat ->
  sip_words (concat chunks ++ rest) = (map le_value chunks, rest).
Proof.
  intros Hc Hr. induction Hc as [|c chunks Hc _ IH].
  - simpl. by destruct rest as [|? [|? [|? [|? [|? [|? [|? [|? ?]]]]]]]]; simpl in *; try lia.
  - destruct c as [|? [|? [|? [|? [|? [|? [|? [|? [|]]]]]]]]]; simpl in Hc; try lia.
    cbn [concat app sip_words]. by rewrite IH.
Qed.

Lemma le_value_snoc l b : le_value (l ++ [b]) = le_value l + b * 2 ^ (8 * zlen l).
Proof. rewrite le_value_app. simpl. lia. Qed.

(** The state of the hasher after the bytes [m]. *)
Definition sip_inv (k0 k1 : Z) (h : sip_hasher) (m : list Z) : Prop :=
  let '(ws, rest) := sip_words m in
  h = mk_hasher (fold_left (fun s w => absorb w s) ws (sip_init k0 k1)) (le_value rest) (zlen m).

Lemma land_7 c : Z.land c 7 = c mod 8.
Proof. change 7 with (Z.ones 3). by rewrite Z.land_ones. Qed.

Lemma sip_inv_step k0 k1 h m b :
  bytes_ok m -> byte_ok b -> sip_inv k0 k1 h m -> sip_inv k0 k1 (sip_write_byte h b) (m ++ [b]).
Proof.
  intros Hm Hb. unfold sip_inv.
  destruct (sip_words_split m) as (chunks & Em & Hc & Ew & Hl).
  destruct (sip_words m) as [ws rest]. cbn [fst snd] in *. intros ->. subst ws.
  assert (Hr : bytes_ok rest) by (rewrite Em in Hm; by apply bytes_ok_app in Hm as [_ ?]).
  assert (Hcount : zlen m = 8 * zlen chunks + zlen rest).
  { rewrite Em, zlen_app, (zlen_concat_const chunks 8); [lia|].
    eapply Forall_impl; [exact Hc|]. intros c E. unfold zlen. by rewrite E. }
  assert (Hmod : zlen m mod 8 = zlen rest).
  { rewrite Hcount, Z.add_comm, Z.mul_comm, Z.mod_add by lia. apply Z.mod_small. zlen_lia. }
  unfold sip_write_byte. cbn [sip_tmp sip_count sip_v]. rewrite Hmod, land_7.
  pose proof (le_value_bound rest Hr) as Hv.
  assert (Ht : Z.lor (le_value rest) (u64 (Z.shiftl b (8 * zlen rest))) = le_value (rest ++ [b])).
  { unfold u64. rewrite wrap_small.
    - rewrite lor_shiftl_add; [by rewrite le_value_snoc|zlen_lia|done|unfold byte_ok in Hb; lia].
    - unfold in_width. rewrite Z.shiftl_mul_pow2 by zlen_lia. unfold byte_ok in Hb.
      split; [nia|]. apply Z.lt_le_trans with (2 ^ 8 * 2 ^ (8 * zlen rest)); [nia|].
      rewrite <- Z.pow_add_r by zlen_lia. apply Z.pow_le_mono_r; [lia|]. zlen_lia. }
  assert (Emb : m ++ [b] = concat chunks ++ rest ++ [b]) by (by rewrite app_assoc, <- Em).
  rewrite Ht, Emb.
  assert (Hlen : zlen (concat chunks ++ rest ++ [b]) = zlen m + 1).
  { rewrite <- Emb, zlen_app. done. }
  destruct (decide (length rest = 7%nat)) as [E7|E7].
  - replace ((zlen m + 1) mod 8 =? 0) with true.
    + replace (concat chunks ++ rest ++ [b]) with (concat (chunks ++ [rest ++ [b]]) ++ [])
        by (rewrite concat_app; simpl; by rewrite !app_nil_r).
      rewrite sip_words_chunks.
      * rewrite map_app, fold_left_app. simpl. f_equal. rewrite app_nil_r, concat_app. simpl.
        by rewrite app_nil_r, Hlen.
      * apply Forall_app. split; [done|]. constructor; [|done]. rewrite length_app. simpl. lia.
      * simpl. lia.
    + symmetry. apply Z.eqb_eq. rewrite Hcount. unfold zlen at 2. rewrite E7.
      replace (8 * zlen chunks + Z.of_nat 7 + 1) with ((zlen chunks + 1) * 8) by lia.
      apply Z.mod_mul. lia.
  - replace ((zlen m + 1) mod 8 =? 0) with false.
    + rewrite sip_words_chunks; [by rewrite Hlen|done|rewrite length_app; simpl; lia].
    + symmetry. apply Z.eqb_neq. rewrite Hcount.
      replace (8 * zlen chunks + zlen rest + 1) with (zlen rest + 1 + zlen chunks * 8) by lia.
      rewrite Z.mod_add by lia. rewrite Z.mod_small by zlen_lia. zlen_lia.
Qed.

Lemma sip_inv_write k0 k1 data h m :
  bytes_ok m -> bytes_ok data -> sip_inv k0 k1 h m -> sip_inv k0 k1 (sip_write data h) (m ++ data).
Proof.
  revert h m. induction data as [|b data IH]; intros h m Hm Hd Hi; [by rewrite app_nil_r|].
  apply bytes_ok_cons in Hd as [Hb Hd]. cbn [sip_write fold_left].
  rewrite (cons_middle b m data), app_assoc. apply IH; [|done|by apply sip_inv_step].
  apply bytes_ok_app. split; [done|]. by constructor.
Qed.

Lemma sip_finalize_inv k0 k1 h m :
  bytes_ok m -> in_width 64 (zlen m) -> sip_inv k0 k1 h m -> sip_finalize h = siphash k0 k1 m.
Proof.
  intros Hm Hw. unfold sip_inv, siphash.
  destruct (sip_words_split m) as (chunks & Em & Hc & Ew & Hl).
  destruct (sip_words m) as [ws rest]. cbn [fst snd] in *. intros ->.
  unfold sip_finalize. cbn [sip_tmp sip_count sip_v]. do 2 f_equal.
  assert (Hr : bytes_ok rest) by (rewrite Em in Hm; by apply bytes_ok_app in Hm as [_ ?]).
  pose proof (le_value_bound rest Hr) as Hv.
  replace (u64 (Z.shiftl (u64 (zlen m)) 56)) with (Z.shiftl (zlen m mod 256) 56).
  - rewrite lor_shiftl_add; [done|lia| |apply Z.mod_pos_bound; lia].
    split; [lia|]. apply Z.lt_le_trans with (1 := proj2 Hv). apply Z.pow_le_mono_r; [lia|]. zlen_lia.
  - unfold u64. rewrite (wrap_small 64 (zlen m)) by done. unfold wrap.
    rewrite !Z.shiftl_mul_pow2 by lia. change (2 ^ 64) with (256 * 2 ^ 56).
    by rewrite Z.mul_mod_distr_r by lia.
Qed.

Lemma sip_hasher_spec k0 k1 data :
  bytes_ok data -> in_width 64 (zlen data) ->
  sip_finalize (sip_write data (new_sip_hasher k0 k1)) = siphash k0 k1 data.
Proof.
  intros Hd Hw. apply sip_finalize_inv; [done|done|].
  apply (sip_inv_write k0 k1 data (new_sip_hasher k0 k1) []); [constructor|done|done].
Qed.

(** ** The specialized functions *)

Lemma get_uint64_value b0 b1 b2 b3 b4 b5 b6 b7 :
  bytes_ok [b0; b1; b2; b3; b4; b5; b6; b7] ->
  get_uint64 0 [b0; b1; b2; b3; b4; b5; b6; b7] = le_value [b0; b1; b2; b3; b4; b5; b6; b7].
Proof.
  unfold bytes_ok. rewrite !Forall_cons. unfold byte_ok.
  intros (?&?&?&?&?&?&?&?&_). unfold get_uint64. cbn [nth Nat.mul Nat.add].
  rewrite (lor_shiftl_add b0 b1), (lor_shiftl_add _ b2), (lor_shiftl_add _ b3),
    (lor_shiftl_add _ b4), (lor_shiftl_add _ b5), (lor_shiftl_add _ b6), (lor_shiftl_add _ b7) by lia.
  simpl. lia.
Qed.

Lemma get_uint64_chunk i val :
  length val = 32%nat -> bytes_ok val -> (i < 4)%nat ->
  get_uint64 i val = le_value (take 8 (drop (i * 8) val)).
Proof.
  intros Hl Hb Hi. assert (E : get_uint64 i val = get_uint64 0 (take 8 (drop (i * 8) val))).
  { unfold get_uint64. simpl Nat.mul.
    assert (Hn : forall k, (k < 8)%nat -> nth (i * 8 + k) val 0 = nth (0 + k) (take 8 (drop (i * 8) val)) 0).
    { intros k Hk. rewrite !nth_lookup, lookup_take_lt, lookup_drop by lia. done. }
    by rewrite !Hn by lia. }
  rewrite E. assert (Hb' : bytes_ok (take 8 (drop (i * 8) val))) by (by apply Forall_take, Forall_drop).
  assert (Hl' : length (take 8 (drop (i * 8) val)) = 8%nat) by (rewrite length_take, length_drop; lia).
  destruct (take 8 (drop (i * 8) val)) as [|? [|? [|? [|? [|? [|? [|? [|? [|]]]]]]]]]; simpl in Hl'; try lia.
  by apply get_uint64_value.
Qed.

(** The chunks of a digest followed by fewer than eight bytes. *)
Lemma sip_words_digest val rest :
  length val = 32%nat -> bytes_ok val -> (length rest < 8)%nat ->
  sip_words (val ++ rest) =
  ([get_uint64 0 val; get_uint64 1 val; get_uint64 2 val; get_uint64 3 val], rest).
Proof.
  intros Hl Hb Hr. rewrite !get_uint64_chunk by (done || lia). simpl Nat.mul.
  set (c i := take 8 (drop (i * 8) val)).
  assert (E : val = concat [c 0%nat; c 1%nat; c 2%nat; c 3%nat]).
  { unfold c. cbn [concat]. rewrite !app_nil_r. simpl Nat.mul. rewrite drop_0.
    rewrite <- (take_drop 8 val) at 1. f_equal.
    rewrite <- (take_drop 8 (drop 8 val)) at 1. f_equal. rewrite drop_drop.
    rewrite <- (take_drop 8 (drop (8 + 8) val)) at 1. f_equal. rewrite drop_drop.
    by rewrite take_ge by (rewrite length_drop; lia). }
  rewrite E at 1. rewrite sip_words_chunks; [done| |done].
  unfold c. repeat constructor; rewrite length_take, length_drop; lia.
Qed.

Lemma sip_digest_fold k0 k1 val :
  sip_digest k0 k1 val =
  fold_left (fun s w => absorb w s)
    [get_uint64 0 val; get_uint64 1 val; get_uint64 2 val; get_uint64 3 val] (sip_init k0 k1).
Proof. done. Qed.

Lemma sip_hash_uint256_spec k0 k1 val :
  length val = 32%nat -> bytes_ok val -> sip_hash_uint256 k0 k1 val = siphash k0 k1 val.
Proof.
  intros Hl Hb. unfold siphash. rewrite <- (app_nil_r val) at 2.
  rewrite sip_words_digest by (done || simpl; lia). unfold zlen. rewrite Hl.
  by rewrite <- sip_digest_fold.
Qed.

Lemma sip_hash_uint256_extra_spec k0 k1 val extra :
  length val = 32%nat -> bytes_ok val -> in_width 32 extra ->
  sip_hash_uint256_extra k0 k1 val extra = siphash k0 k1 (val ++ to_little_endian 4 extra).
Proof.
  intros Hl Hb He. unfold siphash.
  rewrite sip_words_digest by (done || rewrite length_to_little_endian; lia).
  rewrite <- sip_digest_fold, zlen_app, zlen_to_little_endian, le_value_to_little_endian.
  unfold sip_hash_uint256_extra, zlen. rewrite Hl.
  assert (E : Z.lor (u64 (Z.shiftl 36 56)) extra = extra + 36 * 2 ^ 56).
  { unfold in_width in He. rewrite Z.lor_comm. change (u64 (Z.shiftl 36 56)) with (Z.shiftl 36 56).
    by rewrite lor_shiftl_add by lia. }
  rewrite E, Z.mod_small by exact He. done.
Qed.

(** A word may be written when whole words have been. *)
Lemma sip_write_word_bytes k0 k1 h m data :
  sip_inv k0 k1 h m -> bytes_ok m -> zlen m mod 8 = 0 -> in_width 64 data ->
  sip_inv k0 k1 (sip_write_word data h) (m ++ to_little_endian 8 data).
Proof.
  unfold sip_inv. destruct (sip_words_split m) as (chunks & Em & Hc & Ew & Hl).
  destruct (sip_words m) as [ws rest]. cbn [fst snd] in *. intros -> Hm Hmod Hd. subst ws.
  assert (rest = []) as ->.
  { rewrite Em, zlen_app, (zlen_concat_const chunks 8) in Hmod.
    - rewrite Z.add_comm, Z.mod_add in Hmod by lia. rewrite Z.mod_small in Hmod by zlen_lia.
      destruct rest; [done|zlen_lia].
    - eapply Forall_impl; [exact Hc|]. intros c E. unfold zlen. by rewrite E. }
  rewrite app_nil_r in Em.
  replace (m ++ to_little_endian 8 data) with (concat (chunks ++ [to_little_endian 8 data]) ++ [])
    by (rewrite concat_app, Em; simpl; by rewrite !app_nil_r).
  rewrite sip_words_chunks; [| |simpl; lia].
  - unfold sip_write_word. cbn [sip_tmp sip_count sip_v]. rewrite map_app, fold_left_app.
    cbn [map fold_left]. rewrite le_value_to_little_endian. change (8 * Z.of_nat 8) with 64.
    rewrite (Z.mod_small data) by exact Hd. f_equal.
    rewrite app_nil_r, concat_app, zlen_app, Em. cbn [concat]. by rewrite app_nil_r, zlen_to_little_endian.
  - apply Forall_app. split; [done|]. constructor; [apply length_to_little_endian|done].
Qed.

(** The incremental hasher, which takes its input byte by byte, and the
    two functions unrolled for a 256 bit value compute SipHash-2-4 of the
    bytes they are given. *)
Lemma siphash_functions k0 k1 data val extra :
  bytes_ok data -> in_width 64 (zlen data) -> length val = 32%nat -> bytes_ok val -> in_width 32 extra ->
  sip_finalize (sip_write data (new_sip_hasher k0 k1)) = siphash k0 k1 data /\
  sip_hash_uint256 k0 k1 val = siphash k0 k1 val /\
  sip_hash_uint256_extra k0 k1 val extra = siphash k0 k1 (val ++ to_little_endian 4 extra).
Proof.
  intros Hd Hw Hl Hv He. split_and!;
    [by apply sip_hasher_spec|by apply sip_hash_uint256_spec|by apply sip_hash_uint256_extra_spec].
Qed.
