(* ===== verification/Message.v ===== *)
(** What the peer to peer messages of [src/message] share: the protocol levels
    of [message/version.hpp], the limits of [constants.hpp], the two loops that
    read a counted list, and the interface of a message. A client of the
    messages, the framing of [Heading], is proved against the interface
    [MessageLaws]; each message discharges it. *)

From S2P Require Import Prelude Limits Endian Reader Writer Codes.

(** ** Protocol levels, [version::level] *)

Module level.
Definition bip152_fix : Z := 70015.
Definition bip152 : Z := 70014.
Definition bip133 : Z := 70013.
Definition bip130 : Z := 70012.
Definition bip111 : Z := 70011.
Definition bip64 : Z := 70004.
Definition bip61 : Z := 70002.
Definition bip37 : Z := 70001.
Definition bip35 : Z := 60002.
Definition bip31 : Z := 60001.
Definition no_blocks_end : Z := 32400.
Definition no_blocks_start : Z := 32000.
Definition headers `{Currency} : Z := if is_ltc then 70002 else 31800.
Definition minimum : Z := 31402.
Definition maximum : Z := bip152_fix.
Definition canonical : Z := 0.
End level.

(** ** Limits of the network messages *)

Definition command_size : Z := 12.
Definition max_address : Z := 1000.
Definition max_filter_add : Z := 520.
Definition max_filter_functions : Z := 50.
Definition max_filter_load : Z := 36000.
Definition max_get_blocks : Z := 500.
Definition max_get_headers : Z := 2000.
Definition max_get_data : Z := 50000.
Definition max_inventory : Z := 50000.
Definition max_payload_size : Z := 33554432.

(** ** Counted lists

    Two shapes of loop read a list once its count has passed the guard. *)

Section Lists.
Context {R : Type} `{Reader R}.

(** [list.resize(count); for (auto& x: list) if (!x.from_data(source)) break;]
    The elements after the one that fails keep their default. *)
Fixpoint read_each {A} (from : rd R (A * bool)) (blank : A) (count : nat) : rd R (list A) :=
  match count with
  | O => rret []
  | S count =>
      p <~ from ;;
      if snd p : bool then rest <~ read_each from blank count ;; rret (fst p :: rest)
      else rret (fst p :: repeat blank count)
  end.

(** [for (i = 0; i < count && source; ++i) list.push_back(read())] *)
Fixpoint read_while {A} (from : rd R A) (count : nat) : rd R (list A) :=
  match count with
  | O => rret []
  | S count => fun r =>
      if rd_valid r then (x <~ from ;; rest <~ read_while from count ;; rret (x :: rest)) r
      else ([], r)
  end.

(** The guard against an arbitrary allocation, and the loop. *)
Definition guarded {A} (count maximum : Z) (loop : nat -> rd R (list A)) : rd R (list A) :=
  if count >? maximum then rd_invalidate ;;; rret [] else loop (Z.to_nat count).

(** [if (version < minimum) source.invalidate();] *)
Definition require_version (version minimum : Z) : rd R unit :=
  if version <? minimum then rd_invalidate else rret tt.
End Lists.

Section ListLemmas.
Context {R : Type} `{ReaderLaws R}.

Lemma reads_each {A} (from : rd R (A * bool)) blank l es :
  Forall2 (fun a e => reads from e (a, true)) l es ->
  reads (read_each from blank (length l)) (concat es) l.
Proof.
  induction 1 as [|a e l es He _ IH]; simpl; [apply reads_ret|].
  eapply reads_bind; [exact He|]. simpl. eapply reads_bind_nil; [exact IH|apply reads_ret].
Qed.

Lemma reads_while {A} (from : rd R A) l es :
  Forall2 (fun a e => reads from e a) l es ->
  reads (read_while from (length l)) (concat es) l.
Proof.
  induction 1 as [|a e l es He _ IH]; simpl; [apply reads_ret|].
  intros k. rewrite rd_valid_at. revert k.
  eapply reads_bind; [exact He|]. eapply reads_bind_nil; [exact IH|apply reads_ret].
Qed.

Lemma rbind_reads {A B} (m : rd R A) (f : A -> rd R B) e a k :
  reads m e a -> rbind m f (rd_at (e ++ k)) = f a (rd_at k).
Proof. intros Hm. by apply rbind_eq. Qed.

(** A loop that runs past the last value reads at least one more, as the source
    is still valid after it. *)
Lemma read_while_more {A} (from : rd R A) l es n k :
  Forall2 (fun a e => reads from e a) l es -> (length l < n)%nat ->
  (length l < length (fst (read_while from n (rd_at (concat es ++ k)))))%nat.
Proof.
  intros Hl. revert n. induction Hl as [|a e l es He _ IH]; intros n Hn; (destruct n as [|n]; [simpl in Hn; lia|]);
    cbn [read_while concat]; rewrite rd_valid_at; unfold rbind.
  - destruct (from _) as [x r]. destruct (read_while from n r). simpl. lia.
  - rewrite <- app_assoc, He. specialize (IH n ltac:(simpl in Hn; lia)).
    destruct (read_while from n (rd_at (concat es ++ k))). simpl in *. lia.
Qed.

Lemma reads_guarded {A} (l : list A) maximum loop e :
  zlen l <= maximum -> reads (loop (length l)) e l ->
  reads (guarded (zlen l) maximum loop) e l.
Proof.
  intros Hl Hr. unfold guarded. case_if; [lia|]. unfold zlen. by rewrite Nat2Z.id.
Qed.

Lemma reads_require version minimum :
  minimum <= version -> reads (require_version version minimum) [] tt.
Proof. intros Hv. unfold require_version. case_if; [lia|]. apply reads_ret. Qed.

Lemma length_read_each {A} (from : rd R (A * bool)) blank n r :
  length (fst (read_each from blank n r)) = n.
Proof.
  revert r. induction n as [|n IH]; intros r; [done|]. cbn [read_each]. unfold rbind.
  destruct (from r) as [[a ok] r1]. cbn [snd fst]. destruct ok.
  - specialize (IH r1). destruct (read_each from blank n r1) as [l r2]. simpl in *. by rewrite IH.
  - simpl. by rewrite repeat_length.
Qed.

Lemma length_read_while {A} (from : rd R A) n r :
  (length (fst (read_while from n r)) <= n)%nat.
Proof.
  revert r. induction n as [|n IH]; intros r; [done|]. cbn [read_while].
  destruct (rd_valid r); [|simpl; lia]. unfold rbind. destruct (from r) as [a r1].
  specialize (IH r1). destruct (read_while from n r1) as [l r2]. simpl in *. lia.
Qed.

(** Whatever the source holds, a guarded list is within its limit. *)
Lemma guarded_bound {A} count maximum (loop : nat -> rd R (list A)) r :
  0 <= maximum -> (forall n r, (length (fst (loop n r)) <= n)%nat) ->
  zlen (fst (guarded count maximum loop r)) <= maximum.
Proof.
  intros Hm Hloop. unfold guarded. case_if.
  - unfold rbind. destruct (rd_invalidate r). simpl. unfold zlen. simpl. lia.
  - specialize (Hloop (Z.to_nat count) r). unfold zlen. lia.
Qed.

(** A read of the whole input. *)
Lemma reads_exact {A} (m : rd R A) e v : reads m e v -> fst (m (rd_at e)) = v.
Proof. intros Hm. specialize (Hm []). rewrite app_nil_r in Hm. by rewrite Hm. Qed.
End ListLemmas.

(** ** The limits of what a parser returns *)

Lemma always_each {R} `{ReaderLaws R} {A} (from : rd R (A * bool)) blank count maximum :
  0 <= maximum -> always (guarded count maximum (read_each from blank)) (fun l => zlen l <= maximum).
Proof.
  intros Hm r. apply guarded_bound; [done|]. intros n r'. by rewrite length_read_each.
Qed.

Lemma always_while {R} `{ReaderLaws R} {A} (from : rd R A) count maximum :
  0 <= maximum -> always (guarded count maximum (read_while from)) (fun l => zlen l <= maximum).
Proof. intros Hm r. apply guarded_bound; [done|]. apply length_read_while. Qed.

(** ** The flag a parser returns

    [reports m]: the flag is the validity of the reader, [return source;], and
    when it is false the value is one that [blank] accepts. *)

Definition reports {R} `{Reader R} {A} (blank : A -> Prop) (m : rd R (A * bool)) : Prop :=
  forall r, snd (fst (m r)) = rd_valid (snd (m r)) /\
    (snd (fst (m r)) = false -> blank (fst (fst (m r)))).

Section Reports.
Context {R : Type} `{Reader R} {A : Type} (blank : A -> Prop).

Lemma reports_check (v reset : A) : blank reset -> reports blank (rd_check v reset).
Proof. intros Hr r. unfold rd_check. by destruct (rd_valid r) eqn:E; simpl. Qed.

Lemma reports_bind {B} (m : rd R B) (f : B -> rd R (A * bool)) :
  (forall b, reports blank (f b)) -> reports blank (rbind m f).
Proof. intros Hf r. unfold rbind. destruct (m r) as [b r']. apply Hf. Qed.

(** [if (!sub.from_data(source)) return false;] *)
Lemma reports_early_always {B} (blank' : B -> Prop) (kept : B -> Prop) (m : rd R (B * bool))
    (f : B * bool -> rd R (A * bool)) :
  always m (fun p => kept (fst p)) -> reports blank' m ->
  (forall b, blank' b -> exists a, f (b, false) = rret (a, false) /\ blank a) ->
  (forall b, kept b -> reports blank (f (b, true))) -> reports blank (rbind m f).
Proof.
  intros Ha Hm Hv Hk r. unfold rbind. destruct (Hm r) as [E Hb]. specialize (Ha r).
  destruct (m r) as [[b ok] r']. simpl in *. destruct ok; [by apply Hk|].
  destruct (Hv b (Hb eq_refl)) as (a & -> & Hx). by simpl.
Qed.

Lemma reports_early {B} (blank' : B -> Prop) (m : rd R (B * bool)) (f : B * bool -> rd R (A * bool)) :
  reports blank' m ->
  (forall b, blank' b -> exists a, f (b, false) = rret (a, false) /\ blank a) ->
  (forall b, reports blank (f (b, true))) -> reports blank (rbind m f).
Proof. intros Hm Hv Hk. by apply (reports_early_always blank' (fun _ => True)). Qed.

(** [return base.from_data(source);] of a derived message. *)
Lemma reports_map {B} (blank' : B -> Prop) (m : rd R (B * bool)) (g : B -> A) :
  reports blank' m -> (forall b, blank' b -> blank (g b)) ->
  reports blank (p <~ m ;; rret (g (fst p), snd p)).
Proof.
  intros Hm Hg r. unfold rbind. destruct (Hm r) as [E Hb]. destruct (m r) as [[b ok] r'].
  simpl in *. split; [done|]. intros Hok. by apply Hg, Hb.
Qed.
End Reports.

(** ** The interface

    [msg_from_data version self] reads into the object [self]; an exception is
    [None]. *)

Class Message (M : Type) := {
  msg_command : list Z;
  msg_default : M;
  msg_reset : M -> M;
  msg_from_data : forall {R} `{Reader R}, Z -> M -> rd R (M * bool);
  msg_to_data : Z -> M -> option (list Z);
  msg_serialized_size : Z -> M -> option Z
}.

(** What a client may rely on, for the messages within their field widths and
    limits ([msg_wf]): the bytes have the announced size; they parse, into any
    object and through any reader, to a message ([msg_decoded]) that writes the
    same bytes; the flag of a parse is the validity of the reader, and a parse
    that fails leaves the object as [msg_blank] says, which tells what is left
    of the object it was read into and of the payload. *)
Class MessageLaws (M : Type) `{Message M} := {
  msg_wf : Z -> M -> Prop;
  msg_decoded : Z -> M -> M -> M;
  msg_blank : M -> M -> Prop;
  msg_command_ok : zlen msg_command <= command_size /\ bytes_ok msg_command /\
    Forall (fun c => c <> 0) msg_command;
  msg_size version m e : msg_wf version m -> msg_to_data version m = Some e ->
    in_width 64 (zlen e) -> msg_serialized_size version m = Some (zlen e);
  msg_bytes version m e : msg_wf version m -> msg_to_data version m = Some e -> bytes_ok e;
  msg_reads {R} `{ReaderLaws R} version self m e :
    msg_wf version m -> msg_to_data version m = Some e ->
    fst (msg_from_data version self (rd_at e)) = (msg_decoded version self m, true);
  msg_lossless version self m e : msg_wf version m -> msg_to_data version m = Some e ->
    msg_to_data version (msg_decoded version self m) = Some e;
  msg_reports {R} `{ReaderLaws R} version self :
    reports (msg_blank self) (msg_from_data version self)
}.

(** [M::factory_from_data(version, source)]: the flag is dropped. *)
Definition msg_factory {M} `{Message M} {R} `{Reader R} (version : Z) : rd R M :=
  p <~ msg_from_data version msg_default ;; rret (fst p).

(** The [data_chunk] overloads read through a stream over the chunk. *)
Definition msg_from_chunk {M} `{Message M} (version : Z) (self : M) (data : list Z) : M * bool :=
  fst (msg_from_data version self (Istream.mk data false false)).

(** ** Lists of hashes *)

Definition hash_ok (h : list Z) : Prop := length h = 32%nat /\ bytes_ok h.

#[global] Instance hash_ok_dec h : Decision (hash_ok h).
Proof. unfold hash_ok. apply _. Defined.
