(* ===== verification/MsgInventory.v ===== *)
(** The address, inventory, locator and header messages of [src/message]:
    [network_address], [address], [inventory_vector], [inventory], [get_data],
    [not_found], [get_blocks], [get_headers], [header] and [headers]. Each
    message is a module with the operations of its class and an instance of
    [Message] with its laws. *)

From S2P Require Import Prelude Limits Endian Reader Writer Codes Header Message.

(** ** [network_address] *)

Module network_address.

Record t := mk { timestamp : Z; services : Z; ip : list Z; port : Z }.

Definition null_address : list Z := repeat 0 16.
Definition default : t := mk 0 0 null_address 0.

Definition unspecified_ip_address : list Z := [0; 0; 0; 0; 0; 0; 0; 0; 0; 0; 0xff; 0xff; 0; 0; 0; 0].
Definition unspecified_network_address : t := mk 0 0 unspecified_ip_address 0.

Definition is_valid (a : t) : bool :=
  negb (timestamp a =? 0) || negb (services a =? 0) || negb (port a =? 0) ||
  negb (bool_decide (ip a = null_address)).

Definition reset (a : t) : t := mk 0 0 null_address 0.

Definition set_timestamp (v : Z) (a : t) : t := mk v (services a) (ip a) (port a).
Definition set_services (v : Z) (a : t) : t := mk (timestamp a) v (ip a) (port a).
Definition set_ip (v : list Z) (a : t) : t := mk (timestamp a) (services a) v (port a).
Definition set_port (v : Z) (a : t) : t := mk (timestamp a) (services a) (ip a) v.
Definition assign (self other : t) : t :=
  mk (timestamp other) (services other) (ip other) (port other).

(** [operator==] does not compare the timestamps. *)
Definition eqb (a b : t) : bool :=
  (services a =? services b) && (port a =? port b) && bool_decide (ip a = ip b).

(** The address bytes are copied after the reset of a failed read. *)
Definition from_data {R} `{Reader R} (version : Z) (with_timestamp : bool) : rd R (t * bool) :=
  timestamp <~ (if with_timestamp then read_4_bytes_little_endian else rret 0) ;;
  services <~ read_8_bytes_little_endian ;;
  ip <~ rd_read_bytes 16 ;;
  port <~ read_2_bytes_big_endian ;;
  rd_check (mk timestamp services ip port) (mk 0 0 ip 0).

Definition factory_from_data {R} `{Reader R} (version : Z) (with_timestamp : bool) : rd R t :=
  p <~ from_data version with_timestamp ;; rret (fst p).

Definition to_data (version : Z) (with_timestamp : bool) (a : t) : list Z :=
  (if with_timestamp then write_4_bytes_little_endian (timestamp a) else []) ++
  write_8_bytes_little_endian (services a) ++
  write_bytes (ip a) ++
  write_2_bytes_big_endian (port a).

Definition satoshi_fixed_size (version : Z) (with_timestamp : bool) : Z :=
  26 + (if with_timestamp then 4 else 0).
Definition serialized_size (version : Z) (with_timestamp : bool) (a : t) : Z :=
  satoshi_fixed_size version with_timestamp.

Definition wf (a : t) : Prop :=
  in_width 32 (timestamp a) /\ in_width 64 (services a) /\
  (length (ip a) = 16%nat /\ bytes_ok (ip a)) /\ in_width 16 (port a).

(** What an address decodes to: the timestamp is lost when it is not written. *)
Definition decoded (with_timestamp : bool) (a : t) : t :=
  if with_timestamp then a else mk 0 (services a) (ip a) (port a).

Lemma network_address_reads {R} `{ReaderLaws R} version ts a :
  wf a -> reads (from_data version ts) (to_data version ts a) (decoded ts a, true).
Proof.
  intros (Ht & Hs & [Hl Hi] & Hp). unfold from_data, to_data, decoded.
  eapply (reads_bind _ _ _ _ (if ts then timestamp a else 0)).
  { destruct ts; [by apply reads_le|apply reads_ret]. }
  eapply reads_bind; [by apply reads_le|].
  eapply reads_bind; [by apply reads_bytes; unfold zlen; rewrite Hl|].
  eapply reads_bind_nil; [by apply reads_be|].
  destruct a, ts; apply reads_check.
Qed.

Lemma zlen_network_address version ts a :
  wf a -> zlen (to_data version ts a) = satoshi_fixed_size version ts.
Proof.
  intros (_ & _ & [Hl _] & _). unfold to_data, write_bytes, zlen. rewrite !length_app, Hl.
  by destruct ts.
Qed.

Lemma bytes_ok_network_address version ts a : wf a -> bytes_ok (to_data version ts a).
Proof.
  intros (_ & _ & [_ Hi] & _). unfold to_data, write_bytes. rewrite !bytes_ok_app.
  split_and!; [destruct ts; [apply bytes_ok_to_little_endian|constructor]|
    apply bytes_ok_to_little_endian|done|apply bytes_ok_to_big_endian].
Qed.

Lemma network_address_lossless version ts a :
  to_data version ts (decoded ts a) = to_data version ts a.
Proof. by destruct ts. Qed.
End network_address.

(** ** [address] *)

Module address.

Definition t : Type := list network_address.t.
Definition command : list Z := chars "addr".
Definition version_minimum : Z := level.minimum.
Definition version_maximum : Z := level.maximum.

Definition is_valid (m : t) : bool := negb (bool_decide (m = [])).
Definition reset (m : t) : t := [].
Definition set_addresses (v m : t) : t := v.
Definition assign (self other : t) : t := other.

(** [operator==] of the vectors, element by element. *)
Fixpoint eqb (a b : t) : bool :=
  match a, b with
  | [], [] => true
  | x :: a, y :: b => network_address.eqb x y && eqb a b
  | _, _ => false
  end.

Definition from_data {R} `{Reader R} (version : Z) (self : t) : rd R (t * bool) :=
  count <~ read_size_little_endian ;;
  addresses <~ guarded count max_address
    (read_each (network_address.from_data version true) network_address.default) ;;
  rd_check addresses (reset addresses).

Definition to_data (version : Z) (m : t) : list Z :=
  write_variable_little_endian (zlen m) ++
  concat (map (network_address.to_data version true) m).

Definition serialized_size (version : Z) (m : t) : Z :=
  variable_uint_size (zlen m) + zlen m * network_address.satoshi_fixed_size version true.

#[global] Instance address_message : Message t := {
  msg_command := command; msg_default := []; msg_reset := reset;
  msg_from_data R _ version self := from_data version self;
  msg_to_data version m := Some (to_data version m);
  msg_serialized_size version m := Some (serialized_size version m)
}.

Definition factory_from_data {R} `{Reader R} (version : Z) : rd R t := msg_factory version.

Definition wf (m : t) : Prop := zlen m <= max_address /\ Forall network_address.wf m.

Lemma address_reads {R} `{ReaderLaws R} version self m :
  wf m -> reads (from_data version self) (to_data version m) (m, true).
Proof.
  intros [Hl Hm]. unfold from_data, to_data.
  eapply reads_bind; [apply reads_size, in_width_zlen; unfold max_address in Hl; lia|].
  eapply reads_bind_nil; [|apply reads_check].
  apply reads_guarded; [done|]. apply reads_each, Forall2_map_r.
  eapply Forall_impl; [exact Hm|]. intros a Ha. by apply network_address.network_address_reads.
Qed.

Lemma zlen_address version m : wf m -> zlen (to_data version m) = serialized_size version m.
Proof.
  intros [Hl Hm]. unfold to_data, serialized_size.
  rewrite zlen_app, zlen_write_variable by (apply in_width_zlen; unfold max_address in Hl; lia).
  f_equal. rewrite (zlen_concat_const _ (network_address.satoshi_fixed_size version true)).
  - unfold zlen. by rewrite length_map.
  - apply Forall_map. eapply Forall_impl; [exact Hm|]. intros a Ha.
    by apply network_address.zlen_network_address.
Qed.

#[global] Instance address_laws : MessageLaws t.
Proof.
  refine {| msg_blank _ m := m = msg_default; msg_wf _ m := wf m; msg_decoded _ _ m := m |}; simpl.
  - by apply (bool_decide_unpack _); vm_compute.
  - intros version m e Hm [= <-] _. by rewrite zlen_address.
  - intros version m e [_ Hm] [= <-]. apply bytes_ok_app. split; [auto with bitprim|].
    apply bytes_ok_concat, Forall_map. eapply Forall_impl; [exact Hm|]. intros a.
    apply network_address.bytes_ok_network_address.
  - intros R ? ? version self m e Hm [= <-]. by apply reads_exact, address_reads.
  - done.
  - intros R ? ? version self. do 2 (apply reports_bind; intros ?). by apply reports_check.
Defined.
End address.

(** ** [inventory_vector] *)

Module inventory_vector.

(** [type_id] is an enumeration over [uint32_t] that any value is cast to. *)
Module type_id.
Definition error : Z := 0.
Definition transaction : Z := 1.
Definition block : Z := 2.
Definition filtered_block : Z := 3.
Definition compact_block : Z := 4.
Definition witness : Z := Z.shiftl 1 30.
Definition witness_transaction : Z := Z.lor witness transaction.
Definition witness_block : Z := Z.lor witness block.
Definition reserved : Z := Z.lor witness filtered_block.
End type_id.

Record t := mk { type : Z; hash : list Z }.

Definition to_number (inventory_type : Z) : Z := inventory_type.
Definition to_type (value : Z) : Z := value.

Definition to_string (inventory_type : Z) : list Z :=
  if inventory_type =? type_id.transaction then chars "transaction"
  else if inventory_type =? type_id.block then chars "block"
  else if inventory_type =? type_id.filtered_block then chars "filtered_block"
  else if inventory_type =? type_id.compact_block then chars "compact_block"
  else if inventory_type =? type_id.witness_transaction then chars "witness_transaction"
  else if inventory_type =? type_id.witness_block then chars "witness_block"
  else if inventory_type =? type_id.reserved then chars "reserved"
  else chars "error".

Definition default : t := mk type_id.error null_hash.
Definition is_valid (v : t) : bool :=
  negb (type v =? type_id.error) || negb (bool_decide (hash v = null_hash)).
Definition reset (v : t) : t := mk type_id.error null_hash.

(** [to_witness] *)
Definition to_witness (v : t) : t :=
  if (type v =? type_id.block) || (type v =? type_id.transaction)
  then mk (to_type (Z.lor (to_number (type v)) (to_number type_id.witness))) (hash v)
  else v.

Definition from_data {R} `{Reader R} (version : Z) : rd R (t * bool) :=
  raw_type <~ read_4_bytes_little_endian ;;
  hash <~ read_hash ;;
  rd_check (mk (to_type raw_type) hash) (reset default).

Definition factory_from_data {R} `{Reader R} (version : Z) : rd R t :=
  p <~ from_data version ;; rret (fst p).

Definition to_data (version : Z) (v : t) : list Z :=
  write_4_bytes_little_endian (to_number (type v)) ++ write_hash (hash v).

Definition satoshi_fixed_size (version : Z) : Z := 32 + 4.
Definition serialized_size (version : Z) (v : t) : Z := satoshi_fixed_size version.

Definition is_block_type (v : t) : bool :=
  (type v =? type_id.witness_block) || (type v =? type_id.block) ||
  (type v =? type_id.compact_block) || (type v =? type_id.filtered_block).
Definition is_transaction_type (v : t) : bool :=
  (type v =? type_id.witness_transaction) || (type v =? type_id.transaction).

Definition set_type (x : Z) (v : t) : t := mk x (hash v).
Definition set_hash (x : list Z) (v : t) : t := mk (type v) x.
Definition assign (self other : t) : t := mk (type other) (hash other).
Definition eqb (a b : t) : bool := bool_decide (hash a = hash b) && (type a =? type b).

Definition wf (v : t) : Prop := in_width 32 (type v) /\ hash_ok (hash v).

Lemma inventory_vector_reads {R} `{ReaderLaws R} version v :
  wf v -> reads (from_data version) (to_data version v) (v, true).
Proof.
  intros [Ht [Hl _]]. unfold from_data, to_data, write_hash.
  eapply reads_bind; [by apply reads_le|].
  eapply reads_bind_nil; [by apply reads_forward|]. destruct v. apply reads_check.
Qed.

Lemma zlen_inventory_vector version v :
  wf v -> zlen (to_data version v) = satoshi_fixed_size version.
Proof.
  intros [_ [Hl _]]. unfold to_data, write_hash, zlen. by rewrite length_app, Hl.
Qed.

Lemma bytes_ok_inventory_vector version v : wf v -> bytes_ok (to_data version v).
Proof.
  intros [_ [_ Hb]]. apply bytes_ok_app. split; [apply bytes_ok_to_little_endian|done].
Qed.

(** The request for witnesses changes the type but not what is asked for. *)
Lemma to_witness_kind v :
  is_block_type (to_witness v) = is_block_type v /\
  is_transaction_type (to_witness v) = is_transaction_type v /\
  to_witness (to_witness v) = to_witness v /\ hash (to_witness v) = hash v.
Proof.
  unfold to_witness. destruct ((type v =? type_id.block) || (type v =? type_id.transaction)) eqn:E.
  - unfold is_block_type, is_transaction_type. apply orb_true_iff in E.
    destruct v as [ty h]. cbn [type hash] in *.
    destruct E as [E|E]; apply Z.eqb_eq in E; subst ty; done.
  - by rewrite E.
Qed.
End inventory_vector.

(** ** [inventory] *)

Module inventory.

Definition t : Type := list inventory_vector.t.
Definition command : list Z := chars "inv".
Definition version_minimum : Z := level.minimum.
Definition version_maximum : Z := level.maximum.

(** [inventory(const hash_list& hashes, type_id type)] *)
Definition of_hashes (hashes : list (list Z)) (type : Z) : t :=
  map (inventory_vector.mk type) hashes.

Definition is_valid (m : t) : bool := negb (bool_decide (m = [])).
Definition reset (m : t) : t := [].
Definition set_inventories (v m : t) : t := v.
Definition assign (self other : t) : t := other.

Fixpoint eqb (a b : t) : bool :=
  match a, b with
  | [], [] => true
  | x :: a, y :: b => inventory_vector.eqb x y && eqb a b
  | _, _ => false
  end.

Definition from_data {R} `{Reader R} (version : Z) (self : t) : rd R (t * bool) :=
  count <~ read_size_little_endian ;;
  inventories <~ guarded count max_inventory
    (read_each (inventory_vector.from_data version) inventory_vector.default) ;;
  rd_check inventories (reset inventories).

Definition to_data (version : Z) (m : t) : list Z :=
  write_variable_little_endian (zlen m) ++ concat (map (inventory_vector.to_data version) m).

(** [to_hashes] and [reduce] append to [out]. *)
Definition to_hashes (out : list (list Z)) (type : Z) (m : t) : list (list Z) :=
  fold_left (fun out element =>
               if inventory_vector.type element =? type
               then out ++ [inventory_vector.hash element] else out) m out.

Definition reduce (out : list inventory_vector.t) (type : Z) (m : t) : list inventory_vector.t :=
  fold_left (fun out element =>
               if inventory_vector.type element =? type then out ++ [element] else out) m out.

Definition count (type : Z) (m : t) : Z :=
  zlen (List.filter (fun element => inventory_vector.type element =? type) m).

Definition serialized_size (version : Z) (m : t) : Z :=
  variable_uint_size (zlen m) + zlen m * inventory_vector.satoshi_fixed_size version.

#[global] Instance inventory_message : Message t := {
  msg_command := command; msg_default := []; msg_reset := reset;
  msg_from_data R _ version self := from_data version self;
  msg_to_data version m := Some (to_data version m);
  msg_serialized_size version m := Some (serialized_size version m)
}.

Definition factory_from_data {R} `{Reader R} (version : Z) : rd R t := msg_factory version.

Definition wf (m : t) : Prop := zlen m <= max_inventory /\ Forall inventory_vector.wf m.

Lemma inventory_reads {R} `{ReaderLaws R} version self m :
  wf m -> reads (from_data version self) (to_data version m) (m, true).
Proof.
  intros [Hl Hm]. unfold from_data, to_data.
  eapply reads_bind; [apply reads_size, in_width_zlen; unfold max_inventory in Hl; lia|].
  eapply reads_bind_nil; [|apply reads_check].
  apply reads_guarded; [done|]. apply reads_each, Forall2_map_r.
  eapply Forall_impl; [exact Hm|]. intros a Ha. by apply inventory_vector.inventory_vector_reads.
Qed.

Lemma zlen_inventory version m : wf m -> zlen (to_data version m) = serialized_size version m.
Proof.
  intros [Hl Hm]. unfold to_data, serialized_size.
  rewrite zlen_app, zlen_write_variable by (apply in_width_zlen; unfold max_inventory in Hl; lia).
  f_equal. rewrite (zlen_concat_const _ (inventory_vector.satoshi_fixed_size version)).
  - unfold zlen. by rewrite length_map.
  - apply Forall_map. eapply Forall_impl; [exact Hm|]. intros a Ha.
    by apply inventory_vector.zlen_inventory_vector.
Qed.

Lemma bytes_ok_inventory version m : wf m -> bytes_ok (to_data version m).
Proof.
  intros [_ Hm]. apply bytes_ok_app. split; [auto with bitprim|].
  apply bytes_ok_concat, Forall_map. eapply Forall_impl; [exact Hm|]. intros a.
  apply inventory_vector.bytes_ok_inventory_vector.
Qed.

Lemma inventory_reports {R} `{ReaderLaws R} version self :
  reports (fun m => m = []) (from_data version self).
Proof. do 2 (apply reports_bind; intros ?). by apply reports_check. Qed.

#[global] Instance inventory_laws : MessageLaws t.
Proof.
  refine {| msg_blank _ m := m = msg_default; msg_wf _ m := wf m; msg_decoded _ _ m := m |}; simpl.
  - by apply (bool_decide_unpack _); vm_compute.
  - intros version m e Hm [= <-] _. by rewrite zlen_inventory.
  - intros version m e Hm [= <-]. by apply bytes_ok_inventory.
  - intros R ? ? version self m e Hm [= <-]. by apply reads_exact, inventory_reads.
  - done.
  - intros R ? ? version self. apply inventory_reports.
Defined.

(** The three views of a type agree. *)
Lemma reduce_filter out type m :
  reduce out type m = out ++ List.filter (fun e => inventory_vector.type e =? type) m.
Proof.
  unfold reduce. revert out. induction m as [|e m IH]; intros out; simpl; [by rewrite app_nil_r|].
  rewrite IH. case_if; simpl; by rewrite <- ?app_assoc.
Qed.

Lemma to_hashes_reduce out type m :
  to_hashes out type m = out ++ map inventory_vector.hash (reduce [] type m).
Proof.
  rewrite reduce_filter. unfold to_hashes. simpl. revert out.
  induction m as [|e m IH]; intros out; simpl; [by rewrite app_nil_r|].
  rewrite IH. case_if; simpl; by rewrite <- ?app_assoc.
Qed.

(** An inventory built from hashes gives them back, in order. *)
Lemma to_hashes_of_hashes hashes type :
  to_hashes [] type (of_hashes hashes type) = hashes /\ count type (of_hashes hashes type) = zlen hashes.
Proof.
  rewrite to_hashes_reduce, reduce_filter. unfold count, of_hashes. simpl.
  assert (E : List.filter (fun e => inventory_vector.type e =? type)
                (map (inventory_vector.mk type) hashes) = map (inventory_vector.mk type) hashes).
  { induction hashes as [|h hs IH]; simpl; [done|]. by rewrite Z.eqb_refl, IH. }
  rewrite E, map_map. simpl. rewrite map_id. unfold zlen. by rewrite length_map.
Qed.
End inventory.

(** ** [get_data] and [not_found] derive from [inventory] *)

Module get_data.

Record t := mk { base : inventory.t }.
Definition command : list Z := chars "getdata".
Definition version_minimum : Z := level.minimum.
Definition version_maximum : Z := level.maximum.

Definition of_hashes (hashes : list (list Z)) (type : Z) : t := mk (inventory.of_hashes hashes type).
Definition reset (m : t) : t := mk (inventory.reset (base m)).

Definition from_data {R} `{Reader R} (version : Z) (self : t) : rd R (t * bool) :=
  p <~ inventory.from_data version (base self) ;;
  if negb (snd p) then rret (mk (fst p), false)
  else require_version version version_minimum ;;; rd_check (mk (fst p)) (reset (mk (fst p))).

Definition to_witness (m : t) : t := mk (map inventory_vector.to_witness (base m)).
Definition assign (self other : t) : t := mk (inventory.set_inventories (base other) (base self)).
Definition eqb (a b : t) : bool := inventory.eqb (base a) (base b).

#[global] Instance get_data_message : Message t := {
  msg_command := command; msg_default := mk []; msg_reset := reset;
  msg_from_data R _ version self := from_data version self;
  msg_to_data version m := Some (inventory.to_data version (base m));
  msg_serialized_size version m := Some (inventory.serialized_size version (base m))
}.

Definition factory_from_data {R} `{Reader R} (version : Z) : rd R t := msg_factory version.

Definition wf (version : Z) (m : t) : Prop := version_minimum <= version /\ inventory.wf (base m).

#[global] Instance get_data_laws : MessageLaws t.
Proof.
  refine {| msg_blank _ m := m = msg_default; msg_wf := wf; msg_decoded _ _ m := m |}; simpl.
  - by apply (bool_decide_unpack _); vm_compute.
  - intros version m e [_ Hm] [= <-] _. by rewrite inventory.zlen_inventory.
  - intros version m e [_ Hm] [= <-]. by apply inventory.bytes_ok_inventory.
  - intros R ? ? version self m e [Hv Hm] [= <-]. apply reads_exact.
    eapply reads_bind_nil; [by apply inventory.inventory_reads|]. cbn [snd fst negb].
    eapply reads_bind_nil; [by apply reads_require|]. destruct m. apply reads_check.
  - done.
  - intros R ? ? version self.
    eapply reports_early; [apply inventory.inventory_reports| |].
    + intros b ->. eexists. by split.
    + intros b. apply reports_bind. intros ?. by apply reports_check.
Defined.
End get_data.

Module not_found.

Record t := mk { base : inventory.t }.
Definition command : list Z := chars "notfound".
Definition version_minimum : Z := level.bip37.
Definition version_maximum : Z := level.maximum.

Definition of_hashes (hashes : list (list Z)) (type : Z) : t := mk (inventory.of_hashes hashes type).
Definition reset (m : t) : t := mk (inventory.reset (base m)).

Definition from_data {R} `{Reader R} (version : Z) (self : t) : rd R (t * bool) :=
  p <~ inventory.from_data version (base self) ;;
  if negb (snd p) then rret (mk (fst p), false)
  else require_version version version_minimum ;;; rd_check (mk (fst p)) (reset (mk (fst p))).

Definition assign (self other : t) : t := mk (inventory.set_inventories (base other) (base self)).
Definition eqb (a b : t) : bool := inventory.eqb (base a) (base b).

#[global] Instance not_found_message : Message t := {
  msg_command := command; msg_default := mk []; msg_reset := reset;
  msg_from_data R _ version self := from_data version self;
  msg_to_data version m := Some (inventory.to_data version (base m));
  msg_serialized_size version m := Some (inventory.serialized_size version (base m))
}.

Definition factory_from_data {R} `{Reader R} (version : Z) : rd R t := msg_factory version.

Definition wf (version : Z) (m : t) : Prop := version_minimum <= version /\ inventory.wf (base m).

#[global] Instance not_found_laws : MessageLaws t.
Proof.
  refine {| msg_blank _ m := m = msg_default; msg_wf := wf; msg_decoded _ _ m := m |}; simpl.
  - by apply (bool_decide_unpack _); vm_compute.
  - intros version m e [_ Hm] [= <-] _. by rewrite inventory.zlen_inventory.
  - intros version m e [_ Hm] [= <-]. by apply inventory.bytes_ok_inventory.
  - intros R ? ? version self m e [Hv Hm] [= <-]. apply reads_exact.
    eapply reads_bind_nil; [by apply inventory.inventory_reads|]. cbn [snd fst negb].
    eapply reads_bind_nil; [by apply reads_require|]. destruct m. apply reads_check.
  - done.
  - intros R ? ? version self.
    eapply reports_early; [apply inventory.inventory_reports| |].
    + intros b ->. eexists. by split.
    + intros b. apply reports_bind. intros ?. by apply reports_check.
Defined.
End not_found.

(** ** [get_blocks] *)

Module get_blocks.

Record t := mk { start_hashes : list (list Z); stop_hash : list Z }.
Definition command : list Z := chars "getblocks".
Definition version_minimum : Z := level.minimum.
Definition version_maximum : Z := level.maximum.

Definition default : t := mk [] null_hash.
Definition is_valid (m : t) : bool :=
  negb (bool_decide (start_hashes m = [])) || negb (bool_decide (stop_hash m = null_hash)).
Definition reset (m : t) : t := mk [] null_hash.
Definition set_start_hashes (v : list (list Z)) (m : t) : t := mk v (stop_hash m).
Definition set_stop_hash (v : list Z) (m : t) : t := mk (start_hashes m) v.
Definition assign (self other : t) : t := mk (start_hashes other) (stop_hash other).
Definition eqb (a b : t) : bool :=
  (zlen (start_hashes a) =? zlen (start_hashes b)) && bool_decide (stop_hash a = stop_hash b) &&
  forallb (fun '(x, y) => bool_decide (x = y)) (zip (start_hashes a) (start_hashes b)).

(** The protocol version of the peer is read and dropped. *)
Definition from_data {R} `{Reader R} (version : Z) (self : t) : rd R (t * bool) :=
  _ <~ read_4_bytes_little_endian ;;
  count <~ read_size_little_endian ;;
  start_hashes <~ guarded count max_get_blocks (read_while read_hash) ;;
  stop_hash <~ read_hash ;;
  rd_check (mk start_hashes stop_hash) (reset self).

Definition to_data (version : Z) (m : t) : list Z :=
  write_4_bytes_little_endian version ++
  write_variable_little_endian (zlen (start_hashes m)) ++
  concat (map write_hash (start_hashes m)) ++
  write_hash (stop_hash m).

Definition serialized_size (version : Z) (m : t) : Z :=
  36 + variable_uint_size (zlen (start_hashes m)) + 32 * zlen (start_hashes m).

#[global] Instance get_blocks_message : Message t := {
  msg_command := command; msg_default := default; msg_reset := reset;
  msg_from_data R _ version self := from_data version self;
  msg_to_data version m := Some (to_data version m);
  msg_serialized_size version m := Some (serialized_size version m)
}.

Definition factory_from_data {R} `{Reader R} (version : Z) : rd R t := msg_factory version.

Definition wf (version : Z) (m : t) : Prop :=
  in_width 32 version /\ zlen (start_hashes m) <= max_get_blocks /\
  Forall hash_ok (start_hashes m) /\ hash_ok (stop_hash m).

Lemma get_blocks_reads {R} `{ReaderLaws R} version self m :
  wf version m -> reads (from_data version self) (to_data version m) (m, true).
Proof.
  intros (Hv & Hl & Hs & He & _). unfold from_data, to_data, write_hash.
  eapply reads_bind; [by apply reads_le|].
  eapply reads_bind; [apply reads_size, in_width_zlen; unfold max_get_blocks in Hl; lia|].
  eapply reads_bind.
  { apply reads_guarded; [done|]. apply reads_while, Forall2_map_r.
    eapply Forall_impl; [exact Hs|]. intros h [Hh _]. by apply reads_forward. }
  eapply reads_bind_nil; [by apply reads_forward|]. destruct m. apply reads_check.
Qed.

Lemma zlen_get_blocks version m :
  wf version m -> zlen (to_data version m) = serialized_size version m.
Proof.
  intros (_ & Hl & Hs & He & _). unfold to_data, serialized_size, write_hash.
  rewrite !zlen_app, zlen_write_variable by (apply in_width_zlen; unfold max_get_blocks in Hl; lia).
  rewrite (zlen_concat_const _ 32).
  - unfold zlen. rewrite length_map, He. simpl. lia.
  - apply Forall_map. eapply Forall_impl; [exact Hs|]. intros h [Hh _]. unfold zlen. by rewrite Hh.
Qed.

Lemma bytes_ok_get_blocks version m : wf version m -> bytes_ok (to_data version m).
Proof.
  intros (_ & _ & Hs & _ & Hb). unfold to_data, write_hash. rewrite !bytes_ok_app.
  split_and!; auto with bitprim; [apply bytes_ok_to_little_endian|].
  apply bytes_ok_concat, Forall_map. eapply Forall_impl; [exact Hs|]. by intros h [_ Hh].
Qed.

Lemma get_blocks_reports {R} `{ReaderLaws R} version self :
  reports (fun m => m = default) (from_data version self).
Proof. do 4 (apply reports_bind; intros ?). by apply reports_check. Qed.

#[global] Instance get_blocks_laws : MessageLaws t.
Proof.
  refine {| msg_blank _ m := m = msg_default; msg_wf := wf; msg_decoded _ _ m := m |}; simpl.
  - by apply (bool_decide_unpack _); vm_compute.
  - intros version m e Hm [= <-] _. by rewrite zlen_get_blocks.
  - intros version m e Hm [= <-]. by eapply bytes_ok_get_blocks.
  - intros R ? ? version self m e Hm [= <-]. by apply reads_exact, get_blocks_reads.
  - done.
  - intros R ? ? version self. apply get_blocks_reports.
Defined.

(** Equality of two requests is equality of their fields. *)
Lemma get_blocks_eqb a b : eqb a b = true <-> a = b.
Proof.
  unfold eqb. rewrite !andb_true_iff, Z.eqb_eq, bool_decide_eq_true, forallb_forall.
  destruct a as [l s], b as [l' s']; cbn [start_hashes stop_hash]. split.
  - intros [[Hl ->] Hall]. f_equal. revert l' Hl Hall.
    induction l as [|h l IH]; intros [|h' l'] Hl Hall; try zlen_lia; [done|].
    f_equal; [|apply IH; [zlen_lia|]].
    + specialize (Hall (h, h') (or_introl eq_refl)). by apply bool_decide_eq_true in Hall.
    + intros p Hp. apply Hall. by right.
  - intros [= <- <-]. split_and!; try done. intros [x y] Hin. apply bool_decide_eq_true.
    clear -Hin. induction l as [|h l IH]; simpl in Hin; [done|]. destruct Hin as [[= <- <-]|Hin]; auto.
Qed.
End get_blocks.

(** ** [get_headers] derives from [get_blocks] *)

Module get_headers.
Section GetHeaders.
Context `{Currency}.

Record t := mk { base : get_blocks.t }.
Definition command : list Z := chars "getheaders".
Definition version_minimum : Z := level.headers.
Definition version_maximum : Z := level.maximum.

Definition reset (m : t) : t := mk (get_blocks.reset (base m)).

Definition from_data {R} `{Reader R} (version : Z) (self : t) : rd R (t * bool) :=
  p <~ get_blocks.from_data version (base self) ;;
  if negb (snd p) then rret (mk (fst p), false)
  else require_version version version_minimum ;;; rd_check (mk (fst p)) (reset (mk (fst p))).

Definition assign (self other : t) : t :=
  mk (get_blocks.set_stop_hash (get_blocks.stop_hash (base other))
        (get_blocks.set_start_hashes (get_blocks.start_hashes (base other)) (base self))).
Definition eqb (a b : t) : bool := get_blocks.eqb (base a) (base b).

#[global] Instance get_headers_message : Message t := {
  msg_command := command; msg_default := mk get_blocks.default; msg_reset := reset;
  msg_from_data R _ version self := from_data version self;
  msg_to_data version m := Some (get_blocks.to_data version (base m));
  msg_serialized_size version m := Some (get_blocks.serialized_size version (base m))
}.

Definition factory_from_data {R} `{Reader R} (version : Z) : rd R t := msg_factory version.

Definition wf (version : Z) (m : t) : Prop :=
  version_minimum <= version /\ get_blocks.wf version (base m).

#[global] Instance get_headers_laws : MessageLaws t.
Proof.
  refine {| msg_blank _ m := m = msg_default; msg_wf := wf; msg_decoded _ _ m := m |}; simpl.
  - by apply (bool_decide_unpack _); vm_compute.
  - intros version m e [_ Hm] [= <-] _. by rewrite get_blocks.zlen_get_blocks.
  - intros version m e [_ Hm] [= <-]. by eapply get_blocks.bytes_ok_get_blocks.
  - intros R ? ? version self m e [Hv Hm] [= <-]. apply reads_exact.
    eapply reads_bind_nil; [by apply get_blocks.get_blocks_reads|]. cbn [snd fst negb].
    eapply reads_bind_nil; [by apply reads_require|]. destruct m. apply reads_check.
  - done.
  - intros R ? ? version self.
    eapply reports_early; [apply get_blocks.get_blocks_reports| |].
    + intros b ->. eexists. by split.
    + intros b. apply reports_bind. intros ?. by apply reports_check.
Defined.
End GetHeaders.
End get_headers.

(** ** [message::header]

    A block header followed by a zero byte, the count of transactions that the
    [headers] message would carry, except at the canonical level. *)

Module header_message.

Definition command : list Z := chars "headers".
Definition version_minimum : Z := level.minimum.
Definition version_maximum : Z := level.maximum.

Definition satoshi_fixed_size (version : Z) : Z :=
  let canonical := version =? level.canonical in
  header_serialized_size true + (if canonical then 0 else variable_uint_size 0).

Definition from_data {R} `{Reader R} (version : Z) (self : header) : rd R (header * bool) :=
  p <~ header_from_data true self ;;
  if negb (snd p) then rret (fst p, false)
  else
    trail <~ (if version =? level.canonical then rret 0 else rd_read_byte) ;;
    (if negb (trail =? 0) then rd_invalidate else rret tt) ;;;
    rd_check (fst p) (reset_header (fst p)).

Definition factory_from_data {R} `{Reader R} (version : Z) : rd R header :=
  p <~ from_data version default_header ;; rret (fst p).

Definition to_data (version : Z) (h : header) : list Z :=
  header_to_data true h ++
  (if version =? level.canonical then [] else write_variable_little_endian 0).

Definition serialized_size (version : Z) (h : header) : Z := satoshi_fixed_size version.
Definition reset (h : header) : header := reset_header h.
Definition assign (self other : header) : header := assign_header self other.
Definition eqb (a b : header) : bool := header_eqb a b.

Definition wf (h : header) : Prop :=
  header_wf h /\ bytes_ok (previous_block_hash h) /\ bytes_ok (merkle h).

(** The header that the bytes of [h] decode to, read into [self]. *)
Definition decoded (self h : header) : header :=
  mk_header (hd_version h) (previous_block_hash h) (merkle h) (hd_timestamp h) (hd_bits h)
    (nonce h) (hd_hash_ self) (hd_height self) (hd_median_time_past self).

Lemma header_message_reads {R} `{ReaderLaws R} version self h :
  wf h -> reads (from_data version self) (to_data version h) (decoded self h, true).
Proof.
  intros [Hh _]. unfold from_data, to_data.
  eapply reads_bind; [by apply header_reads|]. cbn [snd fst negb].
  eapply (reads_bind_nil _ _ _ 0).
  - destruct (version =? level.canonical); [apply reads_ret|by apply (reads_write_byte 0)].
  - eapply reads_bind_nil; [apply reads_ret|]. apply reads_check.
Qed.

Lemma zlen_header_message version h :
  wf h -> zlen (to_data version h) = satoshi_fixed_size version.
Proof.
  intros [Hh _]. unfold to_data, satoshi_fixed_size.
  rewrite zlen_app, zlen_header_to_data by done. by destruct (version =? level.canonical).
Qed.

Lemma bytes_ok_header_to_data wire h :
  bytes_ok (previous_block_hash h) -> bytes_ok (merkle h) -> bytes_ok (header_to_data wire h).
Proof.
  intros Hp Hm. unfold header_to_data, write_hash. rewrite !bytes_ok_app.
  split_and!; try apply bytes_ok_to_little_endian; try done.
  destruct wire; [constructor|apply bytes_ok_to_little_endian].
Qed.

Lemma bytes_ok_header_message version h : wf h -> bytes_ok (to_data version h).
Proof.
  intros (_ & Hp & Hm). apply bytes_ok_app. split; [by apply bytes_ok_header_to_data|].
  destruct (version =? level.canonical); auto with bitprim.
Qed.

Lemma header_to_data_decoded self h : header_to_data true (decoded self h) = header_to_data true h.
Proof. done. Qed.

End header_message.

(** ** [headers] *)

Module headers.
Section Headers.
Context `{Currency}.

Record t := mk { elements : list header }.
Definition command : list Z := chars "headers".
Definition version_minimum : Z := level.headers.
Definition version_maximum : Z := level.maximum.

Definition is_valid (m : t) : bool := negb (bool_decide (length (elements m) = 0%nat)).
Definition reset (m : t) : t := mk [].
Definition set_elements (v : list header) (m : t) : t := mk v.
Definition assign (self other : t) : t := mk (elements other).

Fixpoint elements_eqb (a b : list header) : bool :=
  match a, b with
  | [], [] => true
  | x :: a, y :: b => header_message.eqb x y && elements_eqb a b
  | _, _ => false
  end.
Definition eqb (a b : t) : bool := elements_eqb (elements a) (elements b).

Definition from_data {R} `{Reader R} (version : Z) (self : t) : rd R (t * bool) :=
  count <~ read_size_little_endian ;;
  elements <~ guarded count max_get_headers
    (read_each (header_message.from_data version default_header) default_header) ;;
  require_version version version_minimum ;;;
  rd_check (mk elements) (reset (mk elements)).

Definition to_data (version : Z) (m : t) : list Z :=
  write_variable_little_endian (zlen (elements m)) ++
  concat (map (header_message.to_data version) (elements m)).

Definition serialized_size (version : Z) (m : t) : Z :=
  variable_uint_size (zlen (elements m)) +
  zlen (elements m) * header_message.satoshi_fixed_size version.

(** [hash()] memoizes in the element; the value is the same before and after. *)
Section Hashes.
Context `{Crypto}.

Definition hash_of (h : header) : list Z := fst (header_hash h).

(** The loop of [is_sequential] after the first element. *)
Fixpoint sequential_loop (previous : list Z) (l : list header) : bool :=
  match l with
  | [] => true
  | h :: l =>
      if negb (bool_decide (previous_block_hash h = previous)) then false
      else sequential_loop (hash_of h) l
  end.

Definition is_sequential (m : t) : bool :=
  match elements m with
  | [] => true
  | h :: l => sequential_loop (hash_of h) l
  end.

Definition to_hashes (m : t) : list (list Z) := map hash_of (elements m).
Definition to_inventory (type : Z) (m : t) : list inventory_vector.t :=
  map (fun h => inventory_vector.mk type (hash_of h)) (elements m).

(** Sequential headers are a chain: each names the hash of the one before. *)
Lemma is_sequential_chain m :
  is_sequential m = true <->
  forall i a b, elements m !! i = Some a -> elements m !! S i = Some b ->
    previous_block_hash b = hash_of a.
Proof.
  unfold is_sequential. destruct (elements m) as [|h l]; [done|].
  revert h. induction l as [|h' l IH]; intros h; cbn [sequential_loop].
  { split; [|done]. intros _ [|i] a b Ha Hb; simplify_eq/=. }
  destruct (decide (previous_block_hash h' = hash_of h)) as [E|E].
  - rewrite bool_decide_true by done. cbn [negb]. rewrite IH. split; intros Hall.
    + intros [|i] a b Ha Hb; simplify_eq/=; [done|]. by apply (Hall i).
    + intros i a b Ha Hb. by apply (Hall (S i)).
  - rewrite bool_decide_false by done. cbn [negb]. split; [done|]. intros Hall.
    exfalso. apply E. by apply (Hall 0%nat).
Qed.

(** The inventory of some headers lists their hashes. *)
Lemma to_inventory_hashes type m :
  inventory.to_hashes [] type (to_inventory type m) = to_hashes m.
Proof.
  replace (to_inventory type m) with (inventory.of_hashes (to_hashes m) type).
  - apply inventory.to_hashes_of_hashes.
  - unfold inventory.of_hashes, to_hashes, to_inventory. by rewrite map_map.
Qed.
End Hashes.

#[global] Instance headers_message : Message t := {
  msg_command := command; msg_default := mk []; msg_reset := reset;
  msg_from_data R _ version self := from_data version self;
  msg_to_data version m := Some (to_data version m);
  msg_serialized_size version m := Some (serialized_size version m)
}.

Definition factory_from_data {R} `{Reader R} (version : Z) : rd R t := msg_factory version.

Definition wf (version : Z) (m : t) : Prop :=
  version_minimum <= version /\ zlen (elements m) <= max_get_headers /\
  Forall header_message.wf (elements m).

Definition decoded (m : t) : t := mk (map (header_message.decoded default_header) (elements m)).

Lemma headers_reads {R} `{ReaderLaws R} version self m :
  wf version m -> reads (from_data version self) (to_data version m) (decoded m, true).
Proof.
  intros (Hv & Hl & Hm). unfold from_data, to_data.
  eapply reads_bind; [apply reads_size, in_width_zlen; unfold max_get_headers in Hl; lia|].
  eapply (reads_bind_nil _ _ _ (elements (decoded m))).
  { replace (zlen (elements m)) with (zlen (elements (decoded m))) in Hl |- *
      by (unfold zlen; simpl; by rewrite length_map).
    apply reads_guarded; [done|]. apply reads_each. simpl.
    apply Forall2_fmap_l, Forall2_map_r. eapply Forall_impl; [exact Hm|]. intros h Hh.
    by apply header_message.header_message_reads. }
  eapply reads_bind_nil; [by apply reads_require|]. apply reads_check.
Qed.

#[global] Instance headers_laws : MessageLaws t.
Proof.
  refine {| msg_blank _ m := m = msg_default; msg_wf := wf; msg_decoded _ _ m := decoded m |}; simpl.
  - by apply (bool_decide_unpack _); vm_compute.
  - intros version m e (_ & Hl & Hm) [= <-] _. f_equal. unfold to_data, serialized_size.
    rewrite zlen_app, zlen_write_variable by (apply in_width_zlen; unfold max_get_headers in Hl; lia).
    f_equal. rewrite (zlen_concat_const _ (header_message.satoshi_fixed_size version)).
    + unfold zlen. by rewrite length_map.
    + apply Forall_map. eapply Forall_impl; [exact Hm|]. apply header_message.zlen_header_message.
  - intros version m e (_ & _ & Hm) [= <-]. apply bytes_ok_app. split; [auto with bitprim|].
    apply bytes_ok_concat, Forall_map. eapply Forall_impl; [exact Hm|].
    apply header_message.bytes_ok_header_message.
  - intros R ? ? version self m e Hm [= <-]. by apply reads_exact, headers_reads.
  - intros version self m e _ [= <-]. unfold to_data, decoded, zlen. simpl. by rewrite length_map, map_map.
  - intros R ? ? version self. do 3 (apply reports_bind; intros ?). by apply reports_check.
Defined.
End Headers.
End headers.
