(* ===== verification/MsgControl.v ===== *)
(** The control messages of [src/message]: [ping], [pong], [version], [verack],
    [get_address], [memory_pool], [send_headers], [send_compact], [fee_filter],
    [filter_add], [filter_clear], [filter_load], [reject], [alert] and the
    payload of an alert. Each is a module with the operations of its class and
    an instance of [Message] with its laws. *)

From S2P Require Import Prelude Limits Endian Reader Writer Codes Header Message MsgInventory.

(** The command is a short string without nulls. *)
Ltac command_ok := by apply (bool_decide_unpack _); vm_compute.

(** A read of the whole input, its last step apart. *)
Lemma exact_bind {R} `{ReaderLaws R} {A B} (m : rd R A) (f : A -> rd R B) e1 e2 a b :
  reads m e1 a -> fst (f a (rd_at e2)) = b -> fst (rbind m f (rd_at (e1 ++ e2))) = b.
Proof. intros Hm <-. by erewrite rbind_eq by apply Hm. Qed.

(** ** Messages without fields *)

Module verack.

Inductive t : Type := mk.
Definition command : list Z := chars "verack".
Definition version_minimum : Z := level.minimum.
Definition version_maximum : Z := level.maximum.

Definition is_valid (m : t) : bool := true.
Definition reset (m : t) : t := m.

Definition from_data {R} `{Reader R} (version : Z) (self : t) : rd R (t * bool) :=
  rd_check mk (reset mk).

Definition to_data (version : Z) (m : t) : list Z := [].
Definition satoshi_fixed_size (version : Z) : Z := 0.
Definition serialized_size (version : Z) (m : t) : Z := satoshi_fixed_size version.

#[global] Instance verack_message : Message t := {
  msg_command := command; msg_default := mk; msg_reset := reset;
  msg_from_data R _ version self := from_data version self;
  msg_to_data version m := Some (to_data version m);
  msg_serialized_size version m := Some (serialized_size version m)
}.

Definition factory_from_data {R} `{Reader R} (version : Z) : rd R t := msg_factory version.

#[global] Instance verack_laws : MessageLaws t.
Proof.
  refine {| msg_blank _ m := m = msg_default; msg_wf _ _ := True; msg_decoded _ _ m := m |}; simpl.
  - command_ok.
  - by intros version m e _ [= <-] _.
  - intros version m e _ [= <-]. constructor.
  - intros R ? ? version self [] e _ [= <-]. apply (reads_exact _ []). apply reads_check.
  - done.
  - intros R ? ? version self. by apply reports_check.
Defined.
End verack.

Module get_address.

Inductive t : Type := mk.
Definition command : list Z := chars "getaddr".
Definition version_minimum : Z := level.minimum.
Definition version_maximum : Z := level.maximum.

Definition is_valid (m : t) : bool := true.
Definition reset (m : t) : t := m.

Definition from_data {R} `{Reader R} (version : Z) (self : t) : rd R (t * bool) :=
  rd_check mk (reset mk).

Definition to_data (version : Z) (m : t) : list Z := [].
Definition satoshi_fixed_size (version : Z) : Z := 0.
Definition serialized_size (version : Z) (m : t) : Z := satoshi_fixed_size version.

#[global] Instance get_address_message : Message t := {
  msg_command := command; msg_default := mk; msg_reset := reset;
  msg_from_data R _ version self := from_data version self;
  msg_to_data version m := Some (to_data version m);
  msg_serialized_size version m := Some (serialized_size version m)
}.

Definition factory_from_data {R} `{Reader R} (version : Z) : rd R t := msg_factory version.

#[global] Instance get_address_laws : MessageLaws t.
Proof.
  refine {| msg_blank _ m := m = msg_default; msg_wf _ _ := True; msg_decoded _ _ m := m |}; simpl.
  - command_ok.
  - by intros version m e _ [= <-] _.
  - intros version m e _ [= <-]. constructor.
  - intros R ? ? version self [] e _ [= <-]. apply (reads_exact _ []). apply reads_check.
  - done.
  - intros R ? ? version self. by apply reports_check.
Defined.
End get_address.

Module memory_pool.

(** A default instance is invalid; only a parse makes a valid one. *)
Record t := mk { insufficient_version : bool }.
Definition command : list Z := chars "mempool".
Definition version_minimum : Z := level.bip35.
Definition version_maximum : Z := level.maximum.

Definition default : t := mk true.
Definition is_valid (m : t) : bool := negb (insufficient_version m).
Definition reset (m : t) : t := mk true.

Definition from_data {R} `{Reader R} (version : Z) (self : t) : rd R (t * bool) :=
  require_version version version_minimum ;;;
  rd_check (mk false) (reset self).

Definition to_data (version : Z) (m : t) : list Z := [].
Definition satoshi_fixed_size (version : Z) : Z := 0.
Definition serialized_size (version : Z) (m : t) : Z := satoshi_fixed_size version.

#[global] Instance memory_pool_message : Message t := {
  msg_command := command; msg_default := default; msg_reset := reset;
  msg_from_data R _ version self := from_data version self;
  msg_to_data version m := Some (to_data version m);
  msg_serialized_size version m := Some (serialized_size version m)
}.

Definition factory_from_data {R} `{Reader R} (version : Z) : rd R t := msg_factory version.

#[global] Instance memory_pool_laws : MessageLaws t.
Proof.
  refine {| msg_blank _ m := m = msg_default; msg_wf version m := version_minimum <= version; msg_decoded _ _ m := mk false |}; simpl.
  - command_ok.
  - by intros version m e _ [= <-] _.
  - intros version m e _ [= <-]. constructor.
  - intros R ? ? version self m e Hv [= <-]. apply (reads_exact _ []).
    eapply reads_bind_nil; [by apply reads_require|apply reads_check].
  - done.
  - intros R ? ? version self. apply reports_bind. intros ?. by apply reports_check.
Defined.
End memory_pool.

Module filter_clear.

(** A default instance is invalid; only a parse makes a valid one. *)
Record t := mk { insufficient_version : bool }.
Definition command : list Z := chars "filterclear".
Definition version_minimum : Z := level.bip37.
Definition version_maximum : Z := level.maximum.

Definition default : t := mk true.
Definition is_valid (m : t) : bool := negb (insufficient_version m).
Definition reset (m : t) : t := mk true.

Definition from_data {R} `{Reader R} (version : Z) (self : t) : rd R (t * bool) :=
  require_version version version_minimum ;;;
  rd_check (mk false) (reset self).

Definition to_data (version : Z) (m : t) : list Z := [].
Definition satoshi_fixed_size (version : Z) : Z := 0.
Definition serialized_size (version : Z) (m : t) : Z := satoshi_fixed_size version.

#[global] Instance filter_clear_message : Message t := {
  msg_command := command; msg_default := default; msg_reset := reset;
  msg_from_data R _ version self := from_data version self;
  msg_to_data version m := Some (to_data version m);
  msg_serialized_size version m := Some (serialized_size version m)
}.

Definition factory_from_data {R} `{Reader R} (version : Z) : rd R t := msg_factory version.

#[global] Instance filter_clear_laws : MessageLaws t.
Proof.
  refine {| msg_blank _ m := m = msg_default; msg_wf version m := version_minimum <= version; msg_decoded _ _ m := mk false |}; simpl.
  - command_ok.
  - by intros version m e _ [= <-] _.
  - intros version m e _ [= <-]. constructor.
  - intros R ? ? version self m e Hv [= <-]. apply (reads_exact _ []).
    eapply reads_bind_nil; [by apply reads_require|apply reads_check].
  - done.
  - intros R ? ? version self. apply reports_bind. intros ?. by apply reports_check.
Defined.
End filter_clear.

Module send_headers.

(** A default instance is invalid; only a parse makes a valid one. *)
Record t := mk { insufficient_version : bool }.
Definition command : list Z := chars "sendheaders".
Definition version_minimum : Z := level.bip130.
Definition version_maximum : Z := level.maximum.

Definition default : t := mk true.
Definition is_valid (m : t) : bool := negb (insufficient_version m).
Definition reset (m : t) : t := mk true.

(** Below its level the flag is set before the reset sets it again. *)
Definition from_data {R} `{Reader R} (version : Z) (self : t) : rd R (t * bool) :=
  require_version version version_minimum ;;;
  rd_check (mk (version <? version_minimum)) (reset self).

Definition to_data (version : Z) (m : t) : list Z := [].
Definition satoshi_fixed_size (version : Z) : Z := 0.
Definition serialized_size (version : Z) (m : t) : Z := satoshi_fixed_size version.

#[global] Instance send_headers_message : Message t := {
  msg_command := command; msg_default := default; msg_reset := reset;
  msg_from_data R _ version self := from_data version self;
  msg_to_data version m := Some (to_data version m);
  msg_serialized_size version m := Some (serialized_size version m)
}.

Definition factory_from_data {R} `{Reader R} (version : Z) : rd R t := msg_factory version.

#[global] Instance send_headers_laws : MessageLaws t.
Proof.
  refine {| msg_blank _ m := m = msg_default; msg_wf version m := version_minimum <= version; msg_decoded _ _ m := mk false |}; simpl.
  - command_ok.
  - by intros version m e _ [= <-] _.
  - intros version m e _ [= <-]. constructor.
  - intros R ? ? version self m e Hv [= <-]. apply (reads_exact _ []).
    eapply reads_bind_nil; [by apply reads_require|].
    replace (version <? version_minimum) with false by (symmetry; by apply Z.ltb_ge). apply reads_check.
  - done.
  - intros R ? ? version self. apply reports_bind. intros ?. by apply reports_check.
Defined.
End send_headers.

(** ** [ping] and [pong] *)

Module ping.

Record t := mk { nonce : Z; nonceless : bool; valid : bool }.
Definition command : list Z := chars "ping".
Definition version_minimum : Z := level.minimum.
Definition version_maximum : Z := level.maximum.

Definition default : t := mk 0 false false.
Definition of_nonce (nonce : Z) : t := mk nonce false true.
Definition is_valid (m : t) : bool := valid m || nonceless m || negb (nonce m =? 0).
Definition reset (m : t) : t := mk 0 false false.
Definition set_nonce (v : Z) (m : t) : t := mk v (nonceless m) (valid m).
(** [operator=] moves the nonce and keeps the flags. *)
Definition assign (self other : t) : t := mk (nonce other) (nonceless self) (valid self).
Definition eqb (a b : t) : bool := nonce a =? nonce b.

Definition from_data {R} `{Reader R} (version : Z) (self : t) : rd R (t * bool) :=
  let nonceless := version <? level.bip31 in
  nonce <~ (if negb nonceless then read_8_bytes_little_endian else rret 0) ;;
  rd_check (mk nonce nonceless true) (reset self).

Definition to_data (version : Z) (m : t) : list Z :=
  if version >=? level.bip31 then write_8_bytes_little_endian (nonce m) else [].
Definition satoshi_fixed_size (version : Z) : Z := if version <? level.bip31 then 0 else 8.
Definition serialized_size (version : Z) (m : t) : Z := satoshi_fixed_size version.

#[global] Instance ping_message : Message t := {
  msg_command := command; msg_default := default; msg_reset := reset;
  msg_from_data R _ version self := from_data version self;
  msg_to_data version m := Some (to_data version m);
  msg_serialized_size version m := Some (serialized_size version m)
}.

Definition factory_from_data {R} `{Reader R} (version : Z) : rd R t := msg_factory version.

(** Below its level a ping carries no nonce. *)
Definition decoded (version : Z) (m : t) : t :=
  if version <? level.bip31 then mk 0 true true else mk (nonce m) false true.

#[global] Instance ping_laws : MessageLaws t.
Proof.
  refine {| msg_blank _ m := m = msg_default; msg_wf _ m := in_width 64 (nonce m); msg_decoded version _ m := decoded version m |}; simpl.
  - command_ok.
  - intros version m e _ [= <-] _. unfold serialized_size, satoshi_fixed_size, to_data.
    rewrite Z.geb_leb. case_if; case_if; done || lia.
  - intros version m e _ [= <-]. unfold to_data. case_if; [apply bytes_ok_to_little_endian|constructor].
  - intros R ? ? version self m e Hm [= <-]. apply reads_exact. unfold to_data, from_data, decoded.
    rewrite Z.geb_leb. destruct (version <? level.bip31) eqn:E; bool_to_prop;
      destruct (level.bip31 <=? version) eqn:E2; bool_to_prop; try lia.
    + eapply reads_bind_nil; [apply reads_ret|apply reads_check].
    + eapply reads_bind_nil; [by apply reads_le|apply reads_check].
  - intros version self m e Hm [= <-]. unfold to_data, decoded. rewrite Z.geb_leb.
    destruct (version <? level.bip31) eqn:E; bool_to_prop; case_if; done || lia.
  - intros R ? ? version self. apply reports_bind. intros ?. by apply reports_check.
Defined.
End ping.

Module pong.

Record t := mk { nonce : Z; valid : bool }.
Definition command : list Z := chars "pong".
Definition version_minimum : Z := level.minimum.
Definition version_maximum : Z := level.maximum.

Definition default : t := mk 0 false.
Definition of_nonce (nonce : Z) : t := mk nonce true.
Definition is_valid (m : t) : bool := valid m || negb (nonce m =? 0).
Definition reset (m : t) : t := mk 0 false.
Definition set_nonce (v : Z) (m : t) : t := mk v (valid m).
(** [operator=] moves the nonce and keeps the flag. *)
Definition assign (self other : t) : t := mk (nonce other) (valid self).
Definition eqb (a b : t) : bool := nonce a =? nonce b.

Definition from_data {R} `{Reader R} (version : Z) (self : t) : rd R (t * bool) :=
  nonce <~ read_8_bytes_little_endian ;;
  rd_check (mk nonce true) (reset self).

Definition to_data (version : Z) (m : t) : list Z := write_8_bytes_little_endian (nonce m).
Definition satoshi_fixed_size (version : Z) : Z := 8.
Definition serialized_size (version : Z) (m : t) : Z := satoshi_fixed_size version.

#[global] Instance pong_message : Message t := {
  msg_command := command; msg_default := default; msg_reset := reset;
  msg_from_data R _ version self := from_data version self;
  msg_to_data version m := Some (to_data version m);
  msg_serialized_size version m := Some (serialized_size version m)
}.

Definition factory_from_data {R} `{Reader R} (version : Z) : rd R t := msg_factory version.

#[global] Instance pong_laws : MessageLaws t.
Proof.
  refine {| msg_blank _ m := m = msg_default; msg_wf _ m := in_width 64 (nonce m); msg_decoded version _ m := mk (nonce m) true |}; simpl.
  - command_ok.
  - by intros version m e _ [= <-] _.
  - intros version m e _ [= <-]. apply bytes_ok_to_little_endian.
  - intros R ? ? version self m e Hm [= <-]. apply reads_exact.
    eapply reads_bind_nil; [by apply reads_le|apply reads_check].
  - done.
  - intros R ? ? version self. apply reports_bind. intros ?. by apply reports_check.
Defined.
End pong.

(** ** [fee_filter] and [send_compact] *)

Module fee_filter.

Record t := mk { minimum_fee : Z; insufficient_version : bool }.
Definition command : list Z := chars "feefilter".
Definition version_minimum : Z := level.bip133.
Definition version_maximum : Z := level.bip133.

Definition default : t := mk 0 true.
Definition of_fee (minimum : Z) : t := mk minimum false.
Definition is_valid (m : t) : bool := negb (insufficient_version m) || (minimum_fee m >? 0).
Definition reset (m : t) : t := mk 0 true.
Definition set_minimum_fee (v : Z) (m : t) : t := mk v false.
Definition assign (self other : t) : t :=
  mk (minimum_fee other) (insufficient_version other).
Definition eqb (a b : t) : bool := minimum_fee a =? minimum_fee b.

Definition from_data {R} `{Reader R} (version : Z) (self : t) : rd R (t * bool) :=
  minimum_fee <~ read_8_bytes_little_endian ;;
  require_version version version_minimum ;;;
  rd_check (mk minimum_fee false) (reset self).

Definition to_data (version : Z) (m : t) : list Z := write_8_bytes_little_endian (minimum_fee m).
Definition satoshi_fixed_size (version : Z) : Z := 8.
Definition serialized_size (version : Z) (m : t) : Z := satoshi_fixed_size version.

#[global] Instance fee_filter_message : Message t := {
  msg_command := command; msg_default := default; msg_reset := reset;
  msg_from_data R _ version self := from_data version self;
  msg_to_data version m := Some (to_data version m);
  msg_serialized_size version m := Some (serialized_size version m)
}.

Definition factory_from_data {R} `{Reader R} (version : Z) : rd R t := msg_factory version.

#[global] Instance fee_filter_laws : MessageLaws t.
Proof.
  refine {| msg_blank _ m := m = msg_default; msg_wf version m := version_minimum <= version /\ in_width 64 (minimum_fee m);
            msg_decoded version _ m := mk (minimum_fee m) false |}; simpl.
  - command_ok.
  - by intros version m e _ [= <-] _.
  - intros version m e _ [= <-]. apply bytes_ok_to_little_endian.
  - intros R ? ? version self m e [Hv Hm] [= <-]. apply reads_exact.
    eapply reads_bind_nil; [by apply reads_le|].
    eapply reads_bind_nil; [by apply reads_require|apply reads_check].
  - done.
  - intros R ? ? version self. do 2 (apply reports_bind; intros ?). by apply reports_check.
Defined.
End fee_filter.

Module send_compact.

Record t := mk { high_bandwidth_mode : bool; version_ : Z }.
Definition command : list Z := chars "sendcmpct".
Definition version_minimum : Z := level.bip152.
Definition version_maximum : Z := level.bip152.

Definition default : t := mk false 0.
Definition is_valid (m : t) : bool := negb (version_ m =? 0).
Definition reset (m : t) : t := mk false 0.
Definition set_high_bandwidth_mode (v : bool) (m : t) : t := mk v (version_ m).
Definition set_version (v : Z) (m : t) : t := mk (high_bandwidth_mode m) v.
Definition assign (self other : t) : t :=
  mk (high_bandwidth_mode other) (version_ other).
Definition eqb (a b : t) : bool :=
  Bool.eqb (high_bandwidth_mode a) (high_bandwidth_mode b) && (version_ a =? version_ b).

Definition from_data {R} `{Reader R} (version : Z) (self : t) : rd R (t * bool) :=
  mode <~ rd_read_byte ;;
  (if mode >? 1 then rd_invalidate else rret tt) ;;;
  version_ <~ read_8_bytes_little_endian ;;
  require_version version version_minimum ;;;
  rd_check (mk (mode =? 1) version_) (reset self).

Definition to_data (version : Z) (m : t) : list Z :=
  write_byte (if high_bandwidth_mode m then 1 else 0) ++ write_8_bytes_little_endian (version_ m).
Definition satoshi_fixed_size (version : Z) : Z := 9.
Definition serialized_size (version : Z) (m : t) : Z := satoshi_fixed_size version.

#[global] Instance send_compact_message : Message t := {
  msg_command := command; msg_default := default; msg_reset := reset;
  msg_from_data R _ version self := from_data version self;
  msg_to_data version m := Some (to_data version m);
  msg_serialized_size version m := Some (serialized_size version m)
}.

Definition factory_from_data {R} `{Reader R} (version : Z) : rd R t := msg_factory version.

#[global] Instance send_compact_laws : MessageLaws t.
Proof.
  refine {| msg_blank _ m := m = msg_default; msg_wf version m := version_minimum <= version /\ in_width 64 (version_ m);
            msg_decoded version _ m := m |}; simpl.
  - command_ok.
  - by intros version m e _ [= <-] _.
  - intros version m e _ [= <-]. apply bytes_ok_app.
    split; [auto with bitprim|apply bytes_ok_to_little_endian].
  - intros R ? ? version self [mode v] e [Hv Hm] [= <-]. apply reads_exact.
    eapply reads_bind; [apply reads_write_byte; by destruct mode|].
    eapply (reads_bind_pure _ _ _ tt); [by destruct mode; apply reads_ret|].
    eapply reads_bind_nil; [by apply reads_le|].
    eapply reads_bind_nil; [by apply reads_require|]. destruct mode; apply reads_check.
  - done.
  - intros R ? ? version self. do 4 (apply reports_bind; intros ?). by apply reports_check.
Defined.
End send_compact.

(** ** [filter_add] and [filter_load] *)

(** [if (size > maximum) source.invalidate(); else data_ = source.read_bytes(size);] *)
Definition guarded_bytes {R} `{Reader R} (size maximum : Z) : rd R (list Z) :=
  if size >? maximum then rd_invalidate ;;; rret [] else rd_read_bytes size.

Lemma reads_guarded_bytes {R} `{ReaderLaws R} data maximum :
  zlen data <= maximum -> reads (guarded_bytes (zlen data) maximum) (write_bytes data) data.
Proof. intros Hl. unfold guarded_bytes. case_if; [lia|]. by apply reads_bytes. Qed.

Lemma always_guarded_bytes {R} `{ReaderLaws R} size maximum :
  0 <= maximum -> always (guarded_bytes size maximum) (fun l => zlen l <= maximum).
Proof.
  intros Hm r. unfold guarded_bytes. case_if.
  - unfold rbind. destruct (rd_invalidate r). unfold zlen. simpl. lia.
  - unfold zlen. rewrite rd_read_bytes_length. lia.
Qed.

Module filter_add.

Record t := mk { data : list Z }.
Definition command : list Z := chars "filteradd".
Definition version_minimum : Z := level.bip37.
Definition version_maximum : Z := level.maximum.

Definition default : t := mk [].
Definition is_valid (m : t) : bool := negb (bool_decide (data m = [])).
Definition reset (m : t) : t := mk [].
Definition set_data (v : list Z) (m : t) : t := mk v.
Definition assign (self other : t) : t := mk (data other).
Definition eqb (a b : t) : bool := bool_decide (data a = data b).

Definition from_data {R} `{Reader R} (version : Z) (self : t) : rd R (t * bool) :=
  size <~ read_size_little_endian ;;
  data <~ guarded_bytes size max_filter_add ;;
  require_version version version_minimum ;;;
  rd_check (mk data) (reset self).

Definition to_data (version : Z) (m : t) : list Z :=
  write_variable_little_endian (zlen (data m)) ++ write_bytes (data m).
Definition serialized_size (version : Z) (m : t) : Z := variable_uint_size (zlen (data m)) + zlen (data m).

#[global] Instance filter_add_message : Message t := {
  msg_command := command; msg_default := default; msg_reset := reset;
  msg_from_data R _ version self := from_data version self;
  msg_to_data version m := Some (to_data version m);
  msg_serialized_size version m := Some (serialized_size version m)
}.

Definition factory_from_data {R} `{Reader R} (version : Z) : rd R t := msg_factory version.

Definition wf (version : Z) (m : t) : Prop :=
  version_minimum <= version /\ zlen (data m) <= max_filter_add /\ bytes_ok (data m).

#[global] Instance filter_add_laws : MessageLaws t.
Proof.
  refine {| msg_blank _ m := m = msg_default; msg_wf := wf; msg_decoded version _ m := m |}; simpl.
  - command_ok.
  - intros version m e (_ & Hl & _) [= <-] _. unfold to_data, serialized_size.
    by rewrite zlen_app, zlen_write_variable by (apply in_width_zlen; unfold max_filter_add in Hl; lia).
  - intros version m e (_ & _ & Hb) [= <-]. apply bytes_ok_app. auto with bitprim.
  - intros R ? ? version self m e (Hv & Hl & Hb) [= <-]. apply reads_exact.
    eapply reads_bind; [apply reads_size, in_width_zlen; unfold max_filter_add in Hl; lia|].
    eapply reads_bind_nil; [by apply reads_guarded_bytes|].
    eapply reads_bind_nil; [by apply reads_require|]. destruct m. apply reads_check.
  - done.
  - intros R ? ? version self. do 3 (apply reports_bind; intros ?). by apply reports_check.
Defined.
End filter_add.

Module filter_load.

Record t := mk { filter : list Z; hash_functions : Z; tweak : Z; flags : Z }.
Definition command : list Z := chars "filterload".
Definition version_minimum : Z := level.bip37.
Definition version_maximum : Z := level.maximum.

Definition default : t := mk [] 0 0 0.
Definition is_valid (m : t) : bool :=
  negb (bool_decide (filter m = [])) || negb (hash_functions m =? 0) || negb (tweak m =? 0) ||
  negb (flags m =? 0).
Definition reset (m : t) : t := mk [] 0 0 0.
Definition set_filter (v : list Z) (m : t) : t := mk v (hash_functions m) (tweak m) (flags m).
Definition set_hash_functions (v : Z) (m : t) : t := mk (filter m) v (tweak m) (flags m).
Definition set_tweak (v : Z) (m : t) : t := mk (filter m) (hash_functions m) v (flags m).
Definition set_flags (v : Z) (m : t) : t := mk (filter m) (hash_functions m) (tweak m) v.
Definition assign (self other : t) : t :=
  mk (filter other) (hash_functions other) (tweak other) (flags other).
Definition eqb (a b : t) : bool :=
  bool_decide (filter a = filter b) && (hash_functions a =? hash_functions b) &&
  (tweak a =? tweak b) && (flags a =? flags b).

Definition from_data {R} `{Reader R} (version : Z) (self : t) : rd R (t * bool) :=
  size <~ read_size_little_endian ;;
  filter <~ guarded_bytes size max_filter_load ;;
  hash_functions <~ read_4_bytes_little_endian ;;
  (if hash_functions >? max_filter_functions then rd_invalidate else rret tt) ;;;
  tweak <~ read_4_bytes_little_endian ;;
  flags <~ rd_read_byte ;;
  require_version version version_minimum ;;;
  rd_check (mk filter hash_functions tweak flags) (reset self).

Definition to_data (version : Z) (m : t) : list Z :=
  write_variable_little_endian (zlen (filter m)) ++ write_bytes (filter m) ++
  write_4_bytes_little_endian (hash_functions m) ++
  write_4_bytes_little_endian (tweak m) ++
  write_byte (flags m).
Definition serialized_size (version : Z) (m : t) : Z :=
  1 + 4 + 4 + variable_uint_size (zlen (filter m)) + zlen (filter m).

#[global] Instance filter_load_message : Message t := {
  msg_command := command; msg_default := default; msg_reset := reset;
  msg_from_data R _ version self := from_data version self;
  msg_to_data version m := Some (to_data version m);
  msg_serialized_size version m := Some (serialized_size version m)
}.

Definition factory_from_data {R} `{Reader R} (version : Z) : rd R t := msg_factory version.

Definition wf (version : Z) (m : t) : Prop :=
  version_minimum <= version /\ zlen (filter m) <= max_filter_load /\ bytes_ok (filter m) /\
  0 <= hash_functions m <= max_filter_functions /\ in_width 32 (tweak m) /\ byte_ok (flags m).

#[global] Instance filter_load_laws : MessageLaws t.
Proof.
  refine {| msg_blank _ m := m = msg_default; msg_wf := wf; msg_decoded version _ m := m |}; simpl.
  - command_ok.
  - intros version m e (_ & Hl & _) [= <-] _. unfold to_data, serialized_size.
    rewrite !zlen_app, zlen_write_variable by (apply in_width_zlen; unfold max_filter_load in Hl; lia).
    unfold write_bytes, write_4_bytes_little_endian.
    rewrite !zlen_to_little_endian, zlen_write_byte. f_equal. lia.
  - intros version m e (_ & _ & Hb & _) [= <-]. unfold to_data. rewrite !bytes_ok_app.
    split_and!; auto with bitprim; apply bytes_ok_to_little_endian.
  - intros R ? ? version self m e (Hv & Hl & Hb & Hh & Ht & Hf) [= <-]. apply reads_exact.
    eapply reads_bind; [apply reads_size, in_width_zlen; unfold max_filter_load in Hl; lia|].
    eapply reads_bind; [by apply reads_guarded_bytes|].
    eapply reads_bind; [apply reads_le; unfold in_width, max_filter_functions in *; simpl; lia|].
    eapply (reads_bind_pure _ _ _ tt); [case_if; [lia|apply reads_ret]|].
    eapply reads_bind; [by apply reads_le|].
    eapply reads_bind_nil; [by apply reads_write_byte|].
    eapply reads_bind_nil; [by apply reads_require|]. destruct m. apply reads_check.
  - done.
  - intros R ? ? version self. do 7 (apply reports_bind; intros ?). by apply reports_check.
Defined.
End filter_load.

(** ** [reject] *)

Module reject.

Inductive reason_code : Type :=
  | undefined | malformed | invalid | obsolete | duplicate
  | nonstandard | dust | insufficient_fee | checkpoint.

#[global] Instance reason_code_eq_dec : EqDecision reason_code.
Proof. solve_decision. Defined.

Definition reason_from_byte (byte : Z) : reason_code :=
  if byte =? 0x01 then malformed
  else if byte =? 0x10 then invalid
  else if byte =? 0x11 then obsolete
  else if byte =? 0x12 then duplicate
  else if byte =? 0x40 then nonstandard
  else if byte =? 0x41 then dust
  else if byte =? 0x42 then insufficient_fee
  else if byte =? 0x43 then checkpoint
  else undefined.

Definition reason_to_byte (value : reason_code) : Z :=
  match value with
  | malformed => 0x01
  | invalid => 0x10
  | obsolete => 0x11
  | duplicate => 0x12
  | nonstandard => 0x40
  | dust => 0x41
  | insufficient_fee => 0x42
  | checkpoint => 0x43
  | undefined => 0x00
  end.

Record t := mk { code : reason_code; message : list Z; reason : list Z; data : list Z }.
Definition command : list Z := chars "reject".
Definition version_minimum : Z := level.bip61.
Definition version_maximum : Z := level.maximum.

Definition block_command : list Z := chars "block".
Definition transaction_command : list Z := chars "tx".

(** [(message_ == block::command) || (message_ == transaction::command)] *)
Definition carries_hash (message : list Z) : bool :=
  bool_decide (message = block_command) || bool_decide (message = transaction_command).

Definition default : t := mk undefined [] [] null_hash.
Definition without_data (code : reason_code) (message reason : list Z) : t :=
  mk code message reason null_hash.
Definition is_valid (m : t) : bool :=
  negb (bool_decide (message m = [])) || negb (bool_decide (code m = undefined)) ||
  negb (bool_decide (reason m = [])) || negb (bool_decide (data m = null_hash)).
Definition reset (m : t) : t := mk undefined [] [] null_hash.
Definition set_code (v : reason_code) (m : t) : t := mk v (message m) (reason m) (data m).
Definition set_message (v : list Z) (m : t) : t := mk (code m) v (reason m) (data m).
Definition set_reason (v : list Z) (m : t) : t := mk (code m) (message m) v (data m).
Definition set_data (v : list Z) (m : t) : t := mk (code m) (message m) (reason m) v.
Definition assign (self other : t) : t :=
  mk (code other) (message other) (reason other) (data other).
Definition eqb (a b : t) : bool :=
  bool_decide (code a = code b) && bool_decide (reason a = reason b) &&
  bool_decide (message a = message b) && bool_decide (data a = data b).

(** The hash is taken only if exactly a hash remains. *)
Definition from_data {R} `{Reader R} (version : Z) (self : t) : rd R (t * bool) :=
  message <~ read_string ;;
  byte <~ rd_read_byte ;;
  reason <~ read_string ;;
  data <~ (if carries_hash message then
             bytes <~ rd_read_all ;;
             rret (if zlen bytes =? 32 then bytes else null_hash)
           else rret null_hash) ;;
  require_version version version_minimum ;;;
  rd_check (mk (reason_from_byte byte) message reason data) (reset self).

Definition to_data (version : Z) (m : t) : list Z :=
  write_string (message m) ++
  write_byte (reason_to_byte (code m)) ++
  write_string (reason m) ++
  (if carries_hash (message m) then write_hash (data m) else []).

Definition serialized_size (version : Z) (m : t) : Z :=
  1 + variable_uint_size (zlen (message m)) + zlen (message m) +
  variable_uint_size (zlen (reason m)) + zlen (reason m) +
  (if carries_hash (message m) then 32 else 0).

#[global] Instance reject_message : Message t := {
  msg_command := command; msg_default := default; msg_reset := reset;
  msg_from_data R _ version self := from_data version self;
  msg_to_data version m := Some (to_data version m);
  msg_serialized_size version m := Some (serialized_size version m)
}.

Definition factory_from_data {R} `{Reader R} (version : Z) : rd R t := msg_factory version.

Lemma reason_roundtrip code : reason_from_byte (reason_to_byte code) = code.
Proof. by destruct code. Qed.

Definition text_ok (s : list Z) : Prop :=
  in_width 64 (zlen s) /\ bytes_ok s /\ Forall (fun c => c <> 0) s.

Definition wf (version : Z) (m : t) : Prop :=
  version_minimum <= version /\ text_ok (message m) /\ text_ok (reason m) /\ hash_ok (data m).

(** Only a reject of a block or of a transaction carries its hash. *)
Definition decoded (m : t) : t :=
  mk (code m) (message m) (reason m) (if carries_hash (message m) then data m else null_hash).

Lemma reject_reads {R} `{ReaderLaws R} version self m :
  wf version m -> fst (from_data version self (rd_at (to_data version m))) = (decoded m, true).
Proof.
  intros (Hv & (Hm1 & Hm2 & Hm3) & (Hr1 & Hr2 & Hr3) & [Hl Hb]). unfold from_data, to_data, decoded.
  eapply exact_bind; [by apply reads_string|].
  eapply exact_bind; [apply reads_write_byte; by destruct (code m)|].
  eapply exact_bind; [by apply reads_string|]. rewrite reason_roundtrip.
  destruct (carries_hash (message m)).
  - unfold rbind, write_hash. destruct (rd_read_all_at (data m) Hb) as [E Ev].
    destruct (rd_read_all (rd_at (data m))) as [bytes r]. simpl in E, Ev. subst bytes.
    replace (zlen (data m)) with 32 by (unfold zlen; by rewrite Hl). simpl.
    unfold require_version. case_if; [lia|]. unfold rret, rd_check. by rewrite Ev.
  - apply reads_exact. eapply reads_bind_nil; [apply reads_ret|].
    eapply reads_bind_nil; [by apply reads_require|apply reads_check].
Qed.

Lemma zlen_write_string s :
  in_width 64 (zlen s) -> zlen (write_string s) = variable_uint_size (zlen s) + zlen s.
Proof. intros Hs. unfold write_string. by rewrite zlen_app, zlen_write_variable. Qed.

Lemma bytes_ok_write_string s : bytes_ok s -> bytes_ok (write_string s).
Proof. intros Hs. apply bytes_ok_app. auto with bitprim. Qed.

#[global] Instance reject_laws : MessageLaws t.
Proof.
  refine {| msg_blank _ m := m = msg_default; msg_wf := wf; msg_decoded version _ m := decoded m |}; simpl.
  - command_ok.
  - intros version m e (_ & [Hm _] & [Hr _] & [Hl _]) [= <-] _. unfold to_data, serialized_size, write_hash.
    rewrite !zlen_app, !zlen_write_string, zlen_write_byte by done.
    assert (zlen (data m) = 32) by (unfold zlen; by rewrite Hl).
    destruct (carries_hash (message m)); f_equal; [lia|]. change (zlen []) with 0. lia.
  - intros version m e (_ & (_ & Hm & _) & (_ & Hr & _) & [_ Hb]) [= <-]. unfold to_data.
    rewrite !bytes_ok_app. split_and!; auto using bytes_ok_write_string with bitprim.
    destruct (carries_hash (message m)); [done|constructor].
  - intros R ? ? version self m e Hm [= <-]. by apply reject_reads.
  - intros version self m e _ [= <-]. unfold to_data, decoded. simpl.
    by destruct (carries_hash (message m)).
  - intros R ? ? version self. do 5 (apply reports_bind; intros ?). by apply reports_check.
Defined.
End reject.

(** ** [alert] *)

Module alert.

Record t := mk { payload : list Z; signature : list Z }.
Definition command : list Z := chars "alert".
Definition version_minimum : Z := level.minimum.
Definition version_maximum : Z := level.maximum.

Definition default : t := mk [] [].
Definition is_valid (m : t) : bool :=
  negb (bool_decide (payload m = [])) || negb (bool_decide (signature m = [])).
Definition reset (m : t) : t := mk [] [].
Definition set_payload (v : list Z) (m : t) : t := mk v (signature m).
Definition set_signature (v : list Z) (m : t) : t := mk (payload m) v.
Definition assign (self other : t) : t :=
  mk (payload other) (signature other).
Definition eqb (a b : t) : bool :=
  bool_decide (payload a = payload b) && bool_decide (signature a = signature b).

(** [source.read_bytes(source.read_size_little_endian())], without a guard. *)
Definition read_sized_bytes {R} `{Reader R} : rd R (list Z) :=
  size <~ read_size_little_endian ;; rd_read_bytes size.

Definition from_data {R} `{Reader R} (version : Z) (self : t) : rd R (t * bool) :=
  payload <~ read_sized_bytes ;;
  signature <~ read_sized_bytes ;;
  rd_check (mk payload signature) (reset self).

Definition to_data (version : Z) (m : t) : list Z :=
  write_variable_little_endian (zlen (payload m)) ++ write_bytes (payload m) ++
  write_variable_little_endian (zlen (signature m)) ++ write_bytes (signature m).

Definition serialized_size (version : Z) (m : t) : Z :=
  variable_uint_size (zlen (payload m)) + zlen (payload m) +
  variable_uint_size (zlen (signature m)) + zlen (signature m).

#[global] Instance alert_message : Message t := {
  msg_command := command; msg_default := default; msg_reset := reset;
  msg_from_data R _ version self := from_data version self;
  msg_to_data version m := Some (to_data version m);
  msg_serialized_size version m := Some (serialized_size version m)
}.

Definition factory_from_data {R} `{Reader R} (version : Z) : rd R t := msg_factory version.

Definition wf (m : t) : Prop :=
  (in_width 64 (zlen (payload m)) /\ bytes_ok (payload m)) /\
  (in_width 64 (zlen (signature m)) /\ bytes_ok (signature m)).

Lemma reads_sized_bytes {R} `{ReaderLaws R} data :
  in_width 64 (zlen data) ->
  reads read_sized_bytes (write_variable_little_endian (zlen data) ++ write_bytes data) data.
Proof. intros Hd. eapply reads_bind; [by apply reads_size|by apply reads_bytes]. Qed.

#[global] Instance alert_laws : MessageLaws t.
Proof.
  refine {| msg_blank _ m := m = msg_default; msg_wf _ m := wf m; msg_decoded version _ m := m |}; simpl.
  - command_ok.
  - intros version m e ([Hp _] & [Hs _]) [= <-] _. unfold to_data, serialized_size, write_bytes.
    rewrite !zlen_app, !zlen_write_variable by done. f_equal. lia.
  - intros version m e ([_ Hp] & [_ Hs]) [= <-]. unfold to_data. rewrite !bytes_ok_app.
    split_and!; auto with bitprim.
  - intros R ? ? version self m e ([Hp _] & [Hs _]) [= <-]. apply reads_exact.
    unfold to_data. rewrite app_assoc.
    eapply reads_bind; [by apply reads_sized_bytes|].
    eapply reads_bind_nil; [by apply reads_sized_bytes|]. destruct m. apply reads_check.
  - done.
  - intros R ? ? version self. do 2 (apply reports_bind; intros ?). by apply reports_check.
Defined.
End alert.

(** ** [alert_payload] *)

(** What [std::vector] leaves to its implementation: the capacity of an empty
    vector after [reserve(n)], which is [n] or more, and the largest [n] that [reserve] accepts for
    elements of a size, beyond which it throws. *)
Class VectorAlloc := {
  reserve_capacity : Z -> Z;
  vector_max_size : Z -> Z
}.

Module alert_payload.

Record t := mk {
  version_ : Z;
  relay_until : Z;
  expiration : Z;
  id : Z;
  cancel : Z;
  set_cancel : list Z;
  min_version : Z;
  max_version : Z;
  set_sub_version : list (list Z);
  priority : Z;
  comment : list Z;
  status_bar : list Z;
  reserved : list Z
}.

Definition default : t := mk 0 0 0 0 0 [] 0 0 [] 0 [] [] [].
Definition is_valid (m : t) : bool :=
  negb (version_ m =? 0) || negb (relay_until m =? 0) || negb (expiration m =? 0) ||
  negb (id m =? 0) || negb (cancel m =? 0) || negb (bool_decide (set_cancel m = [])) ||
  negb (min_version m =? 0) || negb (max_version m =? 0) ||
  negb (bool_decide (set_sub_version m = [])) || negb (priority m =? 0) ||
  negb (bool_decide (comment m = [])) || negb (bool_decide (status_bar m = [])) ||
  negb (bool_decide (reserved m = [])).
Definition reset (m : t) : t := mk 0 0 0 0 0 [] 0 0 [] 0 [] [] [].
Definition set_version (v : Z) (m : t) : t :=
  mk v (relay_until m) (expiration m) (id m) (cancel m) (set_cancel m) (min_version m)
    (max_version m) (set_sub_version m) (priority m) (comment m) (status_bar m) (reserved m).
Definition set_relay_until (v : Z) (m : t) : t :=
  mk (version_ m) v (expiration m) (id m) (cancel m) (set_cancel m) (min_version m)
    (max_version m) (set_sub_version m) (priority m) (comment m) (status_bar m) (reserved m).
Definition set_expiration (v : Z) (m : t) : t :=
  mk (version_ m) (relay_until m) v (id m) (cancel m) (set_cancel m) (min_version m)
    (max_version m) (set_sub_version m) (priority m) (comment m) (status_bar m) (reserved m).
Definition set_id (v : Z) (m : t) : t :=
  mk (version_ m) (relay_until m) (expiration m) v (cancel m) (set_cancel m) (min_version m)
    (max_version m) (set_sub_version m) (priority m) (comment m) (status_bar m) (reserved m).
Definition set_cancel_id (v : Z) (m : t) : t :=
  mk (version_ m) (relay_until m) (expiration m) (id m) v (set_cancel m) (min_version m)
    (max_version m) (set_sub_version m) (priority m) (comment m) (status_bar m) (reserved m).
Definition set_set_cancel (v : list Z) (m : t) : t :=
  mk (version_ m) (relay_until m) (expiration m) (id m) (cancel m) v (min_version m)
    (max_version m) (set_sub_version m) (priority m) (comment m) (status_bar m) (reserved m).
Definition set_min_version (v : Z) (m : t) : t :=
  mk (version_ m) (relay_until m) (expiration m) (id m) (cancel m) (set_cancel m) v
    (max_version m) (set_sub_version m) (priority m) (comment m) (status_bar m) (reserved m).
Definition set_max_version (v : Z) (m : t) : t :=
  mk (version_ m) (relay_until m) (expiration m) (id m) (cancel m) (set_cancel m) (min_version m)
    v (set_sub_version m) (priority m) (comment m) (status_bar m) (reserved m).
Definition set_set_sub_version (v : list (list Z)) (m : t) : t :=
  mk (version_ m) (relay_until m) (expiration m) (id m) (cancel m) (set_cancel m) (min_version m)
    (max_version m) v (priority m) (comment m) (status_bar m) (reserved m).
Definition set_priority (v : Z) (m : t) : t :=
  mk (version_ m) (relay_until m) (expiration m) (id m) (cancel m) (set_cancel m) (min_version m)
    (max_version m) (set_sub_version m) v (comment m) (status_bar m) (reserved m).
Definition set_comment (v : list Z) (m : t) : t :=
  mk (version_ m) (relay_until m) (expiration m) (id m) (cancel m) (set_cancel m) (min_version m)
    (max_version m) (set_sub_version m) (priority m) v (status_bar m) (reserved m).
Definition set_status_bar (v : list Z) (m : t) : t :=
  mk (version_ m) (relay_until m) (expiration m) (id m) (cancel m) (set_cancel m) (min_version m)
    (max_version m) (set_sub_version m) (priority m) (comment m) v (reserved m).
Definition set_reserved (v : list Z) (m : t) : t :=
  mk (version_ m) (relay_until m) (expiration m) (id m) (cancel m) (set_cancel m) (min_version m)
    (max_version m) (set_sub_version m) (priority m) (comment m) (status_bar m) v.
Definition assign (self other : t) : t :=
  mk (version_ other) (relay_until other) (expiration other) (id other) (cancel other) (set_cancel other)
    (min_version other) (max_version other) (set_sub_version other) (priority other) (comment other) (status_bar other) (reserved other).
Definition eqb (a b : t) : bool :=
  (version_ a =? version_ b) && (relay_until a =? relay_until b) && (expiration a =? expiration b) &&
  (id a =? id b) && (cancel a =? cancel b) && bool_decide (set_cancel a = set_cancel b) &&
  (min_version a =? min_version b) && (max_version a =? max_version b) &&
  bool_decide (set_sub_version a = set_sub_version b) && (priority a =? priority b) &&
  bool_decide (comment a = comment b) && bool_decide (status_bar a = status_bar b) &&
  bool_decide (reserved a = reserved b).

(** The counts are not guarded: [None] is the exception of [reserve]; the loops
    run to the capacity the vector got. *)
Definition from_data `{VectorAlloc} {R} `{Reader R} (version : Z) (self : t)
    : rd R (option (t * bool)) :=
  version_ <~ read_4_bytes_little_endian ;;
  relay_until <~ read_8_bytes_little_endian ;;
  expiration <~ read_8_bytes_little_endian ;;
  id <~ read_4_bytes_little_endian ;;
  cancel <~ read_4_bytes_little_endian ;;
  cancel_count <~ read_size_little_endian ;;
  if cancel_count >? vector_max_size 4 then rret None
  else
    set_cancel <~ read_while read_4_bytes_little_endian (Z.to_nat (reserve_capacity cancel_count)) ;;
    min_version <~ read_4_bytes_little_endian ;;
    max_version <~ read_4_bytes_little_endian ;;
    sub_count <~ read_size_little_endian ;;
    if sub_count >? vector_max_size 32 then rret None
    else
      set_sub_version <~ read_while read_string (Z.to_nat (reserve_capacity sub_count)) ;;
      priority <~ read_4_bytes_little_endian ;;
      comment <~ read_string ;;
      status_bar <~ read_string ;;
      reserved <~ read_string ;;
      p <~ rd_check (mk version_ relay_until expiration id cancel set_cancel min_version max_version
                       set_sub_version priority comment status_bar reserved) (reset self) ;;
      rret (Some p).

Definition factory_from_data `{VectorAlloc} {R} `{Reader R} (version : Z) : rd R (option t) :=
  p <~ from_data version default ;; rret (option_map fst p).

Definition to_data (version : Z) (m : t) : list Z :=
  write_4_bytes_little_endian (version_ m) ++
  write_8_bytes_little_endian (relay_until m) ++
  write_8_bytes_little_endian (expiration m) ++
  write_4_bytes_little_endian (id m) ++
  write_4_bytes_little_endian (cancel m) ++
  write_variable_little_endian (zlen (set_cancel m)) ++
  concat (map write_4_bytes_little_endian (set_cancel m)) ++
  write_4_bytes_little_endian (min_version m) ++
  write_4_bytes_little_endian (max_version m) ++
  write_variable_little_endian (zlen (set_sub_version m)) ++
  concat (map write_string (set_sub_version m)) ++
  write_4_bytes_little_endian (priority m) ++
  write_string (comment m) ++
  write_string (status_bar m) ++
  write_string (reserved m).

Definition serialized_size (version : Z) (m : t) : Z :=
  fold_left (fun size sub_version => size + (variable_uint_size (zlen sub_version) + zlen sub_version))
    (set_sub_version m)
    (40 + variable_uint_size (zlen (comment m)) + zlen (comment m) +
     variable_uint_size (zlen (status_bar m)) + zlen (status_bar m) +
     variable_uint_size (zlen (reserved m)) + zlen (reserved m) +
     variable_uint_size (zlen (set_cancel m)) + 4 * zlen (set_cancel m) +
     variable_uint_size (zlen (set_sub_version m))).

Definition satoshi_public_key : list Z :=
  [0x04; 0xfc; 0x97; 0x02; 0x84; 0x78; 0x40; 0xaa; 0xf1; 0x95; 0xde;
   0x84; 0x42; 0xeb; 0xec; 0xed; 0xf5; 0xb0; 0x95; 0xcd; 0xbb; 0x9b;
   0xc7; 0x16; 0xbd; 0xa9; 0x11; 0x09; 0x71; 0xb2; 0x8a; 0x49; 0xe0;
   0xea; 0xd8; 0x56; 0x4f; 0xf0; 0xdb; 0x22; 0x20; 0x9e; 0x03; 0x74;
   0x78; 0x2c; 0x09; 0x3b; 0xb8; 0x99; 0x69; 0x2d; 0x52; 0x4e; 0x9d;
   0x6a; 0x69; 0x56; 0xe7; 0xc5; 0xec; 0xbc; 0xd6; 0x82; 0x84].

(** The loops to the capacity read the vectors back when it is their size. *)
Definition wf `{VectorAlloc} (m : t) : Prop :=
  (in_width 32 (version_ m) /\ in_width 64 (relay_until m) /\ in_width 64 (expiration m) /\
   in_width 32 (id m) /\ in_width 32 (cancel m)) /\
  (zlen (set_cancel m) <= vector_max_size 4 /\ in_width 64 (zlen (set_cancel m)) /\
   Forall (in_width 32) (set_cancel m) /\
   reserve_capacity (zlen (set_cancel m)) = zlen (set_cancel m)) /\
  (in_width 32 (min_version m) /\ in_width 32 (max_version m)) /\
  (zlen (set_sub_version m) <= vector_max_size 32 /\ in_width 64 (zlen (set_sub_version m)) /\
   Forall reject.text_ok (set_sub_version m) /\
   reserve_capacity (zlen (set_sub_version m)) = zlen (set_sub_version m)) /\
  in_width 32 (priority m) /\ reject.text_ok (comment m) /\ reject.text_ok (status_bar m) /\
  reject.text_ok (reserved m).

Lemma reads_text {R} `{ReaderLaws R} s : reject.text_ok s -> reads read_string (write_string s) s.
Proof. intros (H1 & H2 & H3). by apply reads_string. Qed.

(** An alert payload parses back. *)
Lemma alert_payload_reads `{VectorAlloc} {R} `{ReaderLaws R} version self m :
  wf m -> reads (from_data version self) (to_data version m) (Some (m, true)).
Proof.
  intros ((? & ? & ? & ? & ?) & (Hc1 & Hc2 & Hc3 & Hcr) & (? & ?) & (Hs1 & Hs2 & Hs3 & Hsr) & ? & ? & ? & ?).
  unfold from_data, to_data. do 5 (eapply reads_bind; [by apply reads_le|]).
  eapply reads_bind; [by apply reads_size|]. case_if; [lia|]. rewrite Hcr.
  eapply reads_bind.
  { unfold zlen. rewrite Nat2Z.id. apply reads_while, Forall2_map_r.
    eapply Forall_impl; [exact Hc3|]. intros v Hv. by apply reads_le. }
  do 2 (eapply reads_bind; [by apply reads_le|]).
  eapply reads_bind; [by apply reads_size|]. case_if; [lia|]. rewrite Hsr.
  eapply reads_bind.
  { unfold zlen. rewrite Nat2Z.id. apply reads_while, Forall2_map_r.
    eapply Forall_impl; [exact Hs3|]. intros v Hv. by apply reads_text. }
  eapply reads_bind; [by apply reads_le|].
  do 2 (eapply reads_bind; [by apply reads_text|]).
  eapply reads_bind_nil; [by apply reads_text|].
  eapply reads_bind_nil; [apply reads_check|]. destruct m. apply reads_ret.
Qed.

Lemma zlen_strings l z :
  Forall reject.text_ok l ->
  fold_left (fun size s => size + (variable_uint_size (zlen s) + zlen s)) l z =
  z + zlen (concat (map write_string l)).
Proof.
  intros Hl. revert z. induction Hl as [|s l [Hs _] _ IH]; intros z; simpl; [zlen_lia|].
  rewrite IH, zlen_app, reject.zlen_write_string by done. lia.
Qed.

Lemma zlen_alert_payload `{VectorAlloc} version m :
  wf m -> zlen (to_data version m) = serialized_size version m.
Proof.
  intros (_ & (_ & Hc & _) & _ & (_ & Hs & Hs3 & _) & _ & [? _] & [? _] & [? _]).
  unfold serialized_size. rewrite zlen_strings by done. unfold to_data.
  rewrite !zlen_app, !reject.zlen_write_string, !zlen_write_variable by done.
  unfold write_4_bytes_little_endian, write_8_bytes_little_endian. rewrite !zlen_to_little_endian.
  rewrite (zlen_concat_const _ 4).
  - unfold zlen. rewrite !length_map. lia.
  - apply Forall_map, Forall_true. intros v. apply zlen_to_little_endian.
Qed.
End alert_payload.

(** ** [version] *)

Module version.

(** [version::service] *)
Definition service_none : Z := 0.
Definition node_network : Z := Z.shiftl 1 0.
Definition node_utxo : Z := Z.shiftl 1 1.
Definition node_bloom : Z := Z.shiftl 1 2.
Definition node_witness : Z := Z.shiftl 1 3.
Definition node_network_cash : Z := Z.shiftl 1 5.

Record t := mk {
  value : Z;
  services : Z;
  timestamp : Z;
  address_receiver : network_address.t;
  address_sender : network_address.t;
  nonce : Z;
  user_agent : list Z;
  start_height : Z;
  relay : bool
}.
Definition command : list Z := chars "version".
Definition version_minimum : Z := level.minimum.
Definition version_maximum : Z := level.maximum.

Definition default : t :=
  mk 0 0 0 network_address.default network_address.default 0 [] 0 false.
Definition is_valid (m : t) : bool :=
  negb (value m =? 0) || negb (services m =? 0) || negb (timestamp m =? 0) ||
  network_address.is_valid (address_receiver m) || network_address.is_valid (address_sender m) ||
  negb (nonce m =? 0) || negb (bool_decide (user_agent m = [])) || negb (start_height m =? 0) ||
  relay m.
Definition reset (m : t) : t :=
  mk 0 0 0 (network_address.reset (address_receiver m)) (network_address.reset (address_sender m))
    0 [] 0 false.
Definition set_value (v : Z) (m : t) : t :=
  mk v (services m) (timestamp m) (address_receiver m) (address_sender m)
    (nonce m) (user_agent m) (start_height m) (relay m).
Definition set_services (v : Z) (m : t) : t :=
  mk (value m) v (timestamp m) (address_receiver m) (address_sender m)
    (nonce m) (user_agent m) (start_height m) (relay m).
Definition set_timestamp (v : Z) (m : t) : t :=
  mk (value m) (services m) v (address_receiver m) (address_sender m)
    (nonce m) (user_agent m) (start_height m) (relay m).
Definition set_address_receiver (v : network_address.t) (m : t) : t :=
  mk (value m) (services m) (timestamp m) v (address_sender m)
    (nonce m) (user_agent m) (start_height m) (relay m).
Definition set_address_sender (v : network_address.t) (m : t) : t :=
  mk (value m) (services m) (timestamp m) (address_receiver m) v
    (nonce m) (user_agent m) (start_height m) (relay m).
Definition set_nonce (v : Z) (m : t) : t :=
  mk (value m) (services m) (timestamp m) (address_receiver m) (address_sender m)
    v (user_agent m) (start_height m) (relay m).
Definition set_user_agent (v : list Z) (m : t) : t :=
  mk (value m) (services m) (timestamp m) (address_receiver m) (address_sender m)
    (nonce m) v (start_height m) (relay m).
Definition set_start_height (v : Z) (m : t) : t :=
  mk (value m) (services m) (timestamp m) (address_receiver m) (address_sender m)
    (nonce m) (user_agent m) v (relay m).
Definition set_relay (v : bool) (m : t) : t :=
  mk (value m) (services m) (timestamp m) (address_receiver m) (address_sender m)
    (nonce m) (user_agent m) (start_height m) v.
Definition assign (self other : t) : t :=
  mk (value other) (services other) (timestamp other) (address_receiver other) (address_sender other)
    (nonce other) (user_agent other) (start_height other) (relay other).
Definition eqb (a b : t) : bool :=
  (value a =? value b) && (services a =? services b) && (timestamp a =? timestamp b) &&
  network_address.eqb (address_receiver a) (address_receiver b) &&
  network_address.eqb (address_sender a) (address_sender b) && (nonce a =? nonce b) &&
  bool_decide (user_agent a = user_agent b) && (start_height a =? start_height b) &&
  Bool.eqb (relay a) (relay b).

(** [(peer_bip37 != self_bip37) || source.is_exhausted() ||
    (self_bip37 && source.read_byte() != 0)] *)
Definition read_relay {R} `{Reader R} (peer_bip37 self_bip37 : bool) : rd R bool :=
  if negb (Bool.eqb peer_bip37 self_bip37) then rret true
  else
    exhausted <~ rd_is_exhausted ;;
    if exhausted : bool then rret true
    else if self_bip37 then byte <~ rd_read_byte ;; rret (negb (byte =? 0))
    else rret false.

Definition from_data {R} `{Reader R} (version : Z) (self : t) : rd R (t * bool) :=
  value <~ read_4_bytes_little_endian ;;
  services <~ read_8_bytes_little_endian ;;
  timestamp <~ read_8_bytes_little_endian ;;
  receiver <~ network_address.from_data version false ;;
  sender <~ network_address.from_data version false ;;
  nonce <~ read_8_bytes_little_endian ;;
  user_agent <~ read_string ;;
  start_height <~ read_4_bytes_little_endian ;;
  relay <~ read_relay (value >=? level.bip37) (version >=? level.bip37) ;;
  rd_check (mk value services timestamp (fst receiver) (fst sender) nonce user_agent start_height relay)
    (reset self).

Definition to_data (version : Z) (m : t) : list Z :=
  let effective_version := Z.min version (value m) in
  write_4_bytes_little_endian (value m) ++
  write_8_bytes_little_endian (services m) ++
  write_8_bytes_little_endian (timestamp m) ++
  network_address.to_data version false (address_receiver m) ++
  network_address.to_data version false (address_sender m) ++
  write_8_bytes_little_endian (nonce m) ++
  write_string (user_agent m) ++
  write_4_bytes_little_endian (start_height m) ++
  (if effective_version >=? level.bip37 then write_byte (if relay m then 1 else 0) else []).

(** The size looks at the value of the message, not at the effective version. *)
Definition serialized_size (version : Z) (m : t) : Z :=
  4 + 8 + 8 + network_address.serialized_size version false (address_receiver m) +
  network_address.serialized_size version false (address_sender m) + 8 +
  variable_uint_size (zlen (user_agent m)) + zlen (user_agent m) + 4 +
  (if value m >=? level.bip37 then 1 else 0).

#[global] Instance version_message : Message t := {
  msg_command := command; msg_default := default; msg_reset := reset;
  msg_from_data R _ version self := from_data version self;
  msg_to_data version m := Some (to_data version m);
  msg_serialized_size version m := Some (serialized_size version m)
}.

Definition factory_from_data {R} `{Reader R} (version : Z) : rd R t := msg_factory version.

Definition fields_wf (m : t) : Prop :=
  in_width 32 (value m) /\ in_width 64 (services m) /\ in_width 64 (timestamp m) /\
  network_address.wf (address_receiver m) /\ network_address.wf (address_sender m) /\
  in_width 64 (nonce m) /\ reject.text_ok (user_agent m) /\ in_width 32 (start_height m).

(** The size is right unless our level is below the relay flag and the value of
    the message is not. *)
Definition wf (version : Z) (m : t) : Prop :=
  fields_wf m /\ (level.bip37 <= value m -> level.bip37 <= version).

(** A message without the relay flag asks for relay. *)
Definition decoded (version : Z) (m : t) : t :=
  mk (value m) (services m) (timestamp m)
    (network_address.decoded false (address_receiver m))
    (network_address.decoded false (address_sender m)) (nonce m) (user_agent m) (start_height m)
    (if (value m >=? level.bip37) && (version >=? level.bip37) then relay m else true).

Lemma read_relay_exact {R} `{ReaderLaws R} peer self relay :
  let e := if peer && self then write_byte (if relay : bool then 1 else 0) else [] in
  let m := read_relay peer self in
  fst (m (rd_at e)) = (if peer && self then relay else true) /\ rd_valid (snd (m (rd_at e))) = true.
Proof.
  pose proof rd_is_exhausted_nil as [Hn Hv]. unfold read_relay.
  destruct peer, self; simpl; try (by rewrite rd_valid_at).
  - unfold write_byte, rbind. destruct relay; cbn [u8];
      (rewrite rd_is_exhausted_cons by (by apply u8_byte); rewrite rd_read_byte_at by apply u8_byte;
       unfold rret; cbn [fst snd]; by rewrite rd_valid_at).
  - unfold rbind. destruct (rd_is_exhausted (rd_at [])) as [x r]. simpl in *. by subst x.
Qed.

Lemma effective_version version value :
  (Z.min version value >=? level.bip37) = (value >=? level.bip37) && (version >=? level.bip37).
Proof.
  rewrite !Z.geb_leb. apply eq_true_iff_eq. rewrite andb_true_iff, !Z.leb_le. lia.
Qed.

Lemma version_reads {R} `{ReaderLaws R} version self m :
  fields_wf m ->
  fst (from_data version self (rd_at (to_data version m))) = (decoded version m, true).
Proof.
  intros (? & ? & ? & ? & ? & ? & Hu & ?). unfold from_data, to_data, decoded. cbv zeta.
  rewrite effective_version.
  do 3 (eapply exact_bind; [by apply reads_le|]).
  do 2 (eapply exact_bind; [by apply network_address.network_address_reads|]).
  eapply exact_bind; [by apply reads_le|].
  eapply exact_bind; [by apply alert_payload.reads_text|].
  eapply exact_bind; [by apply reads_le|].
  set (peer := value m >=? level.bip37). set (own := version >=? level.bip37).
  destruct (read_relay_exact peer own (relay m)) as [E Ev]. unfold rbind.
  destruct (read_relay peer own _) as [x r]. simpl in E, Ev. subst x.
  unfold rd_check. by rewrite Ev.
Qed.

Lemma zlen_version_data version m :
  fields_wf m ->
  zlen (to_data version m) =
  serialized_size version m -
  (if (value m >=? level.bip37) && negb (version >=? level.bip37) then 1 else 0).
Proof.
  intros (? & ? & ? & ? & ? & ? & [Hu _] & ?). unfold to_data, serialized_size. cbv zeta.
  rewrite effective_version. rewrite !zlen_app, reject.zlen_write_string by done.
  rewrite !network_address.zlen_network_address by done.
  unfold write_4_bytes_little_endian, write_8_bytes_little_endian, network_address.serialized_size.
  rewrite !zlen_to_little_endian.
  destruct (value m >=? level.bip37), (version >=? level.bip37); simpl; rewrite ?zlen_write_byte;
    unfold zlen; simpl; lia.
Qed.

#[global] Instance version_laws : MessageLaws t.
Proof.
  refine {| msg_blank _ m := m = msg_default; msg_wf := wf; msg_decoded version _ m := decoded version m |}; simpl.
  - command_ok.
  - intros version m e [Hm Hv] [= <-] _. rewrite zlen_version_data by done.
    destruct (value m >=? level.bip37) eqn:E1, (version >=? level.bip37) eqn:E2; bool_to_prop; simpl; f_equal; lia.
  - intros version m e [(_ & _ & _ & Hr & Hs & _ & (_ & Hu & _) & _) _] [= <-]. unfold to_data.
    rewrite !bytes_ok_app.
    split_and!; try apply bytes_ok_to_little_endian; auto with bitprim.
    + by apply network_address.bytes_ok_network_address.
    + by apply network_address.bytes_ok_network_address.
    + by apply reject.bytes_ok_write_string.
    + case_if; [auto with bitprim|constructor].
  - intros R ? ? version self m e [Hm _] [= <-]. by apply version_reads.
  - intros version self m e _ [= <-]. unfold to_data, decoded. cbv zeta. simpl.
    rewrite !effective_version. f_equal.
    destruct ((value m >=? level.bip37) && (version >=? level.bip37)) eqn:E; [|done]. done.
  - intros R ? ? version self. do 9 (apply reports_bind; intros ?). by apply reports_check.
Defined.
End version.
