(* ===== verification/MsgBlock.v ===== *)
(** The messages of [src/message] that carry blocks and transactions: [block],
    [transaction], [merkle_block], [block_transactions],
    [get_block_transactions], [prefilled_transaction] and [compact_block]. *)

From S2P Require Import Prelude Limits Endian Reader Writer Codes Script Chain Header Transaction TxCodec TxRules Block BlockRules SipHash Message MsgInventory MsgControl.

(** ** Lists of transactions *)

Section Transactions.
Context `{Currency}.

(** [bool witness = true], false for Bitcoin Cash. *)
Definition message_witness : bool := if is_bch then false else true.

Definition write_transactions (wit : bool) (txs : list transaction) : option (list Z) :=
  all_some (map (tx_to_data true wit false) txs).

Definition sum_transaction_sizes (wit : bool) (txs : list transaction) (size : Z) : Z :=
  fold_left (fun size t => size + tx_serialized_size true wit false t) txs size.

(** What the messages ask of a transaction. *)
Definition tx_ok `{Crypto} (t : transaction) : Prop :=
  tx_wf true message_witness t /\ inputs t <> [] /\ coherent t.

(** A transaction of the wire that is refused: nothing is left but what the
    wire does not carry, the values of an unconfirmed one and the validation
    data of [self]. *)
Lemma tx_from_data_refused {R} `{Reader R} wit self :
  reports (fun t => t = mk_transaction 0 0 [] [] no_caches (unconfirmed self) (validation self))
    (tx_from_data true wit false self).
Proof. unfold tx_from_data. do 5 (apply reports_bind; intros ?). by apply reports_check. Qed.

Lemma transactions_size wit txs es size :
  Forall (tx_wf true wit) txs -> Forall2 (fun t e => tx_to_data true wit false t = Some e) txs es ->
  sum_transaction_sizes wit txs size = size + zlen (concat es).
Proof.
  unfold sum_transaction_sizes. intros Hwf Hes. revert size Hwf.
  induction Hes as [|t e txs es He _ IH]; intros size Hwf; simpl; [zlen_lia|].
  apply Forall_cons in Hwf as [Ht Hwf]. rewrite IH, zlen_app by done.
  rewrite (tx_wire_size wit t e Ht He). lia.
Qed.

Lemma transactions_bytes wit txs es :
  Forall (tx_wf true wit) txs -> Forall2 (fun t e => tx_to_data true wit false t = Some e) txs es ->
  bytes_ok (concat es).
Proof.
  intros Hwf Hes. induction Hes as [|t e txs es He _ IH]; simpl; [constructor|].
  apply Forall_cons in Hwf as [Ht Hwf]. apply bytes_ok_app. split; [by eapply tx_wire_bytes|auto].
Qed.

Lemma transactions_reads {R} `{ReaderLaws R} wit txs es :
  Forall (fun t => tx_wf true wit t /\ inputs t <> []) txs ->
  Forall2 (fun t e => tx_to_data true wit false t = Some e) txs es ->
  reads (read_each (tx_from_data true wit false default_transaction) default_transaction (length txs))
    (concat es) (map (decoded_tx wit default_transaction) txs).
Proof.
  intros Hwf Hes. rewrite <- (length_map (decoded_tx wit default_transaction)).
  apply reads_each, Forall2_fmap_l. induction Hes as [|t e txs es He _ IH]; constructor.
  - apply Forall_cons in Hwf as [[Ht Hne] _]. by apply tx_wire_reads.
  - apply Forall_cons in Hwf as [_ Hwf]. auto.
Qed.

Lemma write_transactions_decoded `{Crypto} wit txs :
  Forall coherent txs ->
  write_transactions wit (map (decoded_tx wit default_transaction) txs) = write_transactions wit txs.
Proof.
  intros Hc. unfold write_transactions. rewrite map_map. f_equal. apply map_ext_Forall.
  eapply Forall_impl; [exact Hc|]. intros t Ht. by apply decoded_tx_data.
Qed.

Lemma tx_ok_split `{Crypto} txs :
  Forall tx_ok txs ->
  Forall (tx_wf true message_witness) txs /\
  Forall (fun t => tx_wf true message_witness t /\ inputs t <> []) txs /\ Forall coherent txs.
Proof.
  intros Hok. split_and!; (eapply Forall_impl; [exact Hok|]); by intros t (? & ? & ?).
Qed.
End Transactions.

(** ** [message::transaction] *)

Module transaction_message.
Section TransactionMessage.
Context `{Currency} `{Crypto}.

Record t := mk { base : transaction }.
Definition command : list Z := chars "tx".
Definition version_minimum : Z := level.minimum.
Definition version_maximum : Z := level.maximum.

Definition from_data {R} `{Reader R} (version : Z) (self : t) : rd R (t * bool) :=
  p <~ tx_from_data true true false (base self) ;; rret (mk (fst p), snd p).

(** [witness] is true by default. *)
Definition to_data (version : Z) (witness : bool) (m : t) : option (list Z) :=
  tx_to_data true witness false (base m).

Definition serialized_size (version : Z) (m : t) : Z := tx_serialized_size true true false (base m).

(** Assignment from a [chain::transaction] resets first. *)
Definition assign_base (self : t) (other : transaction) : t :=
  mk (assign_transaction (reset_transaction (base self)) other).
Definition assign (self other : t) : t := mk (assign_transaction (base self) (base other)).
Definition eqb (a b : t) : bool := transaction_eqb (base a) (base b).

#[global] Instance transaction_message : Message t := {
  msg_command := command; msg_default := mk default_transaction;
  msg_reset m := mk (reset_transaction (base m));
  msg_from_data R _ version self := from_data version self;
  msg_to_data version m := to_data version true m;
  msg_serialized_size version m := Some (serialized_size version m)
}.

Definition factory_from_data {R} `{Reader R} (version : Z) : rd R t := msg_factory version.

Definition wf (m : t) : Prop :=
  tx_wf true true (base m) /\ inputs (base m) <> [] /\ coherent (base m).

#[global] Instance transaction_laws : MessageLaws t.
Proof.
  refine {|
    msg_blank self m :=
      m = mk (mk_transaction 0 0 [] [] no_caches (unconfirmed (base self)) (validation (base self)));
    msg_wf _ := wf; msg_decoded _ self m := mk (decoded_tx true (base self) (base m)) |}; simpl.
  - command_ok.
  - intros version m e (Hwf & _) He _. unfold serialized_size. by rewrite (tx_wire_size true _ e Hwf He).
  - intros version m e (Hwf & _) He. by eapply tx_wire_bytes.
  - intros R ? ? version self m e (Hwf & Hne & _) He. apply reads_exact.
    eapply reads_bind_nil; [by apply tx_wire_reads|]. apply reads_ret.
  - intros version self m e (_ & _ & Hc) He. unfold to_data. simpl. by rewrite decoded_tx_data.
  - intros R ? ? version self. eapply reports_map; [apply tx_from_data_refused|]. by intros t ->.
Defined.
End TransactionMessage.
End transaction_message.

(** A header read by [from_data(source)] into [self]; a refused one is null and
    keeps the validation data of [self]. *)
Lemma header_from_data_refused {R} `{Reader R} self :
  reports (fun h => h = mk_header 0 null_hash null_hash 0 0 0 None (hd_height self) (hd_median_time_past self))
    (header_from_data true self).
Proof. do 6 (apply reports_bind; intros ?). by apply reports_check. Qed.

(** What a header that was read keeps of [self]: the validation data, and its
    cached hash, if any. *)
Definition header_kept (self h : header) : Prop :=
  hd_height h = hd_height self /\ hd_median_time_past h = hd_median_time_past self /\
  (hd_hash_ h = None \/ hd_hash_ h = hd_hash_ self).

Lemma header_from_data_kept {R} `{Reader R} self :
  always (header_from_data true self) (fun p => header_kept self (fst p)).
Proof.
  do 6 (apply always_step; intros ?).
  apply (always_bind _ _ (fun time => time = hd_median_time_past self)); [by intros r|]. intros ? ->.
  apply always_check; split_and!; simpl; auto.
Qed.

(** ** [message::block] *)

Module block_message.
Section BlockMessage.
Context `{Currency} `{Crypto}.

Record t := mk { base : block }.
Definition command : list Z := chars "block".
Definition version_minimum : Z := level.minimum.
Definition version_maximum : Z := level.maximum.

Definition from_data {R} `{Reader R} (version : Z) (self : t) : rd R (t * bool) :=
  p <~ block_from_data true (base self) ;; rret (mk (fst p), snd p).

Definition to_data (version : Z) (m : t) : option (list Z) := block_to_data true (base m).
Definition to_data_chunk (version : Z) (m : t) : option (list Z) := block_to_data_chunk true (base m).
Definition serialized_size (version : Z) (m : t) : option Z := fst (block_serialized_size true (base m)).

(** Assignment from a [chain::block] resets first. *)
Definition assign_base (self : t) (other : block) : t := mk (assign_block (reset_block (base self)) other).
Definition assign (self other : t) : t := mk (assign_block (base self) (base other)).
Definition eqb (a b : t) : bool := block_eqb (base a) (base b).

(** [to_data_header_nonce] and [hash(block, nonce)] *)
Definition to_data_header_nonce (b : block) (nonce : Z) : list Z :=
  header_to_data true (bk_header b) ++ write_8_bytes_little_endian nonce.
Definition hash (b : block) (nonce : Z) : list Z := sha256_hash (to_data_header_nonce b nonce).

#[global] Instance block_message : Message t := {
  msg_command := command; msg_default := mk default_block;
  msg_reset m := mk (reset_block (base m));
  msg_from_data R _ version self := from_data version self;
  msg_to_data := to_data; msg_serialized_size := serialized_size
}.

Definition factory_from_data {R} `{Reader R} (version : Z) : rd R t := msg_factory version.

(** The size is computed, not taken from the cache. *)
Definition wf (m : t) : Prop :=
  block_wf true (base m) /\ Forall coherent (transactions (base m)) /\
  bytes_ok (previous_block_hash (bk_header (base m))) /\ bytes_ok (merkle (bk_header (base m))) /\
  (if is_bch then base_size_ (base m) else total_size_ (base m)) = None.

Lemma sum_sizes_total wit txs es total :
  Forall (tx_wf true wit) txs -> Forall2 (fun t e => tx_to_data true wit false t = Some e) txs es ->
  0 <= total -> total + zlen (concat es) < 2 ^ 64 ->
  fold_left (sum_sizes wit) txs (Some total) = Some (total + zlen (concat es)).
Proof.
  intros Hwf Hes. revert total Hwf. induction Hes as [|t e txs es He _ IH]; intros total Hwf Hpos Hlt; simpl.
  { f_equal. zlen_lia. }
  apply Forall_cons in Hwf as [Ht Hwf]. cbn [concat] in Hlt. rewrite zlen_app in Hlt |- *.
  rewrite <- (tx_wire_size wit t e Ht He). unfold safe_add, umax.
  pose proof (zlen_nonneg e). pose proof (zlen_nonneg (concat es)).
  case_if; [lia|]. rewrite IH by (done || lia). f_equal. lia.
Qed.

Lemma block_size_wire b e :
  block_wf true b -> (if is_bch then base_size_ b else total_size_ b) = None ->
  block_to_data true b = Some e -> in_width 64 (zlen e) ->
  fst (block_serialized_size true b) = Some (zlen e).
Proof.
  intros (Hh & Hn & Htx) Hc He Hw. unfold block_to_data in He.
  set (w := if is_bch then false else true) in *.
  destruct (all_some (map (tx_to_data true w false) (transactions b))) as [body|] eqn:Eb; [|done].
  apply (inj Some) in He. apply all_some_map in Eb as (es & Hes & ->). pose proof get_max_block_size_bound.
  assert (Hz : zlen e = header_serialized_size true + variable_uint_size (zlen (transactions b)) + zlen (concat es)).
  { rewrite <- He. unfold write_size_little_endian.
    rewrite !zlen_app, zlen_header_to_data, zlen_write_variable by (done || apply in_width_zlen; lia). lia. }
  unfold block_serialized_size. fold w.
  replace (if w then total_size_ b else base_size_ b) with (None (A := Z))
    by (unfold w; destruct is_bch; done).
  assert (Hvar : 0 < variable_uint_size (zlen (transactions b))).
  { unfold variable_uint_size. repeat case_if; lia. }
  unfold header_serialized_size, header_fixed_size, in_width in *.
  rewrite (sum_sizes_total w _ es 0); [|eapply Forall_impl; [exact Htx|]; by intros t [? _]|done|done|lia].
  simpl. f_equal. unfold u64. rewrite wrap_small; unfold in_width; lia.
Qed.

(** What a refused block leaves in [self]: a null header with the validation
    data it had, no transaction, and the memoized values and the state of
    [self]; without witnesses the segregation flag may be set and the total
    size dropped by then. *)
Definition blank (self b : block) : Prop := exists segregated total,
  b = mk_block
        (mk_header 0 null_hash null_hash 0 0 0 None (hd_height (bk_header self))
           (hd_median_time_past (bk_header self)))
        [] segregated (total_inputs_ self) (base_size_ self) total (bk_state self) /\
  ((segregated = bk_segregated_ self /\ total = total_size_ self) \/
   (is_bch = true /\ segregated = Some false /\ total = None)).

Lemma block_from_data_refused {R} `{Reader R} self :
  reports (blank self) (block_from_data true self).
Proof.
  unfold block_from_data. eapply reports_early_always;
    [apply header_from_data_kept|apply header_from_data_refused| |].
  - intros h ->. eexists. split; [reflexivity|]. eexists _, _. split; [reflexivity|]. by left.
  - intros h (Hh & Hm & _). do 2 (apply reports_bind; intros ?). apply reports_check.
    destruct is_bch eqn:E; eexists _, _; (split; [unfold reset_block, reset_header; simpl in *; by rewrite Hh, Hm|]);
      [by right|by left].
Qed.

#[global] Instance block_laws : MessageLaws t.
Proof.
  refine {| msg_blank self m := blank (base self) (base m); msg_wf _ := wf; msg_decoded _ self m := mk (decoded_block true (base self) (base m)) |}; simpl.
  - command_ok.
  - intros version m e (Hwf & _ & _ & _ & Hc) He Hw. by apply block_size_wire.
  - intros version m e ((Hh & Hn & Htx) & _ & Hp & Hm & _) He. unfold to_data, block_to_data in He.
    set (w := if is_bch then false else true) in *.
    destruct (all_some (map (tx_to_data true w false) (transactions (base m)))) as [body|] eqn:Eb; [|done].
    apply (inj Some) in He. subst e. apply all_some_map in Eb as (es & Hes & ->). rewrite !bytes_ok_app.
    split_and!; [by apply header_message.bytes_ok_header_to_data|apply bytes_ok_write_variable|].
    eapply (transactions_bytes w); [|exact Hes]. eapply Forall_impl; [exact Htx|]. by intros t [? _].
  - intros R ? ? version self m e (Hwf & _) He. apply reads_exact.
    eapply reads_bind_nil; [by apply block_reads|]. apply reads_ret.
  - intros version self m e (_ & Hc & _) He. unfold to_data. simpl. by rewrite decoded_block_data.
  - intros R ? ? version self. eapply reports_map; [apply block_from_data_refused|done].
Defined.
End BlockMessage.
End block_message.

(** ** [merkle_block] *)

Module merkle_block.
Section MerkleBlock.
Context `{Currency} `{Crypto} `{VectorAlloc}.

Record t := mk { mb_header : header; total_transactions : Z; hashes : list (list Z); flags : list Z }.
Definition command : list Z := chars "merkleblock".
Definition version_minimum : Z := level.bip37.
Definition version_maximum : Z := level.maximum.

Definition default : t := mk default_header 0 [] [].

(** [merkle_block(const chain::block&)]; [None]: more than 2^32 transactions. *)
Definition of_block (b : block) : option t :=
  match safe_unsigned 32 (zlen (transactions b)) with
  | Some total => Some (mk (copy_header (bk_header b)) total (Block.to_hashes false b) [])
  | None => None
  end.

Definition is_valid (m : t) : bool :=
  negb (bool_decide (hashes m = [])) || negb (bool_decide (flags m = [])) || header_is_valid (mb_header m).

(** The header is assigned, so it keeps a cached hash. *)
Definition reset (m : t) : t := mk (assign_header (mb_header m) default_header) 0 [] [].

Definition set_header (v : header) (m : t) : t :=
  mk (assign_header (mb_header m) v) (total_transactions m) (hashes m) (flags m).
Definition set_total_transactions (v : Z) (m : t) : t := mk (mb_header m) v (hashes m) (flags m).
Definition set_hashes (v : list (list Z)) (m : t) : t := mk (mb_header m) (total_transactions m) v (flags m).
Definition set_flags (v : list Z) (m : t) : t := mk (mb_header m) (total_transactions m) (hashes m) v.

(** [operator=] does not move the transaction count. *)
Definition assign (self other : t) : t :=
  mk (assign_header (mb_header self) (mb_header other)) (total_transactions self) (hashes other)
    (flags other).

(** [operator==] does not compare the transaction count. *)
Definition eqb (a b : t) : bool :=
  header_eqb (mb_header a) (mb_header b) && (zlen (hashes a) =? zlen (hashes b)) &&
  (zlen (flags a) =? zlen (flags b)) &&
  forallb (fun '(x, y) => bool_decide (x = y)) (zip (hashes a) (hashes b)) &&
  forallb (fun '(x, y) => x =? y) (zip (flags a) (flags b)).

(** The loop runs to the capacity of the vector, not to the count. *)
Definition from_data {R} `{Reader R} (version : Z) (self : t) : rd R (t * bool) :=
  let self := reset self in
  p <~ header_from_data true (mb_header self) ;;
  if negb (snd p) then rret (mk (fst p) 0 [] [], false)
  else
    total_transactions <~ read_4_bytes_little_endian ;;
    count <~ read_size_little_endian ;;
    hashes <~ guarded count get_max_block_size
      (fun count => read_while read_hash (Z.to_nat (reserve_capacity (Z.of_nat count)))) ;;
    flags <~ alert.read_sized_bytes ;;
    require_version version version_minimum ;;;
    let m := mk (fst p) total_transactions hashes flags in
    rd_check m (reset m).

Definition to_data (version : Z) (m : t) : option (list Z) :=
  match safe_unsigned 32 (total_transactions m) with
  | Some total32 =>
      Some (header_to_data true (mb_header m) ++
            write_4_bytes_little_endian total32 ++
            write_variable_little_endian (zlen (hashes m)) ++
            concat (map write_hash (hashes m)) ++
            write_variable_little_endian (zlen (flags m)) ++ write_bytes (flags m))
  | None => None
  end.

Definition serialized_size (version : Z) (m : t) : Z :=
  header_serialized_size true + 4 + variable_uint_size (zlen (hashes m)) + 32 * zlen (hashes m) +
  variable_uint_size (zlen (flags m)) + zlen (flags m).

#[global] Instance merkle_block_message : Message t := {
  msg_command := command; msg_default := default; msg_reset := reset;
  msg_from_data R _ version self := from_data version self;
  msg_to_data := to_data;
  msg_serialized_size version m := Some (serialized_size version m)
}.

Definition factory_from_data {R} `{Reader R} (version : Z) : rd R t := msg_factory version.

Definition fields_ok (version : Z) (m : t) : Prop :=
  version_minimum <= version /\ header_message.wf (mb_header m) /\
  (zlen (hashes m) <= get_max_block_size /\ Forall hash_ok (hashes m)) /\
  (in_width 64 (zlen (flags m)) /\ bytes_ok (flags m)).

(** The loop to the capacity reads the hashes back when it is their number. *)
Definition wf (version : Z) (m : t) : Prop :=
  fields_ok version m /\ reserve_capacity (zlen (hashes m)) = zlen (hashes m).

(** What a refused message leaves: the header it had may have cached a hash,
    which assignment and [from_data] keep. *)
Definition blank (self m : t) : Prop := exists hash,
  (hash = None \/ hash = hd_hash_ (mb_header self)) /\
  m = mk (mk_header 0 null_hash null_hash 0 0 0 hash 0 0) 0 [] [].

Definition decoded (self m : t) : t :=
  mk (header_message.decoded (assign_header (mb_header self) default_header) (mb_header m))
    (total_transactions m) (hashes m) (flags m).

Lemma safe_unsigned_inv w v x : safe_unsigned w v = Some x -> x = v /\ in_width w v.
Proof.
  unfold safe_unsigned, umax. case_if; [done|]. intros [= <-]. unfold in_width.
  split; [done|]. lia.
Qed.

#[global] Instance merkle_block_laws : MessageLaws t.
Proof.
  refine {| msg_blank := blank; msg_wf := wf; msg_decoded _ := decoded |}; simpl.
  - command_ok.
  - intros version m e [(_ & (Hh & _) & [Hn Hs] & [Hf _]) _] He _. unfold to_data in He.
    destruct (safe_unsigned 32 (total_transactions m)) as [total|]; [|done]. apply (inj Some) in He. subst e.
    pose proof get_max_block_size_bound. f_equal. unfold serialized_size, write_bytes.
    rewrite !zlen_app, zlen_header_to_data, !zlen_write_variable by (done || apply in_width_zlen; lia).
    rewrite (zlen_concat_const _ 32).
    + change (zlen (write_4_bytes_little_endian total)) with 4. unfold zlen. rewrite length_map. lia.
    + apply Forall_map. eapply Forall_impl; [exact Hs|]. intros h [Hl _]. unfold zlen, write_hash. by rewrite Hl.
  - intros version m e [(_ & (_ & Hp & Hm) & [_ Hs] & [_ Hf]) _] He. unfold to_data in He.
    destruct (safe_unsigned 32 (total_transactions m)) as [total|]; [|done]. apply (inj Some) in He. subst e.
    rewrite !bytes_ok_app. split_and!; auto with bitprim.
    + by apply header_message.bytes_ok_header_to_data.
    + apply bytes_ok_to_little_endian.
    + apply bytes_ok_concat, Forall_map. eapply Forall_impl; [exact Hs|]. by intros h [_ Hb].
  - intros R ? ? version self m e [(Hv & (Hh & _) & [Hn Hs] & [Hf _]) Hr] He. unfold to_data in He.
    destruct (safe_unsigned 32 (total_transactions m)) as [total|] eqn:Et; [|done].
    apply safe_unsigned_inv in Et as [-> Ht]. apply (inj Some) in He. subst e. apply reads_exact.
    pose proof get_max_block_size_bound.
    eapply reads_bind; [by apply header_reads|]. cbn [fst snd negb].
    eapply reads_bind; [by apply reads_le|].
    eapply reads_bind; [apply reads_size, in_width_zlen; lia|].
    eapply reads_bind.
    { apply reads_guarded; [done|]. change (Z.of_nat (length (hashes m))) with (zlen (hashes m)).
      rewrite Hr. unfold zlen. rewrite Nat2Z.id.
      apply reads_while, Forall2_map_r. eapply Forall_impl; [exact Hs|]. intros h [Hl _].
      by apply reads_forward. }
    eapply reads_bind_nil; [by apply alert.reads_sized_bytes|].
    eapply reads_bind_nil; [by apply reads_require|]. apply reads_check.
  - done.
  - intros R ? ? version self. eapply reports_early_always;
      [apply header_from_data_kept|apply header_from_data_refused| |].
    + intros h ->. eexists. split; [reflexivity|]. exists None. split; [by left|done].
    + intros h (_ & _ & Hk). do 5 (apply reports_bind; intros ?). apply reports_check.
      exists (hd_hash_ h). split; [done|reflexivity].
Defined.
(** A vector that reserves more than it is asked for makes the loop read past
    the hashes: what is written is not read back. *)
Lemma merkle_block_overread {R} `{ReaderLaws R} version self m e :
  fields_ok version m -> zlen (hashes m) < reserve_capacity (zlen (hashes m)) ->
  to_data version m = Some e -> fst (from_data version self (rd_at e)) <> (decoded self m, true).
Proof.
  intros (Hv & (Hh & _) & [Hn Hs] & [Hf _]) Hr He. unfold to_data in He.
  destruct (safe_unsigned 32 (total_transactions m)) as [total|] eqn:Et; [|done].
  apply safe_unsigned_inv in Et as [-> Ht]. apply (inj Some) in He. subst e.
  pose proof get_max_block_size_bound. unfold from_data.
  rewrite (rbind_reads _ _ _ _ _ (header_reads true (mb_header m) _ Hh)). cbn [fst snd negb].
  rewrite (rbind_reads read_4_bytes_little_endian _ _ _ _ (reads_le 4 _ Ht)).
  rewrite (rbind_reads _ _ _ _ _ (reads_size (zlen (hashes m)) ltac:(apply in_width_zlen; lia))).
  unfold guarded. case_if; [lia|]. rewrite Z2Nat.id by apply zlen_nonneg.
  assert (Hl : Forall2 (fun h e => reads read_hash e h) (hashes m) (map write_hash (hashes m))).
  { apply Forall2_map_r. eapply Forall_impl; [exact Hs|]. intros h [Hl _]. by apply reads_forward. }
  pose proof (read_while_more read_hash _ _ (Z.to_nat (reserve_capacity (zlen (hashes m))))
    (write_variable_little_endian (zlen (flags m)) ++ write_bytes (flags m)) Hl ltac:(unfold zlen in *; lia)) as Hw.
  unfold rbind at 1. destruct (read_while read_hash _ _) as [hs r]. cbn [fst] in Hw.
  match goal with |- fst (?rest _) <> ?x => refine ((_ : always rest (fun p => p <> x)) r) end.
  do 2 (apply always_step; intros ?). apply always_check; [|done].
  intros [=]. subst hs. lia.
Qed.
End MerkleBlock.
End merkle_block.

(** ** [block_transactions] *)

Module block_transactions.
Section BlockTransactions.
Context `{Currency} `{Crypto}.

Record t := mk { block_hash : list Z; transactions : list transaction }.
Definition command : list Z := chars "blocktxn".
Definition version_minimum : Z := level.bip152.
Definition version_maximum : Z := level.bip152.

Definition default : t := mk null_hash [].
Definition is_valid (m : t) : bool := negb (bool_decide (block_hash m = null_hash)).
Definition reset (m : t) : t := mk null_hash [].
Definition set_block_hash (v : list Z) (m : t) : t := mk v (transactions m).
Definition set_transactions (v : list transaction) (m : t) : t := mk (block_hash m) v.
Definition assign (self other : t) : t := mk (block_hash other) (transactions other).
Definition eqb (a b : t) : bool :=
  bool_decide (block_hash a = block_hash b) &&
  list_eqb transaction_eqb (transactions a) (transactions b).

Definition from_data {R} `{Reader R} (version : Z) (self : t) : rd R (t * bool) :=
  block_hash <~ read_hash ;;
  count <~ read_size_little_endian ;;
  transactions <~ guarded count get_max_block_size
    (read_each (tx_from_data true message_witness false default_transaction) default_transaction) ;;
  require_version version version_minimum ;;;
  rd_check (mk block_hash transactions) (reset self).

Definition to_data (version : Z) (m : t) : option (list Z) :=
  match write_transactions message_witness (transactions m) with
  | Some body =>
      Some (write_hash (block_hash m) ++ write_variable_little_endian (zlen (transactions m)) ++ body)
  | None => None
  end.

Definition serialized_size (version : Z) (m : t) : Z :=
  sum_transaction_sizes message_witness (transactions m)
    (32 + variable_uint_size (zlen (transactions m))).

#[global] Instance block_transactions_message : Message t := {
  msg_command := command; msg_default := default; msg_reset := reset;
  msg_from_data R _ version self := from_data version self;
  msg_to_data := to_data;
  msg_serialized_size version m := Some (serialized_size version m)
}.

Definition factory_from_data {R} `{Reader R} (version : Z) : rd R t := msg_factory version.

Definition wf (version : Z) (m : t) : Prop :=
  version_minimum <= version /\ hash_ok (block_hash m) /\
  zlen (transactions m) <= get_max_block_size /\ Forall tx_ok (transactions m).

Definition decoded (m : t) : t :=
  mk (block_hash m) (map (decoded_tx message_witness default_transaction) (transactions m)).

#[global] Instance block_transactions_laws : MessageLaws t.
Proof.
  pose proof get_max_block_size_bound as Hbound.
  refine {| msg_blank _ m := m = msg_default; msg_wf := wf; msg_decoded _ _ := decoded |}; simpl.
  - command_ok.
  - intros version m e (_ & [Hl _] & Hn & Htx) He _. apply tx_ok_split in Htx as (Hwf & _ & _).
    unfold to_data in He. destruct (write_transactions _ _) as [body|] eqn:Eb; [|done].
    apply (inj Some) in He. subst e. apply all_some_map in Eb as (es & Hes & ->).
    unfold serialized_size. rewrite (transactions_size _ _ es) by done. f_equal. unfold write_hash.
    rewrite !zlen_app, zlen_write_variable by (apply in_width_zlen; lia).
    assert (zlen (block_hash m) = 32) by (unfold zlen; by rewrite Hl). lia.
  - intros version m e (_ & [_ Hb] & _ & Htx) He. apply tx_ok_split in Htx as (Hwf & _ & _).
    unfold to_data in He. destruct (write_transactions _ _) as [body|] eqn:Eb; [|done].
    apply (inj Some) in He. subst e. apply all_some_map in Eb as (es & Hes & ->).
    rewrite !bytes_ok_app. split_and!; [done|auto with bitprim|by eapply transactions_bytes].
  - intros R ? ? version self m e (Hv & [Hl _] & Hn & Htx) He.
    apply tx_ok_split in Htx as (_ & Hwf & _).
    unfold to_data in He. destruct (write_transactions _ _) as [body|] eqn:Eb; [|done].
    apply (inj Some) in He. subst e. apply all_some_map in Eb as (es & Hes & ->). apply reads_exact.
    eapply reads_bind; [by apply reads_forward|].
    eapply reads_bind; [apply reads_size, in_width_zlen; lia|].
    eapply (reads_bind_nil _ _ _ (transactions (decoded m))).
    + unfold guarded. case_if; [lia|]. unfold zlen. rewrite Nat2Z.id. by apply transactions_reads.
    + eapply reads_bind_nil; [by apply reads_require|]. apply reads_check.
  - intros version self m e (_ & _ & _ & Htx) He. apply tx_ok_split in Htx as (_ & _ & Hc).
    unfold to_data in *. simpl. rewrite write_transactions_decoded by done.
    unfold zlen. by rewrite length_map.
  - intros R ? ? version self. do 4 (apply reports_bind; intros ?). by apply reports_check.
Defined.
End BlockTransactions.
End block_transactions.

(** ** [get_block_transactions] *)

Module get_block_transactions.
Section GetBlockTransactions.
Context `{Currency}.

Record t := mk { block_hash : list Z; indexes : list Z }.
Definition command : list Z := chars "getblocktxn".
Definition version_minimum : Z := level.bip152.
Definition version_maximum : Z := level.bip152.

Definition default : t := mk null_hash [].
Definition is_valid (m : t) : bool := negb (bool_decide (block_hash m = null_hash)).
Definition reset (m : t) : t := mk null_hash [].
Definition set_block_hash (v : list Z) (m : t) : t := mk v (indexes m).
Definition set_indexes (v : list Z) (m : t) : t := mk (block_hash m) v.
Definition assign (self other : t) : t := mk (block_hash other) (indexes other).
Definition eqb (a b : t) : bool :=
  bool_decide (block_hash a = block_hash b) && bool_decide (indexes a = indexes b).

Definition from_data {R} `{Reader R} (version : Z) (self : t) : rd R (t * bool) :=
  block_hash <~ read_hash ;;
  count <~ read_size_little_endian ;;
  indexes <~ guarded count get_max_block_size (read_while read_size_little_endian) ;;
  rd_check (mk block_hash indexes) (reset self).

Definition to_data (version : Z) (m : t) : list Z :=
  write_hash (block_hash m) ++ write_variable_little_endian (zlen (indexes m)) ++
  concat (map write_variable_little_endian (indexes m)).

Definition serialized_size (version : Z) (m : t) : Z :=
  fold_left (fun size element => size + variable_uint_size element) (indexes m)
    (32 + variable_uint_size (zlen (indexes m))).

#[global] Instance get_block_transactions_message : Message t := {
  msg_command := command; msg_default := default; msg_reset := reset;
  msg_from_data R _ version self := from_data version self;
  msg_to_data version m := Some (to_data version m);
  msg_serialized_size version m := Some (serialized_size version m)
}.

Definition factory_from_data {R} `{Reader R} (version : Z) : rd R t := msg_factory version.

Definition wf (m : t) : Prop :=
  hash_ok (block_hash m) /\ zlen (indexes m) <= get_max_block_size /\ Forall (in_width 64) (indexes m).

Lemma zlen_indexes l z :
  Forall (in_width 64) l ->
  fold_left (fun size element => size + variable_uint_size element) l z =
  z + zlen (concat (map write_variable_little_endian l)).
Proof.
  intros Hl. revert z. induction Hl as [|i l Hi _ IH]; intros z; simpl; [zlen_lia|].
  rewrite IH, zlen_app, zlen_write_variable by done. lia.
Qed.

#[global] Instance get_block_transactions_laws : MessageLaws t.
Proof.
  pose proof get_max_block_size_bound as Hbound.
  refine {| msg_blank _ m := m = msg_default; msg_wf _ := wf; msg_decoded _ _ m := m |}; simpl.
  - command_ok.
  - intros version m e ([Hl _] & Hn & Hi) [= <-] _. f_equal.
    unfold serialized_size, to_data, write_hash. rewrite zlen_indexes by done.
    rewrite !zlen_app, zlen_write_variable by (apply in_width_zlen; lia). 
    assert (zlen (block_hash m) = 32) by (unfold zlen; by rewrite Hl). lia.
  - intros version m e ([_ Hb] & _ & _) [= <-]. unfold to_data. rewrite !bytes_ok_app.
    split_and!; [done|auto with bitprim|]. apply bytes_ok_concat, Forall_map, Forall_true.
    intros v. auto with bitprim.
  - intros R ? ? version self m e ([Hl _] & Hn & Hi) [= <-]. apply reads_exact.
    eapply reads_bind; [by apply reads_forward|].
    eapply reads_bind; [apply reads_size, in_width_zlen; lia|].
    eapply reads_bind_nil.
    + apply reads_guarded; [done|]. apply reads_while, Forall2_map_r.
      eapply Forall_impl; [exact Hi|]. intros v Hv. by apply reads_size.
    + destruct m. apply reads_check.
  - done.
  - intros R ? ? version self. do 3 (apply reports_bind; intros ?). by apply reports_check.
Defined.
End GetBlockTransactions.
End get_block_transactions.

(** ** [prefilled_transaction] *)

Module prefilled_transaction.
Section Prefilled.
Context `{Currency} `{Crypto}.

Record t := mk { index : Z; tx : transaction }.

Definition max_index : Z := if is_bch then max_uint32 else max_uint16.
Definition default : t := mk max_index default_transaction.
Definition is_valid (m : t) : bool := (index m <? max_index) && transaction_is_valid (tx m).
Definition reset (m : t) : t := mk max_index (assign_transaction (tx m) default_transaction).
Definition set_index (v : Z) (m : t) : t := mk v (tx m).
Definition set_transaction (v : transaction) (m : t) : t := mk (index m) (assign_transaction (tx m) v).
Definition assign (self other : t) : t := mk (index other) (assign_transaction (tx self) (tx other)).
Definition eqb (a b : t) : bool := (index a =? index b) && transaction_eqb (tx a) (tx b).

Definition from_data {R} `{Reader R} (version : Z) (self : t) : rd R (t * bool) :=
  let self := reset self in
  index <~ read_variable_little_endian ;;
  p <~ tx_from_data true message_witness false (tx self) ;;
  rd_check (mk index (fst p)) (reset (mk index (fst p))).

Definition factory_from_data {R} `{Reader R} (version : Z) : rd R t :=
  p <~ from_data version default ;; rret (fst p).

Definition to_data (version : Z) (m : t) : option (list Z) :=
  match tx_to_data true message_witness false (tx m) with
  | Some body => Some (write_variable_little_endian (index m) ++ body)
  | None => None
  end.

Definition serialized_size (version : Z) (m : t) : Z :=
  variable_uint_size (index m) + tx_serialized_size true message_witness false (tx m).

Definition wf (m : t) : Prop := in_width 64 (index m) /\ tx_ok (tx m).

Definition decoded (m : t) : t := mk (index m) (decoded_tx message_witness default_transaction (tx m)).

Lemma prefilled_reads {R} `{ReaderLaws R} version m e :
  wf m -> to_data version m = Some e -> reads (from_data version default) e (decoded m, true).
Proof.
  intros (Hi & Hwf & Hne & _) He. unfold to_data in He.
  destruct (tx_to_data true message_witness false (tx m)) as [body|] eqn:Eb; [|done]. simplify_eq.
  eapply reads_bind; [by apply reads_variable|].
  eapply reads_bind_nil; [by apply tx_wire_reads|]. apply reads_check.
Qed.

Lemma prefilled_size version m e :
  wf m -> to_data version m = Some e -> zlen e = serialized_size version m /\ bytes_ok e.
Proof.
  intros (Hi & Hwf & _ & _) He. unfold to_data in He.
  destruct (tx_to_data true message_witness false (tx m)) as [body|] eqn:Eb; [|done]. simplify_eq.
  unfold serialized_size. rewrite zlen_app, zlen_write_variable by done. split.
  - by rewrite (tx_wire_size _ _ _ Hwf Eb).
  - apply bytes_ok_app. split; [auto with bitprim|by eapply tx_wire_bytes].
Qed.

Lemma prefilled_lossless version m : wf m -> to_data version (decoded m) = to_data version m.
Proof. intros (_ & _ & _ & Hc). unfold to_data. simpl. by rewrite decoded_tx_data. Qed.
End Prefilled.
End prefilled_transaction.

(** ** [compact_block] *)

Module compact_block.
Section CompactBlock.
Context `{Currency} `{Crypto}.

Record t := mk {
  cb_header : header;
  nonce : Z;
  short_ids : list Z;
  transactions : list prefilled_transaction.t
}.
Definition command : list Z := chars "cmpctblock".
Definition version_minimum : Z := level.bip152.
Definition version_maximum : Z := level.bip152.

Definition default : t := mk default_header 0 [] [].
Definition is_valid (m : t) : bool :=
  header_is_valid (cb_header m) && negb (bool_decide (short_ids m = [])) &&
  negb (zlen (transactions m) =? 0).

(** The header is assigned, so it keeps a cached hash. *)
Definition reset (m : t) : t := mk (assign_header (cb_header m) default_header) 0 [] [].

Definition set_header (v : header) (m : t) : t :=
  mk (assign_header (cb_header m) v) (nonce m) (short_ids m) (transactions m).
Definition set_nonce (v : Z) (m : t) : t := mk (cb_header m) v (short_ids m) (transactions m).
Definition set_short_ids (v : list Z) (m : t) : t := mk (cb_header m) (nonce m) v (transactions m).
Definition set_transactions (v : list prefilled_transaction.t) (m : t) : t :=
  mk (cb_header m) (nonce m) (short_ids m) v.
Definition assign (self other : t) : t :=
  mk (assign_header (cb_header self) (cb_header other)) (nonce other) (short_ids other) (transactions other).
Definition eqb (a b : t) : bool :=
  header_eqb (cb_header a) (cb_header b) && (nonce a =? nonce b) &&
  bool_decide (short_ids a = short_ids b) &&
  list_eqb prefilled_transaction.eqb (transactions a) (transactions b).

(** The keys of a short id: the first two words of the hash of the header and
    the nonce. *)
Definition short_id (header_hash tx_hash : list Z) : Z :=
  let k0 := from_little_endian 8 header_hash in
  let k1 := from_little_endian 8 (drop 8 header_hash) in
  Z.land (sip_hash_uint256 k0 k1 tx_hash) 0xffffffffffff.

(** [from_block]; the nonce is [pseudo_random(1, max_uint64)]. [None]: a block
    without transactions, whose first transaction the code reads. *)
Definition from_block (nonce : Z) (b : block) (self : t) : option t :=
  let self := reset self in
  match Block.transactions b with
  | [] => None
  | coinbase :: others =>
      let header_hash := block_message.hash b nonce in
      Some (mk (assign_header (cb_header self) (bk_header b)) nonce
              (map (fun tx => short_id header_hash (fst (tx_hash message_witness tx))) others)
              [prefilled_transaction.mk 0 (copy_transaction coinbase)])
  end.

Definition factory_from_block (nonce : Z) (b : block) : option t := from_block nonce b default.

(** Six bytes: the low four and the high two. *)
Definition read_short_id {R} `{Reader R} : rd R Z :=
  lsb <~ read_4_bytes_little_endian ;;
  msb <~ read_2_bytes_little_endian ;;
  rret (Z.lor (Z.shiftl msb 32) lsb).

Definition write_short_id (element : Z) : list Z :=
  let lsb := Z.land element 0xffffffff in
  let msb := Z.land (Z.shiftr element 32) 0xffff in
  write_4_bytes_little_endian lsb ++ write_2_bytes_little_endian msb.

Definition from_data {R} `{Reader R} (version : Z) (self : t) : rd R (t * bool) :=
  let self := reset self in
  p <~ header_from_data true (cb_header self) ;;
  if negb (snd p) then rret (mk (fst p) 0 [] [], false)
  else
    nonce <~ read_8_bytes_little_endian ;;
    count <~ read_size_little_endian ;;
    short_ids <~ guarded count get_max_block_size (read_while read_short_id) ;;
    count <~ read_size_little_endian ;;
    transactions <~ guarded count get_max_block_size
      (read_each (prefilled_transaction.from_data version prefilled_transaction.default)
         prefilled_transaction.default) ;;
    require_version version version_minimum ;;;
    let m := mk (fst p) nonce short_ids transactions in
    rd_check m (reset m).

Definition to_data (version : Z) (m : t) : option (list Z) :=
  match all_some (map (prefilled_transaction.to_data version) (transactions m)) with
  | Some body =>
      Some (header_to_data true (cb_header m) ++
            write_8_bytes_little_endian (nonce m) ++
            write_variable_little_endian (zlen (short_ids m)) ++
            concat (map write_short_id (short_ids m)) ++
            write_variable_little_endian (zlen (transactions m)) ++ body)
  | None => None
  end.

Definition serialized_size (version : Z) (m : t) : Z :=
  fold_left (fun size tx => size + prefilled_transaction.serialized_size version tx) (transactions m)
    (header_serialized_size true + variable_uint_size (zlen (short_ids m)) + zlen (short_ids m) * 6 +
     variable_uint_size (zlen (transactions m)) + 8).

(** [to_data_header_nonce(compact_block)] and [hash(compact_block)] *)
Definition to_data_header_nonce (m : t) : list Z :=
  header_to_data true (cb_header m) ++ write_8_bytes_little_endian (nonce m).
Definition hash (m : t) : list Z := sha256_hash (to_data_header_nonce m).

#[global] Instance compact_block_message : Message t := {
  msg_command := command; msg_default := default; msg_reset := reset;
  msg_from_data R _ version self := from_data version self;
  msg_to_data := to_data;
  msg_serialized_size version m := Some (serialized_size version m)
}.

Definition factory_from_data {R} `{Reader R} (version : Z) : rd R t := msg_factory version.

Definition wf (version : Z) (m : t) : Prop :=
  version_minimum <= version /\ header_message.wf (cb_header m) /\ in_width 64 (nonce m) /\
  (zlen (short_ids m) <= get_max_block_size /\ Forall (in_width 48) (short_ids m)) /\
  (zlen (transactions m) <= get_max_block_size /\ Forall prefilled_transaction.wf (transactions m)).

Definition decoded (self m : t) : t :=
  mk (header_message.decoded (assign_header (cb_header self) default_header) (cb_header m)) (nonce m)
    (short_ids m) (map prefilled_transaction.decoded (transactions m)).

Lemma short_id_parts v :
  in_width 48 v ->
  in_width 32 (Z.land v 0xffffffff) /\ in_width 16 (Z.land (Z.shiftr v 32) 0xffff) /\
  Z.lor (Z.shiftl (Z.land (Z.shiftr v 32) 0xffff) 32) (Z.land v 0xffffffff) = v.
Proof.
  unfold in_width. intros Hv. change 0xffffffff with (Z.ones 32). change 0xffff with (Z.ones 16).
  rewrite !Z.land_ones, Z.shiftr_div_pow2 by lia.
  pose proof (Z.mod_pos_bound v (2 ^ 32)). pose proof (Z.mod_pos_bound (v / 2 ^ 32) (2 ^ 16)).
  assert (v / 2 ^ 32 < 2 ^ 16) by (apply Z.div_lt_upper_bound; lia).
  assert (0 <= v / 2 ^ 32) by (apply Z.div_pos; lia).
  rewrite (Z.mod_small (v / 2 ^ 32)) by lia.
  split_and!; try lia. rewrite Z.lor_comm, lor_shiftl_add by lia.
  rewrite (Z.div_mod v (2 ^ 32)) at 3 by lia. lia.
Qed.

Lemma reads_short_id {R} `{ReaderLaws R} v :
  in_width 48 v -> reads read_short_id (write_short_id v) v.
Proof.
  intros Hv. destruct (short_id_parts v Hv) as (Hl & Hm & E).
  eapply reads_bind; [by apply reads_le|].
  eapply reads_bind_nil; [by apply reads_le|]. rewrite E. apply reads_ret.
Qed.

Lemma short_id_width header_hash tx_hash : in_width 48 (short_id header_hash tx_hash).
Proof.
  unfold short_id, in_width. change 0xffffffffffff with (Z.ones 48). rewrite Z.land_ones by lia.
  apply Z.mod_pos_bound. lia.
Qed.

Lemma prefilled_list version txs body z :
  Forall prefilled_transaction.wf txs ->
  all_some (map (prefilled_transaction.to_data version) txs) = Some body ->
  fold_left (fun size tx => size + prefilled_transaction.serialized_size version tx) txs z =
    z + zlen body /\ bytes_ok body.
Proof.
  intros Hwf Hb. apply all_some_map in Hb as (es & Hes & ->). revert z Hwf.
  induction Hes as [|tx e txs es He _ IH]; intros z Hwf; simpl; [split; [zlen_lia|constructor]|].
  apply Forall_cons in Hwf as [Hx Hwf].
  destruct (prefilled_transaction.prefilled_size version tx e Hx He) as [Hz Hbe].
  destruct (IH (z + prefilled_transaction.serialized_size version tx) Hwf) as [-> Hbb].
  rewrite zlen_app, Hz. split; [lia|]. by apply bytes_ok_app.
Qed.

Lemma prefilled_lossless_list version txs :
  Forall prefilled_transaction.wf txs ->
  map (prefilled_transaction.to_data version) (map prefilled_transaction.decoded txs) =
  map (prefilled_transaction.to_data version) txs.
Proof.
  intros Hwf. rewrite map_map. apply map_ext_Forall. eapply Forall_impl; [exact Hwf|].
  intros tx Hx. by apply prefilled_transaction.prefilled_lossless.
Qed.

(** What a refused message leaves, as for [merkle_block]. *)
Definition blank (self m : t) : Prop := exists hash,
  (hash = None \/ hash = hd_hash_ (cb_header self)) /\
  m = mk (mk_header 0 null_hash null_hash 0 0 0 hash 0 0) 0 [] [].

#[global] Instance compact_block_laws : MessageLaws t.
Proof.
  pose proof get_max_block_size_bound as Hbound.
  refine {| msg_blank := blank; msg_wf := wf; msg_decoded _ := decoded |}; simpl.
  - command_ok.
  - intros version m e (_ & [Hh _] & _ & [Hn Hs] & [Ht Htx]) He _. unfold to_data in He.
    destruct (all_some _) as [body|] eqn:Eb; [|done]. apply (inj Some) in He. subst e.
    unfold serialized_size. rewrite (proj1 (prefilled_list version _ body _ Htx Eb)). f_equal.
    rewrite !zlen_app, zlen_header_to_data, !zlen_write_variable by (done || apply in_width_zlen; lia).
    rewrite (zlen_concat_const _ 6) by (apply Forall_map, Forall_true; done).
    change (zlen (write_8_bytes_little_endian (nonce m))) with 8.
    replace (zlen (map write_short_id (short_ids m))) with (zlen (short_ids m))
      by (unfold zlen; by rewrite length_map). lia.
  - intros version m e (_ & (_ & Hp & Hm) & _ & _ & [_ Htx]) He. unfold to_data in He.
    destruct (all_some _) as [body|] eqn:Eb; [|done]. apply (inj Some) in He. subst e.
    rewrite !bytes_ok_app. split_and!; auto with bitprim.
    + by apply header_message.bytes_ok_header_to_data.
    + apply bytes_ok_to_little_endian.
    + apply bytes_ok_concat, Forall_map, Forall_true. intros v. apply bytes_ok_app.
      split; apply bytes_ok_to_little_endian.
    + apply (prefilled_list version _ body 0 Htx Eb).
  - intros R ? ? version self m e (Hv & [Hh _] & Hc & [Hn Hs] & [Ht Htx]) He. unfold to_data in He.
    destruct (all_some _) as [body|] eqn:Eb; [|done]. apply (inj Some) in He. subst e. apply reads_exact.
    apply all_some_map in Eb as (es & Hes & ->).
    eapply reads_bind; [by apply header_reads|]. cbn [fst snd negb].
    eapply reads_bind; [by apply reads_le|].
    eapply reads_bind; [apply reads_size, in_width_zlen; lia|].
    eapply reads_bind.
    { apply reads_guarded; [done|]. apply reads_while, Forall2_map_r.
      eapply Forall_impl; [exact Hs|]. intros v Hw. by apply reads_short_id. }
    eapply reads_bind; [apply reads_size, in_width_zlen; lia|].
    eapply (reads_bind_nil _ _ _ (map prefilled_transaction.decoded (transactions m))).
    { unfold guarded. case_if; [lia|]. unfold zlen. rewrite Nat2Z.id.
      rewrite <- (length_map prefilled_transaction.decoded). apply reads_each, Forall2_fmap_l.
      clear -Hes Htx. induction Hes as [|tx e txs es He _ IH]; constructor;
        apply Forall_cons in Htx as [Hx Htx]; [by eapply prefilled_transaction.prefilled_reads|auto]. }
    eapply reads_bind_nil; [by apply reads_require|]. apply reads_check.
  - intros version self m e (_ & _ & _ & _ & [_ Htx]) He. unfold to_data in *. simpl.
    rewrite prefilled_lossless_list by done. unfold zlen. by rewrite length_map.
  - intros R ? ? version self. eapply reports_early_always;
      [apply header_from_data_kept|apply header_from_data_refused| |].
    + intros h ->. eexists. split; [reflexivity|]. exists None. split; [by left|done].
    + intros h (_ & _ & Hk). do 6 (apply reports_bind; intros ?). apply reports_check.
      exists (hd_hash_ h). split; [done|reflexivity].
Defined.

(** A compact block made from a block has a short id of 48 bits per transaction
    but the first, which it carries whole at index zero. *)
Lemma from_block_shape nonce b self m :
  from_block nonce b self = Some m ->
  length (short_ids m) = (length (Block.transactions b) - 1)%nat /\ Forall (in_width 48) (short_ids m) /\
  map prefilled_transaction.index (transactions m) = [0] /\
  header_to_data true (cb_header m) = header_to_data true (bk_header b) /\
  hash m = block_message.hash b nonce.
Proof.
  unfold from_block. destruct (Block.transactions b) as [|coinbase others]; [done|]. intros [= <-]. simpl.
  rewrite length_map, Nat.sub_0_r. split_and!; try done.
  apply Forall_map, Forall_true. intros tx. apply short_id_width.
Qed.
End CompactBlock.
End compact_block.
