(* ===== verification/Heading.v ===== *)
(** The heading of a message and the framing, [src/message/heading.cpp] and
    [message::serialize] of [include/bitcoin/bitcoin/message/messages.hpp]. The
    framing is proved against the interface of a message, so it holds for every
    message of [MsgInventory], [MsgControl] and [MsgBlock]. *)

From S2P Require Import Prelude Limits Endian Reader Writer Codes Data Header Checksum Transaction TxCodec TxRules Block BlockRules Message MsgInventory MsgControl MsgBlock.

Inductive message_type : Type :=
  | mt_unknown | mt_address | mt_alert | mt_block | mt_block_transactions | mt_compact_block
  | mt_fee_filter | mt_filter_add | mt_filter_clear | mt_filter_load | mt_get_address
  | mt_get_block_transactions | mt_get_blocks | mt_get_data | mt_get_headers | mt_headers
  | mt_inventory | mt_memory_pool | mt_merkle_block | mt_not_found | mt_ping | mt_pong
  | mt_reject | mt_send_compact | mt_send_headers | mt_transaction | mt_verack | mt_version.

#[global] Instance message_type_eq_dec : EqDecision message_type.
Proof. solve_decision. Defined.

Module heading.

Record t := mk { magic : Z; command : list Z; payload_size : Z; checksum : Z }.

Definition default : t := mk 0 [] 0 0.
Definition satoshi_fixed_size : Z := 4 + command_size + 4 + 4.
Definition maximum_size : Z := satoshi_fixed_size.
Definition maximum_payload_size `{Currency} (version : Z) (witness : bool) : Z :=
  let witness := if is_bch then false else witness in
  if witness then max_block_weight else max_payload_size.

Definition is_valid (h : t) : bool :=
  negb (magic h =? 0) || negb (payload_size h =? 0) || negb (checksum h =? 0) ||
  negb (bool_decide (command h = [])).
Definition reset (h : t) : t := mk 0 [] 0 0.
Definition set_magic (v : Z) (h : t) : t := mk v (command h) (payload_size h) (checksum h).
Definition set_command (v : list Z) (h : t) : t := mk (magic h) v (payload_size h) (checksum h).
Definition set_payload_size (v : Z) (h : t) : t := mk (magic h) (command h) v (checksum h).
Definition set_checksum (v : Z) (h : t) : t := mk (magic h) (command h) (payload_size h) v.
Definition assign (self other : t) : t :=
  mk (magic other) (command other) (payload_size other) (checksum other).
Definition eqb (a b : t) : bool :=
  (magic a =? magic b) && bool_decide (command a = command b) &&
  (payload_size a =? payload_size b) && (checksum a =? checksum b).

Definition from_data {R} `{Reader R} (self : t) : rd R (t * bool) :=
  magic <~ read_4_bytes_little_endian ;;
  command <~ rd_read_string_size command_size ;;
  payload_size <~ read_4_bytes_little_endian ;;
  checksum <~ read_4_bytes_little_endian ;;
  rd_check (mk magic command payload_size checksum) (reset self).

Definition factory_from_data {R} `{Reader R} : rd R t := p <~ from_data default ;; rret (fst p).

Definition to_data (h : t) : list Z :=
  write_4_bytes_little_endian (magic h) ++
  write_string_size (command h) command_size ++
  write_4_bytes_little_endian (payload_size h) ++
  write_4_bytes_little_endian (checksum h).

(** The tests of [heading::type], in order. *)
Definition commands : list (list Z * message_type) :=
  [(address.command, mt_address); (alert.command, mt_alert);
   (block_transactions.command, mt_block_transactions); (block_message.command, mt_block);
   (compact_block.command, mt_compact_block); (fee_filter.command, mt_fee_filter);
   (filter_add.command, mt_filter_add); (filter_clear.command, mt_filter_clear);
   (filter_load.command, mt_filter_load); (get_address.command, mt_get_address);
   (get_block_transactions.command, mt_get_block_transactions); (get_blocks.command, mt_get_blocks);
   (get_data.command, mt_get_data); (get_headers.command, mt_get_headers);
   (headers.command, mt_headers); (inventory.command, mt_inventory);
   (memory_pool.command, mt_memory_pool); (merkle_block.command, mt_merkle_block);
   (not_found.command, mt_not_found); (ping.command, mt_ping); (pong.command, mt_pong);
   (reject.command, mt_reject); (send_compact.command, mt_send_compact);
   (send_headers.command, mt_send_headers); (transaction_message.command, mt_transaction);
   (verack.command, mt_verack); (version.command, mt_version)].

Definition type (h : t) : message_type :=
  match List.find (fun '(command', _) => bool_decide (command h = command')) commands with
  | Some (_, type) => type
  | None => mt_unknown
  end.

Definition wf (h : t) : Prop :=
  in_width 32 (magic h) /\
  (zlen (command h) <= command_size /\ bytes_ok (command h) /\ Forall (fun c => c <> 0) (command h)) /\
  in_width 32 (payload_size h) /\ in_width 32 (checksum h).

Lemma heading_reads {R} `{ReaderLaws R} self h :
  wf h -> reads (from_data self) (to_data h) (h, true).
Proof.
  intros (Hm & (Hl & Hb & Hz) & Hp & Hc). unfold from_data, to_data.
  eapply reads_bind; [by apply reads_le|].
  eapply reads_bind; [by apply reads_string_size|].
  eapply reads_bind; [by apply reads_le|].
  eapply reads_bind_nil; [by apply reads_le|]. destruct h. apply reads_check.
Qed.

Lemma zlen_heading h : zlen (to_data h) = satoshi_fixed_size.
Proof.
  unfold to_data. rewrite !zlen_app, zlen_write_string_size by (unfold command_size; lia). done.
Qed.

(** A type stands for one command, and every command but those of the table is
    unknown. *)
Lemma type_command h ty :
  ty <> mt_unknown -> type h = ty <-> In (command h, ty) commands.
Proof.
  intros Hty. unfold type. split.
  - destruct (List.find _ commands) as [[c ty']|] eqn:Ef; [|congruence]. intros <-.
    apply List.find_some in Ef as [Hin Ec]. apply bool_decide_eq_true in Ec. by rewrite Ec.
  - intros Hin. cbv [commands] in Hin. cbn [In] in Hin.
    repeat (destruct Hin as [Hin|Hin]; [injection Hin as <- <-; vm_compute; reflexivity|]). done.
Qed.
End heading.

(** ** Framing *)

Section Frame.
Context `{Crypto}.

(** [message::serialize]; [None]: an exception, or the assertion that the
    payload has its announced size, without which the checksum would cover
    other bytes. *)
Definition serialize {M} `{Message M} (version : Z) (packet : M) (magic : Z) : option (list Z) :=
  match msg_serialized_size version packet, msg_to_data version packet with
  | Some payload_size, Some payload =>
      if negb (zlen payload =? payload_size) then None
      else
        let check := checksum.bitcoin_checksum payload in
        match safe_unsigned 32 payload_size with
        | Some payload_size32 =>
            Some (heading.to_data (heading.mk magic msg_command payload_size32 check) ++ payload)
        | None => None
        end
  | _, _ => None
  end.

Context `{!checksum.CryptoLaws}.

Lemma serialize_frame {M} `{MessageLaws M} version (m : M) magic e :
  msg_wf version m -> msg_to_data version m = Some e -> in_width 32 (zlen e) ->
  serialize version m magic =
  Some (heading.to_data (heading.mk magic msg_command (zlen e) (checksum.bitcoin_checksum e)) ++ e).
Proof.
  intros Hwf He Hw. unfold in_width in Hw.
  unfold serialize. rewrite (msg_size version m e Hwf He), He by (unfold in_width; lia).
  rewrite Z.eqb_refl. simpl. unfold safe_unsigned, umax. case_if; [|done].
  apply orb_true_iff in E as [E|E]; bool_to_prop; lia.
Qed.

Lemma frame_heading_wf {M} `{MessageLaws M} magic (e : list Z) :
  in_width 32 magic -> in_width 32 (zlen e) ->
  heading.wf (heading.mk magic (msg_command (M := M)) (zlen e) (checksum.bitcoin_checksum e)).
Proof.
  intros Hm He. split_and!; simpl; try done.
  - exact (proj1 msg_command_ok).
  - exact (proj1 (proj2 msg_command_ok)).
  - exact (proj2 (proj2 msg_command_ok)).
  - apply checksum.bitcoin_checksum_width.
Qed.
End Frame.

(** A message framed and read back: the heading names the message, announces its
    size and its checksum and is followed by it; the payload parses, into any
    object, to a message that writes the same bytes. *)
Definition frames (M : Type) `{Crypto} `{MessageLaws M} : Prop :=
  forall R `(ReaderLaws R) version (m self : M) magic e,
  msg_wf version m -> msg_to_data version m = Some e -> in_width 32 (zlen e) -> in_width 32 magic ->
  exists data, serialize version m magic = Some data /\
    let head := heading.mk magic msg_command (zlen e) (checksum.bitcoin_checksum e) in
    zlen data = heading.satoshi_fixed_size + zlen e /\
    (forall rest, heading.from_data heading.default (rd_at (data ++ rest)) =
                  ((head, true), rd_at (e ++ rest))) /\
    fst (msg_from_data version self (rd_at e)) = (msg_decoded version self m, true) /\
    msg_to_data version (msg_decoded version self m) = Some e.

Lemma frame_roundtrip `{Crypto} `{!checksum.CryptoLaws} (M : Type) `{MessageLaws M} : frames M.
Proof.
  intros R ? ? version m self magic e Hwf He Hw Hm. eexists. split; [by apply serialize_frame|].
  cbv zeta. split_and!.
  - by rewrite zlen_app, heading.zlen_heading.
  - intros rest. rewrite <- app_assoc. apply heading.heading_reads. by apply frame_heading_wf.
  - by apply msg_reads.
  - by apply msg_lossless.
Qed.

(** C12: Each of the 27 messages, framed by serialize and read back by any
    reader, for a message within the widths of its fields, the limits of its
    lists and the protocol levels that have it (a version message that has the
    relay flag at a level that has it), without zero bytes in its texts, whose
    transactions have inputs and no stale hash, whose block has no cached
    size, and whose payload is below 2^32 bytes: the heading names the message
    and announces its size and checksum, the payload after it has that size,
    and parses, into any object, to a message that writes the same bytes. For
    a merkle block this holds when the vector of hashes gets exactly the
    capacity it reserves; when it gets more, the loop to the capacity reads
    past the hashes and the message is not read back. *)
Theorem message_frame_roundtrip `{Currency} `{Crypto} `{!checksum.CryptoLaws} `{VectorAlloc} :
  frames address.t /\ frames alert.t /\ frames block_transactions.t /\ frames block_message.t /\
  frames compact_block.t /\ frames fee_filter.t /\ frames filter_add.t /\ frames filter_clear.t /\
  frames filter_load.t /\ frames get_address.t /\ frames get_block_transactions.t /\
  frames get_blocks.t /\ frames get_data.t /\ frames get_headers.t /\ frames headers.t /\
  frames inventory.t /\ frames memory_pool.t /\ frames merkle_block.t /\ frames not_found.t /\
  frames ping.t /\ frames pong.t /\ frames reject.t /\ frames send_compact.t /\
  frames send_headers.t /\ frames transaction_message.t /\ frames verack.t /\ frames version.t /\
  (forall R `(ReaderLaws R) version (m self : merkle_block.t) e,
     merkle_block.fields_ok version m ->
     zlen (merkle_block.hashes m) < reserve_capacity (zlen (merkle_block.hashes m)) ->
     merkle_block.to_data version m = Some e ->
     fst (merkle_block.from_data version self (rd_at e)) <> (merkle_block.decoded self m, true)).
Proof.
  split_and!; try apply frame_roundtrip. intros R ? ? version m self e.
  apply merkle_block.merkle_block_overread.
Qed.

(** What every parse returns, for a message of the build and whatever is in the
    source: the flag is the validity of the reader, and a refused message is
    one that [blank], told the object it was read into, accepts. *)
Definition refuses_cleanly (M : Type) `{Message M} (blank : M -> M -> Prop) : Prop :=
  forall R `(ReaderLaws R) version (self : M), reports (blank self) (msg_from_data version self).

(** The message of the default constructor. *)
Definition as_default {M} `{Message M} (self m : M) : Prop := m = msg_default.

(** The default message, whose header may keep the hash it had cached. *)
Definition null_header (hash : option (list Z)) : header :=
  mk_header 0 null_hash null_hash 0 0 0 hash 0 0.

Definition as_default_merkle_block (self m : merkle_block.t) : Prop := exists hash,
  (hash = None \/ hash = hd_hash_ (merkle_block.mb_header self)) /\
  m = merkle_block.mk (null_header hash) 0 [] [].

Definition as_default_compact_block (self m : compact_block.t) : Prop := exists hash,
  (hash = None \/ hash = hd_hash_ (compact_block.cb_header self)) /\
  m = compact_block.mk (null_header hash) 0 [] [].

(** No field of a payload; what the wire does not carry is that of the object. *)
Definition as_blank_transaction (self m : transaction_message.t) : Prop :=
  let t := transaction_message.base self in
  m = transaction_message.mk (mk_transaction 0 0 [] [] no_caches (unconfirmed t) (validation t)).

(** The same for a block, whose memoized values stay as well, but for those
    that reading without witnesses sets. *)
Definition as_blank_block `{Currency} (self m : block_message.t) : Prop :=
  let b := block_message.base self in
  exists segregated total,
  m = block_message.mk
        (mk_block
           (mk_header 0 null_hash null_hash 0 0 0 None (hd_height (bk_header b))
              (hd_median_time_past (bk_header b)))
           [] segregated (total_inputs_ b) (base_size_ b) total (bk_state b)) /\
  ((segregated = bk_segregated_ b /\ total = total_size_ b) \/
   (is_bch = true /\ segregated = Some false /\ total = None)).

(** C16: For each of the 27 messages, whatever is in the source, the flag a
    parse returns is the validity of the reader after it, and a message whose
    parse fails keeps no field of the payload, nor of the object it was read
    into: it equals the default message, with these exceptions, spelled out in
    the statement: a merkle block or compact block may keep the cached hash of
    the header it had; a transaction keeps the validation data and the values
    of an unconfirmed one; and a block keeps the validation data of its
    header, its state and its memoized sizes, input count and segregation
    flag, but for those that reading without witnesses sets. *)
Theorem messages_refuse_cleanly `{Currency} `{Crypto} `{VectorAlloc} :
  refuses_cleanly address.t as_default /\ refuses_cleanly alert.t as_default /\
  refuses_cleanly block_transactions.t as_default /\
  refuses_cleanly block_message.t as_blank_block /\
  refuses_cleanly compact_block.t as_default_compact_block /\
  refuses_cleanly fee_filter.t as_default /\ refuses_cleanly filter_add.t as_default /\
  refuses_cleanly filter_clear.t as_default /\ refuses_cleanly filter_load.t as_default /\
  refuses_cleanly get_address.t as_default /\ refuses_cleanly get_block_transactions.t as_default /\
  refuses_cleanly get_blocks.t as_default /\ refuses_cleanly get_data.t as_default /\
  refuses_cleanly get_headers.t as_default /\ refuses_cleanly headers.t as_default /\
  refuses_cleanly inventory.t as_default /\ refuses_cleanly memory_pool.t as_default /\
  refuses_cleanly merkle_block.t as_default_merkle_block /\
  refuses_cleanly not_found.t as_default /\ refuses_cleanly ping.t as_default /\
  refuses_cleanly pong.t as_default /\ refuses_cleanly reject.t as_default /\
  refuses_cleanly send_compact.t as_default /\ refuses_cleanly send_headers.t as_default /\
  refuses_cleanly transaction_message.t as_blank_transaction /\
  refuses_cleanly verack.t as_default /\ refuses_cleanly version.t as_default.
Proof.
  split_and!; intros R ? ? version self; try exact (msg_reports version self).
  intros r. destruct (msg_reports version self r) as [Hv Hb]. split; [exact Hv|].
  intros Hf. destruct (Hb Hf) as (segregated & total & E & Hk). exists segregated, total.
  split; [|exact Hk]. destruct (fst (fst (msg_from_data version self r))) as [b]. simpl in *. by rewrite E.
Qed.

(** ** Limits *)

Lemma always_guarded_check {R} `{ReaderLaws R} {A B} (m : rd R (list A)) (f : list A -> rd R (B * bool))
    (get : B -> list A) maximum :
  always m (fun l => zlen l <= maximum) ->
  (forall l, zlen l <= maximum -> always (f l) (fun p => zlen (get (fst p)) <= maximum)) ->
  always (rbind m f) (fun p => zlen (get (fst p)) <= maximum).
Proof. intros Hm Hf. by apply (always_bind _ _ _ _ Hm). Qed.

Ltac limit_bound :=
  first [assumption | by vm_compute | pose proof get_max_block_size_bound; unfold zlen; simpl; lia].

(** Step to the guarded list, the field that [get] takes, and past it. *)
Ltac limit_steps get :=
  first
  [ apply (always_guarded_check _ _ get);
    [ first [apply always_each | apply always_while | apply always_guarded_bytes]; limit_bound
    | intros l Hl; repeat (apply always_step; intros ?); apply always_check; cbn; limit_bound ]
  | apply always_step; intros ?; limit_steps get ].

(** Whatever a peer sends, what an address, inventory, block locator,
    headers, filter or block transactions message parses to is within the
    limit of its list: no count of the wire decides how much is kept. *)
Lemma message_limits `{Currency} {R} `{ReaderLaws R} version :
  (forall self, always (address.from_data version self) (fun p => zlen (fst p) <= max_address)) /\
  (forall self, always (inventory.from_data version self) (fun p => zlen (fst p) <= max_inventory)) /\
  (forall self, always (get_blocks.from_data version self)
     (fun p => zlen (get_blocks.start_hashes (fst p)) <= max_get_blocks)) /\
  (forall self, always (headers.from_data version self)
     (fun p => zlen (headers.elements (fst p)) <= max_get_headers)) /\
  (forall self, always (filter_add.from_data version self)
     (fun p => zlen (filter_add.data (fst p)) <= max_filter_add)) /\
  (forall self, always (filter_load.from_data version self)
     (fun p => zlen (filter_load.filter (fst p)) <= max_filter_load)) /\
  (forall self, always (block_transactions.from_data version self)
     (fun p => zlen (block_transactions.transactions (fst p)) <= get_max_block_size)) /\
  (forall self, always (get_block_transactions.from_data version self)
     (fun p => zlen (get_block_transactions.indexes (fst p)) <= get_max_block_size)).
Proof.
  split_and!; intros self.
  - limit_steps (fun m : address.t => m).
  - limit_steps (fun m : inventory.t => m).
  - limit_steps get_blocks.start_hashes.
  - limit_steps headers.elements.
  - limit_steps filter_add.data.
  - limit_steps filter_load.filter.
  - limit_steps block_transactions.transactions.
  - limit_steps get_block_transactions.indexes.
Qed.
