(* ===== verification/Uri.v ===== *)
(** Uniform resource identifiers: [src/wallet/uri.cpp], the interface of
    [wallet/uri_reader.hpp] and [src/wallet/bitcoin_uri.cpp] (BIP 21 and 72). A
    string is the list of its bytes. *)

From S2P Require Import Prelude Text Limits Endian Codes Number Operation Script Patterns Radix Base16 Base58 Base10 Binary Compact Data Header Checksum Sighash Elliptic Keys Stealth.

(** ** Characters of RFC 3986 *)

Definition is_alpha (c : Z) : bool := ((65 <=? c) && (c <=? 90)) || ((97 <=? c) && (c <=? 122)).
Definition is_number (c : Z) : bool := (48 <=? c) && (c <=? 57).
Definition is_scheme (c : Z) : bool := is_alpha c || is_number c || is_any_of (chars "+-.") c.
Definition is_path_char (c : Z) : bool := is_alpha c || is_number c || is_any_of (chars "-._~!$&'()*+,;=:@") c.
Definition is_path (c : Z) : bool := is_path_char c || (c =? 47).
Definition is_query (c : Z) : bool := is_path_char c || (c =? 47) || (c =? 63).
Definition is_query_char (c : Z) : bool := is_query c && negb (c =? 38) && negb (c =? 61).

Fixpoint validate (text : list Z) (is_valid : Z -> bool) : bool :=
  match text with
  | [] => true
  | c :: tail =>
      if c =? 37 then
        match tail with
        | a :: b :: rest => is_base16 a && is_base16 b && validate rest is_valid
        | _ => false
        end
      else is_valid c && validate tail is_valid
  end.

(** [base16_literal] of two digits *)
Definition hex_pair (a b : Z) : Z := hd 0 (decode_pairs 1 [a; b]).

Fixpoint unescape (text : list Z) : list Z :=
  match text with
  | [] => []
  | c :: tail =>
      if c =? 37 then
        match tail with
        | a :: b :: rest => if is_base16 a && is_base16 b then hex_pair a b :: unescape rest else c :: unescape tail
        | _ => c :: unescape tail
        end
      else c :: unescape tail
  end.

Definition upper_digit (v : Z) : Z := if v <? 10 then 48 + v else 65 + (v - 10).

(** [std::setw(2) << +c] in upper case: a character that is negative where
    [char] is signed prints the eight digits of an [int]. *)
Definition hex_char (char_is_signed : bool) (c : Z) : list Z :=
  (if char_is_signed && (128 <=? c) then repeat 70 6 else []) ++ [upper_digit (c / 16); upper_digit (c mod 16)].

Definition escape (char_is_signed : bool) (text : list Z) (is_valid : Z -> bool) : list Z :=
  concat (map (fun c => if is_valid c then [c] else 37 :: hex_char char_is_signed c) text).

(** ** The parts *)

(** The loop to the first character that stops it: what is passed and what is
    left. *)
Fixpoint scan (stop : Z -> bool) (text : list Z) : list Z * list Z :=
  match text with
  | [] => ([], [])
  | c :: rest => if stop c then ([], text) else let '(part, after) := scan stop rest in (c :: part, after)
  end.

(** A map from strings to strings, ascending as [std::map] is. *)
Definition query_map := list (list Z * list Z).

Fixpoint lexicographic (a b : list Z) : comparison :=
  match a, b with
  | [], [] => Eq
  | [], _ :: _ => Lt
  | _ :: _, [] => Gt
  | x :: a, y :: b => match x ?= y with Eq => lexicographic a b | c => c end
  end.

(** [map[key] = value] *)
Fixpoint map_set (key value : list Z) (m : query_map) : query_map :=
  match m with
  | [] => [(key, value)]
  | (k, v) :: rest =>
      match lexicographic key k with
      | Lt => (key, value) :: m
      | Eq => (key, value) :: rest
      | Gt => (k, v) :: map_set key value rest
      end
  end.

Fixpoint map_find (key : list Z) (m : query_map) : option (list Z) :=
  match m with
  | [] => None
  | (k, v) :: rest => match lexicographic key k with Eq => Some v | _ => map_find key rest end
  end.

Module uri.

Record t := mk {
  scheme_ : list Z;
  authority_ : list Z;
  path_ : list Z;
  query_ : list Z;
  fragment_ : list Z;
  has_authority_ : bool;
  has_query_ : bool;
  has_fragment_ : bool
}.

Definition default : t := mk [] [] [] [] [] false false false.

Definition char_in (text : list Z) (c : Z) : bool := is_any_of text c.

(** The scheme and the colon; [None]: the call returns [false]. *)
Definition decode_scheme (u : t) (encoded : list Z) : t * option (list Z) :=
  let '(scheme, i) := scan (char_in [58]) encoded in
  let u := mk scheme (authority_ u) (path_ u) (query_ u) (fragment_ u) (has_authority_ u) (has_query_ u) (has_fragment_ u) in
  if (zlen scheme =? 0) || negb (is_alpha (hd 0 scheme)) then (u, None)
  else if negb (forallb is_scheme scheme) then (u, None)
  else match i with [] => (u, None) | _ :: i => (u, Some i) end.

Definition decode_authority (strict : bool) (u : t) (i : list Z) : t * option (list Z) :=
  let u := mk (scheme_ u) [] (path_ u) (query_ u) (fragment_ u) false (has_query_ u) (has_fragment_ u) in
  match i with
  | 47 :: 47 :: i =>
      let '(authority, i) := scan (char_in [35; 63; 47]) i in
      let u := mk (scheme_ u) authority (path_ u) (query_ u) (fragment_ u) true (has_query_ u) (has_fragment_ u) in
      if strict && negb (validate authority is_path_char) then (u, None) else (u, Some i)
  | _ => (u, Some i)
  end.

Definition decode_path (strict : bool) (u : t) (i : list Z) : t * option (list Z) :=
  let '(path, i) := scan (char_in [35; 63]) i in
  let u := mk (scheme_ u) (authority_ u) path (query_ u) (fragment_ u) (has_authority_ u) (has_query_ u) (has_fragment_ u) in
  if strict && negb (validate path is_path) then (u, None) else (u, Some i).

Definition decode_query_part (strict : bool) (u : t) (i : list Z) : t * option (list Z) :=
  let '(has_query, i) := match i with [] => (false, i) | c :: rest => if c =? 35 then (false, i) else (true, rest) end in
  let '(query, i) := scan (char_in [35]) i in
  let u := mk (scheme_ u) (authority_ u) (path_ u) query (fragment_ u) (has_authority_ u) has_query (has_fragment_ u) in
  if strict && negb (validate query is_query) then (u, None) else (u, Some i).

Definition decode_fragment (strict : bool) (u : t) (i : list Z) : t * bool :=
  let '(has_fragment, fragment) := match i with [] => (false, []) | _ :: rest => (true, rest) end in
  (mk (scheme_ u) (authority_ u) (path_ u) (query_ u) fragment (has_authority_ u) (has_query_ u) has_fragment,
   negb strict || validate fragment is_query).

(** The next part of the text, unless the call has returned. *)
Definition next_part (f : t -> list Z -> t * option (list Z)) (s : t * option (list Z)) : t * option (list Z) :=
  let '(u, i) := s in match i with Some i => f u i | None => (u, None) end.

Definition decode (self : t) (encoded : list Z) (strict : bool) : t * bool :=
  let s := decode_scheme self encoded in
  let s := next_part (decode_authority strict) s in
  let s := next_part (decode_path strict) s in
  let '(u, i) := next_part (decode_query_part strict) s in
  match i with Some i => decode_fragment strict u i | None => (u, false) end.

Definition encoded (u : t) : list Z :=
  scheme_ u ++ [58] ++
  (if has_authority_ u then [47; 47] ++ authority_ u else []) ++
  path_ u ++
  (if has_query_ u then [63] ++ query_ u else []) ++
  (if has_fragment_ u then [35] ++ fragment_ u else []).

Definition scheme (u : t) : list Z := map (fun c => if (65 <=? c) && (c <=? 90) then c - 65 + 97 else c) (scheme_ u).
Definition authority (u : t) : list Z := unescape (authority_ u).
Definition path (u : t) : list Z := unescape (path_ u).
Definition query (u : t) : list Z := unescape (query_ u).
Definition fragment (u : t) : list Z := unescape (fragment_ u).

Section Setters.
Variable char_is_signed : bool.

Definition set_scheme (scheme : list Z) (u : t) : t :=
  mk scheme (authority_ u) (path_ u) (query_ u) (fragment_ u) (has_authority_ u) (has_query_ u) (has_fragment_ u).
Definition set_authority (authority : list Z) (u : t) : t :=
  mk (scheme_ u) (escape char_is_signed authority is_path_char) (path_ u) (query_ u) (fragment_ u) true (has_query_ u)
    (has_fragment_ u).
Definition remove_authority (u : t) : t :=
  mk (scheme_ u) (authority_ u) (path_ u) (query_ u) (fragment_ u) false (has_query_ u) (has_fragment_ u).
Definition set_path (path : list Z) (u : t) : t :=
  mk (scheme_ u) (authority_ u) (escape char_is_signed path is_path) (query_ u) (fragment_ u) (has_authority_ u)
    (has_query_ u) (has_fragment_ u).
Definition set_query (query : list Z) (u : t) : t :=
  mk (scheme_ u) (authority_ u) (path_ u) (escape char_is_signed query is_query) (fragment_ u) (has_authority_ u) true
    (has_fragment_ u).
Definition remove_query (u : t) : t :=
  mk (scheme_ u) (authority_ u) (path_ u) (query_ u) (fragment_ u) (has_authority_ u) false (has_fragment_ u).
Definition set_fragment (fragment : list Z) (u : t) : t :=
  mk (scheme_ u) (authority_ u) (path_ u) (query_ u) (escape char_is_signed fragment is_query) (has_authority_ u)
    (has_query_ u) true.
Definition remove_fragment (u : t) : t :=
  mk (scheme_ u) (authority_ u) (path_ u) (query_ u) (fragment_ u) (has_authority_ u) (has_query_ u) false.

(** One turn of [decode_query]: a key, a value, and what follows them. *)
Definition query_term (i : list Z) : list Z * list Z * list Z :=
  let '(key, i) := scan (char_in [38; 61]) i in
  let i := match i with [] => [] | c :: rest => if c =? 38 then i else rest end in
  let '(value, i) := scan (char_in [38]) i in
  (unescape key, unescape value, drop 1 i).

(** At most one turn for each character. *)
Fixpoint query_loop (turns : nat) (i : list Z) (out : query_map) : query_map :=
  match turns with
  | O => out
  | S turns =>
      match i with
      | [] => out
      | _ => let '(key, value, i) := query_term i in query_loop turns i (map_set key value out)
      end
  end.

Definition decode_query (u : t) : query_map := query_loop (length (query_ u)) (query_ u) [].

Definition encode_term (term : list Z * list Z) : list Z :=
  let '(key, value) := term in
  escape char_is_signed key is_query_char ++
  (match value with [] => [] | _ => [61] ++ escape char_is_signed value is_query_char end).

Definition encode_query (m : query_map) (u : t) : t :=
  mk (scheme_ u) (authority_ u) (path_ u) (join (map encode_term m) [38]) (fragment_ u) (has_authority_ u)
    (negb (zlen m =? 0)) (has_fragment_ u).
End Setters.
End uri.

(** ** Bitcoin identifiers *)

Module bitcoin_uri.
Section BitcoinUri.
Context `{Currency} `{Crypto} `{Secp256k1}.
Variable char_is_signed : bool.
(** the prefix of addresses of the network *)
Variable cashaddr_prefix : list Z.

Record t := mk { strict_ : bool; scheme_ : list Z; address_ : list Z; query_ : query_map }.

Definition default : t := mk true [] [] [].

Definition bitcoin_scheme : list Z := chars "bitcoin".
Definition parameter_amount : list Z := chars "amount".
Definition parameter_label : list Z := chars "label".
Definition parameter_message : list Z := chars "message".
Definition parameter_r : list Z := chars "r".
Definition parameter_req_ : list Z := chars "req-".
Definition parameter_req_length : nat := 4.

Definition is_set (u : t) : bool :=
  negb (zlen (address_ u) =? 0) || negb (zlen (query_ u) =? 0) || negb (zlen (scheme_ u) =? 0).

Definition encoded (u : t) : list Z :=
  let out := uri.set_scheme bitcoin_scheme uri.default in
  let out := uri.set_path char_is_signed (address_ u) out in
  let out := uri.encode_query char_is_signed (query_ u) out in
  uri.encoded out.

Definition parameter (key : list Z) (u : t) : list Z := match map_find key (query_ u) with Some value => value | None => [] end.

(** [None]: the decoding fails, and the result is not initialized. *)
Definition amount (u : t) : option Z := decode_base10 (parameter parameter_amount u) btc_decimal_places true.

Definition set_query (key value : list Z) (u : t) : t :=
  mk (strict_ u) (scheme_ u) (address_ u) (map_set key value (query_ u)).

Definition set_amount (satoshis : Z) (u : t) : t :=
  set_query parameter_amount (encode_base10 satoshis btc_decimal_places) u.
Definition set_label (label : list Z) (u : t) : t := set_query parameter_label label u.
Definition set_message (message : list Z) (u : t) : t := set_query parameter_message message u.
Definition set_r (r : list Z) (u : t) : t := set_query parameter_r r u.

Definition set_address (address : list Z) (u : t) : t := mk (strict_ u) (scheme_ u) address (query_ u).

(** [None]: the decoder of an address throws. *)
Definition set_address_text (address : list Z) (u : t) : option (t * bool) :=
  payment ← payment_address.from_string cashaddr_prefix address;
  if payment_address.valid payment then Some (set_address address u, true)
  else if stealth_address.valid (stealth_address.from_string address) then Some (set_address address u, true)
  else Some (u, false).

Definition set_amount_text (satoshis : list Z) (u : t) : t * bool :=
  match decode_base10 satoshis btc_decimal_places (strict_ u) with
  | None => (u, false)
  | Some decoded => (set_amount decoded u, true)
  end.

Definition set_strict (strict : bool) (u : t) : t := mk strict (scheme_ u) (address_ u) (query_ u).

Definition set_scheme (scheme : list Z) (u : t) : t * bool :=
  if bool_decide (scheme = bitcoin_scheme) then (mk (strict_ u) scheme (address_ u) (query_ u), true) else (u, false).

Definition set_path (path : list Z) (u : t) : option (t * bool) :=
  if negb (zlen (address_ u) =? 0) then Some (u, false) else set_address_text path u.

Definition set_authority (authority : list Z) (u : t) : option (t * bool) :=
  if strict_ u then Some (u, false) else set_path authority u.

Definition set_fragment (fragment : list Z) (u : t) : t * bool := (u, false).

Definition set_parameter (key value : list Z) (u : t) : t * bool :=
  let required := bool_decide (take parameter_req_length key = parameter_req_) in
  if bool_decide (key = parameter_amount) then set_amount_text value u
  else
    let u :=
      if bool_decide (key = parameter_label) then set_label value u
      else if bool_decide (key = parameter_message) then set_message value u
      else if bool_decide (key = parameter_r) then set_r value u
      else u in
    (u, negb required).

(** The parameters in their order, until one is refused. *)
Fixpoint set_parameters (terms : query_map) (u : t) : option t :=
  match terms with
  | [] => Some u
  | (key, value) :: terms =>
      if zlen key =? 0 then set_parameters terms u
      else let '(u, accepted) := set_parameter key value u in
           if accepted then set_parameters terms u else None
  end.

(** [uri_reader::parse<bitcoin_uri>]: what [set_scheme] returns is not used. A
    refusal returns a default instance; [None]: an address throws. *)
Definition parse (text : list Z) (strict : bool) : option t :=
  let '(parsed, decoded) := uri.decode uri.default text strict in
  if negb decoded then Some default
  else
    let out := set_strict strict default in
    let out := fst (set_scheme (uri.scheme parsed) out) in
    '(out, accepted) ← (if uri.has_authority_ parsed then set_authority (uri.authority parsed) out else Some (out, true));
    if negb accepted then Some default
    else
      '(out, accepted) ← (match uri.path parsed with [] => Some (out, true) | path => set_path path out end);
      if negb accepted then Some default
      else if uri.has_fragment_ parsed && negb (snd (set_fragment (uri.fragment parsed) out)) then Some default
      else match set_parameters (uri.decode_query parsed) out with Some out => Some out | None => Some default end.

Definition eqb (a b : t) : bool :=
  Bool.eqb (strict_ a) (strict_ b) && bool_decide (scheme_ a = scheme_ b) && bool_decide (address_ a = address_ b) &&
  bool_decide (query_ a = query_ b).
End BitcoinUri.
End bitcoin_uri.
