(* ===== verification/UriRules.v ===== *)
(** What the identifiers guarantee: a text that decodes is the encoding of its
    parts, what is escaped is unescaped and is valid, and a map is read back
    from the query it is encoded as. *)

From S2P Require Import Prelude Text Limits Endian Codes Radix Base16 Base58 Base10 Data Header Checksum Elliptic Keys Stealth Uri.

(** ** The text is the encoding of its parts *)

(** A guard that would have returned [false] did not hold. *)
Ltac skip_refusal :=
  cbn [scan]; cbv beta iota zeta;
  lazymatch goal with
  | |- context [if ?b then (_, None) else _] => destruct b; [done|]
  | _ : context [if ?b then (_, None) else _] |- _ => destruct b; [done|]
  end.

Lemma scan_split stop text : fst (scan stop text) ++ snd (scan stop text) = text.
Proof.
  induction text as [|c text IH]; [done|]. cbn [scan]. destruct (stop c); [done|].
  destruct (scan stop text) as [part after]. cbn [fst snd app] in *. by rewrite IH.
Qed.

(** What stops a scan. *)
Lemma scan_stops stop text c rest : snd (scan stop text) = c :: rest -> stop c = true.
Proof.
  induction text as [|x text IH]; [done|]. cbn [scan]. destruct (stop x) eqn:E; [by intros [= -> _]|].
  destruct (scan stop text) as [part after]. cbn [snd] in *. exact IH.
Qed.

(** The parts of an identifier after its authority, its path and its query. *)
Definition with_fragment (u : uri.t) : list Z := if uri.has_fragment_ u then [35] ++ uri.fragment_ u else [].
Definition with_query (u : uri.t) : list Z := (if uri.has_query_ u then [63] ++ uri.query_ u else []) ++ with_fragment u.

Lemma fragment_text strict u i u' valid :
  (i = [] \/ exists rest, i = 35 :: rest) -> uri.decode_fragment strict u i = (u', valid) ->
  with_fragment u' = i /\ uri.scheme_ u' = uri.scheme_ u /\ uri.authority_ u' = uri.authority_ u /\
  uri.path_ u' = uri.path_ u /\ uri.query_ u' = uri.query_ u /\
  uri.has_authority_ u' = uri.has_authority_ u /\ uri.has_query_ u' = uri.has_query_ u.
Proof. intros [->|[rest ->]]; intros [= <- _]; done. Qed.

Lemma query_text strict u i u' i' :
  (i = [] \/ exists c rest, i = c :: rest /\ uri.char_in [35; 63] c = true) ->
  uri.decode_query_part strict u i = (u', Some i') ->
  i = (if uri.has_query_ u' then [63] ++ uri.query_ u' else []) ++ i' /\
  (i' = [] \/ exists rest, i' = 35 :: rest) /\
  uri.scheme_ u' = uri.scheme_ u /\ uri.authority_ u' = uri.authority_ u /\
  uri.path_ u' = uri.path_ u /\ uri.has_authority_ u' = uri.has_authority_ u.
Proof.
  intros Hi. unfold uri.decode_query_part.
  assert (Hstop : forall text, snd (scan (uri.char_in [35]) text) = [] \/
    exists rest, snd (scan (uri.char_in [35]) text) = 35 :: rest).
  { intros text. destruct (snd (scan (uri.char_in [35]) text)) as [|c rest] eqn:E; [by left|]. right. exists rest.
    apply scan_stops in E. unfold uri.char_in, is_any_of in E. cbn [existsb] in E. f_equal. lia. }
  destruct Hi as [->|(c & rest & -> & Hc)].
  - skip_refusal. intros [= <- <-]. split_and!; try done. by left.
  - destruct (Z.eqb_spec c 35) as [->|Hn].
    + cbn [scan]. change (uri.char_in [35] 35) with true. cbv iota. skip_refusal. intros [= <- <-].
      split_and!; try done. right. by eexists.
    + assert (c = 63) as -> by (unfold uri.char_in, is_any_of in Hc; cbn [existsb] in Hc; lia).
      pose proof (scan_split (uri.char_in [35]) rest) as Hs. pose proof (Hstop rest) as Hr.
      destruct (scan (uri.char_in [35]) rest) as [query after]. cbn [fst snd] in *.
      skip_refusal. intros [= <- <-]. split_and!; try done.
      cbn [uri.has_query_ uri.query_ app]. by rewrite Hs.
Qed.

Lemma path_text strict u i u' i' :
  uri.decode_path strict u i = (u', Some i') ->
  i = uri.path_ u' ++ i' /\ (i' = [] \/ exists c rest, i' = c :: rest /\ uri.char_in [35; 63] c = true) /\
  uri.scheme_ u' = uri.scheme_ u /\ uri.authority_ u' = uri.authority_ u /\ uri.has_authority_ u' = uri.has_authority_ u.
Proof.
  unfold uri.decode_path. pose proof (scan_split (uri.char_in [35; 63]) i) as Hs.
  pose proof (scan_stops (uri.char_in [35; 63]) i) as Hstop.
  destruct (scan (uri.char_in [35; 63]) i) as [path after]. cbn [fst snd] in *. skip_refusal.
  intros [= <- <-]. split_and!; try done. destruct after as [|c rest]; [by left|]. right. exists c, rest. split; [done|].
  by apply (Hstop c rest).
Qed.

Lemma authority_text strict u i u' i' :
  uri.decode_authority strict u i = (u', Some i') ->
  i = (if uri.has_authority_ u' then [47; 47] ++ uri.authority_ u' else []) ++ i' /\ uri.scheme_ u' = uri.scheme_ u.
Proof.
  unfold uri.decode_authority. intros E.
  destruct i as [|a i]; [by injection E as <- <-|].
  destruct (Z.eq_dec a 47) as [->|Ha].
  2: { assert (Hskip : match a :: i with 47 :: 47 :: _ => False | _ => True end) by (by repeat case_match).
       repeat (case_match; try done); injection E as <- <-; by subst. }
  destruct i as [|b i]; [by injection E as <- <-|].
  destruct (Z.eq_dec b 47) as [->|Hb].
  2: { repeat (case_match; try done); injection E as <- <-; by subst. }
  pose proof (scan_split (uri.char_in [35; 63; 47]) i) as Hs. destruct (scan _ i) as [authority after]. cbn [fst snd] in Hs.
  skip_refusal. injection E as <- <-. cbn [uri.has_authority_ uri.authority_ app]. by rewrite Hs.
Qed.

Lemma scheme_text u encoded u' i :
  uri.decode_scheme u encoded = (u', Some i) -> encoded = uri.scheme_ u' ++ [58] ++ i.
Proof.
  unfold uri.decode_scheme. pose proof (scan_split (uri.char_in [58]) encoded) as Hs.
  pose proof (scan_stops (uri.char_in [58]) encoded) as Hstop.
  destruct (scan (uri.char_in [58]) encoded) as [scheme after]. cbn [fst snd] in *.
  do 2 skip_refusal. destruct after as [|c rest]; [done|]. intros [= <- <-].
  specialize (Hstop c rest eq_refl). unfold uri.char_in, is_any_of in Hstop. cbn [existsb] in Hstop.
  assert (c = 58) as -> by lia. cbn [uri.scheme_ app]. by rewrite Hs.
Qed.

(** A text that decodes, strictly or not, is the encoding of what it decodes to,
    whatever the object held before. *)
Theorem uri_decode_encoded self text strict u :
  uri.decode self text strict = (u, true) -> uri.encoded u = text.
Proof.
  unfold uri.decode.
  destruct (uri.decode_scheme self text) as [u1 [i1|]] eqn:E1; [|done]. cbn [uri.next_part].
  destruct (uri.decode_authority strict u1 i1) as [u2 [i2|]] eqn:E2; [|done]. cbn [uri.next_part].
  destruct (uri.decode_path strict u2 i2) as [u3 [i3|]] eqn:E3; [|done]. cbn [uri.next_part].
  destruct (uri.decode_query_part strict u3 i3) as [u4 [i4|]] eqn:E4; [|done]. intros E5.
  apply scheme_text in E1. apply authority_text in E2 as [E2 S2]. apply path_text in E3 as (E3 & Hi3 & S3 & A3 & H3).
  apply query_text in E4 as (E4 & Hi4 & S4 & A4 & P4 & H4); [|done].
  apply fragment_text in E5 as (E5 & S5 & A5 & P5 & Q5 & H5 & HQ5); [|done].
  unfold uri.encoded. fold (with_fragment u). rewrite E5, S5, A5, P5, Q5, H5, HQ5, S4, A4, P4, H4, S3, A3, H3, S2.
  by rewrite <- E4, <- E3, <- E2.
Qed.

(** ** Escapes *)

(** The bytes that [escape] writes with two digits. *)
Definition escapable (char_is_signed : bool) (c : Z) : Prop := 0 <= c < if char_is_signed then 128 else 256.

Definition escape_ok (c : Z) : bool :=
  let pair := [upper_digit (c / 16); upper_digit (c mod 16)] in
  forallb is_base16 pair && forallb (fun x => is_alpha x || is_number x) pair &&
  (hex_pair (upper_digit (c / 16)) (upper_digit (c mod 16)) =? c).

Lemma escape_digits c : byte_ok c -> escape_ok c = true.
Proof. revert c. apply byte_forall. by vm_compute. Qed.

Lemma escaped_char signed c :
  escapable signed c ->
  exists a b, hex_char signed c = [a; b] /\ is_base16 a = true /\ is_base16 b = true /\
    hex_pair a b = c /\ (forall x, In x [a; b] -> is_alpha x || is_number x = true).
Proof.
  intros Hc. exists (upper_digit (c / 16)), (upper_digit (c mod 16)).
  assert (Hb : byte_ok c) by (unfold escapable, byte_ok in *; destruct signed; lia).
  pose proof (escape_digits c Hb) as He. unfold escape_ok in He. cbn [forallb] in He.
  rewrite !andb_true_iff, Z.eqb_eq in He. destruct He as [[(H1 & H2 & _) (H3 & H4 & _)] H5]. split_and!; try done.
  - unfold hex_char. destruct signed; cbn [andb app]; [|done].
    unfold escapable in Hc. destruct (Z.leb_spec 128 c); [lia|done].
  - intros x [<-|[<-|[]]]; done.
Qed.

(** The classes of characters do not hold the sign of an escape, and hold the
    digits. *)
Definition class_ok (is_valid : Z -> bool) : Prop :=
  is_valid 37 = false /\ forall c, is_alpha c || is_number c = true -> is_valid c = true.

Lemma classes_ok : class_ok is_path_char /\ class_ok is_path /\ class_ok is_query /\ class_ok is_query_char.
Proof.
  split_and!; (split; [done|]); intros c Hc; unfold is_query_char, is_query, is_path, is_path_char; rewrite Hc; cbn [orb andb]; try done.
  unfold is_alpha, is_number in Hc. lia.
Qed.

Lemma unescape_escape signed is_valid text :
  class_ok is_valid -> Forall (escapable signed) text -> unescape (escape signed text is_valid) = text.
Proof.
  intros [Hp _] Ht. induction Ht as [|c text Hc _ IH]; [done|]. unfold escape in *. cbn [map concat].
  destruct (is_valid c) eqn:Ev.
  - cbn [app unescape]. destruct (Z.eqb_spec c 37) as [->|]; [by rewrite Hp in Ev|]. by rewrite IH.
  - destruct (escaped_char signed c Hc) as (a & b & -> & Ha & Hb & Hv & _). cbn [app unescape Z.eqb].
    rewrite Ha, Hb. cbn [andb]. by rewrite Hv, IH.
Qed.

Lemma validate_escape signed is_valid text :
  class_ok is_valid -> Forall (escapable signed) text -> validate (escape signed text is_valid) is_valid = true.
Proof.
  intros [Hp _] Ht. induction Ht as [|c text Hc _ IH]; [done|]. unfold escape in *. cbn [map concat].
  destruct (is_valid c) eqn:Ev.
  - cbn [app validate]. destruct (Z.eqb_spec c 37) as [->|]; [by rewrite Hp in Ev|]. by rewrite Ev, IH.
  - destruct (escaped_char signed c Hc) as (a & b & -> & Ha & Hb & Hv & _). cbn [app validate Z.eqb].
    by rewrite Ha, Hb, IH.
Qed.

(** What is escaped holds valid characters, escapes and digits only. *)
Lemma escape_chars signed is_valid text :
  class_ok is_valid -> Forall (escapable signed) text ->
  Forall (fun c => is_valid c = true \/ c = 37) (escape signed text is_valid).
Proof.
  intros [_ Hd] Ht. induction Ht as [|c text Hc _ IH]; [constructor|]. unfold escape in *. cbn [map concat].
  apply Forall_app. split; [|exact IH]. destruct (is_valid c) eqn:Ev; [apply Forall_cons_2; [by left|constructor]|].
  destruct (escaped_char signed c Hc) as (a & b & -> & _ & _ & _ & Hin). constructor; [by right|].
  do 2 (apply Forall_cons_2; [left; apply Hd, Hin; cbn [In]; tauto|]). constructor.
Qed.

(** ** A map is read back from its query *)

Lemma lexicographic_eq a b : lexicographic a b = Eq <-> a = b.
Proof.
  revert b. induction a as [|x a IH]; intros [|y b]; cbn [lexicographic]; try done.
  destruct (Z.compare_spec x y) as [->|H|H].
  - rewrite IH. split; [by intros ->|by intros [= ->]].
  - split; [done|]. intros [= -> ->]. lia.
  - split; [done|]. intros [= -> ->]. lia.
Qed.

Lemma lexicographic_flip a b : lexicographic a b = Lt -> lexicographic b a = Gt.
Proof.
  revert b. induction a as [|x a IH]; intros [|y b]; cbn [lexicographic]; try done.
  rewrite (Z.compare_antisym x y). destruct (x ?= y); cbn [CompOpp]; try done. by apply IH.
Qed.

Fixpoint ascending_keys (m : query_map) : Prop :=
  match m with
  | [] => True
  | (k, _) :: rest => Forall (fun e => lexicographic k (fst e) = Lt) rest /\ ascending_keys rest
  end.

Lemma map_set_last key value m :
  Forall (fun e => lexicographic (fst e) key = Lt) m -> map_set key value m = m ++ [(key, value)].
Proof.
  induction 1 as [|[k v] m Hk _ IH]; [done|]. cbn [map_set fst] in *. by rewrite (lexicographic_flip k key Hk), IH.
Qed.

Lemma scan_app stop part rest :
  Forall (fun c => stop c = false) part ->
  (rest = [] \/ exists c tail, rest = c :: tail /\ stop c = true) -> scan stop (part ++ rest) = (part, rest).
Proof.
  intros Hp Hr. induction Hp as [|c part Hc _ IH].
  - destruct Hr as [->|(c & tail & -> & Hc)]; [done|]. cbn [app scan]. by rewrite Hc.
  - cbn [app scan]. by rewrite Hc, IH.
Qed.

Definition term_ok (signed : bool) (term : list Z * list Z) : Prop :=
  Forall (escapable signed) (fst term) /\ Forall (escapable signed) (snd term).

Lemma escape_no_delimiter signed text :
  Forall (escapable signed) text ->
  Forall (fun c => uri.char_in [38; 61] c = false /\ uri.char_in [38] c = false) (escape signed text is_query_char).
Proof.
  intros Ht. eapply Forall_impl; [apply escape_chars; [apply classes_ok|done]|].
  intros c [Hc| ->]; [|done]. unfold is_query_char in Hc. unfold uri.char_in, is_any_of. cbn [existsb]. lia.
Qed.

(** One turn reads the term that was written, up to the next one. *)
Lemma query_term_back signed term rest :
  term_ok signed term -> (rest = [] \/ exists tail, rest = 38 :: tail) ->
  uri.query_term (uri.encode_term signed term ++ rest) = (fst term, snd term, drop 1 rest).
Proof.
  destruct term as [key value]. intros [Hk Hv] Hr. cbn [fst snd] in *. unfold uri.encode_term, uri.query_term.
  pose proof (escape_no_delimiter signed key Hk) as Ek. pose proof (escape_no_delimiter signed value Hv) as Ev.
  rewrite <- app_assoc. set (tail := (match value with [] => [] | _ => [61] ++ escape signed value is_query_char end) ++ rest).
  assert (Htail : tail = [] \/ exists c t, tail = c :: t /\ uri.char_in [38; 61] c = true).
  { subst tail. destruct value as [|v value]; [|right; do 2 eexists; split; [cbn [app]; reflexivity|done]].
    destruct Hr as [->|[t ->]]; [by left|right]. do 2 eexists. by split. }
  rewrite scan_app; [|eapply Forall_impl; [exact Ek|]; by intros c [? _]|done].
  rewrite (unescape_escape signed is_query_char key) by first [apply classes_ok | done].
  assert (Hvalue : scan (uri.char_in [38]) (match tail with [] => [] | c :: t => if c =? 38 then tail else t end) =
    (escape signed value is_query_char, rest)).
  { subst tail. destruct value as [|v value].
    - cbn [app]. destruct Hr as [->|[t ->]]; [done|]. cbn [Z.eqb Pos.eqb]. done.
    - cbn [app Z.eqb Pos.eqb]. apply scan_app; [eapply Forall_impl; [exact Ev|]; by intros c [_ ?]|].
      destruct Hr as [->|[t ->]]; [by left|right]. do 2 eexists. by split. }
  rewrite Hvalue. by rewrite (unescape_escape signed is_query_char value) by first [apply classes_ok | done].
Qed.

(** Enough turns read all the terms into the map. *)
Lemma query_loop_back signed (m : query_map) : forall (turns : nat) (out : query_map),
  Forall (term_ok signed) m -> ascending_keys m ->
  Forall (fun e => Forall (fun o => lexicographic (fst o) (fst e) = Lt) out) m ->
  m <> [([], [])] -> (length (join (map (uri.encode_term signed) m) [38%Z]) <= turns)%nat ->
  uri.query_loop turns (join (map (uri.encode_term signed) m) [38]) out = out ++ m.
Proof.
  induction m as [|term m IH]; intros turns out Hok Hasc Hout Hne Hl.
  { destruct turns; by rewrite app_nil_r. }
  apply Forall_cons in Hok as [Hterm Hok]. apply Forall_cons in Hout as [Ho Hout].
  set (rest := match m with [] => [] | _ => 38 :: join (map (uri.encode_term signed) m) [38] end).
  assert (Ej : join (map (uri.encode_term signed) (term :: m)) [38] = uri.encode_term signed term ++ rest).
  { subst rest. destruct m; cbn [map join]; [by rewrite app_nil_r|done]. }
  rewrite Ej in *. destruct turns as [|turns].
  { exfalso. rewrite length_app in Hl. subst rest. destruct m; [|simpl in Hl; lia].
    destruct term as [[|k key] [|v value]]; cbn [uri.encode_term app] in Hl; try done.
    - simpl in Hl; lia.
    - unfold escape in Hl. cbn [map concat] in Hl. destruct (is_query_char k); rewrite ?length_app in Hl; simpl in Hl; lia.
    - unfold escape in Hl. cbn [map concat] in Hl. destruct (is_query_char k); rewrite ?length_app in Hl; simpl in Hl; lia. }
  assert (Hrest : rest = [] \/ exists t, rest = 38 :: t) by (subst rest; destruct m; [by left|right; by eexists]).
  pose proof (query_term_back signed term rest Hterm Hrest) as Hterm_back.
  destruct term as [key value]. cbn [fst snd] in *.
  assert (Hset : map_set key value out = out ++ [(key, value)]) by (by apply map_set_last).
  assert (Hnext : uri.query_loop turns (drop 1 rest) (map_set key value out) = out ++ (key, value) :: m).
  { rewrite Hset. replace (out ++ (key, value) :: m) with ((out ++ [(key, value)]) ++ m) by (by rewrite <- app_assoc).
    destruct Hasc as [Hlt Hasc]. subst rest. destruct m as [|[k2 v2] m].
    { destruct turns; by rewrite app_nil_r. }
    change (uri.query_loop turns (join (map (uri.encode_term signed) ((k2, v2) :: m)) [38]) (out ++ [(key, value)]) =
            (out ++ [(key, value)]) ++ (k2, v2) :: m).
    apply IH; [done|done| |intros E; apply Forall_cons in Hlt as [Hlt _]; injection E as -> ? ?; by destruct key|].
    - apply Forall_forall. intros e He. apply Forall_app. split.
      + by apply (proj1 (Forall_forall _ _) Hout).
      + apply Forall_cons_2; [|constructor]. by apply (proj1 (Forall_forall _ _) Hlt).
    - rewrite length_app in Hl. simpl in Hl |- *. lia. }
  cbn [uri.query_loop]. destruct (uri.encode_term signed (key, value) ++ rest) as [|c t] eqn:Et.
  - exfalso. apply app_eq_nil in Et as [E1 E2]. subst rest. destruct m; [|done].
    destruct key as [|k key]; [destruct value as [|v value]; [done|done]|].
    unfold uri.encode_term, escape in E1. cbn [map concat] in E1. by destruct (is_query_char k).
  - by rewrite Hterm_back.
Qed.

(** A map whose strings can be escaped is read back from the query it is
    encoded as, but for the map of one empty entry. What is escaped is valid and
    is unescaped to what it was. *)
Theorem uri_query_roundtrip signed m u :
  Forall (term_ok signed) m -> ascending_keys m -> m <> [([], [])] ->
  uri.decode_query (uri.encode_query signed m u) = m /\
  Forall (fun term => forall text, In text [fst term; snd term] ->
    unescape (escape signed text is_query_char) = text /\
    validate (escape signed text is_query_char) is_query_char = true) m.
Proof.
  intros Hok Hasc Hne. split.
  - unfold uri.decode_query, uri.encode_query. cbn [uri.query_]. rewrite query_loop_back with (signed := signed); try done.
    apply Forall_true. constructor.
  - eapply Forall_impl; [exact Hok|]. intros [key value] [Hk Hv] text [<-|[<-|[]]];
      (split; [apply unescape_escape|apply validate_escape]); first [apply classes_ok | done].
Qed.

(** A character that is negative is escaped as eight digits, which do not
    decode to it. *)
Lemma negative_escape c :
  128 <= c < 256 -> unescape (escape true [c] is_query) <> [c].
Proof.
  intros Hc. assert (Hv : is_query c = false).
  { unfold is_query, is_path_char, is_alpha, is_number, is_any_of.
    let l := eval vm_compute in (chars "-._~!$&'()*+,;=:@") in change (chars "-._~!$&'()*+,;=:@") with l.
    cbn [existsb]. lia. }
  unfold escape, hex_char. cbn [map concat]. rewrite Hv, (proj2 (Z.leb_le 128 c)) by lia. cbn [andb repeat app unescape Z.eqb Pos.eqb].
  intros E. apply (f_equal length) in E. discriminate E.
Qed.

(** ** Bitcoin identifiers *)

Lemma escape_valid signed is_valid text :
  Forall (fun c => is_valid c = true) text -> escape signed text is_valid = text.
Proof.
  intros Ht. induction Ht as [|c text Hc _ IH]; [done|]. unfold escape in *. cbn [map concat]. by rewrite Hc, IH.
Qed.

Lemma validate_valid is_valid text :
  is_valid 37 = false -> Forall (fun c => is_valid c = true) text -> validate text is_valid = true.
Proof.
  intros Hp Ht. induction Ht as [|c text Hc _ IH]; [done|]. cbn [validate].
  destruct (Z.eqb_spec c 37) as [->|]; [by rewrite Hp in Hc|]. by rewrite Hc, IH.
Qed.

Lemma unescape_valid is_valid text :
  is_valid 37 = false -> Forall (fun c => is_valid c = true) text -> unescape text = text.
Proof.
  intros Hp Ht. induction Ht as [|c text Hc _ IH]; [done|]. cbn [unescape].
  destruct (Z.eqb_spec c 37) as [->|]; [by rewrite Hp in Hc|]. by rewrite IH.
Qed.

Lemma path_char_plain c : is_path_char c = true -> is_path c = true /\ uri.char_in [35; 63] c = false /\ c <> 47.
Proof.
  intros Hc. split_and!.
  - unfold is_path. by rewrite Hc.
  - unfold uri.char_in, is_any_of. cbn [existsb].
    destruct (Z.eqb_spec c 35) as [->|]; [done|]. by destruct (Z.eqb_spec c 63) as [->|].
  - by intros ->.
Qed.

(** The query of a map with every character an escape allows. *)
Lemma query_chars signed m :
  Forall (term_ok signed) m ->
  Forall (fun c => is_query_char c = true \/ c = 37 \/ c = 38 \/ c = 61) (join (map (uri.encode_term signed) m) [38]).
Proof.
  assert (He : forall text, Forall (escapable signed) text ->
    Forall (fun c => is_query_char c = true \/ c = 37 \/ c = 38 \/ c = 61) (escape signed text is_query_char)).
  { intros text Ht. eapply Forall_impl; [apply escape_chars; [apply classes_ok|exact Ht]|]. intros c [?| ->]; auto. }
  intros Hm. induction Hm as [|[key value] m [Hk Hv] Hm IH]; [constructor|].
  assert (Hterm : Forall (fun c => is_query_char c = true \/ c = 37 \/ c = 38 \/ c = 61) (uri.encode_term signed (key, value))).
  { unfold uri.encode_term. apply Forall_app. split; [by apply He|]. destruct value; [constructor|].
    apply Forall_cons_2; [auto|by apply He]. }
  destruct m; [exact Hterm|]. cbn [map join]. apply Forall_app. split; [exact Hterm|].
  apply Forall_cons_2; [auto|exact IH].
Qed.

Lemma query_validate signed m :
  Forall (term_ok signed) m -> validate (join (map (uri.encode_term signed) m) [38]) is_query = true.
Proof.
  assert (Happ : forall a b, validate a is_query = true -> validate b is_query = true -> validate (a ++ b) is_query = true).
  { intros a b Ha Hb. revert Ha. induction a as [a IH] using (induction_ltof1 _ (@length Z)). unfold ltof in IH. intros Ha.
    destruct a as [|c a]; [done|]. cbn [app validate] in *. destruct (c =? 37).
    - destruct a as [|x [|y a]]; try done. cbn [app]. apply andb_true_iff in Ha as [Hxy Ha]. rewrite Hxy. apply IH; [simpl; lia|done].
    - apply andb_true_iff in Ha as [-> Ha]. apply IH; [simpl; lia|done]. }
  assert (Hclass : forall text, validate text is_query_char = true -> validate text is_query = true).
  { intros text. induction text as [a IH] using (induction_ltof1 _ (@length Z)). unfold ltof in IH. intros Ha.
    destruct a as [|c a]; [done|]. cbn [validate] in *. destruct (c =? 37).
    - destruct a as [|x [|y a]]; try done. apply andb_true_iff in Ha as [-> Ha]. apply IH; [simpl; lia|done].
    - apply andb_true_iff in Ha as [Hc Ha]. unfold is_query_char in Hc. apply andb_true_iff in Hc as [Hc _].
      apply andb_true_iff in Hc as [-> _]. apply IH; [simpl; lia|done]. }
  intros Hm. induction Hm as [|[key value] m [Hk Hv] Hm IH]; [done|].
  assert (Hterm : validate (uri.encode_term signed (key, value)) is_query = true).
  { unfold uri.encode_term. apply Happ; [by apply Hclass, validate_escape; [apply classes_ok|]|].
    destruct value; [done|]. apply (Happ [61]); [done|]. by apply Hclass, validate_escape; [apply classes_ok|]. }
  destruct m; [exact Hterm|]. cbn [map join]. apply Happ; [exact Hterm|]. by apply (Happ [38]).
Qed.

(** What a text of a scheme, a path and a query decodes to. *)
Lemma decode_parts strict path signed m :
  Forall (fun c => is_path_char c = true) path -> Forall (term_ok signed) m ->
  let u := uri.encode_query signed m (uri.set_path signed path (uri.set_scheme bitcoin_uri.bitcoin_scheme uri.default)) in
  uri.decode uri.default (uri.encoded u) strict =
  (uri.mk bitcoin_uri.bitcoin_scheme [] path (join (map (uri.encode_term signed) m) [38]) [] false (negb (zlen m =? 0)) false, true).
Proof.
  intros Hp Hm u. set (query := join (map (uri.encode_term signed) m) [38]).
  assert (Hpath : escape signed path is_path = path).
  { apply escape_valid. eapply Forall_impl; [exact Hp|]. intros c Hc. by apply path_char_plain. }
  set (tail := (if negb (zlen m =? 0) then 63 :: query else [])).
  assert (Eu : uri.encoded u = bitcoin_uri.bitcoin_scheme ++ 58 :: path ++ tail).
  { unfold u, uri.encoded. cbn. rewrite Hpath, app_nil_r. done. }
  assert (Hscheme : forall rest, uri.decode_scheme uri.default (bitcoin_uri.bitcoin_scheme ++ 58 :: rest) =
    (uri.set_scheme bitcoin_uri.bitcoin_scheme uri.default, Some rest)) by reflexivity.
  rewrite Eu. unfold uri.decode. rewrite Hscheme. cbn [uri.next_part].
  assert (Hauth : forall w, uri.decode_authority strict w (path ++ tail) =
    (uri.mk (uri.scheme_ w) [] (uri.path_ w) (uri.query_ w) (uri.fragment_ w) false (uri.has_query_ w) (uri.has_fragment_ w),
     Some (path ++ tail))).
  { intros w. unfold uri.decode_authority. destruct Hp as [|c path Hc Hp].
    - subst tail. by destruct (negb (zlen m =? 0)).
    - apply path_char_plain in Hc as (_ & _ & Hc). cbn [app]. repeat (case_match; try done); by subst. }
  rewrite Hauth. cbn [uri.next_part uri.scheme_ uri.authority_ uri.path_ uri.query_ uri.fragment_ uri.has_authority_ uri.has_query_ uri.has_fragment_].
  unfold uri.decode_path. rewrite scan_app.
  2: { eapply Forall_impl; [exact Hp|]. intros c Hc. by apply path_char_plain. }
  2: { subst tail. destruct (negb (zlen m =? 0)); [right; do 2 eexists; by split|by left]. }
  rewrite (validate_valid is_path path); [|done|eapply Forall_impl; [exact Hp|]; intros c Hc; by apply path_char_plain].
  rewrite andb_false_r. cbn [uri.next_part uri.scheme_ uri.authority_ uri.path_ uri.query_ uri.fragment_ uri.has_authority_ uri.has_query_ uri.has_fragment_].
  unfold uri.decode_query_part. subst tail. destruct (zlen m =? 0) eqn:Ez; cbn [negb].
  - assert (m = []) as -> by (destruct m; [done|unfold zlen in Ez; simpl in Ez; lia]). cbn [scan].
    change query with (@nil Z). rewrite andb_false_r. cbn. by rewrite orb_true_r.
  - assert (Hscan : scan (uri.char_in [35]) query = (query, [])).
    { rewrite <- (app_nil_r query) at 1. apply scan_app; [|by left].
      eapply Forall_impl; [by apply query_chars with (signed := signed)|]. intros c Hc. cbv beta in Hc.
      unfold uri.char_in, is_any_of. cbn [existsb]. destruct (Z.eqb_spec c 35) as [->|]; [|done].
      destruct Hc as [Hc|[Hc|[Hc|Hc]]]; done. }
    cbn [Z.eqb Pos.eqb]. rewrite Hscan. unfold query at 1. rewrite query_validate by done. rewrite andb_false_r.
    unfold uri.decode_fragment. cbn [validate]. by rewrite orb_true_r.
Qed.

Section BitcoinUri.
Context `{Currency} `{Crypto} `{Secp256k1}.
Variables (signed : bool) (prefix : list Z).

Import bitcoin_uri.

(** The parameters that the setters make. *)
Definition parameter_ok (term : list Z * list Z) : Prop :=
  (fst term = parameter_amount /\ exists n, in_width 64 n /\ snd term = encode_base10 n btc_decimal_places) \/
  fst term = parameter_label \/ fst term = parameter_message \/ fst term = parameter_r.

Lemma set_parameter_back term u :
  parameter_ok term -> Forall (fun e => lexicographic (fst e) (fst term) = Lt) (query_ u) ->
  set_parameter (fst term) (snd term) u =
  (mk (strict_ u) (scheme_ u) (address_ u) (query_ u ++ [term]), true).
Proof.
  destruct term as [key value]. cbn [fst snd]. intros Hok Hlt.
  assert (Hset : set_query key value u = mk (strict_ u) (scheme_ u) (address_ u) (query_ u ++ [(key, value)]))
    by (unfold set_query; by rewrite map_set_last).
  unfold set_parameter. destruct Hok as [[E (n & Hn & Ev)]|[E|[E|E]]]; cbn [fst snd] in *; subst key.
  - rewrite bool_decide_true by done. unfold set_amount_text. rewrite Ev, decode_encode_base10 by done.
    unfold set_amount. by rewrite <- Ev, Hset.
  - change (bool_decide (parameter_label = parameter_amount)) with false. cbv iota zeta.
    change (bool_decide (parameter_label = parameter_label)) with true. cbv iota. unfold set_label. by rewrite Hset.
  - change (bool_decide (parameter_message = parameter_amount)) with false. cbv iota zeta.
    change (bool_decide (parameter_message = parameter_label)) with false. cbv iota. unfold set_message. by rewrite Hset.
  - change (bool_decide (parameter_r = parameter_amount)) with false. cbv iota zeta.
    change (bool_decide (parameter_r = parameter_label)) with false. cbv iota. unfold set_r. by rewrite Hset.
Qed.

Lemma set_parameters_back m : forall u,
  Forall parameter_ok m -> ascending_keys m ->
  Forall (fun e => Forall (fun o => lexicographic (fst o) (fst e) = Lt) (query_ u)) m ->
  set_parameters m u = Some (mk (strict_ u) (scheme_ u) (address_ u) (query_ u ++ m)).
Proof.
  induction m as [|[key value] m IH]; intros u Hok Hasc Hlt.
  { rewrite app_nil_r. by destruct u. }
  apply Forall_cons in Hok as [Hk Hok]. apply Forall_cons in Hlt as [Hl Hlt]. destruct Hasc as [Hm Hasc].
  cbn [set_parameters]. assert (Hne : (zlen key =? 0) = false).
  { destruct Hk as [[E _]|[E|[E|E]]]; cbn [fst] in E; by rewrite E. }
  rewrite Hne. pose proof (set_parameter_back (key, value) u Hk Hl) as Hset. cbn [fst snd] in Hset. rewrite Hset.
  rewrite IH; cbn [strict_ scheme_ address_ query_]; [by rewrite <- app_assoc|done|done|].
  apply Forall_forall. intros e He. apply Forall_app. split.
  - by apply (proj1 (Forall_forall _ _) Hlt).
  - apply Forall_cons_2; [|constructor]. by apply (proj1 (Forall_forall _ _) Hm).
Qed.

(** An address that the setters accept, or none. *)
Definition uri_address_ok (address : list Z) : Prop :=
  Forall (fun c => is_path_char c = true) address /\
  (address = [] \/
   exists payment, payment_address.from_string prefix address = Some payment /\
     (payment_address.valid payment = true \/ stealth_address.valid (stealth_address.from_string address) = true)).

(** The text of an identifier that the setters made parses back to it, in
    either mode. *)
Theorem bitcoin_uri_roundtrip u :
  scheme_ u = bitcoin_scheme -> uri_address_ok (address_ u) ->
  ascending_keys (query_ u) -> Forall (term_ok signed) (query_ u) -> Forall parameter_ok (query_ u) ->
  parse prefix (encoded signed u) (strict_ u) = Some u.
Proof.
  intros Hs [Hchars Haddress] Hasc Hterms Hok. unfold parse, encoded. rewrite decode_parts by done. cbn [negb].
  set (parsed := uri.mk _ _ _ _ _ _ _ _).
  assert (Hscheme : set_scheme (uri.scheme parsed) (set_strict (strict_ u) default) = (mk (strict_ u) (scheme_ u) [] [], true)).
  { rewrite Hs. reflexivity. }
  rewrite Hscheme. cbn [fst uri.has_authority_ parsed mbind option_bind negb uri.has_fragment_ andb].
  assert (Hpath : uri.path parsed = address_ u).
  { unfold uri.path. cbn [uri.path_ parsed]. apply (unescape_valid is_path_char); done. }
  rewrite Hpath.
  assert (Hset : (match address_ u with [] => Some (mk (strict_ u) (scheme_ u) [] [], true)
                  | path => set_path prefix path (mk (strict_ u) (scheme_ u) [] []) end) =
                 Some (mk (strict_ u) (scheme_ u) (address_ u) [], true)).
  { destruct Haddress as [->|(payment & Ep & Hv)]; [done|]. destruct (address_ u) as [|c l] eqn:Ea; [done|].
    rewrite <- Ea in *. unfold set_path. cbn [address_ zlen]. unfold set_address_text. rewrite Ep. cbn [mbind option_bind].
    change (negb (zlen [] =? 0)) with false. cbv iota.
    destruct (payment_address.valid payment); [done|]. destruct Hv as [Hv|Hv]; [done|]. by rewrite Hv. }
  rewrite Hset. cbn [mbind option_bind negb].
  assert (Hquery : uri.decode_query parsed = query_ u).
  { unfold uri.decode_query. cbn [uri.query_ parsed]. rewrite query_loop_back with (signed := signed); try done.
    - apply Forall_true. constructor.
    - intros E. rewrite E in Hok. apply Forall_cons in Hok as [[[E' _]|[E'|[E'|E']]] _]; discriminate E'. }
  rewrite Hquery, set_parameters_back; [|done|done|apply Forall_true; constructor]. cbn. by destruct u.
Qed.

(** The outcome of [set_scheme] is not used: an identifier of another scheme is
    parsed as one of this scheme. *)
Lemma other_scheme_parsed : parse prefix (chars "other:?label=a") true = Some (mk true [] [] [(chars "label", chars "a")]).
Proof. reflexivity. Qed.
End BitcoinUri.
