(* ===== verification/Printer.v ===== *)
(** The help text of a program, [src/config/printer.cpp], and what it is made
    from, [src/config/parameter.cpp]. The metadata of an option is what boost's
    objects return. *)

From S2P Require Import Prelude Text Uri UriRules.

(** What [po::option_description] and its semantic return. *)
Record option_description := mk_option {
  long_name : list Z;
  description_ : list Z;
  format_name_ : list Z;
  format_parameter_ : list Z;
  is_required : bool;
  max_tokens : Z
}.

(** What [po::positional_options_description] returns. *)
Record positional_options_description := mk_positional {
  max_total_count : Z;
  name_for_position : Z -> list Z
}.

(** ** Parameters *)

Module parameter.

(** A name of positional arguments and their number. *)
Definition argument_pair : Type := list Z * Z.

Definition not_positional : Z := -1.
Definition no_short_name : Z := 0x00.
Definition option_prefix_char : Z := 45.

Record t := mk {
  position_ : Z;
  required : bool;
  short_name_ : Z;
  args_limit : Z;
  long_name_ : list Z;
  description : list Z;
  format_name : list Z;
  format_parameter : list Z
}.

(** [find_pair_position] of [impl/utility/collection.ipp] *)
Fixpoint find_pair_position (list_ : list argument_pair) (key : list Z) (index : Z) : Z :=
  match list_ with
  | [] => -1
  | p :: list_ => if bool_decide (fst p = key) then index else find_pair_position list_ key (index + 1)
  end.

Definition position (option_ : option_description) (arguments : list argument_pair) : Z :=
  find_pair_position arguments (long_name option_) 0.

(** [name[n]]: the character after the last is zero. *)
Definition short_name (option_ : option_description) : Z :=
  let name := hd [] (split (format_name_ option_) [32] true) in
  let is_short_name :=
    (nth 0 name 0 =? option_prefix_char) && negb (nth 1 name 0 =? option_prefix_char) in
  if is_short_name then nth 1 name 0 else no_short_name.

(** The number of arguments is converted to an unsigned. *)
Definition arguments_limit (position : Z) (option_ : option_description) (arguments : list argument_pair) : Z :=
  if position =? not_positional then max_tokens option_
  else u32 (snd (nth (Z.to_nat position) arguments ([], 0))).

Definition initialize (option_ : option_description) (arguments : list argument_pair) : t :=
  let position := position option_ arguments in
  mk position (is_required option_) (short_name option_) (arguments_limit position option_ arguments)
    (long_name option_) (description_ option_) (format_name_ option_) (format_parameter_ option_).
End parameter.

(** ** The printer *)

Module printer.
Import parameter.

Definition max_arguments : Z := 256.

(** [format("%-Ns")]: a text is padded on the right, and not cut. *)
Definition padded_right (width : nat) (text : list Z) : list Z := text ++ repeat 32 (width - length text).

Definition enqueue_fragment (fragment : list Z) (column : list (list Z)) : list (list Z) :=
  match fragment with [] => column | _ => column ++ [fragment] end.

(** The loop of [columnize] *)
Fixpoint columnize_loop (width : Z) (words : list (list Z)) (fragment : list Z) (column : list (list Z)) : list (list Z) :=
  match words with
  | [] => enqueue_fragment fragment column
  | word :: words =>
      if negb (length fragment =? 0)%nat && (zlen word + zlen fragment <? width)
      then columnize_loop width words (fragment ++ [32] ++ word) column
      else columnize_loop width words word (enqueue_fragment fragment column)
  end.

Definition columnize (paragraph : list Z) (width : Z) : list (list Z) :=
  columnize_loop width (split paragraph [32] false) [] [].

(** [boost::to_upper_copy] in the classic locale *)
Definition to_upper_copy (text : list Z) : list Z := map (fun c => if (97 <=? c) && (c <=? 122) then c - 32 else c) text.

Definition format_row_name (value : t) : list Z :=
  if negb (position_ value =? not_positional) then to_upper_copy (long_name_ value)
  else if short_name_ value =? no_short_name then chars "--" ++ long_name_ value
  else match long_name_ value with
       | [] => chars "-" ++ [short_name_ value]
       | _ => chars "-" ++ [short_name_ value] ++ chars " [--" ++ long_name_ value ++ chars "]"
       end.

Definition match_positional (positional : bool) (value : t) : bool :=
  let positioned := negb (position_ value =? not_positional) in Bool.eqb positioned positional.

(** The rows of a parameter: the name is in the first. *)
Fixpoint format_rows (name : list Z) (rows : list (list Z)) : list Z :=
  match rows with
  | [] => []
  | row :: rows => padded_right 20 name ++ [32] ++ padded_right 52 row ++ [10] ++ format_rows [] rows
  end.

Definition format_parameters_table (positional : bool) (parameters : list t) : list Z :=
  concat (map (fun parameter => format_rows (format_row_name parameter) (columnize (description parameter) 52))
            (List.filter (match_positional positional) parameters)).

Definition format_paragraph (paragraph : list Z) : list Z :=
  concat (map (fun line => padded_right 73 line ++ [10]) (columnize paragraph 73)).

Definition value_text : list Z := chars "value".

Definition format_setting (value : t) (name : list Z) : list Z :=
  let optional := args_limit value =? 1 in
  let placeholder := name ++ chars " = <" ++ value_text ++ chars ">" ++ [10] in
  if required value then name ++ chars " = " ++ value_text ++ [10]
  else if optional then placeholder
  else placeholder ++ placeholder ++ chars "..." ++ [10].

(** The name and the section. *)
Definition split_setting_name (value : t) : list Z * list Z :=
  match split (long_name_ value) [46] true with
  | [section; name] => (name, section)
  | _ => ([], [])
  end.

(** The loop of [format_settings_table]; an assertion that fails does nothing in
    a release build. *)
Fixpoint settings_loop (parameters : list t) (preceding_section : list Z) : list Z :=
  match parameters with
  | [] => []
  | parameter :: parameters =>
      let '(name, section) := split_setting_name parameter in
      match section with
      | [] => settings_loop parameters preceding_section
      | _ =>
          (if negb (bool_decide (section = preceding_section)) then [10] ++ chars "[" ++ section ++ chars "]" ++ [10] else []) ++
          chars "# " ++ description parameter ++ [10] ++ format_setting parameter name ++
          settings_loop parameters section
      end
  end.

Definition format_settings_table (parameters : list t) : list Z := settings_loop parameters [].

(** ** The usage *)

(** The eight lists that [format_usage_parameters] collects. *)
Record usage := mk_usage {
  toggle_short_options : list Z;
  toggle_long_options : list (list Z);
  required_options : list (list Z);
  optional_options : list (list Z);
  multiple_options : list (list Z);
  required_arguments : list (list Z);
  optional_arguments : list (list Z);
  multiple_arguments : list (list Z)
}.

Definition no_usage : usage := mk_usage [] [] [] [] [] [] [] [].

Definition collect (u : usage) (parameter : t) : usage :=
  let '(mk_usage ts tl ro oo mo ra oa ma) := u in
  let option_ := position_ parameter =? not_positional in
  let optional := args_limit parameter =? 1 in
  let toggle := args_limit parameter =? 0 in
  let is_short := negb (short_name_ parameter =? no_short_name) in
  let name := long_name_ parameter in
  let upper := to_upper_copy name in
  if toggle then
    if is_short then mk_usage (ts ++ [short_name_ parameter]) tl ro oo mo ra oa ma
    else mk_usage ts (tl ++ [name]) ro oo mo ra oa ma
  else if option_ then
    if required parameter then mk_usage ts tl (ro ++ [name]) oo mo ra oa ma
    else if optional then mk_usage ts tl ro (oo ++ [name]) mo ra oa ma
    else mk_usage ts tl ro oo (mo ++ [name]) ra oa ma
  else
    if required parameter then mk_usage ts tl ro oo mo (ra ++ [upper]) oa ma
    else if optional then mk_usage ts tl ro oo mo ra (oa ++ [upper]) ma
    else mk_usage ts tl ro oo mo ra oa (ma ++ [upper]).

Definition format_usage_parameters (parameters : list t) : list Z :=
  let u := fold_left collect parameters no_usage in
  let each before after names := concat (map (fun name => before ++ name ++ after) names) in
  trim_copy
    ((match toggle_short_options u with [] => [] | short => chars " [-" ++ short ++ chars "]" end) ++
     each (chars " --") ([32] ++ value_text) (required_options u) ++
     each (chars " [--") (chars "]") (toggle_long_options u) ++
     each (chars " [--") ([32] ++ value_text ++ chars "]") (optional_options u) ++
     each (chars " [--") ([32] ++ value_text ++ chars "]...") (multiple_options u) ++
     each (chars " ") [] (required_arguments u) ++
     each (chars " [") (chars "]") (optional_arguments u) ++
     each (chars " [") (chars "]...") (multiple_arguments u)).

Definition format_usage (application command : list Z) (parameters : list t) : list Z :=
  format_paragraph (chars "Usage: " ++ application ++ [32] ++ command ++ [32] ++ format_usage_parameters parameters).

Definition format_description (description : list Z) : list Z := format_paragraph (chars "Info: " ++ description).

(** ** Initialization *)

Definition enqueue_name (count : Z) (name : list Z) (names : list argument_pair) : list argument_pair :=
  if count <=? 0 then names
  else let count := if count >? max_arguments then -1 else count in names ++ [(name, count)].

(** The loop over the positions, which ends at the last of them or when a name
    has more than [max_arguments]; each turn takes a position. *)
Fixpoint names_loop (turns : nat) (arguments : positional_options_description) (position : Z)
    (previous_argument_name : list Z) (max_previous_argument : Z) (names : list argument_pair) : list argument_pair :=
  match turns with
  | O => enqueue_name max_previous_argument previous_argument_name names
  | S turns =>
      if (position <? max_total_count arguments) && (max_previous_argument <=? max_arguments) then
        let argument_name := name_for_position arguments position in
        let previous_argument_name := if max_previous_argument =? 0 then argument_name else previous_argument_name in
        if bool_decide (argument_name = previous_argument_name)
        then names_loop turns arguments (position + 1) previous_argument_name (max_previous_argument + 1) names
        else names_loop turns arguments (position + 1) argument_name 1
               (enqueue_name max_previous_argument previous_argument_name names)
      else enqueue_name max_previous_argument previous_argument_name names
  end.

Definition generate_argument_names (turns : nat) (arguments : positional_options_description) : list argument_pair :=
  names_loop turns arguments 0 [] 0 [].

Definition compare_parameters (left right : t) : bool :=
  match lexicographic (format_name left) (format_name right) with Lt => true | _ => false end.

(** [std::upper_bound]: the distance to the first element that the new one is
    less than, by halving. *)
Fixpoint upper_bound (turns : nat) (parameters : list t) (element : t) (first len : nat) : nat :=
  match turns with
  | O => first
  | S turns =>
      if (len =? 0)%nat then first
      else
        let half := (len / 2)%nat in
        match parameters !! (first + half)%nat with
        | Some middle =>
            if compare_parameters element middle then upper_bound turns parameters element first half
            else upper_bound turns parameters element (first + half + 1) (len - half - 1)
        | None => first
        end
  end.

(** [insert_sorted] of [impl/utility/collection.ipp] *)
Definition insert_sorted (parameters : list t) (element : t) : list t :=
  let at_ := upper_bound (S (length parameters)) parameters element 0 (length parameters) in
  take at_ parameters ++ [element] ++ drop at_ parameters.

Definition add_parameter (argument_names : list argument_pair) (parameters : list t) (option_ : option_description) : list t :=
  let param := parameter.initialize option_ argument_names in
  if position_ param =? not_positional then insert_sorted parameters param else parameters ++ [param].

Definition generate_parameters (argument_names : list argument_pair) (options : list option_description) : list t :=
  fold_left (add_parameter argument_names) options [].

Definition initialize (turns : nat) (arguments : positional_options_description) (options : list option_description) : list t :=
  generate_parameters (generate_argument_names turns arguments) options.

(** ** What is printed *)

Definition commandline (application description command : list Z) (parameters : list t) : list Z :=
  let option_table := format_parameters_table false parameters in
  let argument_table := format_parameters_table true parameters in
  let header (table : list Z) title := match table with [] => [] | _ => title ++ [10] end in
  [10] ++ format_usage application command parameters ++ [10] ++ format_description description ++
  [10] ++ header option_table (chars "Options (named):") ++ [10] ++ option_table ++
  [10] ++ header argument_table (chars "Arguments (positional):") ++ [10] ++ argument_table.

Definition settings (description : list Z) (parameters : list t) : list Z :=
  (match description with [] => [] | _ => [10] ++ description end) ++ [10] ++ format_settings_table parameters.

(** ** The lines of a paragraph *)

(** Of two lines in a row, the first has no place for the first word of the
    second. *)
Fixpoint tight (width : Z) (groups : list (list (list Z))) : Prop :=
  match groups with
  | g :: (h :: _) as rest => width <= zlen (join g [32]) + zlen (hd [] h) /\ tight width rest
  | _ => True
  end.

Lemma join_snoc group word : group <> [] -> join (group ++ [word]) [32] = join group [32] ++ [32] ++ word.
Proof.
  intros Hne. induction group as [|g group IH]; [done|]. destruct group as [|h group]; [done|].
  change (join ((g :: h :: group) ++ [word]) [32]) with (g ++ [32] ++ join ((h :: group) ++ [word]) [32]).
  rewrite IH by done. change (join (g :: h :: group) [32]) with (g ++ [32] ++ join (h :: group) [32]).
  by rewrite <- !app_assoc.
Qed.

Lemma join_nonempty group : group <> [] -> Forall (fun w => w <> []) group -> join group [32] <> [].
Proof. intros Hne Hw. destruct Hw as [|w [|v group] Hw _]; [done|done|]. by destruct w. Qed.

Lemma enqueue_joined group column :
  Forall (fun w => w <> []) group ->
  enqueue_fragment (join group [32]) column = column ++ map (fun g => join g [32]) (match group with [] => [] | _ => [group] end).
Proof.
  intros Hw. destruct group as [|g group]; [by rewrite app_nil_r|].
  pose proof (join_nonempty (g :: group) ltac:(done) Hw) as Hne. cbn [map]. unfold enqueue_fragment.
  by destruct (join (g :: group) [32]).
Qed.

(** The loop with a group of words in the fragment. *)
Lemma columnize_groups width words : forall group column,
  Forall (fun w => w <> []) group -> Forall (fun w => w <> []) words ->
  zlen (join group [32]) <= width \/ (length group <= 1)%nat ->
  exists groups,
    columnize_loop width words (join group [32]) column = column ++ map (fun g => join g [32]) groups /\
    concat groups = group ++ words /\ Forall (fun g => g <> []) groups /\
    Forall (fun g => zlen (join g [32]) <= width \/ (length g <= 1)%nat) groups /\ tight width groups /\
    (group <> [] -> exists more, hd [] groups = group ++ more).
Proof.
  induction words as [|word words IH]; intros group column Hg Hw Hfit; cbn [columnize_loop].
  - rewrite enqueue_joined by done. exists (match group with [] => [] | _ => [group] end). split; [done|].
    destruct group as [|g group]; [by split_and!|]. cbn [concat]. rewrite !app_nil_r.
    split_and!; [done|by apply Forall_singleton|by apply Forall_singleton|done|]. intros _. exists []. by rewrite app_nil_r.
  - apply Forall_cons in Hw as [Hword Hw]. destruct (_ && _) eqn:E.
    + apply andb_true_iff in E as [Hne Hlt]. apply Z.ltb_lt in Hlt.
      assert (Hgne : group <> []) by (by intros ->).
      rewrite app_assoc. rewrite <- app_assoc. rewrite <- join_snoc by done.
      destruct (IH (group ++ [word]) column) as (groups & E1 & Ec & Hn & Hf & Ht & Hh); [|done| |].
      * apply Forall_app. split; [done|by apply Forall_singleton].
      * left. rewrite join_snoc by done. unfold zlen in *. rewrite !length_app. simpl length. lia.
      * exists groups. rewrite <- app_assoc in Ec. split_and!; try done. intros _.
        destruct Hh as [more Hmore]; [by destruct group|]. exists (word :: more). by rewrite Hmore, <- app_assoc.
    + rewrite enqueue_joined by done.
      destruct (IH [word] (column ++ map (fun g => join g [32]) (match group with [] => [] | _ => [group] end)))
        as (groups & E1 & Ec & Hn & Hf & Ht & Hh); [by apply Forall_singleton|done|by right|].
      destruct Hh as [more Hmore]; [done|].
      change (join [word] [32]) with word in E1. rewrite E1. destruct group as [|g group].
      * exists groups. cbn [map app] in *. rewrite app_nil_r. by split_and!.
      * exists ((g :: group) :: groups). cbn [map app] in *. rewrite <- app_assoc. cbn [app concat].
        split_and!; [done|by rewrite Ec|by constructor|by constructor| |intros _; exists []; by rewrite app_nil_r].
        destruct groups as [|h groups]; [done|]. cbn [tight]. split; [|done]. cbn [hd] in Hmore. rewrite Hmore. cbn [hd].
        apply andb_false_iff in E as [E|E]; [|apply Z.ltb_ge in E; lia].
        pose proof (join_nonempty (g :: group) ltac:(done) Hg). by destruct (join (g :: group) [32]).
Qed.

(** A paragraph of words is laid out with all its words in their order, in lines
    that fit unless they are one word, and a line ends only where the next word
    does not fit. *)
Lemma columnize_spec words width :
  words <> [] -> Forall (fun w => w <> [] /\ Forall (fun c => c <> 32) w) words ->
  exists groups,
    columnize (join words [32]) width = map (fun g => join g [32]) groups /\ concat groups = words /\
    Forall (fun g => g <> []) groups /\
    Forall (fun g => zlen (join g [32]) <= width \/ length g = 1%nat) groups /\ tight width groups.
Proof.
  intros Hne Hw. unfold columnize, split. rewrite split_joined; [|done|done|].
  - destruct (columnize_groups width words [] []) as (groups & E & Ec & Hn & Hf & Ht & _);
      [done| |by right; simpl; lia|].
    + eapply Forall_impl; [exact Hw|]. by intros w [? _].
    + exists groups. split_and!; try done. apply Forall_forall. intros g Hg.
      rewrite Forall_forall in Hn, Hf. destruct (Hf g Hg) as [?|Hl]; [by left|right].
      pose proof (Hn g Hg). destruct g as [|x [|y g]]; [done|done|simpl in Hl; lia].
  - eapply Forall_impl; [exact Hw|]. intros w [? Hc]. split; [done|]. eapply Forall_impl; [exact Hc|].
    intros c Hne'. unfold is_any_of. cbn [existsb]. by destruct (Z.eqb_spec c 32).
Qed.

(** ** The names of positional arguments *)

(** The positions that counted names stand for. *)
Definition expanded (names : list argument_pair) : list (list Z) :=
  concat (map (fun p => repeat (fst p) (Z.to_nat (snd p))) names).

Lemma expanded_app a b : expanded (a ++ b) = expanded a ++ expanded b.
Proof. unfold expanded. by rewrite map_app, concat_app. Qed.

Lemma enqueue_expanded count name names :
  0 <= count <= max_arguments ->
  expanded (enqueue_name count name names) = expanded names ++ repeat name (Z.to_nat count).
Proof.
  intros Hc. unfold enqueue_name, max_arguments in *. destruct (Z.leb_spec count 0).
  - replace count with 0 by lia. cbn [Z.to_nat repeat]. by rewrite app_nil_r.
  - destruct (Z.gtb_spec count 256); [lia|]. rewrite expanded_app. unfold expanded at 2. cbn [map concat fst snd].
    by rewrite app_nil_r.
Qed.

Section Names.
(** What boost documents of the positions of some names, and of one that takes
    all that follow. *)
Variables (arguments : positional_options_description) (names : list (list Z)) (trailing : option (list Z)).
Hypothesis name_at : forall i, (i < length names)%nat -> name_for_position arguments (Z.of_nat i) = nth i names [].
Hypothesis name_after :
  forall i t, trailing = Some t -> zlen names <= i -> name_for_position arguments i = t.
Hypothesis total : max_total_count arguments = match trailing with Some _ => 2 ^ 32 - 1 | None => zlen names end.
Hypothesis few : zlen names <= max_arguments.

(** The loop over the names: a name that is counted, and those before it. *)
Lemma names_loop_named turns : forall rest position previous count found,
  names = take position names ++ rest -> (position + length rest = length names)%nat ->
  0 <= count <= Z.of_nat position -> (length rest <= turns)%nat ->
  exists previous' count' found',
    names_loop turns arguments (Z.of_nat position) previous count found =
    names_loop (turns - length rest) arguments (zlen names) previous' count' found' /\
    0 <= count' <= zlen names /\
    expanded found' ++ repeat previous' (Z.to_nat count') = expanded found ++ repeat previous (Z.to_nat count) ++ rest.
Proof.
  unfold max_arguments in few. pose proof few as Hfew.
  induction turns as [|turns IH]; intros rest position previous count found Hn Hl Hc Ht;
    (destruct rest as [|name rest]; [cbn [length] in *; exists previous, count, found; rewrite Nat.sub_0_r, app_nil_r;
       unfold zlen; replace (length names) with position by lia; split_and!; [done|lia|lia|done]|]); cbn [length] in *; [lia|].
  assert (Hname : name_for_position arguments (Z.of_nat position) = name).
  { rewrite name_at by lia. rewrite Hn, app_nth2 by (rewrite length_take; lia). rewrite length_take.
    by replace (position - position `min` length names)%nat with 0%nat by lia. }
  assert (Hn' : names = take (S position) names ++ rest).
  { rewrite (take_S_r _ _ name); [by rewrite <- app_assoc|].
    rewrite Hn, lookup_app_r by (rewrite length_take; lia). rewrite length_take.
    by replace (position - position `min` length names)%nat with 0%nat by lia. }
  cbn [names_loop]. rewrite Hname, total.
  assert (Hguard : (Z.of_nat position <? match trailing with Some _ => 2 ^ 32 - 1 | None => zlen names end) = true).
  { apply Z.ltb_lt. unfold zlen in *. destruct trailing; lia. }
  assert (Hmax : (count <=? max_arguments) = true) by (apply Z.leb_le; unfold max_arguments, zlen in *; lia).
  rewrite Hguard, Hmax. cbn [andb]. replace (Z.of_nat position + 1) with (Z.of_nat (S position)) by lia.
  change (S turns - S (length rest))%nat with (turns - length rest)%nat.
  case_bool_decide as Hd.
  - destruct (IH rest (S position) (if count =? 0 then name else previous) (count + 1) found) as (p' & c' & f' & E & Hc' & He);
      [done|lia|lia|lia|]. exists p', c', f'. split_and!; [done|lia|lia|]. rewrite He, <- Hd.
    replace (Z.to_nat (count + 1)) with (Z.to_nat count + 1)%nat by lia. rewrite repeat_app. cbn [repeat].
    rewrite <- !app_assoc. destruct (Z.eqb_spec count 0) as [->|]; [done|]. by rewrite <- Hd.
  - destruct (Z.eqb_spec count 0) as [|Hc0]; [done|].
    destruct (IH rest (S position) name 1 (enqueue_name count previous found)) as (p' & c' & f' & E & Hc' & He);
      [done|lia|lia|lia|]. exists p', c', f'. split_and!; [done|lia|lia|]. rewrite He, enqueue_expanded
      by (unfold max_arguments, zlen in *; lia). by rewrite <- !app_assoc.
Qed.

(** Without a name that takes all that follow, the counts stand for the names. *)
Lemma argument_names_expanded turns :
  trailing = None -> (length names < turns)%nat -> expanded (generate_argument_names turns arguments) = names.
Proof.
  intros Htr Ht. unfold generate_argument_names.
  destruct (names_loop_named turns names 0 [] 0 []) as (p & c & f & E & Hc & He); [by rewrite take_0|lia|lia|lia|].
  change (Z.of_nat 0) with 0 in E. rewrite E. cbn [Z.to_nat repeat app expanded map concat] in He.
  destruct (turns - length names)%nat as [|k] eqn:Ek; [lia|]. cbn [names_loop]. rewrite total, Htr.
  destruct (Z.ltb_spec (zlen names) (zlen names)); [lia|]. cbn [andb].
  rewrite enqueue_expanded by lia. rewrite He. unfold expanded. done.
Qed.

(** The name that takes all that follow is counted until it has more than the
    limit, and is then without a limit. *)
Lemma names_loop_trailing t turns : forall position count found,
  trailing = Some t -> zlen names <= position -> 0 <= count <= max_arguments + 1 ->
  position + (max_arguments + 1 - count) < 2 ^ 32 - 1 -> max_arguments + 1 - count < Z.of_nat turns ->
  names_loop turns arguments position t count found = found ++ [(t, -1)].
Proof.
  unfold max_arguments. induction turns as [|turns IH]; intros position count found Htr Hp Hc Hw Ht; [lia|].
  cbn [names_loop]. unfold max_arguments. rewrite total, Htr.
  destruct (Z.leb_spec count 256).
  - destruct (Z.ltb_spec position (2 ^ 32 - 1)); [|lia]. cbn [andb]. rewrite (name_after position t) by done.
    replace (if count =? 0 then t else t) with t by (by destruct (count =? 0)).
    rewrite bool_decide_eq_true_2 by done. apply IH; (done || lia).
  - rewrite andb_false_r. unfold enqueue_name, max_arguments. destruct (Z.leb_spec count 0); [lia|].
    destruct (Z.gtb_spec count 256); [done|lia].
Qed.

Lemma argument_names_trailing t turns :
  trailing = Some t -> (length names + 258 < turns)%nat ->
  exists found k, generate_argument_names turns arguments = found ++ [(t, -1)] /\ expanded found ++ repeat t k = names.
Proof.
  intros Htr Ht. unfold generate_argument_names. unfold max_arguments in few. pose proof few as Hfew.
  destruct (names_loop_named turns names 0 [] 0 []) as (p & c & f & E & Hc & He); [by rewrite take_0|lia|lia|lia|].
  change (Z.of_nat 0) with 0 in E. rewrite E. cbn [Z.to_nat repeat app expanded map concat] in He.
  destruct (turns - length names)%nat as [|k] eqn:Ek; [lia|]. cbn [names_loop]. rewrite total, Htr.
  replace (zlen names <? 2 ^ 32 - 1) with true by (symmetry; apply Z.ltb_lt; lia).
  replace (c <=? max_arguments) with true by (symmetry; apply Z.leb_le; unfold max_arguments; lia). cbn [andb].
  rewrite (name_after (zlen names) t) by (done || lia). case_bool_decide as Hd.
  - exists f, (Z.to_nat c). split.
    + rewrite <- Hd. apply names_loop_trailing; unfold max_arguments, zlen in *; (done || lia).
    + rewrite Hd. destruct (Z.eqb_spec c 0) as [->|]; [|done]. cbn [Z.to_nat repeat] in *. done.
  - destruct (Z.eqb_spec c 0); [done|]. exists (enqueue_name c p f), 0%nat. split.
    + apply names_loop_trailing; unfold max_arguments, zlen in *; (done || lia).
    + rewrite enqueue_expanded by (unfold max_arguments; lia). cbn [repeat]. by rewrite app_nil_r.
Qed.
End Names.

(** ** The order of the parameters *)

Lemma compare_trans e a b :
  compare_parameters e a = true -> compare_parameters b a = false -> compare_parameters e b = true.
Proof.
  assert (Hlex : forall x y z, lexicographic x y = Lt -> lexicographic z y <> Lt -> lexicographic x z = Lt).
  { induction x as [|c x IH]; intros [|d y] [|f z]; cbn [lexicographic]; try done.
    destruct (Z.compare_spec c d), (Z.compare_spec f d), (Z.compare_spec c f); try done; try lia.
    intros Hx Hz. by apply (IH y). }
  unfold compare_parameters. intros He Hb.
  destruct (lexicographic (format_name e) (format_name a)) eqn:E1; try done.
  rewrite (Hlex _ (format_name a)); [done|done|]. by destruct (lexicographic (format_name b) (format_name a)).
Qed.

Lemma insert_sorted_perm parameters element : insert_sorted parameters element ≡ₚ element :: parameters.
Proof.
  unfold insert_sorted. set (i := upper_bound _ _ _ _ _). cbn [app]. rewrite <- Permutation_middle. by rewrite take_drop.
Qed.

(** No parameter is before one that it is greater than. *)
Definition ordered (parameters : list t) : Prop :=
  forall i j a b, (i < j)%nat -> parameters !! i = Some a -> parameters !! j = Some b -> compare_parameters b a = false.

(** The search divides what is not greater than the element from what is. *)
Lemma upper_bound_divides parameters element turns : forall first len,
  ordered parameters -> (len < turns)%nat -> (first + len <= length parameters)%nat ->
  (forall i a, (i < first)%nat -> parameters !! i = Some a -> compare_parameters element a = false) ->
  (forall i a, (first + len <= i)%nat -> parameters !! i = Some a -> compare_parameters element a = true) ->
  let at_ := upper_bound turns parameters element first len in
  (at_ <= length parameters)%nat /\
  (forall i a, (i < at_)%nat -> parameters !! i = Some a -> compare_parameters element a = false) /\
  (forall i a, (at_ <= i)%nat -> parameters !! i = Some a -> compare_parameters element a = true).
Proof.
  induction turns as [|turns IH]; intros first len Ho Ht Hl Hlo Hhi; [lia|]. cbn [upper_bound].
  destruct (Nat.eqb_spec len 0) as [->|Hne].
  { rewrite Nat.add_0_r in Hhi. split_and!; [lia|done|done]. }
  assert (Hhalf : (len / 2 < len)%nat) by (apply Nat.div_lt; lia).
  destruct (parameters !! (first + len / 2)%nat) as [middle|] eqn:Em; [|apply lookup_ge_None in Em; lia].
  assert (Hafter : compare_parameters element middle = true ->
    forall i a, (first + len / 2 <= i)%nat -> parameters !! i = Some a -> compare_parameters element a = true).
  { intros Hc i a Hi Ha. destruct (decide (i = first + len / 2)%nat) as [->|Hd]; [congruence|].
    apply (compare_trans _ middle); [done|]. apply (Ho (first + len / 2)%nat i); (done || lia). }
  assert (Hbefore : compare_parameters element middle = false ->
    forall i a, (i <= first + len / 2)%nat -> parameters !! i = Some a -> compare_parameters element a = false).
  { intros Hc i a Hi Ha. destruct (decide (i = first + len / 2)%nat) as [->|Hd]; [congruence|].
    destruct (compare_parameters element a) eqn:Ea; [|done].
    rewrite (compare_trans element a middle) in Hc; [done|done|]. apply (Ho i (first + len / 2)%nat); (done || lia). }
  destruct (compare_parameters element middle) eqn:Ec.
  - apply IH; [done|lia|lia|done|]. by apply Hafter.
  - apply IH; [done|lia|lia| |].
    + intros i a Hi. apply Hbefore; [done|lia].
    + intros i a Hi. apply Hhi. lia.
Qed.

Lemma insert_sorted_ordered parameters element : ordered parameters -> ordered (insert_sorted parameters element).
Proof.
  intros Ho. unfold insert_sorted.
  destruct (upper_bound_divides parameters element (S (length parameters)) 0 (length parameters)) as (Hat & Hlo & Hhi);
    [done|lia|lia|intros i a Hi; lia|intros i a Hi Ha; apply lookup_lt_Some in Ha; lia|].
  set (at_ := upper_bound _ _ _ _ _) in *. clearbody at_.
  assert (Hsplit : forall i a, (take at_ parameters ++ [element] ++ drop at_ parameters) !! i = Some a ->
    (i < at_)%nat /\ parameters !! i = Some a \/ i = at_ /\ a = element \/ (at_ < i)%nat /\ parameters !! (i - 1)%nat = Some a).
  { intros i a. destruct (decide (i < at_)%nat).
    - rewrite lookup_app_l by (rewrite length_take; lia). rewrite lookup_take_lt by lia. by left.
    - rewrite lookup_app_r by (rewrite length_take; lia). rewrite length_take.
      replace (at_ `min` length parameters)%nat with at_ by lia.
      destruct (decide (i = at_)) as [->|].
      + rewrite Nat.sub_diag. cbn. intros [= <-]. right. by left.
      + intros Ha. right. right. split; [lia|]. replace (i - at_)%nat with (S (i - at_ - 1)) in Ha by lia. 
        change (drop at_ parameters !! (i - at_ - 1)%nat = Some a) in Ha. rewrite lookup_drop in Ha. by replace (at_ + (i - at_ - 1))%nat with (i - 1)%nat in Ha by lia. }
  intros i j a b Hij Ha Hb. apply Hsplit in Ha, Hb.
  destruct Ha as [[Hi Ha]|[[-> ->]|[Hi Ha]]], Hb as [[Hj Hb]|[[-> ->]|[Hj Hb]]]; try lia.
  - by apply (Ho i j).
  - by apply (Hlo i).
  - by apply (Ho i (j - 1)%nat); [lia|..].
  - pose proof (Hhi (j - 1)%nat b ltac:(lia) Hb) as Hc. destruct (compare_parameters b element) eqn:E; [|done].
    unfold compare_parameters in *.
    destruct (lexicographic (format_name b) (format_name element)) eqn:L; [done| |done].
    apply lexicographic_flip in L. by rewrite L in Hc.
  - by apply (Ho (i - 1)%nat (j - 1)%nat); [lia|..].
Qed.

(** The parameters are those of the options; and where no option is positional
    they are ordered by their names. *)
Lemma generate_parameters_perm names options :
  generate_parameters names options ≡ₚ map (fun o => parameter.initialize o names) options.
Proof.
  unfold generate_parameters. rewrite <- (app_nil_l (map _ options)). generalize (@nil t) as found.
  induction options as [|o options IH]; intros found; cbn [fold_left map]; [by rewrite app_nil_r|].
  rewrite IH. unfold add_parameter. case_match.
  - rewrite insert_sorted_perm. cbn [app]. apply Permutation_middle.
  - by rewrite <- app_assoc.
Qed.

Lemma generate_parameters_ordered names options :
  Forall (fun o => position o names = not_positional) options -> ordered (generate_parameters names options).
Proof.
  intros Hp. unfold generate_parameters. assert (Ho : ordered []) by done. revert Ho. generalize (@nil t) as found.
  induction Hp as [|o options Hp _ IH]; intros found Ho; cbn [fold_left]; [done|]. apply IH.
  unfold add_parameter. cbn [parameter.initialize position_]. rewrite Hp. by apply insert_sorted_ordered.
Qed.
End printer.
