(* ===== verification/Config.v ===== *)
(** The configuration values: [src/config], whose types read and print the text
    forms of the program's data, the checkpoints of [parser.cpp] and the
    selection of a network in [src/multi_crypto_support.cpp]. A reader takes a
    token from the stream and gives the value with the rest of the stream, or
    throws, which is [None]. The conversions of boost are an interface. *)

From Stdlib Require Import String.
From S2P Require Import Prelude Text Limits Endian Reader Writer Binary Codes Operation Script Chain Radix Base16 Base58 Base64 Base10 Compact Data Header Checksum ChainState Transaction TxCodec Mnemonics Sighash Elliptic Keys Stealth Message MsgInventory.

(** [boost::lexical_cast] to an unsigned integer of a width, and the addresses
    of [boost::asio]; [None]: they throw. *)
Class Boost := {
  lexical_cast : Z -> list Z -> option Z;
  ipv6_from_string : list Z -> option (list Z);
  ipv6_to_string : list Z -> list Z
}.

Definition is_ipv4_char (c : Z) : bool := is_digit c || (c =? 46).
Definition is_ipv6_char (c : Z) : bool :=
  is_digit c || ((97 <=? c) && (c <=? 102)) || (c =? 58) || (c =? 46).

(** What boost documents: digits are cast to their value if it is in range, no
    digits are not cast, and the text of an address gives the address. *)
Class BoostLaws `{Boost} := {
  lexical_cast_digits w text :
    text <> [] -> forallb is_digit text = true ->
    lexical_cast w text =
    (let value := bval 10 (map digit_value text) in if value <? 2 ^ w then Some value else None);
  lexical_cast_empty w : lexical_cast w [] = None;
  ipv6_text_chars ip : ipv6_to_string ip <> [] /\ forallb is_ipv6_char (ipv6_to_string ip) = true;
  ipv6_text ip : List.length ip = 16%nat -> bytes_ok ip -> ipv6_from_string (ipv6_to_string ip) = Some ip
}.

(** [input >> text]: the token after white space, and what follows it. *)
Fixpoint read_token (stream : list Z) : list Z * list Z :=
  match stream with
  | [] => ([], [])
  | c :: rest => if is_space c then ([], stream) else let '(token, after) := read_token rest in (c :: token, after)
  end.

Definition extract {A} (decode : list Z -> option A) (stream : list Z) : option (A * list Z) :=
  let '(token, rest) := read_token (trim_left stream) in value ← decode token; Some (value, rest).

(** The constructors from a string. *)
Definition of_text {A} (decode : list Z -> option A) (text : list Z) : option A := fst <$> extract decode text.

(** ** Encoded data *)

Module config.

Definition decode_base2 (text : list Z) : option binary.t :=
  if negb (binary.is_base2 text) then None else Some (binary.of_string text).
Definition decode_base16_value (text : list Z) : option (list Z) := decode_base16 text.
Definition decode_base58_value (text : list Z) : option (list Z) := decode_base58 text.
Definition decode_base64_value (text : list Z) : option (list Z) := base64.decode_base64 text.
Definition decode_hash160 (text : list Z) : option (list Z) := decode_base16_array short_hash_size text.
Definition decode_hash256 (text : list Z) : option (list Z) := decode_hash text.

(** The entry before the decoder's table is what memory holds. *)
Definition decode_sodium (beyond : Z) (text : list Z) : option (list Z) :=
  out ← base85.decode_base85 beyond text; if (List.length out =? hash_size)%nat then Some out else None.

Definition max_endorsement_size : Z := 73.
Definition decode_endorsement (encoded : list Z) : option (list Z) :=
  decoded ← decode_base16 encoded; if zlen decoded >? max_endorsement_size then None else Some decoded.

Definition decode_secret `{Secp256k1} (encoded : list Z) : option (list Z) :=
  secret ← decode_base16_array ec_secret_size encoded;
  if elliptic_curve.verify_secret secret then Some secret else None.

Definition print_base2 (value : binary.t) : list Z := binary.encoded value.
Definition print_base16 (value : list Z) : list Z := encode_base16 value.
Definition print_base58 (value : list Z) : list Z := encode_base58 value.
Definition print_base64 (value : list Z) : list Z := base64.encode_base64 value.
Definition print_hash256 (value : list Z) : list Z := encode_hash value.
Definition print_sodium (value : list Z) : list Z := default [] (base85.encode_base85 value).

(** ** Chain data *)

Section Chain.
Context `{Currency} `{Boost}.

(** [base16(hexcode)] and [from_data] of a chunk, which reads a stream. *)
Definition decode_header (hexcode : list Z) : option header :=
  data ← of_text decode_base16_value hexcode;
  let '(value, valid) := fst (header_from_data true default_header (Istream.mk data false false)) in
  if negb valid then None else Some value.

Definition decode_transaction (hexcode : list Z) : option transaction :=
  data ← of_text decode_base16_value hexcode;
  let '(value, valid) := fst (tx_from_data true false false default_transaction (Istream.mk data false false)) in
  if negb valid then None else Some value.

Definition print_header (value : header) : list Z := print_base16 (header_to_data true value).
Definition print_transaction (value : transaction) : option (list Z) :=
  print_base16 <$> tx_to_data true false false value.

(** The whole stream is the text of a script; an empty text is a script. *)
Definition decode_script (stream : list Z) : option script :=
  let mnemonic := trim_copy stream in
  let '(value, valid) := script_from_string mnemonic in
  if negb valid && (zlen mnemonic >? 0) then None else Some value.

Definition print_script (value : script) : list Z := script_to_string rule_fork.all_rules value.

Definition delimeter : list Z := [58].

(** [deserialize<Integer>(text, true)] *)
Definition deserialize (width : Z) (text : list Z) : option Z := lexical_cast width (trim_copy text).

Definition decode_point (tuple : list Z) : option output_point :=
  let tokens := Text.split tuple delimeter true in
  if negb (List.length tokens =? 2)%nat then None
  else
    txhash ← of_text decode_hash256 (nth 0 tokens []);
    index ← deserialize 32 (nth 1 tokens []);
    let point := mk_point txhash 0 false in
    Some (new_output_point (point_set_index index point)).

Definition print_point (value : output_point) : list Z :=
  print_hash256 (pt_hash (op_point value)) ++ delimeter ++ decimal (pt_index (op_point value)).

Definition decode_input (tuple : list Z) : option input :=
  let tokens := Text.split tuple delimeter true in
  if negb (List.length tokens =? 2)%nat && negb (List.length tokens =? 3)%nat then None
  else
    let value := input_set_sequence max_input_sequence (new_input (new_output_point reset_point) reset_script 0) in
    previous ← of_text decode_point (nth 0 tokens [] ++ [58] ++ nth 1 tokens []);
    let value := input_set_previous_output previous value in
    if (List.length tokens =? 3)%nat then
      sequence ← deserialize 32 (nth 2 tokens []); Some (input_set_sequence sequence value)
    else Some value.

Definition print_input (value : input) : list Z :=
  print_point (previous_output value) ++ delimeter ++ decimal (sequence value).

(** ** Checkpoints *)

Definition is_lower_hex (c : Z) : bool := is_digit c || ((97 <=? c) && (c <=? 102)).

(** [(:([0-9]{1,n}))?$]: the digits, none if there is no such part. *)
Definition match_number (n : nat) (text : list Z) : option (list Z) :=
  match text with
  | [] => Some []
  | c :: digits =>
      if (c =? 58) && (1 <=? List.length digits)%nat && (List.length digits <=? n)%nat && forallb is_digit digits
      then Some digits else None
  end.

(** ["^([0-9a-f]{64})(:([0-9]{1,20}))?$"] *)
Definition match_checkpoint (value : list Z) : option (list Z * list Z) :=
  let hash := take 64 value in
  if (List.length hash =? 64)%nat && forallb is_lower_hex hash
  then height ← match_number 20 (drop 64 value); Some (hash, height) else None.

(** A height that is not given is cast, which throws. *)
Definition decode_checkpoint (value : list Z) : option checkpoint :=
  '(hash, height) ← match_checkpoint value;
  hash ← decode_hash hash;
  height ← lexical_cast 64 height;
  Some (mk_checkpoint hash height).

Definition print_checkpoint (value : checkpoint) : list Z :=
  encode_hash (cp_hash value) ++ [58] ++ decimal (cp_height value).

(** ** Endpoints *)

Record endpoint := mk_endpoint { scheme : list Z; host : list Z; endpoint_port : Z }.

(** [\[([0-9a-f:\.]+)]]: the text between the brackets and what follows. *)
Fixpoint match_bracketed (text : list Z) : list Z * list Z :=
  match text with
  | [] => ([], [])
  | c :: rest =>
      if is_ipv6_char c then let '(inner, after) := match_bracketed rest in (c :: inner, after) else ([], text)
  end.

Fixpoint match_host_name (text : list Z) : list Z * list Z :=
  match text with
  | [] => ([], [])
  | c :: rest => if c =? 58 then ([], text) else let '(name, after) := match_host_name rest in (c :: name, after)
  end.

(** The bracketed form of a host, then any other up to a colon, with the port
    to the end. *)
Definition match_bracket_host (text : list Z) : option (list Z * list Z) :=
  match text with
  | 91 :: rest =>
      let '(inner, after) := match_bracketed rest in
      match inner, after with
      | _ :: _, 93 :: after => port ← match_number 5 after; Some (91 :: inner ++ [93], port)
      | _, _ => None
      end
  | _ => None
  end.

Definition match_host (text : list Z) : option (list Z * list Z) :=
  match match_bracket_host text with
  | Some m => Some m
  | None =>
      let '(name, after) := match_host_name text in
      match name with
      | [] => None
      | _ => port ← match_number 5 after; Some (name, port)
      end
  end.

Definition schemes : list (list Z) :=
  [chars "tcp"; chars "udp"; chars "http"; chars "https"; chars "inproc"].
Definition scheme_end : list Z := chars "://".

(** With the first scheme that the text starts with and a match after it, and
    then without a scheme. *)
Fixpoint match_scheme (names : list (list Z)) (text : list Z) : option (list Z * list Z * list Z) :=
  match names with
  | [] => '(host, port) ← match_host text; Some ([], host, port)
  | name :: names =>
      let prefix := name ++ scheme_end in
      if bool_decide (take (List.length prefix) text = prefix) then
        match match_host (drop (List.length prefix) text) with
        | Some (host, port) => Some (name, host, port)
        | None => match_scheme names text
        end
      else match_scheme names text
  end.

(** [port.empty() ? 0 : lexical_cast<uint16_t>(port)] *)
Definition cast_port (port : list Z) : option Z :=
  match port with [] => Some 0 | _ => lexical_cast 16 port end.

Definition decode_endpoint (value : list Z) : option endpoint :=
  '(scheme, host, port) ← match_scheme schemes value;
  port ← cast_port port;
  Some (mk_endpoint scheme host port).

Definition print_endpoint (value : endpoint) : list Z :=
  (match scheme value with [] => [] | _ => scheme value ++ scheme_end end) ++ host value ++
  (if negb (endpoint_port value =? 0) then [58] ++ decimal (endpoint_port value) else []).

(** ** Authorities *)

Record authority := mk_authority { ip : list Z; port : Z }.

Definition to_host_name (host : list Z) : list Z :=
  if negb (existsb (Z.eqb 58) host) || (hd 0 host =? 91) then host else [91] ++ host ++ [93].

Definition to_authority (host : list Z) (port : Z) : list Z :=
  to_host_name host ++ (if port >? 0 then [58] ++ decimal port else []).

Definition mapped_prefix : list Z := chars "::ffff:".
Definition to_ipv6 (ipv4_address : list Z) : list Z := mapped_prefix ++ ipv4_address.

(** ["^::ffff:([0-9\.]+)$"]; an empty text if it does not match *)
Definition to_ipv4_hostname (ip_address : list Z) : list Z :=
  let address := ipv6_to_string ip_address in
  let name := drop (List.length mapped_prefix) address in
  if bool_decide (take (List.length mapped_prefix) address = mapped_prefix) && forallb is_ipv4_char name then name else [].

Definition to_ipv6_hostname (ip_address : list Z) : list Z := [91] ++ ipv6_to_string ip_address ++ [93].

Definition to_hostname (a : authority) : list Z :=
  match to_ipv4_hostname (ip a) with
  | [] => to_ipv6_hostname (ip a)
  | ipv4_hostname => ipv4_hostname
  end.

Fixpoint match_ipv4 (text : list Z) : list Z * list Z :=
  match text with
  | [] => ([], [])
  | c :: rest => if is_ipv4_char c then let '(name, after) := match_ipv4 rest in (c :: name, after) else ([], text)
  end.

(** ["^(([0-9\.]+)|\[([0-9a-f:\.]+)])(:([0-9]{1,5}))?$"]: the text of the
    second group, that of the third, and that of the fifth *)
Definition match_authority (value : list Z) : option (list Z * list Z * list Z) :=
  let '(name, after) := match_ipv4 value in
  match name with
  | _ :: _ => port ← match_number 5 after; Some (name, [], port)
  | [] => '(host, port) ← match_bracket_host value; Some ([], removelast (drop 1 host), port)
  end.

Definition decode_authority (value : list Z) : option authority :=
  '(ipv4, ipv6, port) ← match_authority value;
  let ip_address := match ipv6 with [] => to_ipv6 ipv4 | _ => ipv6 end in
  ip ← ipv6_from_string ip_address;
  port ← cast_port port;
  Some (mk_authority ip port).

Definition print_authority (value : authority) : list Z := to_authority (to_hostname value) (port value).

(** [authority(host, port)] *)
Definition authority_of_host (host : list Z) (port : Z) : option authority :=
  of_text decode_authority (to_authority host port).

Definition authority_of_network_address (address : network_address.t) : authority :=
  mk_authority (network_address.ip address) (network_address.port address).

Definition to_network_address (a : authority) : network_address.t :=
  network_address.mk 0 0 (ip a) (port a).

Definition authority_is_set (a : authority) : bool := negb (port a =? 0).
Definition authority_eqb (a b : authority) : bool := (port a =? port b) && bool_decide (ip a = ip b).
Definition endpoint_eqb (a b : endpoint) : bool :=
  bool_decide (host a = host b) && (endpoint_port a =? endpoint_port b) && bool_decide (scheme a = scheme b).
End Chain.

(** ** Networks, [multi_crypto_support.cpp] *)

Inductive settings := none | mainnet | testnet | regtest.

Definition btc_mainnet : Z := 0xd9b4bef9.
Definition btc_testnet : Z := 0x0709110b.
Definition btc_regtest : Z := 0xdab5bffa.
Definition ltc_mainnet : Z := 0xdbb6c0fb.
Definition ltc_testnet : Z := 0xf1c8d2fd.
Definition ltc_regtest : Z := 0xdab5bffa.
Definition bch_mainnet : Z := 0xe8f3e1e3.
Definition bch_testnet : Z := 0xf4f3e5f4.
Definition bch_regtest : Z := 0xfabfb5da.

Section Networks.
Context `{Currency}.

Definition get_network_of_magic (identifier : Z) : settings :=
  let select main test reg :=
    if identifier =? main then mainnet else if identifier =? test then testnet
    else if identifier =? reg then regtest else none in
  if is_ltc then select ltc_mainnet ltc_testnet ltc_regtest
  else if is_bch then select bch_mainnet bch_testnet bch_regtest
  else select btc_mainnet btc_testnet btc_regtest.

Definition get_network (easy_blocks retarget : bool) : settings :=
  if negb retarget && negb easy_blocks then regtest
  else if easy_blocks then testnet else mainnet.
End Networks.

(** ** Checkpoints of the networks, [parser.cpp] *)

Definition bch_testnet_checkpoints : list (string * Z) :=
  ([("000000000933ea01ad0ee984209779baaec3ced90fa3f408719526f8d77f4943", 0);
   ("00000000009e2958c15ff9290d571bf9459e93b19765c6801ddeccadbb160a1e", 100000);
   ("0000000000287bffd321963ef05feab753ebe274e1d78b2fd4e2bfe9ad3aa6f2", 200000);
   ("000000000000226f7618566e70a2b5e020e29579b46743f05348427239bf41a1", 300000);
   ("000000000598cbbb1e79057b79eef828c495d4fc31050e6b179c57d07d00367c", 400000);
   ("000000000001a7c0aaa2630fbb2c0e476aafffc60f82177375b2aaa22209f606", 500000);
   ("000000000000624f06c69d3a9fe8d25e0a9030569128d63ad1b704bbb3059a16", 600000);
   ("000000000000406178b12a4dea3b27e13b3c4fe4510994fd667d7c1e6a3f4dc1", 700000);
   ("0000000000209b091d6519187be7c2ee205293f25f9f503f90027e25abf8b503", 800000);
   ("0000000000356f8d8924556e765b7a94aaebc6b5c8685dcfa2b1ee8b41acd89b", 900000);
   ("0000000000478e259a3eda2fafbeeb0106626f946347955e99278fe6cc848414", 1000000);
   ("00000000001c2fb9880485b1f3d7b0ffa9fabdfd0cf16e29b122bb6275c73db0", 1100000);
   ("00000000f17c850672894b9a75b63a1e72830bbd5f4c8889b5c1a80e7faef138", 1155875);
   ("00000000000e38fef93ed9582a7df43815d5c2ba9fd37ef70c9a0ea4a285b8f5", 1155876);
   ("00000000001149a812d6ecb71aea7f298fd1b29aefb773fe380c1f3649c24b84", 1188696);
   ("0000000000170ed0918077bde7b4d36cc4c91be69fa09211f748240dabe047fb", 1188697);
   ("00000000d91bdbb5394bcf457c0f0b7a7e43eb978e2d881b6c2a4c2756abc558", 1200000);
   ("00000000001e844212a0d7db21b5cca7cb3ceca7815a4a3f6c6a9e4de4d95049", 1233077);
   ("0000000000327972b8470c11755adf8f4319796bafae01f5a6650490b98a17db", 1233078);
   ("00000000000001fae0095cd4bea16f1ce8ab63f3f660a03c6d8171485f484b24", 1267996);
   ("00000000000002773f8970352e4a3368a1ce6ef91eb606b64389b36fdbf1bd56", 1267997)])%string.

Definition bch_mainnet_checkpoints : list (string * Z) :=
  ([("000000000019d6689c085ae165831e934ff763ae46a2a6c172b3f1b60a8ce26f", 0);
   ("0000000069e244f73d78e8fd29ba2fd2ed618bd6fa2ee92559f542fdb26e7c1d", 11111);
   ("000000002dd5588a74784eaa7ab0507a18ad16a236e7b1ce69f00d7ddfb5d0a6", 33333);
   ("00000000001e1b4903550a0b96e9a9405c8a95f387162e4944e8d9fbe501cd6a", 68555);
   ("00000000006a49b14bcf27462068f1264c961f11fa2e0eddd2be0791e1d4124a", 70567);
   ("0000000000573993a3c9e41ce34471c079dcf5f52a0e824a81e7f953b8661a20", 74000);
   ("00000000000291ce28027faea320c8d2b054b2e0fe44a773f3eefb151d6bdc97", 105000);
   ("000000000000774a7f8a7a12dc906ddb9e17e75d684f15e00f8767f9e8f36553", 118000);
   ("00000000000005b12ffd4cd315cd34ffd4a594f430ac814c91184a0d42d2b0fe", 134444);
   ("000000000000033b512028abb90e1626d8b346fd0ed598ac0a3c371138dce2bd", 140700);
   ("000000000000099e61ea72015e79632f216fe6cb33d7899acb35b75c8303b763", 168000);
   ("000000000000059f452a5f7340de6682a977387c17010ff6e6c3bd83ca8b1317", 193000);
   ("000000000000048b95347e83192f69cf0366076336c639f9b7228e9ba171342e", 210000);
   ("00000000000001b4f4b433e81ee46494af945cf96014816a4e2370f11b23df4e", 216116);
   ("00000000000001c108384350f74090433e7fcf79a606b8e797f065b130575932", 225430);
   ("000000000000003887df1f29024b06fc2200b55f8af8f35453d7be294df2d214", 250000);
   ("0000000000000001ae8c72a0b0c301f67e3afca10e819efa9041e458e9bd7e40", 279000);
   ("00000000000000004d9b4ef50f0f9d686fd69db2e03af35a100370c64632a983", 295000);
   ("000000000000000082ccf8f1557c5d40b21edabb18d2d691cfbf87118bac7254", 300000);
   ("00000000000000000409695bce21828b31a7143fa35fcab64670dd337a71425d", 325000);
   ("0000000000000000053cf64f0400bb38e0c4b3872c38795ddde27acb40a112bb", 350000);
   ("000000000000000009733ff8f11fbb9575af7412df3fae97f382376709c965dc", 375000);
   ("000000000000000004ec466ce4732fe6f1ed1cddc2ed4b328fff5224276e3f6f", 400000);
   ("00000000000000000142adfebcb9a0aa75f0c4980dd5c7dd17062bf7de77c16d", 425000);
   ("0000000000000000014083723ed311a461c648068af8cef8a19dcd620c07a20b", 450000);
   ("0000000000000000017c42fd88e78ab02c5f5c684f8344e1f5c9e4cebecde71c", 475000);
   ("0000000000000000011865af4122fe3b144e2cbeea86142e8ff2fb4107352d43", 478558);
   ("000000000000000000651ef99cb9fcbe0dadde1d424bd9f15ff20136191a5eec", 478559);
   ("000000000000000005e14d3f9fdfb70745308706615cfa9edca4f4558332b201", 500000);
   ("0000000000000000008088d63f48da98b7352ad7c4c85f3d90b657cf50ff1ede", 504030);
   ("0000000000000000011ebf65b60d0a3de80b8175be709d653b4c1a1beeb6ab9c", 504031);
   ("0000000000000000001b09302aa6a8dc65b7542dd195866907dd4e4ccba30d58", 515000);
   ("00000000000000000031687b7320832e5035abe8e3f81fb71517fc541765de83", 530358);
   ("0000000000000000011ada8bd08f46074f44a8f155396f43e38acf9501c49103", 530359);
   ("000000000000000000fc66aae55a178fec2ba2f2bc86eb6c6f632b5bc2b40af1", 545000);
   ("00000000000000000102d94fde9bd0807a2cc7582fe85dd6349b73ce4e8d9322", 556766);
   ("0000000000000000004626ff6e3b936941d341c5932ece4357eeccac44e6d56c", 556767)])%string.

Definition bch_regtest_checkpoints : list (string * Z) :=
  ([("0f9188f13cb7b2c71f2a335e3a4fc328bf5beb436012afca590b1a11466e2206", 0)])%string.

Definition btc_testnet_checkpoints : list (string * Z) :=
  ([("000000000933ea01ad0ee984209779baaec3ced90fa3f408719526f8d77f4943", 0);
   ("00000000009e2958c15ff9290d571bf9459e93b19765c6801ddeccadbb160a1e", 100000);
   ("0000000000287bffd321963ef05feab753ebe274e1d78b2fd4e2bfe9ad3aa6f2", 200000);
   ("000000000000226f7618566e70a2b5e020e29579b46743f05348427239bf41a1", 300000);
   ("000000000598cbbb1e79057b79eef828c495d4fc31050e6b179c57d07d00367c", 400000);
   ("000000000001a7c0aaa2630fbb2c0e476aafffc60f82177375b2aaa22209f606", 500000);
   ("000000000000624f06c69d3a9fe8d25e0a9030569128d63ad1b704bbb3059a16", 600000);
   ("000000000000406178b12a4dea3b27e13b3c4fe4510994fd667d7c1e6a3f4dc1", 700000);
   ("0000000000209b091d6519187be7c2ee205293f25f9f503f90027e25abf8b503", 800000);
   ("0000000000356f8d8924556e765b7a94aaebc6b5c8685dcfa2b1ee8b41acd89b", 900000);
   ("0000000000478e259a3eda2fafbeeb0106626f946347955e99278fe6cc848414", 1000000);
   ("00000000001c2fb9880485b1f3d7b0ffa9fabdfd0cf16e29b122bb6275c73db0", 1100000);
   ("00000000f17c850672894b9a75b63a1e72830bbd5f4c8889b5c1a80e7faef138", 1155875);
   ("0000000093b3cdf2b50a05fa1527810f52d6826781916ef129098e06ee03fb18", 1155876);
   ("00000000000025c23a19cc91ad8d3e33c2630ce1df594e1ae0bf0eabe30a9176", 1200000);
   ("000000007ec390190c60b5010a8ea14f5ce53e35be684eacc36486fec3b34744", 1300000);
   ("000000000000fce208da3e3b8afcc369835926caa44044e9c2f0caa48c8eba0f", 1400000)])%string.

Definition btc_mainnet_checkpoints : list (string * Z) :=
  ([("000000000019d6689c085ae165831e934ff763ae46a2a6c172b3f1b60a8ce26f", 0);
   ("0000000069e244f73d78e8fd29ba2fd2ed618bd6fa2ee92559f542fdb26e7c1d", 11111);
   ("000000002dd5588a74784eaa7ab0507a18ad16a236e7b1ce69f00d7ddfb5d0a6", 33333);
   ("00000000001e1b4903550a0b96e9a9405c8a95f387162e4944e8d9fbe501cd6a", 68555);
   ("00000000006a49b14bcf27462068f1264c961f11fa2e0eddd2be0791e1d4124a", 70567);
   ("0000000000573993a3c9e41ce34471c079dcf5f52a0e824a81e7f953b8661a20", 74000);
   ("00000000000291ce28027faea320c8d2b054b2e0fe44a773f3eefb151d6bdc97", 105000);
   ("000000000000774a7f8a7a12dc906ddb9e17e75d684f15e00f8767f9e8f36553", 118000);
   ("00000000000005b12ffd4cd315cd34ffd4a594f430ac814c91184a0d42d2b0fe", 134444);
   ("000000000000033b512028abb90e1626d8b346fd0ed598ac0a3c371138dce2bd", 140700);
   ("000000000000099e61ea72015e79632f216fe6cb33d7899acb35b75c8303b763", 168000);
   ("000000000000059f452a5f7340de6682a977387c17010ff6e6c3bd83ca8b1317", 193000);
   ("000000000000048b95347e83192f69cf0366076336c639f9b7228e9ba171342e", 210000);
   ("00000000000001b4f4b433e81ee46494af945cf96014816a4e2370f11b23df4e", 216116);
   ("00000000000001c108384350f74090433e7fcf79a606b8e797f065b130575932", 225430);
   ("000000000000003887df1f29024b06fc2200b55f8af8f35453d7be294df2d214", 250000);
   ("0000000000000001ae8c72a0b0c301f67e3afca10e819efa9041e458e9bd7e40", 279000);
   ("00000000000000004d9b4ef50f0f9d686fd69db2e03af35a100370c64632a983", 295000);
   ("000000000000000082ccf8f1557c5d40b21edabb18d2d691cfbf87118bac7254", 300000);
   ("00000000000000000409695bce21828b31a7143fa35fcab64670dd337a71425d", 325000);
   ("0000000000000000053cf64f0400bb38e0c4b3872c38795ddde27acb40a112bb", 350000);
   ("000000000000000009733ff8f11fbb9575af7412df3fae97f382376709c965dc", 375000);
   ("000000000000000004ec466ce4732fe6f1ed1cddc2ed4b328fff5224276e3f6f", 400000);
   ("00000000000000000142adfebcb9a0aa75f0c4980dd5c7dd17062bf7de77c16d", 425000);
   ("0000000000000000014083723ed311a461c648068af8cef8a19dcd620c07a20b", 450000);
   ("0000000000000000017c42fd88e78ab02c5f5c684f8344e1f5c9e4cebecde71c", 475000);
   ("0000000000000000011865af4122fe3b144e2cbeea86142e8ff2fb4107352d43", 478558);
   ("00000000000000000019f112ec0a9982926f1258cdcc558dd7c3b7e5dc7fa148", 478559);
   ("00000000000000000024fb37364cbf81fd49cc2d51c09c75c35433c3a1945d04", 500000);
   ("0000000000000000003ca88d20895d2535f304cca8afb08e7e5503fcac1da752", 515000);
   ("000000000000000000024e9be1c7b56cab6428f07920f21ad8457221a91371ae", 530000)])%string.

Definition btc_regtest_checkpoints : list (string * Z) :=
  ([("0f9188f13cb7b2c71f2a335e3a4fc328bf5beb436012afca590b1a11466e2206", 0)])%string.

Section Defaults.
Context `{Currency}.

Definition default_checkpoints (easy_blocks retarget : bool) : list checkpoint :=
  let texts :=
    match get_currency, get_network easy_blocks retarget with
    | bitcoin_cash, testnet => bch_testnet_checkpoints
    | bitcoin_cash, mainnet => bch_mainnet_checkpoints
    | bitcoin_cash, _ => bch_regtest_checkpoints
    | bitcoin, testnet => btc_testnet_checkpoints
    | bitcoin, mainnet => btc_mainnet_checkpoints
    | bitcoin, _ => btc_regtest_checkpoints
    | litecoin, _ => []
    end in
  map (fun '(hash, height) => checkpoint_of hash height) texts.

(** [std::max_element]: the first that no later one exceeds *)
Fixpoint max_element (largest : checkpoint) (rest : list checkpoint) : checkpoint :=
  match rest with
  | [] => largest
  | c :: rest => max_element (if cp_height largest <? cp_height c then c else largest) rest
  end.

Definition fix_checkpoints (easy_blocks retarget : bool) (checkpoints : list checkpoint) : list checkpoint :=
  let def_checkpoints := default_checkpoints easy_blocks retarget in
  match def_checkpoints with
  | [] => checkpoints
  | c :: rest =>
      let max_checkpoint_height := cp_height (max_element c rest) in
      def_checkpoints ++ List.filter (fun x => negb (cp_height x <=? max_checkpoint_height)) checkpoints
  end.
End Defaults.
End config.
