(* ===== verification/ConfigRules.v ===== *)
(** What the configuration values guarantee: the text that a value is printed as
    reads back as the value, the checkpoints of a network are in place after a
    user's own, and the checkpoints of the network cover its first heights. *)

From S2P Require Import Prelude Text Limits Endian Reader Writer Binary Codes Operation Script Chain Radix Base16 Base58 Base64 Base10 Compact Data Header Checksum ChainState Transaction TxCodec Mnemonics Sighash Elliptic Keys Stealth Message MsgInventory Config.

Import config.

(** ** Tokens *)

Definition plain (text : list Z) : Prop := Forall (fun c => is_space c = false) text.

Lemma read_token_plain text : plain text -> read_token text = (text, []).
Proof. induction 1 as [|c text Hc _ IH]; [done|]. cbn [read_token]. by rewrite Hc, IH. Qed.

Lemma of_text_plain {A} (decode : list Z -> option A) text : plain text -> of_text decode text = decode text.
Proof.
  intros Ht. unfold of_text, extract.
  assert (E : trim_left text = text) by (destruct Ht as [|c text Hc Ht]; [done|by apply trim_left_id]).
  rewrite E, read_token_plain by done. by destruct (decode text).
Qed.

Lemma plain_app a b : plain (a ++ b) <-> plain a /\ plain b.
Proof. apply Forall_app. Qed.

Lemma digit_plain c : is_digit c = true -> is_space c = false.
Proof. unfold is_digit, is_space. lia. Qed.

Lemma decimal_plain n : plain (decimal n).
Proof. eapply Forall_impl; [apply decimal_digits|]. intros c Hc. by apply digit_plain. Qed.

Lemma hex_text_plain d : bytes_ok d -> plain (encode_base16 d).
Proof. intros Hd. eapply Forall_impl; [by apply hex_chars|]. intros c Hc. by apply hex_plain. Qed.

Lemma hash_text h : length h = 32%nat -> bytes_ok h ->
  plain (encode_hash h) /\ length (encode_hash h) = 64%nat /\ decode_hash (encode_hash h) = Some h.
Proof.
  intros Hl Hb. split_and!.
  - by apply hex_text_plain, Forall_reverse.
  - unfold encode_hash. by rewrite length_encode_base16, length_reverse, Hl.
  - by apply decode_encode_hash.
Qed.

(** ** Numbers *)

Section Numbers.
Context `{BoostLaws}.

Lemma decimal_cast w n : 0 <= w <= 64 -> in_width w n -> lexical_cast w (decimal n) = Some n.
Proof.
  intros Hw Hn. assert (H64 : in_width 64 n).
  { unfold in_width in *. pose proof (Z.pow_le_mono_r 2 w 64). lia. }
  rewrite lexical_cast_digits.
  - rewrite decimal_value by done. cbv zeta. unfold in_width in Hn. destruct (Z.ltb_spec n (2 ^ w)); [done|lia].
  - pose proof (decimal_nonempty n). destruct (decimal n); [simpl in *; lia|done].
  - apply forallb_digits, decimal_digits.
Qed.
End Numbers.

Lemma decimal_length n k : (1 <= k <= 20)%nat -> 0 <= n < 10 ^ Z.of_nat k -> (length (decimal n) <= k)%nat.
Proof.
  intros Hk Hn. unfold decimal.
  assert (E : strip_zeros (digits_be 10 20 n) = strip_zeros (digits_be 10 k n)).
  { apply (strip_zeros_unique 10); [lia|apply digits_be_ok; lia|apply digits_be_ok; lia|].
    rewrite !bval_digits; try lia. pose proof (Z.pow_le_mono_r 10 (Z.of_nat k) (Z.of_nat 20)). lia. }
  rewrite E. pose proof (strip_zeros_split (digits_be 10 k n)) as Hs.
  apply (f_equal length) in Hs. rewrite length_app, length_digits_be in Hs.
  destruct (strip_zeros (digits_be 10 k n)) as [|d ds]; [simpl; lia|]. rewrite length_map. lia.
Qed.

(** The digits after a colon to the end of a text. *)
Definition number_tail (n : nat) (text digits : list Z) : Prop :=
  (text = [] /\ digits = []) \/
  (text = 58 :: digits /\ (1 <= length digits <= n)%nat /\ forallb is_digit digits = true).

Lemma match_number_tail n text digits : number_tail n text digits -> match_number n text = Some digits.
Proof.
  intros [[-> ->]|(-> & Hl & Hd)]; [done|]. cbn [match_number]. rewrite Z.eqb_refl, Hd.
  by rewrite (proj2 (Nat.leb_le 1 (length digits))), (proj2 (Nat.leb_le (length digits) n)) by lia.
Qed.

Lemma decimal_tail n k : (1 <= k <= 20)%nat -> 0 <= n < 10 ^ Z.of_nat k -> number_tail k (58 :: decimal n) (decimal n).
Proof.
  intros Hk Hn. right. split_and!; [done|apply decimal_nonempty|by apply decimal_length|].
  apply forallb_digits, decimal_digits.
Qed.

(** The port that is printed, if it is not zero. *)
Lemma port_tail `{BoostLaws} port :
  in_width 16 port ->
  exists digits,
    number_tail 5 (if negb (port =? 0) then 58 :: decimal port else []) digits /\ cast_port digits = Some port.
Proof.
  intros Hp. destruct (Z.eqb_spec port 0) as [->|Hz]; cbn [negb].
  - exists []. split; [by left|done].
  - exists (decimal port). split; [apply decimal_tail; [lia|unfold in_width in Hp; lia]|].
    unfold cast_port. pose proof (decimal_nonempty port) as Hn. destruct (decimal port) eqn:E; [simpl in Hn; lia|].
    rewrite <- E. by apply decimal_cast.
Qed.

Lemma number_tail_plain n text digits : number_tail n text digits -> plain text.
Proof.
  intros [[-> _]|(-> & _ & Hd)]; [constructor|]. constructor; [done|]. apply Forall_forall. intros c Hc.
  apply digit_plain. rewrite forallb_forall in Hd. apply Hd. by apply list_elem_of_In.
Qed.

(** ** Checkpoints *)

Lemma hex_digit_lower v : 0 <= v < 16 -> is_lower_hex (hex_digit v) = true.
Proof. intros Hv. unfold is_lower_hex, is_digit, hex_digit. destruct (Z.ltb_spec v 10); lia. Qed.

Lemma hex_text_lower d : bytes_ok d -> forallb is_lower_hex (encode_base16 d) = true.
Proof.
  induction 1 as [|b d Hb _ IH]; [done|]. unfold encode_base16 in *. cbn [map concat hex_byte app forallb].
  rewrite IH, !hex_digit_lower; [done| |].
  - apply Z.mod_pos_bound; lia.
  - unfold byte_ok in Hb. split; [apply Z.div_pos; lia|apply Z.div_lt_upper_bound; lia].
Qed.

Lemma checkpoint_text `{BoostLaws} c :
  length (cp_hash c) = 32%nat -> bytes_ok (cp_hash c) -> in_width 64 (cp_height c) ->
  of_text decode_checkpoint (print_checkpoint c) = Some c.
Proof.
  intros Hl Hb Hh. destruct (hash_text (cp_hash c) Hl Hb) as (Hp & H64 & Hd). unfold print_checkpoint.
  rewrite of_text_plain.
  2: { apply plain_app. split; [done|]. apply plain_app. split; [by repeat constructor|apply decimal_plain]. }
  unfold decode_checkpoint, match_checkpoint.
  assert (Et : take 64 (encode_hash (cp_hash c) ++ [58] ++ decimal (cp_height c)) = encode_hash (cp_hash c))
    by (rewrite <- H64; apply take_app_length).
  assert (Ed : drop 64 (encode_hash (cp_hash c) ++ [58] ++ decimal (cp_height c)) = 58 :: decimal (cp_height c))
    by (rewrite <- H64; apply drop_app_length).
  rewrite Et, Ed, H64. cbv zeta. unfold encode_hash at 1. rewrite hex_text_lower by (by apply Forall_reverse). rewrite Nat.eqb_refl. cbn [andb].
  rewrite (match_number_tail 20 _ (decimal (cp_height c))) by (apply decimal_tail; [lia|unfold in_width in Hh; lia]).
  cbn [mbind option_bind]. rewrite Hd. cbn [mbind option_bind]. rewrite decimal_cast by first [lia|done].
  cbn [mbind option_bind]. by destruct c.
Qed.

(** ** Points and inputs *)

Lemma colon_free text : Forall (fun c => c <> 58) text -> Forall (fun c => is_any_of delimeter c = false) text.
Proof.
  intros Ht. eapply Forall_impl; [exact Ht|]. intros c Hc. unfold is_any_of, delimeter. cbn [existsb].
  by rewrite orb_false_r, Z.eqb_neq.
Qed.

Lemma decimal_colon n : Forall (fun c => c <> 58) (decimal n).
Proof. eapply Forall_impl; [apply decimal_digits|]. intros c. unfold is_digit. simpl. lia. Qed.

Lemma hash_colon h : bytes_ok h -> Forall (fun c => c <> 58) (encode_hash h).
Proof.
  intros Hb. unfold encode_hash. apply Forall_reverse in Hb. eapply Forall_impl; [by apply hex_chars|]. intros c Hc ->. done.
Qed.

(** Words without a colon and without white space, joined by colons. *)
Lemma split_colons words :
  words <> [] -> Forall (fun w => w <> [] /\ plain w /\ Forall (fun c => c <> 58) w) words ->
  Text.split (join words delimeter) delimeter true = words.
Proof.
  intros Hne Hw. unfold Text.split. rewrite trim_copy_id.
  - apply split_joined; [done|done|]. eapply Forall_impl; [exact Hw|]. intros w (H1 & _ & H2).
    split; [done|by apply colon_free].
  - destruct Hw as [|w words (H1 & H2 & _) Hw]; [done|]. destruct w as [|c w]; [done|].
    apply Forall_cons in H2 as [H2 _]. by destruct words.
  - clear Hne. induction Hw as [|w words (H1 & H2 & _) Hw IH]; [done|]. destruct words as [|w' words].
    + cbn [join]. apply Forall_forall with (x := List.last w 0) in H2; [done|].
      apply list_elem_of_In. rewrite <- (rev_involutive w). destruct (rev w) as [|c r] eqn:E.
      * apply (f_equal (@rev Z)) in E. rewrite rev_involutive in E. by subst.
      * cbn [rev]. rewrite last_last. apply in_app_iff. right. by left.
    + cbn [join]. cbn [join] in IH. rewrite app_assoc. set (l := match words with [] => w' | _ => _ end) in *.
      assert (Hl : l <> []).
      { subst l. apply Forall_cons in Hw as [[Hw' _] _]. destruct words; [done|]. by destruct w'. }
      destruct l as [|c l _] using rev_ind; [done|]. rewrite app_assoc, !last_last in *. done.
Qed.

Lemma hash_nonempty h : length h = 32%nat -> encode_hash h <> [].
Proof. intros Hl E. apply (f_equal length) in E. unfold encode_hash in E. rewrite length_encode_base16, length_reverse, Hl in E. done. Qed.

Lemma decimal_nonnil n : decimal n <> [].
Proof. pose proof (decimal_nonempty n). intros E. rewrite E in *. simpl in *. lia. Qed.

Lemma trim_plain text : plain text -> trim_copy text = text.
Proof.
  intros Hp. destruct text as [|c text]; [done|]. apply trim_copy_id; [by apply Forall_cons in Hp as [? _]|].
  revert Hp. generalize (c :: text) as l. clear c text. intros l Hp. destruct l as [|c l _] using rev_ind; [done|]. rewrite last_last.
  apply Forall_app in Hp as [_ Hp]. by apply Forall_cons in Hp as [? _].
Qed.

Lemma decimal_deserialize `{BoostLaws} w n : 0 <= w <= 64 -> in_width w n -> deserialize w (decimal n) = Some n.
Proof. intros Hw Hn. unfold deserialize. rewrite trim_plain by apply decimal_plain. by apply decimal_cast. Qed.

Lemma point_text_plain v : bytes_ok (pt_hash (op_point v)) -> plain (print_point v).
Proof.
  intros Hb. unfold print_point, print_hash256. apply plain_app. split; [by apply hex_text_plain, Forall_reverse|].
  apply plain_app. split; [by repeat constructor|apply decimal_plain].
Qed.

Lemma point_decoded `{BoostLaws} v :
  length (pt_hash (op_point v)) = 32%nat -> bytes_ok (pt_hash (op_point v)) -> in_width 32 (pt_index (op_point v)) ->
  decode_point (print_point v) = Some (new_output_point (new_point (pt_hash (op_point v)) (pt_index (op_point v)))).
Proof.
  intros Hl Hb Hi. destruct (hash_text _ Hl Hb) as (Hp & _ & Hd). unfold decode_point.
  change (print_point v) with (join [encode_hash (pt_hash (op_point v)); decimal (pt_index (op_point v))] delimeter).
  rewrite split_colons.
  - cbn [length nth negb Nat.eqb]. rewrite of_text_plain by done. unfold decode_hash256. rewrite Hd. cbn [mbind option_bind].
    by rewrite decimal_deserialize by (done || lia).
  - done.
  - repeat apply Forall_cons_2; [| |constructor].
    + split_and!; [by apply hash_nonempty|done|by apply hash_colon].
    + split_and!; [apply decimal_nonnil|apply decimal_plain|apply decimal_colon].
Qed.

(** The point and the sequence of an input are printed and read. *)
Lemma input_decoded `{BoostLaws} i :
  let p := op_point (previous_output i) in
  length (pt_hash p) = 32%nat -> bytes_ok (pt_hash p) -> in_width 32 (pt_index p) -> in_width 32 (sequence i) ->
  exists j,
    decode_input (print_input i) = Some j /\ sequence j = sequence i /\ pt_hash (op_point (previous_output j)) = pt_hash p /\
    pt_index (op_point (previous_output j)) = pt_index p.
Proof.
  intros p Hl Hb Hi Hs. destruct (hash_text _ Hl Hb) as (Hp & _ & _). unfold decode_input.
  replace (print_input i) with (join [encode_hash (pt_hash p); decimal (pt_index p); decimal (sequence i)] delimeter)
    by (unfold print_input, print_point, print_hash256; cbn [join]; by rewrite <- !app_assoc).
  rewrite split_colons.
  - cbn [length nth negb Nat.eqb andb].
    change (encode_hash (pt_hash p) ++ [58] ++ decimal (pt_index p)) with (print_point (previous_output i)).
    rewrite of_text_plain by (by apply point_text_plain). rewrite point_decoded by done. cbn [mbind option_bind].
    rewrite decimal_deserialize by (done || lia). cbn [mbind option_bind]. eexists. split_and!; [reflexivity|done|done|done].
  - done.
  - repeat apply Forall_cons_2; [| | |constructor].
    + split_and!; [by apply hash_nonempty|done|by apply hash_colon].
    + split_and!; [apply decimal_nonnil|apply decimal_plain|apply decimal_colon].
    + split_and!; [apply decimal_nonnil|apply decimal_plain|apply decimal_colon].
Qed.

(** ** Hosts *)

Lemma match_host_name_app name tail :
  Forall (fun c => c <> 58) name -> (tail = [] \/ exists rest, tail = 58 :: rest) ->
  match_host_name (name ++ tail) = (name, tail).
Proof.
  intros Hn Ht. induction Hn as [|c name Hc _ IH].
  - destruct Ht as [->|[rest ->]]; [done|]. cbn [app match_host_name]. by rewrite Z.eqb_refl.
  - cbn [app match_host_name]. rewrite (proj2 (Z.eqb_neq c 58)) by done. by rewrite IH.
Qed.

Lemma match_bracketed_app inner after c :
  forallb is_ipv6_char inner = true -> is_ipv6_char c = false ->
  match_bracketed (inner ++ c :: after) = (inner, c :: after).
Proof.
  intros Hi Hc. induction inner as [|x inner IH]; cbn [app match_bracketed]; [by rewrite Hc|].
  cbn [forallb] in Hi. apply andb_true_iff in Hi as [-> Hi]. by rewrite IH.
Qed.

Lemma match_bracketed_split text : text = fst (match_bracketed text) ++ snd (match_bracketed text).
Proof.
  induction text as [|c text IH]; [done|]. cbn [match_bracketed]. destruct (is_ipv6_char c); [|done].
  destruct (match_bracketed text) as [inner after]. cbn [fst snd app] in *. by rewrite <- IH.
Qed.

(** A tail of digits holds neither a bracket nor a second colon. *)
Lemma tail_no_bracket n tail digits x after : number_tail n tail digits -> tail <> x ++ 93 :: after.
Proof.
  intros [[-> _]|(-> & _ & Hd)] E; [by destruct x|]. rewrite forallb_forall in Hd.
  assert (Hin : In 93 (58 :: digits)) by (rewrite E; apply in_app_iff; right; by left).
  destruct Hin as [?|Hin]; [done|]. by apply Hd in Hin.
Qed.

Lemma match_bracket_host_app inner tail digits :
  inner <> [] -> forallb is_ipv6_char inner = true -> number_tail 5 tail digits ->
  match_bracket_host ((91 :: inner ++ [93]) ++ tail) = Some (91 :: inner ++ [93], digits).
Proof.
  intros Hne Hi Ht. cbn [app match_bracket_host]. rewrite <- app_assoc. cbn [app].
  rewrite match_bracketed_app by done. destruct inner as [|c inner]; [done|].
  by rewrite (match_number_tail 5 tail digits).
Qed.

(** A host without a colon that the bracketed form matches is matched whole. *)
Lemma match_bracket_host_plain host tail digits m :
  Forall (fun c => c <> 58) host -> number_tail 5 tail digits ->
  match_bracket_host (host ++ tail) = Some m -> m = (host, digits).
Proof.
  intros Hh Ht Hm. destruct host as [|c rest].
  { destruct Ht as [[-> _]|(-> & _)]; discriminate Hm. }
  unfold match_bracket_host in Hm. cbn [app] in Hm.
  destruct (Z.eq_dec c 91) as [->|Hc]; [|by destruct c as [|c|c]; try done; repeat (destruct c as [c|c|]; try done)].
  pose proof (match_bracketed_split (rest ++ tail)) as Hs. destruct (match_bracketed (rest ++ tail)) as [inner after].
  cbn [fst snd] in Hs. destruct inner as [|i inner]; [done|].
  destruct after as [|a after]; [done|].
  destruct (Z.eq_dec a 93) as [->|Ha]; [|by destruct a as [|a|a]; try done; repeat (destruct a as [a|a|]; try done)].
  destruct (match_number 5 after) as [port|] eqn:Ep; [|done]. cbn [mbind option_bind] in Hm.
  apply app_eq_app in Hs as [x [[-> Hx]|[_ Hx]]]; [|by apply (tail_no_bracket _ _ _ _ _ Ht) in Hx].
  destruct x as [|y x]; [symmetry in Hx; by apply (tail_no_bracket _ _ _ [] _ Ht) in Hx|].
  injection Hx as <- Hx. destruct x as [|y x].
  - cbn [app] in Hx. subst after. rewrite (match_number_tail _ _ _ Ht) in Ep. injection Ep as <-. by injection Hm as <-.
  - subst after. cbn [app match_number] in Ep. destruct (Z.eqb_spec y 58) as [->|]; [|done].
    exfalso. apply Forall_cons in Hh as [_ Hh]. apply Forall_app in Hh as [_ Hh]. apply Forall_cons in Hh as [_ Hh].
    by apply Forall_cons in Hh as [? _].
Qed.

(** The hosts whose text the pattern matches. *)
Definition host_ok (host : list Z) : Prop :=
  plain host /\
  ((host <> [] /\ Forall (fun c => c <> 58) host) \/
   (exists inner, inner <> [] /\ forallb is_ipv6_char inner = true /\ host = 91 :: inner ++ [93])).

Lemma match_host_app host tail digits :
  host_ok host -> number_tail 5 tail digits -> match_host (host ++ tail) = Some (host, digits).
Proof.
  intros [_ Hh] Ht. unfold match_host. destruct Hh as [[Hne Hc]|(inner & Hne & Hi & ->)].
  - destruct (match_bracket_host (host ++ tail)) as [m|] eqn:Em.
    + by rewrite (match_bracket_host_plain host tail digits m Hc Ht Em).
    + rewrite match_host_name_app; [|done|].
      * destruct host; [done|]. by rewrite (match_number_tail 5 tail digits).
      * destruct Ht as [[-> _]|(-> & _)]; [by left|right; by eexists].
  - by rewrite match_bracket_host_app with (digits := digits).
Qed.

(** ** Endpoints *)

Definition endpoint_ok (e : endpoint) : Prop :=
  (scheme e = [] \/ In (scheme e) schemes) /\ host_ok (host e) /\ in_width 16 (endpoint_port e).

(** A host is not the start of a text with a scheme. *)
Lemma no_scheme name host tail digits :
  In name schemes -> host_ok host -> number_tail 5 tail digits ->
  take (length (name ++ scheme_end)) (host ++ tail) <> name ++ scheme_end.
Proof.
  intros Hin [_ Hh] Ht E.
  assert (Hname : Forall (fun c => c <> 58) name /\ hd 0 name <> 91).
  { unfold schemes in Hin. cbn [In] in Hin. repeat destruct Hin as [<-|Hin]; try done; split; try done;
      repeat (apply Forall_cons_2; [done|]); constructor. }
  destruct Hname as [Hname Hhd].
  assert (E' : host ++ tail = name ++ 58 :: 47 :: 47 :: drop (length (name ++ scheme_end)) (host ++ tail)).
  { rewrite <- (take_drop (length (name ++ scheme_end)) (host ++ tail)) at 1. rewrite E. by rewrite <- app_assoc. }
  destruct Hh as [[Hne Hc]|(inner & Hne & Hi & ->)].
  - revert E'. generalize (drop (length (name ++ scheme_end)) (host ++ tail)). intros rest E'.
    apply app_eq_app in E' as [x [[-> Hx]|[-> Hx]]].
    + destruct x as [|y x].
      * cbn [app] in Hx. destruct Ht as [[-> _]|(-> & _ & Hd)]; [done|]. injection Hx as Hx. subst digits. done.
      * injection Hx as <- _. apply Forall_app in Hc as [_ Hc]. by apply Forall_cons in Hc as [? _].
    + destruct x as [|y x].
      * cbn [app] in Hx. destruct Ht as [[-> _]|(-> & _ & Hd)]; [done|]. injection Hx as Hx. subst digits. done.
      * destruct Ht as [[-> _]|(-> & _ & _)]; [done|]. injection Hx as <- _. apply Forall_app in Hname as [_ Hname].
        by apply Forall_cons in Hname as [? _].
  - destruct name as [|c name]; [|by injection E' as <- _].
    unfold schemes in Hin. cbn [In] in Hin. by repeat destruct Hin as [?|Hin].
Qed.

Lemma match_no_scheme names host tail digits :
  (forall name, In name names -> In name schemes) -> host_ok host -> number_tail 5 tail digits ->
  match_scheme names (host ++ tail) = Some ([], host, digits).
Proof.
  intros Hin Hh Ht. induction names as [|name names IH]; cbn [match_scheme].
  - by rewrite (match_host_app host tail digits).
  - rewrite bool_decide_false by (apply (no_scheme name host tail digits); [apply Hin; by left|done|done]).
    apply IH. intros n Hn. apply Hin. by right.
Qed.

Lemma match_some_scheme name host tail digits :
  In name schemes -> host_ok host -> number_tail 5 tail digits ->
  match_scheme schemes ((name ++ scheme_end) ++ host ++ tail) = Some (name, host, digits).
Proof.
  intros Hin Hh Ht. pose proof (match_host_app host tail digits Hh Ht) as Hm. revert Hm. generalize (host ++ tail). intros text Hm.
  assert (Hskip : forall other rest, take (length (other ++ scheme_end)) ((name ++ scheme_end) ++ text) <> other ++ scheme_end ->
    match_scheme (other :: rest) ((name ++ scheme_end) ++ text) = match_scheme rest ((name ++ scheme_end) ++ text)).
  { intros other rest Hne. cbn [match_scheme]. by rewrite bool_decide_false. }
  assert (Htake : forall rest, match_scheme (name :: rest) ((name ++ scheme_end) ++ text) = Some (name, host, digits)).
  { intros rest. cbn [match_scheme]. rewrite take_app_length, bool_decide_true by done. by rewrite drop_app_length, Hm. }
  unfold schemes in *. cbn [In] in Hin.
  repeat (destruct Hin as [<-|Hin]; [repeat first [apply Htake | rewrite Hskip by (intros [=])]|]); done.
Qed.

Lemma endpoint_decoded `{BoostLaws} e :
  endpoint_ok e -> of_text decode_endpoint (print_endpoint e) = Some e.
Proof.
  intros (Hs & Hh & Hp). destruct (port_tail (endpoint_port e) Hp) as (digits & Ht & Hcast).
  unfold print_endpoint. change ([58] ++ decimal (endpoint_port e)) with (58 :: decimal (endpoint_port e)).
  set (tail := if negb _ then _ else _) in *.
  assert (Hscheme : plain (scheme e)).
  { destruct Hs as [->|Hin]; [constructor|]. unfold schemes in Hin. cbn [In] in Hin.
    repeat destruct Hin as [<-|Hin]; try done; repeat (apply Forall_cons_2; [done|]); constructor. }
  rewrite of_text_plain.
  2: { apply plain_app. split.
       - destruct (scheme e) eqn:E; [constructor|]. rewrite <- E. apply plain_app. split; [by rewrite E|].
         repeat (apply Forall_cons_2; [done|]). constructor.
       - apply plain_app. split; [apply Hh|by apply (number_tail_plain _ _ _ Ht)]. }
  assert (Hm : match_scheme schemes ((match scheme e with [] => [] | _ => scheme e ++ scheme_end end) ++ host e ++ tail) =
    Some (scheme e, host e, digits)).
  { destruct Hs as [->|Hin]; [by apply (match_no_scheme schemes (host e) tail digits)|].
    destruct (scheme e) as [|c l] eqn:E; [by repeat destruct Hin as [?|Hin]|]. rewrite <- E in *. by apply match_some_scheme. }
  unfold decode_endpoint. rewrite Hm. cbn [mbind option_bind]. rewrite Hcast. cbn [mbind option_bind]. by destruct e.
Qed.

(** ** Authorities *)

Lemma match_ipv4_app name tail digits :
  forallb is_ipv4_char name = true -> number_tail 5 tail digits -> match_ipv4 (name ++ tail) = (name, tail).
Proof.
  intros Hn Ht. induction name as [|c name IH].
  - by destruct Ht as [[-> _]|(-> & _)].
  - cbn [forallb] in Hn. apply andb_true_iff in Hn as [Hc Hn]. cbn [app match_ipv4]. rewrite Hc. by rewrite IH.
Qed.

Lemma ipv4_plain name : forallb is_ipv4_char name = true -> plain name /\ existsb (Z.eqb 58) name = false.
Proof.
  intros Hn. induction name as [|c name IH]; [by split; [constructor|]|]. cbn [forallb] in Hn.
  apply andb_true_iff in Hn as [Hc Hn]. destruct (IH Hn) as [H1 H2]. unfold is_ipv4_char, is_digit in Hc. split.
  - constructor; [|done]. unfold is_space. lia.
  - cbn [existsb]. rewrite H2. lia.
Qed.

Lemma ipv6_plain name : forallb is_ipv6_char name = true -> plain name.
Proof.
  intros Hn. apply Forall_forall. intros c Hc. rewrite forallb_forall in Hn. apply list_elem_of_In, Hn in Hc.
  unfold is_ipv6_char, is_digit, is_space in *. lia.
Qed.

Lemma authority_decoded `{BoostLaws} a :
  length (ip a) = 16%nat -> bytes_ok (ip a) -> in_width 16 (port a) ->
  of_text decode_authority (print_authority a) = Some a.
Proof.
  intros Hl Hb Hp. destruct (port_tail (port a) Hp) as (digits & Ht & Hcast).
  destruct (ipv6_text_chars (ip a)) as [Hne Hchars]. pose proof (ipv6_text (ip a) Hl Hb) as Hip.
  unfold print_authority, to_authority.
  assert (Etail : (if port a >? 0 then [58] ++ decimal (port a) else []) = (if negb (port a =? 0) then 58 :: decimal (port a) else [])).
  { unfold in_width in Hp. destruct (Z.eqb_spec (port a) 0) as [->|]; [done|]. by rewrite (proj2 (Z.gtb_lt _ _)) by lia. }
  rewrite Etail. set (tail := if negb _ then _ else _) in *. clearbody tail. clear Etail.
  pose proof (number_tail_plain _ _ _ Ht) as Htp. unfold to_hostname, to_ipv4_hostname.
  set (address := ipv6_to_string (ip a)) in *. set (name := drop (length mapped_prefix) address).
  destruct (bool_decide (take (length mapped_prefix) address = mapped_prefix) && forallb is_ipv4_char name) eqn:E;
    [destruct name as [|c rest] eqn:En|].
  2: { apply andb_true_iff in E as [E Hname]. apply bool_decide_eq_true in E.
       rewrite <- En in *. destruct (ipv4_plain name Hname) as [Hn1 Hn2]. unfold to_host_name. rewrite Hn2. cbn [negb orb].
       rewrite of_text_plain by (by apply plain_app). unfold decode_authority, match_authority.
       rewrite (match_ipv4_app name tail digits) by done. rewrite En. rewrite <- En.
       rewrite (match_number_tail _ _ _ Ht). cbn [mbind option_bind].
       assert (Ea : to_ipv6 name = address) by (unfold to_ipv6, name; rewrite <- E at 1; apply take_drop).
       rewrite Ea, Hip. cbn [mbind option_bind]. rewrite Hcast. cbn [mbind option_bind]. by destruct a. }
  all: clear E; assert (Ehost : to_host_name (to_ipv6_hostname (ip a)) = to_ipv6_hostname (ip a))
      by (unfold to_host_name; by rewrite orb_true_r).
  all: rewrite Ehost; unfold to_ipv6_hostname; fold address.
  all: rewrite of_text_plain by (apply plain_app; split; [|done]; apply plain_app; split; [by repeat constructor|];
      apply plain_app; split; [by apply ipv6_plain|by repeat constructor]).
  all: unfold decode_authority, match_authority.
  all: change (([91] ++ address ++ [93]) ++ tail) with ((91 :: address ++ [93]) ++ tail).
  all: change (match_ipv4 ((91 :: address ++ [93]) ++ tail)) with (@nil Z, (91 :: address ++ [93]) ++ tail).
  all: rewrite (match_bracket_host_app address tail digits) by done; cbn [mbind option_bind]; change (drop 1 (91 :: address ++ [93])) with (address ++ [93]); rewrite removelast_last.
  all: assert (Ematch : match address with [] => to_ipv6 [] | _ => address end = address) by (by destruct address).
  all: rewrite Ematch, Hip; cbn [mbind option_bind].
  all: rewrite Hcast; cbn [mbind option_bind]; by destruct a.
Qed.

(** ** All the texts *)

(** The text that a value is printed as reads back as the value, from a
    string, for checkpoints, endpoints, authorities, points and inputs. *)
Theorem config_texts_roundtrip `{BoostLaws} :
  (forall c, length (cp_hash c) = 32%nat -> bytes_ok (cp_hash c) -> in_width 64 (cp_height c) ->
     of_text decode_checkpoint (print_checkpoint c) = Some c) /\
  (forall e, endpoint_ok e -> of_text decode_endpoint (print_endpoint e) = Some e) /\
  (forall a, length (ip a) = 16%nat -> bytes_ok (ip a) -> in_width 16 (port a) ->
     of_text decode_authority (print_authority a) = Some a) /\
  (forall h i, length h = 32%nat -> bytes_ok h -> in_width 32 i ->
     let p := new_output_point (new_point h i) in of_text decode_point (print_point p) = Some p).
Proof.
  split_and!.
  - apply checkpoint_text.
  - apply endpoint_decoded.
  - apply authority_decoded.
  - intros h i Hl Hb Hi p. rewrite of_text_plain by (by apply point_text_plain). by apply point_decoded.
Qed.

(** A height that is left out is refused, though the pattern has it optional. *)
Lemma checkpoint_height_required `{BoostLaws} value hash :
  match_checkpoint value = Some (hash, []) -> decode_checkpoint value = None.
Proof.
  intros E. unfold decode_checkpoint. rewrite E. cbn [mbind option_bind].
  destruct (decode_hash hash); [|done]. cbn [mbind option_bind]. by rewrite lexical_cast_empty.
Qed.

(** ** The checkpoints in place *)

Section Fixed.
Context `{Currency}.

Fixpoint ascending (checks : list checkpoint) : bool :=
  match checks with
  | a :: (b :: _) as rest => (cp_height a <? cp_height b) && ascending rest
  | _ => true
  end.

Lemma max_element_bounds largest rest :
  cp_height largest <= cp_height (max_element largest rest) /\
  (forall c, In c rest -> cp_height c <= cp_height (max_element largest rest)) /\
  In (max_element largest rest) (largest :: rest).
Proof.
  revert largest. induction rest as [|x rest IH]; intros largest; cbn [max_element].
  { split_and!; [lia|done|by left]. }
  destruct (Z.ltb_spec (cp_height largest) (cp_height x)) as [Hlt|Hge].
  - destruct (IH x) as (H1 & H2 & H3). split_and!; [lia| |by right]. intros c [->|Hc]; [done|by apply H2].
  - destruct (IH largest) as (H1 & H2 & H3). split_and!; [done| |destruct H3 as [E|H3]; [by left|by (right; right)]].
    intros c [->|Hc]; [lia|by apply H2].
Qed.

(** A checkpoint is above the defaults when it is above each of them. *)
Lemma above_all (c x : checkpoint) rest :
  negb (cp_height x <=? cp_height (max_element c rest)) = true <->
  forall d, In d (c :: rest) -> cp_height d < cp_height x.
Proof.
  destruct (max_element_bounds c rest) as (H1 & H2 & H3). rewrite negb_true_iff, Z.leb_gt. split.
  - intros Hlt d [->|Hd]; [lia|]. pose proof (H2 d Hd). lia.
  - intros Hall. by apply Hall.
Qed.

Lemma filter_idempotent {A} (f : A -> bool) (l : list A) : List.filter f (List.filter f l) = List.filter f l.
Proof.
  induction l as [|x l IH]; [done|]. cbn [List.filter]. destruct (f x) eqn:E; [|done]. cbn [List.filter]. by rewrite E, IH.
Qed.

Lemma find_filter_none {A} (f : A -> bool) (l : list A) : (forall x, In x l -> f x = false) -> List.filter f l = [].
Proof.
  intros Hl. induction l as [|x l IH]; [done|]. cbn [List.filter]. rewrite Hl by (by left). apply IH. intros y Hy. apply Hl. by right.
Qed.

(** The defaults of every network ascend from height zero, with hashes of the
    right size. *)
Lemma defaults_ascend easy_blocks retarget :
  ascending (default_checkpoints easy_blocks retarget) = true /\
  forallb (fun c => (length (cp_hash c) =? 32)%nat && negb (bool_decide (cp_hash c = null_hash)))
    (default_checkpoints easy_blocks retarget) = true /\
  match default_checkpoints easy_blocks retarget with [] => is_ltc = true | c :: _ => cp_height c = 0 end.
Proof.
  unfold default_checkpoints, is_ltc. destruct get_currency, easy_blocks, retarget; split_and!; vm_compute; reflexivity.
Qed.

(** Fixing a user's checkpoints puts the network's own in front, in ascending
    order from height zero, keeps of the user's exactly those above all of
    them, in their order, and does nothing a second time. *)
Theorem fix_checkpoints_spec easy_blocks retarget checkpoints :
  let defaults := default_checkpoints easy_blocks retarget in
  let fixed := fix_checkpoints easy_blocks retarget checkpoints in
  ascending defaults = true /\
  (forall c, In c fixed <->
     In c defaults \/ (In c checkpoints /\ forall d, In d defaults -> cp_height d < cp_height c)) /\
  (exists kept, fixed = defaults ++ kept /\ sublist kept checkpoints) /\
  fix_checkpoints easy_blocks retarget fixed = fixed.
Proof.
  intros defaults fixed. split; [apply defaults_ascend|]. unfold fixed, fix_checkpoints. fold defaults.
  destruct defaults as [|c rest] eqn:E.
  { split_and!; [|by exists checkpoints|done]. intros x. split; [by right; split|]. by intros [?|[? _]]. }
  set (above := fun x => negb (cp_height x <=? cp_height (max_element c rest))).
  rewrite <- E. split_and!.
  - intros x. rewrite in_app_iff, filter_In. unfold above. rewrite above_all, E. done.
  - exists (List.filter above checkpoints). split; [done|].
    clear. induction checkpoints as [|x l IH]; [constructor|]. cbn [List.filter]. destruct (above x); by constructor.
  - rewrite List.filter_app, filter_idempotent, E. f_equal. change (c :: rest ++ List.filter above checkpoints)
      with ((c :: rest) ++ List.filter above checkpoints).
    rewrite (find_filter_none above (c :: rest)); [done|]. intros x Hx. unfold above. apply negb_false_iff, Z.leb_le.
    destruct (max_element_bounds c rest) as (H1 & H2 & _). destruct Hx as [<-|Hx]; [done|by apply H2].
Qed.
End Fixed.
