(* ===== verification/EncryptedTexts.v ===== *)
(** The texts of encrypted keys, [src/wallet/ek_private.cpp], [ek_public.cpp] and
    [ek_token.cpp], and mini keys, [src/wallet/mini_keys.cpp]. *)

From S2P Require Import Prelude Aes Text Limits Endian Reader Writer Binary Codes Radix Base16 Base58 Base10 Compact Data Header Checksum Sighash Elliptic Keys KeyRules EncryptedKeys EncryptedRules Uri Config.

Module ek_private.
Section Text.
Context `{Crypto}.

(** [valid_] and the encrypted private key *)
Record t := mk { valid : bool; private_key : list Z }.

Definition size : nat := ek_private_decoded_size.
Definition default : t := mk false (repeat 0 size).
Definition of_value (value : list Z) : t := mk true value.

Definition from_string (encoded : list Z) : t :=
  match decode_base58_array size encoded with
  | Some key => if checksum.verify_checksum key then of_value key else default
  | None => default
  end.

Definition encoded (k : t) : list Z := encode_base58 (private_key k).

Definition eqb (a b : t) : bool := Bool.eqb (valid a) (valid b) && bool_decide (private_key a = private_key b).
Definition ltb (a b : t) : bool := match lexicographic (encoded a) (encoded b) with Lt => true | _ => false end.

(** [operator>>]; [None]: it throws. *)
Definition decode (value : list Z) : option t := let to := from_string value in if valid to then Some to else None.
End Text.
End ek_private.

Module ek_public.
Section Text.
Context `{Crypto}.

(** [valid_] and the encrypted public key *)
Record t := mk { valid : bool; public_key : list Z }.

Definition size : nat := encrypted_public_decoded_size.
Definition default : t := mk false (repeat 0 size).
Definition of_value (value : list Z) : t := mk true value.

Definition from_string (encoded : list Z) : t :=
  match decode_base58_array size encoded with
  | Some key => if checksum.verify_checksum key then of_value key else default
  | None => default
  end.

Definition encoded (k : t) : list Z := encode_base58 (public_key k).

Definition eqb (a b : t) : bool := Bool.eqb (valid a) (valid b) && bool_decide (public_key a = public_key b).
Definition ltb (a b : t) : bool := match lexicographic (encoded a) (encoded b) with Lt => true | _ => false end.

(** [operator>>]; [None]: it throws. *)
Definition decode (value : list Z) : option t := let to := from_string value in if valid to then Some to else None.
End Text.
End ek_public.

Module ek_token.
Section Text.
Context `{Crypto}.

(** [valid_] and the token *)
Record t := mk { valid : bool; token : list Z }.

Definition size : nat := encrypted_token_decoded_size.
Definition default : t := mk false (repeat 0 size).
Definition of_value (value : list Z) : t := mk true value.

Definition from_string (encoded : list Z) : t :=
  match decode_base58_array size encoded with
  | Some key => if checksum.verify_checksum key then of_value key else default
  | None => default
  end.

Definition encoded (k : t) : list Z := encode_base58 (token k).

Definition eqb (a b : t) : bool := Bool.eqb (valid a) (valid b) && bool_decide (token a = token b).
Definition ltb (a b : t) : bool := match lexicographic (encoded a) (encoded b) with Lt => true | _ => false end.

(** [operator>>]; [None]: it throws. *)
Definition decode (value : list Z) : option t := let to := from_string value in if valid to then Some to else None.
End Text.
End ek_token.

(** ** Mini keys *)

Module mini_keys.
Section MiniKeys.
Context `{Crypto}.

(** [minikey + "?"] *)
Definition check_minikey (minikey : list Z) : bool :=
  ((length minikey =? 22) || (length minikey =? 30))%nat && (hd 0 (sha256_hash (minikey ++ [63])) =? 0x00).

Definition minikey_to_secret (key : list Z) : option (list Z) :=
  if negb (check_minikey key) then None else Some (sha256_hash key).
End MiniKeys.
End mini_keys.

(** ** What the texts carry *)

Section Texts.
Context `{Crypto}.

(** A key of a size that carries its checksum. *)
Definition checked (size : nat) (key : list Z) : Prop :=
  length key = size /\ bytes_ok key /\ checksum.verify_checksum key = true.

(** Reading a text and writing it, for any size. *)
Lemma checked_text size key :
  checked size key -> decode_base58_array size (encode_base58 key) = Some key /\ checksum.verify_checksum key = true.
Proof. intros (Hl & Hb & Hv). split; [by apply decode_array_encode|done]. Qed.

Lemma text_checked size text key :
  decode_base58_array size text = Some key -> checksum.verify_checksum key = true ->
  checked size key /\ encode_base58 key = c_string text.
Proof.
  intros Hd Hv. destruct (decode_array_length _ _ _ Hd) as [Hl Hb]. split; [done|].
  unfold decode_base58_array in Hd. destruct (decode_base58 (c_string text)) as [b|] eqn:E; [|done].
  apply encode_decode_base58 in E as [E _]. by case_match; [injection Hd as <-|].
Qed.

(** The same for the three types. *)
Lemma private_key_text key :
  checked ek_private.size key ->
  ek_private.from_string (ek_private.encoded (ek_private.of_value key)) = ek_private.of_value key /\
  ek_private.decode (ek_private.encoded (ek_private.of_value key)) = Some (ek_private.of_value key).
Proof.
  intros [E Ev]%checked_text. unfold ek_private.decode, ek_private.from_string, ek_private.encoded.
  cbn [ek_private.private_key ek_private.of_value]. by rewrite E, Ev.
Qed.

Lemma public_key_text key :
  checked ek_public.size key ->
  ek_public.from_string (ek_public.encoded (ek_public.of_value key)) = ek_public.of_value key /\
  ek_public.decode (ek_public.encoded (ek_public.of_value key)) = Some (ek_public.of_value key).
Proof.
  intros [E Ev]%checked_text. unfold ek_public.decode, ek_public.from_string, ek_public.encoded.
  cbn [ek_public.public_key ek_public.of_value]. by rewrite E, Ev.
Qed.

Lemma token_key_text key :
  checked ek_token.size key ->
  ek_token.from_string (ek_token.encoded (ek_token.of_value key)) = ek_token.of_value key /\
  ek_token.decode (ek_token.encoded (ek_token.of_value key)) = Some (ek_token.of_value key).
Proof.
  intros [E Ev]%checked_text. unfold ek_token.decode, ek_token.from_string, ek_token.encoded.
  cbn [ek_token.token ek_token.of_value]. by rewrite E, Ev.
Qed.

Lemma private_decoded text k :
  ek_private.decode text = Some k ->
  k = ek_private.of_value (ek_private.private_key k) /\ checked ek_private.size (ek_private.private_key k) /\
  ek_private.encoded k = c_string text.
Proof.
  unfold ek_private.decode, ek_private.from_string. destruct (decode_base58_array _ _) as [key|] eqn:E; [|done].
  destruct (checksum.verify_checksum key) eqn:Ev; intros [= <-]. split; [done|]. by apply text_checked.
Qed.

Lemma public_decoded text k :
  ek_public.decode text = Some k ->
  k = ek_public.of_value (ek_public.public_key k) /\ checked ek_public.size (ek_public.public_key k) /\
  ek_public.encoded k = c_string text.
Proof.
  unfold ek_public.decode, ek_public.from_string. destruct (decode_base58_array _ _) as [key|] eqn:E; [|done].
  destruct (checksum.verify_checksum key) eqn:Ev; intros [= <-]. split; [done|]. by apply text_checked.
Qed.

Lemma token_decoded text k :
  ek_token.decode text = Some k ->
  k = ek_token.of_value (ek_token.token k) /\ checked ek_token.size (ek_token.token k) /\
  ek_token.encoded k = c_string text.
Proof.
  unfold ek_token.decode, ek_token.from_string. destruct (decode_base58_array _ _) as [key|] eqn:E; [|done].
  destruct (checksum.verify_checksum key) eqn:Ev; intros [= <-]. split; [done|]. by apply text_checked.
Qed.
End Texts.

(** ** Encrypting to a text and decrypting from it *)

Section Encrypted.
Context `{Currency} `{Crypto} `{!checksum.CryptoLaws} `{Secp256k1Laws} `{ScryptLaws} `{NormalForm}.
Variable uninitialized : aes.aes256_context.

(** C23: The text of a secret that is encrypted with a passphrase is read back
    and decrypts with the passphrase to the secret, its address version and
    its compression; and every text that is accepted for an encrypted private
    key is the text of a key of 43 bytes whose checksum holds. *)
Theorem encrypted_text_decrypts secret p passphrase version compressed :
  length secret = 32%nat -> bytes_ok secret -> byte_ok version ->
  secp256k1_ec_pubkey_create secret = Some p ->
  (exists key,
     encrypted_keys.encrypt uninitialized (repeat 0 43) secret passphrase version compressed = returned key /\
     let text := ek_private.encoded (ek_private.of_value key) in
     ek_private.from_string text = ek_private.of_value key /\
     (forall k, ek_private.decode text = Some k ->
        encrypted_keys.decrypt uninitialized (ek_private.private_key k) passphrase =
          returned (secret, version, compressed)) /\
     ek_private.decode text <> None) /\
  (forall text k, ek_private.decode text = Some k ->
     checked ek_private.size (ek_private.private_key k) /\ ek_private.encoded k = c_string text /\
     ek_private.decode (ek_private.encoded k) = Some k).
Proof.
  intros Hl Hb Hv Hp. split.
  - destruct (encrypt_decrypts uninitialized secret p passphrase version compressed Hl Hb Hv Hp)
      as (key & E & Hk & Hkb & Hc & Hd).
    exists key. split; [done|]. cbn zeta.
    destruct (private_key_text key) as [Ef Ed]; [done|]. rewrite Ef, Ed. split_and!; [done| |done].
    by intros k [= <-].
  - intros text k [Ek [Hk Et]]%private_decoded. split_and!; [done|done|].
    rewrite Ek. by apply private_key_text.
Qed.
End Encrypted.
