(* ===== verification/TxFunctions.v ===== *)
(** The wallet's transaction functions: [src/config/output.cpp], the output of a
    transaction from a text, and [src/wallet/transaction_functions.cpp], which
    builds a transaction, signs an input and sets the input's script. *)

From S2P Require Import Prelude Text Limits Endian Reader Writer Binary Codes Operation Script Patterns Chain Radix Base16 Base58 Base10 Compact Data Header Checksum ChainState Transaction Mnemonics Sighash Elliptic Keys Stealth Config.

(** ** Outputs from a text *)

Module config_output.
Section Output.
Context `{Currency} `{Boost} `{Crypto} `{Secp256k1} `{StealthHash}.

Definition minimum_seed_size : Z := 16.

Record t := mk {
  is_stealth : bool;
  amount : Z;
  version : Z;
  target_script : script;
  pay_to_hash : list Z
}.

Definition default : t := mk false 0 0 reset_script (repeat 0 20).

(** [operator>>] of a tuple; [None]: it throws. [cashaddr_prefix] is the value
    of the global prefix. *)
Definition decode (cashaddr_prefix tuple : list Z) : option t :=
  let tokens := Text.split tuple config.delimeter true in
  if (List.length tokens <? 2)%nat || (3 <? List.length tokens)%nat then None
  else
    amount ← config.deserialize 64 (nth 1 tokens []);
    if amount >? max_money true then None
    else
      let target := hd [] tokens in
      payment ← payment_address.from_string cashaddr_prefix target;
      if payment_address.valid payment
      then Some (mk false amount (payment_address.version payment) reset_script (payment_address.hash payment))
      else
        let stealth_ := stealth_address.from_string target in
        if stealth_address.valid stealth_ then
          if negb (List.length (stealth_address.spend_keys stealth_) =? 1)%nat || negb (List.length tokens =? 3)%nat
          then None
          else
            seed ← decode_base16 (nth 2 tokens []);
            if zlen seed <? minimum_seed_size then None
            else
              '(script_, ephemeral_secret) ← stealth.create_stealth_data (stealth_address.filter stealth_) seed;
              stealth_key ← stealth.uncover_public (stealth_address.scan_key stealth_) ephemeral_secret
                              (hd [] (stealth_address.spend_keys stealth_));
              Some (mk true amount (stealth_address.version stealth_) script_ (bitcoin_short_hash stealth_key))
        else
          decoded ← decode_base16 target;
          let script_ := fst (fst (script_from_data false (Istream.mk decoded false false))) in
          Some (mk false amount 0 script_ (repeat 0 20)).

(** [output(tuple)] *)
Definition of_tuple (cashaddr_prefix tuple : list Z) : option t := of_text (decode cashaddr_prefix) tuple.
End Output.
End config_output.

(** ** Transactions *)

Module tx_functions.
Section Functions.
Context `{Currency} `{Boost} `{Crypto} `{Secp256k1} `{StealthHash}.

(** The vectors of a transaction, written through the references that
    [inputs()] and [outputs()] return, which leaves the caches. *)
Definition with_inputs (value : list input) (t : transaction) : transaction :=
  mk_transaction (tx_version t) (tx_locktime t) value (outputs t) (caches t) (unconfirmed t) (validation t).
Definition with_outputs (value : list output) (t : transaction) : transaction :=
  mk_transaction (tx_version t) (tx_locktime t) (inputs t) value (caches t) (unconfirmed t) (validation t).

Definition push_scripts (outs : list output) (o : config_output.t) (script_version : Z) : option (list output) :=
  let no_amount := 0 in
  if negb (config_output.is_stealth o) && script_valid (config_output.target_script o) then
    Some (outs ++ [new_output (config_output.amount o) (copy_script (config_output.target_script o))])
  else
    let hash := config_output.pay_to_hash o in
    if bool_decide (hash = repeat 0 20) then None
    else
      let payment_ops :=
        if negb (config_output.version o =? script_version) then to_pay_key_hash_pattern hash
        else to_pay_script_hash_pattern hash in
      let outs :=
        if config_output.is_stealth o
        then outs ++ [new_output no_amount (copy_script (config_output.target_script o))] else outs in
      Some (outs ++ [new_output (config_output.amount o) (copy_script (from_operations payment_ops))]).

(** A payment address and an amount. *)
Definition raw_output : Type := payment_address.t * Z.

Definition destiny_string (o : raw_output) : list Z := payment_address.encoded (fst o) ++ [58] ++ decimal (snd o).

(** The loop over the destinies: what is pushed, [Some None] if one is refused,
    and [None] if one throws. *)
Fixpoint push_destinies (cashaddr_prefix : list Z) (outs : list output) (destinies : list raw_output)
    (script_version : Z) : option (option (list output)) :=
  match destinies with
  | [] => Some (Some outs)
  | o :: destinies =>
      text ← config_output.of_tuple cashaddr_prefix (destiny_string o);
      match push_scripts outs text script_version with
      | None => Some None
      | Some outs => push_destinies cashaddr_prefix outs destinies script_version
      end
  end.

(** [config::input(const chain::input_point&)] *)
Definition input_of_point (p : point) : input := new_input (new_output_point p) reset_script max_input_sequence.

(** [None]: it throws. *)
Definition tx_encode (cashaddr_prefix : list Z) (outputs_to_spend : list point) (destiny_and_amount : list raw_output)
    (extra_outputs : list output) (locktime version script_version : Z) : option (error.code * transaction) :=
  let tx := set_locktime locktime (set_version version default_transaction) in
  let tx := with_inputs (inputs tx ++ map input_of_point outputs_to_spend) tx in
  pushed ← push_destinies cashaddr_prefix (outputs tx) destiny_and_amount script_version;
  match pushed with
  | None => Some (error.invalid_output, default_transaction)
  | Some outs =>
      let tx := with_outputs (outs ++ extra_outputs) tx in
      if is_locktime_conflict tx then Some (error.lock_time_conflict, default_transaction)
      else Some (error.success, copy_transaction tx)
  end.

(** ** Signatures *)

Definition with_anyone_can_pay (sign_type : Z) (anyone_can_pay : bool) : Z :=
  if anyone_can_pay then Z.lor sign_type sighash_anyone_can_pay else sign_type.

Definition input_signature (v : script_version) (value : Z) (private_key : list Z) (output_script : script)
    (tx : transaction) (index sign_type : Z) (anyone_can_pay : bool) : error.code * list Z :=
  if index >=? zlen (inputs tx) then (error.input_index_out_of_range, [])
  else
    let sign_type := with_anyone_can_pay sign_type anyone_can_pay in
    match elliptic_curve.create_endorsement private_key output_script tx (Z.to_nat index) sign_type v value with
    | None => (error.input_sign_failed, [])
    | Some endorse => (error.success, endorse)
    end.

(** The defaults of [create_endorsement] are no version and [max_uint64]. *)
Definition input_signature_old (private_key : list Z) (output_script : script) (tx : transaction) (index sign_type : Z)
    (anyone_can_pay : bool) : error.code * list Z :=
  input_signature unversioned max_uint64 private_key output_script tx index sign_type anyone_can_pay.

Definition input_signature_btc (private_key : list Z) (output_script : script) (tx : transaction) (amount index : Z)
    (sign_type : Z) (anyone_can_pay : bool) : error.code * list Z :=
  input_signature zero amount private_key output_script tx index sign_type anyone_can_pay.

Definition input_signature_bch (private_key : list Z) (output_script : script) (tx : transaction) (amount index : Z)
    (sign_type : Z) (anyone_can_pay : bool) : error.code * list Z :=
  input_signature_btc private_key output_script tx amount index (Z.lor sign_type 0x40) anyone_can_pay.

(** [input_set] of a script *)
Definition input_set_script (s : script) (raw_tx : transaction) (index : Z) : error.code * transaction :=
  if index >=? zlen (inputs raw_tx) then (error.input_index_out_of_range, default_transaction)
  else
    let tx_out := copy_transaction raw_tx in
    let i := nth (Z.to_nat index) (inputs tx_out) default_input in
    (error.success,
     copy_transaction (with_inputs (<[Z.to_nat index := Chain.input_set_script s i]> (inputs tx_out)) tx_out)).

Definition signed_text (signature : list Z) (public_key : ec_public.t) : list Z :=
  [91] ++ encode_base16 signature ++ chars "] [" ++ ec_public.encoded public_key ++ [93].

(** [input_set] of a signature and a public key; [None]: it throws. *)
Definition input_set (signature : list Z) (public_key : ec_public.t) (raw_tx : transaction) (index : Z) :
    option (error.code * transaction) :=
  s ← config.decode_script (signed_text signature public_key);
  Some (input_set_script s raw_tx index).
End Functions.
End tx_functions.
