(* ===== verification/TxFunctionRules.v ===== *)
(** What the wallet's transaction functions guarantee: the transaction that
    [tx_encode] builds, and that an input signed for a pay to key hash output
    satisfies the script of that output. *)

From S2P Require Import Prelude Text Limits Endian Reader Writer Binary Codes Number Operation Script Patterns Chain Radix Base16 Base58 Base10 Compact Data Header Checksum ChainState Transaction TxCodec TxRules Mnemonics Sighash Elliptic Keys KeyRules Stealth Config ConfigRules TxFunctions Program Interpreter InterpRules.

Import tx_functions.

(** ** Destinies *)

Lemma encode_base58_chars (f : Z -> bool) d :
  bytes_ok d -> forallb f base58_chars = true -> Forall (fun c => f c = true) (encode_base58 d).
Proof.
  intros Hd Hf. assert (Hb : is_base58 (encode_base58 d) = true).
  { apply not_false_iff_true. rewrite <- decode_base58_none, decode_encode_base58 by done. done. }
  apply Forall_forall. intros c Hc. unfold is_base58 in Hb. rewrite forallb_forall in Hb.
  apply list_elem_of_In in Hc. specialize (Hb c Hc). unfold is_base58_char in Hb. apply existsb_exists in Hb as (x & Hx & E).
  apply Z.eqb_eq in E. subst x. rewrite forallb_forall in Hf. by apply Hf.
Qed.

Section Rules.
Context `{Currency} `{BoostLaws} `{Crypto} `{!checksum.CryptoLaws} `{Secp256k1} `{StealthHash}.

Lemma address_text a :
  address_ok a ->
  payment_address.encoded a <> [] /\ plain (payment_address.encoded a) /\
  Forall (fun c => c <> 58) (payment_address.encoded a).
Proof.
  intros (Hv & Hver & Hl & Hb). unfold payment_address.encoded. rewrite checksum.wrap_eq.
  set (d := checksum.append_checksum _). assert (Hd : bytes_ok d).
  { apply append_checksum_bytes. by apply bytes_ok_cons. }
  split_and!.
  - intros E. pose proof (decode_encode_base58 d Hd) as Hdec. rewrite E in Hdec.
    change (decode_base58 []) with (Some (@nil Z)) in Hdec. injection Hdec as Hdec. apply (f_equal (@length Z)) in Hdec.
    revert Hdec. unfold d. rewrite checksum.append_checksum_length. simpl. lia.
  - eapply Forall_impl; [apply (encode_base58_chars (fun c => negb (is_space c))); [done|by vm_compute]|].
    intros c. cbv beta. apply negb_true_iff.
  - eapply Forall_impl; [apply (encode_base58_chars (fun c => negb (c =? 58))); [done|by vm_compute]|].
    intros c. cbv beta. rewrite negb_true_iff. lia.
Qed.

(** A destiny is read back as its address and its amount, and refused if the
    amount is more than the money there is. *)
Lemma destiny_decoded prefix a v :
  address_ok a -> in_width 64 v ->
  config_output.of_tuple prefix (destiny_string (a, v)) =
  if v >? max_money true then None
  else Some (config_output.mk false v (payment_address.version a) reset_script (payment_address.hash a)).
Proof.
  intros Ha Hv. destruct (address_text a Ha) as (Hne & Hp & Hc). unfold config_output.of_tuple, destiny_string. cbn [fst snd].
  rewrite of_text_plain.
  2:{ apply plain_app. split; [done|]. apply plain_app. split; [by repeat constructor|apply decimal_plain]. }
  unfold config_output.decode.
  change (payment_address.encoded a ++ [58] ++ decimal v) with (join [payment_address.encoded a; decimal v] config.delimeter).
  rewrite split_colons.
  - cbn [length nth hd]. change ((2 <? 2)%nat || (3 <? 2)%nat) with false. cbv iota.
    rewrite decimal_deserialize by (done || unfold in_width in Hv; lia). cbn [mbind option_bind].
    case_match; [done|]. rewrite from_string_encoded by done. cbn [mbind option_bind]. by rewrite (proj1 Ha).
  - done.
  - repeat apply Forall_cons_2; [| |constructor].
    + by split_and!.
    + split_and!; [apply decimal_nonnil|apply decimal_plain|apply decimal_colon].
Qed.

(** ** Building *)

(** What can be paid: an address whose hash is not null, and an amount of
    money. *)
Definition destiny_ok (o : raw_output) : Prop :=
  address_ok (fst o) /\ 0 <= snd o <= max_money true /\ payment_address.hash (fst o) <> repeat 0 20.

Definition destiny_output (script_version : Z) (o : raw_output) : output :=
  let hash := payment_address.hash (fst o) in
  new_output (snd o) (copy_script (from_operations
    (if payment_address.version (fst o) =? script_version then to_pay_script_hash_pattern hash
     else to_pay_key_hash_pattern hash))).

Lemma push_destinies_cons prefix outs o destinies script_version :
  destiny_ok o ->
  push_destinies prefix outs (o :: destinies) script_version =
  push_destinies prefix (outs ++ [destiny_output script_version o]) destinies script_version.
Proof.
  destruct o as [a v]. intros (Ha & Hv & Hh). cbn [push_destinies fst snd] in *.
  destruct (max_money_exact true) as [_ Hmax]. rewrite destiny_decoded by (done || unfold in_width; lia).
  destruct (Z.gtb_spec v (max_money true)); [lia|]. cbn [mbind option_bind]. unfold push_scripts.
  cbn [config_output.is_stealth config_output.target_script config_output.pay_to_hash config_output.version
    config_output.amount script_valid reset_script negb andb].
  rewrite bool_decide_eq_false_2 by done. cbv zeta. do 3 f_equal. unfold destiny_output. cbn [fst snd].
  by destruct (_ =? script_version).
Qed.

Lemma push_destinies_ok prefix outs destinies script_version :
  Forall destiny_ok destinies ->
  push_destinies prefix outs destinies script_version =
  Some (Some (outs ++ map (destiny_output script_version) destinies)).
Proof.
  intros Hd. revert outs. induction Hd as [|o destinies Ho _ IH]; intros outs.
  { cbn [push_destinies map]. by rewrite app_nil_r. }
  rewrite push_destinies_cons by done. rewrite IH. cbn [map]. by rewrite <- app_assoc.
Qed.

(** A difference of amounts that wrapped is more than the money there is. *)
Lemma push_destinies_wrapped prefix outs destinies a v script_version :
  Forall destiny_ok destinies -> address_ok a -> - 2 ^ 63 <= v < 0 ->
  push_destinies prefix outs (destinies ++ [(a, u64 v)]) script_version = None.
Proof.
  intros Hd Ha Hv. revert outs. induction Hd as [|o destinies Ho _ IH]; intros outs; cbn [app].
  - cbn [push_destinies]. destruct (max_money_exact true) as [_ Hmax]. unfold u64, wrap.
    rewrite <- (Z_mod_plus_full v 1), Z.mod_small by lia.
    rewrite destiny_decoded by (done || unfold in_width; lia). by destruct (Z.gtb_spec (v + 1 * 2 ^ 64) (max_money true)); [|lia].
  - rewrite push_destinies_cons by done. apply IH.
Qed.

Lemma tx_encode_wrapped prefix points destinies a v extra locktime version script_version :
  Forall destiny_ok destinies -> address_ok a -> - 2 ^ 63 <= v < 0 ->
  tx_encode prefix points (destinies ++ [(a, u64 v)]) extra locktime version script_version = None.
Proof. intros Hd Ha Hv. unfold tx_encode. by rewrite push_destinies_wrapped. Qed.

Lemma tx_encode_built prefix points destinies extra locktime version script_version :
  Forall destiny_ok destinies ->
  tx_encode prefix points destinies extra locktime version script_version =
  Some (if locktime =? 0
        then (error.success, new_transaction version 0 (map input_of_point points)
                               (map (destiny_output script_version) destinies ++ extra))
        else (error.lock_time_conflict, default_transaction)).
Proof.
  intros Hd. unfold tx_encode. rewrite push_destinies_ok by done. cbn [mbind option_bind].
  assert (Hf : forall l, forallb is_final_input (map input_of_point l) = true) by (intros l; by induction l).
  unfold is_locktime_conflict, all_inputs_final.
  cbn [tx_locktime inputs with_outputs with_inputs set_locktime set_version default_transaction new_transaction app].
  rewrite Hf, andb_true_r. destruct (Z.eqb_spec locktime 0) as [->|]; done.
Qed.

(** The transaction built for payable destinies spends the points given with
    the final sequence and pays, in order, the destinies and then the other
    outputs; the address of a destiny is extracted from its output; and a lock
    time that is not zero is always refused, as every sequence is final. *)
Lemma tx_encode_spec prefix points destinies extra locktime version script_version :
  Forall destiny_ok destinies ->
  tx_encode prefix points destinies extra locktime version script_version =
  Some (if locktime =? 0
        then (error.success, new_transaction version 0 (map input_of_point points)
                               (map (destiny_output script_version) destinies ++ extra))
        else (error.lock_time_conflict, default_transaction)) /\
  Forall (fun o => payment_address.extract_output (out_script (destiny_output script_version o))
                     (payment_address.version (fst o)) script_version = [fst o]) destinies.
Proof.
  intros Hd. split; [by apply tx_encode_built|].
  eapply Forall_impl; [exact Hd|]. intros [a v] ((Hval & Hver & Hl & Hb) & Hv & Hh). cbn [fst snd] in *.
  unfold destiny_output. cbn [fst snd new_output out_script].
  destruct (Z.eqb_spec (payment_address.version a) script_version) as [<-|E];
    rewrite ?extract_script_hash, ?extract_key_hash by done; by rewrite address_eta.
Qed.
End Rules.

(** ** Endorsements are not deleted from a pay to key hash script *)

Section Deletion.
Context `{Currency}.

Lemma operation_size_exact op : operation_wf op -> Z.to_nat (operation_serialized_size op) = length (operation_to_data op).
Proof.
  intros _. unfold operation_serialized_size, operation_to_data, write_bytes.
  repeat case_if; rewrite !length_app, ?length_to_little_endian; unfold write_byte, write_2_bytes_little_endian,
    write_4_bytes_little_endian; rewrite ?length_to_little_endian; simpl length; unfold zlen; lia.
Qed.

(** A value that no suffix of the operations starts with is not found. *)
Lemma find_loop_suffixes fuel ops bs value it found :
  Forall operation_wf ops -> drop it bs = operations_to_data ops ->
  (forall k, Script.starts_with (operations_to_data (drop k ops)) value = false) ->
  find_loop fuel bs value it found (Istream.mk (operations_to_data ops) false false) = found.
Proof.
  intros Hops. revert fuel it. induction Hops as [|op ops Hop Hops IH]; intros fuel it Hd Hs; (destruct fuel as [|fuel]; [done|]).
  - cbn [find_loop]. change (Istream.mk (operations_to_data []) false false) with (rd_at (R := Istream.t) []).
    destruct rd_is_exhausted_nil as [He _]. destruct (rd_is_exhausted (rd_at [])) as [[] r]; done.
  - assert (E : operations_to_data (op :: ops) = operation_to_data op ++ operations_to_data ops) by done.
    pose proof (bytes_ok_operation op Hop) as Hb. pose proof (operation_to_data_nonempty op) as Hne.
    pose proof (Hs 0%nat) as H0. rewrite drop_0 in H0. rewrite E in *. cbn [find_loop].
    assert (Hex : rd_is_exhausted (Istream.mk (operation_to_data op ++ operations_to_data ops) false false) =
                  (false, Istream.mk (operation_to_data op ++ operations_to_data ops) false false)).
    { destruct (operation_to_data op) as [|b l]; [simpl in Hne; lia|]. apply bytes_ok_cons in Hb as [Hb _].
      exact (rd_is_exhausted_cons (R := Istream.t) b (l ++ operations_to_data ops) Hb). }
    rewrite Hex. cbn [found_loop]. rewrite Hd, H0.
    pose proof (operation_reads (R := Istream.t) op Hop (operations_to_data ops)) as Hr.
    change (rd_at (R := Istream.t) ?l) with (Istream.mk l false false) in Hr. rewrite Hr.
    change (rd_valid _) with true. cbv iota. apply IH.
    + rewrite operation_size_exact by done. rewrite <- drop_drop, Hd. by apply drop_app_length'.
    + intros k. apply (Hs (S k)).
Qed.

Lemma push_endorsement e :
  9 <= zlen e <= 73 -> operation_to_data (op_of_data e false) = zlen e :: e.
Proof.
  intros He. unfold op_of_data, is_oversized, max_push_data_size. destruct (Z.gtb_spec (zlen e) 520); [lia|].
  cbn [negb andb]. unfold opcode_from_data, nominal_opcode_from_data, opcode_from_size, opcode.push_size_75.
  destruct (Z.leb_spec (zlen e) 75); [|lia]. unfold operation_to_data, write_bytes, write_byte. cbn [code op_data].
  unfold opcode.push_one_size, opcode.push_two_size, opcode.push_four_size.
  repeat (case_if; [bool_to_prop; lia|]). cbn [app]. f_equal. unfold u8. apply wrap_small. unfold in_width. lia.
Qed.

Lemma starts_with_head b l c v : b <> c -> Script.starts_with (b :: l) (c :: v) = false.
Proof.
  intros Hbc. unfold Script.starts_with. rewrite bool_decide_eq_false_2; [by rewrite andb_false_r|]. cbn [length take]. congruence.
Qed.

Lemma key_hash_delete s h e :
  key_hash_script s h -> bytes_ok h -> zlen h = 20 -> 9 <= zlen e <= 73 -> e <> h ->
  find_and_delete_ e (bytes s) = bytes s.
Proof.
  intros [_ ->] Hb Hz He Hne. unfold find_and_delete_. destruct e as [|x e']; [done|]. set (e := x :: e') in *. clearbody e. clear x e'.
  rewrite push_endorsement by done. rewrite find_loop_suffixes; [done| | |].
  - apply hash_ops_wf; [done|]. unfold zlen in Hz. lia.
  - by rewrite drop_0.
  - unfold to_pay_key_hash_pattern. rewrite op_of_hash by done.
    destruct k as [|[|[|[|[|k]]]]]; cbn [drop].
    + apply starts_with_head. change (u8 118 <> zlen e). change (u8 118) with 118. lia.
    + apply starts_with_head. change (u8 169 <> zlen e). change (u8 169) with 169. lia.
    + destruct (decide (zlen e = 20)) as [E|E]; [|apply starts_with_head; change (u8 20 <> zlen e); change (u8 20) with 20; lia].
      unfold Script.starts_with. rewrite bool_decide_eq_false_2; [by rewrite andb_false_r|]. intros Ht. apply Hne.
      change (operations_to_data _) with (20 :: h ++ [136; 172]) in Ht. cbn [length take] in Ht. injection Ht as _ Ht.
      rewrite take_app_length' in Ht by (unfold zlen in *; lia). done.
    + apply starts_with_head. change (u8 136 <> zlen e). change (u8 136) with 136. lia.
    + apply starts_with_head. change (u8 172 <> zlen e). change (u8 172) with 172. lia.
    + rewrite drop_nil. unfold Script.starts_with. cbn [operations_to_data concat map]. change (zlen []) with 0.
      destruct (Z.geb_spec 0 (zlen (zlen e :: e))) as [Hg|]; [|done]. unfold zlen in Hg. cbn [length] in Hg. lia.
Qed.
End Deletion.

(** ** A signed input satisfies its script *)

Section Signing.
Context `{Currency} `{BoostLaws} `{Crypto} `{!checksum.CryptoLaws} `{Secp256k1Laws} `{StealthHash}.

Lemma map_insert_same {A B} (f : A -> B) (l : list A) (i : nat) (x y : A) :
  l !! i = Some x -> f y = f x -> map f (<[i := y]> l) = map f l.
Proof.
  intros Hx Hy. change (f <$> <[i := y]> l = f <$> l). rewrite list_fmap_insert, Hy. apply list_insert_id.
  by rewrite list_lookup_fmap, Hx.
Qed.

(** The digest that is signed depends on the operations of the script and not
    on the scripts of the inputs. *)
Lemma unversioned_same tx tx' i s s' ty :
  tx_version tx' = tx_version tx -> tx_locktime tx' = tx_locktime tx -> outputs tx' = outputs tx ->
  map (fun x => (previous_output x, sequence x)) (inputs tx') = map (fun x => (previous_output x, sequence x)) (inputs tx) ->
  operations s' = operations s ->
  generate_unversioned_signature_hash tx' i s' ty = generate_unversioned_signature_hash tx i s ty.
Proof.
  intros Hv Hl Ho Hi Hs.
  assert (Hlen : length (inputs tx') = length (inputs tx)) by (apply (f_equal (@length _)) in Hi; by rewrite !length_map in Hi).
  assert (Hsign : forall any keep sc, sign_inputs any keep tx' i sc = sign_inputs any keep tx i sc).
  { intros any keep sc. unfold sign_inputs.
    assert (Hnth : (fun x => (previous_output x, sequence x)) <$> inputs tx' !! i =
                   (fun x => (previous_output x, sequence x)) <$> inputs tx !! i) by by (rewrite <- !list_lookup_fmap; by apply (f_equal (fun l => l !! i)) in Hi).
    destruct (inputs tx' !! i) as [a|], (inputs tx !! i) as [b|]; try done. cbn [fmap option_fmap option_map] in Hnth.
    injection Hnth as Hp Hq. rewrite Hp, Hq. destruct any; [done|]. f_equal.
    apply (f_equal (map (fun x => new_input (fst x) reset_script (if keep then snd x else 0)))) in Hi.
    by rewrite !map_map in Hi. }
  unfold generate_unversioned_signature_hash, strip_code_seperators, sign_none, sign_single, sign_all.
  rewrite Hlen, Ho, Hs, Hv, Hl, !Hsign. done.
Qed.

(** The input script that [input_set] makes. *)
Definition signed_ops (sig key : list Z) : list operation :=
  [mk_operation (zlen sig) sig true; mk_operation (zlen key) key true].

Lemma push_wf d : bytes_ok d -> 2 <= zlen d <= 75 ->
  operation_wf (mk_operation (zlen d) d true) /\ op_of_data d true = mk_operation (zlen d) d true.
Proof.
  intros Hb Hd. assert (E : op_of_data d true = mk_operation (zlen d) d true).
  { destruct (op_of_data_payload d) as [-> _]; [unfold max_push_data_size; lia|].
    unfold opcode_from_size, opcode.push_size_75. by destruct (Z.leb_spec (zlen d) 75); [|lia]. }
  split; [|done]. rewrite <- E. apply op_of_data_wf; [done|unfold max_push_data_size; lia].
Qed.

Lemma push_text d : 2 <= zlen d <= 75 ->
  forall forks, operation_to_string forks (mk_operation (zlen d) d true) = chars "[" ++ encode_base16 d ++ chars "]".
Proof.
  intros Hd forks. unfold operation_to_string, opcode_to_prefix. cbn [op_valid op_data code negb].
  destruct (Nat.eqb_spec (length d) 0); [unfold zlen in Hd; lia|].
  unfold opcode_from_size, opcode.push_size_75. destruct (Z.leb_spec (zlen d) 75); [|lia]. by rewrite Z.eqb_refl.
Qed.

Lemma signed_script sig key a :
  bytes_ok sig -> bytes_ok key -> 2 <= zlen sig <= 75 -> 2 <= zlen key <= 75 -> ec_public.encoded a = encode_base16 key ->
  config.decode_script (signed_text sig a) = Some (from_operations (signed_ops sig key)).
Proof.
  intros Hbs Hbk Hs Hk Ha. unfold config.decode_script.
  assert (E : signed_text sig a = script_to_string 0 (from_operations (signed_ops sig key))).
  { unfold signed_text, script_to_string, signed_ops. cbn [operations from_operations ops_cache map].
    rewrite !push_text by done. rewrite Ha. cbn [join]. rewrite <- !app_assoc. reflexivity. }
  assert (Ht : trim_copy (signed_text sig a) = signed_text sig a).
  { apply trim_copy_id; [done|]. unfold signed_text. rewrite !app_assoc, last_last. done. }
  rewrite Ht, E, script_text_parsed.
  - done.
  - cbn [operations from_operations ops_cache]. apply Forall_cons_2; [by apply push_wf|].
    apply Forall_cons_2; [by apply push_wf|constructor].
Qed.

Lemma public_text a p :
  ec_public.valid a = true -> ec_public.point a = secp256k1_ec_pubkey_serialize true p ->
  ec_public.encoded a = encode_base16 (secp256k1_ec_pubkey_serialize (ec_public.compress a) p).
Proof.
  intros Hv Hp. unfold ec_public.encoded. destruct (ec_public.compress a); [by rewrite Hp|].
  unfold ec_public.to_uncompressed. by rewrite Hv, Hp, decompress_compressed.
Qed.

(** The two pushes run to a stack of the key over the endorsement. *)
Lemma signed_run sig key sc tx i forks :
  operations sc = signed_ops sig key -> bytes sc = operations_to_data (signed_ops sig key) ->
  2 <= zlen sig <= 75 -> 2 <= zlen key <= 75 ->
  evaluate (input_program sc tx i forks) =
  (error.success, mk_program sc tx i forks max_uint64 unversioned 0 0 0 [key; sig] [] []).
Proof.
  intros Ho Hb Hs Hk. unfold evaluate.
  assert (Hv : program_is_valid (input_program sc tx i forks) = true).
  { unfold program_is_valid, is_valid_operations, is_unspendable, script_serialized_size. cbn [p_script input_program].
    rewrite Ho, Hb. cbn [signed_ops List.last op_valid andb negb length code].
    unfold opcode.return_. destruct (Z.eqb_spec (zlen sig) 106); [lia|]. cbn [negb Nat.eqb orb andb].
    apply negb_true_iff. rewrite Z.gtb_ltb. apply Z.ltb_ge.
    assert (E : zlen (operations_to_data (signed_ops sig key)) = 2 + zlen sig + zlen key).
    { unfold operations_to_data, signed_ops. cbn [concat map]. rewrite app_nil_r, zlen_app.
      unfold operation_to_data, opcode.push_one_size, opcode.push_two_size, opcode.push_four_size, write_bytes, write_byte.
      cbn [code op_data]. repeat (case_if; [bool_to_prop; lia|]). unfold zlen. rewrite !length_app. simpl length. lia. }
    rewrite E. unfold max_script_size. lia. }
  rewrite Hv. cbn [negb p_script input_program]. rewrite Ho. unfold signed_ops.
  assert (Hstep : forall k d ops l, 2 <= zlen d <= 75 -> zlen l <= 1 ->
    run_loop k (mk_operation (zlen d) d true :: ops) (mk_program sc tx i forks max_uint64 unversioned 0 0 0 l [] []) =
    run_loop (S k) ops (mk_program sc tx i forks max_uint64 unversioned 0 0 0 (d :: l) [] [])).
  { intros k d ops l Hd Hl.
    assert (Hc : is_counted (zlen d) = false) by (unfold is_counted, opcode.nop; rewrite Z.geb_leb; apply Z.leb_gt; lia).
    erewrite run_loop_op; [by apply decide_True| | |done|done| |].
    - unfold is_oversized, max_push_data_size. cbn [op_data]. rewrite Z.gtb_ltb. apply Z.ltb_ge. lia.
    - cbn [code]. unfold is_disabled. apply not_true_iff_false. intros Hx. apply existsb_exists in Hx as (c & Hin & E).
      apply Z.eqb_eq in E. subst c. revert Hin. cbn [In].
      unfold opcode.disabled_cat, opcode.disabled_substr, opcode.disabled_left, opcode.disabled_right, opcode.disabled_invert,
        opcode.disabled_and, opcode.disabled_or, opcode.disabled_xor, opcode.disabled_mul2, opcode.disabled_div2,
        opcode.disabled_mul, opcode.disabled_div, opcode.disabled_mod, opcode.disabled_lshift, opcode.disabled_rshift,
        opcode.disabled_verif, opcode.disabled_vernotif. lia.
    - unfold increment_operation_count. cbn [code]. rewrite Hc. cbn [snd]. unfold run_op, opcode.push_size_75. cbn [code].
      destruct (Z.leb_spec (zlen d) 75); [|lia]. unfold op_push_size, opcode.push_size_75. cbn [op_data].
      destruct (Z.gtb_spec (zlen d) 75); [lia|]. reflexivity.
    - unfold stacks, size, max_stack_size, zlen in *. simpl. lia. }
  unfold input_program. rewrite Hstep by (done || by vm_compute). rewrite Hstep by (done || by vm_compute). reflexivity.
Qed.

(** C22: An input with no witness that spends a pay to key hash output, signed
    with the secret of the key by [input_signature_old] and set by
    [input_set], satisfies the script of the output under any rules, for
    either form of the key and any signature hash type, provided that the
    endorsement is not the very bytes of the key hash. *)
Theorem signed_input_verifies secret p a tx index x ty forks :
  let key := secp256k1_ec_pubkey_serialize (ec_public.compress a) p in
  let s := out_script (prevout_cache (previous_output x)) in
  secp256k1_ec_pubkey_create secret = Some p ->
  ec_public.valid a = true -> ec_public.point a = secp256k1_ec_pubkey_serialize true p ->
  0 <= index -> inputs tx !! Z.to_nat index = Some x ->
  key_hash_script s (key_hash key) -> witness_is_empty (in_witness x) = true -> byte_ok ty ->
  snd (input_signature_old secret s tx index ty false) <> key_hash key ->
  exists sig tx',
    input_signature_old secret s tx index ty false = (error.success, sig) /\
    input_set sig a tx index = Some (error.success, tx') /\
    verify_input tx' (Z.to_nat index) forks = error.success.
Proof.
  intros key s Hp Hv Hpt Hi Hx Hs Hw Hty Hne. set (i := Z.to_nat index) in *.
  destruct (endorsement_verifies secret p (ec_public.compress a) s tx i ty unversioned max_uint64 Hp)
    as (out & signature & Hc & Hb & He & Hparse & Hcheck). fold key in Hcheck.
  assert (Hlt : index >=? zlen (inputs tx) = false).
  { apply lookup_lt_Some in Hx. unfold zlen. rewrite Z.geb_leb. apply Z.leb_gt. unfold i in Hx. lia. }
  assert (Hsig : input_signature_old secret s tx index ty false = (error.success, out ++ [ty])).
  { unfold input_signature_old, input_signature, with_anyone_can_pay. rewrite Hlt. fold i. by rewrite Hc. }
  rewrite Hsig in Hne. cbn [snd] in Hne. set (sig := out ++ [ty]) in *.
  assert (Hsize : 9 <= zlen sig <= 73).
  { unfold is_endorsement in He. apply andb_true_iff in He as [Hlo Hhi]. rewrite Z.geb_le in Hlo. rewrite Z.leb_le in Hhi. done. }
  assert (Hbs : bytes_ok sig) by (apply bytes_ok_app; split; [done|by apply Forall_cons_2; [|constructor]]).
  assert (Hbk : bytes_ok key) by apply serialize_bytes.
  assert (Hk : 33 <= zlen key <= 65) by (unfold zlen, key; rewrite serialize_length; by destruct (ec_public.compress a)).
  assert (Hh : zlen (key_hash key) = 20 /\ bytes_ok (key_hash key)).
  { unfold key_hash, zlen. rewrite checksum.ripemd160_hash_length. split; [done|]. apply checksum.ripemd160_hash_bytes. }
  set (ops := signed_ops sig key). set (sc := copy_script (from_operations ops)).
  assert (Hops : operations sc = ops).
  { unfold sc. apply copy_from_operations. unfold ops. apply Forall_cons_2; [apply push_wf; [done|lia]|].
    apply Forall_cons_2; [apply push_wf; [done|lia]|constructor]. }
  set (tx' := copy_transaction (with_inputs (<[i := Chain.input_set_script (from_operations ops) x]> (inputs tx)) tx)).
  exists sig, tx'. split; [done|]. split.
  { unfold input_set. rewrite (signed_script sig key) by (done || lia || by apply public_text). cbn [mbind option_bind].
    unfold input_set_script. rewrite Hlt. fold i. cbn [copy_transaction inputs].
    by rewrite (nth_lookup_Some _ _ default_input x) by done. }
  assert (Hx' : inputs tx' !! i = Some (Chain.input_set_script (from_operations ops) x)).
  { cbn [tx' copy_transaction with_inputs inputs]. apply list_lookup_insert_eq. by apply lookup_lt_Some in Hx. }
  unfold verify_input. rewrite Hx'. apply verify_success.
  change (previous_output (Chain.input_set_script _ x)) with (previous_output x). fold s.
  change (in_script (Chain.input_set_script _ x)) with sc. change (in_witness (Chain.input_set_script _ x)) with (in_witness x).
  assert (Hpat : is_pay_to_witness forks s = false /\ is_pay_to_script_hash forks s = false).
  { destruct Hs as [Ho _]. unfold is_pay_to_witness, is_pay_to_script_hash. rewrite Ho. split; apply andb_false_r. }
  set (inp := mk_program sc tx' i forks max_uint64 unversioned 0 0 0 [key; sig] [] []).
  assert (Hrun : evaluate (input_program sc tx' i forks) = (error.success, inp)).
  { apply (signed_run sig key); [done|done|lia|lia]. }
  set (signing := key_hash_state s 4 [] (next_program s inp)).
  assert (Hsigned : parse_signed signing sig = inr (ty, signature)).
  { unfold parse_signed, parse_endorsement. destruct sig eqn:Es; [unfold zlen in Hsize; simpl in Hsize; lia|]. rewrite <- Es.
    unfold sig. rewrite last_last, removelast_last. change (Sighash.parse_signature out ?b) with (elliptic_curve.parse_signature out b). by rewrite Hparse. }
  assert (Hver : signature_version signing = unversioned) by (unfold signature_version; by case_if).
  assert (Hkey : check_key signing (script_code_of signing [sig]) (ty, signature) key = true).
  { unfold check_key. rewrite Hver. cbn [fst snd]. rewrite <- Hcheck. unfold check_signature. destruct key as [|kb key'] eqn:Ek; [done|].
    f_equal. unfold generate_signature_hash. symmetry. apply unversioned_same.
    all: cbn [signing key_hash_state p_transaction next_program inp tx' copy_transaction with_inputs tx_version tx_locktime outputs inputs].
    all: try done.
    - symmetry. by apply (map_insert_same _ _ _ x).
    - unfold script_code_of. rewrite andb_comm, bool_decide_eq_false_2 by done. cbn [andb negb].
      change (subscript signing) with (operations s). destruct Hs as [Ho Hbytes]. rewrite Ho.
      unfold find_and_delete. cbn [fold_left].
      rewrite (key_hash_delete (from_operations (to_pay_key_hash_pattern (key_hash (kb :: key')))) (key_hash (kb :: key')));
        [|by split|apply Hh|apply Hh|lia|done].
      symmetry. apply operations_of_to_data. apply hash_ops_wf; [apply Hh|]. destruct Hh as [Hz _]. unfold zlen in Hz. lia. }
  exists inp, (push true signing). split; [exact Hrun|]. rewrite (proj1 Hpat), (proj2 Hpat). split; [|done]. split; [|done].
  change (next_program s inp) with (key_hash_state s 0 [key; sig] (next_program s inp)).
  rewrite (key_hash_match s (key_hash key) Hs) by (apply Hh || by vm_compute || done).
  rewrite op_check_sig_signing. fold signing. rewrite Hsigned, Hkey. done.
Qed.
End Signing.
