(* ===== verification/Subscribers.v ===== *)
(** Notification: [subscriber] and [resubscriber] of [impl/utility]. Their
    methods are run by many threads; what a method does under a mutex is one
    step, and the steps of the threads interleave. *)

From S2P Require Import Prelude.

(** The steps that a machine can take. *)
Inductive reachable {M} (step : M -> M -> Prop) (init : M) : M -> Prop :=
| reachable_init : reachable step init init
| reachable_step m m' : reachable step init m -> step m m' -> reachable step init m'.

(** ** Subscribers: a handler is called once *)

Module subscriber.
Section Subscriber.
Context {handler args : Type}.

Record t := mk { stopped : bool; subscriptions : list handler }.

Definition construct : t := mk true [].

(** Under [subscribe_mutex_] *)
Definition start (s : t) : t := if stopped s then mk false (subscriptions s) else s.
Definition stop (s : t) : t := if negb (stopped s) then mk true (subscriptions s) else s.

(** [subscribe]: the handler is kept, or it is to be notified after the mutex is
    released. *)
Definition subscribe (notify : handler) (s : t) : t * bool :=
  if negb (stopped s) then (mk (stopped s) (subscriptions s ++ [notify]), false) else (s, true).

(** The swap of [do_invoke] *)
Definition take_subscriptions (s : t) : t * list handler := (mk (stopped s) [], subscriptions s).

(** The subscriber with the thread that holds [invoke_mutex_], if there is one:
    the arguments it passes and the handlers it has not called. The rest is
    history: the handlers that were kept, and the calls made by [subscribe] and
    by [do_invoke]. *)
Record machine := mk_machine {
  self : t;
  invoking : option (args * list handler);
  accepted : list handler;
  refused : list (handler * args);
  called : list (handler * args)
}.

Definition init : machine := mk_machine construct None [] [] [].

Inductive step : machine -> machine -> Prop :=
| step_start m :
    step m (mk_machine (start (self m)) (invoking m) (accepted m) (refused m) (called m))
| step_stop m :
    step m (mk_machine (stop (self m)) (invoking m) (accepted m) (refused m) (called m))
| step_subscribe m notify s :
    subscribe notify (self m) = (s, false) ->
    step m (mk_machine s (invoking m) (accepted m ++ [notify]) (refused m) (called m))
| step_refuse m notify stopped_args s :
    subscribe notify (self m) = (s, true) ->
    step m (mk_machine s (invoking m) (accepted m) (refused m ++ [(notify, stopped_args)]) (called m))
| step_invoke m a s handlers :
    invoking m = None -> take_subscriptions (self m) = (s, handlers) ->
    step m (mk_machine s (Some (a, handlers)) (accepted m) (refused m) (called m))
| step_call m a h handlers :
    invoking m = Some (a, h :: handlers) ->
    step m (mk_machine (self m) (Some (a, handlers)) (accepted m) (refused m) (called m ++ [(h, a)]))
| step_return m a :
    invoking m = Some (a, []) ->
    step m (mk_machine (self m) None (accepted m) (refused m) (called m)).

(** The handlers that the current invocation will call. *)
Definition remaining (m : machine) : list handler := match invoking m with Some (_, handlers) => handlers | None => [] end.

Definition delivered_in_order (m : machine) : Prop :=
  accepted m = map fst (called m) ++ remaining m ++ subscriptions (self m).

Lemma step_delivered m m' : step m m' -> delivered_in_order m -> delivered_in_order m'.
Proof.
  unfold delivered_in_order, remaining. intros Hs. destruct Hs; cbn [self invoking accepted called]; intros ->.
  - unfold start. by destruct (stopped (self m)).
  - unfold stop. by destruct (negb (stopped (self m))).
  - revert H. unfold subscribe. case_match; [|done]. intros [= <-]. cbn [subscriptions]. by rewrite !app_assoc.
  - revert H. unfold subscribe. case_match; [done|]. by intros [= <-].
  - rewrite H. injection H0 as <- <-. cbn [subscriptions app]. by rewrite app_nil_r.
  - rewrite H, map_app. cbn [map fst]. by rewrite <- app_assoc.
  - by rewrite H.
Qed.

(** Nothing is subscribed, and nothing will be before a start. *)
Definition drained (m : machine) : Prop := stopped (self m) = true /\ subscriptions (self m) = [].

Definition is_start (m m' : machine) : Prop := stopped (self m) = true /\ stopped (self m') = false.

Lemma step_drained m m' : step m m' -> ~ is_start m m' -> drained m -> drained m'.
Proof.
  unfold is_start, drained. intros Hs. destruct Hs; cbn [self]; intros Hn [Hst Hsub]; try done.
  - unfold start in *. rewrite Hst in *. by exfalso; apply Hn.
  - unfold stop. by rewrite Hst.
  - revert H. unfold subscribe. by rewrite Hst.
  - revert H. unfold subscribe. rewrite Hst. by intros [= <-].
  - by injection H0 as <- <-.
Qed.

(** A run with no start. *)
Definition quiet (m m' : machine) : Prop := step m m' /\ ~ is_start m m'.

Lemma quiet_drained m m' : rtc quiet m m' -> drained m -> drained m'.
Proof. induction 1 as [|m m1 m2 [Hs Hn] _ IH]; [done|]. intros Hd. apply IH. by eapply step_drained. Qed.

Lemma invoke_drains m m' :
  step m m' -> stopped (self m) = true -> invoking m = None -> invoking m' <> None -> drained m'.
Proof.
  intros Hs Hst Hi Hne. destruct Hs; cbn [self invoking] in *; try congruence.
  unfold drained. cbn [self]. by injection H0 as <- <-.
Qed.
End Subscriber.
Arguments t : clear implicits.
Arguments machine : clear implicits.
End subscriber.

(** ** Resubscribers: a handler is called until it returns false *)

Module resubscriber.
Section Resubscriber.
Context {handler args : Type}.

Record t := mk { stopped : bool; subscriptions : list handler }.

Definition construct : t := mk true [].
Definition start (s : t) : t := if stopped s then mk false (subscriptions s) else s.
Definition stop (s : t) : t := if negb (stopped s) then mk true (subscriptions s) else s.
Definition subscribe (notify : handler) (s : t) : t * bool :=
  if negb (stopped s) then (mk (stopped s) (subscriptions s ++ [notify]), false) else (s, true).
Definition take_subscriptions (s : t) : t * list handler := (mk (stopped s) [], subscriptions s).

(** The renewal of [do_invoke] after a call that returned true: false if the
    subscriber is stopped. *)
Definition renew (h : handler) (s : t) : t * bool :=
  if stopped s then (s, false) else (mk (stopped s) (subscriptions s ++ [h]), true).

(** The thread that holds [invoke_mutex_]: the arguments, the handler that
    returned true and is to be renewed, and the handlers it has not called.
    History: the handlers that [subscribe] kept, all that was put into the list,
    the calls made by [subscribe], those of [do_invoke] with their results, and
    the renewals that were dropped. *)
Record machine := mk_machine {
  self : t;
  invoking : option (args * option handler * list handler);
  accepted : list handler;
  queued : list handler;
  refused : list (handler * args);
  called : list (handler * args * bool);
  dropped : list handler
}.

Definition init : machine := mk_machine construct None [] [] [] [] [].

Inductive step : machine -> machine -> Prop :=
| step_start m :
    step m (mk_machine (start (self m)) (invoking m) (accepted m) (queued m) (refused m) (called m) (dropped m))
| step_stop m :
    step m (mk_machine (stop (self m)) (invoking m) (accepted m) (queued m) (refused m) (called m) (dropped m))
| step_subscribe m notify s :
    subscribe notify (self m) = (s, false) ->
    step m (mk_machine s (invoking m) (accepted m ++ [notify]) (queued m ++ [notify]) (refused m) (called m) (dropped m))
| step_refuse m notify stopped_args s :
    subscribe notify (self m) = (s, true) ->
    step m (mk_machine s (invoking m) (accepted m) (queued m) (refused m ++ [(notify, stopped_args)]) (called m) (dropped m))
| step_invoke m a s handlers :
    invoking m = None -> take_subscriptions (self m) = (s, handlers) ->
    step m (mk_machine s (Some (a, None, handlers)) (accepted m) (queued m) (refused m) (called m) (dropped m))
| step_call m a h handlers (again : bool) :
    invoking m = Some (a, None, h :: handlers) ->
    step m (mk_machine (self m) (Some (a, if again then Some h else None, handlers)) (accepted m) (queued m) (refused m)
              (called m ++ [(h, a, again)]) (dropped m))
| step_renew m a h handlers s :
    invoking m = Some (a, Some h, handlers) -> renew h (self m) = (s, true) ->
    step m (mk_machine s (Some (a, None, handlers)) (accepted m) (queued m ++ [h]) (refused m) (called m) (dropped m))
| step_drop m a h handlers s :
    invoking m = Some (a, Some h, handlers) -> renew h (self m) = (s, false) ->
    step m (mk_machine s (Some (a, None, handlers)) (accepted m) (queued m) (refused m) (called m) (dropped m ++ [h]))
| step_return m a :
    invoking m = Some (a, None, []) ->
    step m (mk_machine (self m) None (accepted m) (queued m) (refused m) (called m) (dropped m)).

Definition remaining (m : machine) : list handler := match invoking m with Some (_, _, handlers) => handlers | None => [] end.
Definition renewing (m : machine) : list handler := match invoking m with Some (_, Some h, _) => [h] | _ => [] end.

(** Every handler that was put into the list is called once for it, in order. *)
Definition delivered_in_order (m : machine) : Prop :=
  queued m = map (fun c => fst (fst c)) (called m) ++ remaining m ++ subscriptions (self m).

Lemma resubscriber_step_delivered m m' : step m m' -> delivered_in_order m -> delivered_in_order m'.
Proof.
  unfold delivered_in_order, remaining. intros Hs. destruct Hs; cbn [self invoking queued called]; intros ->.
  - unfold start. by destruct (stopped (self m)).
  - unfold stop. by destruct (negb (stopped (self m))).
  - revert H. unfold subscribe. case_match; [|done]. intros [= <-]. cbn [subscriptions]. by rewrite !app_assoc.
  - revert H. unfold subscribe. case_match; [done|]. by intros [= <-].
  - rewrite H. injection H0 as <- <-. cbn [subscriptions app]. by rewrite app_nil_r.
  - rewrite H, map_app. cbn [map fst]. by rewrite <- app_assoc.
  - rewrite H. revert H0. unfold renew. case_match; [done|]. intros [= <-]. cbn [subscriptions]. by rewrite !app_assoc.
  - rewrite H. revert H0. unfold renew. case_match; [|done]. by intros [= <-].
  - by rewrite H.
Qed.

(** Every subscription is still there, or ended by a call that returned false
    or by a stop that dropped it. *)
Definition ended (c : handler * args * bool) : list handler := if snd c then [] else [fst (fst c)].

Definition kept_or_ended (m : machine) : Prop :=
  accepted m ≡ₚ concat (map ended (called m)) ++ dropped m ++ renewing m ++ remaining m ++ subscriptions (self m).

Lemma step_kept m m' : step m m' -> kept_or_ended m -> kept_or_ended m'.
Proof.
  unfold kept_or_ended, remaining, renewing. intros Hs. destruct Hs; cbn [self invoking accepted called dropped]; intros Hp.
  - rewrite Hp. unfold start. by destruct (stopped (self m)).
  - rewrite Hp. unfold stop. by destruct (negb (stopped (self m))).
  - revert H. unfold subscribe. destruct (stopped (self m)); cbn [negb]; [done|]. intros [= <-]. cbn [subscriptions]. rewrite Hp. solve_Permutation.
  - revert H. unfold subscribe. destruct (stopped (self m)); cbn [negb]; [|done]. by intros [= <-].
  - rewrite H in Hp. injection H0 as <- <-. cbn [subscriptions app] in *. by rewrite app_nil_r.
  - rewrite H in Hp. rewrite Hp, map_app, concat_app. destruct again; cbn [map concat ended snd fst app]; rewrite ?app_nil_r; [done|].
    solve_Permutation.
  - rewrite H in Hp. revert H0. unfold renew. destruct (stopped (self m)); [done|]. intros [= <-]. cbn [subscriptions]. rewrite Hp. solve_Permutation.
  - rewrite H in Hp. revert H0. unfold renew. destruct (stopped (self m)); [|done]. intros [= <-]. rewrite Hp. solve_Permutation.
  - by rewrite H in Hp.
Qed.

Definition drained (m : machine) : Prop := stopped (self m) = true /\ subscriptions (self m) = [].
Definition is_start (m m' : machine) : Prop := stopped (self m) = true /\ stopped (self m') = false.

Lemma resubscriber_step_drained m m' : step m m' -> ~ is_start m m' -> drained m -> drained m'.
Proof.
  unfold is_start, drained. intros Hs. destruct Hs; cbn [self]; intros Hn [Hst Hsub]; try done.
  - unfold start in *. rewrite Hst in *. by exfalso; apply Hn.
  - unfold stop. by rewrite Hst.
  - revert H. unfold subscribe. by rewrite Hst.
  - revert H. unfold subscribe. rewrite Hst. by intros [= <-].
  - by injection H0 as <- <-.
  - revert H0. unfold renew. by rewrite Hst.
  - revert H0. unfold renew. rewrite Hst. by intros [= <-].
Qed.

Definition quiet (m m' : machine) : Prop := step m m' /\ ~ is_start m m'.

Lemma resubscriber_quiet_drained m m' : rtc quiet m m' -> drained m -> drained m'.
Proof. induction 1 as [|m m1 m2 [Hs Hn] _ IH]; [done|]. intros Hd. apply IH. by eapply resubscriber_step_drained. Qed.

Lemma resubscriber_invoke_drains m m' :
  step m m' -> stopped (self m) = true -> invoking m = None -> invoking m' <> None -> drained m'.
Proof.
  intros Hs Hst Hi Hne. destruct Hs; cbn [self invoking] in *; try congruence.
  unfold drained. cbn [self]. by injection H0 as <- <-.
Qed.
End Resubscriber.
Arguments t : clear implicits.
Arguments machine : clear implicits.
End resubscriber.

Lemma reachable_ind' {M} (step : M -> M -> Prop) (init : M) (P : M -> Prop) :
  P init -> (forall m m', step m m' -> P m -> P m') -> forall m, reachable step init m -> P m.
Proof. intros Hi Hs m. induction 1; [done|]. by eapply Hs. Qed.

(** C37: Under any interleaving of the methods: the handlers of a subscriber
    are called once each, in the order in which they were kept; so are those
    of a resubscriber for every time that they were put into the list, and
    each of its subscriptions is there until a call returns false or a stop
    drops it; and what is invoked after a stop, and not started again, ends
    with no subscription, as the destructors assert. *)
Theorem notifications_delivered {handler args} (m m1 m2 : subscriber.machine handler args)
    (r r1 r2 : resubscriber.machine handler args) :
  reachable subscriber.step subscriber.init m -> reachable resubscriber.step resubscriber.init r ->
  (subscriber.delivered_in_order m /\
   (subscriber.stopped (subscriber.self m) = true -> subscriber.invoking m = None -> subscriber.step m m1 ->
    subscriber.invoking m1 <> None -> rtc subscriber.quiet m1 m2 -> subscriber.subscriptions (subscriber.self m2) = [])) /\
  (resubscriber.delivered_in_order r /\ resubscriber.kept_or_ended r /\
   (resubscriber.stopped (resubscriber.self r) = true -> resubscriber.invoking r = None -> resubscriber.step r r1 ->
    resubscriber.invoking r1 <> None -> rtc resubscriber.quiet r1 r2 ->
    resubscriber.subscriptions (resubscriber.self r2) = [])).
Proof.
  intros Hm Hr. split_and!.
  - revert m Hm. apply reachable_ind'; [done|]. apply subscriber.step_delivered.
  - intros Hst Hi Hs Hi1 Hq. eapply subscriber.quiet_drained; [exact Hq|]. by eapply subscriber.invoke_drains.
  - clear r1 r2. revert r Hr. apply reachable_ind'; [done|]. apply resubscriber.resubscriber_step_delivered.
  - clear r1 r2. revert r Hr. apply reachable_ind'; [constructor|]. apply resubscriber.step_kept.
  - intros Hst Hi Hs Hi1 Hq. eapply resubscriber.resubscriber_quiet_drained; [exact Hq|]. by eapply resubscriber.resubscriber_invoke_drains.
Qed.
