(* ===== verification/Sequencing.v ===== *)
(** Collections and counters that threads share: [pending] of
    [impl/utility/pending.ipp], [synchronizer] of [utility/synchronizer.hpp] and
    [sequencer] of [src/utility/sequencer.cpp]. *)

From S2P Require Import Prelude Codes Subscribers.

(** ** Pending elements *)

Module pending.
Section Pending.
Context {element : Type} `{EqDecision element}.

Record t := mk { stopped : bool; elements : list element }.

Definition construct : t := mk false [].
Definition collection (s : t) : list element := elements s.
Definition size (s : t) : Z := zlen (elements s).
Definition exists_ (match_ : element -> bool) (s : t) : bool := existsb match_ (elements s).

Definition store (e : element) (s : t) : t * error.code :=
  if stopped s then (s, error.service_stopped) else (mk (stopped s) (elements s ++ [e]), error.success).

Definition store_unique (e : element) (match_ : element -> bool) (s : t) : t * error.code :=
  if negb (stopped s) then
    if existsb match_ (elements s) then (s, error.address_in_use)
    else (mk (stopped s) (elements s ++ [e]), error.success)
  else (s, error.service_stopped).

(** [erase] of what [std::find] finds: the first. *)
Fixpoint erase (e : element) (l : list element) : list element :=
  match l with
  | [] => []
  | x :: l => if bool_decide (x = e) then l else x :: erase e l
  end.

Definition remove (e : element) (s : t) : t := mk (stopped s) (erase e (elements s)).

(** [stop], with the elements that are stopped after the mutex is released. *)
Definition stop (s : t) : t * list element :=
  if negb (stopped s) then (mk true (elements s), elements s) else (s, []).

(** [close], with the elements that are closed. *)
Definition close (s : t) : t * list element := (mk (stopped s) [], elements s).

(** The methods, by any threads in the order of their critical sections, with
    the codes that [store] returns and what is stopped and closed. *)
Inductive method :=
| m_store (e : element)
| m_store_unique (e : element) (match_ : element -> bool)
| m_remove (e : element)
| m_stop (ec : error.code)
| m_close.

Inductive event :=
| stored (e : element) (ec : error.code)
| element_stop (e : element) (ec : error.code)
| element_close (e : element).

Definition run_method (m : method) (s : t) : t * list event :=
  match m with
  | m_store e => let '(s, ec) := store e s in (s, [stored e ec])
  | m_store_unique e match_ => let '(s, ec) := store_unique e match_ s in (s, [stored e ec])
  | m_remove e => (remove e s, [])
  | m_stop ec => let '(s, copy) := stop s in (s, map (fun e => element_stop e ec) copy)
  | m_close => let '(s, closed) := close s in (s, map element_close closed)
  end.

Fixpoint run (ms : list method) (s : t) : t * list event :=
  match ms with
  | [] => (s, [])
  | m :: ms => let '(s, e) := run_method m s in let '(s, es) := run ms s in (s, e ++ es)
  end.

Definition is_stop (m : method) : bool := match m with m_stop _ => true | _ => false end.
Definition stops (e : event) : list (element * error.code) := match e with element_stop x ec => [(x, ec)] | _ => [] end.
Definition accepts (e : event) : bool := match e with stored _ ec => bool_decide (ec = error.success) | _ => false end.

Lemma erase_sublist e l : erase e l `sublist_of` l.
Proof.
  induction l as [|x l IH]; cbn [erase]; [done|]. case_bool_decide; [by apply sublist_cons|by apply sublist_skip].
Qed.

(** A stopped collection accepts nothing, stops nothing, and only loses elements. *)
Lemma stopped_method m s :
  stopped s = true ->
  stopped (fst (run_method m s)) = true /\ elements (fst (run_method m s)) `sublist_of` elements s /\
  forallb (fun e => negb (accepts e)) (snd (run_method m s)) = true /\ concat (map stops (snd (run_method m s))) = [].
Proof.
  intros Hs. destruct m; cbn [run_method].
  - unfold store. by rewrite Hs.
  - unfold store_unique. by rewrite Hs.
  - split_and!; [done|apply erase_sublist|done|done].
  - unfold stop. by rewrite Hs.
  - cbn [close fst snd elements stopped]. split_and!; [done|apply sublist_nil_l| |];
      (induction (elements s) as [|x l IH]; [done|exact IH]).
Qed.

Lemma stopped_run ms : forall s,
  stopped s = true ->
  elements (fst (run ms s)) `sublist_of` elements s /\
  forallb (fun e => negb (accepts e)) (snd (run ms s)) = true /\ concat (map stops (snd (run ms s))) = [].
Proof.
  induction ms as [|m ms IH]; intros s Hs; [done|]. cbn [run].
  destruct (stopped_method m s Hs) as (H1 & H2 & H3 & H4). destruct (run_method m s) as [s1 e1]. cbn [fst snd] in *.
  destruct (IH s1 H1) as (I1 & I2 & I3). destruct (run ms s1) as [s2 e2]. cbn [fst snd] in *.
  split_and!; [by etrans|by rewrite forallb_app, H3, I2|by rewrite map_app, concat_app, H4, I3].
Qed.

Lemma unstopped_method m s :
  stopped s = false -> is_stop m = false ->
  stopped (fst (run_method m s)) = false /\ concat (map stops (snd (run_method m s))) = [].
Proof.
  intros Hs Hm. destruct m; cbn [run_method]; try done.
  - unfold store. by rewrite Hs.
  - unfold store_unique. rewrite Hs. cbn [negb]. destruct (existsb match_ (elements s)); split; cbn; done.
  - cbn [close fst snd]. split; [done|]. by induction (elements s).
Qed.

Lemma unstopped_run ms : forall s,
  stopped s = false -> forallb (fun m => negb (is_stop m)) ms = true ->
  stopped (fst (run ms s)) = false /\ concat (map stops (snd (run ms s))) = [].
Proof.
  induction ms as [|m ms IH]; intros s Hs Hm; [done|]. cbn [run forallb] in *. apply andb_true_iff in Hm as [Hm Hms].
  destruct (unstopped_method m s Hs) as (H1 & H2); [by destruct (is_stop m)|].
  destruct (run_method m s) as [s1 e1]. cbn [fst snd] in *. destruct (IH s1 H1 Hms) as [I1 I2].
  destruct (run ms s1) as [s2 e2]. cbn [fst snd] in *. split; [done|]. by rewrite map_app, concat_app, H2, I2.
Qed.

(** However the methods of a pending collection interleave: the elements that
    are there at the first stop are stopped, once each and with its code, and no
    others ever are; nothing is stored afterwards, so that the collection can
    only shrink. *)
Lemma pending_stops before ec after :
  forallb (fun m => negb (is_stop m)) before = true ->
  let '(s, _) := run before construct in
  let '(s', _) := run [m_stop ec] s in
  let '(final, events) := run after s' in
  concat (map stops (snd (run (before ++ m_stop ec :: after) construct))) = map (fun e => (e, ec)) (elements s) /\
  elements final `sublist_of` elements s /\ forallb (fun e => negb (accepts e)) events = true.
Proof.
  intros Hb. assert (Hrun : forall ms ms' s, run (ms ++ ms') s =
    (fst (run ms' (fst (run ms s))), snd (run ms s) ++ snd (run ms' (fst (run ms s))))).
  { induction ms as [|m ms IH]; intros ms' s; cbn [app run fst snd]; [by destruct (run ms' s)|].
    destruct (run_method m s) as [s1 e1]. rewrite IH. destruct (run ms s1) as [s2 e2]. cbn [fst snd].
    destruct (run ms' s2) as [s3 e3]. by rewrite app_assoc. }
  destruct (unstopped_run before construct eq_refl Hb) as [Hs Hn].
  rewrite Hrun. destruct (run before construct) as [s e1] eqn:E1. cbn [fst snd] in *.
  cbn [run run_method]. unfold stop. rewrite Hs. cbn [negb].
  destruct (stopped_run after (mk true (elements s)) eq_refl) as (H1 & H2 & H3).
  destruct (run after (mk true (elements s))) as [s2 e2]. cbn [fst snd] in *. split_and!; [|done|done].
  rewrite !map_app, !concat_app, Hn, H3, app_nil_r. cbn [app]. clear. by induction (elements s) as [|x l IH]; cbn; [|f_equal].
Qed.
End Pending.
Arguments t : clear implicits.
End pending.

(** ** Synchronizers *)

Module synchronizer.

Inductive synchronizer_terminate := on_error | on_success | on_count.

Definition ok (ec : error.code) : bool := bool_decide (ec = error.success).

Definition complete (mode : synchronizer_terminate) (ec : error.code) : bool :=
  match mode with on_error => negb (ok ec) | on_success => ok ec | on_count => false end.

Definition result (mode : synchronizer_terminate) (ec : error.code) : error.code :=
  match mode with
  | on_error => if negb (ok ec) then ec else error.success
  | on_success => if ok ec then error.success else ec
  | on_count => error.success
  end.

Section Synchronizer.
Context {args : Type}.
Variables (clearance_count : nat) (mode : synchronizer_terminate).

(** [operator()]: the counter that the copies share, and the call of the
    handler, if this one clears. *)
Definition call (ec : error.code) (a : args) (counter : nat) : nat * option (error.code * args) :=
  if (counter =? clearance_count)%nat then (counter, None)
  else
    let count := if complete mode ec then clearance_count else (counter + 1)%nat in
    (count, if (count =? clearance_count)%nat then Some (result mode ec, a) else None).

(** The calls by all copies, in the order of their critical sections. *)
Fixpoint run (calls : list (error.code * args)) (counter : nat) : nat * list (error.code * args) :=
  match calls with
  | [] => (counter, [])
  | (ec, a) :: calls =>
      let '(counter, handled) := call ec a counter in
      let '(counter, rest) := run calls counter in
      (counter, match handled with Some h => h :: rest | None => rest end)
  end.

(** What is promised: the first call that completes, or the last that is
    counted. *)
Fixpoint deciding (n : nat) (calls : list (error.code * args)) : option (error.code * args) :=
  match n, calls with
  | S n, (ec, a) :: calls =>
      if complete mode ec || (n =? 0)%nat then Some (result mode ec, a) else deciding n calls
  | _, _ => None
  end.

Lemma run_cleared calls : run calls clearance_count = (clearance_count, []).
Proof.
  induction calls as [|[ec a] calls IH]; [done|]. cbn [run]. unfold call. rewrite Nat.eqb_refl. by rewrite IH.
Qed.

Lemma run_counting calls : forall n counter,
  (n + counter = clearance_count)%nat ->
  snd (run calls counter) = match deciding n calls with Some h => [h] | None => [] end.
Proof.
  induction calls as [|[ec a] calls IH]; intros n counter Hn; [by destruct n|].
  destruct n as [|n]; cbn [deciding].
  { cbn in Hn. subst counter. by rewrite run_cleared. }
  cbn [run]. unfold call. destruct (Nat.eqb_spec counter clearance_count); [lia|].
  destruct (complete mode ec); cbn [orb].
  - rewrite Nat.eqb_refl, run_cleared. done.
  - destruct (Nat.eqb_spec (counter + 1) clearance_count) as [E|E].
    + rewrite E, run_cleared. destruct (Nat.eqb_spec n 0); [done|lia].
    + destruct (Nat.eqb_spec n 0); [lia|]. specialize (IH n (counter + 1)%nat ltac:(lia)).
      by destruct (run calls (counter + 1)%nat).
Qed.
End Synchronizer.

(** The first of the calls whose code satisfies [p]. *)
Definition first_of {args} (p : error.code -> bool) (calls : list (error.code * args)) : option (error.code * args) :=
  List.find (fun c => p (fst c)) calls.

Lemma deciding_find {args} mode n (calls : list (error.code * args)) :
  deciding mode (S n) calls =
  match first_of (complete mode) (take (S n) calls) with
  | Some (ec, a) => Some (result mode ec, a)
  | None => '(ec, a) ← calls !! n; Some (result mode ec, a)
  end.
Proof.
  revert calls. induction n as [|n IH]; intros [|[ec a] calls]; [done| |done|]; unfold first_of.
  - cbn [deciding take List.find fst lookup list_lookup]. rewrite orb_true_r. by destruct (complete mode ec).
  - cbn [take List.find fst]. change (deciding mode (S (S n)) ((ec, a) :: calls))
      with (if complete mode ec || (S n =? 0)%nat then Some (result mode ec, a) else deciding mode (S n) calls).
    destruct (complete mode ec); [done|]. cbn [orb Nat.eqb lookup list_lookup]. apply IH.
Qed.

(** A synchronizer of a positive count calls its handler at most once,
    whatever order its copies are called in: in error mode with the first error
    of the calls that count, else with success at the last of them; in success
    mode with success at the first success, else with the code of the last call
    that counts; in count mode with success at the last. *)
Lemma synchronizer_once {args} n mode (calls : list (error.code * args)) :
  snd (run (S n) mode calls 0) =
  match mode with
  | on_error =>
      match first_of (fun ec => negb (ok ec)) (take (S n) calls), calls !! n with
      | Some c, _ => [c]
      | None, Some (_, a) => [(error.success, a)]
      | None, None => []
      end
  | on_success =>
      match first_of ok (take (S n) calls), calls !! n with
      | Some (_, a), _ => [(error.success, a)]
      | None, Some c => [c]
      | None, None => []
      end
  | on_count => match calls !! n with Some (_, a) => [(error.success, a)] | None => [] end
  end.
Proof.
  rewrite (run_counting _ _ _ (S n)) by lia. rewrite deciding_find.
  assert (Hlast : forall p c, first_of p (take (S n) calls) = None -> calls !! n = Some c -> p (fst c) = false).
  { intros p c Hf Hc. apply (List.find_none _ _ Hf). apply list_elem_of_In, list_elem_of_lookup.
    exists n. rewrite lookup_take. by case_decide; [|lia]. }
  assert (Hfirst : forall p c, first_of p (take (S n) calls) = Some c -> p (fst c) = true).
  { intros p c Hf. apply List.find_some in Hf. apply Hf. }
  destruct mode; cbn [result].
  - change (complete on_error) with (fun ec => negb (ok ec)). destruct (first_of (fun ec => negb (ok ec)) _) as [[ec a]|] eqn:Ef.
    + apply Hfirst in Ef. cbn [fst] in Ef. by rewrite Ef.
    + destruct (calls !! n) as [[ec a]|] eqn:Ec; [|done]. cbn [mbind option_bind].
      pose proof (Hlast _ _ Ef eq_refl) as E. cbn [fst] in E. by rewrite E.
  - change (complete on_success) with ok. destruct (first_of ok _) as [[ec a]|] eqn:Ef.
    + apply Hfirst in Ef. cbn [fst] in Ef. by rewrite Ef.
    + destruct (calls !! n) as [[ec a]|] eqn:Ec; [|done]. cbn [mbind option_bind].
      pose proof (Hlast _ _ Ef eq_refl) as E. cbn [fst] in E. by rewrite E.
  - assert (Ef : first_of (complete on_count) (take (S n) calls) = None).
    { unfold first_of. clear. induction (take (S n) calls) as [|c l IH]; [done|]. exact IH. }
    rewrite Ef. by destruct (calls !! n) as [[ec a]|].
Qed.
End synchronizer.

(** ** Sequencers *)

Module sequencer.
Section Sequencer.
Context {action : Type}.

Record t := mk { executing : bool; actions : list action }.

Definition construct : t := mk false [].

(** The critical section of [lock], with the action it is then to post. *)
Definition lock (handler : action) (s : t) : t * option action :=
  if executing s then (mk (executing s) (actions s ++ [handler]), None) else (mk true (actions s), Some handler).

(** The critical section of [unlock], with the action it is then to post. *)
Definition unlock (s : t) : t * option action :=
  match actions s with
  | [] => (mk false [], None)
  | handler :: actions => (mk true actions, Some handler)
  end.

(** The sequencer with the action that a thread is about to post, and how many
    of the posted actions have unlocked. An action unlocks the sequencer once,
    after it was posted. History: the actions that were locked, in order, and
    those that were posted to the service. *)
Record machine := mk_machine {
  self : t;
  posting : option action;
  locked : list action;
  posted : list action;
  unlocked : nat
}.

Definition init : machine := mk_machine construct None [] [] 0.

Inductive step : machine -> machine -> Prop :=
| step_lock m handler s :
    lock handler (self m) = (s, None) ->
    step m (mk_machine s (posting m) (locked m ++ [handler]) (posted m) (unlocked m))
| step_lock_post m handler s :
    lock handler (self m) = (s, Some handler) ->
    step m (mk_machine s (Some handler) (locked m ++ [handler]) (posted m) (unlocked m))
| step_post m handler :
    posting m = Some handler ->
    step m (mk_machine (self m) None (locked m) (posted m ++ [handler]) (unlocked m))
| step_unlock m s next :
    (unlocked m < length (posted m))%nat -> unlock (self m) = (s, next) ->
    step m (mk_machine s next (locked m) (posted m) (S (unlocked m))).

Definition about_to_post (m : machine) : list action := match posting m with Some h => [h] | None => [] end.

(** The number of actions that were posted, or are about to be, and have not
    unlocked. *)
Definition outstanding (m : machine) : nat := (length (posted m) + length (about_to_post m) - unlocked m)%nat.

Definition sequential (m : machine) : Prop :=
  locked m = posted m ++ about_to_post m ++ actions (self m) /\
  (unlocked m <= length (posted m))%nat /\
  (if executing (self m) then outstanding m = 1%nat else outstanding m = 0%nat /\ actions (self m) = []).

Lemma step_sequential m m' : step m m' -> sequential m -> sequential m'.
Proof.
  unfold sequential, outstanding, about_to_post. intros Hs (Hl & Hu & He).
  destruct Hs as [m handler s Hk|m handler s Hk|m handler Hp|m s next Hn Hk]; cbn [self posting locked posted unlocked].
  - revert Hk. unfold lock. destruct (executing (self m)); [|done]. intros [= <-]. cbn [executing actions].
    rewrite Hl, <- !app_assoc. done.
  - revert Hk. unfold lock. destruct (executing (self m)); [done|]. intros [= <-]. cbn [executing actions].
    destruct He as [Ho Ha]. destruct (posting m); [simpl in Ho; lia|]. rewrite Hl, Ha, app_nil_r. simpl in *. split_and!; [done|lia|lia].
  - rewrite Hp in *. rewrite <- app_assoc. rewrite length_app. simpl in *. split_and!; [done|lia|].
    destruct (executing (self m)); [lia|]. split; [lia|apply He].
  - destruct (executing (self m)); [|destruct He as [Ho _]; lia]. destruct (posting m); [simpl in He; lia|].
    revert Hk. unfold unlock. destruct (actions (self m)) as [|h acts] eqn:Ea; intros [= <- <-]; cbn [executing actions];
      simpl in *; (split_and!; first [done|lia]).
Qed.

(** Whatever threads lock, the actions of a sequencer are posted in the order
    in which they were locked, one at a time: while one has not unlocked, no
    other is posted, and when none is left the sequencer is free. *)
Lemma sequencer_sequential m :
  reachable step init m -> sequential m.
Proof.
  intros Hm. revert m Hm. apply reachable_ind'; [|apply step_sequential]. by split_and!.
Qed.
End Sequencer.
Arguments t : clear implicits.
Arguments machine : clear implicits.
End sequencer.
