(* ===== verification/Locks.v ===== *)
(** Locks: [prioritized_mutex], [sequential_lock] and [flush_lock] of
    [src/utility]. A lock is the sequence of operations on mutexes or shared
    memory that its methods perform; the operations of threads interleave. *)

From stdpp Require Import gmap.
From S2P Require Import Prelude Subscribers.

(** ** Prioritized mutexes *)

Module prioritized_mutex.

Inductive mutex := data_mutex | next_mutex | wait_mutex.
#[global] Instance mutex_eq_dec : EqDecision mutex.
Proof. solve_decision. Defined.

Inductive action := lock (m : mutex) | unlock (m : mutex).

Definition lock_low_priority (prioritize : bool) : list action :=
  (if prioritize then [lock wait_mutex; lock next_mutex] else []) ++ [lock data_mutex].

Definition unlock_low_priority (prioritize : bool) : list action :=
  (if prioritize then [unlock next_mutex] else []) ++ [unlock data_mutex] ++
  (if prioritize then [unlock wait_mutex] else []).

Definition lock_high_priority (prioritize : bool) : list action :=
  (if prioritize then [lock next_mutex] else []) ++ [lock data_mutex] ++
  (if prioritize then [unlock next_mutex] else []).

Definition unlock_high_priority (prioritize : bool) : list action := [unlock data_mutex].

Inductive priority := low | high.

(** A use of the lock by a thread. *)
Definition section (prioritize : bool) (p : priority) : list action :=
  match p with
  | low => lock_low_priority prioritize ++ unlock_low_priority prioritize
  | high => lock_high_priority prioritize ++ unlock_high_priority prioritize
  end.

Definition locking (prioritize : bool) (p : priority) : nat :=
  length match p with low => lock_low_priority prioritize | high => lock_high_priority prioritize end.

(** The mutexes that are held after some operations. *)
Definition held (m : mutex) (done_ : list action) : bool :=
  fold_left (fun h a =>
    match a with
    | lock m' => if bool_decide (m' = m) then true else h
    | unlock m' => if bool_decide (m' = m) then false else h
    end) done_ false.

(** A thread that uses the lock has performed the first operations of its
    section. *)
Record use := mk_use { level : priority; progress : nat }.

Section Mutex.
Variable prioritize : bool.

(** The threads that are in a section. *)
Notation threads := (gmap nat use).

Definition holds (s : threads) (t : nat) (m : mutex) : bool :=
  match s !! t with
  | Some u => held m (take (progress u) (section prioritize (level u)))
  | None => false
  end.

(** The thread is between the two methods. *)
Definition critical (s : threads) (t : nat) : Prop :=
  match s !! t with Some u => progress u = locking prioritize (level u) | None => False end.

Definition update (s : threads) (t : nat) (u : option use) : threads := match u with Some u => <[t := u]> s | None => delete t s end.

(** A thread enters, performs its next operation, which waits while another
    thread holds the mutex, or leaves. *)
Inductive step_of (t : nat) : threads -> threads -> Prop :=
| step_enter s p : s !! t = None -> step_of t s (update s t (Some (mk_use p 0)))
| step_lock s u m :
    s !! t = Some u -> section prioritize (level u) !! progress u = Some (lock m) ->
    (forall t', holds s t' m = false) ->
    step_of t s (update s t (Some (mk_use (level u) (S (progress u)))))
| step_unlock s u m :
    s !! t = Some u -> section prioritize (level u) !! progress u = Some (unlock m) ->
    step_of t s (update s t (Some (mk_use (level u) (S (progress u)))))
| step_leave s u :
    s !! t = Some u -> progress u = length (section prioritize (level u)) -> step_of t s (update s t None).

Definition step (s s' : threads) : Prop := exists t, step_of t s s'.
Definition init : threads := ∅.

(** Each mutex has one owner, and no thread is past the end of its section. *)
Definition exclusive (s : threads) : Prop :=
  (forall m t t', holds s t m = true -> holds s t' m = true -> t = t') /\
  (forall t u, s !! t = Some u -> (progress u <= length (section prioritize (level u)))%nat).

Lemma held_snoc m done_ a :
  held m (done_ ++ [a]) =
  match a with
  | lock m' => if bool_decide (m' = m) then true else held m done_
  | unlock m' => if bool_decide (m' = m) then false else held m done_
  end.
Proof. unfold held. by rewrite fold_left_app. Qed.

Lemma take_next {A} (l : list A) k a : l !! k = Some a -> take (S k) l = take k l ++ [a].
Proof. apply take_S_r. Qed.

Lemma lookup_update s t u t' : update s t u !! t' = if (t' =? t)%nat then u else s !! t'.
Proof.
  unfold update. destruct (Nat.eqb_spec t' t) as [->|]; destruct u.
  - apply lookup_insert_eq.
  - apply lookup_delete_eq.
  - by apply lookup_insert_ne.
  - by apply lookup_delete_ne.
Qed.

Lemma holds_update s t u t' m :
  holds (update s t u) t' m =
  if (t' =? t)%nat then match u with Some u => held m (take (progress u) (section prioritize (level u))) | None => false end
  else holds s t' m.
Proof. unfold holds. rewrite lookup_update. by destruct (t' =? t)%nat. Qed.

Lemma held_end p m : held m (section prioritize p) = false.
Proof. by destruct prioritize, p, m. Qed.

Lemma step_exclusive s s' : step s s' -> exclusive s -> exclusive s'.
Proof.
  intros [t Hs] [He Hp]. destruct Hs as [s p Ht|s u m Ht Hn Hf|s u m Ht Hn|s u Ht Hend]; split.
  - intros m t1 t2. rewrite !holds_update. destruct (Nat.eqb_spec t1 t), (Nat.eqb_spec t2 t); subst; try done. apply He.
  - intros t1 u1. rewrite lookup_update. destruct (t1 =? t)%nat; [intros [= <-]; cbn; lia|apply Hp].
  - intros m' t1 t2. rewrite !holds_update. cbn [level progress]. rewrite (take_next _ _ _ Hn), held_snoc.
    assert (Hu : holds s t m' = held m' (take (progress u) (section prioritize (level u)))) by (unfold holds; by rewrite Ht).
    rewrite <- Hu. destruct (Nat.eqb_spec t1 t), (Nat.eqb_spec t2 t); subst; try done.
    + case_bool_decide; [subst; by rewrite Hf|apply He].
    + case_bool_decide; [subst; by rewrite Hf|apply He].
    + apply He.
  - intros t1 u1. rewrite lookup_update. destruct (t1 =? t)%nat; [intros [= <-]|apply Hp]. cbn [level progress].
    by apply lookup_lt_Some in Hn.
  - intros m' t1 t2. rewrite !holds_update. cbn [level progress]. rewrite (take_next _ _ _ Hn), held_snoc.
    assert (Hu : holds s t m' = held m' (take (progress u) (section prioritize (level u)))) by (unfold holds; by rewrite Ht).
    rewrite <- Hu. destruct (Nat.eqb_spec t1 t), (Nat.eqb_spec t2 t); subst; try done;
      try (case_bool_decide; [done|apply He]). apply He.
  - intros t1 u1. rewrite lookup_update. destruct (t1 =? t)%nat; [intros [= <-]|apply Hp]. cbn [level progress].
    by apply lookup_lt_Some in Hn.
  - intros m t1 t2. rewrite !holds_update. destruct (Nat.eqb_spec t1 t), (Nat.eqb_spec t2 t); subst; try done. apply He.
  - intros t1 u1. rewrite lookup_update. destruct (t1 =? t)%nat; [done|apply Hp].
Qed.

Lemma critical_holds s t : critical s t -> holds s t data_mutex = true.
Proof.
  unfold critical, holds. destruct (s !! t) as [u|]; [|done]. intros ->. by destruct prioritize, u as [[] k].
Qed.

(** ** Progress *)

Lemma holder_dec s m : (exists t, holds s t m = true) \/ (forall t, holds s t m = false).
Proof.
  destruct (decide (map_Forall (fun _ u => held m (take (progress u) (section prioritize (level u))) = false) s)) as [H|H].
  - right. intros t. unfold holds. destruct (s !! t) as [u|] eqn:E; [|done]. by apply (H t u).
  - left. apply map_not_Forall in H as (t & u & Hu & Hh); [|solve_decision]. exists t. unfold holds. rewrite Hu.
    by destruct (held _ _).
Qed.

(** A thread whose next operation is not a wait can take a step. *)
Definition can_step (s : threads) (t : nat) : Prop := s !! t <> None /\ exists s', step_of t s s'.

Lemma next_step s t u :
  s !! t = Some u -> (progress u <= length (section prioritize (level u)))%nat ->
  can_step s t \/ exists m, section prioritize (level u) !! progress u = Some (lock m) /\ exists t', holds s t' m = true.
Proof.
  intros Hu Hp. destruct (section prioritize (level u) !! progress u) as [[m|m]|] eqn:E.
  - destruct (holder_dec s m) as [Hh|Hf]; [right; by exists m|]. left. split; [congruence|]. eexists. by eapply step_lock.
  - left. split; [congruence|]. eexists. by eapply step_unlock.
  - left. split; [congruence|]. apply lookup_ge_None in E. eexists. eapply step_leave; [done|lia].
Qed.

(** The order in which a thread takes the mutexes. *)
Definition rank (m : mutex) : nat := match m with wait_mutex => 0 | next_mutex => 1 | data_mutex => 2 end.

Lemma lock_order p k m m' :
  section prioritize p !! k = Some (lock m') -> held m (take k (section prioritize p)) = true -> (rank m < rank m')%nat.
Proof.
  intros Hk Hh. destruct prioritize, p; cbn in *;
    (do 7 (destruct k as [|k]; [cbn in *; destruct m, m'; cbn in *; first [done|lia]|])); by destruct k.
Qed.

(** Whoever holds a mutex can step, or waits for one of a higher rank. *)
Lemma holder_progress n : forall s t m,
  exclusive s -> (3 <= rank m + n)%nat -> holds s t m = true -> exists t', can_step s t'.
Proof.
  induction n as [|n IH]; intros s t m He Hr Hh; [destruct m; cbn in Hr; lia|].
  unfold holds in Hh. destruct (s !! t) as [u|] eqn:Hu; [|done]. destruct He as [He Hp].
  destruct (next_step s t u Hu (Hp t u Hu)) as [Hc|(m' & Hm' & t' & Ht')]; [by exists t|].
  apply (IH s t' m'); [done| |done]. pose proof (lock_order _ _ _ _ Hm' Hh). lia.
Qed.

Lemma section_progress s t : exclusive s -> s !! t <> None -> exists t', can_step s t'.
Proof.
  intros He Ht. destruct (s !! t) as [u|] eqn:Hu; [|done].
  destruct (next_step s t u Hu (proj2 He t u Hu)) as [Hc|(m & _ & t' & Ht')]; [by exists t|].
  apply (holder_progress 3 s t' m); [done|lia|done].
Qed.

(** ** Priority *)

(** A low priority thread that competes for the next mutex holds the wait
    mutex, so there is at most one. *)
Definition competes (s : threads) (t : nat) : Prop :=
  exists k, s !! t = Some (mk_use low k) /\ (1 <= k <= 5)%nat.

Lemma competes_holds s t : prioritize = true -> competes s t -> holds s t wait_mutex = true.
Proof.
  intros Hp (k & Hs & Hk). unfold holds. rewrite Hs, Hp. cbn [level progress].
  do 6 (destruct k as [|k]; [done || lia|]). lia.
Qed.

(** While a high priority thread has the next mutex, no other thread enters. *)
Lemma high_is_next s s' t t' t'' :
  prioritize = true -> exclusive s -> s !! t = Some (mk_use high 1) -> t' <> t -> step_of t' s s' ->
  critical s' t'' -> critical s t''.
Proof.
  intros Hp [He _] Ht Hne Hs. unfold critical.
  assert (Hnext : holds s t next_mutex = true) by (unfold holds; by rewrite Ht, Hp).
  assert (Henter : forall u a, s !! t' = Some u -> section prioritize (level u) !! progress u = Some a ->
    S (progress u) = locking prioritize (level u) -> False).
  { intros u a Hu Ha Hl. apply Hne. apply (He next_mutex); [|done]. unfold holds. rewrite Hu. rewrite Hp in *.
    destruct u as [[] k]; cbn in Hl; injection Hl as ->; done. }
  destruct Hs as [s p Hn|s u m Hu Ha _|s u m Hu Ha|s u Hu Hend]; rewrite lookup_update;
    (destruct (Nat.eqb_spec t'' t') as [->|]; [|done]); cbn [level progress].
  - intros E. rewrite Hp in E. by destruct p.
  - intros E. by destruct (Henter u _ Hu Ha E).
  - intros E. by destruct (Henter u _ Hu Ha E).
  - done.
Qed.
End Mutex.

(** C38: A prioritized mutex, used by any threads: at most one thread is
    between the two methods; as long as a thread is in a section one of them
    can go on, so that there is no deadlock; and with prioritization at most
    one low priority thread competes at a time, and no thread enters before a
    high priority thread that has the next mutex. *)
Theorem prioritized_mutex_safe prioritize s :
  reachable (step prioritize) init s ->
  (forall t t', critical prioritize s t -> critical prioritize s t' -> t = t') /\
  (s <> ∅ -> exists t, can_step prioritize s t) /\
  (prioritize = true ->
   (forall t t', competes s t -> competes s t' -> t = t') /\
   (forall t t' t'' s', s !! t = Some (mk_use high 1) -> t' <> t -> step_of prioritize t' s s' ->
      critical prioritize s' t'' -> critical prioritize s t'')).
Proof.
  intros Hr. assert (He : exclusive prioritize s).
  { revert s Hr. apply reachable_ind'; [|apply step_exclusive]. split; [done|]. intros t u Hu. unfold init in Hu. by rewrite lookup_empty in Hu. }
  split_and!.
  - intros t t' Ht Ht'. apply (proj1 He data_mutex); by apply critical_holds.
  - intros Hne. apply map_choose in Hne as (t & u & Hu). apply (section_progress prioritize s t); [done|congruence].
  - intros Hp. split.
    + intros t t' Ht Ht'. apply (proj1 He wait_mutex); by apply competes_holds.
    + intros t t' t'' s' Ht Hne Hs. by apply (high_is_next prioritize s s' t t' t'').
Qed.
End prioritized_mutex.

(** ** Sequential locks *)

Module sequential_lock.

(** [sequence_] is an atomic [size_t]. *)
Definition t : Type := Z.
Definition construct : t := 0.

Definition is_write_locked (handle : Z) : bool := handle mod 2 =? 1.
Definition begin_read (s : t) : Z := s.
Definition is_read_valid (handle : Z) (s : t) : bool := handle =? s.
Definition increment (s : t) : t := u64 (s + 1).
Definition begin_write (s : t) : t * bool := let s := increment s in (s, is_write_locked s).
Definition end_write (s : t) : t * bool := let s := increment s in (s, negb (is_write_locked s)).

Inductive write := begins | ends.

Definition run_write (w : write) (s : t) : t * bool := match w with begins => begin_write s | ends => end_write s end.

Fixpoint run (ws : list write) (s : t) : t * list bool :=
  match ws with
  | [] => (s, [])
  | w :: ws => let '(s, ok) := run_write w s in let '(s, oks) := run ws s in (s, ok :: oks)
  end.

Lemma run_sequence ws : forall s, in_width 64 s -> fst (run ws s) = u64 (s + zlen ws).
Proof.
  induction ws as [|w ws IH]; intros s Hs; cbn [run].
  - change (zlen []) with 0. rewrite Z.add_0_r. unfold u64. by rewrite wrap_small.
  - assert (Hw : fst (run_write w s) = increment s) by by destruct w.
    destruct (run_write w s) as [s1 ok1]. cbn [fst] in Hw. subst s1. specialize (IH (increment s)).
    destruct (run ws (increment s)) as [s2 oks]. cbn [fst] in *. rewrite IH by (unfold in_width, increment, u64; apply wrap_bound; lia).
    unfold increment, u64, wrap. rewrite Zplus_mod_idemp_l. f_equal. unfold zlen. simpl length. lia.
Qed.

Lemma write_locked_increment s : is_write_locked (increment s) = negb (is_write_locked s).
Proof.
  unfold is_write_locked, increment, u64, wrap.
  assert (E : (s + 1) mod 2 ^ 64 mod 2 = (s + 1) mod 2) by (apply Z.mod_mod_divide; by exists (2 ^ 63)).
  pose proof (Z.mod_pos_bound s 2 ltac:(lia)). rewrite E, Z.add_mod by lia. change (1 mod 2) with 1.
  destruct (Z.eqb_spec (s mod 2) 1) as [->|Hne]; [done|]. by replace (s mod 2) with 0 by lia.
Qed.

(** A reader's handle is valid after some writes began or ended exactly when
    their number is a multiple of 2^64: below that, none did, and what was read
    is consistent if the handle was not write locked. Beginning a write succeeds
    exactly if no write was open, and ending one exactly if one was. *)
Lemma sequential_lock_spec s ws :
  in_width 64 s ->
  let handle := begin_read s in
  (is_read_valid handle (fst (run ws s)) = true <-> zlen ws mod 2 ^ 64 = 0) /\
  (zlen ws < 2 ^ 64 -> is_read_valid handle (fst (run ws s)) = true <-> ws = []) /\
  snd (begin_write s) = negb (is_write_locked s) /\ snd (end_write s) = is_write_locked s.
Proof.
  intros Hs handle. assert (Hv : is_read_valid handle (fst (run ws s)) = true <-> zlen ws mod 2 ^ 64 = 0).
  { rewrite run_sequence by done. unfold is_read_valid, handle, begin_read, u64, wrap. rewrite Z.eqb_eq.
    unfold in_width in Hs. pose proof (Z.mod_pos_bound (zlen ws) (2 ^ 64) ltac:(lia)) as Hm. rewrite <- Zplus_mod_idemp_r.
    set (k := zlen ws mod 2 ^ 64) in *. destruct (Z_lt_le_dec (s + k) (2 ^ 64)).
    - rewrite Z.mod_small by lia. lia.
    - rewrite <- (Z_mod_plus_full (s + k) (-1)), Z.mod_small by lia. lia. }
  split_and!; [done| | |].
  - intros Hl. rewrite Hv. split; [|by intros ->]. rewrite Z.mod_small by (unfold zlen in *; lia). unfold zlen. by destruct ws.
  - cbn [begin_write snd]. by apply write_locked_increment.
  - cbn [end_write snd]. rewrite write_locked_increment. apply negb_involutive.
Qed.
End sequential_lock.

(** ** Flush locks *)

Module flush_lock.

(** The lock, and whether its file exists. [created] is whether the file system
    creates the file; [remove] returns whether there was a file. *)
Record t := mk { locked : bool; file : bool }.

Definition construct (file : bool) : t := mk false file.
Definition try_lock (s : t) : bool := negb (file s).

Definition lock_shared (created : bool) (s : t) : t * bool :=
  if locked s then (s, true) else (mk created (file s || created), created).

Definition unlock_shared (s : t) : t * bool :=
  if negb (locked s) then (s, true) else let removed := file s in (mk (negb removed) false, removed).

(** A process that ends without unlocking leaves the file: the next one cannot
    lock. A lock and its unlock leave no file. *)
Lemma flush_lock_spec s :
  (locked s = false -> try_lock (construct (file (fst (lock_shared true s)))) = false) /\
  (locked s = false -> snd (lock_shared true s) = true /\
   unlock_shared (fst (lock_shared true s)) = (mk false false, true) /\
   lock_shared true (fst (lock_shared true s)) = (fst (lock_shared true s), true)).
Proof. by destruct s as [[] []]. Qed.
End flush_lock.
