(* ===== verification/Unicode.v ===== *)
(** Text conversion: [src/unicode/unicode.cpp], which finds where a buffer is
    cut within a character, and [src/unicode/unicode_streambuf.cpp], which
    converts a stream of bytes through a buffer. The conversion of whole text is
    a library's. *)

From S2P Require Import Prelude.

(** [boost::locale::conv::utf_to_utf] with the method [stop]; [None]: it
    throws. A wide character is a number. *)
Class Locale := {
  utf_to_wide : list Z -> option (list Z);
  utf_to_narrow : list Z -> option (list Z)
}.

Module unicode.

Definition utf8_max_character_size : nat := 4.

Definition is_utf8_trailing_byte (byte : Z) : bool := Z.land 0xC0 byte =? 0x80.

(** [sequence] is what is left of the text from the start of the sequence. *)
Definition is_utf8_character_sequence (sequence : list Z) (bytes : nat) : bool :=
  let at_ i := nth i sequence 0 in
  match bytes with
  | 1%nat => Z.land 0x80 (at_ 0%nat) =? 0x00
  | 2%nat => (Z.land 0xE0 (at_ 0%nat) =? 0xC0) && is_utf8_trailing_byte (at_ 1%nat)
  | 3%nat => (Z.land 0xF0 (at_ 0%nat) =? 0xE0) && is_utf8_trailing_byte (at_ 1%nat) &&
             is_utf8_trailing_byte (at_ 2%nat)
  | 4%nat => (Z.land 0xF8 (at_ 0%nat) =? 0xF0) && is_utf8_trailing_byte (at_ 1%nat) &&
             is_utf8_trailing_byte (at_ 2%nat) && is_utf8_trailing_byte (at_ 3%nat)
  | _ => false
  end.

(** The loop over the lengths from 1 to 4 that are less than the size. *)
Definition is_terminal_utf8_character (text : list Z) (size : nat) : bool :=
  existsb (fun length => (length <? size)%nat && is_utf8_character_sequence (drop (size - length) text) length)
    (seq 1 utf8_max_character_size).

(** The loop over what is not read, from 0 to 3 and less than the size. *)
Definition offset_to_terminal_utf8_character (text : list Z) (size : nat) : nat :=
  match List.find (fun unread => (unread <? size)%nat && is_terminal_utf8_character text (size - unread))
          (seq 0 utf8_max_character_size) with
  | Some unread => unread
  | None => 0%nat
  end.

Section Conversion.
Context `{Locale}.

Definition to_utf8 (wide : list Z) : option (list Z) := utf_to_narrow wide.
Definition to_utf16 (narrow : list Z) : option (list Z) := utf_to_wide narrow.

(** [to_utf8] into a buffer of [out_bytes]; [None]: it throws. *)
Definition to_utf8_buffer (out_bytes : nat) (wide : list Z) : option (list Z) :=
  if (length wide =? 0)%nat then Some []
  else
    let narrow := default [] (to_utf8 wide) in
    let bytes := length narrow in
    if (bytes =? 0)%nat then None else if (out_bytes <? bytes)%nat then None else Some narrow.

(** [to_utf16] into a buffer of [out_chars], with the number of bytes that were
    cut off. *)
Definition to_utf16_buffer (out_chars : nat) (text : list Z) : option (list Z * nat) :=
  let in_bytes := length text in
  let truncated := offset_to_terminal_utf8_character text in_bytes in
  if (in_bytes =? 0)%nat then Some ([], truncated)
  else
    let wide := default [] (to_utf16 (take (in_bytes - truncated) text)) in
    let chars := length wide in
    if (chars =? 0)%nat then None else if (out_chars <? chars)%nat then None else Some (wide, truncated).
End Conversion.

(** ** Characters *)

(** The size of the character that a byte leads, in the encoding. *)
Definition led_size (b : Z) : option nat :=
  if Z.land 0x80 b =? 0x00 then Some 1%nat
  else if Z.land 0xE0 b =? 0xC0 then Some 2%nat
  else if Z.land 0xF0 b =? 0xE0 then Some 3%nat
  else if Z.land 0xF8 b =? 0xF0 then Some 4%nat
  else None.

(** A character, or its first bytes: a leading byte and trailing bytes. *)
Definition led (n : nat) (c : list Z) : Prop :=
  match c with
  | b :: trail => byte_ok b /\ led_size b = Some n /\ Forall (fun t => byte_ok t /\ is_utf8_trailing_byte t = true) trail
  | [] => False
  end.

Definition character (c : list Z) : Prop := led (length c) c.

(** The start of a character that is cut, possibly before its first byte. *)
Definition cut (part : list Z) : Prop := part = [] \/ exists n, led n part /\ (length part < n)%nat.

Lemma led_classes b : byte_ok b ->
  match led_size b with
  | Some n => (1 <= n <= 4)%nat /\ is_utf8_trailing_byte b = false /\
      forall k, (1 <= k <= 4)%nat -> match k with
        | 1%nat => Z.land 0x80 b =? 0x00 | 2%nat => Z.land 0xE0 b =? 0xC0
        | 3%nat => Z.land 0xF0 b =? 0xE0 | _ => Z.land 0xF8 b =? 0xF0 end = (k =? n)%nat
  | None => True
  end.
Proof.
  intros Hb. assert (Hall : forallb (fun i => let b := Z.of_nat i in
    match led_size b with
    | Some n => ((1 <=? n) && (n <=? 4))%nat && negb (is_utf8_trailing_byte b) &&
        forallb (fun k => Bool.eqb (match k with
        | 1%nat => Z.land 0x80 b =? 0x00 | 2%nat => Z.land 0xE0 b =? 0xC0
        | 3%nat => Z.land 0xF0 b =? 0xE0 | _ => Z.land 0xF8 b =? 0xF0 end) (k =? n)%nat) (seq 1 4)
    | None => true
    end) (seq 0 256) = true) by by vm_compute.
  rewrite forallb_forall in Hall. specialize (Hall (Z.to_nat b)). cbv zeta in Hall.
  rewrite Z2Nat.id in Hall by apply Hb. unfold byte_ok in Hb.
  assert (Hin : In (Z.to_nat b) (seq 0 256)) by (apply in_seq; lia). specialize (Hall Hin).
  destruct (led_size b) as [n|]; [|done]. apply andb_true_iff in Hall as [Hall Hk]. apply andb_true_iff in Hall as [Hn Ht].
  apply andb_true_iff in Hn as [H1 H4]. apply Nat.leb_le in H1, H4. apply negb_true_iff in Ht. split_and!; [done|done|done|].
  intros k Hr. rewrite forallb_forall in Hk. apply Bool.eqb_prop, Hk, in_seq. lia.
Qed.

Lemma led_not_trailing b n : byte_ok b -> led_size b = Some n -> is_utf8_trailing_byte b = false.
Proof. intros Hb Hn. pose proof (led_classes b Hb) as Hc. rewrite Hn in Hc. apply Hc. Qed.

(** A sequence is a leading byte of its size and trailing bytes. *)
Lemma sequence_spec seq_ k :
  (1 <= k <= 4)%nat -> byte_ok (nth 0 seq_ 0) ->
  is_utf8_character_sequence seq_ k = true <->
  led_size (nth 0 seq_ 0) = Some k /\ (forall i, (1 <= i < k)%nat -> is_utf8_trailing_byte (nth i seq_ 0) = true).
Proof.
  intros Hk Hb. pose proof (led_classes _ Hb) as Hc.
  assert (Hlead : forall t, (match k with
        | 1%nat => Z.land 0x80 (nth 0 seq_ 0) =? 0x00 | 2%nat => Z.land 0xE0 (nth 0 seq_ 0) =? 0xC0
        | 3%nat => Z.land 0xF0 (nth 0 seq_ 0) =? 0xE0 | _ => Z.land 0xF8 (nth 0 seq_ 0) =? 0xF0 end) && t = true <->
      led_size (nth 0 seq_ 0) = Some k /\ t = true).
  { intros t. rewrite andb_true_iff. destruct (led_size (nth 0 seq_ 0)) as [n|] eqn:E.
    - destruct Hc as (Hn & _ & Hc). rewrite Hc by done. rewrite Nat.eqb_eq. split; intros [H1 H2]; split; congruence.
    - split; [|intros [H1 _]; done]. intros [H1 _]. exfalso. revert E. unfold led_size.
      destruct k as [|[|[|[|[|k]]]]]; try lia; rewrite H1; repeat case_match; done. }
  assert (Hall : forall P : nat -> Prop, (forall i, (1 <= i < k)%nat -> P i) <->
    match k with 2%nat => P 1%nat | 3%nat => P 1%nat /\ P 2%nat | 4%nat => (P 1%nat /\ P 2%nat) /\ P 3%nat | _ => True end).
  { intros P. destruct k as [|[|[|[|[|k]]]]]; try lia; split; intros HP; split_and?; try (apply HP; lia); try done;
      intros i Hi; destruct i as [|[|[|[|i]]]]; try lia; try apply HP. }
  rewrite Hall. destruct k as [|[|[|[|[|k]]]]]; try lia; cbn [is_utf8_character_sequence].
  - rewrite <- (andb_true_r (_ =? _)), Hlead. tauto.
  - rewrite Hlead. done.
  - rewrite <- andb_assoc, Hlead, andb_true_iff. done.
  - rewrite <- !andb_assoc, Hlead, !andb_true_iff. tauto.
Qed.

(** Where the last leading byte of a text is, if it leads a character of size
    [m]. *)
Definition last_lead (text : list Z) (size q m : nat) : Prop :=
  (q < size <= length text)%nat /\ led_size (nth q text 0) = Some m /\
  forall i, (q < i < size)%nat -> is_utf8_trailing_byte (nth i text 0) = true.

Lemma text_byte text i : bytes_ok text -> byte_ok (nth i text 0).
Proof.
  intros Hb. destruct (nth_in_or_default i text 0) as [Hi| ->]; [|by vm_compute].
  unfold bytes_ok in Hb. rewrite Forall_forall in Hb. apply Hb. by apply list_elem_of_In.
Qed.

Lemma terminal_spec text size q m :
  bytes_ok text -> last_lead text size q m ->
  is_terminal_utf8_character text size = ((q + m =? size) && (0 <? q))%nat.
Proof.
  intros Hb (Hq & Hl & Ht). pose proof (led_classes _ (text_byte text q Hb)) as Hc. rewrite Hl in Hc. destruct Hc as (Hm & Hlt & _).
  assert (Hdrop : forall l i, nth i (drop (size - l) text) 0 = nth (size - l + i) text 0) by (intros; apply nth_skipn).
  apply eq_true_iff_eq. unfold is_terminal_utf8_character. rewrite existsb_exists, andb_true_iff, Nat.eqb_eq, Nat.ltb_lt. split.
  - intros (l & Hin%in_seq & [Hls Hs]%andb_true_iff). unfold utf8_max_character_size in Hin. apply Nat.ltb_lt in Hls.
    apply sequence_spec in Hs as [Hlead Htrail]; [|lia|rewrite Hdrop; by apply text_byte].
    rewrite Hdrop, Nat.add_0_r in Hlead.
    assert (size - l = q)%nat.
    { destruct (Nat.lt_trichotomy (size - l) q) as [H1|[H1|H1]]; [|done|].
      - specialize (Htrail (q - (size - l))%nat ltac:(lia)). rewrite Hdrop in Htrail.
        replace (size - l + (q - (size - l)))%nat with q in Htrail by lia. congruence.
      - specialize (Ht (size - l)%nat ltac:(lia)). apply led_not_trailing in Hlead; [congruence|by apply text_byte]. }
    subst q. rewrite Hl in Hlead. injection Hlead as ->. lia.
  - intros [Hs H0]. exists m. split; [apply in_seq; unfold utf8_max_character_size; lia|]. apply andb_true_iff.
    split; [apply Nat.ltb_lt; lia|]. apply sequence_spec; [lia|rewrite Hdrop; by apply text_byte|].
    rewrite !Hdrop, Nat.add_0_r. replace (size - m)%nat with q by lia. split; [done|]. intros i Hi. rewrite nth_skipn.
    apply Ht. lia.
Qed.

Lemma led_nth n c : led n c ->
  led_size (nth 0 c 0) = Some n /\ (forall i, (0 < i < length c)%nat -> is_utf8_trailing_byte (nth i c 0) = true) /\ (0 < length c)%nat.
Proof.
  destruct c as [|b trail]; [done|]. intros (_ & Hl & Ht). split_and!; [done| |simpl; lia]. intros i Hi.
  destruct i as [|i]; [lia|]. cbn [nth]. rewrite Forall_forall in Ht. apply Ht. apply list_elem_of_In, nth_In. simpl in Hi. lia.
Qed.

Lemma led_bytes n c : led n c -> bytes_ok c.
Proof.
  destruct c as [|b trail]; [done|]. intros (Hb & _ & Ht). apply Forall_cons_2; [done|].
  eapply Forall_impl; [exact Ht|]. by intros x [Hx _].
Qed.

Lemma lead_in pre c rest n size :
  led n c -> (length pre < size <= length pre + length c)%nat -> last_lead (pre ++ c ++ rest) size (length pre) n.
Proof.
  intros Hc Hs. destruct (led_nth n c Hc) as (Hl & Ht & Hp). split_and!; [lia|rewrite !length_app; lia| |].
  - rewrite app_nth2 by lia. rewrite Nat.sub_diag, app_nth1 by lia. done.
  - intros i Hi. rewrite app_nth2 by lia. rewrite app_nth1 by lia. apply Ht. lia.
Qed.

(** The offset of a text that ends with a character and the start of one. *)
Lemma offset_spec pre c part :
  bytes_ok pre -> character c -> cut part ->
  let text := pre ++ c ++ part in
  offset_to_terminal_utf8_character text (length text) = if (length pre =? 0)%nat then 0%nat else length part.
Proof.
  intros Hpre Hc Hp text. assert (Hpl : (length part < 4)%nat).
  { destruct Hp as [->|(n & Hn & Hl)]; [simpl; lia|]. destruct part as [|b part]; [done|]. destruct Hn as (Hb & Hs & _).
    pose proof (led_classes b Hb) as Hcl. rewrite Hs in Hcl. lia. }
  assert (Hpb : bytes_ok part) by (destruct Hp as [->|(n & Hn & _)]; [constructor|by eapply led_bytes]).
  assert (Hb : bytes_ok text).
  { apply bytes_ok_app. split; [done|]. apply bytes_ok_app. split; [exact (led_bytes _ _ Hc)|done]. }
  assert (Hlen : length text = (length pre + length c + length part)%nat) by (unfold text; rewrite !length_app; lia).
  pose proof (proj2 (proj2 (led_nth _ _ Hc))) as Hc0.
  set (test := fun unread => ((unread <? length text)%nat && is_terminal_utf8_character text (length text - unread))).
  assert (Hshort : forall u, (u < length part)%nat -> test u = false).
  { intros u Hu. unfold test. apply andb_false_iff. right. destruct Hp as [->|(n & Hn & Hl)]; [simpl in Hu; lia|].
    assert (Hll : last_lead text (length text - u) (length (pre ++ c)) n).
    { unfold text at 1. rewrite app_assoc, <- (app_nil_r part) at 1. rewrite <- app_assoc. rewrite (app_assoc pre). apply lead_in; [done|].
      rewrite Hlen, length_app. lia. }
    rewrite (terminal_spec _ _ _ _ Hb Hll), length_app. apply andb_false_iff. left. apply Nat.eqb_neq. lia. }
  assert (Hat : test (length part) = negb (length pre =? 0)%nat).
  { unfold test. destruct (Nat.ltb_spec (length part) (length text)); [|lia]. cbn [andb].
    rewrite (terminal_spec _ _ (length pre) (length c) Hb) by (apply lead_in; [done|lia]).
    destruct (Nat.eqb_spec (length pre + length c) (length text - length part)); [|lia].
    destruct (Nat.ltb_spec 0 (length pre)), (Nat.eqb_spec (length pre) 0); (done || lia). }
  unfold offset_to_terminal_utf8_character. fold test. change (seq 0 utf8_max_character_size) with (seq 0 4).
  destruct (Nat.eqb_spec (length pre) 0) as [E0|E0].
  - assert (Hlong : forall u, (length part < u)%nat -> test u = false).
    { intros u Hu. unfold test. destruct (Nat.ltb_spec u (length text)); [|done]. cbn [andb].
      rewrite (terminal_spec _ _ (length pre) (length c) Hb) by (apply lead_in; [done|lia]).
      apply andb_false_iff. right. apply Nat.ltb_ge. lia. }
    assert (Hnone : forall u, test u = false).
    { intros u. destruct (Nat.lt_trichotomy u (length part)) as [Hu|[->|Hu]]; [by apply Hshort|done|by apply Hlong]. }
    cbn [seq List.find]. by rewrite !Hnone.
  - cbn [seq List.find]. destruct (length part) as [|[|[|[|k]]]] eqn:El; [| | | |lia];
      rewrite ?Hshort by lia; by rewrite Hat.
Qed.
End unicode.

(** What the library's conversion does: it takes one text after another, and
    gives no more wide characters than there are bytes. *)
Class LocaleLaws `{Locale} := {
  wide_nil : utf_to_wide [] = Some [];
  wide_app a b x y : utf_to_wide a = Some x -> utf_to_wide b = Some y -> utf_to_wide (a ++ b) = Some (x ++ y);
  wide_length a x : utf_to_wide a = Some x -> (length x <= length a)%nat;
  wide_nonempty a x : utf_to_wide a = Some x -> a <> [] -> x <> []
}.

Module unicode_streambuf.
Import unicode.

Section Streambuf.
Context `{Locale}.
(** [wide_size_], and the number of characters that the wide buffer takes of
    some, after those it has. *)
Variables (wide_size : nat) (sputn : list Z -> list Z -> nat).

Definition narrow_size : nat := wide_size * utf8_max_character_size.

(** What is between [pbase] and [pptr], and what the wide buffer took. *)
Record t := mk { narrow : list Z; taken : list Z }.

Definition construct : t := mk [] [].

(** [overflow]; no character and no result are [eof]. After a write that failed
    the buffer stays full. [None]: it throws, or the character is written past
    the end of the buffer. *)
Definition overflow (character : option Z) (s : t) : option (t * option Z) :=
  let narrow := narrow s ++ match character with Some c => [u8 c] | None => [] end in
  let write := length narrow in
  if (narrow_size <? write)%nat then None
  else if (0 <? write)%nat then
    '(wide, unwritten) ← to_utf16_buffer narrow_size narrow;
    let written := sputn (taken s) wide in
    let taken := taken s ++ take written wide in
    if negb (written =? length wide)%nat then Some (mk narrow taken, None)
    else Some (mk (drop (write - unwritten) narrow) taken, character)
  else Some (mk [] (taken s), character).

(** [sync]: the result is 0 for success. *)
Definition sync (s : t) : option (t * Z) :=
  '(s, result) ← overflow None s; Some (s, match result with None => 0 | Some _ => -1 end).

(** [sputc]: the buffer is exposed but for its last byte. *)
Definition sputc (c : Z) (s : t) : option (t * option Z) :=
  if (length (narrow s) <? narrow_size - 1)%nat then Some (mk (narrow s ++ [u8 c]) (taken s), Some c)
  else overflow (Some c) s.

(** [sputn], which stops at the first character that is not taken: the number
    of those that were. *)
Fixpoint sputn_narrow (text : list Z) (s : t) : option (t * nat) :=
  match text with
  | [] => Some (s, 0%nat)
  | c :: text =>
      '(s, result) ← sputc c s;
      match result with
      | None => Some (s, 0%nat)
      | Some _ => '(s, count) ← sputn_narrow text s; Some (s, S count)
      end
  end.

(** [underflow] of the wide characters that were read: what is put into the
    buffer, or nothing at the end. *)
Definition underflow (wide : list Z) : option (option (list Z)) :=
  if (length wide =? 0)%nat then Some None else narrow ← to_utf8_buffer narrow_size wide; Some (Some narrow).

(** ** Whole text *)

Context `{!LocaleLaws}.
Hypothesis wide_enough : (2 <= wide_size)%nat.
Hypothesis takes_some : forall before wide, (sputn before wide <= length wide)%nat.

(** A wide buffer that never refuses a character. *)
Definition takes_all : Prop := forall before wide, sputn before wide = length wide.

(** A character that the library converts. *)
Definition convertible (c : list Z) : Prop := character c /\ exists w, utf_to_wide c = Some w.

Lemma convert_all cs : Forall convertible cs -> exists w, utf_to_wide (concat cs) = Some w.
Proof.
  induction 1 as [|c cs [_ [w Hw]] _ [ws Hws]]; [exists []; apply wide_nil|].
  exists (w ++ ws). by apply wide_app.
Qed.

Lemma character_size c : character c -> (1 <= length c <= 4)%nat.
Proof.
  destruct c as [|b trail]; [done|]. intros (Hb & Hl & _). pose proof (led_classes b Hb) as Hc. rewrite Hl in Hc. lia.
Qed.

Lemma led_prefix n c part rest : led n c -> c = part ++ rest -> part <> [] -> led n part.
Proof.
  intros Hc E Hne. destruct part as [|b part]; [done|]. subst c. destruct Hc as (Hb & Hl & Ht).
  split_and!; [done|done|]. apply Forall_app in Ht. apply Ht.
Qed.

(** A prefix of some characters is some of them and the start of one. *)
Lemma prefix_characters cs : forall text rest,
  Forall character cs -> concat cs = text ++ rest ->
  exists es fs part, cs = es ++ fs /\ text = concat es ++ part /\ cut part.
Proof.
  induction cs as [|c cs IH]; intros text rest Hcs E.
  - exists [], [], []. symmetry in E. apply app_eq_nil in E as [-> _]. split_and!; [done|done|by left].
  - apply Forall_cons in Hcs as [Hc Hcs]. cbn [concat] in E.
    destruct (Nat.lt_ge_cases (length text) (length c)) as [Hl|Hl].
    + exists [], (c :: cs), text. split_and!; [done|done|].
      assert (Hp : c = text ++ drop (length text) c).
      { apply (f_equal (take (length text))) in E. rewrite take_app_le in E by lia. rewrite take_app_length in E.
        rewrite <- E at 1. symmetry. apply take_drop. }
      destruct text as [|b text]; [by left|]. right. exists (length c). split; [|done].
      by apply (led_prefix _ c _ _ Hc Hp).
    + assert (Hp : text = c ++ drop (length c) text).
      { apply (f_equal (take (length c))) in E. rewrite take_app_length, take_app_le in E by lia. rewrite E at 1. symmetry. apply take_drop. }
      destruct (IH (drop (length c) text) rest Hcs) as (es & fs & part & -> & Hd & Hcut).
      { apply (f_equal (drop (length c))) in E. rewrite drop_app_length, drop_app_le in E by lia. done. }
      exists (c :: es), fs, part. split_and!; [done| |done]. cbn [concat]. rewrite <- app_assoc, <- Hd. done.
Qed.

Lemma concat_sizes es : Forall character es -> (length (concat es) <= 4 * length es)%nat.
Proof.
  induction 1 as [|c es Hc _ IH]; [done|]. cbn [concat length]. rewrite length_app. pose proof (character_size c Hc). lia.
Qed.

(** A buffer of some converted characters, the last of them not the first of
    the text, and the start of one. *)
Lemma buffer_converts es c part w :
  Forall convertible es -> convertible c -> cut part -> (es <> [] \/ part = []) ->
  (length (concat es ++ c ++ part) <= narrow_size)%nat ->
  utf_to_wide (concat es ++ c) = Some w ->
  to_utf16_buffer narrow_size (concat es ++ c ++ part) = Some (w, length part).
Proof.
  intros Hes [Hc _] Hp Hne Hlen Hw. unfold to_utf16_buffer, to_utf16.
  assert (Hbytes : bytes_ok (concat es)).
  { clear - Hes. induction Hes as [|x es [Hx _] _ IH]; [constructor|]. cbn [concat]. apply bytes_ok_app. split; [exact (led_bytes _ _ Hx)|done]. }
  rewrite (offset_spec _ c part) by done.
  assert (E : (if (length (concat es) =? 0)%nat then 0%nat else length part) = length part).
  { destruct (Nat.eqb_spec (length (concat es)) 0) as [E|]; [|done]. destruct Hne as [Hne| ->]; [|done]. exfalso.
    destruct es as [|e es]; [done|]. apply Forall_cons in Hes as [[He _] _]. pose proof (character_size e He).
    cbn [concat] in E. rewrite length_app in E. lia. }
  rewrite E. pose proof (character_size c Hc) as Hc4. rewrite app_assoc in *. rewrite length_app in *.
  destruct (Nat.eqb_spec (length (concat es ++ c) + length part) 0) as [E0|_]; [rewrite length_app in E0; lia|].
  replace (length (concat es ++ c) + length part - length part)%nat with (length (concat es ++ c)) by lia.
  rewrite take_app_length, Hw. change (default [] (Some w)) with w. pose proof (wide_length _ _ Hw) as Hwl.
  assert (Hne' : w <> []).
  { apply (wide_nonempty _ _ Hw). intros E1. apply (f_equal length) in E1. rewrite length_app in E1. simpl in E1. lia. }
  destruct (Nat.eqb_spec (length w) 0); [by destruct w|]. destruct (Nat.ltb_spec narrow_size (length w)); [lia|done].
Qed.

Lemma cut_size part : cut part -> (length part < 4)%nat.
Proof.
  intros [->|(n & Hn & Hl)]; [simpl; lia|]. destruct part as [|b part]; [done|]. destruct Hn as (Hb & Hs & _).
  pose proof (led_classes b Hb) as Hcl. rewrite Hs in Hcl. lia.
Qed.

(** What has been written of some characters is converted, but for what is in
    the buffer. *)
Definition streamed (cs : list (list Z)) (text : list Z) (s : t) : Prop :=
  exists ds fs, cs = ds ++ fs /\ utf_to_wide (concat ds) = Some (taken s) /\ text = concat ds ++ narrow s /\
    (length (narrow s) < narrow_size)%nat.

Lemma concat_snoc {A} (l : list (list A)) x : concat (l ++ [x]) = concat l ++ x.
Proof. rewrite concat_app. cbn [concat]. by rewrite app_nil_r. Qed.

(** The overflow of a buffer that holds some characters and the start of one:
    they are converted and leave the buffer, or the wide buffer takes the start
    of what they are converted to and they stay. *)
Lemma overflow_converts cs ds es fs part character s :
  Forall convertible cs -> cs = ds ++ es ++ fs -> cut part -> ((2 <= length es)%nat \/ part = []) ->
  narrow s ++ match character with Some c => [u8 c] | None => [] end = concat es ++ part ->
  (length (concat es ++ part) <= narrow_size)%nat ->
  exists w, utf_to_wide (concat es) = Some w /\
    let n := sputn (taken s) w in
    (overflow character s = Some (mk part (taken s ++ w), character) \/
     ((n < length w)%nat /\
      overflow character s = Some (mk (concat es ++ part) (taken s ++ take n w), None))).
Proof.
  intros Hcs -> Hp Hes Hn Hlen. apply Forall_app in Hcs as [_ Hcs]. apply Forall_app in Hcs as [Hce _].
  unfold overflow. rewrite Hn. destruct (convert_all es Hce) as [w Hw]. exists w. split; [done|]. cbv zeta.
  destruct (Nat.ltb_spec narrow_size (length (concat es ++ part))) as [|_]; [lia|].
  destruct es as [|c es _] using rev_ind.
  - destruct Hes as [Hes| ->]; [simpl in Hes; lia|]. cbn [concat app length Nat.ltb Nat.leb].
    rewrite (wide_nil : utf_to_wide (concat []) = _) in Hw. injection Hw as <-. left. by rewrite app_nil_r.
  - rewrite concat_snoc in *. apply Forall_app in Hce as [Hce Hc]. apply Forall_cons in Hc as [Hc _]. rewrite <- app_assoc in *.
    pose proof (buffer_converts es c part w Hce Hc Hp) as Hbuf.
    pose proof (character_size c (proj1 Hc)) as Hc4.
    destruct (Nat.ltb_spec 0 (length (concat es ++ c ++ part))) as [_|Hz]; [|rewrite !length_app in Hz; lia].
    rewrite Hbuf; [|destruct Hes as [Hes| ->]; [left; intros ->; simpl in Hes; lia|by right]|done|done].
    cbn [mbind option_bind]. pose proof (takes_some (taken s) w) as Hk.
    destruct (Nat.eqb_spec (sputn (taken s) w) (length w)) as [Ek|Ek]; cbn [negb]; [left|right; split; [lia|done]].
    rewrite Ek, take_ge by done. do 3 f_equal. rewrite app_assoc, length_app, Nat.add_sub. apply drop_app_length.
Qed.

(** A wide buffer that refused what follows: it holds less than the text. *)
Definition stopped (cs : list (list Z)) (s : t) : Prop :=
  ~ takes_all /\ exists more, more <> [] /\ utf_to_wide (concat cs) = Some (taken s ++ more).

Lemma stopped_at cs ds es fs w s n narrow :
  Forall convertible cs -> cs = ds ++ es ++ fs -> utf_to_wide (concat ds) = Some (taken s) ->
  utf_to_wide (concat es) = Some w -> n = sputn (taken s) w -> (n < length w)%nat ->
  stopped cs (mk narrow (taken s ++ take n w)).
Proof.
  intros Hcs -> Hd Hw En Hn. split; [intros Hall; rewrite Hall in En; lia|].
  apply Forall_app in Hcs as [_ Hcs]. apply Forall_app in Hcs as [_ Hcf]. destruct (convert_all fs Hcf) as [v Hv].
  exists (drop n w ++ v). cbn [taken]. split.
  - intros [E _]%app_eq_nil. apply (f_equal length) in E. rewrite length_drop in E. simpl in E. lia.
  - rewrite <- app_assoc, (app_assoc (take n w)), take_drop, !concat_app. by repeat apply wide_app.
Qed.

Lemma sputc_streamed cs text b rest s :
  Forall convertible cs -> concat cs = text ++ b :: rest -> byte_ok b -> streamed cs text s ->
  exists s', (sputc b s = Some (s', Some b) /\ streamed cs (text ++ [b]) s') \/
    (sputc b s = Some (s', None) /\ stopped cs s').
Proof.
  intros Hcs E Hb (ds & fs & Ecs & Hd & Et & Hl). unfold sputc.
  assert (Hu : u8 b = b) by (unfold u8; apply wrap_small, Hb). rewrite Hu.
  destruct (Nat.ltb_spec (length (narrow s)) (narrow_size - 1)) as [Hs|Hs].
  - eexists. left. split; [done|]. exists ds, fs. cbn [narrow taken]. split_and!; [done|done|by rewrite Et, app_assoc|rewrite length_app; simpl; lia].
  - assert (Hfs : concat fs = (narrow s ++ [b]) ++ rest).
    { apply (app_inv_head (concat ds)). rewrite <- concat_app, <- Ecs, E, Et. by rewrite <- !app_assoc. }
    assert (Hch : Forall character fs).
    { rewrite Ecs in Hcs. apply Forall_app in Hcs as [_ Hcs]. eapply Forall_impl; [exact Hcs|]. by intros c [Hc _]. }
    destruct (prefix_characters fs _ _ Hch Hfs) as (es & fs' & part & -> & En & Hp).
    pose proof (cut_size part Hp) as Hp4. pose proof (f_equal length En) as Hlen. rewrite !length_app in Hlen. simpl in Hlen.
    apply Forall_app in Hch as [Hch _]. pose proof (concat_sizes es Hch) as Hsz.
    assert (Hns : narrow_size = (4 * wide_size)%nat) by (unfold narrow_size, utf8_max_character_size; lia).
    destruct (overflow_converts cs ds es fs' part (Some b) s Hcs Ecs Hp) as (w & Hw & Ho);
      [left; lia|by rewrite Hu|rewrite length_app; lia|].
    destruct Ho as [Ho|[Hn Ho]]; rewrite Ho; eexists; [left|right; split; [done|by eapply stopped_at]].
    split; [done|]. exists (ds ++ es), fs'. cbn [narrow taken]. split_and!; [by rewrite <- app_assoc| | |lia].
    + rewrite concat_app. by apply wide_app.
    + rewrite concat_app, <- app_assoc, <- En, Et. by rewrite app_assoc.
Qed.

Lemma sputn_streamed cs rest : forall text s,
  Forall convertible cs -> concat cs = text ++ rest -> bytes_ok rest -> streamed cs text s ->
  exists s' n, sputn_narrow rest s = Some (s', n) /\
    ((n = length rest /\ streamed cs (concat cs) s') \/ ((n < length rest)%nat /\ stopped cs s')).
Proof.
  induction rest as [|b rest IH]; intros text s Hcs E Hb Hs.
  - rewrite app_nil_r in E. rewrite E. exists s, 0%nat. split; [done|by left].
  - apply bytes_ok_cons in Hb as [Hb Hr]. cbn [sputn_narrow length].
    destruct (sputc_streamed cs text b rest s Hcs E Hb Hs) as (s1 & [[-> Hs1]|[-> Hs1]]); cbn [mbind option_bind].
    + destruct (IH (text ++ [b]) s1 Hcs ltac:(by rewrite <- app_assoc) Hr Hs1) as (s' & n & -> & Hn).
      exists s', (S n). split; [done|]. destruct Hn as [[-> ?]|[? ?]]; [by left|right; split; [lia|done]].
    + exists s1, 0%nat. split; [done|right; split; [lia|done]].
Qed.

(** What is left is flushed, or stays if the wide buffer refuses some of it. *)
Lemma sync_streamed cs w s :
  Forall convertible cs -> utf_to_wide (concat cs) = Some w -> streamed cs (concat cs) s ->
  exists s', sync s = Some (s', 0) /\
    ((narrow s' = [] /\ taken s' = w) \/ (narrow s' <> [] /\ stopped cs s')).
Proof.
  intros Hcs Hw (ds & fs & Ecs & Hd & Et & Hl). unfold sync.
  assert (Hn : narrow s = concat fs) by (apply (app_inv_head (concat ds)); by rewrite <- Et, <- concat_app, <- Ecs).
  destruct (overflow_converts cs ds fs [] [] None s Hcs) as (v & Hv & Ho);
    [by rewrite app_nil_r|by left|by right|by rewrite !app_nil_r|rewrite app_nil_r, <- Hn; lia|].
  destruct Ho as [Ho|[Hk Ho]]; rewrite Ho; cbn [mbind option_bind]; eexists; (split; [done|]); [left|right].
  - split; [done|]. cbn [taken]. rewrite Ecs, concat_app in Hw. pose proof (wide_app _ _ _ _ Hd Hv) as E. congruence.
  - split; [|eapply (stopped_at cs ds fs []); [done|by rewrite app_nil_r|done..]].
    cbn [narrow]. rewrite app_nil_r. intros E. rewrite E in Hv. rewrite wide_nil in Hv. injection Hv as <-. simpl in Hk. lia.
Qed.

(** C40: Text of whole characters that the library converts, written byte by
    byte to the stream buffer, which must hold two characters, over a wide
    buffer that takes some number of the characters it is given: if the stream
    buffer takes every byte, the flush reports success and the wide buffer
    then holds a prefix of the library's conversion of the whole text, all of
    it if and only if nothing stays in the stream buffer; if it takes fewer
    bytes, the wide buffer holds a strict prefix of the conversion; and if the
    wide buffer never refuses a character, every byte is taken and the flush
    leaves nothing behind, wherever the buffer overflowed within a character. *)
Theorem streambuf_converts cs :
  Forall convertible cs ->
  exists w s n, utf_to_wide (concat cs) = Some w /\
    sputn_narrow (concat cs) construct = Some (s, n) /\ (n <= length (concat cs))%nat /\
    ((n < length (concat cs))%nat -> taken s <> w /\ taken s `prefix_of` w) /\
    (n = length (concat cs) -> exists s', sync s = Some (s', 0) /\ taken s' `prefix_of` w /\
       (taken s' = w <-> narrow s' = [])) /\
    (takes_all -> n = length (concat cs) /\ sync s = Some (mk [] w, 0)).
Proof.
  intros Hcs. destruct (convert_all cs Hcs) as [w Hw].
  assert (Hb : bytes_ok (concat cs)).
  { clear - Hcs. induction Hcs as [|x cs [Hx _] _ IH]; [constructor|]. cbn [concat]. apply bytes_ok_app. split; [exact (led_bytes _ _ Hx)|done]. }
  assert (Hns : narrow_size = (4 * wide_size)%nat) by (unfold narrow_size, utf8_max_character_size; lia).
  destruct (sputn_streamed cs (concat cs) [] construct) as (s & n & Hs & Hn); [done|done|done| |].
  { exists [], cs. cbn [concat narrow taken construct app]. split_and!; [done|apply wide_nil|done|simpl; lia]. }
  assert (Hstop : forall s, stopped cs s -> taken s <> w /\ taken s `prefix_of` w).
  { intros s0 (_ & more & Hne & Hm). rewrite Hw in Hm. injection Hm as ->. split; [|by exists more].
    intros E. apply Hne, (app_inv_head (taken s0)). by rewrite app_nil_r. }
  exists w, s, n. split_and!; [done|done|destruct Hn as [[-> _]|[? _]]; lia| | |].
  - intros Hlt. destruct Hn as [[-> _]|[_ Hst]]; [lia|]. by apply Hstop.
  - intros ->. destruct Hn as [[_ Hst]|[? _]]; [|lia]. destruct (sync_streamed cs w s Hcs Hw Hst) as (s' & Hsync & Hc).
    exists s'. split; [done|]. destruct Hc as [[E1 E2]|[E1 E2]]; [by rewrite E2|]. destruct (Hstop s' E2). by split.
  - intros Hall. destruct Hn as [[-> Hst]|[_ [Hno _]]]; [|done]. split; [done|].
    destruct (sync_streamed cs w s Hcs Hw Hst) as (s' & -> & [[E1 E2]|[_ [Hno _]]]); [|done].
    destruct s' as [n' tk]. cbn [narrow taken] in *. by subst.
Qed.
End Streambuf.
End unicode_streambuf.
