(* ===== verification/Keoken.v ===== *)
(** The asset protocol of [src/bitprim/keoken]: its messages, the output that
    carries a message, the extraction of a message from a transaction, and the
    wallet functions that make the transactions. *)

From S2P Require Import Prelude Text Limits Endian Reader Writer Binary Codes Operation Script Patterns Chain Compact Data Header Checksum ChainState Transaction Sighash Elliptic Keys Stealth Config TxFunctions.

Module keoken.

Definition protocol_name : list Z := [0x00; 0x00; 0x4b; 0x50].
(** [opcode::push_size_4] *)
Definition push_size_4 : Z := 4.
Definition kp_min_size : Z := push_size_4.
Definition kp_max_size : Z := opcode.push_four_size.
Definition min_asset_name_size : Z := 1.

(** ** Terminated text *)

Section Text.
Context {R : Type} `{Reader R}.

(** [while (source && b != 0)]; the text grows at every turn and is refused at
    [max] bytes, so there are at most [max] turns. *)
Fixpoint read_terminated (turns : nat) (max : Z) (res : list Z) (b : Z) : rd R (option (list Z)) := fun r =>
  if rd_valid r && negb (b =? 0) then
    let res := res ++ [b] in
    if zlen res >=? max then (None, r)
    else match turns with
         | O => (None, r)
         | S turns => (b <~ rd_read_byte ;; read_terminated turns max res b) r
         end
  else (if rd_valid r then Some res else None, r).

Definition read_null_terminated_string (max : Z) : rd R (option (list Z)) :=
  if max =? 0 then rret None
  else b <~ rd_read_byte ;; read_terminated (Z.to_nat max) max [] b.
End Text.

(** ** Messages *)

(** [base::to_data] and [base::serialized_size] *)
Definition base_to_data (version type : Z) : list Z := write_2_bytes_big_endian version ++ write_2_bytes_big_endian type.
Definition base_serialized_size : Z := 2 + 2.

(** An amount is an [int64_t]; it is written as, and read from, a [uint64_t]. *)
Definition amount_of (value : Z) : Z := swrap 64 value.

Module create_asset.

Record t := mk { name : list Z; amount : Z }.
Definition version : Z := 0.
Definition type : Z := 0.
Definition max_name_size : Z := 32 + 1.

Definition set_name (x : list Z) (m : t) : t := mk x (amount m).
Definition set_amount (x : Z) (m : t) : t := mk (name m) x.
Definition eqb (a b : t) : bool := bool_decide (name a = name b) && (amount a =? amount b).

(** [from_data] of what follows the version and the type. *)
Definition from_data {R} `{Reader R} (self : t) : rd R (t * bool) :=
  name_opt <~ read_null_terminated_string max_name_size ;;
  match name_opt with
  | None => rd_invalidate ;;; rret (self, false)
  | Some name =>
      if zlen name <? min_asset_name_size then rd_invalidate ;;; rret (self, false)
      else
        amount <~ read_8_bytes_big_endian ;;
        rd_check (mk name (amount_of amount)) (mk name (amount_of amount))
  end.

(** The bytes of the name and its terminator. *)
Definition to_data (m : t) : list Z :=
  base_to_data version type ++ write_bytes (name m ++ [0]) ++ write_8_bytes_big_endian (u64 (amount m)).

Definition serialized_size (m : t) : Z := base_serialized_size + 8 + zlen (name m) + 1.
End create_asset.

Module send_tokens.

Record t := mk { asset_id : Z; amount : Z }.
Definition version : Z := 0.
Definition type : Z := 1.

Definition set_asset_id (x : Z) (m : t) : t := mk x (amount m).
Definition set_amount (x : Z) (m : t) : t := mk (asset_id m) x.
Definition eqb (a b : t) : bool := (asset_id a =? asset_id b) && (amount a =? amount b).

Definition from_data {R} `{Reader R} : rd R (t * bool) :=
  asset_id <~ read_4_bytes_big_endian ;;
  amount <~ read_8_bytes_big_endian ;;
  rd_check (mk asset_id (amount_of amount)) (mk asset_id (amount_of amount)).

Definition to_data (m : t) : list Z :=
  base_to_data version type ++ write_4_bytes_big_endian (asset_id m) ++ write_8_bytes_big_endian (u64 (amount m)).

Definition serialized_size (m : t) : Z := base_serialized_size + 4 + 8.
End send_tokens.

(** ** Assets *)

Module asset.
Record t := mk { id : Z; name : list Z; amount : Z; owner : payment_address.t }.
Definition eqb (a b : t) : bool := id a =? id b.
End asset.

(** ** Extraction *)

(** [std::equal] runs over the data of the operation, which has four bytes
    behind this opcode unless the operation was cut short. *)
Definition is_protocol (data : list Z) : bool := bool_decide (data = take (List.length data) protocol_name).

(** An empty chunk: it is not an output of the protocol. *)
Definition get_keoken_data (ops : list operation) : list Z :=
  match ops with
  | f :: g :: h :: _ =>
      if negb (code f =? opcode.return_) then []
      else if negb (code g =? push_size_4) then []
      else if negb (is_protocol (op_data g)) then []
      else if code h <? kp_min_size then []
      else if code h >? kp_max_size then []
      else op_data h
  | _ => []
  end.

Section Extract.
Context `{Currency}.

Fixpoint first_of_outputs (outs : list output) : list Z :=
  match outs with
  | [] => []
  | out :: outs =>
      match get_keoken_data (operations (out_script out)) with
      | [] => first_of_outputs outs
      | keo_data => keo_data
      end
  end.

Definition first_keoken_output (tx : transaction) : list Z := first_of_outputs (outputs tx).
End Extract.

(** ** The wallet *)

Section Wallet.
Context `{Currency} `{Boost} `{Crypto} `{Secp256k1} `{StealthHash}.
(** the value of the global prefix of addresses *)
Variable cashaddr_prefix : list Z.

Definition fees : Z := 2000.

Definition create_keoken_output (keoken_message : list Z) : output :=
  new_output 0 (from_operations
    [op_of_code opcode.return_; op_of_data protocol_name true; op_of_data keoken_message true]).

(** The differences of the amounts wrap below zero. *)
Definition tx_encode_create_asset (outputs_to_spend : list point) (asset_owner : payment_address.t)
    (utxo_satoshis : Z) (asset_name : list Z) (asset_amount locktime tx_version script_version : Z) :
    option (error.code * transaction) :=
  let asset := create_asset.mk asset_name asset_amount in
  tx_functions.tx_encode cashaddr_prefix outputs_to_spend [(asset_owner, u64 (utxo_satoshis - fees))]
    [create_keoken_output (create_asset.to_data asset)] locktime tx_version script_version.

Definition tx_encode_send_token (outputs_to_spend : list point) (asset_owner : payment_address.t)
    (utxo_satoshis : Z) (asset_receiver : payment_address.t) (dust asset_id asset_amount : Z)
    (locktime tx_version script_version : Z) : option (error.code * transaction) :=
  let message := send_tokens.mk asset_id asset_amount in
  tx_functions.tx_encode cashaddr_prefix outputs_to_spend
    [(asset_receiver, dust); (asset_owner, u64 (u64 (utxo_satoshis - dust) - fees))]
    [create_keoken_output (send_tokens.to_data message)] locktime tx_version script_version.

Definition sign_and_set (output_script : script) (private_key : list Z) (public_key : ec_public.t) (amount : Z)
    (tx : transaction) : option (error.code * transaction) :=
  let '(ec, sig) := tx_functions.input_signature_bch private_key output_script tx amount 0 sighash_all false in
  if negb (bool_decide (ec = error.success)) then Some (ec, default_transaction)
  else tx_functions.input_set sig public_key tx 0.

(** The transaction that is encoded, signed. *)
Definition complete (raw_tx : option (error.code * transaction)) (output_script : script) (private_key : list Z)
    (public_key : ec_public.t) (amount : Z) : option (error.code * transaction) :=
  '(ec, tx) ← raw_tx;
  if negb (bool_decide (ec = error.success)) then Some (ec, default_transaction)
  else
    '(ec, tx) ← sign_and_set output_script private_key public_key amount tx;
    if negb (bool_decide (ec = error.success)) then Some (ec, default_transaction)
    else Some (error.success, copy_transaction tx).

Definition create_asset_tx_complete (output_to_spend : point) (output_script : script) (private_key : list Z)
    (public_key : ec_public.t) (amount : Z) (addr : payment_address.t) (asset_name : list Z) (asset_amount : Z) :
    option (error.code * transaction) :=
  complete (tx_encode_create_asset [output_to_spend] addr amount asset_name asset_amount 0 1 5)
    output_script private_key public_key amount.

Definition send_token_tx_complete (output_to_spend : point) (output_script : script) (private_key : list Z)
    (public_key : ec_public.t) (amount : Z) (addr_origin addr_dest : payment_address.t) (dust asset_id asset_amount : Z) :
    option (error.code * transaction) :=
  complete (tx_encode_send_token [output_to_spend] addr_origin amount addr_dest dust asset_id asset_amount 0 1 5)
    output_script private_key public_key amount.
End Wallet.
End keoken.
