(* ===== verification/KeokenRules.v ===== *)
(** What the asset protocol guarantees: a message that is within the limits is
    read back from the transaction that carries it, and the wallet's
    transactions pay what is left of the output they spend. *)

From S2P Require Import Prelude Text Limits Endian Reader Writer Binary Codes Number Operation Script Patterns Chain Radix Base16 Base58 Base10 Compact Data Header Checksum ChainState Transaction TxCodec TxRules Mnemonics Sighash Elliptic Keys KeyRules Stealth Config ConfigRules TxFunctions TxFunctionRules Keoken.

Import keoken.

(** ** Terminated text *)

Section Terminated.
Context {R : Type} `{ReaderLaws R}.

(** A text without zeros that is shorter than the limit is read to its end. *)
Lemma read_terminated_reads turns max res b rest l :
  byte_ok b -> b <> 0 -> bytes_ok rest -> Forall (fun c => c <> 0) rest ->
  zlen res + zlen rest + 1 < max -> (length rest < turns)%nat ->
  read_terminated turns max res b (rd_at (rest ++ [0] ++ l)) = (Some (res ++ b :: rest), rd_at l).
Proof.
  intros Hb Hb0 Hr Hz Hm Ht. revert res b turns Hb Hb0 Hm Ht.
  induction rest as [|c rest IH]; intros res b turns Hb Hb0 Hm Ht; (destruct turns as [|turns]; [simpl in Ht; lia|]); cbn [read_terminated].
  - rewrite rd_valid_at. destruct (Z.eqb_spec b 0); [done|]. cbn [andb negb].
    destruct (Z.geb_spec (zlen (res ++ [b])) max) as [Hg|]; [rewrite zlen_app in Hg; change (zlen [b]) with 1 in Hg; change (zlen []) with 0 in Hm; lia|].
    erewrite rbind_eq by (apply (rd_read_byte_at 0 l); by vm_compute). by destruct turns; cbn [read_terminated]; rewrite rd_valid_at.
  - apply bytes_ok_cons in Hr as [Hc Hr]. apply Forall_cons in Hz as [Hc0 Hz].
    assert (E : zlen (c :: rest) = 1 + zlen rest) by (unfold zlen; simpl; lia). rewrite E in Hm.
    rewrite rd_valid_at. destruct (Z.eqb_spec b 0); [done|]. cbn [andb negb].
    destruct (Z.geb_spec (zlen (res ++ [b])) max) as [Hg|].
    { rewrite zlen_app in Hg. change (zlen [b]) with 1 in Hg. pose proof (zlen_nonneg rest). lia. }
    cbn [app]. erewrite rbind_eq by (by apply rd_read_byte_at). rewrite IH; [|done|done|done|done| |simpl in Ht; lia].
    + by rewrite <- app_assoc.
    + rewrite zlen_app. change (zlen [b]) with 1. lia.
Qed.

Lemma read_null_terminated name max l :
  bytes_ok name -> Forall (fun c => c <> 0) name -> name <> [] -> zlen name < max ->
  read_null_terminated_string max (rd_at (name ++ [0] ++ l)) = (Some name, rd_at l).
Proof.
  intros Hb Hz Hne Hm. unfold read_null_terminated_string. pose proof (zlen_nonneg name).
  destruct (Z.eqb_spec max 0); [lia|]. destruct name as [|b rest]; [done|].
  apply bytes_ok_cons in Hb as [Hb Hr]. apply Forall_cons in Hz as [Hb0 Hz].
  unfold zlen in Hm. cbn [length] in Hm. cbn [app].
  erewrite rbind_eq by (by apply rd_read_byte_at).
  rewrite (read_terminated_reads _ _ [] b rest l); [done|done|done|done|done| |lia]. unfold zlen. simpl length. lia.
Qed.

(** A text that reaches the limit before a zero is refused. *)
Lemma read_terminated_long turns max res b rest l :
  byte_ok b -> b <> 0 -> bytes_ok rest -> Forall (fun c => c <> 0) rest ->
  max <= zlen res + zlen rest + 1 ->
  fst (read_terminated turns max res b (rd_at (rest ++ l))) = None.
Proof.
  intros Hb Hb0 Hr Hz Hm. revert res b turns Hb Hb0 Hm.
  induction rest as [|c rest IH]; intros res b turns Hb Hb0 Hm; (destruct turns as [|turns]);
    cbn [read_terminated]; rewrite rd_valid_at; (destruct (Z.eqb_spec b 0); [done|]); cbn [andb negb];
    (destruct (Z.geb_spec (zlen (res ++ [b])) max) as [|Hg]; [done|]);
    rewrite zlen_app in Hg; change (zlen [b]) with 1 in Hg.
  - done.
  - change (zlen []) with 0 in Hm. lia.
  - done.
  - apply bytes_ok_cons in Hr as [Hc Hr]. apply Forall_cons in Hz as [Hc0 Hz].
    assert (E : zlen (c :: rest) = 1 + zlen rest) by (unfold zlen; simpl; lia). rewrite E in Hm.
    cbn [app]. erewrite rbind_eq by (by apply rd_read_byte_at). apply IH; try done.
    rewrite zlen_app. change (zlen [b]) with 1. lia.
Qed.

Lemma read_unterminated name max l :
  bytes_ok name -> Forall (fun c => c <> 0) name -> name <> [] -> 0 < max <= zlen name ->
  fst (read_null_terminated_string max (rd_at (name ++ l))) = None.
Proof.
  intros Hb Hz Hne Hm. unfold read_null_terminated_string. destruct (Z.eqb_spec max 0); [lia|]. destruct name as [|b rest]; [done|].
  apply bytes_ok_cons in Hb as [Hb Hr]. apply Forall_cons in Hz as [Hb0 Hz].
  cbn [app]. erewrite rbind_eq by (by apply rd_read_byte_at). apply read_terminated_long; try done.
  unfold zlen in *. cbn [length] in *. lia.
Qed.
End Terminated.

(** ** Messages *)

Lemma amount_roundtrip v : - 2 ^ 63 <= v < 2 ^ 63 -> amount_of (u64 v) = v.
Proof.
  intros Hv. unfold amount_of, swrap, u64, wrap. change (64 - 1) with 63.
  rewrite Zplus_mod_idemp_l, Z.mod_small by lia. lia.
Qed.

(** A name and an amount that the protocol can carry. *)
Definition create_ok (m : create_asset.t) : Prop :=
  let name := create_asset.name m in
  bytes_ok name /\ Forall (fun c => c <> 0) name /\ 1 <= zlen name <= 32 /\
  - 2 ^ 63 <= create_asset.amount m < 2 ^ 63.

Definition send_ok (m : send_tokens.t) : Prop :=
  in_width 32 (send_tokens.asset_id m) /\ - 2 ^ 63 <= send_tokens.amount m < 2 ^ 63.

Section Messages.
Context {R : Type} `{ReaderLaws R}.

Lemma create_asset_reads self m :
  create_ok m ->
  reads (create_asset.from_data self) (drop 4 (create_asset.to_data m)) (m, true).
Proof.
  intros (Hb & Hz & Hl & Ha) l. unfold create_asset.to_data, base_to_data, write_2_bytes_big_endian, write_bytes.
  change (drop 4 ((to_big_endian 2 create_asset.version ++ to_big_endian 2 create_asset.type) ++ ?x)) with x.
  unfold create_asset.from_data. rewrite <- !app_assoc.
  erewrite rbind_eq by (apply read_null_terminated; [done|done| |unfold create_asset.max_name_size; lia];
    intros E; rewrite E in Hl; change (zlen []) with 0 in Hl; lia).
  unfold min_asset_name_size. destruct (Z.ltb_spec (zlen (create_asset.name m)) 1); [lia|].
  erewrite rbind_eq by (apply (reads_be 8); apply (wrap_bound 64); lia).
  rewrite amount_roundtrip by done. destruct m as [name amount]. apply (reads_check (create_asset.mk name amount)).
Qed.

(** A name without a byte, or that reaches the limit, is written and not read. *)
Lemma create_asset_refused self m l :
  let name := create_asset.name m in
  bytes_ok name -> Forall (fun c => c <> 0) name -> name = [] \/ 33 <= zlen name ->
  snd (fst (create_asset.from_data self (rd_at (drop 4 (create_asset.to_data m) ++ l)))) = false.
Proof.
  intros name Hb Hz Hn. unfold create_asset.to_data, base_to_data, write_2_bytes_big_endian, write_bytes.
  change (drop 4 ((to_big_endian 2 create_asset.version ++ to_big_endian 2 create_asset.type) ++ ?x)) with x.
  unfold create_asset.from_data. fold name. rewrite <- !app_assoc.
  set (tl := [0] ++ write_8_bytes_big_endian (u64 (create_asset.amount m)) ++ l).
  assert (Hr : fst (read_null_terminated_string create_asset.max_name_size (rd_at (name ++ tl))) = None \/
               fst (read_null_terminated_string create_asset.max_name_size (rd_at (name ++ tl))) = Some []).
  { destruct Hn as [->|Hn]; [right|left].
    - unfold tl. cbn [app]. unfold read_null_terminated_string, create_asset.max_name_size.
      change (32 + 1 =? 0) with false. cbv iota.
      erewrite rbind_eq by (apply (rd_read_byte_at 0); by vm_compute).
      destruct (Z.to_nat _); cbn [read_terminated]; by rewrite rd_valid_at.
    - apply read_unterminated; [done|done| |unfold create_asset.max_name_size; lia].
      intros E. rewrite E in Hn. change (zlen []) with 0 in Hn. lia. }
  unfold rbind at 1. destruct (read_null_terminated_string _ _) as [o r]. cbn [fst] in Hr. destruct Hr as [->| ->]; cbn; [|change (zlen [] <? min_asset_name_size) with true; cbv iota]; unfold rbind; by destruct (rd_invalidate r).
Qed.

Lemma send_tokens_reads m :
  send_ok m -> reads send_tokens.from_data (drop 4 (send_tokens.to_data m)) (m, true).
Proof.
  intros [Hi Ha]. unfold send_tokens.to_data, base_to_data, write_2_bytes_big_endian.
  change (drop 4 ((to_big_endian 2 send_tokens.version ++ to_big_endian 2 send_tokens.type) ++ ?x)) with x.
  unfold send_tokens.from_data. eapply reads_bind; [by apply (reads_be 4)|].
  eapply reads_bind_nil; [apply (reads_be 8), (wrap_bound 64); lia|]. rewrite amount_roundtrip by done.
  destruct m as [id amount]. apply reads_check.
Qed.
End Messages.

(** ** The output of a message *)

Section Outputs.
Context `{Currency}.

Lemma keoken_output_data d :
  bytes_ok d -> 4 <= zlen d <= 520 ->
  get_keoken_data (operations (out_script (create_keoken_output d))) = d /\
  Forall operation_wf (operations (out_script (create_keoken_output d))).
Proof.
  intros Hb Hd. unfold create_keoken_output. cbn [new_output out_script]. unfold operations, from_operations. cbn [ops_cache].
  assert (Hm : 2 <= zlen d <= max_push_data_size) by (unfold max_push_data_size; lia). split.
  - destruct (op_of_data_payload d Hm) as [-> _]. cbn [get_keoken_data code op_data].
    assert (Hc : 4 <= opcode_from_size (zlen d) <= 78).
    { unfold opcode_from_size, opcode.push_size_75, opcode.push_one_size, opcode.push_two_size, opcode.push_four_size,
        max_uint8, max_uint16. repeat case_if; bool_to_prop; lia. }
    assert (Hp : op_of_data protocol_name true = mk_operation 4 protocol_name true) by by vm_compute.
    rewrite Hp. cbn [code op_data]. change (opcode.return_ =? opcode.return_) with true. change (4 =? push_size_4) with true.
    change (is_protocol protocol_name) with true. cbn [negb]. unfold kp_min_size, kp_max_size, push_size_4, opcode.push_four_size.
    destruct (Z.ltb_spec (opcode_from_size (zlen d)) 4); [lia|]. destruct (Z.gtb_spec (opcode_from_size (zlen d)) 78); [lia|]. done.
  - repeat apply Forall_cons_2; [apply op_of_code_wf; split; by vm_compute| | |constructor].
    + apply op_of_data_wf; [by repeat constructor|split; by vm_compute].
    + by apply op_of_data_wf.
Qed.

Lemma first_of_outputs_app outs o outs' d :
  Forall (fun o => get_keoken_data (operations (out_script o)) = []) outs ->
  get_keoken_data (operations (out_script o)) = d -> d <> [] -> first_of_outputs (outs ++ o :: outs') = d.
Proof.
  intros Ho Hd Hne. induction Ho as [|x outs Hx _ IH]; cbn [app first_of_outputs].
  - rewrite Hd. by destruct d.
  - by rewrite Hx, IH.
Qed.
End Outputs.

Lemma destiny_no_data `{Currency} `{BoostLaws} `{Crypto} `{Secp256k1} script_version o :
  destiny_ok o -> get_keoken_data (operations (out_script (destiny_output script_version o))) = [].
Proof.
  intros ((_ & _ & Hl & Hb) & _). unfold destiny_output. cbn [new_output out_script].
  destruct (hash_ops_wf _ Hb Hl) as [Hk Hs]. by case_match; rewrite copy_from_operations.
Qed.

Lemma to_data_length_create m :
  create_ok m -> bytes_ok (create_asset.to_data m) /\ zlen (create_asset.to_data m) = create_asset.serialized_size m.
Proof.
  intros (Hb & _ & Hl & _). unfold create_asset.to_data, create_asset.serialized_size, base_to_data, base_serialized_size.
  split.
  - unfold write_bytes, write_2_bytes_big_endian, write_8_bytes_big_endian. rewrite !bytes_ok_app.
    split_and!; try apply bytes_ok_to_big_endian; [done|by repeat constructor].
  - unfold write_bytes, write_2_bytes_big_endian, write_8_bytes_big_endian, zlen. rewrite !length_app, !length_to_big_endian.
    simpl length. lia.
Qed.

Lemma to_data_length_send m :
  bytes_ok (send_tokens.to_data m) /\ zlen (send_tokens.to_data m) = send_tokens.serialized_size m.
Proof.
  unfold send_tokens.to_data, base_to_data, write_2_bytes_big_endian, write_4_bytes_big_endian, write_8_bytes_big_endian. split.
  - rewrite !bytes_ok_app. split_and!; apply bytes_ok_to_big_endian.
  - unfold zlen. rewrite !length_app, !length_to_big_endian. by vm_compute.
Qed.

(** ** The wallet's transactions *)

Section Wallet.
Context `{Currency} `{BoostLaws} `{Crypto} `{!checksum.CryptoLaws} `{Secp256k1} `{StealthHash}.

(** The transaction of an asset message: the points are spent, the destinies
    paid and the message carried. *)
Definition carries (m : list Z) (points : list point) (destinies : list tx_functions.raw_output) (version script_version : Z)
    (result : option (error.code * transaction)) : Prop :=
  exists tx, result = Some (error.success, tx) /\
    first_keoken_output tx = m /\ tx_version tx = version /\ tx_locktime tx = 0 /\
    map previous_output (inputs tx) = map new_output_point points /\
    outputs tx = map (destiny_output script_version) destinies ++ [create_keoken_output m].

Lemma encoded_carries prefix m points destinies version script_version :
  Forall destiny_ok destinies -> bytes_ok m -> 4 <= zlen m <= 520 ->
  carries m points destinies version script_version
    (tx_functions.tx_encode prefix points destinies [create_keoken_output m] 0 version script_version).
Proof.
  intros Hd Hb Hm. rewrite tx_encode_built by done. cbn [Z.eqb]. eexists. split; [done|].
  split_and!; [|done|done| |done].
  - unfold first_keoken_output. cbn [new_transaction outputs]. apply first_of_outputs_app.
    + apply Forall_map. eapply Forall_impl; [exact Hd|]. intros o Ho. by apply destiny_no_data.
    + by apply keoken_output_data.
    + intros ->. change (zlen []) with 0 in Hm. lia.
  - cbn [new_transaction inputs]. rewrite map_map. by apply map_ext.
Qed.

(** C26: The asset protocol's transactions, for an asset name of 1 to 32 bytes
    without a zero byte, amounts of 64 signed bits, an owner and a receiver
    whose hashes are not zero, and a spent and a paid amount within the money
    limit: creating an asset spends the points, pays what is left of the spent
    amount after the fee to the owner and carries a message that is extracted
    from the transaction and read back as the name and amount of the asset, by
    any reader; sending a token does the same with the receiver's amount, the
    change and the token; and an amount below the fee makes the wallet throw,
    since the difference wraps to more than the money there is. A name that is
    empty or longer, without a zero byte, is written and is refused by every
    reader. *)
Theorem asset_messages_carried prefix points owner receiver utxo dust create send version script_version :
  create_ok create -> send_ok send -> destiny_ok (receiver, dust) -> address_ok owner ->
  payment_address.hash owner <> repeat 0 20 -> 0 <= utxo <= max_money true ->
  let created := tx_encode_create_asset prefix points owner utxo (create_asset.name create) (create_asset.amount create)
                   0 version script_version in
  let sent := tx_encode_send_token prefix points owner utxo receiver dust (send_tokens.asset_id send)
                (send_tokens.amount send) 0 version script_version in
  (if utxo <? fees then created = None
   else carries (create_asset.to_data create) points [(owner, utxo - fees)] version script_version created) /\
  (if utxo <? dust + fees then sent = None
   else carries (send_tokens.to_data send) points [(receiver, dust); (owner, utxo - dust - fees)] version script_version sent) /\
  (forall R `(ReaderLaws R),
     (forall self, reads (create_asset.from_data self) (drop 4 (create_asset.to_data create)) (create, true)) /\
     reads send_tokens.from_data (drop 4 (send_tokens.to_data send)) (send, true) /\
     (forall self m l, let name := create_asset.name m in
        bytes_ok name -> Forall (fun c => c <> 0) name -> name = [] \/ 33 <= zlen name ->
        snd (fst (create_asset.from_data self (rd_at (drop 4 (create_asset.to_data m) ++ l)))) = false)).
Proof.
  intros Hc Hs Hr Ho Hh Hu created sent. destruct (max_money_exact true) as [_ Hmax].
  assert (Hdust : 0 <= dust <= max_money true) by apply Hr.
  destruct (to_data_length_create create Hc) as [Hcb Hcl]. destruct (to_data_length_send send) as [Hsb Hsl].
  assert (Hsize : 1 <= zlen (create_asset.name create) <= 32) by apply Hc.
  destruct create as [name amount]. destruct send as [id value]. cbn [create_asset.name create_asset.amount send_tokens.asset_id send_tokens.amount] in *.
  unfold fees in *. split_and!.
  - unfold created, tx_encode_create_asset, fees. destruct (Z.ltb_spec utxo 2000).
    + apply (tx_encode_wrapped _ _ []); (done || lia).
    + unfold u64. rewrite wrap_small by (unfold in_width; lia). apply encoded_carries; [|done|].
      * apply Forall_cons_2; [|constructor]. split_and!; cbn [fst snd]; (done || lia).
      * cbn [create_asset.name]. rewrite Hcl. unfold create_asset.serialized_size, base_serialized_size. cbn [create_asset.name]. lia.
  - unfold sent, tx_encode_send_token, fees. unfold u64, wrap. rewrite Zminus_mod_idemp_l. fold (wrap 64 (utxo - dust - 2000)). fold (u64 (utxo - dust - 2000)).
    destruct (Z.ltb_spec utxo (dust + 2000)).
    + apply (tx_encode_wrapped _ _ [(receiver, dust)]); [by apply Forall_cons_2; [|constructor]|done|lia].
    + unfold u64. rewrite wrap_small by (unfold in_width; lia). apply encoded_carries; [|done|].
      * apply Forall_cons_2; [done|]. apply Forall_cons_2; [|constructor]. split_and!; cbn [fst snd]; (done || lia).
      * rewrite Hsl. by vm_compute.
  - intros R ? ?. split_and!; [intros self; by apply create_asset_reads|by apply send_tokens_reads|].
    intros self m l. apply create_asset_refused.
Qed.
End Wallet.
