(* ===== verification/Hash.v ===== *)
(** The functions of [src/math/hash.cpp] over the digests of
    [src/math/external], as the instances of the interfaces that the rest of the
    development is proved against, with the laws those interfaces ask for. With
    them the theorems hold of the program's own digests, and the blocks that the
    program ships can be checked. *)

From S2P Require Import Prelude Text Limits Endian Sha2 Digests Scrypt Reader Writer Codes Base16 Compact Data Header Checksum Mnemonic ChainState Transaction TxCodec TxRules Block BlockRules EncryptedKeys Stealth HdKeys Config.

Module hash.

Definition sha256_hash (data : list Z) : list Z := SHA256_ data.
Definition ripemd160_hash (data : list Z) : list Z := ripemd160.RMD160 data.
Definition sha1_hash (data : list Z) : list Z := sha1.SHA1_ data.
Definition sha512_hash (data : list Z) : list Z := SHA512_ data.
Definition hmac_sha256_hash (data key : list Z) : list Z := HMACSHA256 data key.
Definition hmac_sha512_hash (data key : list Z) : list Z := HMACSHA512 data key.

(** [sha256_hash(first, second)] *)
Definition sha256_hash_pair (first second : list Z) : list Z :=
  let context := Init sha256 (repeat 0 64) in
  let context := Update sha256 context first in
  let context := Update sha256 context second in
  Final sha256 context.

(** [None]: it throws. *)
Definition pkcs5_pbkdf2_hmac_sha512 (passphrase salt : list Z) (iterations : Z) : option (list Z) :=
  pkcs5_pbkdf2 passphrase salt 64 iterations.

(** The digest of a Litecoin header, of 80 bytes. *)
Definition litecoin_hash `{OpenSSL} (data : list Z) : list Z := litecoin.scrypt_1024_1_1_256 (take 80 data).

(** ** The interfaces *)

(** A library that keeps its promise: the digest of this one. *)
#[export] Instance openssl : OpenSSL := {|
  SHA256_CTX := context;
  SHA256_Init := Init sha256 (repeat 0 64);
  SHA256_Update := Update sha256;
  SHA256_Final := Final sha256
|}.

#[export] Instance openssl_laws : OpenSSLLaws.
Proof. split. intros pieces. exact (digest_pieces sha256 sha256_ok (repeat 0 64) pieces eq_refl). Qed.

Definition crypto : Crypto := {|
  Header.sha256_hash := sha256_hash;
  Header.ripemd160_hash := ripemd160_hash;
  Header.sha1_hash := sha1_hash;
  Header.scrypt_hash := litecoin_hash
|}.

#[export] Instance crypto_laws : @checksum.CryptoLaws crypto.
Proof.
  split; intros data; cbn [Header.sha256_hash Header.ripemd160_hash crypto].
  - apply length_SHA256.
  - apply bytes_SHA256.
  - apply ripemd160.length_RMD160.
  - apply ripemd160.bytes_RMD160.
Qed.

Definition hmac : Hmac := hmac_sha512_hash.

#[export] Instance hmac_laws : @HmacLaws hmac.
Proof. split; intros data key; [apply length_HMACSHA512|apply bytes_HMACSHA512]. Qed.

Definition stealth_hash : StealthHash := {|
  Stealth.hmac_sha256_hash := hmac_sha256_hash;
  Stealth.sha512_hash := sha512_hash
|}.

#[export] Instance stealth_hash_laws : @StealthHashLaws stealth_hash.
Proof. split; intros data; [apply length_SHA512|apply bytes_SHA512]. Qed.

Definition scrypt_hash : ScryptHash := scrypt_array.

#[export] Instance scrypt_laws : @ScryptLaws scrypt_hash.
Proof.
  split. intros size N p r data salt Hsize Hp. apply scrypt_standard_parameters; [done|].
  destruct Hp as [[= -> -> ->]|[= -> -> ->]]; [by left|by right].
Qed.

(** A pair is digested as its concatenation. *)
Lemma sha256_pair first second : sha256_hash_pair first second = sha256_hash (first ++ second).
Proof.
  unfold sha256_hash_pair, sha256_hash, SHA256_. rewrite (digest_standard _ sha256_ok) by done.
  pose proof (digest_pieces sha256 sha256_ok (repeat 0 64) [first; second] eq_refl) as E. cbn [fold_left concat] in E.
  rewrite E. by rewrite app_nil_r.
Qed.

(** C25: The digests of the library are those of the standards over the same
    compression functions, whatever the size of the data, within the bounds of
    the code, and however it was cut into pieces: SHA-256 and SHA-512, SHA-1,
    RIPEMD-160, the two authentication codes, and the two key derivations, of
    any size for the one and of 64 bytes for the other; and the digest of a
    Litecoin header, which works on words and over the digest of OpenSSL, is
    the scrypt of the other file with the parameters 1024, 1 and 1. *)
Theorem digests_standard `{OpenSSLLaws} (data key salt : list Z) (pieces : list (list Z)) (iterations : Z) (size : nat) :
  bytes_ok data -> zlen data <= (2 ^ 64 - 1) / 8 -> zlen salt <= 2 ^ 64 - 1 - 4 -> concat pieces = data ->
  (sha256_hash data = standard sha256 data /\
   Final sha256 (fold_left (Update sha256) pieces (Init sha256 (repeat 0 64))) = standard sha256 data /\
   sha512_hash data = standard sha512 data /\
   Final sha512 (fold_left (Update sha512) pieces (Init sha512 (repeat 0 128))) = standard sha512 data) /\
  (sha1_hash data = sha1.sha1_standard data /\ ripemd160_hash data = ripemd160.ripemd_standard data) /\
  (hmac_sha256_hash data key = hmac_standard sha256 data key /\ hmac_sha512_hash data key = hmac_standard sha512 data key) /\
  pkcs5_pbkdf2_hmac_sha512 data salt iterations = Some (derived data salt iterations 1) /\
  pbkdf2_sha256 data salt iterations size =
    take size (concat (map (fun i => derived256 data salt iterations (Z.of_nat i)) (seq 0 (S (size / 32))))) /\
  Some (litecoin_hash data) = scrypt (take 80 data) (take 80 data) 1024 1 1 32.
Proof.
  intros Hdata Hsize Hsalt <-. refine (conj (conj _ (conj _ (conj _ _))) (conj (conj _ _) (conj (conj _ _) (conj _ (conj _ _))))).
  - exact (digest_standard sha256 sha256_ok (repeat 0 64) (concat pieces) eq_refl).
  - exact (digest_pieces sha256 sha256_ok (repeat 0 64) pieces eq_refl).
  - exact (digest_standard sha512 sha512_ok (repeat 0 128) (concat pieces) eq_refl).
  - exact (digest_pieces sha512 sha512_ok (repeat 0 128) pieces eq_refl).
  - exact (sha1.SHA1_standard _ Hdata Hsize).
  - exact (ripemd160.RMD160_standard _ Hdata).
  - exact (hmac_sha256_standard _ _).
  - exact (hmac_sha512_standard _ _).
  - exact (pbkdf2_standard _ _ _ Hsalt).
  - exact (pbkdf2_sha256_standard _ _ _ _).
  - unfold scrypt. by rewrite litecoin.scrypt_1024_correct.
Qed.

Lemma digests_standard_witness :
  bytes_ok (chars "abc") /\ sha1_hash (chars "abc") = sha1.sha1_standard (chars "abc") /\
  ripemd160_hash (chars "abc") = ripemd160.ripemd_standard (chars "abc").
Proof.
  assert (H : bytes_ok (chars "abc")) by (repeat constructor; cbv; (discriminate || reflexivity)).
  split; [exact H|].
  exact (proj1 (proj2 (digests_standard (chars "abc") [] [] [chars "abc"] 1 32 H ltac:(discriminate) ltac:(discriminate) eq_refl))).
Defined.
End hash.

(** ** The blocks that the program ships

    Each decodes, has the hash that the first checkpoint of its network names,
    and passes every check that needs no context. *)

Module genesis.

#[local] Existing Instance hash.crypto.

(** [block::genesis_mainnet], [genesis_testnet] and [genesis_regtest] *)
Definition genesis_of `{Currency} (data : list Z) : block * bool :=
  fst (block_from_data false (new_block default_header []) (Istream.mk data false false)).

Definition genesis_block `{Currency} (network : config.settings) : block * bool :=
  genesis_of
    (match network with
     | config.testnet => testnet_genesis_data
     | config.regtest => regtest_genesis_data
     | _ => mainnet_genesis_data
     end).

(** The settings of the networks. *)
Definition easy_blocks_of (network : config.settings) : bool :=
  match network with config.testnet => true | _ => false end.
Definition retarget_of (network : config.settings) : bool :=
  match network with config.regtest => false | _ => true end.

(** The blocks as the checks see them at a time after they were made. *)
Definition genesis_checks `{Currency} (network : config.settings) : bool :=
  let '(b, valid) := genesis_block network in
  let first := hd (mk_checkpoint null_hash 1) (config.default_checkpoints (easy_blocks_of network) (retarget_of network)) in
  valid && match block_check None 1300000000 b with Some error.success => true | _ => false end &&
  bool_decide (block_hash b = cp_hash first) && (cp_height first =? 0) &&
  fst (is_valid_proof_of_work None (retarget_of network) (bk_header b)) && (zlen (transactions b) =? 1).

(** Every genesis block of Bitcoin and of Bitcoin Cash decodes to a block of
    one transaction that passes its checks, with the proof of work of its
    network, and is the checkpoint of the network at height zero. *)
Theorem genesis_blocks_valid (c : currency) (network : config.settings) :
  c <> litecoin -> network <> config.none ->
  @genesis_checks c network = true.
Proof.
  intros Hc Hn. destruct c; [| |by destruct Hc]; (destruct network; [by destruct Hn| | |]); vm_compute; reflexivity.
Qed.

(** The constant for the activation of BIP 34 on the test network of a single
    node is the hash of its genesis block with its bytes reversed, so the block
    is not the one the constant names. *)
Lemma regtest_activation_reversed :
  let hash := block_hash (fst (@genesis_block bitcoin config.regtest)) in
  cp_hash (@regtest_bip34_active_checkpoint bitcoin) = rev hash /\
  cp_hash (@regtest_bip34_active_checkpoint bitcoin) <> hash.
Proof. split; vm_compute; [reflexivity|discriminate]. Qed.
End genesis.
