(* ===== verification/Samples.v ===== *)
(** Concrete inputs, and each property applied to one of them: instances of the
    interfaces the development leaves abstract, a chain state, a block that is
    checked, accepted and connected, and its transactions. *)

From S2P Require Import Prelude Limits Endian Reader Writer Codes Number Operation Script Patterns Chain Base16 Compact Header ChainState Transaction TxCodec TxRules Block BlockRules Sighash Program Interpreter InterpRules.

(** ** Instances *)

#[local] Instance sample_currency : Currency := bitcoin.

(** A checksum in place of the digests: the size is right, and short messages
    that differ have different values. *)
Definition sample_digest (size : nat) (data : list Z) : list Z :=
  repeat 0 (size - 1) ++ [u8 (fold_right (fun b acc => u32 (b + 31 * acc)) 7 data / 256)].

Definition sample_sha256 (data : list Z) : list Z := rev (sample_digest 32 data).

#[local] Instance sample_crypto : Crypto := {|
  sha256_hash := sample_sha256;
  ripemd160_hash := sample_digest 20;
  sha1_hash := sample_digest 20;
  scrypt_hash := sample_sha256
|}.

(** A signature is the key itself. *)
#[local] Instance sample_ecdsa : Ecdsa := {|
  parse_signature := fun distinguished _ => if zlen distinguished =? 0 then None else Some distinguished;
  verify_signature := fun key _ signature => bool_decide (key = signature)
|}.

(** ** A chain state, two transactions and a block *)

Definition sample_data : chain_data :=
  mk_chain_data 5 (repeat 9 32) null_hash null_hash null_hash 0x207fffff [0x207fffff] 1 []
    1300000600 1300000000 [1300000100; 1300000500; 1300000300; 1300000200; 1300000400].

Definition sample_state : chain_state :=
  mk_chain_state sample_data 0 [] (mk_activations 0 1) 1300000300 0x207fffff 0 0.

(** A coinbase and a spend of an output that pays to [1]. *)
Definition coinbase_input : input :=
  mk_input (new_output_point (new_point null_hash null_index)) (script_of_bytes [1; 5])
    reset_witness max_input_sequence.

Definition sample_coinbase : transaction :=
  new_transaction 1 0 [coinbase_input] [new_output 5000000700 (script_of_bytes [0x51])].

Definition spent_output : output := new_output 1000 (script_of_bytes [0x51]).

Definition spending_input : input :=
  mk_input (mk_output_point (new_point (repeat 1 32) 2) false true false 1 0 spent_output)
    (script_of_bytes []) reset_witness max_input_sequence.

Definition sample_spend : transaction :=
  new_transaction 1 0 [spending_input] [new_output 300 (script_of_bytes [0x51])].

Definition sample_header : header :=
  new_header 1 (repeat 9 32)
    (merkle_root [fst (tx_hash false sample_coinbase); fst (tx_hash false sample_spend)])
    1300000700 0x207fffff 0.

Definition sample_block : block := new_block sample_header [sample_coinbase; sample_spend].

Lemma sample_block_checked : block_check None 1300000000 sample_block = Some error.success.
Proof. vm_compute. reflexivity. Qed.

Lemma sample_block_accepted : block_accept_state sample_state true sample_block = Some error.success.
Proof. vm_compute. reflexivity. Qed.

Lemma sample_block_connected : block_connect_state sample_state sample_block = error.success.
Proof. vm_compute. reflexivity. Qed.

Lemma sample_values_ok : Forall (fun t => coherent t /\ values_ok t) (transactions sample_block).
Proof.
  repeat apply Forall_cons_2; [| |apply Forall_nil_2].
  all: split; [apply new_transaction_coherent|split; apply Forall_cons_2; (by vm_compute || constructor)].
Qed.

(** ** The properties at these inputs *)

Lemma block_conserves_witness :
  sum_outputs (outputs sample_coinbase) <= sum_fees [sample_spend] + subsidy 5 true.
Proof.
  apply (block_conserves None 1300000000 sample_state sample_block sample_coinbase [sample_spend]).
  - apply sample_block_checked.
  - apply sample_block_accepted.
  - reflexivity.
  - reflexivity.
  - apply sample_values_ok.
  - reflexivity.
Defined.

Lemma checked_accepted_conserves_witness :
  sum_outputs (outputs sample_spend) <= sum_inputs (inputs sample_spend) /\
  sum_outputs (outputs sample_spend) <= max_money true /\
  fees sample_spend = Z.min (umax 64) (sum_inputs (inputs sample_spend)) - sum_outputs (outputs sample_spend).
Proof.
  apply (checked_accepted_conserves sample_state true true sample_spend).
  - apply new_transaction_coherent.
  - split; apply Forall_cons_2; (by vm_compute || constructor).
  - reflexivity.
  - vm_compute. reflexivity.
  - vm_compute. reflexivity.
Defined.

Lemma block_connect_success_witness : input_verified sample_state sample_spend 0 spending_input.
Proof.
  pose proof (proj1 (block_connect_success sample_state sample_block eq_refl) sample_block_connected)
    as Hall.
  apply Hall; [right; left; reflexivity|reflexivity|reflexivity].
Defined.

Definition sample_key : list Z := 2 :: repeat 7 32.

(** The state of a machine with no script. *)
Definition sample_program : program := input_program reset_script sample_spend 0 0.

Lemma key_hash_spend_witness :
  key_hash sample_key = key_hash sample_key /\
  exists signed,
    parse_signed (key_hash_state (from_operations (to_pay_key_hash_pattern (key_hash sample_key))) 4 [] sample_program) (sample_key ++ [1]) =
      inr signed /\
    check_key (key_hash_state (from_operations (to_pay_key_hash_pattern (key_hash sample_key))) 4 [] sample_program)
      (script_code_of (key_hash_state (from_operations (to_pay_key_hash_pattern (key_hash sample_key))) 4 [] sample_program) [sample_key ++ [1]])
      signed sample_key = true.
Proof.
  apply (key_hash_spend (from_operations (to_pay_key_hash_pattern (key_hash sample_key))) (key_hash sample_key) sample_key (sample_key ++ [1]) [] sample_program).
  - split; reflexivity.
  - reflexivity.
  - done.
  - eexists. split; [vm_compute; reflexivity|reflexivity].
Defined.

(** One, one and their sum. *)
Lemma evaluate_success_witness :
  let p := input_program (script_of_bytes [0x51; 0x51; 0x93]) sample_spend 0 0 in
  Forall within_limits (turns 0 (operations (p_script p)) p) /\
  primary (snd (evaluate p)) = [[2]] /\ operation_count (snd (evaluate p)) = 1.
Proof.
  edestruct (evaluate_success (input_program (script_of_bytes [0x51; 0x51; 0x93]) sample_spend 0 0))
    as (_ & _ & _ & _ & Hw & _).
  - vm_compute. reflexivity.
  - reflexivity.
  - reflexivity.
  - split; [exact Hw|]. vm_compute. split; reflexivity.
Defined.

(** A copy that takes the hash of the transaction, and another version. *)
Lemma reachable_accessors_witness :
  let t := set_version 2 (copy_with_hash sample_spend (computed_hash sample_spend)) in
  fst (tx_hash false t) = computed_hash t.
Proof.
  apply (reachable_accessors (set_version 2 (copy_with_hash sample_spend (computed_hash sample_spend)))).
  eapply reach_step; [eapply reach_step; [apply reach_new|apply step_copy_hash]|].
  apply step_set_version.
Defined.

(** A transaction with a witness, of the wire and of the store. *)
Definition witness_input : input :=
  mk_input (new_output_point (new_point (repeat 1 32) 2)) (script_of_bytes [])
    (mk_witness [sample_key ++ [1]; sample_key] true) 5.

Definition sample_segwit : transaction :=
  new_transaction 2 7 [witness_input] [new_output 300 (script_of_bytes [0x51])].

(** Proves the well-formedness of a concrete value. *)
Ltac concrete_wf :=
  repeat match goal with
  | |- _ /\ _ => split
  | |- Forall _ [] => apply Forall_nil_2
  | |- Forall _ (_ :: _) => apply Forall_cons_2
  | |- script_wf _ => apply (bool_decide_unpack _); vm_compute; exact I
  | |- byte_ok _ => apply (bool_decide_unpack _); vm_compute; exact I
  | |- bytes_ok _ => apply (bool_decide_unpack _); vm_compute; exact I
  | |- _ = _ => reflexivity
  | |- in_width _ _ => apply (bool_decide_unpack _); vm_compute; exact I
  | |- _ <= _ => apply (bool_decide_unpack _); vm_compute; exact I
  end.

Lemma sample_segwit_wf wire : tx_wf wire true sample_segwit.
Proof.
  unfold tx_wf, output_wf, stack_wf, input_wf, point_wf, element_wf. destruct wire; simpl;
    concrete_wf; cbn; concrete_wf.
  - left. split; concrete_wf. discriminate.
  - unfold witness_wf, element_wf. concrete_wf. cbn. concrete_wf.
Qed.

Lemma tx_wire_roundtrip_witness :
  exists e, tx_to_data true true false sample_segwit = Some e /\
    reads (R := Deserializer.t) (tx_from_data true true false default_transaction) e
      (decoded_tx true default_transaction sample_segwit, true) /\
    tx_to_data true true false (decoded_tx true default_transaction sample_segwit) = Some e.
Proof.
  eexists. split; [vm_compute; reflexivity|].
  apply (tx_wire_roundtrip true sample_segwit default_transaction).
  - apply new_transaction_coherent.
  - apply sample_segwit_wf.
  - discriminate.
  - vm_compute. reflexivity.
Defined.

Definition segwit_block : block := new_block sample_header [sample_segwit].

Lemma block_roundtrip_witness :
  exists e, block_to_data true segwit_block = Some e /\
    reads (R := Deserializer.t) (block_from_data true default_block) e
      (decoded_block true default_block segwit_block, true) /\
    block_to_data true (decoded_block true default_block segwit_block) = Some e.
Proof.
  eexists. split; [vm_compute; reflexivity|].
  apply (block_roundtrip true segwit_block default_block).
  - unfold block_wf, header_wf. cbn -[sample_header]. split; [concrete_wf|]. split; [concrete_wf|].
    apply Forall_cons_2; [|apply Forall_nil_2]. split; [apply sample_segwit_wf|discriminate].
  - apply Forall_cons_2; [|apply Forall_nil_2]. apply new_transaction_coherent.
  - vm_compute. reflexivity.
Defined.

(** A state at a retarget height. *)
Definition retarget_data : chain_data :=
  mk_chain_data 2016 (repeat 9 32) null_hash null_hash null_hash 0x1c123456 [0x1c123456] 1 []
    1300000600 1299000000 [1300000000].

Lemma work_required_retarget_target_witness :
  exists old, from_compact 0x1c123456 = Some old /\
    from_compact (work_required_retarget retarget_data) =
      Some (if pow_limit <? old * retarget_timespan retarget_data / target_timespan_seconds
            then pow_limit
            else truncated (old * retarget_timespan retarget_data / target_timespan_seconds)).
Proof.
  eexists. split; [vm_compute; reflexivity|].
  apply (work_required_retarget_target retarget_data).
  - reflexivity.
  - vm_compute. reflexivity.
  - apply (bool_decide_unpack _). vm_compute. exact I.
Defined.

Lemma operations_lossless_witness :
  (Forall operation_wf [op_of_code 0x51] /\ operations_to_data [op_of_code 0x51] = [0x51]) \/
  (exists good rest, rest <> [] /\ [op_of_code 0x51] = good ++ [reset_operation] /\
     Forall operation_wf good /\ operations_to_data good ++ rest = [0x51]).
Proof.
  apply (operations_lossless [0x51] [op_of_code 0x51]).
  - concrete_wf.
  - vm_compute. reflexivity.
Defined.

Lemma locator_heights_spec_witness :
  exists rest, locator_heights 500000 = Some (rest ++ [0]) /\ descending (rest ++ [0]) /\
    zlen (rest ++ [0]) <= 75 /\ (0 < 500000 -> hd 0 rest = 500000).
Proof. apply (locator_heights_spec 500000). lia. Defined.

(** A machine inside a branch that is not taken. *)
Definition branching_program : program :=
  snd (run_op (op_of_code opcode.if_) (Some 0%nat) (set_primary [[]] sample_program)).

Lemma condition_counter_exact_witness :
  condition branching_program = [false] /\ succeeded branching_program = false.
Proof.
  split; [reflexivity|].
  refine (condition_counter_exact branching_program _).
  apply reach_run, reach_start; reflexivity.
Defined.

(** A spend locked until height 100, and its sequence lock of ten blocks. *)
Definition locked_input : input :=
  mk_input (new_output_point (new_point (repeat 1 32) 2)) (script_of_bytes []) reset_witness 10.

Definition locked_spend : transaction := new_transaction 2 100 [locked_input] [].

Definition locked_program (forks operand : Z) : program :=
  set_primary [number.data operand] (input_program reset_script locked_spend 0 forks).

Lemma compact_forms_witness :
  is_overflowed (compact_of_bits 0xff123456) = true /\
  (let c := compact_of_bits (normal (compact_of_big 0x123456789abc)) in
   big c <= 0x123456789abc < big c + 256 ^ Z.max 0 (normal_exponent 0x123456789abc - 3)).
Proof.
  destruct (compact_forms 0xff123456 0x123456789abc) as ((Ho & _) & (_ & _ & Hb)); [concrete_wf|concrete_wf|].
  split; [exact Ho|exact Hb].
Defined.

Lemma merkle_root_shape_witness :
  merkle_root ([[1]; [2]] ++ [[3]; [4]]) = bitcoin_hash (merkle_root [[1]; [2]] ++ merkle_root [[3]; [4]]) /\
  merkle_root ([[1]; [2]; [3]] ++ [[3]]) = merkle_root [[1]; [2]; [3]].
Proof.
  apply (merkle_root_shape 1 [[1]; [2]] [[3]; [4]] [[1]; [2]; [3]]); [reflexivity|reflexivity|simpl; lia|reflexivity].
Defined.

Lemma lock_time_checks_witness :
  (exists i stack, inputs locked_spend !! 0%nat = Some i /\ sequence i <> max_input_sequence /\
    top max_check_locktime_verify_number_size (locked_program rule_fork.bip65_rule 99) = Some stack) /\
  exists i stack, inputs locked_spend !! 0%nat = Some i /\
    top max_check_sequence_verify_number_size (locked_program rule_fork.bip112_rule 9) = Some stack.
Proof.
  destruct (lock_time_checks (locked_program rule_fork.bip65_rule 99) (locked_program rule_fork.bip112_rule 9)
    eq_refl eq_refl) as [Hl Hs].
  destruct (proj1 Hl eq_refl) as (i & stack & Hi & Hq & Ht & _).
  destruct (proj1 Hs eq_refl) as (i' & stack' & Hi' & Ht' & _).
  split; [exists i, stack; exact (conj Hi (conj Hq Ht))|exists i', stack'; exact (conj Hi' Ht')].
Defined.
