(* ===== verification/WalletSamples.v ===== *)
(** Concrete inputs of the formats, the wallet, the messages and the utilities,
    and each of their properties applied to one of them: a small group in place
    of the curve, and keys, addresses and messages over it. *)

From Stdlib Require Import Ascii.
From S2P Require Import Prelude Aes Text Limits Endian Reader Writer Binary Codes Errors Serializer Number Operation Script Patterns Chain Selection Radix Base16 Base58 Base64 Base10 Mnemonics Cashaddr ConvertBits Compact Data Header Checksum WordsLatin WordsOther Mnemonic Dictionary ChainState Transaction TxCodec TxRules Block BlockRules Sighash Elliptic Keys KeyRules EncryptedKeys EncryptedRules SignedMessage Stealth StealthRules HdKeys Interpreter InterpRules SipHash Message MsgInventory MsgControl MsgBlock Heading Config EncryptedTexts TxFunctions TxFunctionRules Subscribers Locks Unicode Keoken KeokenRules Samples.

(** ** Instances *)

#[local] Instance cash_currency : Currency := bitcoin_cash.
#[local] Existing Instance sample_crypto.

Lemma sample_digest_length size data : (1 <= size)%nat -> length (sample_digest size data) = size.
Proof. intros Hs. unfold sample_digest. rewrite length_app, repeat_length. simpl. lia. Qed.

Lemma sample_digest_bytes size data : bytes_ok (sample_digest size data).
Proof.
  apply Forall_app. split; [apply bytes_ok_repeat|].
  apply Forall_cons_2; [apply u8_byte|apply Forall_nil_2].
Qed.

#[local] Instance sample_crypto_laws : checksum.CryptoLaws.
Proof.
  split; intros data; cbn [sha256_hash ripemd160_hash sample_crypto]; unfold sample_sha256.
  - rewrite rev_length. apply sample_digest_length; lia.
  - apply Forall_rev, sample_digest_bytes.
  - apply sample_digest_length; lia.
  - apply sample_digest_bytes.
Qed.

#[local] Instance sample_hmac : Hmac := fun data key =>
  sample_digest 32 (data ++ key) ++ sample_digest 32 (key ++ data).

#[local] Instance sample_hmac_laws : HmacLaws.
Proof.
  split; intros data key; unfold hmac_sha512_hash, sample_hmac.
  - rewrite length_app, !sample_digest_length by lia. done.
  - apply Forall_app. split; apply sample_digest_bytes.
Qed.

(** The group of the numbers modulo 256: a secret stands for its last byte, and
    zero has no public key. A signature holds the public key. *)
Definition secret_value (secret : list Z) : Z := List.last secret 0 mod 256.
Definition key_value (p : ascii) : Z := Z.of_N (N_of_ascii p).
Definition key_of (v : Z) : option ascii :=
  if v mod 256 =? 0 then None else Some (ascii_of_N (Z.to_N (v mod 256))).
Definition padded (size : nat) (v : Z) : list Z := repeat 0 (size - 1) ++ [v mod 256].

(** The encoding of the integers zero and [v]. *)
Definition sample_der (v : Z) : list Z := [0x30; 7; 0x02; 1; 0; 0x02; 2; 0; v mod 256].

#[local] Instance sample_group : Secp256k1 := {|
  pubkey := ascii;
  secp256k1_ec_pubkey_parse := fun point =>
    if (length point =? 33)%nat || (length point =? 65)%nat
    then Some (ascii_of_N (Z.to_N (secret_value point))) else None;
  secp256k1_ec_pubkey_serialize := fun compressed p =>
    if compressed then 2 :: padded 32 (key_value p) else 4 :: padded 64 (key_value p);
  secp256k1_ec_pubkey_tweak_add := fun p tweak => key_of (key_value p + secret_value tweak);
  secp256k1_ec_pubkey_tweak_mul := fun p tweak => key_of (key_value p * secret_value tweak);
  secp256k1_ec_pubkey_create := fun secret => key_of (secret_value secret);
  secp256k1_ec_privkey_tweak_add := fun secret tweak =>
    let v := secret_value secret + secret_value tweak in
    if v mod 256 =? 0 then None else Some (padded 32 v);
  secp256k1_ec_privkey_tweak_mul := fun secret tweak =>
    let v := secret_value secret * secret_value tweak in
    if v mod 256 =? 0 then None else Some (padded 32 v);
  secp256k1_ec_seckey_verify := fun secret => negb (secret_value secret =? 0);
  secp256k1_ecdsa_signature_parse_der := fun der =>
    if (length der =? 9)%nat then Some (padded 64 (List.last der 0)) else None;
  secp256k1_ecdsa_signature_parse_compact := fun bytes => if (length bytes =? 64)%nat then Some bytes else None;
  secp256k1_ecdsa_signature_serialize_der := fun size signature =>
    if (9 <=? size)%nat then Some (sample_der (secret_value signature)) else None;
  secp256k1_ecdsa_signature_normalize := fun signature => signature;
  secp256k1_ecdsa_verify := fun signature _ p => secret_value signature =? key_value p;
  secp256k1_ecdsa_sign := fun _ secret => Some (padded 64 (secret_value secret));
  secp256k1_ecdsa_sign_recoverable := fun _ secret => Some (padded 64 (secret_value secret), 0);
  secp256k1_ecdsa_recover := fun signature _ _ => key_of (secret_value signature)
|}.

Lemma key_value_range p : 0 <= key_value p < 256.
Proof. unfold key_value. pose proof (N_ascii_bounded p). lia. Qed.

Lemma key_value_of v : 0 <= v < 256 -> key_value (ascii_of_N (Z.to_N v)) = v.
Proof. intros Hv. unfold key_value. rewrite N_ascii_embedding by lia. lia. Qed.

Lemma key_of_value p : ascii_of_N (Z.to_N (key_value p)) = p.
Proof. unfold key_value. by rewrite N2Z.id, ascii_N_embedding. Qed.

Lemma sample_padded_length size v : (1 <= size)%nat -> length (padded size v) = size.
Proof. intros Hs. unfold padded. rewrite length_app, repeat_length. simpl. lia. Qed.

Lemma padded_bytes size v : bytes_ok (padded size v).
Proof.
  apply Forall_app. split; [apply bytes_ok_repeat|].
  apply Forall_cons_2; [apply (u8_byte v)|apply Forall_nil_2].
Qed.

Lemma padded_value b size v : secret_value (b :: padded size v) = v mod 256 /\ secret_value (padded size v) = v mod 256.
Proof. unfold secret_value, padded. rewrite app_comm_cons, !last_last. split; apply Z.mod_mod; done. Qed.

Lemma sample_der_bytes v : bytes_ok (sample_der v).
Proof.
  unfold sample_der. do 7 (apply Forall_cons_2; [by vm_compute|]).
  do 1 (apply Forall_cons_2; [by vm_compute || apply (u8_byte v)|]). repeat constructor; apply (u8_byte v).
Qed.

#[local] Instance sample_group_laws : Secp256k1Laws.
Proof.
  split.
  - intros [] p; cbn [secp256k1_ec_pubkey_serialize sample_group length]; by rewrite sample_padded_length by lia.
  - intros [] p; (apply Forall_cons_2; [apply (bool_decide_unpack _); by vm_compute|apply padded_bytes]).
  - intros [] p; [by left|done].
  - intros [] p; cbn [secp256k1_ec_pubkey_parse secp256k1_ec_pubkey_serialize sample_group];
      cbn [length]; rewrite sample_padded_length by lia; simpl (_ || _);
      rewrite (proj1 (padded_value _ _ _)), Z.mod_small by apply key_value_range; by rewrite key_of_value.
  - intros secret _. cbn [secp256k1_ec_pubkey_create secp256k1_ec_seckey_verify sample_group]. unfold key_of.
    unfold secret_value. rewrite Z.mod_mod by done. case_match; simpl; split; try done; by eauto.
  - intros secret tweak p. cbn [secp256k1_ec_pubkey_create secp256k1_ec_pubkey_tweak_add
      secp256k1_ec_privkey_tweak_add sample_group]. unfold key_of at 1.
    case_match; [done|]. intros [= <-].
    rewrite key_value_of by (apply Z.mod_pos_bound; lia).
    unfold secret_value at 1. rewrite Z.mod_mod by done. fold (secret_value secret).
    unfold key_of. case_match; [done|]. cbn [mbind option_bind]. rewrite (proj2 (padded_value 0 _ _)).
    rewrite Z.mod_mod by done. by rewrite H0.
  - intros secret tweak secret'. cbn [secp256k1_ec_privkey_tweak_add sample_group]. cbv zeta.
    case_match; [done|]. intros [= <-]. split; [apply sample_padded_length; lia|apply padded_bytes].
  - intros hash secret p Hp. exists (padded 64 (secret_value secret)), (sample_der (secret_value secret)).
    cbn [secp256k1_ecdsa_sign secp256k1_ecdsa_verify secp256k1_ecdsa_signature_normalize
      secp256k1_ecdsa_signature_serialize_der secp256k1_ecdsa_signature_parse_der
      secp256k1_ecdsa_signature_parse_compact sample_group].
    rewrite !(proj2 (padded_value 0 _ _)). assert (Hv : secret_value secret mod 256 = secret_value secret)
      by (unfold secret_value; by rewrite Z.mod_mod). split_and!; [done| |by rewrite Hv|simpl; lia|simpl; lia| | |].
    + revert Hp. cbn [secp256k1_ec_pubkey_create sample_group]. unfold key_of. case_match; [done|]. intros [= <-].
      rewrite Hv. apply Z.eqb_eq. symmetry. apply key_value_of. rewrite <- Hv. apply Z.mod_pos_bound; lia.
    + apply sample_der_bytes.
    + unfold sample_der. cbn [length Nat.eqb List.last]. rewrite Hv. done.
    + exists [0], [0; secret_value secret mod 256]. split_and!; try done.
      * simpl; lia.
      * rewrite Hv. simpl. destruct (Z.eqb_spec (secret_value secret) 0); simpl; lia.
      * rewrite Hv. simpl strip_zeros. destruct (Z.eqb_spec (secret_value secret) 0) as [Hz|Hz];
          unfold padded; rewrite Hv; [rewrite Hz|]; done.
  - intros hash secret p Hp. exists (padded 64 (secret_value secret)), 0.
    cbn [secp256k1_ecdsa_sign_recoverable secp256k1_ecdsa_recover sample_group].
    rewrite sample_padded_length by lia. split_and!; [done|done|lia|lia|].
    rewrite (proj2 (padded_value 0 _ _)). rewrite <- Hp. cbn [secp256k1_ec_pubkey_create sample_group].
    unfold secret_value. by rewrite Z.mod_mod.
  - intros a b p q. cbn [secp256k1_ec_pubkey_create secp256k1_ec_pubkey_tweak_mul sample_group]. unfold key_of at 1 2.
    case_match; [done|]. case_match; [done|]. intros [= <-] [= <-].
    rewrite !key_value_of by (apply Z.mod_pos_bound; lia). f_equal. unfold secret_value.
    rewrite !Z.mod_mod by done. apply Z.mul_comm.
  - intros secret tweak p. cbn [secp256k1_ec_pubkey_create secp256k1_ec_pubkey_tweak_mul
      secp256k1_ec_privkey_tweak_mul sample_group]. unfold key_of at 1.
    case_match; [done|]. intros [= <-].
    rewrite key_value_of by (apply Z.mod_pos_bound; lia).
    unfold secret_value at 1. rewrite Z.mod_mod by done. fold (secret_value secret).
    unfold key_of. case_match; [done|]. cbn [mbind option_bind]. rewrite (proj2 (padded_value 0 _ _)).
    rewrite Z.mod_mod by done. by rewrite H0.
Qed.

#[local] Instance sample_alloc : VectorAlloc := {| reserve_capacity := fun n => n; vector_max_size := fun _ => 2 ^ 62 |}.

(** ** The properties at these inputs *)

Lemma encodings_roundtrip_witness :
  reads (R := Istream.t) read_variable_little_endian (write_variable_little_endian 70000) 70000 /\
  number.set_data (number.data (-1000)) max_number_size = Some (-1000) /\
  base64.decode_base64 (base64.encode_base64 [0xab; 0x09; 3; 4]) = Some [0xab; 0x09; 3; 4] /\
  base85.encode_base85 [0xab; 0x09; 3; 4] ≫= base85.decode_base85 0 = Some [0xab; 0x09; 3; 4] /\
  decode_base10 (encode_base10 123456789 8) 8 true = Some 123456789.
Proof.
  edestruct (encodings_roundtrip (R := Istream.t) 70000 (-1000) [0xab; 0x09; 3; 4] [] 123456789 8 0 true)
    as ((Hv & _) & Hn & _ & _ & H64 & H85 & H10).
  - concrete_wf.
  - split; reflexivity.
  - concrete_wf.
  - concrete_wf.
  - concrete_wf.
  - exact (conj Hv (conj (Hn max_number_size ltac:(by vm_compute)) (conj H64 (conj H85 H10)))).
Defined.

Definition sample_address : payment_address.t := payment_address.of_hash (sample_digest 20 [1; 2; 3]) 0.

Lemma sample_address_ok : address_ok sample_address.
Proof. unfold address_ok. concrete_wf. Qed.

Lemma address_texts_roundtrip_witness :
  payment_address.from_string payment_address.cashaddr_prefix_mainnet (payment_address.encoded sample_address) =
    Some sample_address /\
  exists text, payment_address.encoded_cashaddr sample_address = Some text /\
    payment_address.from_string payment_address.cashaddr_prefix_mainnet text = Some sample_address.
Proof.
  destruct (address_texts_roundtrip payment_address.cashaddr_prefix_mainnet sample_address sample_address_ok)
    as [He Hc].
  split; [exact He|]. apply Hc; [reflexivity|]. left. split; [reflexivity|]. left. reflexivity.
Defined.



(** The first character of the payload of an address is mistyped. *)
Lemma burst_detected_witness :
  cashaddr.decode (chars "bitcoincash:pr95sy3j9xwd2ap32xkykttr4cvcu7as4y0qverfuy") (chars "bitcoincash") = Some ([], []).
Proof.
  refine (cashaddr.burst_detected (chars "bitcoincash") [] (chars "q") (chars "p")
    (chars "r95sy3j9xwd2ap32xkykttr4cvcu7as4y0qverfuy") (chars "bitcoincash") (chars "bitcoincash")
    (default [] (snd <$> cashaddr.decode (chars "bitcoincash:qr95sy3j9xwd2ap32xkykttr4cvcu7as4y0qverfuy") [])) _ _ _ _ _ _ _ _ _).
  - apply (bool_decide_unpack _). vm_compute. exact I.
  - discriminate.
  - concrete_wf.
  - concrete_wf.
  - reflexivity.
  - simpl. lia.
  - discriminate.
  - vm_compute. reflexivity.
  - discriminate.
Defined.

Definition sample_secret : list Z := padded 32 77.
Definition sample_public : pubkey (Secp256k1 := sample_group) := "M"%char.
Definition sample_hd : hd_private.t :=
  hd_private.of_secret sample_secret (repeat 5 32) (mk_lineage hd_private.mainnet 0 0 0).

Lemma sample_hd_ok : private_key_ok sample_hd.
Proof.
  eexists _, _, _. split_and!; [reflexivity|vm_compute; reflexivity|..]; unfold lineage_ok; concrete_wf.
Qed.

Definition sample_filter : binary.t := binary.of_number 12 0xabcdef01.
Definition sample_bits : list bool := binary.fit 12 (binary.flat (to_little_endian 4 0xabcdef01)).

Lemma sample_filter_bits : binary.represents sample_filter sample_bits.
Proof. apply (binary.of_blocks_represents 12 (to_little_endian 4 0xabcdef01)). concrete_wf. Qed.

Definition sample_stealth : stealth_address.t :=
  stealth_address.mk true 42 (2 :: repeat 1 32) [2 :: repeat 1 32; 3 :: repeat 4 32] 2 sample_filter.

Lemma sample_stealth_ok : stealth_ok sample_stealth.
Proof.
  unfold stealth_ok. cbv beta. split; [reflexivity|]. split; [concrete_wf|]. split; [concrete_wf|].
  split; [cbn; concrete_wf|]. split; [cbn; concrete_wf|].
  split; [apply (bool_decide_unpack _); vm_compute; exact I|]. split; [concrete_wf|].
  exists sample_bits. split; [apply sample_filter_bits|vm_compute; lia].
Qed.

Lemma key_texts_roundtrip_witness :
  let wif := ec_private.of_secret sample_secret ec_private.mainnet true in
  ec_private.from_string (ec_private.encoded wif) (ec_private.payment_version wif) = wif /\
  hd_private.from_string_prefixes (hd_private.encoded sample_hd) hd_private.mainnet = sample_hd /\
  hd_public.from_string (hd_public.encoded (hd_private.to_public sample_hd)) = hd_private.to_public sample_hd /\
  stealth_address.from_string (stealth_address.encoded sample_stealth) = sample_stealth.
Proof.
  intros wif.
  edestruct (key_texts_roundtrip wif sample_hd (hd_private.to_public sample_hd)
    (ec_public.of_compressed (secp256k1_ec_pubkey_serialize true sample_public) true) sample_stealth) as (Hw & Hp & Hq & Ha & _).
  - unfold private_ok. concrete_wf.
  - apply sample_hd_ok.
  - unfold public_key_ok, lineage_ok. concrete_wf.
  - reflexivity.
  - concrete_wf.
  - split; [reflexivity|]. exists sample_public. reflexivity.
  - apply sample_stealth_ok.
  - exact (conj Hw (conj Hp (conj Hq Ha))).
Defined.

Lemma derive_commutes_witness :
  hd_private.to_public (hd_private.derive_private sample_hd 3) =
  hd_public.derive_public (hd_private.to_public sample_hd) 3.
Proof.
  refine (proj2 (derive_commutes sample_hd 3 sample_hd_ok _)). split; [discriminate|reflexivity].
Defined.

Lemma message_frame_roundtrip_witness :
  exists data, serialize level.bip31 (ping.of_nonce 77) 0xd9b4bef9 = Some data /\ zlen data = 32.
Proof.
  assert (Hping : frames ping.t) by apply message_frame_roundtrip.
  destruct (Hping Deserializer.t _ _ level.bip31 (ping.of_nonce 77) ping.default 0xd9b4bef9
    (write_8_bytes_little_endian 77)) as (data & Hs & Hz & _).
  - cbn. concrete_wf.
  - reflexivity.
  - concrete_wf.
  - concrete_wf.
  - exists data. exact (conj Hs Hz).
Defined.

(** A ping without its nonce, read into one that has a nonce. *)
Lemma messages_refuse_cleanly_witness :
  fst (fst (ping.from_data level.bip31 (ping.of_nonce 77) (rd_at (R := Istream.t) [1; 2; 3]))) = ping.default.
Proof.
  assert (Hping : refuses_cleanly ping.t as_default) by apply messages_refuse_cleanly.
  apply (Hping Istream.t _ _ level.bip31 (ping.of_nonce 77) (rd_at [1; 2; 3])). reflexivity.
Defined.

(** ** Signatures, stealth payments and bits *)

Lemma signatures_verify_witness :
  let k := ec_private.of_secret sample_secret ec_private.mainnet false in
  exists signature,
    signed_message.sign_message_private (chars "hello") k = Some signature /\
    signed_message.verify_message (chars "hello") (payment_address.from_public (ec_private.to_public k) 0) signature = true.
Proof.
  intros k.
  destruct (signed_message.signatures_verify k sample_public (chars "hello") 0 true reset_script sample_spend 0 1
    unversioned 0) as (_ & signature & Hs & _ & Hv); [reflexivity|vm_compute; reflexivity|].
  by exists signature.
Defined.

#[local] Instance sample_stealth_hash : StealthHash := {|
  hmac_sha256_hash := fun data key => sample_digest 32 (data ++ key);
  sha512_hash := sample_digest 64
|}.

#[local] Instance sample_stealth_hash_laws : StealthHashLaws.
Proof.
  split; intros data; cbn [sha512_hash sample_stealth_hash].
  - apply sample_digest_length; lia.
  - apply sample_digest_bytes.
Qed.

Lemma stealth_payment_witness :
  let receiver := stealth_receiver.make [] sample_secret (padded 32 5) binary.default 0 in
  let sender := stealth_sender.make (stealth_receiver.address receiver) [7] binary.default 0 in
  exists ephemeral,
    stealth.extract_ephemeral_key (copy_script (stealth_sender.stealth_script sender)) = Some ephemeral /\
    stealth_receiver.derive_address receiver ephemeral = Some (stealth_sender.address sender).
Proof.
  intros receiver sender.
  destruct (stealth_payment [] sample_secret (padded 32 5) binary.default 0 [7] binary.default sample_public "005"%char)
    as (_ & ephemeral & secret & He & Ha & _).
  - vm_compute. reflexivity.
  - vm_compute. reflexivity.
  - vm_compute. lia.
  - vm_compute. reflexivity.
  - exact (ex_intro _ ephemeral (conj He Ha)).
Defined.

Lemma stealth_script_found_witness :
  exists s, stealth.create_stealth_script sample_secret binary.default [7] = Some s.
Proof.
  apply (stealth_script_found sample_secret binary.default [7] sample_public).
  - vm_compute. reflexivity.
  - vm_compute. reflexivity.
  - exists 1. split_and!; [concrete_wf|vm_compute; discriminate|vm_compute; reflexivity].
Defined.

Lemma script_text_roundtrip_witness :
  let pay := from_operations (to_pay_key_hash_pattern (repeat 7 20)) in
  script_from_string (script_to_string 0 pay) = (from_operations (operations pay), true).
Proof.
  intros pay. apply script_text_roundtrip. apply (hash_ops_wf (repeat 7 20)); [concrete_wf|reflexivity].
Defined.

Lemma binary_refines_witness :
  binary.represents (binary.append sample_filter sample_filter) (sample_bits ++ sample_bits).
Proof.
  apply (binary.binary_refines sample_filter sample_bits sample_filter sample_bits 3 2 4 [1; 2; 3]
    sample_filter_bits sample_filter_bits); [concrete_wf|lia|concrete_wf|vm_compute; reflexivity].
Defined.

(** ** Encrypted keys, transactions and utilities: instances *)

(** A key derivation of the sizes asked for. *)
#[local] Instance sample_scrypt : ScryptHash := fun size data salt _ _ _ =>
  Some (sample_digest (Z.to_nat size) (data ++ salt)).

#[local] Instance sample_scrypt_laws : ScryptLaws.
Proof.
  split. intros size N p r data salt Hs _. exists (sample_digest (Z.to_nat size) (data ++ salt)).
  split_and!; [done| |apply sample_digest_bytes]. unfold zlen. rewrite sample_digest_length; destruct Hs as [->| ->]; lia.
Qed.

#[local] Instance sample_normal_form : NormalForm := fun text => text.

(** Addresses are written as a colon and their bytes in base 16. *)
#[local] Instance sample_boost : Boost := {|
  lexical_cast := fun w text =>
    if (length text =? 0)%nat then None
    else let value := Radix.bval 10 (map digit_value text) in if value <? 2 ^ w then Some value else None;
  ipv6_from_string := fun text => decode_base16 (drop 1 text);
  ipv6_to_string := fun ip => 58 :: encode_base16 (map u8 ip)
|}.

Lemma base16_ipv6_char data : bytes_ok data -> forallb is_ipv6_char (encode_base16 data) = true.
Proof.
  assert (Hall : forallb (fun b => forallb is_ipv6_char (hex_byte b)) (map Z.of_nat (seq 0 256)) = true) by (vm_compute; reflexivity).
  unfold encode_base16. induction 1 as [|b data Hb _ IH]; [done|]. cbn [map concat]. rewrite forallb_app, IH, andb_true_r.
  rewrite forallb_forall in Hall. apply Hall. apply in_map_iff. exists (Z.to_nat b). destruct Hb. split; [lia|].
  apply in_seq. lia.
Qed.

#[local] Instance sample_boost_laws : BoostLaws.
Proof.
  split.
  - intros w text Ht _. cbn. by destruct text.
  - done.
  - intros ip. split; [done|]. cbn [ipv6_to_string sample_boost forallb]. apply base16_ipv6_char.
    apply Forall_map, Forall_true. intros v. apply u8_byte.
  - intros ip _ Hb. cbn [ipv6_to_string ipv6_from_string sample_boost]. cbn [drop].
    assert (E : map u8 ip = ip).
    { induction Hb as [|b ip Hb _ IH]; [done|]. cbn [map]. rewrite IH. f_equal. unfold u8. by apply wrap_small. }
    rewrite E. by apply decode_encode_base16.
Qed.

(** A conversion that keeps the bytes. *)
#[local] Instance sample_locale : Locale := {| utf_to_wide := Some; utf_to_narrow := Some |}.

#[local] Instance sample_locale_laws : LocaleLaws.
Proof.
  split; cbn [utf_to_wide sample_locale].
  - done.
  - by intros a b x y [= <-] [= <-].
  - by intros a x [= <-].
  - by intros a x [= <-].
Qed.

(** ** Their properties at these inputs *)

Lemma encrypted_text_decrypts_witness :
  let uninitialized := aes.mk_context [] [] [] in
  exists key,
    encrypted_keys.encrypt uninitialized (repeat 0 43) sample_secret (chars "passphrase") 0 true = returned key /\
    ek_private.from_string (ek_private.encoded (ek_private.of_value key)) = ek_private.of_value key.
Proof.
  intros uninitialized.
  destruct (encrypted_text_decrypts uninitialized sample_secret sample_public (chars "passphrase") 0 true)
    as [(key & E & Hf & _) _]; [reflexivity|concrete_wf|concrete_wf|vm_compute; reflexivity|].
  exact (ex_intro _ key (conj E Hf)).
Defined.

Lemma shipped_mnemonics_witness :
  mnemonic.validate_mnemonic_any [chars "zoo"] (map language.lexicon_of language.all) = true <->
  exists lexicon entropy, In lexicon language.all /\ bytes_ok entropy /\ (length entropy mod 4 = 0)%nat /\
    (length entropy <= 1024)%nat /\ mnemonic.create_mnemonic entropy (language.lexicon_of lexicon) = [chars "zoo"].
Proof. refine (proj1 (language.shipped_mnemonics [chars "zoo"] _)). cbn. lia. Defined.

Lemma prioritized_mutex_safe_witness :
  exists t, prioritized_mutex.can_step true {[ 7%nat := prioritized_mutex.mk_use prioritized_mutex.low 0 ]} t.
Proof.
  refine (proj1 (proj2 (prioritized_mutex.prioritized_mutex_safe true _ _)) _).
  - eapply reachable_step; [apply reachable_init|]. exists 7%nat. apply prioritized_mutex.step_enter. reflexivity.
  - intros E. apply (f_equal (lookup 7%nat)) in E. discriminate E.
Defined.

Lemma notifications_delivered_witness :
  let m := subscriber.mk_machine (subscriber.mk false []) None [] [] [] in
  let r := resubscriber.mk_machine (resubscriber.mk false []) None [] [] [] [] [] in
  subscriber.delivered_in_order (handler := nat) (args := nat) m /\ resubscriber.delivered_in_order (handler := nat) (args := nat) r.
Proof.
  intros m r.
  destruct (notifications_delivered (handler := nat) (args := nat) m m m r r r) as ((Hm & _) & Hr & _).
  - eapply reachable_step; [apply reachable_init|]. exact (subscriber.step_start subscriber.init).
  - eapply reachable_step; [apply reachable_init|]. exact (resubscriber.step_start resubscriber.init).
  - exact (conj Hm Hr).
Defined.

Lemma serializer_refines_writer_witness :
  serializer.write_variable_little_endian 70000 (serializer.construct (repeat 0 9)) =
  serializer.stores (write_variable_little_endian 70000) (serializer.construct (repeat 0 9)).
Proof.
  destruct (serializer.serializer_refines_writer 70000 (chars "abc") 5 error.success (serializer.construct (repeat 0 9)))
    as ((_ & _ & _ & _ & _ & Hv & _) & _); [concrete_wf|concrete_wf|concrete_wf|exact Hv].
Defined.

(** A character of one byte and one of three, through a buffer of eight. *)
Lemma streambuf_converts_witness :
  exists s, unicode_streambuf.sputn_narrow 2 (fun _ => length) [65; 0xe2; 0x82; 0xac] unicode_streambuf.construct = Some (s, 4%nat) /\
    unicode_streambuf.sync 2 (fun _ => length) s = Some (unicode_streambuf.mk [] [65; 0xe2; 0x82; 0xac], 0).
Proof.
  destruct (unicode_streambuf.streambuf_converts 2 (fun _ => length) ltac:(lia) (fun _ _ => le_n _) [[65]; [0xe2; 0x82; 0xac]])
    as (w & s & n & Hw & Hs & _ & _ & _ & Hall).
  - apply Forall_cons_2; [|apply Forall_cons_2; [|apply Forall_nil_2]]; (split; [cbn; concrete_wf|eexists; reflexivity]).
  - destruct (Hall (fun _ _ => eq_refl)) as [Hn Hf]. injection Hw as <-. subst n. exact (ex_intro _ s (conj Hs Hf)).
Defined.

(** An output to the hash of a key, spent by the first input. *)
Definition sample_key_hash : list Z := key_hash (secp256k1_ec_pubkey_serialize true sample_public).

Definition key_hash_input : input :=
  mk_input (mk_output_point (new_point (repeat 1 32) 2) false true false 1 0
              (new_output 1000 (copy_script (from_operations (to_pay_key_hash_pattern sample_key_hash)))))
    (script_of_bytes []) reset_witness max_input_sequence.

Definition key_hash_tx : transaction :=
  new_transaction 1 0 [key_hash_input] [new_output 300 (script_of_bytes [0x51])].

Lemma signed_input_verifies_witness :
  exists sig tx',
    tx_functions.input_signature_old sample_secret (out_script (prevout_cache (previous_output key_hash_input))) key_hash_tx
      0 1 false = (error.success, sig) /\
    tx_functions.input_set sig (ec_public.of_compressed (secp256k1_ec_pubkey_serialize true sample_public) true) key_hash_tx 0 =
      Some (error.success, tx') /\
    verify_input tx' 0 0 = error.success.
Proof.
  refine (signed_input_verifies sample_secret sample_public
    (ec_public.of_compressed (secp256k1_ec_pubkey_serialize true sample_public) true) key_hash_tx 0 key_hash_input 1 0
    _ _ _ _ _ _ _ _ _).
  - vm_compute. reflexivity.
  - reflexivity.
  - reflexivity.
  - lia.
  - reflexivity.
  - split; vm_compute; reflexivity.
  - reflexivity.
  - concrete_wf.
  - vm_compute. discriminate.
Defined.

Definition sample_asset : keoken.create_asset.t := keoken.create_asset.mk (chars "asset") 1000.
Definition sample_send : keoken.send_tokens.t := keoken.send_tokens.mk 7 (-3).

Lemma asset_messages_carried_witness :
  carries (keoken.create_asset.to_data sample_asset) [new_point (repeat 1 32) 2] [(sample_address, 50000 - keoken.fees)] 1 5
    (keoken.tx_encode_create_asset (chars "bitcoincash") [new_point (repeat 1 32) 2] sample_address 50000 (chars "asset") 1000 0 1 5).
Proof.
  destruct (asset_messages_carried (chars "bitcoincash") [new_point (repeat 1 32) 2] sample_address sample_address
    50000 600 sample_asset sample_send 1 5) as (Hc & _ & _).
  - unfold create_ok. cbn zeta. split; [concrete_wf|]. split; [|concrete_wf; by vm_compute].
    apply (bool_decide_unpack _). vm_compute. exact I.
  - unfold send_ok. split; [concrete_wf|]. by vm_compute.
  - unfold destiny_ok. split; [apply sample_address_ok|]. split; [by vm_compute|]. vm_compute. discriminate.
  - apply sample_address_ok.
  - vm_compute. discriminate.
  - by vm_compute.
  - exact Hc.
Defined.
